(* ===== verification/_CoqProject ===== *)
-Q . S2P
Prelude.v
JsString.v
Regex.v
JsNumber.v
Json.v
Types.v
Ux.v
BootOrder.v
ResourceEvents.v
UseResource.v
NotificationStream.v
JobTracking.v
UseDraft.v
Dom.v
Widgets.v
RowComponent.v
VmMedia.v
PathSerializer.v
Client.v
Url.v
Sdk.v
Routes.v
Api.v
ApiCorrect.v
Session.v
EntryRows.v
Hardware.v
Schedule.v
VmActions.v
ServerNetworks.v
VmNetwork.v
CreateVm.v
CreateNetwork.v
VmUsb.v
VmSnapshots.v
VmDataDisk.v
ConsoleSockets.v
Consoles.v
VmPreview.v
Activity.v
Requests.v
Programs.v
Passwords.v
Account.v
MediaPages.v
NetworkPages.v
VmDisks.v
Inventory.v
MachinePages.v
Sse.v
FormBody.v
Params.v
QueryKeys.v
Endpoints.v
TypedCalls.v
JobQueue.v
JobService.v
JobSafety.v
JobStream.v
JobRuns.v
Storage.v
Hotplug.v
HostNetwork.v
NetworkSafety.v
NetworkConverges.v
Backups.v
BackupSafety.v
BackupPruning.v
