(* ===== verification/Prelude.v ===== *)
(** * maco web console: a verification library

    maco manages virtual machines on a Mac. A Go server ([src/pkg], [src/cmd]) drives QEMU and serves an
    HTTP API; a web console in TypeScript and React ([src/web/src]) is what its users act through. This
    library models the console: the hooks that load and follow the server's state, the client that talks
    to it, the session, and the forms that change machines, with the theorems that make them correct; and of
    the server what the console depends on: its rules for requests, its queue of operations and its stream.

    ** Parts and how they interact

    A component of a page loads data with [useResource], which shares loads between components and
    reloads when the notification stream reports a change; the stream also carries the jobs that
    requests start, which [JobsProvider] merges with the jobs this page submitted and [useRowAction]
    turns into the busy state of a row. Forms edit a draft ([useDraft]) kept in the session storage and
    save it with functions of [api.ts], which call the generated client, whose interceptors add the
    session's token and end the session when the server says so.

    ** Files

    - [Prelude]: notations, the hint database [maco], tactics, lemmas on options and lists, and state
      machines: [run], [reachable] and their induction principles.
    - [JsString], [Regex], [JsNumber], [Json]: what the source uses of the language. Strings are UTF-8
      bytes; regular expressions are decided by derivatives and proved against their meaning; JSON texts
      of integers, strings, arrays and objects with [parse_stringify]; the class [JsonCodec] of types
      with a JSON form.
    - [Types]: the records of [api/generated/types.gen.ts].
    - [Ux], [BootOrder]: [ux.ts] and [bootOrder.ts], the second against [pkg/engine/media.go].
    - [ResourceEvents], [UseResource]: [hooks/resourceEvents.ts], [useResource.ts], [useEntity.ts]. All
      mounted hooks and shared loads are one [world]; a [step] is one task of the browser.
    - [NotificationStream]: [hooks/useNotificationStream.ts], [useJobs.ts]: the connection as a state
      machine over the socket's and the timers' events.
    - [JobTracking]: [components/JobsProvider.tsx], [hooks/useJobTracking.ts], [useJobAction.ts],
      [useRowAction.ts].
    - [UseDraft]: [hooks/useDraft.ts] over any value of the class [Draftable], which every [JsonCodec]
      implements.
    - [Dom], [Widgets], [RowComponent]: what a component renders: a tree whose enabled controls carry the
      actions they perform. A component is a state, a [step] and a [view]; what a user can do in a state is
      what its view [offers], and a [legal] history is one in which users did nothing else. [Widgets] holds
      the dialogs and notices pages share, [RowComponent] the panels that run one request at a time, with
      their classes and laws.
    - [VmMedia], [EntryRows], [Hardware], [Schedule]: [components/VMMedia.tsx], the number, memory and
      choice rows, [VMHardware.tsx] and [VMBackupSchedule.tsx].
    - [VmActions], [VmNetwork], [VmUsb], [VmSnapshots], [VmDataDisk], [CreateVm], [CreateNetwork]: the menu of
      a machine, its panels of adapters, USB devices, snapshots and backups, and data disk, and the two
      dialogs that create; with the rules of [pkg/engine] and [pkg/network] that their requests have to
      pass, those on networks and adapters in [ServerNetworks].
    - [ConsoleSockets], [Consoles]: the sessions of the serial, graphical and host consoles over their
      sockets, as instances of one class, and the components that open and close them; and the other ends of the
      serial line and the shell: whom [acceptAuthenticated] of [pkg/api/job_stream.go] lets in, and what
      [console.go] and [host_console.go] read until they close.
    - [VmPreview]: [components/VMPreview.tsx]: the previews of a machine's screen, their object URLs and
      subscriptions.
    - [Requests], [Account], [MediaPages]: components that await one request, as a class with its laws, and the
      API keys, the password, the upload form, the library's rows and the catalog built on it. [Passwords]: what
      [changePassword] of [pkg/api/authentication.go] does, with [pkg/engine/users.go], over the users and bcrypt.
    - [NetworkPages], [VmDisks], [Inventory], [MachinePages]: the rows and page of networks, the disks of a
      machine, the lists of machines and disks, and the page of a machine with its tabs and overview.
    - [Activity]: the list of operations, its pages against [pkg/jobs/pages.go], the panel and the page of
      one operation.
    - [PathSerializer], [Client], [Sdk]: the generated client of [api/generated]: path templates and
      queries, headers, interceptors and the request pipeline, and the table of the operations.
    - [Url], [Routes]: URLs as the platform reads them, and the table of routes of [pkg/api/server.go], with what
      [net/url] reads of a path; the router is any instance of the class [Router] of what it documents.
    - [Api], [ApiCorrect]: every function of [api.ts], over the page (storage, location, navigation), and
      what a call does end to end.
    - [Endpoints], [TypedCalls]: what [types.gen.ts] declares of every operation, as data, and that the calls of
      [api.ts] keep to it; and the gate of [pkg/api/server.go] that the requests of the routes behind it pass.
    - [Sse], [Params], [QueryKeys], [FormBody]: the rest of the generated client, which the console does not
      call: [core/serverSentEvents.gen.ts] over a world, with the streams of [client.gen.ts], and
      [core/params.gen.ts], [queryKeySerializer.gen.ts] and the bodies of forms of [bodySerializer.gen.ts].
    - [JobQueue], [JobService]: the queue of operations ([pkg/jobs/jobs.go], [lock.go], [public.go]): every function
      as a program of commands to Redis and the queue; what these services document, as the class [Service] with an
      instance in memory; and the server as any number of such programs, interleaved command by command, while
      locks are renewed beside their holders, or not, and time passes.
    - [JobSafety], [JobRuns]: a program logic of what a function knows of the services, with what holds of every
      run; and what the functions do when they run alone.
    - [JobStream]: [pkg/api/job_stream.go]: the messages of a stream, and the page that hears them.
    - [Storage]: [pkg/storage/files.go]: the writing of a file over a file system that may fail and crash at any point.
    - [Hotplug]: [pkg/vm/network_hotplug.go]: changing the adapter of a running machine, over the monitor of QEMU.
    - [HostNetwork]: [pkg/network/reconcile.go], [vlan.go], [store.go] and [pkg/hostnet/hostnet.go]: applying and
      destroying the bridges and VLANs of the host, as programs of commands; what [ifconfig] documents is the class
      [Programs.Machine]. [NetworkSafety]: what applying may change, whatever fails; [NetworkConverges]: what it
      achieves when the host carries out what it accepts.
    - [Backups]: [pkg/engine/backup.go], the pruning of [schedule.go], [pkg/manifest/manifest.go] and [pkg/types/vm.go]:
      making, listing, deleting, restoring and pruning backups, over the directories of disks and backups and machines
      that run meanwhile. [BackupSafety]: what a backup holds, what restoring it may touch, and that it comes back;
      [BackupPruning]: which backups are removed, and when the search for the name of a new machine ends.
    - [Session]: [hooks/useSession.tsx], the shell of [App.tsx], [pages/Login.tsx].

    ** What the theorems show

    - Loading: no signal is lost, one load is in flight, stale closures show nothing, loading ends.
    - Stream: an active connection is alive or has one reconnection pending, backs off, ends for good, and
      its list of jobs is the map of latest states.
    - Jobs: which rows are busy and until when; what the page is given.
    - Dialogs and panels: a request is one the view offered and, where it destroys something, one that was
      confirmed; one is in flight at a time; what is sent is what was typed, and the server accepts it.
    - Consoles and previews: one session, whose answers alone are shown; what is typed arrives, in order
      and after the credentials, at a server that lets the session in; no image of another machine or another boot, none that was revoked, and
      no lost refresh.
    - Account and pages: passwords change as typed, or the session ends, or the form says what the server
      refused; keys, media and networks go only when
      asked twice and nothing uses them; users without the rights see the overview alone.
    - Activity: the pages hold each matching operation once; the panel previews the right operations.
    - Drafts and forms: drafts survive reloads, what is saved is what is shown, and the server accepts it;
      amounts of memory survive being shown and read back.
    - Calls: one request, with the operation's method and path and the session's token; each path matches
      its own route of the server only, whatever the identifiers hold; queries read back; how a call
      settles for every answer; when the session ends, and that its way back survives the sign-in.
    - Types: no call of the module sends what its operation does not declare; whom the server's gate lets pass is
      whom the console takes for it, at every route behind it; the adapters the server saves are well formed.
    - Streams: how the network cuts a text does not matter, reconnections are bounded and resume after the last
      event; a stream asks for what a plain call would ask for.
    - Queue: an operation is executed as submitted, and at most once and one at a time while no lock lapses under a
      living worker, whatever interleaves, fails or is killed ([JobSafety.lapsed_lock_two_at_once] is two at once when
      one does: the lock is no fence, as [docs/multi-instance.md] says); a worker does what its specification says; orphans are settled; the history is bounded; and what a
      page shows is what the server has.
    - Files: a written file holds the old or the new contents whole, whatever crashes; and which of the two.
    - Running machines: a change of an adapter is carried out, or undone, or marked as uncertain.
    - Networks of the host: applying one harms nothing it did not make, leaves nothing unknown behind but what the
      host refuses to destroy, converges to its manifest, and does nothing the second time.
    - Backups: one that can be seen is whole, and of one moment; restoring it gives the machine back and harms nothing
      else; pruning removes what is too old or too much, and nothing more.
    - Other helpers: each argument goes to one place; the key of a query is canonical; bodies read back.

    ** Conventions and bounds

    - An asynchronous function is cut at its awaits: a step runs to the next one, and answers are events
      in any order, so every interleaving is a run.
    - Services the server uses are known by what they document: an error does not say whether a command was carried
      out, keys expire, the queue may deliver a task again, processes may end between any two commands. Records are
      values; their JSON is that of [Json]. The polls of the lock and the pages of the queue's tasks are bounded by
      arguments: the time a task has, and the number of tasks.
    - Functions of the server are trees of commands ([Programs]); a run of one may be killed before any command. The
      names a host gives to what it makes are arbitrary fresh ones, as are the identifiers and temporary directories
      of backups; a running machine may write its disks before any command; a restoration as a new machine gives
      nothing while it is looking for a name, of which it tries as many as an argument says. The
      convergence of a network asks that enough short names are free.
    - Calls of the client run in a monad of a world and thrown values; the world a [fetch] leaves is
      arbitrary, so whatever happens while it is awaited is covered.
    - Numbers the console handles are integers; where the language's doubles are exact only up to a bound
      (amounts of memory) the bound is stated beside the definition.
    - Fuel occurs in [Json.parse_value] (twice the length of the text is enough, [need_length]),
      [JsString.split_fuel] (the length is enough, [split_fuel_enough]), [Sse.attempts] (the maximum of
      attempts is enough, [attempts_end]; without a maximum the generator need not end) and
      [Endpoints.conforms], which unfolds names of types (twelve levels are enough, [conforms_enough]).
    - Third-party code (React, the router, the component library, the platform's [fetch], storage and
      URLs) enters by what the source relies on: state updates and effects in order, controls that do
      nothing while disabled, forms that are not submitted while invalid.

    ** Not modelled

    The server, but for its routes, its gate, its queue and stream of operations, its networks, files, backups and
    adapters of running machines, and the rules that decide whether it accepts the console's requests; the periodic submission
    of screenshots and backups; the freezing of a guest and the copying of its blocks by QEMU, which are known by
    what they give; styles, icons and layout; the terminal emulator and the frame buffer client inside the consoles;
    artwork, links and the page that only places the list of operations. *)

From Stdlib Require Export Ascii String Lia.
From stdpp Require Export base strings gmap relations numbers list.

#[export] Set Default Proof Using "Type".
#[export] Set Asymmetric Patterns.

Declare Scope maco_scope.
Delimit Scope maco_scope with maco.
Open Scope maco_scope.

(** ** Automation *)

Create HintDb maco discriminated.
#[export] Hint Constants Opaque : maco.
Create Rewrite HintDb maco_simpl.
Create Rewrite HintDb maco_bool.

(** Turn the boolean guards of the code into propositions, everywhere. *)
#[export] Hint Rewrite andb_true_iff orb_true_iff negb_true_iff andb_false_iff orb_false_iff
  negb_false_iff String.eqb_eq String.eqb_neq Z.eqb_eq Z.eqb_neq Z.leb_le Z.leb_gt Z.ltb_lt Z.ltb_ge
  Nat.eqb_eq Nat.eqb_neq Nat.leb_le Nat.leb_gt Nat.ltb_lt Nat.ltb_ge : maco_bool.

Ltac unbool :=
  repeat (autorewrite with maco_bool in *; destruct_and?; simplify_eq/=).

(** Split every [if]/[match] of the goal, keep the equations, drop the impossible cases. *)
Ltac split_cases := repeat (case_match; simplify_eq/=; try done).

(** ** Options as the nullable values of the source *)

(** [x || d] on a value that may be [undefined]. *)
Definition or_else {A} (d : A) (o : option A) : A := default d o.
Notation "o '|?|' d" := (or_else d o) (at level 50, left associativity) : maco_scope.

(** [s || d] on a string: the empty string is falsy. *)
Definition str_or (s d : string) : string := if String.eqb s "" then d else s.
Notation "s '||s' d" := (str_or s d) (at level 50, left associativity) : maco_scope.

Lemma str_or_nonempty s d : s ≠ "" → str_or s d = s.
Proof. unfold str_or. by intros ?%String.eqb_neq; case_match. Qed.

(** The truth value of a string. *)
Definition truthy (s : string) : bool := negb (String.eqb s "").

Lemma truthy_true s : truthy s = true ↔ s ≠ "".
Proof. unfold truthy. rewrite negb_true_iff. apply String.eqb_neq. Qed.
Lemma truthy_false s : truthy s = false ↔ s = "".
Proof. unfold truthy. rewrite negb_false_iff. apply String.eqb_eq. Qed.

#[export] Hint Rewrite truthy_true truthy_false : maco_bool.

(** ** Arrays *)

Lemma list_sum_cons x l : list_sum (x :: l) = (x + list_sum l)%nat.
Proof. done. Qed.

(** [Array.prototype.includes] on strings. *)
Definition includes_str (l : list string) (x : string) : bool := existsb (String.eqb x) l.

Lemma includes_str_spec l x : includes_str l x = true ↔ x ∈ l.
Proof.
  unfold includes_str. rewrite existsb_exists. setoid_rewrite String.eqb_eq.
  rewrite list_elem_of_In. naive_solver.
Qed.
Lemma includes_str_false l x : includes_str l x = false ↔ x ∉ l.
Proof. rewrite <- includes_str_spec. by destruct (includes_str l x). Qed.

#[export] Hint Rewrite includes_str_spec includes_str_false : maco_bool.

(** [new Set(l)] spread back into an array: the first occurrence of each element. *)
Fixpoint uniq (l : list string) : list string :=
  match l with
  | [] => []
  | x :: r => x :: filter (.≠ x) (uniq r)
  end.

Lemma elem_of_uniq l x : x ∈ uniq l ↔ x ∈ l.
Proof.
  induction l as [|y l IH]; simpl; [done|].
  rewrite !elem_of_cons, list_elem_of_filter, IH.
  destruct (decide (x = y)); naive_solver.
Qed.

Lemma NoDup_uniq l : NoDup (uniq l).
Proof.
  induction l as [|y l IH]; simpl; constructor.
  - rewrite list_elem_of_filter. naive_solver.
  - by apply NoDup_filter.
Qed.

Lemma filter_all {A} (P : A → Prop) `{!∀ x, Decision (P x)} (l : list A) :
  (∀ x, x ∈ l → P x) → filter P l = l.
Proof.
  induction l as [|y l IH]; intros Hl; [done|].
  rewrite filter_cons_True, IH; [done| |]; intros; apply Hl; set_solver.
Qed.

Lemma filter_none {A} (P : A → Prop) `{!∀ x, Decision (P x)} (l : list A) :
  (∀ x, x ∈ l → ¬ P x) → filter P l = [].
Proof.
  induction l as [|y l IH]; intros Hl; [done|].
  rewrite filter_cons_False, IH; [done| |]; intros; apply Hl; set_solver.
Qed.

Lemma uniq_NoDup_id l : NoDup l → uniq l = l.
Proof.
  induction 1 as [|x l Hx Hl IH]; simpl; [done|].
  rewrite IH, filter_all; [done|]. intros y Hy ->. done.
Qed.

Lemma filter_comm {A} (P Q : A → Prop) `{!∀ x, Decision (P x), !∀ x, Decision (Q x)} (l : list A) :
  filter P (filter Q l) = filter Q (filter P l).
Proof.
  induction l as [|x l IH]; [done|].
  destruct (decide (P x)), (decide (Q x)); rewrite ?filter_cons_True, ?filter_cons_False by done;
    rewrite ?filter_cons_True, ?filter_cons_False by done; by rewrite ?IH.
Qed.

Lemma uniq_filter (P : string → Prop) `{!∀ x, Decision (P x)} (l : list string) :
  uniq (filter P l) = filter P (uniq l).
Proof.
  induction l as [|x l IH]; [done|].
  destruct (decide (P x)); cbn [uniq].
  - rewrite !filter_cons_True by done. cbn [uniq]. by rewrite IH, filter_comm.
  - rewrite !filter_cons_False by done. rewrite IH, filter_comm. symmetry. apply filter_all.
    intros y [Hy _]%list_elem_of_filter ->. done.
Qed.

Lemma uniq_app (l k : list string) : uniq (l ++ k) = uniq l ++ filter (.∉ l) (uniq k).
Proof.
  induction l as [|x l IH]; simpl.
  - symmetry. apply filter_all. intros y _. apply not_elem_of_nil.
  - rewrite IH, filter_app, list_filter_filter. do 2 f_equal. apply list_filter_iff.
    intros y. rewrite not_elem_of_cons. tauto.
Qed.

(** [find] returns an element of the array that satisfies the test. *)
Lemma find_some_iff {A} (f : A → bool) (l : list A) x : List.find f l = Some x → x ∈ l ∧ f x = true.
Proof. intros [H ?]%find_some. by apply list_elem_of_In in H. Qed.

Lemma find_none_iff {A} (f : A → bool) (l : list A) :
  List.find f l = None ↔ ∀ x, x ∈ l → f x = false.
Proof.
  induction l as [|y l IH]; cbn.
  - split; [|done]. intros _ x Hx. by apply not_elem_of_nil in Hx.
  - destruct (f y) eqn:E; rewrite ?IH; split; intros Hl; try done.
    + rewrite (Hl y) in E; [done|]. by apply elem_of_cons; left.
    + intros x [->|?]%elem_of_cons; auto.
    + intros x Hx. apply Hl. by apply elem_of_cons; right.
Qed.

(** ** State machines *)

(** Runs of a step function over a list of events, with the effects they emit in order. *)
Section runs.
Context {S E O : Type} (step : S → E → S * list O).

Fixpoint run (s : S) (es : list E) : S * list O :=
  match es with
  | [] => (s, [])
  | e :: es => let '(s', o) := step s e in let '(s'', o') := run s' es in (s'', o ++ o')
  end.

Definition reachable (init s : S) : Prop := ∃ es, (run init es).1 = s.

Lemma run_app s es1 es2 :
  run s (es1 ++ es2) =
    let '(s1, o1) := run s es1 in let '(s2, o2) := run s1 es2 in (s2, o1 ++ o2).
Proof.
  revert s. induction es1 as [|e es1 IH]; intros s; simpl.
  - by destruct (run s es2).
  - destruct (step s e) as [s' o]. rewrite IH. destruct (run s' es1) as [s1 o1].
    destruct (run s1 es2). by rewrite app_assoc.
Qed.

(** An invariant that every step preserves holds after every run. *)
Lemma run_invariant (I : S → Prop) :
  (∀ s e, I s → I (step s e).1) → ∀ es s, I s → I (run s es).1.
Proof.
  intros Hstep. induction es as [|e es IH]; intros s Hs; simpl; [done|].
  specialize (Hstep s e Hs). destruct (step s e) as [s' o]; simpl in *.
  specialize (IH s' Hstep). by destruct (run s' es).
Qed.

(** What holds of the effects of every step from a state of the invariant holds of every effect. *)
Lemma run_effects (I : S → Prop) (P : O → Prop) :
  (∀ s e, I s → I (step s e).1) → (∀ s e, I s → Forall P (step s e).2) →
  ∀ es s, I s → Forall P (run s es).2.
Proof.
  intros Hstep HP. induction es as [|e es IH]; intros s Hs; simpl; [constructor|].
  specialize (Hstep s e Hs). specialize (HP s e Hs). destruct (step s e) as [s' o]; simpl in *.
  specialize (IH s' Hstep). destruct (run s' es) as [s'' o']; simpl in *. by apply Forall_app.
Qed.

Lemma reachable_invariant (I : S → Prop) init s :
  I init → (∀ s e, I s → I (step s e).1) → reachable init s → I s.
Proof. intros Hi Hs [es <-]. by apply run_invariant. Qed.
End runs.
