(* ===== verification/JsString.v ===== *)
(** * Strings of the console

    A JavaScript string is modelled by its UTF-8 encoding, as a [string] of bytes: the literals of
    the source are then the same literals here, [===], [startsWith], [includes], [split] and [join]
    on ASCII needles are the byte operations, and [encodeURIComponent], which the language defines
    on the UTF-8 encoding, works byte by byte. Strings with lone surrogates have no encoding and are
    outside the model ([encodeURIComponent] throws on them). *)

From S2P Require Import Prelude.
From stdpp Require Export pretty.
Local Open Scope string_scope.

#[global] Arguments String.append !_ _ / : simpl nomatch.

(** ** Characters *)

Definition code (c : ascii) : N := N_of_ascii c.
Definition in_range (lo hi : N) (c : ascii) : bool := (N.leb lo (code c) && N.leb (code c) hi)%bool.
Definition is_digit : ascii → bool := in_range 48 57.
Definition is_upper : ascii → bool := in_range 65 90.
Definition is_lower : ascii → bool := in_range 97 122.
Definition is_alnum (c : ascii) : bool := (is_upper c || is_lower c || is_digit c)%bool.
Definition is_hex (c : ascii) : bool := (is_digit c || in_range 97 102 c || in_range 65 70 c)%bool.
Definition is_char (d c : ascii) : bool := Ascii.eqb d c.

Lemma is_char_spec d c : is_char d c = true ↔ c = d.
Proof. unfold is_char. rewrite Ascii.eqb_eq. naive_solver. Qed.

(** ** Bytes *)

Fixpoint chars (s : string) : list ascii :=
  match s with "" => [] | String c r => c :: chars r end.
Fixpoint unchars (l : list ascii) : string :=
  match l with [] => "" | c :: r => String c (unchars r) end.

Lemma unchars_chars s : unchars (chars s) = s.
Proof. induction s; simpl; congruence. Qed.
Lemma chars_unchars l : chars (unchars l) = l.
Proof. induction l; simpl; congruence. Qed.
Lemma chars_app s t : chars (s ++ t) = (chars s ++ chars t)%list.
Proof. induction s; simpl; congruence. Qed.
Lemma unchars_app l k : unchars (l ++ k)%list = unchars l ++ unchars k.
Proof. induction l; simpl; congruence. Qed.
#[export] Instance chars_inj : Inj (=) (=) chars.
Proof. intros s t H. by rewrite <- (unchars_chars s), H, unchars_chars. Qed.
#[export] Instance unchars_inj : Inj (=) (=) unchars.
Proof. intros s t H. by rewrite <- (chars_unchars s), H, chars_unchars. Qed.
Lemma length_chars s : length (chars s) = String.length s.
Proof. induction s; simpl; congruence. Qed.

#[export] Hint Rewrite unchars_chars chars_unchars chars_app unchars_app length_chars : maco_simpl.

Lemma str_app_assoc (s t u : string) : (s ++ t) ++ u = s ++ (t ++ u).
Proof. induction s; simpl; congruence. Qed.
Lemma str_app_nil_r (s : string) : s ++ "" = s.
Proof. induction s; simpl; congruence. Qed.
Lemma str_app_inv_head (s t u : string) : s ++ t = s ++ u → t = u.
Proof. induction s; simpl; [done|]. intros [=]. auto. Qed.

Definition all_chars (f : ascii → bool) (s : string) : bool := forallb f (chars s).

Lemma all_chars_spec f s : all_chars f s = true ↔ ∀ c, c ∈ chars s → f c = true.
Proof. unfold all_chars. rewrite forallb_forall. by setoid_rewrite list_elem_of_In. Qed.
Lemma all_chars_app f s t : all_chars f (s ++ t) = (all_chars f s && all_chars f t)%bool.
Proof. unfold all_chars. by rewrite chars_app, forallb_app. Qed.

(** ** Searching *)

Fixpoint strip_prefix (p s : string) : option string :=
  match p, s with
  | "", _ => Some s
  | String a p, String b s => if Ascii.eqb a b then strip_prefix p s else None
  | _, "" => None
  end.

Lemma strip_prefix_spec p s r : strip_prefix p s = Some r ↔ s = p ++ r.
Proof.
  revert s. induction p as [|a p IH]; intros [|b s]; simpl; try naive_solver.
  destruct (Ascii.eqb_spec a b) as [->|]; [rewrite IH|]; naive_solver.
Qed.

(** [s.startsWith(p)] *)
Definition starts_with (p s : string) : bool :=
  match strip_prefix p s with Some _ => true | None => false end.

Lemma starts_with_strip p s :
  starts_with p s = match strip_prefix p s with Some _ => true | None => false end.
Proof. done. Qed.

Lemma starts_with_spec p s : starts_with p s = true ↔ ∃ r, s = p ++ r.
Proof.
  rewrite starts_with_strip. split.
  - destruct (strip_prefix p s) eqn:E; [|done]. apply strip_prefix_spec in E. eauto.
  - intros [r ->]. destruct (strip_prefix p (p ++ r)) eqn:E; [done|].
    assert (strip_prefix p (p ++ r) = Some r) by by apply strip_prefix_spec. congruence.
Qed.

#[global] Arguments starts_with : simpl never.

(** [s.includes(needle)] *)
Fixpoint includes (needle s : string) : bool :=
  starts_with needle s || match s with "" => false | String _ r => includes needle r end.

Lemma includes_spec n s : includes n s = true ↔ ∃ a b, s = a ++ n ++ b.
Proof.
  induction s as [|c s IH]; simpl; rewrite orb_true_iff, starts_with_spec.
  - split; [intros [[r ->]|]; [by exists "", r|done] |].
    intros (a & b & H). left. destruct a; simpl in *; [eauto|done].
  - rewrite IH. split.
    + intros [[r ->]|(a & b & ->)]; [by exists "", r|by exists (String c a), b].
    + intros ([|d a] & b & H); simpl in *; [left; eauto|]. injection H as -> ->. right. eauto.
Qed.

Lemma includes_false n s a b : includes n s = false → s ≠ a ++ n ++ b.
Proof. intros H ->. assert (includes n (a ++ n ++ b) = true) by (apply includes_spec; eauto). congruence. Qed.

(** [s.endsWith(p)] *)
Definition rev_str (s : string) : string := unchars (rev (chars s)).
Definition ends_with (p s : string) : bool := starts_with (rev_str p) (rev_str s).

Lemma rev_str_app s t : rev_str (s ++ t) = rev_str t ++ rev_str s.
Proof. unfold rev_str. by rewrite chars_app, rev_app_distr, unchars_app. Qed.
Lemma rev_str_involutive s : rev_str (rev_str s) = s.
Proof. unfold rev_str. by rewrite chars_unchars, rev_involutive, unchars_chars. Qed.

Lemma ends_with_spec p s : ends_with p s = true ↔ ∃ r, s = r ++ p.
Proof.
  unfold ends_with. rewrite starts_with_spec. split; intros [r H].
  - exists (rev_str r). rewrite <- (rev_str_involutive s), H, rev_str_app. by rewrite rev_str_involutive.
  - exists (rev_str r). by rewrite H, rev_str_app.
Qed.

(** ** [split] and [join] *)

(** [s.split(c)] for a one-character separator: never empty. *)
Fixpoint split_on (c : ascii) (s : string) : list string :=
  match s with
  | "" => [""]
  | String d r =>
      if Ascii.eqb d c then "" :: split_on c r
      else match split_on c r with
           | [] => [String d ""]
           | w :: ws => String d w :: ws
           end
  end.

(** [l.join(sep)] *)
Fixpoint join (sep : string) (l : list string) : string :=
  match l with
  | [] => ""
  | [x] => x
  | x :: r => x ++ sep ++ join sep r
  end.

Lemma join_cons sep x y l : join sep (x :: y :: l) = x ++ sep ++ join sep (y :: l).
Proof. done. Qed.

Lemma split_on_nonempty c s : split_on c s ≠ [].
Proof. destruct s; simpl; [done|]. repeat case_match; done. Qed.

Lemma split_on_no_sep c s : c ∉ chars s → split_on c s = [s].
Proof.
  induction s as [|d s IH]; simpl; intros H; [done|].
  rewrite elem_of_cons in H. destruct (Ascii.eqb_spec d c) as [->|]; [naive_solver|].
  rewrite IH; naive_solver.
Qed.

Lemma split_on_cons c s t : c ∉ chars s → split_on c (s ++ String c t) = s :: split_on c t.
Proof.
  induction s as [|d s IH]; simpl; intros H.
  - by rewrite Ascii.eqb_refl.
  - rewrite elem_of_cons in H. destruct (Ascii.eqb_spec d c) as [->|]; [naive_solver|].
    rewrite IH; naive_solver.
Qed.

Lemma split_on_join c l : l ≠ [] → Forall (λ s, c ∉ chars s) l → split_on c (join (String c "") l) = l.
Proof.
  induction l as [|x l IH]; [done|]. intros _ [Hx Hl]%Forall_cons.
  destruct l as [|y l]; [by apply split_on_no_sep|].
  rewrite join_cons. change (String c "" ++ ?r) with (String c r). by rewrite split_on_cons, IH.
Qed.

Lemma join_split_on c s : join (String c "") (split_on c s) = s.
Proof.
  induction s as [|d s IH]; [done|]. cbn [split_on].
  pose proof (split_on_nonempty c s) as Hne.
  destruct (Ascii.eqb_spec d c) as [->|]; destruct (split_on c s) as [|w ws]; try done.
  - rewrite join_cons, IH. done.
  - destruct ws as [|w' ws]; rewrite ?join_cons, <- IH; done.
Qed.

(** Splitting distributes over a separator, wherever it is. *)
Lemma split_on_app c s t : split_on c (s ++ String c t) = (split_on c s ++ split_on c t)%list.
Proof.
  induction s as [|d s IH]; simpl.
  - by rewrite Ascii.eqb_refl.
  - rewrite IH. destruct (Ascii.eqb_spec d c) as [->|]; [done|].
    pose proof (split_on_nonempty c s). by destruct (split_on c s).
Qed.

Lemma split_on_pieces c s : Forall (λ w, c ∉ chars w) (split_on c s).
Proof.
  induction s as [|d s IH]; simpl; [repeat constructor; set_solver|].
  destruct (Ascii.eqb_spec d c) as [->|]; [constructor; [set_solver|done]|].
  destruct (split_on c s) as [|w ws]; [repeat constructor; set_solver|].
  apply Forall_cons in IH as [? ?]. constructor; [set_solver|done].
Qed.

#[export] Hint Resolve split_on_nonempty split_on_pieces : maco.

(** ** [trim] *)

(** The white space of the language: five ASCII controls, the blank, and the encodings of U+00A0,
    U+1680, U+2000 to U+200A, U+2028, U+2029, U+202F, U+205F, U+3000 and U+FEFF. *)
Definition is_ws1 (c : ascii) : bool := (in_range 9 13 c || is_char " " c)%bool.
Definition is_ws2 (a b : ascii) : bool := (N.eqb (code a) 194 && N.eqb (code b) 160)%bool.
Definition is_ws3 (a b c : ascii) : bool :=
  let '(x, y, z) := (code a, code b, code c) in
  (N.eqb x 225 && N.eqb y 154 && N.eqb z 128
   || N.eqb x 226 && N.eqb y 128 && (N.leb 128 z && N.leb z 138 || N.eqb z 168 || N.eqb z 169 || N.eqb z 175)
   || N.eqb x 226 && N.eqb y 129 && N.eqb z 159
   || N.eqb x 227 && N.eqb y 128 && N.eqb z 128
   || N.eqb x 239 && N.eqb y 187 && N.eqb z 191)%bool.

Fixpoint trim_start (s : string) : string :=
  match s with
  | "" => ""
  | String a r =>
      if is_ws1 a then trim_start r else
      match r with
      | "" => s
      | String b r2 =>
          if is_ws2 a b then trim_start r2 else
          match r2 with
          | "" => s
          | String c r3 => if is_ws3 a b c then trim_start r3 else s
          end
      end
  end.

(** The same from the end, on the reversed bytes. *)
Fixpoint trim_rev (s : string) : string :=
  match s with
  | "" => ""
  | String a r =>
      if is_ws1 a then trim_rev r else
      match r with
      | "" => s
      | String b r2 =>
          if is_ws2 b a then trim_rev r2 else
          match r2 with
          | "" => s
          | String c r3 => if is_ws3 c b a then trim_rev r3 else s
          end
      end
  end.

Definition trim_end (s : string) : string := rev_str (trim_rev (rev_str s)).
Definition trim (s : string) : string := trim_end (trim_start s).

Example trim_ex : trim ("  a b " ++ "
") = "a b".
Proof. reflexivity. Qed.

Definition printable (c : ascii) : bool := in_range 33 126 c.

Lemma trim_start_printable c s : printable c = true → trim_start (String c s) = String c s.
Proof.
  intros Hc. assert (is_ws1 c = false) as H1.
  { revert Hc. unfold printable, is_ws1, in_range, is_char. destruct c as [[] [] [] [] [] [] [] []]; done. }
  cbn [trim_start]. rewrite H1. destruct s as [|b s]; [done|].
  assert (is_ws2 c b = false) as ->.
  { revert Hc. unfold printable, is_ws2, in_range. rewrite andb_true_iff, !N.leb_le. intros [??].
    destruct (N.eqb_spec (code c) 194); [lia|done]. }
  destruct s as [|d s]; [done|].
  assert (is_ws3 c b d = false) as ->; [|done].
  revert Hc. unfold printable, is_ws3, in_range. rewrite andb_true_iff, !N.leb_le. intros [??].
  repeat match goal with |- context [N.eqb (code c) ?k] => destruct (N.eqb_spec (code c) k); [lia|] end. done.
Qed.

Lemma trim_rev_printable c s : printable c = true → trim_rev (String c s) = String c s.
Proof.
  intros Hc. assert (is_ws1 c = false) as H1.
  { revert Hc. unfold printable, is_ws1, in_range, is_char. destruct c as [[] [] [] [] [] [] [] []]; done. }
  cbn [trim_rev]. rewrite H1. revert Hc. unfold printable, in_range. rewrite andb_true_iff, !N.leb_le. intros [??].
  destruct s as [|b s]; [done|].
  unfold is_ws2. destruct (N.eqb_spec (code c) 160); [lia|]. rewrite andb_false_r.
  destruct s as [|d s]; [done|]. unfold is_ws3.
  repeat match goal with
  | |- context [N.eqb (code c) ?k] => destruct (N.eqb_spec (code c) k); [lia|]
  | |- context [N.leb 128 (code c)] => destruct (N.leb_spec 128 (code c)); [lia|]
  end.
  by rewrite ?andb_false_r, ?orb_false_r.
Qed.

(** A string of printable ASCII has nothing to trim. *)
Lemma trim_printable s : all_chars printable s = true → trim s = s.
Proof.
  intros Hs. unfold trim. assert (trim_start s = s) as ->.
  { destruct s as [|c s]; [done|]. apply trim_start_printable. unfold all_chars in Hs. simpl in Hs. by apply andb_true_iff in Hs as [? ?]. }
  unfold trim_end. rewrite <- (rev_str_involutive s) at 2. f_equal.
  destruct (rev_str s) as [|c r] eqn:E; [done|]. apply trim_rev_printable.
  rewrite all_chars_spec in Hs. apply Hs. rewrite <- (rev_str_involutive s), E.
  unfold rev_str. rewrite chars_unchars. apply list_elem_of_In. rewrite <- in_rev. by left.
Qed.

(** ** [split] on a longer separator *)

(** [cur] holds the reversed piece being read; [fuel] bounds the remaining characters, and the
    length of the string is always enough. *)
Fixpoint split_fuel (fuel : nat) (sep cur s : string) : list string :=
  match fuel with
  | O => [rev_str cur]
  | S n =>
      match s with
      | "" => [rev_str cur]
      | String c r =>
          match strip_prefix sep s with
          | Some rest => rev_str cur :: split_fuel n sep "" rest
          | None => split_fuel n sep (String c cur) r
          end
      end
  end.
Definition split_str (sep s : string) : list string := split_fuel (S (String.length s)) sep "" s.

Lemma str_length_app (s t : string) : String.length (s ++ t) = String.length s + String.length t.
Proof. by rewrite <- !length_chars, chars_app, length_app. Qed.

Lemma strip_prefix_self p s : strip_prefix p (p ++ s) = Some s.
Proof. by apply strip_prefix_spec. Qed.

Lemma strip_prefix_none p s : starts_with p s = false → strip_prefix p s = None.
Proof. rewrite starts_with_strip. by destruct (strip_prefix p s). Qed.

(** More fuel than the length changes nothing. *)
Lemma split_fuel_enough sep n m cur s :
  sep ≠ "" → String.length s < n → String.length s < m → split_fuel n sep cur s = split_fuel m sep cur s.
Proof.
  intros Hsep. revert m cur s. induction n as [|n IH]; intros [|m] cur s Hn Hm; [lia..|].
  destruct s as [|c r]; [done|]. cbn [split_fuel]. cbn [String.length] in *.
  destruct (strip_prefix sep (String c r)) as [rest|] eqn:E; [|apply IH; lia].
  apply strip_prefix_spec in E. f_equal.
  assert (String.length rest < S (String.length r)).
  { change (S (String.length r)) with (String.length (String c r)). rewrite E, str_length_app.
    destruct sep; [done|]. simpl. lia. }
  apply IH; lia.
Qed.

(** A separator-free prefix is read into the current piece. *)
Lemma split_fuel_read sep u cur w n :
  (∀ a c b, u = a ++ String c b → starts_with sep (String c b ++ w) = false) →
  String.length (u ++ w) < n →
  split_fuel n sep cur (u ++ w) = split_fuel (n - String.length u) sep (rev_str u ++ cur) w.
Proof.
  revert cur n. induction u as [|c u IH]; intros cur n Hu Hn.
  - by rewrite Nat.sub_0_r.
  - destruct n as [|n]; [simpl in Hn; lia|]. cbn [String.append split_fuel].
    pose proof (Hu "" c u eq_refl) as H0. cbn [String.append] in H0.
    rewrite (strip_prefix_none _ _ H0), IH.
    + cbn [String.length Nat.sub]. f_equal. change (String c u) with (String c "" ++ u) at 1.
      by rewrite rev_str_app, str_app_assoc.
    + intros a d b ->. apply (Hu (String c a)). done.
    + simpl in Hn. lia.
Qed.

Lemma split_fuel_sep n sep cur w :
  sep ≠ "" → split_fuel (S n) sep cur (sep ++ w) = rev_str cur :: split_fuel n sep "" w.
Proof.
  destruct sep as [|d sep]; [done|]. intros _. cbn [split_fuel String.append].
  change (String d (sep ++ w)) with (String d sep ++ w). by rewrite strip_prefix_self.
Qed.

(** A string is read up to its first separator. *)
Lemma split_str_cons sep u w :
  sep ≠ "" →
  (∀ a c b, u = a ++ String c b → starts_with sep (String c b ++ sep ++ w) = false) →
  split_str sep (u ++ sep ++ w) = u :: split_str sep w.
Proof.
  intros Hsep Hu. unfold split_str. rewrite split_fuel_read by (try done; lia).
  rewrite !str_length_app. replace (S _ - _) with (S (String.length sep + String.length w)) by lia.
  rewrite str_app_nil_r, split_fuel_sep by done. rewrite rev_str_involutive. f_equal.
  apply split_fuel_enough; [done| |lia]. destruct sep; [done|]. simpl. lia.
Qed.

(** A string without separator is one piece. *)
Lemma split_str_none sep u :
  (∀ a c b, u = a ++ String c b → starts_with sep (String c b) = false) → split_str sep u = [u].
Proof.
  intros Hu. unfold split_str. rewrite <- (str_app_nil_r u) at 2.
  rewrite split_fuel_read; rewrite ?str_app_nil_r; [|by intros; rewrite str_app_nil_r; eauto|lia].
  replace (S _ - _) with 1 by lia. simpl. by rewrite rev_str_involutive.
Qed.

(** The order of the bytes. *)
Lemma leb_total_order :
  (∀ a b, String.leb a b = true ∨ String.leb b a = true) ∧
  (∀ a b c, String.leb a b = true → String.leb b c = true → String.leb a c = true) ∧
  (∀ a b, String.leb a b = true → String.leb b a = true → a = b).
Proof.
  split_and!; [apply String.leb_total| |apply String.leb_antisym].
  intros a b c Hab Hbc. apply Is_true_true. apply (transitivity (R:=String.le)) with b; by apply Is_true_true.
Qed.
