(* ===== verification/Regex.v ===== *)
(** * The regular expressions of the console

    The patterns of the source are anchored ([^...$]) and tested against a whole string, so a
    pattern is a regular expression over the bytes of the string and [RegExp.prototype.test] is
    membership, decided by derivatives. Every pattern used has ASCII classes only, so a multi-byte
    character matches no class, as in the source. *)

From S2P Require Import Prelude JsString.

(** ** Syntax *)

Inductive re : Type :=
  | Void
  | Eps
  | Cls (f : ascii → bool)          (** [[...]], or one character *)
  | Seq (r s : re)
  | Alt (r s : re)
  | Star (r : re).

Definition Chr (c : ascii) : re := Cls (is_char c).
Definition Opt (r : re) : re := Alt Eps r.
Definition Plus (r : re) : re := Seq r (Star r).

(** [r{lo,lo+extra}] *)
Fixpoint UpTo (extra : nat) (r : re) : re :=
  match extra with O => Eps | S n => Opt (Seq r (UpTo n r)) end.
Fixpoint Rep (lo extra : nat) (r : re) : re :=
  match lo with O => UpTo extra r | S n => Seq r (Rep n extra r) end.

(** ** Meaning *)

Inductive matches : re → list ascii → Prop :=
  | m_eps : matches Eps []
  | m_cls f c : f c = true → matches (Cls f) [c]
  | m_seq r s u v : matches r u → matches s v → matches (Seq r s) (u ++ v)
  | m_altl r s u : matches r u → matches (Alt r s) u
  | m_altr r s u : matches s u → matches (Alt r s) u
  | m_star_nil r : matches (Star r) []
  | m_star_app r u v : matches r u → matches (Star r) v → matches (Star r) (u ++ v).

#[export] Hint Constructors matches : maco.

(** ** The test *)

Fixpoint nullable (r : re) : bool :=
  match r with
  | Void | Cls _ => false
  | Eps | Star _ => true
  | Seq r s => nullable r && nullable s
  | Alt r s => nullable r || nullable s
  end.

Fixpoint der (c : ascii) (r : re) : re :=
  match r with
  | Void | Eps => Void
  | Cls f => if f c then Eps else Void
  | Seq r s => if nullable r then Alt (Seq (der c r) s) (der c s) else Seq (der c r) s
  | Alt r s => Alt (der c r) (der c s)
  | Star r => Seq (der c r) (Star r)
  end.

Fixpoint test_chars (r : re) (u : list ascii) : bool :=
  match u with [] => nullable r | c :: u => test_chars (der c r) u end.

(** [/^r$/.test(s)] *)
Definition test (r : re) (s : string) : bool := test_chars r (chars s).

(** ** The test decides the meaning *)

Lemma matches_nil r : matches r [] ↔ nullable r = true.
Proof.
  split.
  - remember [] as u eqn:E. induction 1; simpl; try done; rewrite ?orb_true_iff; try tauto.
    apply app_eq_nil in E as [-> ->]. by rewrite IHmatches1, IHmatches2.
  - induction r; simpl; rewrite ?andb_true_iff, ?orb_true_iff; intros Hr; try done; eauto with maco.
    + apply (m_seq r1 r2 [] []); tauto.
    + destruct Hr; eauto with maco.
Qed.

Lemma matches_seq_iff r s u :
  matches (Seq r s) u ↔ ∃ v w, u = v ++ w ∧ matches r v ∧ matches s w.
Proof. split; [inversion 1; subst; eauto 6|]. intros (v & w & -> & ? & ?). by constructor. Qed.
Lemma matches_alt_iff r s u : matches (Alt r s) u ↔ matches r u ∨ matches s u.
Proof. split; [inversion 1; auto|]. intros []; auto with maco. Qed.
Lemma matches_eps_iff u : matches Eps u ↔ u = [].
Proof. split; [by inversion 1|]. intros ->. constructor. Qed.
Lemma matches_cls_iff f u : matches (Cls f) u ↔ ∃ c, u = [c] ∧ f c = true.
Proof. split; [inversion 1; eauto|]. intros (c & -> & ?). by constructor. Qed.

Lemma matches_star_cons r c u :
  matches (Star r) (c :: u) ↔ ∃ v w, u = v ++ w ∧ matches r (c :: v) ∧ matches (Star r) w.
Proof.
  split.
  - remember (Star r) as r' eqn:Er. remember (c :: u) as u' eqn:Eu. intros H. revert c u Er Eu.
    induction H; intros c0 u0 Er Eu; try done. injection Er as ->.
    destruct u as [|d u]; simpl in Eu; [by apply IHmatches2|]. injection Eu as -> <-. eauto.
  - intros (v & w & -> & ? & ?). change (c :: v ++ w) with ((c :: v) ++ w). by constructor.
Qed.

Lemma matches_der r c u : matches (der c r) u ↔ matches r (c :: u).
Proof.
  revert u. induction r as [| |f|r IHr s IHs|r IHr s IHs|r IHr]; intros u; cbn [der].
  - split; inversion 1.
  - split; inversion 1.
  - rewrite matches_cls_iff. destruct (f c) eqn:E.
    + rewrite matches_eps_iff. split; [intros ->; eauto|]. by intros (d & [= <- ->] & _).
    + split; [inversion 1|]. intros (d & [= <- ->] & ?). congruence.
  - assert (matches (Seq (der c r) s) u ↔ ∃ v w, u = v ++ w ∧ matches r (c :: v) ∧ matches s w) as E.
    { rewrite matches_seq_iff. by setoid_rewrite IHr. }
    rewrite (matches_seq_iff r s (c :: u)). destruct (nullable r) eqn:N.
    + rewrite matches_alt_iff, E, IHs. split.
      * intros [(v & w & -> & ? & ?)|?]; [by exists (c :: v), w|].
        exists [], (c :: u). by rewrite matches_nil.
      * intros ([|d v] & w & Ev & ? & ?); simpl in Ev; [by subst; right|].
        injection Ev as -> ->. left; eauto.
    + rewrite E. split.
      * intros (v & w & -> & ? & ?). by exists (c :: v), w.
      * intros ([|d v] & w & Ev & Hr & ?); [by rewrite matches_nil, N in Hr|].
        injection Ev as -> ->. eauto.
  - by rewrite !matches_alt_iff, IHr, IHs.
  - rewrite matches_seq_iff, matches_star_cons. by setoid_rewrite IHr.
Qed.

Lemma test_chars_spec r u : test_chars r u = true ↔ matches r u.
Proof.
  revert r. induction u as [|c u IH]; intros r; simpl; [by rewrite matches_nil|].
  by rewrite IH, matches_der.
Qed.

Lemma test_spec r s : test r s = true ↔ matches r (chars s).
Proof. apply test_chars_spec. Qed.

(** ** Repetitions of a class *)

Lemma matches_star_cls f u : matches (Star (Cls f)) u ↔ forallb f u = true.
Proof.
  induction u as [|c u IH]; [split; [done|constructor]|].
  rewrite matches_star_cons. simpl. rewrite andb_true_iff. setoid_rewrite matches_cls_iff. split.
  - intros (v & w & -> & (d & [= <- ->] & ?) & ?). by rewrite <- IH.
  - intros [? ?]. exists [], u. rewrite IH. eauto.
Qed.

Lemma matches_plus_cls f u : matches (Plus (Cls f)) u ↔ u ≠ [] ∧ forallb f u = true.
Proof.
  unfold Plus. rewrite matches_seq_iff. setoid_rewrite matches_cls_iff.
  setoid_rewrite matches_star_cls. split.
  - intros (v & w & -> & (c & -> & ?) & ?). simpl. by rewrite andb_true_iff.
  - destruct u as [|c u]; [by intros []|]. simpl. rewrite andb_true_iff. intros (_ & ? & ?).
    exists [c], u. eauto.
Qed.

Lemma matches_upto_cls f n u : matches (UpTo n (Cls f)) u ↔ length u ≤ n ∧ forallb f u = true.
Proof.
  revert u. induction n as [|n IH]; intros u; cbn [UpTo].
  - rewrite matches_eps_iff. destruct u; simpl; [naive_solver lia|]. split; [done|lia].
  - unfold Opt. rewrite matches_alt_iff, matches_eps_iff, matches_seq_iff.
    setoid_rewrite IH. setoid_rewrite matches_cls_iff. split.
    + intros [->|(v & w & -> & (c & -> & ?) & ? & ?)]; simpl; [split; [lia|done]|].
      rewrite andb_true_iff. split; [lia|done].
    + destruct u as [|c u]; simpl; rewrite ?andb_true_iff; [by left|].
      intros (? & ? & ?). right. exists [c], u. split_and!; try done; [eauto|lia].
Qed.

Lemma matches_rep_cls f lo n u :
  matches (Rep lo n (Cls f)) u ↔ lo ≤ length u ≤ lo + n ∧ forallb f u = true.
Proof.
  revert u. induction lo as [|lo IH]; intros u; cbn [Rep].
  - rewrite matches_upto_cls. naive_solver lia.
  - rewrite matches_seq_iff. setoid_rewrite IH. setoid_rewrite matches_cls_iff. split.
    + intros (v & w & -> & (c & -> & ?) & ? & ?). simpl. rewrite andb_true_iff. split; [lia|done].
    + destruct u as [|c u]; simpl; [lia|]. rewrite andb_true_iff. intros (? & ? & ?).
      exists [c], u. split_and!; try done; [eauto|lia|lia].
Qed.

(** A leading class in front of a pattern. *)
Lemma matches_cls_seq f r u :
  matches (Seq (Cls f) r) u ↔ ∃ c v, u = c :: v ∧ f c = true ∧ matches r v.
Proof.
  rewrite matches_seq_iff. setoid_rewrite matches_cls_iff. split.
  - intros (v & w & -> & (c & -> & ?) & ?). by exists c, w.
  - intros (c & v & -> & ? & ?). exists [c], v. eauto.
Qed.

(** ** Numbers written with digits *)

Definition digit_value (c : ascii) : Z := Z.of_N (code c) - 48.

(** [Number(s)] of a string of digits. *)
Definition digits_value (s : string) : Z :=
  fold_left (λ n c, n * 10 + digit_value c)%Z (chars s) 0%Z.

Definition digits_1_3 : re := Rep 1 2 (Cls is_digit).

Lemma test_digits_1_3 s :
  test digits_1_3 s = true ↔ 1 ≤ String.length s ≤ 3 ∧ all_chars is_digit s = true.
Proof. unfold digits_1_3. rewrite test_spec, matches_rep_cls, length_chars. done. Qed.

#[global] Arguments test : simpl never.
#[global] Arguments digits_value : simpl never.
