(* ===== verification/JsNumber.v ===== *)
(** * Integers and their decimal texts

    [String(n)] and [Number(text)] on the integers the console shows and reads. *)

From S2P Require Import Prelude JsString Regex.
Local Open Scope string_scope.

Lemma digits_value_app s t :
  digits_value (s ++ t) = (fold_left (λ n c, n * 10 + digit_value c) (chars t) (digits_value s))%Z.
Proof. unfold digits_value. by rewrite chars_app, fold_left_app. Qed.

(** A number read after [k] is [k] shifted by its digits. *)
Lemma fold_digits l k :
  fold_left (λ n c, n * 10 + digit_value c)%Z l k =
  (k * 10 ^ Z.of_nat (length l) + fold_left (λ n c, n * 10 + digit_value c) l 0)%Z.
Proof.
  revert k. induction l as [|c l IH]; intros k; [cbn; lia|]. cbn [fold_left length].
  rewrite IH, (IH (0 * 10 + digit_value c)%Z), Nat2Z.inj_succ, Z.pow_succ_r by lia. lia.
Qed.

Lemma digit_value_char x : (x < 10)%N → digit_value (pretty_N_char x) = Z.of_N x ∧ is_digit (pretty_N_char x) = true.
Proof.
  intros Hx. assert (x = 0 ∨ x = 1 ∨ x = 2 ∨ x = 3 ∨ x = 4 ∨ x = 5 ∨ x = 6 ∨ x = 7 ∨ x = 8 ∨ x = 9)%N as H by lia.
  by repeat destruct H as [->|H]; [..|subst].
Qed.

Lemma pretty_N_go_spec x s :
  all_chars is_digit s = true →
  all_chars is_digit (pretty_N_go x s) = true ∧
  digits_value (pretty_N_go x s) = (Z.of_N x * 10 ^ Z.of_nat (String.length s) + digits_value s)%Z.
Proof.
  revert s. induction (N.lt_wf_0 x) as [x _ IH]. intros s Hs. destruct (decide (0 < x)%N) as [Hx|Hx].
  - rewrite pretty_N_go_step by done.
    pose proof (N.mod_lt x 10 ltac:(done)) as Hm. destruct (digit_value_char _ Hm) as [Hv Hd].
    destruct (IH (x / 10)%N (N.div_lt x 10 Hx eq_refl) (String (pretty_N_char (x mod 10)) s)) as [H1 H2].
    { unfold all_chars in *. cbn. by rewrite Hd. }
    split; [done|]. rewrite H2. unfold digits_value at 1. cbn [chars fold_left String.length].
    rewrite fold_digits, Hv, length_chars, Nat2Z.inj_succ, Z.pow_succ_r by lia.
    fold (digits_value s). rewrite (N.div_mod x 10) at 3 by done.
    rewrite N2Z.inj_add, N2Z.inj_mul. lia.
  - assert (x = 0%N) as -> by lia. rewrite pretty_N_go_0. split; [done|]. change (Z.of_N 0) with 0%Z. lia.
Qed.

Lemma pretty_N_digits x : all_chars is_digit (pretty x) = true ∧ digits_value (pretty x) = Z.of_N x ∧ pretty x ≠ "".
Proof.
  unfold pretty, pretty_N. case_decide as Hx; [by subst|].
  destruct (pretty_N_go_spec x "" eq_refl) as [H1 H2].
  change (digits_value "") with 0%Z in H2. change (Z.of_nat (String.length "")) with 0%Z in H2.
  rewrite Z.pow_0_r in H2. split_and!; [done|lia|]. intros E. rewrite E in H2.
  change (digits_value "") with 0%Z in H2. lia.
Qed.

(** The text of a natural number is digits that read back as the number. *)
Lemma pretty_Z_digits z : (0 ≤ z)%Z →
  all_chars is_digit (pretty z) = true ∧ digits_value (pretty z) = z ∧ pretty z ≠ "".
Proof.
  intros Hz. destruct z as [|p|p]; [done| |lia].
  change (pretty (Z.pos p)) with (pretty (N.pos p)). apply pretty_N_digits.
Qed.

Lemma pretty_Z_neg p : pretty (Z.neg p) = "-" ++ pretty (Z.pos p).
Proof. done. Qed.
