(* ===== verification/Json.v ===== *)
(** * JSON

    [JSON.stringify] and [JSON.parse] of the language, on values whose numbers are integers, as all
    those the console stores and sends are: texts with fractions or exponents do not parse here. Bytes
    above 127 belong to UTF-8 sequences and are copied. *)

From S2P Require Import Prelude JsString Regex JsNumber.
Local Open Scope string_scope.

Inductive json :=
  | JNull
  | JBool (b : bool)
  | JNum (n : Z)
  | JStr (s : string)
  | JArr (l : list json)
  | JObj (fields : list (string * json)).

(** ** [JSON.stringify] *)

Definition dq : ascii := "034".
Definition backslash : ascii := "092".

Definition hex_digit (n : N) : ascii := if (n <? 10)%N then ascii_of_N (48 + n) else ascii_of_N (87 + n).

Definition escape_char (c : ascii) : string :=
  match code c with
  | 34%N => String backslash (String dq "")
  | 92%N => String backslash (String backslash "")
  | 8%N => String backslash "b"
  | 9%N => String backslash "t"
  | 10%N => String backslash "n"
  | 12%N => String backslash "f"
  | 13%N => String backslash "r"
  | n => if (n <? 32)%N
         then String backslash ("u00" ++ String (hex_digit (n / 16)) (String (hex_digit (n mod 16)) ""))
         else String c ""
  end.

Fixpoint escape (s : string) : string :=
  match s with "" => "" | String c r => escape_char c ++ escape r end.

Definition quoted (s : string) : string := String dq (escape s ++ String dq "").

Fixpoint stringify (j : json) : string :=
  match j with
  | JNull => "null"
  | JBool true => "true"
  | JBool false => "false"
  | JNum n => pretty n
  | JStr s => quoted s
  | JArr l => "[" ++ join "," (map stringify l) ++ "]"
  | JObj fs => "{" ++ join "," (map (λ '(k, v), quoted k ++ ":" ++ stringify v) fs) ++ "}"
  end.

(** ** [JSON.parse] *)

Definition is_json_ws (c : ascii) : bool := is_char " " c || is_char "009" c || is_char "010" c || is_char "013" c.
Fixpoint skip_ws (s : string) : string :=
  match s with String c r => if is_json_ws c then skip_ws r else s | "" => "" end.

Definition unhex (c : ascii) : option N :=
  if is_digit c then Some (code c - 48)%N
  else if in_range 97 102 c then Some (code c - 87)%N
  else if in_range 65 70 c then Some (code c - 55)%N
  else None.

Definition unhex4 (a b c d : ascii) : option N :=
  a ← unhex a; b ← unhex b; c ← unhex c; d ← unhex d; Some (((a * 16 + b) * 16 + c) * 16 + d)%N.

(** The UTF-8 encoding of a code unit; the halves of surrogate pairs have none. *)
Definition utf8 (n : N) : option string :=
  if (n <? 128)%N then Some (String (ascii_of_N n) "")
  else if (n <? 2048)%N then Some (String (ascii_of_N (192 + n / 64)) (String (ascii_of_N (128 + n mod 64)) ""))
  else if (55296 <=? n)%N && (n <=? 57343)%N then None
  else Some (String (ascii_of_N (224 + n / 4096)) (String (ascii_of_N (128 + n / 64 mod 64))
         (String (ascii_of_N (128 + n mod 64)) ""))).

Definition unescape (c : ascii) : option ascii :=
  match code c with
  | 34%N => Some dq | 92%N => Some backslash | 47%N => Some "/"%char | 98%N => Some "008"%char
  | 116%N => Some "009"%char | 110%N => Some "010"%char | 102%N => Some "012"%char | 114%N => Some "013"%char
  | _ => None
  end.

(** The characters after an opening quote, up to the closing one. *)
Fixpoint parse_chars (s : string) : option (string * string) :=
  match s with
  | "" => None
  | String c r =>
      if Ascii.eqb c dq then Some ("", r)
      else if Ascii.eqb c backslash then
        match r with
        | "" => None
        | String e r1 =>
            if Ascii.eqb e "u" then
              match r1 with
              | String h1 (String h2 (String h3 (String h4 r2))) =>
                  u ← unhex4 h1 h2 h3 h4 ≫= utf8; '(t, rest) ← parse_chars r2; Some (u ++ t, rest)
              | _ => None
              end
            else d ← unescape e; '(t, rest) ← parse_chars r1; Some (String d t, rest)
        end
      else if (code c <? 32)%N then None
      else '(t, rest) ← parse_chars r; Some (String c t, rest)
  end.

Fixpoint take_digits (s : string) : string * string :=
  match s with
  | String c r => if is_digit c then let '(d, rest) := take_digits r in (String c d, rest) else ("", s)
  | "" => ("", "")
  end.

Definition parse_number (s : string) : option (json * string) :=
  let '(neg, s) := match strip_prefix "-" s with Some r => (true, r) | None => (false, s) end in
  let '(d, rest) := take_digits s in
  if String.eqb d "" || (starts_with "0" d && negb (String.eqb d "0"))
     || match rest with String c _ => is_char "." c || is_char "e" c || is_char "E" c | "" => false end
  then None
  else Some (JNum (if neg : bool then - digits_value d else digits_value d), rest)%Z.

(** Values, the rest of an array after its bracket or a comma, and the rest of an object. *)
Fixpoint parse_value (fuel : nat) (s : string) : option (json * string) :=
  match fuel with
  | O => None
  | S n =>
      match skip_ws s with
      | "" => None
      | String c r =>
          if Ascii.eqb c "{" then
            match skip_ws r with
            | String "}" rest => Some (JObj [], rest)
            | r => '(fs, rest) ← parse_members n r; Some (JObj fs, rest)
            end
          else if Ascii.eqb c "[" then
            match skip_ws r with
            | String "]" rest => Some (JArr [], rest)
            | r => '(l, rest) ← parse_items n r; Some (JArr l, rest)
            end
          else if Ascii.eqb c dq then '(t, rest) ← parse_chars r; Some (JStr t, rest)
          else match strip_prefix "true" (String c r), strip_prefix "false" (String c r), strip_prefix "null" (String c r) with
               | Some rest, _, _ => Some (JBool true, rest)
               | _, Some rest, _ => Some (JBool false, rest)
               | _, _, Some rest => Some (JNull, rest)
               | _, _, _ => parse_number (String c r)
               end
      end
  end
with parse_items (fuel : nat) (s : string) : option (list json * string) :=
  match fuel with
  | O => None
  | S n =>
      '(v, rest) ← parse_value n s;
      match skip_ws rest with
      | String c rest =>
          if Ascii.eqb c "," then '(l, rest) ← parse_items n rest; Some (v :: l, rest)
          else if Ascii.eqb c "]" then Some ([v], rest) else None
      | "" => None
      end
  end
with parse_members (fuel : nat) (s : string) : option (list (string * json) * string) :=
  match fuel with
  | O => None
  | S n =>
      match skip_ws s with
      | String c r =>
          if Ascii.eqb c dq then
            '(k, rest) ← parse_chars r;
            match skip_ws rest with
            | String ":" rest =>
                '(v, rest) ← parse_value n rest;
                match skip_ws rest with
                | String c rest =>
                    if Ascii.eqb c "," then '(fs, rest) ← parse_members n rest; Some ((k, v) :: fs, rest)
                    else if Ascii.eqb c "}" then Some ([(k, v)], rest) else None
                | "" => None
                end
            | _ => None
            end
          else None
      | "" => None
      end
  end.

(** Each call reads a character or returns, so the length of the text, with two calls per
    character, is enough fuel. *)
Definition parse (s : string) : option json :=
  match parse_value (S (2 * String.length s)) s with
  | Some (j, rest) => if String.eqb (skip_ws rest) "" then Some j else None
  | None => None
  end.

(** [o.k]: the last field of a name is the one that counts. *)
Definition field (k : string) (j : json) : option json :=
  match j with
  | JObj fs => snd <$> List.find (λ p, String.eqb (fst p) k) (rev fs)
  | _ => None
  end.

(** ** Round trip *)

Lemma parse_chars_step c t : parse_chars (escape_char c ++ t) = '(s, rest) ← parse_chars t; Some (String c s, rest).
Proof. destruct c as [[] [] [] [] [] [] [] []]; reflexivity. Qed.

Lemma parse_chars_escape s rest : parse_chars (escape s ++ String dq rest) = Some (s, rest).
Proof.
  induction s as [|c s IH]; [done|]. cbn [escape]. by rewrite str_app_assoc, parse_chars_step, IH.
Qed.

Lemma quoted_app s rest : quoted s ++ rest = String dq (escape s ++ String dq rest).
Proof. unfold quoted. cbn [String.append]. by rewrite str_app_assoc. Qed.

(** What may follow a value. *)
Definition good_rest (s : string) : Prop :=
  match s with "" => True | String c _ => c ∈ [","; "]"; "}"]%char end.

Lemma take_digits_app d rest : all_chars is_digit d = true →
  match rest with "" => True | String c _ => is_digit c = false end →
  take_digits (d ++ rest) = (d, rest).
Proof.
  intros Hd Hr. induction d as [|c d IH]; cbn.
  - destruct rest as [|c r]; [done|]. cbn. by rewrite Hr.
  - unfold all_chars in Hd. cbn in Hd. apply andb_true_iff in Hd as [-> Hd]. by rewrite IH.
Qed.

Lemma pretty_N_go_head x s : (0 < x)%N → starts_with "0" (pretty_N_go x s) = false.
Proof.
  revert s. induction (N.lt_wf_0 x) as [x _ IH]. intros s Hx. rewrite pretty_N_go_step by done.
  destruct (decide (0 < x / 10)%N) as [Hq|Hq].
  - apply IH; [apply N.div_lt; lia|done].
  - assert (x / 10 = 0)%N as E by (by apply N.le_0_r, N.nlt_ge). rewrite E, pretty_N_go_0.
    pose proof (N.div_mod x 10 ltac:(done)). rewrite E in H. pose proof (N.mod_lt x 10 ltac:(done)).
    assert (x mod 10 = 1 ∨ x mod 10 = 2 ∨ x mod 10 = 3 ∨ x mod 10 = 4 ∨ x mod 10 = 5 ∨ x mod 10 = 6
      ∨ x mod 10 = 7 ∨ x mod 10 = 8 ∨ x mod 10 = 9)%N as Hm by lia.
    by repeat (destruct Hm as [-> | Hm]; [done|]); rewrite Hm.
Qed.

Lemma pretty_N_head (x : N) : starts_with "0" (pretty x) && negb (String.eqb (pretty x) "0") = false.
Proof.
  unfold pretty, pretty_N. case_decide; [done|]. by rewrite pretty_N_go_head by lia.
Qed.

Lemma good_rest_number rest : good_rest rest →
  match rest with "" => True | String c _ => is_digit c = false end ∧
  match rest with String c _ => is_char "." c || is_char "e" c || is_char "E" c | "" => false end = false.
Proof.
  destruct rest as [|c r]; [done|]. cbn. intros Hc. rewrite !elem_of_cons in Hc.
  destruct Hc as [->|[->|[->|Hc]]]; [done..|]. by apply not_elem_of_nil in Hc.
Qed.

Lemma strip_minus_digit s : match s with String c _ => is_digit c = true | "" => True end → strip_prefix "-" s = None.
Proof. destruct s as [|c s]; [done|]. destruct c as [[] [] [] [] [] [] [] []]; done. Qed.

Lemma pretty_head z : (0 ≤ z)%Z → ∃ c r, pretty z = String c r ∧ is_digit c = true.
Proof.
  intros Hz. destruct (pretty_Z_digits z Hz) as (Hd & _ & Hne). destruct (pretty z) as [|c r]; [done|].
  exists c, r. split; [done|]. unfold all_chars in Hd. cbn in Hd. by apply andb_true_iff in Hd as [? _].
Qed.

Lemma parse_digits z rest : (0 ≤ z)%Z → good_rest rest →
  take_digits (pretty z ++ rest) = (pretty z, rest) ∧ String.eqb (pretty z) "" = false ∧
  starts_with "0" (pretty z) && negb (String.eqb (pretty z) "0") = false.
Proof.
  intros Hz Hr. destruct (pretty_Z_digits z Hz) as (Hd & Hv & Hne). destruct (good_rest_number _ Hr) as [Hr1 _].
  split_and!; [by apply take_digits_app|by apply String.eqb_neq|].
  destruct z as [|p|p]; [done| |lia]. change (pretty (Z.pos p)) with (pretty (N.pos p)). apply pretty_N_head.
Qed.

Lemma parse_number_pretty z rest : good_rest rest → parse_number (pretty z ++ rest) = Some (JNum z, rest).
Proof.
  intros Hr. destruct (good_rest_number _ Hr) as [_ Hr2]. unfold parse_number.
  destruct (decide (0 ≤ z)%Z) as [Hz|Hz].
  - destruct (pretty_head z Hz) as (c & r & E & Hc). rewrite strip_minus_digit by by rewrite E.
    destruct (parse_digits z rest Hz Hr) as (-> & -> & ->). rewrite Hr2. cbn.
    by destruct (pretty_Z_digits z Hz) as (_ & -> & _).
  - destruct z as [|p|p]; [lia..|]. rewrite pretty_Z_neg, str_app_assoc, strip_prefix_self.
    destruct (parse_digits (Z.pos p) rest ltac:(lia) Hr) as (-> & -> & ->). rewrite Hr2. cbn -[pretty].
    by destruct (pretty_Z_digits (Z.pos p) ltac:(lia)) as (_ & -> & _).
Qed.

Lemma json_ind' (P : json → Prop) :
  P JNull → (∀ b, P (JBool b)) → (∀ n, P (JNum n)) → (∀ s, P (JStr s)) →
  (∀ l, Forall P l → P (JArr l)) → (∀ fs, Forall (λ p, P p.2) fs → P (JObj fs)) → ∀ j, P j.
Proof.
  intros Hn Hb Hz Hs Ha Ho. fix IH 1. intros [|b|n|s|l|fs]; [done|apply Hb|apply Hz|apply Hs| |].
  - apply Ha. induction l; constructor; [apply IH|done].
  - apply Ho. induction fs; constructor; [apply IH|done].
Qed.

(** The fuel a value takes. *)
Fixpoint need (j : json) : nat :=
  match j with
  | JArr l => S (list_sum (map (λ x, S (need x)) l))
  | JObj fs => S (list_sum (map (λ p, S (need p.2)) fs))
  | _ => 1
  end%nat.

(** A value starts with a character that is neither white space nor a closing bracket. *)
Lemma stringify_head j : ∃ c r, stringify j = String c r ∧ is_json_ws c = false ∧ c ≠ "]"%char ∧ c ≠ "}"%char.
Proof.
  destruct j as [|[]|n|s|l|fs]; try (eexists _, _; split; [reflexivity|]; by split_and!).
  destruct (decide (0 ≤ n)%Z) as [Hn|Hn].
  - destruct (pretty_head n Hn) as (c & r & E & Hc). exists c, r. split; [done|].
    clear E. destruct c as [[] [] [] [] [] [] [] []]; done.
  - destruct n as [|p|p]; [lia..|]. by eexists _, _.
Qed.

Lemma skip_ws_value j rest : skip_ws (stringify j ++ rest) = stringify j ++ rest.
Proof. destruct (stringify_head j) as (c & r & -> & Hc & _). cbn. by rewrite Hc. Qed.

Lemma good_rest_skip rest : good_rest rest → skip_ws rest = rest.
Proof.
  destruct rest as [|c r]; [done|]. cbn. intros Hc. rewrite !elem_of_cons in Hc.
  destruct Hc as [->|[->|[->|Hc]]]; [done..|]. by apply not_elem_of_nil in Hc.
Qed.

(** Parsing a value gives it back. *)
Definition parses (j : json) : Prop :=
  ∀ fuel rest, (need j ≤ fuel)%nat → good_rest rest → parse_value fuel (stringify j ++ rest) = Some (j, rest).

Lemma parse_items_spec l fuel rest : l ≠ [] → Forall parses l →
  (list_sum (map (λ x, S (need x)) l) ≤ fuel)%nat →
  parse_items fuel (join "," (map stringify l) ++ "]" ++ rest) = Some (l, rest).
Proof.
  intros Hne Hl. revert fuel. induction Hl as [|x l Hx Hl IH]; [done|]. intros fuel Hf. cbn in Hf.
  destruct fuel as [|fuel]; [lia|]. cbn [parse_items]. destruct l as [|y l].
  - cbn [map join]. rewrite Hx; [done|lia|]. cbn. set_solver.
  - cbn [map]. rewrite join_cons, !str_app_assoc. rewrite Hx; [|lia|cbn; set_solver]. cbn -[parse_items join map].
    change (stringify y :: map stringify l) with (map stringify (y :: l)). rewrite IH; [done|done|cbn in *; lia].
Qed.

Definition member (p : string * json) : string := quoted p.1 ++ ":" ++ stringify p.2.

Lemma stringify_object fs : stringify (JObj fs) = "{" ++ join "," (map member fs) ++ "}".
Proof. cbn [stringify]. do 3 f_equal. apply map_ext. by intros []. Qed.

Lemma parse_members_spec fs fuel rest : fs ≠ [] → Forall (λ p, parses p.2) fs →
  (list_sum (map (λ p, S (need p.2)) fs) ≤ fuel)%nat →
  parse_members fuel (join "," (map member fs) ++ "}" ++ rest) = Some (fs, rest).
Proof.
  intros Hne Hl. revert fuel. induction Hl as [|[k v] fs Hx Hl IH]; [done|]. intros fuel Hf. cbn in Hf, Hx.
  destruct fuel as [|fuel]; [lia|]. destruct fs as [|p fs].
  - cbn [map join]. unfold member. cbn [fst snd]. rewrite !str_app_assoc, quoted_app. cbn [parse_members].
    cbn -[parse_chars parse_value escape]. rewrite parse_chars_escape. cbn -[parse_value].
    rewrite Hx; [done|lia|]. cbn. set_solver.
  - cbn [map]. rewrite join_cons. unfold member at 1. cbn [fst snd]. rewrite !str_app_assoc, quoted_app. cbn [parse_members].
    cbn -[parse_chars parse_value parse_members escape join map]. rewrite parse_chars_escape.
    cbn -[parse_value parse_members join map]. rewrite Hx; [|lia|cbn; set_solver]. cbn -[parse_members join map].
    change (member p :: map member fs) with (map member (p :: fs)). rewrite IH; [done|done|cbn in *; lia].
Qed.

Lemma join_head j l : ∃ c r, join "," (map stringify (j :: l)) = String c r ∧ is_json_ws c = false ∧ c ≠ "]"%char.
Proof.
  destruct (stringify_head j) as (c & r & E & ? & ? & _). cbn [map]. destruct l as [|k l].
  - exists c, r. done.
  - cbn [map]. rewrite join_cons, E. eexists _, _. by split.
Qed.

Lemma parse_value_number fuel n rest : good_rest rest → parse_value (S fuel) (pretty n ++ rest) = Some (JNum n, rest).
Proof.
  intros Hr. rewrite <- (parse_number_pretty n rest Hr).
  assert (∃ c r, pretty n = String c r ∧ (is_digit c = true ∨ c = "-"%char)) as (c & r & E & Hc).
  { destruct (decide (0 ≤ n)%Z) as [Hn|Hn].
    - destruct (pretty_head n Hn) as (c & r & ? & ?). eauto.
    - destruct n as [|p|p]; [lia..|]. rewrite pretty_Z_neg. eauto. }
  rewrite E. cbn [String.append]. clear E.
  destruct Hc as [Hc| ->]; [|done]. destruct c as [[] [] [] [] [] [] [] []]; done.
Qed.

Lemma parse_array fuel c t l rest : is_json_ws c = false → c ≠ "]"%char →
  parse_items fuel (String c t) = Some (l, rest) →
  parse_value (S fuel) (String "[" (String c t)) = Some (JArr l, rest).
Proof.
  intros Hc Hne Hp. transitivity ('(l, rest) ← parse_items fuel (String c t); Some (JArr l, rest)); [|by rewrite Hp].
  clear Hp. destruct c as [[] [] [] [] [] [] [] []]; first [discriminate Hc|by destruct Hne|reflexivity].
Qed.

Lemma parse_object fuel t fs rest :
  parse_members fuel (String dq t) = Some (fs, rest) →
  parse_value (S fuel) (String "{" (String dq t)) = Some (JObj fs, rest).
Proof.
  intros Hp. transitivity ('(fs, rest) ← parse_members fuel (String dq t); Some (JObj fs, rest)); [|by rewrite Hp].
  reflexivity.
Qed.

Lemma parses_all j : parses j.
Proof.
  induction j as [|b|n|s|l Hl|fs Hfs] using json_ind'; intros [|fuel] rest Hf Hr; try (cbn in Hf; lia).
  - done.
  - by destruct b.
  - by apply parse_value_number.
  - cbn [stringify]. rewrite quoted_app. cbn -[parse_chars escape]. by rewrite parse_chars_escape.
  - cbn in Hf. cbn [stringify]. destruct l as [|x l]; [done|]. rewrite !str_app_assoc.
    pose proof (parse_items_spec (x :: l) fuel rest ltac:(done) Hl ltac:(cbn in *; lia)) as Hp.
    destruct (join_head x l) as (c & r & E & Hc & Hcb). rewrite E in Hp |- *. by apply parse_array.
  - cbn in Hf. rewrite stringify_object. destruct fs as [|[k v] fs]; [done|]. rewrite !str_app_assoc.
    pose proof (parse_members_spec ((k, v) :: fs) fuel rest ltac:(done) Hfs ltac:(cbn in *; lia)) as Hp.
    assert (∃ r, join "," (map member ((k, v) :: fs)) = String dq r) as [r E].
    { cbn [map]. unfold member at 1. cbn [fst snd]. destruct (map member fs).
      - cbn [join]. rewrite quoted_app. eauto.
      - rewrite join_cons, !str_app_assoc, quoted_app. eauto. }
    rewrite E in Hp |- *. by apply parse_object.
Qed.

Lemma join_length_le (l : list string) : (list_sum (map String.length l) + (length l - 1) ≤ String.length (join "," l))%nat.
Proof.
  induction l as [|x l IH]; [done|]. destruct l as [|y l]; [cbn; lia|].
  rewrite join_cons, !str_length_app. cbn [map list_sum foldr length] in *. cbn. cbn in IH. lia.
Qed.


Lemma need_length j : (need j ≤ 2 * String.length (stringify j))%nat.
Proof.
  induction j as [|b|n|s|l Hl|fs Hfs] using json_ind'; cbn [need].
  - cbn. lia.
  - destruct b; cbn; lia.
  - destruct (stringify_head (JNum n)) as (c & r & -> & _). cbn. lia.
  - cbn. lia.
  - cbn [stringify]. rewrite !str_length_app. pose proof (join_length_le (map stringify l)) as Hj.
    rewrite map_map, length_map in Hj.
    assert (list_sum (map (λ x, S (need x)) l) ≤ length l + 2 * list_sum (map (λ x, String.length (stringify x)) l))%nat as Hs.
    { clear Hj. induction Hl as [|x l Hx Hl IH]; [done|]. cbn [map length]. rewrite !list_sum_cons. lia. }
    change (String.length "[") with 1%nat. change (String.length "]") with 1%nat. lia.
  - rewrite stringify_object, !str_length_app.
    pose proof (join_length_le (map member fs)) as Hj. rewrite map_map, length_map in Hj.
    assert (list_sum (map (λ p, S (need p.2)) fs) ≤ length fs + 2 * list_sum (map (λ p, String.length (member p)) fs))%nat as Hs.
    { clear Hj. induction Hfs as [|[k v] fs Hx Hl IH]; [done|]. cbn [map length]. rewrite !list_sum_cons.
      unfold member at 1. cbn [fst snd] in *. rewrite !str_length_app. lia. }
    change (String.length "{") with 1%nat. change (String.length "}") with 1%nat. lia.
Qed.

(** [JSON.parse(JSON.stringify(j))] is [j]. *)
Lemma parse_stringify j : parse (stringify j) = Some j.
Proof.
  unfold parse. rewrite <- (str_app_nil_r (stringify j)) at 2.
  rewrite (parses_all j); [done| |done]. pose proof (need_length j). lia.
Qed.

#[export] Instance stringify_inj : Inj (=) (=) stringify.
Proof. intros a b E. apply (inj Some). by rewrite <- !parse_stringify, E. Qed.

Lemma field_in k v fs : NoDup fs.*1 → (k, v) ∈ fs → field k (JObj fs) = Some v.
Proof.
  intros Hn Hin. cbn. assert (NoDup (rev fs).*1) as Hn'.
  { change (NoDup (map fst (rev fs))). rewrite map_rev. by apply NoDup_ListNoDup, List.NoDup_rev, NoDup_ListNoDup. }
  assert ((k, v) ∈ rev fs) as Hin' by by apply list_elem_of_In, List.in_rev; rewrite rev_involutive; apply list_elem_of_In.
  revert Hn' Hin'. generalize (rev fs). clear. intros l. induction l as [|[k' v'] l IH]; [set_solver|].
  cbn. intros [Hk Hn]%NoDup_cons [E|Hin]%elem_of_cons.
  - injection E as -> ->. by rewrite String.eqb_refl.
  - rewrite (proj2 (String.eqb_neq k' k)); [auto|]. intros ->. apply Hk, list_elem_of_fmap. by exists (k, v).
Qed.

(** ** Values of other types *)

(** A type whose values travel as JSON. *)
Class JsonCodec (T : Type) := {
  to_json : T → json;
  from_json : json → option T;
  from_to_json v : from_json (to_json v) = Some v
}.

Definition get_string (j : json) : option string := match j with JStr s => Some s | _ => None end.
Definition get_bool (j : json) : option bool := match j with JBool b => Some b | _ => None end.
Definition get_number (j : json) : option Z := match j with JNum n => Some n | _ => None end.
Definition get_list {T} `{JsonCodec T} (j : json) : option (list T) :=
  match j with JArr l => mapM from_json l | _ => None end.

Lemma get_list_to_json {T} `{JsonCodec T} (l : list T) : get_list (JArr (to_json <$> l)) = Some l.
Proof. cbn. induction l as [|x l IH]; [done|]. cbn. by rewrite from_to_json, IH. Qed.

#[export] Instance string_codec : JsonCodec string :=
  {| to_json := JStr; from_json := get_string; from_to_json _ := eq_refl |}.
#[export] Instance bool_codec : JsonCodec bool :=
  {| to_json := JBool; from_json := get_bool; from_to_json _ := eq_refl |}.
#[export] Instance Z_codec : JsonCodec Z :=
  {| to_json := JNum; from_json := get_number; from_to_json _ := eq_refl |}.
#[export] Instance list_codec {T} `{JsonCodec T} : JsonCodec (list T) :=
  {| to_json l := JArr (to_json <$> l); from_json := get_list; from_to_json := get_list_to_json |}.

(** A field of an object, decoded. *)
Definition decode_field {T} `{JsonCodec T} (k : string) (j : json) : option T := field k j ≫= from_json.

Lemma decode_field_in {T} `{JsonCodec T} k (v : T) fs :
  NoDup fs.*1 → (k, to_json v) ∈ fs → decode_field k (JObj fs) = Some v.
Proof. intros Hn Hin. unfold decode_field. rewrite (field_in _ _ _ Hn Hin). cbn. apply from_to_json. Qed.
