(* ===== verification/Types.v ===== *)
(** * The data of the API

    The records of [src/web/src/api/generated/types.gen.ts], under the names that
    [src/web/src/api.ts] gives them. An optional property is an [option]; a [number] is an integer
    (every number of the API is a Go integer). Unions of string literals are enumerations with their
    strings. *)

From S2P Require Import Prelude JsString.
Local Open Scope string_scope.

(** ** Enumerations *)

Inductive JobState := Pending | Running | Succeeded | Failed.

Definition job_state_string (s : JobState) : string :=
  match s with
  | Pending => "pending" | Running => "running" | Succeeded => "succeeded" | Failed => "failed"
  end.

#[export] Instance JobState_eq_dec : EqDecision JobState.
Proof. solve_decision. Defined.

Definition state_eqb (a b : JobState) : bool := bool_decide (a = b).

Inductive NetworkMode := ModeUser | ModeVmnetBridged | ModeBridge | ModeSwitch | ModeBridged | ModeVlan.

Definition mode_string (m : NetworkMode) : string :=
  match m with
  | ModeUser => "user" | ModeVmnetBridged => "vmnet-bridged" | ModeBridge => "bridge"
  | ModeSwitch => "switch" | ModeBridged => "bridged" | ModeVlan => "vlan"
  end.

#[export] Instance NetworkMode_eq_dec : EqDecision NetworkMode.
Proof. solve_decision. Defined.

(** ** Records *)

Record ApiChangePasswordRequest := mkApiChangePasswordRequest {
  cpr_current_password : string;
  cpr_new_password : string;
}.

Record ApiCreateApiKeyRequest := mkApiCreateApiKeyRequest {
  ckr_name : string;
}.

Record APIKey := mkAPIKey {
  key_created_at : Z;
  key_id : string;
  key_last_used_at : Z;
  key_name : string;
  key_prefix : string;
  key_revoked_at : Z;
  key_user_id : string;
}.

Record ApiCreateApiKeyResponse := mkApiCreateApiKeyResponse {
  ckp_api_key : APIKey;
  ckp_token : string;
}.

Record ApiCreateMediaRequest := mkApiCreateMediaRequest {
  cmr_name : string;
  cmr_size_gib : Z;
}.

Record CurrentUser := mkCurrentUser {
  user_role : string;
  user_username : string;
}.

Record ApiErrorResponse := mkApiErrorResponse {
  err_error : string;
}.

Record ApiLoginRequest := mkApiLoginRequest {
  lrq_password : string;
  lrq_username : string;
}.

Record ApiLoginResponse := mkApiLoginResponse {
  lrp_token : string;
}.

Record DiskView := mkDiskView {
  dv_boot_first : bool;
  dv_capacity_gib : Z;
  dv_disk_id : string;
  dv_kind : string;
  dv_name : string;
  dv_orphaned : bool;
  dv_path : string;
  dv_size_bytes : Z;
  dv_vm_id : string;
  dv_vm_name : string;
}.

Record DiskPage := mkDiskPage {
  dpage_items : list DiskView;
  dpage_page : Z;
  dpage_page_size : Z;
  dpage_total : Z;
  dpage_total_pages : Z;
}.

Record ApiStatusResponse := mkApiStatusResponse {
  srp_status : string;
}.

Record GuestFilesystem := mkGuestFilesystem {
  fs_mountpoint : string;
  fs_name : string;
  fs_total_bytes : Z;
  fs_type : string;
  fs_used_bytes : Z;
}.

Record GuestIPAddress := mkGuestIPAddress {
  gip_address : string;
  gip_prefix : Z;
  gip_type : string;
}.

Record GuestInterface := mkGuestInterface {
  gif_hardware_address : option string;
  gif_ip_addresses : option (list GuestIPAddress);
  gif_name : string;
}.

Record GuestOSInfo := mkGuestOSInfo {
  os_id : option string;
  os_kernel_release : option string;
  os_kernel_version : option string;
  os_machine : option string;
  os_name : option string;
  os_pretty_name : option string;
  os_version : option string;
  os_version_id : option string;
}.

Record GuestAgent := mkGuestAgent {
  ga_available : bool;
  ga_filesystems : option (list GuestFilesystem);
  ga_hostname : option string;
  ga_interfaces : option (list GuestInterface);
  ga_os : option GuestOSInfo;
  ga_version : option string;
}.

Record ApiRestoreRequest := mkApiRestoreRequest {
  rrq_as_new : option bool;
}.

Record BackupInfo := mkBackupInfo {
  bk_consistent : bool;
  bk_created_at : string;
  bk_disks : list string;
  bk_live : bool;
  bk_size_bytes : Z;
  bk_timestamp : string;
  bk_vm_name : string;
}.

Record CatalogImage := mkCatalogImage {
  img_arch : string;
  img_description : string;
  img_display_name : string;
  img_distro : string;
  img_downloaded : bool;
  img_id : string;
  img_size_bytes : Z;
  img_version : string;
}.

Record VLAN := mkVLAN {
  vlan_borrowed : option bool;
  vlan_device : option string;
  vlan_parent : string;
  vlan_tag : Z;
}.

Record CreateNetworkParams := mkCreateNetworkParams {
  cn_address : option string;
  cn_device : option string;
  cn_members : option (list string);
  cn_mode : option string;
  cn_name : option string;
  cn_parent : option string;
  cn_tag : option Z;
  cn_uplink : option string;
  cn_vlans : option (list VLAN);
}.

Record CreateVMParams := mkCreateVMParams {
  cv_addresses : option (list string);
  cv_autostart : option bool;
  cv_boot_order : option (list string);
  cv_cpus : option Z;
  cv_disk_size_gib : option Z;
  cv_image : option string;
  cv_isos : option (list string);
  cv_memory_mib : option Z;
  cv_name : option string;
  cv_network : option string;
  cv_password : option string;
  cv_ssh_key : option string;
  cv_username : option string;
}.

Record EngineDiskParams := mkEngineDiskParams {
  dp_id : option string;
  dp_image_id : option string;
  dp_name : option string;
  dp_size_gib : option Z;
}.

Record HostInfo := mkHostInfo {
  host_cpus : Z;
  host_memory_bytes : Z;
}.

Record InterfaceParams := mkInterfaceParams {
  ip_id : option string;
  ip_mac : option string;
  ip_network : option string;
}.

Record Media := mkMedia {
  media_id : string;
  media_in_use : bool;
  media_kind : string;
  media_name : string;
  media_size_gib : Z;
}.

Record EngineMediaSettings := mkEngineMediaSettings {
  ms_boot_order : option (list string);
  ms_isos : option (list string);
}.

Record ScheduleParams := mkScheduleParams {
  sched_enabled : option bool;
  sched_interval_hours : option Z;
  sched_keep_last : option Z;
  sched_max_age_days : option Z;
}.

Record EngineSnapshotParams := mkEngineSnapshotParams {
  snp_include_ram : option bool;
  snp_tag : option string;
}.

Record StorageStats := mkStorageStats {
  st_disk_count : Z;
  st_disks_bytes : Z;
  st_free_bytes : Z;
  st_path : string;
  st_total_bytes : Z;
  st_used_bytes : Z;
}.

Record USBDevice := mkUSBDevice {
  dev_address : Z;
  dev_bus : Z;
  dev_classes : list string;
  dev_fingerprint : string;
  dev_id : string;
  dev_manufacturer : string;
  dev_port : string;
  dev_product : string;
  dev_product_id : Z;
  dev_reason : option string;
  dev_serial : string;
  dev_session : string;
  dev_state : string;
  dev_vendor_id : Z;
  dev_vm_id : option string;
  dev_vm_name : option string;
}.

Record USBAttachment := mkUSBAttachment {
  ua_assignment_key : option string;
  ua_device : USBDevice;
  ua_id : string;
  ua_reason : option string;
  ua_state : string;
  ua_vm_id : string;
  ua_vm_name : string;
}.

Record USBInventory := mkUSBInventory {
  ui_devices : list USBDevice;
  ui_reason : option string;
  ui_supported : bool;
}.

Record EngineUsbParams := mkEngineUsbParams {
  up_assignment_key : option string;
  up_attachment_id : option string;
  up_device_id : string;
  up_fingerprint : string;
}.

Record UpdateHardwareParams := mkUpdateHardwareParams {
  uh_autostart : option bool;
  uh_cpus : option Z;
  uh_disk_size_gib : option Z;
  uh_memory_mib : option Z;
}.

Record VMDisk := mkVMDisk {
  disk_id : string;
  disk_name : string;
  disk_size_gib : Z;
}.

Record VMInterface := mkVMInterface {
  nic_addresses : option (list string);
  nic_id : string;
  nic_mac : option string;
  nic_network : string;
}.

Record TypesVmusbAssignment := mkTypesVmusbAssignment {
  uas_product : option string;
  uas_product_id : Z;
  uas_serial : option string;
  uas_vendor_id : Z;
}.

Record VMManifest := mkVMManifest {
  m_addresses : option (list string);
  m_autostart : option bool;
  m_boot_order : option (list string);
  m_cpus : Z;
  m_disk_size_gib : Z;
  m_disks : option (list VMDisk);
  m_id : string;
  m_image : string;
  m_interfaces : option (list VMInterface);
  m_isos : option (list string);
  m_memory_mib : Z;
  m_name : string;
  m_network : option string;
  m_ssh_key : option string;
  m_usb : option (list TypesVmusbAssignment);
  m_username : string;
}.

Record VMView := mkVMView {
  vm_boot_time : Z;
  vm_manifest : VMManifest;
  vm_phase : string;
  vm_pid : Z;
}.

Record NetworkInterface := mkNetworkInterface {
  port_addresses : list string;
  port_device : string;
  port_hardware_port : string;
  port_up : bool;
}.

Record Job := mkJob {
  job_action : string;
  job_created_at : string;
  job_error : option string;
  job_finished_at : option string;
  job_id : string;
  job_label : string;
  job_logs : list string;
  job_result : option string;
  job_started_at : option string;
  job_state : JobState;
  job_target : string;
}.

Record JobsPage := mkJobsPage {
  jpage_items : list Job;
  jpage_page : Z;
  jpage_page_size : Z;
  jpage_total : Z;
  jpage_total_pages : Z;
}.

Record BackupSchedule := mkBackupSchedule {
  bs_enabled : bool;
  bs_interval_hours : Z;
  bs_keep_last : Z;
  bs_last_run_at : Z;
  bs_max_age_days : Z;
  bs_vm_id : string;
}.

Record Network := mkNetwork {
  net_address : option string;
  net_applied_address : option string;
  net_applied_members : option (list string);
  net_applied_vlans : option (list VLAN);
  net_device : option string;
  net_group : option string;
  net_id : string;
  net_members : option (list string);
  net_mode : NetworkMode;
  net_name : string;
  net_owned : option bool;
  net_parent : option string;
  net_tag : option Z;
  net_uplink : option string;
  net_vlans : option (list VLAN);
}.

Record Snapshot := mkSnapshot {
  snap_created_at : string;
  snap_has_ram : bool;
  snap_size_bytes : Z;
  snap_tag : string;
}.
(** ** Decidable equality *)

#[export] Instance Job_eq_dec : EqDecision Job.
Proof. solve_decision. Defined.
#[export] Instance USBDevice_eq_dec : EqDecision USBDevice.
Proof. solve_decision. Defined.
#[export] Instance VMInterface_eq_dec : EqDecision VMInterface.
Proof. solve_decision. Defined.
#[export] Instance CurrentUser_eq_dec : EqDecision CurrentUser.
Proof. solve_decision. Defined.

(** ** Job states *)

(** The two states of an operation that has ended. *)
Definition terminal (s : JobState) : bool := state_eqb s Succeeded || state_eqb s Failed.
(** The two states of an operation in progress. *)
Definition in_progress (s : JobState) : bool := state_eqb s Pending || state_eqb s Running.

Lemma in_progress_terminal s : in_progress s = negb (terminal s).
Proof. by destruct s. Qed.
