(* ===== verification/Ux.v ===== *)
(** * Texts and validators of the forms ([src/web/src/ux.ts])

    Labels of activities and networks, the validators of names, addresses and MAC addresses, and the
    filter that protects the page the login form returns to. [formatBytes] of this file computes its
    unit with [Math.log], whose result the language leaves to the implementation, and is not modelled. *)

From S2P Require Import Prelude JsString Regex Types.
Local Open Scope string_scope.

(** ** Activities *)

Definition actionNames : list (string * string) := [
  ("vm.create", "Create Virtual Machine");
  ("vm.start", "Start Virtual Machine");
  ("vm.shutdown", "Shut Down");
  ("vm.stop", "Force Stop");
  ("vm.delete", "Delete Virtual Machine");
  ("vm.hardware", "Save Hardware");
  ("vm.disk.add", "Add Disk");
  ("vm.disk.grow", "Increase Disk Capacity");
  ("vm.disk.remove", "Delete Disk");
  ("vm.interface.add", "Add Network Adapter");
  ("vm.interface.update", "Save Network Adapter");
  ("vm.interface.remove", "Remove Network Adapter");
  ("vm.usb.attach", "Connect USB Device");
  ("vm.usb.assign", "Assign USB Device on Startup");
  ("vm.usb.detach", "Disconnect USB Device");
  ("vm.usb.unassign", "Remove USB Assignment");
  ("network.create", "Create Network");
  ("network.apply", "Apply Network");
  ("network.update", "Save Network");
  ("network.destroy", "Delete Network");
  ("vm.screenshot", "Capture Screenshot");
  ("image.download", "Download Image");
  ("vm.autostart", "Save Automatic Startup");
  ("vm.backup", "Back Up Virtual Machine");
  ("vm.backup.restore", "Restore Backup");
  ("vm.backup.delete", "Delete Backup");
  ("vm.snapshot.create", "Create Snapshot");
  ("vm.snapshot.restore", "Restore Snapshot");
  ("vm.snapshot.delete", "Delete Snapshot")
].

Fixpoint assoc {A} (k : string) (l : list (string * A)) : option A :=
  match l with [] => None | (k', v) :: r => if String.eqb k' k then Some v else assoc k r end.

(** [actionNames[job.action] || job.label?.trim() || `Operation (...)`] *)
Definition activityName (job : Job) : string :=
  default "" (assoc (job_action job) actionNames) ||s trim (job_label job)
    ||s ("Operation (" ++ (job_action job ||s "unknown") ++ ")").

Definition activityState (job : Job) : string :=
  if String.eqb (job_action job) "vm.shutdown" && state_eqb (job_state job) Succeeded
  then "Shutdown Requested"
  else match job_state job with
       | Pending => "Queued" | Running => "In Progress" | Succeeded => "Completed" | Failed => "Failed"
       end.

Definition unfinishedTime (job : Job) : string :=
  if state_eqb (job_state job) Pending then "Not Started"
  else if state_eqb (job_state job) Running then "In Progress" else "Not Recorded".

(** ** Amounts of memory

    [mib / 1024] has at most ten decimals, so [toFixed(10)] is exact, and for amounts below
    [10^5] GiB the shortest decimal that reads back as the number, which the template literal prints,
    is its exact decimal expansion without trailing zeros (at most fifteen significant digits). *)

Fixpoint strip_zeros (l : list ascii) : list ascii :=
  match l with
  | "0"%char :: r => strip_zeros r
  | _ => l
  end.

(** The first [n] decimals of [r / d], for [0 <= r < d]. *)
Fixpoint decimals (n : nat) (d r : Z) : list ascii :=
  match n with
  | O => []
  | S n => ascii_of_N (48 + Z.to_N (r * 10 / d)) :: decimals n d (r * 10 mod d)
  end.

(** The number [mib / 1024] as the language prints it. *)
Definition gib_text (mib : Z) : string :=
  let frac := rev (strip_zeros (rev (decimals 10 1024 (mib mod 1024)))) in
  pretty (mib / 1024)%Z ++ match frac with [] => "" | _ => "." ++ unchars frac end.

Definition memoryLabel (mib : Z) : string := gib_text mib ++ " GiB".

Example memoryLabel_2048 : memoryLabel 2048 = "2 GiB". Proof. reflexivity. Qed.
Example memoryLabel_1536 : memoryLabel 1536 = "1.5 GiB". Proof. reflexivity. Qed.
Example memoryLabel_1 : memoryLabel 1 = "0.0009765625 GiB". Proof. reflexivity. Qed.

(** ** Networks *)

Record NetworkKind := mkNetworkKind { nk_value : string; nk_label : string; nk_help : string }.

Definition networkModes : list NetworkKind := [
  mkNetworkKind "user" "Internet Access (NAT)"
    "Outbound internet access with automatic addresses. Each adapter has a separate private network; other VMs and the local network cannot initiate connections to it.";
  mkNetworkKind "switch" "Isolated VM Network"
    "VMs on this network can communicate with each other. No internet access or automatic addresses are supplied; configure guest addresses.";
  mkNetworkKind "bridge" "Host Bridge"
    "Connect VMs to selected host interfaces, or to each other without an uplink. No automatic addresses or internet sharing are supplied. Connectivity and addressing depend on the attached network. Applies host configuration immediately.";
  mkNetworkKind "vmnet-bridged" "Local Network (Physical Adapter)"
    "VMs join the local network through the selected adapter. Addresses and internet access come from that network. Requires an eligible adapter and administrator privileges on this Mac.";
  mkNetworkKind "vlan" "Tagged VLAN Interface"
    "Create a tagged host interface for an existing VLAN. Add it to a host bridge to connect VMs. Addressing and internet access come from services on that VLAN; the physical network must carry the selected tag."
].

Definition builtinNetworks : list NetworkKind := [
  mkNetworkKind "user" "Internet Access (NAT)"
    "Outbound internet access with automatic addresses. Each adapter has a separate private network; other VMs and the local network cannot initiate connections to it.";
  mkNetworkKind "vmnet-shared" "Shared Internet Network"
    "VMs share a private network with automatic addresses and internet access through this Mac. Requires host administrator privileges.";
  mkNetworkKind "vmnet-host" "Host-only Network"
    "VMs communicate with this Mac and other VMs on the host-only network. Automatic addresses are supplied; no internet sharing. Requires host administrator privileges."
].

Definition find_kind (v : string) (l : list NetworkKind) : option NetworkKind :=
  List.find (λ item, String.eqb (nk_value item) v) l.

Definition networkModeName (mode : string) : string :=
  match find_kind (if String.eqb mode "bridged" then "vmnet-bridged" else mode) networkModes with
  | Some item => nk_label item ||s mode
  | None => mode
  end.

Definition networkHelp (ref : string) (networks : list Network) : string :=
  let builtin := find_kind ref builtinNetworks in
  let network := List.find (λ item, String.eqb (net_id item) ref || String.eqb (net_name item) ref) networks in
  default "" (nk_help <$> builtin)
    ||s default "" (network ≫= λ n, nk_help <$> find_kind (mode_string (net_mode n)) networkModes)
    ||s "This network is unavailable. Choose another network before saving.".

(** ** Addresses *)

Definition octet_ok (part : string) : bool := test digits_1_3 part && (digits_value part <=? 255)%Z.

Definition is_v4 (address : string) : bool :=
  let v4 := split_on "." address in (length v4 =? 4)%nat && forallb octet_ok v4.

(** [/^[0-9a-f]{1,4}$/i] *)
Definition hex_group : re := Rep 1 3 (Cls is_hex).

Definition is_v6 (address : string) : bool :=
  let halves := split_str "::" address in
  let groups := List.filter truthy (split_on ":" address) in
  includes ":" address && (length halves <=? 2)%nat && forallb (test hex_group) groups
    && (if (length halves =? 2)%nat then (length groups <? 8)%nat else (length groups =? 8)%nat).

Definition cidr_help (ipv4Only : bool) : string :=
  if ipv4Only then "Enter an IPv4 address and prefix, for example 192.168.1.20/24."
  else "Enter an IP address and prefix, for example 192.168.1.20/24 or 2001:db8::20/64.".

Definition cidrError (value : string) (ipv4Only : bool) : string :=
  if negb (truthy (trim value)) then "" else
  match split_on "/" (trim value) with
  | [] => "" (* [split] never returns an empty array *)
  | address :: rest =>
      let prefix := head rest in
      let extra := tail rest in
      let isV4 := is_v4 address in
      let isV6 := negb ipv4Only && is_v6 address in
      if negb (length extra =? 0)%nat || (negb isV4 && negb isV6)
         || negb (test digits_1_3 (default "" prefix))
         || ((if isV4 then 32 else 128) <? digits_value (default "" prefix))%Z
      then cidr_help ipv4Only
      else ""
  end.

(** [/^([0-9a-f]{2}:){5}[0-9a-f]{2}$/i] *)
Definition mac_re : re :=
  let pair := Rep 2 0 (Cls is_hex) in Seq (Rep 5 0 (Seq pair (Chr ":"))) pair.

Definition macError (value : string) : string :=
  if negb (truthy (trim value)) || test mac_re (trim value) then ""
  else "Enter six hexadecimal pairs separated by colons, for example 02:00:00:00:00:01.".

(** ** Names *)

Definition name_char (c : ascii) : bool :=
  is_alnum c || is_char "." c || is_char "_" c || is_char "-" c.

(** [/^[A-Za-z0-9][A-Za-z0-9._-]{0,62}$/] *)
Definition name_re : re := Seq (Cls is_alnum) (Rep 0 62 (Cls name_char)).

Definition nameError (value : string) : string :=
  if test name_re value then ""
  else "Use 1–63 letters, digits, dots, underscores or hyphens; begin with a letter or digit.".

(** ** The page to return to after signing in *)

Definition safeReturnPath (value : option string) : string :=
  match value with
  | Some v =>
      if truthy v && starts_with "/" v && negb (starts_with "//" v) && negb (includes "\" v)
         && negb (starts_with "/login" v)
      then v else "/"
  | None => "/"
  end.

(** ** Lemmas *)

#[global] Arguments is_v4 : simpl never.
#[global] Arguments is_v6 : simpl never.

Lemma hex_not_sep c d : is_hex c = true → d ∈ [":"%char; "."%char; "/"%char] → c ≠ d.
Proof. intros Hc Hd ->. rewrite !elem_of_cons in Hd. destruct_or!; subst; done || set_solver. Qed.

Lemma digit_hex c : is_digit c = true → is_hex c = true.
Proof. unfold is_hex. by intros ->. Qed.

Lemma hex_printable c : is_hex c = true → printable c = true.
Proof.
  unfold is_hex, is_digit, in_range, printable. rewrite !orb_true_iff, !andb_true_iff, !N.leb_le.
  unfold in_range. rewrite andb_true_iff, !N.leb_le. lia.
Qed.

Lemma all_chars_impl (f g : ascii → bool) s :
  (∀ c, f c = true → g c = true) → all_chars f s = true → all_chars g s = true.
Proof. rewrite !all_chars_spec. naive_solver. Qed.

Lemma hex_no_sep s d : all_chars is_hex s = true → d ∈ [":"%char; "."%char; "/"%char] → d ∉ chars s.
Proof. rewrite all_chars_spec. intros Hs Hd Hin. by eapply hex_not_sep; eauto. Qed.

(** What a decimal field of at most three digits is. *)
Definition decimal_field (bound : Z) (s : string) : Prop :=
  (1 ≤ String.length s ≤ 3)%nat ∧ all_chars is_digit s = true ∧ (digits_value s ≤ bound)%Z.

Lemma octet_ok_spec s : octet_ok s = true ↔ decimal_field 255 s.
Proof.
  unfold octet_ok, decimal_field. rewrite andb_true_iff, test_digits_1_3, Z.leb_le. tauto.
Qed.

Lemma decimal_field_hex b s : decimal_field b s → all_chars is_hex s = true.
Proof. intros (_ & H & _). revert H. apply all_chars_impl, digit_hex. Qed.

Lemma join4 x a b c d : join x [a; b; c; d] = a ++ x ++ b ++ x ++ c ++ x ++ d.
Proof. done. Qed.

Lemma is_v4_spec addr :
  is_v4 addr = true ↔
  ∃ a b c d, addr = a ++ "." ++ b ++ "." ++ c ++ "." ++ d ∧ Forall (decimal_field 255) [a; b; c; d].
Proof.
  unfold is_v4. rewrite andb_true_iff, Nat.eqb_eq, forallb_forall. split.
  - intros [Hl Hf]. pose proof (join_split_on "." addr) as E.
    destruct (split_on "." addr) as [|a [|b [|c [|d [|]]]]]; try done.
    exists a, b, c, d. split; [by rewrite <- E, join4|].
    apply Forall_forall. intros x Hx. apply octet_ok_spec, Hf. by apply list_elem_of_In.
  - intros (a & b & c & d & -> & Hf). rewrite <- join4, split_on_join; [|done|].
    + split; [done|]. intros x Hx. apply octet_ok_spec. rewrite Forall_forall in Hf.
      by apply Hf, list_elem_of_In.
    + eapply Forall_impl; [exact Hf|]. intros s Hs.
      apply (hex_no_sep s "."); [by eapply decimal_field_hex|set_solver].
Qed.

(** The shape of every accepted text: an address and a prefix length around one slash. *)
Lemma cidrError_shape v b :
  cidrError v b = "" ↔ trim v = "" ∨
  ∃ addr p, split_on "/" (trim v) = [addr; p] ∧
    (is_v4 addr = true ∨ is_v4 addr = false ∧ b = false ∧ is_v6 addr = true) ∧
    decimal_field (if is_v4 addr then 32 else 128) p.
Proof.
  unfold cidrError. destruct (truthy (trim v)) eqn:T; cbn [negb]; unbool; [|tauto].
  pose proof (split_on_nonempty "/" (trim v)) as Hne.
  destruct (split_on "/" (trim v)) as [|addr [|p [|e r]]]; [done| | |]; cbn [head tail default length].
  - split; [|intros [?|(? & ? & ? & _)]; done]. rewrite !orb_true_r. simpl. by destruct b.
  - split.
    + intros H. right. exists addr, p. split; [done|]. revert H.
      unfold decimal_field, id. destruct (test digits_1_3 p) eqn:D; [apply test_digits_1_3 in D as [??]|cbn; rewrite orb_true_r; by destruct b].
      destruct (is_v4 addr), b, (is_v6 addr); cbn; try done; case_match; unbool; done || tauto.
    + intros [?|(a & q & [= <- <-] & Ha & Hl & Hd & Hb)]; [done|].
      unfold id. assert (test digits_1_3 p = true) as -> by by apply test_digits_1_3.
      apply Z.ltb_ge in Hb. rewrite Hb. destruct Ha as [->|(-> & -> & ->)]; done.
  - split; [|intros [?|(? & ? & ? & _)]; done]. by destruct b.
Qed.

Lemma decimal_field_no_sep b s d :
  decimal_field b s → d ∈ [":"%char; "."%char; "/"%char] → d ∉ chars s.
Proof. intros ?%decimal_field_hex. by apply hex_no_sep. Qed.

Lemma notin_app d s t : d ∉ chars s → d ∉ chars t → d ∉ chars (s ++ t).
Proof. rewrite chars_app. set_solver. Qed.

Lemma v4_no_slash addr : is_v4 addr = true → "/"%char ∉ chars addr.
Proof.
  intros (a & b & c & d & -> & Hf)%is_v4_spec. rewrite !Forall_cons in Hf.
  destruct Hf as (? & ? & ? & ? & _).
  repeat apply notin_app; try (eapply decimal_field_no_sep; [eassumption|set_solver]); set_solver.
Qed.

(** An address text and a prefix around a slash, when neither has a slash of its own. *)
Lemma split_addr addr p :
  "/"%char ∉ chars addr → "/"%char ∉ chars p → split_on "/" (addr ++ "/" ++ p) = [addr; p].
Proof. intros ??. change ("/" ++ p) with (String "/" p). by rewrite split_on_cons, split_on_no_sep. Qed.

(** IPv6 texts: eight groups of one to four hexadecimal digits, or fewer around one [::]. *)
Definition hex_group_text (g : string) : Prop :=
  (1 ≤ String.length g ≤ 4)%nat ∧ all_chars is_hex g = true.

Inductive ipv6_text : string → Prop :=
  | ipv6_full gs : length gs = 8%nat → Forall hex_group_text gs → ipv6_text (join ":" gs)
  | ipv6_short l r :
      (length l + length r < 8)%nat → Forall hex_group_text l → Forall hex_group_text r →
      ipv6_text (join ":" l ++ "::" ++ join ":" r).

Lemma test_hex_group g : test hex_group g = true ↔ hex_group_text g.
Proof. unfold hex_group, hex_group_text. rewrite test_spec, matches_rep_cls, length_chars. done. Qed.

Lemma hex_group_nonempty g : hex_group_text g → g ≠ "".
Proof. intros [? _] ->. simpl in *. lia. Qed.

Lemma hex_group_no_sep g d : hex_group_text g → d ∈ [":"%char; "."%char; "/"%char] → d ∉ chars g.
Proof. intros [_ ?]. by apply hex_no_sep. Qed.

(** The characters of groups joined with colons. *)
Definition group_char (c : ascii) : bool := is_hex c || is_char ":" c.

Lemma group_char_spec c : group_char c = true ↔ is_hex c = true ∨ c = ":"%char.
Proof. unfold group_char. by rewrite orb_true_iff, is_char_spec. Qed.

Lemma join_groups_chars gs : Forall hex_group_text gs → all_chars group_char (join ":" gs) = true.
Proof.
  induction 1 as [|g gs Hg Hgs IH]; [done|].
  assert (all_chars group_char g = true).
  { destruct Hg as [_ Hg]. revert Hg. apply all_chars_impl. intros c ?. apply group_char_spec; auto. }
  destruct gs as [|h gs]; [done|]. rewrite join_cons, !all_chars_app, IH. by rewrite andb_true_iff.
Qed.

Lemma group_chars_no_sep s d : all_chars group_char s = true → d ∈ ["."%char; "/"%char] → d ∉ chars s.
Proof.
  rewrite all_chars_spec. intros Hs Hd Hin. apply Hs, group_char_spec in Hin as [Hc| ->]; [|set_solver].
  by eapply (hex_not_sep d d); [done|set_solver|].
Qed.

Lemma ipv6_group_chars s : ipv6_text s → all_chars group_char s = true.
Proof.
  destruct 1; [by apply join_groups_chars|].
  rewrite !all_chars_app, !join_groups_chars by done. done.
Qed.

Lemma group_char_printable c : group_char c = true → printable c = true.
Proof. rewrite group_char_spec. by intros [?%hex_printable| ->]. Qed.

Lemma ipv6_not_v4 s : ipv6_text s → is_v4 s = false.
Proof.
  intros Hs%ipv6_group_chars. apply not_true_is_false. intros (a & b & c & d & -> & _)%is_v4_spec.
  eapply (group_chars_no_sep _ "."); [exact Hs|set_solver|]. rewrite !chars_app. set_solver.
Qed.

(** Inside joined groups every colon is followed by a character of a group. *)
Definition colons_followed (s : string) : Prop :=
  ∀ a c b, s = a ++ String c b → c = ":"%char → ∃ d b', b = String d b' ∧ d ≠ ":"%char.

Lemma colons_followed_none s : ":"%char ∉ chars s → colons_followed s.
Proof. intros Hs a c b -> ->. rewrite chars_app in Hs. simpl in Hs. set_solver. Qed.

Lemma colons_followed_app g d s :
  ":"%char ∉ chars g → d ≠ ":"%char → colons_followed (String d s) →
  colons_followed (g ++ ":" ++ String d s).
Proof.
  intros Hg Hd Hs. induction g as [|x g IH].
  - intros [|y a] c b E Hc; cbn in E; injection E as E1 E2; subst; [by eauto|].
    by eapply Hs.
  - simpl in Hg. rewrite not_elem_of_cons in Hg.
    intros [|y a] c b E Hc; cbn in E; injection E as E1 E2; [naive_solver|].
    eapply IH; [tauto|exact E2|done].
Qed.

Lemma colons_followed_join gs : Forall hex_group_text gs → colons_followed (join ":" gs).
Proof.
  induction 1 as [|g gs Hg Hgs IH]; [by intros []|].
  assert (":"%char ∉ chars g) by (eapply hex_group_no_sep; [done|set_solver]).
  destruct gs as [|h gs]; [by apply colons_followed_none|]. rewrite join_cons.
  apply Forall_cons in Hgs as [Hh _]. pose proof (hex_group_no_sep h ":" Hh ltac:(set_solver)) as Hc.
  destruct h as [|d h]; [by apply hex_group_nonempty in Hh|].
  destruct (join ":" (String d h :: gs)) as [|d' s'] eqn:E; [destruct gs; done|].
  assert (d' = d) as -> by (destruct gs; simpl in E; congruence).
  apply colons_followed_app; [done| |done]. set_solver.
Qed.

Lemma colons_followed_prefix s t a c b :
  colons_followed s → s = a ++ String c b → starts_with "::" (String c b ++ t) = false.
Proof.
  intros Hs E. apply not_true_is_false. intros [r Hr]%starts_with_spec. cbn in Hr.
  injection Hr as -> Hb. destruct (Hs _ _ _ E eq_refl) as (d & b' & -> & ?). cbn in Hb. congruence.
Qed.

Lemma filter_truthy_groups gs : Forall hex_group_text gs → List.filter truthy gs = gs.
Proof.
  induction 1 as [|g gs Hg Hgs IH]; [done|]. cbn. rewrite IH.
  by apply hex_group_nonempty, truthy_true in Hg as ->.
Qed.

Lemma groups_of_join gs :
  Forall hex_group_text gs → List.filter truthy (split_on ":" (join ":" gs)) = gs.
Proof.
  intros Hgs. destruct gs as [|g gs]; [done|].
  rewrite split_on_join; [by apply filter_truthy_groups|done|].
  eapply Forall_impl; [done|]. intros h Hh. apply (hex_group_no_sep _ _ Hh). set_solver.
Qed.

Lemma forallb_hex_groups gs : Forall hex_group_text gs → forallb (test hex_group) gs = true.
Proof.
  rewrite forallb_forall, Forall_forall. intros H x Hx. apply test_hex_group, H. by apply list_elem_of_In.
Qed.

Lemma is_v6_text s : ipv6_text s → is_v6 s = true.
Proof.
  destruct 1 as [gs Hl Hgs|l r Hlr Hl Hr]; unfold is_v6.
  - rewrite groups_of_join, split_str_none by first [done | intros a c b E;
      rewrite <- (str_app_nil_r (String c b)); by eapply colons_followed_prefix, E; apply colons_followed_join].
    rewrite forallb_hex_groups, Hl by done. cbn [length Nat.leb Nat.eqb]. rewrite !andb_true_r.
    apply includes_spec. destruct gs as [|g [|h gs]]; [done..|].
    exists g, (join ":" (h :: gs)). by rewrite join_cons.
  - rewrite split_str_cons, split_str_none by first [done |
      intros a c b E; by eapply colons_followed_prefix, E; apply colons_followed_join |
      intros a c b E; rewrite <- (str_app_nil_r (String c b));
        by eapply colons_followed_prefix, E; apply colons_followed_join].
    change ("::" ++ join ":" r) with (String ":" (String ":" (join ":" r))).
    rewrite split_on_app. change (split_on ":" (String ":" (join ":" r))) with ("" :: split_on ":" (join ":" r)).
    rewrite List.filter_app. cbn [List.filter truthy String.eqb negb]. rewrite !groups_of_join by done.
    rewrite forallb_app, !forallb_hex_groups by done. rewrite length_app.
    cbn [length Nat.leb Nat.eqb andb]. rewrite !andb_true_iff, Nat.ltb_lt. split_and!; try done.
    apply includes_spec. by exists (join ":" l), (String ":" (join ":" r)).
Qed.

Lemma hex_pair_spec u : matches (Rep 2 0 (Cls is_hex)) u ↔ length u = 2%nat ∧ forallb is_hex u = true.
Proof. rewrite matches_rep_cls. split; intros [? ?]; (split; [lia|done]). Qed.

Lemma is_hex_unchars u : all_chars is_hex (unchars u) = forallb is_hex u.
Proof. unfold all_chars. by rewrite chars_unchars. Qed.

(** A pair of hexadecimal digits. *)
Definition hex_pair (s : string) : Prop := String.length s = 2%nat ∧ all_chars is_hex s = true.

Lemma matches_colon_pairs n u :
  matches (Rep n 0 (Seq (Rep 2 0 (Cls is_hex)) (Chr ":"))) u ↔
  ∃ ps, length ps = n ∧ Forall hex_pair ps ∧ u = concat ((λ p, chars (p ++ ":")) <$> ps).
Proof.
  revert u. induction n as [|n IH]; intros u; cbn [Rep UpTo].
  - rewrite matches_eps_iff. split; [intros ->; by exists []|]. by intros ([] & ? & _ & ->).
  - rewrite matches_seq_iff. setoid_rewrite IH. setoid_rewrite matches_seq_iff.
    unfold Chr. setoid_rewrite matches_cls_iff. setoid_rewrite is_char_spec. setoid_rewrite hex_pair_spec. split.
    + intros (v & w & -> & (v1 & v2 & -> & [Hl Hf] & c & -> & ->) & ps & <- & Hps & ->).
      exists (unchars v1 :: ps). split; [done|]. split.
      * constructor; [|done]. split; [by rewrite <- length_chars, chars_unchars|by rewrite is_hex_unchars].
      * cbn. by rewrite chars_app, chars_unchars.
    + intros ([|p ps] & Hl & Hf & ->); [done|]. apply Forall_cons in Hf as [[Hp1 Hp2] Hf].
      eexists _, _. split; [done|]. split; [|exists ps; split; [by injection Hl|done]].
      exists (chars p), [":"%char]. rewrite chars_app, length_chars.
      split_and!; [done..|by exists ":"%char].
Qed.

(** ** Properties *)

(** [nameError] accepts exactly the names of one to sixty-three characters that begin with an
    ASCII letter or digit and continue with letters, digits, dots, underscores and hyphens; every
    other value, the empty one and every non-ASCII one included, gets the explanation. *)
Theorem nameError_iff (v : string) :
  nameError v = "" ↔
  ∃ c r, v = String c r ∧ is_alnum c = true ∧ (String.length r ≤ 62)%nat ∧ all_chars name_char r = true.
Proof.
  unfold nameError, name_re.
  transitivity (test (Seq (Cls is_alnum) (Rep 0 62 (Cls name_char))) v = true); [by case_match|].
  rewrite test_spec, matches_cls_seq. setoid_rewrite matches_rep_cls. split.
  - intros (c & u & E & Hc & Hl & Hf). exists c, (unchars u).
    rewrite <- length_chars, chars_unchars. unfold all_chars. rewrite chars_unchars.
    split_and!; [|done|lia|done]. by rewrite <- (unchars_chars v), E.
  - intros (c & r & -> & Hc & Hl & Hf). exists c, (chars r). rewrite length_chars.
    split_and!; [done|done|lia|lia|done].
Qed.

(** In a field that takes IPv4 only, the accepted texts are, besides blanks, exactly the dotted
    quads of one to three digit fields up to 255 followed by a slash and a prefix up to 32. *)
Theorem cidrError_ipv4_iff (v : string) :
  cidrError v true = "" ↔ trim v = "" ∨
  ∃ a b c d p, trim v = (a ++ "." ++ b ++ "." ++ c ++ "." ++ d) ++ "/" ++ p ∧
    Forall (decimal_field 255) [a; b; c; d] ∧ decimal_field 32 p.
Proof.
  rewrite cidrError_shape. apply or_iff_compat_l. split.
  - intros (addr & p & Hsplit & [V4|(_ & ? & _)] & Hp); [|done]. rewrite V4 in Hp.
    pose proof V4 as (a & b & c & d & E & Hf)%is_v4_spec. exists a, b, c, d, p.
    split; [|done]. rewrite <- E, <- (join_split_on "/" (trim v)), Hsplit. done.
  - intros (a & b & c & d & p & E & Hf & Hp). eexists _, p.
    assert (is_v4 (a ++ "." ++ b ++ "." ++ c ++ "." ++ d) = true) as V4
      by (apply is_v4_spec; by exists a, b, c, d).
    rewrite E, split_addr; [|by apply v4_no_slash|eapply decimal_field_no_sep; [done|set_solver]].
    split; [done|]. rewrite V4. auto.
Qed.

(** A guest address field accepts every IPv6 address written as eight groups of hexadecimal
    digits or with one [::], whatever the groups, with any prefix up to 128. *)
Theorem cidrError_accepts_ipv6 (addr p : string) :
  ipv6_text addr → decimal_field 128 p → cidrError (addr ++ "/" ++ p) false = "".
Proof.
  intros Ha Hp. apply cidrError_shape. right. exists addr, p.
  pose proof (ipv6_group_chars _ Ha) as Hg.
  rewrite trim_printable.
  - rewrite split_addr; [|eapply group_chars_no_sep; [done|set_solver]
                         |eapply decimal_field_no_sep; [done|set_solver]].
    rewrite (ipv6_not_v4 _ Ha), (is_v6_text _ Ha). split_and!; [done|by right|done].
  - rewrite !all_chars_app, !andb_true_iff. split_and!; [|done|].
    + revert Hg. apply all_chars_impl, group_char_printable.
    + eapply all_chars_impl; [|by eapply decimal_field_hex]. apply hex_printable.
Qed.

Lemma cidrError_accepts_ipv6_witness :
  ipv6_text "2001:db8::20" ∧ cidrError ("2001:db8::20" ++ "/" ++ "64") false = "".
Proof.
  assert (ipv6_text "2001:db8::20") as H.
  { apply (ipv6_short ["2001"; "db8"] ["20"]); [simpl; lia| |];
      repeat constructor; vm_compute; lia || reflexivity. }
  split; [exact H|]. apply (cidrError_accepts_ipv6 "2001:db8::20" "64"); [exact H|].
  split; [|split]; vm_compute; [lia|reflexivity|discriminate].
Defined.

(** The converse fails: the colons of an accepted text need not be where an address has them. *)
Lemma cidrError_accepts_malformed :
  cidrError ":::/64" false = "" ∧ cidrError "1:2:3:4:5:6:7:8:/64" false = "".
Proof. done. Qed.

(** [macError] accepts, besides blanks, exactly six pairs of hexadecimal digits separated by
    colons. *)
Theorem macError_iff (v : string) :
  macError v = "" ↔ trim v = "" ∨
  ∃ ps, length ps = 6%nat ∧ Forall hex_pair ps ∧ trim v = join ":" ps.
Proof.
  unfold macError.
  transitivity (trim v = "" ∨ test mac_re (trim v) = true).
  { destruct (truthy (trim v)) eqn:T; unbool; cbn; [|tauto]. case_match; naive_solver. }
  apply or_iff_compat_l. unfold mac_re. rewrite test_spec, matches_seq_iff.
  setoid_rewrite matches_colon_pairs. setoid_rewrite hex_pair_spec. split.
  - intros (u & w & E & (ps & Hl & Hf & ->) & Hw & Hwf).
    destruct ps as [|p1 [|p2 [|p3 [|p4 [|p5 [|]]]]]]; try done.
    exists [p1; p2; p3; p4; p5; unchars w]. split; [done|]. split.
    + apply (Forall_app_2 _ [p1; p2; p3; p4; p5]); [done|]. constructor; [|done].
      split; [by rewrite <- length_chars, chars_unchars|by rewrite is_hex_unchars].
    + apply (inj chars). rewrite E. cbn [fmap list_fmap concat join].
      rewrite !chars_app, chars_unchars. by rewrite <- ?app_assoc.
  - intros (ps & Hl & Hf & E). destruct ps as [|p1 [|p2 [|p3 [|p4 [|p5 [|p6 [|]]]]]]]; try done.
    apply (Forall_app _ [p1; p2; p3; p4; p5] [p6]) in Hf as [Hf [H6 _]%Forall_cons].
    eexists _, (chars p6). split; [|split; [by exists [p1; p2; p3; p4; p5]|]].
    + rewrite E. cbn [fmap list_fmap concat join]. rewrite !chars_app. by rewrite <- ?app_assoc.
    + rewrite length_chars. apply H6.
Qed.

(** The page the login form returns to is always a path of this site: the root, or a slash
    followed by a character that is neither a slash nor a backslash, with no backslash anywhere and
    outside the login page; a path of that form is returned unchanged. *)
Theorem safeReturnPath_local (value : option string) :
  let p := safeReturnPath value in
  (p = "/" ∨ ∃ c r, p = String "/" (String c r) ∧ c ≠ "/"%char ∧ c ≠ "\"%char) ∧
  "\"%char ∉ chars p ∧ starts_with "/login" p = false ∧ safeReturnPath (Some p) = p.
Proof.
  cbn zeta. assert (∀ v, (if truthy v && starts_with "/" v && negb (starts_with "//" v)
    && negb (includes "\" v) && negb (starts_with "/login" v) then v else "/") = v ∧
      truthy v && starts_with "/" v && negb (starts_with "//" v)
    && negb (includes "\" v) && negb (starts_with "/login" v) = true ∨
    (if truthy v && starts_with "/" v && negb (starts_with "//" v)
    && negb (includes "\" v) && negb (starts_with "/login" v) then v else "/") = "/") as Hcases.
  { intros v. destruct (truthy v && _ && _ && _ && _); auto. }
  destruct value as [v|]; cbn [safeReturnPath]; [|split_and!; [auto|set_solver|done|done]].
  destruct (Hcases v) as [[-> Hv]| ->]; [|split_and!; [auto|set_solver|done|done]].
  rewrite Hv. clear Hcases. unbool. match goal with H : starts_with "/" v = true |- _ => apply starts_with_spec in H as [r ->] end.
  split_and!; try done.
  - destruct r as [|c r]; [by left|]. right. exists c, r. split_and!; [done| |]; intros ->.
    { match goal with H : starts_with "//" _ = false |- _ => change (true = false) in H; discriminate H end. }
    by eapply (includes_false _ _ "/" r).
  - intros Hin. apply list_elem_of_split in Hin as (l1 & l2 & E).
    eapply (includes_false _ _ (unchars l1) (unchars l2)); [done|].
    by rewrite <- (unchars_chars ("/" ++ r)), E, unchars_app.
Qed.
