(* ===== verification/BootOrder.v ===== *)
(** * The boot order of a machine

    [src/web/src/bootOrder.ts] completes a saved boot order into an order of all the devices of the
    machine, and [validateMedia] of [src/pkg/engine/media.go] is the server's test of the media
    settings that the console sends back. *)

From S2P Require Import Prelude JsString Types.
Local Open Scope string_scope.

(** ** [bootOrder] *)

Definition disk_device (d : VMDisk) : string := "disk:" ++ disk_id d.
Definition iso_device (id : string) : string := "iso:" ++ id.

Definition boot_devices (disks : list VMDisk) (isos : list string) : list string :=
  ["disk"] ++ (disk_device <$> disks) ++ (iso_device <$> isos).

(** [manifest.boot_order?.length ? manifest.boot_order : [...isos, 'disk']] *)
Definition preferred_order (boot_order : option (list string)) (isos : list string) : list string :=
  match boot_order with
  | Some (x :: r) => x :: r
  | _ => (iso_device <$> isos) ++ ["disk"]
  end.

(** The body of [bootOrder], on the two fields of the manifest it reads. *)
Definition order_of (boot_order : option (list string)) (disks : list VMDisk) (isos : list string) : list string :=
  let devices := boot_devices disks isos in
  filter (.∈ devices) (uniq (preferred_order boot_order isos ++ devices)).

Definition bootOrder (manifest : VMManifest) (isos : list string) : list string :=
  order_of (m_boot_order manifest) (m_disks manifest |?| []) isos.

(** With the default of the second parameter, [manifest.isos || []]. *)
Definition savedBootOrder (manifest : VMManifest) : list string :=
  bootOrder manifest (m_isos manifest |?| []).

(** ** The server's validation *)

Fixpoint validate_order (valid seen order : list string) : option string :=
  match order with
  | [] => None
  | id :: r =>
      if negb (includes_str valid id) || includes_str seen id
      then Some "invalid or duplicate boot device"
      else validate_order valid (id :: seen) r
  end.

Lemma validate_order_ok valid seen order :
  validate_order valid seen order = None ↔
  NoDup order ∧ (∀ id, id ∈ order → id ∉ seen ∧ id ∈ valid).
Proof.
  revert seen. induction order as [|id r IH]; intros seen; cbn [validate_order].
  - split; [|done]. intros _. split; [constructor|]. intros id Hid. by apply not_elem_of_nil in Hid.
  - destruct (negb _ || _) eqn:C; unbool.
    + split; [done|]. intros [_ Hall]. destruct (Hall id) as (Hs & Hv); [apply elem_of_cons; auto|]. unbool. tauto.
    + rewrite IH, NoDup_cons. split.
      * intros [Hnd Hall]. split; [split; [|done]|].
        -- intros Hin. destruct (Hall id Hin) as [Hs _]. apply Hs, elem_of_cons; auto.
        -- intros id' [->|Hin]%elem_of_cons; [done|].
           destruct (Hall id' Hin) as [Hs ?]. split; [|done]. rewrite elem_of_cons in Hs. tauto.
      * intros [[Hn Hnd] Hall]. split; [done|]. intros id' Hin.
        destruct (Hall id') as [Hs ?]; [apply elem_of_cons; auto|]. split; [|done].
        rewrite elem_of_cons. intros [->|?]; tauto.
Qed.

Section validate.
(** [GetMedia] reads a description file of the media directory. *)
Context (GetMedia : string → option Media).

(** The loop over [isos], with the set of the ids seen so far; [None] is a nil error. *)
Fixpoint validate_isos (seen isos : list string) : option string :=
  match isos with
  | [] => None
  | id :: r =>
      match GetMedia id with
      | None => Some "invalid media ID"
      | Some m =>
          if negb (String.eqb (media_kind m) "iso") || includes_str seen id
          then Some "invalid or duplicate ISO"
          else validate_isos (id :: seen) r
      end
  end.

Definition validateMedia (isos order : list string) (disks : list VMDisk) : option string :=
  match validate_isos [] isos with
  | Some e => Some e
  | None =>
      let valid := "disk" :: (iso_device <$> isos) ++ (disk_device <$> disks) in
      validate_order valid [] order
  end.

Lemma validate_isos_ok seen isos :
  validate_isos seen isos = None ↔
  NoDup isos ∧ (∀ id, id ∈ isos → id ∉ seen ∧ ∃ m, GetMedia id = Some m ∧ media_kind m = "iso").
Proof.
  revert seen. induction isos as [|id r IH]; intros seen; cbn [validate_isos].
  - split; [|done]. intros _. split; [constructor|]. intros id Hid. by apply not_elem_of_nil in Hid.
  - destruct (GetMedia id) as [m|] eqn:E.
    2:{ split; [done|]. intros [_ Hall]. destruct (Hall id) as (_ & m & ? & _); [|congruence].
        apply elem_of_cons; auto. }
    destruct (negb _ || _) eqn:C; unbool.
    + split; [done|]. intros [_ Hall]. destruct (Hall id) as (Hs & m' & Hm & Hk); [apply elem_of_cons; auto|].
      assert (m' = m) as -> by congruence. unbool. naive_solver.
    + rewrite IH, NoDup_cons. split.
      * intros [Hnd Hall]. split; [split; [|done]|].
        -- intros Hin. destruct (Hall id Hin) as [Hs _]. apply Hs, elem_of_cons; auto.
        -- intros id' [->|Hin]%elem_of_cons; [split; [done|by exists m]|].
           destruct (Hall id' Hin) as [Hs ?]. split; [|done]. rewrite elem_of_cons in Hs. tauto.
      * intros [[Hn Hnd] Hall]. split; [done|]. intros id' Hin.
        destruct (Hall id') as [Hs ?]; [apply elem_of_cons; auto|]. split; [|done].
        rewrite elem_of_cons. intros [->|?]; tauto.
Qed.

(** The server accepts exactly distinct known ISOs with a duplicate-free order of devices. *)
Lemma validateMedia_ok isos order disks :
  validateMedia isos order disks = None ↔
  (NoDup isos ∧ ∀ id, id ∈ isos → ∃ m, GetMedia id = Some m ∧ media_kind m = "iso") ∧
  NoDup order ∧ ∀ x, x ∈ order → x ∈ boot_devices disks isos.
Proof.
  unfold validateMedia.
  destruct (validate_isos [] isos) eqn:E.
  - split; [done|]. intros [[Hn Hall] _]. enough (validate_isos [] isos = None) by congruence.
    apply validate_isos_ok. split; [done|]. intros id Hid. split; [apply not_elem_of_nil|auto].
  - apply validate_isos_ok in E as [Hn Hall]. rewrite validate_order_ok. split.
    + intros [Ho Hv]. split_and!; [done| |done|].
      * intros id Hid. by apply Hall.
      * intros x Hx. destruct (Hv x Hx) as [_ Hin]. revert Hin. unfold boot_devices.
        rewrite !elem_of_cons, !elem_of_app. set_solver.
    + intros (_ & Ho & Hv). split; [done|]. intros x Hx. split; [apply not_elem_of_nil|].
      specialize (Hv x Hx). revert Hv. unfold boot_devices. rewrite !elem_of_cons, !elem_of_app. set_solver.
Qed.
End validate.

(** ** Lemmas *)

Lemma order_of_app bo disks isos :
  order_of bo disks isos =
    (filter (.∈ boot_devices disks isos) (uniq (preferred_order bo isos)) ++
    filter (.∉ preferred_order bo isos) (uniq (boot_devices disks isos)))%list.
Proof.
  unfold order_of. rewrite uniq_app, filter_app. f_equal.
  apply filter_all. intros x Hx. apply list_elem_of_filter in Hx as [_ Hx]. by rewrite elem_of_uniq in Hx.
Qed.

Lemma NoDup_order_of bo disks isos : NoDup (order_of bo disks isos).
Proof. apply NoDup_filter, NoDup_uniq. Qed.

Lemma elem_of_order_of bo disks isos x : x ∈ order_of bo disks isos ↔ x ∈ boot_devices disks isos.
Proof. unfold order_of. rewrite list_elem_of_filter, elem_of_uniq, elem_of_app. tauto. Qed.

Lemma disk_in_devices disks isos : "disk" ∈ boot_devices disks isos.
Proof. apply elem_of_cons. by left. Qed.

Lemma order_of_nonempty bo disks isos : order_of bo disks isos ≠ [].
Proof.
  intros E. pose proof (proj2 (elem_of_order_of bo disks isos "disk") (disk_in_devices _ _)) as H.
  rewrite E in H. by apply not_elem_of_nil in H.
Qed.

(** An order of exactly the devices is kept as it is. *)
Lemma order_of_complete l disks isos :
  NoDup l → (∀ x, x ∈ l ↔ x ∈ boot_devices disks isos) → order_of (Some l) disks isos = l.
Proof.
  intros Hn Hl. rewrite order_of_app.
  assert (preferred_order (Some l) isos = l) as ->.
  { destruct l; [|done]. exfalso. eapply not_elem_of_nil, Hl, disk_in_devices. }
  rewrite uniq_NoDup_id by done. rewrite filter_all, filter_none, app_nil_r; [done| |].
  - intros x Hx. rewrite elem_of_uniq in Hx. rewrite Hl. tauto.
  - intros x Hx. by apply Hl.
Qed.

#[export] Instance iso_device_inj : Inj (=) (=) iso_device.
Proof. intros a b H. by apply (str_app_inv_head "iso:"). Qed.

Lemma iso_device_not_disk id : iso_device id ≠ "disk".
Proof. done. Qed.
Lemma iso_device_not_disk_device id d : iso_device id ≠ disk_device d.
Proof. done. Qed.

Lemma elem_of_boot_devices disks isos x :
  x ∈ boot_devices disks isos ↔
  x = "disk" ∨ (∃ d, x = disk_device d ∧ d ∈ disks) ∨ (∃ id, x = iso_device id ∧ id ∈ isos).
Proof.
  unfold boot_devices. rewrite elem_of_app, list_elem_of_singleton, elem_of_app, !list_elem_of_fmap. done.
Qed.

Lemma iso_in_devices disks isos id : iso_device id ∈ boot_devices disks isos ↔ id ∈ isos.
Proof.
  rewrite elem_of_boot_devices. split; [|eauto].
  intros [?|[(d & ? & _)|(id' & ->%(inj iso_device) & ?)]]; done.
Qed.

(** ** Properties *)

(** Whatever order a manifest has saved, stale, partial or repeated, the boot order shown and
    edited is an order of exactly the devices of the machine, each once. *)
Theorem bootOrder_devices (manifest : VMManifest) (isos : list string) :
  NoDup (bootOrder manifest isos) ∧
  ∀ x, x ∈ bootOrder manifest isos ↔ x ∈ boot_devices (m_disks manifest |?| []) isos.
Proof. split; [apply NoDup_order_of|]. intros x. apply elem_of_order_of. Qed.

(** The devices the saved order names come first, in that order, without the devices that are
    gone; the others follow in the order of the manifest. *)
Theorem bootOrder_preference (manifest : VMManifest) (isos : list string) :
  let devices := boot_devices (m_disks manifest |?| []) isos in
  let preferred := preferred_order (m_boot_order manifest) isos in
  bootOrder manifest isos =
    (filter (.∈ devices) (uniq preferred) ++ filter (.∉ preferred) (uniq devices))%list.
Proof. apply order_of_app. Qed.
