(* ===== verification/ResourceEvents.v ===== *)
(** * The bus of resource signals ([src/web/src/hooks/resourceEvents.ts])

    A listener is a function object that its effect creates, so it is identified by a number of its
    own. The module's [Set] keeps the listeners in the order of their subscriptions. *)

From S2P Require Import Prelude.

Definition Listeners := list nat.

(** [listeners.add(listener)]: adding a member again changes nothing. *)
Definition subscribe (listener : nat) (ls : Listeners) : Listeners :=
  if decide (listener ∈ ls) then ls else ls ++ [listener].

(** The function [subscribeResourceEvents] returns. *)
Definition unsubscribe (listener : nat) (ls : Listeners) : Listeners := filter (.≠ listener) ls.

(** [notifyResources]: every listener is called, in order; a call changes the state of the program. *)
Definition notifyResources {W} (call : nat → list string → W → W) (resources : list string)
    (ls : Listeners) (w : W) : W :=
  foldl (λ w l, call l resources w) w ls.

(** The test of the listener of [useResource]. *)
Definition concerns (resources : list string) (domain : string) : bool :=
  includes_str resources "all" || includes_str resources domain.

Lemma elem_of_subscribe l l' ls : l' ∈ subscribe l ls ↔ l' = l ∨ l' ∈ ls.
Proof. unfold subscribe. case_decide; rewrite ?elem_of_app, ?list_elem_of_singleton; naive_solver. Qed.

Lemma NoDup_subscribe l ls : NoDup ls → NoDup (subscribe l ls).
Proof.
  unfold subscribe. case_decide; [done|]. intros ?. apply NoDup_app. split_and!; [done| |by apply NoDup_singleton].
  intros x ? ->%list_elem_of_singleton. done.
Qed.

Lemma elem_of_unsubscribe l l' ls : l' ∈ unsubscribe l ls ↔ l' ≠ l ∧ l' ∈ ls.
Proof. unfold unsubscribe. by rewrite list_elem_of_filter. Qed.

Lemma NoDup_unsubscribe l ls : NoDup ls → NoDup (unsubscribe l ls).
Proof. intros. by apply NoDup_filter. Qed.

(** A property that every call preserves holds after a notification. *)
Lemma notify_ind {W} (call : nat → list string → W → W) (P : W → Prop) resources ls w :
  (∀ l w, l ∈ ls → P w → P (call l resources w)) → P w → P (notifyResources call resources ls w).
Proof.
  unfold notifyResources. revert w. induction ls as [|l ls IH]; intros w Hcall Hw; [done|].
  cbn [foldl]. apply IH; [set_solver|]. apply Hcall; [set_solver|done].
Qed.
