(* ===== verification/UseResource.v ===== *)
(** * Shared loading of resources ([src/web/src/hooks/useResource.ts], [useEntity.ts])

    The hooks of all the mounted components, the closures their effects create, the map of loads in
    flight and the outstanding requests, as one world with a step function. A step is one task of
    the browser: a React effect, an unmount, a signal of the bus, a call of [refresh], or the
    settlement of a request, which runs all the continuations that await it in the order in which
    they began to wait. A load is a function object, so it is a number here; so is a request, which
    is numbered in the order of creation. *)

From S2P Require Import Prelude ResourceEvents.

Section resource.
(** The type of the data. *)
Context {D : Type}.

(** ** State *)

Inductive outcome := Loaded (d : D) | Rejected (message : string).

Record view := mkView { data : D; error : string; loading : bool }.

(** The variables of one run of the effect: [active], [pending] and [dirty], with the props it
    captured and the hook whose setters it calls. *)
Record closure := mkClosure {
  c_hook : nat; c_load : nat; c_domain : string;
  active : bool; pending : bool; dirty : bool
}.

Record request := mkRequest { r_load : nat; r_waiters : list nat }.

(** [current] is the closure [refreshRef] of a hook calls, [listeners] the bus, [inFlight] the map
    of the module; [next_c] and [next_r] number new closures and requests. *)
Record world := mkWorld {
  closures : gmap nat closure;
  views : gmap nat view;
  current : gmap nat nat;
  listeners : Listeners;
  inFlight : gmap nat nat;
  requests : gmap nat request;
  next_c : nat;
  next_r : nat
}.

Definition init : world := mkWorld ∅ ∅ ∅ [] ∅ ∅ 0 0.

Definition set_flags (a p d : bool) (cl : closure) : closure :=
  mkClosure (c_hook cl) (c_load cl) (c_domain cl) a p d.
Definition put_closure (c : nat) (cl : closure) (w : world) : world :=
  mkWorld (<[c:=cl]> (closures w)) (views w) (current w) (listeners w) (inFlight w) (requests w) (next_c w) (next_r w).
Definition put_view (h : nat) (f : view → view) (w : world) : world :=
  mkWorld (closures w) (alter f h (views w)) (current w) (listeners w) (inFlight w) (requests w) (next_c w) (next_r w).

(** ** Operations *)

(** A closure awaits the request in flight for its load, or a new one. *)
Definition loadShared (load c : nat) (w : world) : world :=
  match inFlight w !! load with
  | Some r =>
      mkWorld (closures w) (views w) (current w) (listeners w) (inFlight w)
        (alter (λ rq, mkRequest (r_load rq) (r_waiters rq ++ [c])) r (requests w)) (next_c w) (next_r w)
  | None =>
      mkWorld (closures w) (views w) (current w) (listeners w) (<[load := next_r w]> (inFlight w))
        (<[next_r w := mkRequest load [c]]> (requests w)) (next_c w) (S (next_r w))
  end.

(** The head of [while (active && dirty)]: another load, or the end of [refresh]. *)
Definition loop (c : nat) (w : world) : world :=
  match closures w !! c with
  | None => w
  | Some cl =>
      if active cl && dirty cl
      then loadShared (c_load cl) c (put_closure c (set_flags (active cl) (pending cl) false cl) w)
      else put_closure c (set_flags (active cl) false (dirty cl) cl) w
  end.

Definition refresh (c : nat) (w : world) : world :=
  match closures w !! c with
  | None => w
  | Some cl =>
      if pending cl then put_closure c (set_flags (active cl) true true cl) w
      else loop c (put_closure c (set_flags (active cl) true true cl) w)
  end.

(** The listener the effect subscribes. *)
Definition listener (c : nat) (resources : list string) (w : world) : world :=
  match closures w !! c with
  | Some cl => if concerns resources (c_domain cl) then refresh c w else w
  | None => w
  end.

(** The rest of the loop body when the awaited request settles. *)
Definition show (res : outcome) (v : view) : view :=
  match res with
  | Loaded d => mkView d "" false
  | Rejected m => mkView (data v) m false
  end.
Definition resume (res : outcome) (w : world) (c : nat) : world :=
  match closures w !! c with
  | None => w
  | Some cl => loop c (if active cl then put_view (c_hook cl) (show res) w else w)
  end.

(** The callback of [finally], then the continuations. *)
Definition finish (r : nat) (rq : request) (w : world) : world :=
  mkWorld (closures w) (views w) (current w) (listeners w) (delete (r_load rq) (inFlight w))
    (delete r (requests w)) (next_c w) (next_r w).
Definition settle (r : nat) (res : outcome) (w : world) : world :=
  match requests w !! r with
  | None => w
  | Some rq => foldl (resume res) (finish r rq w) (r_waiters rq)
  end.

(** The cleanup of the effect: the closure of the hook becomes inactive. *)
Definition cleanup (h : nat) (w : world) : world :=
  match current w !! h with
  | None => w
  | Some c =>
      match closures w !! c with
      | None => w
      | Some cl =>
          mkWorld (<[c := set_flags false (pending cl) (dirty cl) cl]> (closures w)) (views w)
            (delete h (current w)) (unsubscribe c (listeners w)) (inFlight w) (requests w) (next_c w) (next_r w)
      end
  end.

(** The effect itself, after the cleanup of the previous one: the new closure subscribes, then loads. *)
Definition enroll (h load : nat) (domain : string) (initial : D) (w : world) : world :=
  let c := next_c w in
  let v := match views w !! h with Some v => mkView (data v) (error v) true | None => mkView initial "" true end in
  mkWorld (<[c := mkClosure h load domain true false false]> (closures w)) (<[h := v]> (views w))
    (<[h := c]> (current w)) (subscribe c (listeners w)) (inFlight w) (requests w) (S c) (next_r w).
Definition mount (h load : nat) (domain : string) (initial : D) (w : world) : world :=
  let w := cleanup h w in refresh (next_c w) (enroll h load domain initial w).

Inductive event :=
  | Effect (h load : nat) (domain : string) (initial : D)
  | Unmount (h : nat)
  | Signal (resources : list string)
  | Refresh (h : nat)
  | Settle (r : nat) (res : outcome).

(** What an observer of the closures sees: the settlements each closure receives. *)
Inductive delivery := Deliver (c r : nat) (res : outcome).

Definition step (w : world) (e : event) : world * list delivery :=
  match e with
  | Effect h load domain initial => (mount h load domain initial w, [])
  | Unmount h => (cleanup h w, [])
  | Signal resources => (notifyResources listener resources (listeners w) w, [])
  | Refresh h => (match current w !! h with Some c => refresh c w | None => w end, [])
  | Settle r res =>
      (settle r res w, match requests w !! r with
                       | Some rq => (λ c, Deliver c r res) <$> r_waiters rq
                       | None => []
                       end)
  end.

(** [useEntity] leaves the page of an entity that is gone: loaded, absent and without error. *)
Definition entity_gone (is_null : D → bool) (v : view) : bool :=
  negb (loading v) && is_null (data v) && String.eqb (error v) "".

(** ** The invariant of loads

    [inv susp w]: the closures of [susp] are between two awaits, every other pending closure waits
    on one outstanding request for its own load, and the map lists exactly the outstanding requests. *)

Definition waits (w : world) (c r : nat) : Prop :=
  ∃ rq, requests w !! r = Some rq ∧ c ∈ r_waiters rq.

Record inv (susp : list nat) (w : world) : Prop := {
  inv_map k r : inFlight w !! k = Some r ↔ ∃ rq, requests w !! r = Some rq ∧ r_load rq = k;
  inv_request r rq : requests w !! r = Some rq → r < next_r w ∧ NoDup (r_waiters rq) ∧ r_waiters rq ≠ [];
  inv_waiter r rq c : requests w !! r = Some rq → c ∈ r_waiters rq →
    c ∉ susp ∧ ∃ cl, closures w !! c = Some cl ∧ pending cl = true ∧ c_load cl = r_load rq;
  inv_closure c cl : closures w !! c = Some cl →
    c < next_c w ∧ (pending cl = true → c ∈ susp ∨ ∃ r, waits w c r) ∧
    (active cl = true → dirty cl = true → pending cl = true);
  inv_susp : NoDup susp ∧ ∀ c, c ∈ susp → ∃ cl, closures w !! c = Some cl ∧ pending cl = true
}.

Lemma inv_init : inv [] init.
Proof.
  split; cbn.
  - intros k r. rewrite lookup_empty. split; [done|]. by intros (? & ? & _).
  - by intros.
  - by intros.
  - by intros.
  - split; [constructor|]. intros c Hc. by apply not_elem_of_nil in Hc.
Qed.

(** The flags of one closure change. *)
Lemma put_inv c cl a p d susp susp' w :
  inv susp w → closures w !! c = Some cl → NoDup susp' →
  (∀ c', c' ≠ c → c' ∈ susp' ↔ c' ∈ susp) →
  (p = true ↔ c ∈ susp' ∨ ∃ r, waits w c r) →
  (c ∈ susp' → ∀ r, ¬ waits w c r) → (a = true → d = true → p = true) →
  inv susp' (put_closure c (set_flags a p d cl) w).
Proof.
  intros [Hm Hr Hw Hc [Hs1 Hs2]] Hcl Hnd Hother Hp Hex Had. split; cbn; [done|done| | |split; [done|]].
  - intros r rq c' Hrq Hin. destruct (Hw r rq c' Hrq Hin) as (Hns & cl' & Hcl' & Hp' & Hl).
    destruct (decide (c' = c)) as [->|Hne].
    + assert (cl' = cl) as -> by congruence. split.
      * intros Hin'. apply (Hex Hin' r). by exists rq.
      * rewrite lookup_insert. case_decide; [|done]. eexists. split; [done|]. cbn. split; [|done].
        apply Hp. right. exists r. by exists rq.
    + rewrite Hother by done. split; [done|]. exists cl'. by rewrite lookup_insert_ne.
  - intros c' cl'. destruct (decide (c' = c)) as [->|Hne].
    + rewrite lookup_insert. case_decide; [|done]. intros [= <-]. cbn. split_and!; [by eapply Hc| |done].
      intros ?. by apply Hp.
    + rewrite lookup_insert_ne by done. intros Hcl'. destruct (Hc c' cl' Hcl') as (? & H2 & ?).
      split_and!; [done| |done]. rewrite Hother by done. done.
  - intros c' Hin. destruct (decide (c' = c)) as [->|Hne].
    + rewrite lookup_insert. case_decide; [|done]. eexists. split; [done|]. cbn. apply Hp. by left.
    + rewrite lookup_insert_ne by done. apply Hs2, Hother; done.
Qed.

Lemma waits_pending susp w c r : inv susp w → waits w c r →
  c ∉ susp ∧ ∃ cl, closures w !! c = Some cl ∧ pending cl = true.
Proof.
  intros Hi (rq & Hrq & Hin). destruct (inv_waiter _ _ Hi r rq c Hrq Hin) as (? & cl & ? & ? & _). eauto.
Qed.

(** A closure waits on one request at most. *)
Lemma waits_unique susp w c r r' : inv susp w → waits w c r → waits w c r' → r = r'.
Proof.
  intros Hi (rq & Hrq & Hin) (rq' & Hrq' & Hin').
  destruct (inv_waiter _ _ Hi r rq c Hrq Hin) as (_ & cl & ? & _ & Hl).
  destruct (inv_waiter _ _ Hi r' rq' c Hrq' Hin') as (_ & cl' & ? & _ & Hl'). simplify_eq.
  assert (inFlight w !! c_load cl = Some r) by (eapply inv_map; eauto).
  assert (inFlight w !! c_load cl = Some r') by (eapply inv_map; eauto). congruence.
Qed.

Lemma loadShared_inv c cl susp w :
  inv (c :: susp) w → closures w !! c = Some cl → inv susp (loadShared (c_load cl) c w).
Proof.
  intros Hi Hcl. pose proof Hi as [Hm Hr Hw Hc [Hs1 Hs2]]. apply NoDup_cons in Hs1 as [Hcs Hs1].
  assert (pending cl = true) as Hp.
  { destruct (Hs2 c) as (cl' & ? & ?); [by left|]. congruence. }
  unfold loadShared. destruct (inFlight w !! c_load cl) as [r|] eqn:E.
  - apply Hm in E as (rq & Hrq & Hload). pose proof (Hr r rq Hrq) as (Hlt & Hnd & Hne).
    assert (c ∉ r_waiters rq) as Hnw.
    { intros Hin. destruct (Hw r rq c Hrq Hin) as [Hns _]. apply Hns. by left. }
    split; cbn; [| | | |split; [done|intros; apply Hs2; by right]].
    + intros k r'. rewrite Hm. setoid_rewrite lookup_alter_Some. split.
      * intros (rq' & Hrq' & Hk). destruct (decide (r' = r)) as [->|?].
        -- simplify_eq. eexists. split; [left; eauto|done].
        -- exists rq'. split; [right; done|done].
      * intros (rq' & [(<- & rq0 & ? & ->)|[? ?]] & Hk); simplify_eq; eauto.
    + intros r' rq' [(<- & rq0 & ? & ->)|[? ?]]%lookup_alter_Some; [|by apply Hr].
      simplify_eq. cbn. split_and!; [done| |by destruct (r_waiters rq)].
      apply NoDup_app. split_and!; [done| |apply NoDup_singleton]. by intros x ? ->%list_elem_of_singleton.
    + intros r' rq' c' [(<- & rq0 & ? & ->)|[? ?]]%lookup_alter_Some.
      * simplify_eq. cbn. rewrite elem_of_app, list_elem_of_singleton. intros [Hin| ->].
        -- destruct (Hw r rq c' Hrq Hin) as [? ?]. split; [set_solver|done].
        -- split; [done|]. eauto.
      * intros Hin. destruct (Hw r' rq' c') as [? ?]; [done..|]. split; [set_solver|done].
    + intros c' cl' Hcl'. destruct (Hc c' cl' Hcl') as (? & Hpw & ?). split_and!; [done| |done].
      intros [Hin|(r' & rq' & Hrq' & Hin)]%Hpw.
      * apply elem_of_cons in Hin as [->|?]; [|by left]. right. exists r. eexists. split; cbn.
        -- rewrite lookup_alter, Hrq. by case_decide.
        -- cbn. set_solver.
      * right. exists r'. destruct (decide (r' = r)) as [->|?]; eexists; split; cbn.
        -- rewrite lookup_alter, Hrq. by case_decide.
        -- simplify_eq. cbn. set_solver.
        -- by rewrite lookup_alter_ne.
        -- done.
  - assert (∀ r rq, requests w !! r = Some rq → r ≠ next_r w) as Hfresh.
    { intros r rq Hrq ->. destruct (Hr _ _ Hrq). lia. }
    assert (requests w !! next_r w = None) as Hnone.
    { destruct (requests w !! next_r w) eqn:E'; [|done]. exfalso. by eapply Hfresh. }
    split; cbn; [| | | |split; [done|intros; apply Hs2; by right]].
    + intros k r'. rewrite lookup_insert_Some, Hm. setoid_rewrite lookup_insert_Some. split.
      * intros [[<- <-]|(Hne & rq & ? & ?)]; [eauto 10|]. exists rq. split; [|done]. right.
        split; [|done]. symmetry. by eapply Hfresh.
      * intros (rq & [(<- & <-)|(? & Hrq)] & Hk); [by left|]. right. split; [|eauto].
        intros <-. assert (inFlight w !! c_load cl = Some r') by (apply Hm; eauto). congruence.
    + intros r' rq' [(<- & <-)|(? & Hrq)]%lookup_insert_Some.
      * cbn. split_and!; [lia|apply NoDup_singleton|done].
      * destruct (Hr _ _ Hrq) as (? & ? & ?). split_and!; [lia|done|done].
    + intros r' rq' c' [(<- & <-)|(? & Hrq)]%lookup_insert_Some Hin.
      * cbn in Hin. apply list_elem_of_singleton in Hin as ->. split; [done|]. eauto.
      * destruct (Hw r' rq' c' Hrq Hin) as [? ?]. split; [set_solver|done].
    + intros c' cl' Hcl'. destruct (Hc c' cl' Hcl') as (? & Hpw & ?). split_and!; [done| |done].
      intros [Hin|(r' & rq' & Hrq' & Hin)]%Hpw.
      * apply elem_of_cons in Hin as [->|?]; [|by left]. right. exists (next_r w). eexists.
        split; cbn; [by rewrite lookup_insert_eq|]. cbn. by apply list_elem_of_singleton.
      * right. exists r'. exists rq'. cbn. rewrite lookup_insert_ne by (symmetry; by eapply Hfresh). done.
Qed.

Lemma loop_inv c susp w : inv (c :: susp) w → inv susp (loop c w).
Proof.
  intros Hi. pose proof (inv_susp _ _ Hi) as [Hs1 Hs2]. apply NoDup_cons in Hs1 as [Hcs Hs1].
  destruct (Hs2 c) as (cl & Hcl & Hp); [by left|]. unfold loop. rewrite Hcl.
  assert (∀ r, ¬ waits w c r) as Hnw.
  { intros r Hr. destruct (waits_pending _ _ _ _ Hi Hr) as [Hn _]. apply Hn. by left. }
  destruct (active cl && dirty cl) eqn:E.
  - change (c_load cl) with (c_load (set_flags (active cl) (pending cl) false cl)).
    apply loadShared_inv; [|by cbn; rewrite lookup_insert_eq].
    eapply put_inv; try done.
    + by apply NoDup_cons.
    + rewrite Hp. split; [by left; left|done].
  - eapply put_inv; try done.
    + set_solver.
    + split; [done|]. intros [?|[r ?]]; [done|by destruct (Hnw r)].
    + intros Ha Hd. by rewrite Ha, Hd in E.
Qed.

Lemma refresh_inv c susp w : c ∉ susp → inv susp w → inv susp (refresh c w).
Proof.
  intros Hns Hi. pose proof (inv_susp _ _ Hi) as [Hs1 _]. unfold refresh.
  destruct (closures w !! c) as [cl|] eqn:Hcl; [|done].
  destruct (inv_closure _ _ Hi c cl Hcl) as (_ & Hpw & _).
  destruct (pending cl) eqn:Hp.
  - by eapply put_inv.
  - apply loop_inv. eapply put_inv; try done.
    + by apply NoDup_cons.
    + set_solver.
    + split; [by left; left|done].
    + intros _ r Hr. destruct (waits_pending _ _ _ _ Hi Hr) as (_ & cl' & ? & ?). congruence.
Qed.

(** The invariant reads neither the views nor the subscriptions. *)
Lemma inv_same susp w w' :
  inv susp w → closures w' = closures w → inFlight w' = inFlight w → requests w' = requests w →
  next_c w' = next_c w → next_r w' = next_r w → inv susp w'.
Proof.
  intros [? ? ? Hc ?] Ec Ei Er Enc Enr. split; unfold waits in *; rewrite ?Ec, ?Ei, ?Er, ?Enc, ?Enr; done.
Qed.

Lemma resume_inv res c susp w : inv (c :: susp) w → inv susp (resume res w c).
Proof.
  intros Hi. unfold resume. destruct (inv_susp _ _ Hi) as [_ Hs]. destruct (Hs c) as (cl & -> & _); [by left|].
  apply loop_inv. case_match; [|done]. by eapply inv_same.
Qed.

Lemma resume_all_inv res cs w : inv cs w → inv [] (foldl (resume res) w cs).
Proof.
  revert w. induction cs as [|c cs IH]; intros w Hi; [done|]. cbn [foldl]. by apply IH, resume_inv.
Qed.

Lemma finish_inv r rq w : inv [] w → requests w !! r = Some rq → inv (r_waiters rq) (finish r rq w).
Proof.
  intros Hi Hrq. pose proof Hi as [Hm Hr Hw Hc _]. pose proof (Hr _ _ Hrq) as (? & Hnd & _).
  split; cbn.
  - intros k r'. rewrite lookup_delete_Some, Hm. setoid_rewrite lookup_delete_Some. split.
    + intros [Hk (rq' & ? & ?)]. exists rq'. split; [split; [|done]|done]. intros <-. congruence.
    + intros (rq' & [Hne Hrq'] & <-). split; [|eauto]. intros E. apply Hne.
      assert (inFlight w !! r_load rq = Some r) by (apply Hm; eauto).
      assert (inFlight w !! r_load rq = Some r') by (apply Hm; eauto). congruence.
  - intros r' rq' [_ ?]%lookup_delete_Some. eauto.
  - intros r' rq' c [Hne Hrq']%lookup_delete_Some Hin. split; [|by eapply Hw].
    intros Hin'. apply Hne. eapply (waits_unique _ _ c); [done|by exists rq|by exists rq'].
  - intros c cl Hcl. destruct (Hc c cl Hcl) as (? & Hp & ?). split_and!; [done| |done].
    intros [Hn|(r' & rq' & Hrq' & Hin)]%Hp; [by apply not_elem_of_nil in Hn|].
    destruct (decide (r' = r)) as [->|?]; [left; congruence|]. right. exists r', rq'.
    cbn. by rewrite lookup_delete_ne.
  - split; [done|]. intros c Hin. destruct (Hw r rq c Hrq Hin) as (_ & cl & ? & ? & _). eauto.
Qed.

Lemma resource_settle_inv r res w : inv [] w → inv [] (settle r res w).
Proof.
  intros Hi. unfold settle. destruct (requests w !! r) as [rq|] eqn:E; [|done].
  by apply resume_all_inv, finish_inv.
Qed.

Lemma cleanup_inv h w : inv [] w → inv [] (cleanup h w).
Proof.
  intros Hi. unfold cleanup. destruct (current w !! h) as [c|]; [|done].
  destruct (closures w !! c) as [cl|] eqn:Hcl; [|done].
  eapply (inv_same _ (put_closure c (set_flags false (pending cl) (dirty cl) cl) w)); [|done..].
  destruct (inv_closure _ _ Hi _ _ Hcl) as (_ & Hp & _).
  eapply put_inv; try done; [by constructor| |by intros ?%not_elem_of_nil].
  split; [done|]. intros [Hn|[r Hr]]; [by apply not_elem_of_nil in Hn|].
  destruct (waits_pending _ _ _ _ Hi Hr) as (_ & cl' & ? & ?). congruence.
Qed.

Lemma enroll_inv h load domain initial w : inv [] w → inv [] (enroll h load domain initial w).
Proof.
  intros Hi. pose proof Hi as [Hm Hr Hw Hc Hs].
  split; cbn; [done|done| | |by split; [constructor|intros ? ?%not_elem_of_nil]].
  - intros r rq c Hrq Hin. destruct (Hw r rq c Hrq Hin) as (? & cl & Hcl & ?). split; [done|]. exists cl.
    destruct (Hc c cl Hcl) as [? _]. rewrite lookup_insert_ne by lia. done.
  - intros c cl [[<- <-]|[Hne Hcl]]%lookup_insert_Some; [split_and!; [lia|done..]|].
    destruct (Hc c cl Hcl) as (? & ? & ?). split_and!; [lia|done|done].
Qed.

Lemma resource_mount_inv h load domain initial w : inv [] w → inv [] (mount h load domain initial w).
Proof. intros Hi. apply refresh_inv; [apply not_elem_of_nil|]. by apply enroll_inv, cleanup_inv. Qed.

Lemma resource_step_inv w e : inv [] w → inv [] (step w e).1.
Proof.
  intros Hi. destruct e as [h load domain initial|h|resources|h|r res]; cbn.
  - by apply resource_mount_inv.
  - by apply cleanup_inv.
  - apply notify_ind; [|done]. intros c w' _ Hw. unfold listener.
    do 2 (case_match; [|done]). apply refresh_inv; [apply not_elem_of_nil|done].
  - case_match; [|done]. apply refresh_inv; [apply not_elem_of_nil|done].
  - by apply resource_settle_inv.
Qed.

(** ** The invariant of hooks

    What the loads leave alone: the closures without [pending] and [dirty], and the subscriptions. *)

Definition skel (w : world) : gmap nat (nat * nat * string * bool) :=
  (λ cl, (c_hook cl, c_load cl, c_domain cl, active cl)) <$> closures w.
Definition ui (w : world) := (skel w, current w, listeners w, next_c w).

Lemma skel_lookup w w' c cl : skel w' = skel w → closures w !! c = Some cl →
  ∃ p d, closures w' !! c = Some (set_flags (active cl) p d cl).
Proof.
  intros E Hcl. assert (skel w' !! c = skel w !! c) as Hs by by rewrite E.
  unfold skel in Hs. rewrite !lookup_fmap, Hcl in Hs. destruct (closures w' !! c) as [[]|]; [|done].
  destruct cl. cbn in *. simplify_eq. unfold set_flags; cbn. eauto.
Qed.

Lemma ui_put c cl p d w : closures w !! c = Some cl → ui (put_closure c (set_flags (active cl) p d cl) w) = ui w.
Proof.
  intros Hcl. unfold ui, skel. cbn. do 3 f_equal. rewrite fmap_insert. apply insert_id.
  by rewrite lookup_fmap, Hcl.
Qed.

Lemma ui_loadShared load c w : ui (loadShared load c w) = ui w.
Proof. unfold loadShared. by case_match. Qed.

Lemma ui_loop c w : ui (loop c w) = ui w.
Proof.
  unfold loop. destruct (closures w !! c) as [cl|] eqn:E; [|done].
  case_match; rewrite ?ui_loadShared; by apply ui_put.
Qed.

Lemma ui_refresh c w : ui (refresh c w) = ui w.
Proof.
  unfold refresh. destruct (closures w !! c) as [cl|] eqn:E; [|done].
  case_match; rewrite ?ui_loop; by apply ui_put.
Qed.

Lemma ui_listener resources c w : ui (listener c resources w) = ui w.
Proof. unfold listener. repeat case_match; rewrite ?ui_refresh; done. Qed.

Lemma ui_resume res w c : ui (resume res w c) = ui w.
Proof. unfold resume. repeat case_match; rewrite ?ui_loop; done. Qed.

Lemma ui_resume_all res cs w : ui (foldl (resume res) w cs) = ui w.
Proof. revert w. induction cs as [|c cs IH]; intros w; [done|]. cbn [foldl]. by rewrite IH, ui_resume. Qed.

Lemma ui_settle r res w : ui (settle r res w) = ui w.
Proof. unfold settle. case_match; rewrite ?ui_resume_all; done. Qed.

Lemma ui_notify resources ls w : ui (notifyResources listener resources ls w) = ui w.
Proof.
  apply (notify_ind listener (λ w', ui w' = ui w)); [|done].
  intros c w' _ IH. by rewrite ui_listener.
Qed.

#[local] Hint Rewrite ui_loadShared ui_loop ui_refresh ui_listener ui_resume ui_resume_all ui_settle ui_notify : maco_simpl.

(** Views change only when a request settles or an effect runs. *)
Lemma views_loop c w : views (loop c w) = views w.
Proof. unfold loop, loadShared. by repeat case_match. Qed.
Lemma views_refresh c w : views (refresh c w) = views w.
Proof. unfold refresh. repeat case_match; rewrite ?views_loop; done. Qed.
Lemma views_notify resources ls w : views (notifyResources listener resources ls w) = views w.
Proof.
  apply (notify_ind listener (λ w', views w' = views w)); [|done].
  intros c w' _ IH. unfold listener. repeat case_match; by rewrite ?views_refresh.
Qed.

(** Each hook has one closure that is active, the one its [refreshRef] calls, it is subscribed, and
    the hook has a view. *)
Record inv_ui (w : world) : Prop := {
  iu_active c cl : closures w !! c = Some cl → active cl = true ↔ current w !! c_hook cl = Some c;
  iu_current h c : current w !! h = Some c →
    is_Some (views w !! h) ∧ ∃ cl, closures w !! c = Some cl ∧ c_hook cl = h;
  iu_listeners c : c ∈ listeners w ↔ ∃ cl, closures w !! c = Some cl ∧ active cl = true;
  iu_nodup : NoDup (listeners w);
  iu_next c cl : closures w !! c = Some cl → c < next_c w
}.

Lemma inv_ui_same w w' : ui w' = ui w → (∀ h, is_Some (views w !! h) → is_Some (views w' !! h)) → inv_ui w → inv_ui w'.
Proof.
  intros E Hv [H1 H2 H3 H4 H5]. unfold ui in E. injection E as Es Ec El En.
  assert (∀ c cl, closures w' !! c = Some cl → ∃ p d, closures w !! c = Some (set_flags (active cl) p d cl)) as Hback
    by (intros; by eapply skel_lookup).
  assert (∀ c cl, closures w !! c = Some cl → ∃ p d, closures w' !! c = Some (set_flags (active cl) p d cl)) as Hforth
    by (intros; by eapply skel_lookup).
  split; rewrite ?Ec, ?El, ?En; [| | |done|].
  - intros c cl (p & d & Hcl)%Hback. apply (H1 c _ Hcl).
  - intros h c (Hh & cl & Hcl & <-)%H2. split; [auto|]. apply Hforth in Hcl as (p & d & ?). eauto.
  - intros c. rewrite H3. split; intros (cl & Hcl & Ha).
    + apply Hforth in Hcl as (p & d & ?). eauto.
    + apply Hback in Hcl as (p & d & ?). eauto.
  - intros c cl (p & d & Hcl)%Hback. by eapply H5.
Qed.

Lemma inv_ui_init : inv_ui init.
Proof.
  split; cbn; [done|done| |constructor|done].
  intros c. split; [intros ?%not_elem_of_nil; done|]. by intros (? & ? & _).
Qed.

Lemma inv_ui_cleanup h w : inv_ui w → inv_ui (cleanup h w) ∧ current (cleanup h w) !! h = None.
Proof.
  intros Hi. pose proof Hi as [H1 H2 H3 H4 H5]. unfold cleanup. destruct (current w !! h) as [c|] eqn:Hc; [|by split].
  destruct (H2 h c Hc) as (_ & cl & Hcl & <-). rewrite Hcl. cbn. split; [|by rewrite lookup_delete_eq].
  split; cbn.
  - intros c' cl' [[<- <-]|[Hne Hcl']]%lookup_insert_Some; cbn.
    + by rewrite lookup_delete_eq.
    + rewrite (H1 _ _ Hcl'), lookup_delete_Some. split; [|tauto]. intros Hc'. split; [|done]. intros E. congruence.
  - intros h' c' [Hne Hc']%lookup_delete_Some. destruct (H2 _ _ Hc') as (? & cl' & Hcl' & E). split; [done|].
    exists cl'. split; [|done]. apply lookup_insert_Some. right. split; [|done]. intros <-. congruence.
  - intros c'. rewrite elem_of_unsubscribe, H3. setoid_rewrite lookup_insert_Some. split.
    + intros (Hne & cl' & ? & ?). eauto 10.
    + intros (cl' & [[<- <-]|[Hne ?]] & Ha); [done|eauto].
  - by apply NoDup_unsubscribe.
  - intros c' cl' [[<- <-]|[Hne Hcl']]%lookup_insert_Some; eauto.
Qed.

Lemma inv_ui_mount h load domain initial w : inv_ui w → inv_ui (mount h load domain initial w).
Proof.
  intros Hi. apply (inv_ui_cleanup h) in Hi as [Hi Hh]. unfold mount.
  eapply inv_ui_same; [apply ui_refresh|by rewrite views_refresh|].
  revert Hi Hh. generalize (cleanup h w). clear w. intros w [H1 H2 H3 H4 H5] Hh.
  assert (∀ c cl, closures w !! c = Some cl → c ≠ next_c w) as Hne by (intros c cl Hcl%H5; lia).
  split; cbn.
  - intros c cl [[<- <-]|[Hnc Hcl]]%lookup_insert_Some; cbn; [by rewrite lookup_insert_eq|].
    rewrite (H1 _ _ Hcl). destruct (decide (c_hook cl = h)) as [->|].
    + rewrite lookup_insert_eq, Hh. split; congruence.
    + by rewrite lookup_insert_ne.
  - intros h' c [[<- <-]|[Hn Hc]]%lookup_insert_Some.
    + rewrite !lookup_insert_eq. eauto.
    + destruct (H2 _ _ Hc) as (? & cl & Hcl & ?). rewrite !lookup_insert_ne by (done || (symmetry; eauto)). eauto.
  - intros c. rewrite elem_of_subscribe, H3. setoid_rewrite lookup_insert_Some. split.
    + intros [->|(cl & Hcl & ?)]; [eauto|]. exists cl. split; [|done]. right. split; [symmetry; eauto|done].
    + intros (cl & [[<- <-]|[? ?]] & ?); eauto.
  - by apply NoDup_subscribe.
  - intros c cl [[<- <-]|[? Hcl%H5]]%lookup_insert_Some; lia.
Qed.

Lemma views_resume_some res w c h : is_Some (views w !! h) → is_Some (views (resume res w c) !! h).
Proof.
  intros Hh. unfold resume. destruct (closures w !! c) as [cl|]; [|done]. rewrite views_loop.
  case_match; [|done]. cbn. destruct (decide (c_hook cl = h)) as [->|].
  - rewrite lookup_alter_eq. by apply fmap_is_Some.
  - by rewrite lookup_alter_ne.
Qed.

Lemma inv_ui_step w e : inv_ui w → inv_ui (step w e).1.
Proof.
  intros Hi. destruct e as [h load domain initial|h|resources|h|r res]; cbn.
  - by apply inv_ui_mount.
  - by apply inv_ui_cleanup.
  - eapply inv_ui_same; [apply ui_notify|by rewrite views_notify|done].
  - case_match; [|done]. eapply inv_ui_same; [apply ui_refresh|by rewrite views_refresh|done].
  - eapply inv_ui_same; [apply ui_settle| |done]. intros h Hh. unfold settle. case_match; [|done].
    change (is_Some (views (finish r r0 w) !! h)) in Hh. revert Hh. generalize (finish r r0 w).
    induction (r_waiters r0) as [|c cs IH]; intros w' Hh; [done|]. cbn [foldl].
    by apply IH, views_resume_some.
Qed.

Lemma reachable_inv w : reachable step init w → inv [] w ∧ inv_ui w.
Proof.
  intros Hw. eapply (reachable_invariant step (λ w, inv [] w ∧ inv_ui w)); [| |exact Hw].
  - split; [apply inv_init|apply inv_ui_init].
  - intros w' e [? ?]. split; [by apply resource_step_inv|by apply inv_ui_step].
Qed.

(** ** What settles on the page *)

Lemma inv_ui_resume res w c : inv_ui w → inv_ui (resume res w c).
Proof. apply inv_ui_same; [apply ui_resume|]. intros h. apply views_resume_some. Qed.

Lemma views_resume res w c h : inv_ui w →
  views (resume res w c) !! h = if decide (current w !! h = Some c) then show res <$> views w !! h else views w !! h.
Proof.
  intros Hi. unfold resume. destruct (closures w !! c) as [cl|] eqn:Hcl.
  - rewrite views_loop. pose proof (iu_active _ Hi c cl Hcl) as Ha. destruct (active cl); cbn.
    + destruct (decide (c_hook cl = h)) as [<-|Hne].
      * rewrite lookup_alter_eq. case_decide; [done|]. exfalso. by apply H, Ha.
      * rewrite lookup_alter_ne by done. case_decide as E; [|done].
        destruct (iu_current _ Hi _ _ E) as (_ & cl' & ? & ?). congruence.
    + case_decide as E; [|done]. destruct (iu_current _ Hi _ _ E) as (_ & cl' & ? & <-). simplify_eq.
      assert (false = true) by by apply Ha. done.
  - case_decide as E; [|done]. destruct (iu_current _ Hi _ _ E) as (_ & cl' & ? & ?). congruence.
Qed.

Lemma current_resume res w c : current (resume res w c) = current w.
Proof. pose proof (ui_resume res w c) as E. unfold ui in E. congruence. Qed.

Lemma views_resume_all res cs w h : inv_ui w → NoDup cs →
  views (foldl (resume res) w cs) !! h =
    match current w !! h with
    | Some c => if decide (c ∈ cs) then show res <$> views w !! h else views w !! h
    | None => views w !! h
    end.
Proof.
  revert w. induction cs as [|c cs IH]; intros w Hi Hnd.
  - cbn. destruct (current w !! h); [|done]. case_decide as E; [|done]. by apply not_elem_of_nil in E.
  - apply NoDup_cons in Hnd as [Hc Hnd]. cbn [foldl]. rewrite IH by (done || by apply inv_ui_resume).
    rewrite current_resume, views_resume by done. destruct (current w !! h) as [c'|]; [|by case_decide].
    repeat case_decide; set_solver.
Qed.

(** ** No signal is lost, when no two closures share a load *)

(** The closure [c] has nothing to do, or a load issued from request [k] on is ahead of it. *)
Definition covered (c k : nat) (w : world) : Prop :=
  ∀ cl, closures w !! c = Some cl → active cl = true →
    pending cl = true ∧ (dirty cl = true ∨ ∃ r, waits w c r ∧ k ≤ r).

(** The load of [c] is its own. *)
Definition own_load (c : nat) (w : world) : Prop :=
  ∀ cl c' cl', closures w !! c = Some cl → closures w !! c' = Some cl' → c_load cl' = c_load cl → c' = c.

Lemma own_load_same c w w' : skel w' = skel w → own_load c w → own_load c w'.
Proof.
  intros E Ho cl c' cl' Hcl Hcl' Hl. symmetry in E.
  apply (skel_lookup _ _ _ _ E) in Hcl as (? & ? & Hcl). apply (skel_lookup _ _ _ _ E) in Hcl' as (? & ? & Hcl').
  by eapply Ho.
Qed.

(** The load of a closure that does not wait is not in flight. *)
Lemma own_load_free c cl susp w : inv susp w → own_load c w → closures w !! c = Some cl →
  (∀ r, ¬ waits w c r) → inFlight w !! c_load cl = None.
Proof.
  intros Hi Ho Hcl Hw. destruct (inFlight w !! c_load cl) as [r|] eqn:E; [|done].
  apply (inv_map _ _ Hi) in E as (rq & Hrq & Hl). destruct (inv_request _ _ Hi r rq Hrq) as (_ & _ & Hne).
  destruct (r_waiters rq) as [|c' cs] eqn:Ew; [done|].
  destruct (inv_waiter _ _ Hi r rq c' Hrq) as (_ & cl' & Hcl' & _ & Hl'); [rewrite Ew; by left|].
  assert (c' = c) as -> by (eapply Ho; [done..|congruence]).
  destruct (Hw r). exists rq. rewrite Ew. split; [done|by left].
Qed.

(** An awaiting closure that loops with its load to itself waits on a new request. *)
Lemma loop_covers c cl w : inFlight w !! c_load cl = None → closures w !! c = Some cl →
  pending cl = true → dirty cl = true → covered c (next_r w) (loop c w).
Proof.
  intros Hf Hcl Hp Hd cl' Hcl' Ha'. revert Hcl'. unfold loop. rewrite Hcl, Hd, andb_true_r. destruct (active cl) eqn:Ha.
  - unfold loadShared. cbn. rewrite Hf. cbn. rewrite lookup_insert_eq. intros [= <-]. cbn. split; [done|]. right.
    exists (next_r w). split; [|done]. eexists. cbn. rewrite lookup_insert_eq. split; [done|by left].
  - cbn. rewrite lookup_insert_eq. intros [= <-]. cbn in Ha'. congruence.
Qed.

Lemma covered_mono c k k' w : k ≤ k' → covered c k' w → covered c k w.
Proof. intros ? Hc cl Hcl Ha. destruct (Hc cl Hcl Ha) as (? & [?|(r & ? & ?)]); split; eauto with lia. Qed.

Lemma refresh_covers c k susp w : c ∉ susp → inv susp w → own_load c w → k ≤ next_r w →
  covered c k (refresh c w).
Proof.
  intros Hs Hi Ho Hk. unfold refresh. destruct (closures w !! c) as [cl|] eqn:Hcl; [|intros cl Hc; congruence].
  destruct (pending cl) eqn:Hp.
  - intros cl' Hcl' _. cbn in Hcl'. rewrite lookup_insert_eq in Hcl'. simplify_eq. cbn. auto.
  - eapply covered_mono; [exact Hk|].
    change (next_r w) with (next_r (put_closure c (set_flags (active cl) true true cl) w)).
    eapply loop_covers; [|cbn; by rewrite lookup_insert_eq|done..].
    cbn. eapply own_load_free; [done..|]. intros r Hr.
    destruct (waits_pending _ _ _ _ Hi Hr) as (_ & cl' & ? & ?). congruence.
Qed.

(** Waiting only ends by a settlement. *)
Lemma waits_loop w c c' r susp : inv susp w → waits w c r → waits (loop c' w) c r.
Proof.
  intros Hi (rq & Hrq & Hin). unfold loop. destruct (closures w !! c') as [cl|]; [|by exists rq].
  case_match; [|by exists rq]. unfold loadShared. cbn. destruct (inFlight w !! c_load cl) as [r'|].
  - destruct (decide (r' = r)) as [->|]; eexists; cbn; rewrite ?lookup_alter_eq, ?lookup_alter_ne by done.
    + rewrite Hrq. split; [done|]. cbn. set_solver.
    + by split.
  - destruct (inv_request _ _ Hi r rq Hrq) as [? _]. exists rq. cbn. rewrite lookup_insert_ne by lia. done.
Qed.

Lemma closures_loop_ne c c' w : c' ≠ c → closures (loop c' w) !! c = closures w !! c.
Proof.
  intros Hne. unfold loop, loadShared. repeat case_match; cbn; by rewrite ?lookup_insert_ne.
Qed.

Lemma next_r_loop c w : next_r w ≤ next_r (loop c w).
Proof. unfold loop, loadShared. repeat case_match; cbn; lia. Qed.

Lemma next_r_refresh c w : next_r w ≤ next_r (refresh c w).
Proof. unfold refresh. repeat case_match; [done| |done]. etrans; [|apply next_r_loop]. done. Qed.

Lemma next_r_resume res w c : next_r w ≤ next_r (resume res w c).
Proof.
  unfold resume. case_match; [|done]. etrans; [|apply next_r_loop]. by case_match.
Qed.

Lemma covered_loop_ne c c' k susp w : c' ≠ c → inv (c' :: susp) w → covered c k w → covered c k (loop c' w).
Proof.
  intros Hne Hi Hc cl. rewrite closures_loop_ne by done. intros Hcl Ha.
  destruct (Hc cl Hcl Ha) as (? & [?|(r & ? & ?)]); split; auto.
  right. exists r. split; [|done]. by eapply waits_loop.
Qed.

Lemma covered_put_ne c c' cl k w : c' ≠ c → covered c k w → covered c k (put_closure c' cl w).
Proof. intros Hne Hc cl' Hcl'. cbn in Hcl'. rewrite lookup_insert_ne in Hcl' by done. by apply Hc. Qed.

Lemma covered_refresh_ne c c' k susp w : c' ≠ c → c' ∉ susp → inv susp w →
  covered c k w → covered c k (refresh c' w).
Proof.
  intros Hne Hs' Hi Hc. unfold refresh. destruct (closures w !! c') as [cl|] eqn:Hcl; [|done].
  destruct (inv_closure _ _ Hi c' cl Hcl) as (_ & Hpw & _).
  destruct (pending cl) eqn:Hp; [by apply covered_put_ne|].
  eapply (covered_loop_ne _ _ _ susp); [done| |by apply covered_put_ne].
  eapply put_inv; try done.
  - apply NoDup_cons. split; [done|]. by apply inv_susp in Hi as [? _].
  - set_solver.
  - split; [by left; left|done].
  - intros _ r Hr. destruct (waits_pending _ _ _ _ Hi Hr) as (_ & cl' & ? & ?). congruence.
Qed.

Lemma covered_refresh c c' k w : inv [] w → own_load c w → k ≤ next_r w →
  covered c k w → covered c k (refresh c' w).
Proof.
  intros Hi Ho Hk Hc. destruct (decide (c' = c)) as [->|Hne].
  - by eapply refresh_covers; [apply not_elem_of_nil|..].
  - by eapply covered_refresh_ne; [|apply not_elem_of_nil|..].
Qed.

Lemma covered_finish c k r rq w : requests w !! r = Some rq → c ∉ r_waiters rq → covered c k w → covered c k (finish r rq w).
Proof.
  intros Hrq Hn Hc cl Hcl Ha. destruct (Hc cl Hcl Ha) as (? & [?|(r' & (rq' & Hrq' & Hin) & ?)]); split; auto.
  right. exists r'. split; [|done]. exists rq'. cbn. rewrite lookup_delete_ne by (intros <-; congruence). done.
Qed.

Lemma covered_resume_all res c k cs w : inv cs w → c ∉ cs → covered c k w → covered c k (foldl (resume res) w cs).
Proof.
  revert w. induction cs as [|c' cs IH]; intros w Hi Hn Hc; [done|]. cbn [foldl].
  apply IH; [by apply resume_inv|set_solver|]. unfold resume.
  destruct (closures w !! c') as [cl|]; [|done]. eapply covered_loop_ne; [set_solver| |].
  - case_match; [by eapply inv_same|done].
  - by case_match.
Qed.

(** With its load to itself, a closure is the one waiter of its request. *)
Lemma own_load_waiters c r rq susp w : inv susp w → own_load c w → requests w !! r = Some rq →
  c ∈ r_waiters rq → r_waiters rq = [c].
Proof.
  intros Hi Ho Hrq Hin. destruct (inv_request _ _ Hi r rq Hrq) as (_ & Hnd & _).
  assert (∀ c', c' ∈ r_waiters rq → c' = c) as Hall.
  { intros c' Hin'. destruct (inv_waiter _ _ Hi r rq c Hrq Hin) as (_ & cl & ? & _ & ?).
    destruct (inv_waiter _ _ Hi r rq c' Hrq Hin') as (_ & cl' & ? & _ & ?). eapply Ho; [done..|congruence]. }
  destruct (r_waiters rq) as [|c1 [|c2 cs]].
  - by apply not_elem_of_nil in Hin.
  - by apply list_elem_of_singleton in Hin as ->.
  - rewrite (Hall c1), (Hall c2) in Hnd by set_solver. apply NoDup_cons in Hnd as [Hnd _]. set_solver.
Qed.

Lemma covered_settle c k r res w : inv [] w → own_load c w → k ≤ next_r w → covered c k w →
  is_Some (closures w !! c) →
  covered c k (settle r res w) ∨ ∃ rq, requests w !! r = Some rq ∧ c ∈ r_waiters rq ∧ k ≤ r.
Proof.
  intros Hi Ho Hk Hc [cl Hcl]. unfold settle. destruct (requests w !! r) as [rq|] eqn:Hrq; [|by left].
  destruct (decide (c ∈ r_waiters rq)) as [Hin|Hn].
  2:{ left. apply covered_resume_all; [by apply finish_inv|done|by apply covered_finish]. }
  destruct (decide (k ≤ r)) as [|Hlt]; [right; eauto|left].
  rewrite (own_load_waiters _ _ _ _ _ Hi Ho Hrq Hin). cbn [foldl].
  intros cl' Hcl' Ha'.
  assert (active cl = true) as Ha.
  { assert (skel (resume res (finish r rq w) c) = skel w) as E.
    { pose proof (ui_resume res (finish r rq w) c) as E. by injection E. }
    destruct (skel_lookup _ _ _ _ E Hcl) as (p & d & Hcl2). simplify_eq. done. }
  destruct (Hc cl Hcl Ha) as (Hp & [Hd|(r' & Hr' & ?)]).
  2:{ exfalso. apply Hlt. rewrite (waits_unique _ _ c r r' Hi); [done|by exists rq|done]. }
  revert cl' Hcl' Ha'. change (covered c k (resume res (finish r rq w) c)).
  eapply covered_mono; [exact Hk|]. unfold resume. cbn. rewrite Hcl, Ha.
  match goal with |- covered c ?n (loop c ?w') => change n with (next_r w') end.
  eapply (loop_covers c cl); [|done..].
  cbn. destruct (inv_waiter _ _ Hi r rq c Hrq Hin) as (_ & cl2 & ? & _ & <-). simplify_eq. apply lookup_delete_eq.
Qed.

Lemma skel_ui w w' : ui w' = ui w → skel w' = skel w.
Proof. unfold ui. congruence. Qed.

Lemma next_r_listener resources c w : next_r w ≤ next_r (listener c resources w).
Proof. unfold listener. repeat case_match; [apply next_r_refresh|done..]. Qed.

(** What the notification of a signal preserves of a closure. *)
Definition tracked (c k : nat) (w : world) : Prop := inv [] w ∧ own_load c w ∧ k ≤ next_r w.

Lemma tracked_listener c k c' resources w : tracked c k w → tracked c k (listener c' resources w).
Proof.
  intros (Hi & Ho & Hk). split_and!.
  - unfold listener. do 2 (case_match; [|done]). apply refresh_inv; [apply not_elem_of_nil|done].
  - eapply own_load_same; [|done]. apply skel_ui, ui_listener.
  - etrans; [done|apply next_r_listener].
Qed.

Lemma covered_listener c k c' resources w : tracked c k w → covered c k w → covered c k (listener c' resources w).
Proof.
  intros (Hi & Ho & Hk) Hc. unfold listener. do 2 (case_match; [|done]). by apply covered_refresh.
Qed.

Lemma covered_cleanup c k h w : covered c k w → covered c k (cleanup h w).
Proof.
  intros Hc. unfold cleanup. destruct (current w !! h) as [c'|]; [|done].
  destruct (closures w !! c') as [cl'|] eqn:Hcl'; [|done]. intros cl Hcl Ha. cbn in Hcl.
  apply lookup_insert_Some in Hcl as [[<- <-]|[Hne Hcl]]; [done|]. by apply Hc.
Qed.

Lemma covered_enroll c k h load domain initial w : is_Some (closures w !! c) → inv [] w →
  covered c k w → covered c k (enroll h load domain initial w).
Proof.
  intros [cl0 Hs] Hi Hc cl Hcl Ha. destruct (inv_closure _ _ Hi c cl0 Hs) as [Hlt _].
  cbn in Hcl. rewrite lookup_insert_ne in Hcl by lia. by apply Hc.
Qed.

Lemma closures_cleanup c h w cl : closures w !! c = Some cl →
  ∃ a, closures (cleanup h w) !! c = Some (set_flags a (pending cl) (dirty cl) cl) ∧ (a = true → active cl = true).
Proof.
  intros Hcl. assert (closures w !! c = Some (set_flags (active cl) (pending cl) (dirty cl) cl)) as H0
    by (rewrite Hcl; by destruct cl).
  unfold cleanup. destruct (current w !! h) as [c'|]; [|eauto].
  destruct (closures w !! c') as [cl'|] eqn:Hcl'; [|eauto]. cbn.
  destruct (decide (c' = c)) as [->|]; [|rewrite lookup_insert_ne by done; eauto].
  rewrite lookup_insert_eq. simplify_eq. by exists false.
Qed.

(** Closures are never forgotten, and keep their props. *)
Lemma closures_step c cl w e : inv [] w → closures w !! c = Some cl →
  ∃ a p d, closures (step w e).1 !! c = Some (set_flags a p d cl) ∧ (a = true → active cl = true).
Proof.
  intros Hi Hcl. assert (∀ w', ui w' = ui w →
    ∃ a p d, closures w' !! c = Some (set_flags a p d cl) ∧ (a = true → active cl = true)) as Hsame.
  { intros w' E%skel_ui. destruct (skel_lookup _ _ _ _ E Hcl) as (p & d & ?). eauto. }
  destruct e as [h load domain initial|h|resources|h|r res]; cbn.
  - destruct (closures_cleanup c h w cl Hcl) as (a & Ha & ?). unfold mount.
    pose proof (inv_closure _ _ (cleanup_inv h _ Hi) _ _ Ha) as [Hlt _].
    assert (closures (enroll h load domain initial (cleanup h w)) !! c = Some (set_flags a (pending cl) (dirty cl) cl)) as He
      by (cbn; rewrite lookup_insert_ne by lia; done).
    pose proof (skel_ui _ _ (ui_refresh (next_c (cleanup h w)) (enroll h load domain initial (cleanup h w)))) as E.
    destruct (skel_lookup _ _ _ _ E He) as (p & d & ?). exists a, p, d. done.
  - destruct (closures_cleanup c h w cl Hcl) as (a & Ha & ?). eauto.
  - apply Hsame, ui_notify.
  - apply Hsame. case_match; [apply ui_refresh|done].
  - apply Hsame, ui_settle.
Qed.

Lemma own_load_step c w e : inv [] w → own_load c (step w e).1 → own_load c w.
Proof.
  intros Hi Ho cl c' cl' Hcl Hcl' Hl.
  destruct (closures_step c cl w e Hi Hcl) as (? & ? & ? & Hcl1 & _).
  destruct (closures_step c' cl' w e Hi Hcl') as (? & ? & ? & Hcl1' & _). by eapply Ho.
Qed.

Lemma next_r_cleanup h w : next_r (cleanup h w) = next_r w.
Proof. unfold cleanup. by repeat case_match. Qed.

Lemma next_r_step w e : next_r w ≤ next_r (step w e).1.
Proof.
  destruct e as [h load domain initial|h|resources|h|r res]; cbn.
  - etrans; [|apply next_r_refresh]. cbn. by rewrite next_r_cleanup.
  - by rewrite next_r_cleanup.
  - apply (notify_ind listener (λ w', next_r w ≤ next_r w')); [|done].
    intros c w' _ ?. etrans; [done|apply next_r_listener].
  - case_match; [apply next_r_refresh|done].
  - unfold settle. case_match; [|done]. change (next_r w) with (next_r (finish r r0 w)).
    generalize (finish r r0 w). induction (r_waiters r0) as [|c cs IH]; intros w'; [done|]. cbn [foldl].
    etrans; [apply (next_r_resume res _ c)|apply IH].
Qed.

Lemma covered_step c k w e : inv [] w → own_load c w → k ≤ next_r w → covered c k w →
  is_Some (closures w !! c) →
  covered c k (step w e).1 ∨ ∃ r res, Deliver c r res ∈ (step w e).2 ∧ k ≤ r.
Proof.
  intros Hi Ho Hk Hc Hs. destruct e as [h load domain initial|h|resources|h|r res]; cbn.
  - left. destruct Hs as [cl Hcl]. destruct (closures_cleanup c h w cl Hcl) as (a & Ha & _).
    pose proof (cleanup_inv h _ Hi) as Hi'. pose proof (inv_closure _ _ Hi' _ _ Ha) as [Hlt _].
    eapply covered_refresh_ne; [lia|apply not_elem_of_nil|by apply enroll_inv|].
    apply covered_enroll; [by eexists|done|by apply covered_cleanup].
  - left. by apply covered_cleanup.
  - left. apply (notify_ind listener (λ w, tracked c k w ∧ covered c k w)); [|done].
    intros c' w' _ [??]. split; [by apply tracked_listener|by apply covered_listener].
  - left. case_match; [|done]. by apply covered_refresh.
  - destruct (covered_settle c k r res w) as [?|(rq & Hrq & Hin & ?)]; [done..|by left|].
    right. exists r, res. rewrite Hrq. split; [|done]. apply list_elem_of_fmap. eauto.
Qed.

(** The events after which a closure owes a load: its own effect, a signal that concerns it, and a
    call of the [refresh] of its hook. *)
Definition notified (w : world) (e : event) (c : nat) : Prop :=
  match e with
  | Effect _ _ _ _ => c = next_c w
  | Signal resources => ∃ cl, closures w !! c = Some cl ∧ active cl = true ∧ concerns resources (c_domain cl) = true
  | Refresh h => current w !! h = Some c
  | Unmount _ | Settle _ _ => False
  end.

Lemma next_c_cleanup h w : next_c (cleanup h w) = next_c w.
Proof. unfold cleanup. by repeat case_match. Qed.

Lemma tracked_listeners c k resources ls w : tracked c k w → tracked c k (notifyResources listener resources ls w).
Proof. intros Ht. apply (notify_ind listener (tracked c k)); [|done]. intros. by apply tracked_listener. Qed.

Lemma covered_listeners c k resources ls w : tracked c k w → covered c k w →
  covered c k (notifyResources listener resources ls w).
Proof.
  intros Ht Hc. apply (notify_ind listener (λ w, tracked c k w ∧ covered c k w)); [|done].
  intros c' w' _ [??]. split; [by apply tracked_listener|by apply covered_listener].
Qed.

Lemma notify_app resources l k w : notifyResources listener resources (l ++ k) w =
  notifyResources listener resources k (notifyResources listener resources l w).
Proof. apply foldl_app. Qed.

Lemma notified_covers c w e : inv [] w → inv_ui w → own_load c (step w e).1 → notified w e c →
  covered c (next_r w) (step w e).1.
Proof.
  intros Hi Hu Ho Hn. pose proof (own_load_step _ _ _ Hi Ho) as Ho0.
  destruct e as [h load domain initial|h|resources|h|r res]; cbn in Hn |- *; try done.
  - subst c. unfold mount in *. rewrite next_c_cleanup. cbn in Ho. unfold mount in Ho. rewrite next_c_cleanup in Ho.
    eapply refresh_covers; [apply not_elem_of_nil|by apply enroll_inv, cleanup_inv| |].
    + eapply own_load_same; [|exact Ho]. symmetry. apply skel_ui, ui_refresh.
    + cbn. by rewrite next_r_cleanup.
  - destruct Hn as (cl & Hcl & Ha & Hd).
    assert (c ∈ listeners w) as Hin by (apply (iu_listeners _ Hu); eauto).
    apply list_elem_of_split in Hin as (l1 & l2 & ->). rewrite notify_app. cbn [notifyResources foldl].
    assert (tracked c (next_r w) w) as Ht by done.
    pose proof (tracked_listeners c (next_r w) resources l1 w Ht) as Ht1.
    pose proof (skel_ui _ _ (ui_notify resources l1 w)) as E.
    destruct (skel_lookup _ _ _ _ E Hcl) as (p & d & Hcl1).
    revert Ht1 Hcl1. generalize (notifyResources listener resources l1 w). intros w1 Ht1 Hcl1.
    apply (covered_listeners c (next_r w) resources l2); [by apply tracked_listener|].
    unfold listener. rewrite Hcl1. cbn. rewrite Hd. destruct Ht1 as (? & ? & ?).
    by eapply refresh_covers; [apply not_elem_of_nil|..].
  - rewrite Hn. by eapply refresh_covers; [apply not_elem_of_nil|..].
Qed.

Lemma notified_exists c w e : inv_ui w → notified w e c → is_Some (closures (step w e).1 !! c).
Proof.
  intros Hu Hn. assert (∀ w', ui w' = ui w → is_Some (closures w !! c) → is_Some (closures w' !! c)) as Hsame.
  { intros w' E%skel_ui [cl Hcl]. destruct (skel_lookup _ _ _ _ E Hcl) as (p & d & ?). eauto. }
  destruct e as [h load domain initial|h|resources|h|r res]; cbn in Hn |- *; try done.
  - subst c. unfold mount. rewrite next_c_cleanup.
    pose proof (skel_ui _ _ (ui_refresh (next_c w) (enroll h load domain initial (cleanup h w)))) as E.
    eassert (closures (enroll h load domain initial (cleanup h w)) !! next_c w = Some _) as He
      by (cbn; rewrite next_c_cleanup; apply lookup_insert_eq).
    destruct (skel_lookup _ _ _ _ E He) as (p & d & ?). eauto.
  - destruct Hn as (cl & Hcl & _). apply Hsame; [apply ui_notify|eauto].
  - rewrite Hn. apply Hsame; [apply ui_refresh|]. destruct (iu_current _ Hu _ _ Hn) as (_ & cl & ? & _). eauto.
Qed.

Lemma own_load_run c es w : inv [] w → own_load c (run step w es).1 → own_load c w.
Proof.
  revert w. induction es as [|e es IH]; intros w Hi Ho; [done|]. apply (own_load_step _ _ e); [done|].
  pose proof (resource_step_inv w e Hi) as Hi'. cbn in Ho. destruct (step w e) as [w' o]. cbn in *.
  apply IH; [done|]. by destruct (run step w' es).
Qed.

Lemma covered_run c k es w : inv [] w → own_load c (run step w es).1 → k ≤ next_r w → covered c k w →
  is_Some (closures w !! c) →
  covered c k (run step w es).1 ∨ ∃ r res, Deliver c r res ∈ (run step w es).2 ∧ k ≤ r.
Proof.
  revert w. induction es as [|e es IH]; intros w Hi Ho Hk Hc Hs; [by left|].
  pose proof (resource_step_inv w e Hi) as Hi'. pose proof (next_r_step w e) as Hn.
  pose proof (own_load_run c (e :: es) w Hi Ho) as Ho0.
  pose proof (covered_step c k w e Hi Ho0 Hk Hc Hs) as Hstep.
  destruct Hs as [cl Hcl]. destruct (closures_step c cl w e Hi Hcl) as (a & p & d & Hcl' & _).
  cbn in Ho |- *. destruct (step w e) as [w' o]. cbn in *.
  specialize (IH w' Hi'). destruct (run step w' es) as [w'' o']. cbn in *.
  destruct Hstep as [Hc'|(r & res & Hin & ?)].
  - destruct IH as [?|(r & res & ? & ?)]; eauto; [lia|]. right. exists r, res. split; [|done].
    apply elem_of_app. by right.
  - right. exists r, res. split; [|done]. apply elem_of_app. by left.
Qed.

(** ** Termination *)

Definition weight (w : world) (c : nat) : nat :=
  match closures w !! c with
  | Some cl => if pending cl then if active cl && dirty cl then 2 else 1 else 0
  | None => 0
  end.
Definition work (w : world) : nat := sum_list (weight w <$> seq 0 (next_c w)).

Lemma sum_list_lt (f g : nat → nat) (l : list nat) c :
  c ∈ l → (∀ x, x ∈ l → f x ≤ g x) → f c < g c → sum_list (f <$> l) < sum_list (g <$> l).
Proof.
  induction l as [|x l IH]; intros Hc Hle Hlt; [by apply not_elem_of_nil in Hc|]. cbn.
  assert (sum_list (f <$> l) ≤ sum_list (g <$> l)) as Hl.
  { clear IH Hc Hlt. induction l as [|y l IH]; [done|]. cbn. pose proof (Hle y ltac:(set_solver)).
    cut (sum_list (f <$> l) ≤ sum_list (g <$> l)); [lia|]. apply IH. set_solver. }
  apply elem_of_cons in Hc as [->|Hc]; [lia|]. pose proof (Hle x ltac:(set_solver)).
  cut (sum_list (f <$> l) < sum_list (g <$> l)); [lia|]. apply IH; set_solver.
Qed.

Lemma next_c_ui w w' : ui w' = ui w → next_c w' = next_c w.
Proof. unfold ui. congruence. Qed.

Lemma work_loop c cl susp w : inv susp w → closures w !! c = Some cl → pending cl = true → work (loop c w) < work w.
Proof.
  intros Hi Hcl Hp. unfold work. rewrite (next_c_ui _ _ (ui_loop c w)).
  destruct (inv_closure _ _ Hi c cl Hcl) as [Hlt _].
  assert (weight (loop c w) c < weight w c) as Hc.
  { unfold weight. rewrite Hcl, Hp. unfold loop. rewrite Hcl. destruct (active cl && dirty cl) eqn:E.
    - unfold loadShared. cbn. destruct (inFlight w !! c_load cl); cbn; rewrite lookup_insert_eq; cbn;
        rewrite Hp, andb_false_r; lia.
    - cbn. rewrite lookup_insert_eq. cbn. lia. }
  apply (sum_list_lt _ _ _ c); [apply elem_of_seq; lia| |done].
  intros c' _. destruct (decide (c = c')) as [<-|Hne]; [lia|]. unfold weight. by rewrite closures_loop_ne.
Qed.

Lemma work_resume res c susp w : inv (c :: susp) w → work (resume res w c) < work w.
Proof.
  intros Hi. destruct (inv_susp _ _ Hi) as [_ Hs]. destruct (Hs c) as (cl & Hcl & Hp); [by left|].
  unfold resume. rewrite Hcl. case_match; [|by eapply work_loop].
  change (work w) with (work (put_view (c_hook cl) (show res) w)).
  eapply (work_loop _ cl (c :: susp)); [by eapply inv_same|done..].
Qed.

Lemma work_settle r res w : inv [] w → is_Some (requests w !! r) → work (settle r res w) < work w.
Proof.
  intros Hi [rq Hrq]. unfold settle. rewrite Hrq. pose proof (finish_inv _ _ _ Hi Hrq) as Hf.
  destruct (inv_request _ _ Hi r rq Hrq) as (_ & _ & Hne). change (work w) with (work (finish r rq w)).
  revert Hf Hne. generalize (finish r rq w) as w'. destruct (r_waiters rq) as [|c cs]; [intros w' _ Hn; by destruct Hn|]. intros w' Hf _.
  cbn [foldl]. eapply Nat.le_lt_trans; [|by apply (work_resume res c cs)].
  apply (resume_inv res) in Hf. revert Hf. generalize (resume res w' c) as w2. intros w2 Hf.
  clear Hrq. revert w2 Hf. induction cs as [|c2 cs IH]; intros w2 Hf; [done|]. cbn [foldl].
  etrans; [by apply IH, resume_inv|]. apply Nat.lt_le_incl. by eapply work_resume.
Qed.

(** ** Properties *)

(** C17. One load at a time: at every moment of every run, the map of the module lists exactly the
    outstanding requests, no two of which are for the same load; a closure that is refreshing waits on
    exactly one of them, for its own load, and one that is not waits on none. *)
Theorem one_load_in_flight (w : world) : reachable step init w →
  (∀ k r, inFlight w !! k = Some r ↔ ∃ rq, requests w !! r = Some rq ∧ r_load rq = k) ∧
  (∀ r r' rq rq', requests w !! r = Some rq → requests w !! r' = Some rq' → r_load rq = r_load rq' → r = r') ∧
  (∀ c cl, closures w !! c = Some cl →
    if pending cl then ∃ r rq, requests w !! r = Some rq ∧ r_load rq = c_load cl ∧ ∀ r', waits w c r' ↔ r' = r
    else ∀ r', ¬ waits w c r').
Proof.
  intros [Hi _]%reachable_inv. split_and!.
  - apply Hi.
  - intros r r' rq rq' Hr Hr' Hl.
    assert (inFlight w !! r_load rq = Some r) by (eapply inv_map; eauto).
    assert (inFlight w !! r_load rq = Some r') by (eapply inv_map; eauto). congruence.
  - intros c cl Hcl. destruct (inv_closure _ _ Hi c cl Hcl) as (_ & Hp & _). destruct (pending cl) eqn:E.
    + destruct Hp as [Hn|[r Hr]]; [done|by apply not_elem_of_nil in Hn|]. pose proof Hr as (rq & Hrq & Hin).
      exists r, rq. destruct (inv_waiter _ _ Hi r rq c Hrq Hin) as (_ & cl' & ? & _ & <-). simplify_eq.
      split_and!; [done..|]. intros r'. split; [intros; by eapply waits_unique|by intros ->].
    + intros r' Hr'. destruct (waits_pending _ _ _ _ Hi Hr') as (_ & cl' & ? & ?). congruence.
Qed.

(** C1. No change is missed: after an event that asks a closure to load (its effect, a signal of its
    domain, a call of [refresh]), if the closure is still mounted and idle at the end of the run and no
    other closure uses its load function, then a request issued after that event was delivered to it. *)
Theorem no_lost_signal (es1 es2 : list event) (e : event) (c : nat) (cl : closure) :
  let w1 := (run step init es1).1 in
  let w2 := (run step w1 (e :: es2)).1 in
  notified w1 e c → closures w2 !! c = Some cl → active cl = true → pending cl = false → own_load c w2 →
  ∃ r res, Deliver c r res ∈ (run step w1 (e :: es2)).2 ∧ next_r w1 ≤ r.
Proof.
  cbn zeta. intros Hn Hcl Ha Hp Ho.
  destruct (reachable_inv (run step init es1).1) as [Hi Hu]; [by exists es1|].
  revert Hn Hcl Ho. generalize (run step init es1).1 Hi Hu. clear Hi Hu es1. intros w1 Hi Hu Hn.
  cbn. pose proof (resource_step_inv w1 e Hi) as Hi'. pose proof (notified_covers c w1 e Hi Hu) as Hcov.
  pose proof (notified_exists c w1 e Hu Hn) as Hs. pose proof (next_r_step w1 e) as Hk.
  destruct (step w1 e) as [w' o]. cbn in *. pose proof (covered_run c (next_r w1) es2 w' Hi') as Hrun.
  pose proof (own_load_run c es2 w' Hi') as Hor.
  destruct (run step w' es2) as [w2 o2]. cbn in *. intros Hcl Ho.
  destruct Hrun as [Hc|(r & res & ? & ?)]; auto.
  - destruct (Hc cl Hcl Ha). congruence.
  - exists r, res. split; [|done]. apply elem_of_app. by right.
Qed.

(** Answers reach the page that asks for them: when a request settles, the views that change are
    those of the hooks whose current closure waits on it; data replaces the data and clears the error, a
    failure keeps the data. A closure that was cleaned up, because the component went away or its load
    changed, shows nothing. *)
Theorem settle_views (w : world) (r : nat) (rq : request) (res : outcome) (h : nat) :
  reachable step init w → requests w !! r = Some rq →
  views (step w (Settle r res)).1 !! h =
    match current w !! h with
    | Some c => if decide (c ∈ r_waiters rq) then show res <$> views w !! h else views w !! h
    | None => views w !! h
    end.
Proof.
  intros [Hi Hu]%reachable_inv Hrq. cbn. unfold settle. rewrite Hrq.
  destruct (inv_request _ _ Hi r rq Hrq) as (_ & Hnd & _).
  rewrite views_resume_all; [done| |done]. by apply (inv_ui_same w).
Qed.

(** C40. Refreshing ends: each settlement strictly decreases the work left, whatever it answers, so that
    without new events only finitely many requests follow, and when none is outstanding every closure is
    idle. *)
Theorem refresh_terminates (w : world) : reachable step init w →
  (∀ r res, is_Some (requests w !! r) → work (step w (Settle r res)).1 < work w) ∧
  (requests w = ∅ → ∀ c cl, closures w !! c = Some cl → pending cl = false).
Proof.
  intros [Hi _]%reachable_inv. split; [intros; by apply work_settle|].
  intros He c cl Hcl. destruct (inv_closure _ _ Hi c cl Hcl) as (_ & Hp & _). destruct (pending cl); [|done].
  destruct Hp as [Hn|(r & rq & Hrq & _)]; [done|by apply not_elem_of_nil in Hn|]. by rewrite He, lookup_empty in Hrq.
Qed.

End resource.

(** ** Concrete runs *)

(** A component mounts, a signal arrives while it loads, and both loads settle. *)
Definition sample_events : list (@event nat) :=
  [Signal ["vms"]; Settle 0 (Loaded 10); Settle 1 (Loaded 11)].
Definition sample_world : @world nat := (run step init [Effect 0 7 "vms" 0]).1.

Lemma one_load_in_flight_witness : ∃ r, inFlight sample_world !! 7 = Some r.
Proof.
  exists 0. apply (one_load_in_flight sample_world); [by exists [Effect 0 7 "vms" 0]|].
  exists (mkRequest 7 [0]). by split.
Defined.

Lemma no_lost_signal_witness : ∃ r res, Deliver 0 r res ∈ (run step sample_world sample_events).2 ∧ 1 ≤ r.
Proof.
  apply (no_lost_signal [Effect 0 7 "vms" 0] [Settle 0 (Loaded 10); Settle 1 (Loaded 11)] (Signal ["vms"])
    0 (mkClosure 0 7 "vms" true false false)).
  - exists (mkClosure 0 7 "vms" true true false). by split_and!.
  - reflexivity.
  - reflexivity.
  - reflexivity.
  - intros cl c' cl' _ Hcl' _. change (({[0 := mkClosure 0 7 "vms" true false false]} : gmap nat closure) !! c' = Some cl') in Hcl'.
    by apply lookup_singleton_Some in Hcl' as [? _].
Defined.

Lemma settle_views_witness :
  views (step sample_world (Settle 0 (Loaded 10))).1 !! 0 = Some (mkView 10 "" false).
Proof.
  rewrite (settle_views sample_world 0 (mkRequest 7 [0]) (Loaded 10) 0); [reflexivity| |reflexivity].
  by exists [Effect 0 7 "vms" 0].
Defined.

Lemma refresh_terminates_witness : work (step sample_world (Settle 0 (Rejected "offline"))).1 < work sample_world.
Proof.
  apply (refresh_terminates sample_world); [by exists [Effect 0 7 "vms" 0]|]. by eexists.
Defined.

(** The restriction of [no_lost_signal] to unshared loads is needed: when the signal arrives while
    another component loads the same resource, the idle component joins that load, begun before the
    change, and keeps its answer; the other one loads again. *)
Lemma shared_load_loses_signal :
  let w := (run step init [Effect 0 7 "networks" 0; Settle 0 (Loaded 0); Effect 1 7 "networks" 0;
    Signal ["networks"]; Settle 1 (Loaded 0); Settle 2 (Loaded 1)]).1 in
  requests w = ∅ ∧ views w !! 0 = Some (mkView 0 "" false) ∧ views w !! 1 = Some (mkView 1 "" false).
Proof. vm_compute. done. Qed.
