(* ===== verification/NotificationStream.v ===== *)
(** * The notification stream ([src/web/src/hooks/useNotificationStream.ts])

    The class [EventsConnection] as a state machine over the events of its socket and its timers,
    the resource it updates, the cache of finished jobs, and [waitForJob]. The browser's guarantees
    are part of the step function: a closed socket raises no event, one that is not open no message,
    and a cleared timer never fires. *)

From S2P Require Import Prelude JsString Types.
Local Open Scope string_scope.

(** ** The resource *)

Record JobsResource := mkJobsResource { data : list Job; loading : bool; error : string }.

Definition initialResource : JobsResource := mkJobsResource [] true "".

(** A decoded message. Other values of [type] than the three of the interface can arrive. *)
Inductive EventType := Snapshot | Update | Invalidate | OtherType.
#[export] Instance EventType_eq_dec : EqDecision EventType.
Proof. solve_decision. Defined.

Record NotificationEvent := mkEvent {
  type : EventType;
  resources : option (list string);
  jobs : option (list Job);
  job : option Job
}.

Definition without (id : string) (l : list Job) : list Job :=
  List.filter (λ existing, negb (String.eqb (job_id existing) id)) l.

Definition applyEvent (current : JobsResource) (event : NotificationEvent) : JobsResource :=
  if decide (type event = Snapshot) then mkJobsResource (jobs event |?| []) false ""
  else match job event with
       | None => current
       | Some job => mkJobsResource (job :: without (job_id job) (data current)) false ""
       end.

Definition disconnected (current : JobsResource) : JobsResource :=
  mkJobsResource (data current) false "Notification stream disconnected. Reconnecting…".

(** ** The finished jobs

    The [Map] keeps its keys in the order of their first insertion. *)

Definition TerminalJobs := list (string * Job).

Fixpoint map_set {A} (k : string) (v : A) (m : list (string * A)) : list (string * A) :=
  match m with
  | [] => [(k, v)]
  | (k', v') :: r => if String.eqb k' k then (k, v) :: r else (k', v') :: map_set k v r
  end.
Fixpoint map_get {A} (k : string) (m : list (string * A)) : option A :=
  match m with
  | [] => None
  | (k', v) :: r => if String.eqb k' k then Some v else map_get k r
  end.

Definition recordJob (job : Job) (m : TerminalJobs) : TerminalJobs :=
  if negb (terminal (job_state job)) then m else
  let m := map_set (job_id job) job m in
  if (1000 <? length m)%nat then tail m else m.

(** ** The connection *)

Inductive phase := Connecting | Opened | Closing | Closed.
#[export] Instance phase_eq_dec : EqDecision phase.
Proof. solve_decision. Defined.

(** [timer] holds the delay of the pending reconnection, [hydration] whether the other timer is
    pending; the last three fields are the hook's state, the module's cache and the stored token. *)
Record connection := mkConnection {
  active : bool;
  delay : Z;
  socket : phase;
  timer : option Z;
  hydration : bool;
  resource : JobsResource;
  terminalJobs : TerminalJobs;
  token : option string
}.

Inductive effect :=
  | OpenSocket
  | SetHydration (ms : Z)
  | Send (credentials : option string)
  | CloseSocket
  | Notify (names : list string)
  | SetTimer (ms : Z)
  | Assign (page : string).

Inductive event :=
  | SocketOpen
  | SocketMessage (message : option NotificationEvent)  (* [None]: decoding it throws *)
  | SocketError
  | SocketClose (code : Z)
  | TimerFires
  | HydrationFires
  | Dispose.

Definition hydrationTimeout : Z := 10000.

(** The address of the socket, from the protocol and the host of the page. *)
Definition events_url (protocol host : string) : string :=
  (if String.eqb protocol "https:" then "wss:" else "ws:") ++ "//" ++ host ++ "/api/events".

Definition with_resource (f : JobsResource → JobsResource) (s : connection) : connection :=
  mkConnection (active s) (delay s) (socket s) (timer s) (hydration s) (f (resource s)) (terminalJobs s) (token s).
Definition with_socket (p : phase) (s : connection) : connection :=
  mkConnection (active s) (delay s) p (timer s) (hydration s) (resource s) (terminalJobs s) (token s).
Definition with_delay (d : Z) (s : connection) : connection :=
  mkConnection (active s) d (socket s) (timer s) (hydration s) (resource s) (terminalJobs s) (token s).
Definition with_timer (t : option Z) (s : connection) : connection :=
  mkConnection (active s) (delay s) (socket s) t (hydration s) (resource s) (terminalJobs s) (token s).
Definition with_hydration (h : bool) (s : connection) : connection :=
  mkConnection (active s) (delay s) (socket s) (timer s) h (resource s) (terminalJobs s) (token s).
Definition with_jobs (f : TerminalJobs → TerminalJobs) (s : connection) : connection :=
  mkConnection (active s) (delay s) (socket s) (timer s) (hydration s) (resource s) (f (terminalJobs s)) (token s).

Definition connect (s : connection) : connection * list effect :=
  if negb (active s) then (s, [])
  else (with_hydration true (with_socket Connecting s), [OpenSocket; SetHydration hydrationTimeout]).

Definition hydrationExpired (s : connection) : connection :=
  if negb (active s) then s
  else with_resource (λ current, if loading current then mkJobsResource (data current) false (error current) else current) s.

Definition authenticate (s : connection) : connection * list effect := (s, [Send (token s)]).

Definition receive (message : option NotificationEvent) (s : connection) : connection * list effect :=
  if negb (active s) then (s, []) else
  let s := with_hydration false s in
  match message with
  | None => (with_socket Closing s, [CloseSocket])
  | Some ev =>
      match type ev with
      | Invalidate => (with_delay 1000 s, [Notify (resources ev |?| [])])
      | OtherType => (s, [])
      | Snapshot | Update =>
          let '(s, o1) :=
            if decide (type ev = Snapshot)
            then (with_jobs (λ m, foldl (λ m j, recordJob j m) m (jobs ev |?| [])) s, [Notify ["all"]])
            else (s, []) in
          let '(s, o2) :=
            match job ev with
            | Some j => (with_jobs (recordJob j) s, [Notify ["jobs"]])
            | None => (s, [])
            end in
          (with_resource (λ current, applyEvent current ev) (with_delay 1000 s), o1 ++ o2)%list
      end
  end.

Definition failed (s : connection) : connection :=
  if active s then with_resource disconnected s else s.

Definition closed (code : Z) (s : connection) : connection * list effect :=
  if negb (active s) then (s, [])
  else if (code =? 1008)%Z then
    (mkConnection false (delay s) (socket s) (timer s) (hydration s) (resource s) (terminalJobs s) None,
     [Assign "/login"])
  else
    let s := with_timer (Some (delay s)) (with_resource disconnected s) in
    (with_delay (Z.min (delay s * 2) 15000) s, [SetTimer (delay s)]).

Definition dispose (s : connection) : connection * list effect :=
  (mkConnection false (delay s) (if decide (socket s = Closed) then Closed else Closing) None false
     (resource s) (terminalJobs s) (token s), [CloseSocket]).

Definition step (s : connection) (e : event) : connection * list effect :=
  match e with
  | SocketOpen => if decide (socket s = Connecting) then authenticate (with_socket Opened s) else (s, [])
  | SocketMessage m => if decide (socket s = Opened) then receive m s else (s, [])
  | SocketError => if decide (socket s = Closed) then (s, []) else (failed s, [])
  | SocketClose code => if decide (socket s = Closed) then (s, []) else closed code (with_socket Closed s)
  | TimerFires => match timer s with Some _ => connect (with_timer None s) | None => (s, []) end
  | HydrationFires => (if hydration s then hydrationExpired (with_hydration false s) else s, [])
  | Dispose => dispose s
  end.

(** The state after the constructor, for a cache and a token left by earlier connections. *)
Definition created (m : TerminalJobs) (t : option string) : connection :=
  (connect (mkConnection true 1000 Closed None false initialResource m t)).1.

(** ** [waitForJob]

    Time is in milliseconds. The environment answers for every instant: what the cache holds, what
    [getJob] answers and how long it takes, how long after its half second the timer resumes the
    loop, and whether a token is stored. The synchronous part of an iteration takes no time. *)

Record environment := mkEnvironment {
  cached : Z → option Job;
  answer : Z → Job + string;
  answer_time : Z → Z;
  lateness : Z → Z;
  has_token : Z → bool
}.

Inductive wait_result :=
  | Completed (j : Job) (at_time : Z)
  | Expired (at_time : Z)
  | TimedOut (at_time : Z).

Section wait.
Context (env : environment).

(** [while (Date.now() < deadline)], with the instants of the polls. *)
Fixpoint wait_loop (fuel : nat) (deadline nextCheck now : Z) : option (wait_result * list Z) :=
  match fuel with
  | O => None
  | S fuel =>
      if (deadline <=? now)%Z then Some (TimedOut now, []) else
      match cached env now with
      | Some completed => Some (Completed completed now, [])
      | None =>
          if (nextCheck <=? now)%Z then
            let after := (now + answer_time env now)%Z in
            let sleep := (after + 500 + lateness env after)%Z in
            match answer env now with
            | inl latest =>
                if terminal (job_state latest) then Some (Completed latest after, [now])
                else prod_map id (cons now) <$> wait_loop fuel deadline (now + 5000) sleep
            | inr _ =>
                if negb (has_token env after) then Some (Expired after, [now])
                else prod_map id (cons now) <$> wait_loop fuel deadline (now + 5000) sleep
            end
          else wait_loop fuel deadline nextCheck (now + 500 + lateness env now)
      end
  end.

Definition waitForJob (fuel : nat) (job : Job) (timeoutMs start : Z) : option (wait_result * list Z) :=
  if terminal (job_state job) then Some (Completed job start, [])
  else wait_loop fuel (start + timeoutMs) (start + 5000) start.
End wait.

(** ** Lemmas on the resource *)

Definition ids (l : list Job) : list string := job_id <$> l.

(** The latest state of each job, by its id. *)
Definition latest (l : list Job) : gmap string Job := foldr (λ j m, <[job_id j := j]> m) ∅ l.

Lemma elem_of_without id l j : j ∈ without id l ↔ j ∈ l ∧ job_id j ≠ id.
Proof.
  unfold without. rewrite !list_elem_of_In, filter_In, negb_true_iff, String.eqb_neq. done.
Qed.

Lemma ids_without id l : ids (without id l) = filter (.≠ id) (ids l).
Proof.
  unfold ids, without. induction l as [|j l IH]; [done|]. cbn [List.filter fmap list_fmap].
  destruct (String.eqb_spec (job_id j) id) as [->|]; cbn [negb].
  - rewrite filter_cons_False by tauto. done.
  - rewrite filter_cons_True by done. cbn. by rewrite IH.
Qed.

Lemma latest_lookup l id : latest l !! id = List.find (λ j, String.eqb (job_id j) id) l.
Proof.
  induction l as [|j l IH]; [apply lookup_empty|]. cbn [latest foldr List.find].
  destruct (String.eqb_spec (job_id j) id) as [->|].
  - apply lookup_insert_eq.
  - by rewrite lookup_insert_ne.
Qed.

Lemma latest_without id l : latest (without id l) = delete id (latest l).
Proof.
  apply map_eq. intros k. rewrite lookup_delete, !latest_lookup. unfold without.
  induction l as [|j l IH]; [by case_decide|]. cbn [List.filter List.find].
  destruct (String.eqb_spec (job_id j) id) as [E|E]; cbn [negb List.find].
  - rewrite IH. case_decide as Hk; [done|]. by rewrite (proj2 (String.eqb_neq _ _)) by congruence.
  - destruct (String.eqb_spec (job_id j) k) as [E'|E']; [|done]. case_decide; [congruence|done].
Qed.

(** What a message means for the latest states. *)
Definition apply_spec (m : gmap string Job) (ev : NotificationEvent) : gmap string Job :=
  if decide (type ev = Snapshot) then latest (jobs ev |?| [])
  else match job ev with Some j => <[job_id j := j]> m | None => m end.

Lemma latest_applyEvent r ev : latest (data (applyEvent r ev)) = apply_spec (latest (data r)) ev.
Proof.
  unfold applyEvent, apply_spec. case_decide; [done|]. destruct (job ev); [|done]. cbn [data latest foldr].
  change (foldr _ _ ?l) with (latest l). by rewrite latest_without, insert_delete_eq.
Qed.

(** The server sends a job once in a snapshot. *)
Definition well_formed (ev : NotificationEvent) : Prop := NoDup (ids (jobs ev |?| [])).

Lemma NoDup_applyEvent r ev : well_formed ev → NoDup (ids (data r)) → NoDup (ids (data (applyEvent r ev))).
Proof.
  intros Hw Hr. unfold applyEvent. case_decide; [done|]. destruct (job ev) as [j|]; [|done].
  cbn [data]. change (ids (j :: ?l)) with (job_id j :: ids l). rewrite ids_without. constructor.
  - rewrite list_elem_of_filter. tauto.
  - by apply NoDup_filter.
Qed.

(** ** Lemmas on the cache *)

Lemma map_get_set {A} k k' (v : A) m :
  map_get k' (map_set k v m) = if String.eqb k k' then Some v else map_get k' m.
Proof.
  induction m as [|[k0 v0] m IH]; cbn [map_set map_get].
  - by case_match.
  - destruct (String.eqb_spec k0 k) as [->|]; cbn [map_get].
    + by destruct (String.eqb k k').
    + rewrite IH. destruct (String.eqb_spec k0 k') as [->|]; [|done].
      by rewrite (proj2 (String.eqb_neq _ _)) by congruence.
Qed.

Lemma keys_map_set {A} k (v : A) m : k ∈ (map_set k v m).*1 ∧ ∀ k', k' ∈ (map_set k v m).*1 ↔ k' = k ∨ k' ∈ m.*1.
Proof.
  assert (∀ k', k' ∈ (map_set k v m).*1 ↔ k' = k ∨ k' ∈ m.*1) as Hk; [|split; [apply Hk; by left|done]].
  intros k'. induction m as [|[k0 v0] m IH]; cbn [map_set].
  - cbn. rewrite list_elem_of_singleton, elem_of_nil. tauto.
  - destruct (String.eqb_spec k0 k) as [->|]; cbn [fmap list_fmap fst]; rewrite !elem_of_cons, ?IH; tauto.
Qed.

Lemma NoDup_map_set {A} k (v : A) m : NoDup m.*1 → NoDup (map_set k v m).*1.
Proof.
  induction m as [|[k0 v0] m IH]; cbn [map_set].
  - intros _. apply NoDup_singleton.
  - cbn [fmap list_fmap fst]. intros [Hn Hnd]%NoDup_cons. destruct (String.eqb_spec k0 k) as [->|]; cbn [fmap list_fmap fst].
    + by constructor.
    + constructor; [|auto]. rewrite (proj2 (keys_map_set k v m)). intros [?|?]; done.
Qed.

Lemma length_map_set {A} k (v : A) m : (length (map_set k v m) ≤ S (length m) ∧ 0 < length (map_set k v m))%nat.
Proof.
  induction m as [|[k0 v0] m IH]; cbn [map_set length]; [lia|]. case_match; cbn [length]; lia.
Qed.

(** The last key of a longer map is not the first. *)
Lemma map_get_tail_set {A} k (v : A) m : NoDup m.*1 → (length m < length (map_set k v m))%nat → m ≠ [] →
  map_get k (tail (map_set k v m)) = Some v.
Proof.
  destruct m as [|[k0 v0] m]; [done|]. cbn [map_set]. intros _.
  destruct (String.eqb_spec k0 k) as [->|]; cbn [length tail]; [lia|]. intros _ _.
  rewrite map_get_set, String.eqb_refl. done.
Qed.

Definition cache_ok (m : TerminalJobs) : Prop :=
  NoDup m.*1 ∧ (length m ≤ 1000)%nat ∧ Forall (λ p, job_id p.2 = p.1 ∧ terminal (job_state p.2) = true) m.

Lemma Forall_map_set {A} (P : string * A → Prop) k v m : Forall P m → P (k, v) → Forall P (map_set k v m).
Proof.
  intros Hm Hk. induction Hm as [|[k0 v0] m]; cbn [map_set]; [by repeat constructor|].
  case_match; by constructor.
Qed.

Lemma recordJob_ok j m : cache_ok m → cache_ok (recordJob j m).
Proof.
  intros (Hn & Hl & Hf). unfold recordJob. destruct (terminal (job_state j)) eqn:Ht; [|done]. cbn [negb].
  pose proof (NoDup_map_set (job_id j) j m Hn) as Hn'. pose proof (length_map_set (job_id j) j m) as [Hl' _].
  pose proof (Forall_map_set _ (job_id j) j m Hf (conj eq_refl Ht)) as Hf'.
  destruct (Nat.ltb_spec 1000 (length (map_set (job_id j) j m))); [|split_and!; [done|lia|done]].
  destruct (map_set (job_id j) j m) as [|p m']; cbn in *; [lia|].
  apply NoDup_cons in Hn' as [_ ?]. apply Forall_cons in Hf' as [_ ?]. split_and!; [done|lia|done].
Qed.

Lemma recordJob_get j m : cache_ok m → terminal (job_state j) = true → map_get (job_id j) (recordJob j m) = Some j.
Proof.
  intros (Hn & Hl & _) Ht. unfold recordJob. rewrite Ht. cbn [negb].
  destruct (Nat.ltb_spec 1000 (length (map_set (job_id j) j m))) as [Hlt|].
  - pose proof (length_map_set (job_id j) j m). apply map_get_tail_set; [done|lia|]. intros ->. cbn in *. lia.
  - by rewrite map_get_set, String.eqb_refl.
Qed.

Lemma recordJobs_ok js m : cache_ok m → cache_ok (foldl (λ m j, recordJob j m) m js).
Proof. revert m. induction js as [|j js IH]; intros m Hm; [done|]. cbn. by apply IH, recordJob_ok. Qed.

(** ** The invariant of the connection *)

(** The delay before the reconnection that follows [n] failures in a row. *)
Definition backoff (n : nat) : Z := Z.min (1000 * 2 ^ Z.of_nat n) 15000.

Lemma backoff_0 : backoff 0 = 1000%Z.
Proof. done. Qed.
Lemma backoff_S n : Z.min (backoff n * 2) 15000 = backoff (S n).
Proof. unfold backoff. rewrite Nat2Z.inj_succ, Z.pow_succ_r by lia. lia. Qed.
Lemma backoff_bounds n : (1000 ≤ backoff n ≤ 15000)%Z.
Proof. unfold backoff. pose proof (Z.pow_pos_nonneg 2 (Z.of_nat n)). lia. Qed.

Record conn_inv (s : connection) : Prop := {
  ci_delay : ∃ n, delay s = backoff n;
  ci_timer : is_Some (timer s) ↔ active s = true ∧ socket s = Closed;
  ci_timer_delay d : timer s = Some d → (1000 ≤ d ≤ 15000)%Z;
  ci_inactive : active s = false → socket s = Closing ∨ socket s = Closed;
  ci_cache : cache_ok (terminalJobs s)
}.

Lemma created_inv m t : cache_ok m → conn_inv (created m t).
Proof.
  intros Hm. split; cbn; try done; [by exists O|]. split; [by intros [? ?]|by intros [_ ?]].
Qed.

(** Messages touch neither the timer nor the liveness of the socket. *)
Lemma receive_frame m s :
  active (receive m s).1 = active s ∧ timer (receive m s).1 = timer s ∧
  (delay (receive m s).1 = delay s ∨ delay (receive m s).1 = 1000%Z) ∧
  (socket (receive m s).1 = socket s ∨ socket (receive m s).1 = Closing) ∧
  (cache_ok (terminalJobs s) → cache_ok (terminalJobs (receive m s).1)).
Proof.
  unfold receive. destruct (active s) eqn:Ha; cbn [negb]; [|split_and!; auto].
  destruct m as [ev|]; [|split_and!; cbn; auto].
  destruct (type ev) eqn:Ht; try (split_and!; cbn; by auto);
    [rewrite decide_True by done|rewrite decide_False by done];
    destruct (job ev) as [j|]; cbn; split_and!; auto; intros; auto using recordJobs_ok, recordJob_ok.
Qed.

Lemma stream_step_inv s e : conn_inv s → conn_inv (step s e).1.
Proof.
  intros Hi. pose proof Hi as [[n Hd] Ht Htd Hina Hc]. destruct e; cbn [step].
  - case_decide as E; [|done]. cbn. split; cbn; [by exists n| |done| |done].
    + rewrite Ht, E. split; by intros [? ?].
    + intros Ha. destruct (Hina Ha); congruence.
  - case_decide as E; [|done]. destruct (receive_frame message s) as (Fa & Ft & Fd & Fs & Fc). split.
    + destruct Fd as [-> | ->]; [by exists n|by exists O].
    + rewrite Fa, Ft, Ht, E. split; [by intros [? ?]|]. intros [? Hs]. destruct Fs; congruence.
    + rewrite Ft. done.
    + rewrite Fa. intros Ha. destruct (Hina Ha); congruence.
    + auto.
  - case_decide; [done|]. cbn. unfold failed. destruct (active s) eqn:Ea; [|done]. split; cbn; rewrite ?Ea; eauto.
  - case_decide as E; [done|]. unfold closed. cbn [active with_socket]. destruct (active s) eqn:Ha; cbn [negb].
    + case_match; cbn.
      * split; cbn; [by exists n| |done|auto|done].
        rewrite Ht. split; [by intros [? ?]|by intros [? ?]].
      * split; cbn; [|by split|intros d [= <-]; rewrite Hd; apply backoff_bounds|congruence|done].
        exists (S n). by rewrite Hd, backoff_S.
    + cbn. split; cbn; [by exists n| |done|auto|done]. rewrite Ht, Ha. split; by intros [? ?].
  - destruct (timer s) as [d|] eqn:Et; [|done]. destruct Ht as [[Ha Hs] _]; [by eexists|].
    unfold connect. cbn. rewrite Ha. cbn. split; cbn; [by exists n| |done|congruence|done].
    split; [by intros [? ?]|by intros [_ ?]].
  - case_match; [|done]. cbn. unfold hydrationExpired. cbn. destruct (active s) eqn:Ha; cbn; split; cbn; rewrite ?Ha; eauto.
  - cbn. split; cbn; [by exists n| |done| |done].
    + split; [by intros [? ?]|by intros [? ?]].
    + intros _. case_decide; auto.
Qed.

Lemma reachable_conn_inv m t s : cache_ok m → reachable step (created m t) s → conn_inv s.
Proof. intros Hm. apply reachable_invariant; [by apply created_inv|apply stream_step_inv]. Qed.

(** The messages a run takes into account. *)
Definition hears (s : connection) (e : event) : option NotificationEvent :=
  match e with
  | SocketMessage (Some ev) =>
      if bool_decide (socket s = Opened) && active s && bool_decide (type ev = Snapshot ∨ type ev = Update)
      then Some ev else None
  | _ => None
  end.
Fixpoint heard (s : connection) (es : list event) : list NotificationEvent :=
  match es with
  | [] => []
  | e :: es => option_list (hears s e) ++ heard (step s e).1 es
  end%list.

Lemma step_data s e :
  data (resource (step s e).1) =
    match hears s e with Some ev => data (applyEvent (resource s) ev) | None => data (resource s) end.
Proof.
  destruct e as [|m| |code| | |]; cbn [step hears].
  - by case_decide.
  - destruct m as [ev|].
    2:{ case_decide; [|done]. unfold receive. by case_match. }
    destruct (decide (socket s = Opened)) as [E|E]; [rewrite bool_decide_true by done|by rewrite bool_decide_false by done].
    unfold receive. destruct (active s); cbn [negb andb]; [|done].
    destruct (type ev) eqn:Ht.
    + rewrite bool_decide_true, decide_True by auto. cbn. by destruct (job ev).
    + rewrite bool_decide_true, decide_False by auto. cbn. by destruct (job ev).
    + by rewrite bool_decide_false by (intros [?|?]; done).
    + by rewrite bool_decide_false by (intros [?|?]; done).
  - case_decide; [done|]. cbn. unfold failed. by case_match.
  - case_decide; [done|]. unfold closed. by repeat case_match.
  - case_match; [|done]. unfold connect. by case_match.
  - case_match; [|done]. cbn. unfold hydrationExpired. cbn. case_match; [done|]. cbn. by case_match.
  - done.
Qed.

(** ** Lemmas on waiting *)

(** The polls of one wait: at least five seconds apart, from [lo], before the deadline. *)
Fixpoint spaced (lo deadline : Z) (polls : list Z) : Prop :=
  match polls with
  | [] => True
  | p :: ps => (lo ≤ p < deadline)%Z ∧ spaced (p + 5000) deadline ps
  end.

Lemma spaced_length lo deadline ps : ps ≠ [] → spaced lo deadline ps →
  (lo + 5000 * (Z.of_nat (length ps) - 1) < deadline)%Z.
Proof.
  revert lo. induction ps as [|p ps IH]; [done|]. intros lo _ [Hp Hs]. destruct ps as [|q ps]; [cbn in *; lia|].
  specialize (IH (p + 5000)%Z ltac:(done) Hs). cbn [length] in *. lia.
Qed.

(** What a result says about the environment. *)
Definition wait_ok (env : environment) (start deadline : Z) (r : wait_result) : Prop :=
  match r with
  | Completed j t =>
      (start ≤ t)%Z ∧ (cached env t = Some j ∨
        ∃ t0, (start ≤ t0 < deadline)%Z ∧ answer env t0 = inl j ∧ terminal (job_state j) = true)
  | Expired t => (start ≤ t)%Z ∧ has_token env t = false
  | TimedOut t => (deadline ≤ t)%Z
  end.

Lemma wait_ok_later env start start' deadline r : (start ≤ start')%Z →
  wait_ok env start' deadline r → wait_ok env start deadline r.
Proof.
  destruct r as [j t|t|t]; cbn; [|intros ? [? ?]; split; [lia|done]|lia].
  intros ? [? [?|(t0 & ? & ?)]]; (split; [lia|]); [by left|]. right. exists t0. split; [lia|done].
Qed.

Lemma wait_loop_ok env fuel deadline nextCheck now :
  (∀ t, 0 ≤ answer_time env t)%Z → (∀ t, 0 ≤ lateness env t)%Z →
  (deadline - now <= 500 * (Z.of_nat fuel - 1))%Z → (0 < fuel)%nat →
  ∃ r ps, wait_loop env fuel deadline nextCheck now = Some (r, ps) ∧
    wait_ok env now deadline r ∧ spaced nextCheck deadline ps.
Proof.
  intros Ha Hl. revert nextCheck now. induction fuel as [|fuel IH]; intros nc now Hf Hpos; [lia|].
  cbn [wait_loop]. destruct (Z.leb_spec deadline now); [eexists _, _; split; [done|by split]|].
  assert (0 < fuel)%nat by lia.
  destruct (cached env now) as [j|] eqn:Ec.
  { eexists _, _. split; [done|]. split; [|done]. split; [lia|]. by left. }
  destruct (Z.leb_spec nc now).
  - pose proof (Ha now). pose proof (Hl (now + answer_time env now)%Z).
    destruct (IH (now + 5000)%Z (now + answer_time env now + 500 + lateness env (now + answer_time env now))%Z)
      as (r & ps & E & Hr & Hs); [lia|lia|].
    rewrite E. cbn [fmap option_fmap option_map prod_map id fst snd].
    destruct (answer env now) as [j|m] eqn:Ea; [destruct (terminal (job_state j)) eqn:Et|destruct (has_token env _) eqn:Eh];
      cbn [negb]; (eexists _, _; split; [done|]; split; [|split; [lia|done]]).
    + split; [lia|]. right. exists now. split; [lia|done].
    + eapply wait_ok_later; [|done]. lia.
    + eapply wait_ok_later; [|done]. lia.
    + split; [lia|done].
  - pose proof (Hl now). destruct (IH nc (now + 500 + lateness env now)%Z) as (r & ps & E & Hr & Hs); [lia|lia|].
    exists r, ps. split; [done|]. split; [|done]. eapply wait_ok_later; [|done]. lia.
Qed.

(** ** Lemmas on runs *)

Lemma run_data s es :
  latest (data (resource (run step s es).1)) = foldl apply_spec (latest (data (resource s))) (heard s es) ∧
  (Forall well_formed (heard s es) → NoDup (ids (data (resource s))) →
   NoDup (ids (data (resource (run step s es).1)))).
Proof.
  revert s. induction es as [|e es IH]; intros s; [done|]. cbn [run heard].
  pose proof (step_data s e) as Hs. destruct (step s e) as [s' o]. cbn in Hs |- *. specialize (IH s').
  destruct (run step s' es) as [s'' o']. cbn in *. destruct IH as [IH1 IH2]. rewrite IH1, Hs.
  destruct (hears s e) as [ev|]; cbn.
  - rewrite latest_applyEvent. split; [done|]. intros [? ?]%Forall_cons ?.
    apply IH2; [done|]. rewrite Hs. by apply NoDup_applyEvent.
  - split; [done|]. intros ? ?. apply IH2; [done|]. by rewrite Hs.
Qed.

Definition timers (os : list effect) : list Z := omap (λ o, match o with SetTimer ms => Some ms | _ => None end) os.

Lemma fail_once c s : active s = true → socket s ≠ Closed → c ≠ 1008%Z →
  let '(s1, o) := run step s [SocketClose c; TimerFires] in
  active s1 = true ∧ socket s1 = Connecting ∧ delay s1 = Z.min (delay s * 2) 15000 ∧ timers o = [delay s].
Proof.
  intros Ha Hs Hc%Z.eqb_neq. destruct s as [a d p t h r j tok]. cbn in Ha, Hs. subst a.
  cbn [run step socket]. rewrite decide_False by done. cbn. rewrite Hc. by cbn.
Qed.

Lemma failures_backoff k cs s :
  active s = true → socket s ≠ Closed → delay s = backoff k → 1008%Z ∉ cs →
  timers (run step s (concat ((λ c, [SocketClose c; TimerFires]) <$> cs))).2 = backoff <$> seq k (length cs).
Proof.
  revert k s. induction cs as [|c cs IH]; intros k s Ha Hs Hd Hc; [done|].
  cbn [fmap list_fmap concat length seq]. rewrite run_app.
  pose proof (fail_once c s Ha Hs ltac:(set_solver)) as Hf.
  destruct (run step s [SocketClose c; TimerFires]) as [s1 o]. destruct Hf as (Ha1 & Hs1 & Hd1 & Ho).
  specialize (IH (S k) s1 Ha1). rewrite Hs1, Hd1, Hd, backoff_S in IH. specialize (IH ltac:(done) eq_refl ltac:(set_solver)).
  change (list_fmap _ _ ?f ?l) with (f <$> l). destruct (run step s1 _) as [s2 o2]. cbn in IH |- *. unfold timers in *.
  rewrite omap_app, Ho, IH, Hd. done.
Qed.

(** What an inactive connection keeps. *)
Definition quiet (s s' : connection) : Prop :=
  active s' = false ∧ resource s' = resource s ∧ terminalJobs s' = terminalJobs s ∧ token s' = token s ∧
  timer s' = None ∧ (socket s' = Closing ∨ socket s' = Closed).

Lemma quiet_step s s' e : quiet s s' → quiet s (step s' e).1 ∧ Forall (λ o, o = CloseSocket) (step s' e).2.
Proof.
  intros (Ha & Hr & Hj & Htok & Ht & Hs). destruct e; cbn [step].
  - rewrite decide_False by (destruct Hs; congruence). by split.
  - rewrite decide_False by (destruct Hs; congruence). by split.
  - case_decide; [by split|]. unfold failed. rewrite Ha. by split.
  - case_decide; [by split|]. unfold closed. cbn. rewrite Ha. cbn. split; [|done].
    split_and!; cbn; auto.
  - rewrite Ht. by split.
  - case_match; [|by split]. unfold hydrationExpired. cbn. rewrite Ha. cbn. by split.
  - cbn. split; [|by repeat constructor]. split_and!; cbn; auto. case_decide; auto.
Qed.

Lemma quiet_run s es : quiet s s → quiet s (run step s es).1 ∧ Forall (λ o, o = CloseSocket) (run step s es).2.
Proof.
  intros Hq. split.
  - apply (run_invariant step (quiet s)); [|done]. intros s' e Hs'. by apply quiet_step.
  - apply (run_effects step (quiet s)); [..|done]; intros s' e Hs'; by apply (quiet_step s).
Qed.

(** ** Properties *)

(** C18. The stream is never stuck and never doubled: in every reachable state an active connection has
    either a socket that is not closed and no pending reconnection, or a closed socket and exactly one
    reconnection pending within fifteen seconds; a socket is opened only when the previous one is
    closed. *)
Theorem connection_alive (m : TerminalJobs) (t : option string) (s : connection) :
  cache_ok m → reachable step (created m t) s →
  (active s = true →
    socket s ≠ Closed ∧ timer s = None ∨
    socket s = Closed ∧ ∃ d, timer s = Some d ∧ (1000 ≤ d ≤ 15000)%Z) ∧
  (∀ e, OpenSocket ∈ (step s e).2 → active s = true ∧ socket s = Closed).
Proof.
  intros Hm Hs. pose proof (reachable_conn_inv _ _ _ Hm Hs) as [_ Ht Htd _ _]. split.
  - intros Ha. destruct (timer s) as [d|]; [right|left].
    + destruct Ht as [[_ ?] _]; [by eexists|]. eauto.
    + split; [|done]. intros ?. destruct Ht as [_ Hf]. by destruct Hf.
  - intros e. destruct e; cbn [step].
    + case_decide; cbn; set_solver.
    + case_decide; cbn; [|set_solver]. unfold receive. destruct message as [ev|]; repeat case_match; cbn; set_solver.
    + case_decide; cbn; set_solver.
    + case_decide; cbn; [set_solver|]. unfold closed. repeat case_match; cbn; set_solver.
    + destruct (timer s) as [d|] eqn:E; [|set_solver]. intros _. apply Ht. by eexists.
    + cbn. set_solver.
    + cbn. set_solver.
Qed.

(** Failed reconnections back off: the n-th failure in a row after a message waits
    [min (1000 * 2^n) 15000] milliseconds, whatever the close codes but that of a revoked session. *)
Theorem reconnection_backoff (s : connection) (codes : list Z) :
  active s = true → socket s ≠ Closed → delay s = 1000%Z → 1008%Z ∉ codes →
  timers (run step s (concat ((λ c, [SocketClose c; TimerFires]) <$> codes))).2 = backoff <$> seq 0 (length codes).
Proof. intros. by apply failures_backoff. Qed.

(** A stream ends for good: when the server closes it for a revoked session the token is dropped and
    the login page opened, and after that, as after [dispose], no event whatever updates the resource,
    notifies a component, sends anything or opens a socket. *)
Theorem stream_ends (m : TerminalJobs) (t : option string) (s : connection) (e : event) (es : list event) :
  cache_ok m → reachable step (created m t) s → active s = true →
  e = Dispose ∨ (e = SocketClose 1008 ∧ socket s ≠ Closed) →
  let '(s1, o1) := step s e in
  let '(s2, o2) := run step s1 es in
  (e ≠ Dispose → o1 = [Assign "/login"] ∧ token s1 = None) ∧
  resource s2 = resource s ∧ terminalJobs s2 = terminalJobs s ∧ Forall (λ o, o = CloseSocket) o2.
Proof.
  intros Hm Hs Ha He. pose proof (reachable_conn_inv _ _ _ Hm Hs) as [_ Ht _ _ _].
  destruct (step s e) as [s1 o1] eqn:E1.
  assert (quiet s1 s1 ∧ (e ≠ Dispose → o1 = [Assign "/login"] ∧ token s1 = None) ∧
    resource s1 = resource s ∧ terminalJobs s1 = terminalJobs s) as (Hq & H1 & H2 & H3).
  { destruct He as [->|[-> Hc]]; cbn [step] in E1.
    - unfold dispose in E1. simplify_eq. split; [|done]. split_and!; cbn; try done. case_decide; auto.
    - rewrite decide_False in E1 by done. unfold closed in E1. cbn in E1. rewrite Ha in E1. cbn in E1.
      simplify_eq. split; [|done]. split_and!; cbn; auto.
      destruct (timer s); [|done]. destruct Ht as [[_ ?] _]; [by eexists|]. done. }
  pose proof (quiet_run s1 es Hq) as [(_ & Hr & Hj & _) Ho]. destruct (run step s1 es) as [s2 o2]. cbn in *.
  split_and!; [done|congruence|congruence|done].
Qed.

(** C16. The list of jobs is the latest state of each job: through every run, whatever sockets fail and
    reconnect, it represents the map in which a snapshot replaces everything and an update sets its job,
    and it never holds two entries for one job when no snapshot does. *)
Theorem stream_data_latest (m : TerminalJobs) (t : option string) (es : list event) :
  let s := (run step (created m t) es).1 in
  let messages := heard (created m t) es in
  latest (data (resource s)) = foldl apply_spec ∅ messages ∧
  (Forall well_formed messages → NoDup (ids (data (resource s)))).
Proof.
  cbn zeta. destruct (run_data (created m t) es) as [H1 H2]. split; [exact H1|]. intros Hw. apply H2; [done|].
  constructor.
Qed.

(** Waiting for a job ends: however the cache and the server answer, after at most one iteration
    per half second of the timeout [waitForJob] returns; a completed result is a finished job, taken
    from the cache or answered by the server before the deadline, giving up only happens at the
    deadline, or without a session; and it polls the server at most once in five seconds. *)
Theorem waitForJob_returns (env : environment) (job : Job) (timeoutMs start : Z) (fuel : nat) :
  (∀ t, 0 ≤ answer_time env t)%Z → (∀ t, 0 ≤ lateness env t)%Z →
  (∀ t j, cached env t = Some j → terminal (job_state j) = true) →
  (timeoutMs ≤ 500 * (Z.of_nat fuel - 1))%Z → (0 < fuel)%nat →
  ∃ r polls, waitForJob env fuel job timeoutMs start = Some (r, polls) ∧
    match r with
    | Completed j _ => terminal (job_state j) = true
    | Expired t => has_token env t = false
    | TimedOut t => (start + timeoutMs ≤ t)%Z
    end ∧
    spaced (start + 5000) (start + timeoutMs) polls ∧ (5000 * Z.of_nat (length polls) ≤ Z.max 0 timeoutMs)%Z.
Proof.
  intros Ha Hl Hc Hf Hpos. unfold waitForJob. destruct (terminal (job_state job)) eqn:Et.
  { exists (Completed job start), []. split_and!; [done..|]. cbn [length]. lia. }
  destruct (wait_loop_ok env fuel (start + timeoutMs) (start + 5000) start) as (r & ps & E & Hr & Hs); [done..|lia|done|].
  exists r, ps. split_and!; [done| |done|].
  - destruct r as [j at_|at_|at_]; cbn in Hr; [|by destruct Hr|done].
    destruct Hr as [_ [?|(t0 & _ & _ & ?)]]; [by eapply Hc|done].
  - destruct ps as [|p ps]; [cbn [length]; lia|]. pose proof (spaced_length _ _ (p :: ps) ltac:(done) Hs). lia.
Qed.

(** ** Witnesses *)

Definition sample_job (id : string) (st : JobState) : Job :=
  mkJob "vm.start" "2024-01-01T00:00:00Z" None None id "" [] None None st "vm1".
Definition sample_conn : connection := (run step (created [] (Some "token")) [SocketOpen]).1.

Lemma sample_conn_reachable : reachable step (created [] (Some "token")) sample_conn.
Proof. by exists [SocketOpen]. Qed.
Lemma empty_cache_ok : cache_ok [].
Proof. split_and!; [constructor|cbn; lia|constructor]. Qed.

Lemma connection_alive_witness : active sample_conn = true ∧ (socket sample_conn ≠ Closed ∧ timer sample_conn = None ∨
    socket sample_conn = Closed ∧ ∃ d, timer sample_conn = Some d ∧ (1000 ≤ d ≤ 15000)%Z).
Proof.
  split; [reflexivity|].
  apply (connection_alive [] (Some "token") sample_conn empty_cache_ok sample_conn_reachable). reflexivity.
Defined.

Lemma reconnection_backoff_witness :
  timers (run step sample_conn (concat ((λ c, [SocketClose c; TimerFires]) <$> [1006; 1006; 1006; 1006; 1006]%Z))).2 =
    [1000; 2000; 4000; 8000; 15000]%Z.
Proof.
  refine (reconnection_backoff sample_conn [1006; 1006; 1006; 1006; 1006]%Z _ _ _ _);
    [reflexivity|discriminate|reflexivity|set_solver].
Defined.

Lemma stream_ends_witness :
  resource (run step (step sample_conn (SocketClose 1008)).1 [TimerFires; SocketOpen]).1 = resource sample_conn.
Proof.
  pose proof (stream_ends [] (Some "token") sample_conn (SocketClose 1008) [TimerFires; SocketOpen]
    empty_cache_ok sample_conn_reachable eq_refl ltac:(right; split; [reflexivity|discriminate])) as H.
  exact (proj1 (proj2 H)).
Defined.

Lemma stream_data_latest_witness :
  NoDup (ids (data (resource (run step (created [] None)
    [SocketOpen; SocketMessage (Some (mkEvent Snapshot None (Some [sample_job "a" Pending]) None));
     SocketMessage (Some (mkEvent Update None None (Some (sample_job "a" Succeeded))))]).1))).
Proof.
  apply (stream_data_latest [] None). apply (bool_decide_unpack _). vm_compute. exact I.
Defined.

Definition sample_env : environment :=
  mkEnvironment (λ _, None) (λ t, if (t <? 12000)%Z then inr "offline" else inl (sample_job "a" Succeeded))
    (λ _, 20%Z) (λ _, 3%Z) (λ _, true).

Lemma waitForJob_returns_witness : ∃ r polls,
  waitForJob sample_env 241 (sample_job "a" Running) 120000 0 = Some (r, polls) ∧
  (5000 * Z.of_nat (length polls) ≤ 120000)%Z.
Proof.
  destruct (waitForJob_returns sample_env (sample_job "a" Running) 120000 0 241) as (r & ps & E & _ & _ & Hl);
    [intros t; cbn; lia|intros t; cbn; lia|discriminate|lia|lia|]. exists r, ps. split; [exact E|lia].
Defined.
