(* ===== verification/JobTracking.v ===== *)
(** * Tracking of submitted operations

    [JobsProvider] ([src/web/src/components/JobsProvider.tsx]) merges the operations submitted here
    with the stream's and notifies their progress; [useJobAction] and [useRowAction]
    ([src/web/src/hooks/]) run the requests of one component and of one row. *)

From S2P Require Import Prelude JsString Types NotificationStream.
Local Open Scope string_scope.

(** ** The provider *)

Record JobNotification := mkNotification { sequence : Z; n_job : option Job; n_error : option string }.

(** [states] is the content of the ref. *)
Record provider := mkProvider {
  submitted : list Job;
  notification : option JobNotification;
  states : gmap string JobState
}.

Definition initial : provider := mkProvider [] None ∅.

Definition next_sequence (current : option JobNotification) : Z :=
  match current with Some n => sequence n + 1 | None => 1 end.

Definition notify (j : option Job) (e : option string) (p : provider) : provider :=
  mkProvider (submitted p) (Some (mkNotification (next_sequence (notification p)) j e)) (states p).

Definition trackJob (job : Job) (p : provider) : provider :=
  if String.eqb (job_action job) "vm.screenshot" then p else
  notify (Some job) None
    (mkProvider (job :: without (job_id job) (submitted p)) (notification p) (<[job_id job := job_state job]> (states p))).

Definition reportError (error : string) (p : provider) : provider := notify None (Some error) p.

(** [data.find(item => item.id === id)] *)
Definition find_job (id : string) (l : list Job) : option Job := List.find (λ item, String.eqb (job_id item) id) l.

(** One iteration of the effect's loop: the state, and the ids completed so far. *)
Definition observe (rdata : list Job) (acc : provider * list string) (original : Job) : provider * list string :=
  let '(p, completed) := acc in
  let job := find_job (job_id original) rdata |?| original in
  let p :=
    if bool_decide (states p !! job_id job = Some (job_state job)) then p
    else notify (Some job) None (mkProvider (submitted p) (notification p) (<[job_id job := job_state job]> (states p))) in
  (p, if terminal (job_state job) then (completed ++ [job_id job])%list else completed).

(** The effect, which runs after every change of the stream's data or of [submitted]. *)
Definition effect (rdata : list Job) (p : provider) : provider :=
  let '(p, completed) := foldl (observe rdata) (p, []) (rev (submitted p)) in
  match completed with
  | [] => p
  | _ => mkProvider (List.filter (λ job, negb (includes_str completed (job_id job))) (submitted p)) (notification p)
           (foldl (λ m id, delete id m) (states p) completed)
  end.

(** What the provider gives to its children. *)
Definition provided (rdata : list Job) (p : provider) : list Job :=
  (List.filter (λ job, negb (existsb (λ item, String.eqb (job_id item) (job_id job)) rdata)) (submitted p) ++ rdata)%list.

(** ** [useJobAction] *)

Record action_state := mkAction { busy : bool; error : string; last_job : option Job }.
Definition action_initial : action_state := mkAction false "" None.

(** The start of [run], and its end when the request answers. *)
Definition run_start (s : action_state) : action_state := mkAction true "" (last_job s).
Definition run_end (answer : Job + string) (s : action_state) (p : provider) : action_state * provider * option Job :=
  match answer with
  | inl result => (mkAction false (error s) (Some result), trackJob result p, Some result)
  | inr message => (mkAction false message (last_job s), reportError message p, None)
  end.

(** ** [useRowAction] *)

Record row_state := mkRow { row_error : string; submitting : string; row_submitted : option Job }.
Definition row_initial : row_state := mkRow "" "" None.

Section row.
Context (id name scope : string).

Definition row_active (jobs : list Job) : option Job :=
  List.find (λ job, starts_with (scope ++ ".") (job_action job) && negb (String.eqb (job_action job) "vm.screenshot")
    && (String.eqb (job_target job) id || String.eqb (job_target job) name) && in_progress (job_state job)) jobs.

Definition row_tracked (jobs : list Job) (s : row_state) : option Job :=
  match row_submitted s with
  | Some j => Some (find_job (job_id j) jobs |?| j)
  | None => None (* no job has an undefined id *)
  end.

Definition row_job (jobs : list Job) (s : row_state) : option Job :=
  match row_active jobs with Some j => Some j | None => row_tracked jobs s end.

Definition row_busy (jobs : list Job) (s : row_state) : bool :=
  truthy (submitting s) || match row_job jobs s with Some j => in_progress (job_state j) | None => false end.

(** [submitting || (busy ? job?.action : '')] *)
Definition row_action (jobs : list Job) (s : row_state) : string :=
  submitting s ||s (if row_busy jobs s then match row_job jobs s with Some j => job_action j | None => "" end else "").

Definition execute_start (action : string) (s : row_state) : row_state := mkRow "" action (row_submitted s).
Definition execute_end (answer : Job + string) (s : row_state) : row_state :=
  match answer with
  | inl result => mkRow (row_error s) "" (Some result)
  | inr message => mkRow message "" (row_submitted s)
  end.
End row.

(** ** Lemmas *)

Lemma find_job_id id l j : find_job id l = Some j → job_id j = id ∧ j ∈ l.
Proof. unfold find_job. intros [? ?%String.eqb_eq]%find_some_iff. done. Qed.

Lemma find_job_none id l : find_job id l = None ↔ id ∉ ids l.
Proof.
  unfold find_job, ids. rewrite find_none_iff, list_elem_of_fmap. split.
  - intros Hl (j & -> & Hj). apply Hl, String.eqb_neq in Hj. done.
  - intros Hn j Hj. apply String.eqb_neq. intros <-. apply Hn. eauto.
Qed.

Lemma find_job_in l j : NoDup (ids l) → j ∈ l → find_job (job_id j) l = Some j.
Proof.
  unfold find_job, ids. induction l as [|k l IH]; cbn [fmap list_fmap List.find]; [set_solver|].
  intros [Hk Hl]%NoDup_cons [->|Hj]%elem_of_cons; [by rewrite String.eqb_refl|].
  rewrite (proj2 (String.eqb_neq _ _)); [auto|]. intros E. apply Hk. rewrite E. apply list_elem_of_fmap. eauto.
Qed.

Lemma find_job_app id l k : find_job id (l ++ k)%list = match find_job id l with Some j => Some j | None => find_job id k end.
Proof.
  unfold find_job. induction l as [|j l IH]; [done|]. cbn [app List.find]. by destruct (String.eqb _ _).
Qed.

Lemma find_job_filter (f : string → bool) id l :
  find_job id (List.filter (λ j, f (job_id j)) l) = if f id then find_job id l else None.
Proof.
  unfold find_job. induction l as [|j l IH]; cbn; [by case_match|].
  destruct (f (job_id j)) eqn:Ef; cbn; destruct (String.eqb_spec (job_id j) id) as [<-|]; rewrite ?Ef in *; rewrite ?IH; done.
Qed.

Lemma filter_ext_in' {A} (f g : A → bool) l : (∀ x, x ∈ l → f x = g x) → List.filter f l = List.filter g l.
Proof. intros Hl. apply List.filter_ext_in. intros x Hx. by apply Hl, list_elem_of_In. Qed.

Lemma filter_true {A} (f : A → bool) l : (∀ x, x ∈ l → f x = true) → List.filter f l = l.
Proof.
  induction l as [|x l IH]; intros Hl; [done|]. cbn. rewrite Hl, IH; [done| |]; set_solver.
Qed.

Lemma ids_filter (f : Job → bool) l : NoDup (ids l) → NoDup (ids (List.filter f l)).
Proof.
  unfold ids. induction l as [|j l IH]; [done|]. cbn [fmap list_fmap List.filter].
  intros [Hj Hl]%NoDup_cons. destruct (f j); [|auto]. cbn. constructor; [|auto].
  rewrite list_elem_of_fmap. intros (k & E & Hk). apply Hj, list_elem_of_fmap. exists k. split; [done|].
  apply list_elem_of_In, filter_In in Hk as [Hk _]. by apply list_elem_of_In.
Qed.

(** The latest known version of a submitted operation. *)
Definition known (rdata : list Job) (o : Job) : Job := find_job (job_id o) rdata |?| o.

Lemma known_id rdata o : job_id (known rdata o) = job_id o.
Proof. unfold known. destruct (find_job (job_id o) rdata) eqn:E; [|done]. by apply find_job_id in E as [? _]. Qed.

(** The invariant of the provider: one entry per operation, and a recorded state for exactly those. *)
Definition tracking (p : provider) : Prop :=
  NoDup (ids (submitted p)) ∧ ∀ id, is_Some (states p !! id) ↔ id ∈ ids (submitted p).

Definition changed (rdata : list Job) (m : gmap string JobState) (o : Job) : bool :=
  negb (bool_decide (m !! job_id o = Some (job_state (known rdata o)))).

Definition seq_of (p : provider) : Z := match notification p with Some n => sequence n | None => 0 end.

Lemma seq_notify j e p : seq_of (notify j e p) = (seq_of p + 1)%Z.
Proof. unfold seq_of, notify, next_sequence. cbn. by destruct (notification p). Qed.

Lemma observe_spec rdata p cs o :
  let '(p', cs') := observe rdata (p, cs) o in
  submitted p' = submitted p ∧
  states p' = <[job_id o := job_state (known rdata o)]> (states p) ∧
  seq_of p' = (seq_of p + if changed rdata (states p) o then 1 else 0)%Z ∧
  cs' = (cs ++ if terminal (job_state (known rdata o)) then [job_id o] else [])%list.
Proof.
  unfold observe, changed. change (find_job (job_id o) rdata |?| o) with (known rdata o). rewrite known_id.
  split_and!.
  - by case_match.
  - case_bool_decide as E; cbn; [|done]. symmetry. by apply insert_id.
  - case_bool_decide; cbn [negb]; [lia|]. by rewrite seq_notify.
  - by case_match; rewrite ?app_nil_r.
Qed.

Definition count {A} (f : A → bool) (l : list A) : Z := Z.of_nat (length (List.filter f l)).

Lemma observe_all rdata l p cs : NoDup (ids l) →
  let '(p', cs') := foldl (observe rdata) (p, cs) l in
  submitted p' = submitted p ∧
  (∀ id, states p' !! id = match find_job id l with Some o => Some (job_state (known rdata o)) | None => states p !! id end) ∧
  seq_of p' = (seq_of p + count (changed rdata (states p)) l)%Z ∧
  cs' = (cs ++ ids (List.filter (λ o, terminal (job_state (known rdata o))) l))%list.
Proof.
  revert p cs. induction l as [|o l IH]; intros p cs Hl; [cbn; split_and!; [done|done|by rewrite Z.add_0_r|by rewrite app_nil_r]|].
  apply NoDup_cons in Hl as [Ho Hl]. cbn [foldl]. pose proof (observe_spec rdata p cs o) as Hob.
  destruct (observe rdata (p, cs) o) as [p1 cs1]. destruct Hob as (H1 & H2 & H3 & H4).
  specialize (IH p1 cs1 Hl). destruct (foldl _ _ l) as [p2 cs2]. destruct IH as (I1 & I2 & I3 & I4). split_and!.
  - congruence.
  - intros id. rewrite I2. unfold find_job at 2. cbn [List.find]. destruct (String.eqb_spec (job_id o) id) as [<-|].
    + change (job_id <$> l) with (ids l) in Ho. apply find_job_none in Ho. rewrite Ho, H2. apply lookup_insert_eq.
    + change (List.find _ l) with (find_job id l). destruct (find_job id l); [done|]. by rewrite H2, lookup_insert_ne.
  - rewrite I3, H3. unfold count. cbn [List.filter].
    rewrite (filter_ext_in' (changed rdata (states p1)) (changed rdata (states p))).
    { destruct (changed rdata (states p) o); cbn [length]; lia. }
    intros x Hx. unfold changed. rewrite H2, lookup_insert_ne; [done|]. intros E. apply Ho. rewrite E.
    apply list_elem_of_fmap. eauto.
  - rewrite I4, H4. cbn [List.filter]. destruct (terminal _); cbn; by rewrite <- app_assoc.
Qed.

Lemma filter_rev {A} (f : A → bool) l : List.filter f (rev l) = rev (List.filter f l).
Proof. induction l as [|x l IH]; [done|]. cbn. rewrite List.filter_app, IH. cbn. case_match; [done|]. by rewrite app_nil_r. Qed.

Lemma NoDup_rev_ids l : NoDup (ids l) → NoDup (ids (rev l)).
Proof.
  unfold ids. intros Hl. change (NoDup (map job_id (rev l))). rewrite map_rev.
  by apply NoDup_ListNoDup, List.NoDup_rev, NoDup_ListNoDup.
Qed.

Lemma find_job_rev id l : NoDup (ids l) → find_job id (rev l) = find_job id l.
Proof.
  intros Hl. destruct (find_job id l) as [j|] eqn:E.
  - apply find_job_id in E as [<- Hj]. apply find_job_in; [by apply NoDup_rev_ids|].
    by apply list_elem_of_In, List.in_rev; rewrite rev_involutive; apply list_elem_of_In.
  - apply find_job_none. apply find_job_none in E. intros Hin. apply E. revert Hin. unfold ids.
    rewrite !list_elem_of_fmap. intros (j & ? & Hj). exists j. split; [done|].
    by apply list_elem_of_In, List.in_rev, list_elem_of_In.
Qed.

Lemma count_rev {A} (f : A → bool) l : count f (rev l) = count f l.
Proof. unfold count. by rewrite filter_rev, length_rev. Qed.

Lemma foldl_delete {A} (m : gmap string A) l id :
  foldl (λ m id, delete id m) m l !! id = if decide (id ∈ l) then None else m !! id.
Proof.
  revert m. induction l as [|x l IH]; intros m; [done|]. cbn [foldl]. rewrite IH.
  destruct (decide (id = x)) as [->|]; repeat case_decide; try set_solver.
  - by rewrite lookup_delete_eq.
  - by rewrite lookup_delete_ne.
Qed.

Definition running_still (rdata : list Job) (o : Job) : bool := negb (terminal (job_state (known rdata o))).

(** The effect, in full. *)
Lemma effect_spec rdata p : tracking p →
  submitted (effect rdata p) = List.filter (running_still rdata) (submitted p) ∧
  (∀ id, states (effect rdata p) !! id =
    (λ o, job_state (known rdata o)) <$> find_job id (submitted (effect rdata p))) ∧
  seq_of (effect rdata p) = (seq_of p + count (changed rdata (states p)) (submitted p))%Z.
Proof.
  intros [Hnd Hst]. unfold effect.
  pose proof (observe_all rdata (rev (submitted p)) p [] (NoDup_rev_ids _ Hnd)) as Ho.
  destruct (foldl (observe rdata) (p, []) (rev (submitted p))) as [p' cs]. destruct Ho as (H1 & H2 & H3 & H4).
  rewrite count_rev in H3. cbn in H4. rewrite filter_rev in H4.
  set (done_ := List.filter (λ o, terminal (job_state (known rdata o))) (submitted p)) in *.
  assert (∀ id, id ∈ cs ↔ ∃ o, o ∈ submitted p ∧ job_id o = id ∧ running_still rdata o = false) as Hcs.
  { intros id. rewrite H4. unfold ids. rewrite list_elem_of_fmap. setoid_rewrite list_elem_of_In.
    setoid_rewrite <- List.in_rev. unfold done_, running_still. setoid_rewrite filter_In. setoid_rewrite negb_false_iff.
    split; intros (o & ? & ?); exists o; naive_solver. }
  assert (∀ o, o ∈ submitted p → job_id o ∈ cs ↔ running_still rdata o = false) as Hcs'.
  { intros o Hin. rewrite Hcs. split; [|eauto]. intros (o' & Hin' & E & Hr). revert Hr.
    assert (o' = o) as ->; [|done]. apply (inj Some).
    rewrite <- (find_job_in _ _ Hnd Hin), <- (find_job_in _ _ Hnd Hin'). by rewrite E. }
  assert (List.filter (λ job, negb (includes_str cs (job_id job))) (submitted p) =
    List.filter (running_still rdata) (submitted p)) as Hfilter.
  { apply filter_ext_in'. intros o Hin. specialize (Hcs' o Hin).
    destruct (includes_str cs (job_id o)) eqn:Ei; unbool; cbn.
    - symmetry. by apply Hcs'.
    - destruct (running_still rdata o); [done|]. exfalso. tauto. }
  assert (∀ id, foldl (λ m id, delete id m) (states p') cs !! id =
    (λ o, job_state (known rdata o)) <$> find_job id (List.filter (running_still rdata) (submitted p))) as Hstates.
  { intros id. rewrite foldl_delete, H2, find_job_rev by done. rewrite <- Hfilter.
    rewrite (find_job_filter (λ i, negb (includes_str cs i))).
    case_decide as E; [by apply includes_str_spec in E as ->|]. apply includes_str_false in E as ->. cbn.
    destruct (find_job id (submitted p)) as [o|] eqn:Ef; [done|]. cbn.
    apply find_job_none in Ef. apply eq_None_not_Some. by rewrite Hst. }
  rewrite <- Hfilter in Hstates |- *. destruct cs as [|c cs].
  - cbn in Hfilter, Hstates |- *. rewrite (filter_true _ (submitted p)) in Hstates |- * by done. rewrite H1.
    split_and!; [done|exact Hstates|done].
  - cbn [submitted states]. rewrite H1. split_and!; [done|exact Hstates|done].
Qed.

Lemma tracking_effect rdata p : tracking p → tracking (effect rdata p).
Proof.
  intros Hp. destruct (effect_spec rdata p Hp) as (H1 & H2 & _). split.
  - rewrite H1. apply ids_filter, Hp.
  - intros id. rewrite H2, fmap_is_Some. rewrite <- not_eq_None_Some, find_job_none. split; [|tauto].
    intros Hn. destruct (decide (id ∈ ids (submitted (effect rdata p)))); [done|tauto].
Qed.

Lemma tracking_trackJob j p : tracking p → tracking (trackJob j p).
Proof.
  intros [Hnd Hst]. unfold trackJob. case_match; [done|]. split; cbn [submitted states notify].
  - cbn. change (list_fmap _ _ job_id ?l) with (ids l). rewrite ids_without. constructor; [|by apply NoDup_filter].
    rewrite list_elem_of_filter. tauto.
  - intros id. cbn. change (list_fmap _ _ job_id ?l) with (ids l). rewrite ids_without.
    rewrite elem_of_cons, list_elem_of_filter, lookup_insert. case_decide as E; [subst; naive_solver|].
    rewrite Hst. naive_solver.
Qed.

(** Nothing to report about the operations [l]. *)
Lemma observe_quiet rdata l p cs :
  (∀ o, o ∈ l → changed rdata (states p) o = false ∧ running_still rdata o = true) →
  foldl (observe rdata) (p, cs) l = (p, cs).
Proof.
  intros Hl. induction l as [|o l IH]; [done|]. cbn [foldl].
  destruct (Hl o) as [Hc Hr]; [by left|]. unfold observe at 2.
  change (find_job (job_id o) rdata |?| o) with (known rdata o). rewrite known_id.
  unfold changed in Hc. apply negb_false_iff in Hc. rewrite Hc. unfold running_still in Hr.
  apply negb_true_iff in Hr. rewrite Hr. apply IH. intros o' ?. apply Hl. by right.
Qed.

(** The last notification of a pass is about an operation that changed. *)
Lemma observe_notification rdata l p cs :
  let p' := (foldl (observe rdata) (p, cs) l).1 in
  notification p' = notification p ∨
  ∃ n o, notification p' = Some n ∧ n_job n = Some (known rdata o) ∧ n_error n = None ∧ o ∈ l.
Proof.
  revert p cs. induction l as [|o l IH]; intros p cs; [by left|]. cbn [foldl].
  destruct (observe rdata (p, cs) o) as [p1 cs1] eqn:E. destruct (IH p1 cs1) as [->|(n & o' & ? & ? & ? & ?)].
  - unfold observe in E. change (find_job (job_id o) rdata |?| o) with (known rdata o) in E.
    injection E as <- _. case_match; [by left|]. right. eexists _, o. cbn. split_and!; [done..|]. by left.
  - right. exists n, o'. split_and!; [done..|]. by right.
Qed.

Lemma effect_notification rdata p :
  notification (effect rdata p) = notification p ∨
  ∃ n o, notification (effect rdata p) = Some n ∧ n_job n = Some (known rdata o) ∧ n_error n = None ∧ o ∈ submitted p.
Proof.
  pose proof (observe_notification rdata (rev (submitted p)) p []) as H. unfold effect.
  destruct (foldl _ _ _) as [p' cs]. cbn in H.
  assert (notification (match cs with [] => p' | _ => mkProvider (List.filter (λ job, negb (includes_str cs (job_id job))) (submitted p')) (notification p') (foldl (λ m id, delete id m) (states p') cs) end) = notification p') as -> by by destruct cs.
  destruct H as [?|(n & o & ? & ? & ? & Ho)]; [by left|]. right. exists n, o. split_and!; [done..|].
  by apply list_elem_of_In, List.in_rev, list_elem_of_In.
Qed.

Lemma find_some_in {A} (f : A → bool) l x : x ∈ l → f x = true → is_Some (List.find f l).
Proof.
  intros Hx Hf. destruct (List.find f l) eqn:E; [done|]. rewrite find_none_iff in E. specialize (E x Hx). congruence.
Qed.

(** ** Properties *)

(** After one pass of the effect over the stream's jobs the provider is settled: it keeps exactly
    the operations that the latest known version does not show finished, with that version's state; the
    number of the notification grew by one for each operation whose state had changed, the last being
    about a submitted operation; and a second pass changes nothing, so the effect, which its own update
    triggers again, comes to rest. *)
Theorem effect_settles (rdata : list Job) (p : provider) : tracking p →
  submitted (effect rdata p) = List.filter (λ o, in_progress (job_state (known rdata o))) (submitted p) ∧
  (∀ id, states (effect rdata p) !! id =
    (λ o, job_state (known rdata o)) <$> find_job id (submitted (effect rdata p))) ∧
  seq_of (effect rdata p) = (seq_of p + count (changed rdata (states p)) (submitted p))%Z ∧
  effect rdata (effect rdata p) = effect rdata p.
Proof.
  intros Hp. destruct (effect_spec rdata p Hp) as (H1 & H2 & H3).
  pose proof (tracking_effect rdata p Hp) as Hp'. split_and!; [|done|done|].
  - rewrite H1. apply filter_ext_in'. intros o _. unfold running_still. by rewrite in_progress_terminal.
  - revert H1 H2 Hp'. generalize (effect rdata p). intros q H1 H2 Hp'. unfold effect.
    rewrite observe_quiet; [done|]. intros o Ho.
    assert (o ∈ submitted q) as Hq by by apply list_elem_of_In, List.in_rev, list_elem_of_In.
    split.
    + unfold changed. rewrite H2, (find_job_in _ _ (proj1 Hp') Hq). by rewrite bool_decide_true.
    + rewrite H1 in Hq. by apply list_elem_of_In, filter_In in Hq as [_ ?].
Qed.

(** The provider's invariant holds whatever operations are submitted, reported and observed: one
    entry per operation, and a remembered state for exactly the operations followed. *)
Theorem tracking_invariant (p : provider) (rdata : list Job) (j : Job) (e : string) : tracking p →
  tracking initial ∧ tracking (trackJob j p) ∧ tracking (reportError e p) ∧ tracking (effect rdata p).
Proof.
  intros Hp. split_and!; [|by apply tracking_trackJob|done|by apply tracking_effect].
  split; [constructor|]. intros id. cbn. rewrite lookup_empty. split; [by intros [? ?]|]. by intros ?%not_elem_of_nil.
Qed.

(** The jobs given to the page: one entry per job, the stream's version when it has one and the
    submitted one otherwise, so that an operation is shown from the moment its request is answered. *)
Theorem provided_jobs (rdata : list Job) (p : provider) : tracking p → NoDup (ids rdata) →
  NoDup (ids (provided rdata p)) ∧
  ∀ id, find_job id (provided rdata p) =
    match find_job id rdata with Some j => Some j | None => find_job id (submitted p) end.
Proof.
  intros [Hnd _] Hr.
  assert (∀ o, existsb (λ item, String.eqb (job_id item) (job_id o)) rdata = true ↔ job_id o ∈ ids rdata) as He.
  { intros o. unfold ids. rewrite existsb_exists, list_elem_of_fmap. setoid_rewrite String.eqb_eq.
    setoid_rewrite list_elem_of_In. naive_solver. }
  split.
  - unfold provided, ids. rewrite fmap_app. change (NoDup (ids (List.filter (λ job, negb (existsb
      (λ item, String.eqb (job_id item) (job_id job)) rdata)) (submitted p)) ++ ids rdata)).
    apply NoDup_app. split_and!; [by apply ids_filter| |done].
    unfold ids at 1. intros id (o & -> & Ho)%list_elem_of_fmap.
    apply list_elem_of_In, filter_In in Ho as [_ Ho]. rewrite negb_true_iff in Ho. intros Hin.
    apply He in Hin. congruence.
  - intros id. unfold provided. rewrite find_job_app.
    rewrite (find_job_filter (λ i, negb (existsb (λ item, String.eqb (job_id item) i) rdata))).
    destruct (find_job id rdata) as [j|] eqn:E.
    + apply find_job_id in E as [<- Hj].
      assert (existsb (λ item, String.eqb (job_id item) (job_id j)) rdata = true) as ->; [|done].
      apply He. unfold ids. apply list_elem_of_fmap. eauto.
    + assert (existsb (λ item, String.eqb (job_id item) id) rdata = false) as ->; [|by destruct (find_job id (submitted p))].
      apply find_job_none in E. apply not_true_iff_false. rewrite existsb_exists. intros (j & Hj & <-%String.eqb_eq).
      apply E. unfold ids. apply list_elem_of_fmap. exists j. by rewrite list_elem_of_In.
Qed.

(** A row is busy exactly while its request is being answered, while some operation of its kind on
    its resource is queued or running, or while the operation it submitted is, in its latest known
    version: there is no gap between the answer to the request and the news of the stream. *)
Theorem row_busy_iff (id name scope : string) (jobs : list Job) (s : row_state) :
  row_busy id name scope jobs s = true ↔
  submitting s ≠ "" ∨
  (∃ j, j ∈ jobs ∧ starts_with (scope ++ ".") (job_action j) = true ∧ job_action j ≠ "vm.screenshot" ∧
    (job_target j = id ∨ job_target j = name) ∧ in_progress (job_state j) = true) ∨
  (∃ j, row_submitted s = Some j ∧ in_progress (job_state (known jobs j)) = true).
Proof.
  unfold row_busy. rewrite orb_true_iff, truthy_true. apply or_iff_compat_l. unfold row_job.
  destruct (row_active id name scope jobs) as [j|] eqn:Ea.
  - apply find_some_iff in Ea as [Hin Hj]. split; [|intros _].
    + intros _. left. exists j. unbool. split_and!; try done.
    + unbool. done.
  - unfold row_active in Ea. rewrite find_none_iff in Ea. split.
    + intros Ht. right. unfold row_tracked in Ht. destruct (row_submitted s) as [j|]; [|done]. by exists j.
    + intros [(j & Hin & Hs & Hn & Ht & Hp)|(j & E & Hp)].
      * specialize (Ea j Hin). rewrite Hs, Hp, (proj2 (String.eqb_neq _ _) Hn) in Ea. cbn in Ea.
        rewrite andb_true_r, orb_false_iff, !String.eqb_neq in Ea. naive_solver.
      * unfold row_tracked. rewrite E. done.
Qed.

(** ** Witnesses *)

Definition sample_provider : provider := trackJob (sample_job "a" Pending) initial.

Lemma initial_tracking : tracking initial.
Proof. split; [constructor|]. intros id. cbn. rewrite lookup_empty. split; [by intros [? ?]|]. by intros ?%not_elem_of_nil. Qed.
Lemma sample_provider_tracking : tracking sample_provider.
Proof. apply tracking_trackJob, initial_tracking. Qed.

Lemma effect_settles_witness : submitted (effect [sample_job "a" Succeeded] sample_provider) = [].
Proof.
  rewrite (proj1 (effect_settles [sample_job "a" Succeeded] sample_provider sample_provider_tracking)). reflexivity.
Defined.
Lemma tracking_invariant_witness : tracking (trackJob (sample_job "b" Failed) initial).
Proof. exact (proj1 (proj2 (tracking_invariant initial [] (sample_job "b" Failed) "" initial_tracking))). Defined.
Lemma provided_jobs_witness : NoDup (ids (provided [sample_job "a" Running] sample_provider)).
Proof.
  apply (provided_jobs [sample_job "a" Running] sample_provider sample_provider_tracking).
  cbn. apply NoDup_singleton.
Defined.
