(* ===== verification/UseDraft.v ===== *)
(** * Drafts of forms ([src/web/src/hooks/useDraft.ts])

    A draft is the edited value with the serialised saved value it started from; it survives a reload
    in the session storage. The type of the value is a parameter with the two laws of [JSON] that the
    hook relies on. *)

From S2P Require Import Prelude JsString Json.
Local Open Scope string_scope.

(** What the hook uses of [JSON.stringify] and [JSON.parse] on its values and on its states. Decoding a
    state fails where [JSON.parse] throws and where the state lacks a string [base] or a field of the
    value; a stored value of other types than the form's, which only other code could leave there, has
    no counterpart. *)
Class Draftable (T : Type) := {
  stringify : T → string;
  parse : string → option T;
  stringify_state : string * T → string;
  parse_state : string → option (string * T);
  parse_stringify v : parse (stringify v) = Some v;
  parse_stringify_state s : parse_state (stringify_state s) = Some s;
  stringify_state_truthy s : stringify_state s ≠ ""
}.

Section draft.
Context {T : Type} `{!Draftable T}.

Global Instance stringify_inj : Inj (=) (=) (@stringify T _).
Proof. intros v w E. apply (inj Some). by rewrite <- !parse_stringify, E. Qed.

Record draft := mkDraft { base : string; value : T }.

(** The session storage; [None] when it is disabled and every access throws. *)
Definition storage := option (gmap string string).

(** The initial state of the hook. *)
Definition draft_init (key : string) (v : T) (st : storage) : draft :=
  let persisted := stringify v in
  match st ≫= λ m, m !! key with
  | Some text =>
      match (if truthy text then parse_state text else None) with
      | Some (b, saved) => mkDraft b saved
      | None => mkDraft persisted v
      end
  | None => mkDraft persisted v
  end.

Section persisted.
(** The saved value of the current render. *)
Context (saved : T).

Definition persisted : string := stringify saved.

Definition dirty (d : draft) : bool := negb (String.eqb (stringify (value d)) persisted).
Definition conflict (d : draft) : bool := dirty d && negb (String.eqb (base d) persisted).

(** The first effect. [JSON.parse(persisted)] is the value it was made from. *)
Definition rebased : draft := mkDraft persisted (default saved (parse persisted)).
Definition rebase (d : draft) : draft :=
  if (String.eqb (stringify (value d)) (base d) || String.eqb (stringify (value d)) persisted)
     && negb (String.eqb (base d) persisted)
  then rebased else d.

(** The second effect. *)
Definition store (key : string) (d : draft) (st : storage) : storage :=
  (λ m, if dirty d then <[key := stringify_state (base d, value d)]> m else delete key m) <$> st.

Definition set_value (next : T) (d : draft) : draft := mkDraft (base d) next.
Definition discard : draft := rebased.
End persisted.

(** What happens to a mounted form: the page saves or reloads a value, or the user edits. Each is
    followed by the effects, the first one until it leaves the state alone. *)
Inductive event := Saved (v : T) | Edit (v : T) | Discard.

Record form := mkForm { current : T; state : draft; stored : storage }.

Definition settle_form (key : string) (f : form) : form :=
  let d := rebase (current f) (state f) in
  mkForm (current f) d (store (current f) key d (stored f)).

Definition open_form (key : string) (v : T) (st : storage) : form :=
  settle_form key (mkForm v (draft_init key v st) st).

Definition step (key : string) (f : form) (e : event) : form :=
  settle_form key
    match e with
    | Saved v => mkForm v (state f) (stored f)
    | Edit v => mkForm (current f) (set_value v (state f)) (stored f)
    | Discard => mkForm (current f) (discard (current f)) (stored f)
    end.

(** ** Lemmas *)

Lemma rebased_eq v : rebased v = mkDraft (stringify v) v.
Proof. unfold rebased, persisted. by rewrite parse_stringify. Qed.

(** A settled draft started from the saved value, or conflicts with it. *)
Definition settled (v : T) (d : draft) : Prop :=
  base d = stringify v ∨ base d ≠ stringify v ∧ value d ≠ v ∧ stringify (value d) ≠ base d.

Lemma rebase_settled v d : settled v (rebase v d).
Proof.
  unfold rebase, settled, persisted. case_match; unbool; [by left|].
  destruct (decide (base d = stringify v)); [by left|]. right.
  split_and!; [done| |]; intros E; destruct_or!; unbool; congruence.
Qed.

Lemma settled_rebase v d : settled v d → rebase v d = d.
Proof.
  unfold rebase, settled, persisted. intros [E|(Hb & Hv & Hvb)].
  - rewrite (proj2 (String.eqb_eq (base d) _)) by done. by rewrite andb_false_r.
  - rewrite (proj2 (String.eqb_neq (stringify (value d)) (base d))) by done.
    rewrite (proj2 (String.eqb_neq (stringify (value d)) (stringify v))); [done|].
    by intros ?%(inj stringify).
Qed.

Lemma dirty_spec v d : dirty v d = true ↔ value d ≠ v.
Proof.
  unfold dirty, persisted. rewrite negb_true_iff, String.eqb_neq. split.
  - intros Hn E. apply Hn. by rewrite E.
  - by intros ? ?%(inj stringify).
Qed.

Lemma dirty_false v d : dirty v d = false ↔ value d = v.
Proof.
  unfold dirty, persisted. rewrite negb_false_iff, String.eqb_eq. split; [by intros ?%(inj stringify)|by intros ->].
Qed.

(** ** Properties *)

(** One pass of the effects settles a form: another pass changes nothing, the value is kept unless
    the user has not edited it or the page now has it, a draft that is not in conflict is based on the
    saved value, and a draft is stored, in full, exactly while it differs from the saved value. *)
Theorem settle_form_spec (key : string) (f : form) (m : gmap string string) : stored f = Some m →
  let f' := settle_form key f in
  settle_form key f' = f' ∧
  (conflict (current f') (state f') = false → base (state f') = stringify (current f')) ∧
  (value (state f') = value (state f) ∨
    value (state f') = current f ∧ stringify (value (state f)) = base (state f)) ∧
  stored f' = Some (if dirty (current f') (state f')
                    then <[key := stringify_state (base (state f'), value (state f'))]> m
                    else delete key m).
Proof.
  intros Hm. cbn zeta. unfold settle_form. cbn [current state stored]. rewrite Hm.
  pose proof (rebase_settled (current f) (state f)) as Hs. split_and!.
  - rewrite (settled_rebase _ _ Hs). f_equal. unfold store. cbn. f_equal.
    case_match; [apply insert_insert_eq|apply delete_delete_eq].
  - unfold conflict, persisted. intros Hc%andb_false_iff. destruct Hs as [?|(Hb & Hv & _)]; [done|].
    destruct Hc as [Hc|Hc]; [|by apply negb_false_iff, String.eqb_eq in Hc].
    apply dirty_spec in Hv. congruence.
  - unfold rebase. case_match; [|by left]. rewrite rebased_eq. cbn. unfold persisted in *. unbool.
    destruct_or!; [by right|]. left. symmetry. by apply (inj stringify).
  - unfold store. cbn. by case_match.
Qed.

(** A reload loses nothing: reopening the form with the saved value of the moment, from what the
    form left in the storage, gives the same value, and the same [dirty] and [conflict]. *)
Theorem reload_keeps_draft (key : string) (f : form) (m : gmap string string) : stored f = Some m →
  let f' := settle_form key f in
  let f'' := open_form key (current f') (stored f') in
  value (state f'') = value (state f') ∧ dirty (current f'') (state f'') = dirty (current f') (state f') ∧
  conflict (current f'') (state f'') = conflict (current f') (state f').
Proof.
  intros Hm. cbn zeta. pose proof (settle_form_spec key f m Hm) as (_ & Hc & _ & Hst).
  pose proof (rebase_settled (current f) (state f)) as Hs.
  change (rebase (current f) (state f)) with (state (settle_form key f)) in Hs.
  change (current f) with (current (settle_form key f)) in Hs.
  revert Hc Hst Hs. generalize (settle_form key f). intros f' Hc Hst Hs.
  unfold open_form, settle_form. cbn [current state stored].
  assert (draft_init key (current f') (stored f') =
    if dirty (current f') (state f') then state f' else mkDraft (stringify (current f')) (current f')) as ->.
  { unfold draft_init. rewrite Hst. cbn. destruct (dirty (current f') (state f')).
    - rewrite lookup_insert_eq. rewrite (proj2 (truthy_true _) (stringify_state_truthy _)), parse_stringify_state.
      by destruct (state f').
    - by rewrite lookup_delete_eq. }
  destruct (dirty (current f') (state f')) eqn:Hd.
  - rewrite (settled_rebase _ _ Hs). done.
  - assert (value (state f') = current f') as Hv.
    { by apply dirty_false. }
    rewrite settled_rebase by by left. cbn. split_and!; [done| |].
    + unfold dirty, persisted. cbn. by rewrite String.eqb_refl.
    + unfold conflict, dirty, persisted. cbn. rewrite Hv. by rewrite String.eqb_refl.
Qed.

(** What a change of the saved value does to a settled draft: an unedited draft follows it; an
    edited one that the new value equals, as after saving it, is clean again; any other edited draft
    keeps its value, and conflicts unless the new value is the one it was based on. *)
Theorem saved_value_changes (key : string) (f : form) (v : T) : settled (current f) (state f) →
  let d := state f in
  let d' := state (step key f (Saved v)) in
  (value d = current f ∨ value d = v → d' = mkDraft (stringify v) v ∧ dirty v d' = false) ∧
  (value d ≠ current f → value d ≠ v →
    d' = d ∧ dirty v d' = true ∧ conflict v d' = negb (String.eqb (base d) (stringify v))).
Proof.
  intros Hs. cbn zeta. unfold step, settle_form. cbn [current state stored].
  generalize dependent (state f). intros [b x] Hs. cbn in *. unfold rebase, persisted. cbn.
  assert (dirty v (mkDraft (stringify v) v) = false) as Hclean
    by (unfold dirty, persisted; cbn; by rewrite String.eqb_refl).
  split.
  - intros Hx. assert ((String.eqb (stringify x) b || String.eqb (stringify x) (stringify v)) = true ∨ b = stringify v ∧ x = v) as Ho.
    { destruct Hx as [-> | ->].
      - destruct Hs as [Hb|(_ & ? & _)]; [|done]. cbn in Hb. subst b. left. by rewrite String.eqb_refl.
      - left. by rewrite String.eqb_refl, orb_true_r. }
    destruct Ho as [-> | [-> ->]]; [|by rewrite String.eqb_refl, !andb_false_r].
    destruct (String.eqb_spec b (stringify v)) as [->|]; cbn.
    + assert (x = v) as ->; [|done]. destruct Hx as [->|]; [|done].
      destruct Hs as [Hb|(_ & ? & _)]; [|done]. by apply (inj stringify).
    + by rewrite rebased_eq.
  - intros Hxc Hxv. assert (stringify x ≠ b) as Hxb.
    { destruct Hs as [Hb|(_ & _ & ?)]; [|done]. cbn in Hb. intros E. apply Hxc, (inj stringify). congruence. }
    rewrite (proj2 (String.eqb_neq (stringify x) b)) by done.
    rewrite (proj2 (String.eqb_neq (stringify x) (stringify v))) by by intros ?%(inj stringify).
    cbn. assert (dirty v (mkDraft b x) = true) as Hd by by apply dirty_spec. split_and!; [done|done|].
    unfold conflict. by rewrite Hd.
Qed.
End draft.

(** ** The instance of the forms

    A value of JSON fields is stored as its JSON, and a state as the object of its two fields. *)

#[export] Program Instance json_draftable (T : Type) `{!JsonCodec T} : Draftable T := {|
  stringify v := Json.stringify (to_json v);
  parse s := Json.parse s ≫= from_json;
  stringify_state s := Json.stringify (JObj [("base", JStr s.1); ("value", to_json s.2)]);
  parse_state s := j ← Json.parse s; b ← decode_field "base" j; v ← decode_field "value" j; Some (b, v)
|}.
Next Obligation. intros. cbn. rewrite Json.parse_stringify. cbn. apply from_to_json. Qed.
Next Obligation.
  intros T HT [b v]. cbn [fst snd]. rewrite Json.parse_stringify. cbn [mbind option_bind].
  assert (NoDup [("base", JStr b); ("value", to_json v)].*1) as Hn by (apply (bool_decide_unpack _); by vm_compute).
  rewrite (decode_field_in "base" b) by (done || by left). cbn [mbind option_bind].
  rewrite (decode_field_in "value" v) by (done || by right; left). done.
Qed.
Next Obligation. done. Qed.

Definition sample_form : form (T:=string) := open_form "maco:draft:vm1" "2 GiB" (Some ∅).
Definition edited_form : form (T:=string) := mkForm "2 GiB" (mkDraft (stringify "2 GiB") "4 GiB") (Some ∅).

Lemma settle_form_spec_witness : base (state (settle_form "k" sample_form)) = stringify "2 GiB".
Proof.
  refine (proj1 (proj2 (settle_form_spec "k" sample_form ∅ _)) _); [reflexivity|vm_compute; reflexivity].
Defined.
Lemma reload_keeps_draft_witness :
  let f' := settle_form "k" edited_form in
  value (state f') = "4 GiB" ∧ value (state (open_form "k" (current f') (stored f'))) = value (state f').
Proof.
  split; [vm_compute; reflexivity|].
  refine (proj1 (reload_keeps_draft "k" edited_form ∅ _)). reflexivity.
Defined.
Lemma saved_value_changes_witness :
  state (step "k" edited_form (Saved "8 GiB")) = mkDraft (stringify "2 GiB") "4 GiB".
Proof.
  refine (proj1 (proj2 (saved_value_changes "k" edited_form "8 GiB" _) _ _)); [by left|discriminate|discriminate].
Defined.
