(* ===== verification/Dom.v ===== *)
(** * What a component renders

    The JSX of a component is a tree of elements. A control carries the action its handler performs,
    so that a component is a state, a step function over its actions and the answers of the server, and
    a view; the actions a user can perform in a state are those its view offers. Styles, icons and
    other attributes without behaviour are left out. *)

From S2P Require Import Prelude JsString.
Local Open Scope string_scope.

Inductive node (A : Type) :=
  | Text (s : string)
  | El (tag : string) (attrs : list (string * string)) (disabled : bool) (on : list A) (children : list (node A)).
Arguments Text {A}.
Arguments El {A}.

(** An element without handler. *)
Definition box {A} (tag : string) (children : list (node A)) : node A := El tag [] false [] children.
(** A paragraph, a badge, a heading. *)
Definition label {A} (tag text : string) : node A := box tag [Text text].
(** A button with its text or [aria-label]. *)
Definition button {A} (name : string) (disabled : bool) (a : A) : node A :=
  El "button" [("name", name)] disabled [a] [Text name].
(** [cond && <Element />] *)
Definition when {A} (b : bool) (n : list (node A)) : list (node A) := if b then n else [].

(** The actions of the controls that are enabled, with all the elements around them. *)
Fixpoint offers {A} (n : node A) : list A :=
  match n with
  | Text _ => []
  | El _ _ disabled on children => if disabled then [] else on ++ flat_map offers children
  end%list.

(** The text on the page. *)
Fixpoint texts {A} (n : node A) : list string :=
  match n with
  | Text s => [s]
  | El _ _ _ _ children => flat_map texts children
  end.

Fixpoint map_node {A B} (f : A → B) (n : node A) : node B :=
  match n with
  | Text s => Text s
  | El tag attrs disabled on children => El tag attrs disabled (f <$> on) (map (map_node f) children)
  end.

(** ** Lemmas *)

Lemma node_rect' {A} (P : node A → Prop) :
  (∀ s, P (Text s)) → (∀ tag attrs d on cs, Forall P cs → P (El tag attrs d on cs)) → ∀ n, P n.
Proof.
  intros Ht He. fix IH 1. intros [s|tag attrs d on cs]; [apply Ht|]. apply He.
  induction cs as [|c cs IHcs]; constructor; [apply IH|exact IHcs].
Qed.

Lemma elem_of_flat_map {A B} (f : A → list B) (l : list A) b : b ∈ flat_map f l ↔ ∃ a, a ∈ l ∧ b ∈ f a.
Proof. rewrite list_elem_of_In, in_flat_map. setoid_rewrite list_elem_of_In. done. Qed.

(** The actions of an enabled element, and of a disabled one. *)
Lemma elem_of_offers {A} (a : A) tag attrs d on cs :
  a ∈ offers (El tag attrs d on cs) ↔ d = false ∧ (a ∈ on ∨ ∃ c, c ∈ cs ∧ a ∈ offers c).
Proof.
  cbn. destruct d; [split; [by intros ?%not_elem_of_nil|by intros [? _]]|].
  rewrite elem_of_app, elem_of_flat_map. split; [by intros ?|by intros [_ ?]].
Qed.

Lemma offers_button {A} (a b : A) name d : a ∈ offers (button name d b) ↔ d = false ∧ a = b.
Proof.
  unfold button. rewrite elem_of_offers, list_elem_of_singleton. split; [|by intros [? ?]; auto].
  intros [? [?|(c & ->%list_elem_of_singleton & ?%not_elem_of_nil)]]; done.
Qed.

Lemma offers_label {A} (a : A) tag t : a ∈ offers (label tag t) ↔ False.
Proof. cbn. set_solver. Qed.

Lemma elem_of_when {A} (n : node A) b l : n ∈ when b l ↔ b = true ∧ n ∈ l.
Proof. destruct b; cbn; set_solver. Qed.

Lemma offers_map {A B} (f : A → B) n : offers (map_node f n) = f <$> offers n.
Proof.
  induction n as [s|tag attrs d on cs IH] using node_rect'; [done|]. cbn. destruct d; [done|].
  rewrite fmap_app. f_equal. induction IH as [|c cs Hc _ IHcs]; [done|]. cbn. by rewrite Hc, IHcs, fmap_app.
Qed.

(** An action of a list of elements. *)
Lemma offers_box {A} (a : A) tag cs : a ∈ offers (box tag cs) ↔ a ∈ flat_map offers cs.
Proof. done. Qed.

Lemma flat_map_when {A B} (f : node A → list B) b l : flat_map f (when b l) = if b then flat_map f l else [].
Proof. by destruct b. Qed.

#[export] Hint Rewrite @elem_of_offers @offers_button @offers_label @elem_of_when @elem_of_flat_map @offers_box : dom.
