(* ===== verification/Widgets.v ===== *)
(** * Shared widgets, and what users can do

    The notices of [src/web/src/components] ([ResourceNotice], [ActionStatus], [JobNotice]), the buttons
    of [ActionButton.tsx], the confirmation dialogs of the component library, and the runs in which users
    act only through the controls a component offers. *)

From S2P Require Import Prelude JsString Types Ux UseResource Dom.
Local Open Scope string_scope.

(** ** Notices *)

(** [ResourceNotice] *)
Definition ResourceNotice {A D} (resource : @UseResource.view D) (name : string) (retry : A) : list (node A) :=
  if UseResource.loading resource then [label "div" ("Loading " ++ name ++ "…")]
  else if negb (truthy (UseResource.error resource)) then []
  else [box "NoticeBanner" [label "p" ("Couldn’t refresh " ++ name ++ ". Previously loaded information may be out of date.");
                            button "Retry" false retry; label "details" (UseResource.error resource)]].

(** [ActionStatus] *)
Definition ActionStatus {A} (job : option Job) (error : string) (hideProgress : bool) : list (node A) :=
  let failure := error ||s (match job with Some j => if decide (job_state j = Failed) then job_error j |?| "" else "" | None => "" end) in
  (match job with
   | Some j => when (negb hideProgress)
       [label "a" (activityName j ++ " · " ++ activityState j ++ " · View Details")]
   | None => []
   end ++ when (truthy failure) [label "NoticeBanner" failure])%list.

(** [JobNotice] *)
Definition JobNotice {A} (error : string) : list (node A) := when (truthy error) [label "NoticeBanner" error].

(** [ActionButton] *)
Definition ActionButton {A} (name : string) (disabled busy : bool) (a : A) : node A := button name (disabled || busy) a.

Lemma notice_offers {A D} (r : @UseResource.view D) name (retry a : A) :
  a ∈ flat_map offers (ResourceNotice r name retry) → a = retry.
Proof.
  unfold ResourceNotice. destruct (UseResource.loading r); [cbn; set_solver|]. destruct (negb (truthy (UseResource.error r))); cbn; set_solver.
Qed.

Lemma status_offers {A} job e hide : flat_map (offers (A:=A)) (ActionStatus job e hide) = [].
Proof. unfold ActionStatus. rewrite flat_map_app. destruct job as [j|], hide; rewrite ?flat_map_when; cbn; by destruct (truthy _). Qed.

Lemma job_notice_offers {A} e : flat_map (offers (A:=A)) (JobNotice e) = [].
Proof. unfold JobNotice. rewrite flat_map_when. by destruct (truthy e). Qed.

(** ** Confirmation dialogs

    [AlertDialog] belongs to the component library. The console relies on this of it: closed it offers
    nothing; open it offers its two answers, the confirmation only while it is not busy. *)

Record alert_props (A : Type) := mkAlert {
  alert_open : bool;
  alert_busy : bool;
  alert_title : string;
  alert_description : string;
  alert_confirmLabel : string;
  onCancel : A;
  onConfirm : A
}.
Arguments mkAlert {A}.
Arguments alert_open {A}. Arguments alert_busy {A}. Arguments alert_title {A}. Arguments alert_description {A}.
Arguments alert_confirmLabel {A}. Arguments onCancel {A}. Arguments onConfirm {A}.

Class AlertDialogs := {
  AlertDialog : ∀ {A}, alert_props A → list (node A);
  alert_offers : ∀ A (p : alert_props A) a, a ∈ flat_map offers (AlertDialog p) →
    alert_open p = true ∧ (a = onCancel p ∨ alert_busy p = false ∧ a = onConfirm p);
  alert_answers : ∀ A (p : alert_props A), alert_open p = true → alert_busy p = false →
    onCancel p ∈ flat_map offers (AlertDialog p) ∧ onConfirm p ∈ flat_map offers (AlertDialog p)
}.

(** A dialog of two buttons. *)
Definition plain_dialog {A} (p : alert_props A) : list (node A) :=
  when (alert_open p)
    [box "dialog" [label "h2" (alert_title p); label "p" (alert_description p);
                   button "Cancel" (alert_busy p) (onCancel p); button (alert_confirmLabel p) (alert_busy p) (onConfirm p)]].

Lemma plain_dialog_offers {A} (p : alert_props A) a : a ∈ flat_map offers (plain_dialog p) ↔
  alert_open p = true ∧ alert_busy p = false ∧ (a = onCancel p ∨ a = onConfirm p).
Proof. unfold plain_dialog. destruct (alert_open p), (alert_busy p); cbn; set_solver. Qed.

#[refine] Definition plain_dialogs : AlertDialogs := {| AlertDialog A := plain_dialog |}.
Proof.
  - intros A p a (H1 & H2 & H3)%plain_dialog_offers. tauto.
  - intros A p H1 H2. rewrite !plain_dialog_offers. tauto.
Defined.

(** ** What a rendered tree offers, piece by piece *)

Lemma offers_el {A} (a : A) tag attrs d on cs :
  a ∈ offers (El tag attrs d on cs) → d = false ∧ (a ∈ on ∨ a ∈ flat_map offers cs).
Proof. rewrite elem_of_offers, elem_of_flat_map. done. Qed.
Lemma offers_cons {A} (a : A) n l : a ∈ flat_map offers (n :: l) → a ∈ offers n ∨ a ∈ flat_map offers l.
Proof. cbn. by rewrite elem_of_app. Qed.
Lemma offers_app {A} (a : A) l k : a ∈ flat_map offers (l ++ k)%list → a ∈ flat_map offers l ∨ a ∈ flat_map offers k.
Proof. by rewrite flat_map_app, elem_of_app. Qed.
Lemma offers_when {A} (a : A) b l : a ∈ flat_map offers (when b l) → b = true ∧ a ∈ flat_map offers l.
Proof. rewrite flat_map_when. destruct b; [done|by intros ?%not_elem_of_nil]. Qed.
Lemma offers_fmap {A X} (f : X → node A) l a : a ∈ flat_map offers (f <$> l) → ∃ x, x ∈ l ∧ a ∈ offers (f x).
Proof. rewrite elem_of_flat_map. intros (n & (x & -> & Hx)%list_elem_of_fmap & Ha). by exists x. Qed.
Lemma offers_imap {A X} (f : nat → X → node A) l a : a ∈ flat_map offers (imap f l) → ∃ i x, x ∈ l ∧ a ∈ offers (f i x).
Proof.
  rewrite elem_of_flat_map. intros (n & (i & x & -> & Hx)%elem_of_lookup_imap & Ha). exists i, x. split; [|done]. by eapply list_elem_of_lookup_2.
Qed.

(** [offered H] takes [H : a ∈ offers n] apart: one goal for each control of [n] that may offer [a], with the
    conditions under which it does and [H : a = _]. Lists of controls made from data stop it. *)
Ltac offered H :=
  lazymatch type of H with
  | _ ∈ [] => exfalso; exact (not_elem_of_nil _ H)
  | _ ∈ [_] => apply list_elem_of_singleton in H
  | _ ∈ _ :: _ => apply elem_of_cons in H as [H|H]; [|offered H]
  | _ ∈ flat_map offers [] => exfalso; exact (not_elem_of_nil _ H)
  | _ ∈ flat_map offers (_ :: _) => apply offers_cons in H as [H|H]; offered H
  | _ ∈ flat_map offers (_ ++ _)%list => apply offers_app in H as [H|H]; offered H
  | _ ∈ flat_map offers (when _ _) => let Hb := fresh "Hwhen" in apply offers_when in H as [Hb H]; offered H
  | _ ∈ flat_map offers (ActionStatus _ _ _) => rewrite status_offers in H; offered H
  | _ ∈ flat_map offers (JobNotice _) => rewrite job_notice_offers in H; offered H
  | _ ∈ flat_map offers (ResourceNotice _ _ _) => apply notice_offers in H
  | _ ∈ flat_map offers (AlertDialog _) =>
      let Ho := fresh "Hopen" in let Hb := fresh "Hidle" in
      apply alert_offers in H as [Ho [H|[Hb H]]]; [|cbn in Hb]; cbn in H, Ho
  | _ ∈ flat_map offers (match ?x with _ => _ end) => destruct x eqn:?; offered H
  | _ ∈ offers (match ?x with _ => _ end) => destruct x eqn:?; offered H
  | _ ∈ offers (button _ _ _) => let Hd := fresh "Hon" in apply offers_button in H as [Hd H]
  | _ ∈ offers (label _ _) => apply offers_label in H; destruct H
  | _ ∈ offers (ActionButton _ _ _ _) => unfold ActionButton in H; offered H
  | _ ∈ offers (box _ _) => apply -> @offers_box in H; offered H
  | _ ∈ offers (Text _) => exfalso; exact (not_elem_of_nil _ H)
  | _ ∈ offers (El _ _ _ _ _) => let Hd := fresh "Hon" in apply offers_el in H as [Hd [H|H]]; offered H
  | _ => idtac
  end.

(** ** Runs of a component whose user acts through its controls *)

Local Open Scope list_scope.

Lemma prefix_of_snoc {A} (k l : list A) x : k `prefix_of` l ++ [x] → k `prefix_of` l ∨ k = l ++ [x].
Proof.
  intros [r Hr]. destruct r as [|y r _] using rev_ind; [right; by rewrite app_nil_r in Hr|].
  rewrite app_assoc in Hr. apply app_inj_tail in Hr as [-> ->]. left. by exists r.
Qed.

Section legal.
Context {S A E O : Type} (step : S → E → S * list O) (view : S → node A) (user : E → option A).

(** Each action of the user is one that the view offers when it happens. *)
Fixpoint legal (s : S) (es : list E) : Prop :=
  match es with
  | [] => True
  | e :: es => (∀ a, user e = Some a → a ∈ offers (view s)) ∧ legal (step s e).1 es
  end.

(** The same, computed. *)
Fixpoint legalb `{!EqDecision A} (s : S) (es : list E) : bool :=
  match es with
  | [] => true
  | e :: es =>
      match user e with Some a => bool_decide (a ∈ offers (view s)) | None => true end && legalb (step s e).1 es
  end.

Lemma legalb_ok `{!EqDecision A} s es : legalb s es = true → legal s es.
Proof.
  revert s. induction es as [|e es IH]; intros s; [done|]. cbn. intros [H1 H2]%andb_true_iff. split; [|by apply IH].
  intros a Ha. rewrite Ha in H1. by apply bool_decide_eq_true in H1.
Qed.

Lemma legal_app s es1 es2 : legal s (es1 ++ es2) ↔ legal s es1 ∧ legal (run step s es1).1 es2.
Proof.
  revert s. induction es1 as [|e es1 IH]; intros s; cbn; [tauto|]. rewrite IH.
  destruct (step s e) as [s' o]; cbn. destruct (run step s' es1) as [s1 o1]; cbn. tauto.
Qed.

Lemma run_snoc s es e : (run step s (es ++ [e])).1 = (step (run step s es).1 e).1.
Proof. rewrite run_app. destruct (run step s es) as [s' o]; cbn. by destruct (step s' e). Qed.

(** What holds at first and is kept by every event the user may cause holds after every legal run. The
    invariant may speak of the history. *)
Lemma legal_history (I : list E → S → Prop) init : I [] init →
  (∀ es s e, I es s → (∀ a, user e = Some a → a ∈ offers (view s)) → I (es ++ [e]) (step s e).1) →
  ∀ es, legal init es → I es (run step init es).1.
Proof.
  intros H0 Hs es. induction es as [|e es IH] using rev_ind; intros Hl; [done|].
  apply legal_app in Hl as [Hl [He _]]. rewrite run_snoc. by apply Hs; [apply IH|].
Qed.

Lemma legal_invariant (I : S → Prop) init : I init →
  (∀ s e, I s → (∀ a, user e = Some a → a ∈ offers (view s)) → I (step s e).1) →
  ∀ es, legal init es → I (run step init es).1.
Proof. intros H0 Hs. by apply (legal_history (λ _, I)). Qed.

(** When [Q] holds at the end of a legal run that began without it, an event turned it on, and it has held
    ever since. [T] is what is known of such an event and of the state it happened in. *)
Lemma legal_since (Q : S → Prop) `{!∀ s, Decision (Q s)} (T : S → E → Prop) init : ¬ Q init →
  (∀ s e, (∀ a, user e = Some a → a ∈ offers (view s)) → ¬ Q s → Q (step s e).1 → T s e) →
  ∀ es, legal init es → Q (run step init es).1 →
  ∃ es1 e es2, es = es1 ++ e :: es2 ∧ T (run step init es1).1 e ∧
    ∀ es3, es3 `prefix_of` es2 → Q (run step init (es1 ++ e :: es3)).1.
Proof.
  intros H0 HT es. induction es as [|e es IH] using rev_ind; intros Hl HQ; [done|].
  apply legal_app in Hl as [Hl [He _]]. rewrite run_snoc in HQ. destruct (decide (Q (run step init es).1)) as [Hes|Hes].
  - destruct (IH Hl Hes) as (es1 & e1 & es2 & -> & Ht & Hq). exists es1, e1, (es2 ++ [e]). split_and!; [by rewrite <- app_assoc|done|].
    intros es3 Hp. destruct (prefix_of_snoc es3 es2 e Hp) as [?| ->]; [auto|].
    change (es1 ++ e1 :: es2 ++ [e]) with (es1 ++ (e1 :: es2) ++ [e]). rewrite app_assoc, run_snoc. done.
  - exists es, e, []. split_and!; [done|by apply HT|]. intros es3 ->%prefix_nil_inv. by rewrite run_snoc.
Qed.
End legal.

(** A concrete run is legal by computation. *)
Ltac legal_run := refine (legalb_ok _ _ _ _ _ _); vm_compute; reflexivity.
