(* ===== verification/RowComponent.v ===== *)
(** * Components that act through a row

    Most panels of a machine or a network are built alike: properties from their page, a local state of
    dialogs and fields, and requests made one at a time with [execute] of [useRowAction], each with a
    continuation that runs if a job comes back. A [component] is what such a panel adds to that; its
    [step] is what the panels share, and so are the theorems of this file. *)

From S2P Require Import Prelude JsString Types JobTracking Dom Widgets.

(** What [useRowAction] gives to a render. *)
Record row_view := mkRowView { rv_busy : bool; rv_action : string; rv_job : option Job; rv_error : string }.

Section component.
(** Properties, local state, actions of the user, other events, continuations and requests. *)
Context {P L A B K R : Type}.

(** A handler changes the local state, with requests that are not the row's; or executes one request of
    the row under the name of an activity. *)
Inductive outcome := Do (l : L) (rs : list R) | Execute (name : string) (k : K) (r : R).

Record component := mkComponent {
  scope : string;
  ident : P → string;
  called : P → string;
  act : P → row_view → L → A → string → outcome;   (** the action with the text typed, if it has one *)
  ambient : P → L → B → L;
  after : K → L → L;                               (** what a job that comes back does *)
  render : P → row_view → L → node A
}.

Record state := mkState { props : P; row : row_state; jobs : list Job; local : L; awaiting : list K }.

(** [Answered n a] answers the [n]th request under way. *)
Inductive event :=
  | User (a : A) (text : string)
  | Ambient (b : B)
  | PropsChanged (p : P)
  | JobsChanged (l : list Job)
  | Answered (n : nat) (answer : Job + string).

Definition user (e : event) : option A := match e with User a _ => Some a | _ => None end.

Definition mount (p : P) (jobs : list Job) (l : L) : state := mkState p row_initial jobs l [].

Section step.
Context (c : component).

Definition row_of (s : state) : row_view :=
  let id := ident c (props s) in
  let name := called c (props s) in
  mkRowView (row_busy id name (scope c) (jobs s) (row s)) (row_action id name (scope c) (jobs s) (row s))
    (row_job id name (scope c) (jobs s) (row s)) (row_error (row s)).

Definition busy (s : state) : bool := rv_busy (row_of s).
Definition view (s : state) : node A := render c (props s) (row_of s) (local s).

Definition perform (o : outcome) (s : state) : state * list R :=
  match o with
  | Do l rs => (mkState (props s) (row s) (jobs s) l (awaiting s), rs)
  | Execute name k r => (mkState (props s) (execute_start name (row s)) (jobs s) (local s) (awaiting s ++ [k]), [r])
  end.

Definition answered (n : nat) (answer : Job + string) (s : state) : state :=
  match awaiting s !! n with
  | None => s
  | Some k =>
      mkState (props s) (execute_end answer (row s)) (jobs s)
        (match answer with inl _ => after c k (local s) | inr _ => local s end) (delete n (awaiting s))
  end.

Definition step (s : state) (e : event) : state * list R :=
  match e with
  | User a text => perform (act c (props s) (row_of s) (local s) a text) s
  | Ambient b => (mkState (props s) (row s) (jobs s) (ambient c (props s) (local s) b) (awaiting s), [])
  | PropsChanged p => (mkState p (row s) (jobs s) (local s) (awaiting s), [])
  | JobsChanged l => (mkState (props s) (row s) l (local s) (awaiting s), [])
  | Answered n a => (answered n a s, [])
  end.

(** What a component promises: a control that executes a request is there only while the row is idle. *)
Class Guarded : Prop := executes_idle p v l a text name k r :
  a ∈ offers (render c p v l) → act c p v l a text = Execute name k r → rv_busy v = false ∧ name ≠ ""%string.

(** At most one request is under way, and the row is busy meanwhile. *)
Definition one_request (s : state) : Prop :=
  match awaiting s with [] => True | [_] => submitting (row s) ≠ ""%string | _ => False end.

Lemma one_request_idle s : one_request s → busy s = false → awaiting s = [].
Proof.
  unfold one_request, busy, row_of, row_busy. destruct (awaiting s) as [|k [|]]; [done| |done].
  intros Hs%truthy_true. cbn. by rewrite Hs.
Qed.

Lemma answered_one n a s : one_request s → one_request (answered n a s).
Proof.
  unfold answered, one_request. intros Hs. destruct (awaiting s !! n) as [k|] eqn:Hn; [|done].
  destruct (awaiting s) as [|k' [|]]; [done| |done]. by apply list_lookup_singleton_Some in Hn as [-> <-].
Qed.

Lemma one_request_step `{!Guarded} s e : one_request s → (∀ a, user e = Some a → a ∈ offers (view s)) → one_request (fst (step s e)).
Proof.
  intros Hs Hu. destruct e as [a text| | | |n a]; try done; [|by apply answered_one].
  cbn [step]. destruct (act c (props s) (row_of s) (local s) a text) as [l rs|name k r] eqn:E; [done|].
  destruct (executes_idle _ _ _ _ _ _ _ _ (Hu a eq_refl) E) as [Hb Hn].
  unfold one_request. cbn. by rewrite (one_request_idle s Hs Hb).
Qed.

Lemma legal_one_request `{!Guarded} p jobs l es :
  legal step view user (mount p jobs l) es → one_request (run step (mount p jobs l) es).1.
Proof. apply legal_invariant; [done|apply one_request_step]. Qed.

(** A request the user makes: the row was idle and nothing was under way, and it is busy from then on. *)
Lemma legal_executes `{!Guarded} p jobs l es a text name k r :
  let s := (run step (mount p jobs l) es).1 in
  legal step view user (mount p jobs l) es → a ∈ offers (view s) →
  act c (props s) (row_of s) (local s) a text = Execute name k r →
  busy s = false ∧ awaiting s = [] ∧ snd (step s (User a text)) = [r] ∧
  busy (fst (step s (User a text))) = true ∧ awaiting (fst (step s (User a text))) = [k].
Proof.
  cbn zeta. intros Hl Ha E. pose proof (legal_one_request _ _ _ _ Hl) as H1.
  set (s := (run step (mount p jobs l) es).1) in *. destruct (executes_idle _ _ _ _ _ _ _ _ Ha E) as [Hb Hn].
  pose proof (one_request_idle s H1 Hb) as Hw. cbn [step]. rewrite E. cbn [perform fst snd awaiting]. rewrite Hw.
  split_and!; [done..| |done]. unfold busy, row_of, row_busy. cbn. by rewrite (proj2 (truthy_true name) Hn).
Qed.

(** Where the requests of the user come from. *)
Lemma legal_requests `{!Guarded} p jobs l es a text r :
  let s := (run step (mount p jobs l) es).1 in
  legal step view user (mount p jobs l) es → a ∈ offers (view s) → r ∈ snd (step s (User a text)) →
  (∃ l rs, act c (props s) (row_of s) (local s) a text = Do l rs ∧ r ∈ rs) ∨
  (∃ name k, act c (props s) (row_of s) (local s) a text = Execute name k r) ∧
    busy s = false ∧ awaiting s = [] ∧ snd (step s (User a text)) = [r] ∧ busy (fst (step s (User a text))) = true.
Proof.
  cbn zeta. intros Hl Ha Hr. set (s := (run step (mount p jobs l) es).1) in *.
  destruct (act c (props s) (row_of s) (local s) a text) as [d rs|name k r'] eqn:E.
  - left. exists d, rs. split; [done|]. cbn [step] in Hr. by rewrite E in Hr.
  - right. destruct (legal_executes p jobs l es a text name k r' Hl Ha E) as (Hb & Hw & Hs & Hb' & _). fold s in Hb, Hw, Hs, Hb'.
    rewrite Hs in Hr. apply list_elem_of_singleton in Hr as ->. split_and!; eauto.
Qed.

(** The answer to the request under way: a job runs its continuation and keeps the row busy while it is in
    progress; a failure leaves the panel as it was, is kept for display, and leaves the row busy only with
    what else is in progress. *)
Lemma legal_answered `{!Guarded} p jobs0 l es n k answer :
  let s := (run step (mount p jobs0 l) es).1 in
  let s' := fst (step s (Answered n answer)) in
  legal step view user (mount p jobs0 l) es → awaiting s !! n = Some k →
  awaiting s' = [] ∧ snd (step s (Answered n answer)) = [] ∧
  match answer with
  | inl job => local s' = after c k (local s) ∧
      (in_progress (job_state (find_job (job_id job) (jobs s) |?| job)) = true → busy s' = true)
  | inr message => local s' = local s ∧ rv_error (row_of s') = message ∧
      (busy s' = true → ∃ j, rv_job (row_of s') = Some j ∧ in_progress (job_state j) = true)
  end.
Proof.
  cbn zeta. intros Hl Hn. pose proof (legal_one_request _ _ _ _ Hl) as H1.
  set (s := (run step (mount p jobs0 l) es).1) in *. unfold one_request in H1.
  assert (n = 0 ∧ awaiting s = [k]) as [-> Hw].
  { destruct (awaiting s) as [|k' [|]]; [done| |done]. by apply list_lookup_singleton_Some in Hn as [-> ->]. }
  cbn [step]. unfold answered. rewrite Hn, Hw. destruct answer as [job|message]; cbn; split_and!; try done.
  - intros Hp. unfold busy, row_of, row_busy, row_job, row_tracked. cbn. destruct (row_active _ _ _ _) as [j|] eqn:Ea; [|done].
    unfold row_active in Ea. apply find_some_iff in Ea as [_ Ea]. unbool. done.
  - unfold busy, row_of, row_busy. cbn. intros Hp. destruct (row_job _ _ _ _ _) as [j|]; [by eauto|done].
Qed.

(** What the local state says of a dialog, it says because the user opened it with a control that was there,
    and has said ever since. [T] is what is known of that control and of the panel it was on. *)
Lemma dialog_since (Q : L → Prop) `{!∀ d, Decision (Q d)} (T : P → L → A → Prop) p jobs0 l es :
  let init := mount p jobs0 l in
  ¬ Q l →
  (∀ q v d a text d' rs, a ∈ offers (render c q v d) → act c q v d a text = Do d' rs → ¬ Q d → Q d' → T q d a) →
  (∀ q d b, ¬ Q d → ¬ Q (ambient c q d b)) → (∀ k d, ¬ Q d → ¬ Q (after c k d)) →
  legal step view user init es → Q (local (run step init es).1) →
  ∃ es1 a text es2, es = es1 ++ User a text :: es2 ∧ T (props (run step init es1).1) (local (run step init es1).1) a ∧
    ∀ es3, es3 `prefix_of` es2 → Q (local (run step init (es1 ++ User a text :: es3)).1).
Proof.
  intros init H0 Ha Hb Hk Hl HQ.
  destruct (legal_since step view user (λ s, Q (local s)) (λ s e, ∃ a text, e = User a text ∧ T (props s) (local s) a) init)
    with (es := es) as (es1 & e & es2 & E & (a & text & -> & HT) & Hs); [done| |done|done|by exists es1, a, text, es2].
  intros s e Hu Hn HQ'. destruct e as [a text|b|q|j|n answer]; cbn in HQ'; try done.
  - specialize (Hu a eq_refl). destruct (act c (props s) (row_of s) (local s) a text) as [d' rs|] eqn:E; cbn in HQ'; [|done].
    exists a, text. split; [done|]. exact (Ha _ _ _ _ _ _ _ Hu E Hn HQ').
  - by destruct (Hb _ _ _ Hn HQ').
  - unfold answered in HQ'. destruct (awaiting s !! n) as [k|]; [|done]. destruct answer; cbn in HQ'; [|done]. by destruct (Hk _ _ Hn HQ').
Qed.
End step.
End component.
Arguments outcome : clear implicits.
Arguments component : clear implicits.
Arguments state : clear implicits.
Arguments event : clear implicits.
