(* ===== verification/VmMedia.v ===== *)
(** * The boot configuration form ([src/web/src/components/VMMedia.tsx])

    CD-ROM drives, boot order and automatic startup of a machine, edited in a draft and saved with two
    requests. Times at which the user or the server acts are the events; the effect that fetches the
    ISO library runs after each of them. *)

From S2P Require Import Prelude JsString Json Types Ux BootOrder UseDraft Dom.
Local Open Scope string_scope.

Record MediaDraft := mkMediaDraft { isos : list string; order : list string; autostart : bool }.
#[export] Instance MediaDraft_eq_dec : EqDecision MediaDraft.
Proof. solve_decision. Defined.
#[export] Program Instance MediaDraft_codec : JsonCodec MediaDraft := {|
  to_json d := JObj [("isos", to_json (isos d)); ("order", to_json (order d)); ("autostart", to_json (autostart d))];
  from_json j :=
    i ← decode_field "isos" j; o ← decode_field "order" j; a ← decode_field "autostart" j; Some (mkMediaDraft i o a)
|}.
Next Obligation.
  intros [i o a]. set (fs := [("isos", to_json i); ("order", to_json o); ("autostart", to_json a)]).
  assert (NoDup fs.*1) as Hn by (apply (bool_decide_unpack _); by vm_compute).
  cbn [isos order autostart]. fold fs. rewrite (decode_field_in "isos" i) by (done || set_solver).
  cbn [mbind option_bind]. rewrite (decode_field_in "order" o) by (done || set_solver).
  cbn [mbind option_bind]. rewrite (decode_field_in "autostart" a) by (done || set_solver). done.
Qed.

Section media.
Context `{!Draftable MediaDraft}.

(** ** State *)

(** What [save] still has to do after the answer it awaits. *)
Inductive saving := Idle | SavingMedia (id : string) (then_autostart : option bool) | SavingHardware.

Record state := mkState {
  vm : VMView;
  draft_form : form (T:=MediaDraft);
  busy : saving;
  error : string;
  saved : bool;
  adding : bool;
  isoList : option (list Media);
  loadingIsos : bool;
  isoError : string
}.

Inductive action :=
  | EnsureIsos
  | ChangeIso (oldId newId : string)
  | RemoveIso (id : string)
  | AddIso (id : string)
  | CancelAdding
  | StartAdding
  | Move (index : nat) (up : bool)
  | SetAutostart (next : bool)
  | Save
  | DiscardChanges.

Inductive event :=
  | User (a : action)
  | VmChanged (v : VMView)
  | IsosAnswer (answer : list Media + string)
  | SaveAnswer (answer : unit + string).

Inductive request :=
  | ListMedia
  | UpdateMedia (id : string) (isos order : list string)
  | UpdateHardware (id : string) (autostart : bool)
  | OnSaved.

(** ** Derived values *)

Definition manifest_isos (m : VMManifest) : list string := m_isos m |?| [].
Definition manifest_disks (m : VMManifest) : list VMDisk := m_disks m |?| [].

Definition saved_draft (v : VMView) : MediaDraft :=
  let m := vm_manifest v in
  mkMediaDraft (manifest_isos m) (savedBootOrder m) (m_autostart m |?| false).

Definition draft_value (s : state) : MediaDraft := value (UseDraft.state (draft_form s)).
(** [bootOrder({ ...vm.manifest, boot_order: draft.value.order }, isos)] *)
Definition shown_order (s : state) : list string :=
  order_of (Some (order (draft_value s))) (manifest_disks (vm_manifest (vm s))) (isos (draft_value s)).
Definition is_busy (s : state) : bool := match busy s with Idle => false | _ => true end.
Definition running (s : state) : bool := String.eqb (vm_phase (vm s)) "running".
Definition blocked (s : state) : bool := running s || is_busy s.
Definition is_dirty (s : state) : bool := dirty (current (draft_form s)) (UseDraft.state (draft_form s)).
Definition in_conflict (s : state) : bool := conflict (current (draft_form s)) (UseDraft.state (draft_form s)).

Definition has_media (id : string) (l : list Media) : bool := existsb (λ item, String.eqb (media_id item) id) l.

Definition isoName (s : state) (id : string) : string :=
  match isoList s with
  | None => "Loading…"
  | Some l =>
      match List.find (λ item, String.eqb (media_id item) id) l with
      | Some found => media_name found
      | None => "Unavailable ISO"
      end
  end.

Definition choicesFor (s : state) (selfId : option string) : list Media :=
  List.filter (λ item, bool_decide (Some (media_id item) = selfId)
    || negb (includes_str (isos (draft_value s)) (media_id item))) (isoList s |?| []).

Definition unavailable (s : state) : list string :=
  match isoList s with
  | Some l => List.filter (λ id, negb (has_media id l)) (isos (draft_value s))
  | None => []
  end.

(** ** Operations *)

Definition set_draft (d : MediaDraft) (s : state) : state :=
  mkState (vm s)
    (mkForm (current (draft_form s)) (set_value d (UseDraft.state (draft_form s))) (stored (draft_form s)))
    (busy s) (error s) false (adding s) (isoList s) (loadingIsos s) (isoError s).
Definition set_adding (b : bool) (s : state) : state :=
  mkState (vm s) (draft_form s) (busy s) (error s) (saved s) b (isoList s) (loadingIsos s) (isoError s).
Definition set_busy (b : saving) (e : string) (sv : bool) (s : state) : state :=
  mkState (vm s) (draft_form s) b e sv (adding s) (isoList s) (loadingIsos s) (isoError s).
Definition set_isos (l : option (list Media)) (loading : bool) (e : string) (s : state) : state :=
  mkState (vm s) (draft_form s) (busy s) (error s) (saved s) (adding s) l loading e.

Definition ensureIsos (s : state) : state * list request :=
  match isoList s with
  | Some _ => (s, [])
  | None => if loadingIsos s then (s, []) else (set_isos None true "" s, [ListMedia])
  end.

Definition addIso (id : string) (s : state) : state :=
  let d := draft_value s in
  set_adding false (set_draft (mkMediaDraft (isos d ++ [id]) (shown_order s ++ [iso_device id]) (autostart d)) s).

Definition removeIso (id : string) (s : state) : state :=
  let d := draft_value s in
  set_draft (mkMediaDraft (List.filter (λ item, negb (String.eqb item id)) (isos d))
    (List.filter (λ item, negb (String.eqb item (iso_device id))) (shown_order s)) (autostart d)) s.

Definition changeIso (oldId newId : string) (s : state) : state :=
  if String.eqb oldId newId then s else
  let d := draft_value s in
  set_draft (mkMediaDraft ((λ item, if String.eqb item oldId then newId else item) <$> isos d)
    ((λ item, if String.eqb item (iso_device oldId) then iso_device newId else item) <$> shown_order s) (autostart d)) s.

(** The exchange of [next[index]] and [next[index + delta]]; the buttons offer indices in range. *)
Definition swap (i j : nat) (l : list string) : list string :=
  match l !! i, l !! j with
  | Some x, Some y => <[j:=x]> (<[i:=y]> l)
  | _, _ => l
  end.
Definition move (index : nat) (up : bool) (s : state) : state :=
  let d := draft_value s in
  set_draft (mkMediaDraft (isos d) (swap index (if up then pred index else S index) (shown_order s)) (autostart d)) s.

Definition setAutostart (next : bool) (s : state) : state :=
  let d := draft_value s in set_draft (mkMediaDraft (isos d) (order d) next) s.

(** [save] up to its first [await], and after each of them. *)
Definition save (s : state) : state * list request :=
  if blocked s || negb (is_dirty s) || in_conflict s then (s, []) else
  let m := vm_manifest (vm s) in
  let d := draft_value s in
  let mediaChanged := bool_decide (isos d ≠ manifest_isos m) || bool_decide (shown_order s ≠ savedBootOrder m) in
  let hardware := if Bool.eqb (autostart d) (m_autostart m |?| false) then None else Some (autostart d) in
  if mediaChanged then (set_busy (SavingMedia (m_id m) hardware) "" false s, [UpdateMedia (m_id m) (isos d) (shown_order s)])
  else match hardware with
       | Some a => (set_busy SavingHardware "" false s, [UpdateHardware (m_id m) a])
       | None => (set_busy Idle "" true s, [OnSaved])
       end.

Definition save_answer (answer : unit + string) (s : state) : state * list request :=
  match busy s, answer with
  | Idle, _ => (s, [])
  | _, inr message => (set_busy Idle message (saved s) s, [])
  | SavingMedia id (Some a), inl _ => (set_busy SavingHardware (error s) (saved s) s, [UpdateHardware id a])
  | _, inl _ => (set_busy Idle (error s) true s, [OnSaved])
  end.

Definition isos_answer (answer : list Media + string) (s : state) : state * list request :=
  if negb (loadingIsos s) then (s, []) else
  match answer with
  | inl list => (set_isos (Some (List.filter (λ item, String.eqb (media_kind item) "iso") list)) false (isoError s) s, [])
  | inr message => (set_isos (isoList s) false message s, [])
  end.

Definition handle (e : event) (s : state) : state * list request :=
  match e with
  | User EnsureIsos => ensureIsos s
  | User (ChangeIso oldId newId) => (changeIso oldId newId s, [])
  | User (RemoveIso id) => (removeIso id s, [])
  | User (AddIso id) => (addIso id s, [])
  | User CancelAdding => (set_adding false s, [])
  | User StartAdding => ensureIsos (set_adding true s)
  | User (Move index up) => (move index up s, [])
  | User (SetAutostart next) => (setAutostart next s, [])
  | User Save => save s
  | User DiscardChanges =>
      (mkState (vm s) (mkForm (current (draft_form s)) (discard (current (draft_form s))) (stored (draft_form s)))
         (busy s) (error s) false false (isoList s) (loadingIsos s) (isoError s), [])
  | VmChanged v =>
      (mkState v (mkForm (saved_draft v) (UseDraft.state (draft_form s)) (stored (draft_form s)))
         (busy s) (error s) (saved s) (adding s) (isoList s) (loadingIsos s) (isoError s), [])
  | IsosAnswer answer => isos_answer answer s
  | SaveAnswer answer => save_answer answer s
  end.

(** The key of the draft. *)
Definition media_key (id : string) : string := "maco:draft:" ++ id ++ ":media".
Definition draft_key (v : VMView) : string := media_key (m_id (vm_manifest v)).

Definition settle_draft (s : state) : state :=
  mkState (vm s) (settle_form (draft_key (vm s)) (draft_form s)) (busy s) (error s) (saved s) (adding s)
    (isoList s) (loadingIsos s) (isoError s).

(** The effect on [ensureIsos], whose identity changes with [isoList] and [loadingIsos], and on the
    list of ISOs of the manifest. Starting a load changes [loadingIsos], and the effect that follows
    then returns at the guard. *)
Definition deps_changed (s s' : state) (e : event) : bool :=
  match e with VmChanged _ => true | _ => false end
  || negb (Bool.eqb (loadingIsos s) (loadingIsos s'))
  || negb (Bool.eqb (bool_decide (is_Some (isoList s))) (bool_decide (is_Some (isoList s')))).

Definition iso_effect (s : state) : state * list request :=
  match manifest_isos (vm_manifest (vm s)) with
  | [] => (s, [])
  | _ => ensureIsos s
  end.

Definition step (s : state) (e : event) : state * list request :=
  let '(s1, o1) := handle e s in
  let s2 := settle_draft s1 in
  if deps_changed s s2 e then let '(s3, o2) := iso_effect s2 in (s3, o1 ++ o2)%list else (s2, o1).

Definition mount (v : VMView) (st : storage) : state * list request :=
  iso_effect (mkState v (open_form (draft_key v) (saved_draft v) st) Idle "" false false None false "").

(** ** View *)

Record IsoSelectProps := mkIsoSelectProps {
  p_value : option string; placeholder : string; options : list Media; p_disabled : bool; ariaLabel : string
}.

Definition IsoSelect (s : state) (p : IsoSelectProps) (onChange : string → action) : node action :=
  El "Select" [("value", p_value p |?| ""); ("aria-label", ariaLabel p); ("placeholder", placeholder p)]
    (p_disabled p) [EnsureIsos]
    (when (loadingIsos s) [label "div" "Loading ISOs…"] ++
     when (truthy (isoError s)) [box "div" [Text "Couldn’t load ISOs. "; button "Retry" false EnsureIsos]] ++
     when (negb (loadingIsos s) && negb (truthy (isoError s)))
       ((λ iso, El "SelectItem" [("value", media_id iso)] false [onChange (media_id iso)] [Text (media_name iso)]) <$> options p) ++
     when (negb (loadingIsos s) && negb (truthy (isoError s)) && bool_decide (options p = []))
       [box "div" [Text "No ISOs available. "; El "Link" [("to", "/media")] false [] [Text "Upload an ISO"]]])%list.

Definition drive_row (s : state) (index : nat) (id : string) : node action :=
  box "div"
    [label "p" ("CD-ROM " ++ pretty (S index));
     IsoSelect s (mkIsoSelectProps (if has_media id (isoList s |?| []) then Some id else None) (isoName s id)
       (choicesFor s (Some id)) (blocked s) ("CD-ROM " ++ pretty (S index) ++ " ISO")) (ChangeIso id);
     button ("Remove CD-ROM " ++ pretty (S index)) (blocked s) (RemoveIso id)].

Definition adding_row (s : state) : node action :=
  box "div"
    [label "p" ("CD-ROM " ++ pretty (S (length (isos (draft_value s)))));
     IsoSelect s (mkIsoSelectProps None "Choose an ISO" (choicesFor s None) (blocked s)
       "Choose an ISO for the new CD-ROM") AddIso;
     button "Cancel new CD-ROM" (is_busy s) CancelAdding].

Record device := mkDevice { dev_row_id : string; dev_row_name : string; dev_row_detail : string; dev_row_iso : bool }.

Definition devices (s : state) : list device :=
  let m := vm_manifest (vm s) in
  mkDevice "disk" "Disk 1" (pretty (m_disk_size_gib m) ++ " GiB") false
  :: ((λ d, mkDevice (disk_device d) (disk_name d) (pretty (disk_size_gib d) ++ " GiB") false) <$> manifest_disks m)
  ++ ((λ id, mkDevice (iso_device id) (isoName s id) "CD-ROM" true) <$> isos (draft_value s)).

(** [devices.find(item => item.id === id)!] *)
Definition device_of (s : state) (id : string) : option device :=
  List.find (λ item, String.eqb (dev_row_id item) id) (devices s).

Definition order_row (s : state) (index : nat) (id : string) : node action :=
  let name := default "" (dev_row_name <$> device_of s id) in
  box "div"
    ([label "span" (pretty (S index)); label "p" name; label "p" (default "" (dev_row_detail <$> device_of s id))] ++
     when (index =? 0)%nat [label "Badge" "Boot First"] ++
     [button ("Move " ++ name ++ " up") (blocked s || (index =? 0)%nat) (Move index true);
      button ("Move " ++ name ++ " down") (blocked s || (index =? length (shown_order s) - 1)%nat) (Move index false)])%list.

Definition save_disabled (s : state) : bool :=
  blocked s || negb (is_dirty s) || in_conflict s || negb (length (unavailable s) =? 0)%nat.

Definition view (s : state) : node action :=
  box "div"
    (when (truthy (error s)) [label "NoticeBanner" (error s)] ++
     when (running s) [label "NoticeBanner" "Shut down the VM before changing CD-ROMs, boot order, or automatic startup. Your draft is kept."] ++
     when (in_conflict s) [label "NoticeBanner" "Saved media or disks changed while you were editing. Discard this draft to load the latest configuration."] ++
     [box "section"
       ([label "p" "CD-ROM drives, boot order, and automatic startup are saved together. Boot first chooses the first device the guest attempts.";
         box "PreferencesGroup"
           (imap (drive_row s) (isos (draft_value s)) ++
            when (adding s) [adding_row s] ++
            when (bool_decide (isos (draft_value s) = []) && negb (adding s))
              [label "p" "No CD-ROM drives. Add a CD-ROM to attach an installation ISO."] ++
            [button "Add CD-ROM" (blocked s || adding s) StartAdding]);
         box "PreferencesGroup" (imap (order_row s) (shown_order s));
         box "PreferencesGroup"
           [El "SwitchRow" [("title", "Automatic Startup")] (blocked s) [SetAutostart (negb (autostart (draft_value s)))] []];
         button (if is_busy s then "Saving…" else "Save Boot Configuration") (save_disabled s) Save;
         button "Discard Changes" (is_busy s || negb (is_dirty s)) DiscardChanges;
         label "p" (if saved s then "Boot configuration saved"
                    else if is_dirty s then "Unsaved changes · Draft kept in this browser tab"
                    else "Matches saved configuration")] ++
        when (negb (length (unavailable s) =? 0)%nat)
          [label "NoticeBanner" "A selected ISO is no longer in the library. Choose an available ISO or remove that CD-ROM before saving."])])%list.


(** ** Lemmas on the view *)

Lemma offers_IsoSelect a s p f : a ∈ offers (IsoSelect s p f) →
  p_disabled p = false ∧ (a = EnsureIsos ∨ ∃ m, m ∈ options p ∧ a = f (media_id m)).
Proof.
  unfold IsoSelect. rewrite elem_of_offers, list_elem_of_singleton. intros [Hd [->|(c & Hc & Ha)]]; [auto|].
  split; [done|]. rewrite !elem_of_app, !elem_of_when in Hc. destruct Hc as [[_ Hc]|[[_ Hc]|[[_ Hc]|[_ Hc]]]].
  - apply list_elem_of_singleton in Hc as ->. by apply offers_label in Ha.
  - apply list_elem_of_singleton in Hc as ->. cbn in Ha. apply list_elem_of_singleton in Ha. auto.
  - apply list_elem_of_fmap in Hc as (m & -> & Hm). cbn in Ha. apply list_elem_of_singleton in Ha. eauto.
  - apply list_elem_of_singleton in Hc as ->. cbn in Ha. by apply not_elem_of_nil in Ha.
Qed.

Lemma elem_of_imap' {A B} (f : nat → A → B) l b : b ∈ imap f l ↔ ∃ i x, l !! i = Some x ∧ b = f i x.
Proof. rewrite list_elem_of_lookup. setoid_rewrite list_lookup_imap_Some. naive_solver. Qed.

Lemma offers_drive_row a s i id : a ∈ offers (drive_row s i id) →
  blocked s = false ∧ (a = EnsureIsos ∨ a = RemoveIso id ∨ ∃ m, m ∈ choicesFor s (Some id) ∧ a = ChangeIso id (media_id m)).
Proof.
  unfold drive_row. rewrite offers_box. cbn [flat_map]. rewrite app_nil_r, !elem_of_app, offers_label, offers_button.
  intros [[]|[Ha|[? ->]]]; [|auto]. apply offers_IsoSelect in Ha. cbn in Ha. naive_solver.
Qed.

Lemma offers_adding_row a s : a ∈ offers (adding_row s) →
  a = CancelAdding ∧ is_busy s = false ∨ blocked s = false ∧ (a = EnsureIsos ∨ ∃ m, m ∈ choicesFor s None ∧ a = AddIso (media_id m)).
Proof.
  unfold adding_row. rewrite offers_box. cbn [flat_map]. rewrite app_nil_r, !elem_of_app, offers_label, offers_button.
  intros [[]|[Ha|[? ->]]]; [|auto]. right. apply offers_IsoSelect in Ha. cbn in Ha. naive_solver.
Qed.

Lemma offers_order_row a s i id : a ∈ offers (order_row s i id) →
  blocked s = false ∧ (a = Move i true ∧ i ≠ O ∨ a = Move i false ∧ i ≠ (length (shown_order s) - 1)%nat).
Proof.
  unfold order_row. rewrite offers_box, !flat_map_app, flat_map_when, !elem_of_app. cbn [flat_map].
  rewrite !app_nil_r, !elem_of_app, !offers_label, !offers_button.
  intros [[]|[Ha|[[Hb ->]|[Hb ->]]]].
  - case_match; [by apply offers_label in Ha|by apply not_elem_of_nil in Ha].
  - apply orb_false_iff in Hb as [? Hi%Nat.eqb_neq]. auto.
  - apply orb_false_iff in Hb as [? Hi%Nat.eqb_neq]. auto.
Qed.

(** What the form lets the user do. *)
Definition offered (s : state) (a : action) : Prop :=
  match a with
  | EnsureIsos | StartAdding | SetAutostart _ => blocked s = false
  | ChangeIso oldId newId =>
      blocked s = false ∧ oldId ∈ isos (draft_value s) ∧
      ∃ m, m ∈ choicesFor s (Some oldId) ∧ newId = media_id m
  | RemoveIso id => blocked s = false ∧ id ∈ isos (draft_value s)
  | AddIso id => blocked s = false ∧ ∃ m, m ∈ choicesFor s None ∧ id = media_id m
  | CancelAdding => is_busy s = false
  | Move index up =>
      blocked s = false ∧ index < length (shown_order s) ∧
      if up then index ≠ O else index ≠ (length (shown_order s) - 1)%nat
  | Save => blocked s = false ∧ is_dirty s = true ∧ in_conflict s = false ∧ unavailable s = []
  | DiscardChanges => is_busy s = false ∧ is_dirty s = true
  end%nat.

Lemma view_offered s a : a ∈ offers (view s) → offered s a.
Proof.
  unfold view. rewrite offers_box, !flat_map_app, !flat_map_when, !elem_of_app.
  intros [Ha|[Ha|[Ha|Ha]]];
    try (case_match; [|by apply not_elem_of_nil in Ha]; cbn in Ha; by apply not_elem_of_nil in Ha).
  cbn [flat_map] in Ha. rewrite app_nil_r, offers_box, flat_map_app, flat_map_when, elem_of_app in Ha.
  destruct Ha as [Ha|Ha]; [|case_match; cbn in Ha; by apply not_elem_of_nil in Ha].
  cbn [flat_map] in Ha. rewrite !app_nil_r, !elem_of_app, !offers_label, !offers_button, !offers_box in Ha.
  destruct Ha as [[]|[Ha|[Ha|[Ha|[[Hd ->]|[Hd ->]]]]]].
  - rewrite !flat_map_app, !flat_map_when, !elem_of_app, elem_of_flat_map in Ha.
    destruct Ha as [(c & (i & id & Hid & ->)%elem_of_imap' & Ha%offers_drive_row)|[Ha|[Ha|Ha]]].
    + apply list_elem_of_lookup_2 in Hid. destruct Ha as [? [->|[->|(m & ? & ->)]]]; cbn; eauto 10.
    + case_match; [|by apply not_elem_of_nil in Ha]. cbn [flat_map] in Ha. rewrite app_nil_r in Ha.
      apply offers_adding_row in Ha as [[-> ?]|[? [->|(m & ? & ->)]]]; cbn; eauto.
    + case_match; cbn in Ha; by apply not_elem_of_nil in Ha.
    + cbn [flat_map] in Ha. rewrite app_nil_r, offers_button in Ha. destruct Ha as [[? _]%orb_false_iff ->]. done.
  - rewrite elem_of_flat_map in Ha. destruct Ha as (c & (i & id & Hid & ->)%elem_of_imap' & Ha%offers_order_row).
    apply lookup_lt_Some in Hid. destruct Ha as [? [[-> ?]|[-> ?]]]; cbn; auto.
  - cbn [flat_map] in Ha. rewrite app_nil_r, elem_of_offers, list_elem_of_singleton in Ha.
    destruct Ha as [? [->|(c & ?%not_elem_of_nil & _)]]; done.
  - unfold save_disabled in Hd. rewrite !orb_false_iff, !negb_false_iff, Nat.eqb_eq in Hd.
    destruct Hd as [[[? ?] ?] ?%length_zero_iff_nil]. done.
  - rewrite orb_false_iff, negb_false_iff in Hd. done.
Qed.

(** ** The invariant of the form *)

Definition library_ok (l : option (list Media)) : Prop :=
  ∀ m, m ∈ l |?| [] → media_kind m = "iso".

(** The drafts of a session storage name each ISO once. *)
Definition drafts_ok (st : storage) : Prop :=
  ∀ m id text b d, st = Some m → m !! media_key id = Some text → parse_state text = Some (b, d) → NoDup (isos d).

Record inv (s : state) : Prop := {
  inv_current : current (draft_form s) = saved_draft (vm s);
  inv_saved : NoDup (manifest_isos (vm_manifest (vm s)));
  inv_isos : NoDup (isos (draft_value s));
  inv_library : library_ok (isoList s);
  inv_stored : drafts_ok (stored (draft_form s))
}.

(** A user acts on the controls of the view, and the server keeps the ISOs of a machine distinct. *)
Definition allowed (s : state) (e : event) : Prop :=
  match e with
  | User a => a ∈ offers (view s)
  | VmChanged v => NoDup (manifest_isos (vm_manifest v))
  | IsosAnswer _ | SaveAnswer _ => True
  end.

Lemma choicesFor_spec s self m : m ∈ choicesFor s self →
  m ∈ isoList s |?| [] ∧ (Some (media_id m) = self ∨ media_id m ∉ isos (draft_value s)).
Proof.
  unfold choicesFor. intros Hm. rewrite list_elem_of_In, filter_In, <- list_elem_of_In in Hm.
  by rewrite orb_true_iff, bool_decide_eq_true, negb_true_iff, includes_str_false in Hm.
Qed.

Lemma NoDup_change (x y : string) (l : list string) : NoDup l → (y ∈ l → y = x) →
  NoDup ((λ i, if String.eqb i x then y else i) <$> l).
Proof.
  intros Hl Hy. apply NoDup_fmap_2_strong; [|done]. intros a b Ha Hb.
  destruct (String.eqb_spec a x) as [->|], (String.eqb_spec b x) as [->|]; try done.
  - intros <-. by rewrite (Hy Hb).
  - intros ->. by rewrite (Hy Ha).
Qed.

Lemma elem_of_change (x y z : string) (l : list string) : x ∈ l →
  z ∈ (λ i, if String.eqb i x then y else i) <$> l ↔ z = y ∨ z ∈ l ∧ z ≠ x.
Proof.
  intros Hx. rewrite list_elem_of_fmap. split.
  - intros (i & -> & Hi). destruct (String.eqb_spec i x); auto.
  - intros [->|[Hz Hn]].
    + exists x. by rewrite String.eqb_refl.
    + exists z. rewrite (proj2 (String.eqb_neq z x)) by done. done.
Qed.

Lemma elem_of_remove (x z : string) l :
  z ∈ List.filter (λ i, negb (String.eqb i x)) l ↔ z ∈ l ∧ z ≠ x.
Proof. by rewrite !list_elem_of_In, filter_In, negb_true_iff, String.eqb_neq. Qed.

Lemma NoDup_lfilter {A} (f : A → bool) (l : list A) : NoDup l → NoDup (List.filter f l).
Proof. intros Hl. apply NoDup_ListNoDup, List.NoDup_filter. by apply NoDup_ListNoDup. Qed.

Lemma swap_perm i j l : swap i j l ≡ₚ l.
Proof.
  unfold swap. destruct (l !! i) as [x|] eqn:Ei; [|done]. destruct (l !! j) as [y|] eqn:Ej; [|done].
  destruct (decide (i = j)) as [->|Hne].
  - simplify_eq. by rewrite list_insert_insert_eq, list_insert_id.
  - by apply Permutation_insert_swap.
Qed.

(** ** What an edit shows *)

Definition disks_of (s : state) : list VMDisk := manifest_disks (vm_manifest (vm s)).

(** The value of the draft right after an edit, before the effects. *)
Definition edited (a : action) (s : state) : MediaDraft :=
  let d := draft_value s in
  match a with
  | AddIso id => mkMediaDraft (isos d ++ [id]) (shown_order s ++ [iso_device id]) (autostart d)
  | RemoveIso id =>
      mkMediaDraft (List.filter (λ item, negb (String.eqb item id)) (isos d))
        (List.filter (λ item, negb (String.eqb item (iso_device id))) (shown_order s)) (autostart d)
  | ChangeIso x y =>
      if String.eqb x y then d else
      mkMediaDraft ((λ item, if String.eqb item x then y else item) <$> isos d)
        ((λ item, if String.eqb item (iso_device x) then iso_device y else item) <$> shown_order s) (autostart d)
  | Move i up => mkMediaDraft (isos d) (swap i (if up then pred i else S i) (shown_order s)) (autostart d)
  | SetAutostart b => mkMediaDraft (isos d) (order d) b
  | DiscardChanges => current (draft_form s)
  | EnsureIsos | CancelAdding | StartAdding | Save => d
  end%list.

Lemma ensureIsos_frame s :
  vm (ensureIsos s).1 = vm s ∧ draft_form (ensureIsos s).1 = draft_form s ∧
  (isoList (ensureIsos s).1 = isoList s).
Proof. unfold ensureIsos. destruct (isoList s) eqn:E; [done|]. by case_match. Qed.

Lemma draft_value_form s s' : draft_form s = draft_form s' → draft_value s = draft_value s'.
Proof. unfold draft_value. by intros ->. Qed.

Lemma handle_user a s :
  vm (handle (User a) s).1 = vm s ∧ draft_value (handle (User a) s).1 = edited a s ∧
  current (draft_form (handle (User a) s).1) = current (draft_form s) ∧
  isoList (handle (User a) s).1 = isoList s ∧ stored (draft_form (handle (User a) s).1) = stored (draft_form s).
Proof.
  destruct a as [|x y|id|id| | |i up|b| |]; cbn [handle fst]; try done.
  - destruct (ensureIsos_frame s) as (? & E & ?). split_and!; [done|by apply draft_value_form|congruence|done|congruence].
  - unfold changeIso. cbn [edited]. by case_match.
  - destruct (ensureIsos_frame (set_adding true s)) as (? & E & ?). split_and!; [done| |by rewrite E|done|by rewrite E].
    rewrite (draft_value_form _ _ E). done.
  - unfold save. repeat case_match; done.
  - split_and!; [done| |done|done|done]. unfold draft_value, discard. cbn [fst draft_form UseDraft.state]. by rewrite rebased_eq.
Qed.

Lemma complete_remove disks l order id : NoDup order →
  (∀ x, x ∈ order ↔ x ∈ boot_devices disks l) →
  NoDup (List.filter (λ item, negb (String.eqb item (iso_device id))) order) ∧
  ∀ x, x ∈ List.filter (λ item, negb (String.eqb item (iso_device id))) order ↔
    x ∈ boot_devices disks (List.filter (λ item, negb (String.eqb item id)) l).
Proof.
  intros Hn Ho. split; [by apply NoDup_lfilter|]. intros x.
  rewrite elem_of_remove, Ho, !elem_of_boot_devices. setoid_rewrite elem_of_remove. split.
  - intros [[->|[?|(i & -> & ?)]] Hne]; [auto..|]. right; right. exists i. split_and!; [done..|]. by intros ->.
  - intros [->|[(d & -> & ?)|(i & -> & ? & Hne)]].
    + split; [auto|done].
    + split; [|done]. right. left. eauto.
    + split; [right; right; eauto|]. by intros ?%(inj iso_device).
Qed.

Lemma complete_add disks l order id : NoDup order → id ∉ l →
  (∀ x, x ∈ order ↔ x ∈ boot_devices disks l) →
  NoDup (order ++ [iso_device id])%list ∧
  ∀ x, x ∈ (order ++ [iso_device id])%list ↔ x ∈ boot_devices disks (l ++ [id])%list.
Proof.
  intros Hn Hid Ho. split.
  - apply NoDup_app. split_and!; [done| |apply NoDup_singleton].
    intros x Hx ->%list_elem_of_singleton. by apply Ho, iso_in_devices in Hx.
  - intros x. rewrite elem_of_app, list_elem_of_singleton, Ho, !elem_of_boot_devices.
    setoid_rewrite elem_of_app. setoid_rewrite list_elem_of_singleton. naive_solver.
Qed.

Lemma complete_change disks l order x y : NoDup order → x ∈ l → y ∉ l →
  (∀ z, z ∈ order ↔ z ∈ boot_devices disks l) →
  NoDup ((λ item, if String.eqb item (iso_device x) then iso_device y else item) <$> order) ∧
  ∀ z, z ∈ (λ item, if String.eqb item (iso_device x) then iso_device y else item) <$> order ↔
    z ∈ boot_devices disks ((λ item, if String.eqb item x then y else item) <$> l).
Proof.
  intros Hn Hx Hy Ho. split.
  - apply NoDup_change; [done|]. intros Hin%Ho%iso_in_devices. done.
  - intros z. rewrite elem_of_change by (by apply Ho, iso_in_devices).
    rewrite Ho, !elem_of_boot_devices. setoid_rewrite (elem_of_change x y); [|done]. split.
    + intros [->|[[->|[?|(i & -> & ?)]] Hne]]; [by eauto 10|auto..|]. right; right. exists i. split; [done|].
      right. split; [done|]. by intros ->.
    + intros [->|[(d & -> & ?)|(i & -> & [->|[? Hne]])]].
      * right. split; [auto|done].
      * right. split; [|done]. right. left. eauto.
      * by left.
      * right. split; [by eauto|]. by intros ?%(inj iso_device).
Qed.

Lemma shown_order_complete s : NoDup (shown_order s) ∧
  ∀ x, x ∈ shown_order s ↔ x ∈ boot_devices (disks_of s) (isos (draft_value s)).
Proof. split; [apply NoDup_order_of|]. intros x. apply elem_of_order_of. Qed.

(** After an edit of the drives or of the order, the ISOs are distinct, and the order of the draft lists
    exactly the devices. *)
Lemma edited_complete a s : inv s → offered s a →
  NoDup (isos (edited a s)) ∧
  match a with
  | AddIso _ | RemoveIso _ | Move _ _ =>
      NoDup (order (edited a s)) ∧ ∀ x, x ∈ order (edited a s) ↔ x ∈ boot_devices (disks_of s) (isos (edited a s))
  | ChangeIso x y =>
      x ≠ y → NoDup (order (edited a s)) ∧ ∀ x, x ∈ order (edited a s) ↔ x ∈ boot_devices (disks_of s) (isos (edited a s))
  | _ => True
  end.
Proof.
  intros [Hc Hs Hi _ _] Ho. destruct (shown_order_complete s) as [Hn Hx].
  destruct a as [|x y|id|id| | |i up|b| |]; cbn [edited isos order] in *; try (split; [done|done]).
  - destruct Ho as (_ & Hin & m & [_ Hm]%choicesFor_spec & ->).
    destruct (String.eqb_spec x (media_id m)) as [->|Hne]; [by split|].
    destruct Hm as [?|Hm]; [congruence|]. cbn. split; [|intros _; by apply complete_change].
    apply NoDup_change; [done|]. done.
  - split; [by apply NoDup_lfilter|by apply complete_remove].
  - destruct Ho as (_ & m & [_ [?|Hm]]%choicesFor_spec & ->); [done|].
    split; [|by apply complete_add]. apply NoDup_app. split_and!; [done| |apply NoDup_singleton].
    by intros x ? ->%list_elem_of_singleton.
  - split; [done|]. rewrite swap_perm. split; [done|]. intros x. by rewrite swap_perm, Hx.
  - rewrite Hc. cbn. split; [done|done].
Qed.

Lemma settle_draft_value s : current (draft_form s) = saved_draft (vm s) →
  draft_value (settle_draft s) = draft_value s ∨ draft_value (settle_draft s) = saved_draft (vm s).
Proof.
  intros Hc. unfold draft_value, settle_draft. cbn. unfold rebase. case_match; [|by left].
  right. by rewrite rebased_eq, Hc.
Qed.

Lemma store_ok v key d st : drafts_ok st → NoDup (isos (value d)) → drafts_ok (store v key d st).
Proof.
  intros Hst Hd m id text b x Hm Hk Hp. destruct st as [m0|]; [|done]. cbn in Hm. injection Hm as <-. destruct (dirty v d).
  - destruct (decide (key = media_key id)) as [->|Hne]; [|rewrite lookup_insert_ne in Hk by done; by eapply Hst].
    rewrite lookup_insert_eq in Hk. injection Hk as <-. rewrite parse_stringify_state in Hp. by injection Hp as <- <-.
  - apply lookup_delete_Some in Hk as [_ Hk]. by eapply Hst.
Qed.

Lemma media_settle_inv s : inv s → inv (settle_draft s).
Proof.
  intros [Hc Hs Hi Hl Hst]. assert (NoDup (isos (draft_value (settle_draft s)))) as Hd by (destruct (settle_draft_value s Hc) as [-> | ->]; done).
  split; try done. by apply store_ok.
Qed.

Lemma ensureIsos_inv s : inv s → inv (ensureIsos s).1.
Proof.
  intros [Hc Hs Hi Hl Hst]. destruct (ensureIsos_frame s) as (Ev & Ef & El).
  split; rewrite ?Ev, ?Ef, ?El, ?(draft_value_form _ _ Ef); done.
Qed.

Lemma handle_inv e s : inv s → allowed s e → inv (handle e s).1.
Proof.
  intros Hi He. destruct e as [a|v|answer|answer].
  - apply view_offered in He. destruct (edited_complete a s Hi He) as [Hn _].
    destruct (handle_user a s) as (Ev & Ed & Ec & El & Es). destruct Hi as [Hc Hs _ Hl Hst].
    split; rewrite ?Ev, ?Ed, ?Ec, ?El, ?Es; done.
  - destruct Hi as [Hc Hs Hn Hl Hst]. by split.
  - cbn. unfold isos_answer. case_match; [done|]. destruct Hi as [Hc Hs Hn Hl Hst]. destruct answer as [l|m]; cbn; split; try done.
    cbn. intros m Hm. by apply list_elem_of_In, filter_In in Hm as [_ ?%String.eqb_eq].
  - destruct Hi as [Hc Hs Hn Hl Hst]. cbn. unfold save_answer. repeat case_match; by split.
Qed.

Lemma media_step_inv s e : inv s → allowed s e → inv (step s e).1.
Proof.
  intros Hi He. pose proof (media_settle_inv _ (handle_inv e s Hi He)) as Hs. unfold step.
  destruct (handle e s) as [s1 o1]. cbn in Hs. case_match; [|done].
  assert (inv (iso_effect (settle_draft s1)).1).
  { unfold iso_effect. case_match; [done|]. by apply ensureIsos_inv. }
  by destruct (iso_effect (settle_draft s1)).
Qed.

(** What the session storage holds under the keys of these forms when one is opened: nothing (in a new tab, or when it is
    disabled); or drafts that [st'] held, what else is in it or was removed from it. *)
Definition no_drafts (st : storage) : Prop := ∀ m id, st = Some m → m !! media_key id = None.
Definition drafts_of (st' st : storage) : Prop :=
  ∀ m id text, st = Some m → m !! media_key id = Some text → ∃ m', st' = Some m' ∧ m' !! media_key id = Some text.

(** The states of the forms of a tab: opened in it for any machine, on what the storage holds then, or used. The drafts in the
    storage are those the form before left there. *)
Inductive form_reachable : state → Prop :=
  | reach_mount v st : NoDup (manifest_isos (vm_manifest v)) → no_drafts st → form_reachable (mount v st).1
  | reach_reload s v st : form_reachable s → NoDup (manifest_isos (vm_manifest v)) → drafts_of (stored (draft_form s)) st → form_reachable (mount v st).1
  | reach_step s e : form_reachable s → allowed s e → form_reachable (step s e).1.

Lemma media_mount_inv v st : NoDup (manifest_isos (vm_manifest v)) → drafts_ok st → inv (mount v st).1.
Proof.
  intros Hv Hst. unfold mount, iso_effect. set (s0 := mkState v _ _ _ _ _ _ _ _).
  set (s1 := mkState v (mkForm (saved_draft v) (draft_init (draft_key v) (saved_draft v) st) st) Idle "" false false None false "").
  assert (inv s1) as Hi.
  { split; try done; [|by intros m Hm%not_elem_of_nil]. unfold draft_value, s1, draft_init. cbn.
    destruct (st ≫= _) as [text|] eqn:E; [|done]. destruct (if truthy text then parse_state text else None) as [[b d]|] eqn:Ep; [|done].
    destruct st as [m|]; [|done]. destruct (truthy text); [|done]. by eapply (Hst m (m_id (vm_manifest v)) text b d). }
  assert (inv s0) as Hi0 by exact (media_settle_inv _ Hi).
  case_match; [done|]. by apply ensureIsos_inv.
Qed.

Lemma form_reachable_inv s : form_reachable s → inv s.
Proof.
  induction 1 as [v st Hv Hst|s v st Hs IH Hv Hst|s e Hs IH He]; [| |by apply media_step_inv].
  - apply media_mount_inv; [done|]. intros m id text b d Hm Hk. by rewrite (Hst m id Hm) in Hk.
  - apply media_mount_inv; [done|]. intros m id text b d Hm Hk Hp. destruct (Hst m id text Hm Hk) as (m' & Hm' & Hk').
    by eapply (inv_stored _ IH m').
Qed.

Lemma step_draft s e : draft_value (step s e).1 = draft_value (settle_draft (handle e s).1) ∧
  vm (step s e).1 = vm (handle e s).1.
Proof.
  unfold step. destruct (handle e s) as [s1 o1]. cbn [fst]. case_match; [|done].
  unfold iso_effect. destruct (manifest_isos _); [done|]. destruct (ensureIsos_frame (settle_draft s1)) as (Ev & Ef & _).
  destruct (ensureIsos (settle_draft s1)) as [s3 o3]. cbn in *. split; [by apply draft_value_form|by rewrite Ev].
Qed.

Lemma shown_order_saved s : draft_value s = saved_draft (vm s) → shown_order s = order (draft_value s).
Proof.
  unfold shown_order. intros ->. cbn. apply order_of_complete; [apply NoDup_order_of|].
  intros x. apply elem_of_order_of.
Qed.

(** The edits that change drives or order. *)
Definition edits (a : action) : Prop :=
  match a with
  | AddIso _ | RemoveIso _ | Move _ _ => True
  | ChangeIso x y => x ≠ y
  | _ => False
  end.

Lemma save_requests s r : r ∈ (save s).2 →
  r = UpdateMedia (m_id (vm_manifest (vm s))) (isos (draft_value s)) (shown_order s) ∨
  r = UpdateHardware (m_id (vm_manifest (vm s))) (autostart (draft_value s)) ∨ r = OnSaved.
Proof.
  unfold save. case_match; [by intros ?%not_elem_of_nil|].
  repeat case_match; intros Hr%list_elem_of_singleton; simplify_eq; auto.
Qed.

(** ** Properties *)

(** The order a user sees is the order the draft holds: in every state the form can reach, whatever
    the server changed meanwhile, after any edit of the drives or of the order that its controls offer,
    the displayed boot order is the order of the draft, it lists the devices of the machine and of the
    edited drives exactly once, and the value is the edited one, or the saved one it happens to equal. *)
Theorem edit_is_shown (s : state) (a : action) :
  form_reachable s → a ∈ offers (view s) → edits a →
  let s' := (step s (User a)).1 in
  shown_order s' = order (draft_value s') ∧
  (draft_value s' = edited a s ∨ draft_value s' = saved_draft (vm s)) ∧
  NoDup (isos (draft_value s')) ∧
  NoDup (shown_order s') ∧ ∀ x, x ∈ shown_order s' ↔ x ∈ boot_devices (disks_of s) (isos (draft_value s')).
Proof.
  intros Hs Ha He. cbn zeta. pose proof (form_reachable_inv _ Hs) as Hi.
  pose proof (inv_isos _ (media_step_inv s (User a) Hi Ha)) as Hn.
  destruct (step_draft s (User a)) as [Ed Ev]. destruct (handle_user a s) as (Ehv & Ehd & Ehc & _).
  assert (shown_order (step s (User a)).1 = order (draft_value (step s (User a)).1) ∧
    (draft_value (step s (User a)).1 = edited a s ∨ draft_value (step s (User a)).1 = saved_draft (vm s))) as [Ho Hval].
  { assert (current (draft_form (handle (User a) s).1) = saved_draft (vm (handle (User a) s).1)) as Hcur
      by by rewrite Ehc, Ehv, (inv_current _ Hi).
    destruct (settle_draft_value _ Hcur) as [E|E].
    - split; [|left; congruence]. unfold shown_order. rewrite Ed, Ev, E, Ehd, Ehv.
      destruct (edited_complete a s Hi (view_offered _ _ Ha)) as [_ Hc].
      destruct a; try done; (apply order_of_complete; [by apply Hc|intros x; by apply Hc]).
    - split; [|right; congruence]. apply shown_order_saved. by rewrite Ed, E, Ev. }
  split; [done|]. split; [done|]. split; [done|].
  assert (disks_of (step s (User a)).1 = disks_of s) as <- by (unfold disks_of; by rewrite Ev, Ehv).
  destruct (shown_order_complete (step s (User a)).1) as [Hn2 Hx].
  done.
Qed.


(** While a save is being answered the form offers nothing, and while the machine runs only what
    does not change the draft, or discards it. *)
Theorem blocked_form (s : state) :
  (is_busy s = true → offers (view s) = []) ∧
  (running s = true → ∀ a, a ∈ offers (view s) → a = CancelAdding ∨ a = DiscardChanges).
Proof.
  assert (∀ a, a ∈ offers (view s) → blocked s = true → is_busy s = false ∧ (a = CancelAdding ∨ a = DiscardChanges)) as Hb.
  { intros a Ha%view_offered Hb. destruct a; cbn in Ha; destruct_and?; try congruence; auto. }
  unfold blocked in Hb. split.
  - intros H. destruct (offers (view s)) as [|a os] eqn:E; [done|].
    destruct (Hb a) as [? _]; [by left|by rewrite H, orb_true_r|congruence].
  - intros H a Ha. by apply Hb; [|rewrite H].
Qed.

(** The effect calls [ensureIsos] again as soon as it fails: while the library cannot be listed, a form
    of a machine with a CD-ROM issues one request after the other. *)
Lemma iso_failure_refetches (s : state) (message : string) :
  manifest_isos (vm_manifest (vm s)) ≠ [] → isoList s = None → loadingIsos s = true →
  let '(s', o) := step s (IsosAnswer (inr message)) in
  o = [ListMedia] ∧ isoList s' = None ∧ loadingIsos s' = true ∧ vm s' = vm s.
Proof.
  intros Hm Hl Hload. unfold step. cbn [handle]. unfold isos_answer. rewrite Hload. cbn [negb].
  unfold deps_changed. cbn. rewrite Hload. cbn. unfold iso_effect. cbn.
  destruct (manifest_isos (vm_manifest (vm s))); [done|]. unfold ensureIsos. cbn. by rewrite Hl.
Qed.

End media.

(** ** Witnesses *)

#[export] Instance action_eq_dec : EqDecision action.
Proof. solve_decision. Defined.
#[export] Instance request_eq_dec : EqDecision request.
Proof. solve_decision. Defined.

Definition sample_manifest : VMManifest :=
  mkVMManifest None None (Some ["iso:a"; "disk"]) 2 20 (Some [mkVMDisk "d1" "Disk 2" 8]) "vm1" "debian" None
    (Some ["a"]) 2048 "web" None None None "maco".
Definition sample_vm : VMView := mkVMView 0 sample_manifest "stopped" 0.
Definition sample_library : list Media :=
  [mkMedia "a" true "iso" "Installer" 1; mkMedia "b" false "iso" "Rescue" 1; mkMedia "c" false "image" "Debian" 2].

Definition loaded_form : state := (step (mount sample_vm (Some ∅)).1 (IsosAnswer (inl sample_library))).1.
Definition changed_form : state := (step loaded_form (User (ChangeIso "a" "b"))).1.

Lemma sample_vm_isos : NoDup (manifest_isos (vm_manifest sample_vm)).
Proof. apply NoDup_singleton. Qed.
Lemma loaded_form_reachable : form_reachable loaded_form.
Proof. apply reach_step; [|done]. apply reach_mount; [apply sample_vm_isos|]. by intros m id [= <-]. Qed.
Lemma changed_form_reachable : form_reachable changed_form.
Proof.
  apply reach_step; [apply loaded_form_reachable|].
  change (ChangeIso "a" "b" ∈ offers (view loaded_form)). apply (bool_decide_unpack _). by vm_compute.
Qed.

(** The page is loaded again: the draft is there, and the library is not fetched yet. *)
Definition reloaded_form : state := (mount sample_vm (stored (draft_form changed_form))).1.
Lemma reloaded_form_reachable : form_reachable reloaded_form.
Proof. apply (reach_reload changed_form); [apply changed_form_reachable|apply sample_vm_isos|]. intros m id text Hm Hk. by exists m. Qed.

Lemma edit_is_shown_witness :
  shown_order changed_form = order (draft_value changed_form) ∧ shown_order changed_form = ["iso:b"; "disk"; "disk:d1"].
Proof.
  split; [|vm_compute; reflexivity].
  refine (proj1 (edit_is_shown loaded_form (ChangeIso "a" "b") loaded_form_reachable _ _)).
  - apply (bool_decide_unpack _). vm_compute. exact I.
  - discriminate.
Defined.

Definition sample_lookup (id : string) : option Media :=
  List.find (λ m, String.eqb (media_id m) id) sample_library.


Lemma blocked_form_witness : offers (view (step changed_form (User Save)).1) = [].
Proof. apply (blocked_form (step changed_form (User Save)).1). vm_compute. reflexivity. Defined.
