(* ===== verification/PathSerializer.v ===== *)
(** * Serialisation of parameters

    [src/web/src/api/generated/core/pathSerializer.gen.ts], [core/utils.gen.ts] and
    [createQuerySerializer] of [client/utils.gen.ts]: how the values of a call get into its URL.
    Elements of arrays and objects are the strings the generated types cast them to. *)

From S2P Require Import Prelude JsString.
Local Open Scope string_scope.

(** ** [encodeURIComponent] *)

Definition unreserved (c : ascii) : bool :=
  is_alnum c || is_char "-" c || is_char "_" c || is_char "." c || is_char "!" c || is_char "~" c
  || is_char "*" c || is_char "'" c || is_char "(" c || is_char ")" c.

Definition upper_hex (n : N) : ascii := if (n <? 10)%N then ascii_of_N (48 + n) else ascii_of_N (55 + n).

Definition encode_char (c : ascii) : string :=
  if unreserved c then String c ""
  else String "%" (String (upper_hex (code c / 16)) (String (upper_hex (code c mod 16)) "")).

Fixpoint encodeURIComponent (s : string) : string :=
  match s with "" => "" | String c r => encode_char c ++ encodeURIComponent r end.

(** The inverse, on the bytes; [None] where [decodeURIComponent] throws for a bad escape. *)
Definition hex_value (c : ascii) : option N :=
  if is_digit c then Some (code c - 48)%N
  else if in_range 65 70 c then Some (code c - 55)%N
  else if in_range 97 102 c then Some (code c - 87)%N
  else None.

Fixpoint decodeURIComponent (s : string) : option string :=
  match s with
  | "" => Some ""
  | String c r =>
      if Ascii.eqb c "%" then
        match r with
        | String a (String b r) =>
            h ← hex_value a; l ← hex_value b; t ← decodeURIComponent r; Some (String (ascii_of_N (h * 16 + l)) t)
        | _ => None
        end
      else String c <$> decodeURIComponent r
  end.

(** ** Styles *)

Inductive style := Form | SpaceDelimited | PipeDelimited | LabelStyle | Matrix | Simple | DeepObject.
#[export] Instance style_eq_dec : EqDecision style.
Proof. solve_decision. Defined.

Definition separatorArrayExplode (s : style) : string :=
  match s with LabelStyle => "." | Matrix => ";" | Simple => "," | _ => "&" end.
Definition separatorArrayNoExplode (s : style) : string :=
  match s with Form => "," | PipeDelimited => "|" | SpaceDelimited => "%20" | _ => "," end.
Definition separatorObjectExplode (s : style) : string :=
  match s with LabelStyle => "." | Matrix => ";" | Simple => "," | _ => "&" end.

Definition maybe_encode (allowReserved : bool) (v : string) : string :=
  if allowReserved then v else encodeURIComponent v.

Definition serializePrimitiveParam (allowReserved : bool) (name value : string) : string :=
  name ++ "=" ++ maybe_encode allowReserved value.

Definition serializeArrayParam (allowReserved explode : bool) (name : string) (st : style) (value : list string) : string :=
  if negb explode then
    let joinedValues := join (separatorArrayNoExplode st) (maybe_encode allowReserved <$> value) in
    match st with
    | LabelStyle => "." ++ joinedValues
    | Matrix => ";" ++ name ++ "=" ++ joinedValues
    | Simple => joinedValues
    | _ => name ++ "=" ++ joinedValues
    end
  else
    let separator := separatorArrayExplode st in
    let joinedValues :=
      join separator ((λ v, match st with
                            | LabelStyle | Simple => maybe_encode allowReserved v
                            | _ => serializePrimitiveParam allowReserved name v
                            end) <$> value) in
    match st with LabelStyle | Matrix => separator ++ joinedValues | _ => joinedValues end.

Definition serializeObjectParam (allowReserved explode : bool) (name : string) (st : style)
    (value : list (string * string)) : string :=
  if negb (bool_decide (st = DeepObject)) && negb explode then
    let joinedValues := join "," (concat ((λ '(k, v), [k; maybe_encode allowReserved v]) <$> value)) in
    match st with
    | Form => name ++ "=" ++ joinedValues
    | LabelStyle => "." ++ joinedValues
    | Matrix => ";" ++ name ++ "=" ++ joinedValues
    | _ => joinedValues
    end
  else
    let separator := separatorObjectExplode st in
    let joinedValues :=
      join separator ((λ '(k, v), serializePrimitiveParam allowReserved
        (if bool_decide (st = DeepObject) then name ++ "[" ++ k ++ "]" else k) v) <$> value) in
    match st with LabelStyle | Matrix => separator ++ joinedValues | _ => joinedValues end.

(** The value of a parameter: absent ([undefined] or [null]), a scalar by its text, an array, an object
    or a date by its ISO text. *)
Inductive param :=
  | Absent
  | Scalar (text : string)
  | Array (items : list string)
  | Object (entries : list (string * string))
  | Date (iso : string).

Definition serialize_object (allowReserved explode : bool) (name : string) (st : style) (valueOnly : bool) (p : param) : string :=
  match p with
  | Date iso => if valueOnly then iso else name ++ "=" ++ iso
  | Object entries => serializeObjectParam allowReserved explode name st entries
  | _ => ""
  end.

(** ** Paths *)

(** [url.match(/\{[^{}]+\}/g)]: the texts between braces, from left to right. [cur] is what was read
    since the last opening brace, if any. *)
Fixpoint scan_params (cur : option string) (s : string) : list string :=
  match s with
  | "" => []
  | String c r =>
      if Ascii.eqb c "{" then scan_params (Some "") r
      else match cur with
           | None => scan_params None r
           | Some w =>
               if Ascii.eqb c "}"
               then if String.eqb w "" then scan_params None r else w :: scan_params None r
               else scan_params (Some (w ++ String c "")) r
           end
  end.
Definition path_params (url : string) : list string := scan_params None url.

(** The [$] patterns of a replacement text. *)
Fixpoint expand (before matched after rep : string) : string :=
  match rep with
  | "" => ""
  | String c r =>
      if Ascii.eqb c "$" then
        match r with
        | String d r2 =>
            if Ascii.eqb d "$" then String "$" (expand before matched after r2)
            else if Ascii.eqb d "&" then matched ++ expand before matched after r2
            else if Ascii.eqb d "`" then before ++ expand before matched after r2
            else if Ascii.eqb d "'" then after ++ expand before matched after r2
            else String c (expand before matched after r)
        | "" => "$"
        end
      else String c (expand before matched after r)
  end.

(** [url.replace(pattern, rep)] on a text pattern: its first occurrence. [before] is what was skipped. *)
Fixpoint replace_from (before pattern rep s : string) : string :=
  match strip_prefix pattern s with
  | Some after => expand before pattern after rep ++ after
  | None =>
      match s with
      | "" => ""
      | String c r => String c (replace_from (before ++ String c "") pattern rep r)
      end
  end.
Definition replace_first (pattern rep s : string) : string := replace_from "" pattern rep s.

Definition lookup_param (name : string) (path : list (string * param)) : param :=
  match List.find (λ p, String.eqb (fst p) name) path with Some (_, v) => v | None => Absent end.

(** The name, style and explosion that a matched text asks for. *)
Definition param_style (matched : string) : string * style * bool :=
  let '(name, explode) :=
    if ends_with "*" matched then (rev_str (match rev_str matched with String _ r => r | "" => "" end), true)
    else (matched, false) in
  match name with
  | String "." r => (r, LabelStyle, explode)
  | String ";" r => (r, Matrix, explode)
  | _ => (name, Simple, explode)
  end.

Definition substitute (path : list (string * param)) (url matched : string) : string :=
  let '(name, st, explode) := param_style matched in
  let pattern := "{" ++ matched ++ "}" in
  match lookup_param name path with
  | Absent => url
  | Array items => replace_first pattern (serializeArrayParam false explode name st items) url
  | (Object _ | Date _) as v => replace_first pattern (serialize_object false explode name st true v) url
  | Scalar v =>
      match st with
      | Matrix => replace_first pattern (";" ++ serializePrimitiveParam false name v) url
      | LabelStyle => replace_first pattern (encodeURIComponent ("." ++ v)) url
      | _ => replace_first pattern (encodeURIComponent v) url
      end
  end.

Definition defaultPathSerializer (path : list (string * param)) (url : string) : string :=
  foldl (substitute path) url (path_params url).

(** ** Queries *)

Record QuerySerializerOptions := mkQuerySerializerOptions {
  qo_allowReserved : bool;
  qo_array_explode : bool; qo_array_style : style;
  qo_object_explode : bool; qo_object_style : style
}.
Definition defaultQueryOptions : QuerySerializerOptions := mkQuerySerializerOptions false true Form true DeepObject.

(** One parameter's text, empty when it is left out. *)
Definition serialize_query_param (o : QuerySerializerOptions) (name : string) (v : param) : string :=
  match v with
  | Absent => ""
  | Array items => serializeArrayParam (qo_allowReserved o) (qo_array_explode o) name (qo_array_style o) items
  | Object _ | Date _ => serialize_object (qo_allowReserved o) (qo_object_explode o) name (qo_object_style o) false v
  | Scalar t => serializePrimitiveParam (qo_allowReserved o) name t
  end.

(** The options of a parameter of its own replace the others. *)
Definition createQuerySerializer (o : QuerySerializerOptions) (parameters : list (string * QuerySerializerOptions))
    (query : list (string * param)) : string :=
  join "&" (List.filter truthy
    ((λ '(name, v), serialize_query_param
        (match List.find (λ p, String.eqb (fst p) name) parameters with Some (_, o') => o' | None => o end) name v) <$> query)).

Definition defaultQuerySerializer : list (string * param) → string := createQuerySerializer defaultQueryOptions [].

(** ** URLs *)

Definition getUrl (baseUrl : option string) (path query : option (list (string * param)))
    (querySerializer : list (string * param) → string) (url : string) : string :=
  let pathUrl := if starts_with "/" url then url else "/" ++ url in
  let url := default "" baseUrl ++ pathUrl in
  let url := match path with Some path => defaultPathSerializer path url | None => url end in
  let search := match query with Some q => querySerializer q | None => "" end in
  let search := match search with String "?" r => r | _ => search end in
  if truthy search then url ++ "?" ++ search else url.

(** ** Lemmas on the encoding *)

Lemma encode_app s t : encodeURIComponent (s ++ t) = encodeURIComponent s ++ encodeURIComponent t.
Proof. induction s as [|c s IH]; [done|]. cbn. by rewrite IH, str_app_assoc. Qed.

Lemma decode_encode_char c t : decodeURIComponent (encode_char c ++ t) = String c <$> decodeURIComponent t.
Proof.
  destruct c as [[] [] [] [] [] [] [] []]; try reflexivity; cbn; by destruct (decodeURIComponent t).
Qed.

Lemma decode_encode s : decodeURIComponent (encodeURIComponent s) = Some s.
Proof. induction s as [|c s IH]; [done|]. cbn [encodeURIComponent]. by rewrite decode_encode_char, IH. Qed.

#[export] Instance encodeURIComponent_inj : Inj (=) (=) encodeURIComponent.
Proof. intros s t E. apply (inj Some). by rewrite <- !decode_encode, E. Qed.

Definition encoded_char (c : ascii) : bool := unreserved c || is_char "%" c.

Lemma encode_chars s : all_chars encoded_char (encodeURIComponent s) = true.
Proof.
  induction s as [|c s IH]; [done|]. cbn [encodeURIComponent]. rewrite all_chars_app, IH, andb_true_r.
  destruct c as [[] [] [] [] [] [] [] []]; reflexivity.
Qed.

(** No character with a meaning in a URL survives. *)
Lemma encode_no c s : encoded_char c = false → c ∉ chars (encodeURIComponent s).
Proof.
  intros Hc Hin. pose proof (encode_chars s) as Ha. rewrite all_chars_spec in Ha. specialize (Ha c Hin). congruence.
Qed.

Lemma encode_empty s : encodeURIComponent s = "" ↔ s = "".
Proof.
  split; [|by intros ->]. intros E. apply (inj encodeURIComponent). done.
Qed.

Lemma encode_char_length c : (1 ≤ String.length (encode_char c))%nat.
Proof. unfold encode_char. case_match; cbn [String.length]; lia. Qed.

Lemma encode_length s : (String.length s ≤ String.length (encodeURIComponent s))%nat.
Proof.
  induction s as [|c s IH]; [done|]. cbn [encodeURIComponent String.length]. rewrite str_length_app.
  pose proof (encode_char_length c). lia.
Qed.

(** A character that has to be escaped makes the text longer. *)
Lemma encode_longer c s : unreserved c = false → c ∈ chars s → (String.length s < String.length (encodeURIComponent s))%nat.
Proof.
  intros Hc. induction s as [|d s IH]; cbn [chars]; [by intros ?%not_elem_of_nil|].
  cbn [encodeURIComponent String.length]. rewrite str_length_app. intros [<-|Hin]%elem_of_cons.
  - pose proof (encode_length s). unfold encode_char. rewrite Hc. cbn [String.length]. lia.
  - specialize (IH Hin). pose proof (encode_char_length d). lia.
Qed.

(** The texts the encoding leaves alone are those of unreserved characters. *)
Lemma encode_id s : encodeURIComponent s = s ↔ all_chars unreserved s = true.
Proof.
  split.
  - intros E. apply all_chars_spec. intros c Hc. destruct (unreserved c) eqn:U; [done|].
    pose proof (encode_longer c s U Hc) as Hl. rewrite E in Hl. lia.
  - induction s as [|c s IH]; [done|]. unfold all_chars. cbn [chars forallb]. intros [Hc Hs]%andb_true_iff.
    cbn [encodeURIComponent]. rewrite IH by done. unfold encode_char. by rewrite Hc.
Qed.

(** ** Templates of paths *)

Inductive segment := Lit (s : string) | Par (name : string).
#[export] Instance segment_eq_dec : EqDecision segment.
Proof. solve_decision. Defined.

Definition seg_text (g : segment) : string := match g with Lit s => s | Par n => "{" ++ n ++ "}" end.
Fixpoint render (t : list segment) : string := match t with [] => "" | g :: t => seg_text g ++ render t end.
Definition names (t : list segment) : list string := omap (λ g, match g with Par n => Some n | Lit _ => None end) t.

Definition no_brace (c : ascii) : bool := negb (is_char "{" c) && negb (is_char "}" c).
(** Names of parameters that ask for no style. *)
Definition plain_name (n : string) : bool :=
  all_chars no_brace n && truthy n && negb (ends_with "*" n) && negb (starts_with "." n) && negb (starts_with ";" n).
Definition good_segment (g : segment) : bool :=
  match g with Lit s => all_chars no_brace s | Par n => plain_name n end.
Definition good_template (t : list segment) : Prop := Forall (λ g, good_segment g = true) t ∧ NoDup (names t).

#[export] Instance good_template_dec t : Decision (good_template t).
Proof. unfold good_template. apply _. Defined.

(** The text a template stands for: values encoded in their places. *)
Definition fill_segment (path : list (string * param)) (g : segment) : segment :=
  match g with
  | Par n => match lookup_param n path with Scalar v => Lit (encodeURIComponent v) | _ => g end
  | Lit _ => g
  end.
Definition fill (path : list (string * param)) (t : list segment) : string := render (fill_segment path <$> t).

Lemma render_app t u : render (t ++ u)%list = render t ++ render u.
Proof. induction t as [|g t IH]; [done|]. cbn. by rewrite IH, str_app_assoc. Qed.

Lemma no_brace_cons c s : all_chars no_brace (String c s) = true ↔ (c ≠ "{"%char ∧ c ≠ "}"%char) ∧ all_chars no_brace s = true.
Proof.
  unfold all_chars at 1. cbn [chars forallb]. rewrite andb_true_iff. unfold no_brace at 1.
  rewrite andb_true_iff, !negb_true_iff, <- !not_true_iff_false, !is_char_spec. done.
Qed.

Lemma encode_no_brace s : all_chars no_brace (encodeURIComponent s) = true.
Proof.
  pose proof (encode_chars s) as Ha. rewrite all_chars_spec in Ha |- *. intros c Hc. specialize (Ha c Hc).
  destruct c as [[] [] [] [] [] [] [] []]; done.
Qed.

Lemma scan_lit s r : all_chars no_brace s = true → scan_params None (s ++ r) = scan_params None r.
Proof.
  induction s as [|c s IH]; [done|]. intros [[H1 H2] Hs]%no_brace_cons. cbn.
  rewrite (proj2 (Ascii.eqb_neq c "{")) by done. by apply IH.
Qed.

Lemma scan_inside w n r : all_chars no_brace n = true → w ++ n ≠ "" →
  scan_params (Some w) (n ++ String "}" r) = (w ++ n) :: scan_params None r.
Proof.
  revert w. induction n as [|c n IH]; intros w Hn Hne.
  - cbn. rewrite str_app_nil_r in *. by rewrite (proj2 (String.eqb_neq w "")).
  - apply no_brace_cons in Hn as [[H1 H2] Hn]. cbn.
    rewrite (proj2 (Ascii.eqb_neq c "{")), (proj2 (Ascii.eqb_neq c "}")) by done.
    rewrite IH by (done || (rewrite str_app_assoc; done)). by rewrite str_app_assoc.
Qed.

Lemma plain_name_no_brace n : plain_name n = true → all_chars no_brace n = true ∧ n ≠ "".
Proof. unfold plain_name. rewrite !andb_true_iff, truthy_true. tauto. Qed.

Lemma path_params_render t : Forall (λ g, good_segment g = true) t → path_params (render t) = names t.
Proof.
  unfold path_params. induction 1 as [|g t Hg Ht IH]; [done|]. cbn [render names omap list_omap].
  destruct g as [s|n]; cbn in Hg |- *.
  - by rewrite scan_lit.
  - apply plain_name_no_brace in Hg as [Hn Hne]. rewrite str_app_assoc.
    change ("}" ++ render t) with (String "}" (render t)). rewrite (scan_inside "") by done. by rewrite IH.
Qed.

Lemma param_style_plain n : plain_name n = true → param_style n = (n, Simple, false).
Proof.
  unfold plain_name, param_style. rewrite !andb_true_iff, !negb_true_iff. intros [[[_ ->] Hd] Hs].
  destruct n as [|c n]; [done|].
  destruct c as [[] [] [] [] [] [] [] []]; done.
Qed.

Lemma expand_plain b m a rep : "$"%char ∉ chars rep → expand b m a rep = rep.
Proof.
  induction rep as [|c rep IH]; [done|]. cbn [chars]. rewrite not_elem_of_cons. intros [Hc Hr]. cbn.
  rewrite (proj2 (Ascii.eqb_neq c "$")) by done. by rewrite IH.
Qed.

Definition no_open (c : ascii) : bool := negb (is_char "{" c).

Lemma no_open_cons c s : all_chars no_open (String c s) = true ↔ c ≠ "{"%char ∧ all_chars no_open s = true.
Proof.
  unfold all_chars at 1. cbn [chars forallb]. rewrite andb_true_iff. unfold no_open at 1.
  rewrite negb_true_iff, <- not_true_iff_false, is_char_spec. done.
Qed.

Lemma no_brace_no_open s : all_chars no_brace s = true → all_chars no_open s = true.
Proof. rewrite !all_chars_spec. intros H c Hc. specialize (H c Hc). unfold no_brace in H. by apply andb_true_iff in H as [? _]. Qed.

Lemma strip_prefix_cons c d p s : strip_prefix (String c p) (String d s) = if Ascii.eqb c d then strip_prefix p s else None.
Proof. done. Qed.

Lemma replace_skip b n rep s t : all_chars no_open s = true →
  replace_from b ("{" ++ n ++ "}") rep (s ++ t) = s ++ replace_from (b ++ s) ("{" ++ n ++ "}") rep t.
Proof.
  revert b. induction s as [|c s IH]; intros b; [by rewrite str_app_nil_r|]. intros [H1 Hs]%no_open_cons.
  change (String c s ++ t) with (String c (s ++ t)). cbn [replace_from].
  assert (strip_prefix ("{" ++ n ++ "}") (String c (s ++ t)) = None) as ->.
  { change ("{" ++ n ++ "}") with (String "{" (n ++ "}")). rewrite strip_prefix_cons.
    by rewrite (proj2 (Ascii.eqb_neq "{" c)) by congruence. }
  rewrite IH by done. by rewrite str_app_assoc.
Qed.

(** Two names closed by a brace: one is read where the other is only if they are the same. *)
Lemma names_differ n m r : all_chars no_brace n = true → all_chars no_brace m = true → n ≠ m →
  strip_prefix (n ++ "}") (m ++ String "}" r) = None.
Proof.
  revert m. induction n as [|c n IH]; intros m Hn Hm Hne.
  - destruct m as [|d m]; [done|]. apply no_brace_cons in Hm as [[_ Hd] _].
    change (("" ++ "}")) with (String "}" ""). change (String d m ++ String "}" r) with (String d (m ++ String "}" r)).
    rewrite strip_prefix_cons. by rewrite (proj2 (Ascii.eqb_neq "}" d)) by congruence.
  - apply no_brace_cons in Hn as [[_ Hc] Hn]. change (String c n ++ "}") with (String c (n ++ "}")). destruct m as [|d m].
    + change ("" ++ String "}" r) with (String "}" r). rewrite strip_prefix_cons. by rewrite (proj2 (Ascii.eqb_neq c "}")).
    + apply no_brace_cons in Hm as [_ Hm]. change (String d m ++ String "}" r) with (String d (m ++ String "}" r)).
      rewrite strip_prefix_cons. destruct (Ascii.eqb_spec c d) as [->|]; [|done].
      apply IH; [done|done|]. congruence.
Qed.

Lemma replace_here b p rep s : p ≠ "" → replace_from b p rep (p ++ s) = expand b p s rep ++ s.
Proof.
  intros Hp. pose proof (strip_prefix_self p s) as E. destruct p as [|c p]; [done|].
  change (String c p ++ s) with (String c (p ++ s)) in *. cbn [replace_from]. by rewrite E.
Qed.

Lemma replace_other b n m rep s : all_chars no_brace n = true → all_chars no_brace m = true → n ≠ m →
  ∃ b', replace_from b ("{" ++ n ++ "}") rep ("{" ++ m ++ "}" ++ s)
    = "{" ++ m ++ "}" ++ replace_from b' ("{" ++ n ++ "}") rep s.
Proof.
  intros Hn Hm Hne. pose proof (names_differ n m s Hn Hm Hne) as E.
  change ("{" ++ m ++ "}" ++ s) with (String "{" (m ++ String "}" s)). cbn [replace_from].
  assert (strip_prefix ("{" ++ n ++ "}") (String "{" (m ++ String "}" s)) = None) as -> by done.
  rewrite replace_skip by (by apply no_brace_no_open). change (String "}" s) with ("}" ++ s).
  rewrite (replace_skip _ n rep "}") by done. by eexists.
Qed.

(** The first occurrence of a parameter in a rendered template is its own place. *)
Lemma replace_from_render b n rep t w : "$"%char ∉ chars rep → all_chars no_brace n = true →
  Forall (λ g, good_segment g = true) t → n ∉ names t →
  replace_from b ("{" ++ n ++ "}") rep (render t ++ ("{" ++ n ++ "}") ++ w) = render t ++ rep ++ w.
Proof.
  intros Hr Hn Ht. revert b. induction Ht as [|g t Hg Ht IH]; intros b Hin.
  - change (render [] ++ ?x) with x. rewrite replace_here by done. by rewrite expand_plain.
  - change (render (g :: t)) with (seg_text g ++ render t). rewrite !(str_app_assoc (seg_text g)).
    destruct g as [s|m]; cbn [seg_text].
    + cbn in Hg. rewrite replace_skip by (by apply no_brace_no_open). by rewrite IH.
    + cbn in Hin. apply not_elem_of_cons in Hin as [Hne Hin]. cbn in Hg. apply plain_name_no_brace in Hg as [Hm _].
      destruct (replace_other b n m rep (render t ++ ("{" ++ n ++ "}") ++ w)) as [b' E]; [done..|].
      rewrite (str_app_assoc "{" (m ++ "}")), (str_app_assoc m). rewrite E. rewrite IH by done. by rewrite !str_app_assoc.
Qed.

Lemma names_app t u : names (t ++ u)%list = (names t ++ names u)%list.
Proof. unfold names. apply omap_app. Qed.

Lemma encode_no_dollar v : "$"%char ∉ chars (encodeURIComponent v).
Proof. by apply encode_no. Qed.

(** The values that fill a segment of a path: texts and numbers, or nothing. *)
Definition scalar_only (p : param) : Prop := match p with Scalar _ | Absent => True | _ => False end.

Lemma substitute_place path t n u : Forall (λ g, good_segment g = true) t → plain_name n = true → n ∉ names t →
  scalar_only (lookup_param n path) →
  substitute path (render (t ++ Par n :: u)%list) n = render (t ++ fill_segment path (Par n) :: u)%list.
Proof.
  intros Ht Hn Hin Hv. unfold substitute. rewrite param_style_plain by done. cbn [fill_segment].
  destruct (lookup_param n path); try done. rewrite !render_app. cbn [render seg_text]. unfold replace_first.
  apply plain_name_no_brace in Hn as [Hn _]. by rewrite replace_from_render by (done || apply encode_no_dollar).
Qed.

Lemma fill_segment_good path g : good_segment g = true → good_segment (fill_segment path g) = true.
Proof. destruct g as [s|n]; [done|]. cbn [fill_segment]. intros H. destruct (lookup_param n path); try done. apply encode_no_brace. Qed.

Lemma substitute_all path t u : Forall (λ g, good_segment g = true) (t ++ u)%list → NoDup (names (t ++ u)%list) →
  (∀ n, n ∈ names u → scalar_only (lookup_param n path)) →
  foldl (substitute path) (render (t ++ u)%list) (names u) = render (t ++ (fill_segment path <$> u))%list.
Proof.
  revert t. induction u as [|g u IH]; intros t Hg Hnd Hv; [done|].
  assert (∀ g', good_segment g' = true → NoDup (names (t ++ [g'] ++ u)%list) →
    foldl (substitute path) (render (t ++ g' :: u)%list) (names u) = render (t ++ g' :: (fill_segment path <$> u))%list) as Hnext.
  { intros g' Hg' Hnd'. rewrite (cons_middle g' t u), (cons_middle g' t (fill_segment path <$> u)), !app_assoc. apply IH.
    - rewrite Forall_app, Forall_cons in Hg. rewrite !Forall_app, Forall_singleton. tauto.
    - by rewrite <- app_assoc.
    - intros n Hn. apply Hv. destruct g as [s|m]; [done|]. change (n ∈ m :: names u). apply elem_of_cons; auto. }
  rewrite fmap_cons. destruct g as [s|n].
  - cbn [fill_segment]. apply Hnext; [|done]. rewrite Forall_app, Forall_cons in Hg. tauto.
  - change (names (Par n :: u)) with (n :: names u) in *. cbn [foldl]. rewrite Forall_app, Forall_cons in Hg.
    destruct Hg as (Ht & Hn & Hu). rewrite names_app in Hnd. change (names (Par n :: u)) with (n :: names u) in Hnd.
    rewrite NoDup_app, NoDup_cons in Hnd. destruct Hnd as (Hd1 & Hd2 & Hd3 & Hd4).
    rewrite substitute_place; [|done|done| |].
    + apply Hnext; [by apply fill_segment_good|]. rewrite !names_app. cbn [fill_segment].
      assert (∀ l, l = names u ∨ l = n :: names u → NoDup (names t ++ l)%list) as Hl.
      { intros l Hl. apply NoDup_app. destruct Hl as [->| ->].
        - split_and!; [done| |done]. intros x Hx Hx'. by apply (Hd2 x Hx), elem_of_cons; right.
        - split_and!; [done|done|by apply NoDup_cons]. }
      destruct (lookup_param n path); apply Hl; cbn; auto.
    + intros Hx. by apply (Hd2 n Hx), elem_of_cons; left.
    + apply Hv, elem_of_cons; auto.
Qed.

(** A template is filled with the encoded values of its parameters, each in its own place. *)
Lemma defaultPathSerializer_fill path t : good_template t → (∀ n, n ∈ names t → scalar_only (lookup_param n path)) →
  defaultPathSerializer path (render t) = fill path t.
Proof.
  intros [Hg Hnd] Hv. unfold defaultPathSerializer, fill. rewrite path_params_render by done.
  by apply (substitute_all path [] t).
Qed.

(** ** Queries read back *)

(** How the server reads a query (Go's [net/url]): pairs between [&], the first [=] ends the name, [+] is
    a space and [%XX] a byte. *)
Fixpoint plus_to_space (s : string) : string :=
  match s with "" => "" | String c r => String (if Ascii.eqb c "+" then " "%char else c) (plus_to_space r) end.
Definition queryUnescape (s : string) : option string := decodeURIComponent (plus_to_space s).
Definition parse_pair (s : string) : option (string * string) :=
  match split_on "=" s with
  | [] => None
  | n :: v => n' ← queryUnescape n; v' ← queryUnescape (join "=" v); Some (n', v')
  end.
Definition parseQuery (s : string) : option (list (string * string)) :=
  if truthy s then mapM parse_pair (split_on "&" s) else Some [].

(** The pairs a query stands for. *)
Definition pairs_of (e : string * param) : list (string * string) :=
  let '(n, v) := e in
  match v with
  | Absent | Date _ => []
  | Scalar t => [(n, t)]
  | Array items => pair n <$> items
  | Object entries => (λ '(k, t), (n ++ "[" ++ k ++ "]", t)) <$> entries
  end.
Definition pair_text (p : string * string) : string := fst p ++ "=" ++ encodeURIComponent (snd p).

(** Names that need no encoding, and no dates among the values. *)
Definition name_char (c : ascii) : bool := unreserved c || is_char "[" c || is_char "]" c.
Definition plain_entry (e : string * param) : bool :=
  all_chars unreserved (fst e) &&
  match snd e with Date _ => false | Object entries => forallb (λ '(k, _), all_chars unreserved k) entries | _ => true end.

Lemma serialize_pairs e : plain_entry e = true →
  serialize_query_param defaultQueryOptions (fst e) (snd e) = join "&" (pair_text <$> pairs_of e).
Proof.
  destruct e as [n [|t|items|entries|iso]]; cbn [fst snd]; try done.
  - intros _. cbn [serialize_query_param serializeArrayParam defaultQueryOptions qo_array_explode qo_array_style negb pairs_of].
    by rewrite <- list_fmap_compose.
  - intros _. cbn [pairs_of]. rewrite <- list_fmap_compose.
    cbn [serialize_query_param serialize_object serializeObjectParam defaultQueryOptions qo_object_explode qo_object_style negb].
    cbn [bool_decide]. unfold serializeObjectParam. rewrite bool_decide_eq_true_2 by done. cbn [negb andb].
    f_equal. apply list_fmap_ext. intros _ [k v] _. done.
  - unfold plain_entry. by rewrite andb_false_r.
Qed.

Lemma pairs_plain e : plain_entry e = true → Forall (λ p, all_chars name_char (fst p) = true) (pairs_of e).
Proof.
  assert (∀ s, all_chars unreserved s = true → all_chars name_char s = true) as Hu.
  { intros s. rewrite !all_chars_spec. intros H c Hc. unfold name_char. by rewrite (H c Hc). }
  unfold plain_entry. destruct e as [n [|t|items|entries|iso]]; cbn [fst snd pairs_of]; rewrite andb_true_iff; intros [Hn Hv].
  - constructor.
  - by apply Forall_singleton, Hu.
  - apply Forall_fmap, Forall_forall. intros t _. by apply Hu.
  - apply Forall_fmap, Forall_forall. intros [k t] Hin. unfold compose. cbn [fst]. rewrite !all_chars_app.
    rewrite forallb_forall in Hv. specialize (Hv (k, t) (proj1 (list_elem_of_In _ _) Hin)). cbn in Hv.
    by rewrite (Hu n), (Hu k).
  - constructor.
Qed.

Lemma join_filter_concat sep ls : Forall (Forall (λ s, truthy s = true)) ls →
  join sep (List.filter truthy (join sep <$> ls)) = join sep (concat ls).
Proof.
  assert (∀ x l, Forall (λ s, truthy s = true) (x :: l) → truthy (join sep (x :: l)) = true) as Hne.
  { intros x l [Hx _]%Forall_cons. apply truthy_true in Hx. apply truthy_true. destruct x; [done|]. by destruct l. }
  assert (∀ l k, k ≠ [] → l ≠ [] → join sep (l ++ k)%list = join sep l ++ sep ++ join sep k) as Happ.
  { induction l as [|x l IH]; [done|]. intros k Hk _. destruct l as [|y l].
    - destruct k; [done|]. done.
    - change ((x :: y :: l) ++ k)%list with (x :: y :: (l ++ k))%list. rewrite !join_cons.
      change (y :: l ++ k)%list with ((y :: l) ++ k)%list. rewrite IH by done. by rewrite !str_app_assoc. }
  induction 1 as [|l ls Hl Hls IH]; [done|]. cbn [fmap list_fmap List.filter concat].
  destruct l as [|x l]; [done|]. rewrite (Hne x l Hl). 
  assert (concat ls = [] ∧ List.filter truthy (join sep <$> ls) = [] ∨ concat ls ≠ [] ∧ List.filter truthy (join sep <$> ls) ≠ []) as H.
  { clear IH. induction Hls as [|k ls Hk Hls IH]; [by left|]. cbn [fmap list_fmap List.filter concat]. destruct k as [|y k]; [done|].
    rewrite (Hne y k Hk). by right. }
  destruct H as [[H1 H2]|[H1 H2]].
  - by rewrite H1, H2, app_nil_r.
  - rewrite Happ by done. change (list_fmap _ _ (join sep) ls) with (join sep <$> ls). rewrite <- IH.
    destruct (List.filter truthy (join sep <$> ls)); done.
Qed.

Lemma queryUnescape_plain s : all_chars name_char s = true → queryUnescape s = Some s.
Proof.
  unfold queryUnescape. induction s as [|c s IH]; [done|]. unfold all_chars. cbn [chars forallb].
  intros [Hc Hs]%andb_true_iff. cbn [plus_to_space decodeURIComponent].
  destruct (Ascii.eqb_spec c "+") as [->|]; [done|]. destruct (Ascii.eqb_spec c "%") as [->|]; [done|]. by rewrite IH.
Qed.

Lemma queryUnescape_encode s : queryUnescape (encodeURIComponent s) = Some s.
Proof.
  unfold queryUnescape. rewrite <- (decode_encode s). f_equal. pose proof (encode_no "+" s eq_refl) as Hp.
  induction (encodeURIComponent s) as [|c t IH]; [done|]. cbn [chars] in Hp. apply not_elem_of_cons in Hp as [Hc Ht].
  cbn [plus_to_space]. rewrite (proj2 (Ascii.eqb_neq c "+")) by done. by rewrite IH.
Qed.

Lemma name_char_no c n : name_char c = false → all_chars name_char n = true → c ∉ chars n.
Proof. intros Hc Hn Hin. rewrite all_chars_spec in Hn. specialize (Hn c Hin). congruence. Qed.

Lemma parse_pair_text p : all_chars name_char (fst p) = true → parse_pair (pair_text p) = Some p.
Proof.
  destruct p as [n v]. cbn [fst]. intros Hn. unfold parse_pair, pair_text. cbn [fst snd].
  change ("=" ++ encodeURIComponent v) with (String "=" (encodeURIComponent v)).
  rewrite split_on_cons by (by apply name_char_no). rewrite split_on_no_sep by (by apply encode_no). cbn [join].
  rewrite (queryUnescape_plain n Hn). cbn. by rewrite queryUnescape_encode.
Qed.

Lemma default_query_pairs q : Forall (λ e, plain_entry e = true) q →
  defaultQuerySerializer q = join "&" (pair_text <$> (q ≫= pairs_of)).
Proof.
  intros Hq. unfold defaultQuerySerializer, createQuerySerializer. cbn [List.find].
  transitivity (join "&" (List.filter truthy (join "&" <$> ((λ e, pair_text <$> pairs_of e) <$> q)))).
  { f_equal. f_equal. rewrite <- list_fmap_compose. apply list_fmap_ext. intros i [n v] Hi.
    apply (serialize_pairs (n, v)). rewrite Forall_forall in Hq. eapply Hq, list_elem_of_lookup_2, Hi. }
  rewrite join_filter_concat.
  - f_equal. induction q as [|e q IH]; [done|]. apply Forall_cons in Hq as [_ Hq]. cbn. rewrite fmap_app. f_equal. by apply IH.
  - apply Forall_fmap, Forall_forall. intros e _. apply Forall_fmap, Forall_forall. intros [n v] _. unfold compose, pair_text. cbn.
    apply truthy_true. by destruct n.
Qed.

Lemma pair_text_no_amp p : all_chars name_char (fst p) = true → "&"%char ∉ chars (pair_text p).
Proof.
  intros Hn. unfold pair_text. rewrite !chars_app. rewrite !elem_of_app. intros [H|[H|H]].
  - by eapply name_char_no in Hn; [apply Hn|].
  - cbn in H. by apply list_elem_of_singleton in H.
  - by apply encode_no in H.
Qed.

(** C34. A query the client builds is read by the server as the pairs the caller asked for, in order: no
    value, whatever its characters, can add, drop or change a pair. Arrays repeat their name, objects use
    [name[key]], absent values leave nothing. *)
Theorem query_roundtrip q : Forall (λ e, plain_entry e = true) q →
  parseQuery (defaultQuerySerializer q) = Some (q ≫= pairs_of).
Proof.
  intros Hq. rewrite default_query_pairs by done.
  assert (Forall (λ p, all_chars name_char (fst p) = true) (q ≫= pairs_of)) as Hp.
  { induction Hq as [|e q He Hq IH]; [constructor|]. cbn. apply Forall_app. split; [by apply pairs_plain|done]. }
  revert Hp. generalize (q ≫= pairs_of). clear q Hq. intros ps Hp. unfold parseQuery.
  destruct ps as [|p ps]; [done|].
  assert (truthy (join "&" (pair_text <$> p :: ps)) = true) as ->.
  { apply truthy_true. destruct p as [n v], ps; destruct n; done. }
  rewrite split_on_join; [|done|].
  - induction Hp as [|p' ps' Hp' _ IH]; [done|]. cbn [fmap list_fmap mapM]. rewrite parse_pair_text by done. cbn [mbind option_bind].
    change (list_fmap _ _ pair_text ps') with (pair_text <$> ps'). by rewrite IH.
  - apply Forall_fmap. eapply Forall_impl; [exact Hp|]. intros p' Hp'. by apply pair_text_no_amp.
Qed.

Lemma query_roundtrip_witness :
  parseQuery (defaultQuerySerializer [("search", Scalar "a&focus=b c"); ("state", Array ["x"; "y+z"]); ("at", Absent)])
  = Some [("search", "a&focus=b c"); ("state", "x"); ("state", "y+z")].
Proof.
  rewrite (query_roundtrip [("search", Scalar "a&focus=b c"); ("state", Array ["x"; "y+z"]); ("at", Absent)]); [reflexivity|].
  repeat constructor.
Defined.
