(* ===== verification/Client.v ===== *)
(** * The HTTP client

    [createClient] of [src/web/src/api/generated/client/client.gen.ts] with its helpers of
    [client/utils.gen.ts], [core/auth.gen.ts] and [core/bodySerializer.gen.ts]. Calls run in a monad of a
    world [W] (what interceptors and [fetch] read and write) and thrown values; the world a [fetch] leaves
    is any, so whatever else happens while a request is awaited is covered. Header values carry no
    surrounding white space. *)

From S2P Require Import Prelude JsString JsNumber Json PathSerializer.
Local Open Scope string_scope.

(** ** Thrown values and computations *)

(** An [Error] by its message, or any other value. *)
Inductive thrown := JsError (message : string) | Thrown (value : json).

(** [String(value)] *)
Fixpoint js_string (j : json) : string :=
  match j with
  | JNull => "null"
  | JBool true => "true"
  | JBool false => "false"
  | JNum n => pretty n
  | JStr s => s
  | JArr l => join "," (map (λ x, match x with JNull => "" | _ => js_string x end) l)
  | JObj _ => "[object Object]"
  end.

Definition falsy (e : thrown) : bool :=
  match e with
  | Thrown JNull | Thrown (JBool false) | Thrown (JNum 0) => true
  | Thrown (JStr s) => negb (truthy s)
  | _ => false
  end.

Definition M (W A : Type) : Type := W → (A + thrown) * W.

#[export] Instance M_ret W : MRet (M W) := λ A x w, (inl x, w).
#[export] Instance M_bind W : MBind (M W) := λ A B k m w,
  match m w with (inl x, w) => k x w | (inr e, w) => (inr e, w) end.
Definition throw {W A} (e : thrown) : M W A := λ w, (inr e, w).
Definition try_catch {W A} (m : M W A) (h : thrown → M W A) : M W A := λ w,
  match m w with (inr e, w) => h e w | r => r end.

(** ** Headers *)

Definition lower_char (c : ascii) : ascii := if is_upper c then ascii_of_N (code c + 32) else c.
Fixpoint lower (s : string) : string := match s with "" => "" | String c r => String (lower_char c) (lower r) end.

(** The [Headers] of the platform, by lower-case name. *)
Notation Headers := (gmap string string).
Definition headers_get (k : string) (h : Headers) : option string := h !! lower k.
Definition headers_set (k v : string) (h : Headers) : Headers := <[lower k := v]> h.
Definition headers_delete (k : string) (h : Headers) : Headers := delete (lower k) h.
Definition headers_append (k v : string) (h : Headers) : Headers :=
  <[lower k := match h !! lower k with Some old => old ++ ", " ++ v | None => v end]> h.

Inductive header_value := HNull | HUndefined | HText (s : string) | HList (l : list string) | HObject (j : json).
Inductive HeadersInit := HEntries (entries : list (string * header_value)) | HHeaders (h : Headers).

Definition headersEntries (h : Headers) : list (string * header_value) := (λ '(k, v), (k, HText v)) <$> map_to_list h.

Definition merge_entry (merged : Headers) (e : string * header_value) : Headers :=
  let '(key, value) := e in
  match value with
  | HNull => headers_delete key merged
  | HList l => foldl (λ m v, headers_append key v m) merged l
  | HUndefined => merged
  | HText s => headers_set key s merged
  | HObject j => headers_set key (stringify j) merged
  end.

Definition mergeHeaders (headers : list (option HeadersInit)) : Headers :=
  foldl (λ merged header,
    match header with
    | None => merged
    | Some (HHeaders h) => foldl merge_entry merged (headersEntries h)
    | Some (HEntries entries) => foldl merge_entry merged entries
    end) ∅ headers.

(** ** Content types *)

Inductive parse_kind := ArrayBuffer | BlobData | FormDataKind | JsonData | Stream | TextData.
#[export] Instance parse_kind_eq_dec : EqDecision parse_kind.
Proof. solve_decision. Defined.

Definition getParseAs (contentType : option string) : option parse_kind :=
  match contentType with
  | None => Some Stream
  | Some ct =>
      if negb (truthy ct) then Some Stream else
      let cleanContent := trim (List.hd "" (split_on ";" ct)) in
      if negb (truthy cleanContent) then None
      else if starts_with "application/json" cleanContent || ends_with "+json" cleanContent then Some JsonData
      else if String.eqb cleanContent "multipart/form-data" then Some FormDataKind
      else if existsb (λ type, starts_with type cleanContent) ["application/"; "audio/"; "image/"; "video/"] then Some BlobData
      else if starts_with "text/" cleanContent then Some TextData
      else None
  end.

(** ** Authentication *)

Inductive auth_place := InHeader | InQuery | InCookie.
Inductive auth_scheme := Basic | Bearer.
Record Auth := mkAuth { auth_in : option auth_place; auth_name : option string; auth_scheme_of : option auth_scheme }.

(** [btoa] on texts of one byte a character. *)
Definition base64_char (n : N) : ascii :=
  if (n <? 26)%N then ascii_of_N (65 + n) else if (n <? 52)%N then ascii_of_N (71 + n)
  else if (n <? 62)%N then ascii_of_N (n - 4) else if (n =? 62)%N then "+"%char else "/"%char.
Definition base64_text (n : N) : string :=
  String (base64_char (n / 262144)) (String (base64_char (n / 4096 mod 64))
    (String (base64_char (n / 64 mod 64)) (String (base64_char (n mod 64)) ""))).
Fixpoint btoa (s : string) : string :=
  match s with
  | String a (String b (String c r)) => base64_text (code a * 65536 + code b * 256 + code c) ++ btoa r
  | String a (String b "") => String.substring 0 3 (base64_text (code a * 65536 + code b * 256)) ++ "="
  | String a "" => String.substring 0 2 (base64_text (code a * 65536)) ++ "=="
  | "" => ""
  end.

Inductive auth_source (W : Type) := StaticToken (t : option string) | AuthCallback (f : Auth → M W (option string)).
Arguments StaticToken {W}.
Arguments AuthCallback {W}.

Definition getAuthToken {W} (auth : Auth) (callback : auth_source W) : M W (option string) :=
  token ← match callback with AuthCallback f => f auth | StaticToken t => mret t end;
  mret match token with
       | Some t =>
           if negb (truthy t) then None
           else match auth_scheme_of auth with
                | Some Bearer => Some ("Bearer " ++ t)
                | Some Basic => Some ("Basic " ++ btoa t)
                | None => Some t
                end
       | None => None
       end.

Definition param_truthy (p : param) : bool := match p with Absent => false | Scalar t => truthy t | _ => true end.

Definition checkForExistence (headers : Headers) (query : option (list (string * param))) (name : option string) : bool :=
  match name with
  | Some n =>
      truthy n &&
      (bool_decide (is_Some (headers_get n headers))
       || match query with Some q => param_truthy (lookup_param n q) | None => false end
       || match headers_get "Cookie" headers with Some c => includes (n ++ "=") c | None => false end)
  | None => false
  end.

(** An assignment to a member of an object keeps its place, a new one comes last. *)
Definition query_set (name : string) (v : param) (q : list (string * param)) : list (string * param) :=
  if existsb (λ p, String.eqb (fst p) name) q
  then (λ p, if String.eqb (fst p) name then (name, v) else p) <$> q
  else (q ++ [(name, v)])%list.

Definition add_token (auth : Auth) (token : string) (hq : Headers * option (list (string * param))) :
    Headers * option (list (string * param)) :=
  let '(headers, query) := hq in
  let name := default "Authorization" (auth_name auth) in
  match auth_in auth with
  | Some InQuery => (headers, Some (query_set name (Scalar token) (default [] query)))
  | Some InCookie => (headers_append "Cookie" (name ++ "=" ++ token) headers, query)
  | _ => (headers_set name token headers, query)
  end.

Fixpoint setAuthParams {W} (security : list Auth) (source : auth_source W) (hq : Headers * option (list (string * param))) :
    M W (Headers * option (list (string * param))) :=
  match security with
  | [] => mret hq
  | auth :: rest =>
      if checkForExistence (fst hq) (snd hq) (auth_name auth) then setAuthParams rest source hq
      else
        token ← getAuthToken auth source;
        setAuthParams rest source (match token with Some t => if truthy t then add_token auth t hq else hq | None => hq end)
  end.

(** ** Interceptors *)

(** A function with the identity [indexOf] compares. *)
Record interceptor (F : Type) := mkInterceptor { ident : nat; fn : F }.
Arguments mkInterceptor {F}.
Arguments ident {F}.
Arguments fn {F}.

Inductive interceptor_id := ById (n : nat) | ByFn (ident : nat).
Notation Interceptors F := (list (option (interceptor F))).

Section interceptors.
Context {F : Type}.
Implicit Types fns : Interceptors F.

Definition clear fns : Interceptors F := [].

(** [None] for [-1]. *)
Definition getInterceptorIndex (id : interceptor_id) fns : option nat :=
  match id with
  | ById n => match fns !! n with Some (Some _) => Some n | _ => None end
  | ByFn i => fst <$> list_find (λ o, ident <$> o = Some i) fns
  end.

Definition exists_ (id : interceptor_id) fns : bool :=
  match getInterceptorIndex id fns with Some n => match fns !! n with Some (Some _) => true | _ => false end | None => false end.

Definition eject (id : interceptor_id) fns : Interceptors F :=
  match getInterceptorIndex id fns with
  | Some n => match fns !! n with Some (Some _) => <[n := None]> fns | _ => fns end
  | None => fns
  end.

Definition update (id : interceptor_id) (f : interceptor F) fns : Interceptors F * option interceptor_id :=
  match getInterceptorIndex id fns with
  | Some n => match fns !! n with Some (Some _) => (<[n := Some f]> fns, Some id) | _ => (fns, None) end
  | None => (fns, None)
  end.

Definition use (f : interceptor F) fns : Interceptors F * nat := ((fns ++ [Some f])%list, length fns).

End interceptors.

(** ** Requests, responses and configurations *)

Section client.
Context {W : Type}.
(** The value of a file, and the boundary the platform picks for a form. *)
Context {File : Type} (boundary : string).

(** A body before and after its serializer. *)
Inductive body := JsonBody (j : json) | FileBody (entries : list (string * File)).
Inductive form_value := FormText (s : string) | FormFile (f : File).
Inductive payload := PText (s : string) | PForm (entries : list (string * form_value)).

Record Request := mkRequest { rq_method : string; rq_url : string; rq_headers : Headers; rq_body : option payload }.
Record Response := mkResponse { rs_status : Z; rs_headers : Headers; rs_text : string }.

Definition ok (r : Response) : bool := (200 <=? rs_status r)%Z && (rs_status r <=? 299)%Z.

(** What a response is parsed into. *)
Inductive data :=
  DJson (j : json) | DText (s : string) | DBlob (s : string) | DBuffer (s : string) | DForm (s : string) | DNewForm | DStream (s : string).

Inductive parse_as := Auto | As (k : parse_kind).
Inductive response_style := DataStyle | FieldsStyle.
Inductive query_serializer :=
  | SerializerFn (f : list (string * param) → string)
  | SerializerOptions (o : QuerySerializerOptions) (parameters : list (string * QuerySerializerOptions)).

(** Settings of the client or of a call; [None] is a member that is not there. *)
Record Config := mkConfig {
  baseUrl : option string; headers : option HeadersInit; parseAs : option parse_as;
  responseStyle : option response_style; throwOnError : option bool; querySerializer : option query_serializer;
  auth : option (auth_source W); bodySerializer : option (option (body → payload));
  fetch : option (Request → M W Response);
  requestValidator : option (body → M W unit); responseValidator : option (data → M W unit);
  responseTransformer : option (data → M W data)
}.

Record RequestOptions := mkRequestOptions {
  ro_config : Config; ro_method : string; ro_url : string; ro_path : option (list (string * param));
  ro_query : option (list (string * param)); ro_body : option body; ro_security : list Auth
}.

(** The settings of one request, merged. *)
Record Opts := mkOpts {
  o_config : Config; o_method : string; o_url : string; o_path : option (list (string * param));
  o_query : option (list (string * param)); o_body : option body; o_headers : Headers; o_serializedBody : option payload
}.

(** [b ?? a] and the spread [{...a, ...b}] of one member. *)
Definition over {A} (a b : option A) : option A := match b with Some _ => b | None => a end.

Definition spread (a b : Config) : Config :=
  mkConfig (over (baseUrl a) (baseUrl b)) (over (headers a) (headers b)) (over (parseAs a) (parseAs b))
    (over (responseStyle a) (responseStyle b)) (over (throwOnError a) (throwOnError b))
    (over (querySerializer a) (querySerializer b)) (over (auth a) (auth b)) (over (bodySerializer a) (bodySerializer b))
    (over (fetch a) (fetch b)) (over (requestValidator a) (requestValidator b))
    (over (responseValidator a) (responseValidator b)) (over (responseTransformer a) (responseTransformer b)).

Definition drop_slash (s : string) : string :=
  if ends_with "/" s then rev_str (match rev_str s with String _ r => r | "" => "" end) else s.

Definition mergeConfigs (a b : Config) : Config :=
  let config := spread a b in
  mkConfig (drop_slash <$> baseUrl config) (Some (HHeaders (mergeHeaders [headers a; headers b]))) (parseAs config)
    (responseStyle config) (throwOnError config) (querySerializer config) (auth config) (bodySerializer config)
    (fetch config) (requestValidator config) (responseValidator config) (responseTransformer config).

(** A body of files is an object of [File]s, whose JSON text shows none of their content. *)
Definition jsonBodySerializer (b : body) : payload :=
  match b with
  | JsonBody j => PText (stringify j)
  | FileBody entries => PText (stringify (JObj ((λ '(k, _), (k, JObj [])) <$> entries)))
  end.

Definition serializeFormDataPair (v : json) : form_value := FormText (match v with JStr s => s | _ => stringify v end).

(** Only objects have entries here: the texts and numbers a body could be have none that are kept. *)
Definition formDataBodySerializer (b : body) : payload :=
  PForm match b with
        | FileBody entries => (λ '(k, f), (k, FormFile f)) <$> entries
        | JsonBody (JObj fs) =>
            fs ≫= (λ '(k, v), match v with
                              | JNull => []
                              | JArr l => (λ x, (k, serializeFormDataPair x)) <$> l
                              | _ => [(k, serializeFormDataPair v)]
                              end)
        | JsonBody _ => []
        end.

Definition empty_config : Config := mkConfig None None None None None None None None None None None None.
Definition defaultHeaders : HeadersInit := HEntries [("Content-Type", HText "application/json")].

Definition createConfig (override : Config) : Config :=
  spread (mkConfig None (Some defaultHeaders) (Some Auto) None None (Some (SerializerFn defaultQuerySerializer)) None
    (Some (Some jsonBodySerializer)) None None None None) override.

Definition getValidRequestBody (o : Opts) : option payload :=
  match o_body o with
  | None => None
  | Some b =>
      match default None (bodySerializer (o_config o)) with
      | Some _ => match o_serializedBody o with Some (PText "") => None | s => s end
      | None => Some (PText (match b with JsonBody j => js_string j | FileBody _ => "[object Object]" end))
      end
  end.

Definition buildUrl (o : Opts) : string :=
  getUrl (baseUrl (o_config o)) (o_path o) (o_query o)
    (match querySerializer (o_config o) with
     | Some (SerializerFn f) => f
     | Some (SerializerOptions qo ps) => createQuerySerializer qo ps
     | None => createQuerySerializer defaultQueryOptions []
     end) (o_url o).

(** [new Request(url, init)]: no body with GET and HEAD, and the content type of the body when none is given. *)
Definition newRequest (method url : string) (h : Headers) (b : option payload) : Request + thrown :=
  match b with
  | None => inl (mkRequest method url h None)
  | Some p =>
      if bool_decide (method ∈ ["GET"; "HEAD"]) then inr (JsError "Request with GET/HEAD method cannot have body.")
      else
        let type := match p with PText _ => "text/plain;charset=UTF-8" | PForm _ => "multipart/form-data; boundary=" ++ boundary end in
        inl (mkRequest method url (match headers_get "Content-Type" h with Some _ => h | None => headers_set "Content-Type" type h end) b)
  end.

(** ** The pipeline *)

Record client := mkClient {
  config : Config;
  on_request : Interceptors (Request → Opts → M W Request);
  on_response : Interceptors (Response → Request → Opts → M W Response);
  on_error : Interceptors (thrown → option Response → option Request → RequestOptions → M W thrown)
}.

Definition createClient (c : Config) : client := mkClient (mergeConfigs (createConfig empty_config) c) [] [] [].
Definition setConfig (c : Config) (cl : client) : client :=
  mkClient (mergeConfigs (config cl) c) (on_request cl) (on_response cl) (on_error cl).

(** What a call resolves to: the data, or the members [data], [error], [request] and [response]. *)
Inductive reply :=
  | RData (d : option data)
  | RFields (d : option data) (error : option thrown) (request : option Request) (response : option Response).

(** [for (const fn of fns) if (fn) x = await fn(x, ...)] *)
Fixpoint pipe {F A} (call : F → A → M W A) (fns : Interceptors F) (x : A) : M W A :=
  match fns with
  | [] => mret x
  | Some f :: rest => y ← call (fn f) x; pipe call rest y
  | None :: rest => pipe call rest x
  end.

(** [fetch] of the platform, when neither the call nor the client has its own. *)
Context (globalFetch : Request → M W Response).

Definition validate {A} (v : option (A → M W unit)) (x : A) : M W unit := match v with Some f => f x | None => mret tt end.

Definition beforeRequest (cl : client) (o : RequestOptions) : M W (Opts * string) :=
  let c := spread (config cl) (ro_config o) in
  let h := mergeHeaders [headers (config cl); headers (ro_config o)] in
  '(h, query) ← match ro_security o with
                | [] => mret (h, ro_query o)
                | security => setAuthParams security (default (StaticToken None) (auth c)) (h, ro_query o)
                end;
  _ ← match ro_body o with Some b => validate (requestValidator c) b | None => mret tt end;
  let serializedBody :=
    match ro_body o, default None (bodySerializer c) with Some b, Some f => Some (f b) | _, _ => None end in
  let h := match ro_body o, serializedBody with
           | None, _ | _, Some (PText "") => headers_delete "Content-Type" h
           | _, _ => h
           end in
  let opts := mkOpts c (ro_method o) (ro_url o) (ro_path o) query (ro_body o) h serializedBody in
  mret (opts, buildUrl opts).

(** The variables [request] and [response], that the handler of errors reads. *)
Definition Vars : Type := option Request * option Response.

Definition lift {A} (m : M W A) : M (W * Vars) A := λ '(w, v), let '(r, w) := m w in (r, (w, v)).
Definition set_request (r : Request) : M (W * Vars) unit := λ '(w, (_, res)), (inl tt, (w, (Some r, res))).
Definition set_response (r : Response) : M (W * Vars) unit := λ '(w, (req, _)), (inl tt, (w, (req, Some r))).

(** The loops assign the variable after every function. *)
Fixpoint pipe_set {F A} (call : F → A → M W A) (set : A → M (W * Vars) unit) (fns : Interceptors F) (x : A) : M (W * Vars) A :=
  match fns with
  | [] => mret x
  | Some f :: rest => y ← lift (call (fn f) x); _ ← set y; pipe_set call set rest y
  | None :: rest => pipe_set call set rest x
  end.

Definition empty_data (k : parse_kind) (r : Response) : data :=
  match k with
  | ArrayBuffer => DBuffer (rs_text r)
  | BlobData => DBlob (rs_text r)
  | TextData => DText (rs_text r)
  | FormDataKind => DNewForm
  | Stream => DStream (rs_text r)
  | JsonData => DJson (JObj [])
  end.

Definition parse_data (k : parse_kind) (r : Response) : data + thrown :=
  match k with
  | ArrayBuffer => inl (DBuffer (rs_text r))
  | BlobData => inl (DBlob (rs_text r))
  | FormDataKind => inl (DForm (rs_text r))
  | TextData => inl (DText (rs_text r))
  | Stream => inl (DStream (rs_text r))
  | JsonData =>
      if truthy (rs_text r)
      then match parse (rs_text r) with Some j => inl (DJson j) | None => inr (JsError "Unexpected token in JSON") end
      else inl (DJson (JObj []))
  end.

Definition reply_of (style : option response_style) (d : option data) (req : Request) (res : Response) : reply :=
  match style with Some DataStyle => RData d | _ => RFields d None (Some req) (Some res) end.

Definition kind_of (o : Opts) (r : Response) : parse_kind :=
  default JsonData (match parseAs (o_config o) with
                    | Some Auto => getParseAs (headers_get "Content-Type" (rs_headers r))
                    | Some (As k) => Some k
                    | None => None
                    end).

(** The error a response that is not [ok] throws: its JSON text read, unless it is [null], or its text. *)
Definition error_of (text : string) : thrown :=
  match parse text with Some JNull | None => Thrown (JStr text) | Some j => Thrown j end.

Definition is_empty_response (r : Response) : bool :=
  (rs_status r =? 204)%Z || bool_decide (headers_get "Content-Length" (rs_headers r) = Some "0").

Definition receive (o : Opts) (req : Request) (res : Response) : M W reply :=
  if ok res then
    let k := kind_of o res in
    if is_empty_response res then mret (reply_of (responseStyle (o_config o)) (Some (empty_data k res)) req res)
    else
      match parse_data k res with
      | inr e => throw e
      | inl d =>
          d ← (if bool_decide (k = JsonData) then
                 _ ← validate (responseValidator (o_config o)) d;
                 match responseTransformer (o_config o) with Some f => f d | None => mret d end
               else mret d);
          mret (reply_of (responseStyle (o_config o)) (Some d) req res)
      end
  else throw (error_of (rs_text res)).

Definition attempt (cl : client) (options : RequestOptions) : M (W * Vars) reply :=
  '(opts, url) ← lift (beforeRequest cl options);
  req ← lift (λ w, (newRequest (o_method opts) url (o_headers opts) (getValidRequestBody opts), w));
  _ ← set_request req;
  req ← pipe_set (λ f x, f x opts) set_request (on_request cl) req;
  res ← lift (default globalFetch (fetch (o_config opts)) req);
  _ ← set_response res;
  res ← pipe_set (λ f x, f x req opts) set_response (on_response cl) res;
  lift (receive opts req res).

Definition request (cl : client) (options : RequestOptions) : M W reply := λ w,
  let '(r, (w, (req, res))) := attempt cl options (w, (None, None)) in
  match r with
  | inl v => (inl v, w)
  | inr error =>
      (finalError ← pipe (λ f e, f e res req options) (on_error cl) error;
       let finalError := if falsy finalError then Thrown (JObj []) else finalError in
       if default false (over (throwOnError (config cl)) (throwOnError (ro_config options))) then throw finalError
       else mret match over (responseStyle (config cl)) (responseStyle (ro_config options)) with
                 | Some DataStyle => RData None
                 | _ => RFields None (Some finalError) req res
                 end) w
  end.

Definition makeMethodFn (cl : client) (method : string) (o : RequestOptions) : M W reply :=
  request cl (mkRequestOptions (ro_config o) method (ro_url o) (ro_path o) (ro_query o) (ro_body o) (ro_security o)).

End client.

(** ** Properties *)

Inductive interceptor_op (F : Type) := OpUse (f : interceptor F) | OpEject (id : interceptor_id) | OpUpdate (id : interceptor_id) (f : interceptor F).
Arguments OpUse {F}.
Arguments OpEject {F}.
Arguments OpUpdate {F}.

Definition interceptor_step {F} (fns : Interceptors F) (o : interceptor_op F) : Interceptors F :=
  match o with OpUse f => fst (use f fns) | OpEject id => eject id fns | OpUpdate id f => fst (update id f fns) end.

(** An operation on other interceptors. *)
Definition other_id {F} (n : nat) (f : interceptor F) (id : interceptor_id) : Prop :=
  match id with ById m => m ≠ n | ByFn i => i ≠ ident f end.
Definition other_op {F} (n : nat) (f : interceptor F) (o : interceptor_op F) : Prop :=
  match o with OpUse _ => True | OpEject id | OpUpdate id _ => other_id n f id end.

Lemma other_index {F} n (f : interceptor F) id fns m : fns !! n = Some (Some f) → other_id n f id →
  getInterceptorIndex id fns = Some m → m ≠ n.
Proof.
  intros Hn Hid. destruct id as [k|i]; cbn in Hid |- *.
  - destruct (fns !! k) as [[]|]; [|done..]. by intros [= <-].
  - destruct (list_find _ fns) as [[k o]|] eqn:E; [|done]. intros [= <-] ->. apply list_find_Some in E as (Hk & Ho & _).
    rewrite Hk in Hn. injection Hn as ->. cbn in Ho. by injection Ho as Ho.
Qed.

Lemma interceptor_step_other {F} n (f : interceptor F) fns o : fns !! n = Some (Some f) → other_op n f o →
  interceptor_step fns o !! n = Some (Some f).
Proof.
  intros Hn Ho. destruct o as [g|id|id g]; cbn in Ho |- *.
  - rewrite lookup_app_l; [done|]. by eapply lookup_lt_Some.
  - unfold eject. destruct (getInterceptorIndex id fns) as [m|] eqn:E; [|done]. pose proof (other_index n f id fns m Hn Ho E).
    destruct (fns !! m) as [[]|]; [|done..]. by rewrite list_lookup_insert_ne.
  - unfold update. destruct (getInterceptorIndex id fns) as [m|] eqn:E; [|done]. pose proof (other_index n f id fns m Hn Ho E).
    destruct (fns !! m) as [[]|]; [|done..]. cbn. by rewrite list_lookup_insert_ne.
Qed.

(** The number [use] returns names its interceptor for good: whatever is added, ejected or replaced
    elsewhere, by number or by function, the interceptor stays in its place, is reported as there, and is
    the one an ejection by that number removes. *)
Theorem interceptor_ids {F} (fns : Interceptors F) f os : let '(fns', n) := use f fns in
  Forall (other_op n f) os → let fns'' := foldl interceptor_step fns' os in
  fns'' !! n = Some (Some f) ∧ exists_ (ById n) fns'' = true ∧
  eject (ById n) fns'' = <[n := None]> fns'' ∧ exists_ (ById n) (eject (ById n) fns'') = false.
Proof.
  cbn. intros Hos. assert (foldl interceptor_step (fns ++ [Some f])%list os !! length fns = Some (Some f)) as H.
  { assert ((fns ++ [Some f])%list !! length fns = Some (Some f)) as H0 by (by rewrite lookup_app_r, Nat.sub_diag).
    revert H0. generalize (fns ++ [Some f])%list. induction Hos as [|o os Ho _ IH]; intros l Hl; [done|]. cbn. apply IH.
    by apply interceptor_step_other. }
  assert (∀ l : Interceptors F, l !! length fns = Some (Some f) → eject (ById (length fns)) l = <[length fns := None]> l) as He.
  { intros l Hl. unfold eject, getInterceptorIndex. by rewrite Hl, Hl. }
  split_and!; [done| |by apply He|].
  - unfold exists_, getInterceptorIndex. by rewrite H, H.
  - rewrite He by done. unfold exists_, getInterceptorIndex. rewrite list_lookup_insert_eq; [done|]. by eapply lookup_lt_Some.
Qed.

Lemma interceptor_ids_witness :
  exists_ (ById 0) (foldl interceptor_step (fst (use (mkInterceptor 7 tt) [])) [OpUse (mkInterceptor 7 tt); OpEject (ById 1)]) = true.
Proof.
  destruct (interceptor_ids [] (mkInterceptor 7 tt) [OpUse (mkInterceptor 7 tt); OpEject (ById 1)]) as (_ & H & _); [|exact H].
  by repeat constructor.
Defined.

(** A call that asks for its error instead of a rejection gets a reply whatever happens: a request that
    cannot be built, a failing interceptor, no answer, a refusal, a body that does not parse; the error of
    the reply is never an empty value. *)
Theorem request_replies {W File} boundary (cl : @client W File) fetch (o : RequestOptions) w :
  default false (over (throwOnError (config cl)) (throwOnError (ro_config o))) = false → on_error cl = [] →
  (∃ w', request boundary fetch cl o w = (inl (RData None), w')) ∨
  (∃ e req res w', request boundary fetch cl o w = (inl (RFields None (Some e) req res), w') ∧ falsy e = false) ∨
  (∃ r w' v, request boundary fetch cl o w = (inl r, w') ∧ attempt boundary fetch cl o (w, (None, None)) = (inl r, (w', v))).
Proof.
  intros Ht He. unfold request. destruct (attempt boundary fetch cl o (w, (None, None))) as [[r|e] [w' [req res]]]; [right; right; eauto 10|].
  rewrite Ht, He. unfold mbind, M_bind. cbn [pipe mret M_ret].
  destruct (over (responseStyle (config cl)) (responseStyle (ro_config o))) as [[]|]; [by left; eexists|..];
    right; left; do 4 eexists; (split; [reflexivity|]); by destruct (falsy e) eqn:E.
Qed.

Lemma request_replies_witness :
  let cl := createClient (W:=unit) (File:=unit) empty_config in
  let o := mkRequestOptions empty_config "GET" "/x" None None None [] in
  fst (request "b" (λ _ w, (inr (JsError "lost"), w)) cl o tt)
  = inl (RFields None (Some (JsError "lost")) (Some (mkRequest "GET" "/x" ∅ None)) None).
Proof.
  destruct (request_replies (W:=unit) (File:=unit) "b" (createClient empty_config) (λ _ w, (inr (JsError "lost"), w))
    (mkRequestOptions empty_config "GET" "/x" None None None []) tt eq_refl eq_refl); vm_compute; reflexivity.
Defined.
