(* ===== verification/Url.v ===== *)
(** * URLs read by the platform

    [new URL(url).pathname] of the language's platform, as [src/web/src/api.ts] uses it and as [fetch]
    sends it: what follows the origin, up to the query, with [.] and [..] pieces resolved. Texts hold
    only characters a URL may hold. *)

From S2P Require Import Prelude JsString PathSerializer Client.
Local Open Scope string_scope.

Fixpoint after_scheme (s : string) : option string :=
  match strip_prefix "://" s with
  | Some r => Some r
  | None => match s with "" => None | String _ r => after_scheme r end
  end.

Definition ends_host (c : ascii) : bool := is_char "/" c || is_char "?" c || is_char "#" c.
Fixpoint drop_host (s : string) : string :=
  match s with String c r => if ends_host c then s else drop_host r | "" => "" end.

Definition ends_path (c : ascii) : bool := is_char "?" c || is_char "#" c.
Fixpoint take_path (s : string) : string :=
  match s with String c r => if ends_path c then "" else String c (take_path r) | "" => "" end.

Definition is_dot (p : string) : bool := bool_decide (lower p ∈ ["."; "%2e"]).
Definition is_dotdot (p : string) : bool := bool_decide (lower p ∈ [".."; ".%2e"; "%2e."; "%2e%2e"]).

(** [acc] holds the pieces kept so far, the last one first. *)
Fixpoint resolve (acc pieces : list string) : list string :=
  match pieces with
  | [] => rev acc
  | p :: rest =>
      let close acc := match rest with [] => "" :: acc | _ => acc end in
      if is_dotdot p then resolve (close (List.tl acc)) rest
      else if is_dot p then resolve (close acc) rest
      else resolve (p :: acc) rest
  end.

Definition pathname (url : string) : option string :=
  r ← after_scheme url;
  match drop_host r with
  | String c p => if is_char "/" c then Some ("/" ++ join "/" (resolve [] (split_on "/" (take_path p)))) else Some "/"
  | "" => Some "/"
  end.

(** Origins of pages. *)
Definition host_char (c : ascii) : bool := is_alnum c || is_char "." c || is_char "-" c || is_char ":" c || is_char "[" c || is_char "]" c.
Definition is_origin (base : string) : Prop :=
  ∃ scheme host, base = scheme ++ "://" ++ host ∧ host ≠ "" ∧ all_chars is_alnum scheme = true ∧ all_chars host_char host = true.

(** Pieces of a path nothing resolves: no separator, no end of a path, no dots alone. *)
Definition piece_char (c : ascii) : bool := negb (is_char "/" c) && negb (ends_path c).
Definition plain_piece (p : string) : bool := all_chars piece_char p && negb (is_dot p) && negb (is_dotdot p).

Lemma after_scheme_spec scheme r : all_chars is_alnum scheme = true → after_scheme (scheme ++ "://" ++ r) = Some r.
Proof.
  induction scheme as [|c s IH]; [intros _; cbn; by rewrite str_app_nil_l || done|].
  unfold all_chars. cbn [chars forallb]. intros [Hc Hs]%andb_true_iff.
  change (String c s ++ "://" ++ r) with (String c (s ++ "://" ++ r)). cbn [after_scheme].
  rewrite strip_prefix_cons. destruct (Ascii.eqb_spec ":" c) as [<-|]; [done|]. by apply IH.
Qed.

Lemma drop_host_spec host p : all_chars host_char host = true → drop_host (host ++ String "/" p) = String "/" p.
Proof.
  induction host as [|c s IH]; [done|]. unfold all_chars. cbn [chars forallb]. intros [Hc Hs]%andb_true_iff.
  change (String c s ++ String "/" p) with (String c (s ++ String "/" p)). cbn [drop_host].
  assert (ends_host c = false) as ->; [|by apply IH].
  destruct c as [[] [] [] [] [] [] [] []]; done.
Qed.

Lemma take_path_spec p q : all_chars (λ c, negb (ends_path c)) p = true → take_path (p ++ q) = p ++ take_path q.
Proof.
  induction p as [|c p IH]; [done|]. unfold all_chars. cbn [chars forallb]. intros [Hc Hp]%andb_true_iff.
  cbn. apply negb_true_iff in Hc. rewrite Hc. by rewrite IH.
Qed.

Lemma resolve_plain acc pieces : Forall (λ p, plain_piece p = true) pieces → resolve acc pieces = (rev acc ++ pieces)%list.
Proof.
  revert acc. induction pieces as [|p ps IH]; intros acc Hp; [by rewrite app_nil_r|].
  apply Forall_cons in Hp as [Hp Hps]. cbn [resolve]. unfold plain_piece in Hp. rewrite !andb_true_iff, !negb_true_iff in Hp.
  destruct Hp as [[_ ->] ->]. rewrite IH by done. cbn [rev]. by rewrite <- app_assoc.
Qed.

Lemma plain_piece_chars p : plain_piece p = true →
  "/"%char ∉ chars p ∧ all_chars (λ c, negb (ends_path c)) p = true.
Proof.
  unfold plain_piece. rewrite !andb_true_iff. intros [[Hp _] _]. rewrite all_chars_spec in Hp. split.
  - intros Hin. by specialize (Hp _ Hin).
  - apply all_chars_spec. intros c Hc. specialize (Hp c Hc). unfold piece_char in Hp. by apply andb_true_iff in Hp as [_ ?].
Qed.

Lemma all_chars_join f sep l : all_chars f sep = true → Forall (λ s, all_chars f s = true) l → all_chars f (join sep l) = true.
Proof.
  intros Hsep. induction 1 as [|x l Hx Hl IH]; [done|]. destruct l as [|y l]; [done|].
  rewrite join_cons, !all_chars_app. by rewrite Hx, Hsep, IH.
Qed.

(** The path of a URL made of an origin, plain pieces and maybe a query. *)
Lemma pathname_spec base pieces q : is_origin base → pieces ≠ [] → Forall (λ p, plain_piece p = true) pieces →
  q = "" ∨ starts_with "?" q = true →
  pathname (base ++ "/" ++ join "/" pieces ++ q) = Some ("/" ++ join "/" pieces).
Proof.
  intros (scheme & host & -> & _ & Hs & Hh) Hne Hp Hq. rewrite !str_app_assoc. unfold pathname. rewrite after_scheme_spec by done.
  cbn [mbind option_bind]. change ("/" ++ join "/" pieces ++ q) with (String "/" (join "/" pieces ++ q)).
  rewrite drop_host_spec by done. cbn [is_char]. rewrite (proj2 (is_char_spec "/" "/") eq_refl).
  rewrite take_path_spec; cycle 1.
  { apply all_chars_join; [done|]. eapply Forall_impl; [exact Hp|]. intros p Hpp. by apply plain_piece_chars. }
  assert (take_path q = "") as ->. { destruct Hq as [->|[r ->]%starts_with_spec]; done. }
  rewrite str_app_nil_r, split_on_join; [by rewrite resolve_plain|done|].
  eapply Forall_impl; [exact Hp|]. intros p Hpp. by apply plain_piece_chars.
Qed.
