(* ===== verification/Sdk.v ===== *)
(** * The operations of the API

    [DefaultApi] of [src/web/src/api/generated/sdk.gen.ts]: a table of every operation with its method,
    the template of its URL, whether it names a security scheme and the content type it gives, and
    [invoke], the call each of its methods makes. *)

From S2P Require Import Prelude JsString Json PathSerializer Client.
Local Open Scope string_scope.

(** The [headers] of an operation: none, [application/json], or [null] for a form whose type the
    platform picks (with [formDataBodySerializer]). *)
Inductive content := NoContent | JsonContent | NullContent.
#[export] Instance content_eq_dec : EqDecision content.
Proof. solve_decision. Defined.

Record operation := mkOperation { op_name : string; op_method : string; op_url : string; op_secure : bool; op_content : content }.
#[export] Instance operation_eq_dec : EqDecision operation.
Proof. solve_decision. Defined.

(** ** The table *)

Definition listCatalog : operation := mkOperation "listCatalog" "GET" "/api/catalog" true NoContent.
Definition deleteCatalogImage : operation := mkOperation "deleteCatalogImage" "DELETE" "/api/catalog/{id}" true NoContent.
Definition downloadCatalogImage : operation := mkOperation "downloadCatalogImage" "POST" "/api/catalog/{id}/download" true NoContent.
Definition listDisks : operation := mkOperation "listDisks" "GET" "/api/disks" true NoContent.
Definition diskStorage : operation := mkOperation "diskStorage" "GET" "/api/disks/stats" true NoContent.
Definition streamEvents : operation := mkOperation "streamEvents" "GET" "/api/events" false NoContent.
Definition hostInfo : operation := mkOperation "hostInfo" "GET" "/api/host" true NoContent.
Definition hostConsole : operation := mkOperation "hostConsole" "GET" "/api/host/console" false NoContent.
Definition listImages : operation := mkOperation "listImages" "GET" "/api/images" true NoContent.
Definition listInterfaces : operation := mkOperation "listInterfaces" "GET" "/api/interfaces" true NoContent.
Definition listJobs : operation := mkOperation "listJobs" "GET" "/api/jobs" true NoContent.
Definition streamJobs : operation := mkOperation "streamJobs" "GET" "/api/jobs/stream" false NoContent.
Definition getJob : operation := mkOperation "getJob" "GET" "/api/jobs/{id}" true NoContent.
Definition handleLogin : operation := mkOperation "handleLogin" "POST" "/api/login" false JsonContent.
Definition currentUser : operation := mkOperation "currentUser" "GET" "/api/me" true NoContent.
Definition listApiKeys : operation := mkOperation "listApiKeys" "GET" "/api/me/api-keys" true NoContent.
Definition createApiKey : operation := mkOperation "createApiKey" "POST" "/api/me/api-keys" true JsonContent.
Definition revokeApiKey : operation := mkOperation "revokeApiKey" "DELETE" "/api/me/api-keys/{id}" true NoContent.
Definition changePassword : operation := mkOperation "changePassword" "PATCH" "/api/me/password" true JsonContent.
Definition listMedia : operation := mkOperation "listMedia" "GET" "/api/media" true NoContent.
Definition createMedia : operation := mkOperation "createMedia" "POST" "/api/media" true JsonContent.
Definition uploadImage : operation := mkOperation "uploadImage" "POST" "/api/media/image" true NullContent.
Definition uploadIso : operation := mkOperation "uploadIso" "POST" "/api/media/iso" true NullContent.
Definition deleteMedia : operation := mkOperation "deleteMedia" "DELETE" "/api/media/{id}" true NoContent.
Definition listNetworks : operation := mkOperation "listNetworks" "GET" "/api/networks" true NoContent.
Definition createNetwork : operation := mkOperation "createNetwork" "POST" "/api/networks" true JsonContent.
Definition destroyNetwork : operation := mkOperation "destroyNetwork" "DELETE" "/api/networks/{id}" true NoContent.
Definition updateNetwork : operation := mkOperation "updateNetwork" "PUT" "/api/networks/{id}" true JsonContent.
Definition applyNetwork : operation := mkOperation "applyNetwork" "POST" "/api/networks/{id}/apply" true NoContent.
Definition listUsbDevices : operation := mkOperation "listUsbDevices" "GET" "/api/usb/devices" true NoContent.
Definition listVms : operation := mkOperation "listVms" "GET" "/api/vms" true NoContent.
Definition createVm : operation := mkOperation "createVm" "POST" "/api/vms" true JsonContent.
Definition deleteVm : operation := mkOperation "deleteVm" "DELETE" "/api/vms/{id}" true NoContent.
Definition getVm : operation := mkOperation "getVm" "GET" "/api/vms/{id}" true NoContent.
Definition listBackups : operation := mkOperation "listBackups" "GET" "/api/vms/{id}/backups" true NoContent.
Definition createBackup : operation := mkOperation "createBackup" "POST" "/api/vms/{id}/backups" true NoContent.
Definition getBackupSchedule : operation := mkOperation "getBackupSchedule" "GET" "/api/vms/{id}/backups/schedule" true NoContent.
Definition setBackupSchedule : operation := mkOperation "setBackupSchedule" "PUT" "/api/vms/{id}/backups/schedule" true JsonContent.
Definition deleteBackup : operation := mkOperation "deleteBackup" "DELETE" "/api/vms/{id}/backups/{timestamp}" true NoContent.
Definition restoreBackup : operation := mkOperation "restoreBackup" "POST" "/api/vms/{id}/backups/{timestamp}/restore" true JsonContent.
Definition consoleVm : operation := mkOperation "consoleVm" "GET" "/api/vms/{id}/console" false NoContent.
Definition addDisk : operation := mkOperation "addDisk" "POST" "/api/vms/{id}/disks" true JsonContent.
Definition removeDisk : operation := mkOperation "removeDisk" "DELETE" "/api/vms/{id}/disks/{disk}" true NoContent.
Definition growDisk : operation := mkOperation "growDisk" "PATCH" "/api/vms/{id}/disks/{disk}" true JsonContent.
Definition displayVm : operation := mkOperation "displayVm" "GET" "/api/vms/{id}/display" false NoContent.
Definition vmGuestAgent : operation := mkOperation "vmGuestAgent" "GET" "/api/vms/{id}/guest-agent" true NoContent.
Definition updateHardware : operation := mkOperation "updateHardware" "PATCH" "/api/vms/{id}/hardware" true JsonContent.
Definition addVmInterface : operation := mkOperation "addVmInterface" "POST" "/api/vms/{id}/interfaces" true JsonContent.
Definition removeVmInterface : operation := mkOperation "removeVmInterface" "DELETE" "/api/vms/{id}/interfaces/{interface}" true NoContent.
Definition updateVmInterface : operation := mkOperation "updateVmInterface" "PATCH" "/api/vms/{id}/interfaces/{interface}" true JsonContent.
Definition updateMedia : operation := mkOperation "updateMedia" "PATCH" "/api/vms/{id}/media" true JsonContent.
Definition previewVm : operation := mkOperation "previewVm" "GET" "/api/vms/{id}/preview" true NoContent.
Definition shutdownVm : operation := mkOperation "shutdownVm" "POST" "/api/vms/{id}/shutdown" true NoContent.
Definition listSnapshots : operation := mkOperation "listSnapshots" "GET" "/api/vms/{id}/snapshots" true NoContent.
Definition createSnapshot : operation := mkOperation "createSnapshot" "POST" "/api/vms/{id}/snapshots" true JsonContent.
Definition deleteSnapshot : operation := mkOperation "deleteSnapshot" "DELETE" "/api/vms/{id}/snapshots/{tag}" true NoContent.
Definition restoreSnapshot : operation := mkOperation "restoreSnapshot" "POST" "/api/vms/{id}/snapshots/{tag}/restore" true NoContent.
Definition startVm : operation := mkOperation "startVm" "POST" "/api/vms/{id}/start" true NoContent.
Definition stopVm : operation := mkOperation "stopVm" "POST" "/api/vms/{id}/stop" true NoContent.
Definition listVmusb : operation := mkOperation "listVmusb" "GET" "/api/vms/{id}/usb" true NoContent.
Definition attachUsb : operation := mkOperation "attachUsb" "POST" "/api/vms/{id}/usb" true JsonContent.
Definition assignUsb : operation := mkOperation "assignUsb" "POST" "/api/vms/{id}/usb/assignments" true JsonContent.
Definition unassignUsb : operation := mkOperation "unassignUsb" "DELETE" "/api/vms/{id}/usb/assignments/{key}" true NoContent.
Definition detachUsb : operation := mkOperation "detachUsb" "DELETE" "/api/vms/{id}/usb/{attachment}" true NoContent.

Definition operations : list operation :=
  [listCatalog; deleteCatalogImage; downloadCatalogImage; listDisks; diskStorage; streamEvents;
   hostInfo; hostConsole; listImages; listInterfaces; listJobs; streamJobs;
   getJob; handleLogin; currentUser; listApiKeys; createApiKey; revokeApiKey;
   changePassword; listMedia; createMedia; uploadImage; uploadIso; deleteMedia;
   listNetworks; createNetwork; destroyNetwork; updateNetwork; applyNetwork; listUsbDevices;
   listVms; createVm; deleteVm; getVm; listBackups; createBackup;
   getBackupSchedule; setBackupSchedule; deleteBackup; restoreBackup; consoleVm; addDisk;
   removeDisk; growDisk; displayVm; vmGuestAgent; updateHardware; addVmInterface;
   removeVmInterface; updateVmInterface; updateMedia; previewVm; shutdownVm; listSnapshots;
   createSnapshot; deleteSnapshot; restoreSnapshot; startVm; stopVm; listVmusb;
   attachUsb; assignUsb; unassignUsb; detachUsb].

(** ** Calls *)

(** [security: [{ name: 'Authorization', type: 'apiKey' }]] *)
Definition authorization : Auth := mkAuth None (Some "Authorization") None.

Section sdk.
Context {W File : Type} (boundary : string).
Context (globalFetch : @Request File → M W (Response)).

(** What the caller gives. *)
Record Options := mkOptions {
  opt_path : option (list (string * param)); opt_query : option (list (string * param));
  opt_body : option (@body File); opt_config : @Config W File
}.

(** [{ 'Content-Type': ..., ...options.headers }]; the spread of a [Headers] object adds nothing. *)
Definition with_content (v : header_value) (own : option HeadersInit) : option HeadersInit :=
  Some (HEntries (("Content-Type", v) :: match own with Some (HEntries l) => l | _ => [] end)).

Definition op_headers (c : content) (own : option HeadersInit) : option HeadersInit :=
  match c with
  | NoContent => own
  | JsonContent => with_content (HText "application/json") own
  | NullContent => with_content HNull own
  end.

Definition op_serializer (c : content) (own : option (option (@body File → payload))) : option (option (@body File → payload)) :=
  match own, c with None, NullContent => Some (Some formDataBodySerializer) | _, _ => own end.

Definition op_options (op : operation) (o : Options) : RequestOptions :=
  let c := opt_config o in
  mkRequestOptions
    (mkConfig (baseUrl c) (op_headers (op_content op) (headers c)) (parseAs c) (responseStyle c) (throwOnError c)
      (querySerializer c) (auth c) (op_serializer (op_content op) (bodySerializer c)) (fetch c) (requestValidator c)
      (responseValidator c) (responseTransformer c))
    (op_method op) (op_url op) (opt_path o) (opt_query o) (opt_body o) (if op_secure op then [authorization] else []).

Definition invoke (cl : client) (op : operation) (o : Options) : M W reply :=
  makeMethodFn boundary globalFetch cl (op_method op) (op_options op o).

End sdk.
