(* ===== verification/Routes.v ===== *)
(** * The routes of the server

    The table [mountAPI] and [mountProtected] of [src/pkg/api/server.go] register, and how the URLs the
    client builds for the operations of [Sdk] are told apart by it. The router (chi) is a parameter, the class
    [Router]: what it documents of patterns, and that it takes the path as it was sent when [net/url] keeps that;
    which of several matching routes it picks is left open: the theorem shows there is one. *)

From S2P Require Import Prelude JsString PathSerializer Client Url Sdk.
Local Open Scope string_scope.

Record route := mkRoute { r_method : string; r_pattern : string; r_handler : string }.
#[export] Instance route_eq_dec : EqDecision route.
Proof. solve_decision. Defined.

Definition mountAPI : list route :=
  [mkRoute "GET" "/docs/openapi.json" "serveOpenAPI";
   mkRoute "POST" "/login" "handleLogin";
   mkRoute "GET" "/vms/{id}/console" "consoleVM";
   mkRoute "GET" "/vms/{id}/display" "displayVM";
   mkRoute "GET" "/host/console" "hostConsole";
   mkRoute "GET" "/jobs/stream" "streamJobs";
   mkRoute "GET" "/events" "streamEvents"].

Definition mountProtected : list route :=
  [mkRoute "GET" "/me" "currentUser";
   mkRoute "PATCH" "/me/password" "changePassword";
   mkRoute "GET" "/me/api-keys" "listAPIKeys";
   mkRoute "POST" "/me/api-keys" "createAPIKey";
   mkRoute "DELETE" "/me/api-keys/{id}" "revokeAPIKey";
   mkRoute "GET" "/usb/devices" "listUSBDevices";
   mkRoute "GET" "/vms/{id}/usb" "listVMUSB";
   mkRoute "POST" "/vms/{id}/usb" "attachUSB";
   mkRoute "POST" "/vms/{id}/usb/assignments" "assignUSB";
   mkRoute "DELETE" "/vms/{id}/usb/assignments/{key}" "unassignUSB";
   mkRoute "DELETE" "/vms/{id}/usb/{attachment}" "detachUSB";
   mkRoute "GET" "/vms" "listVMs";
   mkRoute "POST" "/vms" "createVM";
   mkRoute "GET" "/vms/{id}" "getVM";
   mkRoute "PATCH" "/vms/{id}/hardware" "updateHardware";
   mkRoute "POST" "/vms/{id}/interfaces" "addVMInterface";
   mkRoute "PATCH" "/vms/{id}/interfaces/{interface}" "updateVMInterface";
   mkRoute "DELETE" "/vms/{id}/interfaces/{interface}" "removeVMInterface";
   mkRoute "POST" "/vms/{id}/disks" "addDisk";
   mkRoute "PATCH" "/vms/{id}/disks/{disk}" "growDisk";
   mkRoute "DELETE" "/vms/{id}/disks/{disk}" "removeDisk";
   mkRoute "GET" "/vms/{id}/preview" "previewVM";
   mkRoute "GET" "/vms/{id}/guest-agent" "vmGuestAgent";
   mkRoute "POST" "/vms/{id}/start" "startVM";
   mkRoute "POST" "/vms/{id}/stop" "stopVM";
   mkRoute "POST" "/vms/{id}/shutdown" "shutdownVM";
   mkRoute "GET" "/vms/{id}/backups" "listBackups";
   mkRoute "POST" "/vms/{id}/backups" "createBackup";
   mkRoute "GET" "/vms/{id}/backups/schedule" "getBackupSchedule";
   mkRoute "PUT" "/vms/{id}/backups/schedule" "setBackupSchedule";
   mkRoute "POST" "/vms/{id}/backups/{timestamp}/restore" "restoreBackup";
   mkRoute "DELETE" "/vms/{id}/backups/{timestamp}" "deleteBackup";
   mkRoute "GET" "/vms/{id}/snapshots" "listSnapshots";
   mkRoute "POST" "/vms/{id}/snapshots" "createSnapshot";
   mkRoute "POST" "/vms/{id}/snapshots/{tag}/restore" "restoreSnapshot";
   mkRoute "DELETE" "/vms/{id}/snapshots/{tag}" "deleteSnapshot";
   mkRoute "DELETE" "/vms/{id}" "deleteVM";
   mkRoute "GET" "/networks" "listNetworks";
   mkRoute "POST" "/networks" "createNetwork";
   mkRoute "PUT" "/networks/{id}" "updateNetwork";
   mkRoute "POST" "/networks/{id}/apply" "applyNetwork";
   mkRoute "DELETE" "/networks/{id}" "destroyNetwork";
   mkRoute "GET" "/disks" "listDisks";
   mkRoute "GET" "/disks/stats" "diskStorage";
   mkRoute "GET" "/host" "hostInfo";
   mkRoute "GET" "/interfaces" "listInterfaces";
   mkRoute "GET" "/images" "listImages";
   mkRoute "GET" "/catalog" "listCatalog";
   mkRoute "POST" "/catalog/{id}/download" "downloadCatalogImage";
   mkRoute "DELETE" "/catalog/{id}" "deleteCatalogImage";
   mkRoute "GET" "/media" "listMedia";
   mkRoute "POST" "/media" "createMedia";
   mkRoute "POST" "/media/iso" "uploadISO";
   mkRoute "POST" "/media/image" "uploadImage";
   mkRoute "DELETE" "/media/{id}" "deleteMedia";
   mkRoute "PATCH" "/vms/{id}/media" "updateMedia";
   mkRoute "GET" "/jobs" "listJobs";
   mkRoute "GET" "/jobs/{id}" "getJob"].

(** Mounted under [/api]. *)
Definition server_routes : list route :=
  (λ r, mkRoute (r_method r) ("/api" ++ r_pattern r) (r_handler r)) <$> (mountAPI ++ mountProtected)%list.

(** ** Patterns by their pieces *)

Inductive elem := Static (s : string) | Param (name : string).

Definition elem_of_piece (p : string) : elem :=
  match p with
  | String c r => if is_char "{" c && ends_with "}" r then Param (rev_str (match rev_str r with String _ n => n | "" => "" end)) else Static p
  | "" => Static ""
  end.
Definition elements (url : string) : list elem := elem_of_piece <$> split_on "/" url.
Definition elem_text (e : elem) : string := match e with Static s => s | Param n => "{" ++ n ++ "}" end.

(** What a pattern means: a parameter stands for any text up to the next slash. [None] when a path does not fit, else
    the parameters. *)
Fixpoint match_elems (es : list elem) (pieces : list string) : option (list (string * string)) :=
  match es, pieces with
  | [], [] => Some []
  | Static s :: es, p :: ps => if String.eqb s p then match_elems es ps else None
  | Param n :: es, p :: ps => ps' ← match_elems es ps; Some ((n, p) :: ps')
  | _, _ => None
  end.
Definition route_match (r : route) (path : string) : option (list (string * string)) :=
  match_elems (elements (r_pattern r)) (split_on "/" path).

Definition seg_of (e : elem) : segment := match e with Static s => Lit s | Param n => Par n end.
Fixpoint segments (es : list elem) : list segment :=
  match es with
  | [] => []
  | [e] => [seg_of e]
  | e :: es => seg_of e :: Lit "/" :: segments es
  end.

Lemma render_segments es : render (segments es) = join "/" (elem_text <$> es).
Proof.
  induction es as [|e es IH]; [done|]. destruct es as [|e' es].
  - destruct e; cbn; by rewrite str_app_nil_r.
  - change (segments (e :: e' :: es)) with (seg_of e :: Lit "/" :: segments (e' :: es)). cbn [render]. rewrite IH.
    change (elem_text <$> e :: e' :: es) with (elem_text e :: elem_text e' :: (elem_text <$> es)). rewrite join_cons.
    by destruct e.
Qed.

(** The pieces of an operation's path for the values of a call, written in some way; the client encodes them. *)
Definition piece_with (f : string → string) (path : list (string * param)) (e : elem) : string :=
  match e with
  | Static s => s
  | Param n => match lookup_param n path with Scalar v => f v | _ => elem_text e end
  end.
Notation piece_of := (piece_with encodeURIComponent).
Definition op_pieces (path : list (string * param)) (op : operation) : list string := piece_of path <$> elements (op_url op).

Lemma fill_segments path es : render (fill_segment path <$> segments es) = join "/" (piece_of path <$> es).
Proof.
  assert (∀ e, seg_text (fill_segment path (seg_of e)) = piece_of path e) as Hs.
  { intros [s|n]; [done|]. cbn. by destruct (lookup_param n path). }
  induction es as [|e es IH]; [done|]. destruct es as [|e' es].
  - cbn. by rewrite Hs, str_app_nil_r.
  - change (segments (e :: e' :: es)) with (seg_of e :: Lit "/" :: segments (e' :: es)). rewrite !fmap_cons. cbn [render].
    change (fill_segment path (Lit "/")) with (Lit "/"). rewrite Hs.
    change (list_fmap _ _ (fill_segment path) (segments (e' :: es))) with (fill_segment path <$> segments (e' :: es)). rewrite IH.
    rewrite fmap_cons, join_cons. done.
Qed.

Definition op_names (op : operation) : list string := names (segments (elements (op_url op))).

(** What is true of every template of the table, checked by evaluation. *)
Definition good_op (op : operation) : bool :=
  String.eqb (render (segments (elements (op_url op)))) (op_url op) && starts_with "/api/" (op_url op)
  && bool_decide (good_template (segments (elements (op_url op)))) && all_chars (λ c, negb (is_char "?" c)) (op_url op).

Lemma good_ops : forallb good_op operations = true.
Proof. vm_compute. reflexivity. Qed.

Lemma good_operation op : op ∈ operations →
  render (segments (elements (op_url op))) = op_url op ∧ starts_with "/" (op_url op) = true ∧ good_template (segments (elements (op_url op))).
Proof.
  intros Hop. pose proof good_ops as Hg. rewrite forallb_forall in Hg. specialize (Hg op (proj1 (list_elem_of_In _ _) Hop)).
  unfold good_op in Hg. rewrite !andb_true_iff in Hg. destruct Hg as [[[H1%String.eqb_eq H2] H3%bool_decide_eq_true] _].
  split_and!; [done| |done]. apply starts_with_spec in H2 as [r ->]. apply starts_with_spec. by exists ("api/" ++ r).
Qed.

(** The values of a call: a text for every parameter, that the platform leaves in its place. *)
Definition good_value (v : string) : Prop := v ≠ "" ∧ v ≠ "." ∧ v ≠ "..".
Definition values_for (op : operation) (path : list (string * param)) : Prop :=
  ∀ n, n ∈ op_names op → ∃ v, lookup_param n path = Scalar v ∧ good_value v.

Lemma origin_no_brace base : is_origin base → all_chars no_brace base = true.
Proof.
  intros (s & h & -> & _ & Hs & Hh). rewrite !all_chars_app.
  assert (∀ f t, (∀ c, f c = true → no_brace c = true) → all_chars f t = true → all_chars no_brace t = true) as Hi.
  { intros f t Hf. rewrite !all_chars_spec. intros H c Hc. apply Hf, H, Hc. }
  rewrite (Hi is_alnum s), (Hi host_char h); try done; intros [[] [] [] [] [] [] [] []]; done.
Qed.

(** The URL of an operation: its template filled in after the origin. *)
Lemma op_getUrl base path query ser op : is_origin base → op ∈ operations → values_for op path →
  ∃ q, (q = "" ∨ starts_with "?" q = true) ∧
    getUrl (Some base) (Some path) query ser (op_url op) = base ++ join "/" (op_pieces path op) ++ q.
Proof.
  intros Hb Hop Hv. destruct (good_operation op Hop) as (Hr & Hs & Hg & Hnd). unfold getUrl. rewrite Hs. cbv zeta. change (default "" (Some base)) with base.
  assert (defaultPathSerializer path (base ++ op_url op) = base ++ join "/" (op_pieces path op)) as ->.
  { rewrite <- Hr. change (base ++ render (segments (elements (op_url op)))) with (render (Lit base :: segments (elements (op_url op)))).
    rewrite defaultPathSerializer_fill.
    - unfold fill. rewrite fmap_cons. cbn [render fill_segment seg_text]. f_equal. apply fill_segments.
    - split; [|done]. apply Forall_cons. split; [by apply origin_no_brace|done].
    - intros n Hn. destruct (Hv n Hn) as (v & -> & _). done. }
  destruct (truthy _); [|by exists ""; rewrite str_app_nil_r; auto].
  eexists. rewrite str_app_assoc. split; [|done]. by right.
Qed.

(** ** One route for every request *)

(** Whether a path of the first pattern can match the second. *)
Fixpoint could_match (es rs : list elem) : bool :=
  match es, rs with
  | [], [] => true
  | Static a :: es, Static b :: rs => String.eqb a b && could_match es rs
  | Param _ :: es, Static b :: rs | Param _ :: es, Param b :: rs | Static _ :: es, Param b :: rs => could_match es rs
  | _, _ => false
  end.

Lemma match_could f path es rs : match_elems rs (piece_with f path <$> es) ≠ None → could_match es rs = true.
Proof.
  revert rs. induction es as [|e es IH]; intros [|r rs]; [done|by destruct r|by destruct e|]. rewrite fmap_cons.
  destruct r as [b|m]; cbn [match_elems]; intros Hm.
  - destruct (String.eqb_spec b (piece_with f path e)) as [->|]; [|done].
    destruct e; cbn [could_match piece_with]; rewrite IH by done; [by rewrite String.eqb_refl|done].
  - destruct (match_elems rs (piece_with f path <$> es)) eqn:E; [|done]. destruct e; cbn [could_match]; apply IH; congruence.
Qed.

Definition op_route (op : operation) (r : route) : bool := String.eqb (r_method r) (op_method op) && String.eqb (r_pattern r) (op_url op).

Definition static_plain (e : elem) : bool := match e with Static s => plain_piece s | Param _ => true end.

(** The table: every operation has its route, and no other route matches, but for [getJob] and the
    stream of jobs, whose path is that of a job called [stream]. *)
Definition table_ok (op : operation) : bool :=
  existsb (op_route op) server_routes
  && forallb (λ r, negb (String.eqb (r_method r) (op_method op)) || negb (could_match (elements (op_url op)) (elements (r_pattern r)))
                   || String.eqb (r_pattern r) (op_url op)
                   || (bool_decide (op = getJob) && String.eqb (r_pattern r) "/api/jobs/stream")
                   || bool_decide (op = streamJobs)) server_routes
  && match elements (op_url op) with Static "" :: e :: es => forallb static_plain (e :: es) | _ => false end.

Lemma table_checked : forallb table_ok operations = true.
Proof. vm_compute. reflexivity. Qed.

Lemma routes_distinct : ∀ r r', r ∈ server_routes → r' ∈ server_routes →
  r_method r = r_method r' → r_pattern r = r_pattern r' → r = r'.
Proof.
  assert (forallb (λ r, forallb (λ r', negb (String.eqb (r_method r) (r_method r')) || negb (String.eqb (r_pattern r) (r_pattern r'))
    || bool_decide (r = r')) server_routes) server_routes = true) as H by (vm_compute; reflexivity).
  intros r r' Hr Hr' Hm Hp. rewrite forallb_forall in H. specialize (H r (proj1 (list_elem_of_In _ _) Hr)).
  rewrite forallb_forall in H. specialize (H r' (proj1 (list_elem_of_In _ _) Hr')).
  rewrite Hm, Hp, !String.eqb_refl in H. by apply bool_decide_eq_true in H.
Qed.


Lemma lower_char_plain c d : lower_char c = d → d ∈ ["."%char; "%"%char; "2"%char] → c = d.
Proof.
  destruct c as [[] [] [] [] [] [] [] []]; cbn; intros <- H; try reflexivity;
    exfalso; repeat (apply elem_of_cons in H as [H|H]; [discriminate H|]); by apply not_elem_of_nil in H.
Qed.
Lemma lower_char_e c : lower_char c = "e"%char → c = "e"%char ∨ c = "E"%char.
Proof. destruct c as [[] [] [] [] [] [] [] []]; cbn; intros H; try discriminate H; auto. Qed.

(** A piece the platform resolves decodes to dots. *)
Ltac lower_step H :=
  lazymatch type of H with
  | lower ?s = String ?d ?t =>
      let c := fresh "c" in let r := fresh "r" in let Hc := fresh "Hc" in
      destruct s as [|c r]; [discriminate H|]; cbn [lower] in H; injection H as Hc H;
      first [ apply lower_char_e in Hc as [->| ->] | apply lower_char_plain in Hc; [subst c|set_solver] ];
      lower_step H
  | lower ?s = "" => destruct s; [clear H|discriminate H]
  end.

Lemma dots_decode p : is_dot p = true ∨ is_dotdot p = true → decodeURIComponent p = Some "." ∨ decodeURIComponent p = Some "..".
Proof.
  unfold is_dot, is_dotdot. rewrite !bool_decide_eq_true.
  intros [H|H]; repeat (apply elem_of_cons in H as [H|H]); try (by apply not_elem_of_nil in H); lower_step H; auto.
Qed.

Lemma encode_plain_piece v : good_value v → plain_piece (encodeURIComponent v) = true.
Proof.
  intros (_ & Hd & Hdd). unfold plain_piece. rewrite !andb_true_iff, !negb_true_iff. split_and!.
  - pose proof (encode_chars v) as Hc. rewrite all_chars_spec in Hc |- *. intros c Hin. specialize (Hc c Hin).
    destruct c as [[] [] [] [] [] [] [] []]; done.
  - apply not_true_iff_false. intros H. destruct (dots_decode (encodeURIComponent v)) as [E|E]; [by left|..];
      rewrite decode_encode in E; injection E; done.
  - apply not_true_iff_false. intros H. destruct (dots_decode (encodeURIComponent v)) as [E|E]; [by right|..];
      rewrite decode_encode in E; injection E; done.
Qed.

Lemma names_cons e es : names (segments (e :: es)) = (match e with Param n => [n] | Static _ => [] end ++ names (segments es))%list.
Proof. destruct es, e; done. Qed.

Lemma op_pieces_plain path es : (∀ n, n ∈ names (segments es) → ∃ v, lookup_param n path = Scalar v ∧ good_value v) →
  forallb static_plain es = true → Forall (λ p, plain_piece p = true) (piece_of path <$> es).
Proof.
  induction es as [|e es IH]; [constructor|]. rewrite names_cons. cbn [forallb]. intros Hv [He Hes]%andb_true_iff.
  rewrite fmap_cons. constructor.
  - destruct e as [s|n]; [done|]. cbn [piece_with]. destruct (Hv n) as (v & -> & Hg); [set_solver|]. by apply encode_plain_piece.
  - apply IH; [|done]. intros n Hn. apply Hv. set_solver.
Qed.

Lemma match_own f path es : (∀ n, n ∈ names (segments es) → ∃ v, lookup_param n path = Scalar v ∧ good_value v) →
  match_elems es (piece_with f path <$> es) = Some ((λ n, (n, piece_with f path (Param n))) <$> names (segments es)).
Proof.
  induction es as [|e es IH]; [done|]. rewrite names_cons. intros Hv. rewrite fmap_cons.
  assert (∀ n, n ∈ names (segments es) → ∃ v, lookup_param n path = Scalar v ∧ good_value v) as Hv'.
  { intros n Hn. apply Hv. set_solver. }
  destruct e as [s|n]; cbn [match_elems app].
  - cbn [piece_with]. by rewrite String.eqb_refl, IH.
  - rewrite IH by done. cbn [mbind option_bind]. destruct (Hv n) as (v & Hl & _); [set_solver|]. done.
Qed.

(** An operation without parameters needs no values. *)
Lemma getUrl_no_path base query ser op : is_origin base → op ∈ operations → op_names op = [] →
  getUrl (Some base) None query ser (op_url op) = getUrl (Some base) (Some []) query ser (op_url op).
Proof.
  intros Hb Hop Hn. destruct (good_operation op Hop) as (Hr & Hs & Hg & Hnd). unfold getUrl. rewrite Hs. cbv zeta.
  change (default "" (Some base)) with base.
  assert (defaultPathSerializer [] (base ++ op_url op) = base ++ op_url op) as ->; [|done].
  unfold defaultPathSerializer. rewrite <- Hr.
  change (base ++ render (segments (elements (op_url op)))) with (render (Lit base :: segments (elements (op_url op)))).
  rewrite path_params_render by (apply Forall_cons; split; [by apply origin_no_brace|done]).
  change (names (Lit base :: segments (elements (op_url op)))) with (op_names op). by rewrite Hn.
Qed.

(** The path the server is sent. *)
Definition sent_path (base : string) (path query : option (list (string * param))) ser (op : operation) : option string :=
  pathname (getUrl (Some base) path query ser (op_url op)).

Lemma sent_path_pieces base path query ser op : is_origin base → op ∈ operations → values_for op path →
  sent_path base (Some path) query ser op = Some (join "/" (op_pieces path op)) ∧
  split_on "/" (join "/" (op_pieces path op)) = op_pieces path op.
Proof.
  intros Hb Hop Hv. unfold sent_path. destruct (op_getUrl base path query ser op Hb Hop Hv) as (q & Hq & ->).
  pose proof table_checked as Ht. rewrite forallb_forall in Ht. specialize (Ht op (proj1 (list_elem_of_In _ _) Hop)).
  unfold table_ok in Ht. rewrite !andb_true_iff in Ht. destruct Ht as [_ Ht]. unfold values_for, op_names in Hv. unfold op_pieces.
  destruct (elements (op_url op)) as [|[[|]|] [|e es]] eqn:E; try done. rewrite fmap_cons. cbn [piece_with].
  rewrite fmap_cons, join_cons. cbn [String.append].
  assert (Forall (λ p, plain_piece p = true) (piece_of path <$> e :: es)) as Hp.
  { apply op_pieces_plain; [|done]. intros n Hn. apply Hv. by rewrite names_cons. }
  split.
  - apply pathname_spec; done.
  - change (String "/" (join "/" (piece_of path e :: (piece_of path <$> es)))) with (join "/" ("" :: (piece_of path <$> e :: es))).
    apply split_on_join; [done|]. constructor; [set_solver|]. eapply Forall_impl; [exact Hp|]. intros p Hpp. by apply plain_piece_chars.
Qed.

(** A way of writing values that tells the stream of jobs from the jobs. *)
Definition telling (f : string → string) : Prop := ∀ v, f v = "stream" → v = "stream".

Lemma getJob_stream f path v : telling f → lookup_param "id" path = Scalar v →
  match_elems (elements "/api/jobs/stream") (piece_with f path <$> elements (op_url getJob)) ≠ None → v = "stream".
Proof.
  intros Hf. change (elements "/api/jobs/stream") with [Static ""; Static "api"; Static "jobs"; Static "stream"].
  change (elements (op_url getJob)) with [Static ""; Static "api"; Static "jobs"; Param "id"].
  cbn [fmap list_fmap piece_with match_elems]. intros ->. rewrite !String.eqb_refl.
  destruct (String.eqb_spec "stream" (f v)) as [E|]; [|done]. intros _. by apply Hf.
Qed.

(** Pieces of an operation fit the pattern of its route, and no other of its method. *)
Lemma pieces_fit f op path : telling f →
  op ∈ operations → op ≠ streamJobs → values_for op path → (op = getJob → lookup_param "id" path ≠ Scalar "stream") →
  let pieces := piece_with f path <$> elements (op_url op) in
  ∃ r, r ∈ server_routes ∧ r_method r = op_method op ∧ r_pattern r = op_url op ∧
    match_elems (elements (r_pattern r)) pieces = Some ((λ n, (n, piece_with f path (Param n))) <$> op_names op) ∧
    ∀ r', r' ∈ server_routes → r_method r' = op_method op → match_elems (elements (r_pattern r')) pieces ≠ None → r' = r.
Proof.
  intros Hf Hop Hns Hv Hj.
  pose proof table_checked as Ht. rewrite forallb_forall in Ht. specialize (Ht op (proj1 (list_elem_of_In _ _) Hop)).
  unfold table_ok in Ht. rewrite !andb_true_iff in Ht. destruct Ht as [[Hex Hall] _].
  apply existsb_exists in Hex as (r & Hr & Hor). apply list_elem_of_In in Hr. unfold op_route in Hor.
  apply andb_true_iff in Hor as [Hm%String.eqb_eq Hpat%String.eqb_eq].
  exists r. rewrite Hpat. split_and!; [done..| |].
  - by apply match_own.
  - intros r' Hr' Hm' Hmatch. apply routes_distinct; [done|done|congruence|]. rewrite Hpat.
    rewrite forallb_forall in Hall. specialize (Hall r' (proj1 (list_elem_of_In _ _) Hr')).
    rewrite Hm', String.eqb_refl in Hall. rewrite (match_could f path _ _ Hmatch) in Hall.
    cbn [negb orb] in Hall. rewrite (bool_decide_eq_false_2 (op = streamJobs)), orb_false_r in Hall by done.
    apply orb_true_iff in Hall as [?%String.eqb_eq|Hall]; [done|]. exfalso.
    apply andb_true_iff in Hall as [->%bool_decide_eq_true Hpr%String.eqb_eq]. rewrite Hpr in Hmatch.
    destruct (Hv "id") as (v & Hl & _); [by apply list_elem_of_In; left|]. apply (Hj eq_refl). rewrite Hl. f_equal.
    by apply (getJob_stream f path).
Qed.

Lemma encode_telling : telling encodeURIComponent.
Proof. intros v E. apply (inj encodeURIComponent). by rewrite E. Qed.

(** A path made of the pieces of an operation is taken by the route of that operation alone. *)
Lemma pieces_reach_handler op path :
  op ∈ operations → op ≠ streamJobs → values_for op path → (op = getJob → lookup_param "id" path ≠ Scalar "stream") →
  split_on "/" (join "/" (op_pieces path op)) = op_pieces path op →
  ∃ r, r ∈ server_routes ∧ r_method r = op_method op ∧ r_pattern r = op_url op ∧
    route_match r (join "/" (op_pieces path op)) = Some ((λ n, (n, piece_of path (Param n))) <$> op_names op) ∧
    ∀ r', r' ∈ server_routes → r_method r' = op_method op → route_match r' (join "/" (op_pieces path op)) ≠ None → r' = r.
Proof. intros Hop Hns Hv Hj Hsplit. unfold route_match. rewrite Hsplit. by apply (pieces_fit _ op path encode_telling). Qed.

(** ** What the server reads of a path

    [setPath] of [net/url]: the path without its escapes, and the path as it was sent if escaping the first in the
    usual way does not give it back. *)
Definition path_char (c : ascii) : bool :=
  is_alnum c || bool_decide (c ∈ ["-"; "_"; "."; "~"; "$"; "&"; "+"; ","; "/"; ":"; ";"; "="; "@"]%char).
Definition escape_char (c : ascii) : string :=
  if path_char c then String c "" else String "%" (String (upper_hex (code c / 16)) (String (upper_hex (code c mod 16)) "")).
Fixpoint escape_path (s : string) : string := match s with "" => "" | String c r => escape_char c ++ escape_path r end.

Record URL := mkURL { url_Path : string; url_RawPath : string }.
Definition setPath (p : string) : option URL :=
  (λ path, mkURL path (if String.eqb (escape_path path) p then "" else p)) <$> decodeURIComponent p.

(** The path that routes are matched against. *)
Definition routed (u : URL) : string := if truthy (url_RawPath u) then url_RawPath u else url_Path u.

(** What the router documents: the route it serves a request with is one for its method whose pattern fits; if there
    is one it serves the request; and a pattern without parameters that fits goes before those with some. *)
Class Router (serve : list route → string → URL → option (route * list (string * string))) : Prop := {
  serve_fits t m u r ps : serve t m u = Some (r, ps) → r ∈ t ∧ r_method r = m ∧ route_match r (routed u) = Some ps;
  serve_finds t m u r : r ∈ t → r_method r = m → route_match r (routed u) ≠ None → serve t m u ≠ None;
  serve_static t m u r r' ps : r ∈ t → r_method r = m → route_match r (routed u) = Some [] → serve t m u = Some (r', ps) → ps = []
}.

Definition static_unescaped (e : elem) : bool := match e with Static s => all_chars (λ c, negb (is_char "%" c)) s | Param _ => true end.
Lemma statics_checked op : op ∈ operations → forallb static_unescaped (elements (op_url op)) = true.
Proof.
  assert (forallb (λ op, forallb static_unescaped (elements (op_url op))) operations = true) as H by (vm_compute; reflexivity).
  rewrite forallb_forall in H. intros Hop. by apply H, list_elem_of_In.
Qed.

Lemma decode_plain_app s t : all_chars (λ c, negb (is_char "%" c)) s = true → decodeURIComponent (s ++ t) = append s <$> decodeURIComponent t.
Proof.
  induction s as [|c s IH]; [intros _; cbn; by destruct (decodeURIComponent t)|]. unfold all_chars. cbn [chars forallb]. intros [Hc Hs]%andb_true_iff.
  cbn [String.append decodeURIComponent]. apply negb_true_iff in Hc. unfold is_char in Hc. rewrite Ascii.eqb_sym in Hc. rewrite Hc, IH by done.
  by destruct (decodeURIComponent t).
Qed.
Lemma decode_encode_app v t : decodeURIComponent (encodeURIComponent v ++ t) = append v <$> decodeURIComponent t.
Proof.
  induction v as [|c v IH]; [cbn; by destruct (decodeURIComponent t)|]. cbn [encodeURIComponent].
  rewrite str_app_assoc, decode_encode_char, IH. by destruct (decodeURIComponent t).
Qed.

Lemma decode_piece path e t : static_unescaped e = true → (∀ n, e = Param n → ∃ v, lookup_param n path = Scalar v) →
  decodeURIComponent (piece_of path e ++ t) = append (piece_with (λ v, v) path e) <$> decodeURIComponent t.
Proof.
  destruct e as [s|n]; cbn [piece_with static_unescaped]; intros Hs Hv; [by apply decode_plain_app|].
  destruct (Hv n eq_refl) as [v ->]. apply decode_encode_app.
Qed.

Lemma decode_pieces path es : forallb static_unescaped es = true → (∀ n, n ∈ names (segments es) → ∃ v, lookup_param n path = Scalar v) →
  decodeURIComponent (join "/" (piece_of path <$> es)) = Some (join "/" (piece_with (λ v, v) path <$> es)).
Proof.
  induction es as [|e es IH]; [done|]. cbn [forallb]. rewrite names_cons. intros [He Hes]%andb_true_iff Hv.
  assert (∀ n, e = Param n → ∃ v, lookup_param n path = Scalar v) as Hve by (intros n ->; apply Hv; set_solver).
  destruct es as [|e' es].
  - cbn [fmap list_fmap join]. rewrite <- (str_app_nil_r (piece_of path e)), decode_piece by done. cbn. by rewrite str_app_nil_r.
  - rewrite !fmap_cons, !join_cons. rewrite decode_piece by done. rewrite <- !fmap_cons. cbn [String.append].
    change (String "/" ?x) with ("/" ++ x). rewrite decode_plain_app by done. rewrite IH; [done|done|]. intros n Hn. apply Hv. set_solver.
Qed.

(** *** Slashes *)

Fixpoint slashes (s : string) : nat := match s with "" => 0 | String c r => (if is_char "/" c then 1 else 0) + slashes r end.
Lemma slashes_app s t : slashes (s ++ t) = (slashes s + slashes t)%nat.
Proof. induction s as [|c s IH]; [done|]. cbn. rewrite IH. lia. Qed.
Lemma slashes_none s : slashes s = 0%nat ↔ "/"%char ∉ chars s.
Proof.
  induction s as [|c s IH]; [split; [intros _; apply not_elem_of_nil|done]|]. cbn [slashes chars]. rewrite not_elem_of_cons, <- IH.
  unfold is_char. destruct (Ascii.eqb_spec "/" c) as [->|Hc]; [split; [lia|by intros []]|]. split; [done|by intros []].
Qed.
Lemma slashes_escape s : slashes (escape_path s) = slashes s.
Proof.
  induction s as [|c s IH]; [done|]. cbn [escape_path slashes]. rewrite slashes_app, IH. f_equal. by destruct c as [[] [] [] [] [] [] [] []].
Qed.
Lemma slashes_join x l : slashes (join "/" (x :: l)) = (slashes x + list_sum (slashes <$> l) + length l)%nat.
Proof.
  revert x. induction l as [|y l IH]; intros x; [cbn; lia|]. rewrite join_cons, slashes_app. change ("/" ++ ?t) with (String "/" t). cbn [slashes]. change (is_char "/" "/") with true. rewrite IH.
  rewrite fmap_cons, list_sum_cons. cbn [length]. lia.
Qed.

Lemma split_slashes x l : slashes (join "/" (x :: l)) = length l → split_on "/" (join "/" (x :: l)) = x :: l.
Proof.
  intros H. apply split_on_join; [done|]. rewrite slashes_join in H. apply Forall_forall. intros y Hy. apply slashes_none.
  assert (∀ k : list string, y ∈ k → (slashes y ≤ list_sum (slashes <$> k))%nat) as Hle.
  { induction k as [|z k IHk]; [by intros ?%not_elem_of_nil|]. rewrite fmap_cons, list_sum_cons. intros [->|Hk]%elem_of_cons; [lia|]. specialize (IHk Hk). lia. }
  apply elem_of_cons in Hy as [->|Hy]; [lia|]. specialize (Hle l Hy). lia.
Qed.

(** The value that a parameter is read as: without its escapes, unless the path was kept as it was sent. *)
Definition read_value (u : URL) (v : string) : string := if truthy (url_RawPath u) then encodeURIComponent v else v.

(** The handlers have the names of their operations. *)
Lemma handler_named op r : op ∈ operations → r ∈ server_routes → r_method r = op_method op → r_pattern r = op_url op →
  lower (r_handler r) = lower (op_name op).
Proof.
  assert (forallb (λ op, forallb (λ r, negb (op_route op r) || String.eqb (lower (r_handler r)) (lower (op_name op))) server_routes) operations = true)
    as H by (vm_compute; reflexivity).
  intros Hop Hr Hm Hp. rewrite forallb_forall in H. specialize (H op (proj1 (list_elem_of_In _ _) Hop)).
  rewrite forallb_forall in H. specialize (H r (proj1 (list_elem_of_In _ _) Hr)). unfold op_route in H.
  rewrite Hm, Hp, !String.eqb_refl in H. by apply String.eqb_eq in H.
Qed.

(** What becomes of a path made of the pieces of an operation. *)
Lemma pieces_fitted serve `{!Router serve} op path :
  op ∈ operations → op ≠ streamJobs → values_for op path → (op = getJob → lookup_param "id" path ≠ Scalar "stream") →
  let p := join "/" (op_pieces path op) in split_on "/" p = op_pieces path op →
  ∃ u r, setPath p = Some u ∧ url_Path u = join "/" (piece_with (λ v, v) path <$> elements (op_url op)) ∧
    r ∈ server_routes ∧ r_method r = op_method op ∧ r_pattern r = op_url op ∧ lower (r_handler r) = lower (op_name op) ∧
    serve server_routes (op_method op) u = Some (r, (λ n, (n, piece_with (read_value u) path (Param n))) <$> op_names op).
Proof.
  intros Hop Hns Hv Hj p Hsplit.
  assert (decodeURIComponent p = Some (join "/" (piece_with (λ v, v) path <$> elements (op_url op)))) as Hd.
  { apply decode_pieces; [by apply statics_checked|]. intros n Hn. destruct (Hv n Hn) as (v & ? & _). eauto. }
  set (path' := join "/" (piece_with (λ v, v) path <$> elements (op_url op))) in *.
  exists (mkURL path' (if String.eqb (escape_path path') p then "" else p)). set (u := mkURL _ _).
  assert (telling (read_value u)) as Htell by (unfold read_value; case_match; [exact encode_telling|by intros v]).
  destruct (pieces_fit (read_value u) op path Htell Hop Hns Hv Hj) as (r & Hr & Hm & Hpat & Hmatch & Huniq).
  assert (split_on "/" (routed u) = piece_with (read_value u) path <$> elements (op_url op)) as Hrouted.
  { unfold routed, read_value. destruct (String.eqb_spec (escape_path path') p) as [E|E]; subst u; cbn [url_RawPath url_Path truthy].
    - change (truthy "") with false. cbv iota. unfold path' in *. destruct (elements (op_url op)) as [|e es] eqn:Ees.
      { exfalso. apply (split_on_nonempty "/" (op_url op)). by apply fmap_nil_inv in Ees. }
      rewrite fmap_cons. apply split_slashes. rewrite <- slashes_escape, <- fmap_cons, E. unfold p, op_pieces. rewrite Ees, fmap_cons, slashes_join.
      unfold p, op_pieces in Hsplit. rewrite Ees in Hsplit.
      assert (Forall (λ w, slashes w = 0%nat) (piece_of path <$> e :: es)) as Hall.
      { rewrite <- Hsplit. eapply Forall_impl; [apply split_on_pieces|]. intros w. apply slashes_none. }
      rewrite fmap_cons in Hall. apply Forall_cons in Hall as [H1 H2]. rewrite H1, !length_fmap.
      assert (list_sum (slashes <$> (piece_of path <$> es)) = 0%nat) as ->; [|lia].
      clear -H2. induction (piece_of path <$> es) as [|w l IH]; [done|]. apply Forall_cons in H2 as [Hw Hl]. rewrite fmap_cons, list_sum_cons, Hw. by apply IH.
    - assert (truthy p = true) as ->; [|exact Hsplit]. apply truthy_true. intros E0. apply E. rewrite E0 in Hd. injection Hd as <-. by rewrite E0. }
  exists r. split_and!; [unfold setPath; by rewrite Hd|done..|by apply handler_named|].
  assert (∀ r', route_match r' (routed u) = match_elems (elements (r_pattern r')) (piece_with (read_value u) path <$> elements (op_url op))) as Hrm.
  { intros r'. unfold route_match. by rewrite Hrouted. }
  destruct (serve server_routes (op_method op) u) as [[r' ps]|] eqn:Es.
  - destruct (serve_fits _ _ _ _ _ Es) as (Hr' & Hm' & Hps). rewrite Hrm in Hps. assert (r' = r) as -> by (apply Huniq; [done|done|congruence]). congruence.
  - exfalso. apply (serve_finds server_routes (op_method op) u r); [done|done| |done]. rewrite Hrm, Hmatch. done.
Qed.

(** The stream of jobs has the path of the job called [stream], and is the one without parameters. *)
Lemma stream_fitted serve `{!Router serve} path :
  let p := join "/" (op_pieces path streamJobs) in
  ∃ u r, setPath p = Some u ∧ url_Path u = join "/" (piece_with (λ v, v) path <$> elements (op_url streamJobs)) ∧
    r ∈ server_routes ∧ r_method r = op_method streamJobs ∧ r_pattern r = op_url streamJobs ∧ lower (r_handler r) = lower (op_name streamJobs) ∧
    serve server_routes (op_method streamJobs) u = Some (r, (λ n, (n, piece_with (read_value u) path (Param n))) <$> op_names streamJobs).
Proof.
  cbn zeta. set (u := mkURL "/api/jobs/stream" ""). set (r := mkRoute "GET" "/api/jobs/stream" "streamJobs").
  assert (r ∈ server_routes) as Hr by (apply list_elem_of_In; vm_compute; tauto).
  exists u, r. split_and!; [by vm_compute|by vm_compute|exact Hr|done..|]. change (op_names streamJobs) with (@nil string). cbn [fmap list_fmap].
  assert (route_match r (routed u) = Some []) as Hm by by vm_compute.
  destruct (serve server_routes (op_method streamJobs) u) as [[r' ps]|] eqn:Es.
  - pose proof (serve_static _ _ _ _ _ _ Hr eq_refl Hm Es) as ->. destruct (serve_fits _ _ _ _ _ Es) as (Hr' & Hm' & Hps).
    assert (forallb (λ r', negb (String.eqb (r_method r') "GET") || negb (bool_decide (route_match r' (routed u) = Some [])) || bool_decide (r' = r)) server_routes = true)
      as H by (vm_compute; reflexivity).
    rewrite forallb_forall in H. specialize (H r' (proj1 (list_elem_of_In _ _) Hr')). rewrite Hm', Hps, (bool_decide_eq_true_2 (Some [] = Some [])) in H by done.
    change (String.eqb (op_method streamJobs) "GET") with true in H. cbn [negb orb] in H. apply bool_decide_eq_true in H. by rewrite H.
  - exfalso. apply (serve_finds server_routes (op_method streamJobs) u r); [done|done| |done]. by rewrite Hm.
Qed.

Lemma pieces_served serve `{!Router serve} op path :
  op ∈ operations → values_for op path → (op = getJob → lookup_param "id" path ≠ Scalar "stream") →
  let p := join "/" (op_pieces path op) in split_on "/" p = op_pieces path op →
  ∃ u r, setPath p = Some u ∧ url_Path u = join "/" (piece_with (λ v, v) path <$> elements (op_url op)) ∧
    r ∈ server_routes ∧ r_method r = op_method op ∧ r_pattern r = op_url op ∧ lower (r_handler r) = lower (op_name op) ∧
    serve server_routes (op_method op) u = Some (r, (λ n, (n, piece_with (read_value u) path (Param n))) <$> op_names op).
Proof. intros Hop Hv Hj. destruct (decide (op = streamJobs)) as [->|Hns]; [intros p _; by apply stream_fitted|by apply pieces_fitted]. Qed.


(** A router that takes the first route that fits, without parameters if there is one. *)
Definition fitting (t : list route) (m : string) (u : URL) : list (route * list (string * string)) :=
  omap (λ r, if String.eqb (r_method r) m then pair r <$> route_match r (routed u) else None) t.
Definition first_fit (t : list route) (m : string) (u : URL) : option (route * list (string * string)) :=
  match List.find (λ x, bool_decide (x.2 = [])) (fitting t m u) with Some x => Some x | None => head (fitting t m u) end.

Lemma elem_of_fitting t m u r ps : (r, ps) ∈ fitting t m u ↔ r ∈ t ∧ r_method r = m ∧ route_match r (routed u) = Some ps.
Proof.
  unfold fitting. rewrite list_elem_of_omap. split.
  - intros (r' & Hin & H). destruct (String.eqb_spec (r_method r') m); [|done]. destruct (route_match r' (routed u)) eqn:E; [|done]. by injection H as -> ->.
  - intros (Hin & <- & E). exists r. split; [done|]. by rewrite String.eqb_refl, E.
Qed.
#[export] Instance first_fit_router : Router first_fit.
Proof.
  split; unfold first_fit.
  - intros t m u r ps H. apply elem_of_fitting. destruct (List.find _ _) as [x|] eqn:E; [|by apply head_Some_elem_of].
    apply List.find_some in E as [E _]. injection H as ->. by apply list_elem_of_In.
  - intros t m u r Hin Hm Hr. destruct (List.find _ _); [done|]. destruct (route_match r (routed u)) as [ps|] eqn:E; [|done].
    intros H%head_None. assert ((r, ps) ∈ fitting t m u) as Hf by by apply elem_of_fitting. rewrite H in Hf. by apply not_elem_of_nil in Hf.
  - intros t m u r r' ps Hin Hm Hr H. assert ((r, []) ∈ fitting t m u) as Hf by by apply elem_of_fitting.
    destruct (List.find _ _) as [x|] eqn:E; [apply List.find_some in E as [_ E%bool_decide_eq_true]; by injection H as ->|].
    pose proof (List.find_none _ _ E (r, []) (proj1 (list_elem_of_In _ _) Hf)) as Hn. by apply bool_decide_eq_false in Hn.
Qed.


(** What the route reads is the identifier itself only where it needs no encoding; the keys of USB
    assignments, which hold a colon, do. *)
Lemma assignment_key_encoded path key : lookup_param "key" path = Scalar key → ":"%char ∈ chars key →
  piece_of path (Param "key") ≠ key.
Proof.
  intros Hl Hin. cbn [piece_with]. rewrite Hl. intros E. apply encode_id in E. rewrite all_chars_spec in E. by specialize (E _ Hin).
Qed.
