(* ===== verification/Api.v ===== *)
(** * The API module of the console

    [src/web/src/api.ts]: the token kept for the session, the interceptors set on the client, and one
    function per operation. The world is the page: its session storage, its location, the pages it was
    sent to and the progress an upload reported. *)

From S2P Require Import Prelude JsString JsNumber Json PathSerializer Client Url Sdk.
Local Open Scope string_scope.

(** ** The page *)

Record page := mkPage {
  storage : gmap string string;
  location_path : string;   (** [window.location.pathname + window.location.search] *)
  assigned : list string;   (** the arguments of [window.location.assign], in order *)
  progress : list (Z * Z)   (** the fractions given to [onProgress], as [loaded] of [total] *)
}.

Definition TOKEN_KEY : string := "maco-token".

Definition getToken (w : page) : option string := storage w !! TOKEN_KEY.
Definition setItem (k v : string) (w : page) : page := mkPage (<[k := v]> (storage w)) (location_path w) (assigned w) (progress w).
Definition clearToken (w : page) : page := mkPage (delete TOKEN_KEY (storage w)) (location_path w) (assigned w) (progress w).
Definition assign (url : string) (w : page) : page := mkPage (storage w) (location_path w) (assigned w ++ [url])%list (progress w).

Definition modify {W} (f : W → W) : M W unit := λ w, (inl tt, f w).
Definition gets {W A} (f : W → A) : M W A := λ w, (inl (f w), w).

(** ** Errors *)

Definition errorMessage (error : thrown) : string :=
  match error with
  | JsError message => message
  | Thrown (JObj fields as j) =>
      match field "error" j with Some (JStr detail) => detail | _ => js_string j end
  | Thrown j => js_string j
  end.

Definition isAdmin (role : option string) : bool := match role with Some r => String.eqb r "admin" | None => false end.

Inductive job_state := Pending | Running | Succeeded | Failed.
Definition jobStateLabel (state : job_state) : string :=
  match state with Pending => "Pending" | Running => "In progress" | Succeeded => "Succeeded" | Failed => "Failed" end.

Section api.
(** Files, the boundary of a form, the [fetch] of the platform and the origin of the page. *)
Context {File : Type} (boundary : string) (globalFetch : @Request File → M page Response) (origin : string).

Notation client := (@client page File).
Notation Config := (@Config page File).
Notation Options := (@Options page File).

(** ** The client *)

(** [client.interceptors.request.use(...)] *)
Definition authorize (request : @Request File) (_ : @Opts page File) : M page Request :=
  token ← gets getToken;
  mret match token with
       | Some t =>
           if truthy t
           then mkRequest (rq_method request) (rq_url request) (headers_set "Authorization" ("Bearer " ++ t) (rq_headers request)) (rq_body request)
           else request
       | None => request
       end.

Definition login_page (w : page) : string := "/login?expired=1&returnTo=" ++ encodeURIComponent (location_path w).

(** [client.interceptors.response.use(...)]; [new URL] throws where there is no path to read. *)
Definition expire (response : Response) (request : @Request File) (_ : @Opts page File) : M page Response :=
  if (rs_status response =? 401)%Z then
    match pathname (rq_url request) with
    | None => throw (JsError "Invalid URL")
    | Some p =>
        if negb (String.eqb p "/api/login") then
          _ ← modify clearToken;
          _ ← modify (λ w, assign (login_page w) w);
          throw (JsError "Your session has expired")
        else mret response
    end
  else mret response.

(** [createClient(createConfig({ baseUrl: '/', throwOnError: true }))] of [client.gen.ts]. *)
Definition generated_client : client :=
  createClient (createConfig (mkConfig (Some "/") None None None (Some true) None None None None None None None)).

Definition api_client : client :=
  let c := setConfig (mkConfig (Some origin) None None None None None None None None None None None) generated_client in
  mkClient (config c) (fst (use (mkInterceptor 0%nat authorize) (on_request c)))
    (fst (use (mkInterceptor 1%nat expire) (on_response c))) (on_error c).

Definition send (op : operation) (o : Options) : M page (@reply File) := invoke boundary globalFetch api_client op o.

(** The [data] member of a reply; in the [data] style it is read off the data itself. *)
Definition data_of (r : @reply File) : M page (option data) :=
  match r with
  | RFields d _ _ _ => mret d
  | RData (Some (DJson j)) => mret (DJson <$> field "data" j)
  | RData (Some _) => mret None
  | RData None => throw (JsError "Cannot read properties of undefined (reading 'data')")
  end.

Definition call (result : M page (@reply File)) : M page (option data) :=
  try_catch (r ← result; data_of r) (λ error, throw (JsError (errorMessage error))).

(** Options of a call: the identifiers of its path, its query, its JSON body. *)
Definition opts (path query : option (list (string * param))) (b : option json) : Options :=
  mkOptions path query (JsonBody <$> b) empty_config.
Definition ids (l : list (string * string)) : option (list (string * param)) := Some ((λ '(k, v), (k, Scalar v)) <$> l).

(** A member of a value; [undefined] and [null] have none to read. *)
Definition prop (k : string) (j : option json) : M page (option json) :=
  match j with
  | Some JNull | None => throw (JsError ("Cannot read properties of undefined (reading '" ++ k ++ "')"))
  | Some j => mret (field k j)
  end.
Definition member (k : string) (d : option data) : M page (option json) :=
  match d with
  | Some (DJson j) => prop k (Some j)
  | None => prop k None
  | Some _ => mret None
  end.

Definition js_opt_string (j : option json) : string := match j with Some j => js_string j | None => "undefined" end.

(** ** The functions *)

Definition getMe : M page (option data) := call (send currentUser (opts None None None)).

Definition login (username password : string) : M page unit :=
  result ← call (send handleLogin (opts None None (Some (JObj [("username", JStr username); ("password", JStr password)]))));
  token ← member "token" result;
  modify (setItem TOKEN_KEY (js_opt_string token)).

Definition changePassword (current_password new_password : string) : M page unit :=
  result ← call (send Sdk.changePassword (opts None None
    (Some (JObj [("current_password", JStr current_password); ("new_password", JStr new_password)]))));
  token ← member "token" result;
  match token with
  | Some t => if falsy (Thrown t) then mret tt else modify (setItem TOKEN_KEY (js_string t))
  | None => mret tt
  end.

Definition listAPIKeys : M page (option data) := call (send listApiKeys (opts None None None)).
Definition createAPIKey (name : string) : M page (option data) :=
  call (send createApiKey (opts None None (Some (JObj [("name", JStr name)])))).
Definition revokeAPIKey (id : string) : M page (option data) := call (send revokeApiKey (opts (ids [("id", id)]) None None)).

Definition listVMs : M page (option data) := call (send listVms (opts None None None)).

(** [===] on values that came out of JSON: objects are never the same. *)
Definition strict_eq (a b : option json) : bool :=
  match a, b with
  | None, None | Some JNull, Some JNull => true
  | Some (JStr a), Some (JStr b) => String.eqb a b
  | Some (JNum a), Some (JNum b) => Z.eqb a b
  | Some (JBool a), Some (JBool b) => Bool.eqb a b
  | _, _ => false
  end.

(** [entry.manifest.id === vm.manifest.id] *)
Definition same_id (entry vm : json) : M page bool :=
  m ← prop "manifest" (Some entry);
  a ← prop "id" m;
  m' ← prop "manifest" (Some vm);
  b ← prop "id" m';
  mret (strict_eq a b).

Fixpoint find_vm (vm : json) (list : list json) : M page (option json) :=
  match list with
  | [] => mret None
  | entry :: rest => found ← same_id entry vm; if found : bool then mret (Some entry) else find_vm vm rest
  end.

(** [vm.phase !== 'running' || vm.boot_time > 0] *)
Definition settled (vm : json) : bool :=
  negb (strict_eq (field "phase" vm) (Some (JStr "running")))
  || match field "boot_time" vm with Some (JNum n) => (0 <? n)%Z | _ => false end.

(** Options of a call that resolves to its error. *)
Definition quiet (o : Options) (parse : option parse_as) : Options :=
  mkOptions (opt_path o) (opt_query o) (opt_body o) (mkConfig None None parse None (Some false) None None None None None None None).

(** [null] when the server has no such machine. *)
Definition getVM (id : string) : M page (option json) :=
  r ← send getVm (quiet (opts (ids [("id", id)]) None None) None);
  match r with
  | RFields d error _ response =>
      if match response with Some res => (rs_status res =? 404)%Z | None => false end then mret None
      else if negb (match response with Some res => ok res | None => false end)
      then throw (JsError (match error with Some e => errorMessage e | None => "undefined" end))
      else
        match d with
        | Some (DJson vm) =>
            _ ← prop "phase" (Some vm);
            if settled vm then mret (Some vm)
            else
              list ← listVMs;
              match list with
              | Some (DJson (JArr l)) => entry ← find_vm vm l; mret (Some (default vm entry))
              | _ => throw (JsError "list.find is not a function")
              end
        | _ => throw (JsError "Cannot read properties of undefined (reading 'phase')")
        end
  | RData _ => throw (JsError "undefined")
  end.

Definition createVM (body : json) : M page (option data) :=
  call (send createVm (opts None None (Some body))).

Definition getGuestAgent (id : string) : M page (option data) :=
  call (send vmGuestAgent (opts (ids [("id", id)]) None None)).

Definition startVM (id : string) : M page (option data) :=
  call (send startVm (opts (ids [("id", id)]) None None)).

Definition stopVM (id : string) : M page (option data) :=
  call (send stopVm (opts (ids [("id", id)]) None None)).

Definition shutdownVM (id : string) : M page (option data) :=
  call (send shutdownVm (opts (ids [("id", id)]) None None)).

Definition deleteVM (id : string) : M page (option data) :=
  call (send deleteVm (opts (ids [("id", id)]) None None)).

Definition listBackups (id : string) : M page (option data) :=
  call (send Sdk.listBackups (opts (ids [("id", id)]) None None)).

Definition createBackup (id : string) : M page (option data) :=
  call (send Sdk.createBackup (opts (ids [("id", id)]) None None)).

Definition restoreBackup (id timestamp : string) (asNew : bool) : M page (option data) :=
  call (send Sdk.restoreBackup (opts (ids [("id", id); ("timestamp", timestamp)]) None (Some (JObj [("as_new", JBool asNew)])))).

Definition deleteBackup (id timestamp : string) : M page (option data) :=
  call (send Sdk.deleteBackup (opts (ids [("id", id); ("timestamp", timestamp)]) None None)).

Definition listSnapshots (id : string) : M page (option data) :=
  call (send Sdk.listSnapshots (opts (ids [("id", id)]) None None)).

Definition createSnapshot (id tag : string) (includeRAM : bool) : M page (option data) :=
  call (send Sdk.createSnapshot (opts (ids [("id", id)]) None (Some (JObj [("tag", JStr tag); ("include_ram", JBool includeRAM)])))).

Definition restoreSnapshot (id tag : string) : M page (option data) :=
  call (send Sdk.restoreSnapshot (opts (ids [("id", id); ("tag", tag)]) None None)).

Definition deleteSnapshot (id tag : string) : M page (option data) :=
  call (send Sdk.deleteSnapshot (opts (ids [("id", id); ("tag", tag)]) None None)).

Definition getBackupSchedule (id : string) : M page (option data) :=
  call (send Sdk.getBackupSchedule (opts (ids [("id", id)]) None None)).

Definition setBackupSchedule (id : string) (params : json) : M page (option data) :=
  call (send Sdk.setBackupSchedule (opts (ids [("id", id)]) None (Some params))).

Definition listNetworks : M page (option data) :=
  call (send Sdk.listNetworks (opts None None None)).

Definition createNetwork (body : json) : M page (option data) :=
  call (send Sdk.createNetwork (opts None None (Some body))).

Definition updateNetwork (id : string) (body : json) : M page (option data) :=
  call (send Sdk.updateNetwork (opts (ids [("id", id)]) None (Some body))).

Definition applyNetwork (id : string) : M page (option data) :=
  call (send Sdk.applyNetwork (opts (ids [("id", id)]) None None)).

Definition destroyNetwork (id : string) : M page (option data) :=
  call (send Sdk.destroyNetwork (opts (ids [("id", id)]) None None)).

Definition listImages : M page (option data) :=
  call (send Sdk.listImages (opts None None None)).

Definition listCatalog : M page (option data) :=
  call (send Sdk.listCatalog (opts None None None)).

Definition downloadCatalogImage (id : string) : M page (option data) :=
  call (send Sdk.downloadCatalogImage (opts (ids [("id", id)]) None None)).

Definition deleteCatalogImage (id : string) : M page (option data) :=
  call (send Sdk.deleteCatalogImage (opts (ids [("id", id)]) None None)).

Definition listJobs (page_number : Z) (state search focus : string) : M page (option data) :=
  call (send Sdk.listJobs (opts None (Some [("page", Scalar (pretty page_number)); ("page_size", Scalar "25"); ("state", Scalar state); ("search", Scalar search); ("focus", Scalar focus)]) None)).

Definition getJob (id : string) : M page (option data) :=
  call (send Sdk.getJob (opts (ids [("id", id)]) None None)).

Definition updateHardware (id : string) (params : json) : M page (option data) :=
  call (send Sdk.updateHardware (opts (ids [("id", id)]) None (Some params))).

Definition addDisk (id name : string) (size : Z) : M page (option data) :=
  call (send Sdk.addDisk (opts (ids [("id", id)]) None (Some (JObj [("name", JStr name); ("size_gib", JNum size)])))).

Definition growDisk (id disk : string) (size : Z) : M page (option data) :=
  call (send Sdk.growDisk (opts (ids [("id", id); ("disk", disk)]) None (Some (JObj [("size_gib", JNum size)])))).

Definition removeDisk (id disk : string) : M page (option data) :=
  call (send Sdk.removeDisk (opts (ids [("id", id); ("disk", disk)]) None None)).

Definition attachImage (id : string) (media_id media_name : string) (media_size_gib : Z) : M page (option data) :=
  call (send Sdk.addDisk (opts (ids [("id", id)]) None (Some (JObj [("name", JStr media_name); ("size_gib", JNum media_size_gib); ("image_id", JStr media_id)])))).

Definition listDisks (page_number : Z) : M page (option data) :=
  call (send Sdk.listDisks (opts None (Some [("page", Scalar (pretty page_number)); ("page_size", Scalar "25")]) None)).

Definition getDiskStorage : M page (option data) :=
  call (send diskStorage (opts None None None)).

Definition getHost : M page (option data) :=
  call (send hostInfo (opts None None None)).

Definition listInterfaces : M page (option data) :=
  call (send Sdk.listInterfaces (opts None None None)).

Definition listUSBDevices : M page (option data) :=
  call (send listUsbDevices (opts None None None)).

Definition listVMUSB (id : string) : M page (option data) :=
  call (send listVmusb (opts (ids [("id", id)]) None None)).

Definition attachUSB (id device_id fingerprint : string) : M page (option data) :=
  call (send attachUsb (opts (ids [("id", id)]) None (Some (JObj [("device_id", JStr device_id); ("fingerprint", JStr fingerprint)])))).

Definition detachUSB (id attachment : string) : M page (option data) :=
  call (send detachUsb (opts (ids [("id", id); ("attachment", attachment)]) None None)).

Definition assignUSB (id device_id fingerprint : string) : M page (option data) :=
  call (send assignUsb (opts (ids [("id", id)]) None (Some (JObj [("device_id", JStr device_id); ("fingerprint", JStr fingerprint)])))).

Definition unassignUSB (id key : string) : M page (option data) :=
  call (send unassignUsb (opts (ids [("id", id); ("key", key)]) None None)).

Definition addVMInterface (id : string) (params : json) : M page (option data) :=
  call (send addVmInterface (opts (ids [("id", id)]) None (Some params))).

Definition updateVMInterface (id nic : string) (params : json) : M page (option data) :=
  call (send updateVmInterface (opts (ids [("id", id); ("interface", nic)]) None (Some params))).

Definition removeVMInterface (id nic : string) : M page (option data) :=
  call (send removeVmInterface (opts (ids [("id", id); ("interface", nic)]) None None)).

Definition listMedia : M page (option data) :=
  call (send Sdk.listMedia (opts None None None)).

Definition createMedia (name : string) (size_gib : Z) : M page (option data) :=
  call (send Sdk.createMedia (opts None None (Some (JObj [("name", JStr name); ("size_gib", JNum size_gib)])))).

Definition deleteMedia (id : string) : M page (option data) :=
  call (send Sdk.deleteMedia (opts (ids [("id", id)]) None None)).

Definition updateMedia (id : string) (isos boot_order : list string) : M page (option data) :=
  call (send Sdk.updateMedia (opts (ids [("id", id)]) None (Some (JObj [("isos", JArr (JStr <$> isos)); ("boot_order", JArr (JStr <$> boot_order))])))).

(** ** Uploads *)

(** An XMLHttpRequest, given its method, URL, headers and form: the events of its progress (whether the
    length is computable, [loaded], [total]), then the status and text, or nothing for a failure. *)
Context (xhr : string → string → list (string * string) → list (string * @form_value File) →
  list (bool * Z * Z) * option (Z * string)).

Definition upload_headers (h : Headers) : list (string * string) :=
  List.filter (λ '(name, _), negb (String.eqb (lower name) "content-type")) (map_to_list h).

Definition onprogress (w : page) (e : bool * Z * Z) : page :=
  let '(lengthComputable, loaded, total) := e in
  if lengthComputable : bool then mkPage (storage w) (location_path w) (assigned w) (progress w ++ [(loaded, total)])%list else w.

Definition uploadFetch (form : list (string * @form_value File)) (request : @Request File) : M page Response := λ w,
  let '(events, answer) := xhr (rq_method request) (rq_url request) (upload_headers (rq_headers request)) form in
  let w := foldl onprogress w events in
  match answer with
  | Some (status, text) => (inl (mkResponse status (headers_set "Content-Type" "application/json" ∅) text), w)
  | None => (inr (JsError "Upload failed"), w)
  end.

Inductive upload_kind := ImageUpload | IsoUpload.

Definition uploadMedia (kind : upload_kind) (file : File) : M page (option data) :=
  let form := [("file", FormFile file)] in
  let options := mkOptions None None (Some (FileBody [("file", file)]))
    (mkConfig None None None None None None None (Some (Some (λ _, PForm form))) (Some (uploadFetch form)) None None None) in
  call (match kind with ImageUpload => send Sdk.uploadImage options | IsoUpload => send uploadIso options end).

Definition uploadISO (file : File) : M page (option data) := uploadMedia IsoUpload file.
Definition uploadImage (file : File) : M page (option data) := uploadMedia ImageUpload file.

Definition getVMPreview (id : string) : M page (option data * option Response) :=
  result ← send previewVm (quiet (opts (ids [("id", id)]) None None) (Some (As BlobData)));
  match result with
  | RFields d _ _ response => mret (d, response)
  | RData _ => mret (None, None)
  end.

End api.
