(* ===== verification/ApiCorrect.v ===== *)
(** * Correctness of the API module

    What a call of [src/web/src/api.ts] does end to end: the request it sends, the token it carries, how
    it settles for every answer, when the session ends, and what its wrappers make of that. *)

From S2P Require Import Prelude JsString JsNumber Json PathSerializer Client Url Sdk Routes Api.
Local Open Scope string_scope.

Section send.
Context {File : Type} (boundary : string) (globalFetch : @Request File → M page Response) (origin : string).

Local Abbreviation Options := (@Options page File).
Local Abbreviation send := (send boundary globalFetch origin).
Local Abbreviation call := (@call File).
Local Abbreviation api_client := (@api_client File origin).

Definition json_headers : Headers := {["content-type" := "application/json"]}.

Lemma api_config : config api_client =
  mkConfig (Some (drop_slash origin)) (Some (HHeaders json_headers)) (Some Auto) None (Some true)
    (Some (SerializerFn defaultQuerySerializer)) None (Some (Some jsonBodySerializer)) None None None None.
Proof. reflexivity. Qed.

(** Calls that leave the client's settings alone, but for the parsing, the rejection, the serializer of the
    body and [fetch]: all those of the module. *)
Definition plain (o : Options) : Prop :=
  let c := opt_config o in
  baseUrl c = None ∧ headers c = None ∧ responseStyle c = None ∧ querySerializer c = None ∧ auth c = None ∧
  requestValidator c = None ∧ responseValidator c = None ∧ responseTransformer c = None.

Lemma setAuthParams_none {W} l hq (w : W) : setAuthParams l (StaticToken None) hq w = (inl hq, w).
Proof. revert hq. induction l as [|a l IH]; intros hq; [done|]. cbn [setAuthParams]. destruct (checkForExistence _ _ _); apply IH. Qed.

(** The settings and the URL of a request. *)
Definition content_headers (c : content) : Headers := match c with NullContent => ∅ | _ => json_headers end.

Definition serialized (op : operation) (o : Options) : option payload :=
  match opt_body o, default None (over (Some (Some jsonBodySerializer)) (op_serializer (op_content op) (bodySerializer (opt_config o)))) with
  | Some b, Some f => Some (f b)
  | _, _ => None
  end.

Definition sent_headers (op : operation) (o : Options) : Headers :=
  match opt_body o, serialized op o with
  | None, _ | _, Some (PText "") => headers_delete "Content-Type" (content_headers (op_content op))
  | _, _ => content_headers (op_content op)
  end.

Definition resolved (op : operation) (o : Options) : @Opts page File :=
  mkOpts (spread (config api_client) (ro_config (op_options op o))) (op_method op) (op_url op) (opt_path o) (opt_query o)
    (opt_body o) (sent_headers op o) (serialized op o).

Lemma merge_content op o : plain o →
  mergeHeaders [headers (config api_client); headers (ro_config (op_options op o))] = content_headers (op_content op).
Proof. intros (_ & Hh & _). cbn [ro_config op_options headers]. rewrite Hh, api_config. cbn [headers]. destruct (op_content op); reflexivity. Qed.

Lemma over_none {A} (a : option A) : over a None = a.
Proof. done. Qed.

Lemma before_eq op o w : plain o →
  beforeRequest api_client (op_options op o) w = (inl (resolved op o, buildUrl (resolved op o)), w).
Proof.
  intros Hp. unfold beforeRequest. rewrite merge_content by done. destruct Hp as (Hb & Hh & Hr & Hq & Ha & Hv1 & Hv2 & Ht).
  assert (auth (spread (config api_client) (ro_config (op_options op o))) = None) as Hauth.
  { rewrite api_config. cbn [spread auth ro_config op_options]. by rewrite Ha. }
  assert (requestValidator (spread (config api_client) (ro_config (op_options op o))) = None) as Hval.
  { rewrite api_config. cbn [spread requestValidator ro_config op_options]. by rewrite Hv1. }
  cbv zeta. rewrite Hauth, Hval.
  unfold mbind, M_bind. cbn [ro_security ro_query ro_body op_options]. change (default (StaticToken None) None) with (@StaticToken page None).
  unfold resolved, sent_headers, serialized.
  destruct (op_secure op); rewrite ?setAuthParams_none; destruct (opt_body o); reflexivity.
Qed.

(** ** One call, step by step *)

(** The request as it is fetched: the one built, with the token of the session. *)
Definition built (op : operation) (o : Options) : Request + thrown :=
  newRequest boundary (op_method op) (buildUrl (resolved op o)) (sent_headers op o) (getValidRequestBody (resolved op o)).

Definition with_token (w : page) (r : @Request File) : Request :=
  match getToken w with
  | Some t => if truthy t then mkRequest (rq_method r) (rq_url r) (headers_set "Authorization" ("Bearer " ++ t) (rq_headers r)) (rq_body r) else r
  | None => r
  end.

Definition fetch_of (op : operation) (o : Options) : Request → M page Response := default globalFetch (fetch (opt_config o)).

Definition rejects (o : Options) : bool := default true (throwOnError (opt_config o)).
Definition settle (o : Options) (e : thrown) (req : option Request) (res : option Response) : M page (@reply File) :=
  let e := if falsy e then Thrown (JObj []) else e in
  if rejects o then throw e else mret (RFields None (Some e) req res).

Lemma pipe_request (opts : @Opts page File) (r : @Request File) (w : page) (v : Vars) :
  pipe_set (λ f x, f x opts) set_request (on_request api_client) r (w, v) =
  (inl (with_token w r), (w, (Some (with_token w r), snd v))).
Proof. destruct v as [rq rs]. reflexivity. Qed.

Lemma expire_same res (req : @Request File) opts w res' w' : expire res req opts w = (inl res', w') → res' = res ∧ w' = w.
Proof.
  unfold expire. destruct (rs_status res =? 401)%Z; [|by intros [= <- <-]].
  destruct (pathname (rq_url req)) as [p|]; [|done]. destruct (negb (String.eqb p "/api/login")); [done|]. by intros [= <- <-].
Qed.

Lemma pipe_response (opts : @Opts page File) (req : @Request File) (res : Response) (w : page) rq rs :
  pipe_set (λ f x, f x req opts) set_response (on_response api_client) res (w, (rq, rs)) =
  match expire res req opts w return (Response + thrown) * (page * @Vars File) with
  | (inl res', w') => (inl res', (w', (rq, Some res')))
  | (inr e, w') => (inr e, (w', (rq, rs)))
  end.
Proof.
  change (on_response api_client) with [Some (mkInterceptor 1%nat (@expire File))]. cbn [pipe_set fn].
  unfold lift, mbind, M_bind. by destruct (expire res req opts w) as [[res'|e] w'].
Qed.

Lemma finish_eq o op e rq rs (w : page) : responseStyle (opt_config o) = None →
  (finalError ← pipe (λ f e, f e rs rq (op_options op o)) (on_error api_client) e;
   let finalError := if falsy finalError then Thrown (JObj []) else finalError in
   if default false (over (throwOnError (config api_client)) (throwOnError (ro_config (op_options op o)))) then throw finalError
   else mret match over (responseStyle (config api_client)) (responseStyle (ro_config (op_options op o))) with
             | Some DataStyle => RData None
             | _ => RFields None (Some finalError) rq rs
             end) w = settle o e rq rs w.
Proof.
  intros E. unfold settle, rejects, mbind, M_bind. cbn [pipe on_error mret M_ret].
  rewrite api_config. cbn [config throwOnError responseStyle ro_config op_options over]. rewrite E.
  destruct (throwOnError (opt_config o)) as [[]|]; reflexivity.
Qed.

Lemma send_eq op o w : plain o → send op o w =
  match built op o with
  | inr e => settle o e None None w
  | inl r =>
      let req := with_token w r in
      match fetch_of op o req w with
      | (inr e, w') => settle o e (Some req) None w'
      | (inl res, w') =>
          match (res' ← expire res req (resolved op o); receive (resolved op o) req res') w' with
          | (inl v, w'') => (inl v, w'')
          | (inr e, w'') => settle o e (Some req) (Some res) w''
          end
      end
  end.
Proof.
  intros Hp. unfold Api.send, invoke, makeMethodFn.
  change (mkRequestOptions (ro_config (op_options op o)) (op_method op) (ro_url (op_options op o)) (ro_path (op_options op o))
    (ro_query (op_options op o)) (ro_body (op_options op o)) (ro_security (op_options op o))) with (op_options op o).
  unfold request, attempt, lift, mbind, M_bind. rewrite before_eq by done. cbv beta iota.
  assert (default globalFetch (fetch (o_config (resolved op o))) = fetch_of op o) as ->.
  { unfold fetch_of, resolved. rewrite api_config. cbn [o_config spread fetch over ro_config op_options]. by destruct (fetch (opt_config o)). }
  unfold built. change (o_method (resolved op o)) with (op_method op). change (o_headers (resolved op o)) with (sent_headers op o).
  assert (responseStyle (opt_config o) = None) as Hst by apply Hp.
  destruct (newRequest _ _ _ _ _) as [r|e]; cycle 1.
  { by apply (finish_eq o op e None None w). }
  cbn [set_request]. rewrite pipe_request. cbn [snd].
  destruct (fetch_of op o (with_token w r) w) as [[res|e] w']; cycle 1.
  { by apply (finish_eq o op e (Some (with_token w r)) None w'). }
  cbn [set_response]. rewrite pipe_response.
  destruct (expire res (with_token w r) (resolved op o) w') as [[res'|e] w1] eqn:Ex; cycle 1.
  { by apply (finish_eq o op e (Some (with_token w r)) (Some res) w1). }
  apply expire_same in Ex as [-> ->].
  destruct (receive (resolved op o) (with_token w r) res w') as [[v|e] w2]; [done|].
  by apply (finish_eq o op e (Some (with_token w r)) (Some res) w2).
Qed.

(** ** The URL of a call *)

Definition good_call (op : operation) (o : Options) : Prop :=
  op ∈ operations ∧ plain o ∧ match opt_path o with Some path => values_for op path | None => op_names op = [] end.

Definition call_pieces (op : operation) (o : Options) : list string := op_pieces (default [] (opt_path o)) op.

Lemma drop_slash_origin : is_origin origin → drop_slash origin = origin.
Proof.
  intros (s & h & E & Hne & Hs & Hh). unfold drop_slash. destruct (ends_with "/" origin) eqn:He; [|done]. exfalso.
  unfold ends_with in He. rewrite E, !rev_str_app in He. apply starts_with_spec in He as [r Hr].
  rewrite all_chars_spec in Hh. destruct (rev_str h) as [|c t] eqn:Er.
  - apply Hne. by rewrite <- (rev_str_involutive h), Er.
  - assert (c = "/"%char) as -> by (injection Hr; auto). assert ("/"%char ∈ chars h) as Hin; [|by specialize (Hh _ Hin)].
    rewrite <- (rev_str_involutive h), Er. change (String "/" t) with ("/" ++ t). rewrite rev_str_app, chars_app. set_solver.
Qed.

Lemma build_url op o : plain o → is_origin origin →
  buildUrl (resolved op o) = getUrl (Some origin) (opt_path o) (opt_query o) defaultQuerySerializer (op_url op).
Proof.
  intros Hp Ho. unfold buildUrl, resolved. destruct Hp as (Hb & _ & _ & Hq & _). rewrite api_config.
  cbn [o_config o_path o_query o_url spread baseUrl querySerializer over ro_config op_options]. rewrite Hb, Hq.
  by rewrite drop_slash_origin.
Qed.

Lemma call_pathname op o : is_origin origin → good_call op o →
  pathname (buildUrl (resolved op o)) = Some (join "/" (call_pieces op o)) ∧
  split_on "/" (join "/" (call_pieces op o)) = call_pieces op o.
Proof.
  intros Ho (Hop & Hp & Hv). rewrite build_url by done. unfold call_pieces. destruct (opt_path o) as [path|]; cbn [default].
  - by apply sent_path_pieces.
  - rewrite getUrl_no_path by done. apply (sent_path_pieces origin []); [done|done|]. intros n. rewrite Hv. by intros ?%not_elem_of_nil.
Qed.

(** Only the sign-in has the path that a 401 is expected from. *)
Lemma not_login op o : is_origin origin → good_call op o → op ≠ handleLogin → join "/" (call_pieces op o) ≠ "/api/login".
Proof.
  intros Ho Hc Hn E. pose proof (call_pathname op o Ho Hc) as [_ Hs]. rewrite E in Hs.
  assert (forallb (λ op, negb (could_match (elements (op_url op)) (elements "/api/login")) || bool_decide (op = handleLogin)) operations = true)
    as H by (vm_compute; reflexivity).
  rewrite forallb_forall in H. destruct Hc as (Hop & _). specialize (H op (proj1 (list_elem_of_In _ _) Hop)).
  rewrite (bool_decide_eq_false_2 (op = handleLogin)), orb_false_r, negb_true_iff in H by done.
  rewrite (match_could encodeURIComponent (default [] (opt_path o))) in H; [done|]. change (match_elems (elements "/api/login") (call_pieces op o) ≠ None).
  by rewrite <- Hs.
Qed.

(** ** What a call sends and how it settles *)

(** What is made of the answer to a request, in the page the answer finds. *)
Definition after (op : operation) (o : Options) (req : @Request File) (a : (Response + thrown) * page) : (@reply File + thrown) * page :=
  match a with
  | (inr e, w') => settle o e (Some req) None w'
  | (inl res, w') =>
      match (res' ← expire res req (resolved op o); receive (resolved op o) req res') w' with
      | (inl v, w'') => (inl v, w'')
      | (inr e, w'') => settle o e (Some req) (Some res) w''
      end
  end.

(** Bodies are sent with the methods that take them. *)
Definition body_allowed (op : operation) (o : Options) : Prop :=
  opt_body o = None ∨ op_method op ≠ "GET" ∧ op_method op ≠ "HEAD".

Lemma content_headers_lookup c k : k ≠ "content-type" → content_headers c !! k = None.
Proof. intros Hk. unfold content_headers, json_headers. destruct c; [by apply lookup_singleton_ne..|apply lookup_empty]. Qed.

Lemma sent_headers_lookup op o k : k ≠ "content-type" → sent_headers op o !! k = None.
Proof.
  intros Hk. unfold sent_headers, headers_delete. change (lower "Content-Type") with "content-type".
  pose proof (content_headers_lookup (op_content op) k Hk) as H.
  destruct (opt_body o), (serialized op o) as [[[]|]|]; rewrite ?lookup_delete_ne by done; done.
Qed.

Lemma built_request op o : body_allowed op o →
  ∃ r, built op o = inl r ∧ rq_method r = op_method op ∧ rq_url r = buildUrl (resolved op o) ∧
    rq_body r = getValidRequestBody (resolved op o) ∧ rq_headers r !! "authorization" = None.
Proof.
  intros Hb. unfold built, newRequest. pose proof (sent_headers_lookup op o "authorization" ltac:(done)) as Ha.
  destruct (getValidRequestBody (resolved op o)) as [p|] eqn:E; [|eexists; by split_and!].
  assert (op_method op ≠ "GET" ∧ op_method op ≠ "HEAD") as [H1 H2].
  { destruct Hb as [Hb|?]; [|done]. unfold getValidRequestBody, resolved in E. cbn [o_body] in E. by rewrite Hb in E. }
  rewrite bool_decide_eq_false_2 by set_solver. eexists. split; [done|]. cbn [rq_method rq_url rq_body rq_headers]. split_and!; try done.
  destruct (headers_get "Content-Type" (sent_headers op o)); [done|]. unfold headers_set. by rewrite lookup_insert_ne.
Qed.

(** The message a refused call rejects with. *)
Definition refusal (text : string) : string :=
  errorMessage (if falsy (error_of text) then Thrown (JObj []) else error_of text).

Lemma refusal_message m : refusal (stringify (JObj [("error", JStr m)])) = m.
Proof. unfold refusal, error_of. by rewrite parse_stringify. Qed.

(** The sign-in's own 401 is an answer like any other. *)
Lemma expire_passes op o (req : @Request File) res w : is_origin origin → good_call op o →
  pathname (rq_url req) = Some (join "/" (call_pieces op o)) → rs_status res ≠ 401%Z ∨ op = handleLogin →
  expire res req (resolved op o) w = (inl res, w).
Proof.
  intros Ho Hc Hp H. unfold expire. destruct (rs_status res =? 401)%Z eqn:E; [|done]. apply Z.eqb_eq in E.
  destruct H as [|Hop]; [done|]. rewrite Hp.
  assert (join "/" (call_pieces op o) = "/api/login") as ->; [|done]. rewrite Hop. reflexivity.
Qed.

Lemma parse_as_plain op o : parseAs (opt_config o) = None → parseAs (o_config (resolved op o)) = Some Auto.
Proof. intros H. unfold resolved. rewrite api_config. cbn [o_config spread parseAs ro_config op_options over]. by rewrite H. Qed.

Lemma receive_json op o req (res : Response) j : plain o → parseAs (opt_config o) = None → ok res = true → is_empty_response res = false →
  getParseAs (headers_get "Content-Type" (rs_headers res)) ∈ [Some JsonData; None] → rs_text res = stringify j →
  ∀ w, receive (resolved op o) req res w = (inl (RFields (Some (DJson j)) None (Some req) (Some res)), w).
Proof.
  intros Hp Hpa Hok Hem Hk Ht w. unfold receive. rewrite Hok, Hem. unfold kind_of. rewrite parse_as_plain by done.
  assert (default JsonData (getParseAs (headers_get "Content-Type" (rs_headers res))) = JsonData) as ->.
  { apply elem_of_cons in Hk as [->|Hk]; [done|]. by apply list_elem_of_singleton in Hk as ->. }
  unfold parse_data. rewrite Ht. assert (truthy (stringify j) = true) as ->.
  { apply truthy_true. destruct (stringify_head j) as (c & r & -> & _). done. }
  rewrite parse_stringify. destruct Hp as (_ & _ & Hst & _ & _ & _ & Hrv & Hrt).
  assert (responseValidator (o_config (resolved op o)) = None) as ->.
  { unfold resolved. rewrite api_config. cbn [o_config spread responseValidator ro_config op_options over]. by rewrite Hrv. }
  assert (responseTransformer (o_config (resolved op o)) = None) as ->.
  { unfold resolved. rewrite api_config. cbn [o_config spread responseTransformer ro_config op_options over]. by rewrite Hrt. }
  assert (responseStyle (o_config (resolved op o)) = None) as ->.
  { unfold resolved. rewrite api_config. cbn [o_config spread responseStyle ro_config op_options over]. by rewrite Hst. }
  reflexivity.
Qed.

(** ** Outcomes *)

Definition json_answer (res : Response) (j : json) : Prop :=
  ok res = true ∧ is_empty_response res = false ∧
  getParseAs (headers_get "Content-Type" (rs_headers res)) ∈ [Some JsonData; None] ∧ rs_text res = stringify j.

Lemma bind_ok {W A B} (m : M W A) (k : A → M W B) w x w' : m w = (inl x, w') → (m ≫= k) w = k x w'.
Proof. intros E. unfold mbind, M_bind. by rewrite E. Qed.

Lemma with_token_same w (r : @Request File) :
  rq_method (with_token w r) = rq_method r ∧ rq_url (with_token w r) = rq_url r ∧ rq_body (with_token w r) = rq_body r.
Proof. unfold with_token. destruct (getToken w) as [t|]; [by destruct (truthy t)|done]. Qed.

(** A call is settled by what it received. *)
Lemma send_from op o w r : is_origin origin → good_call op o → built op o = inl r → let req := with_token w r in
  (∀ res w', fetch_of op o req w = (inl res, w') → rs_status res ≠ 401%Z ∨ op = handleLogin →
     send op o w = match receive (resolved op o) req res w' with (inl v, w'') => (inl v, w'') | (inr e, w'') => settle o e (Some req) (Some res) w'' end) ∧
  (∀ res w', fetch_of op o req w = (inl res, w') → rs_status res = 401%Z → op ≠ handleLogin →
     send op o w = settle o (JsError "Your session has expired") (Some req) (Some res) (assign (login_page w') (clearToken w'))) ∧
  (∀ e w', fetch_of op o req w = (inr e, w') → send op o w = settle o e (Some req) None w').
Proof.
  intros Ho Hc Hb req. rewrite send_eq by apply Hc. rewrite Hb. cbv zeta. fold req.
  assert (pathname (rq_url req) = Some (join "/" (call_pieces op o))) as Hpath.
  { unfold req. rewrite (proj1 (proj2 (with_token_same w r))). unfold built, newRequest in Hb.
    destruct (getValidRequestBody (resolved op o)); [destruct (bool_decide _); [done|]|]; injection Hb as <-; by apply call_pathname. }
  split_and!.
  - intros res w' -> H. unfold mbind, M_bind.
    rewrite (expire_passes op o req res w' Ho Hc Hpath H). reflexivity.
  - intros res w' -> Hs Hn. unfold mbind, M_bind, expire. rewrite Hs, Hpath.
    by rewrite (proj2 (String.eqb_neq _ _) (not_login op o Ho Hc Hn)).
  - by intros e w' ->.
Qed.

Lemma send_answered op o w : is_origin origin → good_call op o → body_allowed op o → ∃ req : Request,
  (∀ res w', fetch_of op o req w = (inl res, w') → rs_status res ≠ 401%Z ∨ op = handleLogin →
     send op o w = match receive (resolved op o) req res w' with (inl v, w'') => (inl v, w'') | (inr e, w'') => settle o e (Some req) (Some res) w'' end) ∧
  (∀ res w', fetch_of op o req w = (inl res, w') → rs_status res = 401%Z → op ≠ handleLogin →
     send op o w = settle o (JsError "Your session has expired") (Some req) (Some res) (assign (login_page w') (clearToken w'))) ∧
  (∀ e w', fetch_of op o req w = (inr e, w') → send op o w = settle o e (Some req) None w').
Proof.
  intros Ho Hc Hb. destruct (built_request op o Hb) as (r & Hr & _). exists (with_token w r). by apply send_from.
Qed.

Lemma ok_not_401 (res : Response) (P : Prop) : ok res = true → rs_status res ≠ 401%Z ∨ P.
Proof. unfold ok. intros H. left. intros E. by rewrite E in H. Qed.

Lemma receive_answer op o (req : @Request File) (res : Response) j w : plain o → parseAs (opt_config o) = None → json_answer res j →
  receive (resolved op o) req res w = (inl (RFields (Some (DJson j)) None (Some req) (Some res)), w).
Proof. intros Hp Hpa (H1 & H2 & H3 & H4). by apply receive_json. Qed.

Lemma receive_refusal op o (req : @Request File) (res : Response) (w : page) : ok res = false →
  receive (resolved op o) req res w = (inr (error_of (rs_text res)), w).
Proof. intros H. unfold receive. by rewrite H. Qed.

Lemma call_fields m (w : page) d e rq rs w' : m w = (inl (RFields d e rq rs), w') → call m w = (inl d, w').
Proof. intros E. unfold Api.call, try_catch, mbind, M_bind. by rewrite E. Qed.

Lemma call_rejected m (w : page) e w' : m w = (inr e, w') → call m w = (inr (JsError (errorMessage e)), w').
Proof. intros E. unfold Api.call, try_catch, mbind, M_bind. by rewrite E. Qed.

(** C31. The life of a call: exactly one request is fetched, with the operation's method, at the
    operation's path, carrying the token of the session as it is when the request leaves, and none when
    there is none; the reply is made from the answer alone. *)
Theorem call_request op o w : is_origin origin → good_call op o → body_allowed op o →
  ∃ req, rq_method req = op_method op ∧
    pathname (rq_url req) = Some (join "/" (call_pieces op o)) ∧
    rq_body req = getValidRequestBody (resolved op o) ∧
    rq_headers req !! "authorization" =
      match getToken w with Some t => if truthy t then Some ("Bearer " ++ t) else None | None => None end ∧
    send op o w = after op o req (fetch_of op o req w).
Proof.
  intros Ho Hc Hb. destruct (built_request op o Hb) as (r & Hr & Hm & Hu & Hbo & Ha). destruct (call_pathname op o Ho Hc) as [Hpath _].
  destruct Hc as (Hop & Hp & Hv).
  exists (with_token w r). split_and!.
  - rewrite <- Hm. unfold with_token. destruct (getToken w) as [t|]; [by destruct (truthy t)|done].
  - rewrite <- Hpath, <- Hu. f_equal. unfold with_token. destruct (getToken w) as [t|]; [by destruct (truthy t)|done].
  - rewrite <- Hbo. unfold with_token. destruct (getToken w) as [t|]; [by destruct (truthy t)|done].
  - unfold with_token. destruct (getToken w) as [t|]; [|done]. destruct (truthy t); [|done]. cbn [rq_headers].
    unfold headers_set. change (lower "Authorization") with "authorization". by rewrite lookup_insert_eq.
  - rewrite send_eq by done. rewrite Hr. cbv zeta. unfold after. by destruct (fetch_of op o (with_token w r) w) as [[]].
Qed.

Lemma call_expires op o w (res : Response) w' : is_origin origin → good_call op o → body_allowed op o → op ≠ handleLogin →
  rejects o = true → (∀ r, fetch_of op o r w = (inl res, w')) → rs_status res = 401%Z →
  call (send op o) w = (inr (JsError "Your session has expired"), assign (login_page w') (clearToken w')).
Proof.
  intros Ho Hc Hb Hn Hr Hf Hs. destruct (send_answered op o w Ho Hc Hb) as (req & _ & H & _).
  change "Your session has expired" with (errorMessage (JsError "Your session has expired")). apply call_rejected.
  rewrite (H res w' (Hf req) Hs Hn). unfold settle. by rewrite Hr.
Qed.

(** C12. The session ends at the first answer that says so: to any operation but the sign-in, a 401 clears
    the token, sends the page to the sign-in with the way back, and the call rejects, whatever the answer's
    body; nothing is sent twice. *)
Theorem session_expires op o w (res : Response) w' : is_origin origin → good_call op o → body_allowed op o → op ≠ handleLogin →
  rejects o = true → (∀ r, fetch_of op o r w = (inl res, w')) → rs_status res = 401%Z →
  call (send op o) w = (inr (JsError "Your session has expired"), assign (login_page w') (clearToken w')).
Proof. apply call_expires. Qed.

Lemma call_resolves op o w res j w' : is_origin origin → good_call op o → body_allowed op o → parseAs (opt_config o) = None →
  (∀ r, fetch_of op o r w = (inl res, w')) → json_answer res j → call (send op o) w = (inl (Some (DJson j)), w').
Proof.
  intros Ho Hc Hb Hpa Hf Hj. destruct (send_answered op o w Ho Hc Hb) as (req & H & _ & _).
  apply call_fields with None (Some req) (Some res). rewrite (H res w' (Hf req) (ok_not_401 res _ (proj1 Hj))).
  by rewrite (receive_answer op o req res j w' (proj1 (proj2 Hc)) Hpa Hj).
Qed.

Lemma call_refused op o w res w' : is_origin origin → good_call op o → body_allowed op o → rejects o = true →
  (∀ r, fetch_of op o r w = (inl res, w')) → ok res = false → rs_status res ≠ 401%Z ∨ op = handleLogin →
  call (send op o) w = (inr (JsError (refusal (rs_text res))), w').
Proof.
  intros Ho Hc Hb Hr Hf Hok Hs. destruct (send_answered op o w Ho Hc Hb) as (req & H & _ & _).
  unfold refusal. apply call_rejected. rewrite (H res w' (Hf req) Hs), (receive_refusal _ _ _ _ _ Hok). unfold settle. by rewrite Hr.
Qed.

Lemma call_lost op o w m w' : is_origin origin → good_call op o → body_allowed op o → rejects o = true →
  (∀ r, fetch_of op o r w = (inr (JsError m), w')) → call (send op o) w = (inr (JsError m), w').
Proof.
  intros Ho Hc Hb Hr Hf. destruct (send_answered op o w Ho Hc Hb) as (req & _ & _ & H).
  change m with (errorMessage (JsError m)). apply call_rejected. rewrite (H _ w' (Hf req)). unfold settle. by rewrite Hr.
Qed.

(** C32. How a call settles: with the value the server sent as JSON; with the server's own message when it
    refuses, the page untouched (a wrong password included: the sign-in's 401 does not end a session);
    with the network's message when there is no answer. *)
Theorem call_settles op o w : is_origin origin → good_call op o → body_allowed op o → rejects o = true →
  parseAs (opt_config o) = None →
  (∀ res j w', (∀ r, fetch_of op o r w = (inl res, w')) → json_answer res j → call (send op o) w = (inl (Some (DJson j)), w')) ∧
  (∀ res w', (∀ r, fetch_of op o r w = (inl res, w')) → ok res = false → rs_status res ≠ 401%Z ∨ op = handleLogin →
     call (send op o) w = (inr (JsError (refusal (rs_text res))), w')) ∧
  (∀ m w', (∀ r, fetch_of op o r w = (inr (JsError m), w')) → call (send op o) w = (inr (JsError m), w')).
Proof. intros. split_and!; intros; [by eapply call_resolves|by apply call_refused|by apply call_lost]. Qed.

(** ** Signing in *)

Lemma plain_opts path query b : plain (opts path query b).
Proof. by split_and!. Qed.

Lemma elem_of_operations op : existsb (λ op', bool_decide (op = op')) operations = true → op ∈ operations.
Proof. intros (op' & Hin & ->%bool_decide_eq_true)%existsb_exists. by apply list_elem_of_In. Qed.

Lemma values_for_ids op l : op_names op = l.*1 → NoDup l.*1 → Forall good_value l.*2 →
  values_for op (default [] (@Api.ids l)).
Proof.
  intros Hn Hnd Hg n Hin. rewrite Hn in Hin. clear Hn. cbn [Api.ids default from_option id].
  induction l as [|[k v] l IH]; [by apply not_elem_of_nil in Hin|]. cbn in Hin, Hnd, Hg. apply NoDup_cons in Hnd as [Hk Hnd].
  apply Forall_cons in Hg as [Hv Hg]. unfold lookup_param. cbn [fmap list_fmap List.find fst].
  destruct (String.eqb_spec k n) as [->|Hne]; [by exists v|]. apply elem_of_cons in Hin as [->|Hin]; [done|]. by apply IH.
Qed.

(** Signing in keeps the token of a right password, and only that: with an answer that carries one the
    session holds it from then on; a refusal rejects with the server's message and leaves the session
    (a token already there included) as it was. *)
Theorem login_spec username password w : is_origin origin →
  (∀ res fields t w', (∀ r, globalFetch r w = (inl res, w')) → json_answer res (JObj fields) →
     field "token" (JObj fields) = Some (JStr t) →
     login boundary globalFetch origin username password w = (inl tt, setItem TOKEN_KEY t w')) ∧
  (∀ res w', (∀ r, globalFetch r w = (inl res, w')) → ok res = false →
     login boundary globalFetch origin username password w = (inr (JsError (refusal (rs_text res))), w')).
Proof.
  intros Ho. unfold login, mbind, M_bind.
  set (o := opts None None (Some (JObj [("username", JStr username); ("password", JStr password)])) : Options).
  assert (good_call handleLogin o) as Hc.
  { split_and!; [by apply elem_of_operations|apply plain_opts|reflexivity]. }
  assert (body_allowed handleLogin o) as Hb by (right; split; discriminate).
  split.
  - intros res fs t w' Hf Hj Ht. rewrite (call_resolves handleLogin o w res (JObj fs) w') by done. cbn [member prop]. by rewrite Ht.
  - intros res w' Hf H. by rewrite (call_refused handleLogin o w res w') by auto.
Qed.

(** A change of the password stores the token of its answer. A 401 ends the session, as for any other call, and
    other refusals reject with the server's message. *)
Lemma changePassword_spec current new w : is_origin origin →
  let changePassword := changePassword boundary globalFetch origin current new in
  (∀ res fields t w', (∀ r, globalFetch r w = (inl res, w')) → json_answer res (JObj fields) → field "token" (JObj fields) = Some (JStr t) → t ≠ "" →
     changePassword w = (inl tt, setItem TOKEN_KEY t w')) ∧
  (∀ res w', (∀ r, globalFetch r w = (inl res, w')) → rs_status res = 401%Z →
     changePassword w = (inr (JsError "Your session has expired"), assign (login_page w') (clearToken w'))) ∧
  (∀ res w', (∀ r, globalFetch r w = (inl res, w')) → ok res = false → rs_status res ≠ 401%Z →
     changePassword w = (inr (JsError (refusal (rs_text res))), w')).
Proof.
  intros Ho. cbn zeta. unfold changePassword, mbind, M_bind.
  set (o := opts None None (Some (JObj [("current_password", JStr current); ("new_password", JStr new)])) : Options).
  assert (good_call Sdk.changePassword o) as Hc by (split_and!; [by apply elem_of_operations|apply plain_opts|reflexivity]).
  assert (body_allowed Sdk.changePassword o) as Hb by (right; split; discriminate).
  split_and!.
  - intros res fs t w' Hf Hj Ht Hne. rewrite (call_resolves Sdk.changePassword o w res (JObj fs) w') by done. cbn [member prop]. rewrite Ht. by destruct t.
  - intros res w' Hf Hs. by rewrite (call_expires Sdk.changePassword o w res w').
  - intros res w' Hf Hok Hs. by rewrite (call_refused Sdk.changePassword o w res w') by auto.
Qed.

(** ** One machine *)

Lemma quiet_plain o p : plain (quiet o p).
Proof. by split_and!. Qed.

Lemma ids_good op (l : list (string * string)) b : op ∈ operations → op_names op = l.*1 → NoDup l.*1 → Forall good_value l.*2 →
  good_call op (opts (Api.ids l) None b) ∧ ∀ p, good_call op (quiet (opts (Api.ids l) None b) p).
Proof.
  intros. assert (values_for op (default [] (@Api.ids l))) as Hv by by apply values_for_ids.
  split; [|intros p]; (split_and!; [done|by split_and!|done]).
Qed.

(** [getVM] tells a machine that is not there from one that could not be read: [null] for a 404 alone, a
    rejection for any other refusal and for no answer; a machine that runs without a boot time is read
    again from the list, by its identifier. *)
Theorem getVM_spec id w : is_origin origin → good_value id →
  let getVM := getVM boundary globalFetch origin in
  (∀ res w', (∀ r, globalFetch r w = (inl res, w')) → rs_status res = 404%Z → getVM id w = (inl None, w')) ∧
  (∀ res w', (∀ r, globalFetch r w = (inl res, w')) → ok res = false → rs_status res ≠ 404%Z → rs_status res ≠ 401%Z →
     getVM id w = (inr (JsError (refusal (rs_text res))), w')) ∧
  (∀ m w', (∀ r, globalFetch r w = (inr (JsError m), w')) → getVM id w = (inr (JsError m), w')) ∧
  (∀ res fields w', (∀ r, globalFetch r w = (inl res, w')) → json_answer res (JObj fields) → settled (JObj fields) = true →
     getVM id w = (inl (Some (JObj fields)), w')) ∧
  (∀ res fields w' res' l w'', (∀ r, globalFetch r w = (inl res, w')) → json_answer res (JObj fields) → settled (JObj fields) = false →
     (∀ r, globalFetch r w' = (inl res', w'')) → json_answer res' (JArr l) →
     getVM id w = (found ← find_vm (JObj fields) l; mret (Some (default (JObj fields) found))) w'').
Proof.
  intros Ho Hid. destruct (ids_good getVm [("id", id)] None) as [_ Hc]; [by apply elem_of_operations|done|by apply NoDup_singleton|by apply Forall_singleton|].
  specialize (Hc None). set (o := quiet (opts (Api.ids [("id", id)]) None None) None : Options) in *.
  destruct (send_answered getVm o w Ho Hc (or_introl eq_refl)) as (req & Hans & _ & Herr).
  change (fetch_of getVm o) with globalFetch in *.
  assert (∀ e rq rs w', settle o e rq rs w' = (inl (RFields None (Some (if falsy e then Thrown (JObj []) else e)) rq rs), w')) as Hset by done.
  assert (∀ res w', globalFetch req w = (inl res, w') → ok res = false → rs_status res ≠ 401%Z →
    send getVm o w = (inl (RFields None (Some (if falsy (error_of (rs_text res)) then Thrown (JObj []) else error_of (rs_text res))) (Some req) (Some res)), w')) as Hno.
  { intros res w' Hf Hok H. rewrite (Hans res w' Hf (or_introl H)), (receive_refusal _ _ _ _ _ Hok). apply Hset. }
  assert (∀ res j w', globalFetch req w = (inl res, w') → json_answer res j →
    send getVm o w = (inl (RFields (Some (DJson j)) None (Some req) (Some res)), w')) as Hjson.
  { intros res j w' Hf Hj. rewrite (Hans res w' Hf (ok_not_401 res _ (proj1 Hj))).
    by rewrite (receive_answer getVm o req res j w' (quiet_plain _ _) eq_refl Hj). }
  cbn zeta. unfold Api.getVM. fold o. clearbody o. split_and!.
  - intros res w' Hf Hs. erewrite bind_ok; [|eapply Hno; [apply Hf|unfold ok; by rewrite Hs|by rewrite Hs]]. cbv beta iota. by rewrite Hs.
  - intros res w' Hf Hok H4 H1. erewrite bind_ok; [|by eapply Hno; [apply Hf|..]]. cbv beta iota.
    rewrite (proj2 (Z.eqb_neq _ _) H4), Hok. reflexivity.
  - intros m w' Hf. erewrite bind_ok; [|rewrite (Herr _ _ (Hf req)); apply Hset]. reflexivity.
  - intros res fs w' Hf Hj Hset'. erewrite bind_ok; [|by eapply Hjson; [apply Hf|]]. cbv beta iota.
    assert ((rs_status res =? 404)%Z = false) as ->. { apply Z.eqb_neq. intros E. destruct Hj as [Hj _]. unfold ok in Hj. by rewrite E in Hj. }
    rewrite (proj1 Hj). cbn [negb]. erewrite bind_ok by reflexivity. by rewrite Hset'.
  - intros res fs w' res' l w'' Hf Hj Hset' Hf' Hl. erewrite bind_ok; [|by eapply Hjson; [apply Hf|]]. cbv beta iota.
    assert ((rs_status res =? 404)%Z = false) as ->. { apply Z.eqb_neq. intros E. destruct Hj as [Hj _]. unfold ok in Hj. by rewrite E in Hj. }
    rewrite (proj1 Hj). cbn [negb]. erewrite bind_ok by reflexivity. rewrite Hset'.
    unfold listVMs. erewrite bind_ok; [|apply (call_resolves listVms (opts None None None) w' res' (JArr l) w'' Ho)]; try done; [|by left].
    split_and!; [by apply elem_of_operations|apply plain_opts|reflexivity].
Qed.

(** ** Uploads *)

Context (xhr : string → string → list (string * string) → list (string * @form_value File) →
  list (bool * Z * Z) * option (Z * string)).

Definition token_headers (w : page) : list (string * string) :=
  match getToken w with Some t => if truthy t then [("authorization", "Bearer " ++ t)] else [] | None => [] end.

Definition upload_path (kind : upload_kind) : string := match kind with ImageUpload => "/api/media/image" | IsoUpload => "/api/media/iso" end.

(** An upload is one form request of the file, with the session's token and no content type of its own
    (the platform adds the boundary); it reports the progress in order, resolves with the answer's JSON,
    rejects with its message when refused and with "Upload failed" when there is no answer. *)
Theorem upload_spec kind file w : is_origin origin →
  ∃ url, pathname url = Some (upload_path kind) ∧
  ∀ events answer, xhr "POST" url (token_headers w) [("file", FormFile file)] = (events, answer) →
    let w' := foldl onprogress w events in
    match answer with
    | None => uploadMedia boundary globalFetch origin xhr kind file w = (inr (JsError "Upload failed"), w')
    | Some (status, text) =>
        (∀ j, (200 ≤ status ≤ 299)%Z → status ≠ 204%Z → text = stringify j →
           uploadMedia boundary globalFetch origin xhr kind file w = (inl (Some (DJson j)), w')) ∧
        (¬ (200 ≤ status ≤ 299)%Z → status ≠ 401%Z →
           uploadMedia boundary globalFetch origin xhr kind file w = (inr (JsError (refusal text)), w')) ∧
        (status = 401%Z →
           uploadMedia boundary globalFetch origin xhr kind file w = (inr (JsError "Your session has expired"), assign (login_page w') (clearToken w')))
    end.
Proof.
  intros Ho.
  set (op := match kind with ImageUpload => Sdk.uploadImage | IsoUpload => uploadIso end).
  set (o := mkOptions None None (Some (FileBody [("file", file)]))
    (mkConfig None None None None None None None (Some (Some (λ _, PForm [("file", FormFile file)])))
       (Some (uploadFetch xhr [("file", FormFile file)])) None None None) : Options).
  assert (uploadMedia boundary globalFetch origin xhr kind file = call (send op o)) as -> by (by destruct kind).
  assert (op_method op = "POST") as Hm by (by destruct kind).
  assert (good_call op o) as Hc.
  { split_and!; [apply elem_of_operations; by destruct kind|by split_and!|by destruct kind]. }
  assert (built op o = inl (mkRequest "POST" (buildUrl (resolved op o))
    (headers_set "Content-Type" ("multipart/form-data; boundary=" ++ boundary) ∅) (Some (PForm [("file", FormFile file)])))) as Hbuilt.
  { unfold built. rewrite Hm. destruct kind; reflexivity. }
  set (r := mkRequest _ _ _ _) in Hbuilt. destruct (send_from op o w r Ho Hc Hbuilt) as (Hans & Hexp & Herr).
  exists (buildUrl (resolved op o)). split.
  { destruct (call_pathname op o Ho Hc) as [-> _]. by destruct kind. }
  intros events answer Hx. cbv zeta.
  assert (fetch_of op o (with_token w r) w =
    match answer with
    | Some (status, text) => (inl (mkResponse status (headers_set "Content-Type" "application/json" ∅) text), foldl onprogress w events)
    | None => (inr (JsError "Upload failed"), foldl onprogress w events)
    end) as Hf.
  { change (fetch_of op o) with (uploadFetch xhr [("file", FormFile file)]). unfold uploadFetch.
    destruct (with_token_same w r) as (-> & -> & _).
    assert (upload_headers (rq_headers (with_token w r)) = token_headers w) as ->.
    { unfold with_token, token_headers. destruct (getToken w) as [t|]; [destruct (truthy t)|]; reflexivity. }
    change (rq_method r) with "POST". change (rq_url r) with (buildUrl (resolved op o)). rewrite Hx. by destruct answer as [[]|]. }
  destruct answer as [[status text]|].
  - split_and!.
    + intros j H2 H204 ->. set (res := mkResponse _ _ _) in Hf.
      assert (json_answer res j) as Hj.
      { split_and!; [unfold ok, res; cbn; lia| |set_solver|done]. unfold is_empty_response, res. cbn [rs_status rs_headers].
        rewrite (proj2 (Z.eqb_neq _ _) H204). reflexivity. }
      eapply call_fields. rewrite (Hans res _ Hf (ok_not_401 res _ (proj1 Hj))).
      by rewrite (receive_answer op o (with_token w r) res j _ (proj1 (proj2 Hc)) eq_refl Hj).
    + intros H2 H401. unfold refusal. apply call_rejected. rewrite (Hans _ _ Hf (or_introl H401)), receive_refusal; [done|].
      unfold ok. cbn. lia.
    + intros ->. change "Your session has expired" with (errorMessage (JsError "Your session has expired")). apply call_rejected.
      by rewrite (Hexp _ _ Hf eq_refl ltac:(by destruct kind)).
  - change "Upload failed" with (errorMessage (JsError "Upload failed")). apply call_rejected. by rewrite (Herr _ _ Hf).
Qed.

End send.

(** ** Witnesses *)

Definition sample_origin : string := "https://host:8443".
Lemma sample_is_origin : is_origin sample_origin.
Proof. exists "https", "host:8443". split_and!; done. Qed.

Definition sample_page : page := mkPage {["maco-token" := "abc"]} "/vms/vm1?tab=disks" [] [].
(** A server that gives one answer to everything. *)
Definition always (res : Response) : @Request unit → M page Response := λ _ w, (inl res, w).
Definition json_response (status : Z) (j : json) : Response := mkResponse status {["content-type" := "application/json"]} (stringify j).
Definition refusal_response (status : Z) : Response := json_response status (JObj [("error", JStr "no")]).

Lemma sample_good : good_call (File:=unit) stopVm (opts (Api.ids [("id", "vm1")]) None None).
Proof.
  split_and!; [by apply elem_of_operations|by split_and!|]. apply (values_for_ids stopVm [("id", "vm1")]); [done|by apply NoDup_singleton|].
  apply Forall_singleton. by split_and!.
Qed.

Lemma call_request_witness : ∃ req,
  rq_headers (File:=unit) req !! "authorization" = Some "Bearer abc" ∧ pathname (rq_url req) = Some "/api/vms/vm1/stop" ∧
  send "b" (always (refusal_response 409)) sample_origin stopVm (opts (Api.ids [("id", "vm1")]) None None) sample_page
    = after sample_origin stopVm (opts (Api.ids [("id", "vm1")]) None None) req (inl (refusal_response 409), sample_page).
Proof.
  destruct (call_request (File:=unit) "b" (always (refusal_response 409)) sample_origin stopVm (opts (Api.ids [("id", "vm1")]) None None) sample_page
    sample_is_origin sample_good (or_introl eq_refl)) as (req & _ & Hp & _ & Ha & E).
  exists req. split_and!; [exact Ha|exact Hp|exact E].
Defined.

Lemma session_expires_witness :
  call (send "b" (always (refusal_response 401)) sample_origin stopVm (opts (File:=unit) (Api.ids [("id", "vm1")]) None None)) sample_page
  = (inr (JsError "Your session has expired"),
     mkPage ∅ "/vms/vm1?tab=disks" ["/login?expired=1&returnTo=%2Fvms%2Fvm1%3Ftab%3Ddisks"] []).
Proof.
  rewrite (session_expires (File:=unit) "b" (always (refusal_response 401)) sample_origin stopVm (opts (Api.ids [("id", "vm1")]) None None)
    sample_page (refusal_response 401) sample_page sample_is_origin sample_good (or_introl eq_refl) ltac:(discriminate) eq_refl (λ _, eq_refl) eq_refl).
  vm_compute. reflexivity.
Defined.

Lemma call_settles_witness :
  call (send "b" (always (refusal_response 409)) sample_origin stopVm (opts (File:=unit) (Api.ids [("id", "vm1")]) None None)) sample_page
  = (inr (JsError "no"), sample_page).
Proof.
  destruct (call_settles (File:=unit) "b" (always (refusal_response 409)) sample_origin stopVm (opts (Api.ids [("id", "vm1")]) None None)
    sample_page sample_is_origin sample_good (or_introl eq_refl) eq_refl eq_refl) as (_ & H & _).
  rewrite (H (refusal_response 409) sample_page); [by vm_compute|done|done|by left].
Defined.

Lemma login_spec_witness :
  login "b" (always (refusal_response 401)) sample_origin "root" "pw" sample_page = (inr (JsError "no"), sample_page).
Proof.
  destruct (login_spec (File:=unit) "b" (always (refusal_response 401)) sample_origin "root" "pw" sample_page sample_is_origin) as [_ H].
  rewrite (H (refusal_response 401) sample_page); [by vm_compute|done|done].
Defined.

Lemma getVM_spec_witness :
  getVM "b" (always (refusal_response 404)) sample_origin "vm1" sample_page = (inl None, sample_page).
Proof.
  destruct (getVM_spec (File:=unit) "b" (always (refusal_response 404)) sample_origin "vm1" sample_page sample_is_origin) as [H _]; [by split_and!|].
  by rewrite (H (refusal_response 404) sample_page).
Defined.

Lemma upload_spec_witness :
  uploadMedia (File:=unit) "b" (always (refusal_response 404)) sample_origin (λ _ _ _ _, ([(true, 1%Z, 2%Z)], None)) IsoUpload tt sample_page
  = (inr (JsError "Upload failed"), mkPage {["maco-token" := "abc"]} "/vms/vm1?tab=disks" [] [(1%Z, 2%Z)]).
Proof.
  destruct (upload_spec (File:=unit) "b" (always (refusal_response 404)) sample_origin (λ _ _ _ _, ([(true, 1%Z, 2%Z)], None)) IsoUpload tt sample_page
    sample_is_origin) as (url & _ & H).
  by rewrite (H _ None eq_refl).
Defined.
