(* ===== verification/Session.v ===== *)
(** * Sessions

    Who is signed in and what the console shows for it: [src/web/src/hooks/useSession.tsx], the shell of
    [src/web/src/App.tsx] (its navigation, its guard, the sign-out) and [src/web/src/pages/Login.tsx]. *)

From S2P Require Import Prelude JsString Json PathSerializer Client Url Sdk Types Api ApiCorrect Ux Dom.
Local Open Scope string_scope.

(** ** [SessionProvider] *)

Record SessionState := mkSessionState { user : option CurrentUser; admin : bool; loading : bool; session_error : string }.

(** [active] is the request of the running effect, [next] the number of requests so far. *)
Record provider := mkProvider { session : SessionState; active : option nat; next : nat }.

Inductive session_event :=
  | Mount                                        (** the effect runs for the first time *)
  | Refresh                                      (** [setRevision]: the effect is cleaned up and runs again *)
  | Answered (request : nat) (answer : CurrentUser + thrown)
  | Unmount.

Definition initial : provider := mkProvider (mkSessionState None false true "") None 0.

(** The body of the effect. *)
Definition start (p : provider) : provider :=
  mkProvider (mkSessionState (user (session p)) (admin (session p)) true "") (Some (next p)) (S (next p)).

Definition answered (a : CurrentUser + thrown) : SessionState :=
  match a with
  | inl u => mkSessionState (Some u) (isAdmin (Some (user_role u))) false ""
  | inr e => mkSessionState None false false (errorMessage e)
  end.

(** The effect of a step is the request it sends, by its number. *)
Definition session_step (p : provider) (e : session_event) : provider * list nat :=
  match e with
  | Mount | Refresh => (start p, [next p])
  | Answered i a =>
      (if bool_decide (active p = Some i) then mkProvider (answered a) (active p) (next p) else p, [])
  | Unmount => (mkProvider (session p) None (next p), [])
  end.

(** ** The shell *)

Record nav_item := mkNav { nav_to : string; nav_label : string }.

Definition navigation (admin : bool) : list nav_item :=
  ([mkNav "/" "Virtual Machines"; mkNav "/networks" "Networks"; mkNav "/disks" "Disks"; mkNav "/media" "Images & ISOs";
    mkNav "/jobs" "Activity"; mkNav "/api-docs" "API"] ++ (if admin then [mkNav "/console" "Console"] else []))%list.

Inductive shell_action := Go (path : string) | ToggleTheme | Logout | Retry.

(** [AccountLink]: the name it shows. *)
Definition account_name (s : SessionState) : string :=
  str_or (match user s with Some u => user_username u | None => "" end) (if loading s then "Loading…" else "Account").

Definition AccountLink (s : SessionState) (collapsed : bool) : node shell_action :=
  El "a" [("href", "/profile"); ("title", account_name s)] false [Go "/profile"]
    (when (negb collapsed) [label "span" (account_name s)]).

(** The sign-out: the token and the drafts of the storage go, then the page does. *)
Definition logout (w : page) : page :=
  let w := clearToken w in
  assign "/login" (mkPage (filter (λ '(k, _), starts_with "maco:draft:" k = false) (storage w)) (location_path w) (assigned w) (progress w)).

Definition SidebarFooter (dark collapsed : bool) : node shell_action :=
  let themeLabel := if dark then "Light mode" else "Dark mode" in
  box "div"
    [El "button" [("name", themeLabel)] false [ToggleTheme] (when (negb collapsed) [Text themeLabel]);
     El "button" [("name", "Logout")] false [Logout] (when (negb collapsed) [Text "Logout"])].

Definition nav_node (i : nav_item) : node shell_action := El "a" [("href", nav_to i)] false [Go (nav_to i)] [Text (nav_label i)].

(** [children] is the page; it is not rendered before the permissions are known. *)
Definition SessionShell (s : SessionState) (dark collapsed : bool) (children : list (node shell_action)) : node shell_action :=
  box "main"
    ([AccountLink s collapsed; box "nav" (nav_node <$> navigation (admin s)); SidebarFooter dark collapsed] ++
     if loading s then [label "p" "Loading account permissions…"]
     else if truthy (session_error s) then
       [box "div" [label "p" "Couldn’t load account permissions. Retry to continue."; button "Retry" false Retry]]
     else children)%list.

(** [Shell]: where the guard sends a page without token. *)
Definition shell_redirect (w : page) : option string :=
  match getToken w with
  | Some t => if truthy t then None else Some ("/login?returnTo=" ++ encodeURIComponent (location_path w))
  | None => Some ("/login?returnTo=" ++ encodeURIComponent (location_path w))
  end.

(** [App]: the routes under the shell; any other path but [/login] is redirected to [/]. *)
Definition app_routes : list string :=
  ["/"; "/networks"; "/disks"; "/media"; "/vms/:id"; "/profile"; "/api-docs"; "/console"; "/jobs"; "/jobs/:id"].

(** ** Signing in *)

(** [URLSearchParams.get] on a query that was encoded. *)
Definition search_of (url : string) : string := match split_on "?" url with _ :: r => join "?" r | [] => "" end.
Definition params_get (search name : string) : option string :=
  snd <$> (parseQuery search ≫= λ ps, List.find (λ p, String.eqb (fst p) name) ps).

Definition Login_expired (search : string) : bool := bool_decide (is_Some (params_get search "expired")).

Section login.
Context {File : Type} (boundary : string) (globalFetch : @Request File → M page Response) (origin : string).

(** [submit]: the path navigated to. *)
Definition submit (search username password : string) : M page string :=
  _ ← login boundary globalFetch origin username password;
  mret (safeReturnPath (params_get search "returnTo")).
End login.

(** ** Properties *)

Definition session_inv (p : provider) : Prop :=
  admin (session p) = isAdmin (user_role <$> user (session p)) ∧
  (truthy (session_error (session p)) = true → user (session p) = None) ∧
  match active p with Some i => i < next p | None => True end.

Lemma session_step_inv p e : session_inv p → session_inv (fst (session_step p e)).
Proof.
  intros (Ha & He & Hn). destruct e as [| |i a|]; cbn.
  - split_and!; cbn; [done|done|lia].
  - split_and!; cbn; [done|done|lia].
  - case_bool_decide; [|done]. destruct a; split_and!; cbn; try done.
  - split_and!; done.
Qed.

Lemma session_reachable p : reachable session_step initial p → session_inv p.
Proof. apply reachable_invariant; [by split_and!|apply session_step_inv]. Qed.

(** What the session knows is the answer of the last request that was made for it: whatever the order of
    answers, an answer to an earlier request or after the unmount changes nothing, and the permissions are
    always those of the user shown. *)
Theorem session_latest p : reachable session_step initial p →
  (∀ i a, active p ≠ Some i → session_step p (Answered i a) = (p, [])) ∧
  (∀ i a, active p = Some i → session (fst (session_step p (Answered i a))) = answered a) ∧
  (∀ e i, i ∈ snd (session_step p e) → active p ≠ Some i ∧ active (fst (session_step p e)) = Some i ∧
     loading (session (fst (session_step p e))) = true) ∧
  (admin (session p) = true ↔ ∃ u, user (session p) = Some u ∧ user_role u = "admin").
Proof.
  intros Hr. destruct (session_reachable p Hr) as (Ha & _ & Hn). split_and!.
  - intros i a H. cbn. by rewrite bool_decide_eq_false_2.
  - intros i a H. cbn. by rewrite bool_decide_eq_true_2.
  - intros [| |j a|] i; cbn; intros Hi; try (by apply not_elem_of_nil in Hi); apply list_elem_of_singleton in Hi as ->;
      (split_and!; [|done|done]); destruct (active p); [injection 1; lia|done|injection 1; lia|done].
  - rewrite Ha. destruct (user (session p)) as [u|]; cbn; [|naive_solver]. rewrite String.eqb_eq. naive_solver.
Qed.

Lemma session_latest_witness : active (fst (run session_step initial [Mount; Refresh])) = Some 1 ∧
  session_step (fst (run session_step initial [Mount; Refresh])) (Answered 0 (inl (mkCurrentUser "admin" "eve")))
  = (fst (run session_step initial [Mount; Refresh]), []).
Proof.
  split; [reflexivity|]. apply (session_latest (fst (run session_step initial [Mount; Refresh]))); [by eexists|discriminate].
Defined.

Lemma nav_offers a l : a ∈ flat_map offers (nav_node <$> l) ↔ ∃ i, i ∈ l ∧ a = Go (nav_to i).
Proof.
  induction l as [|i l IH]; [split; [by intros ?%not_elem_of_nil|intros (i & Hi & _); by apply not_elem_of_nil in Hi]|].
  cbn. rewrite elem_of_cons, IH. setoid_rewrite elem_of_cons. naive_solver.
Qed.

Lemma isAdmin_role o : isAdmin (user_role <$> o) = true ↔ ∃ u, o = Some u ∧ user_role u = "admin".
Proof. destruct o as [u|]; cbn; [rewrite String.eqb_eq|]; naive_solver. Qed.

Lemma nav_links a b : a ∈ flat_map offers (nav_node <$> navigation b) ↔
  ∃ path, a = Go path ∧ path ∈ app_routes ∧ path ∉ ["/vms/:id"; "/jobs/:id"; "/profile"] ∧ (path = "/console" → b = true).
Proof.
  rewrite nav_offers. unfold app_routes. split.
  - intros (i & Hi & ->). unfold navigation in Hi. exists (nav_to i). apply elem_of_app in Hi as [Hi|Hi].
    + repeat (apply elem_of_cons in Hi as [->|Hi]; [split_and!; [done|set_solver|set_solver|done]|]). by apply not_elem_of_nil in Hi.
    + destruct b; [|by apply not_elem_of_nil in Hi]. apply list_elem_of_singleton in Hi as ->. split_and!; [done|set_solver|set_solver|done].
  - intros (path & -> & Hp & Hn & Hc).
    assert (path ∈ nav_to <$> navigation b → ∃ i, i ∈ navigation b ∧ Go path = Go (nav_to i)) as H.
    { intros (i & -> & Hi)%list_elem_of_fmap. by exists i. }
    apply H. clear H. rewrite !not_elem_of_cons in Hn. destruct Hn as (N1 & N2 & N3 & _).
    repeat (apply elem_of_cons in Hp as [->|Hp]); try done; try (by apply not_elem_of_nil in Hp);
      try (apply list_elem_of_In; destruct b; vm_compute; tauto).
    rewrite (Hc eq_refl). apply list_elem_of_In. vm_compute. tauto.
Qed.

Definition shell_content (s : SessionState) (children : list (node shell_action)) : list (node shell_action) :=
  if loading s then [label "p" "Loading account permissions…"]
  else if truthy (session_error s) then
    [box "div" [label "p" "Couldn’t load account permissions. Retry to continue."; button "Retry" false Retry]]
  else children.

Lemma shell_offers_list s dark collapsed children a : a ∈ offers (SessionShell s dark collapsed children) ↔
  a ∈ Go "/profile" :: flat_map offers (nav_node <$> navigation (admin s)) ++ [ToggleTheme; Logout] ++ flat_map offers (shell_content s children).
Proof.
  assert (offers (AccountLink s collapsed) = [Go "/profile"]) as H1 by by destruct collapsed.
  assert (offers (SidebarFooter dark collapsed) = [ToggleTheme; Logout]) as H2 by by destruct collapsed.
  unfold SessionShell. rewrite offers_box. fold (shell_content s children). cbn [flat_map app]. by rewrite H1, H2.
Qed.

Lemma shell_rest s children a : a ∈ flat_map offers (shell_content s children) ↔
  (a = Retry ∧ loading s = false ∧ session_error s ≠ "") ∨ (a ∈ flat_map offers children ∧ loading s = false ∧ session_error s = "").
Proof.
  unfold shell_content. destruct (loading s); [set_solver|]. destruct (truthy (session_error s)) eqn:E.
  - apply truthy_true in E. set_solver.
  - apply truthy_false in E. set_solver.
Qed.

(** What the shell lets a user do: the console of the host is linked for administrators only, every link
    leads to a page of the application, the page itself is there only once the permissions are known, and
    an account that could not be read offers the retry. *)
Theorem shell_offers p dark collapsed children a : reachable session_step initial p →
  a ∈ offers (SessionShell (session p) dark collapsed children) ↔
    (∃ path, a = Go path ∧ path ∈ app_routes ∧ path ∉ ["/vms/:id"; "/jobs/:id"] ∧
       (path = "/console" → ∃ u, user (session p) = Some u ∧ user_role u = "admin")) ∨
    a = ToggleTheme ∨ a = Logout ∨
    (a = Retry ∧ loading (session p) = false ∧ session_error (session p) ≠ "") ∨
    (a ∈ flat_map offers children ∧ loading (session p) = false ∧ session_error (session p) = "").
Proof.
  intros Hr. destruct (session_reachable p Hr) as (Ha & _ & _).
  rewrite (shell_offers_list (session p) dark collapsed children), elem_of_cons, !elem_of_app, nav_links, Ha. setoid_rewrite isAdmin_role.
  assert (a ∈ [ToggleTheme; Logout] ↔ a = ToggleTheme ∨ a = Logout) as -> by set_solver.
  rewrite shell_rest. split.
  - intros [->|[(path & -> & Hp & Hn & Hc)|[?|[?|?]]]]; [|left; exists path; split_and!; [done|done|set_solver|done]|tauto..].
    left. exists "/profile". split_and!; [done|set_solver|set_solver|done].
  - intros [(path & -> & Hp & Hn & Hc)|H]; [|tauto]. destruct (decide (path = "/profile")) as [->|Hpr]; [by left|].
    right. left. exists path. split_and!; [done|done|set_solver|done].
Qed.

Definition signed_in (role : string) : provider := fst (run session_step initial [Mount; Answered 0 (inl (mkCurrentUser role "ann"))]).

Lemma shell_offers_witness :
  Go "/console" ∈ offers (SessionShell (session (signed_in "admin")) false false []) ∧
  Go "/console" ∉ offers (SessionShell (session (signed_in "operator")) false false []).
Proof.
  split.
  - apply (shell_offers (signed_in "admin") false false [] (Go "/console")); [by eexists|]. left. exists "/console".
    split_and!; [done|apply list_elem_of_In; vm_compute; tauto|set_solver|]. intros _. by exists (mkCurrentUser "admin" "ann").
  - rewrite (shell_offers (signed_in "operator") false false [] (Go "/console")) by (by eexists).
    intros [(path & [= <-] & _ & _ & Hc)|[H|[H|[[H _]|[H _]]]]]; try discriminate H.
    + destruct (Hc eq_refl) as (u & [= <-] & H). discriminate H.
    + by apply not_elem_of_nil in H.
Defined.

(** Signing out leaves nothing of the session: the token and every draft are gone, what else the
    storage holds stays, the page goes to the sign-in, and the guard of the shell lets no page through
    until a token is there again. *)
Theorem logout_clears w : let w' := logout w in
  getToken w' = None ∧ (∀ k, starts_with "maco:draft:" k = true → storage w' !! k = None) ∧
  (∀ k, starts_with "maco:draft:" k = false → k ≠ TOKEN_KEY → storage w' !! k = storage w !! k) ∧
  assigned w' = (assigned w ++ ["/login"])%list ∧
  shell_redirect w' = Some ("/login?returnTo=" ++ encodeURIComponent (location_path w)).
Proof.
  cbn zeta. assert (getToken (logout w) = None) as Ht.
  { unfold getToken, logout. cbn [storage assign clearToken]. apply map_lookup_filter_None. left. apply lookup_delete_eq. }
  split_and!; [done| | |done|].
  - intros k Hk. unfold logout. cbn [storage assign clearToken]. apply map_lookup_filter_None. right. intros v _. congruence.
  - intros k Hk Hne. unfold logout. cbn [storage assign clearToken]. rewrite map_lookup_filter, lookup_delete_ne by done.
    destruct (storage w !! k) as [v|]; [|done]. cbn. by rewrite option_guard_True.
  - unfold shell_redirect. by rewrite Ht.
Qed.

(** ** The way back *)

Lemma returnTo_params l : parseQuery ("returnTo=" ++ encodeURIComponent l) = Some [("returnTo", l)] ∧
  parseQuery ("expired=1&returnTo=" ++ encodeURIComponent l) = Some [("expired", "1"); ("returnTo", l)].
Proof.
  assert (parse_pair ("returnTo=" ++ encodeURIComponent l) = Some ("returnTo", l)) as Hp by (apply (parse_pair_text ("returnTo", l)); done).
  assert ("&"%char ∉ chars ("returnTo=" ++ encodeURIComponent l)) as Ha by by apply (pair_text_no_amp ("returnTo", l)).
  unfold parseQuery. split.
  - change (truthy ("returnTo=" ++ encodeURIComponent l)) with true. cbv iota. rewrite split_on_no_sep by done.
    cbn [mapM]. by rewrite Hp.
  - change (truthy ("expired=1&returnTo=" ++ encodeURIComponent l)) with true. cbv iota.
    change ("expired=1&returnTo=" ++ encodeURIComponent l) with ("expired=1" ++ String "&" ("returnTo=" ++ encodeURIComponent l)).
    rewrite split_on_cons by set_solver. rewrite split_on_no_sep by done. cbn [mapM]. by rewrite Hp.
Qed.

Lemma search_of_login p q : "?"%char ∉ chars p → "?"%char ∉ chars q → search_of (p ++ "?" ++ q) = q.
Proof. intros Hp Hq. unfold search_of. change ("?" ++ q) with (String "?" q). rewrite split_on_cons, split_on_no_sep by done. done. Qed.

Lemma no_question l s : "?"%char ∉ chars s → "?"%char ∉ chars (s ++ encodeURIComponent l).
Proof. intros Hs. rewrite chars_app, elem_of_app. intros [H|H]; [done|]. by apply encode_no in H. Qed.

(** The paths the sign-in goes back to: of the site, other than its own, and with no backslash. Those of the routes of the
    application are, unless their query holds one. *)
Definition local_page (path : string) : Prop :=
  (∃ rest, path = "/" ++ rest ∧ starts_with "/" rest = false ∧ starts_with "login" rest = false) ∧ "\"%char ∉ chars path.

Lemma starts_with_app q p r : starts_with (q ++ p) (q ++ r) = starts_with p r.
Proof. induction q as [|c q IH]; [done|]. cbn. unfold starts_with in *. cbn. by rewrite (proj2 (Ascii.eqb_eq c c)). Qed.

Lemma includes_char c s : includes (String c "") s = bool_decide (c ∈ chars s).
Proof.
  apply eq_iff_eq_true. rewrite includes_spec, bool_decide_eq_true. split.
  - intros (a & b & ->). rewrite chars_app. set_solver.
  - intros (l1 & l2 & E)%list_elem_of_split. exists (unchars l1), (unchars l2). by rewrite <- (unchars_chars s), E, unchars_app.
Qed.

Lemma return_local path : local_page path → safeReturnPath (Some path) = path.
Proof.
  intros [(rest & -> & H1 & H2) Hb]. cbn [safeReturnPath]. change "//" with ("/" ++ "/"). change "/login" with ("/" ++ "login").
  rewrite !starts_with_app, H1, H2, (includes_char "\"), bool_decide_eq_false_2 by done. by replace (starts_with "/" ("/" ++ rest)) with true by by destruct rest.
Qed.

Lemma return_elsewhere path : ¬ local_page path → safeReturnPath (Some path) = "/".
Proof.
  intros Hn. cbn [safeReturnPath]. match goal with |- (if ?b then _ else _) = _ => destruct b eqn:E end; [|done]. destruct Hn. unbool.
  match goal with H : starts_with "/" path = true |- _ => apply starts_with_spec in H as [rest ->] end. split.
  - exists rest. change "//" with ("/" ++ "/") in *. change "/login" with ("/" ++ "login") in *. rewrite !starts_with_app in *. done.
  - match goal with H : includes _ _ = false |- _ => by rewrite (includes_char "\"), bool_decide_eq_false in H end.
Qed.

(** The pages a session ends on and those the guard refuses, of the page [w], have this search at the sign-in. *)
Definition sign_ins (w : page) : list (string * bool) := (login_page w, true) :: match shell_redirect w with Some u => [(u, false)] | None => [] end.

Lemma sign_in_params w url expired : (url, expired) ∈ sign_ins w →
  params_get (search_of url) "returnTo" = Some (location_path w) ∧ Login_expired (search_of url) = expired.
Proof.
  pose proof (returnTo_params (location_path w)) as [H1 H2]. unfold sign_ins, Login_expired, params_get. intros [[= -> ->]|H]%elem_of_cons.
  - assert (search_of (login_page w) = "expired=1&returnTo=" ++ encodeURIComponent (location_path w)) as ->; [|by rewrite H2].
    apply (search_of_login "/login"); [set_solver|]. apply (no_question (location_path w) "expired=1&returnTo="). set_solver.
  - assert (url = "/login?returnTo=" ++ encodeURIComponent (location_path w) ∧ expired = false) as [-> ->].
    { unfold shell_redirect in H. destruct (getToken w) as [t|]; [destruct (truthy t); [by apply not_elem_of_nil in H|]|]; apply list_elem_of_singleton in H; by injection H. }
    assert (search_of ("/login?returnTo=" ++ encodeURIComponent (location_path w)) = "returnTo=" ++ encodeURIComponent (location_path w)) as ->; [|by rewrite H1].
    apply (search_of_login "/login"); [set_solver|]. apply (no_question (location_path w) "returnTo="). set_solver.
Qed.

(** C33. The way back survives the sign-in. From a page whose session ended, and from one the guard refuses without a
    token, the sign-in is opened with a search of its own; a right password there (an answer that carries a token)
    keeps the token and navigates to exactly the path and query of that page, whatever their characters, if they are
    local: a slash that is followed neither by another nor by [login], and no backslash. Otherwise it goes to the root. A wrong one
    rejects with the server's message and navigates nowhere. The notice that the session expired is shown in the first case alone. *)
Theorem return_path_roundtrip {File} boundary (globalFetch : @Request File → M page Response) origin w url expired username password w1 res w2 :
  (url, expired) ∈ sign_ins w → is_origin origin → (∀ r, globalFetch r w1 = (inl res, w2)) →
  let signed_in := submit boundary globalFetch origin (search_of url) username password w1 in
  Login_expired (search_of url) = expired ∧
  (∀ fields t, json_answer res (JObj fields) → field "token" (JObj fields) = Some (JStr t) →
     (local_page (location_path w) → signed_in = (inl (location_path w), setItem TOKEN_KEY t w2)) ∧
     (¬ local_page (location_path w) → signed_in = (inl "/", setItem TOKEN_KEY t w2))) ∧
  (ok res = false → signed_in = (inr (JsError (refusal (rs_text res))), w2)).
Proof.
  intros Hu Ho Hf. cbn zeta. destruct (sign_in_params w url expired Hu) as [Hp He]. split; [done|].
  destruct (login_spec boundary globalFetch origin username password w1 Ho) as [Hgood Hbad]. split.
  - intros fields t Hj Ht. pose proof (Hgood res fields t w2 Hf Hj Ht) as Hl.
    assert (submit boundary globalFetch origin (search_of url) username password w1 = (inl (safeReturnPath (Some (location_path w))), setItem TOKEN_KEY t w2)) as ->.
    { unfold submit. rewrite (bind_ok _ _ _ _ _ Hl), Hp. done. }
    split; intros Hlocal; [by rewrite return_local|by rewrite return_elsewhere].
  - intros Hok. unfold submit, mbind, M_bind. by rewrite (Hbad res w2 Hf Hok).
Qed.

Lemma return_path_roundtrip_witness :
  let answer := json_response 200 (JObj [("token", JStr "new")]) in
  submit "b" (always answer) sample_origin (search_of (login_page sample_page)) "root" "pw" sample_page = (inl "/vms/vm1?tab=disks", setItem TOKEN_KEY "new" sample_page).
Proof.
  cbn zeta. set (answer := json_response 200 (JObj [("token", JStr "new")])).
  destruct (return_path_roundtrip (File := unit) "b" (always answer) sample_origin sample_page (login_page sample_page) true "root" "pw" sample_page answer sample_page) as (_ & H & _).
  - by left.
  - exact sample_is_origin.
  - done.
  - apply (H [("token", JStr "new")]).
    + split_and!; try (by vm_compute). apply list_elem_of_In; vm_compute; tauto.
    + reflexivity.
    + split; [by exists "vms/vm1?tab=disks"|]. apply (bool_decide_unpack _). by vm_compute.
Defined.
