(* ===== verification/EntryRows.v ===== *)
(** * Rows of the forms

    [IntegerEntryRow], [MemoryEntryRow] and [ChoiceRow] of [src/web/src/components]: a text the user
    types, the value of the form it stands for, and the custom validity that keeps a form from being
    submitted. Amounts of memory are exact: texts of up to fifteen significant digits, for which the
    products of the source are. *)

From S2P Require Import Prelude JsString Regex JsNumber Client Ux Dom Widgets.
Local Open Scope string_scope.

(** ** [IntegerEntryRow] *)

Definition whole : re := Plus (Cls is_digit).
Definition MAX_SAFE_INTEGER : Z := 9007199254740991.

Definition integerError (value : string) (min max : Z) : string :=
  if negb (test whole value) || negb (digits_value value <=? MAX_SAFE_INTEGER)%Z then "Enter a whole number using digits only."
  else if (digits_value value <? min)%Z then "Enter a value of at least " ++ pretty min ++ "."
  else if (max <? digits_value value)%Z then "Enter a value no greater than " ++ pretty max ++ "."
  else "".

(** The row with the value its parent keeps. *)
Record integer_row := mkIntegerRow { int_value : Z; int_text : string; edited : bool }.

Definition integer_open (v : Z) : integer_row := mkIntegerRow v (pretty v) false.

(** The effect on [value]. *)
Definition integer_assign (v : Z) (r : integer_row) : integer_row := if (v =? int_value r)%Z then r else integer_open v.

(** [change]: the text, and the value given to [onValueChange], which the parent gives back. *)
Definition integer_change (min max : Z) (next : string) (r : integer_row) : integer_row * option Z :=
  let r := mkIntegerRow (int_value r) next true in
  if truthy (integerError next min max) then (r, None)
  else (integer_assign (digits_value next) r, Some (digits_value next)).

(** The error shown, and whether the input is valid. *)
Definition integer_shown (min max : Z) (r : integer_row) : string := if edited r then integerError (int_text r) min max else "".
Definition integer_valid (min max : Z) (r : integer_row) : bool := negb (truthy (integerError (int_text r) min max)).

Definition IntegerEntryRow {A} (id title : string) (min max : Z) (edit : A) (r : integer_row) : node A :=
  El "EntryRow" [("id", id); ("title", title); ("value", int_text r); ("error", integer_shown min max r)] false [edit] [].

(** ** [MemoryEntryRow] *)

Definition decimal : re := Seq (Plus (Cls is_digit)) (Opt (Seq (Chr ".") (Plus (Cls is_digit)))).

(** [Number(text) * 1024], of a decimal text, when it is an integer. *)
Definition times_1024 (text : string) : option Z :=
  let '(a, b) := match split_on "." text with [a] => (a, "") | a :: b :: _ => (a, b) | [] => ("", "") end in
  let n := (digits_value (a ++ b) * 1024)%Z in
  let d := (10 ^ Z.of_nat (String.length b))%Z in
  if (n mod d =? 0)%Z then Some (n / d)%Z else None.

(** The amount in MiB a text stands for, if it is one the row accepts. *)
Definition memory_amount (text : string) : option Z :=
  if test decimal text then
    mib ← times_1024 text;
    if (mib <=? MAX_SAFE_INTEGER)%Z && (64 <=? mib)%Z then Some mib else None
  else None.

Definition memoryError (text : string) : string :=
  match memory_amount text with Some _ => "" | None => "Enter at least 0.0625 GiB (64 MiB), in increments of 1 MiB." end.

Record memory_row := mkMemoryRow { mem_value : Z; mem_text : string }.

Definition memory_open (v : Z) : memory_row := mkMemoryRow v (gib_text v).
Definition memory_assign (v : Z) (r : memory_row) : memory_row := if (v =? mem_value r)%Z then r else memory_open v.
Definition memory_change (next : string) (r : memory_row) : memory_row * option Z :=
  let r := mkMemoryRow (mem_value r) next in
  match memory_amount next with
  | Some v => (memory_assign v r, Some v)
  | None => (r, None)
  end.
Definition memory_valid (r : memory_row) : bool := negb (truthy (memoryError (mem_text r))).

Definition MemoryEntryRow {A} (id : string) (disabled : bool) (edit : A) (r : memory_row) : node A :=
  El "EntryRow" [("id", id); ("title", "Memory (GiB)"); ("value", mem_text r); ("error", memoryError (mem_text r))] disabled [edit]
    [label "p" "1 GiB = 1024 MiB"].

(** ** [ChoiceRow] *)

Record Choice := mkChoice { ch_value : string; ch_label : string; ch_disabled : bool }.

Definition NONE : string := "__maco_none__".

(** The value of the select and of its items: the empty choice needs a name of its own. *)
Definition select_value (value : string) (choices : list Choice) : string :=
  if existsb (λ c, String.eqb (ch_value c) "") choices && String.eqb value "" then NONE else value.
Definition item_value (c : Choice) : string := ch_value c ||s NONE.
Definition chosen (next : string) : string := if String.eqb next NONE then "" else next.

Definition ChoiceRow {A} (title value : string) (choices : list Choice) (onChange : string → A) (disabled : bool) (help : string) : node A :=
  El "Select" [("aria-label", title); ("value", select_value value choices);
               ("placeholder", match choices with [] => "No " ++ lower title ++ " available" | _ => "Choose " ++ lower title end)]
    (disabled || bool_decide (choices = []))
    []
    (((λ c, El "SelectItem" [("value", item_value c)] (ch_disabled c) [onChange (chosen (item_value c))] [Text (ch_label c)]) <$> choices)
     ++ when (truthy help) [label "p" help])%list.

(** ** Lemmas *)

(** What the rows offer while they are enabled. *)
Lemma integer_row_offers {A} id title min max (edit : A) r a : a ∈ offers (IntegerEntryRow id title min max edit r) → a = edit.
Proof. cbn. set_solver. Qed.
Lemma memory_row_offers {A} id d (edit : A) r a : a ∈ offers (MemoryEntryRow id d edit r) → d = false ∧ a = edit.
Proof. cbn. destruct d; cbn; set_solver. Qed.
Lemma choice_offers {A} title value cs (onChange : string → A) d help a :
  a ∈ offers (ChoiceRow title value cs onChange d help) →
  d = false ∧ ∃ c, c ∈ cs ∧ ch_disabled c = false ∧ a = onChange (chosen (item_value c)).
Proof.
  unfold ChoiceRow. rewrite elem_of_offers. intros [[Hd _]%orb_false_iff [H%not_elem_of_nil|(n & Hn & H)]]; [done|]. split; [done|].
  apply elem_of_app in Hn as [(c & -> & Hc)%list_elem_of_fmap|[_ ->%list_elem_of_singleton]%elem_of_when]; [|by apply offers_label in H].
  apply offers_el in H as [Hdc [->%list_elem_of_singleton|H]]; [by exists c|]. cbn in H. by apply not_elem_of_nil in H.
Qed.

(** A choice other than the placeholder for none is given back as it is. *)
Lemma chosen_value c : ch_value c ≠ NONE → chosen (item_value c) = ch_value c.
Proof.
  intros Hn. unfold chosen, item_value, str_or. destruct (String.eqb_spec (ch_value c) "") as [->|]; [done|].
  by destruct (String.eqb_spec (ch_value c) NONE).
Qed.

Lemma integerError_ok s min max : integerError s min max = "" ↔
  all_chars is_digit s = true ∧ s ≠ "" ∧ (digits_value s ≤ MAX_SAFE_INTEGER)%Z ∧ (min ≤ digits_value s ≤ max)%Z.
Proof.
  assert (test whole s = true ↔ s ≠ "" ∧ all_chars is_digit s = true) as Hw.
  { unfold whole. rewrite test_spec, matches_plus_cls. unfold all_chars. destruct s; split; intros [? ?]; split; done. }
  unfold integerError. destruct (test whole s) eqn:E; cbn [negb orb].
  - destruct (proj1 Hw eq_refl) as [Hne Hd]. destruct (digits_value s <=? MAX_SAFE_INTEGER)%Z eqn:E1; cbn [negb].
    + destruct (digits_value s <? min)%Z eqn:E2; [|destruct (max <? digits_value s)%Z eqn:E3].
      * split; [done|]. unbool. lia.
      * split; [done|]. unbool. lia.
      * split; [|done]. unbool. intros _. split_and!; auto; lia.
    + split; [done|]. unbool. lia.
  - split; [done|]. intros (Hd & Hne & _). by discriminate (proj2 Hw (conj Hne Hd)).
Qed.

Lemma pretty_no_error v min max : (0 ≤ v ≤ MAX_SAFE_INTEGER)%Z → (min ≤ v ≤ max)%Z → integerError (pretty v) min max = "".
Proof. intros Hv Hm. apply integerError_ok. destruct (pretty_Z_digits v) as (H1 & H2 & H3); [lia|]. rewrite H2. split_and!; done || lia. Qed.

Lemma digits_value_nonneg s : all_chars is_digit s = true → (0 ≤ digits_value s)%Z.
Proof.
  unfold digits_value, all_chars.
  assert (∀ k, 0 ≤ k → forallb is_digit (chars s) = true → 0 ≤ fold_left (λ n c, n * 10 + digit_value c) (chars s) k)%Z as H; [|by apply H].
  induction (chars s) as [|c l IH]; intros k Hk; [done|]. cbn. intros [Hc Hl]%andb_true_iff. apply IH; [|done].
  unfold is_digit, in_range in Hc. apply andb_true_iff in Hc as [Hc _]. apply N.leb_le in Hc. unfold digit_value. lia.
Qed.

(** What is shown and valid is what the form holds. *)
Definition integer_sync (min max : Z) (r : integer_row) : Prop :=
  (edited r = false → int_text r = pretty (int_value r)) ∧
  (integer_valid min max r = true → digits_value (int_text r) = int_value r).

Lemma pretty_neg v : (v < 0)%Z → ∃ t, pretty v = String "-" t.
Proof. intros Hv. destruct v as [|p|p]; [lia..|]. by eexists. Qed.

Lemma integer_open_sync min max v : integer_sync min max (integer_open v).
Proof.
  split; [done|]. destruct (decide (0 ≤ v)%Z) as [Hv|Hv]; [intros _; by apply pretty_Z_digits|].
  unfold integer_valid. rewrite negb_true_iff, truthy_false, integerError_ok. cbn [int_text integer_open].
  destruct (pretty_neg v) as [t ->]; [lia|]. by intros [? _].
Qed.

Lemma integer_assign_sync min max v r : integer_sync min max r → integer_sync min max (integer_assign v r).
Proof. intros Hr. unfold integer_assign. destruct (v =? int_value r)%Z; [done|]. by apply integer_open_sync. Qed.

Lemma integer_change_sync min max next r : integer_sync min max r →
  integer_sync min max (fst (integer_change min max next r)) ∧
  (∀ v, snd (integer_change min max next r) = Some v →
     int_value (fst (integer_change min max next r)) = v ∧ (min ≤ v ≤ max)%Z ∧ (0 ≤ v ≤ MAX_SAFE_INTEGER)%Z) ∧
  (snd (integer_change min max next r) = None → int_value (fst (integer_change min max next r)) = int_value r).
Proof.
  intros Hr. unfold integer_change. destruct (truthy (integerError next min max)) eqn:E.
  - cbn. split_and!; [|done..]. split; [done|]. unfold integer_valid. cbn. by rewrite E.
  - apply truthy_false in E. pose proof (proj1 (integerError_ok _ _ _) E) as (Hd & Hne & Hs & Hm).
    assert (0 ≤ digits_value next)%Z as H0 by (by apply digits_value_nonneg). cbn [fst snd]. unfold integer_assign. cbn [int_value].
    destruct (digits_value next =? int_value r)%Z eqn:Ev; split_and!; try done.
    + split; [done|]. intros _. by apply Z.eqb_eq in Ev.
    + intros v [= <-]. by apply Z.eqb_eq in Ev.
    + by apply integer_open_sync.
    + by intros v [= <-].
Qed.

(** ** Amounts of memory *)

Definition gib_frac (k : Z) : string := unchars (rev (strip_zeros (rev (decimals 10 1024 k)))).

Lemma gib_text_eq v : gib_text v = pretty (v / 1024)%Z ++ (if String.eqb (gib_frac (v mod 1024)) "" then "" else "." ++ gib_frac (v mod 1024)).
Proof. unfold gib_text, gib_frac. by destruct (rev (strip_zeros (rev (decimals 10 1024 (v mod 1024))))). Qed.

(** The fractions are 1024: what is used of them is checked by evaluation. *)
Definition frac_ok (k : Z) : bool :=
  all_chars is_digit (gib_frac k) && (digits_value (gib_frac k) * 1024 =? k * 10 ^ Z.of_nat (String.length (gib_frac k)))%Z.

Lemma frac_checked k : (0 ≤ k < 1024)%Z → all_chars is_digit (gib_frac k) = true ∧
  (digits_value (gib_frac k) * 1024 = k * 10 ^ Z.of_nat (String.length (gib_frac k)))%Z.
Proof.
  assert (forallb frac_ok (Z.of_nat <$> seq 0 1024) = true) as H by (vm_compute; reflexivity).
  intros Hk. rewrite forallb_forall in H. specialize (H k). unfold frac_ok in H. rewrite andb_true_iff, Z.eqb_eq in H.
  apply H, list_elem_of_In, list_elem_of_fmap. exists (Z.to_nat k). split; [lia|]. apply elem_of_seq. lia.
Qed.

Lemma digits_value_shift a b : digits_value (a ++ b) = (digits_value a * 10 ^ Z.of_nat (String.length b) + digits_value b)%Z.
Proof. rewrite digits_value_app, fold_digits, length_chars. done. Qed.

Lemma digits_no_dot s : all_chars is_digit s = true → "."%char ∉ chars s.
Proof. rewrite all_chars_spec. intros H Hin. by specialize (H _ Hin). Qed.

Lemma test_decimal a b : all_chars is_digit a = true → a ≠ "" → all_chars is_digit b = true →
  test decimal (a ++ if String.eqb b "" then "" else "." ++ b) = true.
Proof.
  intros Ha Hne Hb. unfold decimal. apply test_spec. rewrite chars_app. constructor.
  - apply matches_plus_cls. split; [by destruct a|done].
  - destruct (String.eqb_spec b "") as [->|Hbe]; [by repeat constructor|]. apply m_altr. rewrite chars_app. constructor; [by repeat constructor|].
    apply matches_plus_cls. split; [by destruct b|done].
Qed.

Lemma times_1024_spec a b : all_chars is_digit a = true → all_chars is_digit b = true →
  times_1024 (a ++ if String.eqb b "" then "" else "." ++ b) =
  let n := (digits_value (a ++ b) * 1024)%Z in let d := (10 ^ Z.of_nat (String.length b))%Z in
  if (n mod d =? 0)%Z then Some (n / d)%Z else None.
Proof.
  intros Ha Hb. unfold times_1024. destruct (String.eqb_spec b "") as [->|Hbe].
  - rewrite str_app_nil_r. rewrite split_on_no_sep by (by apply digits_no_dot). by rewrite str_app_nil_r.
  - change ("." ++ b) with (String "." b). rewrite split_on_cons by (by apply digits_no_dot).
    by rewrite split_on_no_sep by (by apply digits_no_dot).
Qed.

Lemma times_gib_text v : (0 ≤ v)%Z → test decimal (gib_text v) = true ∧ times_1024 (gib_text v) = Some v.
Proof.
  intros Hv. rewrite gib_text_eq.
  destruct (frac_checked (v mod 1024)) as [Hf Hfv]; [apply Z.mod_pos_bound; lia|].
  destruct (pretty_Z_digits (v / 1024)) as (Hd & Hdv & Hne); [apply Z.div_pos; lia|].
  split; [by apply test_decimal|]. rewrite times_1024_spec by done. cbv zeta. rewrite digits_value_shift, Hdv.
  set (f := gib_frac (v mod 1024)) in *. set (d := (10 ^ Z.of_nat (String.length f))%Z) in *.
  assert (0 < d)%Z as Hd0 by (apply Z.pow_pos_nonneg; lia).
  assert ((v / 1024 * d + digits_value f) * 1024 = v * d)%Z as ->.
  { rewrite Z.mul_add_distr_r, Hfv. rewrite (Z.div_mod v 1024) at 3 by lia. ring. }
  by rewrite Z.mod_mul, Z.div_mul by lia.
Qed.

Lemma memory_amount_gib_text v : (64 ≤ v ≤ MAX_SAFE_INTEGER)%Z → memory_amount (gib_text v) = Some v.
Proof.
  intros Hv. unfold memory_amount. destruct (times_gib_text v) as [-> ->]; [lia|]. cbn [mbind option_bind].
  rewrite (proj2 (Z.leb_le v MAX_SAFE_INTEGER)), (proj2 (Z.leb_le 64 v)) by lia. done.
Qed.

Lemma decimal_no_sign t : test decimal (String "-" t) = false.
Proof.
  apply not_true_iff_false. intros E. unfold decimal in E. apply test_spec in E. cbn [chars] in E.
  apply matches_seq_iff in E as (u & u' & Hu & [Hne Hd]%matches_plus_cls & _).
  destruct u as [|c u]; [done|]. injection Hu as <- _. done.
Qed.

(** The text of any amount reads as nothing else. *)
Lemma memory_amount_shown v w : memory_amount (gib_text v) = Some w → w = v.
Proof.
  destruct (decide (0 ≤ v)%Z) as [Hv|Hv]; unfold memory_amount.
  - destruct (times_gib_text v Hv) as [-> ->]. cbn [mbind option_bind]. destruct (_ && _); [|done]. by intros [= <-].
  - rewrite gib_text_eq. destruct (pretty_neg (v / 1024)) as [t ->]; [apply Z.div_lt_upper_bound; lia|].
    generalize (if String.eqb (gib_frac (v mod 1024)) "" then "" else "." ++ gib_frac (v mod 1024)). intros u.
    change (String "-" t ++ u) with (String "-" (t ++ u)). by rewrite decimal_no_sign.
Qed.

(** Typed texts and values given back by the parent. *)
Inductive memory_event := TypeMemory (text : string) | AssignMemory (v : Z).
Definition memory_step (r : memory_row) (e : memory_event) : memory_row * list Z :=
  match e with
  | TypeMemory text => let '(r, v) := memory_change text r in (r, match v with Some v => [v] | None => [] end)
  | AssignMemory v => (memory_assign v r, [])
  end.

Definition memory_sync (r : memory_row) : Prop :=
  memory_valid r = true → memory_amount (mem_text r) = Some (mem_value r).

Lemma memory_amount_bounds text v : memory_amount text = Some v → (64 ≤ v ≤ MAX_SAFE_INTEGER)%Z.
Proof.
  unfold memory_amount. destruct (test decimal text); [|done]. destruct (times_1024 text) as [m|]; [|done]. cbn [mbind option_bind].
  destruct ((m <=? MAX_SAFE_INTEGER)%Z && (64 <=? m)%Z) eqn:E; [|done]. intros [= <-]. unbool. lia.
Qed.

Lemma memory_valid_amount r : memory_valid r = true ↔ is_Some (memory_amount (mem_text r)).
Proof. unfold memory_valid, memoryError. destruct (memory_amount (mem_text r)); cbn; (split; [|by try intros [? ?]]); [by eexists|done]. Qed.

Lemma memory_open_sync v : memory_sync (memory_open v).
Proof. intros [w Hw]%memory_valid_amount. cbn in Hw |- *. by rewrite Hw, (memory_amount_shown v w Hw). Qed.

Lemma memory_assign_sync v r : memory_sync r → memory_sync (memory_assign v r).
Proof. intros Hr. unfold memory_assign. destruct (v =? mem_value r)%Z; [done|]. apply memory_open_sync. Qed.

Lemma memory_change_sync text r : memory_sync r → memory_sync (fst (memory_change text r)) ∧
  ∀ v, snd (memory_change text r) = Some v → mem_value (fst (memory_change text r)) = v ∧ memory_amount text = Some v.
Proof.
  intros Hs. unfold memory_change. destruct (memory_amount text) as [v|] eqn:E.
  - cbn [fst snd]. unfold memory_assign. cbn [mem_value].
    destruct (v =? mem_value r)%Z eqn:Ev.
    + apply Z.eqb_eq in Ev. split; [|by intros ? [= <-]]. intros _. cbn. by rewrite E, Ev.
    + split; [apply memory_open_sync|]. by intros ? [= <-].
  - split; [|done]. intros [w Hw]%memory_valid_amount. cbn in Hw. congruence.
Qed.

Inductive integer_event := TypeInteger (text : string) | AssignInteger (v : Z).
Definition integer_step (min max : Z) (r : integer_row) (e : integer_event) : integer_row * list Z :=
  match e with
  | TypeInteger text => let '(r, v) := integer_change min max text r in (r, match v with Some v => [v] | None => [] end)
  | AssignInteger v => (integer_assign v r, [])
  end.

Lemma integer_step_sync min max r e : integer_sync min max r →
  integer_sync min max (fst (integer_step min max r e)) ∧
  ∀ v, v ∈ snd (integer_step min max r e) → int_value (fst (integer_step min max r e)) = v ∧ (min ≤ v ≤ max)%Z ∧ (0 ≤ v ≤ MAX_SAFE_INTEGER)%Z.
Proof.
  intros Hr. destruct e as [text|v]; cbn [integer_step].
  - destruct (integer_change_sync min max text r Hr) as (H1 & H2 & _). destruct (integer_change min max text r) as [r' [v|]]; cbn in *.
    + split; [done|]. intros v' ->%list_elem_of_singleton. by apply H2.
    + split; [done|]. by intros v' ?%not_elem_of_nil.
  - split; [by apply integer_assign_sync|]. by intros v' ?%not_elem_of_nil.
Qed.

(** A number row never shows one number and holds another: through any typing and any values given by the
    form, a text it accepts reads as the value of the form, an untouched row shows that value, and what it
    reports is a whole number within the bounds the language holds exactly. *)
Theorem integer_row_sync min max v es :
  let '(r, reported) := run (integer_step min max) (integer_open v) es in
  (integer_shown min max r = "" → edited r = true → digits_value (int_text r) = int_value r) ∧
  (edited r = false → int_text r = pretty (int_value r)) ∧
  Forall (λ v, (min ≤ v ≤ max)%Z ∧ (0 ≤ v ≤ MAX_SAFE_INTEGER)%Z) reported.
Proof.
  pose proof (integer_open_sync min max v) as Hs. revert Hs. generalize (integer_open v). clear v.
  induction es as [|e es IH]; intros r Hs; cbn [run].
  - destruct Hs as [H1 H2]. split_and!; [|done|constructor]. unfold integer_shown. intros Hsh Hed. rewrite Hed in Hsh.
    apply H2. unfold integer_valid. by rewrite Hsh.
  - destruct (integer_step_sync min max r e Hs) as [Hs' Hrep]. destruct (integer_step min max r e) as [r' o]. cbn [fst snd] in *.
    specialize (IH r' Hs'). destruct (run (integer_step min max) r' es) as [r'' o']. destruct IH as (H1 & H2 & H3).
    split_and!; [done|done|]. apply Forall_app. split; [|done]. apply Forall_forall. intros v Hv. by apply Hrep.
Qed.

Lemma integer_row_sync_witness :
  let '(r, reported) := run (integer_step 1 8) (integer_open 2) [TypeInteger ""; TypeInteger "05"; TypeInteger "9"; AssignInteger 3] in
  int_text r = "3" ∧ reported = [5%Z].
Proof.
  pose proof (integer_row_sync 1 8 2 [TypeInteger ""; TypeInteger "05"; TypeInteger "9"; AssignInteger 3]) as H.
  assert (run (integer_step 1 8) (integer_open 2) [TypeInteger ""; TypeInteger "05"; TypeInteger "9"; AssignInteger 3]
    = (integer_open 3, [5%Z])) as E by (vm_compute; reflexivity).
  rewrite E in H |- *. destruct H as (_ & H & _). split; [exact (H eq_refl)|reflexivity].
Defined.

(** An amount of memory survives being shown: the text of any amount the machine can have reads back as the
    amount, and a row that accepts its text holds what the text reads as. *)
Theorem memory_row_roundtrip v es :
  let '(r, reported) := run memory_step (memory_open v) es in
  ((64 ≤ v ≤ MAX_SAFE_INTEGER)%Z → memory_amount (gib_text v) = Some v) ∧
  (memoryError (mem_text r) = "" → memory_amount (mem_text r) = Some (mem_value r)) ∧
  Forall (λ v, (64 ≤ v ≤ MAX_SAFE_INTEGER)%Z) reported.
Proof.
  assert ((64 ≤ v ≤ MAX_SAFE_INTEGER)%Z → memory_amount (gib_text v) = Some v) as Hg by by apply memory_amount_gib_text.
  pose proof (memory_open_sync v) as Hs. revert Hs. generalize (memory_open v). induction es as [|e es IH]; intros r Hs; cbn [run].
  - split_and!; [done| |done]. intros E. apply Hs. unfold memory_valid. by rewrite E.
  - assert (memory_sync (fst (memory_step r e)) ∧ Forall (λ v, (64 ≤ v ≤ MAX_SAFE_INTEGER)%Z) (snd (memory_step r e))) as [Hs' Hr].
    { destruct e as [text|v']; cbn [memory_step].
      - destruct (memory_change_sync text r Hs) as [H1 H2]. destruct (memory_change text r) as [r' [m|]]; cbn in *; (split; [done|]).
        + apply Forall_singleton. destruct (H2 m eq_refl) as [_ H]. by apply memory_amount_bounds in H.
        + constructor.
      - split; [by apply memory_assign_sync|constructor]. }
    destruct (memory_step r e) as [r' o]. cbn [fst snd] in *. specialize (IH r' Hs').
    destruct (run memory_step r' es) as [r'' o']. destruct IH as (H1 & H2 & H3). split_and!; [done|done|]. by apply Forall_app.
Qed.

Lemma memory_row_roundtrip_witness : memory_amount (gib_text 1536) = Some 1536%Z ∧ gib_text 1536 = "1.5".
Proof.
  split; [|reflexivity]. destruct (memory_row_roundtrip 1536 []) as (H & _). apply H. unfold MAX_SAFE_INTEGER. lia.
Defined.
