(* ===== verification/Hardware.v ===== *)
(** * The hardware form ([src/web/src/components/VMHardware.tsx])

    CPUs and memory of a machine, edited in a draft through two rows and saved with one request whose job
    the row follows. The form is submitted only when its inputs are valid, as the platform has it; a
    disabled fieldset takes no input and is not validated. The memory of a host is a whole number of MiB. *)

From S2P Require Import Prelude JsString Regex Json Types Ux UseResource JobTracking UseDraft Dom Widgets EntryRows.
Local Open Scope string_scope.

Record HardwareDraft := mkHardwareDraft { cpus : Z; memory_mib : Z }.
#[export] Instance HardwareDraft_eq_dec : EqDecision HardwareDraft.
Proof. solve_decision. Defined.
#[export] Program Instance HardwareDraft_codec : JsonCodec HardwareDraft := {|
  to_json d := JObj [("cpus", to_json (cpus d)); ("memory_mib", to_json (memory_mib d))];
  from_json j := c ← decode_field "cpus" j; m ← decode_field "memory_mib" j; Some (mkHardwareDraft c m)
|}.
Next Obligation.
  intros [c m]. set (fs := [("cpus", to_json c); ("memory_mib", to_json m)]).
  assert (NoDup fs.*1) as Hn by (apply (bool_decide_unpack _); by vm_compute).
  cbn [cpus memory_mib]. fold fs. rewrite (decode_field_in "cpus" c) by (done || set_solver).
  cbn [mbind option_bind]. rewrite (decode_field_in "memory_mib" m) by (done || set_solver). done.
Qed.

Section hardware.
Context `{!Draftable HardwareDraft}.

Record state := mkState {
  vm : VMView;
  host : @UseResource.view (option HostInfo);
  draft_form : form (T:=HardwareDraft);
  row : row_state;
  jobs : list Job;
  cpus_row : integer_row;
  mem_row : memory_row
}.

Inductive action := EditCpus | EditMemory | Submit | DiscardChanges | RetryHost.

(** The user types in a field or uses a control; the page, the library of jobs, the host and the answer
    of the save change on their own. *)
Inductive event :=
  | Typed (a : action) (text : string)
  | User (a : action)
  | VmChanged (v : VMView)
  | HostChanged (h : @UseResource.view (option HostInfo))
  | JobsChanged (l : list Job)
  | Answered (answer : Job + string).

Inductive request := UpdateHardware (id : string) (value : HardwareDraft) | RefreshHost.

Definition saved_draft (v : VMView) : HardwareDraft := mkHardwareDraft (m_cpus (vm_manifest v)) (m_memory_mib (vm_manifest v)).
Definition draft_key (v : VMView) : string := "maco:draft:" ++ m_id (vm_manifest v) ++ ":compute".

Definition draft_value (s : state) : HardwareDraft := value (UseDraft.state (draft_form s)).
Definition is_dirty (s : state) : bool := dirty (current (draft_form s)) (UseDraft.state (draft_form s)).
Definition in_conflict (s : state) : bool := conflict (current (draft_form s)) (UseDraft.state (draft_form s)).
Definition action_busy (s : state) : bool :=
  row_busy (m_id (vm_manifest (vm s))) (m_name (vm_manifest (vm s))) "vm" (jobs s) (row s).
Definition blocked (s : state) : bool := String.eqb (vm_phase (vm s)) "running" || action_busy s.

(** [host.data.memory_bytes / (1024 * 1024)], compared as bytes. *)
Definition overCapacity (s : state) : bool :=
  match UseResource.data (host s) with
  | Some h => (host_cpus h <? cpus (draft_value s))%Z || (host_memory_bytes h <? memory_mib (draft_value s) * 1048576)%Z
  | None => false
  end.

Definition set_draft (d : HardwareDraft) (s : state) : state :=
  mkState (vm s) (host s) (mkForm (current (draft_form s)) (set_value d (UseDraft.state (draft_form s))) (stored (draft_form s)))
    (row s) (jobs s) (cpus_row s) (mem_row s).
Definition set_row (r : row_state) (s : state) : state := mkState (vm s) (host s) (draft_form s) r (jobs s) (cpus_row s) (mem_row s).
Definition set_rows (c : integer_row) (m : memory_row) (s : state) : state := mkState (vm s) (host s) (draft_form s) (row s) (jobs s) c m.

Definition type_cpus (text : string) (s : state) : state :=
  let '(r, v) := integer_change 1 MAX_SAFE_INTEGER text (cpus_row s) in
  let s := set_rows r (mem_row s) s in
  match v with Some v => set_draft (mkHardwareDraft v (memory_mib (draft_value s))) s | None => s end.
Definition type_memory (text : string) (s : state) : state :=
  let '(r, v) := memory_change text (mem_row s) in
  let s := set_rows (cpus_row s) r s in
  match v with Some v => set_draft (mkHardwareDraft (cpus (draft_value s)) v) s | None => s end.

(** [save] and what follows its await. *)
Definition save (s : state) : state * list request :=
  if blocked s || negb (is_dirty s) || in_conflict s then (s, [])
  else (set_row (execute_start "vm.hardware" (row s)) s, [UpdateHardware (m_id (vm_manifest (vm s))) (draft_value s)]).

Definition handle (s : state) (e : event) : state * list request :=
  match e with
  | Typed EditCpus text => (type_cpus text s, [])
  | Typed EditMemory text => (type_memory text s, [])
  | Typed _ _ | User EditCpus | User EditMemory => (s, [])
  | User Submit => save s
  | User DiscardChanges =>
      (mkState (vm s) (host s) (mkForm (current (draft_form s)) (discard (current (draft_form s))) (stored (draft_form s)))
         (row s) (jobs s) (cpus_row s) (mem_row s), [])
  | User RetryHost => (s, [RefreshHost])
  | VmChanged v =>
      (mkState v (host s) (mkForm (saved_draft v) (UseDraft.state (draft_form s)) (stored (draft_form s))) (row s) (jobs s)
         (cpus_row s) (mem_row s), [])
  | HostChanged h => (mkState (vm s) h (draft_form s) (row s) (jobs s) (cpus_row s) (mem_row s), [])
  | JobsChanged l => (mkState (vm s) (host s) (draft_form s) (row s) l (cpus_row s) (mem_row s), [])
  | Answered a => (set_row (execute_end a (row s)) s, [])
  end.

(** The effects: the draft settles, then the rows follow its value. *)
Definition settle (s : state) : state :=
  let f := settle_form (draft_key (vm s)) (draft_form s) in
  let d := value (UseDraft.state f) in
  mkState (vm s) (host s) f (row s) (jobs s) (integer_assign (cpus d) (cpus_row s)) (memory_assign (memory_mib d) (mem_row s)).

Definition step (s : state) (e : event) : state * list request :=
  let '(s, o) := handle s e in (settle s, o).

Definition mount (v : VMView) (h : @UseResource.view (option HostInfo)) (l : list Job) (st : storage) : state :=
  let f := open_form (draft_key v) (saved_draft v) st in
  let d := value (UseDraft.state f) in
  mkState v h f row_initial l (integer_open (cpus d)) (memory_open (memory_mib d)).

(** ** View *)

Definition save_disabled (s : state) : bool := blocked s || negb (is_dirty s) || in_conflict s.

(** Whether the platform lets the form be submitted. *)
Definition form_valid (s : state) : bool := blocked s || (integer_valid 1 MAX_SAFE_INTEGER (cpus_row s) && memory_valid (mem_row s)).

Definition view (s : state) : node action :=
  box "form"
    (ResourceNotice (host s) "host capacity" RetryHost ++
     match UseResource.data (host s) with
     | Some h => [label "p" ("Host capacity: " ++ pretty (host_cpus h) ++ " CPUs · " ++ memoryLabel (host_memory_bytes h / 1048576) ++ ".")]
     | None => []
     end ++
     when (overCapacity s) [label "NoticeBanner" "This allocation exceeds the host’s physical capacity and can reduce performance or prevent startup."] ++
     when (in_conflict s) [label "NoticeBanner" "Saved settings changed while you were editing. Discard this draft to load the latest values before saving."] ++
     [El "fieldset" [] (blocked s) []
        [IntegerEntryRow "hardware-cpus" "CPUs" 1 MAX_SAFE_INTEGER EditCpus (cpus_row s);
         MemoryEntryRow "hardware-memory" false EditMemory (mem_row s)];
      El "button" [("type", "submit")] (save_disabled s) (if form_valid s then [Submit] else [])
        [Text (if action_busy s then "Saving…" else "Save CPU & Memory")];
      button "Discard Changes" (negb (is_dirty s) || action_busy s) DiscardChanges;
      label "span" (if is_dirty s then "Unsaved changes · Draft kept in this browser tab" else "Matches saved settings")] ++
     ActionStatus (row_job (m_id (vm_manifest (vm s))) (m_name (vm_manifest (vm s))) "vm" (jobs s) (row s)) (row_error (row s)) false)%list.

(** ** Properties *)

(** The rows show the draft. *)
Definition rows_inv (s : state) : Prop :=
  integer_sync 1 MAX_SAFE_INTEGER (cpus_row s) ∧ int_value (cpus_row s) = cpus (draft_value s) ∧
  memory_sync (mem_row s) ∧ mem_value (mem_row s) = memory_mib (draft_value s).

Lemma settle_inv s : integer_sync 1 MAX_SAFE_INTEGER (cpus_row s) → memory_sync (mem_row s) → rows_inv (settle s).
Proof.
  intros Hc Hm. unfold settle, rows_inv, draft_value. cbn [cpus_row mem_row draft_form]. split_and!.
  - by apply integer_assign_sync.
  - unfold integer_assign. destruct (Z.eqb_spec (cpus (value (UseDraft.state (settle_form (draft_key (vm s)) (draft_form s))))) (int_value (cpus_row s))); done.
  - by apply memory_assign_sync.
  - unfold memory_assign. destruct (Z.eqb_spec (memory_mib (value (UseDraft.state (settle_form (draft_key (vm s)) (draft_form s))))) (mem_value (mem_row s))); done.
Qed.

Lemma mount_inv v h l st : rows_inv (mount v h l st).
Proof. unfold mount, rows_inv. cbn. split_and!; [apply integer_open_sync|done|apply memory_open_sync|done]. Qed.

Lemma handle_rows s e : integer_sync 1 MAX_SAFE_INTEGER (cpus_row s) → memory_sync (mem_row s) →
  integer_sync 1 MAX_SAFE_INTEGER (cpus_row (fst (handle s e))) ∧ memory_sync (mem_row (fst (handle s e))).
Proof.
  intros Hc Hm. destruct e as [[] text|[]| | | |]; cbn; try done.
  - unfold type_cpus. destruct (integer_change_sync 1 MAX_SAFE_INTEGER text (cpus_row s) Hc) as [H _].
    destruct (integer_change 1 MAX_SAFE_INTEGER text (cpus_row s)) as [r [v|]]; done.
  - unfold type_memory. destruct (memory_change_sync text (mem_row s) Hm) as [H _]. by destruct (memory_change text (mem_row s)) as [r [v|]].
  - unfold save. by destruct (blocked s || negb (is_dirty s) || in_conflict s).
Qed.

Lemma hardware_step_inv s e : rows_inv s → rows_inv (fst (step s e)).
Proof.
  intros (Hc & _ & Hm & _). unfold step. destruct (handle_rows s e Hc Hm) as [Hc' Hm']. destruct (handle s e) as [s' o]. by apply settle_inv.
Qed.

Lemma hardware_reachable v h l st s : reachable step (mount v h l st) s → rows_inv s.
Proof. apply reachable_invariant; [apply mount_inv|apply hardware_step_inv]. Qed.

(** The controls of the form and when they are there. *)
Lemma view_offers s a : a ∈ offers (view s) →
  match a with
  | EditCpus | EditMemory => blocked s = false
  | Submit => save_disabled s = false ∧ form_valid s = true
  | DiscardChanges => is_dirty s = true ∧ action_busy s = false
  | RetryHost => True
  end.
Proof.
  unfold view. rewrite offers_box, !flat_map_app, !elem_of_app, !flat_map_when.
  intros [H|[H|[H|[H|[H|H]]]]].
  - by apply notice_offers in H as ->.
  - destruct (UseResource.data (host s)); by apply not_elem_of_nil in H.
  - destruct (overCapacity s); by apply not_elem_of_nil in H.
  - destruct (in_conflict s); by apply not_elem_of_nil in H.
  - cbn [flat_map] in H. rewrite !elem_of_app in H. destruct H as [H|[H|[H|[H|H]]]].
    + rewrite elem_of_offers in H. destruct H as [Hb [H|(c & Hc & H)]]; [by apply not_elem_of_nil in H|].
      apply elem_of_cons in Hc as [->|Hc]; [|apply list_elem_of_singleton in Hc as ->].
      * assert (a = EditCpus) as -> by (cbn in H; set_solver). done.
      * assert (a = EditMemory) as -> by (cbn in H; set_solver). done.
    + rewrite elem_of_offers in H. destruct H as [Hb [H|(c & Hc & H)]].
      * destruct (form_valid s); [|by apply not_elem_of_nil in H]. by apply list_elem_of_singleton in H as ->.
      * apply list_elem_of_singleton in Hc as ->. by apply not_elem_of_nil in H.
    + apply offers_button in H as [H ->]. apply orb_false_iff in H as [H1 H2]. by apply negb_false_iff in H1.
    + by apply not_elem_of_nil in H.
    + by apply not_elem_of_nil in H.
  - rewrite status_offers in H. by apply not_elem_of_nil in H.
Qed.

Lemma unblocked s : blocked s = false → vm_phase (vm s) ≠ "running" ∧ action_busy s = false.
Proof. unfold blocked. intros [H1 H2]%orb_false_iff. by apply String.eqb_neq in H1. Qed.

Lemma form_valid_texts s : rows_inv s → blocked s = false → form_valid s = true →
  integerError (int_text (cpus_row s)) 1 MAX_SAFE_INTEGER = "" ∧ digits_value (int_text (cpus_row s)) = cpus (draft_value s) ∧
  memory_amount (mem_text (mem_row s)) = Some (memory_mib (draft_value s)).
Proof.
  intros (Hc & Hcv & Hm & Hmv) Hb Hf. unfold form_valid in Hf. rewrite Hb in Hf. cbn [orb] in Hf. apply andb_true_iff in Hf as [H1 H2].
  split_and!.
  - unfold integer_valid in H1. rewrite negb_true_iff in H1. by apply truthy_false in H1.
  - rewrite <- Hcv. by apply Hc.
  - rewrite <- Hmv. by apply Hm.
Qed.

Lemma submit_busy s : save_disabled s = false → action_busy (fst (step s (User Submit))) = true.
Proof.
  intros Hd. unfold save_disabled in Hd. unfold step. cbn [handle]. unfold save. rewrite Hd. cbn [fst].
  unfold action_busy, row_busy, settle, set_row. cbn [row]. done.
Qed.

(** C19. What is saved is what is shown: a save is sent only while the machine is stopped, no job of it is under
    way and the draft is neither unchanged nor in conflict, and it carries exactly the numbers that the
    valid texts of the two rows read as; whenever all that holds the control is there and sends it, and
    until the answer nothing of the form can be changed or sent again. *)
Theorem hardware_saves_shown v h l st s : reachable step (mount v h l st) s →
  (∀ a id d, a ∈ offers (view s) → UpdateHardware id d ∈ snd (step s (User a)) →
     a = Submit ∧ id = m_id (vm_manifest (vm s)) ∧ vm_phase (vm s) ≠ "running" ∧ action_busy s = false ∧
     d ≠ current (draft_form s) ∧ in_conflict s = false ∧
     integerError (int_text (cpus_row s)) 1 MAX_SAFE_INTEGER = "" ∧ digits_value (int_text (cpus_row s)) = cpus d ∧
     memory_amount (mem_text (mem_row s)) = Some (memory_mib d)) ∧
  (save_disabled s = false → form_valid s = true →
     Submit ∈ offers (view s) ∧ snd (step s (User Submit)) = [UpdateHardware (m_id (vm_manifest (vm s))) (draft_value s)] ∧
     ∀ a, a ∈ offers (view (fst (step s (User Submit)))) → a = RetryHost).
Proof.
  intros Hr. pose proof (hardware_reachable v h l st s Hr) as Hinv. split.
  - intros a id d Ha Ho. pose proof (view_offers s a Ha) as Hg. unfold step in Ho.
    destruct a; cbn [handle snd] in Ho; try (by apply not_elem_of_nil in Ho); [|by apply list_elem_of_singleton in Ho].
    destruct Hg as [Hd Hv]. unfold save in Ho. unfold save_disabled in Hd. rewrite Hd in Ho. cbn [snd] in Ho.
    apply list_elem_of_singleton in Ho. injection Ho as -> ->. apply orb_false_iff in Hd as [[Hb Hdirty]%orb_false_iff Hc].
    destruct (unblocked s Hb) as [Hph Hbusy]. apply negb_false_iff, dirty_spec in Hdirty.
    destruct (form_valid_texts s Hinv Hb Hv) as (H1 & H2 & H3). split_and!; done.
  - intros Hd Hv. split_and!.
    + unfold view. rewrite offers_box, !flat_map_app, !elem_of_app. do 4 right. left. cbn [flat_map]. rewrite !elem_of_app. right. left.
      rewrite elem_of_offers. split; [done|]. left. rewrite Hv. by apply list_elem_of_singleton.
    + unfold step. cbn [handle]. unfold save. unfold save_disabled in Hd. rewrite Hd. done.
    + intros a Ha. apply view_offers in Ha. pose proof (submit_busy s Hd) as Hb.
      assert (blocked (fst (step s (User Submit))) = true) as Hbl by (unfold blocked; rewrite Hb; by rewrite orb_true_r).
      destruct a; try done; try congruence.
      * destruct Ha as [Ha _]. unfold save_disabled in Ha. by rewrite Hbl in Ha.
      * destruct Ha as [_ Ha]. congruence.
Qed.

End hardware.

Definition sample_vm : VMView :=
  mkVMView 0 (mkVMManifest None None None 2 20 None "vm1" "img" None None 2048 "web" None None None "root") "stopped" 0.
Definition sample_hardware : state :=
  fst (run step (mount sample_vm (UseResource.mkView None "" true) [] (Some ∅)) [Typed EditCpus "04"; Typed EditMemory "1.5"]).

Lemma hardware_saves_shown_witness : snd (step sample_hardware (User Submit)) = [UpdateHardware "vm1" (mkHardwareDraft 4 1536)].
Proof.
  destruct (hardware_saves_shown sample_vm (UseResource.mkView None "" true) [] (Some ∅) sample_hardware) as [_ H].
  - eexists. reflexivity.
  - destruct H as (_ & H & _); [vm_compute; reflexivity|vm_compute; reflexivity|]. rewrite H. vm_compute. reflexivity.
Defined.
