(* ===== verification/Schedule.v ===== *)
(** * The schedule of backups ([src/web/src/components/VMBackupSchedule.tsx])

    A form without a [form]: its button saves whatever the rows last accepted, and every load of the
    schedule replaces what was edited. *)

From S2P Require Import Prelude JsString Regex Types UseResource Dom EntryRows.
Local Open Scope string_scope.

Record state := mkState {
  vmID : string;
  schedule : @UseResource.view (option BackupSchedule);
  enabled : bool;
  interval : integer_row;
  keepLast : integer_row;
  maxAgeDays : integer_row;
  saving : bool;
  save_error : string;
  saved : bool
}.

Inductive action := ToggleEnabled | EditInterval | EditKeepLast | EditMaxAge | Save.

Inductive event :=
  | Typed (a : action) (text : string)
  | User (a : action)
  | Loaded (v : @UseResource.view (option BackupSchedule)) (** the resource changed; its data too when it has a new object *)
  | Failed (v : @UseResource.view (option BackupSchedule)) (** the resource changed but for its data *)
  | Answered (answer : unit + string).

Inductive request := SetSchedule (id : string) (params : ScheduleParams) | RefreshSchedule.

Definition initial (id : string) : state :=
  mkState id (UseResource.mkView None "" true) false (integer_open 24) (integer_open 0) (integer_open 0) false "" false.

(** The effect on [schedule.data]. *)
Definition load (data : option BackupSchedule) (s : state) : state :=
  match data with
  | None => s
  | Some d =>
      mkState (vmID s) (schedule s) (bs_enabled d)
        (integer_assign (if (bs_interval_hours d =? 0)%Z then 24 else bs_interval_hours d) (interval s))
        (integer_assign (bs_keep_last d) (keepLast s)) (integer_assign (bs_max_age_days d) (maxAgeDays s))
        (saving s) (save_error s) (saved s)
  end.

Definition set_schedule (v : @UseResource.view (option BackupSchedule)) (s : state) : state :=
  mkState (vmID s) v (enabled s) (interval s) (keepLast s) (maxAgeDays s) (saving s) (save_error s) (saved s).
Definition set_enabled (b : bool) (s : state) : state :=
  mkState (vmID s) (schedule s) b (interval s) (keepLast s) (maxAgeDays s) (saving s) (save_error s) (saved s).
Definition set_rows (i k m : integer_row) (s : state) : state :=
  mkState (vmID s) (schedule s) (enabled s) i k m (saving s) (save_error s) (saved s).
Definition set_saving (b : bool) (e : string) (sv : bool) (s : state) : state :=
  mkState (vmID s) (schedule s) (enabled s) (interval s) (keepLast s) (maxAgeDays s) b e sv.

Definition valid (s : state) : bool := negb (enabled s) || (1 <=? int_value (interval s))%Z.

Definition params (s : state) : ScheduleParams :=
  mkScheduleParams (Some (enabled s)) (Some (int_value (interval s))) (Some (int_value (keepLast s))) (Some (int_value (maxAgeDays s))).

Definition save (s : state) : state * list request :=
  if saving s || negb (valid s) then (s, []) else (set_saving true "" false s, [SetSchedule (vmID s) (params s)]).

Definition typed (min : Z) (text : string) (r : integer_row) : integer_row := fst (integer_change min MAX_SAFE_INTEGER text r).

Definition step (s : state) (e : event) : state * list request :=
  match e with
  | Typed EditInterval text => (set_rows (typed 1 text (interval s)) (keepLast s) (maxAgeDays s) s, [])
  | Typed EditKeepLast text => (set_rows (interval s) (typed 0 text (keepLast s)) (maxAgeDays s) s, [])
  | Typed EditMaxAge text => (set_rows (interval s) (keepLast s) (typed 0 text (maxAgeDays s)) s, [])
  | User ToggleEnabled => (set_enabled (negb (enabled s)) s, [])
  | User Save => save s
  | Typed _ _ | User _ => (s, [])
  | Loaded v => (load (UseResource.data v) (set_schedule v s), [])
  | Failed v => (set_schedule v s, [])
  | Answered (inl _) => (set_saving false (save_error s) true s, [RefreshSchedule])
  | Answered (inr message) => (set_saving false message (saved s) s, [])
  end.

(** [lastRun] is the text of the last run, which the platform's calendar writes. *)
Definition view (lastRun : string) (s : state) : node action :=
  box "div"
    ([label "p" ("Last automatic backup: " ++ lastRun ++ ".")] ++
     when (truthy (UseResource.error (schedule s))) [label "NoticeBanner" (UseResource.error (schedule s))] ++
     when (truthy (save_error s)) [label "NoticeBanner" (save_error s)] ++
     when (saved s) [label "NoticeBanner" "Schedule saved."] ++
     [El "fieldset" [] (saving s) []
        [El "SwitchRow" [("title", "Enable scheduled backups")] false [ToggleEnabled] [];
         IntegerEntryRow "backup-interval" "Interval (hours)" 1 MAX_SAFE_INTEGER EditInterval (interval s);
         IntegerEntryRow "backup-keep-last" "Keep last (0 = unlimited)" 0 MAX_SAFE_INTEGER EditKeepLast (keepLast s);
         IntegerEntryRow "backup-max-age" "Delete older than (days, 0 = never)" 0 MAX_SAFE_INTEGER EditMaxAge (maxAgeDays s)];
      El "button" [] (saving s || negb (valid s)) [Save] [Text (if saving s then "Saving…" else "Save schedule")]])%list.

(** ** Properties *)

Definition rows_inv (s : state) : Prop :=
  integer_sync 1 MAX_SAFE_INTEGER (interval s) ∧ integer_sync 0 MAX_SAFE_INTEGER (keepLast s) ∧ integer_sync 0 MAX_SAFE_INTEGER (maxAgeDays s).

Lemma typed_sync min text r : integer_sync min MAX_SAFE_INTEGER r → integer_sync min MAX_SAFE_INTEGER (typed min text r).
Proof. apply integer_change_sync. Qed.

Lemma schedule_step_inv s e : rows_inv s → rows_inv (fst (step s e)).
Proof.
  intros (H1 & H2 & H3).
  destruct e as [[] text|[]|v|v|[]]; cbn; try (by split_and!); try (by split_and!; cbn; try apply typed_sync).
  - unfold save. by destruct (saving s || negb (valid s)).
  - unfold load. destruct (UseResource.data v) as [d|]; [|by split_and!]. split_and!; cbn; by apply integer_assign_sync.
Qed.

Lemma schedule_reachable id s : reachable step (initial id) s → rows_inv s.
Proof. apply reachable_invariant; [split_and!; apply integer_open_sync|apply schedule_step_inv]. Qed.

Lemma typed_rejected min text r : integerError text min MAX_SAFE_INTEGER ≠ "" →
  typed min text r = mkIntegerRow (int_value r) text true.
Proof. intros He. unfold typed, integer_change. by rewrite (proj2 (truthy_true _) He). Qed.

(** What a save of the schedule sends: only from its enabled button, one at a time, with an interval of at
    least an hour when backups are enabled, and for each row the number its text reads as where the row
    accepts the text; while it is under way nothing can be changed, and its end says so or says why not. *)
Theorem schedule_save_spec id lastRun s : reachable step (initial id) s →
  (Save ∈ offers (view lastRun s) → saving s = false ∧ valid s = true ∧ snd (step s (User Save)) = [SetSchedule (vmID s) (params s)] ∧
     offers (view lastRun (fst (step s (User Save)))) = []) ∧
  (Save ∉ offers (view lastRun s) → snd (step s (User Save)) = []) ∧
  (valid s = true → enabled s = true → 1 ≤ int_value (interval s))%Z ∧
  Forall (λ '(min, r), integerError (int_text r) min MAX_SAFE_INTEGER = "" → digits_value (int_text r) = int_value r)
    [(1%Z, interval s); (0%Z, keepLast s); (0%Z, maxAgeDays s)] ∧
  (∀ a, let s' := fst (step s (Answered a)) in saving s' = false ∧
     match a with inl _ => saved s' = true ∧ snd (step s (Answered a)) = [RefreshSchedule] | inr m => save_error s' = m ∧ saved s' = saved s end).
Proof.
  intros Hr. destruct (schedule_reachable id s Hr) as (H1 & H2 & H3).
  assert (∀ s, offers (view lastRun s) =
    ((if saving s then [] else [ToggleEnabled; EditInterval; EditKeepLast; EditMaxAge]) ++
     (if saving s || negb (valid s) then [] else [Save]))%list) as Hoff.
  { clear. intros s. unfold view. destruct (truthy (UseResource.error (schedule s))), (truthy (save_error s)), (saved s), (saving s), (valid s); reflexivity. }
  split_and!.
  - rewrite Hoff. intros Ha. assert (saving s = false ∧ valid s = true) as [Hs Hv].
    { destruct (saving s), (valid s); cbn in Ha; set_solver. }
    split_and!; [done|done| |].
    + cbn [step]. unfold save. by rewrite Hs, Hv.
    + rewrite Hoff. cbn [step]. unfold save. rewrite Hs, Hv. done.
  - rewrite Hoff. intros Ha. cbn [step]. unfold save. destruct (saving s); [done|]. destruct (valid s); [|done]. exfalso. apply Ha. set_solver.
  - unfold valid. intros Hv He. rewrite He in Hv. cbn in Hv. lia.
  - repeat constructor; intros He.
    + apply H1. unfold integer_valid. by rewrite He.
    + apply H2. unfold integer_valid. by rewrite He.
    + apply H3. unfold integer_valid. by rewrite He.
  - intros [[]|m]; by split_and!.
Qed.

Definition sample_schedule : state :=
  fst (run step (initial "vm1") [User ToggleEnabled; Typed EditInterval "12"]).

Lemma schedule_save_spec_witness :
  snd (step sample_schedule (User Save)) = [SetSchedule "vm1" (mkScheduleParams (Some true) (Some 12%Z) (Some 0%Z) (Some 0%Z))].
Proof.
  destruct (schedule_save_spec "vm1" "Never" sample_schedule) as (H & _); [by eexists|].
  destruct H as (_ & _ & H & _); [apply list_elem_of_In; vm_compute; tauto|]. rewrite H. vm_compute. reflexivity.
Defined.

(** The button saves although a row shows a text it does not accept: the number sent, and reported as
    saved, is not the one on the screen. *)
Lemma schedule_saves_hidden text : integerError text 1 MAX_SAFE_INTEGER ≠ "" →
  let s := fst (run step (initial "vm1") [User ToggleEnabled; Typed EditInterval text]) in
  int_text (interval s) = text ∧ integer_shown 1 MAX_SAFE_INTEGER (interval s) ≠ "" ∧ Save ∈ offers (view "Never" s) ∧
  snd (step s (User Save)) = [SetSchedule "vm1" (mkScheduleParams (Some true) (Some 24%Z) (Some 0%Z) (Some 0%Z))].
Proof.
  intros He. cbn [run step fst snd app]. unfold set_rows. cbn [interval keepLast maxAgeDays set_enabled initial]. rewrite typed_rejected by done.
  cbn zeta. split_and!; [done|done| |done]. apply list_elem_of_In. cbn. tauto.
Qed.

(** Any load of the schedule, one that an event about machines asks for included, throws away what was
    edited and not saved. *)
Lemma load_discards_edits d v : UseResource.data v = Some d →
  let s := fst (run step (initial "vm1") [Loaded v; Typed EditKeepLast (pretty (bs_keep_last d + 1)%Z); Loaded v]) in
  int_value (keepLast s) = bs_keep_last d.
Proof.
  intros Hd. cbn [run step fst snd]. unfold load. rewrite Hd. cbn [set_rows keepLast]. cbn. unfold integer_assign at 1.
  destruct (Z.eqb_spec (bs_keep_last d) (int_value (typed 0 (pretty (bs_keep_last d + 1)%Z) (integer_assign (bs_keep_last d) (integer_open 0))))); done.
Qed.
