(* ===== verification/VmActions.v ===== *)
(** * Power and deletion of a machine ([src/web/src/components/VMActions.tsx])

    The power button, the menu and the two confirmation dialogs of a machine, as a component that acts
    through its row. Where the menu is placed is layout; the focus of its items is [next_item]. *)

From S2P Require Import Prelude JsString Types Ux UseResource JobTracking Dom Widgets RowComponent.
Local Open Scope string_scope.

Inductive ConsoleMode := Serial | Graphical.
#[export] Instance ConsoleMode_eq_dec : EqDecision ConsoleMode.
Proof. solve_decision. Defined.

(** The requests, and what follows the await of each. *)
Inductive request := StartVM (id : string) | ShutdownVM (id : string) | StopVM (id : string) | DeleteVM (id : string).
Inductive continuation := AfterPower | AfterForceStop | AfterDelete.

Record properties := mkProps { vm : VMView; admin : bool }.

Record dialogs := mkDialogs { menu_open : bool; forceStop : bool; confirm : bool; consoleMode : option ConsoleMode }.

Inductive action :=
  | Power | ToggleMenu | ArrowDown | Escape | Tab
  | OpenForceStop | OpenConsole (m : ConsoleMode) | OpenDelete
  | CancelForceStop | ConfirmForceStop | CancelDelete | ConfirmDelete | CloseConsole.

#[export] Instance action_eq_dec : EqDecision action.
Proof. solve_decision. Defined.

(** A click elsewhere, a scroll or a change of size. *)
Inductive ambience := Dismissed.

Definition vm_id (p : properties) : string := m_id (vm_manifest (vm p)).
Definition vm_name (p : properties) : string := m_name (vm_manifest (vm p)).
Definition running (p : properties) : bool := String.eqb (vm_phase (vm p)) "running".

Definition set_menu (b : bool) (d : dialogs) : dialogs := mkDialogs b (forceStop d) (confirm d) (consoleMode d).
Definition set_forceStop (b : bool) (d : dialogs) : dialogs := mkDialogs (menu_open d) b (confirm d) (consoleMode d).
Definition set_confirm (b : bool) (d : dialogs) : dialogs := mkDialogs (menu_open d) (forceStop d) b (consoleMode d).
Definition set_console (m : option ConsoleMode) (d : dialogs) : dialogs := mkDialogs (menu_open d) (forceStop d) (confirm d) m.

(** [power] *)
Definition power (p : properties) : outcome dialogs continuation request :=
  Execute (if running p then "vm.shutdown" else "vm.start") AfterPower (if running p then ShutdownVM (vm_id p) else StartVM (vm_id p)).

Definition handle (p : properties) (v : row_view) (d : dialogs) (a : action) (text : string) : outcome dialogs continuation request :=
  match a with
  | Power => power p
  | ToggleMenu => Do (set_menu (negb (menu_open d)) d) []
  | ArrowDown => Do (set_menu true d) []
  | Escape | Tab => Do (set_menu false d) []
  | OpenForceStop => Do (set_forceStop true (set_menu false d)) []
  | OpenConsole m => Do (set_console (Some m) (set_menu false d)) []
  | OpenDelete => Do (set_confirm true (set_menu false d)) []
  | CancelForceStop => Do (set_forceStop false d) []
  | ConfirmForceStop => Execute "vm.stop" AfterForceStop (StopVM (vm_id p))
  | CancelDelete => Do (set_confirm false d) []
  | ConfirmDelete => Execute "vm.delete" AfterDelete (DeleteVM (vm_id p))
  | CloseConsole => Do (set_console None d) []
  end.

(** A job closes the dialog that asked for it. *)
Definition finish (k : continuation) (d : dialogs) : dialogs :=
  match k with
  | AfterPower => d
  | AfterForceStop => set_forceStop false d
  | AfterDelete => set_confirm false d
  end.

(** The item the arrow keys, Home and End move the focus to; [current] is [-1] when no item has it. The
    remainder has the sign of the dividend, as in the language. *)
Inductive menu_key := KeyUp | KeyDown | KeyHome | KeyEnd.
Definition next_item (key : menu_key) (current length : Z) : Z :=
  match key with
  | KeyHome => 0
  | KeyEnd => length - 1
  | KeyDown => Z.rem (current + 1 + length) length
  | KeyUp => Z.rem (current + -1 + length) length
  end.

Section view.
Context `{Hdialogs : !AlertDialogs}.

Definition menu (p : properties) (busy : bool) : node action :=
  El "div" [("role", "menu"); ("aria-label", ("Actions for " ++ vm_name p)%string)] false [Escape; Tab]
    (when (running p) [button "Force Stop…" busy OpenForceStop] ++
     [button "Graphical console" (negb (running p) || busy) (OpenConsole Graphical);
      button "Serial console" (negb (running p) || busy) (OpenConsole Serial);
      button "Delete…" (running p || busy) OpenDelete])%list.

Definition VMConsoleDialog (p : properties) (m : ConsoleMode) : node action :=
  El "Dialog" [("title", vm_name p ++ ": " ++ match m with Serial => "Serial" | Graphical => "Graphical" end ++ " console")]
    false [CloseConsole] [].

Definition render (p : properties) (v : row_view) (d : dialogs) : node action :=
  let busy := rv_busy v in
  if negb (admin p) then label "span" "Read only" else
  box "div"
    ([El "button" [] busy [Power] [Text (if busy then "Working…" else if running p then "Shut Down" else "Start")];
      El "button" [("aria-label", ("More actions for " ++ vm_name p)%string)] busy [ToggleMenu; ArrowDown] []] ++
     ActionStatus (rv_job v) (rv_error v) true ++
     when (menu_open d) [menu p busy] ++
     AlertDialog (mkAlert (forceStop d) busy ("Force Stop " ++ vm_name p ++ "?")%string
       "This immediately stops the VM. Unsaved work inside the guest may be lost. Try Shut Down first."
       "Force Stop" CancelForceStop ConfirmForceStop) ++
     AlertDialog (mkAlert (confirm d) busy ("Delete " ++ vm_name p ++ "?")%string
       "This permanently deletes the VM and all its virtual disks. Data inside those disks cannot be recovered through maco."
       "Delete" CancelDelete ConfirmDelete) ++
     match consoleMode d with Some m => when (running p) [VMConsoleDialog p m] | None => [] end)%list.

Definition VMActions : component properties dialogs action ambience continuation request := {|
  scope := "vm"; ident := vm_id; called := vm_name; act := handle;
  ambient _ d _ := set_menu false d; after := finish; RowComponent.render := render |}.

Definition start (p : properties) (jobs : list Job) : state properties dialogs continuation :=
  mount p jobs (mkDialogs false false false None).

(** ** Properties *)

Lemma menu_offers p busy a : a ∈ offers (menu p busy) →
  match a with
  | Escape | Tab => True
  | OpenForceStop | OpenConsole _ => running p = true ∧ busy = false
  | OpenDelete => running p = false ∧ busy = false
  | _ => False
  end.
Proof. unfold menu. destruct (running p), busy; cbn; destruct a; set_solver. Qed.

(** The controls and when they are there. *)
Lemma actions_offered p v d a : a ∈ offers (render p v d) → admin p = true ∧
  match a with
  | Power | ToggleMenu | ArrowDown => rv_busy v = false
  | Escape | Tab => menu_open d = true
  | OpenForceStop | OpenConsole _ => menu_open d = true ∧ running p = true ∧ rv_busy v = false
  | OpenDelete => menu_open d = true ∧ running p = false ∧ rv_busy v = false
  | CancelForceStop => forceStop d = true
  | ConfirmForceStop => forceStop d = true ∧ rv_busy v = false
  | CancelDelete => confirm d = true
  | ConfirmDelete => confirm d = true ∧ rv_busy v = false
  | CloseConsole => running p = true
  end.
Proof.
  unfold render. destruct (admin p); cbn [negb]; [|by intros ?%offers_label]. intros H. split; [done|]. revert H.
  rewrite offers_box, !flat_map_app, !elem_of_app, status_offers, flat_map_when.
  intros [H|[H|[H|[H|[H|H]]]]].
  - cbn in H. destruct (rv_busy v); cbn in H; set_solver.
  - by apply not_elem_of_nil in H.
  - destruct (menu_open d); [|by apply not_elem_of_nil in H]. cbn [flat_map] in H. rewrite app_nil_r in H.
    apply menu_offers in H. by destruct a.
  - apply alert_offers in H. cbn in H. destruct H as [Ho [->|[Hb ->]]]; done.
  - apply alert_offers in H. cbn in H. destruct H as [Ho [->|[Hb ->]]]; done.
  - destruct (consoleMode d) as [m|]; [|by apply not_elem_of_nil in H]. rewrite flat_map_when in H.
    destruct (running p); [|by apply not_elem_of_nil in H]. cbn in H. by apply list_elem_of_singleton in H as ->.
Qed.

#[export] Instance VMActions_guarded : Guarded VMActions.
Proof.
  intros p v d a text name k r Ha%actions_offered E. destruct Ha as [_ Ha].
  destruct a; cbn in E; try done; unfold power in E; simplify_eq; (split; [tauto|]); by destruct (running p).
Qed.

(** A dialog is open because its menu entry was used in a state that offered it, and it has been open
    since. *)
Lemma confirmed_since (Q : dialogs → bool) (o : action) (T : properties → Prop) p jobs es :
  Q (mkDialogs false false false None) = false →
  (∀ q v d a text d' rs, a ∈ offers (render q v d) → handle q v d a text = Do d' rs → Q d = false → Q d' = true → a = o ∧ T q) →
  (∀ d, Q (set_menu false d) = Q d) → (∀ k d, Q d = false → Q (finish k d) = false) →
  let init := start p jobs in
  legal (step VMActions) (view VMActions) user init es → Q (local (run (step VMActions) init es).1) = true →
  ∃ es1 text es2, es = (es1 ++ User o text :: es2)%list ∧ T (props (run (step VMActions) init es1).1) ∧
    ∀ es3, es3 `prefix_of` es2 → Q (local (run (step VMActions) init (es1 ++ User o text :: es3)%list).1) = true.
Proof.
  intros H0 Hh Hm Hf init Hl HQ.
  destruct (dialog_since VMActions (λ d, Q d = true) (λ q _ a, a = o ∧ T q) p jobs (mkDialogs false false false None) es)
    as (es1 & a & text & es2 & E & (-> & HT) & Hs); [| | | |done|done|by exists es1, text, es2].
  - by rewrite H0.
  - intros q v d a text d' rs Ha E Hn%not_true_iff_false. by eapply Hh.
  - intros q d b. cbn. by rewrite Hm.
  - intros k d. cbn. rewrite !not_true_iff_false. apply Hf.
Qed.

Lemma forceStop_since p jobs es : let init := start p jobs in
  legal (step VMActions) (view VMActions) user init es → forceStop (local (run (step VMActions) init es).1) = true →
  ∃ es1 text es2, es = (es1 ++ User OpenForceStop text :: es2)%list ∧
    (admin (props (run (step VMActions) init es1).1) = true ∧ running (props (run (step VMActions) init es1).1) = true) ∧
    ∀ es3, es3 `prefix_of` es2 → forceStop (local (run (step VMActions) init (es1 ++ User OpenForceStop text :: es3)%list).1) = true.
Proof.
  apply (confirmed_since forceStop OpenForceStop (λ q, admin q = true ∧ running q = true)); try done; [|by intros []].
  intros q v d a text d' rs Ha%actions_offered E Hq Hq'. destruct a; cbn in E; unfold power in E; simplify_eq; cbn in Hq'; try congruence. tauto.
Qed.

Lemma confirm_since p jobs es : let init := start p jobs in
  legal (step VMActions) (view VMActions) user init es → confirm (local (run (step VMActions) init es).1) = true →
  ∃ es1 text es2, es = (es1 ++ User OpenDelete text :: es2)%list ∧
    (admin (props (run (step VMActions) init es1).1) = true ∧ running (props (run (step VMActions) init es1).1) = false) ∧
    ∀ es3, es3 `prefix_of` es2 → confirm (local (run (step VMActions) init (es1 ++ User OpenDelete text :: es3)%list).1) = true.
Proof.
  apply (confirmed_since confirm OpenDelete (λ q, admin q = true ∧ running q = false)); try done; [|by intros []].
  intros q v d a text d' rs Ha%actions_offered E Hq Hq'. destruct a; cbn in E; unfold power in E; simplify_eq; cbn in Hq'; try congruence. tauto.
Qed.

(** C22. Power and deletion are in the hands of an administrator, one request at a time, and what cannot be
    undone is asked for twice: whatever the user does through the controls and whatever changes meanwhile,
    a forced stop is sent only by confirming a dialog that the user opened from the menu of a running
    machine and that has stayed open since, a deletion only by confirming one opened while the machine was
    not running; starting and shutting down follow the state shown, and each request names the machine
    shown. *)
Theorem vm_actions_safety p jobs es a text r :
  let init := start p jobs in
  let s := (run (step VMActions) init es).1 in
  legal (step VMActions) (view VMActions) user init es → a ∈ offers (view VMActions s) → r ∈ snd (step VMActions s (User a text)) →
  admin (props s) = true ∧ busy VMActions s = false ∧ awaiting s = [] ∧
  snd (step VMActions s (User a text)) = [r] ∧ busy VMActions (fst (step VMActions s (User a text))) = true ∧
  match r with
  | StartVM id => a = Power ∧ id = vm_id (props s) ∧ running (props s) = false
  | ShutdownVM id => a = Power ∧ id = vm_id (props s) ∧ running (props s) = true
  | StopVM id => a = ConfirmForceStop ∧ id = vm_id (props s) ∧
      ∃ es1 text es2, es = (es1 ++ User OpenForceStop text :: es2)%list ∧
        (admin (props (run (step VMActions) init es1).1) = true ∧ running (props (run (step VMActions) init es1).1) = true) ∧
        ∀ es3, es3 `prefix_of` es2 → forceStop (local (run (step VMActions) init (es1 ++ User OpenForceStop text :: es3)%list).1) = true
  | DeleteVM id => a = ConfirmDelete ∧ id = vm_id (props s) ∧
      ∃ es1 text es2, es = (es1 ++ User OpenDelete text :: es2)%list ∧
        (admin (props (run (step VMActions) init es1).1) = true ∧ running (props (run (step VMActions) init es1).1) = false) ∧
        ∀ es3, es3 `prefix_of` es2 → confirm (local (run (step VMActions) init (es1 ++ User OpenDelete text :: es3)%list).1) = true
  end.
Proof.
  cbn zeta. intros Hl Ha Hr. pose proof (forceStop_since p jobs es Hl) as Hf. pose proof (confirm_since p jobs es Hl) as Hc.
  unfold start in *. set (s := (run (step VMActions) (mount p jobs (mkDialogs false false false None)) es).1) in *.
  destruct (legal_requests VMActions p jobs _ es a text r Hl Ha Hr) as [(d & rs & E & Hrs)|((name & k & E) & Hb & Hw & Hs & Hb')]; fold s in E.
  { destruct a; cbn in E; simplify_eq; by apply not_elem_of_nil in Hrs. }
  apply actions_offered in Ha as [Had Ha].
  split_and!; try done. destruct a; cbn in E; unfold power in E; simplify_eq; try done.
  - by destruct (running _) eqn:Er.
  - split_and!; [done..|]. apply Hf. tauto.
  - split_and!; [done..|]. apply Hc. tauto.
Qed.
End view.

(** The keys of the menu stay within its items. *)
Lemma next_item_range key current length : (0 < length → -1 ≤ current < length → 0 ≤ next_item key current length < length)%Z.
Proof.
  intros Hl Hc. destruct key; cbn; try lia.
  - destruct (decide (length = 1 ∧ current = -1)%Z) as [[-> ->]|]; [by vm_compute|].
    rewrite Z.rem_mod_nonneg by lia. apply Z.mod_pos_bound. lia.
  - rewrite Z.rem_mod_nonneg by lia. apply Z.mod_pos_bound. lia.
Qed.

Definition sample_machine (phase : string) : VMView :=
  mkVMView 0 (mkVMManifest None None None 2 20 None "vm1" "img" None None 2048 "web" None None None "root") phase 0.

(** The dialog of a machine that has stopped meanwhile still asks for a forced stop. *)
Definition sample_events : list (event properties action ambience) :=
  [User ToggleMenu ""; User OpenForceStop ""; PropsChanged (mkProps (sample_machine "stopped") true)].

Lemma vm_actions_safety_witness :
  ∃ es1 text es2, sample_events = (es1 ++ User OpenForceStop text :: es2)%list.
Proof.
  destruct (vm_actions_safety (Hdialogs := plain_dialogs) (mkProps (sample_machine "running") true) [] sample_events ConfirmForceStop "" (StopVM "vm1"))
    as (_ & _ & _ & _ & _ & _ & _ & es1 & text & es2 & H & _); [| | |by exists es1, text, es2].
  - legal_run.
  - apply list_elem_of_In; vm_compute; tauto.
  - by left.
Defined.
