(* ===== verification/ServerNetworks.v ===== *)
(** * The server's rules for networks and adapters

    What [src/pkg/network/store.go], [src/pkg/engine/network.go] and [src/pkg/engine/vm_interfaces.go] ask
    of the networks and adapters that the console sends, on the manifests they load: looking a network up,
    the adapters a machine may have, and the change of one. Files, locks and host configuration are
    outside. A field that Go keeps empty is an absent property in JSON. *)

From S2P Require Import Prelude JsString Regex Types Ux.
Local Open Scope string_scope.

(** ** Networks by reference *)

(** [Store.Resolve]: the network with that identifier, or else the first one with that name. *)
Definition Resolve (nets : list Network) (ref : string) : option Network :=
  match List.find (λ n, String.eqb (net_id n) ref) nets with
  | Some n => Some n
  | None => List.find (λ n, String.eqb (net_name n) ref) nets
  end.

Lemma Resolve_id nets n : NoDup (net_id <$> nets) → n ∈ nets → Resolve nets (net_id n) = Some n.
Proof.
  intros Hn Hin. unfold Resolve. enough (List.find (λ m, String.eqb (net_id m) (net_id n)) nets = Some n) as -> by done.
  induction nets as [|m nets IH]; [by apply not_elem_of_nil in Hin|]. cbn in Hn |- *. apply NoDup_cons in Hn as [Hm Hn].
  apply elem_of_cons in Hin as [->|Hin]; [by rewrite String.eqb_refl|].
  destruct (String.eqb_spec (net_id m) (net_id n)) as [E|]; [|auto]. exfalso. apply Hm. rewrite E. apply list_elem_of_fmap. eauto.
Qed.

Definition builtin_refs : list string := ["user"; "vmnet-shared"; "vmnet-host"].

(** The network of an adapter as it is saved. *)
Definition adapter_network (nets : list Network) (ref : string) : string + string :=
  let ref := ref ||s "user" in
  if includes_str builtin_refs ref then inl ref
  else match Resolve nets ref with
       | None => inr "network not found"
       | Some n => if decide (net_mode n = ModeVlan) then inr "connect to a bridge containing the VLAN" else inl (net_id n)
       end.

(** ** Ethernet addresses *)

Definition hex_value (c : ascii) : option Z :=
  if is_digit c then Some (Z.of_N (code c) - 48)%Z
  else if in_range 97 102 c then Some (Z.of_N (code c) - 87)%Z
  else if in_range 65 70 c then Some (Z.of_N (code c) - 55)%Z
  else None.

Definition hex_byte (a b : ascii) : option Z := x ← hex_value a; y ← hex_value b; Some (x * 16 + y)%Z.

(** Bytes of two hexadecimal digits with a separator between them. *)
Fixpoint mac_bytes (sep : ascii) (l : list ascii) : option (list Z) :=
  match l with
  | a :: b :: r =>
      x ← hex_byte a b;
      match r with
      | [] => Some [x]
      | c :: r => if Ascii.eqb c sep then y ← mac_bytes sep r; Some (x :: y) else None
      end
  | _ => None
  end.

Definition dotted_bytes (l : list ascii) : option (list Z) :=
  match l with
  | [a1; a2; a3; a4; p; b1; b2; b3; b4; q; c1; c2; c3; c4] =>
      if Ascii.eqb p "."%char && Ascii.eqb q "."%char then
        x1 ← hex_byte a1 a2; x2 ← hex_byte a3 a4; x3 ← hex_byte b1 b2; x4 ← hex_byte b3 b4; x5 ← hex_byte c1 c2; x6 ← hex_byte c3 c4;
        Some [x1; x2; x3; x4; x5; x6]
      else None
  | _ => None
  end.

(** [net.ParseMAC] where it returns six bytes. *)
Definition ParseMAC (s : string) : option (list Z) :=
  let l := chars s in
  match length l, l !! 2 with
  | 17, Some c => if Ascii.eqb c ":"%char || Ascii.eqb c "-"%char then mac_bytes c l else None
  | 14, _ => dotted_bytes l
  | _, _ => None
  end%nat.

Definition hex_digit (d : Z) : ascii := ascii_of_N (Z.to_N (if (d <? 10)%Z then d + 48 else d + 87)).
(** [HardwareAddr.String] *)
Definition mac_string (bytes : list Z) : string :=
  join ":" ((λ b, unchars [hex_digit (b / 16); hex_digit (b mod 16)]) <$> bytes).

Definition unicast (bytes : list Z) : bool := match bytes with b :: _ => negb (Z.odd b) | [] => true end.

(** ** The adapters of a machine *)

Section adapters.
(** [MAC] hashes the identifier of the machine, or of the machine and the adapter. *)
Context (MAC : string → string).
Context (nets : list Network) (vmID : string).

Definition InterfaceMAC (id : string) : string := if String.eqb id "net0" then MAC vmID else MAC (vmID ++ ":" ++ id).

(** [/^net([0-9]|[1-2][0-9]|3[0-1])$/] *)
Definition interface_ids : list string := (λ i, "net" ++ pretty i) <$> seq 0 32.
Definition interfaceID (id : string) : bool := includes_str interface_ids id.

Definition nic_addr (nic : VMInterface) : string := nic_mac nic |?| "".

(** The loop of [normalizedInterfaces]. *)
Fixpoint normalize (ids macs : list string) (l : list VMInterface) : list VMInterface + string :=
  match l with
  | [] => inl []
  | nic :: r =>
      if negb (interfaceID (nic_id nic)) || includes_str ids (nic_id nic) then inr "invalid or duplicate interface ID"
      else match ParseMAC (nic_addr nic ||s InterfaceMAC (nic_id nic)) with
      | None => inr "interface MAC must be a unicast Ethernet address"
      | Some bytes =>
          if negb (unicast bytes) then inr "interface MAC must be a unicast Ethernet address"
          else if includes_str macs (mac_string bytes) then inr "duplicate interface MAC"
          else match adapter_network nets (nic_network nic) with
          | inr e => inr e
          | inl ref =>
              match normalize (nic_id nic :: ids) (mac_string bytes :: macs) r with
              | inr e => inr e
              | inl r => inl (mkVMInterface (nic_addresses nic) (nic_id nic) (Some (mac_string bytes)) ref :: r)
              end
          end
      end
  end.

Definition normalizedInterfaces (l : list VMInterface) : list VMInterface + string :=
  if (32 <? length l)%nat then inr "at most 32 interfaces are supported" else normalize [] [] l.

(** [EffectiveInterfaces], with the adapters' addresses filled in as [ManageInterfaceContext] does. *)
Definition EffectiveInterfaces (m : VMManifest) : list VMInterface :=
  match m_interfaces m with
  | Some l => l
  | None => [mkVMInterface (m_addresses m) "net0" None (m_network m |?| "")]
  end.
Definition previous_interfaces (m : VMManifest) : list VMInterface :=
  (λ nic, mkVMInterface (nic_addresses nic) (nic_id nic) (Some (nic_addr nic ||s InterfaceMAC (nic_id nic)))
     (nic_network nic ||s "user")) <$> EffectiveInterfaces m.

Inductive interface_action := AddNic | UpdateNic | RemoveNic.

(** The first free identifier. *)
Definition free_id (l : list VMInterface) : option string :=
  List.find (λ id, negb (includes_str (nic_id <$> l) id)) interface_ids.

Definition update_nic (id network mac : string) (nic : VMInterface) : VMInterface :=
  mkVMInterface (nic_addresses nic) (nic_id nic) (if truthy mac then Some mac else nic_mac nic) network.

(** The first element that satisfies the test, replaced or taken out. *)
Fixpoint alter_first {A} (f : A → bool) (g : A → option A) (l : list A) : list A :=
  match l with
  | [] => []
  | x :: r => if f x then match g x with Some y => y :: r | None => r end else x :: alter_first f g r
  end.

(** The adapters that [ManageInterfaceContext] saves. *)
Definition manage_interfaces (m : VMManifest) (action : interface_action) (id network mac : string) : list VMInterface + string :=
  let l := previous_interfaces m in
  match action with
  | AddNic =>
      match free_id l with
      | None => inr "at most 32 interfaces are supported"
      | Some id => normalizedInterfaces (l ++ [mkVMInterface None id (if truthy mac then Some mac else None) network])%list
      end
  | UpdateNic =>
      if existsb (λ nic, String.eqb (nic_id nic) id) l
      then normalizedInterfaces (alter_first (λ nic, String.eqb (nic_id nic) id) (λ nic, Some (update_nic id network mac nic)) l)
      else inr "interface not found"
  | RemoveNic =>
      if existsb (λ nic, String.eqb (nic_id nic) id) l
      then normalizedInterfaces (alter_first (λ nic, String.eqb (nic_id nic) id) (λ _, None) l)
      else inr "interface not found"
  end.
End adapters.

Example parse_mac : ParseMAC "02:00:00:AB:cd:01" = Some [2; 0; 0; 171; 205; 1]%Z. Proof. reflexivity. Qed.
Example print_mac : mac_string [2; 0; 0; 171; 205; 1]%Z = "02:00:00:ab:cd:01". Proof. reflexivity. Qed.

(** ** What the rules accept *)

(** What holds of each of the 256 characters. *)
Lemma all_ascii (f : ascii → bool) : forallb (λ n, f (ascii_of_nat n)) (seq 0 256) = true → ∀ c, f c = true.
Proof.
  intros Hf c. rewrite forallb_forall in Hf. rewrite <- (ascii_nat_embedding c). apply Hf, in_seq.
  pose proof (nat_ascii_bounded c). lia.
Qed.

Lemma hex_value_range c x : hex_value c = Some x → (0 ≤ x < 16)%Z.
Proof.
  pose proof (all_ascii (λ c, match hex_value c with Some x => (0 <=? x)%Z && (x <? 16)%Z | None => true end) eq_refl c) as H.
  intros E. cbn beta in H. rewrite E in H. unbool. lia.
Qed.

Lemma is_hex_value c : is_hex c = true → ∃ x, hex_value c = Some x.
Proof.
  pose proof (all_ascii (λ c, implb (is_hex c) (bool_decide (is_Some (hex_value c)))) eq_refl c) as H.
  intros E. cbn beta in H. rewrite E in H. cbn in H. by apply bool_decide_eq_true in H.
Qed.

Lemma hex_value_digit d : (0 ≤ d < 16)%Z → hex_value (hex_digit d) = Some d.
Proof.
  intros Hd. assert (forallb (λ n, bool_decide (hex_value (hex_digit (Z.of_nat n)) = Some (Z.of_nat n))) (seq 0 16) = true) as H by (by vm_compute).
  rewrite forallb_forall in H. specialize (H (Z.to_nat d)). rewrite Z2Nat.id in H by lia. apply (bool_decide_eq_true _), H, in_seq. lia.
Qed.

Definition byte (b : Z) : Prop := (0 ≤ b < 256)%Z.

Lemma hex_byte_digits b : byte b → hex_byte (hex_digit (b / 16)) (hex_digit (b mod 16)) = Some b.
Proof.
  unfold byte. intros Hb. unfold hex_byte. rewrite !hex_value_digit; [|split; [apply Z.div_pos; lia|apply Z.div_lt_upper_bound; lia]|apply Z.mod_pos_bound; lia].
  cbn. f_equal. pose proof (Z.div_mod b 16). lia.
Qed.

Lemma hex_byte_some a b : is_hex a = true → is_hex b = true → ∃ x, hex_byte a b = Some x ∧ byte x.
Proof.
  intros [x Hx]%is_hex_value [y Hy]%is_hex_value. unfold hex_byte. rewrite Hx, Hy. eexists. split; [done|].
  apply hex_value_range in Hx, Hy. unfold byte. lia.
Qed.

(** An address of six bytes reads back as it was written. *)
Lemma ParseMAC_string bytes : length bytes = 6 → Forall byte bytes → ParseMAC (mac_string bytes) = Some bytes.
Proof.
  intros Hl Hb. destruct bytes as [|b1 [|b2 [|b3 [|b4 [|b5 [|b6 [|]]]]]]]; try done.
  repeat match goal with H : Forall _ (_ :: _) |- _ => apply Forall_cons in H as [? H] end.
  unfold mac_string, ParseMAC. cbn -[hex_digit hex_byte Z.div Z.modulo]. by rewrite !hex_byte_digits.
Qed.

(** The pairs of a text the console accepts are an address for the server. *)
Lemma ParseMAC_pairs ps : length ps = 6 → Forall hex_pair ps → ∃ bytes, ParseMAC (join ":" ps) = Some bytes ∧ length bytes = 6 ∧ Forall byte bytes.
Proof.
  intros Hl Hp.
  assert (∀ p, hex_pair p → ∃ a b x, p = String a (String b "") ∧ hex_byte a b = Some x ∧ byte x) as Hpair.
  { intros [|a [|b [|]]] [H1 H2]; try done. cbn in H2. unbool. destruct (hex_byte_some a b) as (x & ? & ?); [done..|]. by exists a, b, x. }
  destruct ps as [|p1 [|p2 [|p3 [|p4 [|p5 [|p6 [|]]]]]]]; try done.
  rewrite !Forall_cons in Hp. destruct Hp as (H1 & H2 & H3 & H4 & H5 & H6 & _).
  apply Hpair in H1 as (a1 & b1 & x1 & -> & E1 & ?), H2 as (a2 & b2 & x2 & -> & E2 & ?), H3 as (a3 & b3 & x3 & -> & E3 & ?),
    H4 as (a4 & b4 & x4 & -> & E4 & ?), H5 as (a5 & b5 & x5 & -> & E5 & ?), H6 as (a6 & b6 & x6 & -> & E6 & ?).
  exists [x1; x2; x3; x4; x5; x6]. split; [|split; [done|rewrite !Forall_cons; split_and!; done || apply Forall_nil_2]].
  unfold ParseMAC. cbn -[hex_byte]. rewrite E1, E2, E3, E4, E5, E6. reflexivity.
Qed.

(** ** The adapters the rules accept *)

Lemma mac_string_inj b1 b2 : length b1 = 6 → length b2 = 6 → Forall byte b1 → Forall byte b2 → mac_string b1 = mac_string b2 → b1 = b2.
Proof. intros H1 H2 F1 F2 E. apply (inj Some). by rewrite <- (ParseMAC_string b1), <- (ParseMAC_string b2), E. Qed.

(** What [ParseMAC] returns are six bytes. *)
Lemma hex_byte_range a b x : hex_byte a b = Some x → byte x.
Proof.
  unfold hex_byte. destruct (hex_value a) as [u|] eqn:Eu; [|done]. cbn. destruct (hex_value b) as [v|] eqn:Ev; [|done]. cbn.
  intros [= <-]. apply hex_value_range in Eu, Ev. unfold byte. lia.
Qed.

Lemma mac_bytes_range sep l bytes : mac_bytes sep l = Some bytes → Forall byte bytes ∧ length l + 1 = 3 * length bytes.
Proof.
  revert bytes. induction l as [l IH] using (induction_ltof1 _ length). unfold ltof in IH. intros bytes.
  destruct l as [|a [|b r]]; [done|done|]. cbn. destruct (hex_byte a b) as [x|] eqn:Ex; [|done]. cbn. apply hex_byte_range in Ex.
  destruct r as [|c r]; [intros [= <-]; split; [by constructor|done]|].
  destruct (Ascii.eqb c sep); [|done]. destruct (mac_bytes sep r) as [y|] eqn:Ey; [|done]. intros [= <-].
  destruct (IH r) with (bytes := y) as [Hf Hl]; [cbn; lia|done|]. split; [by constructor|]. cbn. lia.
Qed.

Lemma ParseMAC_bytes s bytes : ParseMAC s = Some bytes → length bytes = 6 ∧ Forall byte bytes.
Proof.
  unfold ParseMAC. destruct (decide (length (chars s) = 17)) as [E|E17].
  - rewrite E. destruct (chars s !! 2) as [c|]; [|done]. destruct (_ || _); [|done]. intros [Hf Hl]%mac_bytes_range. split; [lia|done].
  - destruct (decide (length (chars s) = 14)) as [E|E14].
    + rewrite E. intros H. assert (dotted_bytes (chars s) = Some bytes) as Hd by (by destruct (chars s !! 2)).
      destruct (chars s) as [|a1 [|a2 [|a3 [|a4 [|p [|b1 [|b2 [|b3 [|b4 [|q [|c1 [|c2 [|c3 [|c4 [|]]]]]]]]]]]]]]]; try done.
      cbn in Hd. destruct (_ && _); [|done].
      repeat match type of Hd with context [hex_byte ?a ?b] => destruct (hex_byte a b) eqn:?; [|done]; cbn in Hd end.
      injection Hd as <-. split; [done|]. rewrite !Forall_cons. split_and!; by eapply hex_byte_range || apply Forall_nil_2.
    + intros H. exfalso. revert H E17 E14. destruct (length (chars s)) as [|n]; [done|].
      do 17 (destruct n as [|n]; [by destruct (chars s !! 2)|]). by destruct (chars s !! 2).
Qed.

Lemma NoDup_split {A} (f : A → string) l1 x l2 k1 y k2 :
  NoDup (f <$> (l1 ++ x :: l2)%list) → (l1 ++ x :: l2)%list = (k1 ++ y :: k2)%list → f x = f y → l1 = k1 ∧ x = y ∧ l2 = k2.
Proof.
  revert k1. induction l1 as [|z l1 IH]; intros [|w k1]; cbn; intros Hn E Hf; simplify_eq; try done.
  - apply NoDup_cons in Hn as [Hn _]. exfalso. apply Hn. rewrite Hf. apply list_elem_of_fmap. exists y. set_solver.
  - apply NoDup_cons in Hn as [Hn _]. exfalso. apply Hn. rewrite <- Hf. apply list_elem_of_fmap. exists x. set_solver.
  - apply NoDup_cons in Hn as [_ Hn]. edestruct IH as (-> & -> & ->); by eauto.
Qed.

Lemma alter_first_spec {A} (f : A → bool) (g : A → A) l : existsb f l = true →
  ∃ l1 x l2, l = (l1 ++ x :: l2)%list ∧ f x = true ∧ alter_first f (λ x, Some (g x)) l = (l1 ++ g x :: l2)%list ∧
    alter_first f (λ _, None) l = (l1 ++ l2)%list.
Proof.
  induction l as [|x l IH]; [done|]. cbn. destruct (f x) eqn:E; [intros _; by exists [], x, l|]. intros H.
  destruct (IH H) as (l1 & y & l2 & -> & Hy & -> & ->). by exists (x :: l1), y, l2.
Qed.

Section rules.
Context (MAC : string → string) (nets : list Network) (vmID : string).

(** An adapter and the form in which it is saved. *)
Definition nic_saved (nic saved : VMInterface) : Prop :=
  interfaceID (nic_id nic) = true ∧
  ∃ bytes ref, ParseMAC (nic_addr nic ||s InterfaceMAC MAC vmID (nic_id nic)) = Some bytes ∧ unicast bytes = true ∧
    adapter_network nets (nic_network nic) = inl ref ∧
    saved = mkVMInterface (nic_addresses nic) (nic_id nic) (Some (mac_string bytes)) ref.

Lemma nic_saved_id nic saved : nic_saved nic saved → nic_id saved = nic_id nic.
Proof. by intros (_ & bytes & ref & _ & _ & _ & ->). Qed.

Lemma normalize_cons ids macs nic l l' :
  normalize MAC nets vmID ids macs (nic :: l) = inl l' ↔
  ∃ saved m r, l' = saved :: r ∧ nic_saved nic saved ∧ nic_id nic ∉ ids ∧ nic_mac saved = Some m ∧ m ∉ macs ∧
    normalize MAC nets vmID (nic_id nic :: ids) (m :: macs) l = inl r.
Proof.
  cbn [normalize]. split.
  - destruct (negb _ || _) eqn:Ei; [done|]. apply orb_false_iff in Ei as [Ei1%negb_false_iff Ei2%includes_str_false].
    destruct (ParseMAC _) as [b|] eqn:Eb; [|done]. destruct (unicast b) eqn:Eu; [|done]. cbn [negb].
    destruct (includes_str _ _) eqn:Ed; [done|]. apply includes_str_false in Ed.
    destruct (adapter_network _ _) as [ref|] eqn:En; [|done]. destruct (normalize _ _ _ _ _ l) as [r|] eqn:Er; [|done].
    intros [= <-]. eexists _, _, r. split_and!; [done| |done|done|done|done]. split; [done|]. by exists b, ref.
  - intros (saved & m & r & -> & (Hi & b & ref & Eb & Eu & En & ->) & Hids & [= <-] & Hm & Hr).
    by rewrite Hi, (proj2 (includes_str_false _ _) Hids), Eb, Eu, (proj2 (includes_str_false _ _) Hm), En, Hr.
Qed.

(** The rules: valid identifiers used once, unicast addresses used once, networks that an adapter can
    join. *)
Lemma normalize_spec ids macs l l' :
  normalize MAC nets vmID ids macs l = inl l' ↔
  Forall2 nic_saved l l' ∧ NoDup (nic_id <$> l) ∧ (∀ id, id ∈ nic_id <$> l → id ∉ ids) ∧
  NoDup (nic_mac <$> l') ∧ (∀ m, Some m ∈ nic_mac <$> l' → m ∉ macs).
Proof.
  revert ids macs l'. induction l as [|nic l IH]; intros ids macs l'.
  { cbn. split; [intros [= <-]|by intros (->%Forall2_nil_inv_l & _)]. split_and!; try constructor; by intros ? ?%not_elem_of_nil. }
  rewrite normalize_cons. setoid_rewrite IH. split.
  - intros (s & m & r & -> & Hs & Hi & Em & Hm & Hf & H1 & H2 & H3 & H4). rewrite !fmap_cons, Em. split_and!; [by constructor| | | |].
    + constructor; [|done]. intros Hin. apply (H2 _ Hin). by left.
    + intros id [->|Hin]%elem_of_cons; [done|]. intros ?. apply (H2 id Hin). by right.
    + constructor; [|done]. intros Hin. apply (H4 _ Hin). by left.
    + intros m' [[= ->]|Hin]%elem_of_cons; [done|]. intros ?. apply (H4 m' Hin). by right.
  - intros (Hf & H1 & H2 & H3 & H4). apply Forall2_cons_inv_l in Hf as (s & r & Hs & Hf & ->).
    assert (∃ m, nic_mac s = Some m) as [m Em] by (destruct Hs as (_ & b & ref & _ & _ & _ & ->); cbn; eauto).
    rewrite !fmap_cons in *. rewrite Em in *. apply NoDup_cons in H1 as [H1 H1'], H3 as [H3 H3'].
    exists s, m, r. split_and!; try done; [apply H2; by left|apply H4; by left| |].
    + intros id Hin [->|Hin']%elem_of_cons; [done|]. apply (H2 id); [by right|done].
    + intros m' Hin [->|Hin']%elem_of_cons; [done|]. apply (H4 m'); [by right|done].
Qed.

Lemma normalizedInterfaces_spec l l' : normalizedInterfaces MAC nets vmID l = inl l' ↔
  (length l ≤ 32)%nat ∧ Forall2 nic_saved l l' ∧ NoDup (nic_id <$> l) ∧ NoDup (nic_mac <$> l').
Proof.
  unfold normalizedInterfaces. destruct (Nat.ltb_spec 32 (length l)); [split; [done|]; intros [? _]; lia|].
  rewrite normalize_spec. split; [intros (? & ? & _ & ? & _); done|]. intros (_ & ? & ? & ?). split_and!; try done; intros ? _; apply not_elem_of_nil.
Qed.

(** The adapters of a machine as the server keeps them. *)
Definition adapters_saved (l : list VMInterface) : Prop := normalizedInterfaces MAC nets vmID l = inl l.

Lemma adapters_saved_spec l : adapters_saved l ↔
  (length l ≤ 32)%nat ∧ Forall (λ nic, nic_saved nic nic) l ∧ NoDup (nic_id <$> l) ∧ NoDup (nic_mac <$> l).
Proof. unfold adapters_saved. rewrite normalizedInterfaces_spec. assert (Forall2 nic_saved l l ↔ Forall (λ nic, nic_saved nic nic) l) as -> by (split; [induction l; inversion 1; subst; constructor; auto|apply Forall_Forall2_diag]). done. Qed.

(** An adapter as it is kept is not changed by the loop over the previous adapters. *)
Lemma previous_saved m l : m_interfaces m = Some l → vmID = m_id m → Forall (λ nic, nic_saved nic nic) l →
  previous_interfaces MAC vmID m = l.
Proof.
  intros Hm _ Hl. unfold previous_interfaces, EffectiveInterfaces. rewrite Hm. clear Hm.
  induction Hl as [|nic l (_ & b & ref & Hb & _ & Hn & E) Hl IH]; [done|]. cbn. rewrite IH. f_equal. clear IH Hl.
  destruct nic as [addrs id mac net]. cbn in *. injection E as -> ->.
  assert (mac_string b ≠ "") as Hne.
  { apply ParseMAC_bytes in Hb as [Hl _]. by destruct b as [|? [|]]. }
  unfold nic_addr. cbn. rewrite (str_or_nonempty _ _ Hne). f_equal.
  unfold adapter_network in Hn. apply str_or_nonempty. intros ->. cbn in Hn. done.
Qed.
(** A network that an adapter can join is kept as it is. *)
Lemma adapter_network_joinable n : NoDup (net_id <$> nets) → n ∈ nets → net_mode n ≠ ModeVlan → net_id n ≠ "" →
  adapter_network nets (net_id n) = inl (net_id n).
Proof.
  intros Hn Hin Hm Hid. unfold adapter_network. rewrite (str_or_nonempty _ _ Hid). destruct (includes_str _ _); [done|].
  rewrite (Resolve_id nets n Hn Hin). by rewrite decide_False.
Qed.

Lemma free_id_spec (l : list VMInterface) : (length l < 32)%nat → ∃ id, free_id l = Some id ∧ interfaceID id = true ∧ id ∉ nic_id <$> l.
Proof.
  intros Hl. unfold free_id. destruct (List.find _ interface_ids) as [id|] eqn:E.
  - exists id. split; [done|]. apply find_some_iff in E as [Hin Hf]. apply negb_true_iff, includes_str_false in Hf. split; [|done].
    by apply includes_str_spec.
  - exfalso. rewrite find_none_iff in E.
    assert (interface_ids ⊆ nic_id <$> l) as Hsub.
    { intros id Hid. specialize (E id Hid). by apply negb_false_iff, includes_str_spec in E. }
    assert (NoDup interface_ids) as Hn by (apply (bool_decide_unpack _); by vm_compute).
    apply NoDup_submseteq in Hsub; [|done]. apply submseteq_length in Hsub. rewrite length_fmap in Hsub. cbn in Hsub. lia.
Qed.

(** Adding an adapter to those of a machine. *)
Lemma add_accepted m l network mac : m_interfaces m = Some l → vmID = m_id m → adapters_saved l → (length l < 32)%nat →
  adapter_network nets network = inl network →
  (∀ id, ∃ b, ParseMAC (mac ||s InterfaceMAC MAC vmID id) = Some b ∧ unicast b = true ∧ Some (mac_string b) ∉ nic_mac <$> l) →
  ∃ id b, id ∉ nic_id <$> l ∧ ParseMAC (mac ||s InterfaceMAC MAC vmID id) = Some b ∧
    manage_interfaces MAC nets vmID m AddNic "" network mac = inl (l ++ [mkVMInterface None id (Some (mac_string b)) network])%list.
Proof.
  intros Hm Hid (Hlen & Hf & Hi & Hmac)%adapters_saved_spec Hl Hnet Hadr. unfold manage_interfaces. rewrite (previous_saved m l Hm Hid Hf).
  destruct (free_id_spec l Hl) as (id & -> & Hvalid & Hfresh). destruct (Hadr id) as (b & Hb & Hu & Hd).
  exists id, b. split_and!; [done..|]. apply normalizedInterfaces_spec. split_and!.
  - rewrite length_app. cbn. lia.
  - apply Forall2_app; [by apply Forall_Forall2_diag|]. constructor; [|done]. split; [done|]. exists b, network.
    split_and!; [|done..]. unfold nic_addr. cbn. destruct (truthy mac) eqn:E; [done|]. apply truthy_false in E as ->. done.
  - rewrite fmap_app. apply NoDup_app. split_and!; [done| |apply NoDup_singleton]. intros x Hx ->%list_elem_of_singleton. done.
  - rewrite fmap_app. apply NoDup_app. split_and!; [done| |apply NoDup_singleton]. intros x Hx ->%list_elem_of_singleton. done.
Qed.

(** Changing the adapter of a machine. *)
Lemma update_accepted m l id network mac l1 nic l2 : m_interfaces m = Some l → vmID = m_id m → adapters_saved l →
  l = (l1 ++ nic :: l2)%list → nic_id nic = id → adapter_network nets network = inl network →
  ∀ b, ParseMAC (mac ||s nic_addr nic) = Some b → unicast b = true → Some (mac_string b) ∉ nic_mac <$> (l1 ++ l2)%list →
  manage_interfaces MAC nets vmID m UpdateNic id network mac =
    inl (l1 ++ mkVMInterface (nic_addresses nic) id (Some (mac_string b)) network :: l2)%list.
Proof.
  intros Hm Hvm (Hlen & Hf & Hi & Hmac)%adapters_saved_spec -> Hid Hnet b Hb Hu Hd. unfold manage_interfaces.
  rewrite (previous_saved m _ Hm Hvm Hf).
  assert (existsb (λ n, String.eqb (nic_id n) id) (l1 ++ nic :: l2)%list = true) as Hex.
  { apply existsb_exists. exists nic. split; [apply in_or_app; right; by left|]. by apply String.eqb_eq. }
  rewrite Hex. destruct (alter_first_spec _ (update_nic id network mac) _ Hex) as (k1 & x & k2 & E & Hx & -> & _).
  apply String.eqb_eq in Hx.
  assert (k1 = l1 ∧ x = nic ∧ k2 = l2) as (-> & -> & ->).
  { apply (NoDup_split nic_id) in E as (-> & -> & ->); [done|done|congruence]. }
  apply normalizedInterfaces_spec. rewrite fmap_app, fmap_cons in Hi. rewrite fmap_app, fmap_cons in Hmac. rewrite !fmap_app, !fmap_cons. apply Forall_app in Hf as [Hf1 [Hf2 Hf3]%Forall_cons].
  split_and!.
  - rewrite length_app in *. done.
  - apply Forall2_app; [by apply Forall_Forall2_diag|]. constructor; [|by apply Forall_Forall2_diag].
    destruct Hf2 as (Hv & _). split; [done|]. exists b, network. split_and!; [|done|done|by rewrite <- Hid].
    assert (nic_addr (update_nic id network mac nic) = mac ||s nic_addr nic) as ->.
    { unfold nic_addr, update_nic, str_or. cbn. unfold truthy. by destruct (String.eqb mac ""). }
    rewrite (str_or_nonempty (mac ||s nic_addr nic)); [done|]. intros E0. by rewrite E0 in Hb.
  - done.
  - rewrite fmap_app in Hd. apply NoDup_app in Hmac as (H1 & H2 & H3). apply NoDup_cons in H3 as [H3 H4].
    apply NoDup_app. split_and!; [done| |apply NoDup_cons; split; [set_solver|done]].
    intros y Hy [->|Hy']%elem_of_cons; [apply Hd; set_solver|]. apply (H2 y Hy). by right.
Qed.
(** Removing the adapter of a machine. *)
Lemma remove_accepted m l id l1 nic l2 : m_interfaces m = Some l → vmID = m_id m → adapters_saved l →
  l = (l1 ++ nic :: l2)%list → nic_id nic = id →
  manage_interfaces MAC nets vmID m RemoveNic id "" "" = inl (l1 ++ l2)%list ∧ adapters_saved (l1 ++ l2)%list.
Proof.
  intros Hm Hvm (Hlen & Hf & Hi & Hmac)%adapters_saved_spec -> Hid.
  assert (adapters_saved (l1 ++ l2)%list) as Hs.
  { apply adapters_saved_spec. rewrite length_app in Hlen |- *. cbn in Hlen. apply Forall_app in Hf as [Hf1 [_ Hf2]%Forall_cons].
    rewrite fmap_app, fmap_cons in Hi. rewrite fmap_app, fmap_cons in Hmac. rewrite !fmap_app.
    apply NoDup_app in Hi as (H1 & H2 & [_ H3]%NoDup_cons), Hmac as (H4 & H5 & [_ H6]%NoDup_cons).
    split_and!; [lia|by apply Forall_app|apply NoDup_app|apply NoDup_app]; split_and!; set_solver. }
  split; [|done]. unfold manage_interfaces. rewrite (previous_saved m _ Hm Hvm Hf).
  assert (existsb (λ n, String.eqb (nic_id n) id) (l1 ++ nic :: l2)%list = true) as Hex.
  { apply existsb_exists. exists nic. split; [apply in_or_app; right; by left|]. by apply String.eqb_eq. }
  rewrite Hex. destruct (alter_first_spec _ (update_nic id "" "") _ Hex) as (k1 & x & k2 & E & Hx & _ & ->). apply String.eqb_eq in Hx.
  apply (NoDup_split nic_id) in E as (-> & -> & ->); [done|done|congruence].
Qed.
End rules.

(** ** What is kept *)

(** An adapter as it is kept. *)
Definition well_formed (nets : list Network) (nic : VMInterface) : Prop :=
  nic_id nic ∈ interface_ids ∧
  (∃ bytes, nic_mac nic = Some (mac_string bytes) ∧ length bytes = 6%nat ∧ Forall byte bytes ∧ unicast bytes = true) ∧
  (nic_network nic ∈ builtin_refs ∨ ∃ n, n ∈ nets ∧ net_id n = nic_network nic ∧ net_mode n ≠ ModeVlan).

Lemma Resolve_in nets ref n : Resolve nets ref = Some n → n ∈ nets.
Proof.
  unfold Resolve. destruct (List.find _ nets) as [m|] eqn:E; [intros [= <-]|intros E'].
  - by apply find_some_iff in E as [? _].
  - by apply find_some_iff in E' as [? _].
Qed.

Lemma adapter_network_spec nets ref r : adapter_network nets ref = inl r →
  r ∈ builtin_refs ∨ ∃ n, n ∈ nets ∧ net_id n = r ∧ net_mode n ≠ ModeVlan.
Proof.
  unfold adapter_network. destruct (includes_str builtin_refs (ref ||s "user")) eqn:E.
  - intros [= <-]. left. by apply includes_str_spec.
  - destruct (Resolve nets (ref ||s "user")) as [n|] eqn:Er; [|done]. destruct (decide _); [done|]. intros [= <-].
    right. exists n. by apply Resolve_in in Er.
Qed.

Lemma adapter_network_kept nets ref r : NoDup (net_id <$> nets) → "" ∉ net_id <$> nets → adapter_network nets ref = inl r →
  adapter_network nets r = inl r.
Proof.
  intros Hn He [Hr|(n & Hin & <- & Hm)]%adapter_network_spec.
  - apply list_elem_of_In in Hr. cbn in Hr. by destruct Hr as [<-|[<-|[<-|[]]]].
  - apply adapter_network_joinable; try done. intros E. apply He. rewrite <- E. apply list_elem_of_fmap. eauto.
Qed.

Lemma saved_well_formed MAC nets vmID nic saved : nic_saved MAC nets vmID nic saved → well_formed nets saved.
Proof.
  intros (Hid & b & ref & Hb & Hu & Hn & ->). apply ParseMAC_bytes in Hb as [Hl Hf]. split_and!; cbn.
  - by apply includes_str_spec.
  - by exists b.
  - by apply adapter_network_spec in Hn.
Qed.

Lemma saved_again MAC nets vmID nic saved : NoDup (net_id <$> nets) → "" ∉ net_id <$> nets →
  nic_saved MAC nets vmID nic saved → nic_saved MAC nets vmID saved saved.
Proof.
  intros Hn He (Hid & b & ref & Hb & Hu & Hr & ->). split; [done|]. exists b, ref. cbn. apply ParseMAC_bytes in Hb as [Hl Hf].
  unfold nic_addr. cbn. rewrite str_or_nonempty by (by destruct b as [|? [|]]). rewrite ParseMAC_string by done.
  split_and!; [done|done|by eapply adapter_network_kept|done].
Qed.

Lemma normalized_fixed MAC nets vmID l l' : NoDup (net_id <$> nets) → "" ∉ net_id <$> nets →
  normalizedInterfaces MAC nets vmID l = inl l' →
  (length l' ≤ 32)%nat ∧ NoDup (nic_id <$> l') ∧ NoDup (nic_mac <$> l') ∧ Forall (well_formed nets) l' ∧ adapters_saved MAC nets vmID l'.
Proof.
  intros Hn He (Hl & Hf & Hi & Hm)%normalizedInterfaces_spec.
  assert (nic_id <$> l' = nic_id <$> l) as Ei by (clear -Hf; induction Hf as [|a b ? ? H ? IH]; [done|]; cbn; by rewrite IH, (nic_saved_id _ _ _ _ _ H)).
  assert (Forall (λ nic, nic_saved MAC nets vmID nic nic) l') as Hs.
  { clear -Hf Hn He. induction Hf as [|a b ? ? H ? IH]; constructor; [by eapply saved_again|done]. }
  rewrite (Forall2_length _ _ _ Hf) in Hl. rewrite <- Ei in Hi. split_and!; [done..| |by apply adapters_saved_spec].
  eapply Forall_impl; [exact Hs|]. intros nic H. exact (saved_well_formed _ _ _ _ _ H).
Qed.

(** C35. The adapters of a machine are well formed after every change that succeeds, whatever was asked and whatever
    the manifest held before: at most 32, with distinct identifiers of the sort [net0] to [net31], distinct
    unicast addresses in the usual notation, and networks that are built in or exist and can be joined; and
    they are in the form that the server keeps, which another pass leaves as it is. *)
Theorem adapters_well_formed MAC nets m action id network mac l : NoDup (net_id <$> nets) → "" ∉ net_id <$> nets →
  manage_interfaces MAC nets (m_id m) m action id network mac = inl l →
  (length l ≤ 32)%nat ∧ NoDup (nic_id <$> l) ∧ NoDup (nic_mac <$> l) ∧ Forall (well_formed nets) l ∧
  normalizedInterfaces MAC nets (m_id m) l = inl l.
Proof.
  intros Hn He H. unfold manage_interfaces in H. cbv zeta in H. destruct action.
  - destruct (free_id _); [|done]. by eapply normalized_fixed.
  - destruct (existsb _ _); [|done]. by eapply normalized_fixed.
  - destruct (existsb _ _); [|done]. by eapply normalized_fixed.
Qed.

Lemma adapters_well_formed_witness :
  let m := mkVMManifest None None None 2 20 None "vm1" "img" None None 2048 "web" (Some "user") None None "root" in
  let l := [mkVMInterface None "net0" (Some "02:00:00:00:00:01") "user"; mkVMInterface None "net1" (Some "02:00:00:ab:cd:02") "user"] in
  manage_interfaces (λ _, "02:00:00:00:00:01") [] "vm1" m AddNic "" "" "02-00-00-AB-CD-02" = inl l ∧ Forall (well_formed []) l.
Proof.
  intros m l. split; [reflexivity|].
  apply (adapters_well_formed (λ _, "02:00:00:00:00:01") [] m AddNic "" "" "02-00-00-AB-CD-02" l);
    [constructor|by intros ?%not_elem_of_nil|reflexivity].
Defined.
