(* ===== verification/VmNetwork.v ===== *)
(** * The network adapters of a machine ([src/web/src/components/VMNetwork.tsx])

    The list of adapters, the dialog that adds or edits one and the two confirmations, as a component that
    acts through its row; what it sends against the rules of the server ([ServerNetworks]). *)

From S2P Require Import Prelude JsString Regex Types Ux UseResource JobTracking Dom Widgets RowComponent EntryRows ServerNetworks.
Local Open Scope string_scope.

(** ** Networks by name and as choices *)

Definition vmNetworkName (ref : option string) (networks : list Network) (loading : bool) : string :=
  let id := (ref |?| "") ||s "user" in
  default "" (nk_label <$> find_kind id builtinNetworks)
    ||s default "" (net_name <$> List.find (λ n, String.eqb (net_id n) id || String.eqb (net_name n) id) networks)
    ||s (if loading then "Loading Network…" else "Unavailable Network (" ++ id ++ ")").

Definition builtin_choice (k : NetworkKind) : Choice := mkChoice (nk_value k) (nk_label k) false.
Definition network_choice (n : Network) : Choice :=
  mkChoice (net_id n) (net_name n ++ " · " ++ networkModeName (mode_string (net_mode n))) false.

Definition vmNetworkChoices (networks : list Network) (selected : option string) (loading : bool) : list Choice :=
  let choices := ((builtin_choice <$> builtinNetworks) ++
    (network_choice <$> List.filter (λ n, negb (bool_decide (net_mode n = ModeVlan))) networks))%list in
  match selected with
  | Some v =>
      if truthy v && negb (existsb (λ c, String.eqb (ch_value c) v) choices)
      then (choices ++ [mkChoice v (vmNetworkName (Some v) networks loading) true])%list else choices
  | None => choices
  end.

(** [choices.some((item) => item.value === network && !item.disabled)] *)
Definition selectable (choices : list Choice) (network : string) : bool :=
  existsb (λ c, String.eqb (ch_value c) network && negb (ch_disabled c)) choices.

(** ** The component *)

Record properties := mkProps { vm : VMView; networks : list Network; loading : bool; error : string }.

Inductive editing_state := NotEditing | NewAdapter | EditAdapter (nic : VMInterface).
Record dialogs := mkDialogs {
  editing : editing_state;
  removing : option VMInterface;
  confirmSave : bool;
  network : string;
  mac : string
}.

Inductive request :=
  | AddVMInterface (id network mac : string)
  | UpdateVMInterface (id nic network mac : string)
  | RemoveVMInterface (id nic : string).
Inductive continuation := AfterApply | AfterRemove.

Inductive action :=
  | Add | Edit (nic : VMInterface) | AskRemove (nic : VMInterface)
  | CloseDialog | ChooseNetwork (v : string) | TypeMac | CancelEdit | Submit
  | CancelSave | ConfirmSave | CancelRemove | ConfirmRemove.

#[export] Instance action_eq_dec : EqDecision action.
Proof. solve_decision. Defined.

Definition vm_id (p : properties) : string := m_id (vm_manifest (vm p)).
Definition vm_name (p : properties) : string := m_name (vm_manifest (vm p)).
Definition running (p : properties) : bool := String.eqb (vm_phase (vm p)) "running".

Definition interfaces (p : properties) : list VMInterface :=
  m_interfaces (vm_manifest (vm p)) |?| [mkVMInterface None "net0" None ((m_network (vm_manifest (vm p)) |?| "") ||s "user")].

Definition choices (p : properties) (d : dialogs) : list Choice := vmNetworkChoices (networks p) (Some (network d)) (loading p).
Definition valid (p : properties) (d : dialogs) : bool :=
  negb (loading p) && negb (truthy (error p)) && negb (truthy (macError (mac d))) && selectable (choices p d) (network d).
Definition unchanged (d : dialogs) : bool :=
  match editing d with
  | EditAdapter nic => String.eqb (network d) (nic_network nic ||s "user") && String.eqb (trim (mac d)) (nic_mac nic |?| "")
  | _ => false
  end.

Definition set_editing (e : editing_state) (d : dialogs) : dialogs := mkDialogs e (removing d) (confirmSave d) (network d) (mac d).
Definition set_removing (r : option VMInterface) (d : dialogs) : dialogs := mkDialogs (editing d) r (confirmSave d) (network d) (mac d).
Definition set_confirmSave (b : bool) (d : dialogs) : dialogs := mkDialogs (editing d) (removing d) b (network d) (mac d).
Definition set_fields (n m : string) (d : dialogs) : dialogs := mkDialogs (editing d) (removing d) (confirmSave d) n m.

(** [edit] *)
Definition edit (e : editing_state) (d : dialogs) : dialogs :=
  let n := match e with EditAdapter nic => nic_network nic ||s "user" | _ => "user" end in
  let m := match e with EditAdapter nic => nic_mac nic |?| "" | _ => "" end in
  set_editing e (set_fields n m d).

Definition apply (p : properties) (v : row_view) (d : dialogs) : outcome dialogs continuation request :=
  if rv_busy v || negb (valid p d) then Do d [] else
  match editing d with
  | NotEditing => Do d []
  | NewAdapter => Execute "vm.interface.add" AfterApply (AddVMInterface (vm_id p) (network d) (trim (mac d)))
  | EditAdapter nic => Execute "vm.interface.update" AfterApply (UpdateVMInterface (vm_id p) (nic_id nic) (network d) (trim (mac d)))
  end.

Definition is_new (d : dialogs) : bool := match editing d with NewAdapter => true | _ => false end.

Definition save (p : properties) (v : row_view) (d : dialogs) : outcome dialogs continuation request :=
  if negb (valid p d) || unchanged d then Do d []
  else if running p && negb (is_new d) then Do (set_confirmSave true d) []
  else apply p v d.

Definition remove (p : properties) (v : row_view) (d : dialogs) : outcome dialogs continuation request :=
  match removing d with
  | Some nic => if rv_busy v then Do d [] else Execute "vm.interface.remove" AfterRemove (RemoveVMInterface (vm_id p) (nic_id nic))
  | None => Do d []
  end.

Definition handle (p : properties) (v : row_view) (d : dialogs) (a : action) (text : string) : outcome dialogs continuation request :=
  match a with
  | Add => Do (edit NewAdapter d) []
  | Edit nic => Do (edit (EditAdapter nic) d) []
  | AskRemove nic => Do (set_removing (Some nic) d) []
  | CloseDialog => Do (if rv_busy v then d else set_editing NotEditing d) []
  | ChooseNetwork n => Do (set_fields n (mac d) d) []
  | TypeMac => Do (set_fields (network d) text d) []
  | CancelEdit => Do (set_editing NotEditing d) []
  | Submit => save p v d
  | CancelSave => Do (set_confirmSave false d) []
  | ConfirmSave => apply p v d
  | CancelRemove => Do (set_removing None d) []
  | ConfirmRemove => remove p v d
  end.

Definition finish (k : continuation) (d : dialogs) : dialogs :=
  match k with
  | AfterApply => set_editing NotEditing (set_confirmSave false d)
  | AfterRemove => set_removing None d
  end.

Section view.
Context `{Hdialogs : !AlertDialogs}.

Definition adapter_node (p : properties) (busy : bool) (index : nat) (nic : VMInterface) : node action :=
  box "article"
    [label "h3" ("Adapter " ++ pretty (S index)); label "Badge" "VirtIO";
     label "p" (vmNetworkName (Some (nic_network nic)) (networks p) (loading p));
     label "p" (networkHelp (nic_network nic ||s "user") (networks p));
     label "p" ("ID: " ++ nic_id nic ++ " · MAC: " ++ ((nic_mac nic |?| "") ||s "Assigned Automatically"));
     button "Edit…" busy (Edit nic); button "Remove…" busy (AskRemove nic)].

Definition form (p : properties) (v : row_view) (d : dialogs) : node action :=
  let busy := rv_busy v in
  El "Dialog" [] false [CloseDialog]
    [box "form"
       ([ChoiceRow "Network" (network d) (choices p d) ChooseNetwork (busy || loading p) (networkHelp (network d) (networks p));
         El "EntryRow" [("id", "interface-mac"); ("value", mac d); ("error", macError (mac d))] busy [TypeMac] []] ++
        when (running p && negb (is_new d)) [label "NoticeBanner"
          "Applying changes can disconnect this VM, including SSH sessions. Reconnect using the guest’s current address afterward."] ++
        [button "Cancel" busy CancelEdit;
         El "button" [("type", "submit")] (busy || negb (valid p d) || unchanged d) [Submit]
           [Text (if busy then "Saving…" else if is_new d then "Add Adapter" else "Save & Apply")]])%list].

Definition render (p : properties) (v : row_view) (d : dialogs) : node action :=
  let busy := rv_busy v in
  box "div"
    ([label "h2" ("Network Adapters (" ++ pretty (length (interfaces p)) ++ ")");
      button "Add Adapter" (busy || loading p || truthy (error p) || (32 <=? length (interfaces p))%nat) Add] ++
     JobNotice (error p) ++ ActionStatus (rv_job v) (rv_error v) true ++
     imap (adapter_node p busy) (interfaces p) ++
     when (bool_decide (interfaces p = [])) [label "p" "No network adapters attached. This VM has no network connectivity."] ++
     match editing d with NotEditing => [] | _ => [form p v d] end ++
     AlertDialog (mkAlert (confirmSave d) busy "Apply Network Changes?"
       "This running VM can lose existing connections on the adapter. The guest may need a new address or network configuration."
       "Apply Changes" CancelSave ConfirmSave) ++
     AlertDialog (mkAlert (bool_decide (is_Some (removing d))) busy "Remove Network Adapter?"
       (if running p then "This immediately disconnects the adapter and its active connections. Other adapters remain connected. You can add a new adapter later."
        else "This adapter will no longer connect when the VM starts. You can add a new adapter later.")
       "Remove Adapter" CancelRemove ConfirmRemove))%list.

Definition VMNetwork : component properties dialogs action Empty_set continuation request := {|
  scope := "vm"; ident := vm_id; called := vm_name; act := handle; ambient _ d _ := d; after := finish; RowComponent.render := render |}.

#[export] Instance VMNetwork_guarded : Guarded VMNetwork.
Proof.
  intros p v d a text name k r _ E.
  assert (apply p v d = Execute name k r → rv_busy v = false ∧ name ≠ "") as Happly.
  { unfold apply. destruct (rv_busy v); [done|]. cbn. destruct (valid p d); [|done]. cbn. destruct (editing d); intros [= <- <- <-] || done; done. }
  destruct a; cbn in E; try done; try (by apply Happly).
  - unfold save in E. destruct (negb _ || _); [done|]. destruct (running p && _); [done|by apply Happly].
  - unfold remove in E. destruct (removing d); [|done]. destruct (rv_busy v); [done|]. by injection E as <- <- <-.
Qed.
End view.

(** ** Properties *)

Lemma valid_spec p d : valid p d = true ↔
  loading p = false ∧ error p = "" ∧ macError (mac d) = "" ∧ selectable (choices p d) (network d) = true.
Proof. unfold valid. rewrite !andb_true_iff, !negb_true_iff, !truthy_false. tauto. Qed.

(** A network that can be chosen is built in, or one of those shown that is not a VLAN interface. *)
Lemma selectable_spec nets sel ld v : selectable (vmNetworkChoices nets sel ld) v = true ↔
  v ∈ builtin_refs ∨ ∃ n, n ∈ nets ∧ net_id n = v ∧ net_mode n ≠ ModeVlan.
Proof.
  assert (selectable ((builtin_choice <$> builtinNetworks) ++
    (network_choice <$> List.filter (λ n, negb (bool_decide (net_mode n = ModeVlan))) nets))%list v = true ↔
    v ∈ builtin_refs ∨ ∃ n, n ∈ nets ∧ net_id n = v ∧ net_mode n ≠ ModeVlan) as H.
  { unfold selectable. rewrite existsb_app, orb_true_iff.
    match goal with |- (?a ∨ ?b) ↔ (?c ∨ ?d) => enough (a ↔ c) as ->; [enough (b ↔ d) as ->; [done|]|] end; revgoals.
    - unfold builtin_refs. rewrite !elem_of_cons. cbn -[String.eqb]. rewrite !andb_true_r, !orb_true_iff, !String.eqb_eq. split; [intros [|[|[|]]]; naive_solver|].
      intros [->|[->|[->|H%not_elem_of_nil]]]; auto.
    - rewrite existsb_exists. setoid_rewrite andb_true_iff. setoid_rewrite String.eqb_eq. setoid_rewrite <- list_elem_of_In.
      setoid_rewrite list_elem_of_fmap. setoid_rewrite list_elem_of_In. setoid_rewrite filter_In. setoid_rewrite <- list_elem_of_In.
      setoid_rewrite negb_true_iff. split.
      + intros (c & (n & -> & Hin & Hm%bool_decide_eq_false) & Hv & _). by exists n.
      + intros (n & Hin & Hv & Hm). exists (network_choice n). split; [exists n|done]. split_and!; [done..|by apply bool_decide_eq_false]. }
  unfold vmNetworkChoices. destruct sel as [w|]; [|done]. destruct (truthy w && _); [|done].
  unfold selectable in *. rewrite existsb_app. cbn. by rewrite andb_false_r, !orb_false_r.
Qed.

Definition start (p : properties) (jobs : list Job) : state properties dialogs continuation :=
  mount p jobs (mkDialogs NotEditing None false "user" "").

Section properties.
Context `{Hdialogs : !AlertDialogs}.

(** The two confirmations are offered only while their dialogs are open. *)
Lemma confirmations_offered p v d a : a ∈ offers (render p v d) →
  match a with
  | ConfirmSave => confirmSave d = true
  | ConfirmRemove => is_Some (removing d)
  | _ => True
  end.
Proof.
  intros H. unfold render, form in H. offered H; simplify_eq; try done.
  - apply offers_imap in H as (i & nic & _ & H). unfold adapter_node in H. offered H; by simplify_eq.
  - by apply choice_offers in H as (_ & c & _ & _ & ->).
  - by apply choice_offers in H as (_ & c & _ & _ & ->).
  - by apply bool_decide_eq_true in Hopen.
Qed.

Lemma handle_quiet p v d a text d' rs : handle p v d a text = Do d' rs → rs = [].
Proof. destruct a; cbn; unfold save, apply, remove; intros E; repeat case_match; by simplify_eq. Qed.

Lemma apply_sends p v d name k r : apply p v d = Execute name k r → valid p d = true ∧
  match editing d with
  | NotEditing => False
  | NewAdapter => r = AddVMInterface (vm_id p) (network d) (trim (mac d))
  | EditAdapter nic => r = UpdateVMInterface (vm_id p) (nic_id nic) (network d) (trim (mac d))
  end.
Proof. unfold apply. destruct (rv_busy v), (valid p d); try done. cbn. destruct (editing d); intros E; by simplify_eq. Qed.

(** The handlers that execute a request. *)
Lemma handle_sends p v d a text name k r : handle p v d a text = Execute name k r →
  (a = Submit ∧ (running p = true → editing d = NewAdapter) ∨ a = ConfirmSave) ∧ apply p v d = Execute name k r ∨
  a = ConfirmRemove ∧ ∃ nic, removing d = Some nic ∧ r = RemoveVMInterface (vm_id p) (nic_id nic).
Proof.
  destruct a; cbn; try done.
  - unfold save. destruct (negb _ || _); [done|]. destruct (running p && negb (is_new d)) eqn:E; [done|]. intros Ha. left. split; [|done].
    left. split; [done|]. intros Hr. rewrite Hr in E. unfold is_new in E. by destruct (editing d).
  - intros Ha. left. auto.
  - unfold remove. destruct (removing d) as [nic|]; [|done]. destruct (rv_busy v); [done|]. intros E. simplify_eq. right. eauto.
Qed.

(** What a request says of the dialogs it comes from. *)
Definition sent_as_shown (q : properties) (d : dialogs) (a : action) (r : request) : Prop :=
  match r with
  | AddVMInterface id n m => editing d = NewAdapter ∧ id = vm_id q ∧ n = network d ∧ m = trim (mac d) ∧ valid q d = true
  | UpdateVMInterface id i n m => (∃ nic, editing d = EditAdapter nic ∧ i = nic_id nic) ∧ id = vm_id q ∧ n = network d ∧ m = trim (mac d) ∧
      valid q d = true ∧ (running q = true → a = ConfirmSave ∧ confirmSave d = true)
  | RemoveVMInterface id i => a = ConfirmRemove ∧ id = vm_id q ∧ ∃ nic, removing d = Some nic ∧ i = nic_id nic
  end.

Lemma network_sends q v d a text name k r : a ∈ offers (render q v d) → handle q v d a text = Execute name k r → sent_as_shown q d a r.
Proof.
  intros Ha%confirmations_offered E. apply handle_sends in E as [[Hact [Hv Hr']%apply_sends]|[-> (nic & Hrem & ->)]]; [|cbn; eauto].
  destruct (editing d) as [| |nic] eqn:Ed; subst; cbn; [done|done|]. split_and!; eauto. intros Hrun.
  destruct Hact as [[_ Hact]| ->]; [by specialize (Hact Hrun)|done].
Qed.

Lemma network_requests p jobs es a text r :
  let s := (run (step VMNetwork) (start p jobs) es).1 in
  legal (step VMNetwork) (view VMNetwork) user (start p jobs) es → a ∈ offers (view VMNetwork s) → r ∈ snd (step VMNetwork s (User a text)) →
  busy VMNetwork s = false ∧ awaiting s = [] ∧ snd (step VMNetwork s (User a text)) = [r] ∧
  busy VMNetwork (fst (step VMNetwork s (User a text))) = true ∧ sent_as_shown (props s) (local s) a r.
Proof.
  cbn zeta. unfold start. intros Hl Ha Hr. set (s := (run (step VMNetwork) _ es).1) in *.
  destruct (legal_requests VMNetwork p jobs _ es a text r Hl Ha Hr) as [(d & rs & E & Hrs)|((name & k & E) & Hb & Hw & Hs & Hb')]; fold s in E.
  { apply handle_quiet in E as ->. by apply not_elem_of_nil in Hrs. }
  split_and!; try done. exact (network_sends _ _ _ _ _ _ _ _ Ha E).
Qed.

(** What the dialogs send is what they show, one request at a time: an adapter is added or changed only with
    a network that can be chosen from the current list and an address the field accepts, and the request
    carries both as they are shown; the adapters of a running machine are changed only by confirming a
    second time, and an adapter is removed only by confirming the dialog about it. *)
Theorem vm_network_requests p jobs es a text r :
  let s := (run (step VMNetwork) (start p jobs) es).1 in
  legal (step VMNetwork) (view VMNetwork) user (start p jobs) es → a ∈ offers (view VMNetwork s) → r ∈ snd (step VMNetwork s (User a text)) →
  busy VMNetwork s = false ∧ awaiting s = [] ∧ snd (step VMNetwork s (User a text)) = [r] ∧
  busy VMNetwork (fst (step VMNetwork s (User a text))) = true ∧
  let q := props s in let d := local s in
  match r with
  | AddVMInterface id n m => editing d = NewAdapter ∧ id = vm_id q ∧ n = network d ∧ m = trim (mac d) ∧ valid q d = true
  | UpdateVMInterface id i n m => (∃ nic, editing d = EditAdapter nic ∧ i = nic_id nic) ∧ id = vm_id q ∧ n = network d ∧ m = trim (mac d) ∧
      valid q d = true ∧ (running q = true → a = ConfirmSave ∧ confirmSave d = true)
  | RemoveVMInterface id i => a = ConfirmRemove ∧ id = vm_id q ∧ ∃ nic, removing d = Some nic ∧ i = nic_id nic
  end.
Proof. apply network_requests. Qed.

(** A valid dialog names a network that an adapter can join and an address the server reads. *)
Lemma valid_network q d : valid q d = true → NoDup (net_id <$> networks q) → "" ∉ net_id <$> networks q →
  adapter_network (networks q) (network d) = inl (network d).
Proof.
  intros (_ & _ & _ & Hs)%valid_spec Hn Hne. unfold choices in Hs. apply selectable_spec in Hs as [Hb|(n & Hin & <- & Hm)].
  - unfold builtin_refs in Hb. rewrite !elem_of_cons in Hb. by destruct Hb as [->|[->|[->|?%not_elem_of_nil]]].
  - apply adapter_network_joinable; [done..|]. intros E. apply Hne. rewrite <- E. apply list_elem_of_fmap. eauto.
Qed.

Lemma valid_address q d : valid q d = true → trim (mac d) ≠ "" → is_Some (ParseMAC (trim (mac d))).
Proof.
  intros (_ & _ & Hm & _)%valid_spec Hne. apply macError_iff in Hm as [?|(ps & Hl & Hp & ->)]; [done|].
  destruct (ParseMAC_pairs ps Hl Hp) as (b & -> & _). done.
Qed.

(** C23. What the server answers to: every request is accepted on the machine and the networks as they are
    shown, with the adapters that come of it, unless the address is not unicast or is in use there. *)
Theorem vm_network_accepted MAC p jobs es a text r l :
  let s := (run (step VMNetwork) (start p jobs) es).1 in
  let q := props s in let m := vm_manifest (vm q) in let saved := adapters_saved MAC (networks q) (m_id m) in
  legal (step VMNetwork) (view VMNetwork) user (start p jobs) es → a ∈ offers (view VMNetwork s) → r ∈ snd (step VMNetwork s (User a text)) →
  m_interfaces m = Some l → saved l → NoDup (net_id <$> networks q) → "" ∉ net_id <$> networks q →
  let unused adr l := ∀ b, ParseMAC adr = Some b → unicast b = true ∧ Some (mac_string b) ∉ nic_mac <$> l in
  match r with
  | AddVMInterface _ n adr => (length l < 32)%nat → (∀ id, is_Some (ParseMAC (MAC id))) →
      (∀ id, unused (adr ||s InterfaceMAC MAC (m_id m) id) l) →
      ∃ id b, id ∉ nic_id <$> l ∧ ParseMAC (adr ||s InterfaceMAC MAC (m_id m) id) = Some b ∧
        manage_interfaces MAC (networks q) (m_id m) m AddNic "" n adr = inl (l ++ [mkVMInterface None id (Some (mac_string b)) n])%list
  | UpdateVMInterface _ i n adr => ∀ l1 nic l2, l = (l1 ++ nic :: l2)%list → nic_id nic = i → unused (adr ||s nic_addr nic) (l1 ++ l2)%list →
      ∃ b, ParseMAC (adr ||s nic_addr nic) = Some b ∧
        manage_interfaces MAC (networks q) (m_id m) m UpdateNic i n adr =
          inl (l1 ++ mkVMInterface (nic_addresses nic) i (Some (mac_string b)) n :: l2)%list
  | RemoveVMInterface _ i => ∀ l1 nic l2, l = (l1 ++ nic :: l2)%list → nic_id nic = i →
      manage_interfaces MAC (networks q) (m_id m) m RemoveNic i "" "" = inl (l1 ++ l2)%list ∧ saved (l1 ++ l2)%list
  end.
Proof.
  cbn zeta. intros Hl Ha Hr Hm Hsaved Hn Hne. destruct (network_requests p jobs es a text r Hl Ha Hr) as (_ & _ & _ & _ & Hsent).
  destruct r as [id n adr|id i n adr|id i]; cbn in Hsent.
  - destruct Hsent as (_ & _ & -> & -> & Hv). intros Hlen Hgen Hun. eapply add_accepted; [done|done|done|done|by apply valid_network|].
    intros id'. assert (is_Some (ParseMAC (trim (mac (local (run (step VMNetwork) (start p jobs) es).1)) ||s
      InterfaceMAC MAC (m_id (vm_manifest (vm (props (run (step VMNetwork) (start p jobs) es).1)))) id'))) as [b Hb].
    { destruct (decide (trim (mac (local (run (step VMNetwork) (start p jobs) es).1)) = "")) as [->|E].
      - cbn. unfold InterfaceMAC. by case_match.
      - rewrite (str_or_nonempty _ _ E). by eapply valid_address. }
    exists b. split; [done|]. exact (Hun id' b Hb).
  - destruct Hsent as (_ & _ & -> & -> & Hv & _). intros l1 nic l2 -> Hid Hun.
    pose proof Hsaved as (_ & Hf & _ & _)%adapters_saved_spec.
    assert (is_Some (ParseMAC (trim (mac (local (run (step VMNetwork) (start p jobs) es).1)) ||s nic_addr nic))) as [b Hb].
    { destruct (decide (trim (mac (local (run (step VMNetwork) (start p jobs) es).1)) = "")) as [->|E].
      - cbn. apply Forall_app in Hf as [_ [(_ & b & ref & Hb & _ & _ & E) _]%Forall_cons].
        apply (f_equal nic_mac) in E. cbn in E. unfold nic_addr at 1. rewrite E. cbn.
        destruct (ParseMAC_bytes _ _ Hb) as [? ?]. by rewrite ParseMAC_string.
      - rewrite (str_or_nonempty _ _ E). by eapply valid_address. }
    destruct (Hun b Hb) as [Hu Hd]. exists b. split; [done|]. eapply update_accepted; [done|done|done|done|done|by apply valid_network|done..].
  - intros l1 nic l2 -> Hid. by eapply remove_accepted.
Qed.
End properties.

(** A machine with the given adapters, and the events of adding one. *)
Definition sample_machine (phase : string) (l : list VMInterface) : properties :=
  mkProps (mkVMView 0 (mkVMManifest None None None 2 20 None "vm1" "img" (Some l) None 2048 "web" None None None "root") phase 0) [] false "".
Definition sample_nic : VMInterface := mkVMInterface None "net0" (Some "02:00:00:00:00:01") "user".
Definition adding (mac : string) : list (event properties action Empty_set) := [User Add ""; User TypeMac mac].
Definition editing_sample (mac : string) : list (event properties action Empty_set) :=
  [User (Edit sample_nic) ""; User TypeMac mac; User Submit ""].

Lemma vm_network_requests_witness :
  let s := (run (step (VMNetwork (Hdialogs := plain_dialogs))) (start (sample_machine "running" [sample_nic]) []) (editing_sample "02:00:00:00:00:02")).1 in
  confirmSave (local s) = true.
Proof.
  destruct (vm_network_requests (Hdialogs := plain_dialogs) (sample_machine "running" [sample_nic]) [] (editing_sample "02:00:00:00:00:02") ConfirmSave ""
    (UpdateVMInterface "vm1" "net0" "user" "02:00:00:00:00:02")) as (_ & _ & _ & _ & _ & _ & _ & _ & _ & H).
  - legal_run.
  - apply list_elem_of_In; vm_compute; tauto.
  - apply list_elem_of_In. vm_compute. tauto.
  - by apply H.
Defined.

Lemma vm_network_accepted_witness :
  ∃ id b, manage_interfaces (λ _, "02:00:00:00:00:09") [] "vm1" (vm_manifest (vm (sample_machine "stopped" []))) AddNic "" "user" "02:00:00:00:00:02" =
    inl [mkVMInterface None id (Some (mac_string b)) "user"].
Proof.
  destruct (vm_network_accepted (Hdialogs := plain_dialogs) (λ _, "02:00:00:00:00:09") (sample_machine "stopped" []) [] (adding " 02:00:00:00:00:02") Submit ""
    (AddVMInterface "vm1" "user" "02:00:00:00:00:02") []) as (id & b & _ & _ & H); [.. |exists id, b; exact H].
  - legal_run.
  - apply list_elem_of_In; vm_compute; tauto.
  - apply list_elem_of_In; vm_compute; tauto.
  - reflexivity.
  - reflexivity.
  - constructor.
  - apply not_elem_of_nil.
  - cbn. lia.
  - intros id. by eexists.
  - intros id b. cbn. vm_compute ParseMAC. intros [= <-]. split; [done|apply not_elem_of_nil].
Defined.

(** An address that names a group passes the field, and the server refuses it. *)
Lemma group_address_refused :
  macError "01:00:5e:00:00:01" = "" ∧
  manage_interfaces (λ _, "02:00:00:00:00:09") [] "vm1" (vm_manifest (vm (sample_machine "stopped" []))) AddNic "" "user" "01:00:5e:00:00:01" =
    inr "interface MAC must be a unicast Ethernet address".
Proof. by vm_compute. Qed.

(** Clearing the address of an adapter asks for an automatic one, by the field's help; it can be saved, the
    request is sent, and the server leaves the address as it was. *)
Lemma cleared_address_kept :
  let p := sample_machine "stopped" [sample_nic] in
  let d := mkDialogs (EditAdapter sample_nic) None false "user" "" in
  valid p d = true ∧ unchanged d = false ∧
  handle p (mkRowView false "" None "") d Submit "" = Execute "vm.interface.update" AfterApply (UpdateVMInterface "vm1" "net0" "user" "") ∧
  manage_interfaces (λ _, "02:00:00:00:00:09") [] "vm1" (vm_manifest (vm p)) UpdateNic "net0" "user" "" = inl [sample_nic].
Proof. by vm_compute. Qed.
