(* ===== verification/CreateVm.v ===== *)
(** * Creating a machine ([src/web/src/components/CreateVMDialog.tsx])

    The dialog over the catalog, the media library, the networks and the host: its form, the readiness of
    its source, what it submits, and the server's [CreateVM] ([src/pkg/engine/vm.go]) that answers. *)

From S2P Require Import Prelude JsString Regex Types Ux BootOrder UseResource JobTracking Dom Widgets EntryRows ServerNetworks VmNetwork.
Local Open Scope string_scope.

(** ** The server's side *)

Section server.
(** The media library is a directory, the catalog a table of the program; [net.ParseCIDR] is Go's and
    [hostname_rfc1123] a rule of the validation library. *)
Context (GetMedia : string → option Media) (Lookup ParseCIDR hostname_rfc1123 : string → bool).
Context (MAC : string → string) (nets : list Network) (uuid : string).

(** [imageBase], as a test. *)
Definition imageBase (ref : string) : option string :=
  match strip_prefix "media:" ref with
  | Some id =>
      match GetMedia id with
      | None => Some "invalid media ID"
      | Some m => if String.eqb (media_kind m) "image" then None else Some "boot image must be a disk image"
      end
  | None => if Lookup ref then None else Some "unknown image"
  end.

(** [exposeInterfaces] *)
Definition exposeInterfaces (m : VMManifest) : list VMInterface := previous_interfaces MAC uuid m.

(** The rules of the manifest that [Store.Save] checks, for the fields of a new machine. *)
Definition manifest_ok (m : VMManifest) : bool :=
  hostname_rfc1123 (m_name m) && (1 <=? m_cpus m)%Z && (64 <=? m_memory_mib m)%Z && (1 <=? m_disk_size_gib m)%Z &&
  forallb ParseCIDR (m_addresses m |?| []) && truthy (m_username m).

Definition manifest_of (p : CreateVMParams) (network : string) : VMManifest :=
  mkVMManifest (cv_addresses p) (cv_autostart p) (cv_boot_order p) (cv_cpus p |?| 0%Z) (cv_disk_size_gib p |?| 0%Z) None uuid
    (cv_image p |?| "") None (cv_isos p) (cv_memory_mib p |?| 0%Z) (cv_name p |?| "") (Some network) (cv_ssh_key p) None (cv_username p |?| "").

Definition with_interfaces (l : list VMInterface) (m : VMManifest) : VMManifest :=
  mkVMManifest (m_addresses m) (m_autostart m) (m_boot_order m) (m_cpus m) (m_disk_size_gib m) (m_disks m) (m_id m) (m_image m) (Some l)
    (m_isos m) (m_memory_mib m) (m_name m) (m_network m) (m_ssh_key m) (m_usb m) (m_username m).

(** The network a new machine joins. *)
Definition resolve_ref (ref : string) : option string :=
  if truthy ref && negb (includes_str builtin_refs ref) then net_id <$> Resolve nets ref else Some ref.

Definition CreateVM (p : CreateVMParams) : VMManifest + string :=
  let image := cv_image p |?| "" in
  let isos := cv_isos p |?| [] in
  if negb (test name_re (cv_name p |?| "")) then inr "name must be 1 to 63 characters of letters, digits, dot, dash or underscore"
  else if negb (forallb ParseCIDR (cv_addresses p |?| [])) then inr "address must use CIDR notation"
  else if (truthy image && negb (bool_decide (isos = []))) || (negb (truthy image) && negb (length isos =? 1)%nat)
  then inr "select either one image or one installation ISO"
  else match (if truthy image then imageBase image else None) with
  | Some e => inr e
  | None =>
      match resolve_ref (cv_network p |?| "") with
      | None => inr "resolve network"
      | Some network =>
          match validateMedia GetMedia isos (cv_boot_order p |?| []) [] with
          | Some e => inr e
          | None =>
              let m := manifest_of p network in
              if manifest_ok m then inl (with_interfaces (exposeInterfaces m) m) else inr "invalid manifest"
          end
      end
  end.
End server.

(** ** The dialog *)

Inductive source := FromImage | FromIso.
#[export] Instance source_eq_dec : EqDecision source.
Proof. solve_decision. Defined.

Record vm_form := mkForm {
  name : string; image : string; disk_size_gib : Z; network : string; username : string; password : string; ssh_key : string;
  autostart : bool; isos : option (list string)
}.

Definition defaults : vm_form := mkForm "" "ubuntu-24.04-arm64" 20 "user" "maco" "" "" false None.

(** What the dialog reads: four resources. *)
Record resources := mkResources {
  catalog : @UseResource.view (list CatalogImage);
  media : @UseResource.view (list Media);
  networks : @UseResource.view (list Network);
  host : @UseResource.view (option HostInfo)
}.

Record state := mkState {
  res : resources;
  form : vm_form;
  cpus_row : integer_row;
  mem_row : memory_row;
  disk_row : integer_row;
  from : source;
  addresses : list string;
  uploading : bool;
  creating : action_state;
  jobs : provider
}.

Inductive action :=
  | TypeName | PickSource (s : source) | PickImage (v : string) | PickIso (v : string)
  | TypeUsername | TypePassword | TypeKey | PickNetwork (v : string) | TypeCpus | TypeMemory | TypeDisk | ToggleAutostart
  | TypeAddress (i : nat) | RemoveAddress (i : nat) | AddAddress
  | RetryMedia | RetryCatalog | RetryNetworks | RetryHost | Submit | Close.
#[export] Instance action_eq_dec : EqDecision action.
Proof. solve_decision. Defined.

Inductive event :=
  | User (a : action) (text : string)
  | Loaded (r : resources)
  | Uploading (b : bool)
  | Answered (answer : Job + string).
Definition user (e : event) : option action := match e with User a _ => Some a | _ => None end.

Inductive output := CreateVM_ (p : CreateVMParams) | Closed | RefreshMedia | RefreshCatalog | RefreshNetworks | RefreshHost.

(** ** What a render computes *)

(** The pattern of a public key: a type that begins with [ssh-], [ecdsa-] or [sk-], blanks, characters of
    base 64 with up to three equal signs, and an optional comment of one line. The spaces of several bytes
    are made single first, the two line separators a line feed. *)
Definition line_separator (a b c : ascii) : bool := N.eqb (code a) 226 && N.eqb (code b) 128 && (N.eqb (code c) 168 || N.eqb (code c) 169).
Fixpoint single_spaces (s : string) : string :=
  match s with
  | String a ((String b ((String c r) as s1)) as s') =>
      if line_separator a b c then String "010" (single_spaces r)
      else if is_ws3 a b c then String " " (single_spaces r)
      else if is_ws2 a b then String " " (single_spaces s1)
      else String a (single_spaces s')
  | String a (String b "") => if is_ws2 a b then " " else s
  | _ => s
  end.

Definition is_space (c : ascii) : bool := is_ws1 c.
Definition key_char (c : ascii) : bool := is_alnum c || is_char "+" c || is_char "/" c.
Definition line_char (c : ascii) : bool := negb (is_char "010" c || is_char "013" c).
Fixpoint Lit (s : string) : re := match s with "" => Eps | String c s => Seq (Chr c) (Lit s) end.
Definition sshKeyPattern : re :=
  Seq (Alt (Lit "ssh-") (Alt (Lit "ecdsa-") (Lit "sk-")))
    (Seq (Plus (Cls (λ c, negb (is_space c)))) (Seq (Plus (Cls is_space)) (Seq (Plus (Cls key_char))
      (Seq (Rep 0 3 (Chr "=")) (Opt (Seq (Cls is_space) (Star (Cls line_char)))))))).

(** The error of the key field. *)
Definition keyError (key : string) : string :=
  if truthy key && negb (test sshKeyPattern (single_spaces (trim key))) then "Enter a complete SSH public key." else "".

Definition media_ref (m : Media) : string := "media:" ++ media_id m.

Record ImageOption := mkImageOption { opt_value : string; opt_label : string; opt_sub : string }.
Definition imageOptions (r : resources) : list ImageOption :=
  (((λ i, mkImageOption (img_id i) (img_display_name i ++ " · " ++ img_arch i)%string
      (if img_downloaded i then "Downloaded. A new VM receives an independent copy." else "Downloads on first use. Creation continues in Activity."))
    <$> UseResource.data (catalog r)) ++
   ((λ m, mkImageOption (media_ref m) (media_name m)
      ("Custom disk image · " ++ pretty (media_size_gib m) ++ " GiB. A new VM receives an independent copy.")%string)
    <$> List.filter (λ m, String.eqb (media_kind m) "image") (UseResource.data (media r))))%list.
Definition iso_media (r : resources) : list Media := List.filter (λ m, String.eqb (media_kind m) "iso") (UseResource.data (media r)).

Definition selectedISO (s : state) : string := match isos (form s) with Some (x :: _) => x | _ => "" end.
Definition ready (s : state) : bool :=
  negb (UseResource.loading (media (res s))) && (bool_decide (from s = FromIso) || negb (UseResource.loading (catalog (res s))))
    && negb (UseResource.loading (networks (res s))).
Definition sourceError (s : state) : string :=
  match from s with
  | FromImage => UseResource.error (catalog (res s)) ||s UseResource.error (media (res s))
  | FromIso => UseResource.error (media (res s))
  end.
Definition sourceAvailable (s : state) : bool :=
  match from s with
  | FromImage => existsb (λ o, String.eqb (opt_value o) (image (form s))) (imageOptions (res s))
  | FromIso => existsb (λ m, String.eqb (media_id m) (selectedISO s)) (iso_media (res s))
  end.
Definition custom (s : state) : bool := bool_decide (from s = FromImage) && starts_with "media:" (image (form s)).
Definition imageSize (s : state) : Z :=
  match from s with
  | FromImage =>
      match List.find (λ m, String.eqb (media_ref m) (image (form s))) (UseResource.data (media (res s))) with
      | Some m => if (media_size_gib m =? 0)%Z then 1 else media_size_gib m
      | None => 1
      end
  | FromIso => 1
  end.
Definition diskSize (s : state) : Z := Z.max (disk_size_gib (form s)) (imageSize s).
Definition validNetwork (s : state) : bool :=
  selectable (vmNetworkChoices (UseResource.data (networks (res s))) None false) (network (form s)).
Definition invalidAddresses (s : state) : bool := existsb (λ a, truthy (cidrError a false)) (addresses s).
Definition blocked (s : state) : bool := busy (creating s) || uploading s.
Definition overCapacity (s : state) : bool :=
  match UseResource.data (host (res s)) with
  | Some h => (host_cpus h <? int_value (cpus_row s))%Z || (host_memory_bytes h <? mem_value (mem_row s) * 1048576)%Z
  | None => false
  end.

(** ** Handlers *)

Definition set_form (f : vm_form) (s : state) : state :=
  mkState (res s) f (cpus_row s) (mem_row s) (disk_row s) (from s) (addresses s) (uploading s) (creating s) (jobs s).
Definition set_rows (c : integer_row) (m : memory_row) (d : integer_row) (s : state) : state :=
  mkState (res s) (form s) c m d (from s) (addresses s) (uploading s) (creating s) (jobs s).
Definition set_from (x : source) (s : state) : state :=
  mkState (res s) (form s) (cpus_row s) (mem_row s) (disk_row s) x (addresses s) (uploading s) (creating s) (jobs s).
Definition set_addresses (l : list string) (s : state) : state :=
  mkState (res s) (form s) (cpus_row s) (mem_row s) (disk_row s) (from s) l (uploading s) (creating s) (jobs s).
Definition set_action (a : action_state) (j : provider) (s : state) : state :=
  mkState (res s) (form s) (cpus_row s) (mem_row s) (disk_row s) (from s) (addresses s) (uploading s) a j.

(** The body of the request. *)
Definition body (s : state) : CreateVMParams :=
  let f := form s in
  let iso := bool_decide (from s = FromIso) in
  mkCreateVMParams
    (Some (if iso then [] else List.filter truthy (trim <$> addresses s)))
    (Some (autostart f))
    (Some (if iso then ["iso:" ++ selectedISO s; "disk"] else ["disk"]))
    (Some (int_value (cpus_row s))) (Some (diskSize s))
    (Some (if iso then "" else image f))
    (Some (if iso then [selectedISO s] else []))
    (Some (mem_value (mem_row s))) (Some (name f)) (Some (network f)) (Some (password f)) (Some (ssh_key f)) (Some (username f)).

Definition submit (s : state) : state * list output :=
  if negb (ready s) || negb (sourceAvailable s) || negb (validNetwork s) || truthy (sourceError s)
     || truthy (UseResource.error (networks (res s))) || invalidAddresses s || truthy (nameError (name (form s)))
  then (s, [])
  else (set_action (run_start (creating s)) (jobs s) s, [CreateVM_ (body s)]).

(** What follows the await: the job is tracked and closes the dialog, or the error is shown. *)
Definition answered (answer : Job + string) (s : state) : state * list output :=
  let '(a, j, job) := run_end answer (creating s) (jobs s) in
  (set_action a j s, match job with Some _ => [Closed] | None => [] end).

Definition type_cpus (text : string) (s : state) : state :=
  set_rows (fst (integer_change 1 MAX_SAFE_INTEGER text (cpus_row s))) (mem_row s) (disk_row s) s.
Definition type_memory (text : string) (s : state) : state :=
  set_rows (cpus_row s) (fst (memory_change text (mem_row s))) (disk_row s) s.
Definition type_disk (text : string) (s : state) : state :=
  let '(r, v) := integer_change (imageSize s) MAX_SAFE_INTEGER text (disk_row s) in
  let s := set_rows (cpus_row s) (mem_row s) r s in
  match v with
  | Some v => let f := form s in set_form (mkForm (name f) (image f) v (network f) (username f) (password f) (ssh_key f) (autostart f) (isos f)) s
  | None => s
  end.

Definition handle (s : state) (a : action) (text : string) : state * list output :=
  let f := form s in
  match a with
  | TypeName => (set_form (mkForm text (image f) (disk_size_gib f) (network f) (username f) (password f) (ssh_key f) (autostart f) (isos f)) s, [])
  | PickSource x => (set_from x s, [])
  | PickImage v => (set_form (mkForm (name f) v (disk_size_gib f) (network f) (username f) (password f) (ssh_key f) (autostart f) (isos f)) s, [])
  | PickIso v => (set_form (mkForm (name f) (image f) (disk_size_gib f) (network f) (username f) (password f) (ssh_key f) (autostart f) (Some [v])) s, [])
  | TypeUsername => (set_form (mkForm (name f) (image f) (disk_size_gib f) (network f) text (password f) (ssh_key f) (autostart f) (isos f)) s, [])
  | TypePassword => (set_form (mkForm (name f) (image f) (disk_size_gib f) (network f) (username f) text (ssh_key f) (autostart f) (isos f)) s, [])
  | TypeKey => (set_form (mkForm (name f) (image f) (disk_size_gib f) (network f) (username f) (password f) text (autostart f) (isos f)) s, [])
  | PickNetwork v => (set_form (mkForm (name f) (image f) (disk_size_gib f) v (username f) (password f) (ssh_key f) (autostart f) (isos f)) s, [])
  | TypeCpus => (type_cpus text s, [])
  | TypeMemory => (type_memory text s, [])
  | TypeDisk => (type_disk text s, [])
  | ToggleAutostart =>
      (set_form (mkForm (name f) (image f) (disk_size_gib f) (network f) (username f) (password f) (ssh_key f) (negb (autostart f)) (isos f)) s, [])
  | TypeAddress i => (set_addresses (<[i := text]> (addresses s)) s, [])
  | RemoveAddress i => (set_addresses (delete i (addresses s)) s, [])
  | AddAddress => (set_addresses (addresses s ++ [""])%list s, [])
  | RetryMedia => (s, [RefreshMedia])
  | RetryCatalog => (s, [RefreshCatalog])
  | RetryNetworks => (s, [RefreshNetworks])
  | RetryHost => (s, [RefreshHost])
  | Submit => submit s
  | Close => (s, if blocked s then [] else [Closed])
  end.

(** The effect of the capacity row: it follows [diskSize]. *)
Definition settle (s : state) : state := set_rows (cpus_row s) (mem_row s) (integer_assign (diskSize s) (disk_row s)) s.

Definition step (s : state) (e : event) : state * list output :=
  let '(s, o) :=
    match e with
    | User a text => handle s a text
    | Loaded r => (mkState r (form s) (cpus_row s) (mem_row s) (disk_row s) (from s) (addresses s) (uploading s) (creating s) (jobs s), [])
    | Uploading b => (mkState (res s) (form s) (cpus_row s) (mem_row s) (disk_row s) (from s) (addresses s) b (creating s) (jobs s), [])
    | Answered a => answered a s
    end in
  (settle s, o).

Definition mount (r : resources) (j : provider) : state :=
  settle (mkState r defaults (integer_open 2) (memory_open 2048) (integer_open 20) FromImage [] false action_initial j).

(** ** View *)

(** Whether the platform lets the form be submitted: required fields are filled, no field is invalid. *)
Definition field_ok (required : bool) (value error : string) : bool := (negb required || truthy value) && negb (truthy error).
Definition form_valid (s : state) : bool :=
  let f := form s in
  field_ok true (name f) (if truthy (name f) then nameError (name f) else "") &&
  (bool_decide (from s = FromIso) ||
   field_ok true (username f) "" && field_ok false (ssh_key f) (keyError (ssh_key f)) &&
   forallb (λ a, field_ok true a (cidrError a false)) (addresses s)) &&
  integer_valid 1 MAX_SAFE_INTEGER (cpus_row s) && memory_valid (mem_row s) && integer_valid (imageSize s) MAX_SAFE_INTEGER (disk_row s).

Definition submit_disabled (s : state) : bool :=
  blocked s || negb (ready s) || negb (sourceAvailable s) || truthy (sourceError s) || truthy (UseResource.error (networks (res s)))
  || negb (validNetwork s).

Definition entry (id value error : string) (a : action) : node action := El "EntryRow" [("id", id); ("value", value); ("error", error)] false [a] [].

Definition ImagePicker (title value : string) (options : list ImageOption) (disabled : bool) : node action :=
  ChoiceRow title value ((λ o, mkChoice (opt_value o) (opt_label o) false) <$> options) PickImage disabled
    (default "" (opt_sub <$> List.find (λ o, String.eqb (opt_value o) value) options)).

Definition source_node (s : state) : list (node action) :=
  when (ready s && negb (truthy (sourceError s)))
    [match from s with
     | FromImage => ImagePicker "Image" (image (form s)) (imageOptions (res s)) (blocked s)
     | FromIso => ChoiceRow "Installation ISO" (selectedISO s) ((λ m, mkChoice (media_id m) (media_name m) false) <$> iso_media (res s)) PickIso false
                    "Install the operating system and create its account using the guest installer."
     end].

Definition guest_setup (s : state) : list (node action) :=
  when (bool_decide (from s = FromImage))
    [box "PreferencesGroup"
       ([label "p" (if custom s then "Automatic setup is unverified for custom images. Existing guest accounts may apply; these settings only take effect if the image supports cloud-init."
                    else "Create an account inside the VM. This is separate from the maco sign-in account.");
         entry "vm-user" (username (form s)) "" TypeUsername; entry "vm-password" (password (form s)) "" TypePassword;
         entry "vm-key" (ssh_key (form s)) (keyError (ssh_key (form s))) TypeKey] ++
        when (negb (truthy (password (form s))) && negb (truthy (ssh_key (form s))))
          [label "p" "No password or key is configured. Automatic setup will not provide a known sign-in method; add one for ordinary guest access."])%list].

Definition address_node (i : nat) (a : string) : node action :=
  box "div" [entry ("vm-address-" ++ pretty i) a (cidrError a false) (TypeAddress i); button ("Remove address " ++ pretty (S i)) false (RemoveAddress i)].

Definition view (s : state) : node action :=
  El "Dialog" [] false [Close]
    [button "Cancel" (blocked s) Close;
     El "button" [("type", "submit")] (submit_disabled s) (if form_valid s then [Submit] else []) [Text (if busy (creating s) then "Submitting…" else "Create")];
     box "form"
       (JobNotice (JobTracking.error (creating s)) ++
        [El "fieldset" [] (blocked s) []
          ([entry "vm-name" (name (form s)) (if truthy (name (form s)) then nameError (name (form s)) else "") TypeName;
            ChoiceRow "Install from" (match from s with FromImage => "image" | FromIso => "iso" end)
              [mkChoice "image" "Disk image" false; mkChoice "iso" "Installation ISO" false]
              (λ v, PickSource (if String.eqb v "iso" then FromIso else FromImage)) false ""] ++
           ResourceNotice (media (res s)) "installation media" RetryMedia ++
           (if decide (from s = FromImage) then ResourceNotice (catalog (res s)) "system images" RetryCatalog else []) ++
           source_node s ++
           when (ready s && negb (truthy (sourceError s)) && negb (sourceAvailable s))
             [label "p" (if truthy (image (form s)) && bool_decide (from s = FromImage)
                then "The selected image is unavailable. Choose another image or upload one below."
                else "Choose available installation media, or upload it below.")] ++
           guest_setup s ++
           ResourceNotice (networks (res s)) "networks" RetryNetworks ++
           [ChoiceRow "Network" (network (form s))
              (vmNetworkChoices (UseResource.data (networks (res s))) (Some (network (form s))) (UseResource.loading (networks (res s))))
              PickNetwork (UseResource.loading (networks (res s))) (networkHelp (network (form s)) (UseResource.data (networks (res s))))] ++
           ResourceNotice (host (res s)) "host capacity" RetryHost ++
           [IntegerEntryRow "vm-cpus" "Virtual CPUs" 1 MAX_SAFE_INTEGER TypeCpus (cpus_row s);
            MemoryEntryRow "vm-memory" false TypeMemory (mem_row s);
            IntegerEntryRow "vm-disk" "Disk capacity (GiB)" (imageSize s) MAX_SAFE_INTEGER TypeDisk (disk_row s)] ++
           when (overCapacity s) [label "NoticeBanner" "The requested assignment exceeds host capacity. Reduce it or consider other running workloads."] ++
           [El "SwitchRow" [("title", "Automatic Startup")] false [ToggleAutostart] []] ++
           when (bool_decide (from s = FromImage)) (imap address_node (addresses s) ++ [button "Add Address" false AddAddress])%list)%list;
         box "MediaLibrary" [];
         label "p" "Creation is submitted to Activity. Preparing a VM does not start it unless Automatic Startup is enabled."])%list].

(** ** Properties *)

Lemma submit_offered s : Submit ∈ offers (view s) → submit_disabled s = false ∧ form_valid s = true.
Proof.
  intros H. unfold view, guest_setup, source_node, ImagePicker, entry in H. offered H; try done.
  all: try (by apply choice_offers in H as (_ & c & _ & _ & H)); try (by apply integer_row_offers in H); try (by apply memory_row_offers in H as [_ H]).
  - destruct (form_valid s); [done|]. by apply not_elem_of_nil in H.
  - apply offers_imap in H as (i & x & _ & H). unfold address_node, entry in H. by offered H.
Qed.

(** The rows show the numbers of the form. *)
Definition rows_inv (s : state) : Prop :=
  integer_sync 1 MAX_SAFE_INTEGER (cpus_row s) ∧ memory_sync (mem_row s) ∧ int_value (disk_row s) = diskSize s.

Lemma create_settle_inv s : integer_sync 1 MAX_SAFE_INTEGER (cpus_row s) → memory_sync (mem_row s) → rows_inv (settle s).
Proof.
  intros Hc Hm. split_and!; [done|done|]. unfold settle, integer_assign, diskSize, imageSize. cbn.
  destruct (Z.eqb_spec (Z.max (disk_size_gib (form s)) (imageSize s)) (int_value (disk_row s))); cbn.
  - unfold diskSize, imageSize in *. destruct (_ =? _)%Z eqn:E; cbn; unbool; done.
  - unfold diskSize, imageSize in *. destruct (_ =? _)%Z eqn:E; cbn; unbool; done.
Qed.

Lemma create_handle_rows s a text : integer_sync 1 MAX_SAFE_INTEGER (cpus_row s) → memory_sync (mem_row s) →
  integer_sync 1 MAX_SAFE_INTEGER (cpus_row (fst (handle s a text))) ∧ memory_sync (mem_row (fst (handle s a text))).
Proof.
  intros Hc Hm. destruct a; cbn; try done.
  - split; [by apply integer_change_sync|done].
  - split; [done|by apply memory_change_sync].
  - unfold type_disk. by destruct (integer_change _ _ text (disk_row s)) as [r [v|]].
  - unfold submit. by case_match.
Qed.

Lemma create_step_inv s e : rows_inv s → rows_inv (fst (step s e)).
Proof.
  intros (Hc & Hm & _). unfold step. destruct e as [a text|r|b|answer]; [|by apply create_settle_inv..|by destruct answer; apply create_settle_inv].
  pose proof (create_handle_rows s a text Hc Hm) as [H1 H2]. destruct (handle s a text) as [s' o]. by apply create_settle_inv.
Qed.

Lemma create_reachable r j s : reachable step (mount r j) s → rows_inv s.
Proof. apply reachable_invariant; [apply create_settle_inv; [apply integer_open_sync|apply memory_open_sync]|apply create_step_inv]. Qed.

(** What the enabled button stands for. *)
Lemma submit_spec s text : Submit ∈ offers (view s) → (from s = FromIso → invalidAddresses s = false) →
  blocked s = false ∧ sourceAvailable s = true ∧ validNetwork s = true ∧ form_valid s = true ∧
  step s (User Submit text) = (settle (set_action (run_start (creating s)) (jobs s) s), [CreateVM_ (body s)]).
Proof.
  intros [Hd Hf]%submit_offered Ha. unfold submit_disabled in Hd. rewrite !orb_false_iff, !negb_false_iff in Hd.
  destruct Hd as [[[[[Hb Hr] Hs] He] Hn] Hv]. split_and!; try done. unfold step, handle, submit. rewrite Hr, Hs, Hv, He, Hn. cbn [negb orb].
  unfold form_valid in Hf. rewrite !andb_true_iff in Hf. destruct Hf as [[[[Hname Hg] _] _] _].
  assert (invalidAddresses s = false) as ->.
  { destruct (from s) eqn:E; [|by apply Ha]. apply orb_true_iff in Hg as [Hg|Hg]; [by apply bool_decide_eq_true in Hg|].
    apply andb_true_iff in Hg as [_ Hg]. rewrite forallb_forall in Hg. apply not_true_iff_false. unfold invalidAddresses.
    rewrite existsb_exists. intros (x & Hx & Ht). specialize (Hg x Hx). unfold field_ok in Hg. rewrite Ht in Hg. by rewrite andb_false_r in Hg. }
  unfold field_ok in Hname. apply andb_true_iff in Hname as [Hne Hname]. cbn in Hne. rewrite Hne in Hname.
  apply negb_true_iff in Hname. by rewrite Hname.
Qed.

(** The numbers of a valid form are those of its texts. *)
Lemma form_numbers s : rows_inv s → form_valid s = true →
  digits_value (int_text (cpus_row s)) = int_value (cpus_row s) ∧ (1 ≤ int_value (cpus_row s))%Z ∧
  memory_amount (mem_text (mem_row s)) = Some (mem_value (mem_row s)) ∧ (64 ≤ mem_value (mem_row s))%Z.
Proof.
  intros (Hc & Hm & _) Hf. unfold form_valid in Hf. rewrite !andb_true_iff in Hf. destruct Hf as [[[_ Hcv] Hmv] _].
  assert (integerError (int_text (cpus_row s)) 1 MAX_SAFE_INTEGER = "") as He.
  { unfold integer_valid in Hcv. by apply negb_true_iff, truthy_false in Hcv. }
  apply integerError_ok in He as (_ & _ & _ & He). pose proof (proj2 Hc Hcv) as E. pose proof (Hm Hmv) as Ea.
  apply memory_amount_bounds in Ea as Hb. split_and!; [done|lia|done|lia].
Qed.

Lemma imageSize_pos s : Forall (λ m, (0 ≤ media_size_gib m)%Z) (UseResource.data (media (res s))) → (1 ≤ imageSize s)%Z.
Proof.
  intros Hf. unfold imageSize. destruct (from s); [|done]. destruct (List.find _ _) as [m|] eqn:E; [|done].
  apply find_some_iff in E as [Hin _]. rewrite Forall_forall in Hf. specialize (Hf m Hin). cbn in Hf. destruct (Z.eqb_spec (media_size_gib m) 0); lia.
Qed.

Section accepted.
Context (GetMedia : string → option Media) (Lookup : string → bool).

(** The server's data is what the dialog shows. *)
Definition current_data (s : state) : Prop :=
  (∀ m, m ∈ UseResource.data (media (res s)) → GetMedia (media_id m) = Some m ∧ (0 ≤ media_size_gib m)%Z) ∧
  (∀ i, i ∈ UseResource.data (catalog (res s)) → Lookup (img_id i) = true ∧ img_id i ≠ "" ∧ starts_with "media:" (img_id i) = false) ∧
  NoDup (net_id <$> UseResource.data (networks (res s))).

(** The source of an available form is one the server knows. *)
Lemma image_known s : current_data s → from s = FromImage → sourceAvailable s = true →
  image (form s) ≠ "" ∧ imageBase GetMedia Lookup (image (form s)) = None.
Proof.
  intros (Hmedia & Hcat & _) Hfrom Hs. unfold sourceAvailable in Hs. rewrite Hfrom in Hs. apply existsb_exists in Hs as (o & Ho & <-%String.eqb_eq).
  apply list_elem_of_In in Ho. unfold imageOptions in Ho. apply elem_of_app in Ho as [Ho|Ho]; apply list_elem_of_fmap in Ho as (x & -> & Hx); cbn [opt_value].
  - destruct (Hcat x Hx) as (Hl & Hne & Hp). split; [done|]. unfold imageBase, starts_with in *. destruct (strip_prefix _ _); [done|]. by rewrite Hl.
  - apply list_elem_of_In, filter_In in Hx as [Hx Hk]. apply list_elem_of_In in Hx. destruct (Hmedia x Hx) as [Hg _]. unfold media_ref, imageBase.
    split; [done|]. rewrite strip_prefix_self, Hg, Hk. done.
Qed.

Lemma iso_known s : current_data s → from s = FromIso → sourceAvailable s = true →
  validateMedia GetMedia [selectedISO s] ["iso:" ++ selectedISO s; "disk"] [] = None.
Proof.
  intros (Hmedia & _) Hfrom Hs. unfold sourceAvailable in Hs. rewrite Hfrom in Hs. apply existsb_exists in Hs as (m & Hm & <-%String.eqb_eq).
  apply filter_In in Hm as [Hm Hk]. apply list_elem_of_In in Hm. destruct (Hmedia m Hm) as [Hg _]. apply String.eqb_eq in Hk.
  apply validateMedia_ok. split_and!.
  - apply NoDup_singleton.
  - intros id ->%list_elem_of_singleton. eauto.
  - apply NoDup_cons. split; [by intros ?%list_elem_of_singleton|apply NoDup_singleton].
  - intros x Hx. unfold boot_devices, iso_device. set_solver.
Qed.

Lemma network_known s : current_data s → validNetwork s = true →
  resolve_ref (UseResource.data (networks (res s))) (network (form s)) = Some (network (form s)).
Proof.
  intros (_ & _ & Hn) Hv. unfold validNetwork in Hv. apply selectable_spec in Hv. unfold resolve_ref.
  destruct (truthy (network (form s)) && negb (includes_str builtin_refs (network (form s)))) eqn:E; [|done].
  apply andb_true_iff in E as [_ E%negb_true_iff%includes_str_false]. destruct Hv as [?|(n & Hin & <- & _)]; [done|]. by rewrite (Resolve_id _ n Hn Hin).
Qed.

(** What the server accepts. *)
Lemma CreateVM_ok ParseCIDR hostname_rfc1123 MAC nets uuid p net :
  test name_re (cv_name p |?| "") = true → forallb ParseCIDR (cv_addresses p |?| []) = true →
  (truthy (cv_image p |?| "") = true ∧ cv_isos p |?| [] = [] ∧ imageBase GetMedia Lookup (cv_image p |?| "") = None ∨
   truthy (cv_image p |?| "") = false ∧ length (cv_isos p |?| []) = 1%nat) →
  resolve_ref nets (cv_network p |?| "") = Some net → validateMedia GetMedia (cv_isos p |?| []) (cv_boot_order p |?| []) [] = None →
  manifest_ok ParseCIDR hostname_rfc1123 (manifest_of uuid p net) = true →
  CreateVM GetMedia Lookup ParseCIDR hostname_rfc1123 MAC nets uuid p =
    inl (with_interfaces (exposeInterfaces MAC uuid (manifest_of uuid p net)) (manifest_of uuid p net)).
Proof.
  intros H1 H2 H3 H4 H5 H6. unfold CreateVM. rewrite H1, H2, H4, H5, H6. destruct H3 as [(-> & E & ->)|[-> E]].
  - rewrite E. done.
  - rewrite E. done.
Qed.

(** C20. A machine is created as it was asked for. The enabled button submits one request, and while it is
    answered nothing can be submitted again; the request carries the numbers of the two texts and a disk that
    holds its image; and when the server's library, catalog and networks are those shown, the name is a host
    name, the addresses parse and there is a user name, the server accepts it: the machine it saves has that
    name, that source, those numbers and that network. *)
Theorem create_accepted ParseCIDR hostname_rfc1123 MAC uuid r j s text : reachable step (mount r j) s → Submit ∈ offers (view s) →
  (from s = FromIso → invalidAddresses s = false ∧ username (form s) ≠ "") → current_data s →
  hostname_rfc1123 (name (form s)) = true →
  (from s = FromImage → ∀ a, a ∈ List.filter truthy (trim <$> addresses s) → ParseCIDR a = true) →
  snd (step s (User Submit text)) = [CreateVM_ (body s)] ∧ Submit ∉ offers (view (fst (step s (User Submit text)))) ∧
  ∃ m, CreateVM GetMedia Lookup ParseCIDR hostname_rfc1123 MAC (UseResource.data (networks (res s))) uuid (body s) = inl m ∧
    m_name m = name (form s) ∧ m_autostart m = Some (autostart (form s)) ∧ m_network m = Some (network (form s)) ∧
    m_cpus m = digits_value (int_text (cpus_row s)) ∧ memory_amount (mem_text (mem_row s)) = Some (m_memory_mib m) ∧
    (imageSize s ≤ m_disk_size_gib m)%Z ∧ m_disk_size_gib m = int_value (disk_row s) ∧
    match from s with
    | FromImage => m_image m = image (form s) ∧ m_isos m = Some []
    | FromIso => m_image m = "" ∧ m_isos m = Some [selectedISO s] ∧ m_boot_order m = Some ["iso:" ++ selectedISO s; "disk"]
    end.
Proof.
  intros Hr Hs Hiso Hcur Hhost Hcidr. destruct (submit_spec s text Hs) as (Hb & Hav & Hnet & Hf & Hstep); [intros E; by apply Hiso|].
  rewrite Hstep. split; [done|]. split.
  { intros [Hd _]%submit_offered. unfold submit_disabled, blocked in Hd. cbn in Hd. done. }
  pose proof (create_reachable r j s Hr) as Hinv. destruct (form_numbers s Hinv Hf) as (E1 & Hc & E2 & Hm).
  assert (1 ≤ imageSize s)%Z as Hi by (apply imageSize_pos, Forall_forall; intros m Hin; by apply Hcur).
  unfold form_valid in Hf. rewrite !andb_true_iff in Hf. destruct Hf as [[[[Hname Hguest] _] _] _].
  unfold field_ok in Hname. apply andb_true_iff in Hname as [Hne Hname]. cbn in Hne. rewrite Hne in Hname. apply negb_true_iff, truthy_false in Hname.
  assert (test name_re (name (form s)) = true) as Hre by (unfold nameError in Hname; by destruct (test name_re (name (form s)))).
  assert (manifest_ok ParseCIDR hostname_rfc1123 (manifest_of uuid (body s) (network (form s))) = true) as Hok.
  { unfold manifest_ok, manifest_of, body. cbn. rewrite Hhost. rewrite !andb_true_iff. split_and!; [done|lia|lia|unfold diskSize; lia| |].
    - apply forallb_forall. intros a Ha. destruct (from s) eqn:E; [|done]. apply Hcidr; [done|]. by apply list_elem_of_In.
    - apply truthy_true. destruct (from s) eqn:E; [|by apply Hiso]. apply orb_true_iff in Hguest as [Hg%bool_decide_eq_true|Hguest]; [congruence|].
      rewrite !andb_true_iff in Hguest. destruct Hguest as [[Hu _] _]. unfold field_ok in Hu. rewrite andb_true_r in Hu. cbn in Hu. by apply truthy_true in Hu. }
  eexists. split.
  - apply (CreateVM_ok _ _ _ _ _ _ (network (form s))); [done| | |by apply network_known| |done].
    + unfold manifest_ok in Hok. rewrite !andb_true_iff in Hok. apply Hok.
    + unfold body. cbn. destruct (from s) eqn:E; cbn; [left|by right]. destruct (image_known s Hcur E Hav) as [? ?]. by rewrite truthy_true.
    + unfold body. cbn. destruct (from s) eqn:E; cbn; [|by apply iso_known]. apply validateMedia_ok. split_and!.
      * constructor.
      * by intros id ?%not_elem_of_nil.
      * apply NoDup_singleton.
      * intros x Hx. unfold boot_devices. set_solver.
  - unfold with_interfaces, manifest_of, body. cbn. split_and!; try done; [unfold diskSize; lia|by destruct Hinv as (_ & _ & ->)|].
    by destruct (from s).
Qed.
End accepted.

(** ** Concrete dialogs *)

Definition loaded {D} (d : D) : @UseResource.view D := UseResource.mkView d "" false.
Definition sample_image : CatalogImage := mkCatalogImage "arm64" "" "Ubuntu" "ubuntu" false "ubuntu-24.04-arm64" 0 "24.04".
Definition sample_resources (m : list Media) : resources := mkResources (loaded [sample_image]) (loaded m) (loaded []) (loaded None).
Definition after_events (m : list Media) (es : list event) : state := fst (run step (mount (sample_resources m) initial) es).

Lemma create_accepted_witness :
  let s := after_events [] [User TypeName "web"; User TypeCpus "04"; User AddAddress ""; User (TypeAddress 0) " 10.0.0.2/24"] in
  snd (step s (User Submit "")) = [CreateVM_ (body s)] ∧
  ∃ m, CreateVM (λ _, None) (String.eqb "ubuntu-24.04-arm64") (String.eqb "10.0.0.2/24") (λ _, true) (λ _, "02:00:00:00:00:01") [] "vm1" (body s) = inl m ∧
    m_cpus m = 4%Z.
Proof.
  intros s. destruct (create_accepted (λ _, None) (String.eqb "ubuntu-24.04-arm64") (String.eqb "10.0.0.2/24") (λ _, true) (λ _, "02:00:00:00:00:01") "vm1"
    (sample_resources []) initial s "") as (H1 & _ & m & H2 & _ & _ & _ & H3 & _).
  - by eexists.
  - apply list_elem_of_In. vm_compute. tauto.
  - done.
  - split_and!; [by intros m ?%not_elem_of_nil| |constructor]. intros i ->%list_elem_of_singleton. by vm_compute.
  - done.
  - intros _ a Ha. apply list_elem_of_In in Ha. vm_compute in Ha. destruct Ha as [<-|[]]. reflexivity.
  - split; [exact H1|]. exists m. split; [exact H2|]. rewrite H3. vm_compute. reflexivity.
Defined.

Definition sample_iso : Media := mkMedia "iso1" false "iso" "Installer" 1.
Definition sample_disk_image (id : string) (size : Z) : Media := mkMedia id false "image" id size.

(** An address typed for an image and left malformed is not on the page of an installation from an ISO, nor
    in what it would send; yet the enabled button does nothing. *)
Lemma hidden_address_blocks :
  let s := after_events [sample_iso] [User TypeName "web"; User AddAddress ""; User (TypeAddress 0) "10.0.0"; User (PickSource FromIso) ""; User (PickIso "iso1") ""] in
  Submit ∈ offers (view s) ∧ snd (step s (User Submit "")) = [] ∧ cv_addresses (body s) = Some [].
Proof. split; [|by vm_compute]. apply list_elem_of_In. vm_compute. tauto. Qed.

(** A user name cleared for an image is sent empty for an ISO, and the server refuses the machine. *)
Lemma iso_needs_username :
  let s := after_events [sample_iso] [User TypeName "web"; User TypeUsername ""; User (PickSource FromIso) ""; User (PickIso "iso1") ""] in
  snd (step s (User Submit "")) = [CreateVM_ (body s)] ∧
  CreateVM (λ id, if String.eqb id "iso1" then Some sample_iso else None) (λ _, true) (λ _, true) (λ _, true) (λ _, "02:00:00:00:00:01") [] "vm1" (body s) =
    inr "invalid manifest".
Proof. by vm_compute. Qed.

(** A capacity rejected for a large image becomes valid when a smaller image is chosen, but is not taken
    over: the field shows 3 without an error, and 30 GiB are asked for. *)
Lemma capacity_not_taken_over :
  let media := [sample_disk_image "large" 10; sample_disk_image "small" 2] in
  let s := after_events media [User TypeName "web"; User (PickImage "media:large") ""; User TypeDisk "30"; User TypeDisk "3"; User (PickImage "media:small") ""] in
  int_text (disk_row s) = "3" ∧ integer_shown (imageSize s) MAX_SAFE_INTEGER (disk_row s) = "" ∧ Submit ∈ offers (view s) ∧
  cv_disk_size_gib (body s) = Some 30%Z.
Proof. split_and!; [by vm_compute..| |by vm_compute]. apply list_elem_of_In. vm_compute. tauto. Qed.
