(* ===== verification/CreateNetwork.v ===== *)
(** * Creating and editing a network ([src/web/src/components/CreateNetworkDialog.tsx], [InterfaceMembers.tsx])

    The dialog over the host's interfaces and the networks, and the server's rules for what it sends:
    [CreateNetwork] and [UpdateNetwork] of [src/pkg/engine/network.go] up to saving the manifest, and the
    test of manifests of [src/pkg/network/store.go]. *)

From S2P Require Import Prelude JsString Regex Types Ux UseResource JobTracking Dom Widgets EntryRows ServerNetworks.
Local Open Scope string_scope.

(** ** The server's side *)

Section server.
(** Go's [net.ParseCIDR] with an IPv4 address, a rule of the validation library, and the hash of
    [mcastGroup], which is never empty. *)
Context (ParseCIDR4 hostname_rfc1123 : string → bool) (mcastGroup : string → string).

(** [/^[a-zA-Z][a-zA-Z0-9]{0,14}$/], and the devices of bridges and VLANs. *)
Definition is_letter (c : ascii) : bool := is_upper c || is_lower c.
Definition interface_re : re := Seq (Cls is_letter) (Rep 0 14 (Cls is_alnum)).
Definition numbered (prefix s : string) : bool :=
  match strip_prefix prefix s with Some d => truthy d && all_chars is_digit d | None => false end.

Definition vlan_key (v : VLAN) : string := vlan_parent v ++ ":" ++ pretty (vlan_tag v).
Definition vlan_ok (v : VLAN) : bool := truthy (vlan_parent v) && (1 <=? vlan_tag v)%Z && (vlan_tag v <=? 4094)%Z.
Definition absent (o : option string) : bool := negb (truthy (o |?| "")).
Definition implies (a b : bool) : bool := negb a || b.
#[export] Instance VLAN_eq_dec : EqDecision VLAN.
Proof. solve_decision. Defined.

Definition no_dup (l : list string) : bool := bool_decide (NoDup l).

(** The interfaces that a manifest names. *)
Definition named_interfaces (n : Network) : list string :=
  ((net_members n |?| []) ++ (if absent (net_uplink n) then [] else [net_uplink n |?| ""]) ++ (net_applied_members n |?| []) ++
  flat_map (λ v, vlan_parent v :: (if absent (vlan_device v) then [] else [vlan_device v |?| ""])) (net_vlans n |?| []) ++
  (if absent (net_device n) then [] else [net_device n |?| ""]) ++ (if absent (net_parent n) then [] else [net_parent n |?| ""]))%list.

(** [Store.check] *)
Definition check (n : Network) : bool :=
  let mode := net_mode n in
  let vlans := net_vlans n |?| [] in
  let members := net_members n |?| [] in
  let has m := bool_decide (mode = m) in
  let uplinked := has ModeBridged || has ModeVmnetBridged in
  hostname_rfc1123 (net_name n) &&
  forallb vlan_ok (vlans ++ (net_applied_vlans n |?| []))%list &&
  forallb (λ a, absent a || ParseCIDR4 (a |?| "")) [net_address n; net_applied_address n] &&
  implies (has ModeSwitch) (negb (absent (net_group n))) &&
  Bool.eqb uplinked (negb (absent (net_uplink n))) &&
  implies (negb (has ModeVlan)) (absent (net_parent n) && (net_tag n |?| 0 =? 0)%Z) &&
  (if has ModeVlan then
     negb (absent (net_parent n)) && (1 <=? net_tag n |?| 0)%Z && (net_tag n |?| 0 <=? 4094)%Z &&
     absent (net_address n) && bool_decide (members = []) && bool_decide (vlans = []) &&
     (absent (net_device n) || numbered "vlan" (net_device n |?| ""))
   else
     implies (negb (has ModeBridge)) (absent (net_device n) && absent (net_address n) && bool_decide (members = []) && bool_decide (vlans = [])) &&
     (absent (net_device n) || numbered "bridge" (net_device n |?| ""))) &&
  forallb (λ v, numbered "vlan" (vlan_device v |?| "")) (net_applied_vlans n |?| []) &&
  forallb (λ v, absent (vlan_device v) || existsb (λ w, bool_decide (w = v)) (net_applied_vlans n |?| [])) vlans &&
  no_dup members && negb (includes_str members (net_device n |?| "")) && no_dup (vlan_key <$> vlans) &&
  forallb (test interface_re) (named_interfaces n).

Definition mode_of (s : string) : option NetworkMode :=
  List.find (λ m, String.eqb (mode_string m) s) [ModeUser; ModeVmnetBridged; ModeBridge; ModeSwitch; ModeBridged; ModeVlan].

Definition reserved (name : string) : bool := String.eqb name "user" || starts_with "vmnet-" name.

(** [CreateNetwork], up to the manifest that it saves. *)
Definition CreateNetwork (nets : list Network) (id : string) (p : CreateNetworkParams) : Network + string :=
  let name := cn_name p |?| "" in
  let mode := (cn_mode p |?| "") ||s "bridge" in
  let uplink := cn_uplink p |?| "" in
  let uplinked := includes_str ["bridged"; "vmnet-bridged"] mode in
  if reserved name then inr "network name is reserved"
  else match Resolve nets name with
  | Some _ => inr "network already exists"
  | None =>
      if negb uplinked && truthy uplink then inr "uplink requires vmnet-bridged mode"
      else if uplinked && negb (truthy uplink) then inr "vmnet-bridged network requires an uplink"
      else if String.eqb mode "vlan" && (negb (truthy (cn_parent p |?| "")) || negb (1 <=? cn_tag p |?| 0)%Z || negb (cn_tag p |?| 0 <=? 4094)%Z)
      then inr "vlan network requires a parent interface and a tag between 1 and 4094"
      else
        match mode_of mode with
        | None => inr "invalid network"
        | Some m =>
            let n := mkNetwork (cn_address p) None None None (cn_device p) (if bool_decide (m = ModeSwitch) then Some (mcastGroup id) else None) id
                       (cn_members p) m name None (cn_parent p) (cn_tag p) (if uplinked then Some uplink else None) (cn_vlans p) in
            if check n then inl n else inr "invalid network"
        end
  end.

(** Whether the device of a network is a member of another one. *)
Definition attached (nets : list Network) (n : Network) : bool :=
  let device := net_device n |?| "" in
  existsb (λ o, negb (String.eqb (net_id o) (net_id n)) &&
    (includes_str (net_members o |?| []) device || includes_str (net_applied_members o |?| []) device)) nets.

(** The fields that an update sets. *)
Definition requested_vlan (v : VLAN) : VLAN := mkVLAN None None (vlan_parent v) (vlan_tag v).
Definition updated (n : Network) (p : CreateNetworkParams) : Network :=
  mkNetwork (cn_address p) (net_applied_address n) (net_applied_members n) (net_applied_vlans n) (net_device n) (net_group n) (net_id n)
    (cn_members p) (net_mode n) (net_name n) (net_owned n) (cn_parent p) (cn_tag p) (cn_uplink p) (Some (requested_vlan <$> (cn_vlans p |?| []))).

(** [UpdateNetwork], up to the manifest that it saves, for a network that no running machine uses. *)
Definition UpdateNetwork (nets : list Network) (ref : string) (p : CreateNetworkParams) : Network + string :=
  match Resolve nets ref with
  | None => inr "network not found"
  | Some n =>
      let device := net_device n |?| "" in
      let retagged := negb (String.eqb (net_parent n |?| "") (cn_parent p |?| "")) || negb (net_tag n |?| 0 =? cn_tag p |?| 0)%Z in
      if negb (String.eqb (cn_name p |?| "") (net_name n)) || negb (String.eqb (cn_mode p |?| "") (mode_string (net_mode n)))
      then inr "network name and mode must not change"
      else if truthy (cn_device p |?| "") && negb (String.eqb (cn_device p |?| "") device) then inr "applied device must not change"
      else if bool_decide (net_mode n = ModeVlan) && retagged && truthy device && (negb (net_owned n |?| false) || attached nets n)
      then inr "cannot retag the VLAN"
      else
        let n := updated n p in if check n then inl n else inr "invalid network"
  end.
End server.

(** ** The dialog *)

Record state := mkState {
  editing : option Network;
  name : string; mode : string; address : string; uplink : string;
  members : list string;
  parent : string;
  tag_row : integer_row;
  ports : @UseResource.view (list NetworkInterface);
  inventory : @UseResource.view (list Network);
  creating : action_state;
  jobs : provider
}.

Inductive action :=
  | TypeName | PickMode (m : string) | TypeAddress | Toggle (device : string) | PickUplink (d : string) | PickParent (d : string)
  | TypeTag | RetryPorts | RetryInventory | Submit | Close.
#[export] Instance action_eq_dec : EqDecision action.
Proof. solve_decision. Defined.

Inductive event :=
  | User (a : action) (text : string)
  | Ports (v : @UseResource.view (list NetworkInterface))
  | Inventory (v : @UseResource.view (list Network))
  | Answered (answer : Job + string).
Definition user (e : event) : option action := match e with User a _ => Some a | _ => None end.

Inductive output := CreateNetwork_ (p : CreateNetworkParams) | UpdateNetwork_ (id : string) (p : CreateNetworkParams)
  | Closed | RefreshPorts | RefreshInventory.

Definition first_vlan (n : option Network) : option VLAN := n ≫= λ n, head (net_vlans n |?| []).
(** [network?.parent || network?.vlans?.[0]?.parent || ''], and the same for the tag with 100. *)
Definition initial_parent (n : option Network) : string :=
  default "" (n ≫= net_parent) ||s default "" (vlan_parent <$> first_vlan n).
Definition initial_tag (n : option Network) : Z :=
  let t := default 0%Z (n ≫= net_tag) in
  if (t =? 0)%Z then let t := default 0%Z (vlan_tag <$> first_vlan n) in if (t =? 0)%Z then 100%Z else t else t.

Definition mount (n : option Network) (p : @UseResource.view (list NetworkInterface)) (i : @UseResource.view (list Network)) (j : provider) : state :=
  mkState n (default "" (net_name <$> n)) (default "bridge" (mode_string ∘ net_mode <$> n)) (default "" (n ≫= net_address))
    (default "" (n ≫= net_uplink)) (default [] (n ≫= net_members)) (initial_parent n) (integer_open (initial_tag n)) p i action_initial j.

(** *** What a render computes *)

Definition is_editing (s : state) : bool := match editing s with Some _ => true | None => false end.

Definition interfaces (s : state) : list NetworkInterface := List.filter (λ i, truthy (port_hardware_port i)) (UseResource.data (ports s)).
Definition is_mode (m : string) (s : state) : bool := String.eqb (mode s) m.
Definition needsPorts (s : state) : bool := includes_str ["bridge"; "vlan"; "vmnet-bridged"] (mode s).
Definition blocked (s : state) : bool :=
  busy (creating s) || (needsPorts s && (UseResource.loading (ports s) || truthy (UseResource.error (ports s))
    || UseResource.loading (inventory s) || truthy (UseResource.error (inventory s)))).
Definition validation (s : state) : string := nameError (name s) ||s (if is_mode "bridge" s then cidrError (address s) true else "").

Definition undetected (device : string) : NetworkInterface := mkNetworkInterface [] device "" false.
Definition has_device (l : list NetworkInterface) (d : string) : bool := existsb (λ i, String.eqb (port_device i) d) l.
Definition extraDevices (s : state) : list NetworkInterface :=
  undetected <$> List.filter (λ d, negb (has_device (interfaces s) d))
    (uniq (List.filter truthy [default "" (editing s ≫= net_uplink); parent s])).
Definition availableInterfaces (s : state) : list NetworkInterface := (interfaces s ++ extraDevices s)%list.
Definition interfaceChoices (s : state) : list Choice :=
  (λ i, mkChoice (port_device i)
     (if truthy (port_hardware_port i) then port_device i ++ " · " ++ port_hardware_port i else port_device i) false) <$> availableInterfaces s.
Definition vlanMembers (s : state) : list NetworkInterface :=
  (λ n, mkNetworkInterface [] (net_device n |?| "") ("VLAN " ++ pretty (net_tag n |?| 0%Z) ++ " · " ++ net_name n) true) <$>
    List.filter (λ n, bool_decide (net_mode n = ModeVlan) && truthy (net_device n |?| "")) (UseResource.data (inventory s)).
Definition detectedMembers (s : state) : list NetworkInterface := (interfaces s ++ vlanMembers s)%list.
Definition memberOptions (s : state) : list NetworkInterface :=
  (detectedMembers s ++ (undetected <$> List.filter (λ d, negb (has_device (detectedMembers s) d)) (members s)))%list.

(** *** Handlers *)

Definition set_fields (nm md ad up : string) (s : state) : state :=
  mkState (editing s) nm md ad up (members s) (parent s) (tag_row s) (ports s) (inventory s) (creating s) (jobs s).
Definition set_members (l : list string) (s : state) : state :=
  mkState (editing s) (name s) (mode s) (address s) (uplink s) l (parent s) (tag_row s) (ports s) (inventory s) (creating s) (jobs s).
Definition set_vlan (p : string) (t : integer_row) (s : state) : state :=
  mkState (editing s) (name s) (mode s) (address s) (uplink s) (members s) p t (ports s) (inventory s) (creating s) (jobs s).
Definition set_resources (p : @UseResource.view (list NetworkInterface)) (i : @UseResource.view (list Network)) (s : state) : state :=
  mkState (editing s) (name s) (mode s) (address s) (uplink s) (members s) (parent s) (tag_row s) p i (creating s) (jobs s).
Definition set_action (a : action_state) (j : provider) (s : state) : state :=
  mkState (editing s) (name s) (mode s) (address s) (uplink s) (members s) (parent s) (tag_row s) (ports s) (inventory s) a j.

(** [toggle] of [InterfaceMembers] *)
Definition toggle (device : string) (selected : list string) : list string :=
  if includes_str selected device then List.filter (λ e, negb (String.eqb e device)) selected else (selected ++ [device])%list.

(** The row of the tag is there in VLAN mode only: it opens anew when the mode is chosen. *)
Definition pick_mode (m : string) (s : state) : state :=
  let s := set_fields (name s) m (address s) (uplink s) s in
  if String.eqb m "vlan" then s else set_vlan (parent s) (integer_open (int_value (tag_row s))) s.

Definition params (s : state) : CreateNetworkParams :=
  mkCreateNetworkParams (Some (if is_mode "bridge" s then address s else "")) (editing s ≫= net_device)
    (Some (if is_mode "bridge" s then members s else [])) (Some (mode s)) (Some (name s)) (Some (if is_mode "vlan" s then parent s else ""))
    (Some (if is_mode "vlan" s then int_value (tag_row s) else 0%Z)) (Some (if is_mode "vmnet-bridged" s then uplink s else ""))
    (Some (if is_mode "bridge" s then default [] (editing s ≫= net_vlans) else [])).

Definition submit (s : state) : state * list output :=
  if blocked s || truthy (validation s) then (s, [])
  else (set_action (run_start (creating s)) (jobs s) s,
        [match editing s with Some n => UpdateNetwork_ (net_id n) (params s) | None => CreateNetwork_ (params s) end]).

Definition answered (answer : Job + string) (s : state) : state * list output :=
  let '(a, j, job) := run_end answer (creating s) (jobs s) in
  (set_action a j s, match job with Some _ => [Closed] | None => [] end).

Definition step (s : state) (e : event) : state * list output :=
  match e with
  | User TypeName text => (set_fields text (mode s) (address s) (uplink s) s, [])
  | User (PickMode m) _ => (pick_mode m s, [])
  | User TypeAddress text => (set_fields (name s) (mode s) text (uplink s) s, [])
  | User (PickUplink d) _ => (set_fields (name s) (mode s) (address s) d s, [])
  | User (Toggle d) _ => (set_members (toggle d (members s)) s, [])
  | User (PickParent d) _ => (set_vlan d (tag_row s) s, [])
  | User TypeTag text => (set_vlan (parent s) (fst (integer_change 1 4094 text (tag_row s))) s, [])
  | User RetryPorts _ => (s, [RefreshPorts])
  | User RetryInventory _ => (s, [RefreshInventory])
  | User Submit _ => submit s
  | User Close _ => (s, if busy (creating s) then [] else [Closed])
  | Ports v => (set_resources v (inventory s) s, [])
  | Inventory v => (set_resources (ports s) v s, [])
  | Answered a => answered a s
  end.

(** *** View *)

Definition field_ok (required : bool) (value error : string) : bool := (negb required || truthy value) && negb (truthy error).
Definition form_valid (s : state) : bool :=
  field_ok true (name s) (if truthy (name s) then nameError (name s) else "") &&
  (negb (is_mode "bridge" s) || field_ok false (address s) (cidrError (address s) true)) &&
  (negb (is_mode "vlan" s) || integer_valid 1 4094 (tag_row s)).

Definition submit_disabled (s : state) : bool :=
  blocked s || truthy (validation s) || negb (truthy (trim (name s))) || (is_mode "vmnet-bridged" s && negb (truthy (uplink s)))
  || (is_mode "vlan" s && negb (truthy (parent s))).

Definition entry (id value error : string) (disabled : bool) (a : action) : node action :=
  El "EntryRow" [("id", id); ("value", value); ("error", error)] disabled [a] [].

Definition mode_choices : list Choice := (λ k, mkChoice (nk_value k) (nk_label k) false) <$> networkModes.

Definition InterfaceMembers (title : string) (ports : list NetworkInterface) (selected : list string) : node action :=
  box "fieldset" (label "legend" title ::
    match ports with
    | [] => [label "p" "No host interfaces detected."]
    | _ => (λ i, El "label" [] false []
              [El "input" [("type", "checkbox"); ("checked", if includes_str selected (port_device i) then "true" else "false")] false [Toggle (port_device i)] [];
               label "span" (port_device i ++ (if truthy (port_hardware_port i) then " · " ++ port_hardware_port i else " · Not currently detected"))]) <$> ports
    end).

Definition uplink_help (s : state) : string :=
  if negb (UseResource.loading (ports s)) && negb (truthy (UseResource.error (ports s))) && bool_decide (interfaceChoices s = [])
  then "No eligible physical adapters found. Connect an adapter or choose another connectivity type."
  else "Choose the local network adapter that will carry VM traffic.".

Definition view (s : state) : node action :=
  El "Dialog" [("title", match editing s with Some n => "Edit " ++ net_name n | None => "Create network" end)] false [Close]
    [button "Cancel" (busy (creating s)) Close;
     El "button" [("type", "submit")] (submit_disabled s) (if form_valid s then [Submit] else [])
       [Text (if busy (creating s) then "Saving…" else match editing s with Some _ => "Save and apply" | None => "Create" end)];
     box "form"
       (JobNotice (JobTracking.error (creating s)) ++
        when (needsPorts s) (ResourceNotice (ports s) "host adapters" RetryPorts ++ ResourceNotice (inventory s) "networks" RetryInventory) ++
        when (is_editing s)
          [label "NoticeBanner" "Applying changes updates host connectivity. VMs using this network can lose connections; reconnect or update guest addressing afterward."] ++
        [El "fieldset" [] (blocked s) []
          ([entry "network-name" (name s) (if truthy (name s) then nameError (name s) else "") (is_editing s) TypeName;
            match editing s with
            | None => ChoiceRow "Connectivity" (mode s) mode_choices PickMode false (default "" (nk_help <$> find_kind (mode s) networkModes))
            | Some n => label "p" ("Connectivity: " ++ networkModeName (mode_string (net_mode n)))
            end] ++
           when (is_mode "bridge" s)
             [entry "network-address" (address s) (cidrError (address s) true) false TypeAddress;
              InterfaceMembers "Bridge members (optional)" (memberOptions s) (members s)] ++
           when (is_mode "vmnet-bridged" s) [ChoiceRow "Physical Adapter" (uplink s) (interfaceChoices s) PickUplink false (uplink_help s)] ++
           when (is_mode "vlan" s)
             [ChoiceRow "Parent interface" (parent s) (interfaceChoices s) PickParent false "";
              IntegerEntryRow "network-tag" "VLAN tag" 1 4094 TypeTag (tag_row s);
              label "p" ("Applying creates a tagged VLAN interface on " ++ (parent s ||s "the selected parent") ++ ". Add it to a bridge’s members to attach VMs.")])%list])%list].

(** ** Properties *)

Lemma elem_of_toggle x d l : x ∈ toggle d l ↔ (x ∈ l ∧ x ≠ d) ∨ (x = d ∧ d ∉ l).
Proof.
  unfold toggle. destruct (includes_str l d) eqn:E.
  - apply includes_str_spec in E. rewrite list_elem_of_In, filter_In, <- list_elem_of_In, negb_true_iff, String.eqb_neq. naive_solver.
  - apply includes_str_false in E. rewrite elem_of_app, list_elem_of_singleton. split; [|naive_solver].
    intros [Hx| ->]; [left|by right]. split; [done|]. by intros ->.
Qed.

Lemma toggle_nodup d l : NoDup l → NoDup (toggle d l).
Proof.
  unfold toggle. destruct (includes_str l d) eqn:E; intros Hl.
  - by apply NoDup_ListNoDup, List.NoDup_filter, NoDup_ListNoDup.
  - apply includes_str_false in E. apply NoDup_app. split_and!; [done| |apply NoDup_singleton]. by intros x Hx ->%list_elem_of_singleton.
Qed.

Definition modes : list string := nk_value <$> networkModes.

(** What the controls of the dialog stand for. *)
Lemma dialog_offers s a : a ∈ offers (view s) →
  match a with
  | TypeName => is_editing s = false
  | PickMode m => is_editing s = false ∧ m ∈ modes
  | Submit => submit_disabled s = false ∧ form_valid s = true
  | _ => True
  end.
Proof.
  intros H. unfold view, InterfaceMembers, entry in H. offered H; try (by subst).
  all: try (by apply choice_offers in H as (_ & c & _ & _ & ->)); try (by apply integer_row_offers in H as ->).
  - destruct (form_valid s) eqn:E; [|by apply not_elem_of_nil in H]. by apply list_elem_of_singleton in H as ->.
  - apply choice_offers in H as (_ & c & Hc & _ & ->). unfold is_editing. rewrite Heqo. split; [done|].
    apply list_elem_of_fmap in Hc as (k & -> & Hk). rewrite chosen_value; [|by apply list_elem_of_In in Hk; cbn in Hk; naive_solver].
    apply list_elem_of_fmap. by exists k.
  - apply offers_fmap in H as (i & _ & H). offered H. by subst.
Qed.

(** The dialog as its user can make it: creating, the mode is one of the choices; editing, name and mode are
    those of the network. *)
Definition dialog_inv (n : option Network) (s : state) : Prop :=
  editing s = n ∧ NoDup (members s) ∧ integer_sync 1 4094 (tag_row s) ∧
  match n with
  | Some n => name s = net_name n ∧ mode s = mode_string (net_mode n)
  | None => mode s ∈ modes
  end.

Lemma dialog_step n s e : dialog_inv n s → (∀ a, user e = Some a → a ∈ offers (view s)) → dialog_inv n (fst (step s e)).
Proof.
  intros (He & Hn & Ht & Hm) Hu. destruct e as [a text|p|i|answer]; [|done|done|].
  - specialize (Hu a eq_refl). apply dialog_offers in Hu. destruct a; cbn [step]; try done.
    + unfold is_editing in Hu. rewrite He in Hu. by destruct n.
    + unfold pick_mode, is_editing in *. rewrite He in Hu. destruct n; [by destruct Hu|]. destruct Hu as [_ Hm'].
      destruct (String.eqb m "vlan"); (split_and!; [done..| |done]); [done|apply integer_open_sync].
    + split_and!; [done|by apply toggle_nodup|done..].
    + split_and!; [done|done|by apply integer_change_sync|done].
    + unfold submit. by destruct (_ || _).
  - cbn [step]. unfold answered. by destruct answer.
Qed.

Lemma dialog_legal n p i j es : NoDup (default [] (n ≫= net_members)) →
  legal step view user (mount n p i j) es → dialog_inv n (run step (mount n p i j) es).1.
Proof.
  intros Hn. apply legal_invariant; [|apply dialog_step]. split_and!; [done|done|apply integer_open_sync|].
  destruct n; [done|]. apply includes_str_spec. reflexivity.
Qed.

(** What the enabled button stands for. *)
Lemma network_submit s text : Submit ∈ offers (view s) →
  blocked s = false ∧ validation s = "" ∧
  (is_mode "vmnet-bridged" s = true → uplink s ≠ "") ∧ (is_mode "vlan" s = true → parent s ≠ "" ∧ integer_valid 1 4094 (tag_row s) = true) ∧
  step s (User Submit text) = (set_action (run_start (creating s)) (jobs s) s,
     [match editing s with Some n => UpdateNetwork_ (net_id n) (params s) | None => CreateNetwork_ (params s) end]).
Proof.
  intros [Hd Hf]%dialog_offers. unfold submit_disabled in Hd. rewrite !orb_false_iff in Hd. destruct Hd as [[[[Hb Hv] _] Hu] Hp].
  unfold form_valid in Hf. rewrite !andb_true_iff in Hf. destruct Hf as [_ Ht].
  split_and!; [done|by apply truthy_false| | |by unfold step, submit; rewrite Hb, Hv].
  - intros E. rewrite E in Hu. by apply negb_false_iff, truthy_true in Hu.
  - intros E. rewrite E in Hp, Ht. split; [by apply negb_false_iff, truthy_true in Hp|done].
Qed.

Lemma tag_number s : integer_sync 1 4094 (tag_row s) → integer_valid 1 4094 (tag_row s) = true →
  digits_value (int_text (tag_row s)) = int_value (tag_row s) ∧ (1 ≤ int_value (tag_row s) ≤ 4094)%Z.
Proof.
  intros [_ H] Hv. specialize (H Hv). unfold integer_valid in Hv. apply negb_true_iff, truthy_false, integerError_ok in Hv. lia.
Qed.

(** The interfaces that the dialog sends. *)
Definition chosen_interfaces (s : state) : list string :=
  if is_mode "bridge" s then members s else if is_mode "vmnet-bridged" s then [uplink s] else if is_mode "vlan" s then [parent s] else [].

(** The network saved is the one on the page. *)
Definition saved (s : state) (m : Network) : Prop :=
  net_name m = name s ∧ mode_string (net_mode m) = mode s ∧
  net_address m |?| "" = (if is_mode "bridge" s then address s else "") ∧ net_members m |?| [] = (if is_mode "bridge" s then members s else []) ∧
  net_uplink m |?| "" = (if is_mode "vmnet-bridged" s then uplink s else "") ∧ net_parent m |?| "" = (if is_mode "vlan" s then parent s else "") ∧
  net_tag m |?| 0%Z = (if is_mode "vlan" s then digits_value (int_text (tag_row s)) else 0%Z).

Section accepted.
Context (ParseCIDR4 hostname_rfc1123 : string → bool) (mcastGroup : string → string).

(** What the server asks of a form whose button is enabled. *)
Record sound (s : state) : Prop := {
  sound_name : hostname_rfc1123 (name s) = true;
  sound_address : is_mode "bridge" s = true → address s = "" ∨ ParseCIDR4 (address s) = true;
  sound_interfaces : Forall (λ d, test interface_re d = true) (chosen_interfaces s);
  sound_members : NoDup (members s);
  sound_uplink : is_mode "vmnet-bridged" s = true → uplink s ≠ "";
  sound_parent : is_mode "vlan" s = true → parent s ≠ "";
  sound_tag : is_mode "vlan" s = true → (1 ≤ int_value (tag_row s) ≤ 4094)%Z ∧ digits_value (int_text (tag_row s)) = int_value (tag_row s)
}.

Lemma no_empty_member l : Forall (λ d, test interface_re d = true) l → includes_str l "" = false.
Proof. rewrite includes_str_false. intros Hl Hin. rewrite Forall_forall in Hl. by specialize (Hl "" Hin). Qed.

Lemma address_ok s : is_mode "bridge" s = true → sound s → absent (Some (address s)) || ParseCIDR4 (address s) = true.
Proof. intros Hm [_ Ha _ _ _ _ _]. destruct (Ha Hm) as [->| ->]; [done|by rewrite orb_true_r]. Qed.

Lemma all_valid s : sound s → forallb (test interface_re) (chosen_interfaces s) = true.
Proof. intros [_ _ Hi _ _ _ _]. apply forallb_forall. intros d Hd%list_elem_of_In. rewrite Forall_forall in Hi. by apply Hi. Qed.

(** Boolean forms of what a sound form is. *)
Lemma no_dup_ok l : NoDup l → no_dup l = true.
Proof. intros. by apply bool_decide_eq_true_2. Qed.
Lemma absent_some x : x ≠ "" → absent (Some x) = false.
Proof. intros H. unfold absent. cbn. by rewrite (proj2 (truthy_true x) H). Qed.

Lemma create_check s nets uuid : mode s ∈ modes → editing s = None → mcastGroup uuid ≠ "" → sound s →
  reserved (name s) = false → Resolve nets (name s) = None →
  ∃ m, CreateNetwork ParseCIDR4 hostname_rfc1123 mcastGroup nets uuid (params s) = inl m ∧ net_id m = uuid ∧ saved s m.
Proof.
  intros Hm He Hg Hs Hres Hnone. pose proof (all_valid s Hs) as Hv. pose proof (address_ok s) as Ha. specialize (λ H, Ha H Hs).
  pose proof (no_empty_member (members s)) as Hne. unfold includes_str in Hne.
  destruct Hs as [Hname _ Hi Hnd%no_dup_ok Hu Hp Ht]. unfold CreateNetwork, params, saved, chosen_interfaces, is_mode in *. rewrite He.
  cbv zeta. cbn [cn_name cn_uplink cn_mode or_else from_option id]. rewrite Hres, Hnone. apply absent_some in Hg.
  unfold modes in Hm. cbn in Hm. repeat (apply elem_of_cons in Hm as [Hm|Hm]); [..|by apply not_elem_of_nil in Hm]; rewrite Hm in *.
  all: unfold check; cbn in *; rewrite ?Hname.
  - eexists. split_and!; reflexivity.
  - rewrite (bool_decide_eq_true_2 (ModeSwitch = ModeSwitch) eq_refl), Hg. eexists. split_and!; reflexivity.
  - rewrite app_nil_r, Ha, Hv, Hnd, (Hne Hi) by done. eexists. split_and!; reflexivity.
  - specialize (Hu eq_refl). apply absent_some in Hu as Hu'. apply truthy_true in Hu. rewrite Hu, Hu'. cbn in Hv |- *. rewrite Hv. eexists. split_and!; reflexivity.
  - specialize (Hp eq_refl). destruct (Ht eq_refl) as [[H1%Z.leb_le H2%Z.leb_le] Hd]. apply absent_some in Hp as Hp'. apply truthy_true in Hp.
    rewrite Hp, Hp', H1, H2, Hd. cbn in Hv |- *. rewrite Hv. eexists. split_and!; reflexivity.
Qed.

(** The VLANs of an update keep parents and tags. *)
Lemma requested_vlans l k : forallb vlan_ok (l ++ k) = true → no_dup (vlan_key <$> l) = true →
  forallb (test interface_re) (flat_map (λ v, vlan_parent v :: (if absent (vlan_device v) then [] else [vlan_device v |?| ""])) l) = true →
  let l' := requested_vlan <$> l in
  forallb vlan_ok (l' ++ k) = true ∧ no_dup (vlan_key <$> l') = true ∧
  forallb (test interface_re) (flat_map (λ v, vlan_parent v :: (if absent (vlan_device v) then [] else [vlan_device v |?| ""])) l') = true ∧
  forallb (λ v, absent (vlan_device v) || existsb (λ w, bool_decide (w = v)) k) l' = true.
Proof.
  intros H1 H2 H3. cbv zeta. rewrite !forallb_app in *. rewrite !andb_true_iff in *. destruct H1 as [H1 ->]. split_and!; [|done| | |].
  - revert H1. clear. induction l as [|v l IH]; [done|]. cbn. rewrite !andb_true_iff. intros [? ?]. auto.
  - by rewrite <- list_fmap_compose.
  - revert H3. clear. induction l as [|v l IH]; [done|]. cbn. rewrite !forallb_app, !andb_true_iff. intros [? [? ?]]. auto.
  - clear. by induction l.
Qed.

Lemma update_check n s : check ParseCIDR4 hostname_rfc1123 n = true → net_mode n ≠ ModeBridged → editing s = Some n →
  name s = net_name n → mode s = mode_string (net_mode n) → sound s →
  (is_mode "bridge" s = true → net_device n |?| "" ∉ members s) → check ParseCIDR4 hostname_rfc1123 (updated n (params s)) = true.
Proof.
  intros Hc Hnb He Hn Hm Hs Hdev. pose proof (all_valid s Hs) as Hv. pose proof (address_ok s) as Ha. specialize (λ H, Ha H Hs).
  destruct Hs as [_ _ _ Hnd%no_dup_ok Hu Hp Ht].
  unfold check, named_interfaces in Hc. cbv zeta in Hc. cbn [forallb] in Hc. rewrite !forallb_app, !andb_true_iff in Hc.
  destruct Hc as ([[[[[[[[[[H1 H2] H3] H4] H5] H6] H7] H8] H9] H10] H11] & H12).
  destruct_and!. destruct (requested_vlans (net_vlans n |?| []) (net_applied_vlans n |?| [])) as (Hv1 & Hv2 & Hv3 & Hv4); [by rewrite forallb_app, andb_true_iff|done..|].
  rewrite forallb_app, andb_true_iff in Hv1. destruct Hv1 as [Hv1 _].
  unfold check, named_interfaces. cbv zeta. cbn [forallb]. rewrite !forallb_app, !andb_true_iff.
  unfold updated, params, chosen_interfaces, is_mode in *. rewrite Hm, He, Hn in *.
  destruct (net_mode n); [| | | |done|]; cbn -[absent] in *; rewrite ?andb_true_r in *; split_and!; try done.
  all: try (by destruct (absent (net_device n))).
  - by rewrite absent_some by auto.
  - rewrite absent_some by auto. cbn. by rewrite andb_true_r.
  - by apply Ha.
  - apply negb_true_iff, includes_str_false. auto.
  - specialize (Hp eq_refl). destruct (Ht eq_refl) as [[Hlo%Z.leb_le Hhi%Z.leb_le] _]. rewrite absent_some, Hlo, Hhi by done. rewrite (bool_decide_eq_true_2 (ModeVlan = ModeVlan) eq_refl) in *. rewrite !andb_true_iff in H6. exact (proj2 H6).
  - rewrite absent_some by auto. cbn. by rewrite andb_true_r.
Qed.

(** What only the server knows: the name is free; or the network is the one it has, not of the older mode,
    not a member of itself, and retagged only as far as the host allows. *)
Definition may_save (nets : list Network) (n : option Network) (s : state) : Prop :=
  match n with
  | None => reserved (name s) = false ∧ Resolve nets (name s) = None
  | Some n =>
      Resolve nets (net_id n) = Some n ∧ check ParseCIDR4 hostname_rfc1123 n = true ∧ net_mode n ≠ ModeBridged ∧
      (is_mode "bridge" s = true → net_device n |?| "" ∉ members s) ∧
      (is_mode "vlan" s = true → net_device n |?| "" = "" ∨ net_owned n |?| false = true ∧ attached nets n = false ∨
         net_parent n |?| "" = parent s ∧ net_tag n |?| 0%Z = int_value (tag_row s))
  end.

Lemma update_saved nets n s : may_save nets (Some n) s → editing s = Some n → name s = net_name n → mode s = mode_string (net_mode n) → sound s →
  UpdateNetwork ParseCIDR4 hostname_rfc1123 nets (net_id n) (params s) = inl (updated n (params s)) ∧ saved s (updated n (params s)).
Proof.
  intros (Hr & Hc & Hnb & Hdev & Htag) He Hn Hm Hs. pose proof (update_check n s Hc Hnb He Hn Hm Hs Hdev) as Hok. split.
  - unfold UpdateNetwork. rewrite Hr, Hok. unfold params at 1 2 3 4 5 6. cbn [cn_name cn_mode cn_device cn_parent cn_tag or_else from_option id].
    rewrite He, Hn, Hm, !String.eqb_refl. cbn [negb orb mbind option_bind]. rewrite andb_false_r.
    destruct (bool_decide (net_mode n = ModeVlan)) eqn:Ev; [|done]. apply bool_decide_eq_true in Ev.
    assert (is_mode "vlan" s = true) as Hv by (unfold is_mode; by rewrite Hm, Ev).
    destruct (Htag Hv) as [->|[[-> ->]|[E1 E2]]]; [by rewrite andb_false_r|by rewrite andb_false_r|].
    by rewrite E1, E2, Hv, String.eqb_refl, Z.eqb_refl.
  - unfold saved, updated, params. cbn. rewrite Hm. split_and!; try done. destruct (is_mode "vlan" s) eqn:Hv; [|done].
    symmetry. by apply (sound_tag s Hs).
Qed.
End accepted.

(** C21. A network is saved as it is on the page. In a dialog used through its controls, the enabled button
    makes one request, and while it is answered nothing can be submitted again; when the name is a host name,
    the address one of IPv4, the chosen interfaces names of interfaces, and the server has nothing of its own
    against it, the server saves a network with the name, kind, address, members, adapter, parent and tag
    shown, and none of what was entered for another kind. *)
Theorem network_saved ParseCIDR4 hostname_rfc1123 mcastGroup n p i j es text nets uuid :
  let s := (run step (mount n p i j) es).1 in
  legal step view user (mount n p i j) es → Submit ∈ offers (view s) →
  hostname_rfc1123 (name s) = true → (is_mode "bridge" s = true → address s = "" ∨ ParseCIDR4 (address s) = true) →
  Forall (λ d, test interface_re d = true) (chosen_interfaces s) → mcastGroup uuid ≠ "" → may_save ParseCIDR4 hostname_rfc1123 nets n s →
  Submit ∉ offers (view (fst (step s (User Submit text)))) ∧
  ∃ m, saved s m ∧
    match n with
    | None => snd (step s (User Submit text)) = [CreateNetwork_ (params s)] ∧
        CreateNetwork ParseCIDR4 hostname_rfc1123 mcastGroup nets uuid (params s) = inl m ∧ net_id m = uuid
    | Some n => snd (step s (User Submit text)) = [UpdateNetwork_ (net_id n) (params s)] ∧
        UpdateNetwork ParseCIDR4 hostname_rfc1123 nets (net_id n) (params s) = inl m ∧ net_id m = net_id n ∧ net_device m = net_device n
    end.
Proof.
  cbn zeta. intros Hl Hs Hname Haddr Hi Hg Hmay. set (s := (run step (mount n p i j) es).1) in *.
  assert (dialog_inv n s) as (He & Hnd & Ht & Hm).
  { apply dialog_legal; [|done]. destruct n as [n|]; [|constructor]. destruct Hmay as (_ & Hc & _).
    unfold check in Hc. cbv zeta in Hc. rewrite !andb_true_iff in Hc. destruct Hc as [[[[_ Hnd] _] _] _]. by apply bool_decide_eq_true in Hnd. }
  destruct (network_submit s text Hs) as (Hb & _ & Hu & Hv & ->). rewrite He.
  assert (sound ParseCIDR4 hostname_rfc1123 s) as Hsound.
  { split; auto; intros E; [by apply Hv|]. destruct (tag_number s Ht (proj2 (Hv E))). done. }
  split. { intros [Hd _]%dialog_offers. done. }
  destruct n as [n|].
  - destruct Hm as [Hn Hm]. destruct (update_saved _ _ nets n s Hmay He Hn Hm Hsound) as [-> Hsv]. by exists (updated n (params s)).
  - destruct Hmay as [H1 H2]. destruct (create_check _ _ mcastGroup s nets uuid Hm He Hg Hsound H1 H2) as (m & -> & Hid & Hsv). by exists m.
Qed.

(** ** Concrete dialogs *)

Definition loaded {D} (d : D) : @UseResource.view D := UseResource.mkView d "" false.
Definition en0 : NetworkInterface := mkNetworkInterface [] "en0" "Ethernet" true.
Definition opened (n : option Network) : state := mount n (loaded [en0]) (loaded []) initial.
Definition after_events (n : option Network) (es : list event) : state := (run step (opened n) es).1.
Definition sample_address (a : string) : bool := String.eqb a "192.168.1.20/24".
Definition sample_network (mode : NetworkMode) (uplink : option string) : Network :=
  mkNetwork None None None None None None "net1" None mode "lan" None None None uplink None.

Lemma network_saved_witness :
  let es := [User TypeName "lan"; User TypeAddress "192.168.1.20/24"; User (Toggle "en0") ""] in
  let s := after_events None es in
  ∃ m, CreateNetwork sample_address (λ _, true) (λ _, "239.0.0.1:20000") [] "net1" (params s) = inl m ∧ saved s m ∧ net_members m = Some ["en0"].
Proof.
  intros es s. destruct (network_saved sample_address (λ _, true) (λ _, "239.0.0.1:20000") None (loaded [en0]) (loaded []) initial es "" [] "net1")
    as (_ & m & Hm & _ & Hc & _).
  - legal_run.
  - apply list_elem_of_In. vm_compute. tauto.
  - done.
  - intros _. right. vm_compute. reflexivity.
  - repeat constructor.
  - done.
  - split; reflexivity.
  - exists m. split_and!; [exact Hc|exact Hm|]. vm_compute in Hc. injection Hc as <-. reflexivity.
Defined.

(** A network of the older mode [bridged] cannot be edited: its uplink, which the server requires, is sent
    empty, and every update is refused. *)
Lemma bridged_not_editable :
  let n := sample_network ModeBridged (Some "en0") in
  let s := opened (Some n) in
  check sample_address (λ _, true) n = true ∧ Submit ∈ offers (view s) ∧
  snd (step s (User Submit "")) = [UpdateNetwork_ "net1" (params s)] ∧
  UpdateNetwork sample_address (λ _, true) [n] "net1" (params s) = inr "invalid network".
Proof. split_and!; [by vm_compute| |by vm_compute..]. apply list_elem_of_In. vm_compute. tauto. Qed.

(** An address with a blank before it is valid on the page and sent as it was typed; the server, whose
    parser takes no blanks, refuses it. *)
Lemma padded_address_refused :
  let s := after_events None [User TypeName "lan"; User TypeAddress " 192.168.1.20/24"] in
  Submit ∈ offers (view s) ∧ cn_address (params s) = Some " 192.168.1.20/24" ∧
  CreateNetwork sample_address (λ _, true) (λ _, "239.0.0.1:20000") [] "net1" (params s) = inr "invalid network".
Proof. split_and!; [|by vm_compute..]. apply list_elem_of_In. vm_compute. tauto. Qed.
