(* ===== verification/VmUsb.v ===== *)
(** * USB devices of a machine ([src/web/src/components/VMUSB.tsx])

    The panel of a machine's USB connections with its picker, as a component that acts through its row; and
    the server's rules for them, in [src/pkg/usb/inventory.go] and [src/pkg/engine/usb.go]: the inventory
    it shows, the device that a selection resolves to, assignments and their keys. The registry's file,
    QEMU and the host's buses are outside: claims and devices are given. *)

From S2P Require Import Prelude JsString Types Ux UseResource JobTracking Dom Widgets RowComponent ServerNetworks.
Local Open Scope string_scope.

#[export] Instance USBAttachment_eq_dec : EqDecision USBAttachment.
Proof. solve_decision. Defined.

(** Four digits of a number of 16 bits: [%04x], and [hex] of the panel. *)
Definition hex (v : Z) : string :=
  unchars ((λ k, hex_digit (v / 16 ^ k mod 16)%Z) <$> [3; 2; 1; 0]%Z).

(** ** The server's side *)

(** [uniqueSelector] *)
Definition selects (selected d : USBDevice) : bool :=
  ((dev_bus selected =? 0) || (dev_bus d =? dev_bus selected))%Z && (dev_address d =? dev_address selected)%Z
  && String.eqb (dev_port d) (dev_port selected)
  && ((dev_vendor_id selected =? 0) || (dev_vendor_id d =? dev_vendor_id selected))%Z
  && ((dev_product_id selected =? 0) || (dev_product_id d =? dev_product_id selected))%Z.
Definition uniqueSelector (devices : list USBDevice) (selected : USBDevice) : bool :=
  (length (List.filter (selects selected) devices) =? 1)%nat.

Definition available (d : USBDevice) : bool := String.eqb (dev_state d) "available".

(** [Resolve] *)
Definition Resolve (devices : list USBDevice) (id fingerprint : string) : USBDevice + string :=
  match List.find (λ d, String.eqb (dev_id d) id) devices with
  | None => inr "USB device disconnected or changed; refresh and select it again"
  | Some d =>
      if String.eqb fingerprint "" || negb (String.eqb (dev_fingerprint d) fingerprint)
      then inr "USB selection changed; refresh and select the device again"
      else if negb (available d) then inr "USB device unavailable"
      else if uniqueSelector devices d then inl d
      else inr "QEMU cannot uniquely identify this USB device; disconnect the matching device on another bus and refresh"
  end.

Definition sameUSBPort (a b : USBDevice) : bool := (dev_bus a =? dev_bus b)%Z && String.eqb (dev_port a) (dev_port b).
Definition claimed (claims : list USBAttachment) (d : USBDevice) : option USBAttachment :=
  List.find (λ c, sameUSBPort d (ua_device c)) claims.

Definition with_state (st : string) (reason : string) (vm name : option string) (d : USBDevice) : USBDevice :=
  mkUSBDevice (dev_address d) (dev_bus d) (dev_classes d) (dev_fingerprint d) (dev_id d) (dev_manufacturer d) (dev_port d) (dev_product d)
    (dev_product_id d) (Some reason) (dev_serial d) (dev_session d) st (dev_vendor_id d) vm name.

(** One turn of the loop of [ListUSBDevices]: an available device that would not resolve is unsupported; a
    device on the port of a claim is assigned. *)
Definition annotate (claims : list USBAttachment) (devices : list USBDevice) (d : USBDevice) : USBDevice :=
  let d := if available d then
             match Resolve devices (dev_id d) (dev_fingerprint d) with
             | inl _ => d
             | inr e => with_state "unsupported" e (dev_vm_id d) (dev_vm_name d) d
             end
           else d in
  foldl (λ d c, if sameUSBPort d (ua_device c)
                then with_state "assigned" ("Assigned to " ++ ua_vm_name c) (Some (ua_vm_id c)) (Some (ua_vm_name c)) d else d) d claims.

(** The loop changes the list it reads. *)
Fixpoint ListUSBDevices (claims : list USBAttachment) (done rest : list USBDevice) : list USBDevice :=
  match rest with
  | [] => done
  | d :: r => ListUSBDevices claims (done ++ [annotate claims (done ++ d :: r)%list d])%list r
  end.

(** [ValidateAttach] *)
Definition ValidateAttach (id fingerprint : string) : bool :=
  (String.length id =? 24)%nat && (String.length fingerprint =? 64)%nat.

(** What attaching a device to a running machine asks for before QEMU is told. *)
Definition AttachUSB_ok (phase : string) (devices : list USBDevice) (claims : list USBAttachment) (id fingerprint : string) : USBDevice + string :=
  if negb (ValidateAttach id fingerprint) then inr "select a USB device from the current inventory"
  else if negb (String.eqb phase "running") then inr "start the VM before attaching USB devices"
  else match Resolve devices id fingerprint with
  | inr e => inr e
  | inl d => match claimed claims d with Some c => inr ("USB device is already assigned to " ++ ua_vm_name c) | None => inl d end
  end.

Definition AssignmentKey (a : TypesVmusbAssignment) : string :=
  hex (uas_vendor_id a) ++ ":" ++ hex (uas_product_id a) ++ (if truthy (uas_serial a |?| "") then ":" ++ (uas_serial a |?| "") else "").

Definition assignmentMatchesDevice (a : TypesVmusbAssignment) (d : USBDevice) : bool :=
  (uas_vendor_id a =? dev_vendor_id d)%Z && (uas_product_id a =? dev_product_id d)%Z
  && (negb (truthy (uas_serial a |?| "")) || String.eqb (uas_serial a |?| "") (dev_serial d)).

(** [matchUSBAssignment], as a test. *)
Definition matchUSBAssignment (devices : list USBDevice) (a : TypesVmusbAssignment) : bool :=
  match List.filter (assignmentMatchesDevice a) devices with [d] => available d | _ => false end.

Definition assignment_of (d : USBDevice) : TypesVmusbAssignment :=
  mkTypesVmusbAssignment (Some (dev_product d)) (dev_product_id d) (Some (dev_serial d)) (dev_vendor_id d).

(** [assignUSB]: the assignments that are saved. *)
Definition AssignUSB_saved (vm : string) (assigned : list TypesVmusbAssignment) (devices : list USBDevice) (claims : list USBAttachment)
    (id fingerprint : string) : list TypesVmusbAssignment + string :=
  if negb (ValidateAttach id fingerprint) then inr "select a USB device from the current inventory"
  else match Resolve devices id fingerprint with
  | inr e => inr e
  | inl d =>
      let a := assignment_of d in
      if negb (matchUSBAssignment devices a) then inr "assigned USB device is not connected, ambiguous or unavailable"
      else if existsb (λ c, sameUSBPort d (ua_device c) && negb (String.eqb (ua_vm_id c) vm)) claims then inr "USB device is already assigned"
      else inl (if existsb (λ b, String.eqb (AssignmentKey b) (AssignmentKey a)) assigned then assigned else assigned ++ [a])%list
  end.

(** [UnassignUSB]: the assignments that remain. *)
Definition UnassignUSB_saved (assigned : list TypesVmusbAssignment) (key : string) : list TypesVmusbAssignment + string :=
  let matches a := String.eqb (AssignmentKey a) key || String.eqb (hex (uas_vendor_id a) ++ ":" ++ hex (uas_product_id a)) key in
  match List.filter matches assigned with
  | [] => inr "no USB assignment matches"
  | [_] => inl (List.filter (λ a, negb (matches a)) assigned)
  | _ => inr "ambiguous USB assignment; include its serial"
  end.

(** ** The panel *)

Inductive request :=
  | AttachUSB (vm device fingerprint : string) | AssignUSB (vm device fingerprint : string)
  | UnassignUSB (vm key : string) | DetachUSB (vm attachment : string)
  | RefreshAttachments | RefreshInventory.
Inductive continuation := AfterAttach | AfterRemove.

Record properties := mkProps { vm : VMView; error : string }.

(** The picker while it is open: its inventory is loaded anew whenever it opens or is refreshed. *)
Record picker := mkPicker { search : string; refresh : nat; selected : option USBDevice; inventory : @UseResource.view USBInventory }.
Record dialogs := mkDialogs {
  adding : option picker;
  removing : option USBAttachment;
  attachments : @UseResource.view (list USBAttachment)
}.

Inductive action :=
  | Open | ClosePicker | CancelPicker | Search | Refresh | Select (d : USBDevice) | Attach
  | RequestRemove (att : USBAttachment) | CancelRemove | ConfirmRemove | RetryAttachments | RetryInventory.
#[export] Instance action_eq_dec : EqDecision action.
Proof. solve_decision. Defined.

Inductive ambience :=
  | AttachmentsAre (v : @UseResource.view (list USBAttachment))
  | InventoryIs (v : @UseResource.view USBInventory).

Definition vm_id (p : properties) : string := m_id (vm_manifest (vm p)).
Definition vm_name (p : properties) : string := m_name (vm_manifest (vm p)).
Definition running (p : properties) : bool := String.eqb (vm_phase (vm p)) "running".

Definition set_adding (k : option picker) (d : dialogs) : dialogs := mkDialogs k (removing d) (attachments d).
Definition set_removing (a : option USBAttachment) (d : dialogs) : dialogs := mkDialogs (adding d) a (attachments d).

Definition open_picker : picker := mkPicker "" 0 None (UseResource.mkView (mkUSBInventory [] None false) "" true).

(** *** What a render computes *)

Definition identity (d : USBDevice) : string :=
  join " · "
    (match
       ((if truthy (dev_serial d) then ["Serial " ++ dev_serial d]%string else []) ++
        (if truthy (dev_port d) then ["Port " ++ pretty (dev_bus d) ++ "/" ++ dev_port d]%string else []))%list
     with [] => [hex (dev_vendor_id d) ++ ":" ++ hex (dev_product_id d)] | parts => parts end).

Definition attachmentLabel (state : string) : string :=
  if String.eqb state "attached" then "Connected"
  else if String.eqb state "on-start" then "On startup"
  else if String.eqb state "missing" then "Disconnected"
  else "Check connection".

Definition assigned_key (a : USBAttachment) : string := ua_assignment_key a |?| "".

Definition alreadyAdded (added : list USBAttachment) (d : USBDevice) : bool :=
  existsb (λ entry,
    String.eqb (dev_id (ua_device entry)) (dev_id d) ||
    (truthy (assigned_key entry) && (dev_vendor_id (ua_device entry) =? dev_vendor_id d)%Z && (dev_product_id (ua_device entry) =? dev_product_id d)%Z
     && (negb (truthy (dev_serial (ua_device entry))) || String.eqb (dev_serial (ua_device entry)) (dev_serial d)))) added.

Definition devices_of (k : picker) : list USBDevice := ui_devices (UseResource.data (inventory k)).

(** The selected device, while the inventory still offers it. *)
Definition current (added : list USBAttachment) (k : picker) : option USBDevice :=
  match selected k with
  | None => None
  | Some s => List.find (λ d, String.eqb (dev_id d) (dev_id s) && String.eqb (dev_fingerprint d) (dev_fingerprint s)
                && available d && negb (alreadyAdded added d)) (devices_of k)
  end.

Definition blocked (busy : bool) (k : picker) : bool :=
  busy || truthy (UseResource.error (inventory k)) || negb (ui_supported (UseResource.data (inventory k))).

(** A drive in use is removed only after a question. *)
Definition drive (a : USBAttachment) : bool :=
  String.eqb (ua_state a) "attached" && includes_str (dev_classes (ua_device a)) "Storage".

(** *** Handlers *)

Definition attach (p : properties) (v : row_view) (d : dialogs) (dev : USBDevice) : outcome dialogs continuation request :=
  if rv_busy v then Do d [] else
  Execute (if running p then "vm.usb.attach" else "vm.usb.assign") AfterAttach
    (if running p then AttachUSB (vm_id p) (dev_id dev) (dev_fingerprint dev) else AssignUSB (vm_id p) (dev_id dev) (dev_fingerprint dev)).

Definition remove (p : properties) (v : row_view) (d : dialogs) (a : USBAttachment) : outcome dialogs continuation request :=
  if rv_busy v then Do d [] else
  Execute (if truthy (assigned_key a) then "vm.usb.unassign" else "vm.usb.detach") AfterRemove
    (if truthy (assigned_key a) then UnassignUSB (vm_id p) (assigned_key a) else DetachUSB (vm_id p) (ua_id a)).

(** What the picker's own handlers do to it. *)
Definition pick (a : action) (text : string) (k : picker) : picker :=
  match a with
  | Search => mkPicker text (refresh k) (selected k) (inventory k)
  | Refresh => mkPicker (search k) (S (refresh k)) (selected k) (inventory k)
  | Select dev => mkPicker (search k) (refresh k) (Some dev) (inventory k)
  | _ => k
  end.

Definition handle (p : properties) (v : row_view) (d : dialogs) (a : action) (text : string) : outcome dialogs continuation request :=
  match a with
  | Open => Do (set_adding (Some open_picker) d) [RefreshInventory]
  | ClosePicker => Do (if rv_busy v then d else set_adding None d) []
  | CancelPicker => Do (set_adding None d) []
  | Search | Select _ => Do (set_adding (pick a text <$> adding d) d) []
  | Refresh => Do (set_adding (pick a text <$> adding d) d) [RefreshInventory]
  | Attach => match adding d ≫= current (UseResource.data (attachments d)) with Some dev => attach p v d dev | None => Do d [] end
  | RequestRemove att => if drive att then Do (set_removing (Some att) d) [] else remove p v d att
  | CancelRemove => Do (set_removing None d) []
  | ConfirmRemove => match removing d with Some att => remove p v d att | None => Do d [] end
  | RetryAttachments => Do d [RefreshAttachments]
  | RetryInventory => Do d [RefreshInventory]
  end.

(** The hooks give what they have loaded. *)
Definition loaded (p : properties) (d : dialogs) (b : ambience) : dialogs :=
  match b with
  | AttachmentsAre v => mkDialogs (adding d) (removing d) v
  | InventoryIs v => set_adding ((λ k, mkPicker (search k) (refresh k) (selected k) v) <$> adding d) d
  end.

Definition finish (k : continuation) (d : dialogs) : dialogs :=
  match k with AfterAttach => set_adding None d | AfterRemove => set_removing None d end.

(** *** View *)

Section view.
Context `{Hdialogs : !AlertDialogs} (toLowerCase : string → string).

Definition query (k : picker) : string := toLowerCase (trim (search k)).
Definition searched (d : USBDevice) : string :=
  dev_product d ++ " " ++ dev_manufacturer d ++ " " ++ dev_serial d ++ " " ++ hex (dev_vendor_id d) ++ ":" ++ hex (dev_product_id d)
  ++ " " ++ pretty (dev_bus d) ++ "/" ++ dev_port d ++ " " ++ join " " (dev_classes d).
Definition listed (k : picker) : list USBDevice := List.filter (λ d, includes (query k) (toLowerCase (searched d))) (devices_of k).

Definition USBIdentity (d : USBDevice) : node action := box "span" [label "span" (dev_product d); label "span" (identity d)].

Definition DeviceDetails (d : USBDevice) : node action :=
  box "details"
    ([label "dd" (dev_manufacturer d ||s "Unavailable"); label "dd" (hex (dev_vendor_id d) ++ ":" ++ hex (dev_product_id d));
      label "dd" (dev_serial d ||s "Unavailable")] ++
     when (truthy (dev_port d)) [label "dd" (pretty (dev_bus d) ++ "/" ++ dev_port d)] ++
     when (negb (bool_decide (dev_classes d = []))) [label "dd" (join ", " (dev_classes d))])%list.

Definition attachment_node (busy : bool) (a : USBAttachment) : node action :=
  box "article"
    ([USBIdentity (ua_device a); label "Badge" (attachmentLabel (ua_state a));
      button (if truthy (assigned_key a) then "Remove Startup Assignment" else "Disconnect") busy (RequestRemove a);
      label "p" (if truthy (assigned_key a) then "Assigned for every startup. Removing the assignment also disconnects an active device."
                 else "Temporary connection for this VM session.");
      DeviceDetails (ua_device a)] ++
     when (truthy (ua_reason a |?| "")) [label "p" (ua_reason a |?| "")])%list.

Definition device_node (busy : bool) (added : list USBAttachment) (k : picker) (d : USBDevice) : node action :=
  box "div"
    (El "input" [("type", "radio"); ("aria-label", (dev_product d ++ ", " ++ identity d)%string);
                 ("checked", if bool_decide (Some (dev_id d) = dev_id <$> current added k) then "true" else "false")]
       (blocked busy k || negb (available d) || alreadyAdded added d) [Select d] [] ::
     USBIdentity d ::
     when (truthy (dev_reason d |?| "") || alreadyAdded added d)
       [label "p" (if alreadyAdded added d then "Already added" else dev_reason d |?| "")]).

Definition USBPicker (p : properties) (busy : bool) (added : list USBAttachment) (k : picker) : node action :=
  let chosen := current added k in
  let ready := negb (UseResource.loading (inventory k)) && negb (truthy (UseResource.error (inventory k))) in
  let supported := ui_supported (UseResource.data (inventory k)) in
  El "Dialog" [("title", if running p then "Connect USB Device" else "Assign USB Device on Startup")] false [ClosePicker]
    ([button "Cancel" busy CancelPicker;
      El "button" [] (blocked busy k || bool_decide (chosen = None)) [Attach]
        [Text (if busy then "Connecting…" else if running p then "Connect for This Session" else "Assign on Startup")];
      El "EntryRow" [("id", "usb-search"); ("value", search k)] false [Search] [];
      button "Refresh" busy Refresh] ++
     ResourceNotice (inventory k) "USB devices" RetryInventory ++ JobNotice (error p) ++
     when (ready && negb supported) [label "p" ((ui_reason (UseResource.data (inventory k)) |?| "") ||s "USB passthrough is unavailable on this host.")] ++
     when (ready && supported && bool_decide (listed k = []))
       [label "p" (if truthy (query k) then "No matching devices." else "Plug a USB device into this Mac.")] ++
     [El "fieldset" [] (blocked busy k) [] (device_node busy added k <$> listed k)] ++
     when (bool_decide (selected k ≠ None) && bool_decide (chosen = None)) [label "p" "Device changed. Select it again."] ++
     match chosen with Some d => [DeviceDetails d] | None => [] end ++
     [label "p" ((if running p then "Connects now for this session only. The host cannot use the device while this VM owns it."
                  else "Connects on every startup. Keep it plugged in; the host cannot use it while this VM owns it.") ++
                 (if match chosen with Some d => includes_str (dev_classes d) "Storage" | None => false end && running p
                  then " Eject it from this Mac first." else ""))])%list.

Definition render (p : properties) (v : row_view) (d : dialogs) : node action :=
  let busy := rv_busy v in
  let l := UseResource.data (attachments d) in
  box "div"
    ([label "p" (if running p then "Connect devices for this running session. Temporary connections end when the VM stops."
                 else "Assign devices to connect automatically on every startup while they remain plugged in.");
      button (if running p then "Connect Device…" else "Assign on Startup…") busy Open] ++
     ActionStatus (rv_job v) (rv_error v) false ++ ResourceNotice (attachments d) "USB connections" RetryAttachments ++
     when (negb (UseResource.loading (attachments d)) && negb (truthy (UseResource.error (attachments d))) && bool_decide (l = []))
       [label "p" "No USB devices added."] ++
     (attachment_node busy <$> l) ++
     match adding d with Some k => [USBPicker p busy l k] | None => [] end ++
     AlertDialog (mkAlert (bool_decide (removing d ≠ None)) busy
       ("Detach " ++ (match removing d with Some a => dev_product (ua_device a) | None => "" end ||s "drive") ++ "?")
       "Eject the drive in the VM first." "Detach" CancelRemove ConfirmRemove))%list.

Definition VMUSB : component properties dialogs action ambience continuation request := {|
  scope := "vm"; ident := vm_id; called := vm_name; act := handle; ambient := loaded; after := finish; RowComponent.render := render |}.

Definition start (p : properties) (jobs : list Job) : state properties dialogs continuation :=
  mount p jobs (mkDialogs None None (UseResource.mkView [] "" true)).

#[export] Instance VMUSB_guarded : Guarded VMUSB.
Proof.
  intros p v d a text name k r _ E. change (handle p v d a text = Execute name k r) in E.
  assert (rv_busy v = false ∧ name ≠ "") as H; [|done].
  destruct a; cbn in E; unfold attach, remove in E; repeat case_match; try done; by simplify_eq.
Qed.
End view.

(** ** The inventory and what it resolves to *)

(** What a selection is made by. *)
Definition socket (d : USBDevice) := (dev_id d, dev_bus d, dev_address d, dev_port d, dev_vendor_id d, dev_product_id d).

Lemma selects_socket s d e : socket d = socket e → selects s d = selects s e.
Proof. unfold socket. intros [= _ H1 H2 H3 H4 H5]. unfold selects. by rewrite H1, H2, H3, H4, H5. Qed.

Lemma uniqueSelector_sockets (l k : list USBDevice) s : socket <$> l = socket <$> k → uniqueSelector l s = uniqueSelector k s.
Proof.
  intros H. unfold uniqueSelector. f_equal. revert k H. induction l as [|d l IH]; intros [|e k] H; try done.
  rewrite !fmap_cons in H. apply (inj2 cons) in H as [Hd Hl]. cbn. rewrite (selects_socket s d e Hd). specialize (IH k Hl). destruct (selects s e); cbn; by rewrite IH.
Qed.

Lemma claims_free claims d :
  let d' := foldl (λ d c, if sameUSBPort d (ua_device c)
    then with_state "assigned" ("Assigned to " ++ ua_vm_name c) (Some (ua_vm_id c)) (Some (ua_vm_name c)) d else d) d claims in
  socket d' = socket d ∧ (available d' = true → d' = d ∧ claimed claims d = None).
Proof.
  cbv zeta. revert d. induction claims as [|c claims IH]; intros d; [done|]. cbn [foldl]. unfold claimed. cbn [List.find]. destruct (sameUSBPort d (ua_device c)) eqn:E; [|apply IH].
  destruct (IH (with_state "assigned" ("Assigned to " ++ ua_vm_name c) (Some (ua_vm_id c)) (Some (ua_vm_name c)) d)) as [H1 H2].
  split; [by rewrite H1|]. intros Ha. destruct (H2 Ha) as [E' _]. rewrite E' in Ha. done.
Qed.

Lemma annotate_spec claims l d : socket (annotate claims l d) = socket d ∧
  (available (annotate claims l d) = true →
     annotate claims l d = d ∧ claimed claims d = None ∧ available d = true ∧ ∃ e, Resolve l (dev_id d) (dev_fingerprint d) = inl e).
Proof.
  unfold annotate. destruct (available d) eqn:Ea; [destruct (Resolve l (dev_id d) (dev_fingerprint d)) as [e|e] eqn:Er|].
  - destruct (claims_free claims d) as [H1 H2]. split; [done|]. intros H. destruct (H2 H). eauto 6.
  - destruct (claims_free claims (with_state "unsupported" e (dev_vm_id d) (dev_vm_name d) d)) as [H1 H2]. split; [by rewrite H1|].
    intros H. destruct (H2 H) as [E _]. by rewrite E in H.
  - destruct (claims_free claims d) as [H1 H2]. split; [done|]. intros H. destruct (H2 H) as [E _]. rewrite E in H. congruence.
Qed.

Lemma find_id (l : list USBDevice) d : NoDup (dev_id <$> l) → d ∈ l → List.find (λ e, String.eqb (dev_id e) (dev_id d)) l = Some d.
Proof.
  induction l as [|e l IH]; [by intros _ ?%not_elem_of_nil|]. cbn. intros [Hn Hl]%NoDup_cons [->|Hd]%elem_of_cons; [by rewrite String.eqb_refl|].
  destruct (String.eqb_spec (dev_id e) (dev_id d)) as [E|]; [|by apply IH]. exfalso. apply Hn. rewrite E. apply list_elem_of_fmap. eauto.
Qed.

Lemma ids_of_sockets (l k : list USBDevice) : socket <$> l = socket <$> k → dev_id <$> l = dev_id <$> k.
Proof.
  revert k. induction l as [|d l IH]; intros [|e k] H; try done.
  rewrite !fmap_cons in *. apply (inj2 cons) in H as [H Hl]. f_equal; [|by apply IH]. unfold socket in H. congruence.
Qed.

(** A device that resolves does so in every list with the same connections that has it. *)
Lemma Resolve_transfer (l k : list USBDevice) d e : socket <$> l = socket <$> k → NoDup (dev_id <$> l) → d ∈ l → d ∈ k →
  Resolve l (dev_id d) (dev_fingerprint d) = inl e → Resolve k (dev_id d) (dev_fingerprint d) = inl d.
Proof.
  intros Hs Hn Hl Hk. unfold Resolve. rewrite (find_id l d Hn Hl), (find_id k d); [|by rewrite <- (ids_of_sockets l k Hs)|done].
  destruct (_ || _); [done|]. destruct (negb (available d)); [done|]. rewrite (uniqueSelector_sockets l k d Hs). by destruct (uniqueSelector k d).
Qed.

(** A device that the inventory shows as available is one of the host's, resolves there, and is claimed by no
    machine. *)
Lemma ListUSBDevices_available claims devices done rest d :
  socket <$> (done ++ rest)%list = socket <$> devices → NoDup (dev_id <$> devices) → (∀ e, e ∈ rest → e ∈ devices) →
  d ∈ ListUSBDevices claims done rest → available d = true →
  d ∈ done ∨ d ∈ devices ∧ Resolve devices (dev_id d) (dev_fingerprint d) = inl d ∧ claimed claims d = None.
Proof.
  revert done. induction rest as [|e rest IH]; intros done Hs Hn Hin Hd Ha; [by left|]. cbn in Hd.
  pose proof (annotate_spec claims (done ++ e :: rest)%list e) as [H1 H2]. set (e' := annotate claims (done ++ e :: rest)%list e) in *.
  apply IH in Hd as [Hd|Hd]; [| | |done|by (intros; apply Hin; right)|done].
  - apply elem_of_app in Hd as [Hd|Hd%list_elem_of_singleton]; [by left|]. right. subst d.
    destruct (H2 Ha) as (E & Hc & Hav & f & Hr). rewrite E. assert (e ∈ devices) as He by (apply Hin; left). split_and!; [done| |done].
    apply (Resolve_transfer _ devices e f Hs) in Hr; [done| |by (apply elem_of_app; right; left)|done].
    by rewrite (ids_of_sockets _ _ Hs).
  - by right.
  - rewrite <- Hs. rewrite <- app_assoc. cbn. rewrite !fmap_app, !fmap_cons. by rewrite H1.
Qed.

(** ** Properties *)

Section properties.
Context `{Hdialogs : !AlertDialogs} (toLowerCase : string → string).

Lemma usb_offers p v d a : a ∈ offers (render toLowerCase p v d) →
  match a with
  | Attach => ∃ k, adding d = Some k ∧ blocked (rv_busy v) k = false
  | RequestRemove att => att ∈ UseResource.data (attachments d)
  | ConfirmRemove => is_Some (removing d)
  | _ => True
  end.
Proof.
  intros H. unfold render, USBPicker in H. offered H; simplify_eq; try done.
  - apply offers_fmap in H as (att & Hin & H). unfold attachment_node, USBIdentity, DeviceDetails in H. offered H; by simplify_eq.
  - match goal with Hb : blocked _ _ || _ = false |- _ => apply orb_false_iff in Hb as [Hb _] end. eauto.
  - apply offers_fmap in H as (dev & _ & H). unfold device_node, USBIdentity in H. offered H; by simplify_eq.
  - unfold DeviceDetails in H. by offered H.
  - apply bool_decide_eq_true in Hopen. destruct (removing d); [by eexists|done].
Qed.

Lemma current_spec added k dev : current added k = Some dev →
  dev ∈ devices_of k ∧ available dev = true ∧ alreadyAdded added dev = false ∧
  ∃ s, selected k = Some s ∧ dev_id s = dev_id dev ∧ dev_fingerprint s = dev_fingerprint dev.
Proof.
  unfold current. destruct (selected k) as [s|]; [|done]. intros [Hin H]%find_some_iff. rewrite !andb_true_iff, !String.eqb_eq, negb_true_iff in H.
  destruct H as [[[H1 H2] H3] H4]. split_and!; eauto.
Qed.

(** What a request says of the panel it comes from: the device is the one chosen, as the inventory shows it
    now; what is removed is on the page, a drive in use only after the question about it. *)
Definition chosen_device (d : dialogs) (i f : string) : Prop :=
  ∃ k dev, adding d = Some k ∧ dev ∈ devices_of k ∧ i = dev_id dev ∧ f = dev_fingerprint dev ∧ available dev = true ∧
    alreadyAdded (UseResource.data (attachments d)) dev = false ∧
    UseResource.error (inventory k) = "" ∧ ui_supported (UseResource.data (inventory k)) = true ∧
    ∃ s, selected k = Some s ∧ dev_id s = i ∧ dev_fingerprint s = f.
Definition removal (d : dialogs) (a : action) (att : USBAttachment) : Prop :=
  a = ConfirmRemove ∧ removing d = Some att ∨
  a = RequestRemove att ∧ att ∈ UseResource.data (attachments d) ∧ drive att = false.
Definition usb_sent (q : properties) (d : dialogs) (a : action) (r : request) : Prop :=
  match r with
  | AttachUSB id i f => a = Attach ∧ id = vm_id q ∧ running q = true ∧ chosen_device d i f
  | AssignUSB id i f => a = Attach ∧ id = vm_id q ∧ running q = false ∧ chosen_device d i f
  | UnassignUSB id key => id = vm_id q ∧ ∃ att, assigned_key att = key ∧ key ≠ "" ∧ removal d a att
  | DetachUSB id i => id = vm_id q ∧ ∃ att, ua_id att = i ∧ assigned_key att = "" ∧ removal d a att
  | RefreshAttachments | RefreshInventory => True
  end.

Lemma remove_sends q v d att name k r a : remove q v d att = Execute name k r → removal d a att → usb_sent q d a r.
Proof.
  unfold remove. intros E Hr. destruct (rv_busy v); [done|]. destruct (truthy (assigned_key att)) eqn:Hk; injection E as _ _ <-.
  - apply truthy_true in Hk. cbn. eauto 6.
  - apply truthy_false in Hk. cbn. eauto 6.
Qed.

Lemma usb_sends q v d a text name k r : a ∈ offers (render toLowerCase q v d) → handle q v d a text = Execute name k r → usb_sent q d a r.
Proof.
  intros Ha%usb_offers E. destruct a; cbn in E; try done.
  - destruct Ha as (pk & Hk & Hb). rewrite Hk in E. cbn in E.
    destruct (current (UseResource.data (attachments d)) pk) as [dev|] eqn:Ec; [|done]. unfold attach in E. destruct (rv_busy v); [done|].
    apply current_spec in Ec as (Hin & Hav & Hadd & s & Hs & Hid & Hfp). unfold blocked in Hb. rewrite !orb_false_iff, negb_false_iff in Hb. destruct Hb as [[_ Herr%truthy_false] Hsup].
    assert (chosen_device d (dev_id dev) (dev_fingerprint dev)) as Hc by (exists pk, dev; split_and!; eauto).
    destruct (running q) eqn:Hrun; injection E as _ _ <-; by split_and!.
  - destruct (drive att) eqn:Hd; [done|]. eapply remove_sends; [exact E|]. right. eauto.
  - destruct (removing d) as [att|] eqn:Hrem; [|done]. eapply remove_sends; [exact E|]. by left.
Qed.

Lemma usb_quiet q v d a text d' rs r : handle q v d a text = Do d' rs → r ∈ rs → r = RefreshAttachments ∨ r = RefreshInventory.
Proof.
  clear toLowerCase Hdialogs. intros E Hr. assert (∀ x : request, r ∈ [x] → r = x) as H1 by (intros x; apply list_elem_of_singleton).
  destruct a; cbn in E; unfold attach, remove in E; repeat case_match; simplify_eq; auto; by apply not_elem_of_nil in Hr.
Qed.

Lemma usb_requests p jobs es a text r :
  let s := (run (step (VMUSB toLowerCase)) (start p jobs) es).1 in
  legal (step (VMUSB toLowerCase)) (view (VMUSB toLowerCase)) user (start p jobs) es →
  a ∈ offers (view (VMUSB toLowerCase) s) → r ∈ snd (step (VMUSB toLowerCase) s (User a text)) →
  usb_sent (props s) (local s) a r ∧
  (r = RefreshAttachments ∨ r = RefreshInventory ∨
   busy (VMUSB toLowerCase) s = false ∧ awaiting s = [] ∧ snd (step (VMUSB toLowerCase) s (User a text)) = [r] ∧
   busy (VMUSB toLowerCase) (fst (step (VMUSB toLowerCase) s (User a text))) = true).
Proof.
  cbn zeta. unfold start. intros Hl Ha Hr. set (s := (run (step (VMUSB toLowerCase)) _ es).1) in *.
  destruct (legal_requests (VMUSB toLowerCase) p jobs _ es a text r Hl Ha Hr) as [(d & rs & E & Hrs)|((name & k & E) & Hb & Hw & Hs & Hb')]; fold s in E.
  - destruct (usb_quiet _ _ _ _ _ _ _ r E Hrs) as [-> | ->]; (split; [done|auto]).
  - split; [exact (usb_sends _ _ _ _ _ _ _ _ Ha E)|]. right. right. by split_and!.
Qed.

(** C24. A device reaches a machine only as the user chose it, and leaves it only as the user asked. A request
    to connect or assign carries a device of the current inventory that is available, not added yet and the
    one chosen, unchanged since; it connects for the session exactly when the machine runs. What is removed
    is on the page, by its assignment exactly when it has one, and a drive in use only after the question
    about it. Requests of this kind are made one at a time. *)
Theorem vm_usb_requests p jobs es a text r :
  let s := (run (step (VMUSB toLowerCase)) (start p jobs) es).1 in
  let q := props s in let d := local s in
  legal (step (VMUSB toLowerCase)) (view (VMUSB toLowerCase)) user (start p jobs) es →
  a ∈ offers (view (VMUSB toLowerCase) s) → r ∈ snd (step (VMUSB toLowerCase) s (User a text)) →
  match r with
  | AttachUSB id i f => a = Attach ∧ id = vm_id q ∧ running q = true ∧ chosen_device d i f
  | AssignUSB id i f => a = Attach ∧ id = vm_id q ∧ running q = false ∧ chosen_device d i f
  | UnassignUSB id key => id = vm_id q ∧ ∃ att, assigned_key att = key ∧ key ≠ "" ∧ removal d a att
  | DetachUSB id i => id = vm_id q ∧ ∃ att, ua_id att = i ∧ assigned_key att = "" ∧ removal d a att
  | RefreshAttachments | RefreshInventory => True
  end ∧
  (r = RefreshAttachments ∨ r = RefreshInventory ∨
   busy (VMUSB toLowerCase) s = false ∧ awaiting s = [] ∧ snd (step (VMUSB toLowerCase) s (User a text)) = [r] ∧
   busy (VMUSB toLowerCase) (fst (step (VMUSB toLowerCase) s (User a text))) = true).
Proof. apply usb_requests. Qed.

(** The only device that an assignment of a device matches. *)
Lemma assignment_found devices d : d ∈ devices → available d = true →
  (∀ e, e ∈ devices → assignmentMatchesDevice (assignment_of d) e = true → e = d) → NoDup (dev_id <$> devices) →
  matchUSBAssignment devices (assignment_of d) = true.
Proof.
  clear toLowerCase Hdialogs. intros Hin Ha Hu Hn. unfold matchUSBAssignment.
  assert (NoDup devices) as Hnd by (by eapply NoDup_fmap_1).
  assert (assignmentMatchesDevice (assignment_of d) d = true) as Hd.
  { unfold assignmentMatchesDevice. cbn. rewrite !Z.eqb_refl, String.eqb_refl. by rewrite orb_true_r. }
  assert (List.filter (assignmentMatchesDevice (assignment_of d)) devices = [d]) as ->; [|done].
  clear Ha Hn. revert Hin Hu. induction devices as [|e l IH]; [by intros ?%not_elem_of_nil|]. apply NoDup_cons in Hnd as [He Hl].
  intros Hin Hu. cbn. destruct (assignmentMatchesDevice (assignment_of d) e) eqn:E.
  - assert (e = d) as -> by (apply Hu; [left|done]). f_equal. clear IH Hin. induction l as [|x l IH]; [done|]. cbn.
    destruct (assignmentMatchesDevice (assignment_of d) x) eqn:Ex.
    + assert (x = d) as -> by (apply Hu; [right; left|done]). by destruct He; left.
    + apply IH; [by intros ?; apply He; right|by apply NoDup_cons in Hl as [_ ?]|]. intros y [->|Hy]%elem_of_cons; [auto|]. intros. apply Hu; [|done]. by do 2 right.
  - apply elem_of_cons in Hin as [->|Hin]; [congruence|]. apply IH; [done..|]. intros y Hy. apply Hu. by right.
Qed.

(** The picker offers what the server will take. While the inventory on the page is the one that the server
    would list now, of devices with identifiers of their own and of the fixed lengths, the device that
    connecting sends resolves on the server to an unclaimed device with that identity, and the device that
    assigning sends is saved among the machine's assignments, unless another device of the host looks the
    same. *)
Theorem vm_usb_accepted p jobs es a text r devices claims assigned :
  let s := (run (step (VMUSB toLowerCase)) (start p jobs) es).1 in
  legal (step (VMUSB toLowerCase)) (view (VMUSB toLowerCase)) user (start p jobs) es →
  a ∈ offers (view (VMUSB toLowerCase) s) → r ∈ snd (step (VMUSB toLowerCase) s (User a text)) →
  (∀ k, adding (local s) = Some k → devices_of k = ListUSBDevices claims [] devices) → NoDup (dev_id <$> devices) →
  (∀ d, d ∈ devices → String.length (dev_id d) = 24%nat ∧ String.length (dev_fingerprint d) = 64%nat) →
  match r with
  | AttachUSB _ i f => ∃ dev, AttachUSB_ok (vm_phase (vm (props s))) devices claims i f = inl dev ∧ dev_id dev = i ∧ dev_fingerprint dev = f
  | AssignUSB id i f => ∃ dev, dev ∈ devices ∧ dev_id dev = i ∧
      ((∀ e, e ∈ devices → assignmentMatchesDevice (assignment_of dev) e = true → e = dev) →
       ∃ l, AssignUSB_saved id assigned devices claims i f = inl l ∧ AssignmentKey (assignment_of dev) ∈ AssignmentKey <$> l)
  | _ => True
  end.
Proof.
  cbn zeta. intros Hl Ha Hr Hinv Hn Hlen. destruct (usb_requests p jobs es a text r Hl Ha Hr) as [Hs _].
  set (s := (run (step (VMUSB toLowerCase)) (start p jobs) es).1) in *.
  assert (∀ i f, chosen_device (local s) i f → ∃ dev, dev ∈ devices ∧ dev_id dev = i ∧ dev_fingerprint dev = f ∧ available dev = true ∧
    Resolve devices i f = inl dev ∧ claimed claims dev = None ∧ ValidateAttach i f = true) as Hc.
  { intros i f (k & dev & Hk & Hin & -> & -> & Hav & _). rewrite (Hinv k Hk) in Hin.
    apply (ListUSBDevices_available claims devices) in Hin as [?%not_elem_of_nil|(Hd & Hres & Hcl)]; try done.
    exists dev. split_and!; try done. destruct (Hlen dev Hd) as [H1 H2]. unfold ValidateAttach. by rewrite H1, H2. }
  destruct r as [id i f|id i f| | | |]; try done; destruct Hs as (_ & _ & Hrun & Hch); destruct (Hc i f Hch) as (dev & Hd & Hi & Hf & Hav & Hres & Hcl & Hv); exists dev.
  - unfold AttachUSB_ok. unfold running in Hrun. by rewrite Hv, Hrun, Hres, Hcl.
  - split_and!; [done..|]. intros Hu. unfold AssignUSB_saved. rewrite Hv, Hres, (assignment_found devices dev) by done. cbn [negb].
    assert (existsb (λ c, sameUSBPort dev (ua_device c) && negb (String.eqb (ua_vm_id c) id)) claims = false) as ->.
    { apply not_true_iff_false. rewrite existsb_exists. intros (c & Hin & [E _]%andb_true_iff). pose proof (find_none _ _ Hcl c Hin) as E'. cbn in E'. congruence. }
    destruct (existsb _ assigned) eqn:E; eexists; (split; [done|]).
    + apply existsb_exists in E as (b & Hb & <-%String.eqb_eq). apply list_elem_of_fmap. exists b. split; [done|]. by apply list_elem_of_In.
    + apply list_elem_of_fmap. exists (assignment_of dev). split; [done|]. apply elem_of_app. right. by left.
Qed.
End properties.

(** ** Concrete panels *)

Definition sample_machine (phase : string) : properties :=
  mkProps (mkVMView 0 (mkVMManifest None None None 2 20 None "vm1" "img" None None 2048 "web" None None None "root") phase 0) "".
Definition sample_device (serial : string) : USBDevice :=
  mkUSBDevice 3 1 ["Storage"] "0123456789abcdef0123456789abcdef0123456789abcdef0123456789abcdef" "0123456789abcdef01234567" "" "1.2" "Drive" 4660 None
    serial "17" "available" 22136 None None.
Definition picking (d : USBDevice) : list (event properties action ambience) :=
  [User Open ""; Ambient (InventoryIs (UseResource.mkView (mkUSBInventory (ListUSBDevices [] [] [d]) None true) "" false)); User (Select d) ""].
Definition sample_drive : USBAttachment := mkUSBAttachment None (sample_device "A1") "att1" None "attached" "vm1" "web".
Definition asking : list (event properties action ambience) :=
  [Ambient (AttachmentsAre (UseResource.mkView [sample_drive] "" false)); User (RequestRemove sample_drive) ""].

Lemma vm_usb_requests_witness :
  let s := (run (step (VMUSB (Hdialogs := plain_dialogs) id)) (start (sample_machine "running") []) asking).1 in
  removal (local s) ConfirmRemove sample_drive.
Proof.
  destruct (vm_usb_requests (Hdialogs := plain_dialogs) id (sample_machine "running") [] asking ConfirmRemove "" (DetachUSB "vm1" "att1"))
    as [(_ & att & Hid & _ & Hr) _].
  - legal_run.
  - apply list_elem_of_In; vm_compute; tauto.
  - apply list_elem_of_In; vm_compute; tauto.
  - cbn zeta. destruct Hr as [[_ Hr]|[Hr _]]; [|done]. left. split; [done|reflexivity].
Defined.

Lemma vm_usb_accepted_witness :
  ∃ dev, AttachUSB_ok "running" [sample_device "A1"] [] "0123456789abcdef01234567"
    "0123456789abcdef0123456789abcdef0123456789abcdef0123456789abcdef" = inl dev ∧ dev_id dev = "0123456789abcdef01234567".
Proof.
  destruct (vm_usb_accepted (Hdialogs := plain_dialogs) id (sample_machine "running") [] (picking (sample_device "A1")) Attach ""
    (AttachUSB "vm1" "0123456789abcdef01234567" "0123456789abcdef0123456789abcdef0123456789abcdef0123456789abcdef") [sample_device "A1"] [] [])
    as (dev & H1 & H2 & _); [.. |by exists dev].
  - legal_run.
  - apply list_elem_of_In; vm_compute; tauto.
  - apply list_elem_of_In; vm_compute; tauto.
  - intros k Hk. vm_compute in Hk. injection Hk as <-. reflexivity.
  - apply NoDup_singleton.
  - by intros d ->%list_elem_of_singleton.
Defined.

(** A device without a serial, assigned beside one of its kind that has a serial, is not added yet for the
    picker; its assignment can then not be removed: its key is a prefix that matches both. *)
Lemma assignment_not_removable :
  let added := [mkUSBAttachment (Some "5678:1234:A1") (mkUSBDevice 0 0 [] "" "" "" "" "Drive" 4660 None "A1" "" "" 22136 None None) "x" None "on-start" "vm1" "web"] in
  let d := sample_device "" in
  alreadyAdded added d = false ∧
  match AssignUSB_saved "vm1" [assignment_of (sample_device "A1")] [d] [] (dev_id d) (dev_fingerprint d) with
  | inl l => UnassignUSB_saved l (AssignmentKey (assignment_of d)) = inr "ambiguous USB assignment; include its serial"
  | inr _ => False
  end.
Proof. by vm_compute. Qed.
