(* ===== verification/VmSnapshots.v ===== *)
(** * Snapshots and backups of a machine ([src/web/src/components/VMSnapshotsBackups.tsx])

    The lists of restore points with their dialogs, as a component that acts through its row, and what the
    server ([src/pkg/vm/snapshot.go], [src/pkg/engine/snapshot.go], [backup.go]) asks of the requests it
    makes before it touches a disk. The schedule that the panel embeds is [Schedule]. *)

From S2P Require Import Prelude JsString Regex Types Ux UseResource JobTracking Dom Widgets RowComponent.
Local Open Scope string_scope.

#[export] Instance Snapshot_eq_dec : EqDecision Snapshot.
Proof. solve_decision. Defined.
#[export] Instance BackupInfo_eq_dec : EqDecision BackupInfo.
Proof. solve_decision. Defined.

(** [/^[A-Za-z0-9][A-Za-z0-9._-]{0,127}$/], which the server has too ([snapshotTag]). *)
Definition tag_re : re := Seq (Cls is_alnum) (Rep 0 127 (Cls name_char)).

Inductive request :=
  | CreateBackup (id : string) | RestoreBackup (id timestamp : string) (asNew : bool) | DeleteBackup (id timestamp : string)
  | CreateSnapshot (id tag : string) (ram : bool) | RestoreSnapshot (id tag : string) | DeleteSnapshot (id tag : string).
Inductive continuation := AfterBackup | AfterCreate | AfterRestoreSnap | AfterRemoveSnap | AfterRestore | AfterRemove.

Definition properties := VMView.

Record dialogs := mkDialogs {
  backups : @UseResource.view (list BackupInfo);
  snapshots : @UseResource.view (list Snapshot);
  restoring : option BackupInfo;
  removing : option BackupInfo;
  creating : bool;
  tag : string;
  includeRAM : bool;
  restoringSnap : option Snapshot;
  removingSnap : option Snapshot
}.

Inductive action :=
  | OpenCreate | AskRestoreSnap (s : Snapshot) | AskRemoveSnap (s : Snapshot) | BackupNow
  | AskRestore (b : BackupInfo) | AskRemove (b : BackupInfo)
  | CloseRestore | CancelRestore | Replace | RestoreAsNew | CloseRemove | CancelRemove | ConfirmRemove
  | CloseCreate | CancelCreate | TypeTag | ToggleRAM | SubmitCreate
  | CloseRestoreSnap | CancelRestoreSnap | ConfirmRestoreSnap | CloseRemoveSnap | CancelRemoveSnap | ConfirmRemoveSnap.
#[export] Instance action_eq_dec : EqDecision action.
Proof. solve_decision. Defined.

Inductive ambience := BackupsAre (v : @UseResource.view (list BackupInfo)) | SnapshotsAre (v : @UseResource.view (list Snapshot)).

Definition vm_id (p : properties) : string := m_id (vm_manifest p).
Definition vm_name (p : properties) : string := m_name (vm_manifest p).
Definition running (p : properties) : bool := String.eqb (vm_phase p) "running".
Definition tagValid (d : dialogs) : bool := test tag_re (tag d).

Definition set_lists (b : @UseResource.view (list BackupInfo)) (s : @UseResource.view (list Snapshot)) (d : dialogs) : dialogs :=
  mkDialogs b s (restoring d) (removing d) (creating d) (tag d) (includeRAM d) (restoringSnap d) (removingSnap d).
Definition set_restoring (x : option BackupInfo) (d : dialogs) : dialogs :=
  mkDialogs (backups d) (snapshots d) x (removing d) (creating d) (tag d) (includeRAM d) (restoringSnap d) (removingSnap d).
Definition set_removing (x : option BackupInfo) (d : dialogs) : dialogs :=
  mkDialogs (backups d) (snapshots d) (restoring d) x (creating d) (tag d) (includeRAM d) (restoringSnap d) (removingSnap d).
Definition set_create (c : bool) (t : string) (ram : bool) (d : dialogs) : dialogs :=
  mkDialogs (backups d) (snapshots d) (restoring d) (removing d) c t ram (restoringSnap d) (removingSnap d).
Definition set_restoringSnap (x : option Snapshot) (d : dialogs) : dialogs :=
  mkDialogs (backups d) (snapshots d) (restoring d) (removing d) (creating d) (tag d) (includeRAM d) x (removingSnap d).
Definition set_removingSnap (x : option Snapshot) (d : dialogs) : dialogs :=
  mkDialogs (backups d) (snapshots d) (restoring d) (removing d) (creating d) (tag d) (includeRAM d) (restoringSnap d) x.

(** ** Handlers *)

Definition backupNow (p : properties) (v : row_view) (d : dialogs) : outcome dialogs continuation request :=
  if rv_busy v then Do d [] else Execute "vm.backup" AfterBackup (CreateBackup (vm_id p)).

Definition createSnap (p : properties) (v : row_view) (d : dialogs) : outcome dialogs continuation request :=
  if rv_busy v || negb (tagValid d) then Do d []
  else Execute "vm.snapshot.create" AfterCreate (CreateSnapshot (vm_id p) (tag d) (running p && includeRAM d)).

Definition restoreSnap (p : properties) (v : row_view) (d : dialogs) : outcome dialogs continuation request :=
  match restoringSnap d with
  | Some s => if rv_busy v then Do d [] else Execute "vm.snapshot.restore" AfterRestoreSnap (RestoreSnapshot (vm_id p) (snap_tag s))
  | None => Do d []
  end.

Definition removeSnap (p : properties) (v : row_view) (d : dialogs) : outcome dialogs continuation request :=
  match removingSnap d with
  | Some s => if rv_busy v then Do d [] else Execute "vm.snapshot.delete" AfterRemoveSnap (DeleteSnapshot (vm_id p) (snap_tag s))
  | None => Do d []
  end.

Definition restore (asNew : bool) (p : properties) (v : row_view) (d : dialogs) : outcome dialogs continuation request :=
  match restoring d with
  | Some b => if rv_busy v then Do d [] else Execute "vm.backup.restore" AfterRestore (RestoreBackup (vm_id p) (bk_timestamp b) asNew)
  | None => Do d []
  end.

Definition remove (p : properties) (v : row_view) (d : dialogs) : outcome dialogs continuation request :=
  match removing d with
  | Some b => if rv_busy v then Do d [] else Execute "vm.backup.delete" AfterRemove (DeleteBackup (vm_id p) (bk_timestamp b))
  | None => Do d []
  end.

Definition handle (p : properties) (v : row_view) (d : dialogs) (a : action) (text : string) : outcome dialogs continuation request :=
  match a with
  | OpenCreate => Do (set_create true (tag d) (includeRAM d) d) []
  | AskRestoreSnap s => Do (set_restoringSnap (Some s) d) []
  | AskRemoveSnap s => Do (set_removingSnap (Some s) d) []
  | BackupNow => backupNow p v d
  | AskRestore b => Do (set_restoring (Some b) d) []
  | AskRemove b => Do (set_removing (Some b) d) []
  | CloseRestore => Do (if rv_busy v then d else set_restoring None d) []
  | CancelRestore => Do (set_restoring None d) []
  | Replace => restore false p v d
  | RestoreAsNew => restore true p v d
  | CloseRemove => Do (if rv_busy v then d else set_removing None d) []
  | CancelRemove => Do (set_removing None d) []
  | ConfirmRemove => remove p v d
  | CloseCreate => Do (if rv_busy v then d else set_create false (tag d) (includeRAM d) d) []
  | CancelCreate => Do (set_create false (tag d) (includeRAM d) d) []
  | TypeTag => Do (set_create (creating d) text (includeRAM d) d) []
  | ToggleRAM => Do (set_create (creating d) (tag d) (negb (running p && includeRAM d)) d) []
  | SubmitCreate => createSnap p v d
  | CloseRestoreSnap => Do (if rv_busy v then d else set_restoringSnap None d) []
  | CancelRestoreSnap => Do (set_restoringSnap None d) []
  | ConfirmRestoreSnap => restoreSnap p v d
  | CloseRemoveSnap => Do (if rv_busy v then d else set_removingSnap None d) []
  | CancelRemoveSnap => Do (set_removingSnap None d) []
  | ConfirmRemoveSnap => removeSnap p v d
  end.

Definition finish (k : continuation) (d : dialogs) : dialogs :=
  match k with
  | AfterBackup => d
  | AfterCreate => set_create false "" (includeRAM d) d
  | AfterRestoreSnap => set_restoringSnap None d
  | AfterRemoveSnap => set_removingSnap None d
  | AfterRestore => set_restoring None d
  | AfterRemove => set_removing None d
  end.

Definition loaded (p : properties) (d : dialogs) (b : ambience) : dialogs :=
  match b with BackupsAre v => set_lists v (snapshots d) d | SnapshotsAre v => set_lists (backups d) v d end.

(** ** View *)

Section view.
(** The size of a file and a date in the user's language; the second is [None] for a text that is not a date. *)
Context (formatBytes : Z → string) (toLocaleString : string → option string).

Definition backupTime (b : BackupInfo) : string :=
  if truthy (bk_created_at b) then default (bk_timestamp b) (toLocaleString (bk_created_at b)) else bk_timestamp b.

Definition snapshot_row (busy : bool) (s : Snapshot) : node action :=
  box "tr"
    [label "td" (snap_tag s);
     label "td" (if truthy (snap_created_at s) then default "Invalid Date" (toLocaleString (snap_created_at s)) else "-");
     label "td" (if snap_has_ram s then "RAM + disk" else "Disk only");
     button "Restore" busy (AskRestoreSnap s); button "Delete" busy (AskRemoveSnap s)].

Definition backup_row (busy : bool) (b : BackupInfo) : node action :=
  box "tr"
    [label "td" (backupTime b); label "td" (formatBytes (bk_size_bytes b)); label "td" (pretty (length (bk_disks b)));
     label "td" (if bk_live b then if bk_consistent b then "Live · consistent" else "Live" else "Offline");
     button "Restore" busy (AskRestore b); button "Delete" busy (AskRemove b)].

Definition Dialog (title : string) (close : action) (children : list (node action)) : node action :=
  El "Dialog" [("title", title)] false [close] children.

Definition restore_dialog (p : properties) (busy : bool) (b : BackupInfo) : node action :=
  Dialog "Restore backup" CloseRestore
    [label "p" ("Restore the backup from " ++ backupTime b ++ ". Replacing this VM overwrites its current disks and requires it to be shut down first. Restoring as a new VM keeps this one untouched."
       ++ (if running p then " This VM is running, so stop it before replacing it in place, or restore as a new VM." else ""));
     button "Cancel" busy CancelRestore; button "Replace this VM" (busy || running p) Replace; button "Restore as new VM" busy RestoreAsNew].

Definition remove_dialog (v : row_view) (b : BackupInfo) : node action :=
  Dialog "Delete backup" CloseRemove
    [label "p" ("Permanently delete the backup from " ++ backupTime b ++ "? This cannot be undone.");
     button "Cancel" (rv_busy v) CancelRemove;
     button (if String.eqb (rv_action v) "vm.backup.delete" then "Deleting…" else "Delete backup") (rv_busy v) ConfirmRemove].

Definition create_dialog (p : properties) (v : row_view) (d : dialogs) : node action :=
  Dialog "Create snapshot" CloseCreate
    [El "fieldset" [] (rv_busy v) []
       [El "EntryRow" [("id", "new-snapshot-name"); ("value", tag d)] false [TypeTag] [];
        El "SwitchRow" [("title", "Include live RAM"); ("checked", if running p && includeRAM d then "true" else "false")] (negb (running p)) [ToggleRAM]
          [label "p" (if running p then "Capture the running memory so a restore resumes exactly where it left off."
                      else "The VM is not running, so only its disks are captured.")]];
     button "Cancel" (rv_busy v) CancelCreate;
     El "button" [("type", "submit")] (rv_busy v || negb (tagValid d)) (if truthy (tag d) then [SubmitCreate] else [])
       [Text (if String.eqb (rv_action v) "vm.snapshot.create" then "Creating…" else "Create snapshot")]].

Definition restore_snap_dialog (p : properties) (v : row_view) (s : Snapshot) : node action :=
  Dialog "Restore snapshot" CloseRestoreSnap
    [label "p" ("Restore this VM to snapshot " ++ snap_tag s ++ "? Any changes made since the snapshot was taken will be lost."
       ++ (if snap_has_ram s then " The live RAM state will be resumed."
           else if running p then " This snapshot has no saved RAM; restore it while the VM is stopped." else ""));
     button "Cancel" (rv_busy v) CancelRestoreSnap;
     button (if String.eqb (rv_action v) "vm.snapshot.restore" then "Restoring…" else "Restore snapshot") (rv_busy v) ConfirmRestoreSnap].

Definition remove_snap_dialog (v : row_view) (s : Snapshot) : node action :=
  Dialog "Delete snapshot" CloseRemoveSnap
    [label "p" ("Permanently delete snapshot " ++ snap_tag s ++ "? This cannot be undone.");
     button "Cancel" (rv_busy v) CancelRemoveSnap;
     button (if String.eqb (rv_action v) "vm.snapshot.delete" then "Deleting…" else "Delete snapshot") (rv_busy v) ConfirmRemoveSnap].

(** [value && <Dialog />] *)
Definition open_dialog {X} (x : option X) (f : X → node action) : list (node action) := match x with Some x => [f x] | None => [] end.

Definition render (p : properties) (v : row_view) (d : dialogs) : node action :=
  let busy := rv_busy v in
  box "div"
    ([label "h2" ("Snapshots (" ++ pretty (length (UseResource.data (snapshots d))) ++ ")"); button "Create snapshot" busy OpenCreate] ++
     when (truthy (UseResource.error (snapshots d))) [label "NoticeBanner" (UseResource.error (snapshots d))] ++
     when (bool_decide (UseResource.data (snapshots d) = [])) [label "p" "No snapshots yet."] ++
     (snapshot_row busy <$> UseResource.data (snapshots d)) ++
     [label "h2" ("Backups (" ++ pretty (length (UseResource.data (backups d))) ++ ")");
      button (if String.eqb (rv_action v) "vm.backup" then "Backing up…" else "Back up now") busy BackupNow] ++
     ActionStatus (rv_job v) (rv_error v) false ++
     when (truthy (UseResource.error (backups d))) [label "NoticeBanner" (UseResource.error (backups d))] ++
     when (bool_decide (UseResource.data (backups d) = [])) [label "p" "No backups yet."] ++
     (backup_row busy <$> UseResource.data (backups d)) ++
     [box "VMBackupSchedule" []] ++
     open_dialog (restoring d) (restore_dialog p busy) ++ open_dialog (removing d) (remove_dialog v) ++
     when (creating d) [create_dialog p v d] ++
     open_dialog (restoringSnap d) (restore_snap_dialog p v) ++ open_dialog (removingSnap d) (remove_snap_dialog v))%list.

Definition VMSnapshotsBackups : component properties dialogs action ambience continuation request := {|
  scope := "vm"; ident := vm_id; called := vm_name; act := handle; ambient := loaded; after := finish; RowComponent.render := render |}.

Definition nothing_open : dialogs :=
  mkDialogs (UseResource.mkView [] "" true) (UseResource.mkView [] "" true) None None false "" true None None.
Definition start (p : properties) (jobs : list Job) : state properties dialogs continuation := mount p jobs nothing_open.
End view.

(** ** Properties *)

Section properties.
Context (formatBytes : Z → string) (toLocaleString : string → option string).
Notation panel := (VMSnapshotsBackups formatBytes toLocaleString).
Notation render := (render formatBytes toLocaleString).

(** The controls that ask about a restore point are those of the lists. *)
Lemma snapshots_offers p v d a : a ∈ offers (render p v d) →
  match a with
  | AskRestoreSnap s | AskRemoveSnap s => s ∈ UseResource.data (snapshots d)
  | AskRestore b | AskRemove b => b ∈ UseResource.data (backups d)
  | Replace => running p = false
  | _ => True
  end.
Proof.
  intros H. unfold VmSnapshots.render, open_dialog in H. offered H; simplify_eq; try done.
  - apply offers_fmap in H as (s & Hs & H). unfold snapshot_row in H. offered H; by simplify_eq.
  - apply offers_fmap in H as (b & Hb & H). unfold backup_row in H. offered H; by simplify_eq.
  - unfold restore_dialog, Dialog in H. offered H; simplify_eq; try done. by apply orb_false_iff in Hon0 as [_ ?].
  - unfold remove_dialog, Dialog in H. offered H; by simplify_eq.
  - unfold create_dialog, Dialog in H. offered H; simplify_eq; try done. destruct (truthy (tag d)); offered H; by simplify_eq.
  - unfold restore_snap_dialog, Dialog in H. offered H; by simplify_eq.
  - unfold remove_snap_dialog, Dialog in H. offered H; by simplify_eq.
Qed.

#[export] Instance VMSnapshotsBackups_guarded : Guarded panel.
Proof.
  intros p v d a text name k r _ E. change (handle p v d a text = Execute name k r) in E.
  destruct a; cbn in E; try done;
    unfold backupNow, createSnap, restoreSnap, removeSnap, restore, remove in E; destruct (rv_busy v); repeat case_match; by simplify_eq.
Qed.

(** A dialog about [x] that the user opened from the list [x] was on, and that has been open since. *)
Definition asked {X} (p : properties) (jobs : list Job) (es : list (event properties action ambience)) (get : dialogs → option X) (ask : X → action) (l : dialogs → list X) (x : X) : Prop :=
  ∃ es1 text es2, es = (es1 ++ User (ask x) text :: es2)%list ∧ x ∈ l (local (run (step panel) (start p jobs) es1).1) ∧
    ∀ es3, es3 `prefix_of` es2 → get (local (run (step panel) (start p jobs) (es1 ++ User (ask x) text :: es3)%list).1) = Some x.

(** How a dialog opens: only its own control sets it, to what the list has. *)
Definition opens {X} (get : dialogs → option X) (ask : X → action) (l : dialogs → list X) : Prop :=
  get nothing_open = None ∧
  (∀ q v d a text d' rs x, a ∈ offers (render q v d) → handle q v d a text = Do d' rs → get d' = Some x →
     get d = Some x ∨ a = ask x ∧ x ∈ l d) ∧
  (∀ q d b, get (loaded q d b) = get d) ∧ (∀ k d, get (finish k d) = get d ∨ get (finish k d) = None).

Lemma asked_since `{EqDecision X} (get : dialogs → option X) ask l x p jobs es : opens get ask l →
  legal (step panel) (view panel) user (start p jobs) es → get (local (run (step panel) (start p jobs) es).1) = Some x →
  asked p jobs es get ask l x.
Proof.
  intros (H0 & Hh & Hb & Hk) Hl Hx.
  destruct (dialog_since panel (λ d, get d = Some x) (λ _ d a, a = ask x ∧ x ∈ l d) p jobs nothing_open es)
    as (es1 & a & text & es2 & -> & (-> & Hin) & Hs); [| | | |done|done|by exists es1, text, es2].
  - by rewrite H0.
  - intros q v d a text d' rs Ha E Hn Hd. by destruct (Hh _ _ _ _ _ _ _ _ Ha E Hd).
  - intros q d b. cbn. by rewrite Hb.
  - intros k d Hn Hd. cbn in Hd. destruct (Hk k d) as [E|E]; congruence.
Qed.

Lemma dialogs_open : opens restoring AskRestore (UseResource.data ∘ backups) ∧ opens removing AskRemove (UseResource.data ∘ backups) ∧
  opens restoringSnap AskRestoreSnap (UseResource.data ∘ snapshots) ∧ opens removingSnap AskRemoveSnap (UseResource.data ∘ snapshots).
Proof.
  split_and!; (split_and!; [done| |by intros ? ? []|by intros [] ?; auto]);
    intros q v d a text d' rs x Ha%snapshots_offers E Hx; destruct a; cbn in E;
    unfold backupNow, createSnap, restoreSnap, removeSnap, restore, remove in E; repeat case_match; simplify_eq/=; try done; try (by left);
    right; by (split; [congruence|]).
Qed.

(** Restore points are used as the user asked, one request at a time. A snapshot is taken with the name
    typed, one that the server accepts, and with the memory exactly when the machine runs and the user left
    that on; a restore point is restored or deleted only by confirming a dialog that the user opened from
    the list it was on and that has been about it ever since; and a running machine is never replaced. *)
Theorem snapshots_safety p jobs es a text r :
  let s := (run (step panel) (start p jobs) es).1 in
  let q := props s in let d := local s in
  legal (step panel) (view panel) user (start p jobs) es → a ∈ offers (view panel s) → r ∈ snd (step panel s (User a text)) →
  busy panel s = false ∧ awaiting s = [] ∧ snd (step panel s (User a text)) = [r] ∧ busy panel (fst (step panel s (User a text))) = true ∧
  match r with
  | CreateBackup id => a = BackupNow ∧ id = vm_id q
  | CreateSnapshot id t ram => a = SubmitCreate ∧ id = vm_id q ∧ t = tag d ∧ test tag_re t = true ∧ ram = running q && includeRAM d
  | RestoreSnapshot id t => a = ConfirmRestoreSnap ∧ id = vm_id q ∧
      ∃ x, t = snap_tag x ∧ asked p jobs es restoringSnap AskRestoreSnap (UseResource.data ∘ snapshots) x
  | DeleteSnapshot id t => a = ConfirmRemoveSnap ∧ id = vm_id q ∧
      ∃ x, t = snap_tag x ∧ asked p jobs es removingSnap AskRemoveSnap (UseResource.data ∘ snapshots) x
  | RestoreBackup id t asNew => (a = RestoreAsNew ∧ asNew = true ∨ a = Replace ∧ asNew = false ∧ running q = false) ∧ id = vm_id q ∧
      ∃ x, t = bk_timestamp x ∧ asked p jobs es restoring AskRestore (UseResource.data ∘ backups) x
  | DeleteBackup id t => a = ConfirmRemove ∧ id = vm_id q ∧
      ∃ x, t = bk_timestamp x ∧ asked p jobs es removing AskRemove (UseResource.data ∘ backups) x
  end.
Proof.
  cbn zeta. intros Hl Ha Hr. destruct dialogs_open as (O1 & O2 & O3 & O4).
  pose proof (λ x, asked_since restoring _ _ x p jobs es O1 Hl) as H1. pose proof (λ x, asked_since removing _ _ x p jobs es O2 Hl) as H2.
  pose proof (λ x, asked_since restoringSnap _ _ x p jobs es O3 Hl) as H3. pose proof (λ x, asked_since removingSnap _ _ x p jobs es O4 Hl) as H4.
  clear O1 O2 O3 O4. unfold start in *. set (s := (run (step panel) (mount p jobs nothing_open) es).1) in *.
  destruct (legal_requests panel p jobs _ es a text r Hl Ha Hr) as [(d & rs & E & Hrs)|((name & k & E) & Hb & Hw & Hs & Hb')]; fold s in E.
  { destruct a; cbn in E; unfold backupNow, createSnap, restoreSnap, removeSnap, restore, remove in E; repeat case_match; simplify_eq; by apply not_elem_of_nil in Hrs. }
  apply snapshots_offers in Ha. split_and!; [done..|].
  destruct a; cbn in E; try done; unfold backupNow, createSnap, restoreSnap, removeSnap, restore, remove in E.
  all: match type of E with context [match ?g with Some _ => _ | None => _ end] => destruct g as [x|] eqn:Hx; [|done] | _ => idtac end.
  all: destruct (rv_busy _); [done|]; cbn in E; try (destruct (tagValid _) eqn:Ht; [|done]; cbn in E); simplify_eq.
  all: split_and!; eauto 8.
Qed.
End properties.

(** ** What the server says of a restore *)

(** [RestoreSnapshot] of the engine and of the driver, up to the first command: the error, if any. *)
Definition RestoreSnapshot_error (live : bool) (l : list Snapshot) (t : string) : option string :=
  if negb (test tag_re t) then Some "invalid snapshot name"
  else if negb live then None
  else match List.find (λ s, String.eqb (snap_tag s) t) l with
  | None => Some "snapshot not found"
  | Some s => if snap_has_ram s then None else Some "snapshot has no saved RAM; stop the VM before restoring it"
  end.

(** ** Concrete panels *)

Definition sample_machine (phase : string) : properties :=
  mkVMView 0 (mkVMManifest None None None 2 20 None "vm1" "img" None None 2048 "web" None None None "root") phase 0.
Definition disk_only : Snapshot := mkSnapshot "" false 0 "before-upgrade".
Definition removing_snapshot : list (event properties action ambience) :=
  [Ambient (SnapshotsAre (UseResource.mkView [disk_only] "" false)); User (AskRemoveSnap disk_only) ""; PropsChanged (sample_machine "stopped")].
Definition sample_panel := VMSnapshotsBackups pretty (λ _, None).

Lemma snapshots_safety_witness :
  ∃ x, snap_tag x = "before-upgrade" ∧
    asked pretty (λ _, None) (sample_machine "running") [] removing_snapshot removingSnap AskRemoveSnap (UseResource.data ∘ snapshots) x.
Proof.
  destruct (snapshots_safety pretty (λ _, None) (sample_machine "running") [] removing_snapshot ConfirmRemoveSnap "" (DeleteSnapshot "vm1" "before-upgrade"))
    as (_ & _ & _ & _ & _ & _ & x & Hx & H).
  - legal_run.
  - apply list_elem_of_In; vm_compute; tauto.
  - by left.
  - exists x. split; [by rewrite Hx|exact H].
Defined.

(** A snapshot without memory can be restored from the page while the machine runs; the dialog says to stop
    the machine, its button is enabled, and the server refuses. *)
Lemma disk_snapshot_restore_refused :
  let es := [Ambient (SnapshotsAre (UseResource.mkView [disk_only] "" false)); User (AskRestoreSnap disk_only) ""] in
  let s := (run (step sample_panel) (start (sample_machine "running") []) es).1 in
  ConfirmRestoreSnap ∈ offers (view sample_panel s) ∧
  snd (step sample_panel s (User ConfirmRestoreSnap "")) = [RestoreSnapshot "vm1" "before-upgrade"] ∧
  RestoreSnapshot_error true [disk_only] "before-upgrade" = Some "snapshot has no saved RAM; stop the VM before restoring it".
Proof. split_and!; [|by vm_compute..]. apply list_elem_of_In. vm_compute. tauto. Qed.
