(* ===== verification/VmDataDisk.v ===== *)
(** * A disk of a machine ([src/web/src/components/VMDataDisk.tsx])

    The card of a disk, which grows it and deletes it, as a component that acts through its row; and what
    the server ([ManageDisk] of [src/pkg/engine/disks.go], [UpdateHardware] of [hardware.go]) does to the
    manifest for its requests. Image files and QEMU are outside. *)

From S2P Require Import Prelude JsString Regex JsNumber Types Ux BootOrder JobTracking Dom Widgets RowComponent EntryRows.
Local Open Scope string_scope.

(** ** The server's side *)

Section server.
(** [uuid.Parse] as a test. *)
Context (uuid_ok : string → bool).

Definition find_disk (m : VMManifest) (id : string) : option VMDisk := List.find (λ d, String.eqb (disk_id d) id) (m_disks m |?| []).

Definition set_disks (l : list VMDisk) (order : option (list string)) (size : Z) (m : VMManifest) : VMManifest :=
  mkVMManifest (m_addresses m) (m_autostart m) order (m_cpus m) size (Some l) (m_id m) (m_image m) (m_interfaces m)
    (m_isos m) (m_memory_mib m) (m_name m) (m_network m) (m_ssh_key m) (m_usb m) (m_username m).

(** The first disk with the identifier, resized. *)
Fixpoint resized (id : string) (size : Z) (l : list VMDisk) : list VMDisk :=
  match l with
  | [] => []
  | d :: r => if String.eqb (disk_id d) id then mkVMDisk (disk_id d) (disk_name d) size :: r else d :: resized id size r
  end.
(** The first disk with the identifier, taken out. *)
Fixpoint without (id : string) (l : list VMDisk) : list VMDisk :=
  match l with [] => [] | d :: r => if String.eqb (disk_id d) id then r else d :: without id r end.

(** [ManageDisk] with [vm.disk.grow] and with [vm.disk.remove]. *)
Definition GrowDisk_saved (m : VMManifest) (id : string) (size : Z) : VMManifest + string :=
  match find_disk m id with
  | None => inr "data disk not found; the boot disk cannot be removed"
  | Some d =>
      if negb (uuid_ok (disk_id d)) then inr "invalid disk ID"
      else if (size <=? disk_size_gib d)%Z then inr "new capacity must be larger"
      else inl (set_disks (resized id size (m_disks m |?| [])) (m_boot_order m) (m_disk_size_gib m) m)
  end.
Definition RemoveDisk_saved (phase : string) (m : VMManifest) (id : string) : VMManifest + string :=
  match find_disk m id with
  | None => inr "data disk not found; the boot disk cannot be removed"
  | Some d =>
      if negb (uuid_ok (disk_id d)) then inr "invalid disk ID"
      else if String.eqb phase "running" then inr "stop the VM before removing disks"
      else inl (set_disks (without id (m_disks m |?| []))
                  ((λ l, List.filter (λ x, negb (String.eqb x ("disk:" ++ id))) l) <$> m_boot_order m) (m_disk_size_gib m) m)
  end.
(** [UpdateHardware] with a capacity alone. *)
Definition GrowBoot_saved (m : VMManifest) (size : Z) : VMManifest + string :=
  if (size <? m_disk_size_gib m)%Z then inr "disk shrinking is not supported"
  else inl (mkVMManifest (m_addresses m) (m_autostart m) (m_boot_order m) (m_cpus m) size (m_disks m) (m_id m) (m_image m) (m_interfaces m)
              (m_isos m) (m_memory_mib m) (m_name m) (m_network m) (m_ssh_key m) (m_usb m) (m_username m)).
End server.

(** ** The card *)

Inductive request := UpdateHardware (id : string) (size : Z) | GrowDisk (id disk : string) (size : Z) | RemoveDisk (id disk : string).
Inductive continuation := AfterGrow | AfterRemove.

Record properties := mkProps { vm : VMView; disk : VMDisk; primary : bool }.

(** The dialog of the capacity, with its row, while it is open. *)
Record dialogs := mkDialogs { growing : option integer_row; confirm : bool }.

Inductive action := OpenGrow | AskRemove | CloseGrow | TypeSize | CancelGrow | SubmitGrow | CancelRemove | ConfirmRemove.
#[export] Instance action_eq_dec : EqDecision action.
Proof. solve_decision. Defined.

Definition vm_id (p : properties) : string := m_id (vm_manifest (vm p)).
Definition vm_name (p : properties) : string := m_name (vm_manifest (vm p)).
Definition running (p : properties) : bool := String.eqb (vm_phase (vm p)) "running".

Definition canGrow (p : properties) (r : integer_row) : bool := (Z.abs (int_value r) <=? MAX_SAFE_INTEGER)%Z && (disk_size_gib (disk p) <? int_value r)%Z.

Definition grow (p : properties) (v : row_view) (d : dialogs) : outcome dialogs continuation request :=
  match growing d with
  | Some r =>
      if rv_busy v || negb (canGrow p r) then Do d [] else
      Execute (if primary p then "vm.hardware" else "vm.disk.grow") AfterGrow
        (if primary p then UpdateHardware (vm_id p) (int_value r) else GrowDisk (vm_id p) (disk_id (disk p)) (int_value r))
  | None => Do d []
  end.

Definition remove (p : properties) (v : row_view) (d : dialogs) : outcome dialogs continuation request :=
  if rv_busy v || running p then Do d [] else Execute "vm.disk.remove" AfterRemove (RemoveDisk (vm_id p) (disk_id (disk p))).

Definition next_size (p : properties) : Z := (disk_size_gib (disk p) + 1)%Z.

Definition handle (p : properties) (v : row_view) (d : dialogs) (a : action) (text : string) : outcome dialogs continuation request :=
  match a with
  | OpenGrow => Do (mkDialogs (Some (match growing d with Some r => integer_assign (next_size p) r | None => integer_open (next_size p) end)) (confirm d)) []
  | AskRemove => Do (mkDialogs (growing d) true) []
  | CloseGrow => Do (if rv_busy v then d else mkDialogs None (confirm d)) []
  | CancelGrow => Do (mkDialogs None (confirm d)) []
  | TypeSize => Do (mkDialogs ((λ r, fst (integer_change (next_size p) MAX_SAFE_INTEGER text r)) <$> growing d) (confirm d)) []
  | SubmitGrow => grow p v d
  | CancelRemove => Do (mkDialogs (growing d) false) []
  | ConfirmRemove => remove p v d
  end.

Definition finish (k : continuation) (d : dialogs) : dialogs :=
  match k with AfterGrow => mkDialogs None (confirm d) | AfterRemove => mkDialogs (growing d) false end.

Section view.
Context `{Hdialogs : !AlertDialogs}.

Definition grow_dialog (p : properties) (v : row_view) (r : integer_row) : node action :=
  El "Dialog" [("title", "Increase " ++ disk_name (disk p) ++ " Capacity")] false [CloseGrow]
    [label "h3" ("Current capacity: " ++ pretty (disk_size_gib (disk p)) ++ " GiB");
     El "fieldset" [] (rv_busy v) []
       [IntegerEntryRow ("disk-" ++ disk_id (disk p)) "New capacity (GiB)" (next_size p) MAX_SAFE_INTEGER TypeSize r];
     button "Cancel" (rv_busy v) CancelGrow;
     El "button" [("type", "submit")] (rv_busy v || negb (canGrow p r)) (if integer_valid (next_size p) MAX_SAFE_INTEGER r then [SubmitGrow] else [])
       [Text (if rv_busy v then "Increasing…" else "Increase Capacity")]].

Definition boot_first (p : properties) : bool :=
  match savedBootOrder (vm_manifest (vm p)) with
  | x :: _ => String.eqb x (if primary p then "disk" else "disk:" ++ disk_id (disk p))
  | [] => false
  end.

Definition render (p : properties) (v : row_view) (d : dialogs) : node action :=
  let busy := rv_busy v in
  box "div"
    (when (boot_first p) [label "Badge" "Boot first"] ++
     [label "h3" (disk_name (disk p)); label "p" (pretty (disk_size_gib (disk p)) ++ " GiB")%string;
      label "p" ("QCOW2 · " ++ (if primary p then "VirtIO" else "SCSI"))%string;
      button "Increase Capacity…" busy OpenGrow] ++
     when (negb (primary p)) [button "Delete…" (busy || running p) AskRemove] ++
     ActionStatus (rv_job v) (rv_error v) false ++
     match growing d with Some r => [grow_dialog p v r] | None => [] end ++
     AlertDialog (mkAlert (confirm d) busy ("Delete " ++ disk_name (disk p) ++ "?")%string
       "This permanently deletes this disk and all data on it." "Delete Disk" CancelRemove ConfirmRemove))%list.

Definition VMDataDisk : component properties dialogs action Empty_set continuation request := {|
  scope := "vm"; ident := vm_id; called := vm_name; act := handle; ambient _ d _ := d; after := finish; RowComponent.render := render |}.

Definition start (p : properties) (jobs : list Job) : state properties dialogs continuation := mount p jobs (mkDialogs None false).

#[export] Instance VMDataDisk_guarded : Guarded VMDataDisk.
Proof.
  intros p v d a text name k r _ E. change (handle p v d a text = Execute name k r) in E.
  destruct a; cbn in E; try done; unfold grow, remove in E; destruct (rv_busy v); repeat case_match; by simplify_eq.
Qed.

Lemma disk_offers p v d a : a ∈ offers (render p v d) →
  match a with
  | AskRemove => primary p = false ∧ running p = false
  | SubmitGrow => ∃ r, growing d = Some r ∧ canGrow p r = true ∧ integer_valid (next_size p) MAX_SAFE_INTEGER r = true
  | ConfirmRemove => confirm d = true
  | _ => True
  end.
Proof.
  intros H. unfold render, grow_dialog in H. offered H; simplify_eq; try done.
  - apply orb_false_iff in Hon as [_ Hr]. by apply negb_true_iff in Hwhen.
  - by apply integer_row_offers in H as ->.
  - destruct (integer_valid _ _ _) eqn:E; [|by apply not_elem_of_nil in H]. apply list_elem_of_singleton in H as ->.
    match goal with Hd : _ || negb _ = false |- _ => apply orb_false_iff in Hd as [_ Hd%negb_false_iff] end. eauto.
Qed.
End view.

(** ** Properties *)

(** The page keeps a card for its disk, and a disk never shrinks. *)
Definition steady_change (p q : properties) : Prop := primary q = primary p ∧ (disk_size_gib (disk p) ≤ disk_size_gib (disk q))%Z.

Section properties.
Context `{Hdialogs : !AlertDialogs}.

Fixpoint steady (s : state properties dialogs continuation) (es : list (event properties action Empty_set)) : Prop :=
  match es with
  | [] => True
  | e :: es => match e with PropsChanged q => steady_change (props s) q | _ => True end ∧ steady (step VMDataDisk s e).1 es
  end.

(** A row that shows what it holds does so for a larger minimum. *)
Lemma integer_sync_mono min min' max r : (min ≤ min')%Z → integer_sync min max r → integer_sync min' max r.
Proof.
  intros Hm [H1 H2]. split; [done|]. unfold integer_valid in *. rewrite !negb_true_iff, !truthy_false, !integerError_ok in *. intros (H3 & H4 & H5 & H6).
  apply H2. split_and!; try done; lia.
Qed.

Definition disk_inv (b : bool) (s : state properties dialogs continuation) : Prop :=
  primary (props s) = b ∧
  match growing (local s) with Some r => integer_sync (next_size (props s)) MAX_SAFE_INTEGER r | None => True end.

Lemma disk_step b s e : disk_inv b s → match e with PropsChanged q => steady_change (props s) q | _ => True end → disk_inv b (step VMDataDisk s e).1.
Proof.
  intros [Hb Hi] Hs. destruct e as [a text|[]|q|l|n answer].
  - assert (∀ o : outcome dialogs continuation request, match o with Do d _ => d = local s | Execute _ _ _ => True end → disk_inv b (perform o s).1) as Ho by (intros [d rs|name k r] Hd; [subst d|]; by split).
    cbn [step VMDataDisk act]. destruct a; cbn [handle]; try (split; [exact Hb|exact Hi]); try done.
    + split; [exact Hb|]. cbn. destruct (growing (local s)); [by apply integer_assign_sync|apply integer_open_sync].
    + cbn. destruct (row_busy _ _ _ _ _); by split.
    + split; [exact Hb|]. cbn. destruct (growing (local s)); [|done]. by apply integer_change_sync.
    + apply Ho. unfold grow. destruct (growing (local s)); [|done]. by destruct (_ || _).
    + apply Ho. unfold remove. by destruct (_ || _).
  - destruct Hs as [Hp Hle]. split; cbn; [congruence|]. destruct (growing (local s)); [|done]. eapply integer_sync_mono; [|exact Hi]. unfold next_size. lia.
  - by split.
  - cbn. unfold answered. destruct (awaiting s !! n) as [k|]; [|by split]. destruct answer; [|by split]. destruct k; by split.
Qed.

Lemma disk_steady b s es : disk_inv b s → steady s es → disk_inv b (run (step VMDataDisk) s es).1.
Proof.
  revert s. induction es as [|e es IH]; intros s Hi; [done|]. intros [He Hs]. cbn.
  specialize (IH (step VMDataDisk s e).1 (disk_step b s e Hi He) Hs). destruct (step VMDataDisk s e) as [s' o]; cbn in *.
  by destruct (run (step VMDataDisk) s' es).
Qed.

(** The dialog of the deletion. *)
Definition deletion_asked (p : properties) (jobs : list Job) (es : list (event properties action Empty_set)) : Prop :=
  ∃ es1 text es2, es = (es1 ++ User AskRemove text :: es2)%list ∧ running (props (run (step VMDataDisk) (start p jobs) es1).1) = false ∧
    ∀ es3, es3 `prefix_of` es2 → confirm (local (run (step VMDataDisk) (start p jobs) (es1 ++ User AskRemove text :: es3)%list).1) = true.

Lemma confirm_asked p jobs es : legal (step VMDataDisk) (view VMDataDisk) user (start p jobs) es →
  confirm (local (run (step VMDataDisk) (start p jobs) es).1) = true → deletion_asked p jobs es.
Proof.
  intros Hl Hc. destruct (dialog_since VMDataDisk (λ d, confirm d = true) (λ q _ a, a = AskRemove ∧ running q = false) p jobs (mkDialogs None false) es)
    as (es1 & a & text & es2 & -> & (-> & Hr) & Hs); [done| |by intros|by intros [] ?|done|done|by exists es1, text, es2].
  intros q v d a text d' rs Ha%disk_offers E Hn Hd. destruct a; cbn in E; unfold grow, remove in E; repeat case_match; simplify_eq; cbn in *; try done; by destruct Ha.
Qed.
End properties.

Section saved.
Context (uuid_ok : string → bool).

Lemma find_disk_in m d : NoDup (disk_id <$> (m_disks m |?| [])) → d ∈ m_disks m |?| [] → find_disk m (disk_id d) = Some d.
Proof.
  unfold find_disk. induction (m_disks m |?| []) as [|e l IH]; [by intros _ ?%not_elem_of_nil|]. cbn. intros [Hn Hl]%NoDup_cons [->|Hd]%elem_of_cons; [by rewrite String.eqb_refl|].
  destruct (String.eqb_spec (disk_id e) (disk_id d)) as [E|]; [|by apply IH]. exfalso. apply Hn. rewrite E. apply list_elem_of_fmap. eauto.
Qed.

Lemma boot_without_gone (x : string) (o : option (list string)) :
  x ∉ ((λ l, List.filter (λ y, negb (String.eqb y x)) l) <$> o) |?| [].
Proof.
  destruct o as [l|]; cbn; [|apply not_elem_of_nil]. rewrite list_elem_of_In, filter_In. intros [_ H]. by rewrite String.eqb_refl in H.
Qed.

Lemma without_gone id l : NoDup (disk_id <$> l) → id ∉ disk_id <$> without id l.
Proof.
  induction l as [|d l IH]; [intros _; apply not_elem_of_nil|]. cbn. intros [Hn Hl]%NoDup_cons. destruct (String.eqb_spec (disk_id d) id) as [<-|E]; [done|].
  cbn. intros [?|?]%elem_of_cons; [done|]. by apply IH.
Qed.

Lemma resized_in id size l d : d ∈ l → disk_id d = id → NoDup (disk_id <$> l) → mkVMDisk id (disk_name d) size ∈ resized id size l.
Proof.
  intros Hd <-. induction l as [|e l IH]; [by apply not_elem_of_nil in Hd|]. cbn. intros [Hn Hl]%NoDup_cons. apply elem_of_cons in Hd as [->|Hd].
  - rewrite String.eqb_refl. by left.
  - destruct (String.eqb_spec (disk_id e) (disk_id d)) as [E|]; [|right; by apply IH]. exfalso. apply Hn. rewrite E. apply list_elem_of_fmap. eauto.
Qed.
End saved.

(** A disk grows to the capacity typed and is deleted only when asked twice. In a card used through its
    controls, of a disk that never shrinks: one request at a time; growing sends the number in the text, which
    is larger than the capacity shown, and the server, while the machine is the one shown, gives the disk that
    capacity; deleting is sent only by confirming a dialog that the user opened while the machine was not
    running and that has been open since, not while the machine runs, and the server takes the disk out of the
    machine and of its boot order. *)
Theorem data_disk_accepted `{!AlertDialogs} (uuid_ok : string → bool) p jobs es a text r :
  let s := (run (step VMDataDisk) (start p jobs) es).1 in
  let q := props s in let m := vm_manifest (vm q) in
  legal (step VMDataDisk) (view VMDataDisk) user (start p jobs) es → steady (start p jobs) es →
  a ∈ offers (view VMDataDisk s) → r ∈ snd (step VMDataDisk s (User a text)) →
  (if primary q then disk_size_gib (disk q) = m_disk_size_gib m
   else disk q ∈ m_disks m |?| [] ∧ NoDup (disk_id <$> (m_disks m |?| [])) ∧ uuid_ok (disk_id (disk q)) = true) →
  busy VMDataDisk s = false ∧ snd (step VMDataDisk s (User a text)) = [r] ∧ busy VMDataDisk (fst (step VMDataDisk s (User a text))) = true ∧
  match r with
  | UpdateHardware id n => a = SubmitGrow ∧ id = vm_id q ∧ primary q = true ∧ (disk_size_gib (disk q) < n ≤ MAX_SAFE_INTEGER)%Z ∧
      (∃ w, growing (local s) = Some w ∧ n = digits_value (int_text w)) ∧
      ∃ m', GrowBoot_saved m n = inl m' ∧ m_disk_size_gib m' = n
  | GrowDisk id i n => a = SubmitGrow ∧ id = vm_id q ∧ i = disk_id (disk q) ∧ primary q = false ∧ (disk_size_gib (disk q) < n ≤ MAX_SAFE_INTEGER)%Z ∧
      (∃ w, growing (local s) = Some w ∧ n = digits_value (int_text w)) ∧
      ∃ m', GrowDisk_saved uuid_ok m i n = inl m' ∧ mkVMDisk i (disk_name (disk q)) n ∈ m_disks m' |?| []
  | RemoveDisk id i => a = ConfirmRemove ∧ id = vm_id q ∧ i = disk_id (disk q) ∧ running q = false ∧ deletion_asked p jobs es ∧
      (primary q = false → ∃ m', RemoveDisk_saved uuid_ok (vm_phase (vm q)) m i = inl m' ∧
         i ∉ disk_id <$> (m_disks m' |?| []) ∧ ("disk:" ++ i) ∉ m_boot_order m' |?| [])
  end.
Proof.
  cbn zeta. intros Hl Hst Ha Hr Hcur. assert (disk_inv (primary p) (start p jobs)) as H0 by by split.
  pose proof (disk_steady _ _ es H0 Hst) as [_ Hi]. pose proof (confirm_asked p jobs es Hl) as Hask. clear H0.
  unfold start in *. set (s := (run (step VMDataDisk) (mount p jobs (mkDialogs None false)) es).1) in *.
  destruct (legal_requests VMDataDisk p jobs _ es a text r Hl Ha Hr) as [(d & rs & E & Hrs)|((name & k & E) & Hb & _ & Hs & Hb')]; fold s in E.
  { destruct a; cbn in E; unfold grow, remove in E; repeat case_match; simplify_eq; by apply not_elem_of_nil in Hrs. }
  apply disk_offers in Ha. split_and!; [done..|].
  destruct a; cbn in E; try done.
  - destruct Ha as (w & Hw & Hg & Hv). unfold grow in E. rewrite Hw in E, Hi. destruct (rv_busy _); [done|]. rewrite Hg in E. cbn in E.
    pose proof (proj2 Hi Hv) as Hn. unfold canGrow in Hg. apply andb_true_iff in Hg as [Hmax%Z.leb_le Hgt%Z.ltb_lt].
    assert (disk_size_gib (disk (props s)) < int_value w ≤ MAX_SAFE_INTEGER)%Z as Hrange by lia.
    destruct (primary (props s)) eqn:Hp; injection E as <- <- <-; split_and!; eauto; try lia.
    + unfold GrowBoot_saved. destruct (Z.ltb_spec (int_value w) (m_disk_size_gib (vm_manifest (vm (props s))))); [lia|]. by eexists.
    + destruct Hcur as (Hin & Hnd & Hu). unfold GrowDisk_saved. rewrite (find_disk_in _ _ Hnd Hin), Hu. cbn.
      destruct (Z.leb_spec (int_value w) (disk_size_gib (disk (props s)))); [lia|]. eexists. split; [done|]. by apply resized_in.
  - unfold remove in E. destruct (rv_busy _); [done|]. destruct (running (props s)) eqn:Hrun; [done|]. injection E as <- <- <-.
    split_and!; auto. intros Hp. rewrite Hp in Hcur. destruct Hcur as (Hin & Hnd & Hu). unfold RemoveDisk_saved. rewrite (find_disk_in _ _ Hnd Hin), Hu.
    unfold running in Hrun. rewrite Hrun. cbn [negb]. eexists. split; [done|]. split; [by apply without_gone|].
    unfold set_disks; cbn [m_boot_order]. apply boot_without_gone.
Qed.

(** ** A concrete card *)

Definition data_disk : VMDisk := mkVMDisk "d1" "Data" 10.
Definition sample_card (phase : string) : properties :=
  mkProps (mkVMView 0 (mkVMManifest None None (Some ["disk:d1"; "disk"]) 2 20 (Some [data_disk]) "vm1" "img" None None 2048 "web" None None None "root") phase 0)
    data_disk false.

Lemma data_disk_accepted_witness :
  let es : list (event properties action Empty_set) := [User OpenGrow ""; User TypeSize "8"; User TypeSize "032"] in
  ∃ m', GrowDisk_saved (λ _, true) (vm_manifest (vm (sample_card "stopped"))) "d1" 32 = inl m' ∧ mkVMDisk "d1" "Data" 32 ∈ m_disks m' |?| [].
Proof.
  intros es. destruct (data_disk_accepted (H := plain_dialogs) (λ _, true) (sample_card "stopped") [] es SubmitGrow "" (GrowDisk "vm1" "d1" 32))
    as (_ & _ & _ & _ & _ & _ & _ & _ & _ & H).
  - legal_run.
  - by repeat split.
  - apply list_elem_of_In; vm_compute; tauto.
  - by left.
  - split_and!; [by left|apply NoDup_singleton|done].
  - exact H.
Defined.
