(* ===== verification/ConsoleSockets.v ===== *)
(** * Sessions of the consoles

    The three classes behind the consoles: [ConsoleSession] ([src/web/src/components/SerialConsole.tsx]),
    [ShellSession] ([HostConsole.tsx]) and [DisplaySession] ([GraphicalConsole.tsx]). Each object is a
    state with one function per method; what it does to its socket, its terminal and the component that
    made it are effects. What the browser guarantees of a socket is in [socket_step]: no message unless it is
    open, nothing after it is closed. What the components need of the classes is the interface
    [SessionClass]; the ends of the shell and the serial line in the server, [hostConsole]
    ([src/pkg/api/host_console.go]) and [streamVMConsole] ([console.go]) with [acceptAuthenticated]
    ([job_stream.go]), are at the end of the file. *)

From S2P Require Import Prelude JsString Json PathSerializer.
Local Open Scope string_scope.

(** ** Sockets *)

Inductive readyState := CONNECTING | OPEN | CLOSING | CLOSED.
#[export] Instance readyState_eq_dec : EqDecision readyState.
Proof. solve_decision. Defined.

(** [ended]: the event of the closure was raised. *)
Record websocket := mkSocket { state : readyState; ended : bool }.

Inductive data := TextData (s : string) | BinaryData (s : string).

Inductive socket_event :=
  | Opens
  | Receives (d : data)
  | Fails
  | Closes (reason : string).

(** The socket when the event is raised; [None] where the browser raises no such event. *)
Definition socket_step (e : socket_event) (w : websocket) : option websocket :=
  match e with
  | Opens => if decide (state w = CONNECTING) then Some (mkSocket OPEN (ended w)) else None
  | Receives _ => if decide (state w = OPEN) then Some w else None
  | Fails => if decide (state w = CLOSED) then None else Some (mkSocket CLOSED (ended w))
  | Closes _ => if ended w then None else Some (mkSocket CLOSED true)
  end.

(** [new WebSocket] and [close]. *)
Definition connecting : websocket := mkSocket CONNECTING false.
Definition close (w : websocket) : websocket :=
  mkSocket (if decide (state w = CLOSED) then CLOSED else CLOSING) (ended w).

Definition lives (w : websocket) : bool := bool_decide (state w = CONNECTING) || bool_decide (state w = OPEN).

(** ** Messages and effects

    The texts of the terminal are UTF-8 here, so [TextEncoder] is the identity. *)

Inductive message :=
  | Credentials (token : option string)  (* JSON.stringify({ token: getToken() }) *)
  | Input (bytes : string)
  | Size (cols rows : Z).                (* JSON.stringify({ cols, rows }) *)

Inductive effect :=
  | OpenSocket (path : string)
  | Send (m : message)
  | CloseSocket
  | OpenTerminal | Write (d : data) | Fit | ScrollToBottom | Focus | DisposeTerminal
  | RequestFrame | CancelFrame | AwaitFonts | Observe | StopObserving
  | OpenDisplay | DisconnectDisplay
  | Status (value : string) (live : bool).

(** The page's socket address for a path. *)
Definition socket_url (protocol host path : string) : string :=
  (if String.eqb protocol "https:" then "wss:" else "ws:") ++ "//" ++ host ++ path.

(** [event.reason || 'Disconnected'] *)
Definition close_reason (reason : string) : string := str_or reason "Disconnected".

(** ** [ConsoleSession] *)

Module ConsoleSession.

(** [following] is whether the viewport is at the end of the terminal, [writes] what each write that has
    not been displayed yet found there. *)
Record session := mkSession {
  socket : websocket;
  active : bool;
  frame : bool;
  following : bool;
  writes : list bool
}.

(** [Scrolled]: the terminal's viewport moves. *)
Inductive event :=
  | Socket (e : socket_event)
  | Typed (text : string)
  | Resized
  | Frame
  | Written
  | Scrolled (at_end : bool).

Definition with_socket (w : websocket) (s : session) : session := mkSession w (active s) (frame s) (following s) (writes s).

Definition resize (s : session) : session * list effect :=
  if negb (active s) then (s, [])
  else (mkSession (socket s) (active s) true (following s) (writes s), [CancelFrame; RequestFrame]).

Definition create (id : string) : session * list effect :=
  let '(s, o) := resize (mkSession connecting true false true []) in
  (s, (OpenTerminal :: o) ++ [AwaitFonts; OpenSocket ("/api/vms/" ++ encodeURIComponent id ++ "/console"); Observe])%list.

Definition authenticate (token : option string) (s : session) : session * list effect :=
  (s, [Send (Credentials token); Focus]).

Definition receive (d : data) (s : session) : session * list effect :=
  if negb (active s) then (s, [])
  else (mkSession (socket s) (active s) (frame s) (following s) (writes s ++ [following s])%list, [Status "Connected" true; Write d]).

(** The callback of a write. *)
Definition written (s : session) : session * list effect :=
  match writes s with
  | [] => (s, [])
  | f :: l =>
      (mkSession (socket s) (active s) (frame s) ((active s && f) || following s) l, if active s && f then [ScrollToBottom] else [])
  end.

Definition send (text : string) (s : session) : session * list effect :=
  (s, if decide (state (socket s) = OPEN) then [Send (Input text)] else []).

Definition fitTerminal (s : session) : session * list effect :=
  if negb (active s) then (s, []) else (s, Fit :: if following s then [ScrollToBottom] else []).

Definition scrollToLatest (s : session) : session * list effect :=
  (mkSession (socket s) (active s) (frame s) true (writes s), [ScrollToBottom; Focus]).

Definition failed (s : session) : session * list effect :=
  (s, if active s then [Status "Console connection failed" false] else []).
Definition closed (reason : string) (s : session) : session * list effect :=
  (s, if active s then [Status (close_reason reason) false] else []).

Definition dispose (s : session) : session * list effect :=
  (mkSession (close (socket s)) false false (following s) (writes s), [CancelFrame; StopObserving; CloseSocket; DisposeTerminal]).

(** A terminal that is disposed of raises no input. *)
Definition handle (token : option string) (e : event) (s : session) : session * list effect :=
  match e with
  | Socket e =>
      match socket_step e (socket s) with
      | None => (s, [])
      | Some w =>
          let s := with_socket w s in
          match e with
          | Opens => authenticate token s
          | Receives d => receive d s
          | Fails => failed s
          | Closes reason => closed reason s
          end
      end
  | Typed text => if active s then send text s else (s, [])
  | Resized => resize s
  | Frame => if frame s then fitTerminal (mkSession (socket s) (active s) false (following s) (writes s)) else (s, [])
  | Written => written s
  | Scrolled b => (mkSession (socket s) (active s) (frame s) b (writes s), [])
  end.

End ConsoleSession.

(** ** [ShellSession] *)

Module ShellSession.

Record session := mkSession {
  socket : websocket;
  active : bool;
  ready : bool;
  frame : bool;
  cols : Z;
  rows : Z;
  following : bool;
  writes : list bool
}.

(** [Frame]: the animation frame, with the size the terminal then fits. *)
Inductive event :=
  | Socket (e : socket_event)
  | Typed (text : string)
  | Resized
  | Frame (cols rows : Z)
  | Written
  | Scrolled (at_end : bool).

Definition with_socket (w : websocket) (s : session) : session :=
  mkSession w (active s) (ready s) (frame s) (cols s) (rows s) (following s) (writes s).
Definition with_frame (b : bool) (s : session) : session :=
  mkSession (socket s) (active s) (ready s) b (cols s) (rows s) (following s) (writes s).

Definition resize (s : session) : session * list effect :=
  if negb (active s) then (s, []) else (with_frame true s, [CancelFrame; RequestFrame]).

(** A new terminal has 80 columns and 24 rows. *)
Definition create : session * list effect :=
  let '(s, o) := resize (mkSession connecting true false false 80 24 true []) in
  (s, (OpenTerminal :: o) ++ [AwaitFonts; OpenSocket "/api/host/console"; Observe])%list.

Definition sendSize (s : session) : list effect :=
  if negb (ready s) || negb (bool_decide (state (socket s) = OPEN)) then [] else [Send (Size (cols s) (rows s))].

Definition authenticate (token : option string) (s : session) : session * list effect :=
  let s' := mkSession (socket s) (active s) true (frame s) (cols s) (rows s) (following s) (writes s) in
  (s', (Send (Credentials token) :: sendSize s') ++ [Focus])%list.

Definition receive (d : data) (s : session) : session * list effect :=
  if negb (active s) then (s, [])
  else (mkSession (socket s) (active s) (ready s) (frame s) (cols s) (rows s) (following s) (writes s ++ [following s])%list,
        [Status "Connected" true; Write d]).

Definition written (s : session) : session * list effect :=
  match writes s with
  | [] => (s, [])
  | f :: l =>
      (mkSession (socket s) (active s) (ready s) (frame s) (cols s) (rows s) ((active s && f) || following s) l,
       if active s && f then [ScrollToBottom] else [])
  end.

Definition send (text : string) (s : session) : session * list effect :=
  (s, if decide (state (socket s) = OPEN) then [Send (Input text)] else []).

Definition fitTerminal (c r : Z) (s : session) : session * list effect :=
  if negb (active s) then (s, []) else
  let s' := mkSession (socket s) (active s) (ready s) (frame s) c r true (writes s) in
  (s', (Fit :: sendSize s') ++ [ScrollToBottom])%list.

Definition failed (s : session) : session * list effect :=
  (s, if active s then [Status "Shell connection failed" false] else []).
Definition closed (reason : string) (s : session) : session * list effect :=
  (s, if active s then [Status (close_reason reason) false] else []).

Definition dispose (s : session) : session * list effect :=
  (mkSession (close (socket s)) false (ready s) false (cols s) (rows s) (following s) (writes s),
   [CancelFrame; StopObserving; CloseSocket; DisposeTerminal]).

Definition handle (token : option string) (e : event) (s : session) : session * list effect :=
  match e with
  | Socket e =>
      match socket_step e (socket s) with
      | None => (s, [])
      | Some w =>
          let s := with_socket w s in
          match e with
          | Opens => authenticate token s
          | Receives d => receive d s
          | Fails => failed s
          | Closes reason => closed reason s
          end
      end
  | Typed text => if active s then send text s else (s, [])
  | Resized => resize s
  | Frame c r => if frame s then fitTerminal c r (with_frame false s) else (s, [])
  | Written => written s
  | Scrolled b => (mkSession (socket s) (active s) (ready s) (frame s) (cols s) (rows s) b (writes s), [])
  end.

End ShellSession.

(** ** [DisplaySession] *)

Module DisplaySession.

(** What is known of the [RFB] object, which belongs to noVNC: once made it reads the messages of the socket;
    it is connected once, may fail its security negotiation before that, and disconnects once, after
    which it raises nothing. *)
Inductive rfb := Starting | Running | Refused | Gone.
#[export] Instance rfb_eq_dec : EqDecision rfb.
Proof. solve_decision. Defined.

Record session := mkSession { socket : websocket; active : bool; display : option rfb }.

Inductive event :=
  | Socket (e : socket_event)
  | Connect
  | Disconnect
  | SecurityFailure.

Definition create (id : string) : session * list effect :=
  (mkSession connecting true None, [OpenSocket ("/api/vms/" ++ encodeURIComponent id ++ "/display")]).

Definition with_display (d : option rfb) (s : session) : session := mkSession (socket s) (active s) d.

Definition authenticate (token : option string) (s : session) : session * list effect := (s, [Send (Credentials token)]).

Definition is_ready (d : data) : bool :=
  match d with
  | TextData t => String.eqb t ("{" ++ String "034" "type" ++ String "034" ":" ++ String "034" "ready" ++ String "034" "}")
  | BinaryData _ => false
  end.
Definition ready (d : data) (s : session) : session * list effect :=
  if negb (active s) || negb (is_ready d) then (s, []) else (with_display (Some Starting) s, [OpenDisplay]).

Definition connected (s : session) : session * list effect := (s, if active s then [Status "Connected" true] else []).
Definition disconnected (s : session) : session * list effect :=
  (s, if active s then [Status "Disconnected. Connect to try again." false] else []).
Definition closed (reason : string) (s : session) : session * list effect :=
  (s, if active s then [Status (close_reason reason) false] else []).
Definition failed (s : session) : session * list effect :=
  (s, if active s then [Status "Graphical console connection failed" false] else []).

Definition dispose (s : session) : session * list effect :=
  (mkSession (close (socket s)) false (display s), ((if display s then [DisconnectDisplay] else []) ++ [CloseSocket])%list).

Definition handle (token : option string) (e : event) (s : session) : session * list effect :=
  match e with
  | Socket e =>
      match socket_step e (socket s) with
      | None => (s, [])
      | Some w =>
          let s := mkSession w (active s) (display s) in
          match e with
          | Opens => authenticate token s
          | Receives d => if display s then (s, []) else ready d s
          | Fails => failed s
          | Closes reason => closed reason s
          end
      end
  | Connect =>
      if decide (display s = Some Starting ∧ state (socket s) = OPEN) then connected (with_display (Some Running) s) else (s, [])
  | SecurityFailure => if decide (display s = Some Starting) then failed (with_display (Some Refused) s) else (s, [])
  | Disconnect =>
      match display s with
      | None | Some Gone => (s, [])
      | Some _ => disconnected (with_display (Some Gone) s)
      end
  end.

End DisplaySession.

(** ** What the components need of the classes *)

Definition statuses (o : list effect) : list (string * bool) :=
  omap (λ x, match x with Status v l => Some (v, l) | _ => None end) o.
Definition sent (o : list effect) : list message := omap (λ x, match x with Send m => Some m | _ => None end) o.

Lemma statuses_app o o' : statuses (o ++ o') = (statuses o ++ statuses o')%list.
Proof. apply omap_app. Qed.
Lemma sent_app o o' : sent (o ++ o') = (sent o ++ sent o')%list.
Proof. apply omap_app. Qed.

(** [alive]: the socket, and with it the console, can still work. An object tells its component when it no
    longer can; after its disposal it is silent. *)
Class SessionClass (P S E : Type) := {
  create : P → S * list effect;
  handle : option string → E → S → S * list effect;
  dispose : S → S * list effect;
  jump : S → S * list effect;
  active : S → bool;
  alive : S → bool;
  disposed : S → bool;
  create_live p : active (create p).1 = true ∧ alive (create p).1 = true ∧ statuses (create p).2 = [];
  handle_active t e s : active (handle t e s).1 = active s;
  handle_lost t e s : alive s = false → alive (handle t e s).1 = false;
  handle_status t e s (v : string) (live : bool) : (v, live) ∈ statuses (handle t e s).2 →
    active s = true ∧ if live then v = "Connected" ∧ alive (handle t e s).1 = true else alive (handle t e s).1 = false;
  handle_loss t e s : active s = true → alive s = true → alive (handle t e s).1 = false → ∃ v, (v, false) ∈ statuses (handle t e s).2;
  jump_same s : active (jump s).1 = active s ∧ alive (jump s).1 = alive s ∧ statuses (jump s).2 = [];
  dispose_final s : disposed (dispose s).1 = true ∧ statuses (dispose s).2 = [] ∧ CloseSocket ∈ (dispose s).2;
  disposed_inactive s : disposed s = true → active s = false;
  disposed_silent t e s : disposed s = true → disposed (handle t e s).1 = true ∧ (handle t e s).2 = []
}.

Lemma lives_false w : lives w = false ↔ state w = CLOSING ∨ state w = CLOSED.
Proof. unfold lives. rewrite orb_false_iff, !bool_decide_eq_false. destruct (state w); naive_solver. Qed.

Lemma socket_step_dead e w w' : lives w = false → socket_step e w = Some w' →
  lives w' = false ∧ match e with Opens | Receives _ => False | _ => True end.
Proof.
  rewrite !lives_false. intros Hw He. destruct e; cbn in He; repeat case_decide; repeat case_match; simplify_eq; cbn;
    try (destruct Hw; congruence); (split; [by right|done]).
Qed.

Lemma socket_step_lives e w w' : socket_step e w = Some w' →
  match e with Opens | Receives _ => lives w' = true | _ => lives w' = false end.
Proof. destruct e; cbn; intros He; unfold lives; repeat case_decide; repeat case_match; simplify_eq; cbn; try done; by rewrite bool_decide_eq_true_2. Qed.

Lemma close_dead w : lives (close w) = false.
Proof. unfold close. apply lives_false. cbn. case_decide; auto. Qed.

(** The cases of one event: whether the browser raises it, and what the method tests. *)
Ltac session_event :=
  repeat (cbn in *; match goal with
  | H : context [match ?x with _ => _ end] |- _ => destruct x eqn:?
  | |- context [match ?x with _ => _ end] => destruct x eqn:?
  end; simplify_eq/=); try done.

Lemma lives_or w : state w = CONNECTING ∨ state w = OPEN → lives w = true.
Proof. unfold lives. intros [-> | ->]; done. Qed.

Lemma lives_state st b : lives (mkSocket st b) = match st with CONNECTING | OPEN => true | _ => false end.
Proof. by destruct st. Qed.

Ltac session_done :=
  rewrite ?lives_state, ?close_dead, ?andb_true_r, ?andb_false_r in *; cbn in *;
  repeat match goal with
  | H : _ ∈ [] |- _ => by apply not_elem_of_nil in H
  | H : _ ∈ _ :: _ |- _ => apply elem_of_cons in H as [H|H]; simplify_eq
  | E : state ?w = _, H : lives ?w = false |- _ => rewrite lives_or in H by auto
  | |- _ ∧ _ => split
  | |- ∃ _, (_, false) ∈ (?v, false) :: _ => exists v; by left
  | |- CloseSocket ∈ _ => repeat constructor
  | H : negb _ = false |- _ => apply negb_false_iff in H
  | H : negb _ = true |- _ => apply negb_true_iff in H
  end; rewrite ?andb_true_r, ?andb_false_r in *; try congruence; try (by rewrite ?close_dead); try (by apply lives_or; auto).

(** The laws of a class whose methods are unfolded by [u]. *)
Ltac session_laws u :=
  [> by intros ? | intros t e s; destruct e; u; session_event
   | intros t e s H; destruct e; u; session_event; session_done
   | intros t e s v live H; destruct e; u; session_event; session_done
   | intros t e s Ha Hl H; destruct e; u; session_event; session_done
   | intros s; u; session_event
   | intros s; u; session_event; session_done
   | intros s; rewrite andb_true_iff, !negb_true_iff; tauto
   | intros t e s; rewrite andb_true_iff, !negb_true_iff; intros [Ha Hl]; destruct e; u; rewrite ?Ha; session_event; rewrite ?Ha, ?Hl; session_done; rewrite ?Ha, ?Hl; done ].

#[export] #[refine] Instance console_session : SessionClass string ConsoleSession.session ConsoleSession.event := {|
  create := ConsoleSession.create; handle := ConsoleSession.handle; dispose := ConsoleSession.dispose;
  jump := ConsoleSession.scrollToLatest; active := ConsoleSession.active; alive s := lives (ConsoleSession.socket s);
  disposed s := negb (ConsoleSession.active s) && negb (lives (ConsoleSession.socket s))
|}.
Proof.
  all: session_laws ltac:(unfold ConsoleSession.handle, ConsoleSession.authenticate, ConsoleSession.receive, ConsoleSession.failed, ConsoleSession.closed,
    ConsoleSession.send, ConsoleSession.resize, ConsoleSession.fitTerminal, ConsoleSession.written, ConsoleSession.scrollToLatest, ConsoleSession.dispose in *).
Defined.

#[export] #[refine] Instance shell_session : SessionClass () ShellSession.session ShellSession.event := {|
  create _ := ShellSession.create; handle := ShellSession.handle; dispose := ShellSession.dispose; jump s := (s, []);
  active := ShellSession.active; alive s := lives (ShellSession.socket s);
  disposed s := negb (ShellSession.active s) && negb (lives (ShellSession.socket s))
|}.
Proof.
  all: session_laws ltac:(unfold ShellSession.handle, ShellSession.authenticate, ShellSession.receive, ShellSession.failed,
    ShellSession.closed, ShellSession.send, ShellSession.resize, ShellSession.fitTerminal, ShellSession.sendSize, ShellSession.written, ShellSession.dispose in *).
Defined.

(** A display is lost too when noVNC has lost or refused it. *)
Definition display_alive (s : DisplaySession.session) : bool :=
  lives (DisplaySession.socket s) && match DisplaySession.display s with Some DisplaySession.Refused | Some DisplaySession.Gone => false | _ => true end.

#[export] #[refine] Instance display_session : SessionClass string DisplaySession.session DisplaySession.event := {|
  create := DisplaySession.create; handle := DisplaySession.handle; dispose := DisplaySession.dispose; jump s := (s, []);
  active := DisplaySession.active; alive := display_alive;
  disposed s := negb (DisplaySession.active s) && negb (lives (DisplaySession.socket s))
|}.
Proof.
  all: session_laws ltac:(unfold display_alive, DisplaySession.handle, DisplaySession.authenticate, DisplaySession.ready, DisplaySession.connected,
    DisplaySession.disconnected, DisplaySession.failed, DisplaySession.closed, DisplaySession.dispose in *).
  by apply lives_or; right; destruct a.
Defined.

(** ** The lives of an object

    Methods are called with the token then stored, until and after the disposal. *)

Section life.
Context {P S E : Type} `{!SessionClass P S E}.

Inductive life_event := Hears (token : option string) (e : E) | Disposed.

Definition life_step (s : S) (e : life_event) : S * list effect :=
  match e with
  | Hears t e => handle t e s
  | Disposed => dispose s
  end.

(** Given what an event types in a state: the text typed. Given which events open the socket of a state: the
    token stored when it opens. *)
Context (text : S → E → string) (opens : S → E → bool).

Definition typed (s : S) (e : life_event) : string := match e with Hears _ e => text s e | Disposed => "" end.
Fixpoint typed_in (s : S) (es : list life_event) : string :=
  match es with
  | [] => ""
  | e :: es => typed s e ++ typed_in (life_step s e).1 es
  end.

Definition opening (s : S) (e : life_event) : option (option string) :=
  match e with Hears t e => if opens s e then Some t else None | Disposed => None end.
Fixpoint opened_with (s : S) (es : list life_event) : option (option string) :=
  match es with
  | [] => None
  | e :: es => match opening s e with Some t => Some t | None => opened_with (life_step s e).1 es end
  end.
End life.
Arguments life_event : clear implicits.

(** ** The server

    *** Credentials *)

Record user := mkUser { ID : string; PasswordHash : string; Role : string }.
(** [auth.Claims], of a token that JWT has found signed and not expired. *)
Record Claims := mkClaims { Subject : string; UserID : string; Credentials_version : string; issued : bool }.

Section server.
(** JWT, the database and SHA-256 in hexadecimal. *)
Context (ParseWithClaims : string → option Claims) (GetUserByUsername : string → option (option user)) (sha256 : string → string).

Definition CanMutate (role : string) : bool := String.eqb role "admin".
Definition CredentialVersion (u : user) : string := sha256 (ID u ++ String "000" (PasswordHash u)).

Definition ParseClaims (token : string) : option Claims :=
  if (String.length token =? 0)%nat || (4096 <? Z.of_nat (String.length token))%Z then None else
  c ← ParseWithClaims token;
  if String.eqb (Subject c) "" || negb (issued c) then None else Some c.

(** The role of the user a token was made for, whose password has not changed since. *)
Definition authenticateToken (token : string) : option string :=
  c ← ParseClaims token;
  if String.eqb (UserID c) "" || String.eqb (Credentials_version c) "" then None else
  u ← GetUserByUsername (Subject c);
  match u with
  | Some u => if String.eqb (ID u) (UserID c) && String.eqb (Credentials_version c) (CredentialVersion u) then Some (Role u) else None
  | None => None
  end.

(** The bytes of a message, and its type. *)
Definition contents (m : message) : string :=
  match m with
  | Credentials t => stringify (JObj [("token", match t with Some t => JStr t | None => JNull end)])
  | Input b => b
  | Size c r => stringify (JObj [("cols", JNum c); ("rows", JNum r)])
  end.
Definition is_binary (m : message) : bool := match m with Input _ => true | _ => false end.
(** [SetReadLimit]. *)
Definition within (limit : Z) (m : message) : bool := (Z.of_nat (String.length (contents m)) <=? limit)%Z.

(** [json.Unmarshal] into a [ConsoleAuth]: [null], or no token, is the empty one. *)
Definition ConsoleAuth (text : string) : option string :=
  j ← parse text;
  match j with
  | JNull => Some ""
  | JObj _ => match field "token" j with Some (JStr t) => Some t | None | Some JNull => Some "" | _ => None end
  | _ => None
  end.

(** [acceptAuthenticated], of the first message: the role, or the reason the connection is closed for. *)
Definition acceptAuthenticated (m : message) : string + string :=
  if negb (within 4096 m) then inr "authentication required" else
  match ConsoleAuth (contents m) with
  | None => inr "authentication required"
  | Some token => match authenticateToken token with Some role => inl role | None => inr "unauthorized" end
  end.

(** *** A connection

    What the server hears, in order: the messages that arrive; that no message came in five seconds; that the token
    has expired, or is found revoked; and that the connection is lost, or what is behind it (the shell, the line
    of the machine) has ended or is not written to. [open] is what a first message comes to, and [read] what any
    other comes to, with what has been passed on so far. *)

Inductive server_event := Arrives (m : message) | TimedOut | Expired | Revoked | Lost.
Inductive server (T : Type) := Waiting | Serving (t : T) | Over (t : option T) (reason : string).
Arguments Waiting {T}.
Arguments Serving {T}.
Arguments Over {T}.

Definition serve {T} (opening : message → T + string) (read : T → message → T + string) (s : server T) (e : server_event) : server T :=
  match s, e with
  | Waiting, Arrives m => match opening m with inl t => Serving t | inr why => Over None why end
  | Waiting, (TimedOut | Lost) => Over None "authentication required"
  | Serving t, Arrives m => match read t m with inl t => Serving t | inr why => Over (Some t) why end
  | Serving t, Expired => Over (Some t) "session expired"
  | Serving t, Revoked => Over (Some t) "session revoked"
  | Serving t, Lost => Over (Some t) ""
  | _, _ => s
  end.

(** *** The shell

    The binary messages go to the shell; a text message is a size, kept when both fit 16 bits and are not zero. *)

Record shell := mkShell { shell_input : string; shell_size : option (Z * Z) }.

Definition uint16_positive (n : Z) : bool := (0 <? n)%Z && (n <=? 65535)%Z.

Definition shell_read (sh : shell) (m : message) : shell :=
  match m with
  | Input b => mkShell (shell_input sh ++ b) (shell_size sh)
  | Size c r => if uint16_positive c && uint16_positive r then mkShell (shell_input sh) (Some (c, r)) else sh
  | Credentials _ => sh
  end.

(** [starts]: what [pty.Start] answers. *)
Definition shell_opening (starts : bool) (m : message) : shell + string :=
  match acceptAuthenticated m with
  | inr why => inr why
  | inl role =>
      if negb (CanMutate role) then inr "administrator role required" else
      if negb starts then inr "shell unavailable" else inl (mkShell "" None)
  end.
Definition shell_reading (sh : shell) (m : message) : shell + string :=
  if negb (within 1048576 m) then inr "message too big" else inl (shell_read sh m).
Definition hostConsole (starts : bool) : list server_event → server shell := foldl (serve (shell_opening starts) shell_reading) Waiting.

(** *** The serial line

    Binary messages are copied to the machine; any other ends the connection. What [StatusVM], the dial
    and the replay of the log answer is in [line]; [keeps_limit]: whether the connection that [websocket.NetConn] makes
    keeps the limit set before. *)

Record line := mkLine { running : bool; dials : bool; replays : bool; keeps_limit : bool }.

Definition serial_opening (l : line) (m : message) : string + string :=
  match acceptAuthenticated m with
  | inr why => inr why
  | inl role =>
      if negb (CanMutate role) then inr "administrator role required" else
      if negb (running l) then inr "VM is not running" else
      if negb (dials l) then inr "console unavailable" else
      if negb (replays l) then inr "" else inl ""
  end.
Definition serial_reading (l : line) (t : string) (m : message) : string + string :=
  if keeps_limit l && negb (within 1048576 m) then inr "message too big" else
  match m with Input b => inl (t ++ b) | _ => inr "unexpected message type" end.
Definition streamVMConsole (l : line) : list server_event → server string := foldl (serve (serial_opening l) (serial_reading l)) Waiting.

(** *** What a connection has passed on *)

Definition arrived (es : list server_event) : list message := omap (λ e, match e with Arrives m => Some m | _ => None end) es.
Definition taken {T} (s : server T) : option T := match s with Waiting => None | Serving t => Some t | Over t _ => t end.

Section connection.
Context {T : Type} (opening : message → T + string) (read : T → message → T + string).
Notation serve := (serve opening read).

Fixpoint reads (t : T) (ms : list message) : option T :=
  match ms with
  | [] => Some t
  | m :: ms => match read t m with inl t => reads t ms | inr _ => None end
  end.

Lemma over_final es t why : foldl serve (Over t why) es = Over t why.
Proof. induction es as [|[] es IH]; done. Qed.

Lemma serving_reads es : ∀ t, ∃ ms t', ms `prefix_of` arrived es ∧ reads t ms = Some t' ∧ taken (foldl serve (Serving t) es) = Some t' ∧
  (∀ t'', foldl serve (Serving t) es = Serving t'' → ms = arrived es).
Proof.
  induction es as [|e es IH]; intros t; [by exists [], t|].
  assert (∀ why ms, ∃ ms' t', ms' `prefix_of` ms ∧ reads t ms' = Some t' ∧ taken (foldl serve (Over (Some t) why) es) = Some t' ∧
    (∀ t'', foldl serve (Over (Some t) why) es = Serving t'' → ms' = ms)) as Hover.
  { intros why ms. exists [], t. rewrite over_final. split_and!; [apply prefix_nil|done..]. }
  destruct e; cbn [foldl serve]; [|apply IH|apply Hover..].
  cbn [arrived omap list_omap]. destruct (read t m) as [t1|why] eqn:E; [|apply Hover].
  destruct (IH t1) as (ms & t' & Hp & Hr & Ht & Hs). exists (m :: ms), t'. cbn [reads]. rewrite E. split_and!; [by apply prefix_cons|done..|].
  intros t'' H. f_equal. by eapply Hs.
Qed.

(** A connection passes on what its first message and a part of the others, from the first on, come to: all of them while it serves. *)
Lemma served es t : taken (foldl serve Waiting es) = Some t → ∃ m ms t0,
  (m :: ms)%list `prefix_of` arrived es ∧ opening m = inl t0 ∧ reads t0 ms = Some t ∧
  (∀ t', foldl serve Waiting es = Serving t' → (m :: ms)%list = arrived es).
Proof.
  induction es as [|e es IH]; [done|]. destruct e; cbn [foldl serve]; try (rewrite over_final; done); [|exact IH..].
  destruct (opening m) as [t0|why] eqn:E; [|by rewrite over_final]. intros H. destruct (serving_reads es t0) as (ms & t' & Hp & Hr & Ht & Hs).
  rewrite Ht in H. injection H as ->. exists m, ms, t0. split_and!; [by apply prefix_cons|done..|]. intros t' H. cbn [arrived omap list_omap]. f_equal. by eapply Hs.
Qed.

(** It serves as long as nothing but messages comes, and none is refused. *)
Lemma serves m ms t0 t : opening m = inl t0 → reads t0 ms = Some t → foldl serve Waiting (Arrives <$> m :: ms) = Serving t.
Proof.
  intros E. cbn. rewrite E. clear E. revert t0. induction ms as [|m' ms IH]; intros t0; cbn; [by intros [= ->]|].
  destruct (read t0 m') as [t1|]; [|done]. apply IH.
Qed.

(** The same, of what is sent: a first message [m] and the others. *)
Lemma passed es m ms : arrived es `prefix_of` (m :: ms) →
  (∀ t, taken (foldl serve Waiting es) = Some t → ∃ ms1 rest t0, ms = (ms1 ++ rest)%list ∧ opening m = inl t0 ∧ reads t0 ms1 = Some t) ∧
  (∀ t, foldl serve Waiting es = Serving t → arrived es = (m :: ms)%list → ∃ t0, opening m = inl t0 ∧ reads t0 ms = Some t) ∧
  (∀ t0 t, opening m = inl t0 → reads t0 ms = Some t → es = Arrives <$> m :: ms → foldl serve Waiting es = Serving t).
Proof.
  intros Hp. split_and!.
  - intros t (m' & ms1 & t0 & H & Ho & Hr & _)%served. destruct (transitivity H Hp) as [rest E]. injection E as -> ->. by exists ms1, rest, t0.
  - intros t Hs Hall. destruct (served es t) as (m' & ms1 & t0 & _ & Ho & Hr & H); [by rewrite Hs|]. rewrite Hall in H. injection (H _ Hs) as -> ->. by exists t0.
  - intros t0 t Ho Hr ->. by eapply serves.
Qed.

Lemma nothing_sent es o : o = [] → arrived es `prefix_of` o → o = [] ∧ taken (foldl serve Waiting es) = None.
Proof.
  intros -> Hp. split; [done|]. destruct (taken _) as [t|] eqn:E; [|done]. destruct (served es t E) as (m & ms & _ & H & _).
  destruct (transitivity H Hp) as [rest Hr]. done.
Qed.
End connection.
End server.
Arguments Waiting {T}.
Arguments Serving {T}.
Arguments Over {T}.

(** ** What is typed arrives *)

Definition shell_text (s : ShellSession.session) (e : ShellSession.event) : string :=
  match e with
  | ShellSession.Typed text => if decide (state (ShellSession.socket s) = OPEN ∧ ShellSession.active s = true) then text else ""
  | _ => ""
  end.
Definition shell_opens (s : ShellSession.session) (e : ShellSession.event) : bool :=
  match e with ShellSession.Socket Opens => bool_decide (state (ShellSession.socket s) = CONNECTING) | _ => false end.
Definition shell_step : ShellSession.session → life_event ShellSession.event → ShellSession.session * list effect := life_step (P := ()).

(** The object has authenticated once its socket has opened, and only then. *)
Definition shell_wf (s : ShellSession.session) : Prop :=
  (state (ShellSession.socket s) = OPEN → ShellSession.ready s = true) ∧ (state (ShellSession.socket s) = CONNECTING → ShellSession.ready s = false).
(** The shell has the size of the terminal. *)
Definition sized (s : ShellSession.session) (sh : shell) : Prop :=
  state (ShellSession.socket s) = OPEN → uint16_positive (ShellSession.cols s) = true → uint16_positive (ShellSession.rows s) = true →
  shell_size sh = Some (ShellSession.cols s, ShellSession.rows s).

Ltac shell_unfold := unfold ShellSession.handle, ShellSession.authenticate, ShellSession.receive, ShellSession.failed, ShellSession.closed,
  ShellSession.send, ShellSession.resize, ShellSession.fitTerminal, ShellSession.sendSize, ShellSession.written, ShellSession.with_socket, ShellSession.with_frame, shell_text in *.

Lemma shell_ready_step s e sh : shell_wf s → ShellSession.ready s = true → sized s sh →
  let s' := (shell_step s e).1 in let sh' := foldl shell_read sh (sent (shell_step s e).2) in
  shell_wf s' ∧ ShellSession.ready s' = true ∧ sized s' sh' ∧
  shell_input sh' = shell_input sh ++ typed shell_text s e.
Proof.
  intros [Ho Hc] Hr Hs. unfold shell_step, shell_wf, sized, typed in *. destruct e as [t e|].
  - destruct e; cbn [life_step handle shell_session]; shell_unfold; rewrite ?Hr; session_event.
    all: rewrite ?str_app_nil_r; rewrite ?andb_false_iff, ?negb_true_iff, ?bool_decide_eq_false in *; split_and!; try naive_solver congruence.
    by destruct n.
  - cbn [life_step dispose shell_session]; unfold ShellSession.dispose; cbn. rewrite str_app_nil_r. split_and!; try done.
    all: case_decide; done.
Qed.

Lemma shell_ready_run es : ∀ s sh, shell_wf s → ShellSession.ready s = true → sized s sh →
  let s' := (run shell_step s es).1 in let sh' := foldl shell_read sh (sent (run shell_step s es).2) in
  sized s' sh' ∧ shell_input sh' = shell_input sh ++ typed_in (P := ()) shell_text s es.
Proof.
  induction es as [|e es IH]; intros s sh Hw Hr Hs; cbn [run typed_in]; [split; [done|by rewrite str_app_nil_r]|].
  pose proof (shell_ready_step s e sh Hw Hr Hs) as (Hw' & Hr' & Hs' & Hi). fold (shell_step s e). destruct (shell_step s e) as [s1 o1]. cbn [fst snd] in *.
  specialize (IH s1 _ Hw' Hr' Hs'). destruct (run shell_step s1 es) as [s2 o2]. cbn [fst snd] in *.
  rewrite sent_app, foldl_app. destruct IH as [? ->]. split; [done|]. by rewrite Hi, str_app_assoc.
Qed.

Lemma shell_dead_run es : ∀ s, lives (ShellSession.socket s) = false →
  sent (run shell_step s es).2 = [] ∧ opened_with (P := ()) shell_opens s es = None.
Proof.
  induction es as [|e es IH]; intros s Hl; [done|]. cbn [run opened_with].
  assert (sent (shell_step s e).2 = [] ∧ lives (ShellSession.socket (shell_step s e).1) = false ∧
          opening shell_opens s e = None) as (Ho & Hl' & Hn).
  { assert (state (ShellSession.socket s) ≠ CONNECTING ∧ state (ShellSession.socket s) ≠ OPEN) as [H1 H2] by (apply lives_false in Hl; destruct Hl; split; congruence).
    destruct e as [t []|]; unfold shell_step; cbn [life_step handle dispose shell_session opening shell_opens]; unfold ShellSession.dispose; shell_unfold.
    all: session_event; rewrite ?lives_state, ?close_dead, ?(bool_decide_eq_false_2 _ H1), ?(bool_decide_eq_false_2 _ H2), ?orb_true_r in *; try done.
    split_and!; [done|apply close_dead|done]. }
  fold (shell_step s e). rewrite Hn. specialize (IH _ Hl'). destruct (shell_step s e) as [s1 o1]. cbn [fst snd] in *.
  destruct (run shell_step s1 es) as [s2 o2]. cbn [fst snd] in *. by rewrite sent_app, Ho.
Qed.

(** Before the socket opens nothing is sent; opening it sends the credentials and the size. *)
Lemma shell_opening_step s e : state (ShellSession.socket s) = CONNECTING → ShellSession.ready s = false →
  let s' := (shell_step s e).1 in
  typed shell_text s e = "" ∧
  match opening shell_opens s e with
  | Some t => shell_wf s' ∧ ShellSession.ready s' = true ∧
      ∃ ms, sent (shell_step s e).2 = Credentials t :: ms ∧ let sh := foldl shell_read (mkShell "" None) ms in sized s' sh ∧ shell_input sh = ""
  | None => sent (shell_step s e).2 = [] ∧
      (state (ShellSession.socket s') = CONNECTING ∧ ShellSession.ready s' = false ∨ lives (ShellSession.socket s') = false)
  end.
Proof.
  intros Hc Hr. unfold shell_step, shell_wf, sized.
  destruct e as [t []|]; cbn [life_step handle dispose shell_session opening typed shell_opens]; unfold ShellSession.dispose; shell_unfold; rewrite ?Hc, ?Hr.
  all: try (session_event; rewrite ?Hc, ?Hr, ?lives_state, ?close_dead; by auto).
  destruct e; unfold socket_step; rewrite ?Hc; cbn.
  2-4: session_event; rewrite ?Hc, ?Hr, ?lives_state; by auto.
  rewrite !bool_decide_eq_true_2, decide_True by done. cbn. split; [done|]. split; [done|]. split; [done|].
  eexists; split; [done|]. cbn. session_event. all: split; [|done]; intros _ H1 H2; by rewrite ?H1, ?H2 in *.
Qed.

Lemma shell_run es : ∀ s, state (ShellSession.socket s) = CONNECTING → ShellSession.ready s = false →
  let '(s', o) := run shell_step s es in
  match opened_with (P := ()) shell_opens s es with
  | None => sent o = []
  | Some t => ∃ ms, sent o = (Credentials t :: ms)%list ∧
      let sh := foldl shell_read (mkShell "" None) ms in shell_input sh = typed_in (P := ()) shell_text s es ∧ sized s' sh
  end.
Proof.
  induction es as [|e es IH]; intros s Hc Hr; [done|]. cbn [run opened_with typed_in]. fold (shell_step s e).
  pose proof (shell_opening_step s e Hc Hr) as [-> He]. destruct (opening shell_opens s e) as [t|].
  - destruct He as (Hw & Hr' & ms & Hms & Hs & Hi). pose proof (shell_ready_run es _ _ Hw Hr' Hs) as [Hs' Hi'].
    destruct (shell_step s e) as [s1 o1]. cbn [fst snd] in *. destruct (run shell_step s1 es) as [s2 o2]. cbn [fst snd] in *.
    exists (ms ++ sent o2)%list. rewrite sent_app, Hms. cbn zeta. rewrite foldl_app. split; [done|]. split; [|done]. by rewrite Hi', Hi.
  - destruct He as [Ho He]. destruct (shell_step s e) as [s1 o1]. cbn [fst snd] in *. destruct He as [[Hc' Hr']|Hl].
    + specialize (IH s1 Hc' Hr'). destruct (run shell_step s1 es) as [s2 o2]. rewrite sent_app, Ho. done.
    + pose proof (shell_dead_run es s1 Hl) as [Ho' ->]. destruct (run shell_step s1 es) as [s2 o2]. cbn [fst snd] in *. by rewrite sent_app, Ho.
Qed.

(** The serial line, in the same way. *)
Definition serial_text (s : ConsoleSession.session) (e : ConsoleSession.event) : string :=
  match e with
  | ConsoleSession.Typed text => if decide (state (ConsoleSession.socket s) = OPEN ∧ ConsoleSession.active s = true) then text else ""
  | _ => ""
  end.
Definition serial_opens (s : ConsoleSession.session) (e : ConsoleSession.event) : bool :=
  match e with ConsoleSession.Socket Opens => bool_decide (state (ConsoleSession.socket s) = CONNECTING) | _ => false end.
Definition serial_step : ConsoleSession.session → life_event ConsoleSession.event → ConsoleSession.session * list effect := life_step (P := string).

Ltac serial_unfold := unfold ConsoleSession.handle, ConsoleSession.authenticate, ConsoleSession.receive, ConsoleSession.failed, ConsoleSession.closed,
  ConsoleSession.send, ConsoleSession.resize, ConsoleSession.fitTerminal, ConsoleSession.written, ConsoleSession.dispose, ConsoleSession.with_socket, serial_text in *.

(** The texts of messages. *)
Fixpoint texts (ms : list message) : string := match ms with [] => "" | m :: ms => contents m ++ texts ms end.
Lemma texts_app ms ms' : texts (ms ++ ms') = texts ms ++ texts ms'.
Proof. induction ms as [|m ms IH]; [done|]. cbn. by rewrite IH, str_app_assoc. Qed.

Lemma serial_open_step s e : state (ConsoleSession.socket s) ≠ CONNECTING →
  state (ConsoleSession.socket (serial_step s e).1) ≠ CONNECTING ∧
  Forall (λ m, is_binary m = true) (sent (serial_step s e).2) ∧ texts (sent (serial_step s e).2) = typed serial_text s e.
Proof.
  intros Hc. unfold serial_step. destruct e as [t []|]; cbn [life_step handle dispose console_session typed]; serial_unfold.
  all: session_event. all: try (split_and!; [unfold close; cbn; try case_decide; done|by repeat constructor|by rewrite ?str_app_nil_r]).
  all: exfalso; naive_solver.
Qed.

Lemma serial_open_run es : ∀ s, state (ConsoleSession.socket s) ≠ CONNECTING →
  Forall (λ m, is_binary m = true) (sent (run serial_step s es).2) ∧ texts (sent (run serial_step s es).2) = typed_in (P := string) serial_text s es.
Proof.
  induction es as [|e es IH]; intros s Hc; [done|]. cbn [run typed_in]. fold (serial_step s e). pose proof (serial_open_step s e Hc) as (Hc' & Hb & Ht).
  specialize (IH _ Hc'). destruct (serial_step s e) as [s1 o1]. cbn [fst snd] in *. destruct (run serial_step s1 es) as [s2 o2]. cbn [snd] in *.
  rewrite sent_app, texts_app, Ht. destruct IH as [IH1 IH2]. split; [by apply Forall_app|by rewrite IH2].
Qed.

Lemma serial_closed_step s e : state (ConsoleSession.socket s) ≠ OPEN → opening serial_opens s e = None →
  state (ConsoleSession.socket (serial_step s e).1) ≠ OPEN ∧ sent (serial_step s e).2 = [] ∧ typed serial_text s e = "" .
Proof.
  intros Ho. unfold serial_step. destruct e as [t []|]; cbn [life_step handle dispose console_session typed opening serial_opens]; serial_unfold.
  all: intros H; session_event. all: try (split_and!; [unfold close; cbn; try case_decide; done|done..]).
  all: exfalso; rewrite ?bool_decide_eq_false in *; naive_solver.
Qed.

Lemma serial_run es : ∀ s, state (ConsoleSession.socket s) ≠ OPEN →
  let '(s', o) := run serial_step s es in
  match opened_with (P := string) serial_opens s es with
  | None => sent o = []
  | Some t => ∃ ms, sent o = (Credentials t :: ms)%list ∧ Forall (λ m, is_binary m = true) ms ∧ texts ms = typed_in (P := string) serial_text s es
  end.
Proof.
  induction es as [|e es IH]; intros s Ho; [done|]. cbn [run opened_with typed_in]. fold (serial_step s e).
  destruct (opening serial_opens s e) as [t|] eqn:E.
  - assert (sent (serial_step s e).2 = [Credentials t] ∧ typed serial_text s e = "" ∧ state (ConsoleSession.socket (serial_step s e).1) ≠ CONNECTING) as (Ho' & Ht & Hc).
    { destruct e as [t' [[]| | | | |]|]; cbn in E; try done. destruct (bool_decide_reflect (state (ConsoleSession.socket s) = CONNECTING)) as [Hc|]; [|done].
      injection E as ->. unfold serial_step. cbn. by rewrite decide_True by done. }
    pose proof (serial_open_run es _ Hc) as [Hb Hr]. destruct (serial_step s e) as [s1 o1]. cbn [fst snd] in *. destruct (run serial_step s1 es) as [s2 o2]. cbn [fst snd] in *.
    exists (sent o2). rewrite sent_app, Ho', Ht. by rewrite Hr.
  - destruct (serial_closed_step s e Ho E) as (Ho' & Hs & ->). specialize (IH _ Ho'). destruct (serial_step s e) as [s1 o1]. cbn [fst snd] in *.
    destruct (run serial_step s1 es) as [s2 o2]. by rewrite sent_app, Hs.
Qed.

(** What each end passes on. *)
Lemma serial_reads l ms : ∀ t t', reads (serial_reading l) t ms = Some t' → t' = t ++ texts ms.
Proof.
  induction ms as [|m ms IH]; intros t t'; cbn; [intros [= <-]; by rewrite str_app_nil_r|]. unfold serial_reading at 1.
  destruct (keeps_limit l && _); [done|]. destruct m; try done. intros ->%IH. cbn. by rewrite str_app_assoc.
Qed.
Lemma serial_reads_all l ms : Forall (λ m, is_binary m = true) ms → (keeps_limit l = true → Forall (λ m, within 1048576 m = true) ms) →
  ∀ t, reads (serial_reading l) t ms = Some (t ++ texts ms).
Proof.
  induction ms as [|m ms IH]; intros Hb Hl t; cbn; [by rewrite str_app_nil_r|]. apply Forall_cons in Hb as [Hm Hb]. unfold serial_reading at 1.
  assert (keeps_limit l && negb (within 1048576 m) = false) as ->.
  { destruct (keeps_limit l); [|done]. destruct (Forall_cons_1 _ _ _ (Hl eq_refl)) as [-> _]. done. }
  destruct m; try done. rewrite IH; [cbn; by rewrite str_app_assoc|done|]. intros Hk. by destruct (Forall_cons_1 _ _ _ (Hl Hk)).
Qed.

Lemma shell_reads ms : ∀ sh sh', reads shell_reading sh ms = Some sh' → sh' = foldl shell_read sh ms.
Proof.
  induction ms as [|m ms IH]; intros sh sh'; cbn; [by intros [= <-]|]. unfold shell_reading at 1. destruct (negb _); [done|]. by intros ->%IH.
Qed.
Lemma shell_reads_all ms : Forall (λ m, within 1048576 m = true) ms → ∀ sh, reads shell_reading sh ms = Some (foldl shell_read sh ms).
Proof. induction 1 as [|m ms Hm _ IH]; intros sh; [done|]. cbn. unfold shell_reading at 1. rewrite Hm. apply IH. Qed.
Lemma shell_read_more ms : ∀ sh, ∃ rest, shell_input (foldl shell_read sh ms) = shell_input sh ++ rest.
Proof.
  induction ms as [|m ms IH]; intros sh; cbn; [exists ""; by rewrite str_app_nil_r|]. destruct (IH (shell_read sh m)) as [rest ->].
  destruct m; cbn; [by exists rest|rewrite str_app_assoc; eauto|]. case_match; by exists rest.
Qed.

(** *** Whom the server lets in *)

(** The credentials of an administrator's session, which the server takes. *)
Definition lets_in (authenticate : string → option string) (t : option string) : Prop :=
  authenticate (default "" t) = Some "admin" ∧ (Z.of_nat (String.length (contents (Credentials t))) ≤ 4096)%Z.

Section accepted.
Context (ParseWithClaims : string → option Claims) (GetUserByUsername : string → option (option user)) (sha256 : string → string).
Notation authenticate := (authenticateToken ParseWithClaims GetUserByUsername sha256).
Notation shell_opening := (shell_opening ParseWithClaims GetUserByUsername sha256).
Notation serial_opening := (serial_opening ParseWithClaims GetUserByUsername sha256).

Lemma accept_credentials t : acceptAuthenticated ParseWithClaims GetUserByUsername sha256 (Credentials t) =
  if within 4096 (Credentials t) then match authenticate (default "" t) with Some role => inl role | None => inr "unauthorized" end else inr "authentication required".
Proof.
  unfold acceptAuthenticated. destruct (within 4096 _); [|done]. cbn [negb]. unfold ConsoleAuth. cbn [contents]. rewrite parse_stringify. by destruct t.
Qed.

Lemma accepts t : (∃ role, acceptAuthenticated ParseWithClaims GetUserByUsername sha256 (Credentials t) = inl role ∧ CanMutate role = true) ↔ lets_in authenticate t.
Proof.
  rewrite accept_credentials. unfold lets_in, CanMutate, within. destruct (Z.leb_spec (Z.of_nat (String.length (contents (Credentials t)))) 4096).
  - destruct (authenticate (default "" t)) as [r|]; split.
    + by intros (? & [= <-] & ->%String.eqb_eq).
    + intros [[= ->] _]. by exists "admin".
    + by intros (? & [=] & _).
    + by intros [[=] _].
  - split; [by intros (? & [=] & _)|intros [_ ?]; lia].
Qed.

Lemma shell_opens_for starts t sh : shell_opening starts (Credentials t) = inl sh ↔ sh = mkShell "" None ∧ starts = true ∧ lets_in authenticate t.
Proof.
  rewrite <- accepts. unfold ConsoleSockets.shell_opening. destruct (acceptAuthenticated _ _ _ _) as [role|why]; [|naive_solver].
  destruct (CanMutate role) eqn:E; cbn [negb]; [destruct starts; cbn; naive_solver|]. split; [done|]. intros (_ & _ & ? & [= <-] & ?). congruence.
Qed.
Lemma serial_opens_for l t x : serial_opening l (Credentials t) = inl x ↔ x = "" ∧ (running l = true ∧ dials l = true ∧ replays l = true) ∧ lets_in authenticate t.
Proof.
  rewrite <- accepts. unfold ConsoleSockets.serial_opening. destruct (acceptAuthenticated _ _ _ _) as [role|why]; [|naive_solver].
  destruct (CanMutate role) eqn:E; cbn [negb]; [destruct (running l), (dials l), (replays l); cbn; naive_solver|].
  split; [done|]. intros (_ & _ & ? & [= <-] & ?). congruence.
Qed.
End accepted.

(** C26. What is typed in a terminal arrives, at a server that lets the session in. Whatever happens to a terminal of a
    machine's serial line or of the host's shell, in any order and after its disposal too, and whatever the
    server hears meanwhile, the messages sent arriving in order and perhaps not all: until the socket opens nothing is sent; what is sent
    then begins with the token stored when it opened, and the server passes something on only if
    the credentials have at most 4096 bytes, the token is that of an administrator's session, and the machine runs and its line is reached, or the shell starts.
    What it has passed on is then the beginning of the texts typed while the socket was open, in order; it is all of them
    once all has arrived and the connection still serves, and the shell has the size of the terminal
    then, if the socket is open and the size fits 16 bits. And as long as the server hears nothing but these messages (no timeout, no
    expiry nor revocation of the session, no loss of the connection or of what is behind it), and none has more than a mebibyte, it does serve. *)
Theorem typed_arrives ParseWithClaims GetUserByUsername sha256 id es evs l es' evs' starts :
  let authenticate := authenticateToken ParseWithClaims GetUserByUsername sha256 in
  let o := sent (run serial_step (ConsoleSession.create id).1 es).2 in
  let line := streamVMConsole ParseWithClaims GetUserByUsername sha256 l evs in
  let typed := typed_in (P := string) serial_text (ConsoleSession.create id).1 es in
  let page := run shell_step ShellSession.create.1 es' in
  let o' := sent page.2 in
  let host := hostConsole ParseWithClaims GetUserByUsername sha256 starts evs' in
  let typed' := typed_in (P := ()) shell_text ShellSession.create.1 es' in
  arrived evs `prefix_of` o → arrived evs' `prefix_of` o' →
  match opened_with (P := string) serial_opens (ConsoleSession.create id).1 es with
  | None => o = [] ∧ taken line = None
  | Some t =>
      let admitted := (running l = true ∧ dials l = true ∧ replays l = true) ∧ lets_in authenticate t in
      head o = Some (Credentials t) ∧
      (∀ x, taken line = Some x → admitted ∧ (∃ rest, typed = x ++ rest)) ∧
      (∀ x, line = Serving x → arrived evs = o → x = typed) ∧
      (admitted → evs = Arrives <$> o → (keeps_limit l = true → Forall (λ m, within 1048576 m = true) (tail o)) → line = Serving typed)
  end ∧
  match opened_with (P := ()) shell_opens ShellSession.create.1 es' with
  | None => o' = [] ∧ taken host = None
  | Some t =>
      let admitted := starts = true ∧ lets_in authenticate t in
      head o' = Some (Credentials t) ∧
      (∀ sh, taken host = Some sh → admitted ∧ (∃ rest, typed' = shell_input sh ++ rest)) ∧
      (∀ sh, host = Serving sh → arrived evs' = o' → shell_input sh = typed' ∧ sized page.1 sh) ∧
      (admitted → evs' = Arrives <$> o' → Forall (λ m, within 1048576 m = true) (tail o') →
         ∃ sh, host = Serving sh ∧ shell_input sh = typed' ∧ sized page.1 sh)
  end.
Proof.
  cbn zeta. intros Hev Hev'. split.
  - pose proof (serial_run es (ConsoleSession.create id).1 ltac:(done)) as H. destruct (run serial_step _ es) as [s o]. cbn [fst snd] in *.
    destruct (opened_with _ _ es) as [t|]; [|by apply (nothing_sent _ _ evs)]. destruct H as (ms & Ho & Hb & <-). rewrite Ho in *.
    destruct (passed (serial_opening ParseWithClaims GetUserByUsername sha256 l) (serial_reading l) evs (Credentials t) ms Hev) as (H1 & H2 & H3).
    split; [done|]. split_and!.
    + intros x Hx. destruct (H1 x Hx) as (ms1 & rest & t0 & -> & [-> Ha]%serial_opens_for & ->%serial_reads). split; [done|].
      exists (texts rest). by rewrite texts_app.
    + intros x Hx Hall. destruct (H2 x Hx Hall) as (t0 & [-> _]%serial_opens_for & ->%serial_reads). done.
    + intros Ha -> Hl. eapply H3; [by apply serial_opens_for|by apply serial_reads_all|done].
  - pose proof (shell_run es' ShellSession.create.1 eq_refl eq_refl) as H. destruct (run shell_step _ es') as [s o]. cbn [fst snd] in *.
    destruct (opened_with _ _ es') as [t|]; [|by apply (nothing_sent _ _ evs')]. destruct H as (ms & Ho & Ht & Hs). rewrite Ho in *.
    destruct (passed (shell_opening ParseWithClaims GetUserByUsername sha256 starts) shell_reading evs' (Credentials t) ms Hev') as (H1 & H2 & H3).
    split; [done|]. split_and!.
    + intros x Hx. destruct (H1 x Hx) as (ms1 & rest & t0 & -> & (-> & Ha)%shell_opens_for & ->%shell_reads). split; [done|].
      rewrite <- Ht, foldl_app. apply shell_read_more.
    + intros x Hx Hall. destruct (H2 x Hx Hall) as (t0 & [-> _]%shell_opens_for & ->%shell_reads). done.
    + intros Ha -> Hl. exists (foldl shell_read (mkShell "" None) ms). split; [|done]. eapply H3; [by apply shell_opens_for|by apply shell_reads_all|done].
Qed.

(** A session of the user [root], who types [ls] in the shell of the host, is let in; that of a guest is not. *)
Definition sample_user (role : string) : string → option (option user) := λ _, Some (Some (mkUser "u1" "hash" role)).
Definition sample_claims (token : string) : option Claims := if String.eqb token "abc" then Some (mkClaims "root" "u1" "v" true) else None.
Definition sample_typed : list (life_event ShellSession.event) :=
  [Hears (Some "abc") (ShellSession.Socket Opens); Hears (Some "abc") (ShellSession.Typed "l"); Hears (Some "abc") (ShellSession.Typed "s")].
Definition sample_sent : list server_event := Arrives <$> sent (run shell_step ShellSession.create.1 sample_typed).2.

Lemma typed_arrives_witness :
  (∃ sh, hostConsole sample_claims (sample_user "admin") (λ _, "v") true sample_sent = Serving sh ∧ shell_input sh = "ls") ∧
  taken (hostConsole sample_claims (sample_user "viewer") (λ _, "v") true sample_sent) = None.
Proof.
  pose (l := mkLine true true true true).
  assert (arrived sample_sent `prefix_of` sent (run shell_step ShellSession.create.1 sample_typed).2) as Hp by (exists []; reflexivity).
  split.
  - destruct (typed_arrives sample_claims (sample_user "admin") (λ _, "v") "vm1" [] [] l sample_typed sample_sent true (prefix_nil _) Hp) as [_ (_ & _ & _ & H)].
    destruct H as (sh & Hsh & Hi & _).
    + split; [done|]. by split; vm_compute.
    + reflexivity.
    + repeat constructor.
    + exists sh. split; [exact Hsh|]. rewrite Hi. by vm_compute.
  - destruct (typed_arrives sample_claims (sample_user "viewer") (λ _, "v") "vm1" [] [] l sample_typed sample_sent true (prefix_nil _) Hp) as [_ (_ & H & _)].
    destruct (taken _) as [sh|] eqn:E; [|reflexivity]. destruct (H sh eq_refl) as [[_ [Ha _]] _]. vm_compute in Ha. discriminate Ha.
Defined.
