(* ===== verification/Consoles.v ===== *)
(** * The consoles

    The components [SerialConsole], [GraphicalConsole] ([src/web/src/components/SerialConsole.tsx],
    [GraphicalConsole.tsx]) and [HostConsole] ([HostConsole.tsx]) over any class of sessions that keeps the
    interface [SessionClass]. [Flush] is React committing the state and running the effect; a click is
    followed by it at once, while an update that comes from a socket may wait for it. *)

From S2P Require Import Prelude JsString PathSerializer Url Sdk Routes Dom ConsoleSockets.
Local Open Scope string_scope.

Section console.
Context {P S E : Type} `{!EqDecision P} `{!SessionClass P S E}.

(** [ran]: the dependencies of the effect when it last ran; [current]: the object it made then, which its
    cleanup disposes of; [sessions]: all the objects made, with the properties they were made for. *)
Record console := mkConsole {
  props : P;
  connected : bool;
  status : string;
  ran : option (P * bool);
  current : option nat;
  sessions : list (P * S);
  mounted : bool
}.

Definition with_state (b : bool) (v : string) (c : console) : console :=
  mkConsole (props c) b v (ran c) (current c) (sessions c) (mounted c).
Definition with_session (n : option nat) (l : list (P * S)) (c : console) : console :=
  mkConsole (props c) (connected c) (status c) (ran c) n l (mounted c).

(** The callback given to an object. *)
Definition updateStatus (c : console) (v : string * bool) : console :=
  with_state (if v.2 then connected c else false) v.1 c.

Definition numbered (n : nat) (o : list effect) : list (nat * effect) := pair n <$> o.

(** The body of the effect, and its cleanup. *)
Definition connectConsole (c : console) : console * list (nat * effect) :=
  if negb (connected c) then (c, []) else
  let '(s, o) := create (props c) in
  let n := length (sessions c) in
  (with_session (Some n) (sessions c ++ [(props c, s)])%list (with_state (connected c) "Connecting…" c), numbered n o).

Definition cleanup (c : console) : console * list (nat * effect) :=
  match current c with
  | None => (c, [])
  | Some n =>
      match sessions c !! n with
      | None => (c, [])
      | Some (p, s) => let '(s', o) := dispose s in (with_session None (<[n := (p, s')]> (sessions c)) c, numbered n o)
      end
  end.

Definition flush (c : console) : console * list (nat * effect) :=
  if negb (mounted c) || bool_decide (ran c = Some (props c, connected c)) then (c, []) else
  let '(c1, o1) := cleanup c in
  let '(c2, o2) := connectConsole c1 in
  (mkConsole (props c2) (connected c2) (status c2) (Some (props c, connected c)) (current c2) (sessions c2) (mounted c2), o1 ++ o2)%list.

(** Whether the page shows the console connected, so that the button disconnects it. *)
Definition shown (c : console) : bool := match ran c with Some (_, b) => b | None => connected c end.

Inductive event :=
  | Flush
  | Toggle
  | Jump
  | PropsChange (p : P)
  | Session (n : nat) (token : option string) (e : E)
  | Unmount.

(** What the button does when it connects and when it disconnects. *)
Context (on_toggle : console → console).

Definition step (c : console) (e : event) : console * list (nat * effect) :=
  match e with
  | Flush => flush c
  | Toggle => if mounted c then flush (on_toggle c) else (c, [])
  | Jump =>
      match current c with
      | None => (c, [])
      | Some n =>
          match sessions c !! n with
          | None => (c, [])
          | Some (p, s) => let '(s', o) := jump s in (with_session (Some n) (<[n := (p, s')]> (sessions c)) c, numbered n o)
          end
      end
  | PropsChange p => (mkConsole p (connected c) (status c) (ran c) (current c) (sessions c) (mounted c), [])
  | Session n token e =>
      match sessions c !! n with
      | None => (c, [])
      | Some (p, s) =>
          let '(s', o) := handle token e s in
          (foldl updateStatus (with_session (current c) (<[n := (p, s')]> (sessions c)) c) (statuses o), numbered n o)
      end
  | Unmount => let '(c', o) := cleanup c in (mkConsole (props c') (connected c') (status c') (ran c') (current c') (sessions c') false, o)
  end.

Definition mount (p : P) (connected : bool) (status : string) : console := mkConsole p connected status None None [] true.

(** ** The invariant *)

Record console_inv (c : console) : Prop := {
  inv_current n : current c = Some n → ∃ p s, sessions c !! n = Some (p, s) ∧ active s = true ∧ alive s = connected c ∧ ran c = Some (p, true);
  inv_others n p s : sessions c !! n = Some (p, s) → current c ≠ Some n → disposed s = true;
  inv_ran p b : ran c = Some (p, b) → mounted c = true → b = bool_decide (is_Some (current c));
  inv_shown : connected c = true → mounted c = true → ran c ≠ None → shown c = true;
  inv_unmounted : mounted c = false → current c = None
}.

Class Toggles := toggle_spec c :
  connected (on_toggle c) = negb (shown c) ∧ props (on_toggle c) = props c ∧ ran (on_toggle c) = ran c ∧ current (on_toggle c) = current c ∧
  sessions (on_toggle c) = sessions c ∧ mounted (on_toggle c) = mounted c.

Lemma mounted_inv p b v : console_inv (mount p b v).
Proof. by split. Qed.

(** The part that a click keeps. *)
Definition tidy (c : console) : Prop :=
  (∀ n, current c = Some n → is_Some (sessions c !! n)) ∧ ∀ n p s, sessions c !! n = Some (p, s) → current c ≠ Some n → disposed s = true.

Lemma inv_tidy c : console_inv c → tidy c.
Proof. intros Hi. split; [|apply Hi]. intros n Hn. destruct (inv_current _ Hi n Hn) as (p & s & -> & _). eauto. Qed.

Lemma cleanup_spec c : tidy c →
  let c' := (cleanup c).1 in
  current c' = None ∧ props c' = props c ∧ connected c' = connected c ∧ status c' = status c ∧ mounted c' = mounted c ∧ ran c' = ran c ∧
  ∀ n p s, sessions c' !! n = Some (p, s) → disposed s = true.
Proof.
  intros [Hc Ho]. unfold cleanup. destruct (current c) as [n|] eqn:Hcur; [|cbn; split_and!; try done; intros n p s H; by eapply Ho].
  destruct (Hc n eq_refl) as [[p s] Hn]. rewrite Hn. destruct (dispose_final s) as [Hd _]. destruct (dispose s) as [s' o]. cbn in *.
  split_and!; try done. intros m p' s2. destruct (decide (m = n)) as [->|Hm].
  - rewrite list_lookup_insert_eq by (by eapply lookup_lt_Some). intros [= <- <-]. done.
  - rewrite list_lookup_insert_ne by done. intros H. eapply Ho; [done|]. congruence.
Qed.

Lemma flush_runs c : tidy c → mounted c = true → ran c ≠ Some (props c, connected c) → console_inv (flush c).1.
Proof.
  intros Hi Hm Hne. unfold flush. rewrite Hm, bool_decide_eq_false_2 by done. cbn [negb orb].
  pose proof (cleanup_spec c Hi) as (Hc & Hp & Hb & _ & Hm' & _ & Hd). destruct (cleanup c) as [c1 o1]. cbn [fst] in *.
  unfold connectConsole. rewrite Hb. destruct (connected c) eqn:Hcon; cbn [negb].
  - destruct (create_live (props c1)) as (Ha & Hl & _). destruct (create (props c1)) as [s o]. cbn in *. split; cbn.
    + intros n [= <-]. exists (props c1), s. rewrite lookup_app_r, Nat.sub_diag by done. split_and!; try done; congruence.
    + intros n p s'. intros Hn Hnc. apply lookup_app_Some in Hn as [Hn|[Hn Hs]]; [by eapply Hd|]. apply list_lookup_singleton_Some in Hs as [Hs _]. exfalso. apply Hnc. f_equal. lia.
    + by intros p b [= _ <-] _.
    + done.
    + congruence.
  - split; cbn; rewrite ?Hc.
    + done.
    + intros n p s Hn _. by eapply Hd.
    + by intros p b [= _ <-] _.
    + congruence.
    + done.
Qed.

Lemma flush_inv c : console_inv c → console_inv (flush c).1.
Proof.
  intros Hi. destruct (mounted c) eqn:Hm; [|unfold flush; by rewrite Hm].
  destruct (decide (ran c = Some (props c, connected c))) as [Hsame|Hne]; [unfold flush; by rewrite Hm, bool_decide_eq_true_2|].
  by apply flush_runs; [apply inv_tidy|..].
Qed.

Lemma updates_connected (l : list (string * bool)) c :
  let c' := foldl updateStatus c l in
  connected c' = connected c && forallb snd l ∧ props c' = props c ∧ ran c' = ran c ∧ current c' = current c ∧ sessions c' = sessions c ∧ mounted c' = mounted c.
Proof.
  revert c. induction l as [|[v b] l IH]; intros c; cbn; [by rewrite andb_true_r|]. destruct (IH (updateStatus c (v, b))) as (-> & -> & -> & -> & -> & ->).
  cbn. split_and!; try done. destruct b; cbn; by rewrite ?andb_false_r.
Qed.

(** What is reported is whether the object still works. *)
Lemma reported t e s : active s = true → alive (handle t e s).1 = alive s && forallb snd (statuses (handle t e s).2).
Proof.
  intros Ha. destruct (alive s) eqn:Hl; [|by rewrite (handle_lost t e s Hl)]. cbn.
  destruct (alive (handle t e s).1) eqn:Hl'; symmetry.
  - rewrite forallb_forall. intros [v b] Hv%list_elem_of_In. destruct (handle_status t e s v b Hv) as [_ H]. destruct b; [done|congruence].
  - destruct (handle_loss t e s Ha Hl Hl') as [v Hv]. apply not_true_iff_false. rewrite forallb_forall. intros H. apply list_elem_of_In in Hv. by specialize (H _ Hv).
Qed.

Lemma handled_inv c n t e p s : console_inv c → sessions c !! n = Some (p, s) → console_inv (step c (Session n t e)).1.
Proof.
  intros [Hc Ho Hr Hs Hu] Hn. cbn. rewrite Hn. destruct (handle t e s) as [s' o] eqn:Hh. cbn [fst].
  destruct (updates_connected (statuses o) (with_session (current c) (<[n := (p, s')]> (sessions c)) c)) as (H1 & H2 & H3 & H4 & H5 & H6).
  set (c' := foldl _ _ _) in *. clearbody c'. cbn in *. assert (n < length (sessions c)) as Hlt by (by eapply lookup_lt_Some).
  destruct (decide (current c = Some n)) as [Hcur|Hcur].
  - destruct (Hc n Hcur) as (p' & s1 & Hn' & Ha & Hl & Hran). assert (p' = p ∧ s1 = s) as [-> ->] by (split; congruence).
    assert (alive s' = connected c') as Hl'. { pose proof (reported t e s Ha) as H. rewrite Hh in H. cbn in H. by rewrite H, H1, Hl. }
    split.
    + rewrite H4, H5, H3. intros m Hm. assert (m = n) as -> by congruence. exists p, s'. rewrite list_lookup_insert_eq by done. split_and!; try done.
      pose proof (handle_active t e s) as H. rewrite Hh in H. cbn in H. congruence.
    + rewrite H4, H5. intros m p' s2. destruct (decide (m = n)) as [->|]; [by intros _ ?|]. rewrite list_lookup_insert_ne by done. apply Ho.
    + rewrite H3, H4, H6. apply Hr.
    + unfold shown in *. rewrite H1, H3, H6. intros [Hcon _]%andb_true_iff. destruct (ran c) as [[? b]|]; [by apply Hs|done].
    + rewrite H6, H4. done.
  - destruct (disposed_silent t e s) as [Hd Hq]; [by eapply Ho|]. rewrite Hh in Hd, Hq. cbn in *. subst o. cbn in *. rewrite andb_true_r in H1. split.
    + rewrite H4, H5, H3, H1. intros m Hm. rewrite list_lookup_insert_ne by congruence. by apply Hc.
    + rewrite H4, H5. intros m p' s2. destruct (decide (m = n)) as [->|].
      * rewrite list_lookup_insert_eq by done. by intros [= <- <-].
      * rewrite list_lookup_insert_ne by done. apply Ho.
    + rewrite H3, H4, H6. apply Hr.
    + unfold shown in *. rewrite H1, H3, H6. apply Hs.
    + rewrite H6, H4. done.
Qed.

Lemma jump_inv c : console_inv c → console_inv (step c Jump).1.
Proof.
  intros Hi. pose proof Hi as [Hc Ho Hr Hs Hu]. cbn. destruct (current c) as [n|] eqn:Hcur; [|done].
  destruct (Hc n eq_refl) as (p & s & Hn & Ha & Hl & Hran). rewrite Hn. destruct (jump_same s) as (Ha' & Hl' & _). destruct (jump s) as [s' o].
  assert (n < length (sessions c)) as Hlt by (by eapply lookup_lt_Some). cbn in *. split; cbn.
  - intros m [= <-]. exists p, s'. rewrite list_lookup_insert_eq by done. split_and!; congruence.
  - intros m p' s2. destruct (decide (m = n)) as [->|]; [by intros _ ?|]. rewrite list_lookup_insert_ne by done. apply Ho.
  - apply Hr.
  - apply Hs.
  - intros H. by specialize (Hu H).
Qed.

Lemma toggled_inv `{!Toggles} c : console_inv c → mounted c = true → console_inv (flush (on_toggle c)).1.
Proof.
  intros [Hc Ho]%inv_tidy Hm. destruct (toggle_spec c) as (H1 & H2 & H3 & H4 & H5 & H6). apply flush_runs; [..|congruence|].
  - split; rewrite H4, H5; [apply Hc|apply Ho].
  - rewrite H1, H2, H3. unfold shown. destruct (ran c) as [[q b]|]; [|done]. intros [= _ Hb]. by destruct b.
Qed.

Lemma step_inv `{!Toggles} c e : console_inv c → console_inv (step c e).1.
Proof.
  intros Hi. destruct e as [| | |p|n t e|].
  - by apply flush_inv.
  - cbn. destruct (mounted c) eqn:Hm; [by apply toggled_inv|done].
  - by apply jump_inv.
  - destruct Hi as [Hc Ho Hr Hs Hu]. by split.
  - destruct (sessions c !! n) as [[p s]|] eqn:Hn; [by eapply handled_inv|]. cbn. by rewrite Hn.
  - cbn. pose proof (cleanup_spec c (inv_tidy c Hi)) as (Hc & Hp & Hb & _ & Hm & Hr & Hd). destruct (cleanup c) as [c1 o]. cbn in *.
    split; cbn; rewrite ?Hc; try done. intros n p s Hn _. by eapply Hd.
Qed.

Lemma run_inv `{!Toggles} c es : console_inv c → console_inv (run step c es).1.
Proof. intros Hi. eapply run_invariant; [|done]. intros. by apply step_inv. Qed.

(** ** One object at a time *)

(** Every object but the current one is disposed of; after a flush there is a current one exactly when the page
    shows the console connected; it is for the page's properties, and it works. *)
Definition one_session (c : console) : Prop :=
  (∀ n p s, sessions c !! n = Some (p, s) → current c ≠ Some n → disposed s = true) ∧
  (let c' := (flush c).1 in mounted c' = true →
   if connected c' then ∃ n s, current c' = Some n ∧ sessions c' !! n = Some (props c', s) ∧ active s = true ∧ alive s = true
   else current c' = None) ∧
  (mounted c = false → current c = None).

Lemma flush_settled c : console_inv c → mounted c = true →
  ran (flush c).1 = Some (props (flush c).1, connected (flush c).1) ∧ mounted (flush c).1 = true.
Proof.
  intros Hi Hm. unfold flush. rewrite Hm. destruct (bool_decide_reflect (ran c = Some (props c, connected c))) as [Hr|Hr]; cbn [negb orb]; [done|].
  destruct (cleanup_spec c (inv_tidy c Hi)) as (Hc & Hp & Hb & _ & Hm' & _). destruct (cleanup c) as [c1 o1]. cbn [fst] in *. unfold connectConsole.
  destruct (negb (connected c1)); [cbn; by rewrite Hp, Hb, Hm', Hm|]. destruct (create (props c1)) as [s o]. cbn. by rewrite Hp, Hb, Hm', Hm.
Qed.

Lemma inv_one_session c : console_inv c → one_session c.
Proof.
  intros Hi. split_and!; [by apply inv_others| |by apply inv_unmounted]. cbn zeta. intros Hm.
  assert (mounted c = true) as Hm0. { destruct (mounted c) eqn:Hm0; [done|]. unfold flush in Hm. rewrite Hm0 in Hm. cbn in Hm. congruence. }
  destruct (flush_settled c Hi Hm0) as [Hr _]. pose proof (flush_inv c Hi) as [Hc _ Hran _ _]. specialize (Hran _ _ Hr Hm).
  destruct (connected (flush c).1) eqn:Hcon.
  - symmetry in Hran. apply bool_decide_eq_true in Hran as [n Hn]. destruct (Hc n Hn) as (p & s & Hs & Ha & Hl & Hr'). exists n, s.
    rewrite Hr in Hr'. injection Hr' as ->. done.
  - destruct (current (flush c).1); [|done]. done.
Qed.

(** ** What the status says *)

(** No object reports its end with the word for a working connection. *)
Definition plain (es : list event) : Prop :=
  ∀ n t e s, Session n t e ∈ es → ("Connected", false) ∉ statuses (handle t e s).2.

Definition honest (c : console) : Prop := status c = "Connected" → connected c = true.

Lemma updates_status (l : list (string * bool)) c :
  (l = [] ∧ foldl updateStatus c l = c) ∨ ∃ b, (status (foldl updateStatus c l), b) ∈ l.
Proof.
  destruct l as [|v l] using rev_ind; [by left|]. right. exists v.2. rewrite foldl_app. cbn. rewrite <- surjective_pairing. apply elem_of_app. right. by left.
Qed.

Lemma flush_honest c : tidy c → honest c → honest (flush c).1.
Proof.
  intros Hi Hh. unfold flush. destruct (_ || _); [done|]. destruct (cleanup_spec c Hi) as (_ & _ & Hb & Hst & _). destruct (cleanup c) as [c1 o1]. cbn [fst] in *.
  unfold connectConsole. destruct (negb (connected c1)); [|by destruct (create (props c1))]. unfold honest in *. cbn. by rewrite Hb, Hst.
Qed.

Lemma step_honest `{!Toggles} c e : (∀ c, shown c = true → status (on_toggle c) ≠ "Connected") → plain [e] →
  console_inv c → honest c → honest (step c e).1.
Proof.
  intros Ht Hp Hi Hh. destruct e as [| | |p|n t e|]; cbn.
  - by apply flush_honest; [apply inv_tidy|].
  - destruct (mounted c) eqn:Hm; [|done]. destruct (toggle_spec c) as (H1 & _ & _ & H4 & H5 & _). apply flush_honest.
    + apply inv_tidy in Hi as [Hc Ho]. by split; rewrite H4, H5.
    + intros Hst. rewrite H1. destruct (shown c) eqn:Hs; [|done]. by apply Ht in Hs.
  - destruct (current c); [|done]. destruct (sessions c !! _) as [[p s]|]; [|done]. by destruct (jump s).
  - done.
  - destruct (sessions c !! n) as [[p s]|] eqn:Hn; [|done].
    pose proof (handled_inv c n t e p s Hi Hn) as Hi'. cbn in Hi'. rewrite Hn in Hi'.
    assert (∀ v, (v, true) ∈ statuses (handle t e s).2 → current c = Some n ∧ alive (handle t e s).1 = true) as Hlive.
    { intros v Hv. destruct (handle_status t e s v true Hv) as (Ha & _ & Hl). split; [|done]. destruct (decide (current c = Some n)); [done|].
      pose proof (disposed_inactive s (inv_others c Hi n p s Hn ltac:(done))). congruence. }
    assert (("Connected", false) ∉ statuses (handle t e s).2) as Hq by (eapply Hp; by left).
    destruct (handle t e s) as [s' o]. cbn [fst snd] in *. set (c0 := with_session _ _ _) in *.
    destruct (updates_status (statuses o) c0) as [[-> _]|[b Hb]]; [done|]. intros Hst. rewrite Hst in Hb. destruct b; [|done].
    destruct (Hlive _ Hb) as [Hcur Hl]. destruct (updates_connected (statuses o) c0) as (_ & _ & _ & H4 & H5 & _).
    destruct (inv_current _ Hi' n) as (p' & s2 & Hn' & _ & Hl' & _); [by rewrite H4|]. rewrite H5 in Hn'. cbn in Hn'.
    rewrite list_lookup_insert_eq in Hn' by (by eapply lookup_lt_Some). injection Hn' as <- <-. congruence.
  - destruct (cleanup_spec c (inv_tidy c Hi)) as (_ & _ & Hb & Hst & _). destruct (cleanup c) as [c1 o]. unfold honest in *. cbn in *. by rewrite Hb, Hst.
Qed.

Lemma run_honest `{!Toggles} es : ∀ c, (∀ c, shown c = true → status (on_toggle c) ≠ "Connected") → plain es →
  console_inv c → honest c → honest (run step c es).1.
Proof.
  induction es as [|e es IH]; intros c Ht Hp Hi Hh; [done|]. cbn [run].
  assert (honest (step c e).1) as Hh' by (apply step_honest; try done; intros n t e' s Hin%list_elem_of_singleton; eapply Hp; rewrite Hin; by left).
  specialize (IH (step c e).1 Ht (λ n t e' s Hin, Hp n t e' s (proj2 (elem_of_cons _ _ _) (or_intror Hin))) (step_inv c e Hi) Hh').
  destruct (step c e) as [c1 o1]. cbn [fst] in *. by destruct (run step c1 es).
Qed.
End console.

Arguments event : clear implicits.
Arguments console : clear implicits.

(** ** The three components *)

(** The button of [SerialConsole] and [GraphicalConsole]: [connected ? disconnect : connect]. *)
Definition connect {P S} (c : console P S) : console P S := with_state true (status c) c.
Definition disconnect {P S} (c : console P S) : console P S := with_state false "Disconnected" c.
Definition vm_toggle {P S} (c : console P S) : console P S := if shown c then disconnect c else connect c.
(** The button of [HostConsole]. *)
Definition host_toggle {P S} (c : console P S) : console P S := with_state (negb (shown c)) (status c) c.

#[export] Instance vm_toggles {P S} : Toggles (@vm_toggle P S).
Proof. intros c. unfold vm_toggle. by destruct (shown c). Qed.
#[export] Instance host_toggles {P S} : Toggles (@host_toggle P S).
Proof. by intros c. Qed.

Definition SerialConsole : console string ConsoleSession.session → event string ConsoleSession.event → _ := step vm_toggle.
Definition GraphicalConsole : console string DisplaySession.session → event string DisplaySession.event → _ := step vm_toggle.
Definition HostConsole : console () ShellSession.session → event () ShellSession.event → _ := step host_toggle.

Definition serial_start (id : string) (autoConnect : bool) : console string ConsoleSession.session := mount id autoConnect "Disconnected".
Definition graphical_start (id : string) (autoConnect : bool) : console string DisplaySession.session := mount id autoConnect "Disconnected".
Definition host_start : console () ShellSession.session := mount () true "Connecting…".

(** *** What they show *)

Inductive action := Press | JumpToLatest | OpenSerial | OpenGraphical.

Definition toggle_button {P S} (name : string) (c : console P S) : node action :=
  button (if connected c then "Disconnect" else name) false Press.

Definition serial_view (c : console string ConsoleSession.session) : node action :=
  box "section"
    [label "h2" "Serial console"; label "p" (status c); toggle_button "Connect" c;
     El "div" [("aria-label", "VM serial terminal")] false [] [];
     button "Jump to latest output" (negb (connected c)) JumpToLatest;
     label "p" "The latest 64 KiB of serial history is replayed on connection. Keyboard input goes directly to the guest."].

Definition graphical_view (c : console string DisplaySession.session) : node action :=
  box "section"
    [label "h2" "Graphical console"; label "p" (status c); toggle_button "Connect" c;
     El "div" [("aria-label", "VM graphical display")] false [] []].

Definition host_view (c : console () ShellSession.session) : node action :=
  box "section"
    [label "p" (status c); toggle_button "Reconnect" c;
     El "div" [("aria-label", "Host shell terminal")] false [] [];
     label "p" "This is a login shell on the maco host, running with the maco service's privileges. Keyboard input goes straight to that shell."].

(** [VMConsoleDialog] shows one of the consoles of a machine, which connects at once. *)
Inductive ConsoleMode := serial | graphical.

Definition VMConsoleDialog_title (name : string) (mode : ConsoleMode) : string :=
  name ++ ": " ++ match mode with serial => "Serial" | graphical => "Graphical" end ++ " console".
Definition VMConsoleDialog (id : string) (mode : ConsoleMode) : console string ConsoleSession.session + console string DisplaySession.session :=
  match mode with serial => inl (serial_start id true) | graphical => inr (graphical_start id true) end.

(** [VMConsole] has the choice on the page; the consoles wait for their button. *)
Definition VMConsole (id : string) (mode : ConsoleMode) : node action * (console string ConsoleSession.session + console string DisplaySession.session) :=
  (box "div" [button "Serial" false OpenSerial; button "Graphical" false OpenGraphical],
   match mode with serial => inl (serial_start id false) | graphical => inr (graphical_start id false) end).
Definition choose (a : action) (mode : ConsoleMode) : ConsoleMode :=
  match a with OpenSerial => serial | OpenGraphical => graphical | _ => mode end.

(** The page of the host's console is for administrators. *)
Definition Console (admin : bool) : option (console () ShellSession.session) := if admin then Some host_start else None.

(** *** Where the sockets lead *)

Definition opened (o : list effect) : list string := omap (λ x, match x with OpenSocket p => Some p | _ => None end) o.

Definition console_path (id : string) (op : operation) : string := join "/" (op_pieces [("id", Scalar id)] op).

Lemma socket_paths id : opened (ConsoleSession.create id).2 = [console_path id consoleVm] ∧
  opened (DisplaySession.create id).2 = [console_path id displayVm] ∧ opened ShellSession.create.2 = [console_path id Sdk.hostConsole].
Proof. done. Qed.

(** The socket of a machine's console is taken by the handler of consoles, with the machine's identifier. *)
Lemma console_routed id op : op ∈ [consoleVm; displayVm] → good_value id →
  ∃ r, r ∈ server_routes ∧ r_pattern r = op_url op ∧ route_match r (console_path id op) = Some [("id", encodeURIComponent id)] ∧
    ∀ r', r' ∈ server_routes → r_method r' = "GET" → route_match r' (console_path id op) ≠ None → r' = r.
Proof.
  intros Hop Hg.
  assert (op ∈ operations ∧ op ≠ streamJobs ∧ op ≠ getJob ∧ op_method op = "GET" ∧ op_names op = ["id"]) as (Hin & Hs & Hj & Hm & Hn).
  { apply elem_of_cons in Hop as [->|Hop]; [|apply list_elem_of_singleton in Hop as ->]; (split_and!; [apply list_elem_of_In; vm_compute; tauto|done..]). }
  assert (values_for op [("id", Scalar id)]) as Hv.
  { intros n. rewrite Hn. intros ->%list_elem_of_singleton. by exists id. }
  assert (is_origin "http://localhost") as Ho by (by exists "http", "localhost").
  destruct (sent_path_pieces _ _ None defaultQuerySerializer op Ho Hin Hv) as [_ Hsplit].
  destruct (pieces_reach_handler op _ Hin Hs Hv) as (r & Hr & _ & Hp & Hmatch & Huniq); [done..|]. exists r. rewrite Hn, Hm in *. done.
Qed.

(** C25. A console has one connection at a time. Whatever the users, the sockets and the terminals do to a
    console of any of the three kinds, in any order: every session but the current one is disposed of, its
    socket closing or closed; once React has committed there is a current session exactly if the console is
    connected, it is the one of the machine shown and its socket works; and a console that is gone has none. *)
Theorem console_sessions id autoConnect (es : list (event string ConsoleSession.event)) (es' : list (event string DisplaySession.event))
    (es'' : list (event () ShellSession.event)) :
  one_session (run SerialConsole (serial_start id autoConnect) es).1 ∧
  one_session (run GraphicalConsole (graphical_start id autoConnect) es').1 ∧
  one_session (run HostConsole host_start es'').1.
Proof. split_and!; apply inv_one_session, run_inv; try apply _; apply mounted_inv. Qed.

(** The consoles of a machine say "Connected" only while they are: in any run in which no socket is
    closed with that very word as its reason. *)
Theorem console_status id autoConnect (es : list (event string ConsoleSession.event)) (es' : list (event string DisplaySession.event)) :
  plain es → plain es' →
  honest (run SerialConsole (serial_start id autoConnect) es).1 ∧ honest (run GraphicalConsole (graphical_start id autoConnect) es').1.
Proof.
  intros H H'. split; (apply run_honest; [apply _| |done|apply mounted_inv|done]); intros c Hs; unfold vm_toggle; by rewrite Hs.
Qed.

(** The console of the host keeps saying "Connected" after its user has disconnected it. *)
Lemma host_status_stale :
  let es := [Flush; Session 0 (Some "t") (ShellSession.Socket Opens); Session 0 (Some "t") (ShellSession.Socket (Receives (BinaryData "$ "))); Toggle;
             Session 0 (Some "t") (ShellSession.Socket (Closes ""))] in
  let c := (run HostConsole host_start es).1 in
  status c = "Connected" ∧ connected c = false ∧ current c = None.
Proof. by vm_compute. Qed.

(** A connection that fails raises an error and a closure in one task, so the message of the failure never stays. *)
Lemma failure_overwritten :
  let es := [Flush; Session 0 (Some "t") (ConsoleSession.Socket Fails); Session 0 (Some "t") (ConsoleSession.Socket (Closes "")); Flush] in
  status (run SerialConsole (serial_start "vm1" true) es).1 = "Disconnected".
Proof. by vm_compute. Qed.

(** ** A concrete run *)

Definition working : list (event string ConsoleSession.event) :=
  [Flush; Session 0 (Some "t") (ConsoleSession.Socket Opens); Session 0 (Some "t") (ConsoleSession.Socket (Receives (BinaryData "login: ")))].

Lemma console_status_witness :
  status (run SerialConsole (serial_start "vm1" true) working).1 = "Connected" ∧ connected (run SerialConsole (serial_start "vm1" true) working).1 = true.
Proof.
  assert (status (run SerialConsole (serial_start "vm1" true) working).1 = "Connected") as H by reflexivity. split; [exact H|].
  refine (proj1 (console_status "vm1" true working [] _ _) H).
  - intros n t e s Hin. unfold working in Hin. rewrite !elem_of_cons in Hin. destruct Hin as [H1|[H1|[H1|H1]]]; [done|..|by apply not_elem_of_nil in H1].
    all: injection H1 as -> -> ->; cbn; unfold ConsoleSession.receive; repeat case_match; cbn; rewrite ?elem_of_cons, ?elem_of_nil; naive_solver.
  - intros n t e s Hin. by apply not_elem_of_nil in Hin.
Defined.
