(* ===== verification/VmPreview.v ===== *)
(** * Previews of machines ([src/web/src/components/VMPreview.tsx])

    Each run of the effect makes a subscription with its own variables, which its continuations keep
    using after the cleanup; all of them are in the state here, with the object URLs of the page and the
    requests that are not answered yet. [Flush] is React committing the properties and running the effect. *)

From S2P Require Import Prelude JsString Regex ResourceEvents Dom.
Local Open Scope string_scope.

(** What the effect depends on. *)
Record key := mkKey { id : string; running : bool; bootTime : Z }.
#[export] Instance key_eq_dec : EqDecision key.
Proof. solve_decision. Defined.

Record properties := mkProps { props_key : key; name : string; large : bool; onOpenConsole : bool }.

(** The variables of one run of the effect. *)
Record subscription := mkSub {
  s_key : key;
  aborted : bool;
  current : option nat;
  loading : bool;
  dirty : bool
}.

(** An object URL: the machine that was asked for its image, when it was captured, whether it was revoked. *)
Record object_url := mkUrl { u_vm : string; u_captured : Z; revoked : bool }.

(** [live]: the subscription that the next cleanup ends; [requests]: the subscriptions of the requests not
    answered, by their number. [ratio] is a width and a height. *)
Record preview := mkPreview {
  props : properties;
  image : option nat;
  imageBoot : Z;
  ratio : Z * Z;
  ran : option key;
  live : option nat;
  subs : list subscription;
  urls : list object_url;
  requests : gmap nat nat;
  next : nat;
  mounted : bool
}.

Record response := mkResponse { ok : bool; blob : bool; captured_at : option string; last_modified : option string }.

Inductive event :=
  | PropsChange (p : properties)
  | Flush
  | Signal (resources : list string)
  | Answered (r : nat) (answer : option response)  (* [None]: the request is rejected *)
  | ImageLoads (width height : Z)
  | Unmount.

Inductive effect := Request (k : nat) (vm : string).

Definition put_sub (k : nat) (u : subscription) (s : preview) : preview :=
  mkPreview (props s) (image s) (imageBoot s) (ratio s) (ran s) (live s) (<[k := u]> (subs s)) (urls s) (requests s) (next s) (mounted s).
Definition put_urls (l : list object_url) (s : preview) : preview :=
  mkPreview (props s) (image s) (imageBoot s) (ratio s) (ran s) (live s) (subs s) l (requests s) (next s) (mounted s).
Definition put_image (i : option nat) (b : Z) (s : preview) : preview :=
  mkPreview (props s) i b (ratio s) (ran s) (live s) (subs s) (urls s) (requests s) (next s) (mounted s).

(** [URL.revokeObjectURL] of the current image of a subscription. *)
Definition revoke (c : option nat) (l : list object_url) : list object_url :=
  match c with
  | None => l
  | Some n => alter (λ u, mkUrl (u_vm u) (u_captured u) true) n l
  end.

(** [refresh], up to its request. *)
Definition refresh (k : nat) (s : preview) : preview * list effect :=
  match subs s !! k with
  | None => (s, [])
  | Some u =>
      if loading u then (put_sub k (mkSub (s_key u) (aborted u) (current u) (loading u) true) s, [])
      else
        let s := put_sub k (mkSub (s_key u) (aborted u) (current u) true false) s in
        (mkPreview (props s) (image s) (imageBoot s) (ratio s) (ran s) (live s) (subs s) (urls s) (<[next s := k]> (requests s)) (S (next s)) (mounted s),
         [Request k (id (s_key u))])
  end.

Section dates.
(** [Number] on texts that are not decimal digits, and [Date.parse], in milliseconds; [None] where they are
    not finite numbers. *)
Context (Number_other Date_parse : string → option Z).

Definition Number (s : string) : option Z :=
  if truthy s && all_chars is_digit s then Some (digits_value s) else Number_other s.

Definition capturedAt (r : response) : option Z :=
  let captureHeader := captured_at r |?| "" in
  if truthy captureHeader then Number captureHeader else Date_parse (last_modified r |?| "").

(** The rest of [refresh] once the request is answered: the image it takes, if it takes it. *)
Definition accepted (u : subscription) (answer : option response) : option Z :=
  match answer with
  | None => None
  | Some r =>
      if negb (ok r) || negb (blob r) then None else
      match capturedAt r with
      | None => None
      | Some t => if (t <? bootTime (s_key u) * 1000)%Z || aborted u then None else Some t
      end
  end.

Definition show (k : nat) (u : subscription) (t : Z) (s : preview) : preview :=
  let next := length (urls s) in
  put_image (Some next) (bootTime (s_key u))
    (put_sub k (mkSub (s_key u) (aborted u) (Some next) (loading u) (dirty u))
      (put_urls (revoke (current u) (urls s ++ [mkUrl (id (s_key u)) t false])%list) s)).

Definition answered (k : nat) (answer : option response) (s : preview) : preview * list effect :=
  match subs s !! k with
  | None => (s, [])
  | Some u =>
      let s := match accepted u answer with Some t => show k u t s | None => s end in
      match subs s !! k with
      | None => (s, [])
      | Some u =>
          let s := put_sub k (mkSub (s_key u) (aborted u) (current u) false (dirty u)) s in
          if negb (aborted u) && dirty u then refresh k s else (s, [])
      end
  end.

(** The listener of the live subscription. *)
Definition listener (resources : list string) (s : preview) : preview * list effect :=
  match live s with
  | None => (s, [])
  | Some k =>
      match subs s !! k with
      | None => (s, [])
      | Some u => if concerns resources ("preview:" ++ id (s_key u)) then refresh k s else (s, [])
      end
  end.

Definition cleanup (s : preview) : preview :=
  match live s with
  | None => s
  | Some k =>
      match subs s !! k with
      | None => s
      | Some u =>
          let s := put_urls (revoke (current u) (urls s)) (put_sub k (mkSub (s_key u) true (current u) (loading u) (dirty u)) s) in
          mkPreview (props s) (image s) (imageBoot s) (ratio s) (ran s) None (subs s) (urls s) (requests s) (next s) (mounted s)
      end
  end.

(** The body of the effect. *)
Definition subscribe (s : preview) : preview * list effect :=
  let k := props_key (props s) in
  let s := mkPreview (props s) None (imageBoot s) (8, 5)%Z (Some k) (live s) (subs s) (urls s) (requests s) (next s) (mounted s) in
  if negb (running k) || (bootTime k <=? 0)%Z then (s, [])
  else
    let n := length (subs s) in
    refresh n (mkPreview (props s) (image s) (imageBoot s) (ratio s) (ran s) (Some n) (subs s ++ [mkSub k false None false false])%list
                 (urls s) (requests s) (next s) (mounted s)).

Definition step (s : preview) (e : event) : preview * list effect :=
  match e with
  | PropsChange p => (mkPreview p (image s) (imageBoot s) (ratio s) (ran s) (live s) (subs s) (urls s) (requests s) (next s) (mounted s), [])
  | Flush => if negb (mounted s) || bool_decide (ran s = Some (props_key (props s))) then (s, []) else subscribe (cleanup s)
  | Signal resources => listener resources s
  | Answered r answer =>
      match requests s !! r with
      | None => (s, [])
      | Some k =>
          answered k answer
            (mkPreview (props s) (image s) (imageBoot s) (ratio s) (ran s) (live s) (subs s) (urls s) (delete r (requests s)) (next s) (mounted s))
      end
  | ImageLoads w h =>
      (mkPreview (props s) (image s) (imageBoot s) (if (h =? 0)%Z then ratio s else (w, h)) (ran s) (live s) (subs s) (urls s) (requests s) (next s) (mounted s), [])
  | Unmount =>
      let s := cleanup s in
      (mkPreview (props s) (image s) (imageBoot s) (ratio s) (ran s) (live s) (subs s) (urls s) (requests s) (next s) false, [])
  end.
End dates.

Definition start (p : properties) : preview := mkPreview p None 0 (8, 5)%Z None None [] [] ∅ 0 true.

(** ** What it shows *)

(** The image on the page. *)
Definition shown (s : preview) : option nat :=
  if running (props_key (props s)) && (imageBoot s =? bootTime (props_key (props s)))%Z then image s else None.

Inductive action := OpenConsole (mode : string).

Definition ConsoleButton (text : string) (big : bool) (a : action) : node action :=
  El "button" [("aria-label", text); ("title", text)] false [a] (when big [label "span" text]).

Definition render (s : preview) : node action :=
  let p := props s in let run := running (props_key p) in
  El "div" [("title", if run then "Latest captured VM display" else "VM is stopped")] false []
    (match shown s with
     | Some n => [El "img" [("alt", (name p ++ " display preview")%string)] false [] []]
     | None => [box "div" (El "Monitor" [("aria-label", if run then "Preview not available yet" else "VM is stopped")] false [] [] ::
                           when (large p) [label "p" (if run then "No screenshot available yet" else "VM is stopped")])]
     end ++
     when (run && onOpenConsole p)
       [box "div" [ConsoleButton "Graphical console" (large p) (OpenConsole "graphical"); ConsoleButton "Serial console" (large p) (OpenConsole "serial")]])%list.

(** ** The invariant *)

Definition from_live (s : preview) (n : nat) : Prop := ∃ k u, live s = Some k ∧ subs s !! k = Some u ∧ current u = Some n.

Record preview_inv (s : preview) : Prop := {
  inv_urls n v : urls s !! n = Some v → revoked v = false → from_live s n;
  inv_current k u n : subs s !! k = Some u → current u = Some n →
    ∃ v, urls s !! n = Some v ∧ u_vm v = id (s_key u) ∧ (bootTime (s_key u) * 1000 ≤ u_captured v)%Z ∧ (aborted u = false → revoked v = false);
  inv_live k : live s = Some k → ∃ u, subs s !! k = Some u ∧ aborted u = false ∧ ran s = Some (s_key u);
  inv_ended k u : subs s !! k = Some u → live s ≠ Some k → aborted u = true;
  inv_image n : image s = Some n → mounted s = true → from_live s n ∧ ∀ q, ran s = Some q → imageBoot s = bootTime q;
  inv_requests r k : requests s !! r = Some k → r < next s ∧ ∃ u, subs s !! k = Some u ∧ loading u = true;
  inv_single r r' k : requests s !! r = Some k → requests s !! r' = Some k → r = r';
  inv_loading k u : subs s !! k = Some u → (loading u = true ↔ ∃ r, requests s !! r = Some k) ∧ (dirty u = true → aborted u = false → loading u = true)
}.

Lemma start_inv p : preview_inv (start p).
Proof. split; cbn; intros *; rewrite ?lookup_nil, ?lookup_empty; done. Qed.

Definition with_flags (k : nat) (u : subscription) (l d : bool) (rq : gmap nat nat) (nx : nat) (s : preview) : preview :=
  mkPreview (props s) (image s) (imageBoot s) (ratio s) (ran s) (live s) (<[k := mkSub (s_key u) (aborted u) (current u) l d]> (subs s)) (urls s) rq nx (mounted s).

(** The subscription [k] after one of its own variables changed. *)
Lemma put_lookup (l : list subscription) k u v k' w : l !! k = Some u →
  <[k := v]> l !! k' = Some w ↔ (k' = k ∧ w = v) ∨ (k' ≠ k ∧ l !! k' = Some w).
Proof.
  intros Hk. destruct (decide (k' = k)) as [->|Hne].
  - rewrite list_lookup_insert_eq by (by eapply lookup_lt_Some). naive_solver.
  - rewrite list_lookup_insert_ne by done. naive_solver.
Qed.

(** The flags of one subscription change, and its request. *)
Lemma flags_inv k u l d rq nx s : preview_inv s → subs s !! k = Some u →
  (∀ r k', k' ≠ k → rq !! r = Some k' ↔ requests s !! r = Some k') → (l = true ↔ ∃ r, rq !! r = Some k) →
  (∀ r r', rq !! r = Some k → rq !! r' = Some k → r = r') → (∀ r k', rq !! r = Some k' → r < nx) →
  (d = true → aborted u = false → l = true) → preview_inv (with_flags k u l d rq nx s).
Proof.
  intros [Hu Hc Hl He Hi Hr Hs Hld] Hk Hoth Hown Hone Hlt Hd.
  assert (∀ n, from_live s n → from_live (with_flags k u l d rq nx s) n) as Hf.
  { intros n (k' & v & H1 & H2 & H3). destruct (decide (k' = k)) as [->|Hne].
    - simplify_eq. exists k. eexists. cbn. rewrite put_lookup by done. split_and!; [done|by left|done].
    - exists k', v. cbn. rewrite list_lookup_insert_ne by done. done. }
  split; cbn.
  - intros n v Hn Hv. eapply Hf, Hu; done.
  - intros k' v n [[-> ->]|[_ Hk']]%(put_lookup _ _ _ _ _ _ Hk); cbn; by eapply Hc.
  - intros k' Hk'. destruct (Hl k' Hk') as (v & Hv & Ha & Hran). destruct (decide (k' = k)) as [->|Hne].
    + simplify_eq. eexists. rewrite put_lookup by done. split; [by left|done].
    + exists v. by rewrite list_lookup_insert_ne.
  - intros k' v [[-> ->]|[_ Hk']]%(put_lookup _ _ _ _ _ _ Hk) Hn; cbn; [by eapply He|by eapply He].
  - intros n Hn Hm. destruct (Hi n Hn Hm) as [Hfl Hb]. split; [by apply Hf|done].
  - intros r k' Hrq. split; [by eapply Hlt|]. destruct (decide (k' = k)) as [->|Hne].
    + eexists. rewrite put_lookup by done. split; [by left|]. cbn. apply Hown. eauto.
    + apply Hoth in Hrq; [|done]. destruct (Hr r k' Hrq) as (_ & v & Hv & ?). exists v. by rewrite list_lookup_insert_ne.
  - intros r r' k' H1 H2. destruct (decide (k' = k)) as [->|Hne]; [by eapply Hone|]. apply Hoth in H1, H2; [|done..]. by eapply Hs.
  - intros k' v [[-> ->]|[Hne Hk']]%(put_lookup _ _ _ _ _ _ Hk); cbn; [done|]. destruct (Hld k' v Hk') as [Hiff ?]. split; [|done].
    rewrite Hiff. split; intros [r Hrq]; exists r; by apply (Hoth r k' Hne).
Qed.

Lemma refresh_flags k u s : subs s !! k = Some u → (refresh k s).1 =
  if loading u then with_flags k u true true (requests s) (next s) s else with_flags k u true false (<[next s := k]> (requests s)) (S (next s)) s.
Proof. intros Hk. unfold refresh, with_flags, put_sub. rewrite Hk. by destruct (loading u). Qed.

Lemma preview_refresh_inv k s : preview_inv s → preview_inv (refresh k s).1.
Proof.
  intros Hi. destruct (subs s !! k) as [u|] eqn:Hk; [|unfold refresh; by rewrite Hk]. rewrite (refresh_flags k u) by done.
  pose proof (inv_loading _ Hi k u Hk) as [Hld Hdl]. destruct (loading u) eqn:El.
  - apply flags_inv; [done|done|done| | | |done]; [by apply Hld|by intros r r0; eapply (inv_single _ Hi)|]. intros r k' Hr. by apply (inv_requests _ Hi r k').
  - assert (requests s !! next s = None) as Hfresh. { destruct (requests s !! next s) eqn:Hn; [|done]. apply (inv_requests _ Hi) in Hn as [? _]. lia. }
    apply flags_inv; [done|done| | | | |done].
    + intros r k' Hne. destruct (decide (r = next s)) as [->|?]; [rewrite lookup_insert_eq, Hfresh|by rewrite lookup_insert_ne]. split; [intros [= ->]|]; done.
    + split; [|done]. intros _. exists (next s). apply lookup_insert_eq.
    + intros r r'. assert (∀ r, requests s !! r ≠ Some k) as Hno. { intros q Hq. assert (false = true) by (apply Hld; eauto). done. }
      rewrite !lookup_insert. repeat case_decide; try congruence; intros; exfalso; by eapply Hno.
    + intros r k'. rewrite lookup_insert. case_decide; [intros; lia|]. intros Hr. apply (inv_requests _ Hi) in Hr as [? _]. lia.
Qed.

Lemma lookup_revoke c (l : list object_url) n v : revoke c l !! n = Some v →
  ∃ w, l !! n = Some w ∧ u_vm v = u_vm w ∧ u_captured v = u_captured w ∧ revoked v = (if decide (c = Some n) then true else revoked w).
Proof.
  unfold revoke. destruct c as [m|]; [|intros H; exists v; by rewrite decide_False by done].
  rewrite list_lookup_alter. case_decide as Hm; [subst m|].
  - intros (w & Hw & ->)%fmap_Some. exists w. by rewrite decide_True.
  - intros H. exists v. by rewrite decide_False by congruence.
Qed.

Lemma revoke_keeps c (l : list object_url) n w : l !! n = Some w →
  ∃ v, revoke c l !! n = Some v ∧ u_vm v = u_vm w ∧ u_captured v = u_captured w ∧ (c ≠ Some n → revoked v = revoked w).
Proof.
  intros Hw. unfold revoke. destruct c as [m|]; [|by exists w]. rewrite list_lookup_alter. case_decide as Hm; [subst m|by exists w].
  rewrite Hw. eexists. split; [done|]. cbn. by split_and!.
Qed.

Lemma show_inv k u t s : preview_inv s → subs s !! k = Some u → live s = Some k → (bootTime (s_key u) * 1000 ≤ t)%Z → preview_inv (show k u t s).
Proof.
  intros Hi Hk Hl Ht. pose proof Hi as [Hu Hc Hlv He Him Hr Hs Hld]. destruct (Hlv k Hl) as (u' & Hk' & Ha & Hran). simplify_eq. set (m := length (urls s)).
  assert (from_live (show k u t s) m) as Hm. { exists k. eexists. cbn. rewrite put_lookup by done. split_and!; [done|by left|done]. }
  split; cbn.
  - intros n v Hn Hv. destruct (lookup_revoke _ _ _ _ Hn) as (w & Hw & _ & _ & Hrev). rewrite Hv in Hrev. case_decide as Hcur; [done|].
    apply lookup_app_Some in Hw as [Hw|[Hge Hw]].
    + destruct (Hu n w Hw) as (k' & u' & Hl' & Hk2 & Hcu); [done|]. simplify_eq.
    + apply list_lookup_singleton_Some in Hw as [Hn0 _]. replace n with m by (unfold m; lia). done.
  - intros k' v n [[-> ->]|[Hne Hk2]]%(put_lookup _ _ _ _ _ _ Hk); cbn.
    + intros [= <-]. destruct (revoke_keeps (current u) (urls s ++ [mkUrl (id (s_key u)) t false]) m (mkUrl (id (s_key u)) t false)) as (v & Hv & E1 & E2 & E3).
      { unfold m. by rewrite lookup_app_r, Nat.sub_diag. }
      exists v. rewrite E1, E2. split_and!; try done. intros _. rewrite E3; [done|]. intros Hcu. destruct (Hc k u m Hk Hcu) as (w & Hw & _). apply lookup_lt_Some in Hw. unfold m in Hw. lia.
    + intros Hcu. destruct (Hc k' v n Hk2 Hcu) as (w & Hw & E1 & E2 & _). assert (aborted v = true) as Hav by (eapply He; [done|congruence]).
      destruct (revoke_keeps (current u) (urls s ++ [mkUrl (id (s_key u)) t false]) n w) as (v' & Hv' & E3 & E4 & _); [by apply lookup_app_l_Some|].
      exists v'. rewrite E3, E4, Hav. done.
  - intros k' Hk0. assert (k' = k) as -> by congruence. eexists. rewrite put_lookup by done. split; [by left|]. done.
  - intros k' v [[-> ->]|[_ Hk2]]%(put_lookup _ _ _ _ _ _ Hk) Hn; cbn; [done|by eapply He].
  - intros n [= <-] _. split; [done|]. intros q Hq. congruence.
  - intros r k' Hrq. destruct (Hr r k' Hrq) as (Hlt & v & Hv & Hvl). split; [done|]. destruct (decide (k' = k)) as [->|Hne].
    + simplify_eq. eexists. rewrite put_lookup by done. split; [by left|done].
    + exists v. by rewrite list_lookup_insert_ne.
  - apply Hs.
  - intros k' v [[-> ->]|[_ Hk2]]%(put_lookup _ _ _ _ _ _ Hk); cbn; by apply Hld.
Qed.

Section steps.
Context (Number_other Date_parse : string → option Z).
Notation step := (step Number_other Date_parse).
Notation accepted := (accepted Number_other Date_parse).
Notation answered := (answered Number_other Date_parse).

Definition take (k : nat) (u : subscription) (answer : option response) (s : preview) : preview :=
  match accepted u answer with Some t => show k u t s | None => s end.

Lemma accepted_spec u a t : accepted u a = Some t → aborted u = false ∧ (bootTime (s_key u) * 1000 ≤ t)%Z.
Proof.
  unfold VmPreview.accepted. destruct a as [r|]; [|done]. destruct (_ || _); [done|]. destruct (capturedAt _ _ r) as [x|]; [|done].
  destruct (Z.ltb_spec x (bootTime (s_key u) * 1000)); [done|]. destruct (aborted u); [done|]. by intros [= <-].
Qed.

Lemma take_spec k u a s : preview_inv s → subs s !! k = Some u →
  preview_inv (take k u a s) ∧ requests (take k u a s) = requests s ∧ next (take k u a s) = next s ∧ live (take k u a s) = live s ∧
  ∃ u', subs (take k u a s) !! k = Some u' ∧ s_key u' = s_key u ∧ aborted u' = aborted u ∧ loading u' = loading u ∧ dirty u' = dirty u.
Proof.
  intros Hi Hk. unfold take. destruct (accepted u a) as [t|] eqn:E; [|split_and!; eauto 10]. apply accepted_spec in E as [Ha Ht].
  assert (live s = Some k) as Hl. { destruct (decide (live s = Some k)); [done|]. pose proof (inv_ended _ Hi k u Hk ltac:(done)). congruence. }
  split; [by apply show_inv|]. split_and!; try done. eexists. cbn. rewrite put_lookup by done. split; [by left|done].
Qed.

(** Setting [dirty] before a refresh that sends a request changes nothing. *)
Lemma refresh_dirty k u d s : subs s !! k = Some u →
  refresh k (put_sub k (mkSub (s_key u) (aborted u) (current u) false d) s) = refresh k (put_sub k (mkSub (s_key u) (aborted u) (current u) false false) s).
Proof.
  intros Hk%lookup_lt_Some. unfold refresh, put_sub. cbn. rewrite !list_lookup_insert_eq by done. cbn. by rewrite !list_insert_insert_eq.
Qed.

Lemma answered_inv r k a s : preview_inv s → requests s !! r = Some k → preview_inv (step s (Answered r a)).1.
Proof.
  intros Hi Hr. cbn. rewrite Hr. destruct (inv_requests _ Hi r k Hr) as (_ & u & Hk & Hld). unfold VmPreview.answered. cbn [subs]. rewrite Hk.
  set (s1 := mkPreview _ _ _ _ _ _ _ _ _ _ _). destruct (take_spec k u a s Hi Hk) as (Hi2 & Hrq & Hnx & _ & u2 & Hk2 & E1 & E2 & E3 & E4).
  assert ((match accepted u a with Some t => show k u t s1 | None => s1 end) =
          mkPreview (props (take k u a s)) (image (take k u a s)) (imageBoot (take k u a s)) (ratio (take k u a s)) (ran (take k u a s)) (live (take k u a s))
            (subs (take k u a s)) (urls (take k u a s)) (delete r (requests s)) (next (take k u a s)) (mounted (take k u a s))) as ->.
  { unfold take. by destruct (accepted u a). }
  set (s2 := take k u a s) in *. cbn [subs]. rewrite Hk2.
  assert (∀ d, (d = true → aborted u2 = false → False) → preview_inv (with_flags k u2 false d (delete r (requests s)) (next s2) s2)) as Hf.
  { intros d Hd. apply flags_inv; [done|done| | | | |intros; by exfalso; eauto].
    - intros q k' Hne. rewrite Hrq, lookup_delete. case_decide; [subst q; split; [done|congruence]|done].
    - split; [done|]. intros [q Hq]. apply lookup_delete_Some in Hq as [Hne Hq]. exfalso. apply Hne. by eapply (inv_single _ Hi).
    - intros q q' [_ Hq]%lookup_delete_Some [_ Hq']%lookup_delete_Some. by eapply (inv_single _ Hi).
    - intros q k' [_ Hq]%lookup_delete_Some. rewrite Hnx. by apply (inv_requests _ Hi q k'). }
  destruct (negb (aborted u2) && dirty u2) eqn:Hd.
  - rewrite refresh_dirty by done. apply preview_refresh_inv. by apply Hf.
  - apply (Hf (dirty u2)). intros H1 H2. by rewrite H1, H2 in Hd.
Qed.

(** After the cleanup every URL is revoked and every subscription is aborted. *)
Lemma preview_cleanup_spec s : preview_inv s → live (cleanup s) = None ∧ requests (cleanup s) = requests s ∧ next (cleanup s) = next s ∧
  (∀ n v, urls (cleanup s) !! n = Some v → revoked v = true) ∧
  (∀ k u, subs (cleanup s) !! k = Some u → aborted u = true ∧ ∃ u', subs s !! k = Some u' ∧ s_key u' = s_key u ∧ current u' = current u ∧ loading u' = loading u) ∧
  (∀ k u', subs s !! k = Some u' → ∃ u, subs (cleanup s) !! k = Some u ∧ loading u = loading u') ∧
  (∀ n w, urls s !! n = Some w → ∃ v, urls (cleanup s) !! n = Some v ∧ u_vm v = u_vm w ∧ u_captured v = u_captured w).
Proof.
  intros Hi. unfold cleanup. destruct (live s) as [k|] eqn:Hl.
  - destruct (inv_live _ Hi k Hl) as (u & Hk & Ha & _). rewrite Hk. cbn. split_and!; [done..| | | |].
    + intros n v (w & Hw & _ & _ & Hrev)%lookup_revoke. case_decide as Hc; [done|]. rewrite Hrev. destruct (revoked w) eqn:Hr; [done|].
      destruct (inv_urls _ Hi n w Hw Hr) as (k' & u' & ? & ? & ?). simplify_eq.
    + intros k' v [[-> ->]|[Hne Hk']]%(put_lookup _ _ _ _ _ _ Hk); cbn; [split; [done|by exists u]|].
      split; [eapply (inv_ended _ Hi); [done|congruence]|by exists v].
    + intros k' v Hv. destruct (decide (k' = k)) as [->|Hne].
      * simplify_eq. eexists. rewrite put_lookup by done. split; [by left|done].
      * exists v. by rewrite list_lookup_insert_ne.
    + intros n w Hw. destruct (revoke_keeps (current u) (urls s) n w Hw) as (v & ? & ? & ? & _). by exists v.
  - split_and!; [done..| | | |]; eauto.
    + intros n v Hn. destruct (revoked v) eqn:Hr; [done|]. destruct (inv_urls _ Hi n v Hn Hr) as (k' & u' & ? & _). congruence.
    + intros k u Hk. split; [|by exists u]. eapply (inv_ended _ Hi); [done|congruence].
Qed.

(** Without a live subscription nothing is left to show. *)
Lemma ended_inv s i b q rt p : preview_inv s → i = None ∨ b = false →
  preview_inv (mkPreview p i (imageBoot s) rt q None (subs (cleanup s)) (urls (cleanup s)) (requests s) (next s) b).
Proof.
  intros Hi Hib. destruct (preview_cleanup_spec s Hi) as (_ & _ & _ & Hrev & Hsub & Hback & Hurl). split; cbn.
  - intros n v Hn Hv. specialize (Hrev n v Hn). congruence.
  - intros k u n Hk Hc. destruct (Hsub k u Hk) as (Ha & u' & Hk' & E1 & E2 & _). destruct (inv_current _ Hi k u' n Hk') as (w & Hw & E3 & E4 & _); [congruence|].
    destruct (Hurl n w Hw) as (v & Hv & E5 & E6). exists v. rewrite E5, E6, <- E1. split_and!; try done. congruence.
  - done.
  - intros k u Hk _. by apply (Hsub k u).
  - intros n -> ->. by destruct Hib.
  - intros r k Hr. destruct (inv_requests _ Hi r k Hr) as (? & u' & Hk' & ?). split; [done|]. destruct (Hback k u' Hk') as (u & ? & E). exists u. by rewrite E.
  - apply Hi.
  - intros k u Hk. destruct (Hsub k u Hk) as (Ha & u' & Hk' & _ & _ & E). split; [|congruence]. rewrite <- E. by apply (inv_loading _ Hi).
Qed.

(** A new subscription. *)
Lemma enrolled_inv s q : preview_inv s → live s = None → image s = None → ran s = Some q →
  preview_inv (mkPreview (props s) (image s) (imageBoot s) (ratio s) (ran s) (Some (length (subs s))) (subs s ++ [mkSub q false None false false])%list
                 (urls s) (requests s) (next s) (mounted s)).
Proof.
  intros Hi Hl Him Hq. set (m := length (subs s)).
  assert (∀ k u, (subs s ++ [mkSub q false None false false])%list !! k = Some u → subs s !! k = Some u ∨ k = m ∧ u = mkSub q false None false false) as Hin.
  { intros k u [?|[Hge Hu]]%lookup_app_Some; [by left|right]. apply list_lookup_singleton_Some in Hu as [Hz <-]. split; [unfold m; lia|done]. }
  assert (∀ k u, subs s !! k = Some u → (subs s ++ [mkSub q false None false false])%list !! k = Some u) as Hold by (intros; by apply lookup_app_l_Some).
  assert ((subs s ++ [mkSub q false None false false])%list !! m = Some (mkSub q false None false false)) as Hm by (unfold m; by rewrite lookup_app_r, Nat.sub_diag).
  split; cbn.
  - intros n v Hn Hv. destruct (inv_urls _ Hi n v Hn Hv) as (k & u & ? & _). congruence.
  - intros k u n [Hk|[-> ->]]%Hin; [by apply (inv_current _ Hi k)|done].
  - intros k [= <-]. eexists. rewrite Hm. split; [done|]. by rewrite Hq.
  - intros k u [Hk|[-> ->]]%Hin Hne; [eapply (inv_ended _ Hi); [done|congruence]|done].
  - congruence.
  - intros r k Hr. destruct (inv_requests _ Hi r k Hr) as (? & u & ? & ?). eauto.
  - apply Hi.
  - intros k u [Hk|[-> ->]]%Hin; [by apply (inv_loading _ Hi)|]. cbn. split; [|done]. split; [done|]. intros [r Hr]. destruct (inv_requests _ Hi r m Hr) as (_ & u & Hu & _).
    apply lookup_lt_Some in Hu. unfold m in Hu. lia.
Qed.

Lemma preview_step_inv s e : preview_inv s → preview_inv (step s e).1.
Proof.
  intros Hi. destruct e as [p| |resources|r a|w h|].
  - destruct Hi. by split.
  - cbn. destruct (_ || _); [done|]. destruct (preview_cleanup_spec s Hi) as (Hl & Hrq & Hnx & _).
    pose proof (ended_inv s None (mounted (cleanup s)) (Some (props_key (props (cleanup s)))) (8, 5)%Z (props (cleanup s)) Hi (or_introl eq_refl)) as Hi'.
    rewrite <- Hrq, <- Hnx in Hi'. assert (imageBoot (cleanup s) = imageBoot s) as Hb by (unfold cleanup; by repeat case_match).
    unfold subscribe. cbn zeta. rewrite Hl, Hb. destruct (_ || _); [done|]. apply preview_refresh_inv. by apply (enrolled_inv _ _ Hi').
  - cbn. unfold listener. destruct (live s) as [k|]; [|done]. destruct (subs s !! k); [|done]. destruct (concerns _ _); [by apply preview_refresh_inv|done].
  - destruct (requests s !! r) as [k|] eqn:Hr; [by eapply answered_inv|]. cbn. by rewrite Hr.
  - destruct Hi. by split.
  - cbn. destruct (preview_cleanup_spec s Hi) as (Hl & Hrq & Hnx & _). rewrite Hl, Hrq, Hnx.
    assert (imageBoot (cleanup s) = imageBoot s) as -> by (unfold cleanup; by repeat case_match). by apply ended_inv; [|right].
Qed.

Lemma run_preview_inv s es : preview_inv s → preview_inv (run step s es).1.
Proof. intros Hi. eapply run_invariant; [|done]. intros. by apply preview_step_inv. Qed.

(** A subscription lives only while the component is on the page. *)
Definition lives_mounted (s : preview) : Prop := mounted s = false → live s = None.

Lemma refresh_same k s : live (refresh k s).1 = live s ∧ mounted (refresh k s).1 = mounted s.
Proof. unfold refresh. destruct (subs s !! k) as [u|]; [|done]. by destruct (loading u). Qed.
Lemma cleanup_same s : mounted (cleanup s) = mounted s ∧ (live s = None → live (cleanup s) = None).
Proof. unfold cleanup. destruct (live s) eqn:Hl; [|by rewrite Hl]. destruct (subs s !! _); split; by intros. Qed.

Lemma answered_same k a s : live (answered k a s).1 = live s ∧ mounted (answered k a s).1 = mounted s.
Proof.
  unfold VmPreview.answered. destruct (subs s !! k) as [u|]; [|done]. set (s2 := match accepted u a with Some t => show k u t s | None => s end).
  assert (live s2 = live s ∧ mounted s2 = mounted s) as [<- <-] by (unfold s2; by destruct (accepted u a)).
  destruct (subs s2 !! k) as [u2|]; [|done]. destruct (_ && _); [|done]. by destruct (refresh_same k (put_sub k (mkSub (s_key u2) (aborted u2) (current u2) false (dirty u2)) s2)) as [-> ->].
Qed.

Lemma step_mounted s e : preview_inv s → lives_mounted s → lives_mounted (step s e).1.
Proof.
  intros Hi Hl. unfold lives_mounted in *. destruct e as [p| |resources|r a|w h|]; cbn; try done.
  - destruct (mounted s) eqn:Hm; cbn [negb orb]; [|cbn; by rewrite Hm]. destruct (bool_decide _); [cbn; by rewrite Hm|]. unfold subscribe. cbn zeta. destruct (_ || _).
    + cbn. rewrite (proj1 (cleanup_same s)), Hm. done.
    + rewrite (proj2 (refresh_same _ _)). cbn. rewrite (proj1 (cleanup_same s)), Hm. done.
  - unfold listener. destruct (live s) as [k|] eqn:E; [|done]. destruct (subs s !! k); [|cbn; by rewrite E]. destruct (concerns _ _); [|cbn; by rewrite E].
    destruct (refresh_same k s) as [-> ->]. cbn; by rewrite E.
  - destruct (requests s !! r) as [k|]; [|done]. set (s1 := mkPreview _ _ _ _ _ _ _ _ _ _ _). by destruct (answered_same k a s1) as [-> ->].
  - rewrite (proj1 (preview_cleanup_spec s Hi)). done.
Qed.

Lemma run_mounted p es : lives_mounted (run step (start p) es).1.
Proof.
  apply (run_invariant step (λ s, preview_inv s ∧ lives_mounted s)); [|split; [apply start_inv|done]].
  intros s e [Hi Hl]. split; [by apply preview_step_inv|by apply step_mounted].
Qed.

(** ** The images *)

Definition images_ok (s : preview) : Prop :=
  let k := props_key (props s) in
  (mounted s = true → ran s = Some k → ∀ n, shown s = Some n →
     ∃ v, urls s !! n = Some v ∧ revoked v = false ∧ u_vm v = id k ∧ (bootTime k * 1000 ≤ u_captured v)%Z) ∧
  (∀ n n' v v', urls s !! n = Some v → urls s !! n' = Some v' → revoked v = false → revoked v' = false → n = n') ∧
  (mounted s = false → ∀ n v, urls s !! n = Some v → revoked v = true) ∧
  (∀ r r' k', requests s !! r = Some k' → requests s !! r' = Some k' → r = r').

(** C27. A preview shows the machine since it booted. Whatever happens to a preview, in any order, and for
    whatever answers: once React has committed, the image shown was made of an answer for the machine shown, was
    captured after the boot shown, and its URL is not revoked; the page never holds two URLs that are not
    revoked, and none when the preview is gone; and a subscription waits for one request at most. *)
Theorem preview_images p es : images_ok (run step (start p) es).1.
Proof.
  pose proof (run_preview_inv _ es (start_inv p)) as Hi. pose proof (run_mounted p es) as Hm. set (s := (run step (start p) es).1) in *. split_and!.
  - intros Hmt Hran n Hn. unfold shown in Hn. destruct (_ && _) eqn:Hb; [|done]. destruct (inv_image _ Hi n Hn Hmt) as [(k & u & Hl & Hk & Hc) _].
    destruct (inv_live _ Hi k Hl) as (u' & Hk' & Ha & Hr). simplify_eq. destruct (inv_current _ Hi k u n Hk Hc) as (v & Hv & H1 & H2 & H3).
    assert (s_key u = props_key (props s)) as E by congruence. rewrite E in *. exists v. split_and!; auto.
  - intros n n' v v' Hv Hv' Hr Hr'. destruct (inv_urls _ Hi n v Hv Hr) as (k & u & Hl & Hk & Hc). destruct (inv_urls _ Hi n' v' Hv' Hr') as (k' & u' & Hl' & Hk' & Hc').
    congruence.
  - intros Hu n v Hv. destruct (revoked v) eqn:Hr; [done|]. destruct (inv_urls _ Hi n v Hv Hr) as (k & u & Hl & _). specialize (Hm Hu). congruence.
  - apply Hi.
Qed.

(** ** No signal is lost *)

(** Request [r] is outstanding for subscription [k], which will load again after it. *)
Definition waiting (r k : nat) (q : key) (s : preview) : Prop :=
  requests s !! r = Some k ∧ ∃ u, subs s !! k = Some u ∧ s_key u = q ∧ dirty u = true ∧ loading u = true.

Lemma waiting_refresh r k q k' s : r < next s → waiting r k q s → waiting r k q (refresh k' s).1.
Proof.
  intros Hi (Hr & u & Hk & Hq & Hd & Hl). destruct (subs s !! k') as [u'|] eqn:Hk'; [|unfold refresh; rewrite Hk'; split; eauto].
  rewrite (refresh_flags k' u') by done. destruct (decide (k' = k)) as [->|Hne].
  - simplify_eq. rewrite Hl. split; [done|]. eexists. cbn. rewrite put_lookup by done. split; [by left|done].
  - assert (∀ d rq nx, rq !! r = Some k → waiting r k q (with_flags k' u' true d rq nx s)) as H.
    { intros d rq nx Hrq. split; [done|]. exists u. cbn. by rewrite list_lookup_insert_ne by congruence. }
    destruct (loading u'); apply H; [done|]. rewrite lookup_insert_ne; [done|lia].
Qed.

Lemma waiting_put r k q k' v s : k' ≠ k → waiting r k q s → waiting r k q (put_sub k' v s).
Proof. intros Hne (Hr & u & Hk & H). split; [done|]. exists u. cbn. by rewrite list_lookup_insert_ne. Qed.

Lemma waiting_answered r k q r' a s : preview_inv s → waiting r k q s → r' ≠ r → waiting r k q (step s (Answered r' a)).1.
Proof.
  intros Hi (Hr & u & Hk & Hq & Hd & Hl) Hne. cbn. destruct (requests s !! r') as [k'|] eqn:Hr'; [|split; eauto].
  assert (k' ≠ k) as Hkk by (intros ->; apply Hne; by eapply (inv_single _ Hi)).
  unfold VmPreview.answered. cbn [subs]. destruct (subs s !! k') as [u'|] eqn:Hk'; [|split; [|eauto]; cbn; by rewrite lookup_delete_ne].
  set (s1 := mkPreview _ _ _ _ _ _ _ _ _ _ _). set (s2 := match accepted u' a with Some t => show k' u' t s1 | None => s1 end).
  assert (r < next s1) as Hlt by (by apply (inv_requests _ Hi) in Hr as [? _]).
  assert (waiting r k q s1) as Hw1 by (split; [cbn; by rewrite lookup_delete_ne|eauto]).
  assert (waiting r k q s2 ∧ next s2 = next s1) as [Hw2 Hn2] by (unfold s2; destruct (accepted u' a); [split; [|done]; by apply (waiting_put _ _ _ k' _ s1)|done]).
  destruct (subs s2 !! k') as [u2|]; [|done]. destruct (_ && _); [apply waiting_refresh; [cbn; by rewrite Hn2|]|]; by apply waiting_put.
Qed.

Lemma waiting_step r k q s e : preview_inv s → lives_mounted s → waiting r k q s → (∀ a, e ≠ Answered r a) → waiting r k q (step s e).1.
Proof.
  intros Hi Hm Hw He. assert (r < next s) as Hlt by (destruct Hw as [Hr _]; by apply (inv_requests _ Hi) in Hr as [? _]).
  assert (waiting r k q (cleanup s) ∧ next (cleanup s) = next s) as [Hwc Hnc].
  { destruct Hw as (Hr & u & Hk & Hq & Hd & Hl). unfold cleanup. destruct (live s) as [k'|] eqn:El; [|split; [split; eauto|done]].
    destruct (subs s !! k') as [u'|] eqn:Hk'; [|split; [split; eauto|done]]. split; [|done]. split; [done|]. cbn. destruct (decide (k' = k)) as [->|Hne].
    - simplify_eq. eexists. rewrite put_lookup by done. split; [by left|done].
    - exists u. by rewrite list_lookup_insert_ne. }
  destruct e as [p| |resources|r' a|w h|]; [done| | | |done|done].
  - cbn. destruct (_ || _); [done|]. unfold subscribe. cbn zeta. destruct (_ || _); [done|]. apply waiting_refresh; [cbn; lia|].
    destruct Hwc as (Hr & u & Hk & H). split; [done|]. exists u. cbn. by rewrite (lookup_app_l_Some _ _ _ _ Hk).
  - cbn. unfold listener. destruct (live s) as [k'|]; [|done]. destruct (subs s !! k'); [|done]. destruct (concerns _ _); [by apply waiting_refresh|done].
  - apply waiting_answered; try done. intros ->. by eapply He.
Qed.

Lemma waiting_run r k q es : ∀ s, preview_inv s → lives_mounted s → waiting r k q s → (∀ a, Answered r a ∉ es) → waiting r k q (run step s es).1.
Proof.
  induction es as [|e es IH]; intros s Hi Hm Hw He; [done|]. cbn [run].
  specialize (IH (step s e).1 (preview_step_inv s e Hi) (step_mounted s e Hi Hm)). destruct (step s e) as [s1 o1] eqn:E. cbn [fst] in IH.
  assert (waiting r k q s1) as Hw1. { pose proof (waiting_step r k q s e Hi Hm Hw) as H. rewrite E in H. apply H. intros a ->. apply (He a). by left. }
  specialize (IH Hw1 (λ a Hin, He a (proj2 (elem_of_cons _ _ _) (or_intror Hin)))). by destruct (run step s1 es).
Qed.

(** The answer that a live subscription waits for makes it load again. *)
Lemma waiting_fires r k q a s : preview_inv s → waiting r k q s → live s = Some k → Request k (id q) ∈ (step s (Answered r a)).2.
Proof.
  intros Hi (Hr & u & Hk & <- & Hd & Hl) Hlive. destruct (inv_live _ Hi k Hlive) as (u' & ? & Ha & _). simplify_eq. cbn. rewrite Hr.
  unfold VmPreview.answered. cbn [subs]. rewrite Hk. set (s1 := mkPreview _ _ _ _ _ _ _ _ _ _ _).
  assert (∃ u2, subs (match accepted u a with Some t => show k u t s1 | None => s1 end) !! k = Some u2 ∧ aborted u2 = false ∧ dirty u2 = true ∧ s_key u2 = s_key u) as (u2 & Hk2 & Ha2 & Hd2 & Eq).
  { destruct (accepted u a); [|by exists u]. eexists. cbn. rewrite put_lookup by done. split; [by left|done]. }
  rewrite Hk2, Ha2, Hd2. cbn [negb andb]. unfold refresh, put_sub. cbn [subs]. rewrite list_lookup_insert_eq by (by eapply lookup_lt_Some). cbn. rewrite Eq. by left.
Qed.

(** No signal of a new capture is lost: a signal that concerns a live preview makes it ask at once for the
    image, or, while an answer is outstanding, right after that answer, whatever else happens
    meanwhile, if the preview is then still the same. *)
Theorem preview_refreshed p es resources k u :
  let s := (run step (start p) es).1 in
  live s = Some k → subs s !! k = Some u → concerns resources ("preview:" ++ id (s_key u)) = true →
  let (s1, o1) := step s (Signal resources) in
  Request k (id (s_key u)) ∈ o1 ∨
  ∃ r, requests s1 !! r = Some k ∧ ∀ es2 a, (∀ a', Answered r a' ∉ es2) →
    let s2 := (run step s1 es2).1 in live s2 = Some k → Request k (id (s_key u)) ∈ (step s2 (Answered r a)).2.
Proof.
  intros s Hl Hk Hc. pose proof (run_preview_inv _ es (start_inv p)) as Hi. pose proof (run_mounted p es) as Hm. fold s in Hi, Hm.
  pose proof (preview_step_inv s (Signal resources) Hi) as Hi1. pose proof (step_mounted s (Signal resources) Hi Hm) as Hm1.
  assert ((step s (Signal resources)) = refresh k s) as E by (cbn; unfold listener; by rewrite Hl, Hk, Hc). rewrite E in *.
  pose proof (refresh_flags k u s Hk) as Hf. destruct (loading u) eqn:Eld.
  - pose proof (proj1 (inv_loading _ Hi k u Hk)) as [Hlr _]. destruct (Hlr Eld) as [r Hr].
    assert (waiting r k (s_key u) (refresh k s).1) as Hw. { rewrite Hf. split; [done|]. eexists. cbn. rewrite put_lookup by done. split; [by left|done]. }
    destruct (refresh k s) as [s1 o1]. cbn [fst] in *. right. exists r. split; [by destruct Hw|]. cbn zeta. intros es2 a Hno Hl2.
    apply waiting_fires; [by apply run_preview_inv|by apply waiting_run|done].
  - unfold refresh. rewrite Hk, Eld. left. by left.
Qed.
End steps.

(** ** A concrete preview *)

Definition no_date (s : string) : option Z := None.
Definition sample : properties := mkProps (mkKey "vm1" true 1700000000) "web" true true.

Lemma preview_refreshed_witness :
  let step := step no_date no_date in
  let s1 := (step (run step (start sample) [Flush]).1 (Signal ["preview:vm1"])).1 in
  ∃ r, requests s1 !! r = Some 0 ∧ Request 0 "vm1" ∈ (step s1 (Answered r None)).2.
Proof.
  pose proof (preview_refreshed no_date no_date sample [Flush] ["preview:vm1"] 0 (mkSub (mkKey "vm1" true 1700000000) false None true false)
    eq_refl eq_refl eq_refl) as H.
  destruct H as [H|(r & Hr & H)]; [by apply not_elem_of_nil in H|]. exists r. split; [exact Hr|].
  apply (H [] None); [intros a Ha; by apply not_elem_of_nil in Ha|reflexivity].
Defined.

(** An image captured before the boot shown is not taken, a later one is. *)
Example stale_image :
  let at_time t := Some (mkResponse true true (Some t) None) in
  let step := step no_date no_date in
  (shown (run step (start sample) [Flush; Answered 0 (at_time "1699999999999")]).1,
   shown (run step (start sample) [Flush; Answered 0 (at_time "1700000000001")]).1) = (None, Some 0).
Proof. by vm_compute. Qed.
