(* ===== verification/Activity.v ===== *)
(** * Activity

    The list of operations and its pages ([src/web/src/components/JobsList.tsx], [JobRow.tsx],
    [JobTarget.tsx], [StatusBadge.tsx], against [pkg/jobs/pages.go] and [pkg/api/jobs.go]), the panel at the
    bottom of every page ([JobsPanel.tsx]) and the page of one operation ([pages/JobDetails.tsx]). *)

From stdpp Require Import sorting.
From S2P Require Import Prelude JsString Types Ux UseResource NotificationStream JobTracking PathSerializer Dom Widgets.
Local Open Scope string_scope.

(** ** The pages of the server ([pkg/jobs/pages.go]) *)

Definition actionLabels : list (string * string) := [
  ("vm.interface.add", "Add VM interface");
  ("vm.interface.update", "Update VM interface");
  ("vm.interface.remove", "Remove VM interface");
  ("vm.create", "Create virtual machine");
  ("vm.start", "Start virtual machine");
  ("vm.shutdown", "Guest shutdown");
  ("vm.stop", "Stop virtual machine");
  ("vm.delete", "Delete virtual machine");
  ("vm.hardware", "Update VM hardware");
  ("vm.disk.add", "Add VM disk");
  ("vm.disk.grow", "Grow VM disk");
  ("vm.disk.remove", "Remove VM disk");
  ("vm.backup", "Back up virtual machine");
  ("vm.backup.restore", "Restore VM backup");
  ("vm.backup.delete", "Delete VM backup");
  ("vm.backup.prune", "Prune VM backups");
  ("vm.snapshot.create", "Create VM snapshot");
  ("vm.snapshot.restore", "Restore VM snapshot");
  ("vm.snapshot.delete", "Delete VM snapshot");
  ("network.update", "Edit network");
  ("network.create", "Create network");
  ("network.apply", "Apply network");
  ("network.destroy", "Delete network")
].

Record PageOptions := mkOptions { o_page : nat; o_size : nat; o_state : string; o_search : string; o_focus : string }.
Record Page := mkPage { pg_items : list Job; pg_page : nat; pg_size : nat; pg_total : nat; pg_total_pages : nat }.

Definition Private (job : Job) : bool := String.eqb (job_action job) "vm.screenshot".

Definition Label (action : string) : string := default action (assoc action actionLabels).

(** A job of the index as a page shows it. *)
Definition listed (job : Job) : Job :=
  mkJob (job_action job) (job_created_at job) (job_error job) (job_finished_at job) (job_id job) (Label (job_action job)) [] (job_result job)
    (job_started_at job) (job_state job) (job_target job).

Definition stateRank (s : JobState) : nat := match s with Running => 0 | Pending => 1 | _ => 2 end.

Section server.
(** [strings.ToLower] and [TrimSpace], and the instant of [CreatedAt]. *)
Context (ToLower TrimSpace : string → string) (CreatedAt : Job → Z).

Definition matchesPage (job : Job) (o : PageOptions) : bool :=
  if Private job then false else
  (if String.eqb (o_state o) "active" then in_progress (job_state job)
   else if String.eqb (o_state o) "completed" then terminal (job_state job)
   else if String.eqb (o_state o) "" || String.eqb (o_state o) "all" then true
   else String.eqb (job_state_string (job_state job)) (o_state o)) &&
  includes (ToLower (TrimSpace (o_search o)))
    (ToLower (job_action job ++ " " ++ default "" (assoc (job_action job) actionLabels) ++ " " ++ job_target job ++ " " ++ job_id job)).

(** The order of the list. *)
Definition before (o : PageOptions) (a b : Job) : bool :=
  if String.eqb (job_id a) (o_focus o) || String.eqb (job_id b) (o_focus o) then String.eqb (job_id a) (o_focus o)
  else if negb (stateRank (job_state a) =? stateRank (job_state b))%nat then (stateRank (job_state a) <? stateRank (job_state b))%nat
  else if negb (CreatedAt a =? CreatedAt b)%Z then (CreatedAt b <? CreatedAt a)%Z
  else String.ltb (job_id a) (job_id b).

(** [sort.Slice] by [before]; the index has one job for each ID. *)
Definition in_order (o : PageOptions) (a b : Job) : Prop := before o b a = false ∨ job_id a = job_id b.
#[export] Instance in_order_dec o a b : Decision (in_order o a b).
Proof. unfold in_order. apply _. Defined.

Definition public_order (o : PageOptions) (jobs : list Job) : list Job :=
  merge_sort (in_order o) (listed <$> List.filter (λ j, matchesPage j o) jobs).

(** [PublicPage] over the jobs of the index; [None] where it refuses the options. *)
Definition PublicPage (jobs : list Job) (o : PageOptions) : option Page :=
  if (o_page o <? 1)%nat || (o_size o <? 1)%nat || (100 <? o_size o)%nat then None else
  let matches := public_order o jobs in
  let totalPages := Nat.max 1 ((length matches + o_size o - 1) / o_size o) in
  let page := Nat.min (o_page o) totalPages in
  Some (mkPage (take (o_size o) (drop ((page - 1) * o_size o) matches)) page (o_size o) (length matches) totalPages).

(** The handler, for a page and a size given as numbers; [None]: a bad request. *)
Definition valid_state (s : string) : bool :=
  includes_str [""; "all"; "active"; "completed"; "pending"; "running"; "succeeded"; "failed"] s.
Definition listJobs (jobs : list Job) (page size : nat) (st search focus : string) : option Page :=
  if (page <? 1)%nat || (size <? 1)%nat || (100 <? size)%nat || negb (valid_state st) then None
  else PublicPage jobs (mkOptions page size st search focus).
End server.

(** ** The list *)

Definition filters : list (string * string) := [
  ("all", "All Activity"); ("active", "Active"); ("pending", "Queued"); ("running", "In progress");
  ("completed", "Finished (Successful or Failed)"); ("succeeded", "Completed Successfully"); ("failed", "Failed")].

Definition PAGE_SIZE : nat := 25.

Inductive action := ChangeFilter (value : string) | Search | ClearFilters | GoPage (value : nat) | Retry | OpenJob (id : string) | OpenVM (id : string).
#[export] Instance action_eq_dec : EqDecision action.
Proof. solve_decision. Defined.

Record list_state := mkList {
  highlightedJob : string;
  filter_value : string;
  search : string;
  page : nat;
  history : @UseResource.view (option JobsPage);
  stream_error : string
}.

Inductive list_event :=
  | User (a : action) (text : string)
  | Loaded (v : @UseResource.view (option JobsPage))
  | StreamSays (error : string).

(** [Load]: the resource loads with new arguments. *)
Inductive list_request := Load (page : nat) (st search focus : string) | RefreshHistory.

Definition with_query (f q : string) (n : nat) (s : list_state) : list_state := mkList (highlightedJob s) f q n (history s) (stream_error s).

(** The arguments of [load]; the hook loads when they change. *)
Definition load (s : list_state) : list_request := Load (page s) (filter_value s) (search s) (highlightedJob s).
#[export] Instance list_request_eq_dec : EqDecision list_request.
Proof. solve_decision. Defined.

Definition requery (f q : string) (n : nat) (s : list_state) : list_state * list list_request :=
  let s' := with_query f q n s in (s', if decide (load s' = load s) then [] else [load s']).

Definition list_step (s : list_state) (e : list_event) : list_state * list list_request :=
  match e with
  | User (ChangeFilter v) _ => requery v (search s) 1 s
  | User Search text => requery (filter_value s) text 1 s
  | User ClearFilters _ => requery "all" "" 1 s
  | User (GoPage v) _ => requery (filter_value s) (search s) (v + 1) s
  | User Retry _ => (s, [RefreshHistory])
  | User _ _ => (s, [])
  | Loaded v => (mkList (highlightedJob s) (filter_value s) (search s) (page s) v (stream_error s), [])
  | StreamSays e => (mkList (highlightedJob s) (filter_value s) (search s) (page s) (history s) e, [])
  end.

Definition list_start (highlighted : string) : list_state := mkList highlighted "all" "" 1 (UseResource.mkView None "" true) "".

Definition total_pages (s : list_state) : Z := match UseResource.data (history s) with Some h => if (jpage_total_pages h =? 0)%Z then 1 else jpage_total_pages h | None => 1 end.
Definition total (s : list_state) : Z := match UseResource.data (history s) with Some h => jpage_total h | None => 0 end.
Definition visible (s : list_state) : list Job := match UseResource.data (history s) with Some h => jpage_items h | None => [] end.

(** [JobStatusBadge] *)
Definition JobStatusBadge (job : Job) : node action := label "Badge" (activityState job).
Definition VMStatusBadge (phase : string) : node action :=
  label "Badge" (if String.eqb phase "running" then "Running" else if String.eqb phase "stopped" then "Stopped" else phase).

(** [JobTarget]: the machine the operation is about, if it is known. *)
Definition target_vm (vms : list VMView) (job : Job) : option VMView :=
  let target := if String.eqb (job_action job) "vm.create" then job_result job else Some (job_target job) in
  if starts_with "vm." (job_action job)
  then List.find (λ item, match target with Some t => String.eqb (m_id (vm_manifest item)) t || String.eqb (m_name (vm_manifest item)) t | None => false end) vms
  else None.
Definition JobTarget (vms : list VMView) (job : Job) : node action :=
  match target_vm vms job with
  | None => label "span" (job_target job ||s "Not Recorded")
  | Some vm => El "a" [("href", "/vms/" ++ encodeURIComponent (m_id (vm_manifest vm)))] false [OpenVM (m_id (vm_manifest vm))] [Text (m_name (vm_manifest vm))]
  end.

Section shown.
(** [toLocaleString] of a date, and the machines [JobTarget] has loaded. *)
Context (toLocaleString : string → string) (vms : list VMView).

Definition finished_text (job : Job) : string :=
  if truthy (job_finished_at job |?| "") then toLocaleString (job_finished_at job |?| "") else unfinishedTime job.

Definition JobRow (highlighted : bool) (job : Job) : node action :=
  El "tr" (if highlighted then [("aria-selected", "true")] else []) false []
    [El "a" [("href", "/jobs/" ++ job_id job)] false [OpenJob (job_id job)] [Text (activityName job)]; JobTarget vms job; JobStatusBadge job;
     label "td" (toLocaleString (job_created_at job)); label "td" (finished_text job)].

(** [Pagination] belongs to the component library: it offers the pages there are. *)
Definition Pagination (n : Z) : node action := El "nav" [] false (GoPage <$> seq 0 (Z.to_nat n)) [].

Definition filtered (s : list_state) : bool := truthy (search s) || negb (String.eqb (filter_value s) "all").

Definition list_view (s : list_state) : node action :=
  let h := history s in let loading := UseResource.loading h && match UseResource.data h with None => true | Some _ => false end in
  box "div"
    ([El "select" [("aria-label", "Filter activity by status")] false (ChangeFilter ∘ fst <$> filters) (label "option" ∘ snd <$> filters);
      El "input" [("aria-label", "Search activity")] false [Search] [];
      label "span" (if loading then "Loading…" else pretty (total s) ++ " operations")] ++
     ResourceNotice h "activity history" Retry ++
     JobNotice (if truthy (stream_error s) then "Live activity updates are unavailable. History remains available; updates reconnect automatically. " ++ stream_error s else "") ++
     when (filtered s) [button "Clear Filters" false ClearFilters] ++
     (if loading then [label "p" "Loading activity…"]
      else if (total s =? 0)%Z && negb (truthy (UseResource.error h))
           then [label "h2" (if filtered s then "No Matching Activity" else "No Activity Yet");
                 label "p" (if filtered s then "No operations match these filters." else "Operations you run will appear here.")]
      else [box "table" ((λ j, JobRow (String.eqb (job_id j) (highlightedJob s)) j) <$> visible s); Pagination (total_pages s)]))%list.
End shown.

(** ** The panel *)

(** [Array.prototype.sort] keeps the order of elements that compare as equal; its result is defined for
    consistent comparators. *)
Fixpoint sort_insert {A} (cmp : A → A → Z) (x : A) (l : list A) : list A :=
  match l with
  | [] => [x]
  | y :: r => if (cmp x y <=? 0)%Z then x :: y :: r else y :: sort_insert cmp x r
  end.
Definition js_sort {A} (cmp : A → A → Z) (l : list A) : list A := foldr (sort_insert cmp) [] l.

Record panel := mkPanel { expanded : bool; stored : option string; jobs_resource : JobsResource; told : option JobNotification; pathname : string }.

Definition isRunning (job : Job) : bool := state_eqb (job_state job) Running.
Definition isPending (job : Job) : bool := state_eqb (job_state job) Pending.

(** [localStorage] under the panel's key. *)
Definition initialExpanded (item : option string) : bool := bool_decide (item = Some "true").
Definition toggle (p : panel) : panel :=
  let next := negb (expanded p) in
  mkPanel next (Some (if next then "true" else "false")) (jobs_resource p) (told p) (pathname p).

Section panel.
(** [Date.parse]; [None] for a text that is not a date, whose differences compare as equal. *)
Context (Date_parse : string → option Z).

Definition started (job : Job) : option Z := Date_parse (job_started_at job |?| "" ||s job_created_at job).
Definition compare_jobs (first second : Job) : Z :=
  if negb (state_eqb (job_state first) (job_state second)) then (if isRunning first then -1 else 1)%Z
  else match started second, started first with Some b, Some a => (b - a)%Z | _, _ => 0%Z end.

Definition active_jobs (p : panel) : list Job :=
  js_sort compare_jobs
    (List.filter (λ job, negb (String.eqb (job_action job) "vm.screenshot") && (isRunning job || isPending job)) (NotificationStream.data (jobs_resource p))).

Definition latest_job (p : panel) : option Job :=
  match told p ≫= n_job with
  | Some j => Some (default j (List.find (λ job, String.eqb (job_id job) (job_id j)) (NotificationStream.data (jobs_resource p))))
  | None => None
  end.

Definition told_error (p : panel) : string := match told p with Some n => n_error n |?| "" | None => "" end.

Definition candidates (p : panel) : list Job :=
  match latest_job p with
  | Some l => l :: List.filter (λ job, negb (String.eqb (job_id job) (job_id l))) (active_jobs p)
  | None => active_jobs p
  end.
Definition previews (p : panel) : list Job := take (if truthy (told_error p) then 1 else 2) (candidates p).
Definition running_count (p : panel) : nat := length (List.filter isRunning (active_jobs p)).
Definition pending_count (p : panel) : nat := length (List.filter isPending (active_jobs p)).

Inductive panel_action := ToggleActivity | Follow (path : string).

Definition preview_node (job : Job) : node panel_action :=
  let name := activityName job ++ " · " ++ job_target job in let status := activityState job in
  El "a" [("href", "/jobs/" ++ encodeURIComponent (job_id job));
          ("title", name ++ " · " ++ status ++ (if truthy (job_error job |?| "") then " · " ++ (job_error job |?| "") else ""))] false
    [Follow ("/jobs/" ++ encodeURIComponent (job_id job))] [label "span" name; label "span" status].

Definition updates (p : panel) (idle : string) : string :=
  if truthy (NotificationStream.error (jobs_resource p)) then "Updates unavailable"
  else if NotificationStream.loading (jobs_resource p) then "Loading…" else idle.

Definition panel_view (p : panel) : list (node panel_action) :=
  let c := length (candidates p) in let n := length (previews p) in
  when (negb (String.eqb (pathname p) "/jobs"))
    [box "section"
       ([El "button" [("aria-expanded", if expanded p then "true" else "false")] false [ToggleActivity]
           [label "span" "Activity"; label "span" (updates p (pretty (Z.of_nat (running_count p)) ++ " in progress · " ++ pretty (Z.of_nat (pending_count p)) ++ " queued"))]] ++
        when (truthy (told_error p)) [label "span" (told_error p)] ++
        (preview_node <$> previews p) ++
        when (1 <? c)%nat [label "span" ("+" ++ pretty (Z.of_nat (c - 1)))] ++
        when (n <? c)%nat [label "span" ("+" ++ pretty (Z.of_nat (c - n)))] ++
        when ((n =? 0)%nat && negb (truthy (told_error p))) [label "span" (updates p "No active operations")] ++
        [El "a" [("href", "/jobs")] false [Follow "/jobs"] [Text "All Activity"]])]%list.
End panel.

(** ** The page of one operation *)

(** [JobDetails]: the job of the stream with the logs of the resource, or the job of the resource. *)
Definition detailed_job (id : string) (resource : option Job) (stream : list Job) : option Job :=
  match List.find (λ job, String.eqb (job_id job) id) stream with
  | Some j => Some (mkJob (job_action j) (job_created_at j) (job_error j) (job_finished_at j) (job_id j) (job_label j)
                      (match resource with Some r => job_logs r | None => [] end) (job_result j) (job_started_at j) (job_state j) (job_target j))
  | None => resource
  end.

Definition started_text (toLocaleString : string → string) (job : Job) : string :=
  if truthy (job_started_at job |?| "") then toLocaleString (job_started_at job |?| "")
  else if state_eqb (job_state job) Pending then "Not Started" else "Not Recorded".

Definition log_text (job : Job) : string :=
  join (String "010" "") (job_logs job) ||s
    (if terminal (job_state job) then "No log output was recorded." else "No log output yet.").

Definition details_view (toLocaleString : string → string) (vms : list VMView) (id : string) (resource : @UseResource.view (option Job)) (stream : JobsResource) : node action :=
  let job := detailed_job id (UseResource.data resource) (NotificationStream.data stream) in
  box "div"
    ([label "h1" (match job with Some j => activityName j | None => "Activity Details" end)] ++
     ResourceNotice resource "activity details" Retry ++ JobNotice (NotificationStream.error stream) ++
     match job with
     | None => when (negb (UseResource.loading resource) && negb (truthy (UseResource.error resource)))
                 [label "p" "This activity record is no longer available. Return to Activity to view recent operations."]
     | Some j =>
         [box "Operation"
            ([JobStatusBadge j; JobTarget vms j; label "Submitted" (toLocaleString (job_created_at j)); label "Started" (started_text toLocaleString j);
              label "Finished" (finished_text toLocaleString j)] ++ when (truthy (job_error j |?| "")) [label "Error" (job_error j |?| "")]);
          label "pre" (log_text j)]
     end)%list.

(** ** Pages of the server *)

Section pages.
Context (ToLower TrimSpace : string → string) (CreatedAt : Job → Z).
Notation listJobs := (listJobs ToLower TrimSpace CreatedAt).
Notation public_order := (public_order ToLower TrimSpace CreatedAt).

#[export] Instance in_order_total o : Total (in_order CreatedAt o).
Proof.
  intros a b. unfold in_order. destruct (String.eqb_spec (job_id a) (job_id b)) as [E|E]; [by left; right|]. unfold before.
  destruct (String.eqb_spec (job_id a) (o_focus o)) as [Ha|Ha], (String.eqb_spec (job_id b) (o_focus o)) as [Hb|Hb]; cbn [orb]; [congruence|auto..|].
  rewrite (Nat.eqb_sym (stateRank (job_state b))), (Z.eqb_sym (CreatedAt b)).
  destruct (Nat.eqb_spec (stateRank (job_state a)) (stateRank (job_state b))); cbn [negb]; [|rewrite !Nat.ltb_ge; lia].
  destruct (Z.eqb_spec (CreatedAt a) (CreatedAt b)); cbn [negb]; [|rewrite !Z.ltb_ge; lia].
  unfold String.ltb. rewrite (String.compare_antisym (job_id a)). destruct (String.compare (job_id b) (job_id a)); cbn; auto.
Qed.

(** Slices of one size, one after the other, make up the list. *)
Lemma slices {A} (l : list A) (size n : nat) : flat_map (λ i, take size (drop (i * size)%nat l)) (seq 0 n) = take (n * size)%nat l.
Proof.
  induction n as [|n IH]; [done|]. rewrite seq_S, flat_map_app, IH. cbn [flat_map]. rewrite app_nil_r. cbn [Nat.add].
  rewrite take_take_drop. f_equal. lia.
Qed.

Lemma ceil_covers (n size : nat) : (1 ≤ size → n ≤ Nat.max 1 ((n + size - 1) / size) * size)%nat.
Proof.
  intros Hs. pose proof (Nat.div_mod_eq (n + size - 1) size). pose proof (Nat.mod_upper_bound (n + size - 1) size ltac:(lia)). nia.
Qed.

Definition items_of (p : option Page) : list Job := match p with Some p => pg_items p | None => [] end.
Definition options (p size : nat) (st q focus : string) : PageOptions := mkOptions p size st q focus.

(** A request with a valid page, size and state is served. *)
Lemma page_served jobs (p size : nat) st q focus : (1 ≤ p)%nat → (1 ≤ size ≤ 100)%nat → valid_state st = true →
  let l := public_order (options 1 size st q focus) jobs in let n := Nat.max 1 ((length l + size - 1) / size)%nat in
  listJobs jobs p size st q focus =
    Some (mkPage (take size (drop ((Nat.min p n - 1) * size)%nat l)) (Nat.min p n) size (length l) n).
Proof.
  intros Hp Hs Hst. unfold Activity.listJobs, PublicPage. rewrite Hst. cbn [o_page o_size].
  destruct (Nat.ltb_spec p 1); [lia|]. destruct (Nat.ltb_spec size 1); [lia|]. destruct (Nat.ltb_spec 100 size); [lia|]. done.
Qed.

Lemma all_pages jobs (size : nat) st q focus : (1 ≤ size ≤ 100)%nat → valid_state st = true →
  let l := public_order (options 1 size st q focus) jobs in
  flat_map (λ i, items_of (listJobs jobs (i + 1)%nat size st q focus)) (seq 0 (Nat.max 1 ((length l + size - 1) / size)%nat)) = l.
Proof.
  intros Hs Hst l. set (n := Nat.max 1 _). transitivity (flat_map (λ i, take size (drop (i * size)%nat l)) (seq 0 n)).
  - assert (∀ k : nat, (k ≤ n)%nat → flat_map (λ i, items_of (listJobs jobs (i + 1)%nat size st q focus)) (seq 0 k) = flat_map (λ i, take size (drop (i * size)%nat l)) (seq 0 k)) as H; [|by apply H].
    induction k as [|k IH]; [done|]. intros Hk. rewrite seq_S, !flat_map_app, IH by lia. f_equal. cbn [flat_map Nat.add]. rewrite !app_nil_r.
    rewrite page_served by (done || lia). cbn [items_of pg_items]. fold l. fold n. by replace (Nat.min (k + 1) n - 1)%nat with k by lia.
  - rewrite slices. apply take_ge. apply ceil_covers. lia.
Qed.
End pages.

(** ** The list's requests *)

Section list_requests.
Context (toLocaleString : string → string) (vms : list VMView).
Notation view := (list_view toLocaleString vms).

Definition list_user (e : list_event) : option action := match e with User a _ => Some a | _ => None end.
Definition query_ok (s : list_state) : Prop := valid_state (filter_value s) = true ∧ (1 ≤ page s)%nat.

Lemma target_offers a job : a ∈ offers (JobTarget vms job) → ∃ id, a = OpenVM id.
Proof. unfold JobTarget. destruct (target_vm vms job); cbn; [|by intros ?%not_elem_of_nil]. intros ->%list_elem_of_singleton. eauto. Qed.

Lemma job_row_offers a h job : a ∈ offers (JobRow toLocaleString vms h job) → (∃ id, a = OpenVM id) ∨ ∃ id, a = OpenJob id.
Proof.
  unfold JobRow. intros [_ H]%offers_el. destruct H as [H%not_elem_of_nil|H]; [done|].
  apply offers_cons in H as [H|H]; [cbn in H; apply list_elem_of_singleton in H; eauto|].
  apply offers_cons in H as [H|H]; [left; by eapply target_offers|]. cbn in H. set_solver.
Qed.

Lemma filter_offered v s : ChangeFilter v ∈ offers (view s) → valid_state v = true.
Proof.
  unfold list_view. cbn zeta. intros H. apply offers_box, offers_app in H as [H|H].
  - cbn in H. repeat (apply elem_of_cons in H as [H|H]); try (injection H as ->; done); try done. by apply not_elem_of_nil in H.
  - exfalso. apply offers_app in H as [H|H]; [by apply notice_offers in H|]. apply offers_app in H as [H|H]; [by rewrite job_notice_offers in H; apply not_elem_of_nil in H|].
    apply offers_app in H as [H|H].
    + apply offers_when in H as [_ H]. apply offers_cons in H as [H|H]; [by apply offers_button in H as [_ ?]|by apply not_elem_of_nil in H].
    + destruct (UseResource.loading _ && _); [|destruct ((total s =? 0)%Z && _)].
      * apply offers_cons in H as [H|H]; [by apply offers_label in H|by apply not_elem_of_nil in H].
      * cbn in H. set_solver.
      * apply offers_cons in H as [H|H].
        -- apply offers_fmap in H as (j & _ & [[i Hr]|[i Hr]]%job_row_offers); done.
        -- apply offers_cons in H as [H|H]; [|by apply not_elem_of_nil in H]. unfold Pagination in H. apply offers_el in H as [_ [H|H]]; [|by apply not_elem_of_nil in H].
           apply list_elem_of_fmap in H as (i & ? & _). done.
Qed.

Lemma list_query s e : query_ok s → (∀ a, list_user e = Some a → a ∈ offers (view s)) → query_ok (list_step s e).1.
Proof.
  intros [Hf Hp] Hu. destruct e as [a text|v|err]; [|by split..]. specialize (Hu a eq_refl). unfold query_ok.
  destruct a; cbn; split; try done; try lia. by eapply filter_offered.
Qed.

(** C28. The list of operations reaches all of them. Whatever its user chose among its controls before, a
    request of the list is one the server answers; the page it answers with is the requested one, or
    the last if there are fewer, at most 25 operations long and in the server's order; and the pages that the
    list then offers hold together each public operation that matches the filter and the search once. *)
Theorem activity_pages ToLower TrimSpace CreatedAt highlighted es e p st q focus jobs :
  let serve := listJobs ToLower TrimSpace CreatedAt jobs in
  legal list_step view list_user (list_start highlighted) (es ++ [e]) →
  Load p st q focus ∈ (list_step (run list_step (list_start highlighted) es).1 e).2 →
  ∃ pg, serve p PAGE_SIZE st q focus = Some pg ∧ pg_page pg = Nat.min p (pg_total_pages pg) ∧ (length (pg_items pg) ≤ PAGE_SIZE)%nat ∧
    let all := flat_map (λ i, items_of (serve (i + 1)%nat PAGE_SIZE st q focus)) (seq 0 (pg_total_pages pg)) in
    Sorted (in_order CreatedAt (options p PAGE_SIZE st q focus)) all ∧
    all ≡ₚ listed <$> List.filter (λ j, matchesPage ToLower TrimSpace j (options p PAGE_SIZE st q focus)) jobs ∧ length all = pg_total pg.
Proof.
  cbn zeta. intros Hl Hr. assert (query_ok (list_step (run list_step (list_start highlighted) es).1 e).1) as Hq.
  { rewrite <- run_snoc. eapply (legal_invariant list_step view list_user query_ok); [by split|by apply list_query|done]. }
  assert (load (list_step (run list_step (list_start highlighted) es).1 e).1 = Load p st q focus) as Hload.
  { destruct e as [a text|v|err]; cbn in Hr; [|by apply not_elem_of_nil in Hr..]. destruct a; cbn in Hr; unfold requery in Hr |- *; cbn in Hr |- *;
      try case_decide; cbn in Hr |- *; first [by apply not_elem_of_nil in Hr | by apply list_elem_of_singleton in Hr]. }
  destruct Hq as [Hst Hp]. injection Hload as <- <- <- <-. set (s := (list_step _ e).1) in *.
  assert (1 ≤ PAGE_SIZE ≤ 100)%nat as Hsz by (unfold PAGE_SIZE; lia).
  pose proof (all_pages ToLower TrimSpace CreatedAt jobs PAGE_SIZE (filter_value s) (search s) (highlightedJob s) Hsz Hst) as Hall.
  eexists. split; [by apply page_served|]. cbn [pg_page pg_items pg_total pg_total_pages]. split; [done|]. split; [rewrite length_take; lia|].
  rewrite Hall. split_and!; [apply Sorted_merge_sort, _|unfold public_order; by rewrite (merge_sort_Permutation (in_order CreatedAt _))|done].
Qed.
End list_requests.

(** ** The panel's previews *)

Section sorting.
Context {A : Type} (cmp : A → A → Z) (P : A → Prop).
Notation le := (λ a b, (cmp a b ≤ 0)%Z).

Lemma sort_insert_perm x l : sort_insert cmp x l ≡ₚ x :: l.
Proof. induction l as [|y l IH]; [done|]. cbn. case_match; [done|]. rewrite IH. constructor. Qed.

Lemma js_sort_perm l : js_sort cmp l ≡ₚ l.
Proof. induction l as [|x l IH]; [done|]. cbn. by rewrite sort_insert_perm, IH. Qed.

Hypothesis Htotal : ∀ a b, P a → P b → le a b ∨ le b a.
Hypothesis Htrans : ∀ a b c, P a → P b → P c → le a b → le b c → le a c.

Lemma sort_insert_sorted x l : P x → Forall P l → StronglySorted le l → StronglySorted le (sort_insert cmp x l).
Proof using All.
  intros Hx Hl Hs. induction Hs as [|y l Hs IH Hy]; [repeat constructor|]. apply Forall_cons in Hl as [HPy Hl]. cbn. destruct (Z.leb_spec (cmp x y) 0) as [Hc|Hc].
  - constructor; [by constructor|]. constructor; [done|]. rewrite Forall_forall in Hl, Hy |- *. intros z Hz. apply (Htrans x y z); auto.
  - constructor; [auto|]. rewrite sort_insert_perm. constructor; [|done]. by destruct (Htotal x y Hx HPy); [lia|].
Qed.

Lemma js_sort_sorted l : Forall P l → StronglySorted le (js_sort cmp l).
Proof using All.
  induction 1 as [|x l Hx Hl IH]; [constructor|]. change (js_sort cmp (x :: l)) with (sort_insert cmp x (js_sort cmp l)). apply sort_insert_sorted; [done| |done]. by rewrite js_sort_perm.
Qed.
End sorting.

Section previews.
Context (Date_parse : string → option Z).

Definition dated (job : Job) : Prop := is_Some (started Date_parse job) ∧ (isRunning job || isPending job) = true.

Lemma active_state job : (isRunning job || isPending job) = true → job_state job = Running ∨ job_state job = Pending.
Proof. unfold isRunning, isPending. unfold state_eqb; do 2 case_bool_decide; auto; discriminate. Qed.

(** [a] may be listed before [b]: no queued operation before one in progress, no older one before a newer one. *)
Definition listed_before (a b : Job) : Prop :=
  (isRunning b = true → isRunning a = true) ∧
  (job_state a = job_state b → ∀ x y, started Date_parse a = Some x → started Date_parse b = Some y → (y ≤ x)%Z).

Local Ltac state_facts :=
  rewrite ?(bool_decide_eq_true_2 _ (eq_refl _)), ?(bool_decide_eq_false_2 (Running = Pending)), ?(bool_decide_eq_false_2 (Pending = Running)) by done; cbn.

Lemma compare_listed a b : dated a → dated b → ((compare_jobs Date_parse a b ≤ 0)%Z ↔ listed_before a b).
Proof.
  intros [[x Hx] Ha%active_state] [[y Hy] Hb%active_state]. unfold compare_jobs, listed_before, isRunning, state_eqb. rewrite Hx, Hy.
  destruct Ha as [->| ->], Hb as [->| ->];
    state_facts;
    (split; [intros H; split; [done || lia|intros E ?? [= <-] [= <-]; first [lia|discriminate E]]|
             intros [H1 H2]; first [lia | by specialize (H1 eq_refl) | specialize (H2 eq_refl _ _ eq_refl eq_refl); lia]]).
Qed.

Lemma listed_total a b : dated a → dated b → listed_before a b ∨ listed_before b a.
Proof.
  intros [[x Hx] Ha%active_state] [[y Hy] Hb%active_state]. unfold listed_before, isRunning. rewrite Hx, Hy.
  destruct (Z.le_ge_cases x y), Ha as [->| ->], Hb as [->| ->];
    state_facts; naive_solver lia.
Qed.

Lemma listed_trans a b c : dated a → dated b → dated c → listed_before a b → listed_before b c → listed_before a c.
Proof.
  intros [[x Hx] Ha%active_state] [[y Hy] Hb%active_state] [[z Hz] Hc%active_state] [H1 H2] [H3 H4]. unfold listed_before, isRunning in *.
  split; [auto|]. intros Eac x' z' [= ->]%(eq_trans (eq_sym Hx)) [= ->]%(eq_trans (eq_sym Hz)).
  destruct Ha as [Ea|Ea], Hb as [Eb|Eb], Hc as [Ec|Ec]; rewrite ?Ea, ?Eb, ?Ec in *; cbn in *; try done;
    try (specialize (H2 eq_refl _ _ Hx Hy); specialize (H4 eq_refl _ _ Hy Hz); lia); try (by specialize (H3 eq_refl)); by specialize (H1 eq_refl).
Qed.

(** The operations of the stream the panel speaks of. *)
Definition shown_job (job : Job) : bool := negb (String.eqb (job_action job) "vm.screenshot") && (isRunning job || isPending job).

Lemma active_perm p : active_jobs Date_parse p ≡ₚ List.filter shown_job (NotificationStream.data (jobs_resource p)).
Proof. apply js_sort_perm. Qed.

Lemma active_sorted p : (∀ job, job ∈ active_jobs Date_parse p → is_Some (started Date_parse job)) → StronglySorted listed_before (active_jobs Date_parse p).
Proof.
  intros Hd. assert (Forall dated (active_jobs Date_parse p)) as Hall.
  { rewrite Forall_forall. intros job Hj. split; [by apply Hd|]. rewrite active_perm in Hj. apply list_elem_of_In, filter_In in Hj as [_ Hj].
    unfold shown_job in Hj. by apply andb_prop in Hj as [_ ?]. }
  assert (StronglySorted (λ a b, (compare_jobs Date_parse a b ≤ 0)%Z) (active_jobs Date_parse p)) as Hs.
  { apply (js_sort_sorted _ dated).
    - intros a b Ha Hb. rewrite !compare_listed by done. by apply listed_total.
    - intros a b c Ha Hb Hc. rewrite !compare_listed by done. by apply listed_trans.
    - unfold active_jobs in Hall. by rewrite js_sort_perm in Hall. }
  induction Hs as [|a l Hs IH Ha]; [constructor|]. apply Forall_cons in Hall as [Hda Hall]. constructor; [apply IH; [|done]; intros; apply Hd; by right|].
  rewrite Forall_forall in Ha, Hall |- *. intros b Hb. apply compare_listed; auto.
Qed.
End previews.

Lemma StronglySorted_List_filter {A} (R : A → A → Prop) q l : StronglySorted R l → StronglySorted R (List.filter q l).
Proof.
  induction 1 as [|x l Hs IH Hx]; [constructor|]. cbn. destruct (q x); [|done]. constructor; [done|].
  rewrite Forall_forall in Hx |- *. intros y [Hy _]%list_elem_of_In%filter_In. apply Hx. by apply list_elem_of_In.
Qed.

(** The operation of the last notification, in the stream's version if the stream has it. *)
Lemma latest_known p t : told p ≫= n_job = Some t → ∃ first, latest_job p = Some first ∧ job_id first = job_id t ∧
  (NoDup (job_id <$> NotificationStream.data (jobs_resource p)) →
   ∀ job, job ∈ NotificationStream.data (jobs_resource p) → job_id job = job_id t → first = job).
Proof.
  intros Et. unfold latest_job. rewrite Et. set (data := NotificationStream.data _). change (List.find _ data) with (find_job (job_id t) data).
  eexists. split; [done|]. split; [destruct (find_job (job_id t) data) eqn:Ef; cbn; [by apply find_job_id in Ef as [? _]|done]|].
  intros Hnd job Hjob E. by rewrite <- E, (find_job_in data job Hnd Hjob).
Qed.

(** The panel previews at most two operations, one if a message is shown. They are the first of a list
    without repetition that holds every operation that is in progress or queued, but for screenshots, and beside
    these only the operation of the last notification. That one comes first, in the version of the event stream if
    the stream has it; the others follow with those in progress before the queued ones, and newer before older ones. *)
Theorem panel_previews Date_parse p :
  NoDup (job_id <$> NotificationStream.data (jobs_resource p)) →
  (∀ job, job ∈ active_jobs Date_parse p → is_Some (started Date_parse job)) →
  ∃ hidden, candidates Date_parse p = (previews Date_parse p ++ hidden)%list ∧
    (length (previews Date_parse p) ≤ if truthy (told_error p) then 1 else 2)%nat ∧
    NoDup (job_id <$> candidates Date_parse p) ∧
    (∀ job, job ∈ NotificationStream.data (jobs_resource p) → shown_job job = true → job ∈ candidates Date_parse p) ∧
    match told p ≫= n_job with
    | None => StronglySorted (listed_before Date_parse) (candidates Date_parse p) ∧ Forall (λ job, shown_job job = true) (candidates Date_parse p)
    | Some t => ∃ first rest, candidates Date_parse p = first :: rest ∧ job_id first = job_id t ∧
        (∀ job, job ∈ NotificationStream.data (jobs_resource p) → job_id job = job_id t → first = job) ∧
        StronglySorted (listed_before Date_parse) rest ∧ Forall (λ job, shown_job job = true) rest
    end.
Proof.
  intros Hnd Hd. set (act := active_jobs Date_parse p). set (data := NotificationStream.data (jobs_resource p)) in *.
  pose proof (active_sorted Date_parse p Hd) as Hs. pose proof (active_perm Date_parse p) as Hp. fold act data in Hs, Hp.
  assert (NoDup (job_id <$> act)) as Hact by (rewrite Hp; by apply ids_filter).
  assert (Forall (λ job, shown_job job = true) act) as Hall.
  { rewrite Hp, Forall_forall. intros job Hj. by apply list_elem_of_In, filter_In in Hj as [_ ?]. }
  assert (∀ job, job ∈ data → shown_job job = true → job ∈ act) as Hin.
  { intros job Hj Hq. rewrite Hp. by apply list_elem_of_In, filter_In; rewrite <- list_elem_of_In. }
  exists (drop (if truthy (told_error p) then 1 else 2) (candidates Date_parse p)). split; [unfold previews; by rewrite take_drop|].
  split; [unfold previews; rewrite length_take; lia|].
  destruct (told p ≫= n_job) as [t|] eqn:Et.
  - destruct (latest_known p t Et) as (first & El & Eid & Hfirst).
    unfold candidates. rewrite El. fold act. split; [|split].
    + cbn. apply NoDup_cons. split; [|by apply ids_filter]. intros (j & Ej & [_ Hj]%list_elem_of_In%filter_In)%list_elem_of_fmap.
      rewrite <- Ej, String.eqb_refl in Hj. done.
    + intros job Hj Hq. destruct (String.eqb_spec (job_id job) (job_id first)) as [E|E].
      * rewrite (Hfirst Hnd job); [by left|done|congruence].
      * right. apply list_elem_of_In, filter_In. rewrite <- list_elem_of_In. split; [auto|]. by rewrite (proj2 (String.eqb_neq _ _)).
    + eexists _, _. split; [done|]. split; [done|]. split; [by apply Hfirst|]. split; [by apply StronglySorted_List_filter|].
      rewrite Forall_forall in Hall |- *. intros j [Hj _]%list_elem_of_In%filter_In. apply Hall. by apply list_elem_of_In.
  - unfold candidates, latest_job. rewrite Et. fold act. done.
Qed.

(** ** Instances *)

Definition activity_sample (id action created : string) (st : JobState) : Job := mkJob action created None None id "" [] None None st "web".
Definition activity_samples : list Job := [activity_sample "j1" "vm.start" "1" Succeeded; activity_sample "j2" "vm.hardware" "2" Pending; activity_sample "j3" "vm.stop" "3" Running].

Lemma activity_pages_witness :
  ∃ pg, listJobs id id (λ _, 0%Z) activity_samples 1 PAGE_SIZE "active" "" "" = Some pg ∧ pg_page pg = 1%nat.
Proof.
  destruct (activity_pages id [] id id (λ _, 0%Z) "" [] (User (ChangeFilter "active") "") 1 "active" "" "" activity_samples) as (pg & H1 & H2 & _); [legal_run| |].
  - apply list_elem_of_In; vm_compute; tauto.
  - exists pg. split; [done|]. rewrite H2. vm_compute in H1. by injection H1 as <-.
Defined.

Lemma panel_previews_witness :
  ∃ hidden, candidates (λ s, Some (Z.of_nat (String.length s))) (mkPanel true None (mkJobsResource activity_samples false "") None "/vms") =
    (activity_sample "j3" "vm.stop" "3" Running :: activity_sample "j2" "vm.hardware" "2" Pending :: hidden)%list.
Proof.
  destruct (panel_previews (λ s, Some (Z.of_nat (String.length s))) (mkPanel true None (mkJobsResource activity_samples false "") None "/vms")) as (hidden & H & _).
  - refine (bool_decide_unpack _ _). by vm_compute.
  - intros job _. unfold started. eauto.
  - exists hidden. exact H.
Defined.

(** The list shows an update of the hardware as "Save Hardware", but the server searches it under its own name, "Update VM hardware". *)
Lemma displayed_name_not_found :
  let job := activity_sample "j2" "vm.hardware" "2" Pending in
  activityName job = "Save Hardware" ∧
  matchesPage id id job (mkOptions 1 PAGE_SIZE "all" "Save Hardware" "") = false ∧
  matchesPage id id job (mkOptions 1 PAGE_SIZE "all" "Update VM" "") = true.
Proof. by vm_compute. Qed.
