(* ===== verification/Requests.v ===== *)
(** * Components that await one request

    The forms and rows that talk to the server directly are built alike: a handler marks the component busy,
    awaits a request, then updates the state on success or keeps the message of a failure, and in any case is
    busy no longer. A [component] is what one of them adds to that; its [step] is what they share, and so are
    the theorems of this file. *)

From S2P Require Import Prelude JsString Types Dom Widgets.

Section component.
(** Properties, local state, actions of the user, other events, continuations, results and outputs: requests and
    calls of the functions in the properties. *)
Context {P L A B K X R : Type}.

(** A handler changes the local state, with outputs; or does so and starts a request. *)
Inductive outcome := Do (l : L) (rs : list R) | Call (l : L) (k : K) (rs : list R).

Record component := mkComponent {
  act : P → bool → L → A → string → outcome;       (** the action with the text typed, if it has one *)
  ambient : P → L → B → L;
  after : K → X → L → L * list R;                  (** [try], after the request *)
  failed : string → L → L;                         (** [catch] *)
  finally : K → list R;                            (** [finally], but for [setBusy(false)] *)
  render : P → bool → L → node A
}.

Record state := mkState { props : P; busy : bool; local : L; awaiting : list K }.

(** [Answered n a] answers the [n]th request under way. *)
Inductive event :=
  | User (a : A) (text : string)
  | Ambient (b : B)
  | PropsChanged (p : P)
  | Answered (n : nat) (answer : X + string).

Definition user (e : event) : option A := match e with User a _ => Some a | _ => None end.

Definition mount (p : P) (l : L) : state := mkState p false l [].

Section step.
Context (c : component).

Definition view (s : state) : node A := render c (props s) (busy s) (local s).

Definition perform (o : outcome) (s : state) : state * list R :=
  match o with
  | Do l rs => (mkState (props s) (busy s) l (awaiting s), rs)
  | Call l k rs => (mkState (props s) true l (awaiting s ++ [k]), rs)
  end.

Definition answered (n : nat) (answer : X + string) (s : state) : state * list R :=
  match awaiting s !! n with
  | None => (s, [])
  | Some k =>
      let (l, rs) := match answer with inl x => after c k x (local s) | inr message => (failed c message (local s), []) end in
      (mkState (props s) false l (delete n (awaiting s)), rs ++ finally c k)
  end.

Definition step (s : state) (e : event) : state * list R :=
  match e with
  | User a text => perform (act c (props s) (busy s) (local s) a text) s
  | Ambient b => (mkState (props s) (busy s) (ambient c (props s) (local s) b) (awaiting s), [])
  | PropsChanged p => (mkState p (busy s) (local s) (awaiting s), [])
  | Answered n a => answered n a s
  end.

(** What a component promises: a control that starts a request is there only while it is idle. *)
Class Guarded : Prop := calls_idle p b l a text l' k rs :
  a ∈ offers (render c p b l) → act c p b l a text = Call l' k rs → b = false.

(** At most one request is under way, and the component is busy exactly meanwhile. *)
Definition one_call (s : state) : Prop :=
  match awaiting s with [] => busy s = false | [_] => busy s = true | _ => False end.

Lemma one_call_idle s : one_call s → busy s = false → awaiting s = [].
Proof. unfold one_call. intros H Hb. rewrite Hb in H. by destruct (awaiting s) as [|k [|]]. Qed.

Lemma one_call_one s n k : one_call s → awaiting s !! n = Some k → n = 0 ∧ awaiting s = [k].
Proof.
  unfold one_call. intros H Hn. destruct (awaiting s) as [|k' [|]]; [done| |done]. by apply list_lookup_singleton_Some in Hn as [-> ->].
Qed.

Lemma answered_one_call n answer s : one_call s → one_call (answered n answer s).1.
Proof.
  intros Hs. unfold answered. destruct (awaiting s !! n) as [k|] eqn:Hn; [|done]. destruct (one_call_one s n k Hs Hn) as [-> Hw].
  rewrite Hw. by destruct (match answer with inl x => _ | inr m => _ end).
Qed.

Lemma one_call_step `{!Guarded} s e : one_call s → (∀ a, user e = Some a → a ∈ offers (view s)) → one_call (step s e).1.
Proof.
  intros Hs Hu. destruct e as [a text| | |n answer]; try done; cbn [step]; [|by apply answered_one_call].
  destruct (act c (props s) (busy s) (local s) a text) as [l rs|l k rs] eqn:E; [done|].
  pose proof (calls_idle _ _ _ _ _ _ _ _ (Hu a eq_refl) E) as Hb. unfold one_call. cbn. by rewrite (one_call_idle s Hs Hb).
Qed.

Lemma legal_one_call `{!Guarded} p l es : legal step view user (mount p l) es → one_call (run step (mount p l) es).1.
Proof. apply legal_invariant; [done|apply one_call_step]. Qed.

(** A request the user starts: nothing was under way, and the component is busy from then on. *)
Lemma legal_calls `{!Guarded} p l es a text l' k rs :
  let s := (run step (mount p l) es).1 in
  legal step view user (mount p l) es → a ∈ offers (view s) → act c (props s) (busy s) (local s) a text = Call l' k rs →
  busy s = false ∧ awaiting s = [] ∧ step s (User a text) = (mkState (props s) true l' [k], rs).
Proof.
  cbn zeta. intros Hl Ha E. pose proof (legal_one_call _ _ _ Hl) as H1. set (s := (run step (mount p l) es).1) in *.
  pose proof (calls_idle _ _ _ _ _ _ _ _ Ha E) as Hb. cbn [step]. rewrite E. cbn. by rewrite (one_call_idle s H1 Hb).
Qed.

(** The answer releases the component, whatever it is. *)
Lemma legal_settles `{!Guarded} p l es n k answer :
  let s := (run step (mount p l) es).1 in
  legal step view user (mount p l) es → awaiting s !! n = Some k →
  step s (Answered n answer) =
    match answer with
    | inl x => (mkState (props s) false (after c k x (local s)).1 [], (after c k x (local s)).2 ++ finally c k)
    | inr message => (mkState (props s) false (failed c message (local s)) [], finally c k)
    end.
Proof.
  cbn zeta. intros Hl Hn. pose proof (legal_one_call _ _ _ Hl) as H1. set (s := (run step (mount p l) es).1) in *.
  destruct (one_call_one s n k H1 Hn) as [-> Hw]. cbn [step]. unfold answered. rewrite Hn, Hw.
  destruct answer as [x|m]; [by destruct (after c k x (local s))|done].
Qed.

(** What the local state says of a dialog, it says because the user opened it with a control that was there, and
    has said ever since. [T] is what is known of that control and of the component it was on. *)
Lemma dialog_asked (Q : L → Prop) `{!∀ d, Decision (Q d)} (T : P → bool → L → A → string → Prop) p l es :
  let init := mount p l in
  ¬ Q l →
  (∀ q b d a text d' rs, a ∈ offers (render c q b d) → act c q b d a text = Do d' rs ∨ (∃ k, act c q b d a text = Call d' k rs) →
     ¬ Q d → Q d' → T q b d a text) →
  (∀ q d b, ¬ Q d → ¬ Q (ambient c q d b)) → (∀ k x d, ¬ Q d → ¬ Q (after c k x d).1) → (∀ m d, ¬ Q d → ¬ Q (failed c m d)) →
  legal step view user init es → Q (local (run step init es).1) →
  ∃ es1 a text es2, es = es1 ++ User a text :: es2 ∧
    (let s1 := (run step init es1).1 in T (props s1) (busy s1) (local s1) a text) ∧
    ∀ es3, es3 `prefix_of` es2 → Q (local (run step init (es1 ++ User a text :: es3)).1).
Proof.
  intros init H0 Ha Hb Hk Hf Hl HQ.
  destruct (legal_since step view user (λ s, Q (local s)) (λ s e, ∃ a text, e = User a text ∧ T (props s) (busy s) (local s) a text) init)
    with (es := es) as (es1 & e & es2 & E & (a & text & -> & HT) & Hs); [done| |done|done|by exists es1, a, text, es2].
  intros s e Hu Hn HQ'. destruct e as [a text|b|q|n answer]; cbn in HQ'; try done.
  - specialize (Hu a eq_refl). exists a, text. split; [done|].
    destruct (act c (props s) (busy s) (local s) a text) as [d' rs|d' k rs] eqn:E; cbn in HQ'; eapply Ha; eauto.
  - by destruct (Hb _ _ _ Hn HQ').
  - unfold answered in HQ'. destruct (awaiting s !! n) as [k|]; [|done]. destruct answer as [x|m]; cbn in HQ'; [|by apply Hf in HQ'].
    specialize (Hk k x _ Hn). by destruct (after c k x (local s)).
Qed.
End step.
End component.
Arguments outcome : clear implicits.
Arguments component : clear implicits.
Arguments state : clear implicits.
Arguments event : clear implicits.
