(* ===== verification/Programs.v ===== *)
(** * Programs of commands

    A function of the server that talks to something outside (Redis, QEMU, the network of the host, the files)
    is a program: a tree of commands with what follows each answer. What is outside is known by what it
    documents of each command, a relation between the state before, the answer and the state after; any
    implementation that keeps to it is an instance of the class [Machine]. [safe] is what holds of a program
    whatever the answers: at its end, and after each of its commands, wherever its process is killed. *)

From S2P Require Import Prelude JsString.
Local Open Scope string_scope.

Inductive prog (C : Type → Type) (A : Type) : Type :=
  | Ret (a : A)
  | Do {B} (c : C B) (k : B → prog C A).
Arguments Ret {C A}.
Arguments Do {C A B}.

Fixpoint prog_bind {C A B} (f : A → prog C B) (p : prog C A) : prog C B :=
  match p with Ret a => f a | Do c k => Do c (λ r, prog_bind f (k r)) end.
#[export] Instance prog_mret {C} : MRet (prog C) := @Ret C.
#[export] Instance prog_mbind {C} : MBind (prog C) := @prog_bind C.

Definition ask {C B} (c : C B) : prog C B := Do c Ret.

(** The idiom [if err != nil { return nil, err }], in functions with a value ([⇐], [try]) and without one ([do]). *)
Definition checked {C A B E} (k : A → prog C (B + E)) (r : A + E) : prog C (B + E) :=
  match r with inl a => k a | inr e => Ret (inr e) end.
Notation "x ⇐ e ; f" := (prog_bind (checked (λ x, f)) e) (at level 20, e at level 100, f at level 200).
Notation "'try' e ; f" := (prog_bind (λ err, match err with Some err => Ret (inr err) | None => f end) e) (at level 20, e at level 100, f at level 200).
Notation "'do' e ; f" := (prog_bind (λ err, match err with Some err => Ret (Some err) | None => f end) e) (at level 20, e at level 100, f at level 200).

(** A loop that ends with the first error. *)
Fixpoint for_each {C A B E} (f : A → prog C (B + E)) (l : list A) : prog C (list B + E) :=
  match l with
  | [] => Ret (inl [])
  | a :: l => b ⇐ f a; bs ⇐ for_each f l; Ret (inl (b :: bs))
  end.

(** A loop whose errors are ignored. *)
Fixpoint for_all {C A B} (f : A → prog C B) (l : list A) : prog C unit :=
  match l with [] => Ret tt | a :: l => _ ← f a; for_all f l end.

(** A loop over a value, for its effects, that ends with the first error. *)
Fixpoint fold_checked {C A S E} (f : A → S → prog C (S + E)) (l : list A) (s : S) : prog C (S + E) :=
  match l with [] => Ret (inl s) | a :: l => s ⇐ f a s; fold_checked f l s end.

(** ** What is outside *)

Class Machine (C : Type → Type) (V : Type) (documented : ∀ B, C B → B → V → V → Prop) (M : Type) := {
  perform : ∀ B, C B → M → B * M;
  view : M → V;
  perform_documented : ∀ B (c : C B) m, documented B c (fst (perform B c m)) (view m) (view (snd (perform B c m)))
}.
Arguments perform {C V documented M _ B}.
Arguments view {C V documented M _}.

Section runs.
Context {C : Type → Type} {V : Type} {documented : ∀ B, C B → B → V → V → Prop}.

(** [I] holds at the beginning and after each command, and [Q] at the end, whatever the answers. *)
Fixpoint safe {A} (p : prog C A) (v : V) (I : V → Prop) (Q : A → V → Prop) : Prop :=
  I v ∧ match p with
        | Ret a => Q a v
        | @Do _ _ B c k => ∀ r v', documented B c r v v' → safe (k r) v' I Q
        end.
Definition wp {A} (p : prog C A) (v : V) (Q : A → V → Prop) : Prop := safe p v (λ _, True) Q.

Lemma safe_start {A} (p : prog C A) v I Q : safe p v I Q → I v.
Proof. by destruct p; intros []. Qed.

Lemma safe_mono {A} (p : prog C A) v (I I' : V → Prop) (Q Q' : A → V → Prop) :
  safe p v I Q → (∀ v, I v → I' v) → (∀ a v, I v → Q a v → Q' a v) → safe p v I' Q'.
Proof. intros H HI HQ. revert v H. induction p as [a|B c k IH]; intros v [H1 H2]; split; eauto. Qed.

Lemma safe_ret {A} (a : A) v I (Q : A → V → Prop) : I v → Q a v → safe (Ret a) v I Q.
Proof. done. Qed.

Lemma safe_ask {B} (c : C B) v I (Q : B → V → Prop) : I v → (∀ r v', documented B c r v v' → I v' ∧ Q r v') → safe (ask c) v I Q.
Proof. intros H1 H2. split; [done|]. intros r v' Hd. by apply H2. Qed.

Lemma safe_bind {A B} (f : A → prog C B) (p : prog C A) v I Q : safe p v I (λ a v, safe (f a) v I Q) → safe (prog_bind f p) v I Q.
Proof. revert v. induction p as [a|B' c k IH]; intros v [H1 H2]; [done|]. split; [done|]. eauto. Qed.

Lemma safe_checked {A B E} (k : A → prog C (B + E)) (p : prog C (A + E)) v I Q :
  safe p v I (λ r v, match r with inl a => safe (k a) v I Q | inr e => Q (inr e) v end) → safe (prog_bind (checked k) p) v I Q.
Proof. intros H. apply safe_bind. eapply safe_mono; [exact H|done|]. by intros [] ?. Qed.

(** The two idioms of errors without a value. *)
Lemma safe_do {E} (f : prog C (option E)) (p : prog C (option E)) v I Q :
  safe p v I (λ r v, match r with None => safe f v I Q | Some e => Q (Some e) v end) →
  safe (prog_bind (λ err, match err with Some err => Ret (Some err) | None => f end) p) v I Q.
Proof. intros H. apply safe_bind. eapply safe_mono; [exact H|done|]. by intros [] ?. Qed.
Lemma safe_try {A E} (f : prog C (A + E)) (p : prog C (option E)) v I Q :
  safe p v I (λ r v, match r with None => safe f v I Q | Some e => Q (inr e) v end) →
  safe (prog_bind (λ err, match err with Some err => Ret (inr err) | None => f end) p) v I Q.
Proof. intros H. apply safe_bind. eapply safe_mono; [exact H|done|]. by intros [] ?. Qed.

(** Two things at once. *)
Lemma safe_and {A} (p : prog C A) v I I' (Q Q' : A → V → Prop) :
  safe p v I Q → safe p v I' Q' → safe p v (λ v, I v ∧ I' v) (λ a v, Q a v ∧ Q' a v).
Proof. revert v. induction p as [a|B c k IH]; intros v [H1 H2] [H3 H4]; split; eauto. Qed.

Lemma safe_fold_checked {A S E} (f : A → S → prog C (S + E)) (R : list A → S → V → Prop) I (Q : S + E → V → Prop) l s v :
  R l s v →
  (∀ a l s v, R (a :: l) s v → safe (f a s) v I (λ r v, match r with inl s => R l s v | inr e => Q (inr e) v end)) →
  (∀ s v, R [] s v → I v ∧ Q (inl s) v) → safe (fold_checked f l s) v I Q.
Proof.
  intros H Hs He. revert s v H. induction l as [|a l IH]; intros s v H; cbn; [by apply He|].
  apply safe_checked. eapply safe_mono; [by apply Hs|done|]. intros [s'|e] v' _ H'; [by apply IH|done].
Qed.

(** ** Runs on a machine *)

Context {M : Type} `{!Machine C V documented M}.

Fixpoint exec {A} (p : prog C A) (m : M) : A * M :=
  match p with Ret a => (a, m) | Do c k => let '(r, m') := perform c m in exec (k r) m' end.

(** The process is killed after [n] commands. *)
Fixpoint killed {A} (n : nat) (p : prog C A) (m : M) : M :=
  match n, p with S n, Do c k => let '(r, m') := perform c m in killed n (k r) m' | _, _ => m end.

Lemma safe_last {A} (p : prog C A) v I Q : safe p v I Q → safe p v I (λ a v, I v ∧ Q a v).
Proof. intros H. eapply safe_mono; [exact H|done..]. Qed.

Lemma safe_exec {A} (p : prog C A) m I Q : safe p (view m) I Q → I (view (exec p m).2) ∧ Q (exec p m).1 (view (exec p m).2).
Proof.
  intros H%safe_last. revert m H. induction p as [a|B c k IH]; intros m [H1 H2]; [done|]. cbn.
  pose proof (perform_documented B c m) as Hd. destruct (perform c m) as [r m'] eqn:E. apply IH. by apply H2.
Qed.

Lemma safe_killed {A} n (p : prog C A) m I Q : safe p (view m) I Q → I (view (killed n p m)).
Proof.
  revert n m. induction p as [a|B c k IH]; intros [|n] m H; try exact (safe_start _ _ _ _ H).
  destruct H as [H1 H2]. cbn. pose proof (perform_documented B c m) as Hd. destruct (perform c m) as [r m'] eqn:E.
  apply IH. by apply H2.
Qed.

Lemma exec_bind {A B} (f : A → prog C B) (p : prog C A) m : exec (prog_bind f p) m = exec (f (exec p m).1) (exec p m).2.
Proof. revert m. induction p as [a|B' c k IH]; intros m; cbn; [done|]. destruct (perform c m). apply IH. Qed.
End runs.
Arguments safe {C V} documented {A}.
Arguments wp {C V} documented {A}.

(** One command of a program, with its answers. *)
Tactic Notation "command" "as" ident(r) ident(v) ident(H) := apply safe_ask; [|intros r v H; cbn in H].

(** ** Names that are not in use *)

Fixpoint strokes (n : nat) : string := match n with O => "" | Datatypes.S n => String "i" (strokes n) end.
Definition fresh_id (issued : gset string) : string := strokes (Datatypes.S (max_list (String.length <$> elements issued))).

Lemma strokes_length n : String.length (strokes n) = n.
Proof. induction n; cbn; congruence. Qed.

Lemma fresh_id_fresh X : fresh_id X ∉ X.
Proof.
  intros H%elem_of_elements. pose proof (list_elem_of_fmap_2 String.length _ _ H) as Hl.
  apply max_list_elem_of_le in Hl. unfold fresh_id in Hl at 1. rewrite strokes_length in Hl. lia.
Qed.

Lemma fresh_id_longer X pre : pre ++ fresh_id X ∉ X.
Proof.
  intros H%elem_of_elements. pose proof (list_elem_of_fmap_2 String.length _ _ H) as Hl.
  apply max_list_elem_of_le in Hl. rewrite str_length_app in Hl. unfold fresh_id in Hl at 1. rewrite strokes_length in Hl. lia.
Qed.
