(* ===== verification/Passwords.v ===== *)
(** * The password of an account, on the server

    [changePassword] of [src/pkg/api/authentication.go] with [Authenticate] and [SetPassword] of
    [src/pkg/engine/users.go], as programs of commands to the database and to what makes hashes and tokens. *)

From S2P Require Import Prelude JsString Json Programs.
Local Open Scope string_scope.

(** ** Commands

    A user is known by the hash of the password. [Hash] is bcrypt, [Issue] makes a token for a user. *)

Inductive cmd : Type → Type :=
  | OpenDB : cmd (option string)
  | GetUserByUsername (username : string) : cmd (option string + string)
  | UpdateUserPassword (username hash : string) : cmd (option string)
  | Hash (password : string) : cmd (string + string)
  | Issue (username hash : string) : cmd (string + string).

Notation prog := (Programs.prog cmd).

(** The hashes of the users. *)
Notation users := (gmap string string).

Section source.
(** [bcrypt.CompareHashAndPassword]. *)
Context (VerifyPassword : string → string → bool).

(** What the commands document. A password of more than 72 bytes has no hash; an error does not say whether the password
    was updated. *)
Definition documented B (c : cmd B) : B → users → users → Prop :=
  match c in cmd B return B → users → users → Prop with
  | OpenDB => λ _ s s', s' = s
  | GetUserByUsername name => λ r s s', s' = s ∧ match r with inl u => u = s !! name | inr _ => True end
  | UpdateUserPassword name hash => λ r s s', let updated := alter (λ _, hash) name s in
      match r with None => s' = updated | Some _ => s' = s ∨ s' = updated end
  | Hash password => λ r s s', s' = s ∧ match r with inl h => VerifyPassword h password = true ∧ (String.length password ≤ 72)%nat | inr _ => True end
  | Issue _ _ => λ r s s', s' = s ∧ match r with inl t => t ≠ "" | inr _ => True end
  end.

(** ** The source *)

Definition Authenticate (username password : string) : prog (string + string) :=
  try ask OpenDB;
  u ⇐ ask (GetUserByUsername username);
  Ret (match u with
       | Some hash => if VerifyPassword hash password then inl hash else inr "invalid credentials"
       | None => inr "invalid credentials"
       end).

Definition SetPassword (username password : string) : prog (option string) :=
  prog_bind (λ r : string + string, match r with
    | inr e => Ret (Some e)
    | inl hash => do ask OpenDB; ask (UpdateUserPassword username hash)
    end) (ask (Hash password)).

(** [readJSON]: a body of more than a mebibyte is cut, and not read. *)
Definition readable (body : string) : bool := (Z.of_nat (String.length body) <=? 1048576)%Z.

(** The status and the JSON of an answer. *)
Notation answer := (Z * json)%type.
Definition error (status : Z) (message : string) : prog answer := Ret (status, JObj [("error", JStr message)]).

(** [claims]: the name of the user the request was let in for. [body]: its text, with the two passwords it holds. *)
Definition changePassword (claims : option string) (body current_password new_password : string) : prog answer :=
  match claims with
  | None => error 401 "unauthorized"
  | Some subject =>
      if negb (readable body) then error 400 "invalid request" else
      if (String.length new_password <? 8)%nat then error 400 "new password must be at least 8 characters" else
      prog_bind (λ r : string + string, match r with
        | inr _ => error 401 "current password is incorrect"
        | inl _ =>
            prog_bind (λ e : option string, match e with
              | Some e => error 500 e
              | None =>
                  prog_bind (λ r : string + string, match r with
                    | inr e => error 500 e
                    | inl user =>
                        prog_bind (λ r : string + string, match r with
                          | inr e => error 500 e
                          | inl t => Ret (200%Z, JObj [("token", JStr t)])
                          end) (ask (Issue subject user))
                    end) (Authenticate subject new_password)
              end) (SetPassword subject new_password)
        end) (Authenticate subject current_password)
  end.

(** ** What it comes to *)

(** The password of a user. *)
Definition has_password (s : users) (name password : string) : Prop := ∃ h, s !! name = Some h ∧ VerifyPassword h password = true.

(** An answer to a change of the password of [name], of the users [s0]. *)
Definition answered (s0 : users) (name body current next : string) (a : answer) (s : users) : Prop :=
  (∀ other, other ≠ name → s !! other = s0 !! other) ∧
  ((∃ t, a = (200%Z, JObj [("token", JStr t)]) ∧ t ≠ "" ∧ has_password s0 name current ∧ has_password s name next ∧ (String.length next ≤ 72)%nat) ∨
   (∃ e, (a.1 = 401%Z ∨ a.1 = 400%Z ∧ (readable body = false ∨ (String.length next < 8)%nat)) ∧ a.2 = JObj [("error", JStr e)] ∧ s = s0) ∨
   (∃ e, a = (500%Z, JObj [("error", JStr e)]) ∧ has_password s0 name current ∧ (s = s0 ∨ has_password s name next))).

Notation safe := (@Programs.safe cmd users documented _).

Lemma safe_Authenticate name password (s : users) (Q : string + string → users → Prop) :
  (∀ e, Q (inr e) s) → (∀ h, s !! name = Some h → VerifyPassword h password = true → Q (inl h) s) →
  safe (Authenticate name password) s (λ _, True) Q.
Proof.
  intros He Hh. apply safe_try, safe_ask; [done|]. intros [e|] s' ->; (split; [done|]); [by apply He|].
  apply safe_checked, safe_ask; [done|]. intros [u|e] s'' [-> Hu]; (split; [done|]); [|by apply He]. subst u. apply safe_ret; [done|].
  destruct (s !! name) as [h|] eqn:E; [|done]. destruct (VerifyPassword h password) eqn:Ev; [by apply Hh|done].
Qed.

Lemma other_users (s : users) (name h other : string) : other ≠ name → alter (λ _, h) name s !! other = s !! other.
Proof. intros Hn. by apply lookup_alter_ne. Qed.

Lemma safe_SetPassword name password (s : users) (Q : option string → users → Prop) :
  (∀ e, Q (Some e) s) →
  (∀ r h, VerifyPassword h password = true → (String.length password ≤ 72)%nat → Q r (alter (λ _, h) name s)) →
  safe (SetPassword name password) s (λ _, True) Q.
Proof.
  intros He Hs. apply safe_bind, safe_ask; [done|]. intros [h|e] s' [-> Hh]; (split; [done|]); [|by apply safe_ret]. destruct Hh as [Hv Hl].
  apply safe_do, safe_ask; [done|]. intros [e|] s' ->; (split; [done|]); [by apply He|].
  apply safe_ask; [done|]. intros [e|] s'; cbn [documented]; [intros [->| ->]|intros ->]; (split; [done|]); auto.
Qed.

Lemma safe_changePassword name body current next (s : users) :
  safe (changePassword (Some name) body current next) s (λ _, True) (answered s name body current next).
Proof.
  assert (∀ st e, (st = 401%Z ∨ st = 400%Z ∧ (readable body = false ∨ (String.length next < 8)%nat)) → safe (error st e) s (λ _, True) (answered s name body current next)) as Hrefused.
  { intros st e Hst. apply safe_ret; [done|]. split; [done|]. right; left. by exists e. }
  unfold changePassword. destruct (readable body) eqn:Eb; cbn [negb]; [|apply Hrefused; auto].
  destruct (Nat.ltb_spec (String.length next) 8); [apply Hrefused; auto|].
  apply safe_bind, safe_Authenticate; [intros e; apply Hrefused; auto|]. intros h0 Hh0 Hv0. assert (has_password s name current) as Hcur by (by exists h0).
  assert (∀ e s', (∀ other, other ≠ name → s' !! other = s !! other) → s' = s ∨ has_password s' name next →
    safe (error 500 e) s' (λ _, True) (answered s name body current next)) as Hfailed.
  { intros e s' Ho Hp. apply safe_ret; [done|]. split; [done|]. right; right. by exists e. }
  apply safe_bind, safe_SetPassword; [intros e; apply Hfailed; auto|]. intros r h Hv Hl.
  assert (has_password (alter (λ _, h) name s) name next) as Hnext by (exists h; split; [by rewrite lookup_alter_eq, Hh0|done]).
  assert (∀ other, other ≠ name → alter (λ _, h) name s !! other = s !! other) as Ho by (intros; by apply other_users).
  destruct r as [e|]; [apply Hfailed; auto|].
  apply safe_bind, safe_Authenticate; [intros e; apply Hfailed; auto|]. intros h1 _ _.
  apply safe_bind, safe_ask; [done|]. intros [t|e] s' [-> Ht]; (split; [done|]); [|apply Hfailed; auto].
  apply safe_ret; [done|]. split; [done|]. left. exists t. auto.
Qed.

(** Nothing fails but what has to. *)
Definition succeeds {B} (c : cmd B) : B → Prop :=
  match c in cmd B return B → Prop with
  | OpenDB | UpdateUserPassword _ _ => λ r, r = None
  | GetUserByUsername _ | Issue _ _ => λ r, ∃ x, r = inl x
  | Hash password => λ r, (String.length password ≤ 72)%nat → ∃ h, r = inl h
  end.
Definition reliable {M} `{!Machine cmd users documented M} : Prop := ∀ B (c : cmd B) (m : M), succeeds c (perform c m).1.

Section machine.
Context {M} `{!Machine cmd users documented M}.

Lemma exec_command {B} (c : cmd B) (m : M) : exec (ask c) m = perform c m.
Proof. cbn. by destruct (perform c m). Qed.

Lemma exec_Authenticate name password (m : M) : reliable → has_password (view m) name password →
  ∃ h, (exec (Authenticate name password) m).1 = inl h ∧ view (exec (Authenticate name password) m).2 = view m ∧ view m !! name = Some h.
Proof.
  intros Hr (h & Hh & Hv). exists h. unfold Authenticate. rewrite exec_bind, exec_command. pose proof (Hr _ OpenDB m) as H1.
  pose proof (perform_documented _ OpenDB m) as D1. destruct (perform OpenDB m) as [r1 m1]. cbn in H1, D1. subst r1. cbn [fst snd].
  rewrite exec_bind, exec_command. destruct (Hr _ (GetUserByUsername name) m1) as [u H2].
  pose proof (perform_documented _ (GetUserByUsername name) m1) as [D2 Du]. destruct (perform (GetUserByUsername name) m1) as [r2 m2].
  cbn [fst snd] in *. subst r2 u. cbn. rewrite D1, Hh, Hv. split_and!; [done|congruence|done].
Qed.

Lemma exec_SetPassword name password (m : M) : reliable → (String.length password ≤ 72)%nat →
  (exec (SetPassword name password) m).1 = None ∧
  ∃ h, VerifyPassword h password = true ∧ view (exec (SetPassword name password) m).2 = alter (λ _, h) name (view m).
Proof.
  intros Hr Hl. unfold SetPassword. rewrite exec_bind, exec_command. destruct (Hr _ (Hash password) m Hl) as [h H1].
  pose proof (perform_documented _ (Hash password) m) as [D1 Dh]. destruct (perform (Hash password) m) as [r1 m1]. cbn [fst snd] in *. subst r1.
  rewrite exec_bind, exec_command. pose proof (Hr _ OpenDB m1) as H2. pose proof (perform_documented _ OpenDB m1) as D2.
  destruct (perform OpenDB m1) as [r2 m2]. cbn in H2, D2. subst r2. cbn [fst snd]. rewrite exec_command.
  pose proof (Hr _ (UpdateUserPassword name h) m2) as H3. pose proof (perform_documented _ (UpdateUserPassword name h) m2) as D3.
  destruct (perform (UpdateUserPassword name h) m2) as [r3 m3]. cbn in H3, D3. subst r3. split; [done|]. exists h. split; [apply Dh|]. cbn. congruence.
Qed.

Lemma exec_changePassword name body current next (m : M) : reliable → readable body = true → (8 ≤ String.length next ≤ 72)%nat →
  has_password (view m) name current → (exec (changePassword (Some name) body current next) m).1.1 = 200%Z.
Proof.
  intros Hr Hb [H8 H72] Hcur. unfold changePassword. rewrite Hb. rewrite (proj2 (Nat.ltb_ge _ _)) by done. cbn [negb].
  rewrite exec_bind. destruct (exec_Authenticate name current m Hr Hcur) as (h0 & -> & V1 & Hh0). set (m1 := (exec (Authenticate name current) m).2) in *.
  rewrite exec_bind. destruct (exec_SetPassword name next m1 Hr H72) as (-> & h & Hv & V2). set (m2 := (exec (SetPassword name next) m1).2) in *.
  assert (has_password (view m2) name next) as Hnext.
  { exists h. split; [|done]. by rewrite V2, V1, lookup_alter_eq, Hh0. }
  rewrite exec_bind. destruct (exec_Authenticate name next m2 Hr Hnext) as (h1 & -> & _ & _). set (m3 := (exec (Authenticate name next) m2).2) in *.
  rewrite exec_bind, exec_command. destruct (Hr _ (Issue name h1) m3) as [t Ht]. destruct (perform (Issue name h1) m3) as [r m4]. cbn in Ht. by subst r.
Qed.
End machine.
End source.

(** ** Users in memory *)

(** A hash that is the password itself. *)
Definition mem_perform B (c : cmd B) (s : users) : B * users :=
  match c in cmd B return B * users with
  | OpenDB => (None, s)
  | GetUserByUsername name => (inl (s !! name), s)
  | UpdateUserPassword name hash => (None, alter (λ _, hash) name s)
  | Hash password => (if (String.length password <=? 72)%nat then inl password else inr "bcrypt: password length exceeds 72 bytes", s)
  | Issue name _ => (inl ("token of " ++ name), s)
  end.
#[export, program] Instance memory_users : Machine cmd users (documented String.eqb) users := { perform := mem_perform; view s := s }.
Next Obligation.
  intros B []; cbn; try done. destruct (Nat.leb_spec (String.length password) 72); cbn; [|done]. split; [done|]. split; [apply String.eqb_refl|lia].
Qed.
