(* ===== verification/Account.v ===== *)
(** * The account ([src/web/src/components/ApiKeys.tsx], [pages/Profile.tsx])

    The API keys of the account, created, shown once and revoked, and the form that changes its password, as
    components that await one request. What the server does to change a password is in [Passwords]. *)

From S2P Require Import Prelude JsString JsNumber Json Types UseResource Client Url Api ApiCorrect Dom Widgets Requests.
From S2P Require Programs Passwords.
Local Open Scope string_scope.

(** ** API keys *)

Module ApiKeys.

(** The parts of the state that are not [busy]. *)
Record keys_state := mkKeys { name : string; error : string; created : option (APIKey * string); revoking : option APIKey }.

Inductive action := SubmitCreate | TypeName | Done | AskRevoke (key : APIKey) | CancelRevoke | ConfirmRevoke | Retry.

Inductive request := CreateAPIKey (name : string) | RevokeAPIKey (id : string) | RefreshKeys.
Inductive continuation := Creating | Revoking.
(** What a request resolves with. *)
Inductive result := Created (key : APIKey) (token : string) | Revoked.

Definition create (busy : bool) (s : keys_state) : outcome keys_state continuation request :=
  if negb (truthy (trim (name s))) || busy then Do s []
  else Call (mkKeys (name s) "" (created s) (revoking s)) Creating [CreateAPIKey (trim (name s))].

Definition revoke (busy : bool) (s : keys_state) : outcome keys_state continuation request :=
  match revoking s with
  | Some key => if busy then Do s [] else Call (mkKeys (name s) "" (created s) (revoking s)) Revoking [RevokeAPIKey (key_id key)]
  | None => Do s []
  end.

Definition handle (keys : @UseResource.view (list APIKey)) (busy : bool) (s : keys_state) (a : action) (text : string) :
    outcome keys_state continuation request :=
  match a with
  | SubmitCreate => create busy s
  | TypeName => Do (mkKeys text (error s) (created s) (revoking s)) []
  | Done => Do (mkKeys (name s) (error s) None (revoking s)) []
  | AskRevoke key => Do (mkKeys (name s) (error s) (created s) (Some key)) []
  | CancelRevoke => Do (mkKeys (name s) (error s) (created s) None) []
  | ConfirmRevoke => revoke busy s
  | Retry => Do s [RefreshKeys]
  end.

Definition settled (k : continuation) (x : result) (s : keys_state) : keys_state * list request :=
  match k, x with
  | Creating, Created key token => (mkKeys "" (error s) (Some (key, token)) (revoking s), [RefreshKeys])
  | Revoking, Revoked => (mkKeys (name s) (error s) (created s) None, [RefreshKeys])
  | _, _ => (s, [])
  end.

(** What the handlers ask of the server. *)
Lemma handle_outcome keys b s a text :
  match handle keys b s a text with
  | Do _ rs => ∀ r, r ∈ rs → r = RefreshKeys
  | Call _ k rs => b = false ∧
      (a = SubmitCreate ∧ rs = [CreateAPIKey (trim (name s))] ∨ a = ConfirmRevoke ∧ ∃ key, revoking s = Some key ∧ rs = [RevokeAPIKey (key_id key)])
  end.
Proof.
  assert (∀ r, r ∈ @nil request → r = RefreshKeys) as Hnil by by intros r ?%not_elem_of_nil.
  destruct a; cbn; try exact Hnil.
  - unfold create. destruct (truthy (trim (name s))), b; cbn; auto.
  - unfold revoke. destruct (revoking s), b; cbn; eauto 6.
  - by intros r ->%list_elem_of_singleton.
Qed.

Section view.
Context `{Hdialogs : !AlertDialogs} (toLocaleString : Z → string).

(** [formatDate], of seconds. *)
Definition formatDate (seconds : Z) : string := if (seconds =? 0)%Z then "Never" else toLocaleString (seconds * 1000)%Z.

Definition key_row (busy : bool) (key : APIKey) : node action :=
  box "div" [label "span" (key_name key); label "Badge" (key_prefix key ++ "…");
             label "p" ("Created " ++ formatDate (key_created_at key) ++ " · Last used " ++ formatDate (key_last_used_at key));
             button "Revoke…" busy (AskRevoke key)].

Definition render (keys : @UseResource.view (list APIKey)) (busy : bool) (s : keys_state) : node action :=
  box "div"
    (JobNotice (error s) ++
     match created s with
     | Some (key, token) =>
         [box "NoticeBanner" [label "p" "Copy your new API key now; it will not be shown again."; label "code" token;
            label "CopyButton" token; label "p" ("Use it as a bearer token: Authorization: Bearer " ++ key_prefix key ++ "…");
            button "Done" false Done]]
     | None => []
     end ++
     [box "form" [El "EntryRow" [("id", "api-key-name"); ("value", name s)] false [TypeName] [];
                  button (if busy then "Creating…" else "Create API Key") (negb (truthy (trim (name s))) || busy) SubmitCreate]] ++
     ResourceNotice keys "API keys" Retry ++
     (key_row busy <$> UseResource.data keys) ++
     when (negb (UseResource.loading keys) && negb (truthy (UseResource.error keys)) && (length (UseResource.data keys) =? 0)%nat)
       [label "p" "No API keys yet. Create one above to access the API without signing in."] ++
     AlertDialog (mkAlert (match revoking s with Some _ => true | None => false end) busy
       ("Revoke " ++ (match revoking s with Some key => key_name key | None => "" end ||s "API key") ++ "?")
       "Any client using this key immediately loses access. This cannot be undone." "Revoke Key" CancelRevoke ConfirmRevoke))%list.

Definition ApiKeys : component (@UseResource.view (list APIKey)) keys_state action Empty_set continuation result request := {|
  act := handle; ambient _ s _ := s; after := settled; failed m s := mkKeys (name s) m (created s) (revoking s); finally _ := [];
  Requests.render := render |}.
Definition keys_start : keys_state := mkKeys "" "" None None.
Definition start (keys : @UseResource.view (list APIKey)) : state (@UseResource.view (list APIKey)) keys_state continuation := mount keys keys_start.

#[export] Instance ApiKeys_guarded : Guarded ApiKeys.
Proof. intros p b l a text l' k rs _ E. pose proof (handle_outcome p b l a text) as H. cbn in E. rewrite E in H. by destruct H. Qed.

Lemma keys_offers keys b s a : a ∈ offers (render keys b s) →
  match a with
  | AskRevoke key => key ∈ UseResource.data keys ∧ b = false
  | ConfirmRevoke => b = false
  | SubmitCreate => trim (name s) ≠ "" ∧ b = false
  | _ => True
  end.
Proof.
  intros H. unfold render in H. offered H; simplify_eq; try done.
  - apply orb_false_iff in Hon as [Hn%negb_false_iff%truthy_true Hb]. done.
  - apply offers_fmap in H as (key & Hk & H). unfold key_row in H. offered H; simplify_eq. by split.
Qed.
End view.

Section properties.
Context `{Hdialogs : !AlertDialogs} (toLocaleString : Z → string).
Notation C := (ApiKeys toLocaleString).
Notation events := (list (event (@UseResource.view (list APIKey)) action Empty_set result)).

#[export] Instance APIKey_eq_dec : EqDecision APIKey.
Proof. solve_decision. Defined.

(** The dialog that asks whether to revoke [key]. *)
Definition revocation_asked keys (es : events) (key : APIKey) : Prop :=
  ∃ es1 text es2, es = (es1 ++ User (AskRevoke key) text :: es2)%list ∧
    key ∈ UseResource.data (props (run (step C) (start keys) es1).1) ∧
    ∀ es3, es3 `prefix_of` es2 → revoking (local (run (step C) (start keys) (es1 ++ User (AskRevoke key) text :: es3)%list).1) = Some key.

Lemma handle_revoking keys b d a text d' :
  (match handle keys b d a text with Do l _ | Call l _ _ => l = d' end) →
  revoking d' = revoking d ∨ (∃ key, a = AskRevoke key ∧ revoking d' = Some key) ∨ revoking d' = None.
Proof. destruct a; cbn; unfold create, revoke; repeat case_match; intros <-; simplify_eq; cbn; eauto 6. Qed.

Lemma revoking_asked keys es key : legal (step C) (view C) user (start keys) es →
  revoking (local (run (step C) (start keys) es).1) = Some key → revocation_asked keys es key.
Proof.
  intros Hl Hr. destruct (dialog_asked C (λ d, revoking d = Some key) (λ q _ _ a _, a = AskRevoke key ∧ key ∈ UseResource.data q) keys keys_start es)
    as (es1 & a & text & es2 & -> & (-> & Hin) & Hs); [done| |by intros ??[]| | |done|done|by exists es1, text, es2].
  - intros q b d a text d' rs Ha%keys_offers E Hn Hd. destruct (handle_revoking q b d a text d') as [H|[(k' & -> & H)|H]]; [|congruence| |congruence].
    + change (act C q b d a text) with (handle q b d a text) in E. by destruct E as [->|[k ->]].
    + rewrite H in Hd. injection Hd as ->. by destruct Ha.
  - by intros [] [] d.
  - by intros m d.
Qed.

(** Keys are made with a name and revoked only when asked twice. In the component used through its
    controls, one request is under way at a time; a creation sends the name without the white space around it,
    which is not empty; a revocation is sent only by confirming a dialog that the user opened with the button
    of that key in the list, and that has asked about it since. *)
Theorem api_keys_requests keys es a text r :
  let s := (run (step C) (start keys) es).1 in
  legal (step C) (view C) user (start keys) es → a ∈ offers (view C s) → r ∈ snd (step C s (User a text)) → r ≠ RefreshKeys →
  busy s = false ∧ awaiting s = [] ∧ snd (step C s (User a text)) = [r] ∧ busy (fst (step C s (User a text))) = true ∧
  match r with
  | CreateAPIKey n => a = SubmitCreate ∧ n = trim (name (local s)) ∧ n ≠ ""
  | RevokeAPIKey id => a = ConfirmRevoke ∧ ∃ key, id = key_id key ∧ revocation_asked keys es key
  | RefreshKeys => True
  end.
Proof.
  cbn zeta. intros Hl Ha Hr Hne. pose proof (revoking_asked keys es) as Hask. set (s := (run (step C) (start keys) es).1) in *.
  pose proof (handle_outcome (props s) (busy s) (local s) a text) as Ho. change (handle _ _ _ a text) with (act C (props s) (busy s) (local s) a text) in Ho.
  destruct (act C (props s) (busy s) (local s) a text) as [l rs|l k rs] eqn:E.
  - cbn [step] in Hr. rewrite E in Hr. by apply Ho in Hr.
  - destruct (legal_calls C keys keys_start es a text l k rs Hl Ha E) as (Hb & Hw & Hs). fold (start keys) s in Hb, Hw, Hs. rewrite Hs in Hr |- *.
    apply keys_offers in Ha. cbn [fst snd] in *. destruct Ho as (_ & [[-> ->]|(-> & key & Hk & ->)]); apply list_elem_of_singleton in Hr as ->; split_and!; eauto; by destruct Ha.
Qed.

(** How the new key on show changes. *)
Lemma step_created s e :
  created (local (step C s e).1) = created (local s) ∨
  (∃ text, e = User Done text) ∧ created (local (step C s e).1) = None ∨
  ∃ n key token, e = Answered n (inl (Created key token)) ∧ awaiting s !! n = Some Creating ∧
    created (local (step C s e).1) = Some (key, token) ∧ snd (step C s e) = [RefreshKeys].
Proof.
  destruct e as [a text|[]|q|n answer]; [|by left|].
  - assert (match handle (props s) (busy s) (local s) a text with
            | Do l _ | Call l _ _ => created l = created (local s) ∨ a = Done ∧ created l = None end) as H.
    { destruct a; cbn; unfold create, revoke; repeat case_match; simplify_eq; cbn; auto. }
    change (handle _ _ _ a text) with (act C (props s) (busy s) (local s) a text) in H. cbn [step].
    destruct (act C (props s) (busy s) (local s) a text); cbn; destruct H as [H|[-> H]]; eauto.
  - cbn [step]. unfold answered. destruct (awaiting s !! n) as [k|] eqn:Hn; [|by left]. destruct answer as [[key token|]|m], k; try by left.
    right; right. by exists n, key, token.
Qed.

(** A new key is shown from the answer that brings it until it is dismissed. What the component shows as the
    new key was answered to its request to make one, the list was loaded again then, and it has been shown
    since; and nothing takes it away but its own button, or the next key. *)
Theorem api_key_shown keys es key token :
  let s := (run (step C) (start keys) es).1 in
  legal (step C) (view C) user (start keys) es → created (local s) = Some (key, token) →
  (∃ es1 n es2, es = (es1 ++ Answered n (inl (Created key token)) :: es2)%list ∧
     (let s1 := (run (step C) (start keys) es1).1 in
      awaiting s1 !! n = Some Creating ∧ snd (step C s1 (Answered n (inl (Created key token)))) = [RefreshKeys]) ∧
     ∀ es3, es3 `prefix_of` es2 → created (local (run (step C) (start keys) (es1 ++ Answered n (inl (Created key token)) :: es3)%list).1) = Some (key, token)) ∧
  ∀ e, created (local (fst (step C s e))) = Some (key, token) ∨ (∃ text, e = User Done text) ∨ ∃ n key' token', e = Answered n (inl (Created key' token')).
Proof.
  cbn zeta. intros Hl Hc. split.
  - destruct (legal_since (step C) (view C) user (λ s, created (local s) = Some (key, token))
      (λ s e, ∃ n, e = Answered n (inl (Created key token)) ∧ awaiting s !! n = Some Creating ∧ snd (step C s e) = [RefreshKeys]) (start keys)) with (es := es)
      as (es1 & e & es2 & E & (n & -> & Hk & Ho) & Hs); [done| |done|done|by exists es1, n, es2].
    intros s e _ Hn HQ. destruct (step_created s e) as [H|[[_ H]|(n & key' & token' & -> & Hw & H & Ho)]]; [congruence..|].
    rewrite H in HQ. injection HQ as -> ->. eauto.
  - intros e. destruct (step_created (run (step C) (start keys) es).1 e) as [H|[[H _]|(n & key' & token' & H & _)]]; [left; congruence|eauto..]. right; right; eauto.
Qed.
End properties.

(** *** Instances *)

#[export] Instance keys_action_eq_dec : EqDecision action.
Proof. solve_decision. Defined.

Definition sample_key : APIKey := mkAPIKey 1 "k1" 0 "CI" "maco_abcdefg" 0 "u1".
Definition sample_view : @UseResource.view (list APIKey) := UseResource.mkView [sample_key] "" false.
Notation keys_events := (list (event (@UseResource.view (list APIKey)) action Empty_set result)).
Definition sample_made : keys_events := [User TypeName " CI "; User SubmitCreate ""; Answered 0 (inl (Created sample_key "maco_secret"))].

Lemma api_keys_requests_witness :
  let es : keys_events := [User (AskRevoke sample_key) ""] in
  ∃ key, "k1" = key_id key ∧ revocation_asked (Hdialogs := plain_dialogs) (λ _, "") sample_view es key.
Proof.
  intros es. destruct (api_keys_requests (Hdialogs := plain_dialogs) (λ _, "") sample_view es ConfirmRevoke "" (RevokeAPIKey "k1")) as (_ & _ & _ & _ & _ & H).
  - legal_run.
  - apply list_elem_of_In; vm_compute; tauto.
  - by left.
  - done.
  - exact H.
Defined.

Lemma api_key_shown_witness :
  ∃ es1 n es2, sample_made = (es1 ++ Answered n (inl (Created sample_key "maco_secret")) :: es2)%list.
Proof.
  destruct (api_key_shown (Hdialogs := plain_dialogs) (λ _, "") sample_view sample_made sample_key "maco_secret") as [(es1 & n & es2 & H & _) _].
  - legal_run.
  - reflexivity.
  - by exists es1, n, es2.
Defined.

(** The answer to a creation erases the name field, with what was typed in it since; and a key that was just made
    and is revoked is still shown as the new key. *)
Lemma typed_name_erased :
  let es : keys_events := [User TypeName "CI"; User SubmitCreate ""; User TypeName "Backup"; Answered 0 (inl (Created sample_key "maco_secret"))] in
  legal (step (ApiKeys (Hdialogs := plain_dialogs) (λ _, ""))) (view (ApiKeys (Hdialogs := plain_dialogs) (λ _, ""))) user (start sample_view) es ∧
  name (local (run (step (ApiKeys (Hdialogs := plain_dialogs) (λ _, ""))) (start sample_view) es).1) = "".
Proof. split; [legal_run|by vm_compute]. Qed.

Lemma revoked_key_shown :
  let es : keys_events := (sample_made ++ [User (AskRevoke sample_key) ""; User ConfirmRevoke ""; Answered 0 (inl Revoked)])%list in
  legal (step (ApiKeys (Hdialogs := plain_dialogs) (λ _, ""))) (view (ApiKeys (Hdialogs := plain_dialogs) (λ _, ""))) user (start sample_view) es ∧
  created (local (run (step (ApiKeys (Hdialogs := plain_dialogs) (λ _, ""))) (start sample_view) es).1) = Some (sample_key, "maco_secret").
Proof. split; [legal_run|by vm_compute]. Qed.
End ApiKeys.

(** ** The password *)

Module Profile.

(** [length] of a string: its UTF-16 code units, of which a character of four bytes has two. *)
Fixpoint utf16_length (s : string) : nat :=
  match s with
  | "" => 0
  | String a r =>
      if (240 <=? code a)%N then match r with String b (String c (String d r')) => 2 + utf16_length r' | _ => 1 + utf16_length r end
      else (if (128 <=? code a)%N && (code a <? 192)%N then 0 else 1) + utf16_length r
  end%nat.

Lemma utf16_length_bytes s : (utf16_length s ≤ String.length s)%nat.
Proof.
  induction s as [s IH] using (induction_ltof1 _ String.length). unfold ltof in IH. destruct s as [|a r]; [done|]. cbn [utf16_length String.length].
  pose proof (IH r ltac:(cbn; lia)). destruct (240 <=? code a)%N; [|destruct (_ && _); lia].
  destruct r as [|b [|c [|d r']]]; cbn [String.length] in *; try lia. pose proof (IH r' ltac:(cbn; lia)). lia.
Qed.

(** The parts of the state that are not [busy]. *)
Record profile_state := mkProfile { current : string; next : string; confirm : string; error : string; saved : bool }.

Inductive action := Submit | TypeCurrent | TypeNext | TypeConfirm.
Inductive request := ChangePassword (current_password new_password : string).

Definition tooShort (s : profile_state) : bool := (0 <? utf16_length (next s))%nat && (utf16_length (next s) <? 8)%nat.
Definition mismatch (s : profile_state) : bool := (0 <? utf16_length (confirm s))%nat && negb (String.eqb (next s) (confirm s)).
Definition valid (s : profile_state) : bool :=
  (0 <? utf16_length (current s))%nat && (8 <=? utf16_length (next s))%nat && String.eqb (next s) (confirm s).

Definition submit (busy : bool) (s : profile_state) : outcome profile_state unit request :=
  if negb (valid s) || busy then Do s []
  else Call (mkProfile (current s) (next s) (confirm s) "" false) tt [ChangePassword (current s) (next s)].

Definition handle (session : option CurrentUser * bool) (busy : bool) (s : profile_state) (a : action) (text : string) : outcome profile_state unit request :=
  match a with
  | Submit => submit busy s
  | TypeCurrent => Do (mkProfile text (next s) (confirm s) (error s) false) []
  | TypeNext => Do (mkProfile (current s) text (confirm s) (error s) false) []
  | TypeConfirm => Do (mkProfile (current s) (next s) text (error s) false) []
  end.

Definition entry (id title value err : string) (a : action) : node action :=
  El "EntryRow" [("id", id); ("title", title); ("value", value); ("error", err)] false [a] [].

Definition render (session : option CurrentUser * bool) (busy : bool) (s : profile_state) : node action :=
  box "div"
    ([label "p" (match session.1 with Some u => user_username u | None => "" end ||s "Unknown account");
      label "p" (match session.1 with Some _ => if session.2 then "Administrator" else "Read-only Access" | None => "" end)] ++
     JobNotice (error s) ++ when (saved s) [label "NoticeBanner" "Your password was updated."] ++
     [entry "current-password" "Current password" (current s) "" TypeCurrent;
      entry "new-password" "New password" (next s) (if tooShort s then "Use at least 8 characters." else "") TypeNext;
      entry "confirm-password" "Confirm new password" (confirm s) (if mismatch s then "Passwords do not match." else "") TypeConfirm;
      button (if busy then "Updating…" else "Update Password") (negb (valid s) || busy) Submit])%list.

Definition Profile : component (option CurrentUser * bool) profile_state action Empty_set unit unit request := {|
  act := handle; ambient _ s _ := s; after _ _ s := (mkProfile "" "" "" (error s) true, []);
  failed m s := mkProfile (current s) (next s) (confirm s) m (saved s); finally _ := []; Requests.render := render |}.
Definition start (session : option CurrentUser * bool) : state (option CurrentUser * bool) profile_state unit :=
  mount session (mkProfile "" "" "" "" false).

#[export] Instance Profile_guarded : Guarded Profile.
Proof.
  intros p b l a text l' k rs _ E. change (handle p b l a text = Call l' k rs) in E. destruct a; cbn in E; try done.
  unfold submit in E. destruct b; [|done]. by rewrite orb_true_r in E.
Qed.

(** *** The answer of the server *)

(** What the request carries, and the server's [changePassword] run on it for the user [name]. *)
Definition body_of (r : request) : string :=
  match r with ChangePassword c n => stringify (JObj [("current_password", JStr c); ("new_password", JStr n)]) end.
Definition answer_to (VerifyPassword : string → string → bool) {S} `{Hmachine : !Programs.Machine Passwords.cmd Passwords.users (Passwords.documented VerifyPassword) S}
    (name : string) (r : request) (m : S) : Z * json * S :=
  match r with ChangePassword c n => Programs.exec (Passwords.changePassword VerifyPassword (Some name) (body_of r) c n) m end.

(** A response that brings an answer of the server. *)
Definition brings (res : Response) (a : Z * json) : Prop :=
  rs_status res = a.1 ∧ rs_text res = stringify a.2 ∧ is_empty_response res = false ∧
  getParseAs (headers_get "Content-Type" (rs_headers res)) ∈ [Some JsonData; None].

Section properties.
Context {File : Type} (boundary : string) (globalFetch : @Request File → M page Response) (origin : string).
Context (VerifyPassword : string → string → bool) {S} `{Hmachine : !Programs.Machine Passwords.cmd Passwords.users (Passwords.documented VerifyPassword) S}.
Context (name : string).
Notation has_password := (Passwords.has_password VerifyPassword).
Notation sent r := (match r with ChangePassword c n => changePassword boundary globalFetch origin c n end).

Lemma profile_offers session b s a : a ∈ offers (render session b s) → a = Submit → valid s = true ∧ b = false.
Proof.
  intros H ->. unfold render, entry in H. offered H; try done. apply orb_false_iff in Hon as [Hv%negb_false_iff Hb]. done.
Qed.

Lemma utf16_nonempty s : (0 <? utf16_length s)%nat = true → s ≠ "".
Proof. by intros H ->. Qed.

(** What the page makes of an answer of the server. *)
Lemma change_settles body c n before a after w res w' : is_origin origin → (∀ req, globalFetch req w = (inl res, w')) → brings res a →
  (8 ≤ String.length n)%nat → Passwords.answered VerifyPassword before name body c n a after →
  let sent := changePassword boundary globalFetch origin c n w in
  (rs_status res = 200%Z ∧ has_password before name c ∧ has_password after name n ∧ (String.length n ≤ 72)%nat ∧
     ∃ t, t ≠ "" ∧ a.2 = JObj [("token", JStr t)] ∧ sent = (inl tt, setItem TOKEN_KEY t w')) ∨
  (rs_status res = 401%Z ∧ after = before ∧ sent = (inr (JsError "Your session has expired"), assign (login_page w') (clearToken w'))) ∨
  ((rs_status res = 400%Z ∧ after = before ∧ Passwords.readable body = false ∨
    rs_status res = 500%Z ∧ has_password before name c ∧ (after = before ∨ has_password after name n)) ∧
   ∃ e, a.2 = JObj [("error", JStr e)] ∧ sent = (inr (JsError e), w')).
Proof.
  intros Ho Hf (Hs & Ht & Hem & Hct) Hlen [_ Hcases]. cbn zeta. destruct (changePassword_spec boundary globalFetch origin c n w Ho) as (Hgood & Hbad & Hrefused).
  assert (∀ e, a.2 = JObj [("error", JStr e)] → ok res = false → rs_status res ≠ 401%Z →
    changePassword boundary globalFetch origin c n w = (inr (JsError e), w')) as Hmessage.
  { intros e Ee Hok H401. rewrite (Hrefused res w' (λ _, Hf _) Hok H401), Ht, Ee. by rewrite refusal_message. }
  destruct a as [st j]. cbn [fst snd] in *. subst st.
  destruct Hcases as [(t & [= Hst ->] & Hne & Hcur & Hnext & H72)|[(e & Hst & -> & Hsame)|(e & [= Hst ->] & Hcur & Hset)]].
  - left. do 4 (split; [assumption|]). exists t. do 2 (split; [done|]).
    apply (Hgood res [("token", JStr t)]); [done| |done|done]. split_and!; [unfold ok; by rewrite Hst|done..].
  - right. destruct Hst as [Hst|[Hst Hw]]; [left|right].
    + do 2 (split; [done|]). by apply (Hbad res).
    + split; [left; do 2 (split; [done|]); destruct Hw as [?|]; [done|lia]|]. exists e. split; [done|].
      apply (Hmessage e); [done|unfold ok; by rewrite Hst|by rewrite Hst].
  - right; right. split; [by right|]. exists e. split; [done|]. apply (Hmessage e); [done|unfold ok; by rewrite Hst|by rewrite Hst].
Qed.

(** C29. What a change of the password comes to, on the page and on the server. Whatever was typed into the form
    before, its request sends the current password and the new one that was typed twice. The server runs
    [changePassword] on it for the user who is signed in, over whatever its database and bcrypt answer, failures
    included, and leaves the other users as they were. When it answers 200 the current password was right, the
    user has the new one from then on, the page keeps the token of the answer, and the form is emptied and says
    so. When it answers 401 nothing changed, the session ends and the page goes to the sign-in. When it answers
    anything else, the form shows the server's message and keeps what was typed, and the session and the page are
    left alone: a 400 can only come of a request longer than the server reads, never of a password it finds too short, and
    nothing changed; a 500 comes after the current password was found right. If nothing fails on the server, the request is not too
    long and the new password has at most the 72 bytes bcrypt takes, the right current password is answered by
    200; a longer one never is. *)
Theorem password_change session es text r (m : S) w res w' :
  let s := (run (step Profile) (start session) es).1 in
  let l := local s in
  let s1 := fst (step Profile s (User Submit text)) in
  let a := answer_to VerifyPassword name r m in
  legal (step Profile) (view Profile) user (start session) es → Submit ∈ offers (view Profile s) →
  r ∈ snd (step Profile s (User Submit text)) →
  is_origin origin → (∀ req, globalFetch req w = (inl res, w')) → brings res a.1 →
  let before := Programs.view m in
  let after := Programs.view a.2 in
  busy s = false ∧ snd (step Profile s (User Submit text)) = [r] ∧
  (r = ChangePassword (current l) (next l) ∧ current l ≠ "" ∧ confirm l = next l) ∧
  (∀ other, other ≠ name → after !! other = before !! other) ∧
  ((rs_status res = 200%Z ∧
      has_password before name (current l) ∧ has_password after name (next l) ∧ (String.length (next l) ≤ 72)%nat ∧
      (∃ t, t ≠ "" ∧ a.1.2 = JObj [("token", JStr t)] ∧ sent r w = (inl tt, setItem TOKEN_KEY t w')) ∧
      fst (step Profile s1 (Answered 0 (inl tt))) = mkState (props s) false (mkProfile "" "" "" "" true) []) ∨
   (rs_status res = 401%Z ∧ after = before ∧
      sent r w = (inr (JsError "Your session has expired"), assign (login_page w') (clearToken w'))) ∨
   ((rs_status res = 400%Z ∧ after = before ∧ Passwords.readable (body_of r) = false ∨
     rs_status res = 500%Z ∧ has_password before name (current l) ∧ (after = before ∨ has_password after name (next l))) ∧
      ∃ e, a.1.2 = JObj [("error", JStr e)] ∧ sent r w = (inr (JsError e), w') ∧
        fst (step Profile s1 (Answered 0 (inr e))) = mkState (props s) false (mkProfile (current l) (next l) (confirm l) e false) [])) ∧
  (Passwords.reliable VerifyPassword (M := S) → Passwords.readable (body_of r) = true → (String.length (next l) ≤ 72)%nat →
     has_password before name (current l) → rs_status res = 200%Z).
Proof.
  cbn zeta. intros Hl Ha Hr Ho Hf Hres. set (s := (run (step Profile) (start session) es).1) in *.
  destruct (profile_offers _ _ _ _ Ha eq_refl) as [Hv Hb].
  assert (act Profile (props s) (busy s) (local s) Submit text =
    Call (mkProfile (current (local s)) (next (local s)) (confirm (local s)) "" false) tt [ChangePassword (current (local s)) (next (local s))]) as E.
  { cbn. unfold submit. by rewrite Hv, Hb. }
  destruct (legal_calls Profile session _ es Submit text _ _ _ Hl Ha E) as (_ & _ & Hstep). fold (start session) s in Hstep. rewrite Hstep in Hr |- *.
  clear Ha E Hstep. clearbody s. apply list_elem_of_singleton in Hr as ->. unfold valid in Hv. apply andb_prop in Hv as [[Hc%utf16_nonempty Hn%Nat.leb_le]%andb_prop Heq%String.eqb_eq].
  pose proof (utf16_length_bytes (next (local s))) as Hlen.
  split; [exact Hb|]. split; [reflexivity|]. split; [split; [reflexivity|split; [exact Hc|exact (eq_sym Heq)]]|].
  set (r := ChangePassword _ _) in *. set (a := answer_to _ _ r m) in *.
  pose proof (Programs.safe_exec _ m _ _ (Passwords.safe_changePassword VerifyPassword name (body_of r) (current (local s)) (next (local s)) (Programs.view m))) as [_ Ha].
  fold (answer_to VerifyPassword name r m) a in Ha. split; [apply Ha|]. split.
  - destruct (change_settles _ _ _ _ _ _ w res w' Ho Hf Hres (Nat.le_trans _ _ _ Hn Hlen) Ha) as [(H1 & H2 & H3 & H4 & H5)|[H|(H & e & H1 & H2)]].
    + left. do 5 (split; [assumption|]). reflexivity.
    + right; left. exact H.
    + right; right. split; [exact H|]. exists e. do 2 (split; [assumption|]). reflexivity.
  - intros Hrel Hread H72 Hcur. etransitivity; [exact (proj1 Hres)|]. apply Passwords.exec_changePassword; [exact Hrel|exact Hread|split; [exact (Nat.le_trans _ _ _ Hn Hlen)|exact H72]|exact Hcur].
Qed.
End properties.

#[export] Instance profile_action_eq_dec : EqDecision action.
Proof. solve_decision. Defined.

Definition sample_typed : list (event (option CurrentUser * bool) action Empty_set unit) :=
  [User TypeCurrent "guess"; User TypeNext "correct horse"; User TypeConfirm "correct horse"].

Definition sample_users (password : string) : Passwords.users := {["root" := password]}.

Lemma password_change_witness :
  let fetched := always (json_response 200 (JObj [("token", JStr "token of root")])) in
  changePassword "b" fetched sample_origin "guess" "correct horse" sample_page = (inl tt, setItem TOKEN_KEY "token of root" sample_page) ∧
  changePassword "b" (always (json_response 401 (JObj [("error", JStr "current password is incorrect")]))) sample_origin "guess" "correct horse" sample_page
  = (inr (JsError "Your session has expired"), mkPage ∅ "/vms/vm1?tab=disks" ["/login?expired=1&returnTo=%2Fvms%2Fvm1%3Ftab%3Ddisks"] []).
Proof.
  split.
  - destruct (password_change (File := unit) "b" (always (json_response 200 (JObj [("token", JStr "token of root")]))) sample_origin
      String.eqb (Hmachine := Passwords.memory_users) "root" (None, false) sample_typed "" (ChangePassword "guess" "correct horse") (sample_users "guess")
      sample_page (json_response 200 (JObj [("token", JStr "token of root")])) sample_page)
      as (_ & _ & _ & _ & [(_ & _ & _ & _ & (t & _ & Et & G) & _)|[[H _]|[[[H _]|[H _]] _]]] & _); try discriminate H.
    + legal_run.
    + apply list_elem_of_In; vm_compute; tauto.
    + apply list_elem_of_In; vm_compute; tauto.
    + exact sample_is_origin.
    + done.
    + split_and!; try (by vm_compute). apply list_elem_of_In; vm_compute; tauto.
    + rewrite G. vm_compute in Et. by injection Et as <-.
  - destruct (password_change (File := unit) "b" (always (json_response 401 (JObj [("error", JStr "current password is incorrect")]))) sample_origin
      String.eqb (Hmachine := Passwords.memory_users) "root" (None, false) sample_typed "" (ChangePassword "guess" "correct horse") (sample_users "another")
      sample_page (json_response 401 (JObj [("error", JStr "current password is incorrect")])) sample_page)
      as (_ & _ & _ & _ & [[H _]|[(_ & _ & G)|[[[H _]|[H _]] _]]] & _); try discriminate H.
    + legal_run.
    + apply list_elem_of_In; vm_compute; tauto.
    + apply list_elem_of_In; vm_compute; tauto.
    + exact sample_is_origin.
    + done.
    + split_and!; try (by vm_compute). apply list_elem_of_In; vm_compute; tauto.
    + etransitivity; [exact G|]. by vm_compute.
Defined.
End Profile.
