(* ===== verification/MediaPages.v ===== *)
(** * Images and ISOs ([src/web/src/pages/Media.tsx])

    The upload form ([MediaLibrary.tsx]), the rows of the library ([MediaRow.tsx]) and the cards of the
    catalog ([CatalogImages.tsx]); and which media the server refuses to delete ([DeleteMedia] and
    [usedMedia] of [src/pkg/engine/media.go]). *)

From S2P Require Import Prelude JsString Types UseResource JobTracking Api Dom Widgets RowComponent Requests.
Local Open Scope string_scope.

(** ** The server's side *)

Section server.
(** [uuid.Parse] as a test, and the image of the library that a disk of a machine is backed by. *)
Context (uuid_ok : string → bool) (backing : VMManifest → VMDisk → option string).

Definition usedMedia (manifests : list VMManifest) (id : string) : bool :=
  existsb (λ m,
    match strip_prefix "media:" (m_image m) with Some i => String.eqb i id | None => false end ||
    includes_str (m_isos m |?| []) id ||
    existsb (λ d, match backing m d with Some i => String.eqb i id | None => false end) (m_disks m |?| [])) manifests.

(** [ListMedia]: the entries of the library, with what uses them. *)
Definition ListMedia (entries : list Media) (manifests : list VMManifest) : list Media :=
  (λ m, mkMedia (media_id m) (usedMedia manifests (media_id m)) (media_kind m) (media_name m) (media_size_gib m)) <$> entries.

Definition DeleteMedia_saved (entries : list Media) (manifests : list VMManifest) (id : string) : list Media + string :=
  if negb (uuid_ok id) then inr "invalid media ID"
  else match List.find (λ m, String.eqb (media_id m) id) entries with
       | None => inr "no such file"
       | Some _ =>
           if usedMedia manifests id then inr "media is in use by a virtual machine"
           else inl (List.filter (λ m, negb (String.eqb (media_id m) id)) entries)
       end.
End server.

(** ** The upload form *)

Module MediaLibrary.

(** A file of the user's machine, by its name and size. *)
Record file := mkFile { f_name : string; f_size : Z }.

Record properties := mkProps { kind : upload_kind; admin : bool }.
(** The parts of the state that are not [busy]; the progress as the bytes sent and the bytes there are. *)
Record upload_state := mkUpload { chosen : option file; error : string; progress : Z * Z; saved : string }.

Inductive action := OpenChooser | ChooseFile | Upload.
Inductive request := UploadFile (k : upload_kind) (f : file) | BusyChange (busy : bool) | Changed.
Inductive progress_event := SetProgress (sent total : Z).

(** [config] *)
Definition title (k : upload_kind) : string := match k with IsoUpload => "Upload Installation ISO" | ImageUpload => "Upload Custom Disk Image" end.
Definition description (k : upload_kind) : string :=
  match k with
  | IsoUpload => "Choose an ARM64 ISO, up to 10 GiB."
  | ImageUpload => "Choose an ARM64 .qcow2 or .img. New VMs receive an independent copy."
  end.
Definition accept (k : upload_kind) : string := match k with IsoUpload => ".iso" | ImageUpload => ".qcow2,.img" end.
Definition choose_label (k : upload_kind) : string := match k with IsoUpload => "Choose ISO…" | ImageUpload => "Choose Image…" end.

Section form.
(** The file that the user picks in the browser's chooser; [fmtBytes] of the component library, of a size and of
    the share of it that is sent; the rounded percentage of the progress. *)
Context (picked : string → option file) (fmtBytes : Z → string) (fmtShare : Z → Z * Z → string) (percent : Z * Z → Z).

Definition perform_upload (p : properties) (busy : bool) (s : upload_state) : outcome upload_state file request :=
  match chosen s with
  | Some f => if busy then Do s [] else Call (mkUpload (chosen s) "" (0, 1)%Z "") f [BusyChange true; UploadFile (kind p) f]
  | None => Do s []
  end.

Definition handle (p : properties) (busy : bool) (s : upload_state) (a : action) (text : string) : outcome upload_state file request :=
  match a with
  | OpenChooser => Do s []
  | ChooseFile => Do (mkUpload (picked text) "" (progress s) "") []
  | Upload => perform_upload p busy s
  end.

Definition render (p : properties) (busy : bool) (s : upload_state) : node action :=
  let size := match chosen s with Some f => f_size f | None => 0%Z end in
  box "div" (when (admin p)
    (JobNotice (error s) ++ when (truthy (saved s)) [label "NoticeBanner" (saved s)] ++
     [label "h3" (title (kind p)); label "p" (description (kind p));
      El "input" [("type", "file"); ("accept", accept (kind p)); ("aria-label", choose_label (kind p))] busy [ChooseFile] [];
      button (choose_label (kind p)) busy OpenChooser] ++
     match chosen s with
     | Some f => [button (if busy then "Uploading…" else if truthy (error s) then "Retry Upload" else "Upload") busy Upload;
                  label "p" (f_name f ++ " · " ++ fmtBytes (f_size f))%string]
     | None => []
     end ++
     when busy
       [El "div" [("role", "progressbar"); ("aria-label", "Upload " ++ match chosen s with Some f => f_name f | None => "undefined" end)%string;
                  ("aria-valuenow", pretty (percent (progress s)))] false [] [];
        label "p" (if (fst (progress s) <? snd (progress s))%Z then (fmtShare size (progress s) ++ " of " ++ fmtBytes size ++ " uploaded")%string
                   else "Transfer complete. Finalizing the library entry…")]))%list.

Definition MediaLibrary : component properties upload_state action progress_event file unit request := {|
  act := handle;
  ambient _ s e := match e with SetProgress sent total => mkUpload (chosen s) (error s) (sent, total) (saved s) end;
  after f _ s := (mkUpload None (error s) (progress s) (f_name f ++ " is available in the library."), [Changed]);
  failed m s := mkUpload (chosen s) m (progress s) (saved s);
  finally _ := [BusyChange false];
  Requests.render := render |}.
Definition start (p : properties) : state properties upload_state file := mount p (mkUpload None "" (0, 1)%Z "").

#[export] Instance MediaLibrary_guarded : Guarded MediaLibrary.
Proof.
  intros p b l a text l' k rs _ E. change (handle p b l a text = Call l' k rs) in E. destruct a; cbn in E; try done.
  unfold perform_upload in E. destruct (chosen l), b; by simplify_eq.
Qed.

Lemma upload_offers p b s a : a ∈ offers (render p b s) → admin p = true ∧ b = false ∧ (a = Upload → chosen s ≠ None).
Proof.
  unfold render. cbn zeta. intros H. apply -> @offers_box in H. apply offers_when in H as [Hp H]. offered H; simplify_eq; try done.
Qed.

Notation C := MediaLibrary.

Definition upload_inv (s : state properties upload_state file) : Prop :=
  one_call s ∧
  (∀ f, awaiting s = [f] → chosen (local s) = Some f ∧ error (local s) = "" ∧ saved (local s) = "") ∧
  (saved (local s) = "" ∨ error (local s) = "").

(** The calls of [onBusyChange]. *)
Definition busy_changes (o : list request) : list bool := omap (λ r, match r with BusyChange b => Some b | _ => None end) o.

Lemma upload_step s e : upload_inv s → (∀ a, user e = Some a → a ∈ offers (view C s)) →
  upload_inv (step C s e).1 ∧
  (busy_changes (step C s e).2 = [] ∧ busy (step C s e).1 = busy s ∨
   busy_changes (step C s e).2 = [negb (busy s)] ∧ busy (step C s e).1 = negb (busy s)).
Proof.
  intros (H1 & Hf & He) Hu. pose proof (one_call_step C s e H1 Hu) as H1'. destruct e as [a text|[sent total]|q|n answer].
  - destruct (upload_offers _ _ _ _ (Hu a eq_refl)) as (_ & Hb & Hc). pose proof (one_call_idle s H1 Hb) as Hw.
    destruct a; cbn [step act MediaLibrary handle] in *.
    + split; [by split_and!|]. by left.
    + split; [|by left]. split_and!; [done| |by left]. cbn. rewrite Hw. done.
    + unfold perform_upload in *. specialize (Hc eq_refl). destruct (chosen (local s)) as [f|] eqn:Ef; [|done]. rewrite Hb in *.
      split; [|by right]. split_and!; [done| |by left]. cbn. rewrite Hw. intros g [= <-]. done.
  - split; [by split_and!|]. by left.
  - split; [by split_and!|]. by left.
  - cbn [step] in *. unfold answered in *. destruct (awaiting s !! n) as [f|] eqn:Hn; [|split; [by split_and!|by left]].
    destruct (one_call_one s n f H1 Hn) as [-> Hw]. destruct (Hf f Hw) as (Hch & Her & Hsa).
    assert (busy s = true) as Hb by (unfold one_call in H1; by rewrite Hw in H1).
    rewrite Hw, Hb in *. destruct answer as [[]|m]; cbn in *; (split; [split_and!; [done|done|]|by right]); auto.
Qed.

Lemma busy_changes_app o1 o2 : busy_changes (o1 ++ o2) = (busy_changes o1 ++ busy_changes o2)%list.
Proof. unfold busy_changes. by rewrite omap_app. Qed.

Lemma upload_run p es : legal (step C) (view C) user (start p) es →
  upload_inv (run (step C) (start p) es).1 ∧
  ∃ n : nat, busy_changes (run (step C) (start p) es).2 = imap (λ i _, Nat.even i) (replicate n tt) ∧
    busy (run (step C) (start p) es).1 = Nat.odd n.
Proof.
  induction es as [|e es IH] using rev_ind; intros Hl.
  - split; [split_and!; try done; by left|]. by exists 0%nat.
  - apply legal_app in Hl as [Hl [He _]]. destruct (IH Hl) as [Hi (n & Hn & Hb)]. rewrite run_app.
    destruct (run (step C) (start p) es) as [s o]. cbn [fst snd] in *. destruct (upload_step s e Hi He) as [Hi' Hc].
    assert (run (step C) s [e] = ((step C s e).1, (step C s e).2 ++ [])%list) as -> by (cbn [run]; by destruct (step C s e)).
    cbn [fst snd]. split; [done|]. rewrite app_nil_r, busy_changes_app, Hn.
    destruct Hc as [[-> ->]|[-> ->]]; [exists n; by rewrite ?app_nil_r|]. exists (S n).
    rewrite replicate_S_end, imap_app, length_replicate. cbn. rewrite Nat.add_0_r, Hb, Nat.odd_succ.
    by rewrite <- Nat.negb_odd.
Qed.

(** The upload form sends the file that it shows. However it is used through its controls: its calls of
    [onBusyChange] say that it is busy and that it is not, in turn, and the last one is what it is; while a
    file is on its way the form shows that file and neither the result of an earlier upload nor its failure;
    and an upload starts only when none is under way, with the file chosen last. *)
Theorem media_upload p es :
  let s := (run (step C) (start p) es).1 in let o := (run (step C) (start p) es).2 in
  legal (step C) (view C) user (start p) es →
  (∃ n, busy_changes o = imap (λ i _, Nat.even i) (replicate n tt) ∧ busy s = default false (last (busy_changes o))) ∧
  (busy s = true → ∃ f, awaiting s = [f] ∧ chosen (local s) = Some f ∧ error (local s) = "" ∧ saved (local s) = "") ∧
  ∀ a text k f, a ∈ offers (view C s) → UploadFile k f ∈ snd (step C s (User a text)) →
    admin (props s) = true ∧ busy s = false ∧ awaiting s = [] ∧ a = Upload ∧ k = kind (props s) ∧ chosen (local s) = Some f ∧
    snd (step C s (User a text)) = [BusyChange true; UploadFile k f].
Proof.
  cbn zeta. intros Hl. destruct (upload_run p es Hl) as [(H1 & Hf & He) (n & Hn & Hb)].
  set (s := (run (step C) (start p) es).1) in *. split_and!.
  - exists n. split; [done|]. rewrite Hn, Hb. destruct n as [|n]; [done|]. rewrite replicate_S_end, imap_app, length_replicate. cbn [imap]. rewrite last_snoc. cbn.
    by rewrite Nat.odd_succ, Nat.add_0_r.
  - intros Hbusy. unfold one_call in H1. destruct (awaiting s) as [|f [|]]; [congruence| |done]. eauto.
  - intros a text k f Ha Hr. destruct (upload_offers _ _ _ _ Ha) as (Hp & Hidle & Hc). pose proof (one_call_idle s H1 Hidle) as Hw.
    destruct a; cbn in Hr; try by apply not_elem_of_nil in Hr. cbn. unfold perform_upload in Hr |- *. destruct (chosen (local s)) as [g|]; [|by destruct (Hc eq_refl)].
    rewrite Hidle in Hr |- *. cbn in Hr |- *. apply elem_of_cons in Hr as [?|Hr]; [done|]. apply list_elem_of_singleton in Hr. by simplify_eq.
Qed.
End form.

#[export] Instance upload_action_eq_dec : EqDecision action.
Proof. solve_decision. Defined.

Lemma media_upload_witness :
  let pick (text : string) := Some (mkFile text 1024) in
  let es : list (event properties action progress_event unit) :=
    [User ChooseFile "a.iso"; User Upload ""; Ambient (SetProgress 1 2); Answered 0 (inr "no"); User Upload ""] in
  ∃ f, chosen (local (run (step (MediaLibrary pick (λ _, "") (λ _ _, "") (λ _, 0%Z))) (start (mkProps IsoUpload true)) es).1) = Some f.
Proof.
  intros pick es. destruct (media_upload pick (λ _, "") (λ _ _, "") (λ _, 0%Z) (mkProps IsoUpload true) es) as (_ & H & _); [legal_run|].
  destruct H as (f & _ & H & _); [reflexivity|]. exists f. exact H.
Defined.
End MediaLibrary.

(** ** A row of the library *)

Module MediaRow.

Record properties := mkProps { media : Media; admin : bool }.
(** The parts of the state that are not [busy]. *)
Record row_local := mkLocal { confirm : bool; error : string }.

Inductive action := AskDelete | CancelDelete | ConfirmDelete.
Inductive request := DeleteMedia (id : string) | Changed.

Definition handle (p : properties) (busy : bool) (s : row_local) (a : action) (text : string) : outcome row_local unit request :=
  match a with
  | AskDelete => Do (mkLocal true (error s)) []
  | CancelDelete => Do (mkLocal false (error s)) []
  | ConfirmDelete => Call (mkLocal (confirm s) "") tt [DeleteMedia (media_id (media p))]
  end.

Definition detail (m : Media) : string :=
  if String.eqb (media_kind m) "iso" then "Installation ISO" else "Custom disk image · " ++ pretty (media_size_gib m) ++ " GiB".

Section row.
Context `{Hdialogs : !AlertDialogs}.

Definition render (p : properties) (busy : bool) (s : row_local) : node action :=
  let m := media p in
  box "div"
    ([label "p" (media_name m); label "p" (if media_in_use m then (detail m ++ " · In use")%string else detail m)] ++
     when (truthy (error s)) [label "p" (error s)] ++
     when (admin p) [ActionButton (if media_in_use m then (media_name m ++ " is in use")%string else ("Delete " ++ media_name m)%string) (media_in_use m) busy AskDelete] ++
     when (admin p)
       (AlertDialog (mkAlert (confirm s) busy ("Delete " ++ media_name m ++ "?")%string
          (if String.eqb (media_kind m) "iso" then "The ISO file will be permanently removed." else "The disk image will be permanently removed.")
          "Delete" CancelDelete ConfirmDelete)))%list.

Definition MediaRow : component properties row_local action Empty_set unit unit request := {|
  act := handle; ambient _ s _ := s; after _ _ s := (mkLocal false (error s), [Changed]); failed m s := mkLocal (confirm s) m;
  finally _ := []; Requests.render := render |}.
Definition start (p : properties) : state properties row_local unit := mount p (mkLocal false "").
Notation C := MediaRow.

Lemma media_row_offers p b s a : a ∈ offers (render p b s) →
  admin p = true ∧ match a with AskDelete => media_in_use (media p) = false ∧ b = false | ConfirmDelete => confirm s = true ∧ b = false | CancelDelete => True end.
Proof.
  intros H. unfold render in H. offered H; simplify_eq; try done.
  by apply orb_false_iff in Hon.
Qed.

#[export] Instance MediaRow_guarded : Guarded MediaRow.
Proof.
  intros p b l a text l' k rs Ha E. change (handle p b l a text = Call l' k rs) in E. apply media_row_offers in Ha as [_ Ha].
  destruct a; cbn in E; try done. by destruct Ha.
Qed.

(** The dialog that asks whether to delete the row's entry, opened while nothing used it. *)
Definition deletion_asked p (es : list (event properties action Empty_set unit)) : Prop :=
  ∃ es1 text es2, es = (es1 ++ User AskDelete text :: es2)%list ∧
    media_in_use (media (props (run (step C) (start p) es1).1)) = false ∧
    ∀ es3, es3 `prefix_of` es2 → confirm (local (run (step C) (start p) (es1 ++ User AskDelete text :: es3)%list).1) = true.

(** The entry of an identifier is gone, and the others are left. *)
Lemma deleted_entries id (l l' : list Media) : l' = List.filter (λ m, negb (String.eqb (media_id m) id)) l →
  (∀ m, m ∈ l' ↔ m ∈ l ∧ media_id m ≠ id).
Proof. intros -> m. by rewrite list_elem_of_In, filter_In, negb_true_iff, String.eqb_neq, <- list_elem_of_In. Qed.

(** An entry of the library is deleted only when asked twice, and only if no machine uses it. In a row used
    through its controls by an administrator, one deletion is under way at a time, sent by confirming a dialog
    that the user opened while the row showed its entry as not in use, and that has been open since. If the row
    still shows what the server knows of the entry when it is sent, and it is not in use, the server deletes that
    entry and no other, and no machine needs it. *)
Theorem media_row_deletes uuid_ok backing p es a text r entries manifests :
  let s := (run (step C) (start p) es).1 in
  legal (step C) (view C) user (start p) es → a ∈ offers (view C s) → r ∈ snd (step C s (User a text)) →
  (admin (props s) = true ∧ a = ConfirmDelete ∧ r = DeleteMedia (media_id (media (props s))) ∧
   busy s = false ∧ awaiting s = [] ∧ snd (step C s (User a text)) = [r] ∧ busy (fst (step C s (User a text))) = true ∧ deletion_asked p es) ∧
  (uuid_ok (media_id (media (props s))) = true → media (props s) ∈ ListMedia backing entries manifests → media_in_use (media (props s)) = false →
   ∃ entries', DeleteMedia_saved uuid_ok backing entries manifests (media_id (media (props s))) = inl entries' ∧
     (∀ m, m ∈ entries' ↔ m ∈ entries ∧ media_id m ≠ media_id (media (props s))) ∧
     usedMedia backing manifests (media_id (media (props s))) = false).
Proof.
  cbn zeta. intros Hl Ha Hr. set (s := (run (step C) (start p) es).1) in *. destruct (media_row_offers _ _ _ _ Ha) as [Hadm Hc]. split.
  - destruct a; cbn in Hr; try by apply not_elem_of_nil in Hr. destruct Hc as [Hcf Hb]. apply list_elem_of_singleton in Hr as ->.
    destruct (legal_calls C p _ es ConfirmDelete text _ _ _ Hl Ha eq_refl) as (_ & Hw & Hs). fold (start p) s in Hw, Hs. rewrite Hs.
    split_and!; try done. destruct (dialog_asked C (λ d, confirm d = true) (λ q _ _ a _, a = AskDelete ∧ media_in_use (media q) = false) p (mkLocal false "") es)
      as (es1 & a & t & es2 & -> & (-> & Hu) & Hq); [done| |by intros ??[]|done|done|done|done|by exists es1, t, es2].
    intros q b d a t d' rs [_ Ha']%media_row_offers E Hn Hd. change (handle q b d a t = Do d' rs ∨ (∃ k, handle q b d a t = Call d' k rs)) in E.
    destruct a; cbn in E; [by destruct Ha'|..]; destruct E as [E|[k E]]; simplify_eq; done.
  - intros Hu (e & He & Hin)%list_elem_of_fmap Hno. rewrite He in Hno. cbn in Hno. assert (media_id (media (props s)) = media_id e) as Hid by by rewrite He.
    unfold DeleteMedia_saved. rewrite Hu. cbn [negb]. rewrite Hid, Hno in *.
    destruct (List.find _ entries) as [f|] eqn:Ef; [|by rewrite find_none_iff in Ef; specialize (Ef e Hin); cbn in Ef; rewrite String.eqb_refl in Ef].
    eexists. split; [done|]. split; [by apply deleted_entries|done].
Qed.
End row.

#[export] Instance row_action_eq_dec : EqDecision action.
Proof. solve_decision. Defined.

Definition sample_media : Media := mkMedia "m1" false "iso" "debian.iso" 1.

Lemma media_row_deletes_witness :
  DeleteMedia_saved (λ _, true) (λ _ _, None) [sample_media] [] "m1" = inl [].
Proof.
  destruct (media_row_deletes (Hdialogs := plain_dialogs) (λ _, true) (λ _ _, None) (mkProps sample_media true) [User AskDelete ""] ConfirmDelete "" (DeleteMedia "m1") [sample_media] [])
    as [_ H]; [legal_run|apply list_elem_of_In; vm_compute; tauto|by left|].
  destruct H as (l & E & H & _); [done|by left|done|]. etransitivity; [exact E|]. f_equal. destruct l as [|m l]; [done|]. by destruct (H m) as [[H1 H2] _]; [left|]; apply list_elem_of_singleton in H1 as ->.
Defined.
End MediaRow.

(** ** A card of the catalog *)

Module CatalogCard.

(** [formatSize] of bytes, with [toFixed] and [Math.round] of the quotients as parameters. *)
Section size.
Context (fixed_gib round_mib : Z → string).
Definition formatSize (bytes : Z) : string :=
  if (2 ^ 30 <=? bytes)%Z then fixed_gib bytes ++ " GiB" else (if (bytes <? 2 ^ 19)%Z then "1" else round_mib bytes) ++ " MiB".
End size.

(** The download goes through the row of the image, the removal is awaited by the card. *)
Inductive action := AskRemove | CancelRemove | ConfirmRemove | Download.
Inductive request := DeleteCatalogImage (id : string) | DownloadCatalogImage (id : string) | RefreshCatalog.
Record removal := mkRemoval { confirm : bool; error : string }.

Record card := mkCard {
  image : CatalogImage;
  admin : bool;
  jobs_error : string;
  row : RowComponent.state CatalogImage unit unit;
  removing : state unit removal unit
}.

Inductive card_event :=
  | Act (a : action)
  | RowEvent (e : RowComponent.event CatalogImage Empty_set Empty_set)
  | Removed (n : nat) (answer : unit + string)
  | ImageChanged (i : CatalogImage) (admin : bool) (jobs_error : string).

Definition handle_row (i : CatalogImage) (v : RowComponent.row_view) (l : unit) (a : action) (text : string) : RowComponent.outcome unit unit request :=
  match a with
  | Download => RowComponent.Execute "image.download" tt (DownloadCatalogImage (img_id i))
  | _ => RowComponent.Do l []
  end.

Definition handle_removal (id : string) (s : removal) (a : action) : outcome removal unit request :=
  match a with
  | AskRemove => Do (mkRemoval true (error s)) []
  | CancelRemove => Do (mkRemoval false (error s)) []
  | ConfirmRemove => Call (mkRemoval (confirm s) "") tt [DeleteCatalogImage id]
  | Download => Do s []
  end.

Section card.
Context `{Hdialogs : !AlertDialogs} (formatSize : Z → string).

(** The part of the state that the row keeps, and the part that the card does. *)
Definition downloads : RowComponent.component CatalogImage unit action Empty_set unit request := {|
  RowComponent.scope := "image"; RowComponent.ident := img_id; RowComponent.called := img_id; RowComponent.act := handle_row;
  RowComponent.ambient _ l _ := l; RowComponent.after _ l := l;
  RowComponent.render _ v _ := button "Download" (RowComponent.rv_busy v) Download |}.
Definition removals (id : string) : component unit removal action Empty_set unit unit request := {|
  act _ _ s a _ := handle_removal id s a; ambient _ s _ := s; after _ _ s := (mkRemoval false (error s), [RefreshCatalog]);
  failed m s := mkRemoval (confirm s) m; finally _ := []; Requests.render _ _ _ := box "div" [] |}.

Definition CatalogCard (c : card) : node action :=
  let i := image c in let v := RowComponent.row_of downloads (row c) in let s := local (removing c) in
  box "article"
    ([label "h3" (img_display_name i); label "p" (img_description i);
      label "Badge" (if img_downloaded i then "Ready to Use" else "Download Required");
      label "p" (img_arch i ++ (if img_downloaded i then " · Cached file: " ++ formatSize (img_size_bytes i) else ""))%string] ++
     JobNotice (error s ||s jobs_error c) ++
     when (admin c)
       ((if img_downloaded i then [button "Remove Cached Image…" (busy (removing c) || RowComponent.rv_busy v) AskRemove]
         else [button (if RowComponent.rv_busy v then "Downloading…" else "Download") (RowComponent.rv_busy v) Download]) ++
        ActionStatus (RowComponent.rv_job v) (RowComponent.rv_error v) false) ++
     AlertDialog (mkAlert (confirm s) (busy (removing c)) ("Remove " ++ img_display_name i ++ "?")%string
       "The cached source image is permanently deleted. Existing VMs retain their independent disk copies. You can download the source again."
       "Remove Cached Image" CancelRemove ConfirmRemove))%list.

Definition card_step (c : card) (e : card_event) : card * list request :=
  let with_row rw := mkCard (image c) (admin c) (jobs_error c) rw (removing c) in
  let with_removal rm := mkCard (image c) (admin c) (jobs_error c) (row c) rm in
  match e with
  | Act Download => let (rw, o) := RowComponent.step downloads (row c) (RowComponent.User Download "") in (with_row rw, o)
  | Act a => let (rm, o) := step (removals (img_id (image c))) (removing c) (User a "") in (with_removal rm, o)
  | RowEvent (RowComponent.Answered n a) => (with_row (RowComponent.answered downloads n a (row c)), [])
  | RowEvent (RowComponent.JobsChanged l) => (with_row (fst (RowComponent.step downloads (row c) (RowComponent.JobsChanged l))), [])
  | RowEvent _ => (c, [])
  | Removed n a => let (rm, o) := answered (removals (img_id (image c))) n a (removing c) in (with_removal rm, o)
  | ImageChanged i adm err => (mkCard i adm err (fst (RowComponent.step downloads (row c) (RowComponent.PropsChanged i))) (removing c), [])
  end.

Definition card_start (i : CatalogImage) (adm : bool) (jobs : list Job) : card :=
  mkCard i adm "" (RowComponent.mount i jobs tt) (mount tt (mkRemoval false "")).
Definition card_user (e : card_event) : option action := match e with Act a => Some a | _ => None end.

Lemma card_offers c a : a ∈ offers (CatalogCard c) →
  match a with
  | AskRemove => admin c = true ∧ img_downloaded (image c) = true ∧ busy (removing c) = false ∧ RowComponent.busy downloads (row c) = false
  | CancelRemove => confirm (local (removing c)) = true
  | ConfirmRemove => confirm (local (removing c)) = true ∧ busy (removing c) = false
  | Download => admin c = true ∧ img_downloaded (image c) = false ∧ RowComponent.busy downloads (row c) = false
  end.
Proof.
  intros H. unfold CatalogCard in H. offered H; simplify_eq; try done. by apply orb_false_iff in Hon.
Qed.

Definition card_inv (c : card) : Prop := RowComponent.one_request (row c) ∧ one_call (removing c) ∧ RowComponent.props (row c) = image c.

Lemma card_step_inv c e : card_inv c → (∀ a, card_user e = Some a → a ∈ offers (CatalogCard c)) → card_inv (card_step c e).1.
Proof.
  intros (H1 & H2 & H3) Hu. destruct e as [a|e|n a|i adm err]; cbn [card_step].
  - pose proof (card_offers c a (Hu a eq_refl)) as Ha. destruct a; cbn; try (by split_and!).
    + destruct Ha as [_ Hb]. split_and!; try done. unfold one_call. cbn. by rewrite (one_call_idle _ H2 Hb).
    + destruct Ha as (_ & _ & Hb). split_and!; try done. unfold RowComponent.one_request. cbn. by rewrite (RowComponent.one_request_idle _ _ H1 Hb).
  - destruct e as [[]|[]|p|l|n a]; try by split_and!. split_and!; [by apply RowComponent.answered_one|done|].
    cbn. unfold RowComponent.answered. by destruct (_ !! n).
  - pose proof (answered_one_call (removals (img_id (image c))) n a (removing c) H2) as H. destruct (answered _ n a (removing c)). by split_and!.
  - by split_and!.
Qed.

(** The dialog that asks whether to remove the cached file. *)
Definition removal_asked i adm jobs (es : list card_event) : Prop :=
  ∃ es1 es2, es = (es1 ++ Act AskRemove :: es2)%list ∧
    (let c1 := (run card_step (card_start i adm jobs) es1).1 in admin c1 = true ∧ img_downloaded (image c1) = true) ∧
    ∀ es3, es3 `prefix_of` es2 → confirm (local (removing (run card_step (card_start i adm jobs) (es1 ++ Act AskRemove :: es3)%list).1)) = true.

(** A card of the catalog downloads an image that is not there, and removes its file only when asked twice. In a
    card used through its controls: a download is requested of the image shown, by an administrator, while the
    card says that it is to be downloaded and no other is in progress; a removal, by confirming a dialog that
    an administrator opened while the image was there, and that has been open since; of each kind, one request
    is under way at a time. *)
Theorem catalog_card i adm jobs es a r :
  let c := (run card_step (card_start i adm jobs) es).1 in
  legal card_step CatalogCard card_user (card_start i adm jobs) es → a ∈ offers (CatalogCard c) → r ∈ snd (card_step c (Act a)) →
  snd (card_step c (Act a)) = [r] ∧
  match r with
  | DownloadCatalogImage id => a = Download ∧ id = img_id (image c) ∧ admin c = true ∧ img_downloaded (image c) = false ∧
      RowComponent.busy downloads (row c) = false ∧ RowComponent.awaiting (row c) = [] ∧ RowComponent.busy downloads (row (fst (card_step c (Act a)))) = true
  | DeleteCatalogImage id => a = ConfirmRemove ∧ id = img_id (image c) ∧ awaiting (removing c) = [] ∧
      busy (removing (fst (card_step c (Act a)))) = true ∧ removal_asked i adm jobs es
  | RefreshCatalog => False
  end.
Proof.
  cbn zeta. intros Hl Ha Hr. assert (card_inv (run card_step (card_start i adm jobs) es).1) as (H1 & H2 & H3).
  { eapply (legal_invariant card_step CatalogCard card_user card_inv); [by split_and!|by apply card_step_inv|done]. }
  set (c := (run card_step (card_start i adm jobs) es).1) in *. apply card_offers in Ha. destruct a; cbn in Hr; try by apply not_elem_of_nil in Hr.
  - destruct Ha as [Hc Hb]. apply list_elem_of_singleton in Hr as ->. split_and!; try done; [by apply one_call_idle|].
    destruct (legal_since card_step CatalogCard card_user (λ c, confirm (local (removing c)) = true)
      (λ c e, e = Act AskRemove ∧ admin c = true ∧ img_downloaded (image c) = true) (card_start i adm jobs)) with (es := es)
      as (es1 & e & es2 & -> & (-> & HT) & Hs); [done| |done|done|by exists es1, es2].
    intros c' e Hu Hn HQ. destruct e as [a|e|n a|i' adm' err]; cbn in HQ.
    + pose proof (card_offers c' a (Hu a eq_refl)) as Ha. destruct a; cbn in HQ; [by destruct Ha as (? & ? & _)|done|congruence|done].
    + by destruct e as [[]|[]|q|l|n a].
    + unfold answered in HQ. destruct (awaiting (removing c') !! n); [|done]. by destruct a.
    + done.
  - destruct Ha as (Hp & Hd & Hb). rewrite H3 in Hr. apply list_elem_of_singleton in Hr as ->. split_and!; try done; [cbn; by rewrite H3|].
    by apply (RowComponent.one_request_idle downloads).
Qed.
End card.

#[export] Instance card_action_eq_dec : EqDecision action.
Proof. solve_decision. Defined.

Definition sample_image : CatalogImage := mkCatalogImage "aarch64" "Debian" "Debian 13" "debian" true "debian-13" 1000 "13".

Lemma catalog_card_witness : removal_asked sample_image true [] [Act AskRemove].
Proof.
  destruct (catalog_card (Hdialogs := plain_dialogs) (λ _, "") sample_image true [] [Act AskRemove] ConfirmRemove (DeleteCatalogImage "debian-13")) as (_ & _ & _ & _ & _ & H).
  - legal_run.
  - apply list_elem_of_In; vm_compute; tauto.
  - by left.
  - exact H.
Defined.
End CatalogCard.

(** ** The page *)

(** [CatalogImages] over its cards, and the page over the parts of both tabs, which stay mounted while hidden. *)
Inductive page_action :=
  | SelectTab (tab : upload_kind)
  | RetryMedia
  | RetryCatalog
  | InCard (id : string) (a : CatalogCard.action)
  | InLibrary (tab : upload_kind) (a : MediaLibrary.action)
  | InRow (id : string) (a : MediaRow.action).

Definition CatalogImages (catalog : @UseResource.view (list CatalogImage)) (card : CatalogImage → node CatalogCard.action) : node page_action :=
  box "section"
    ([label "h2" "Distributions"; label "p" "Download a cloud image before creating a VM. Each VM receives an independent copy."] ++
     ResourceNotice catalog "distribution catalog" RetryCatalog ++
     ((λ i, map_node (InCard (img_id i)) (card i)) <$> UseResource.data catalog) ++
     when (negb (UseResource.loading catalog) && negb (truthy (UseResource.error catalog)) && (length (UseResource.data catalog) =? 0)%nat)
       [label "p" "No distributions available. You can upload a custom disk image below."])%list.

(** A panel that is hidden offers nothing. *)
Definition tabpanel (hidden : bool) (children : list (node page_action)) : node page_action := El "div" [("role", "tabpanel")] hidden [] children.

Definition media_page (tab : upload_kind) (media : @UseResource.view (list Media)) (catalog : node page_action)
    (library : upload_kind → node MediaLibrary.action) (row : Media → node MediaRow.action) : node page_action :=
  let isos := List.filter (λ m, String.eqb (media_kind m) "iso") (UseResource.data media) in
  let images := List.filter (λ m, String.eqb (media_kind m) "image") (UseResource.data media) in
  let rows := fmap (M := list) (λ m, map_node (InRow (media_id m)) (row m)) in
  box "div"
    ([label "h1" "Images & ISOs"; button "Images" false (SelectTab ImageUpload); button "ISOs" false (SelectTab IsoUpload)] ++
     ResourceNotice media "media library" RetryMedia ++
     [tabpanel (match tab with ImageUpload => false | IsoUpload => true end)
        ([catalog; map_node (InLibrary ImageUpload) (library ImageUpload)] ++
         when (0 <? length images)%nat [box "PreferencesGroup" (rows images)]);
      tabpanel (match tab with IsoUpload => false | ImageUpload => true end)
        [map_node (InLibrary IsoUpload) (library IsoUpload);
         box "PreferencesGroup" (rows isos ++
           when (negb (UseResource.loading media) && (length isos =? 0)%nat && negb (truthy (UseResource.error media)))
             [label "p" "No ISOs yet. Choose and upload one above."])]])%list.

(** Each part of the page acts only in the tab that shows it. *)
Lemma media_page_offers tab media catalog library row a : a ∈ offers (media_page tab media catalog library row) →
  match a with
  | InLibrary k b => k = tab ∧ b ∈ offers (library tab) ∨ tab = ImageUpload ∧ a ∈ offers catalog
  | InRow id b => (∃ m, m ∈ UseResource.data media ∧ media_id m = id ∧ b ∈ offers (row m) ∧
                     media_kind m = match tab with ImageUpload => "image" | IsoUpload => "iso" end) ∨ tab = ImageUpload ∧ a ∈ offers catalog
  | _ => True
  end.
Proof.
  assert (∀ q (b : page_action), b ∈ flat_map offers ((λ m, map_node (InRow (media_id m)) (row m)) <$> List.filter q (UseResource.data media)) →
    ∃ m c, b = InRow (media_id m) c ∧ m ∈ UseResource.data media ∧ c ∈ offers (row m) ∧ q m = true) as Hrows.
  { intros q b (m & Hm & Hb)%offers_fmap. rewrite offers_map in Hb. apply list_elem_of_fmap in Hb as (c & -> & Hc).
    apply list_elem_of_In, filter_In in Hm as [Hm Hq]. rewrite <- list_elem_of_In in Hm. eauto 10. }
  intros H. unfold media_page, tabpanel in H. cbn zeta in H. destruct tab; offered H; simplify_eq; try done.
  all: try (rewrite offers_map in H; apply list_elem_of_fmap in H as (b & -> & Hb); by auto).
  all: try (destruct a; by auto).
  all: apply Hrows in H as (m & c & -> & Hm & Hc & Hq%String.eqb_eq); left; eauto 10.
Qed.
