(* ===== verification/NetworkPages.v ===== *)
(** * The page of networks ([src/web/src/pages/Networks.tsx], [components/NetworkRow.tsx])

    The rows of the list, which open the editor of [CreateNetwork] and delete a network, and the page around
    them; with what the server tests before it takes a network down ([DestroyNetwork] of
    [src/pkg/engine/network.go]). *)

From S2P Require Import Prelude JsString Types Ux UseResource JobTracking ServerNetworks Dom Widgets RowComponent.
Local Open Scope string_scope.

(** ** The server's side *)

Section server.
(** Whether a machine runs, and the networks that an unfinished change of it refers to. *)
Context (running : VMManifest → bool) (PendingNetworkReferences : VMManifest → list string).

Definition involved (n : Network) (m : VMManifest) : option string :=
  if running m && (includes_str (PendingNetworkReferences m) (net_id n) || includes_str (PendingNetworkReferences m) (net_name n))
  then Some ("network " ++ net_name n ++ " is involved in an unfinished change on VM " ++ m_name m ++ "; stop it first")
  else if existsb (λ nic, (String.eqb (nic_network nic) (net_id n) || String.eqb (nic_network nic) (net_name n)) && running m) (EffectiveInterfaces m)
       then Some ("network " ++ net_name n ++ " is used by running VM " ++ m_name m ++ "; stop it first")
       else None.

Definition attached (n other : Network) : option string :=
  if negb (String.eqb (net_id other) (net_id n)) &&
     (includes_str (net_members other |?| []) (net_device n |?| "") || includes_str (net_applied_members other |?| []) (net_device n |?| ""))
  then Some ("VLAN " ++ net_name n ++ " is attached to bridge " ++ net_name other ++ "; remove it from the bridge first")
  else None.

(** The first refusal. *)
Fixpoint first_some {A} (f : A → option string) (l : list A) : option string :=
  match l with [] => None | x :: l => match f x with Some e => Some e | None => first_some f l end end.

(** [DestroyNetwork] up to the teardown: why it refuses, or the network it goes on with. *)
Definition DestroyNetwork_refused (nets : list Network) (manifests : list VMManifest) (ref : string) : Network + string :=
  match Resolve nets ref with
  | None => inr "network not found"
  | Some n =>
      match first_some (involved n) manifests with
      | Some e => inr e
      | None =>
          match (if decide (net_mode n = ModeVlan) then if truthy (net_device n |?| "") then first_some (attached n) nets else None else None) with
          | Some e => inr e
          | None => inl n
          end
      end
  end.
End server.

(** ** A row *)

Record properties := mkProps { network : Network; admin : bool; vms : @UseResource.view (list VMView) }.
Record dialogs := mkDialogs { editing : bool; confirm : bool }.

Inductive action := OpenEdit | CloseEdit | AskDelete | CancelDelete | ConfirmDelete | RetryVMs.
#[export] Instance action_eq_dec : EqDecision action.
Proof. solve_decision. Defined.
Inductive request := DestroyNetwork (id : string) | RefreshVMs.

(** The machines with an adapter in the network. *)
Definition uses_network (n : Network) (m : VMManifest) : bool :=
  existsb (λ ref, String.eqb ref (net_id n) || String.eqb ref (net_name n))
    match m_interfaces m with Some l => nic_network <$> l | None => [(m_network m |?| "") ||s "user"] end.
Definition users (p : properties) : list VMView := List.filter (λ v, uses_network (network p) (vm_manifest v)) (UseResource.data (vms p)).

Definition handle (p : properties) (v : row_view) (d : dialogs) (a : action) (text : string) : outcome dialogs unit request :=
  match a with
  | OpenEdit => Do (mkDialogs true (confirm d)) []
  | CloseEdit => Do (mkDialogs false (confirm d)) []
  | AskDelete => Do (mkDialogs (editing d) true) []
  | CancelDelete => Do (mkDialogs (editing d) false) []
  | ConfirmDelete => Execute "network.destroy" tt (DestroyNetwork (net_id (network p)))
  | RetryVMs => Do d [RefreshVMs]
  end.

Definition mode_text (m : NetworkMode) : string := networkModeName (mode_string m).
Section row.
Context `{Hdialogs : !AlertDialogs}.

Definition target_text (n : Network) : string :=
  if decide (net_mode n = ModeUser) then "Per-interface NAT"
  else if decide (net_mode n = ModeVlan) then net_parent n |?| ""
  else (net_device n |?| "") ||s (net_uplink n |?| "") ||s (net_group n |?| "") ||s "Unapplied".

Definition address_text (n : Network) : string :=
  if decide (net_mode n = ModeVlan)
  then "VLAN " ++ match net_tag n with Some t => pretty t | None => "undefined" end ++
       (if truthy (net_device n |?| "") then " · " ++ (net_device n |?| "") else "")
  else (net_address n |?| "") ||s "None".

Definition render (p : properties) (v : row_view) (d : dialogs) : node action :=
  let n := network p in
  box "tr"
    ([label "td" (net_name n); label "td" (mode_text (net_mode n)); label "td" (target_text n); label "td" (address_text n)] ++
     if admin p then
       [ActionButton ("Edit " ++ net_name n)%string (rv_busy v) false OpenEdit;
        ActionButton ("Delete " ++ net_name n)%string
          (rv_busy v || UseResource.loading (vms p) || truthy (UseResource.error (vms p)) || (0 <? length (users p))%nat)
          (String.eqb (rv_action v) "network.destroy") AskDelete] ++
       ActionStatus (rv_job v) (rv_error v) false ++
       when (0 <? length (users p))%nat
         [label "p" "Used by one or more virtual machines. Move or remove those adapters before deleting."] ++
       when (truthy (UseResource.error (vms p))) [box "p" [Text "Couldn’t check network use."; button "Retry" false RetryVMs]] ++
       when (editing d) [El "CreateNetworkDialog" [("network", net_id n)] false [CloseEdit] []] ++
       AlertDialog (mkAlert (confirm d) (rv_busy v) ("Delete " ++ net_name n ++ "?")%string
         "Delete this network configuration and the host bridge or VLAN resources it owns. Guest disks are retained. Host connectivity through these resources ends."
         "Delete Network" CancelDelete ConfirmDelete)
     else [label "span" "Read only"])%list.

Definition NetworkRow : component properties dialogs action Empty_set unit request := {|
  scope := "network"; ident p := net_id (network p); called p := net_name (network p); act := handle; ambient _ d _ := d;
  after _ d := mkDialogs (editing d) false; RowComponent.render := render |}.
Definition start (p : properties) (jobs : list Job) : state properties dialogs unit := mount p jobs (mkDialogs false false).
Notation C := NetworkRow.

Lemma network_row_offers p v d a : a ∈ offers (render p v d) → admin p = true ∧
  match a with
  | AskDelete => UseResource.loading (vms p) = false ∧ UseResource.error (vms p) = "" ∧ users p = []
  | ConfirmDelete => confirm d = true ∧ rv_busy v = false
  | _ => True
  end.
Proof.
  intros H. unfold render in H. offered H; simplify_eq; split; try done.
  all: repeat match goal with H : _ || _ = false |- _ => apply orb_false_iff in H as [? ?] end.
  all: match goal with H : (0 <? length ?l)%nat = false |- _ => apply Nat.ltb_ge in H; destruct l; [|cbn in H; lia] end.
  all: split_and!; [done|by apply truthy_false|done].
Qed.

#[export] Instance NetworkRow_guarded : Guarded NetworkRow.
Proof.
  intros p v d a text name k r Ha E. change (handle p v d a text = Execute name k r) in E. apply network_row_offers in Ha as [_ Ha].
  destruct a; cbn in E; try done. simplify_eq. by destruct Ha.
Qed.
End row.

(** ** Properties *)

Section properties.
Context `{Hdialogs : !AlertDialogs}.
Notation C := NetworkRow.

(** No machine that the row knows has an adapter in its network, and it knows them. *)
Definition free (p : properties) : Prop := UseResource.loading (vms p) = false ∧ UseResource.error (vms p) = "" ∧ users p = [].

Definition deletion_asked p jobs (es : list (event properties action Empty_set)) : Prop :=
  ∃ es1 text es2, es = (es1 ++ User AskDelete text :: es2)%list ∧
    (let q := props (run (step C) (start p jobs) es1).1 in admin q = true ∧ free q) ∧
    ∀ es3, es3 `prefix_of` es2 → confirm (local (run (step C) (start p jobs) (es1 ++ User AskDelete text :: es3)%list).1) = true.

Lemma network_deletion_asked p jobs es : legal (step C) (view C) user (start p jobs) es →
  confirm (local (run (step C) (start p jobs) es).1) = true → deletion_asked p jobs es.
Proof.
  intros Hl Hc. destruct (dialog_since C (λ d, confirm d = true) (λ q _ a, a = AskDelete ∧ admin q = true ∧ free q) p jobs (mkDialogs false false) es)
    as (es1 & a & text & es2 & -> & (-> & HT) & Hs); [done| |by intros ??[]|done|done|done|by exists es1, text, es2].
  intros q v d a text d' rs [Hp Ha]%network_row_offers E Hn Hd. change (handle q v d a text = Do d' rs) in E. destruct a; cbn in E; by simplify_eq.
Qed.

Lemma first_some_none {A} (f : A → option string) l : (∀ x, x ∈ l → f x = None) → first_some f l = None.
Proof. induction l as [|x l IH]; [done|]. intros H. cbn. rewrite (H x) by left. apply IH. intros y Hy. apply H. by right. Qed.

Lemma first_some_in {A} (f : A → option string) l e : first_some f l = Some e → ∃ x, x ∈ l ∧ f x = Some e.
Proof.
  induction l as [|x l IH]; [done|]. cbn. destruct (f x) eqn:E; [intros [= <-]; exists x; by split; [left|]|].
  intros (y & Hy & Ey)%IH. exists y. by split; [right|].
Qed.

(** A machine that has no adapter in the network for the console has none for the server. *)
Lemma not_used running pending n m : net_id n ≠ "" → net_name n ≠ "" → uses_network n m = false →
  (running m = true → net_id n ∉ pending m ∧ net_name n ∉ pending m) → involved running pending n m = None.
Proof.
  intros Hid Hname Hu Hp. unfold involved. destruct (running m).
  - destruct (Hp eq_refl) as [H1 H2]. rewrite !(proj2 (includes_str_false _ _)) by done. cbn [orb andb].
    destruct (existsb _ (EffectiveInterfaces m)) eqn:E; [|done]. exfalso. apply existsb_exists in E as (nic & Hin & E). rewrite andb_true_r in E.
    unfold uses_network in Hu. unfold EffectiveInterfaces in Hin. destruct (m_interfaces m) as [l|].
    + rewrite <- not_true_iff_false in Hu. apply Hu, existsb_exists. exists (nic_network nic). split; [|done]. apply list_elem_of_In, list_elem_of_fmap. exists nic. by rewrite list_elem_of_In.
    + destruct Hin as [<-|[]]. cbn in Hu, E. destruct (m_network m |?| "") as [|c r]; [|change (String c r ||s "user") with (String c r) in Hu; rewrite orb_false_r in Hu; congruence].
      apply orb_true_iff in E as [E%String.eqb_eq|E%String.eqb_eq]; congruence.
  - cbn. destruct (existsb _ _) eqn:E; [|done]. apply existsb_exists in E as (nic & _ & E). by rewrite andb_false_r in E.
Qed.

(** A network is deleted only when asked twice, and not while a machine uses it. In a row used through its
    controls, one request is under way at a time; the deletion is sent by confirming a dialog that an administrator
    opened while the row knew the machines and none of them had an adapter in the network, and that has been open
    since. If those machines are the server's and none of them that runs has an unfinished change of the network,
    the server goes on with it, unless it is a VLAN that a bridge still contains. *)
Theorem network_row_destroys p jobs es a text id :
  let s := (run (step C) (start p jobs) es).1 in
  legal (step C) (view C) user (start p jobs) es → a ∈ offers (view C s) → DestroyNetwork id ∈ snd (step C s (User a text)) →
  (a = ConfirmDelete ∧ id = net_id (network (props s)) ∧ admin (props s) = true ∧ busy C s = false ∧ awaiting s = [] ∧
   snd (step C s (User a text)) = [DestroyNetwork id] ∧ busy C (fst (step C s (User a text))) = true ∧ deletion_asked p jobs es) ∧
  ∀ q running pending nets, free q → net_id (network q) = id → Resolve nets id = Some (network q) → id ≠ "" → net_name (network q) ≠ "" →
    (∀ m, m ∈ vm_manifest <$> UseResource.data (vms q) → running m = true → id ∉ pending m ∧ net_name (network q) ∉ pending m) →
    DestroyNetwork_refused running pending nets (vm_manifest <$> UseResource.data (vms q)) id = inl (network q) ∨
    net_mode (network q) = ModeVlan ∧ ∃ other, other ∈ nets ∧ is_Some (attached (network q) other).
Proof.
  cbn zeta. intros Hl Ha Hr. split.
  - pose proof (network_deletion_asked p jobs es Hl) as Hask. unfold start in *. set (s := (run (step C) (mount p jobs (mkDialogs false false)) es).1) in *.
    destruct (legal_requests C p jobs _ es a text _ Hl Ha Hr) as [(d & rs & E & Hrs)|((name & k & E) & Hb & Hw & Hs & Hb')]; fold s in E.
    { change (handle (props s) (row_of C s) (local s) a text = Do d rs) in E. destruct a; cbn in E; try discriminate; injection E as <- <-; first [by apply not_elem_of_nil in Hrs|by apply list_elem_of_singleton in Hrs]. }
    destruct (network_row_offers _ _ _ _ Ha) as [Hadm Hc]. change (handle (props s) (row_of C s) (local s) a text = Execute name k (DestroyNetwork id)) in E.
    destruct a; cbn in E; try done. destruct Hc as [Hc _]. injection E as <- <- <-. split_and!; auto.
  - intros q running pending nets (_ & _ & Hu) Hid Hres Hne Hname Hp. unfold DestroyNetwork_refused. rewrite Hres.
    rewrite (first_some_none (involved running pending (network q))).
    + destruct (decide (net_mode (network q) = ModeVlan)) as [Hv|]; [|by left]. destruct (truthy _); [|by left].
      destruct (first_some (attached (network q)) nets) as [e|] eqn:E; [|by left]. right. split; [done|].
      apply first_some_in in E as (o & Ho & E). exists o. split; [done|]. by exists e.
    + intros m Hm. apply not_used; [congruence|done| |rewrite Hid; by apply Hp]. apply list_elem_of_fmap in Hm as (v & -> & Hv).
      destruct (uses_network (network q) (vm_manifest v)) eqn:E; [|done]. exfalso. assert (v ∈ users q) as Hin.
      { unfold users. apply list_elem_of_In, filter_In. by rewrite <- list_elem_of_In. }
      rewrite Hu in Hin. by apply not_elem_of_nil in Hin.
Qed.
End properties.

(** ** The page *)

Inductive page_action := OpenCreate | CloseCreate | RetryNetworks | InRow (id : string) (a : action).

Definition page_step (creating : bool) (a : page_action) : bool :=
  match a with OpenCreate => true | CloseCreate => false | _ => creating end.

Definition Networks (admin creating : bool) (networks : @UseResource.view (list Network)) (error : string) (row : Network → node action) : node page_action :=
  box "div"
    ([label "h1" "Networks"] ++ when admin [button "Create network" false OpenCreate] ++
     ResourceNotice networks "networks" RetryNetworks ++ JobNotice error ++
     when (negb (UseResource.loading networks))
       (match UseResource.data networks with
        | [] => when (negb (truthy (UseResource.error networks))) [label "h2" "No networks yet"; label "p" "Create a network to define its topology."]
        | l => (λ n, map_node (InRow (net_id n)) (row n)) <$> l
        end) ++
     when creating [El "CreateNetworkDialog" [] false [CloseCreate] []])%list.

(** ** A concrete row *)

Definition sample_network : Network := mkNetwork None None None None None None "n1" None ModeSwitch "lab" None None None None None.
Definition sample_row : properties := mkProps sample_network true (UseResource.mkView [] "" false).

Lemma network_row_destroys_witness :
  DestroyNetwork_refused (λ _, false) (λ _, []) [sample_network] [] "n1" = inl sample_network.
Proof.
  destruct (network_row_destroys (Hdialogs := plain_dialogs) sample_row [] [User AskDelete ""] ConfirmDelete "" "n1") as [_ H].
  - legal_run.
  - apply list_elem_of_In; vm_compute; tauto.
  - by left.
  - destruct (H sample_row (λ _, false) (λ _, []) [sample_network]) as [E|[E _]]; done.
Defined.
