(* ===== verification/VmDisks.v ===== *)
(** * The disks of a machine ([src/web/src/components/VMDisks.tsx])

    The panel that lists the disks, each a card of [VmDataDisk], and adds one through a dialog, as a component
    that acts through its row; and what the server ([addDataDisk] of [src/pkg/engine/disks.go]) adds to the
    manifest for it. Image files and QEMU are outside. *)

From S2P Require Import Prelude JsString Regex JsNumber Types Ux JobTracking Dom Widgets RowComponent EntryRows VmDataDisk.
Local Open Scope string_scope.

(** ** The server's side *)

Section server.
(** [strings.TrimSpace]. *)
Context (TrimSpace : string → string).

(** [ManageDisk] with [vm.disk.add] and no image, for the identifier it draws. *)
Definition AddDisk_saved (uuid : string) (m : VMManifest) (name : string) (size : Z) : VMManifest + string :=
  if (size <? 1)%Z || String.eqb (TrimSpace name) "" then inr "disk name and capacity of at least 1 GiB are required"
  else inl (set_disks ((m_disks m |?| []) ++ [mkVMDisk uuid (TrimSpace name) size])%list (m_boot_order m) (m_disk_size_gib m) m).
End server.

(** ** The panel *)

Module VMDisks.

Inductive request := AddDisk (id name : string) (size : Z).

(** The dialog, with the row of the capacity, while it is open; the name and the capacity outlive it. *)
Record disks_state := mkDisks { adding : option integer_row; name : string; size : Z }.

Inductive action := OpenAdd | CloseAdd | TypeName | TypeSize | CancelAdd | SubmitAdd.
#[export] Instance action_eq_dec : EqDecision action.
Proof. solve_decision. Defined.

Definition vm_id (vm : VMView) : string := m_id (vm_manifest vm).
Definition vm_name (vm : VMView) : string := m_name (vm_manifest vm).

Definition valid (s : disks_state) : bool :=
  truthy (trim (name s)) && (Z.abs (size s) <=? MAX_SAFE_INTEGER)%Z && (1 <=? size s)%Z.

Definition add (vm : VMView) (v : row_view) (s : disks_state) : outcome disks_state unit request :=
  if rv_busy v || negb (valid s) then Do s [] else Execute "vm.disk.add" tt (AddDisk (vm_id vm) (name s) (size s)).

(** What is typed for the capacity reaches the panel when it is a number in range. *)
Definition type_size (text : string) (s : disks_state) : disks_state :=
  match adding s with
  | Some r =>
      let (r', reported) := integer_change 1 MAX_SAFE_INTEGER text r in
      mkDisks (Some r') (name s) (match reported with Some n => n | None => size s end)
  | None => s
  end.

Definition handle (vm : VMView) (v : row_view) (s : disks_state) (a : action) (text : string) : outcome disks_state unit request :=
  match a with
  | OpenAdd => Do (mkDisks (Some match adding s with Some r => r | None => integer_open (size s) end) (name s) (size s)) []
  | CloseAdd => Do (if rv_busy v then s else mkDisks None (name s) (size s)) []
  | CancelAdd => Do (mkDisks None (name s) (size s)) []
  | TypeName => Do (mkDisks (adding s) text (size s)) []
  | TypeSize => Do (type_size text s) []
  | SubmitAdd => add vm v s
  end.

(** The cards of the disks: the boot disk, and the others. *)
Definition cards (vm : VMView) : list properties :=
  mkProps vm (mkVMDisk "boot" "Disk 1" (m_disk_size_gib (vm_manifest vm))) true ::
  ((λ d, mkProps vm d false) <$> (m_disks (vm_manifest vm) |?| [])).

Definition add_dialog (v : row_view) (s : disks_state) (r : integer_row) : node action :=
  El "Dialog" [("title", "Add disk")] false [CloseAdd]
    [El "fieldset" [] (rv_busy v) []
       [El "EntryRow" [("id", "new-disk-name"); ("title", "Name"); ("value", name s)] false [TypeName] [];
        IntegerEntryRow "new-disk-size" "Capacity (GiB)" 1 MAX_SAFE_INTEGER TypeSize r];
     button "Cancel" (rv_busy v) CancelAdd;
     El "button" [("type", "submit")] (rv_busy v || negb (valid s))
       (if integer_valid 1 MAX_SAFE_INTEGER r && truthy (name s) then [SubmitAdd] else []) [Text (if rv_busy v then "Adding…" else "Add disk")]].

(** The panel but for its cards, which are components of their own. *)
Definition render (vm : VMView) (v : row_view) (s : disks_state) : node action :=
  box "div"
    ([label "h2" ("Disks (" ++ pretty (S (length (m_disks (vm_manifest vm) |?| []))) ++ ")")%string; button "Add disk" (rv_busy v) OpenAdd] ++
     ActionStatus (rv_job v) (rv_error v) false ++
     match adding s with Some r => [add_dialog v s r] | None => [] end)%list.

Definition VMDisks : component VMView disks_state action Empty_set unit request := {|
  scope := "vm"; ident := vm_id; called := vm_name; act := handle; ambient _ s _ := s;
  after _ s := mkDisks None (name s) (size s); RowComponent.render := render |}.
Definition start (vm : VMView) (jobs : list Job) : state VMView disks_state unit := mount vm jobs (mkDisks None "Disk" 10).
Notation C := VMDisks.

#[export] Instance VMDisks_guarded : Guarded VMDisks.
Proof.
  intros p v d a text n k r _ E. change (handle p v d a text = Execute n k r) in E. destruct a; cbn in E; try done.
  unfold add in E. destruct (rv_busy v), (valid d); cbn in E; by simplify_eq.
Qed.

Lemma disks_offers vm v s : SubmitAdd ∈ offers (render vm v s) →
  ∃ r, adding s = Some r ∧ valid s = true ∧ rv_busy v = false ∧ integer_valid 1 MAX_SAFE_INTEGER r = true ∧ name s ≠ "".
Proof.
  intros H. unfold render, add_dialog in H. offered H; simplify_eq; try done.
  - by apply integer_row_offers in H.
  - destruct (integer_valid _ _ _ && _) eqn:E; [|by apply not_elem_of_nil in H]. apply andb_prop in E as [E Hn%truthy_true].
    match goal with H : _ || negb _ = false |- _ => apply orb_false_iff in H as [? ?%negb_false_iff] end. eauto 10.
Qed.

(** The capacity is the number its row holds while the dialog is open. *)
Definition disks_inv (s : state VMView disks_state unit) : Prop :=
  match adding (local s) with Some r => integer_sync 1 MAX_SAFE_INTEGER r ∧ int_value r = size (local s) | None => True end.

Lemma disks_step s e : disks_inv s → disks_inv (step C s e).1.
Proof.
  unfold disks_inv. intros Hi. destruct e as [a text|[]|p|l|n answer]; [|done..|].
  - destruct a; cbn; try done.
    + destruct (adding (local s)); [done|]. by split; [apply integer_open_sync|].
    + by destruct (row_busy _ _ _ _ _).
    + unfold type_size. destruct (adding (local s)) as [r|] eqn:E; [|by rewrite E].
      destruct Hi as [Hr Hv]. destruct (integer_change_sync 1 MAX_SAFE_INTEGER text r Hr) as (H1 & H2 & H3).
      destruct (integer_change 1 MAX_SAFE_INTEGER text r) as [r' [n|]]; cbn in *; (split; [done|]); [by apply (H2 n)|].
      rewrite (H3 eq_refl). done.
    + unfold add. by destruct (_ || _).
  - cbn. unfold answered. destruct (awaiting s !! n); [|done]. by destruct answer.
Qed.

(** A disk is added with the name and the capacity on the screen. In the panel used through its controls, one
    request is under way at a time; it carries the name typed and the number in the text of the capacity, whole, at
    least 1 and exact in the language; and the server, if the name is not blank for it, adds a disk of that
    capacity under that name behind the others and leaves those as they are. *)
Theorem disk_added TrimSpace uuid vm jobs es a text r :
  let s := (run (step C) (start vm jobs) es).1 in
  legal (step C) (view C) user (start vm jobs) es → a ∈ offers (view C s) → r ∈ snd (step C s (User a text)) →
  busy C s = false ∧ awaiting s = [] ∧ snd (step C s (User a text)) = [r] ∧ busy C (fst (step C s (User a text))) = true ∧
  a = SubmitAdd ∧
  ∃ row n, adding (local s) = Some row ∧ n = digits_value (int_text row) ∧ (1 ≤ n ≤ MAX_SAFE_INTEGER)%Z ∧
    trim (name (local s)) ≠ "" ∧ r = AddDisk (vm_id (props s)) (name (local s)) n ∧
    ∀ m, TrimSpace (name (local s)) ≠ "" → ∃ m', AddDisk_saved TrimSpace uuid m (name (local s)) n = inl m' ∧
      m_disks m' = Some ((m_disks m |?| []) ++ [mkVMDisk uuid (TrimSpace (name (local s))) n])%list.
Proof.
  cbn zeta. intros Hl Ha Hr. assert (disks_inv (run (step C) (start vm jobs) es).1) as Hi.
  { apply (legal_invariant (step C) (view C) user disks_inv); [done| |done]. intros s e Hs _. by apply disks_step. }
  unfold start in *. set (s := (run (step C) (mount vm jobs (mkDisks None "Disk" 10)) es).1) in *.
  destruct (legal_requests C vm jobs _ es a text r Hl Ha Hr) as [(d & rs & E & Hrs)|((n & k & E) & Hb & Hw & Hs & Hb')]; fold s in E;
    change (act C (props s) (row_of C s) (local s) a text) with (handle (props s) (row_of C s) (local s) a text) in E.
  { destruct a; cbn in E; unfold add in E; repeat case_match; try discriminate; injection E as _ <-; by apply not_elem_of_nil in Hrs. }
  destruct a; cbn in E; try discriminate. destruct (disks_offers _ _ _ Ha) as (row & Hrow & Hv & _ & Hiv & _).
  unfold add in E. rewrite Hv in E. destruct (rv_busy _ || _); [discriminate|]. injection E as <- <- <-.
  unfold disks_inv in Hi. rewrite Hrow in Hi. destruct Hi as [[_ Hsync] Hval]. specialize (Hsync Hiv).
  unfold valid in Hv. apply andb_prop in Hv as [[Hname%truthy_true Hmax%Z.leb_le]%andb_prop Hmin%Z.leb_le].
  split_and!; try done. exists row, (size (local s)). rewrite Hsync, Hval. split_and!; try done; [lia|].
  intros m Hne. unfold AddDisk_saved. destruct (Z.ltb_spec (size (local s)) 1); [lia|]. rewrite (proj2 (String.eqb_neq _ _) Hne). eauto.
Qed.

Lemma disk_added_witness :
  let m := vm_manifest (mkVMView 0 (mkVMManifest None None None 2 20 None "vm1" "img" None None 2048 "web" None None None "root") "stopped" 0) in
  ∃ m', AddDisk_saved trim "d1" m "Data" 32 = inl m' ∧ m_disks m' = Some [mkVMDisk "d1" "Data" 32].
Proof.
  intros m. destruct (disk_added trim "d1" (mkVMView 0 m "stopped" 0) [] [User OpenAdd ""; User TypeName "Data"; User TypeSize "32"] SubmitAdd "" (AddDisk "vm1" "Data" 32))
    as (_ & _ & _ & _ & _ & row & n & _ & _ & _ & _ & [= <-] & H).
  - legal_run.
  - apply list_elem_of_In; vm_compute; tauto.
  - by left.
  - by destruct (H m) as (m' & E & Hd); [|exists m'].
Defined.
End VMDisks.
