(* ===== verification/Inventory.v ===== *)
(** * The lists of machines and disks

    The page of disks with its rows and pages ([src/web/src/pages/Disks.tsx], [components/DiskRow.tsx],
    [DiskStatCard.tsx], [StatCard.tsx], against [paginate] of [src/pkg/api/pagination.go]), and the page of
    machines with its rows, its figures and its button ([pages/VMs.tsx], [components/VMRow.tsx],
    [HostStatCards.tsx], [SourceName.tsx], [SplitButton.tsx]). *)

From S2P Require Import Prelude JsString Types Ux UseResource PathSerializer Dom Widgets Activity.
Local Open Scope string_scope.

(** ** Pages of the server *)

Record Page (A : Type) := mkPageOf { page_items : list A; page_number : nat; page_size : nat; page_total : nat; page_count : nat }.
Arguments mkPageOf {A}. Arguments page_items {A}. Arguments page_number {A}. Arguments page_size {A}. Arguments page_total {A}. Arguments page_count {A}.

Definition paginate {A} (items : list A) (page size : nat) : Page A :=
  let total := length items in
  let totalPages := Nat.max 1 ((total + size - 1) / size) in
  let page := Nat.min page totalPages in
  let start := Nat.min ((page - 1) * size) total in
  let end_ := Nat.min (start + size) total in
  mkPageOf (take (end_ - start) (drop start items)) page size total totalPages.

(** [listDisks] for a page and a size given as numbers; [None]: a bad request. *)
Definition listDisks (disks : list DiskView) (page size : nat) : option (Page DiskView) :=
  if (page <? 1)%nat || (size <? 1)%nat || (100 <? size)%nat then None else Some (paginate disks page size).

Lemma paginate_items {A} (items : list A) (page size : nat) :
  page_items (paginate items page size) = take size (drop ((page_number (paginate items page size) - 1) * size)%nat items).
Proof.
  unfold paginate. cbn. set (p := (_ - 1)%nat). destruct (decide (p * size ≤ length items)%nat) as [Hle|Hgt].
  - rewrite (Nat.min_l (p * size)) by done. destruct (decide (p * size + size ≤ length items)%nat).
    + rewrite Nat.min_l by done. f_equal. lia.
    + rewrite Nat.min_r by lia. rewrite !take_ge; [done|rewrite length_drop; lia..].
  - rewrite (Nat.min_r (p * size)) by lia. rewrite (drop_ge items (p * size)) by lia. rewrite drop_all. by rewrite !take_nil.
Qed.

(** The pages hold the items once, in order. *)
Lemma paginate_all {A} (items : list A) (size : nat) : (1 ≤ size)%nat →
  flat_map (λ i, page_items (paginate items (i + 1) size)) (seq 0 (page_count (paginate items 1 size))) = items.
Proof.
  intros Hs. assert (∀ k : nat, (k ≤ page_count (paginate items 1 size))%nat →
    flat_map (λ i, page_items (paginate items (i + 1) size)) (seq 0 k) = flat_map (λ i, take size (drop (i * size)%nat items)) (seq 0 k)) as H.
  { induction k as [|k IH]; [done|]. intros Hk. rewrite seq_S, !flat_map_app, IH by lia. f_equal. cbn [flat_map Nat.add]. rewrite !app_nil_r.
    rewrite paginate_items. cbn [page_number paginate page_count] in Hk |- *. do 3 f_equal. lia. }
  rewrite H, slices by done. apply take_ge. by apply ceil_covers.
Qed.

(** ** Disks *)

Module Disks.

Definition PAGE_SIZE : nat := 25.

Inductive action := GoPage (value : nat) | RetryStorage | RetryDisks | OpenVM (id : string).
#[export] Instance action_eq_dec : EqDecision action.
Proof. solve_decision. Defined.

Record disks_state := mkDisks { page : nat; disks : @UseResource.view (option DiskPage); storage : @UseResource.view (option StorageStats) }.

Inductive event :=
  | User (a : action)
  | Loaded (v : @UseResource.view (option DiskPage))
  | StorageLoaded (v : @UseResource.view (option StorageStats)).

(** [Load]: the resource loads with a new page. *)
Inductive request := Load (page : nat) | RefreshDisks | RefreshStorage.

Definition step (s : disks_state) (e : event) : disks_state * list request :=
  match e with
  | User (GoPage v) => (mkDisks (v + 1) (disks s) (storage s), if (v + 1 =? page s)%nat then [] else [Load (v + 1)])
  | User RetryDisks => (s, [RefreshDisks])
  | User RetryStorage => (s, [RefreshStorage])
  | User (OpenVM _) => (s, [])
  | Loaded v => (mkDisks (page s) v (storage s), [])
  | StorageLoaded v => (mkDisks (page s) (disks s) v, [])
  end.

Definition start : disks_state := mkDisks 1 (UseResource.mkView None "" true) (UseResource.mkView None "" true).

Definition or_one (n : Z) : Z := if (n =? 0)%Z then 1 else n.
Definition items (s : disks_state) : list DiskView := match UseResource.data (disks s) with Some d => dpage_items d | None => [] end.
Definition total (s : disks_state) : Z := match UseResource.data (disks s) with Some d => dpage_total d | None => 0 end.
Definition total_pages (s : disks_state) : Z := match UseResource.data (disks s) with Some d => or_one (dpage_total_pages d) | None => 1 end.
Definition current (s : disks_state) : Z := match UseResource.data (disks s) with Some d => or_one (dpage_page d) | None => 1 end.

Section view.
(** [fmtBytes] of the component library, and doubles with what the cards compute of them: the share in percent,
    [Math.round] and the comparison with 90. *)
Context (fmtBytes : Z → string) {double : Type} (percent_used : Z → Z → double) (zero : double) (round : double → Z) (ge90 : double → bool).

Definition DiskRow (d : DiskView) : node action :=
  box "tr"
    ([label "td" (dv_name d)] ++ when (dv_boot_first d) [label "Badge" "Boot first"] ++
     [if truthy (dv_vm_name d) then El "a" [("href", "/vms/" ++ encodeURIComponent (dv_vm_id d))%string] false [OpenVM (dv_vm_id d)] [Text (dv_vm_name d)]
      else label "span" (if dv_orphaned d then "Not attached to a VM" else "VM unavailable");
      label "span" ("File: " ++ fmtBytes (dv_size_bytes d))%string] ++
     when (0 <? dv_capacity_gib d)%Z [label "span" ("Capacity: " ++ pretty (dv_capacity_gib d) ++ " GiB")%string] ++
     [label "Badge" (if dv_orphaned d then "Not Attached" else "Attached")])%list.

(** [StatCard]; its meter shows a value between 0 and 100. *)
Definition fill (pct : option double) : Z := Z.max 0 (Z.min 100 (match pct with Some x => round x | None => 0 end)).
Definition StatCard {A} (name value caption : string) (pct : option double) (barLabel meta : string) (warn : bool) : node A :=
  box "Card"
    ([label "span" name; label "p" value] ++ when (truthy caption) [label "p" caption] ++
     match pct with
     | Some x => [El "div" [("role", "meter"); ("aria-label", barLabel ||s name); ("aria-valuenow", pretty (fill pct)); ("aria-valuetext", pretty (round x) ++ "%")%string;
                            ("warn", if warn then "true" else "false")] false [] []]
     | None => []
     end ++ when (truthy meta) [label "p" meta])%list.

Definition DiskStatCard {A} (stats : StorageStats) : node A :=
  let pct := if (0 <? st_total_bytes stats)%Z then percent_used (st_total_bytes stats - st_free_bytes stats) (st_total_bytes stats) else zero in
  box "div"
    ([StatCard "Host Storage" (fmtBytes (st_free_bytes stats) ++ " free") ("Host volume capacity: " ++ fmtBytes (st_total_bytes stats)) (Some pct)
        "Host volume space used" ("VM disk files: " ++ fmtBytes (st_disks_bytes stats) ++ " · " ++ pretty (st_disk_count stats) ++ " disks") (ge90 pct)] ++
     when (ge90 pct) [label "NoticeBanner" "Host storage is low. Other files on this Mac also use this volume."])%list.

Definition view (s : disks_state) : node action :=
  let d := disks s in let loading := UseResource.loading d && match UseResource.data d with None => true | Some _ => false end in
  box "div"
    ([label "h1" "Disks"] ++ ResourceNotice (storage s) "host storage" RetryStorage ++
     match UseResource.data (storage s) with Some stats => [DiskStatCard stats] | None => [] end ++
     ResourceNotice d "disk inventory" RetryDisks ++
     when (negb loading)
       (if negb (total s =? 0)%Z
        then [box "table" (DiskRow <$> items s); El "nav" [] false (GoPage <$> seq 0 (Z.to_nat (total_pages s))) []]
        else when (negb (truthy (UseResource.error d)))
               [label "h2" "No disks yet"; label "p" "Disks appear here once you create virtual machines."]))%list.

Definition user (e : event) : option action := match e with User a => Some a | _ => None end.

(** The page of disks reaches all of them. Whatever its user did before, a page that it asks for is one the
    server serves: the one asked for, or the last if there are fewer, with at most 25 disks; and the pages that are
    then offered hold each disk once, in the server's order. *)
Theorem disk_pages es e p (inventory : list DiskView) :
  Load p ∈ (step (run step start es).1 e).2 →
  ∃ pg, listDisks inventory p PAGE_SIZE = Some pg ∧ page_number pg = Nat.min p (page_count pg) ∧ (length (page_items pg) ≤ PAGE_SIZE)%nat ∧
    page_total pg = length inventory ∧
    flat_map (λ i, match listDisks inventory (i + 1)%nat PAGE_SIZE with Some pg => page_items pg | None => [] end) (seq 0 (page_count pg)) = inventory.
Proof.
  intros Hr. assert (1 ≤ p)%nat as Hp.
  { destruct e as [a|v|v]; cbn in Hr; [|by apply not_elem_of_nil in Hr..]. destruct a; cbn in Hr; [|by apply list_elem_of_singleton in Hr..|by apply not_elem_of_nil in Hr].
    destruct (_ =? _)%nat; [by apply not_elem_of_nil in Hr|]. apply list_elem_of_singleton in Hr as [= ->]. lia. }
  assert (∀ q : nat, (1 ≤ q)%nat → listDisks inventory q PAGE_SIZE = Some (paginate inventory q PAGE_SIZE)) as Hserve.
  { intros q Hq. unfold listDisks. by destruct (Nat.ltb_spec q 1); [lia|]. }
  eexists. split; [by apply Hserve|]. split; [done|]. split; [rewrite paginate_items, length_take; unfold PAGE_SIZE; lia|]. split; [done|].
  rewrite <- (paginate_all inventory PAGE_SIZE) at 2 by (unfold PAGE_SIZE; lia). cbn [page_count paginate].
  apply flat_map_ext. intros i. by rewrite Hserve by lia.
Qed.
End view.
End Disks.

Lemma disk_pages_witness :
  ∃ pg, listDisks [] 3 Disks.PAGE_SIZE = Some pg ∧ page_number pg = 1%nat.
Proof.
  destruct (Disks.disk_pages [] (Disks.User (Disks.GoPage 2)) 3 []) as (pg & H & Hn & _); [by apply list_elem_of_singleton|].
  exists pg. split; [exact H|]. vm_compute in H. by injection H as <-.
Defined.

(** ** Machines *)

Module VMs.

(** [SplitButton]: the events of its menu; a press of the mouse anywhere else and the Escape key close it. *)
Inductive split_event := ToggleMenu | MouseDown (inside : bool) | KeyDown (key : string) | Choose (n : nat).
Record SplitAction := mkSplitAction { split_label : string; split_disabled : bool }.

Definition split_step (actions : list SplitAction) (open : bool) (e : split_event) : bool * list nat :=
  match e with
  | ToggleMenu => (negb open, [])
  | MouseDown inside => (if open && negb inside then false else open, [])
  | KeyDown key => (if open && String.eqb key "Escape" then false else open, [])
  | Choose n => (false, [n])
  end.

(** The main action is [None]. *)
Definition SplitButton (name : string) (actions : list SplitAction) (open : bool) : node (option split_event) :=
  box "div"
    (button name false None ::
     when (0 <? length actions)%nat
       (button "More actions" false (Some ToggleMenu) ::
        when open [box "menu" (imap (λ i a, button (split_label a) (split_disabled a) (Some (Choose i))) actions)])).

(** [SourceName] *)
Definition SourceName (image : string) (catalog : @UseResource.view (list CatalogImage)) (media : @UseResource.view (list Media)) : string :=
  if negb (truthy image) then "ISO Installation" else
  match List.find (λ i, String.eqb (img_id i) image) (UseResource.data catalog) with
  | Some preset => img_display_name preset ++ " · " ++ img_arch preset
  | None =>
      match List.find (λ m, String.eqb ("media:" ++ media_id m) image || String.eqb (media_id m) image) (UseResource.data media) with
      | Some custom => media_name custom ++ " · Custom Image"
      | None => if UseResource.loading catalog || UseResource.loading media then "Loading Source…" else "Source Unavailable (" ++ image ++ ")"
      end
  end.

Definition runs (v : VMView) : bool := String.eqb (vm_phase v) "running".
Definition sum (f : VMView → Z) (l : list VMView) : Z := foldl (λ s v, s + f v)%Z 0%Z l.
Definition cpus (v : VMView) : Z := m_cpus (vm_manifest v).
Definition memory (v : VMView) : Z := m_memory_mib (vm_manifest v).

Inductive action := OpenCreate | CloseCreate | RetryHost | RetryStorage | RetryVMs | OpenVM (id : string) | InPreview (id : string) | InMenu (id : string).

Section view.
(** [fmtBytes] and doubles as for the disks, and [memoryLabel] of a number of bytes over those of a MiB. *)
Context (fmtBytes : Z → string) {double : Type} (percent_used : Z → Z → double) (zero : double) (round : double → Z) (ge90 : double → bool).
Context (memoryLabel_bytes : Z → string).

Definition HostStatCards (host : HostInfo) (vms : list VMView) (storage : option StorageStats) : node action :=
  let running := List.filter runs vms in let usedCpus := sum cpus running in
  box "div"
    ([Disks.StatCard round "CPU Assigned to Running VMs" (pretty usedCpus ++ " vCPUs")
        ("Host capacity: " ++ pretty (host_cpus host) ++ " CPUs · " ++ pretty (length running) ++ " running VMs") None ""
        (pretty (sum cpus vms) ++ " vCPUs configured across all VMs" ++ (if (host_cpus host <? usedCpus)%Z then " · Running VMs share physical CPUs" else "")) false;
      Disks.StatCard round "Memory Assigned to Running VMs" (memoryLabel (sum memory running))
        ("Host capacity: " ++ memoryLabel_bytes (host_memory_bytes host)) None ""
        (memoryLabel (sum memory vms) ++ " configured across all VMs") false] ++
     match storage with Some stats => [Disks.DiskStatCard fmtBytes percent_used zero round ge90 stats] | None => [] end)%list.

(** A row, with its preview and its menu, components of their own. *)
Definition VMRow (catalog : @UseResource.view (list CatalogImage)) (media : @UseResource.view (list Media)) (preview menu : node action) (v : VMView) : node action :=
  let m := vm_manifest v in let href := "/vms/" ++ m_id m in
  box "tr"
    [El "a" [("href", href); ("aria-label", "Open " ++ m_name m)] false [OpenVM (m_id m)] [preview];
     El "a" [("href", href)] false [OpenVM (m_id m)] [Text (m_name m)];
     label "td" (SourceName (m_image m) catalog media); label "td" (memoryLabel (m_memory_mib m));
     label "Badge" (if runs v then "Running" else if String.eqb (vm_phase v) "stopped" then "Stopped" else vm_phase v);
     label "td" (if m_autostart m |?| false then "Yes" else "No"); menu].

Definition page_step (creating : bool) (a : action) : bool := match a with OpenCreate => true | CloseCreate => false | _ => creating end.

Definition VMs (admin creating : bool) (vms : @UseResource.view (list VMView)) (host : @UseResource.view (option HostInfo))
    (storage : @UseResource.view (option StorageStats)) (error : string) (row : VMView → node action) : node action :=
  box "div"
    ([label "h1" "Virtual machines"] ++
     when admin [map_node (λ _, OpenCreate) (SplitButton "Create virtual machine" [] false)] ++
     ResourceNotice host "host capacity" RetryHost ++ ResourceNotice storage "host storage" RetryStorage ++
     match UseResource.data host with Some h => [HostStatCards h (UseResource.data vms) (UseResource.data storage)] | None => [] end ++
     ResourceNotice vms "virtual machines" RetryVMs ++ JobNotice error ++
     when (negb (UseResource.loading vms))
       (match UseResource.data vms with
        | [] => when (negb (truthy (UseResource.error vms)))
            [label "h2" "No virtual machines yet";
             label "p" (if admin then "Create your first virtual machine to get started." else "An administrator can create virtual machines.")]
        | l => row <$> l
        end) ++
     when creating [El "CreateVMDialog" [] false [CloseCreate] []])%list.
End view.

(** The machines that run have no more than all machines have. *)
Lemma sum_foldl f l z : foldl (λ s v, s + f v)%Z z l = (z + sum f l)%Z.
Proof. revert z. unfold sum. induction l as [|v l IH]; intros z; cbn; [lia|]. rewrite IH, (IH (0 + f v)%Z). lia. Qed.

Lemma sum_cons f v l : sum f (v :: l) = (f v + sum f l)%Z.
Proof. unfold sum. cbn. by rewrite sum_foldl. Qed.

Lemma sum_app f l k : sum f (l ++ k)%list = (sum f l + sum f k)%Z.
Proof. unfold sum at 1. by rewrite foldl_app, sum_foldl. Qed.

(** What the running machines use lies between nothing and what is configured. *)
Lemma running_bounds (f : VMView → Z) l : (∀ x, x ∈ l → (0 ≤ f x)%Z) → (0 ≤ sum f (List.filter runs l) ≤ sum f l)%Z.
Proof.
  intros Hf. induction l as [|x l IH]; [done|]. destruct IH as [H1 H2]; [intros y Hy; apply Hf; by right|].
  pose proof (Hf x (list_elem_of_here _ _)). cbn [List.filter]. rewrite sum_cons. destruct (runs x); rewrite ?sum_cons; lia.
Qed.

(** Starting one machine moves it by what that machine has, and leaves what is configured. *)
Lemma running_starts (f : VMView → Z) before v w after : runs v = false → runs w = true → f w = f v →
  sum f (List.filter runs (before ++ w :: after)%list) = (sum f (List.filter runs (before ++ v :: after)%list) + f v)%Z ∧
  sum f (before ++ w :: after)%list = sum f (before ++ v :: after)%list.
Proof.
  intros Hv Hw Hf. rewrite !List.filter_app, !sum_app. cbn [List.filter]. rewrite Hv, Hw, !sum_cons. lia.
Qed.
End VMs.
