(* ===== verification/MachinePages.v ===== *)
(** * The page of a machine ([src/web/src/pages/VMDetails.tsx])

    The tabs of the page and the panels behind them, the overview ([components/VMWorkspace.tsx]) and what the
    guest agent reports ([components/GuestAgent.tsx]). The panels, the preview, the menu and the consoles are
    components of their own. *)

From S2P Require Import Prelude JsString Types Ux UseResource Dom Widgets VmNetwork Consoles Inventory.
Local Open Scope string_scope.

(** ** The tabs *)

Module VMDetails.

Inductive VMTab := Overview | Compute | Network | DisksTab | Usb | MediaTab | Backups.
#[export] Instance VMTab_eq_dec : EqDecision VMTab.
Proof. solve_decision. Defined.

Definition tabs : list (VMTab * string * string) := [
  (Overview, "overview", "Overview"); (Compute, "compute", "CPU & memory"); (Network, "network", "Network"); (DisksTab, "disks", "Disks");
  (Usb, "usb", "USB devices"); (MediaTab, "media", "Media & boot"); (Backups, "backups", "Snapshots & backups")].
Definition tab_key (t : VMTab) : string := match List.find (λ x, bool_decide (x.1.1 = t)) tabs with Some x => x.1.2 | None => "" end.

(** [URLSearchParams]: [get] is the first value of a name; [set] changes it and drops the others, or adds one. *)
Definition get (k : string) (l : list (string * string)) : option string := snd <$> List.find (λ p, String.eqb (fst p) k) l.
Fixpoint set (k v : string) (l : list (string * string)) : list (string * string) :=
  match l with
  | [] => [(k, v)]
  | (k', v') :: r => if String.eqb k' k then (k, v) :: List.filter (λ p, negb (String.eqb (fst p) k)) r else (k', v') :: set k v r
  end.

Definition visibleTabs (admin : bool) : list (VMTab * string * string) :=
  if admin then tabs else List.filter (λ x, bool_decide (x.1.1 = Overview)) tabs.
Definition requested (params : list (string * string)) : VMTab :=
  match get "tab" params with
  | Some key => match List.find (λ x, String.eqb x.1.2 key) tabs with Some x => x.1.1 | None => Overview end
  | None => Overview
  end.
Definition current_tab (admin : bool) (params : list (string * string)) : VMTab := if admin then requested params else Overview.

(** What [setSearchParams] is called with, if it is. *)
Definition selectTab (admin : bool) (value : VMTab) (params : list (string * string)) : option (list (string * string)) :=
  if decide (value = current_tab admin params) then None else Some (set "tab" (tab_key value) params).

Section view.
Context {A : Type}.
Inductive action := SelectTab (t : VMTab) | RetryVM | Back | InPanel (t : VMTab) (a : A).

Definition networkName (m : option VMManifest) (networks : @UseResource.view (list Types.Network)) : string :=
  let refs := match m with
    | Some m => match m_interfaces m with Some l => Some ∘ nic_network <$> l | None => [m_network m] end
    | None => [None]
    end in
  join ", " ((λ r, vmNetworkName r (UseResource.data networks) (UseResource.loading networks)) <$> refs) ||s "None".

Definition render (admin : bool) (params : list (string * string)) (vm : @UseResource.view (option VMView)) (error : string)
    (panel : VMTab → VMView → node A) : node action :=
  box "div"
    ([El "a" [("href", "/")] false [Back] [Text "Back to virtual machines"];
      label "h1" (match UseResource.data vm with Some v => m_name (vm_manifest v) | None => "" end ||s "Virtual machine")] ++
     ResourceNotice vm "virtual machine" RetryVM ++ JobNotice error ++
     match UseResource.data vm with
     | None => []
     | Some v =>
         ((λ x : VMTab * string * string, button x.2 false (SelectTab x.1.1)) <$> visibleTabs admin) ++
         ((λ x : VMTab * string * string, El "div" [("role", "tabpanel"); ("id", ("vm-details-panel-" ++ x.1.2)%string)]
             (negb (bool_decide (current_tab admin params = x.1.1))) [] [map_node (InPanel x.1.1) (panel x.1.1 v)]) <$> visibleTabs admin)
     end)%list.
End view.
Arguments action : clear implicits.

Lemma get_set k v l : get k (set k v l) = Some v.
Proof.
  unfold get. induction l as [|[k' v'] l IH]; cbn; [by rewrite String.eqb_refl|].
  destruct (String.eqb k' k) eqn:E; cbn; [by rewrite String.eqb_refl|]. by rewrite E.
Qed.

Lemma get_set_ne k k' v l : k' ≠ k → get k' (set k v l) = get k' l.
Proof.
  intros Hne. unfold get. induction l as [|[k1 v1] l IH]; cbn.
  - by rewrite (proj2 (String.eqb_neq _ _)).
  - destruct (String.eqb_spec k1 k) as [->|Hk]; cbn; [|by destruct (String.eqb k1 k')].
    rewrite (proj2 (String.eqb_neq k k')) by done. clear IH. induction l as [|[k2 v2] l IH]; [done|]. cbn.
    destruct (String.eqb_spec k2 k) as [->|Hk2]; cbn; [by rewrite (proj2 (String.eqb_neq k k'))|]. by destruct (String.eqb k2 k').
Qed.

Lemma requested_set t params : requested (set "tab" (tab_key t) params) = t.
Proof. unfold requested. rewrite get_set. by destruct t. Qed.

Lemma visible_overview x : x ∈ visibleTabs false → x.1.1 = Overview.
Proof. by intros ->%list_elem_of_singleton. Qed.

(** The page of a machine shows one panel, and to users without the rights only the overview. What can be done in
    a panel is what the panel of the current tab offers; without the rights no other panel is there, whatever the
    address says, nor a tab that leads to one; and choosing another tab makes it the current one and changes nothing
    else in the address, while choosing the current one changes nothing. *)
Theorem vm_details_tabs {A} admin params vm error (panel : VMTab → VMView → node A) t :
  (∀ a, InPanel t a ∈ offers (render admin params vm error panel) →
     t = current_tab admin params ∧ ∃ v, UseResource.data vm = Some v ∧ a ∈ offers (panel t v)) ∧
  (SelectTab t ∈ offers (render admin params vm error panel) →
     (admin = false → t = Overview ∧ selectTab admin t params = None) ∧
     match selectTab admin t params with
     | Some params' => current_tab admin params' = t ∧ t ≠ current_tab admin params ∧ ∀ k, k ≠ "tab" → get k params' = get k params
     | None => current_tab admin params = t
     end).
Proof.
  assert (∀ b, b ∈ offers (render admin params vm error panel) → ∀ s, b = SelectTab s → ∃ x, x ∈ visibleTabs admin ∧ x.1.1 = s) as Hs.
  { intros b H s ->. unfold render in H. offered H; try done; apply offers_fmap in H as (x & Hx & H).
    - apply offers_button in H as [_ [= ->]]. by exists x.
    - apply offers_el in H as [_ [H|H]]; [by apply not_elem_of_nil in H|]. offered H. rewrite offers_map in H. by apply list_elem_of_fmap in H as (? & ? & _). }
  split.
  - intros a H. unfold render in H. offered H; try done; apply offers_fmap in H as (x & Hx & H).
    + by apply offers_button in H as [_ H].
    + apply offers_el in H as [Hd [H|H]]; [by apply not_elem_of_nil in H|]. apply negb_false_iff, bool_decide_eq_true in Hd. offered H.
      rewrite offers_map in H. apply list_elem_of_fmap in H as (b & [= -> ->] & Hb). eauto.
  - intros H. destruct (Hs _ H t eq_refl) as (x & Hx & <-). split.
    + intros ->. apply visible_overview in Hx as ->. by split.
    + unfold selectTab. destruct (decide _) as [E|E]; [done|]. split_and!; [|done|by intros; apply get_set_ne].
      destruct admin; [apply requested_set|]. by apply visible_overview in Hx.
Qed.

Lemma vm_details_tabs_witness :
  let vm := UseResource.mkView (Some (mkVMView 0 (mkVMManifest None None None 2 20 None "vm1" "img" None None 2048 "web" None None None "root") "stopped" 0)) "" false in
  current_tab true (set "tab" "usb" [("tab", "disks")]) = Usb.
Proof.
  intros vm. destruct (vm_details_tabs true [("tab", "disks")] vm "" (λ _ _, box "div" [] : node unit) Usb) as [_ H].
  destruct H as [_ [H _]]; [apply list_elem_of_In; vm_compute; tauto|exact H].
Defined.
End VMDetails.

(** ** What the guest reports *)

Module Guest.

Definition units : list string := ["B"; "KiB"; "MiB"; "GiB"; "TiB"; "PiB"].

(** The loop of [formatBytes]: what is left of the bytes is their quotient by [den]. *)
Fixpoint scale (more : nat) (bytes den : Z) (unit : nat) : Z * nat :=
  match more with
  | O => (den, unit)
  | S more => if (1024 * den <=? bytes)%Z then scale more bytes (1024 * den) (S unit) else (den, unit)
  end.

Inductive action := Refresh | Retry.

Section view.
(** [toFixed] of a quotient. *)
Context (toFixed : Z → Z → nat → string).

Definition formatBytes (bytes : Z) : string :=
  if (bytes =? 0)%Z then "0 B" else
  let (den, unit) := scale (length units - 1) bytes 1 0 in
  toFixed bytes den (if (unit =? 0)%nat then 0 else 1)%nat ++ " " ++ default "" (units !! unit).

Definition Row {A} (name : string) (value : list (node A)) : node A := box "div" (label "dt" name :: value).

Definition addresses (nic : GuestInterface) : list GuestIPAddress := gif_ip_addresses nic |?| [].
Definition interfaces (d : option GuestAgent) : list GuestInterface :=
  List.filter (λ nic, negb (String.eqb (gif_name nic) "lo") && (0 <? length (addresses nic))%nat)
    (match d with Some d => ga_interfaces d |?| [] | None => [] end).
Definition filesystems (d : option GuestAgent) : list GuestFilesystem :=
  List.filter (λ fs, (0 <? fs_total_bytes fs)%Z) (match d with Some d => ga_filesystems d |?| [] | None => [] end).

Definition address_node {A} (a : GuestIPAddress) : node A :=
  box "span" [label "span" (gip_address a ++ "/" ++ pretty (gip_prefix a)); label "CopyButton" (gip_address a)].

Definition os_rows {A} (d : GuestAgent) : list (node A) :=
  (when (truthy (ga_hostname d |?| "")) [Row "Hostname" [Text (ga_hostname d |?| "")]] ++
   match ga_os d with
   | None => []
   | Some os =>
       when (truthy (os_pretty_name os |?| "")) [Row "OS" [Text (os_pretty_name os |?| "")]] ++
       when (truthy (os_kernel_release os |?| ""))
         [Row "Kernel" [Text ((os_kernel_release os |?| "") ++ (if truthy (os_machine os |?| "") then " (" ++ (os_machine os |?| "") ++ ")" else ""))%string]]
   end)%list.

Definition GuestAgent (agent : @UseResource.view (option Types.GuestAgent)) : node action :=
  let data := UseResource.data agent in
  let available := match data with Some d => ga_available d | None => false end in
  box "section"
    ([label "h2" "Guest Information"] ++
     match data with
     | Some d => when (ga_available d && truthy (ga_version d |?| "")) [label "span" ("qemu-guest-agent " ++ (ga_version d |?| ""))%string]
     | None => []
     end ++
     [button "Refresh" false Refresh] ++ ResourceNotice agent "guest information" Retry ++
     when (negb (UseResource.loading agent) && match data with Some d => negb (ga_available d) | None => false end)
       [label "p" "The QEMU guest agent is not responding. Install and start qemu-guest-agent inside the guest to see OS details, addresses, and filesystem usage here. Supported distribution images attempt to install it during automatic setup; custom images may need manual installation."] ++
     match data with
     | Some d =>
         when (ga_available d)
           (os_rows d ++
            when (0 <? length (interfaces data))%nat [box "dl" ((λ nic, Row (gif_name nic) (address_node <$> addresses nic)) <$> interfaces data)] ++
            when (length (interfaces data) =? 0)%nat
              [label "p" "No guest network addresses reported. Use the console to check guest connectivity."] ++
            when (0 <? length (filesystems data))%nat
              [box "dl" ((λ fs, Row (fs_mountpoint fs)
                 [Text (fs_type fs ++ " · " ++ formatBytes (fs_used_bytes fs) ++ " used of " ++ formatBytes (fs_total_bytes fs))%string]) <$> filesystems data)])
     | None => []
     end)%list.
End view.

Lemma scale_spec n bytes den unit : (0 < den)%Z → let '(d, u) := scale n bytes den unit in
  d = (den * 1024 ^ Z.of_nat (u - unit))%Z ∧ (unit ≤ u ≤ unit + n)%nat ∧
  ((u < unit + n)%nat → (bytes < 1024 * d)%Z) ∧ ((unit < u)%nat → (d ≤ bytes)%Z).
Proof.
  revert den unit. induction n as [|n IH]; intros den unit Hd; cbn [scale].
  - rewrite Nat.sub_diag. cbn. split_and!; lia.
  - destruct (Z.leb_spec (1024 * den) bytes) as [Hle|Hlt].
    + specialize (IH (1024 * den)%Z (S unit) ltac:(lia)). destruct (scale n bytes (1024 * den) (S unit)) as [d u]. destruct IH as (-> & H1 & H2 & H3).
      split_and!; try lia.
      * replace (Z.of_nat (u - unit)) with (Z.succ (Z.of_nat (u - S unit))) by lia. rewrite Z.pow_succ_r by lia. ring.
      * intros _. destruct (decide (S unit < u)%nat); [auto|]. replace (u - S unit)%nat with 0%nat by lia. cbn. lia.
    + rewrite Nat.sub_diag. cbn. split_and!; lia.
Qed.

(** An amount of bytes is shown in the largest unit that fits. For an amount other than 0 the shown number is the
    amount over a power of 1024, whole in bytes and with one digit else: at least 1 and below 1024 of its unit, but
    for bytes, which may be negative, and pebibytes, of which there may be more; and the unit is the one of that
    power. *)
Theorem formatBytes_unit toFixed bytes : bytes ≠ 0%Z →
  ∃ (u : nat) name, units !! u = Some name ∧
    formatBytes toFixed bytes = toFixed bytes (1024 ^ Z.of_nat u)%Z (if decide (u = 0) then 0 else 1)%nat ++ " " ++ name ∧
    ((0 < u)%nat → (1024 ^ Z.of_nat u ≤ bytes)%Z) ∧ (name ≠ "PiB" → (bytes < 1024 * 1024 ^ Z.of_nat u)%Z).
Proof.
  intros Hb. unfold formatBytes. rewrite (proj2 (Z.eqb_neq _ _) Hb). pose proof (scale_spec (length units - 1) bytes 1 0 ltac:(lia)) as H.
  destruct (scale (length units - 1) bytes 1 0) as [d u]. rewrite Nat.sub_0_r, Z.mul_1_l in H. destruct H as (-> & Hu & Hlt & Hge). cbn in Hu, Hlt.
  destruct (lookup_lt_is_Some_2 units u) as [name Hn]; [cbn; lia|]. exists u, name. rewrite Hn. split; [done|]. split; [|split; [done|]].
  - by destruct u.
  - intros Hp. apply Hlt. destruct (decide (u = 5%nat)) as [->|]; [|lia]. by injection Hn as <-.
Qed.

Lemma formatBytes_unit_witness : ∃ name, formatBytes (λ n d _, pretty (n / d)%Z) (3 * 2 ^ 30) = "3" ++ " " ++ name ∧ (name ≠ "PiB" → (3 * 2 ^ 30 < 1024 * 1024 ^ 3)%Z).
Proof.
  destruct (formatBytes_unit (λ n d _, pretty (n / d)%Z) (3 * 2 ^ 30)) as (u & name & Hn & H & H1 & H2); [done|]. exists name.
  assert (u = 3%nat) as ->.
  { destruct u as [|[|[|[|[|[|u]]]]]]; try done; injection Hn as <-; try (by specialize (H2 ltac:(done))); by specialize (H1 ltac:(lia)). }
  split; [etransitivity; [exact H|]; by vm_compute|exact H2].
Defined.
End Guest.

(** ** The overview *)

Module VMWorkspace.

(** The console that is open, if one is. *)
Definition workspace_state := option ConsoleMode.

Section view.
(** The actions of the menu and of the preview. *)
Context {M V : Type}.
Inductive action := InMenu (a : M) | InPreview (a : V) | OpenConsole (mode : ConsoleMode) | CloseConsole | InGuest (a : Guest.action).

Definition step (s : workspace_state) (a : action) : workspace_state :=
  match a with OpenConsole mode => Some mode | CloseConsole => None | _ => s end.

Definition running (vm : VMView) : bool := String.eqb (vm_phase vm) "running".

Definition Characteristic (name : string) (value : string) : node action := box "div" [label "dt" name; label "dd" value].

Definition disk_capacity (m : VMManifest) : Z := foldl (λ total d, total + disk_size_gib d)%Z (m_disk_size_gib m) (m_disks m |?| []).

(** The preview opens a console through [onOpenConsole], which administrators have. *)
Definition render (vm : VMView) (name_of_network : string) (catalog : @UseResource.view (list CatalogImage)) (media : @UseResource.view (list Media))
    (admin : bool) (menu : node M) (preview : node (V + ConsoleMode)) (guest : node Guest.action) (s : workspace_state) : node action :=
  let m := vm_manifest vm in
  box "div"
    ([map_node InMenu menu; label "Badge" (if running vm then "Running" else if String.eqb (vm_phase vm) "stopped" then "Stopped" else vm_phase vm);
      map_node (λ a, match a with inl a => InPreview a | inr mode => OpenConsole mode end) preview;
      label "p" (if running vm
                 then if admin then "Latest screenshot. Hover to open the graphical or serial console."
                      else "Latest screenshot, updated when a new capture is available."
                 else "Start the VM to see its display preview.");
      label "h2" "Virtual machine"] ++
     when (truthy (m_image m)) [Characteristic "Source" (VMs.SourceName (m_image m) catalog media)] ++
     [Characteristic "CPUs" (pretty (m_cpus m)); Characteristic "Memory" (memoryLabel (m_memory_mib m));
      Characteristic "Disk capacity" (pretty (disk_capacity m) ++ " GiB");
      Characteristic "Disks" (pretty (S (length (m_disks m |?| []))));
      Characteristic "Network" name_of_network; Characteristic "Automatic Startup" (if m_autostart m |?| false then "Enabled" else "Disabled");
      Characteristic "VM ID" (m_id m); label "CopyButton" (m_id m);
      Characteristic "Process ID" (if (vm_pid vm =? 0)%Z then "Not Running" else pretty (vm_pid vm))] ++
     when (running vm) [map_node InGuest guest] ++
     match s with
     | Some mode => when (running vm) [El "VMConsoleDialog" [("title", VMConsoleDialog_title (m_name m) mode)] false [CloseConsole] []]
     | None => []
     end)%list.

(** A console is on the page only while the machine runs, and what was open when it stopped is open again when it
    runs again. *)
Lemma console_shown vm n c md admin menu preview guest s :
  CloseConsole ∈ offers (render vm n c md admin menu preview guest s) → running vm = true ∧ ∃ mode, s = Some mode.
Proof.
  assert (∀ X (f : X → action) (n : node X), (∀ x, f x ≠ CloseConsole) → CloseConsole ∉ offers (map_node f n)) as Hmap.
  { intros X f k Hf H. rewrite offers_map in H. apply list_elem_of_fmap in H as (x & E & _). by apply (Hf x). }
  intros H. unfold render, Characteristic in H. cbn zeta in H. offered H; try done; try (apply Hmap in H; [done|by intros x; try destruct x]).
  split; [done|]. by eexists.
Qed.

Lemma disk_capacity_sum m : disk_capacity m = (m_disk_size_gib m + foldr Z.add 0 (disk_size_gib <$> (m_disks m |?| [])))%Z.
Proof.
  unfold disk_capacity. generalize (m_disk_size_gib m). induction (m_disks m |?| []) as [|d l IH]; intros z; cbn; [lia|]. rewrite IH. lia.
Qed.
End view.
Arguments action : clear implicits.
End VMWorkspace.
