(* ===== verification/Sse.v ===== *)
(** * Server-sent events

    [createSseClient] of [src/web/src/api/generated/core/serverSentEvents.gen.ts] and the [sse] methods
    of [client/client.gen.ts] that call it. The generator runs in the monad of [Client.v], over a world
    and the variables it keeps, with a log of what it does in the order it does it.

    The fetched body is the list of texts the decoder yields and the way it ends; a cancelled reader
    reports the end at its next read. The consumer answers every value with [next] or [return], or throws
    into the generator. Delays are integers: a delay the server sends is exact up to 2^53. *)

From S2P Require Import Prelude JsString Regex JsNumber Json PathSerializer Client.
Local Open Scope string_scope.

(** ** The text of a stream *)

Definition CR : ascii := "013".
Definition LF : ascii := "010".
Definition newline : string := String LF "".
Definition blank_line : string := newline ++ newline.

(** [s.replace(/\r\n?/g, '\n')] *)
Fixpoint normalize (s : string) : string :=
  match s with
  | "" => ""
  | String c r =>
      if Ascii.eqb c CR then
        String LF match r with
                  | "" => ""
                  | String d r2 => if Ascii.eqb d LF then normalize r2 else normalize r
                  end
      else String c (normalize r)
  end.

(** One read: the buffer grows, its complete chunks are taken off, the rest is kept. *)
Definition feed (buffer value : string) : list string * string :=
  let chunks := split_str blank_line (normalize (buffer ++ value)) in
  (removelast chunks, List.last chunks "").

(** [Number.parseInt(s, 10)]; [None] is [NaN]. *)
Definition parse_int (s : string) : option Z :=
  let s := trim_start s in
  let '(sign, s) :=
    match s with
    | String c r => if is_char "-" c then ((-1)%Z, r) else if is_char "+" c then (1%Z, r) else (1%Z, s)
    | "" => (1%Z, s)
    end in
  let d := fst (take_digits s) in
  if truthy d then Some (sign * digits_value d)%Z else None.

(** What the lines of a chunk set; the last two outlive the chunk. *)
Record chunk_state := mkChunk {
  dataLines : list string; eventName : option string; chunk_id : option string; chunk_retry : Z
}.

(** [line.replace(/^name:\s*/, '')] of a line that starts with [name:]. *)
Definition field_value (name line : string) : option string := trim_start <$> strip_prefix (name ++ ":") line.

Definition read_line (c : chunk_state) (line : string) : chunk_state :=
  match field_value "data" line with
  | Some v => mkChunk (dataLines c ++ [v])%list (eventName c) (chunk_id c) (chunk_retry c)
  | None =>
  match field_value "event" line with
  | Some v => mkChunk (dataLines c) (Some v) (chunk_id c) (chunk_retry c)
  | None =>
  match field_value "id" line with
  | Some v => mkChunk (dataLines c) (eventName c) (Some v) (chunk_retry c)
  | None =>
  match field_value "retry" line with
  | Some v => mkChunk (dataLines c) (eventName c) (chunk_id c) (default (chunk_retry c) (parse_int v))
  | None => c
  end end end end.

Definition read_chunk (lastEventId : option string) (retryDelay : Z) (chunk : string) : chunk_state :=
  fold_left read_line (split_on LF chunk) (mkChunk [] None lastEventId retryDelay).

(** ** The generator *)

(** The [headers] member of the options: an object of the platform, which the code writes to, or a
    plain record. *)
Inductive headers_option := HeadersObject (h : Headers) | HeadersRecord (l : list (string * string)).

(** How the consumer resumes the generator. *)
Inductive resumption := Next | Return.

Inductive outcome := Ended | OutOfFuel.

Section sse.
Context {W File V : Type} (boundary : string) (JSON_parse : string → option V).
Local Notation Request := (@Request File).

(** The value of an event: [undefined], read from JSON, or the text itself. *)
Inductive sse_data := NoData | JsonValue (v : V) | RawData (s : string).

Record StreamEvent := mkStreamEvent {
  data : sse_data; event : option string; id : option string; retry : option Z
}.

Record SseResponse := mkSseResponse {
  status : Z; statusText : string; sse_body : option (list string * option thrown)
}.

(** The [requestInit] of an attempt. *)
Record RequestInit := mkRequestInit {
  init_method : string; init_headers : Headers; init_body : option (@payload File)
}.

Record ServerSentEventsOptions := mkSseOptions {
  url : string; method : string; opt_headers : headers_option; serializedBody : option (@payload File);
  sse_fetch : Request → M W SseResponse;
  onRequest : option (string → RequestInit → M W Request);
  onSseError : option (thrown → M W unit);
  onSseEvent : option (StreamEvent → M W unit);
  responseValidator : option (V → M W unit);
  responseTransformer : option (V → M W V);
  sseDefaultRetryDelay : option Z; sseMaxRetryAttempts : option Z; sseMaxRetryDelay : option Z;
  sseSleepFn : Z → M W unit;
  aborted : W → bool
}.

(** What the generator does, in order. *)
Inductive effect :=
  | Connecting (h : Headers)
  | Fetching (r : Request)
  | EventHook (e : StreamEvent)
  | Yielded (d : sse_data)
  | ErrorHook (e : thrown)
  | Slept (ms : Z).

(** The variables that outlive an attempt, the shared headers object, and the log. *)
Record vars := mkVars { lastEventId : option string; retryDelay : Z; object : option Headers; log : list effect }.

Definition SM (A : Type) : Type := M (W * vars) A.
Definition lift {A} (m : M W A) : SM A := λ '(w, v), let '(r, w) := m w in (r, (w, v)).
Definition get : SM vars := λ '(w, v), (inl v, (w, v)).
Definition modify (f : vars → vars) : SM unit := λ '(w, v), (inl tt, (w, f v)).
Definition emit (e : effect) : SM unit := modify (λ v, mkVars (lastEventId v) (retryDelay v) (object v) (log v ++ [e])%list).
Definition is_aborted (o : ServerSentEventsOptions) : SM bool := λ '(w, v), (inl (aborted o w), (w, v)).

(** [hook?.(x)] *)
Definition call {A} (hook : option (A → M W unit)) (x : A) : SM unit :=
  match hook with Some f => lift (f x) | None => mret tt end.

Context (consume : sse_data → M W resumption).

Definition headers_of (l : list (string * string)) : Headers := fold_left (λ h '(k, v), headers_append k v h) l ∅.

(** One chunk: its lines, its value, the hook, the value for the consumer. *)
Definition dispatch (o : ServerSentEventsOptions) (chunk : string) : SM resumption :=
  v ← get;
  let c := read_chunk (lastEventId v) (retryDelay v) chunk in
  _ ← modify (λ v, mkVars (chunk_id c) (chunk_retry c) (object v) (log v));
  let rawData := join newline (dataLines c) in
  d ← match dataLines c with
      | [] => mret NoData
      | _ =>
          match JSON_parse rawData with
          | None => mret (RawData rawData)
          | Some x =>
              _ ← call (responseValidator o) x;
              match responseTransformer o with Some f => x ← lift (f x); mret (JsonValue x) | None => mret (JsonValue x) end
          end
      end;
  let e := mkStreamEvent d (eventName c) (chunk_id c) (Some (chunk_retry c)) in
  _ ← emit (EventHook e);
  _ ← call (onSseEvent o) e;
  match dataLines c with
  | [] => mret Next
  | _ => _ ← emit (Yielded d); lift (consume d)
  end.

Fixpoint dispatch_all (o : ServerSentEventsOptions) (chunks : list string) : SM resumption :=
  match chunks with
  | [] => mret Next
  | chunk :: rest => r ← dispatch o chunk; match r with Return => mret Return | Next => dispatch_all o rest end
  end.

(** The reads of one response. *)
Fixpoint read_all (o : ServerSentEventsOptions) (buffer : string) (reads : list string) (ending : option thrown) : SM resumption :=
  stop ← is_aborted o;
  if stop : bool then mret Next else
  match reads with
  | [] => match ending with None => mret Next | Some e => throw e end
  | value :: rest =>
      r ← dispatch_all o (fst (feed buffer value));
      match r with Return => mret Return | Next => read_all o (snd (feed buffer value)) rest ending end
  end.

(** The headers of an attempt; those of a [Headers] object are set on the object itself. *)
Definition request_headers (o : ServerSentEventsOptions) : SM Headers :=
  v ← get;
  let h := match opt_headers o with HeadersObject h => default h (object v) | HeadersRecord l => headers_of l end in
  let h := match lastEventId v with Some i => headers_set "Last-Event-ID" i h | None => h end in
  _ ← match opt_headers o with
      | HeadersObject _ => modify (λ v, mkVars (lastEventId v) (retryDelay v) (Some h) (log v))
      | HeadersRecord _ => mret tt
      end;
  mret h.

Definition connect (o : ServerSentEventsOptions) (h : Headers) : SM resumption :=
  let requestInit := mkRequestInit (method o) h (serializedBody o) in
  _ ← emit (Connecting h);
  request ← lift (λ w, (newRequest boundary (method o) (url o) h (serializedBody o), w));
  request ← match onRequest o with Some f => lift (f (url o) requestInit) | None => mret request end;
  _ ← emit (Fetching request);
  response ← lift (sse_fetch o request);
  if negb ((200 <=? status response)%Z && (status response <=? 299)%Z)
  then throw (JsError ("SSE failed: " ++ pretty (status response) ++ " " ++ statusText response))
  else match sse_body response with
       | None => throw (JsError "No body in SSE response")
       | Some (reads, ending) => read_all o "" reads ending
       end.

Definition backoff (o : ServerSentEventsOptions) (delay attempt : Z) : Z :=
  Z.min (delay * 2 ^ (attempt - 1)) (sseMaxRetryDelay o |?| 30000%Z).

Definition attempts_over (o : ServerSentEventsOptions) (attempt : Z) : bool :=
  match sseMaxRetryAttempts o with Some m => (m <=? attempt)%Z | None => false end.

(** The loop of attempts, [attempt] of them done. *)
Fixpoint attempts (fuel : nat) (o : ServerSentEventsOptions) (attempt : Z) : SM outcome :=
  match fuel with
  | O => mret OutOfFuel
  | S fuel =>
      stop ← is_aborted o;
      if stop : bool then mret Ended else
      let attempt := (attempt + 1)%Z in
      h ← request_headers o;
      again ← try_catch (_ ← connect o h; mret false) (λ error,
        _ ← emit (ErrorHook error);
        _ ← call (onSseError o) error;
        if attempts_over o attempt then mret false
        else v ← get;
             let ms := backoff o (retryDelay v) attempt in
             _ ← emit (Slept ms);
             _ ← lift (sseSleepFn o ms);
             mret true);
      if again : bool then attempts fuel o attempt else mret Ended
  end.

Definition initial (o : ServerSentEventsOptions) : vars := mkVars None (sseDefaultRetryDelay o |?| 3000%Z) None [].

(** The run of the generator [createStream()], drained by the consumer. *)
Definition createSseClient (fuel : nat) (o : ServerSentEventsOptions) : M W (outcome * vars) := λ w,
  let '(r, (w, v)) := attempts fuel o 0 (w, initial o) in
  (match r with inl x => inl (x, v) | inr e => inr e end, w).

End sse.

(** ** Splitting a growing text *)

Lemma split_fuel_cur n sep cur s : sep ≠ "" → String.length s < n →
  ∃ w ws, split_fuel n sep "" s = w :: ws ∧ split_fuel n sep cur s = (rev_str cur ++ w) :: ws.
Proof.
  intros Hsep. revert n cur. induction s as [|c s IH]; intros [|n] cur Hn; try (simpl in Hn; lia).
  - exists "", []. by rewrite str_app_nil_r.
  - cbn [split_fuel]. destruct (strip_prefix sep (String c s)) as [rest|].
    { eexists _, _. split; [reflexivity|]. by rewrite str_app_nil_r. }
    simpl in Hn. destruct (IH n (String c "") ltac:(lia)) as (w & ws & E1 & E2).
    destruct (IH n (String c cur) ltac:(lia)) as (w' & ws' & E1' & E2').
    rewrite E1 in E1'. simplify_eq. eexists _, _. split; [exact E2|]. rewrite E2'. f_equal.
    change (String c cur) with (String c "" ++ cur). by rewrite rev_str_app, str_app_assoc.
Qed.

Section split_equations.
Context (sep : string) (Hsep : sep ≠ "").

Lemma split_str_empty : split_str sep "" = [""].
Proof using All. by destruct sep. Qed.

Lemma split_str_nonempty s : split_str sep s ≠ [].
Proof using All. unfold split_str. destruct (split_fuel_cur (S (String.length s)) sep "" s Hsep ltac:(lia)) as (? & ? & -> & _). done. Qed.

Lemma split_str_sep w : split_str sep (sep ++ w) = "" :: split_str sep w.
Proof using All. apply (split_str_cons sep "" w Hsep). by intros []. Qed.

Lemma split_str_char c s w ws : starts_with sep (String c s) = false → split_str sep s = w :: ws →
  split_str sep (String c s) = String c w :: ws.
Proof using All.
  intros Hs E. unfold split_str in *. cbn [String.length]. remember (S (String.length s)) as n eqn:Hn.
  cbn [split_fuel]. rewrite (strip_prefix_none _ _ Hs).
  destruct (split_fuel_cur n sep (String c "") s Hsep ltac:(lia)) as (w' & ws' & E1 & ->). rewrite E in E1. by simplify_eq.
Qed.

Lemma starts_with_longer s t : (String.length sep ≤ String.length s)%nat → starts_with sep (s ++ t) = starts_with sep s.
Proof using Type.
  clear Hsep. revert s. induction sep as [|a p IH]; intros s Hl; [done|].
  destruct s as [|b s]; simpl in Hl; [lia|]. rewrite !starts_with_strip. cbn [String.append strip_prefix].
  destruct (Ascii.eqb a b); [|done]. rewrite <- !starts_with_strip. apply IH. lia.
Qed.

(** The pieces of a text but the last are those of every longer text; the last goes on. *)
Lemma split_str_app s : ∃ init tail, split_str sep s = (init ++ [tail])%list ∧
  (init = [] → tail = s) ∧ (init ≠ [] → (String.length sep ≤ String.length s)%nat) ∧
  ∀ t, split_str sep (s ++ t) = (init ++ split_str sep (tail ++ t))%list.
Proof using All.
  remember (String.length s) as n eqn:Hn. revert s Hn. induction (lt_wf n) as [n _ IH]. intros s ->.
  destruct s as [|c s].
  { exists [], "". split_and!; [apply split_str_empty|done..]. }
  destruct (starts_with sep (String c s)) eqn:E.
  - apply starts_with_spec in E as [r E]. rewrite E.
    assert (String.length r < String.length (String c s)) as Hr.
    { rewrite E, str_length_app. destruct sep; [done|]. simpl. lia. }
    destruct (IH _ Hr r eq_refl) as (init & tail & Hs & _ & _ & Ht). exists ("" :: init), tail.
    split_and!; [by rewrite split_str_sep, Hs|done|intros _; rewrite str_length_app; lia|].
    intros t. rewrite str_app_assoc, split_str_sep, Ht. done.
  - destruct (IH (String.length s) ltac:(simpl; lia) s eq_refl) as ([|x init] & tail & Hs & H0 & Hlen & Ht); cbn [app] in Hs.
    + exists [], (String c tail). rewrite H0 by done. split_and!; [|done..]. apply split_str_char; [done|]. by rewrite Hs, H0.
    + specialize (Hlen ltac:(done)). exists (String c x :: init), tail.
      split_and!; [by apply split_str_char|done|simpl; lia|]. intros t.
      assert (starts_with sep (String c s ++ t) = false) as Hf by (rewrite starts_with_longer; [done|simpl; lia]).
      apply (split_str_char c (s ++ t) x (init ++ split_str sep (tail ++ t))%list Hf (Ht t)).
Qed.
End split_equations.

(** ** How the network cuts a body *)

(** A read that does not end between the two characters of a line ending. *)
Definition whole_lines (s : string) : bool := negb (ends_with (String CR "") s).
Definition no_cr (s : string) : Prop := CR ∉ chars s.

Lemma whole_lines_app s t : whole_lines (s ++ t) = true → whole_lines t = true.
Proof.
  unfold whole_lines. rewrite !negb_true_iff, <- !not_true_iff_false, !ends_with_spec.
  intros H [r ->]. apply H. exists (s ++ r). by rewrite str_app_assoc.
Qed.

Lemma whole_lines_join s t : whole_lines s = true → whole_lines t = true → whole_lines (s ++ t) = true.
Proof.
  destruct t as [|c t]; [by rewrite str_app_nil_r|]. unfold whole_lines.
  rewrite !negb_true_iff, <- !not_true_iff_false, !ends_with_spec. intros _ Ht [r H]. apply Ht. clear Ht.
  revert r H. induction s as [|d s IH]; intros r H; [by exists r|].
  destruct r as [|e r]; [|injection H as _ H; eauto]. simpl in H. injection H as _ H. by destruct s.
Qed.

Lemma no_cr_whole s : no_cr s → whole_lines s = true.
Proof.
  unfold no_cr, whole_lines. intros H. rewrite negb_true_iff, <- not_true_iff_false, ends_with_spec.
  intros [r ->]. apply H. rewrite chars_app. set_solver.
Qed.

Lemma normalize_app s t : whole_lines s = true → normalize (s ++ t) = normalize s ++ normalize t.
Proof.
  remember (String.length s) as n eqn:Hn. revert s Hn. induction (lt_wf n) as [n _ IH]. intros s -> Hs.
  destruct s as [|c s]; [done|]. change (String c s ++ t) with (String c (s ++ t)). cbn [normalize].
  assert (whole_lines s = true) as Hs' by (by apply (whole_lines_app (String c ""))).
  destruct (Ascii.eqb_spec c CR) as [->|].
  - destruct s as [|d s]; [by vm_compute in Hs|]. change (String d s ++ t) with (String d (s ++ t)).
    change (String LF ?x ++ ?y) with (String LF (x ++ y)). f_equal.
    assert (whole_lines s = true) as Hs'' by (by apply (whole_lines_app (String d ""))).
    destruct (Ascii.eqb d LF).
    + apply (IH (String.length s)); [simpl; lia|done..].
    + change (String d (s ++ t)) with (String d s ++ t). apply (IH (String.length (String d s))); [simpl; lia|done..].
  - change (String c (normalize s) ++ ?y) with (String c (normalize s ++ y)). f_equal.
    apply (IH (String.length s)); [simpl; lia|done..].
Qed.

Lemma normalize_no_cr s : no_cr (normalize s).
Proof.
  unfold no_cr. remember (String.length s) as n eqn:Hn. revert s Hn. induction (lt_wf n) as [n _ IH]. intros s ->.
  destruct s as [|c s]; cbn [normalize]; [by apply not_elem_of_nil|].
  destruct (Ascii.eqb_spec c CR) as [->|].
  - cbn [chars]. rewrite not_elem_of_cons. split; [done|]. destruct s as [|d s]; [by apply not_elem_of_nil|].
    destruct (Ascii.eqb d LF); (eapply IH; [|done]); simpl; lia.
  - cbn [chars]. rewrite not_elem_of_cons. split; [done|]. eapply IH; [|done]. simpl; lia.
Qed.

Lemma normalize_id s : no_cr s → normalize s = s.
Proof.
  unfold no_cr. induction s as [|c s IH]; cbn [normalize chars]; [done|]. rewrite not_elem_of_cons. intros [Hc Hs].
  destruct (Ascii.eqb_spec c CR) as [->|]; [done|]. by rewrite IH.
Qed.

Lemma blank_line_nonempty : blank_line ≠ "".
Proof. done. Qed.

Lemma no_cr_pieces s w : no_cr s → w ∈ split_str blank_line s → no_cr w.
Proof.
  remember (String.length s) as n eqn:Hn. revert s Hn w. induction (lt_wf n) as [n _ IH]. intros s -> w Hs Hw.
  destruct s as [|c s].
  { rewrite split_str_empty in Hw by done. apply list_elem_of_singleton in Hw as ->. apply not_elem_of_nil. }
  destruct (starts_with blank_line (String c s)) eqn:E.
  - apply starts_with_spec in E as [r E]. rewrite E in Hw, Hs. rewrite split_str_sep in Hw by done.
    apply elem_of_cons in Hw as [->|Hw]; [apply not_elem_of_nil|].
    apply (IH (String.length r)) with (s := r); [rewrite E, str_length_app; simpl; lia|done| |done].
    unfold no_cr in *. rewrite chars_app in Hs. set_solver.
  - assert (no_cr s) as Hs' by (unfold no_cr in *; cbn [chars] in Hs; set_solver).
    destruct (split_str blank_line s) as [|x xs] eqn:Ex; [by apply split_str_nonempty in Ex|].
    rewrite (split_str_char _ blank_line_nonempty c s x xs E Ex) in Hw.
    assert (∀ y, y ∈ x :: xs → no_cr y) as Hall.
    { intros y Hy. apply (IH (String.length s)) with (s := s); [simpl; lia|done..|]. by rewrite Ex. }
    apply elem_of_cons in Hw as [->|Hw]; [|by apply Hall; apply elem_of_cons; right].
    unfold no_cr in *. cbn [chars]. rewrite not_elem_of_cons. split; [set_solver|]. apply Hall, elem_of_cons. by left.
Qed.

(** Two reads give the chunks, and leave the buffer, of their texts read at once. *)
Lemma feed_app b s t : no_cr b → whole_lines s = true →
  feed b (s ++ t) = ((fst (feed b s) ++ fst (feed (snd (feed b s)) t))%list, snd (feed (snd (feed b s)) t)) ∧
  no_cr (snd (feed b s)).
Proof.
  intros Hb Hs. unfold feed. cbn [fst snd].
  assert (whole_lines (b ++ s) = true) as Hbs by (by apply whole_lines_join; [apply no_cr_whole|]).
  destruct (split_str_app blank_line blank_line_nonempty (normalize (b ++ s))) as (init & tail & E & _ & _ & Ht).
  rewrite E. assert (no_cr tail) as Htail.
  { eapply no_cr_pieces; [apply normalize_no_cr|]. rewrite E. set_solver. }
  rewrite last_last, removelast_last. split; [|done].
  rewrite <- str_app_assoc, normalize_app by done. rewrite (normalize_app tail) by by apply no_cr_whole.
  rewrite (normalize_id tail) by done. rewrite Ht.
  pose proof (split_str_nonempty blank_line blank_line_nonempty (tail ++ normalize t)) as Hne.
  rewrite removelast_app by done. f_equal. rewrite (app_removelast_last "" Hne) at 1. by rewrite app_assoc, last_last.
Qed.

Lemma feed_empty : feed "" "" = ([], "").
Proof. reflexivity. Qed.

Definition glue (reads : list string) : string := foldr String.append "" reads.

Section reading.
Context {W File V : Type} (JSON_parse : string → option V) (consume : @sse_data V → M W resumption).
Context (o : @ServerSentEventsOptions W File V) (Hsignal : ∀ w, aborted o w = false).
Local Notation dispatch_all := (dispatch_all JSON_parse consume o).
Local Notation read_all := (read_all JSON_parse consume o).

Lemma dispatch_all_app l k x : dispatch_all (l ++ k)%list x =
  match dispatch_all l x with (inl Next, x) => dispatch_all k x | r => r end.
Proof using Type.
  revert x. induction l as [|c l IH]; intros x; [done|]. cbn [app Sse.dispatch_all]. unfold mbind, M_bind.
  destruct (dispatch JSON_parse consume o c x) as [[[]|e] y]; [apply IH|done..].
Qed.

Lemma read_all_cons b s rest ending x : read_all b (s :: rest) ending x =
  match dispatch_all (fst (feed b s)) x with (inl Next, x) => read_all (snd (feed b s)) rest ending x | r => r end.
Proof using All.
  destruct x as [w v]. cbn [Sse.read_all]. unfold mbind, M_bind, is_aborted. rewrite Hsignal.
  by destruct (dispatch_all _ _) as [[[]|] ?].
Qed.

Lemma read_all_merge b s t rest ending x : no_cr b → whole_lines s = true →
  read_all b (s :: t :: rest) ending x = read_all b ((s ++ t) :: rest) ending x.
Proof using All.
  intros Hb Hs. destruct (feed_app b s t Hb Hs) as [E _]. rewrite !read_all_cons, E. cbn [fst snd].
  rewrite dispatch_all_app. destruct (dispatch_all _ x) as [[[]|] y]; [apply read_all_cons|done..].
Qed.

Lemma read_all_glue reads ending x : Forall (λ s, whole_lines s = true) (removelast reads) →
  read_all "" reads ending x = read_all "" [glue reads] ending x.
Proof using All.
  remember (length reads) as n eqn:Hn. revert reads Hn. induction (lt_wf n) as [n _ IH]. intros [|s [|t rest]] -> Hw.
  - cbn [glue foldr]. by rewrite read_all_cons.
  - cbn [glue foldr]. by rewrite str_app_nil_r.
  - apply Forall_cons in Hw as [Hs Hw]. rewrite read_all_merge by (done || apply not_elem_of_nil).
    rewrite (IH (length ((s ++ t) :: rest))); [|simpl; lia|done|].
    + cbn [glue foldr]. by rewrite str_app_assoc.
    + destruct rest as [|u rest]; [constructor|]. apply Forall_cons in Hw as [Ht Hw]. constructor; [|done].
      by apply whole_lines_join.
Qed.
End reading.

(** C39. How the network cuts the body of a response into reads does not matter: two sequences of reads of
    the same text, none but the last ending between the two characters of a line ending, give the same
    events, the same values, the same calls of the hooks, the same variables and the same result, also when
    a validator, a transformer, a hook or the consumer throws or stops half way. *)
Theorem reads_cut {W File V} (JSON_parse : string → option V) consume (o : @ServerSentEventsOptions W File V)
    reads reads' ending x : (∀ w, aborted o w = false) →
  Forall (λ s, whole_lines s = true) (removelast reads) → Forall (λ s, whole_lines s = true) (removelast reads') →
  glue reads = glue reads' →
  read_all JSON_parse consume o "" reads ending x = read_all JSON_parse consume o "" reads' ending x.
Proof. intros Hsig H H' E. by rewrite (read_all_glue _ _ o Hsig reads), E, <- read_all_glue. Qed.

(** Options for examples: a plain server, no hooks. *)
Definition plain_options (f : @Request unit → M nat SseResponse) (max : option Z) : @ServerSentEventsOptions nat unit json :=
  mkSseOptions "/api/x" "GET" (HeadersRecord []) None f None None None None None None max None
    (λ _ w, (inl tt, w)) (λ _, false).
Definition take_next : @sse_data json → M nat resumption := λ _ w, (inl Next, w).
Definition no_server : @Request unit → M nat SseResponse := λ _ w, (inr (JsError "refused"), S w).

Lemma reads_cut_witness :
  read_all parse take_next (plain_options no_server None) "" ["da"; "ta: 1" ++ newline; newline] None (0, initial (plain_options no_server None)) =
  read_all parse take_next (plain_options no_server None) "" ["data: 1" ++ blank_line] None (0, initial (plain_options no_server None)).
Proof. apply reads_cut; [done|repeat constructor|repeat constructor|reflexivity]. Defined.

(** A read that ends between the two characters of a line ending makes a blank line of them: the two data
    lines of one event come out as two events. *)
Lemma cut_line_ending :
  let text := ("data: 1" ++ String CR newline ++ "data: 2" ++ String CR newline ++ String CR newline) in
  let cut := ["data: 1" ++ String CR ""; newline ++ "data: 2" ++ String CR newline ++ String CR newline] in
  glue cut = text ∧
  fst (feed "" text) = ["data: 1" ++ newline ++ "data: 2"] ∧
  (let '(chunks, rest) := feed "" (hd "" cut) in (chunks ++ fst (feed rest (List.last cut "")))%list) = ["data: 1"; "data: 2"].
Proof. vm_compute. done. Qed.

(** ** Reasoning about the generator *)

(** [m] started in [P] ends in [Q] of its result, or throws in [E]. *)
Definition hoare {W File V A} (P : @vars File V → Prop) (m : @SM W File V A) (Q : A → @vars File V → Prop) (E : @vars File V → Prop) : Prop :=
  ∀ w v, P v → match m (w, v) with (inl x, (_, v')) => Q x v' | (inr _, (_, v')) => E v' end.

Section rules.
Context {W File V : Type}.
Local Notation vars := (@vars File V).
Local Notation SM := (@SM W File V).
Implicit Types P E : vars → Prop.

Lemma hoare_ret {A} (x : A) P Q E : (∀ v, P v → Q x v) → hoare P (mret x : SM A) Q E.
Proof. intros H w v Hp. by apply H. Qed.

Lemma hoare_bind {A B} (m : SM A) (k : A → SM B) P R Q E :
  hoare P m R E → (∀ x, hoare (R x) (k x) Q E) → hoare P (m ≫= k) Q E.
Proof.
  intros Hm Hk w v Hp. specialize (Hm w v Hp). unfold mbind, M_bind.
  destruct (m (w, v)) as [[x|e] [w' v']]; [by apply Hk|done].
Qed.

Lemma hoare_conseq {A} (m : SM A) P P' Q Q' E E' : hoare P' m Q' E' →
  (∀ v, P v → P' v) → (∀ x v, Q' x v → Q x v) → (∀ v, E' v → E v) → hoare P m Q E.
Proof.
  intros Hm H1 H2 H3 w v Hp. specialize (Hm w v (H1 v Hp)). destruct (m (w, v)) as [[x|e] [w' v']]; auto.
Qed.

Lemma hoare_throw {A} e P Q E : (∀ v, P v → E v) → hoare P (throw e : SM A) Q E.
Proof. intros H w v Hp. by apply H. Qed.

Lemma hoare_try {A} (m : SM A) h P Q R E : hoare P m Q R → (∀ e, hoare R (h e) Q E) → hoare P (try_catch m h) Q E.
Proof.
  intros Hm Hh w v Hp. specialize (Hm w v Hp). unfold try_catch.
  destruct (m (w, v)) as [[x|e] [w' v']]; [done|by apply Hh].
Qed.

Lemma hoare_and {A} (m : SM A) P P' Q Q' E E' : hoare P m Q E → hoare P' m Q' E' →
  hoare (λ v, P v ∧ P' v) m (λ x v, Q x v ∧ Q' x v) (λ v, E v ∧ E' v).
Proof.
  intros H H' w v [Hp Hp']. specialize (H w v Hp). specialize (H' w v Hp'). by destruct (m (w, v)) as [[] []].
Qed.

(** What happens in the world leaves the variables alone. *)
Lemma hoare_lift {A} (m : M W A) P : hoare P (lift m) (λ _, P) P.
Proof. intros w v Hp. unfold lift. by destruct (m w) as [[] ?]. Qed.

Lemma hoare_lift_total {A} (m : M W A) P E : (∀ w, ∃ x w', m w = (inl x, w')) → hoare P (lift m) (λ _, P) E.
Proof. intros Hm w v Hp. unfold lift. by destruct (Hm w) as (x & w' & ->). Qed.

Lemma hoare_get P E : hoare P (get : SM vars) (λ x v, x = v ∧ P v) E.
Proof. intros w v Hp. done. Qed.

Lemma hoare_modify f P (Q : unit → vars → Prop) E : (∀ v, P v → Q tt (f v)) → hoare P (modify f : SM unit) Q E.
Proof. intros H w v Hp. by apply H. Qed.

Lemma hoare_call {A} (hook : option (A → M W unit)) x P : hoare P (call hook x : SM unit) (λ _, P) P.
Proof. destruct hook; [apply hoare_lift|by apply hoare_ret]. Qed.

Lemma hoare_call_to {A} (hook : option (A → M W unit)) x P E : (∀ v, P v → E v) → hoare P (call hook x : SM unit) (λ _, P) E.
Proof. intros H. by eapply hoare_conseq; [apply (hoare_call hook x P)|..]. Qed.

Lemma hoare_lift_to {A} (m : M W A) P E : (∀ v, P v → E v) → hoare P (lift m) (λ _, P) E.
Proof. intros H. by eapply hoare_conseq; [apply (hoare_lift m P)|..]. Qed.

Lemma hoare_aborted (o : @ServerSentEventsOptions W File V) P E : hoare P (is_aborted o) (λ _, P) E.
Proof. intros w v Hp. done. Qed.

End rules.

(** The state after a logged effect. *)
Definition logged {File V} (e : @effect File V) (v : @vars File V) : @vars File V :=
  mkVars (lastEventId v) (retryDelay v) (object v) (log v ++ [e])%list.

(** An invariant that a chunk, whatever its hooks do, keeps holds throughout the reads of a response. *)
Lemma hoare_read_all {W File V} JSON_parse consume (o : @ServerSentEventsOptions W File V) (I : @vars File V → Prop) b reads ending :
  (∀ chunk, hoare I (dispatch JSON_parse consume o chunk) (λ _, I) I) →
  hoare I (read_all JSON_parse consume o b reads ending) (λ _, I) I.
Proof.
  intros Hd.
  assert (∀ chunks, hoare I (dispatch_all JSON_parse consume o chunks) (λ _, I) I) as Hall.
  { induction chunks as [|c chunks IH]; [by apply hoare_ret|]. cbn [dispatch_all].
    eapply hoare_bind; [apply Hd|]. intros []; [exact IH|by apply hoare_ret]. }
  revert b. induction reads as [|s reads IH]; intros b; cbn [read_all];
    (eapply hoare_bind; [apply hoare_aborted|]; intros []; [by apply hoare_ret|]).
  - destruct ending; [by apply hoare_throw|by apply hoare_ret].
  - eapply hoare_bind; [apply Hall|]. intros []; [apply IH|by apply hoare_ret].
Qed.

(** The same of a whole connection, if it is kept by the effects of a connection. *)
Lemma hoare_connect {W File V} boundary JSON_parse consume (o : @ServerSentEventsOptions W File V) (I0 I : @vars File V → Prop) h :
  (∀ v, I0 v → I (logged (Connecting h) v)) →
  (∀ v r, I v → I (logged (Fetching r) v)) →
  (∀ chunk, hoare I (dispatch JSON_parse consume o chunk) (λ _, I) I) →
  hoare I0 (connect boundary JSON_parse consume o h) (λ _, I) I.
Proof.
  intros H0 Hf Hd. unfold connect.
  apply (hoare_bind _ _ _ (λ _, I)); [apply hoare_modify; exact H0|]. intros [].
  eapply hoare_bind; [apply hoare_lift|]. intros r.
  apply (hoare_bind _ _ _ (λ _, I)); [destruct (onRequest o); [apply hoare_lift|by apply hoare_ret]|]. intros r'.
  apply (hoare_bind _ _ _ (λ _, I)); [apply hoare_modify; intros v Hv; exact (Hf v r' Hv)|]. intros [].
  eapply hoare_bind; [apply hoare_lift|]. intros res. case_match; [by apply hoare_throw|].
  destruct (sse_body res) as [[reads ending]|]; [by apply hoare_read_all|by apply hoare_throw].
Qed.

(** ** Bounds on the attempts *)

Definition is_connecting {File V} (e : @effect File V) : bool := match e with Connecting _ => true | _ => false end.
Definition is_pause {File V} (e : @effect File V) : bool := match e with Slept _ => true | _ => false end.
Definition tally {A} (f : A → bool) (l : list A) : Z := Z.of_nat (length (List.filter f l)).
Definition connections {File V} : list (@effect File V) → Z := tally is_connecting.
Definition pauses {File V} : list (@effect File V) → Z := tally is_pause.

Lemma tally_snoc {A} f (l : list A) x : tally f (l ++ [x])%list = (tally f l + if f x then 1 else 0)%Z.
Proof. unfold tally. rewrite List.filter_app, length_app, Nat2Z.inj_add. cbn. by destruct (f x). Qed.

(** The longest pause of the options. *)
Definition longest {W File V} (o : @ServerSentEventsOptions W File V) : Z := sseMaxRetryDelay o |?| 30000%Z.
Definition within {W File V} (o : @ServerSentEventsOptions W File V) (e : @effect File V) : Prop :=
  match e with Slept ms => (ms ≤ longest o)%Z | _ => True end.

Section bounds.
Context {W File V : Type} (boundary : string) (JSON_parse : string → option V) (consume : @sse_data V → M W resumption).
Context (o : @ServerSentEventsOptions W File V).
Local Notation vars := (@vars File V).

Lemma hoare_dispatch_quiet (I : vars → Prop) chunk :
  (∀ v i d, I v → I (mkVars i d (object v) (log v))) → (∀ v e, I v → I (logged (EventHook e) v)) →
  (∀ v d, I v → I (logged (Yielded d) v)) → hoare I (dispatch JSON_parse consume o chunk) (λ _, I) I.
Proof using Type.
  intros Hids He Hy. unfold dispatch.
  eapply hoare_bind; [apply hoare_get|]. intros v0. cbv zeta.
  apply (hoare_bind _ _ _ (λ _, I)); [apply hoare_modify; intros v [_ Hv]; by apply Hids|]. intros [].
  apply (hoare_bind _ _ _ (λ _, I)).
  { case_match; [by apply hoare_ret|]. case_match; [|by apply hoare_ret].
    eapply hoare_bind; [apply hoare_call|]. intros []. case_match; [|by apply hoare_ret].
    eapply hoare_bind; [apply hoare_lift|]. intros x. by apply hoare_ret. }
  intros d. apply (hoare_bind _ _ _ (λ _, I)); [apply hoare_modify; intros v Hv; by apply (He v)|]. intros [].
  eapply hoare_bind; [apply hoare_call|]. intros []. case_match; [by apply hoare_ret|].
  apply (hoare_bind _ _ _ (λ _, I)); [apply hoare_modify; intros v Hv; by apply (Hy v)|]. intros [].
  apply hoare_lift.
Qed.

Lemma hoare_request_headers (I : vars → Prop) (J : Headers → vars → Prop) :
  (∀ v, I v →
     let h0 := match opt_headers o with HeadersObject h => default h (object v) | HeadersRecord l => headers_of l end in
     let h := match lastEventId v with Some i => headers_set "Last-Event-ID" i h0 | None => h0 end in
     J h (match opt_headers o with HeadersObject _ => mkVars (lastEventId v) (retryDelay v) (Some h) (log v) | HeadersRecord _ => v end)) →
  ∀ E, hoare I (request_headers o) J E.
Proof using Type.
  intros H E w v Hv. specialize (H v Hv). unfold request_headers, mbind, M_bind, get, modify. cbv zeta in H |- *.
  by destruct (opt_headers o).
Qed.

Definition counts (k p : Z) (v : vars) : Prop :=
  connections (log v) = k ∧ pauses (log v) = p ∧ Forall (within o) (log v).

Lemma counts_logged k p e v : counts k p v → within o e →
  counts (k + if is_connecting e then 1 else 0) (p + if is_pause e then 1 else 0) (logged e v).
Proof using Type.
  intros (<- & <- & Hw) He. unfold counts, connections, pauses. cbn [logged log]. rewrite !tally_snoc.
  split_and!; [done..|]. apply Forall_app. by repeat constructor.
Qed.

Lemma counts_quiet k p e v : is_connecting e = false → is_pause e = false → counts k p v → counts k p (logged e v).
Proof using Type.
  intros Hc Hp Hv. apply (counts_logged k p e) in Hv; [|by destruct e]. by rewrite Hc, Hp, !Z.add_0_r in Hv.
Qed.

Lemma hoare_connect_counts k p h :
  hoare (counts k p) (connect boundary JSON_parse consume o h) (λ _, counts (k + 1) p) (counts (k + 1) p).
Proof using Type.
  apply hoare_connect.
  - intros v Hv. apply (counts_logged k p (Connecting h)) in Hv; [|done]. cbn in Hv. by rewrite Z.add_0_r in Hv.
  - intros v r Hv. by apply counts_quiet.
  - intros chunk. apply hoare_dispatch_quiet; [done|..]; intros; by apply counts_quiet.
Qed.

Lemma attempts_bounded m (Hm : sseMaxRetryAttempts o = Some m) fuel a : (m ≤ a + Z.of_nat fuel)%Z → 0 < fuel →
  let fin v := ∃ k p, counts k p v ∧ (k ≤ Z.max (a + 1) m ∧ p ≤ k ∧ p ≤ Z.max a (m - 1))%Z in
  hoare (counts a a) (attempts boundary JSON_parse consume fuel o a) (λ r v, r = Ended ∧ fin v) fin.
Proof using Type.
  revert a. induction fuel as [|fuel IH]; intros a Hfuel Hpos; [lia|]. cbv zeta. cbn [attempts].
  eapply hoare_bind; [apply hoare_aborted|]. intros [].
  { apply hoare_ret. intros v Hv. split; [done|]. exists a, a. split; [done|lia]. }
  apply (hoare_bind _ _ _ (λ _, counts a a)).
  { apply hoare_request_headers. intros v Hv. cbv zeta. by destruct (opt_headers o). }
  intros h. set (fin := λ v, ∃ k p, _).
  assert (∀ v, counts (a + 1) a v → fin v) as Hfin by (intros v Hv; exists (a + 1)%Z, a; split; [done|lia]).
  apply (hoare_bind _ _ _ (λ (again : bool) v, if again then (a + 1 < m)%Z ∧ counts (a + 1) (a + 1) v else counts (a + 1) a v)).
  - apply (hoare_try _ _ _ _ (counts (a + 1) a)).
    { eapply hoare_bind; [apply hoare_connect_counts|]. intros r. by apply hoare_ret. }
    intros e. apply (hoare_bind _ _ _ (λ _, counts (a + 1) a)).
    { apply hoare_modify. intros v Hv. by apply (counts_quiet _ _ (ErrorHook e)). }
    intros []. eapply hoare_bind; [by apply hoare_call_to|].
    intros []. unfold attempts_over. rewrite Hm. destruct (Z.leb_spec m (a + 1)) as [|Hlt]; [by apply hoare_ret|].
    eapply hoare_bind; [apply hoare_get|]. intros v0. apply (hoare_bind _ _ _ (λ _, counts (a + 1) (a + 1))).
    { apply hoare_modify. intros v [_ Hv]. apply (counts_logged _ _ (Slept (backoff o (retryDelay v0) (a + 1)))) in Hv.
      - cbn in Hv. by rewrite Z.add_0_r in Hv.
      - apply Z.le_min_r. }
    intros []. eapply hoare_bind.
    { apply hoare_lift_to. intros v Hv. exists (a + 1)%Z, (a + 1)%Z. split; [done|lia]. }
    intros u. by apply hoare_ret.
  - intros []; [|apply hoare_ret; intros v Hv; split; [done|by apply Hfin]]. destruct (Z.lt_ge_cases (a + 1) m) as [Hlt|]; [|intros w v [? _]; lia].
    eapply hoare_conseq; [apply (IH (a + 1)%Z); lia|by intros v [_ Hv]|..]; unfold fin.
    + intros r v [Hr (k & p & Hc & ?)]. split; [done|]. exists k, p. split; [done|lia].
    + intros v (k & p & Hc & ?). exists k, p. split; [done|lia].
Qed.
End bounds.

(** Reconnection is bounded. With a maximum [m] the generator ends, or throws what a hook threw, after
    at most [m] connections, one when [m] is less, whatever the server sends and the hooks do, and however long the
    server keeps failing; it pauses at most [m - 1] times, never after the last connection allowed, and never
    longer than the longest pause of the options, thirty seconds when they give none. *)
Theorem attempts_end {W File V} boundary (JSON_parse : string → option V) consume (o : @ServerSentEventsOptions W File V) m fuel w :
  sseMaxRetryAttempts o = Some m → (Z.max 1 m ≤ Z.of_nat fuel)%Z →
  let '(r, (_, v)) := attempts boundary JSON_parse consume fuel o 0 (w, initial o) in
  r ≠ inl OutOfFuel ∧ (connections (log v) ≤ Z.max 1 m ∧ pauses (log v) ≤ Z.max 0 (m - 1))%Z ∧ Forall (within o) (log v).
Proof.
  intros Hm Hfuel.
  pose proof (attempts_bounded boundary JSON_parse consume o m Hm fuel 0 ltac:(lia) ltac:(lia) w (initial o)) as H.
  destruct (attempts boundary JSON_parse consume fuel o 0 (w, initial o)) as [[r|e] [w' v]].
  - destruct H as [-> (k & p & (<- & <- & ?) & ?)]; [by repeat constructor|]. split_and!; [done|lia..|done].
  - destruct H as (k & p & (<- & <- & ?) & ?); [by repeat constructor|]. split_and!; [done|lia..|done].
Qed.

Lemma attempts_end_witness :
  let '(r, (served, v)) := attempts "b" parse take_next 3 (plain_options no_server (Some 3%Z)) 0 (0, initial (plain_options no_server None)) in
  (r ≠ inl OutOfFuel ∧ (connections (log v) ≤ 3 ∧ pauses (log v) ≤ 2)%Z ∧ Forall (within (plain_options no_server (Some 3%Z))) (log v)) ∧
  served = 3%nat ∧ omap (λ e, match e with Slept ms => Some ms | _ => None end) (log v) = [3000; 6000]%Z.
Proof.
  pose proof (attempts_end "b" parse take_next (plain_options no_server (Some 3%Z)) 3 3 0 eq_refl ltac:(done)) as H.
  revert H. vm_compute. intros H. split; [exact H|done].
Defined.

(** ** Where a reconnection resumes *)

Definition last_event {File V} (l : list (@effect File V)) : option (@StreamEvent V) :=
  foldl (λ acc e, match e with EventHook ev => Some ev | _ => acc end) None l.

Section resume.
Context {W File V : Type} (boundary : string) (JSON_parse : string → option V) (consume : @sse_data V → M W resumption).
Context (o : @ServerSentEventsOptions W File V).
Context (Hvalid : ∀ f x w, responseValidator o = Some f → ∃ y w', f x w = (inl y, w')).
Context (Htrans : ∀ f x w, responseTransformer o = Some f → ∃ y w', f x w = (inl y, w')).
Local Notation vars := (@vars File V).
Local Notation effect := (@effect File V).

Definition own_headers : Headers := match opt_headers o with HeadersObject h => h | HeadersRecord l => headers_of l end.

(** The id and the delay in force after a log: those of its last event. *)
Definition id_after (l : list effect) : option string := last_event l ≫= id.
Definition delay_after (l : list effect) : Z := (last_event l ≫= retry) |?| (sseDefaultRetryDelay o |?| 3000%Z).

(** What an effect must be after a log. *)
Definition follows (pre : list effect) (e : effect) : Prop :=
  match e with
  | Connecting h =>
      headers_get "Last-Event-ID" h = match id_after pre with Some i => Some i | None => headers_get "Last-Event-ID" own_headers end
  | Slept ms => ms = backoff o (delay_after pre) (connections pre)
  | _ => True
  end.
Definition log_ok (l : list effect) : Prop := ∀ pre e post, l = (pre ++ e :: post)%list → follows pre e.

Lemma log_ok_snoc l e : log_ok l → follows l e → log_ok (l ++ [e])%list.
Proof using Type.
  intros Hl He pre x post E. destruct post as [|y post' _] using rev_ind.
  - apply app_inj_tail in E as [-> ->]. done.
  - rewrite app_comm_cons, app_assoc in E. apply app_inj_tail in E as [-> ->]. by eapply Hl.
Qed.

Lemma last_event_snoc (l : list effect) e : last_event (l ++ [e])%list = match e with EventHook ev => Some ev | _ => last_event l end.
Proof using Type. unfold last_event. by rewrite foldl_app. Qed.

(** The variables agree with the log, and the headers object is as the caller gave it until an id comes. *)
Record resume_ok (v : vars) : Prop := {
  ok_log : log_ok (log v);
  ok_id : lastEventId v = id_after (log v);
  ok_delay : retryDelay v = delay_after (log v);
  ok_object : lastEventId v = None → object v = None ∨ ∃ h, object v = Some h ∧ opt_headers o = HeadersObject h
}.

Lemma read_chunk_id i d chunk : chunk_id (read_chunk i d chunk) = None → i = None.
Proof using Type.
  assert (∀ lines c, chunk_id (fold_left read_line lines c) = None → chunk_id c = None) as H; [|by intros E%H].
  induction lines as [|line lines IH]; intros c E; [done|]. apply IH in E. unfold read_line in E. by repeat case_match.
Qed.

Lemma resume_logged e v : (∀ ev, e ≠ EventHook ev) → resume_ok v → follows (log v) e → resume_ok (logged e v).
Proof using Type.
  intros Hne [Hl Hi Hd Ho] He. constructor; cbn [logged log lastEventId retryDelay object]; [by apply log_ok_snoc| | |done];
    unfold id_after, delay_after; rewrite last_event_snoc; destruct e; try done; by edestruct Hne.
Qed.

Lemma hoare_dispatch_resume chunk : hoare resume_ok (dispatch JSON_parse consume o chunk) (λ _, resume_ok) resume_ok.
Proof using Hvalid Htrans.
  unfold dispatch. eapply hoare_bind; [apply hoare_get|]. intros v0. cbv zeta.
  set (c := read_chunk (lastEventId v0) (retryDelay v0) chunk).
  set (mid := λ v : vars, log_ok (log v) ∧ lastEventId v = chunk_id c ∧ retryDelay v = chunk_retry c ∧
    (chunk_id c = None → object v = None ∨ ∃ h, object v = Some h ∧ opt_headers o = HeadersObject h)).
  apply (hoare_bind _ _ _ (λ _, mid)).
  { apply hoare_modify. intros v [<- [Hl Hi Hd Ho]]. split_and!; [done..|]. intros Hc. apply Ho. by apply read_chunk_id in Hc. }
  intros []. apply (hoare_bind _ _ _ (λ _, mid)).
  { case_match; [by apply hoare_ret|]. case_match; [|by apply hoare_ret]. apply (hoare_bind _ _ _ (λ _, mid)).
    - destruct (responseValidator o) as [f|] eqn:E; [|by apply hoare_ret]. apply hoare_lift_total. intros w. by apply Hvalid.
    - intros []. destruct (responseTransformer o) as [f|] eqn:E; [|by apply hoare_ret].
      eapply hoare_bind; [apply hoare_lift_total; intros w; by apply Htrans|]. intros x. by apply hoare_ret. }
  intros d. apply (hoare_bind _ _ _ (λ _, resume_ok)).
  { apply hoare_modify. intros v (Hl & Hi & Hd & Ho). constructor; cbn [log lastEventId retryDelay object]; [by apply log_ok_snoc|..];
      unfold id_after, delay_after; rewrite ?last_event_snoc; cbn; [done..|]. by rewrite Hi. }
  intros []. eapply hoare_bind; [apply hoare_call|]. intros []. case_match; [by apply hoare_ret|].
  apply (hoare_bind _ _ _ (λ _, resume_ok)); [apply hoare_modify; intros v Hv; by apply (resume_logged (Yielded d))|].
  intros []. apply hoare_lift.
Qed.

Local Notation state a := (λ v : vars, resume_ok v ∧ connections (log v) = a).

Lemma state_logged a e v : (∀ ev, e ≠ EventHook ev) → state a v → follows (log v) e →
  state (a + if is_connecting e then 1 else 0)%Z (logged e v).
Proof using Type.
  intros Hne [Hr <-] He. split; [by apply resume_logged|]. unfold connections. cbn [logged log]. by rewrite tally_snoc.
Qed.

Lemma state_quiet a e v : is_connecting e = false → (∀ ev, e ≠ EventHook ev) → state a v → follows (log v) e → state a (logged e v).
Proof using Type. intros Hc Hne Hv He. pose proof (state_logged a e v Hne Hv He) as H. by rewrite Hc, Z.add_0_r in H. Qed.

Lemma hoare_headers_resume a E : hoare (state a) (request_headers o) (λ h v, state a v ∧ follows (log v) (Connecting h)) E.
Proof using Type.
  apply hoare_request_headers. intros v [[Hl Hi Hd Ho] Ha]. cbv zeta. cbn [follows]. unfold own_headers.
  destruct (opt_headers o) as [h0|l] eqn:Eo; cbn [log]; rewrite <- Hi; destruct (lastEventId v) as [i|] eqn:Ei.
  - split; [split; [constructor; cbn; rewrite ?Ei; done|done]|]. unfold headers_get, headers_set. by rewrite lookup_insert_eq.
  - assert (default h0 (object v) = h0) as -> by (by destruct (Ho eq_refl) as [->|(h & -> & [= <-])]).
    split; [split; [constructor; cbn; rewrite ?Ei; eauto|done]|done].
  - split; [split; [constructor; rewrite ?Ei; done|done]|]. unfold headers_get, headers_set. by rewrite lookup_insert_eq.
  - split; [split; [constructor; rewrite ?Ei, ?Eo; auto|done]|done].
Qed.

Lemma hoare_connect_resume a h :
  hoare (λ v, state a v ∧ follows (log v) (Connecting h)) (connect boundary JSON_parse consume o h) (λ _, state (a + 1)%Z) (state (a + 1)%Z).
Proof using Hvalid Htrans.
  apply hoare_connect.
  - intros v [Hv Hf]. by apply (state_logged a (Connecting h)).
  - intros v r Hv. by apply (state_quiet _ (Fetching r)).
  - intros chunk. apply hoare_and; [apply hoare_dispatch_resume|]. apply hoare_dispatch_quiet; [done|..];
      intros v e <-; unfold connections; cbn [logged log]; rewrite tally_snoc; apply Z.add_0_r.
Qed.

Lemma attempts_resume fuel a :
  hoare (state a) (attempts boundary JSON_parse consume fuel o a) (λ _ v, log_ok (log v)) (λ v, log_ok (log v)).
Proof using Hvalid Htrans.
  revert a. induction fuel as [|fuel IH]; intros a; [apply hoare_ret; by intros v [[]]|]. cbn [attempts].
  eapply hoare_bind; [apply hoare_aborted|]. intros []; [apply hoare_ret; by intros v [[]]|].
  eapply hoare_bind; [apply hoare_headers_resume|]. intros h.
  assert (∀ v, state (a + 1)%Z v → log_ok (log v)) as Hfin by (by intros v [[]]).
  apply (hoare_bind _ _ _ (λ _, state (a + 1)%Z)).
  - apply (hoare_try _ _ _ _ (state (a + 1)%Z)).
    { eapply hoare_bind; [apply hoare_connect_resume|]. intros r. by apply hoare_ret. }
    intros e. apply (hoare_bind _ _ _ (λ _, state (a + 1)%Z)).
    { apply hoare_modify. intros v Hv. by apply (state_quiet _ (ErrorHook e)). }
    intros []. eapply hoare_bind; [by apply hoare_call_to|]. intros []. destruct (attempts_over o (a + 1)); [by apply hoare_ret|].
    eapply hoare_bind; [apply hoare_get|]. intros v0. apply (hoare_bind _ _ _ (λ _, state (a + 1)%Z)).
    { apply hoare_modify. intros v [<- Hv].
      apply (state_quiet _ (Slept (backoff o (retryDelay v0) (a + 1)))); [done..|].
      destruct Hv as [[_ _ Hd _] <-]. cbn. by rewrite Hd. }
    intros []. eapply hoare_bind; [by apply hoare_lift_to|]. intros u. by apply hoare_ret.
  - intros []; [apply IH|by apply hoare_ret].
Qed.
End resume.

(** C38. A reconnection resumes where the stream was. Whatever the server, the hooks and the consumer do, as
    long as the validator and the transformer accept what they are given: every request carries the id of the
    last event delivered before it as its [Last-Event-ID], and the caller's own header while no event has come;
    and every pause is the delay in force then, the one the server last gave or the default, doubled for each
    connection made but the first, and capped. *)
Theorem reconnection_resumes {W File V} boundary (JSON_parse : string → option V) consume (o : @ServerSentEventsOptions W File V) fuel w :
  (∀ f x w, responseValidator o = Some f → ∃ y w', f x w = (inl y, w')) →
  (∀ f x w, responseTransformer o = Some f → ∃ y w', f x w = (inl y, w')) →
  let '(_, (_, v)) := attempts boundary JSON_parse consume fuel o 0 (w, initial o) in
  ∀ pre e post, log v = (pre ++ e :: post)%list →
  match e with
  | Connecting h => headers_get "Last-Event-ID" h =
      match last_event pre ≫= id with Some i => Some i | None => headers_get "Last-Event-ID" (own_headers o) end
  | Slept ms => ms = Z.min (((last_event pre ≫= retry) |?| (sseDefaultRetryDelay o |?| 3000%Z)) * 2 ^ (connections pre - 1)) (longest o)
  | _ => True
  end.
Proof.
  intros Hv Ht.
  pose proof (attempts_resume boundary JSON_parse consume o Hv Ht fuel 0 w (initial o)) as H.
  assert (log_ok o (log (initial (File:=File) o))) as H0 by (intros [] e0 post; done).
  assert (resume_ok o (initial o) ∧ connections (log (initial (File:=File) o)) = 0%Z) as Hi.
  { split; [|done]. constructor; cbn; auto. }
  specialize (H Hi). destruct (attempts boundary JSON_parse consume fuel o 0 (w, initial o)) as [[r|err] [w' v]];
    intros pre x post E; specialize (H pre x post E); by destruct x.
Qed.

(** A server that breaks off after one event, and is done at the second connection. *)
Definition breaking_server : @Request unit → M nat SseResponse := λ _ w,
  (inl (mkSseResponse 200 "OK" (Some (match w with
     | O => (["id: 7" ++ newline ++ "retry: 100" ++ newline ++ "data: 1" ++ blank_line], Some (JsError "lost"))
     | _ => ([], None)
     end))), S w).
Definition checked_options : @ServerSentEventsOptions nat unit json :=
  mkSseOptions "/api/x" "GET" (HeadersRecord []) None breaking_server None None None (Some (λ _ w, (inl tt, w))) None
    None None None (λ _ w, (inl tt, w)) (λ _, false).

Lemma reconnection_resumes_witness :
  let v := snd (snd (attempts "b" parse take_next 5 checked_options 0 (0, initial checked_options))) in
  log v = [Connecting ∅; Fetching (mkRequest "GET" "/api/x" ∅ None);
    EventHook (mkStreamEvent (JsonValue (JNum 1)) None (Some "7") (Some 100%Z)); Yielded (JsonValue (JNum 1));
    ErrorHook (JsError "lost"); Slept 100;
    Connecting {["last-event-id" := "7"]}; Fetching (mkRequest "GET" "/api/x" {["last-event-id" := "7"]} None)] ∧
  headers_get "Last-Event-ID" ({["last-event-id" := "7"]} : Headers) = Some "7".
Proof.
  pose proof (reconnection_resumes "b" parse take_next checked_options 5 0) as H. cbv zeta.
  destruct (attempts "b" parse take_next 5 checked_options 0 (0, initial checked_options)) as [r [w' v]] eqn:E.
  vm_compute in E. injection E as <- <- <-. split; [reflexivity|].
  specialize (H ltac:(intros f x w [= <-]; eauto) ltac:(done)).
  exact (H [_; _; _; _; _; _] (Connecting {["last-event-id" := "7"]}) [_] eq_refl).
Defined.

(** ** Writing a stream *)

(** An event as a server writes it. *)
Record sent := mkSent { s_id : option string; s_event : option string; s_retry : option N; s_data : list string }.

Definition sent_lines (e : sent) : list string :=
  (match s_id e with Some i => [String.append "id: " i] | None => [] end ++
   match s_event e with Some n => [String.append "event: " n] | None => [] end ++
   match s_retry e with Some d => [String.append "retry: " (pretty (Z.of_N d))] | None => [] end ++
   map (String.append "data: ") (s_data e))%list.
Definition sent_chunk (e : sent) : string := join newline (sent_lines e).
Definition sent_text (e : sent) : string := sent_chunk e ++ blank_line.

(** A value that fits in a line: no line ending in it, no white space before it. *)
Definition line_char (c : ascii) : bool := negb (is_char CR c) && negb (is_char LF c).
Definition line_value (s : string) : bool := all_chars line_char s && String.eqb (trim_start s) s.
Definition opt_all (f : string → bool) (o : option string) : bool := match o with Some s => f s | None => true end.
Definition sent_ok (e : sent) : bool := opt_all line_value (s_id e) && opt_all line_value (s_event e) && forallb line_value (s_data e).

Definition read_sent (i : option string) (d : Z) (e : sent) : chunk_state :=
  mkChunk (s_data e) (s_event e) (match s_id e with Some i => Some i | None => i end)
    (match s_retry e with Some d => Z.of_N d | None => d end).

(** A line of an event: never empty, and without line endings. *)
Definition good_line (s : string) : Prop := s ≠ "" ∧ LF ∉ chars s ∧ no_cr s.

Lemma line_chars s : all_chars line_char s = true → CR ∉ chars s ∧ LF ∉ chars s.
Proof. rewrite all_chars_spec. intros Hs. split; intros Hc%Hs; by vm_compute in Hc. Qed.

Lemma trim_digits s : all_chars is_digit s = true → s ≠ "" → trim_start s = s.
Proof.
  destruct s as [|c s]; [done|]. intros Hd _. apply trim_start_printable.
  unfold all_chars in Hd. cbn in Hd. apply andb_true_iff in Hd as [Hc _].
  revert Hc. by destruct c as [[] [] [] [] [] [] [] []].
Qed.

Lemma pretty_line n : let s := pretty (Z.of_N n) in
  parse_int s = Some (Z.of_N n) ∧ trim_start s = s ∧ all_chars line_char s = true.
Proof.
  destruct (pretty_Z_digits (Z.of_N n) ltac:(lia)) as (Hd & Hv & Hne). cbv zeta. remember (pretty (Z.of_N n)) as s eqn:E. clear E.
  pose proof (trim_digits s Hd Hne) as Ht. split_and!; [|done|].
  - unfold parse_int. rewrite Ht. pose proof (take_digits_app s "" Hd I) as Htd. rewrite str_app_nil_r in Htd.
    destruct s as [|c s]; [done|].
    assert (is_char "-" c = false ∧ is_char "+" c = false) as [-> ->].
    { unfold all_chars in Hd. cbn in Hd. apply andb_true_iff in Hd as [Hc _]. revert Hc. by destruct c as [[] [] [] [] [] [] [] []]. }
    rewrite Htd. cbn [fst truthy]. unfold truthy. cbn [String.eqb negb]. by rewrite Hv, Z.mul_1_l.
  - rewrite all_chars_spec in Hd |- *. intros c Hc%Hd. revert Hc. by destruct c as [[] [] [] [] [] [] [] []].
Qed.

Lemma good_line_prefix p v : p ≠ "" → all_chars line_char p = true → all_chars line_char v = true → good_line (p ++ v).
Proof.
  intros Hp [??]%line_chars [??]%line_chars. unfold good_line, no_cr. rewrite !chars_app, !not_elem_of_app. by destruct p.
Qed.

Lemma sent_lines_good e : sent_ok e = true → Forall good_line (sent_lines e).
Proof.
  unfold sent_ok, line_value. rewrite !andb_true_iff. intros [[Hi He] Hd]. unfold sent_lines. rewrite !Forall_app. split_and!.
  - destruct (s_id e); [|constructor]. apply andb_true_iff in Hi as [? _]. by apply Forall_singleton, good_line_prefix.
  - destruct (s_event e); [|constructor]. apply andb_true_iff in He as [? _]. by apply Forall_singleton, good_line_prefix.
  - destruct (s_retry e) as [n|]; [|constructor]. destruct (pretty_line n) as (_ & _ & ?). by apply Forall_singleton, good_line_prefix.
  - rewrite forallb_forall in Hd. apply Forall_forall. intros x Hx. apply list_elem_of_In, in_map_iff in Hx as (v & <- & Hv).
    apply Hd, andb_true_iff in Hv as [? _]. by apply good_line_prefix.
Qed.

(** A text without a blank line, nor the beginning of one at its end. *)
Fixpoint tight (s : string) : bool :=
  match s with
  | "" => true
  | String c r => (if Ascii.eqb LF c then match r with String d _ => negb (Ascii.eqb LF d) | "" => false end else true) && tight r
  end.

Lemma tight_line x s : LF ∉ chars x → tight (x ++ s) = tight s.
Proof.
  induction x as [|c x IH]; [done|]. cbn [chars String.append tight]. rewrite not_elem_of_cons. intros [Hc Hx].
  destruct (Ascii.eqb_spec LF c); [done|]. by apply IH.
Qed.

Lemma tight_lines lines : Forall good_line lines → tight (join newline lines) = true.
Proof.
  induction 1 as [|x lines (Hne & Hlf & _) Hl IH]; [done|]. destruct lines as [|y lines].
  - cbn [join]. rewrite <- (str_app_nil_r x). by rewrite tight_line.
  - rewrite join_cons, tight_line by done. cbn [newline String.append tight]. rewrite Ascii.eqb_refl, IH, andb_true_r.
    apply Forall_cons in Hl as [(Hy & Hy' & _) _]. destruct y as [|d y]; [done|]. cbn [chars] in Hy'. rewrite not_elem_of_cons in Hy'.
    assert (∃ r, join newline (String d y :: lines) = String d r) as [r ->] by (destruct lines; eexists; reflexivity).
    by destruct (Ascii.eqb_spec LF d) as [<-|]; [destruct Hy'|].
Qed.

Lemma tight_split s w : tight s = true → split_str blank_line (s ++ blank_line ++ w) = s :: split_str blank_line w.
Proof.
  intros Hs. apply split_str_cons; [done|]. intros a c b ->. induction a as [|d a IH].
  - cbn [String.append tight] in Hs. rewrite starts_with_strip. cbn [String.append blank_line newline strip_prefix].
    destruct (Ascii.eqb LF c); [|done]. destruct b as [|d b]; [done|]. cbn [String.append].
    destruct (Ascii.eqb LF d); [done|]. done.
  - cbn [String.append tight] in Hs. apply andb_true_iff in Hs as [_ Hs]. by apply IH.
Qed.

Lemma good_lines_no_cr lines : Forall good_line lines → no_cr (join newline lines).
Proof.
  unfold no_cr. induction 1 as [|x lines (_ & _ & Hx) Hl IH]; [apply not_elem_of_nil|].
  destruct lines as [|y lines]; [done|]. rewrite join_cons, !chars_app, !not_elem_of_app. split_and!; [done| |done].
  cbn. set_solver.
Qed.

Lemma read_data_lines ds c : forallb line_value ds = true →
  fold_left read_line (map (String.append "data: ") ds) c = mkChunk (dataLines c ++ ds)%list (eventName c) (chunk_id c) (chunk_retry c).
Proof.
  revert c. induction ds as [|v ds IH]; intros c; cbn [map fold_left forallb]; [by destruct c; rewrite app_nil_r|].
  rewrite andb_true_iff. intros [[_ Hv%String.eqb_eq]%andb_true_iff Hds]. rewrite IH by done.
  change (read_line c (String.append "data: " v)) with
    (mkChunk (dataLines c ++ [trim_start v])%list (eventName c) (chunk_id c) (chunk_retry c)).
  cbn [dataLines eventName chunk_id chunk_retry]. by rewrite Hv, <- app_assoc.
Qed.

Lemma read_id_line c v : line_value v = true →
  read_line c (String.append "id: " v) = mkChunk (dataLines c) (eventName c) (Some v) (chunk_retry c).
Proof.
  intros [_ Hv%String.eqb_eq]%andb_true_iff.
  change (read_line c (String.append "id: " v)) with (mkChunk (dataLines c) (eventName c) (Some (trim_start v)) (chunk_retry c)).
  by rewrite Hv.
Qed.

Lemma read_event_line c v : line_value v = true →
  read_line c (String.append "event: " v) = mkChunk (dataLines c) (Some v) (chunk_id c) (chunk_retry c).
Proof.
  intros [_ Hv%String.eqb_eq]%andb_true_iff.
  change (read_line c (String.append "event: " v)) with (mkChunk (dataLines c) (Some (trim_start v)) (chunk_id c) (chunk_retry c)).
  by rewrite Hv.
Qed.

Lemma read_retry_line c n :
  read_line c (String.append "retry: " (pretty (Z.of_N n))) = mkChunk (dataLines c) (eventName c) (chunk_id c) (Z.of_N n).
Proof.
  destruct (pretty_line n) as (Hn & Ht & _). remember (pretty (Z.of_N n)) as v eqn:E. clear E.
  change (read_line c (String.append "retry: " v)) with
    (mkChunk (dataLines c) (eventName c) (chunk_id c) (default (chunk_retry c) (parse_int (trim_start v)))).
  by rewrite Ht, Hn.
Qed.

Lemma read_sent_chunk e i d : sent_ok e = true → read_chunk i d (sent_chunk e) = read_sent i d e.
Proof.
  intros He. pose proof (sent_lines_good e He) as Hg. unfold read_chunk, sent_chunk.
  assert (∀ c, fold_left read_line (split_on LF (join newline (sent_lines e))) c = fold_left read_line (sent_lines e) c) as ->.
  { intros c. destruct (sent_lines e) as [|x l] eqn:E; [done|]. unfold newline. rewrite split_on_join; [done..|].
    eapply Forall_impl; [exact Hg|]. by intros ? (_ & ? & _). }
  unfold sent_ok in He. rewrite !andb_true_iff in He. destruct He as [[Hi Hn] Hd].
  unfold sent_lines. rewrite !fold_left_app, read_data_lines by done. unfold read_sent.
  destruct (s_id e), (s_event e), (s_retry e); cbn [fold_left opt_all] in *; by rewrite ?read_id_line, ?read_event_line, ?read_retry_line.
Qed.

Lemma sent_chunk_ok e : sent_ok e = true → tight (sent_chunk e) = true ∧ no_cr (sent_chunk e).
Proof. intros He%sent_lines_good. split; [by apply tight_lines|by apply good_lines_no_cr]. Qed.

(** A stream written event by event is read event by event: from the text of any events whose values
    fit in their lines, one read takes one chunk for each of them, in order, and keeps nothing; and each chunk
    gives back the name and every data line of its event, its id and its delay, or those in force when it has
    none of its own. *)
Theorem stream_roundtrip evs : Forall (λ e, sent_ok e = true) evs →
  feed "" (glue (map sent_text evs)) = (map sent_chunk evs, "") ∧
  ∀ e i d, e ∈ evs → read_chunk i d (sent_chunk e) = read_sent i d e.
Proof.
  intros Hs. split; [|intros e i d He; rewrite Forall_forall in Hs; by apply read_sent_chunk, Hs].
  unfold feed. change ("" ++ ?x) with x.
  assert (no_cr (glue (map sent_text evs)) ∧
    split_str blank_line (glue (map sent_text evs)) = (map sent_chunk evs ++ [""])%list) as [Hcr E].
  { induction Hs as [|e evs He Hs [IHc IHs]]; [split; [apply not_elem_of_nil|reflexivity]|].
    destruct (sent_chunk_ok e He) as [Ht Hc]. cbn [map glue foldr]. unfold sent_text at 1 3. split.
    - unfold no_cr in *. rewrite !chars_app, !not_elem_of_app. split_and!; [done| |done]. cbn. set_solver.
    - rewrite str_app_assoc, tight_split by done. fold (glue (map sent_text evs)). by rewrite IHs. }
  by rewrite normalize_id, E, removelast_last, last_last.
Qed.

Lemma stream_roundtrip_witness :
  let evs := [mkSent (Some "7") (Some "job") None ["{"; "}"]; mkSent None None (Some 250%N) []] in
  feed "" (glue (map sent_text evs)) = (map sent_chunk evs, "") ∧
  read_chunk None 3000 (sent_chunk (mkSent (Some "7") (Some "job") None ["{"; "}"])) = mkChunk ["{"; "}"] (Some "job") (Some "7") 3000.
Proof.
  destruct (stream_roundtrip [mkSent (Some "7") (Some "job") None ["{"; "}"]; mkSent None None (Some 250%N) []]) as [H1 H2].
  - by repeat constructor.
  - split; [exact H1|]. apply H2. by left.
Defined.

(** ** The methods [sse] of a client *)

Section client_sse.
Context {W File : Type} (boundary : string).
Local Notation client := (@client W File).
Local Notation RequestOptions := (@RequestOptions W File).

(** What a call adds to its options for a stream, and the platform's [fetch] of streams, which the [fetch]
    member of the options is here. *)
Record sse_settings := mkSettings {
  set_onSseError : option (thrown → M W unit);
  set_onSseEvent : option (@StreamEvent Client.data → M W unit);
  set_defaultRetryDelay : option Z; set_maxRetryAttempts : option Z; set_maxRetryDelay : option Z;
  set_sleep : Z → M W unit; set_aborted : W → bool;
  set_fetch : @Request File → M W SseResponse
}.

(** A value of JSON as the validators and transformers of the client take it. *)
Definition parse_event (text : string) : option Client.data := DJson <$> parse text.

(** The options of the generator that [client.sse.get(options)] and the like return. *)
Definition makeSseFn (cl : client) (method : string) (options : RequestOptions) (s : sse_settings) :
    M W (@ServerSentEventsOptions W File Client.data) :=
  '(opts, url) ← beforeRequest cl options;
  mret (mkSseOptions url method (HeadersObject (o_headers opts)) (getValidRequestBody opts) (set_fetch s)
    (Some (λ url init,
       request ← (λ w, (newRequest boundary (init_method init) url (init_headers init) (init_body init), w));
       pipe (λ f x, f x opts) (on_request cl) request))
    (set_onSseError s) (set_onSseEvent s)
    (Client.responseValidator (o_config opts)) (Client.responseTransformer (o_config opts))
    (set_defaultRetryDelay s) (set_maxRetryAttempts s) (set_maxRetryDelay s) (set_sleep s) (set_aborted s)).

(** The methods of a client, plain and streaming. *)
Inductive HttpMethod := Connect | Delete | GetMethod | Head | Options | Patch | Post | Put | Trace.

Definition verb (m : HttpMethod) : string :=
  match m with
  | Connect => "CONNECT" | Delete => "DELETE" | GetMethod => "GET" | Head => "HEAD" | Options => "OPTIONS"
  | Patch => "PATCH" | Post => "POST" | Put => "PUT" | Trace => "TRACE"
  end.

Definition client_method (globalFetch : @Request File → M W Response) (cl : client) (m : HttpMethod) : RequestOptions → M W (@reply File) :=
  makeMethodFn boundary globalFetch cl (verb m).
Definition client_sse (cl : client) (m : HttpMethod) : RequestOptions → sse_settings → M W ServerSentEventsOptions :=
  makeSseFn cl (verb m).

(** The assignments of the loop over the interceptors do not change what it computes. *)
Lemma pipe_set_pipe {F A} (call : F → A → M W A) (set : A → M (W * @Vars File) unit) fns x w v :
  (∀ y w v, ∃ v', set y (w, v) = (inl tt, (w, v'))) →
  ∃ v', pipe_set call set fns x (w, v) = (fst (pipe call fns x w), (snd (pipe call fns x w), v')).
Proof.
  intros Hset. revert x w v. induction fns as [|[f|] fns IH]; intros x w v; cbn [pipe_set pipe]; [by exists v| |apply IH].
  unfold mbind, M_bind, Client.lift. destruct (call (Client.fn f) x w) as [[y|e] w1]; [|by exists v].
  destruct (Hset y w1 v) as [v' ->]. apply IH.
Qed.

Lemma before_request_opts (cl : client) (o : RequestOptions) w opts url w' : beforeRequest cl o w = (inl (opts, url), w') →
  o_config opts = spread (config cl) (ro_config o) ∧ o_method opts = ro_method o.
Proof.
  unfold beforeRequest, mbind, M_bind.
  match goal with |- context [match ?m w with _ => _ end] => destruct (m w) as [[[h q]|e] w1]; [|done] end.
  match goal with |- context [match ?m w1 with _ => _ end] => destruct (m w1) as [[[]|e] w2]; [|done] end.
  by intros [= <- _ _].
Qed.
End client_sse.

(** A stream asks for what a plain call asks for: the first connection of [client.sse.m(options)]
    fetches the very request, in the very state of the world, that [client.m(options)] fetches, after the same
    credentials, validator, serializers and interceptors (which may read the method among the options); and fails as it does when building it fails. The
    [fetch] [reject] notes in the world which request it was given. *)
Theorem sse_first_request {W File} boundary (cl : @client W File) m (options : @RequestOptions W File) s
    (e : thrown) (reject : @Request File → W → W) consume w :
  ro_method options = verb m → fetch (spread (config cl) (ro_config options)) = None → set_fetch s = (λ r w, (inr e, reject r w)) →
  let plain := attempt boundary (λ r w, (inr e, reject r w)) cl options (w, (None, None)) in
  match client_sse boundary cl m options s w with
  | (inl o, w') =>
      let stream := connect boundary parse_event consume o (own_headers o) (w', initial o) in
      fst (snd stream) = fst (snd plain) ∧ (∃ err, fst stream = inr err ∧ fst plain = inr err)
  | (inr err, w') => fst plain = inr err ∧ fst (snd plain) = w'
  end.
Proof.
  intros Hm Hf Hs. cbv zeta. unfold client_sse, makeSseFn, attempt, connect, mbind, M_bind, Client.lift.
  destruct (beforeRequest cl options w) as [[[opts u]|err] w1] eqn:E; [|done].
  apply before_request_opts in E as [Ec Em]. cbn [mret M_ret fst snd method url opt_headers serializedBody onRequest sse_fetch own_headers emit modify lift].
  rewrite Em, Hm. unfold own_headers. cbn [opt_headers].
  destruct (newRequest boundary (verb m) u (o_headers opts) (getValidRequestBody opts)) as [r|err] eqn:Er; [|cbn; eauto].
  cbn [set_request]. unfold lift. cbn [init_method init_headers init_body]. rewrite Er.
  destruct (pipe_set_pipe (λ f x, f x opts) set_request (on_request cl) r w1 (Some r, None)) as [v' Hv].
  { intros y w0 [a b]. by exists (Some y, b). }
  unfold Vars in Hv. rewrite Hv.
  destruct (pipe (λ f x, f x opts) (on_request cl) r w1) as [[r'|err] w2]; cbn [fst snd]; [|eauto].
  rewrite Ec, Hf, Hs. cbn. eauto.
Qed.

Lemma sse_first_request_witness :
  let cl := createClient (W:=list (@Request unit)) (File:=unit) empty_config in
  let options := mkRequestOptions empty_config "GET" "/api/x" None None None [] in
  let s := mkSettings None None None None None (λ _ w, (inl tt, w)) (λ _, false) (λ r w, (inr (JsError "lost"), r :: w)) in
  match client_sse "b" cl GetMethod options s [] with
  | (inl o, w') => fst (snd (connect "b" parse_event (λ _ w, (inl Next, w)) o (own_headers o) (w', initial o))) = [mkRequest "GET" "/api/x" ∅ None]
  | _ => False
  end.
Proof.
  pose proof (sse_first_request "b" (createClient (W:=list (@Request unit)) (File:=unit) empty_config) GetMethod
    (mkRequestOptions empty_config "GET" "/api/x" None None None [])
    (mkSettings None None None None None (λ _ w, (inl tt, w)) (λ _, false) (λ r w, (inr (JsError "lost"), r :: w)))
    (JsError "lost") (λ r w, r :: w) (λ _ w, (inl Next, w)) [] eq_refl eq_refl eq_refl) as H.
  revert H. vm_compute. by intros [H _].
Defined.
