(* ===== verification/FormBody.v ===== *)
(** * Bodies sent as forms

    [urlSearchParamsBodySerializer] of [src/web/src/api/generated/core/bodySerializer.gen.ts]: the members of
    a body, a JSON object, as the text of a form. *)

From S2P Require Import Prelude JsString Json PathSerializer.
Local Open Scope string_scope.

(** ** The text of [URLSearchParams] *)

Definition form_safe (c : ascii) : bool := is_alnum c || is_char "*" c || is_char "-" c || is_char "." c || is_char "_" c.

(** The serializer of the platform: a blank is [+], and a byte that is not safe is [%XX]. *)
Definition form_char (c : ascii) : string :=
  if form_safe c then String c ""
  else if is_char " " c then "+"
  else String "%" (String (upper_hex (code c / 16)) (String (upper_hex (code c mod 16)) "")).
Fixpoint form_encode (s : string) : string := match s with "" => "" | String c r => form_char c ++ form_encode r end.

Definition form_pair (p : string * string) : string := form_encode (fst p) ++ "=" ++ form_encode (snd p).
Definition params_text (l : list (string * string)) : string := join "&" (form_pair <$> l).

(** ** The serializer *)

Definition serializeUrlSearchParamsPair (key : string) (v : json) : string * string :=
  (key, match v with JStr s => s | _ => stringify v end).

(** The pairs of a member: none for [null], one for each item of an array. *)
Definition member_pairs (m : string * json) : list (string * string) :=
  match snd m with
  | JNull => []
  | JArr l => serializeUrlSearchParamsPair (fst m) <$> l
  | v => [serializeUrlSearchParamsPair (fst m) v]
  end.

Definition urlSearchParamsBodySerializer (body : list (string * json)) : string := params_text (body ≫= member_pairs).

(** ** Forms read back *)

Lemma form_char_decode c t : decodeURIComponent (plus_to_space (form_char c ++ t)) = String c <$> decodeURIComponent (plus_to_space t).
Proof. destruct c as [[] [] [] [] [] [] [] []]; try reflexivity; cbn; by destruct (decodeURIComponent (plus_to_space t)). Qed.

Lemma form_decode s : queryUnescape (form_encode s) = Some s.
Proof.
  unfold queryUnescape. induction s as [|c s IH]; [done|]. cbn [form_encode]. by rewrite form_char_decode, IH.
Qed.

Lemma form_encode_no d s : d ∈ ["="; "&"]%char → d ∉ chars (form_encode s).
Proof.
  intros Hd. induction s as [|c s IH]; cbn [form_encode]; [apply not_elem_of_nil|]. rewrite chars_app, not_elem_of_app. split; [|done].
  clear IH. assert (∀ c, forallb (λ x, negb (Ascii.eqb x "=") && negb (Ascii.eqb x "&")) (chars (form_char c)) = true) as H.
  { intros [[] [] [] [] [] [] [] []]; reflexivity. }
  intros Hin. specialize (H c). rewrite forallb_forall in H. apply list_elem_of_In in Hin. specialize (H d Hin).
  repeat (apply elem_of_cons in Hd as [->|Hd]; [done|]). by apply elem_of_nil in Hd.
Qed.

Lemma parse_form_pair p : parse_pair (form_pair p) = Some p.
Proof.
  destruct p as [n v]. unfold parse_pair, form_pair. cbn [fst snd].
  change ("=" ++ form_encode v) with (String "=" (form_encode v)).
  rewrite split_on_cons by (apply form_encode_no; set_solver). rewrite split_on_no_sep by (apply form_encode_no; set_solver).
  cbn [join]. rewrite form_decode. cbn. by rewrite form_decode.
Qed.

(** A form is read by the server as the pairs its body stands for: every member that is not [null] under
    its name, in order, an array once for each of its items, texts as they are and other values as their JSON
    text; no name and no value, whatever its characters, can add, drop or change a pair. *)
Theorem form_roundtrip body : parseQuery (urlSearchParamsBodySerializer body) = Some (body ≫= member_pairs).
Proof.
  unfold urlSearchParamsBodySerializer, params_text. generalize (body ≫= member_pairs). intros ps. unfold parseQuery.
  destruct ps as [|p ps]; [done|].
  assert (truthy (join "&" (form_pair <$> p :: ps)) = true) as ->.
  { apply truthy_true. unfold form_pair. destruct p as [n v], ps; cbn [fmap list_fmap join fst snd]; destruct (form_encode n); done. }
  rewrite split_on_join; [|done|].
  - induction (p :: ps) as [|q qs IH]; [done|]. cbn [fmap list_fmap mapM]. rewrite parse_form_pair. cbn [mbind option_bind].
    change (list_fmap _ _ form_pair qs) with (form_pair <$> qs). by rewrite IH.
  - apply Forall_fmap, Forall_forall. intros q _. unfold compose, form_pair. rewrite !chars_app, !not_elem_of_app.
    split_and!; [apply form_encode_no; set_solver|cbn; set_solver|apply form_encode_no; set_solver].
Qed.

Example form_ex : urlSearchParamsBodySerializer [("a b", JStr "x&y"); ("n", JNull); ("l", JArr [JNum 1; JStr "é"])] = "a+b=x%26y&l=1&l=%C3%A9".
Proof. vm_compute. reflexivity. Qed.
