(* ===== verification/Params.v ===== *)
(** * Parameters of a flat call

    [buildClientParams] of [src/web/src/api/generated/core/params.gen.ts]: the arguments of a call, sorted
    into the body, headers, path and query of a request by a configuration of fields.

    The arguments are JSON values or [undefined] ([None]); members keep the order they are written in,
    as objects do for keys that are not array indexes; the characters of a string are single bytes. *)

From S2P Require Import Prelude JsString Json.
Local Open Scope string_scope.

(** ** The configuration *)

Inductive Slot := Body | Headers | Path | Query.
#[export] Instance slot_eq_dec : EqDecision Slot.
Proof. solve_decision. Defined.

(** A field goes to a slot under its key or the name [map] gives it; one without [in] names its slot by
    [map]. *)
Inductive Field :=
  | InField (in_ : Slot) (key : option string) (map : option string)
  | AliasField (key : string) (map : Slot).

Record Fields := mkFields { allowExtra : option (list (Slot * bool)); args : option (list Field) }.

Inductive config := OneField (f : Field) | ManyFields (f : Fields).
Notation FieldsConfig := (list config).

Definition extraPrefixes : list (string * Slot) :=
  [("$body_", Body); ("$headers_", Headers); ("$path_", Path); ("$query_", Query)].

(** An entry of the key map: a slot with a name, or the alias of a slot. *)
Inductive key_entry := InSlot (in_ : Slot) (map : option string) | Alias (map : Slot).
Notation KeyMap := (gmap string key_entry).

Definition add_field (m : KeyMap) (f : Field) : KeyMap :=
  match f with
  | InField slot (Some key) name => if truthy key then <[key := InSlot slot name]> m else m
  | InField _ None _ => m
  | AliasField key slot => <[key := Alias slot]> m
  end.

Definition add_config (m : KeyMap) (c : config) : KeyMap :=
  match c with
  | OneField f => add_field m f
  | ManyFields fs => match args fs with Some l => fold_left add_field l m | None => m end
  end.

Definition buildKeyMap (fields : FieldsConfig) : KeyMap := fold_left add_config fields ∅.

(** ** The slots *)

Notation value := (option json).

(** What a slot holds: an object, an array with what is written on it, or a value without members. *)
Inductive slot_value :=
  | Members (fs : list (string * value))
  | AnArray (l : list json) (written : list (string * value))
  | Plain (j : json).

Record Params := mkParams { body : option slot_value; headers : option slot_value; path : option slot_value; query : option slot_value }.

Definition get_slot (p : Params) (s : Slot) : option slot_value :=
  match s with Body => body p | Headers => headers p | Path => path p | Query => query p end.
Definition set_slot (s : Slot) (v : option slot_value) (p : Params) : Params :=
  match s with
  | Body => mkParams v (headers p) (path p) (query p)
  | Headers => mkParams (body p) v (path p) (query p)
  | Path => mkParams (body p) (headers p) v (query p)
  | Query => mkParams (body p) (headers p) (path p) v
  end.

(** [record[key] = value] on the members of an object. *)
Fixpoint set_member (key : string) (v : value) (fs : list (string * value)) : list (string * value) :=
  match fs with
  | [] => [(key, v)]
  | (k, x) :: fs => if String.eqb k key then (k, v) :: fs else (k, x) :: set_member key v fs
  end.

(** [None] is the [TypeError] of a member written on a value that has none. *)
Definition writeSlot (s : Slot) (key : string) (v : value) (p : Params) : option Params :=
  match get_slot p s with
  | None => Some (set_slot s (Some (Members [(key, v)])) p)
  | Some (Members fs) => Some (set_slot s (Some (Members (set_member key v fs))) p)
  | Some (AnArray l w) => Some (set_slot s (Some (AnArray l (set_member key v w))) p)
  | Some (Plain _) => None
  end.

(** [params[slot] = v] *)
Definition as_slot (v : value) : option slot_value :=
  match v with
  | None => None
  | Some (JObj fs) => Some (Members (prod_map id Some <$> fs))
  | Some (JArr l) => Some (AnArray l [])
  | Some j => Some (Plain j)
  end.

(** [Object.entries(arg ?? {})] *)
Definition index_entries {A} (l : list A) : list (string * A) := imap (λ i x, (pretty (N.of_nat i), x)) l.
Definition entries (arg : value) : list (string * value) :=
  match arg with
  | Some (JObj fs) => prod_map id Some <$> fs
  | Some (JArr l) => prod_map id Some <$> index_entries l
  | Some (JStr s) => prod_map id Some <$> index_entries ((λ c, JStr (String c "")) <$> chars s)
  | _ => []
  end.

(** ** Placing the arguments *)

(** [field.map || key] *)
Definition mapped (name : option string) (key : string) : string := default "" name ||s key.

(** The first slot that takes extra members. *)
Definition first_allowed (extra : list (Slot * bool)) : option Slot := fst <$> List.find snd extra.

(** One member of an argument under a configuration with the extras [extra]. *)
Definition place (m : KeyMap) (extra : option (list (Slot * bool))) (p : Params) (e : string * value) : option Params :=
  let '(key, v) := e in
  match m !! key with
  | Some (InSlot slot name) => writeSlot slot (mapped name key) v p
  | Some (Alias slot) => Some (set_slot slot (as_slot v) p)
  | None =>
      match List.find (λ x, starts_with (fst x) key) extraPrefixes with
      | Some (prefix, slot) => writeSlot slot (default "" (strip_prefix prefix key)) v p
      | None =>
          match extra ≫= first_allowed with
          | Some slot => writeSlot slot key v p
          | None => Some p
          end
      end
  end.

Fixpoint place_all (m : KeyMap) (extra : option (list (Slot * bool))) (l : list (string * value)) (p : Params) : option Params :=
  match l with [] => Some p | e :: l => p ← place m extra p e; place_all m extra l p end.

(** One argument under its configuration. *)
Definition add_arg (m : KeyMap) (c : config) (arg : value) (p : Params) : option Params :=
  match c with
  | OneField (InField _ (Some key) _) =>
      if truthy key then
        match m !! key with
        | Some (InSlot slot name) => writeSlot slot (mapped name key) arg p
        | Some (Alias _) | None => Some p
        end
      else Some (set_slot Body (as_slot arg) p)
  | OneField (InField _ None _) => Some (set_slot Body (as_slot arg) p)
  | OneField (AliasField _ _) => place_all m None (entries arg) p
  | ManyFields fs => place_all m (allowExtra fs) (entries arg) p
  end.

(** An argument past the last configuration keeps the last one. *)
Fixpoint add_args (m : KeyMap) (fields : FieldsConfig) (last : option config) (args : list value) (p : Params) : option Params :=
  match args with
  | [] => Some p
  | arg :: args =>
      let current := match fields with c :: _ => Some c | [] => last end in
      match current with
      | None => add_args m (tail fields) current args p
      | Some c => p ← add_arg m c arg p; add_args m (tail fields) current args p
      end
  end.

Definition is_empty_slot (v : option slot_value) : bool := match v with Some (Members []) => true | _ => false end.
Definition strip (s : Slot) (p : Params) : Params := if is_empty_slot (get_slot p s) then set_slot s None p else p.
Definition stripEmptySlots (p : Params) : Params := strip Query (strip Path (strip Headers p)).

Definition empty_params : Params := mkParams None (Some (Members [])) (Some (Members [])) (Some (Members [])).

Definition buildClientParams (args : list value) (fields : FieldsConfig) : option Params :=
  stripEmptySlots <$> add_args (buildKeyMap fields) fields None args empty_params.

(** A call of two arguments: an id for the path, and the rest by name. *)
Definition sample_fields : FieldsConfig :=
  [OneField (InField Path (Some "id") None);
   ManyFields (mkFields (Some [(Headers, false); (Query, true)])
     (Some [InField Query (Some "page_size") (Some "limit"); InField Body (Some "name") None]))].

Example sample_call :
  buildClientParams [Some (JStr "vm-1"); Some (JObj [("page_size", JNum 10); ("$headers_X-Trace", JStr "t"); ("name", JStr "n"); ("q", JStr "s")])] sample_fields
  = Some (mkParams (Some (Members [("name", Some (JStr "n"))])) (Some (Members [("X-Trace", Some (JStr "t"))]))
      (Some (Members [("id", Some (JStr "vm-1"))])) (Some (Members [("limit", Some (JNum 10)); ("q", Some (JStr "s"))]))).
Proof. vm_compute. reflexivity. Qed.

(** ** Where members end up *)

(** Every field names a slot and a key. *)
Definition keyed (f : Field) : bool := match f with InField _ (Some key) _ => truthy key | _ => false end.
Definition keyed_config (c : config) : bool :=
  match c with OneField f => keyed f | ManyFields fs => forallb keyed (default [] (args fs)) end.

(** The slot and the name a member of an argument goes to: those of its field; or its prefix and what
    follows it; or the first slot that takes extra members; or nowhere. *)
Definition target (m : KeyMap) (extra : option (list (Slot * bool))) (key : string) : option (Slot * string) :=
  match m !! key with
  | Some (InSlot slot name) => Some (slot, mapped name key)
  | Some (Alias _) => None
  | None =>
      match List.find (λ x, starts_with (fst x) key) extraPrefixes with
      | Some (prefix, slot) => Some (slot, default "" (strip_prefix prefix key))
      | None => (λ slot, (slot, key)) <$> (extra ≫= first_allowed)
      end
  end.

Notation write := (Slot * string * value)%type.

Definition writes_of (m : KeyMap) (extra : option (list (Slot * bool))) (l : list (string * value)) : list write :=
  omap (λ e, (λ t, (t, snd e)) <$> target m extra (fst e)) l.

Definition arg_writes (m : KeyMap) (c : config) (arg : value) : list write :=
  match c with
  | OneField (InField _ (Some key) _) => match target m None key with Some t => [(t, arg)] | None => [] end
  | OneField _ => []
  | ManyFields fs => writes_of m (allowExtra fs) (entries arg)
  end.

Fixpoint all_writes (m : KeyMap) (fields : FieldsConfig) (last : option config) (args : list value) : list write :=
  match args with
  | [] => []
  | arg :: args =>
      let current := match fields with c :: _ => Some c | [] => last end in
      (match current with Some c => arg_writes m c arg | None => [] end ++ all_writes m (tail fields) current args)%list
  end.

(** The member of a slot, and the last value written to it. *)
Fixpoint assoc (name : string) (fs : list (string * value)) : option value :=
  match fs with [] => None | (k, v) :: fs => if String.eqb k name then Some v else assoc name fs end.
Definition member (p : Params) (s : Slot) (name : string) : option value :=
  match get_slot p s with Some (Members fs) => assoc name fs | _ => None end.
Definition last_written (s : Slot) (name : string) (ws : list write) : option value :=
  last (snd <$> filter (λ w, fst w = (s, name)) ws).

Lemma assoc_set_member key v fs name :
  assoc name (set_member key v fs) = if String.eqb key name then Some v else assoc name fs.
Proof.
  induction fs as [|[k x] fs IH]; cbn [set_member assoc]; [done|].
  destruct (String.eqb_spec k key) as [->|]; cbn [assoc]; [by destruct (String.eqb key name)|].
  rewrite IH. destruct (String.eqb_spec k name) as [->|]; [|done].
  by destruct (String.eqb_spec key name) as [->|].
Qed.

(** Slots that hold objects, and never an empty one that was written to. *)
Definition object_slot (v : option slot_value) : Prop := match v with None | Some (Members _) => True | _ => False end.
Definition objects (p : Params) : Prop := ∀ s, object_slot (get_slot p s).

Lemma get_set_slot p s s' v : get_slot (set_slot s v p) s' = if decide (s = s') then v else get_slot p s'.
Proof. by destruct s, s'. Qed.

(** The slots after the writes [ws]: the last value of each member, and a slot is empty when nothing was
    written to it. *)
Record placed (ws : list write) (p : Params) : Prop := {
  placed_objects : objects p;
  placed_members : ∀ s name, member p s name = last_written s name ws;
  placed_empty : ∀ s, get_slot p s = None ∨ is_empty_slot (get_slot p s) = true ↔ ∀ w, w ∈ ws → fst (fst w) ≠ s;
  placed_body : is_empty_slot (get_slot p Body) = false
}.

Lemma set_member_nonempty key v fs : set_member key v fs ≠ [].
Proof. destruct fs as [|[k x] fs]; cbn; [done|]. by case_match. Qed.

Lemma last_written_snoc s name ws w :
  last_written s name (ws ++ [w])%list = if decide (fst w = (s, name)) then Some (snd w) else last_written s name ws.
Proof.
  unfold last_written. rewrite filter_app, fmap_app. case_decide as E.
  - rewrite filter_cons_True, filter_nil by done. apply last_snoc.
  - rewrite filter_cons_False, filter_nil by done. by rewrite app_nil_r.
Qed.

Lemma writeSlot_placed ws p s key v : placed ws p → ∃ p', writeSlot s key v p = Some p' ∧ placed (ws ++ [(s, key, v)])%list p'.
Proof.
  intros [Ho Hm He Hb]. unfold writeSlot. specialize (Ho s) as Hs. destruct (get_slot p s) as [[fs| |]|] eqn:E; try done.
  - eexists. split; [reflexivity|]. constructor.
    + intros s'. rewrite get_set_slot. by case_decide; [|apply Ho].
    + intros s' name. rewrite last_written_snoc, <- Hm. unfold member. rewrite get_set_slot. cbn [fst snd].
      destruct (decide (s = s')) as [<-|]; [|rewrite decide_False by congruence; done].
      rewrite E, assoc_set_member. destruct (String.eqb_spec key name) as [->|]; [by rewrite decide_True|by rewrite decide_False by congruence].
    + intros s'. rewrite get_set_slot. setoid_rewrite elem_of_app. destruct (decide (s = s')) as [<-|]; [|rewrite He; set_solver].
      split; [|intros H; exfalso; apply (H (s, key, v)); set_solver].
      intros [?|H]; [done|]. cbn in H. pose proof (set_member_nonempty key v fs). by destruct (set_member key v fs).
    + rewrite get_set_slot. case_decide; [|done]. cbn. pose proof (set_member_nonempty key v fs). by destruct (set_member key v fs).
  - eexists. split; [reflexivity|]. constructor.
    + intros s'. rewrite get_set_slot. by case_decide; [|apply Ho].
    + intros s' name. rewrite last_written_snoc, <- Hm. unfold member. rewrite get_set_slot. cbn [fst snd].
      destruct (decide (s = s')) as [<-|]; [|rewrite decide_False by congruence; done].
      rewrite E. cbn [assoc]. destruct (String.eqb_spec key name) as [->|]; [by rewrite decide_True|by rewrite decide_False by congruence].
    + intros s'. rewrite get_set_slot. setoid_rewrite elem_of_app. destruct (decide (s = s')) as [<-|]; [|rewrite He; set_solver].
      split; [|intros H; exfalso; apply (H (s, key, v)); set_solver]. by intros [?|H].
    + rewrite get_set_slot. by case_decide.
Qed.

Lemma place_placed ws m extra p e : (∀ k slot, m !! k ≠ Some (Alias slot)) → placed ws p →
  ∃ p', place m extra p e = Some p' ∧ placed (ws ++ writes_of m extra [e])%list p'.
Proof.
  intros Hm Hp. destruct e as [key v]. unfold writes_of, place. cbn [omap list_omap fst snd]. unfold target.
  destruct (m !! key) as [[slot name|slot]|] eqn:E; cbn [fmap option_fmap option_map].
  - by apply writeSlot_placed.
  - by apply Hm in E.
  - destruct (List.find _ extraPrefixes) as [[prefix slot]|]; cbn [fmap option_fmap option_map]; [by apply writeSlot_placed|].
    destruct (extra ≫= first_allowed) as [slot|]; cbn [fmap option_fmap option_map]; [by apply writeSlot_placed|].
    exists p. by rewrite app_nil_r.
Qed.

Lemma place_all_placed m extra l : (∀ k slot, m !! k ≠ Some (Alias slot)) → ∀ ws p, placed ws p →
  ∃ p', place_all m extra l p = Some p' ∧ placed (ws ++ writes_of m extra l)%list p'.
Proof.
  intros Hm. induction l as [|e l IH]; intros ws p Hp.
  - exists p. cbn. by rewrite app_nil_r.
  - destruct (place_placed ws m extra p e Hm Hp) as (p1 & E1 & H1). destruct (IH _ p1 H1) as (p2 & E2 & H2).
    exists p2. cbn [place_all]. rewrite E1. split; [exact E2|].
    assert (writes_of m extra (e :: l) = writes_of m extra [e] ++ writes_of m extra l)%list as ->; [|by rewrite app_assoc].
    unfold writes_of. cbn [omap list_omap]. by destruct (target m extra (fst e)).
Qed.

(** The key map of keyed fields has no aliases, and an entry for the key of each of them. *)
Lemma add_fields_entries l m : forallb keyed l = true → (∀ k slot, m !! k ≠ Some (Alias slot)) →
  ∀ k slot, fold_left add_field l m !! k ≠ Some (Alias slot).
Proof.
  revert m. induction l as [|f l IH]; intros m Hl Hm; [done|]. cbn [forallb fold_left] in *. apply andb_true_iff in Hl as [Hf Hl].
  apply IH; [done|]. destruct f as [slot [key|] name|]; [|done..]. cbn in Hf |- *. rewrite Hf.
  intros k slot'. destruct (decide (key = k)) as [->|]; [by rewrite lookup_insert_eq|by rewrite lookup_insert_ne].
Qed.

Lemma buildKeyMap_entries fields : forallb keyed_config fields = true → ∀ k slot, buildKeyMap fields !! k ≠ Some (Alias slot).
Proof.
  unfold buildKeyMap. assert (∀ k slot, (∅ : KeyMap) !! k ≠ Some (Alias slot)) as H0 by (intros; by rewrite lookup_empty).
  revert H0. generalize (∅ : KeyMap). induction fields as [|c fields IH]; intros m Hm Hf; [done|].
  cbn [forallb fold_left] in *. apply andb_true_iff in Hf as [Hc Hf]. apply IH; [|done].
  destruct c as [f|fs]; cbn [add_config keyed_config] in *.
  - apply (add_fields_entries [f]); [cbn; by rewrite Hc|done].
  - destruct (args fs) as [l|]; [|done]. by apply add_fields_entries.
Qed.

Lemma add_fields_keep l m k : is_Some (m !! k) → is_Some (fold_left add_field l m !! k).
Proof.
  revert m. induction l as [|f l IH]; intros m Hk; [done|]. cbn [fold_left]. apply IH.
  destruct f as [slot [key|] name|key slot]; cbn [add_field]; [case_match; [|done]|done|];
    (destruct (decide (key = k)) as [->|]; [by rewrite lookup_insert_eq|by rewrite lookup_insert_ne]).
Qed.

Lemma add_config_keep fields m k : is_Some (m !! k) → is_Some (fold_left add_config fields m !! k).
Proof.
  revert m. induction fields as [|c fields IH]; intros m Hk; [done|]. cbn [fold_left]. apply IH.
  destruct c as [f|fs]; cbn [add_config]; [by apply (add_fields_keep [f])|]. destruct (args fs); [by apply add_fields_keep|done].
Qed.

Lemma buildKeyMap_key fields slot key name : truthy key = true → OneField (InField slot (Some key) name) ∈ fields →
  is_Some (buildKeyMap fields !! key).
Proof.
  intros Hk. unfold buildKeyMap. generalize (∅ : KeyMap). induction fields as [|c fields IH]; intros m Hin; [by apply not_elem_of_nil in Hin|].
  cbn [fold_left]. apply elem_of_cons in Hin as [<-|Hin]; [|by apply IH].
  apply add_config_keep. cbn [add_config add_field]. rewrite Hk, lookup_insert_eq. eauto.
Qed.

Lemma add_arg_placed fields c arg ws p : let m := buildKeyMap fields in
  forallb keyed_config fields = true → c ∈ fields → placed ws p →
  ∃ p', add_arg m c arg p = Some p' ∧ placed (ws ++ arg_writes m c arg)%list p'.
Proof.
  intros m Hf Hc Hp. pose proof (buildKeyMap_entries fields Hf) as Hm. fold m in Hm.
  assert (keyed_config c = true) as Hk. { rewrite forallb_forall in Hf. by apply Hf, list_elem_of_In. }
  destruct c as [[slot [key|] name|]|fs]; [|done..|by apply place_all_placed].
  cbn [keyed_config keyed] in Hk. cbn [add_arg arg_writes]. rewrite Hk.
  destruct (buildKeyMap_key fields slot key name Hk Hc) as [e E]. fold m in E. unfold target. rewrite E.
  destruct e as [slot' name'|slot']; [by apply writeSlot_placed|by apply Hm in E].
Qed.

Lemma add_args_placed all fields last args ws p : let m := buildKeyMap all in
  forallb keyed_config all = true → (∀ c, c ∈ fields ∨ last = Some c → c ∈ all) → placed ws p →
  ∃ p', add_args m fields last args p = Some p' ∧ placed (ws ++ all_writes m fields last args)%list p'.
Proof.
  intros m Hall. revert fields last ws p. induction args as [|arg args IH]; intros fields last ws p Hin Hp.
  - exists p. cbn. by rewrite app_nil_r.
  - cbn [add_args all_writes]. destruct (match fields with c :: _ => Some c | [] => last end) as [c|] eqn:E.
    + assert (c ∈ all) as Hc. { apply Hin. destruct fields as [|c' fields]; [by right|]. injection E as ->. left. by left. }
      destruct (add_arg_placed all c arg ws p Hall Hc Hp) as (p1 & E1 & H1). fold m in E1, H1.
      assert (∀ c', c' ∈ tail fields ∨ Some c = Some c' → c' ∈ all) as Hin'.
      { intros c' [Hc'|[= <-]]; [|done]. apply Hin. left. destruct fields; [done|]. by right. }
      destruct (IH (tail fields) (Some c) _ p1 Hin' H1) as (p2 & E2 & H2).
      exists p2. rewrite E1. split; [exact E2|]. by rewrite app_assoc.
    + rewrite app_nil_l. apply IH; [|done]. intros c' [Hc'|?]; [|done]. apply Hin. left. destruct fields; [done|]. by right.
Qed.

Lemma get_strip s s' p : get_slot (strip s p) s' = if decide (s = s') then (if is_empty_slot (get_slot p s') then None else get_slot p s') else get_slot p s'.
Proof.
  unfold strip. destruct (decide (s = s')) as [<-|].
  - destruct (is_empty_slot (get_slot p s)) eqn:E; [|done]. by rewrite get_set_slot, decide_True.
  - destruct (is_empty_slot (get_slot p s)); [|done]. by rewrite get_set_slot, decide_False.
Qed.

Lemma get_stripEmptySlots p s : get_slot (stripEmptySlots p) s =
  if decide (s ≠ Body) then (if is_empty_slot (get_slot p s) then None else get_slot p s) else get_slot p s.
Proof.
  unfold stripEmptySlots. rewrite !get_strip.
  destruct s; cbn; repeat case_decide; try done; by repeat (case_match; simplify_eq/=).
Qed.

(** Every member of a call's arguments goes to one place. For a configuration of fields that name a slot
    and a key, building the parameters never throws, whatever the arguments; each member of each slot is the
    last value written under its name, by a field under its key or mapped name, by a member with a known prefix
    under what follows it, or by any other member in the first slot that takes extra ones; nothing else is
    there; and the slots nothing was written to are absent. *)
Theorem params_placed args fields : forallb keyed_config fields = true →
  let ws := all_writes (buildKeyMap fields) fields None args in
  ∃ p, buildClientParams args fields = Some p ∧ objects p ∧
    (∀ s name, member p s name = last_written s name ws) ∧
    (∀ s, get_slot p s = None ↔ ∀ w, w ∈ ws → fst (fst w) ≠ s).
Proof.
  intros Hf. cbv zeta.
  assert (placed [] empty_params) as H0.
  { constructor; [by intros []|by intros []| |done]. intros s. split; [set_solver|]. intros _. destruct s; cbn; auto. }
  destruct (add_args_placed fields fields None args [] empty_params Hf ltac:(by intros c [?|?]) H0) as (p & E & [Ho Hm He Hb]).
  cbn [app] in Hm, He. exists (stripEmptySlots p). unfold buildClientParams. rewrite E. split_and!; [done|..].
  - intros s. rewrite get_stripEmptySlots. specialize (Ho s). by repeat case_match.
  - intros s name. rewrite <- Hm. unfold member. rewrite get_stripEmptySlots.
    case_decide; [|done]. destruct (get_slot p s) as [[[]| |]|]; done.
  - intros s. rewrite <- He, get_stripEmptySlots. case_decide as Hs.
    + destruct (get_slot p s) as [[[]| |]|]; cbn; naive_solver.
    + destruct (decide (s = Body)) as [->|]; [|tauto]. rewrite Hb. naive_solver.
Qed.

Lemma params_placed_witness :
  let call := [Some (JStr "vm-1"); Some (JObj [("page_size", JNum 10); ("q", JStr "s"); ("limit", JNum 5)])] in
  ∃ p, buildClientParams call sample_fields = Some p ∧ member p Path "id" = Some (Some (JStr "vm-1")) ∧
    member p Query "limit" = Some (Some (JNum 5)) ∧ member p Query "page_size" = None ∧ get_slot p Headers = None.
Proof.
  destruct (params_placed [Some (JStr "vm-1"); Some (JObj [("page_size", JNum 10); ("q", JStr "s"); ("limit", JNum 5)])]
    sample_fields eq_refl) as (p & E & _ & Hm & He).
  exists p. split; [exact E|]. rewrite !Hm. split_and!; [vm_compute; reflexivity..|].
  apply He. intros w Hw. vm_compute in Hw. repeat (apply elem_of_cons in Hw as [->|Hw]; [done|]). by apply elem_of_nil in Hw.
Defined.
