(* ===== verification/QueryKeys.v ===== *)
(** * Query keys

    [src/web/src/api/generated/core/queryKeySerializer.gen.ts]: the JSON value that stands for any value of a
    request in the key of its cached answer.

    Values are trees, numbers are integers or not finite, and objects of other classes have no [toJSON] of
    their own. A search parameter called [__proto__], which would set the prototype of the result, is
    outside the model. *)

From S2P Require Import Prelude JsString Json.
From stdpp Require Import sorting.
Local Open Scope string_scope.

(** ** Values *)

Inductive js_value :=
  | VNull | VUndefined | VFunction | VSymbol
  | VString (s : string) | VNumber (n : Z) | VNotFinite | VBool (b : bool) | VBigInt (n : Z)
  (** [None] is an invalid date *)
  | VDate (iso : option string)
  | VArray (l : list js_value)
  | VPlain (ms : list (string * js_value))
  | VSearchParams (entries : list (string * string))
  (** an object with another prototype, by its own members *)
  | VObject (ms : list (string * js_value)).

(** What [toJSON] and the replacer [queryKeyJsonReplacer] leave of a value that is not an array or an
    object. [toJSON] comes first, so the replacer sees the text of a date. *)
Definition toJSON (v : js_value) : js_value :=
  match v with VDate (Some iso) => VString iso | VDate None => VNull | _ => v end.
Definition queryKeyJsonReplacer (v : js_value) : js_value + unit :=
  match v with
  | VUndefined | VFunction | VSymbol => inl VUndefined
  | VBigInt n => inl (VString (pretty n))
  | VDate (Some iso) => inl (VString iso)
  | VDate None => inr tt
  | _ => inl v
  end.

(** [JSON.stringify(v, queryKeyJsonReplacer)], as the value its text denotes; [None] is [undefined]. *)
Fixpoint json_of (v : js_value) : option json :=
  match queryKeyJsonReplacer (toJSON v) with
  | inr _ => None
  | inl (VString s) => Some (JStr s)
  | inl _ =>
      match v with
      | VNull => Some JNull
      | VNumber n => Some (JNum n)
      | VNotFinite => Some JNull
      | VBool b => Some (JBool b)
      | VArray l => Some (JArr (map (λ x, default JNull (json_of x)) l))
      | VPlain ms | VObject ms =>
          Some (JObj (flat_map (λ m, match json_of (snd m) with Some j => [(fst m, j)] | None => [] end) ms))
      | VSearchParams _ => Some (JObj [])
      | VDate _ => Some JNull
      | _ => None
      end
  end.

Definition stringifyToJsonValue (input : js_value) : option json :=
  match stringify <$> json_of input with
  | Some text => parse text
  | None => None
  end.

Definition isPlainObject (v : js_value) : bool := match v with VPlain _ => true | _ => false end.

(** ** Search parameters *)

(** The names every object inherits from [Object.prototype]. *)
Definition inherited (key : string) : bool :=
  includes_str ["constructor"; "hasOwnProperty"; "isPrototypeOf"; "propertyIsEnumerable"; "toLocaleString"; "toString";
    "valueOf"; "__defineGetter__"; "__defineSetter__"; "__lookupGetter__"; "__lookupSetter__"] key.

(** The value of a parameter: its text, or an array of texts, in which an inherited function may sit. *)
Inductive item := Text (s : string) | Builtin (name : string).
Inductive param_value := One (s : string) | Many (l : list item).

Section search_params.
(** [a.localeCompare(b) <= 0] *)
Context (le : string → string → bool).

(** The sort of the language is stable: an entry goes before the later ones it does not exceed. *)
Fixpoint insert_entry (e : string * string) (l : list (string * string)) : list (string * string) :=
  match l with
  | [] => [e]
  | x :: r => if le (fst e) (fst x) then e :: l else x :: insert_entry e r
  end.
Definition sort_entries (l : list (string * string)) : list (string * string) := foldr insert_entry [] l.

Fixpoint set_value (key : string) (v : param_value) (l : list (string * param_value)) : list (string * param_value) :=
  match l with
  | [] => [(key, v)]
  | (k, x) :: r => if String.eqb k key then (k, v) :: r else (k, x) :: set_value key v r
  end.
Fixpoint value_of (key : string) (l : list (string * param_value)) : option param_value :=
  match l with [] => None | (k, x) :: r => if String.eqb k key then Some x else value_of key r end.

(** The loop: [result\[key\]] reads an inherited member where the result has none of its own. *)
Definition add_entry (result : list (string * param_value)) (e : string * string) : list (string * param_value) :=
  let '(key, value) := e in
  match value_of key result with
  | None => if inherited key then set_value key (Many [Builtin key; Text value]) result else set_value key (One value) result
  | Some (One existing) => set_value key (Many [Text existing; Text value]) result
  | Some (Many existing) => set_value key (Many (existing ++ [Text value])%list) result
  end.

Definition serializeSearchParams (params : list (string * string)) : list (string * param_value) :=
  fold_left add_entry (sort_entries params) [].

(** ** Keys *)

(** A JSON value, a number that is not finite, or search parameters. *)
Inductive key_value := KJson (j : json) | KNotFinite | KParams (l : list (string * param_value)).

(** The value, [undefined] ([None]), or the error an invalid date throws. *)
Definition serializeQueryKeyValue (v : js_value) : option key_value + string :=
  match v with
  | VNull => inl (Some (KJson JNull))
  | VString s => inl (Some (KJson (JStr s)))
  | VNumber n => inl (Some (KJson (JNum n)))
  | VBool b => inl (Some (KJson (JBool b)))
  | VUndefined | VFunction | VSymbol => inl None
  | VBigInt n => inl (Some (KJson (JStr (pretty n))))
  | VDate (Some iso) => inl (Some (KJson (JStr iso)))
  | VDate None => inr "RangeError"
  | VArray _ => inl (KJson <$> stringifyToJsonValue v)
  | VSearchParams l => inl (Some (KParams (serializeSearchParams l)))
  | VNotFinite => inl (Some KNotFinite)
  | VPlain _ | VObject _ => if isPlainObject v then inl (KJson <$> stringifyToJsonValue v) else inl None
  end.
End search_params.

(** ** The keys of JSON values *)

Fixpoint of_json (j : json) : js_value :=
  match j with
  | JNull => VNull
  | JBool b => VBool b
  | JNum n => VNumber n
  | JStr s => VString s
  | JArr l => VArray (map of_json l)
  | JObj fs => VPlain (map (λ p, (fst p, of_json (snd p))) fs)
  end.

Lemma json_of_json j : json_of (of_json j) = Some j.
Proof.
  induction j as [|b|n|s|l IH|fs IH] using json_ind'; [done..| |]; cbn.
  - do 2 f_equal. induction IH as [|x l Hx _ IHl]; cbn; [done|]. by rewrite Hx, IHl.
  - do 2 f_equal. induction IH as [|[k x] fs Hx _ IHl]; cbn; [done|]. cbn in Hx. by rewrite Hx, IHl.
Qed.

Lemma stringifyToJsonValue_spec v : stringifyToJsonValue v = json_of v.
Proof. unfold stringifyToJsonValue. destruct (json_of v) as [j|]; cbn; [apply parse_stringify|done]. Qed.

(** ** The keys of search parameters *)

Definition values (key : string) (l : list (string * string)) : list string := snd <$> filter (λ e, fst e = key) l.

(** What the result holds for a parameter with the values [vs]. *)
Definition collected (key : string) (vs : list string) : option param_value :=
  match vs with
  | [] => None
  | [v] => Some (if inherited key then Many [Builtin key; Text v] else One v)
  | _ => Some (Many ((if inherited key then [Builtin key] else []) ++ map Text vs)%list)
  end.

Lemma values_app key l k : values key (l ++ k)%list = (values key l ++ values key k)%list.
Proof. unfold values. by rewrite filter_app, fmap_app. Qed.

Lemma values_single key e : values key [e] = if decide (fst e = key) then [snd e] else [].
Proof. unfold values. case_decide; [rewrite filter_cons_True by done|rewrite filter_cons_False by done]; done. Qed.

Lemma value_of_set key v l k : value_of k (set_value key v l) = if String.eqb key k then Some v else value_of k l.
Proof.
  induction l as [|[k' x] l IH]; cbn [set_value value_of]; [done|].
  destruct (String.eqb_spec k' key) as [->|]; cbn [value_of]; [by destruct (String.eqb key k)|].
  rewrite IH. destruct (String.eqb_spec k' k) as [->|]; [|done]. by destruct (String.eqb_spec key k) as [->|].
Qed.

(** The keys of the result: a key that is there stays where it is, another goes last. *)
Lemma keys_set key v l : (set_value key v l).*1 = match value_of key l with Some _ => l.*1 | None => (l.*1 ++ [key])%list end.
Proof.
  induction l as [|[k x] l IH]; cbn [set_value value_of]; [done|]. destruct (String.eqb_spec k key) as [->|]; [done|].
  cbn. rewrite IH. by case_match.
Qed.

Lemma value_of_keys k l : value_of k l ≠ None ↔ k ∈ l.*1.
Proof.
  induction l as [|[k' x] l IH]; cbn [value_of fmap list_fmap fst]; [set_solver|]. rewrite elem_of_cons.
  destruct (String.eqb_spec k' k) as [->|]; [naive_solver|]. rewrite IH. naive_solver.
Qed.

Lemma add_entry_keys e l : (add_entry l e).*1 = if decide (fst e ∈ l.*1) then l.*1 else (l.*1 ++ [fst e])%list.
Proof.
  destruct e as [key v]. unfold add_entry. cbn [fst]. destruct (value_of key l) as [x|] eqn:E.
  - rewrite decide_True by (apply value_of_keys; by rewrite E). destruct x; by rewrite keys_set, E.
  - rewrite decide_False by (rewrite <- value_of_keys, E; tauto). destruct (inherited key); by rewrite keys_set, E.
Qed.

Lemma collected_snoc key vs v : collected key (vs ++ [v]) =
  Some match collected key vs with
       | None => if inherited key then Many [Builtin key; Text v] else One v
       | Some (One x) => Many [Text x; Text v]
       | Some (Many l) => Many (l ++ [Text v])
       end%list.
Proof.
  destruct vs as [|a [|b vs]]; cbn -[inherited]; [done|by destruct (inherited key)|].
  rewrite map_app. by destruct (inherited key).
Qed.

Lemma add_entries_values k l acc pre : (∀ k, value_of k acc = collected k (values k pre)) →
  value_of k (fold_left add_entry l acc) = collected k (values k (pre ++ l)%list).
Proof.
  revert acc pre. induction l as [|[key v] l IH]; intros acc pre Hacc; [by rewrite app_nil_r|]. cbn [fold_left].
  rewrite (IH _ (pre ++ [(key, v)])%list), <- app_assoc; [done|]. clear k IH. intros k.
  rewrite values_app, values_single. cbn [fst snd]. unfold add_entry. rewrite Hacc.
  destruct (decide (key = k)) as [->|Hk].
  - rewrite collected_snoc. destruct (collected k (values k pre)) as [[x|x]|]; [..|destruct (inherited k)]; cbv iota beta; by rewrite value_of_set, String.eqb_refl.
  - rewrite app_nil_r, <- (Hacc k). apply String.eqb_neq in Hk.
    destruct (collected key (values key pre)) as [[x|x]|]; [..|destruct (inherited key)]; cbv iota beta; by rewrite value_of_set, Hk.
Qed.

Section canonical.
Context (le : string → string → bool).
Context (le_total : ∀ a b, le a b = true ∨ le b a = true).
Context (le_trans : ∀ a b c, le a b = true → le b c = true → le a c = true).
Context (le_antisym : ∀ a b, le a b = true → le b a = true → a = b).
Local Notation sort := (sort_entries le).
Local Notation below := (λ a b, le a b = true).

(** The sort keeps the order of the values of a parameter. *)
Lemma values_sort k l : values k (sort l) = values k l.
Proof using All.
  assert (∀ e l, values k (insert_entry le e l) = values k (e :: l)) as Hi.
  { intros e l0. induction l0 as [|x r IH]; [done|]. cbn [insert_entry]. destruct (le (fst e) (fst x)) eqn:E; [done|].
    change (x :: insert_entry le e r) with ([x] ++ insert_entry le e r)%list.
    change (e :: x :: r) with ([e] ++ [x] ++ r)%list. change (e :: r) with ([e] ++ r)%list in IH.
    rewrite !values_app, !values_single in *. rewrite IH.
    destruct (decide (fst x = k)) as [Hx|], (decide (fst e = k)) as [He|]; try done.
    exfalso. rewrite Hx, He in E. destruct (le_total k k); congruence. }
  unfold sort_entries. induction l as [|e l IH]; [done|]. cbn [foldr]. rewrite Hi.
  change (e :: ?l) with ([e] ++ l)%list. by rewrite !values_app, IH.
Qed.

Lemma sort_sorted l : StronglySorted below (sort l).*1.
Proof using All.
  unfold sort_entries. induction l as [|e l IH]; cbn [foldr]; [constructor|].
  assert (∀ l, StronglySorted below l.*1 → StronglySorted below (insert_entry le e l).*1 ∧
    ∀ y, y ∈ (insert_entry le e l).*1 → y = fst e ∨ y ∈ l.*1) as H; [|by apply H].
  clear l IH. induction l as [|x r IH]; intros Hl; cbn [insert_entry].
  - split; [by repeat constructor|]. intros y Hy. left. by apply list_elem_of_singleton in Hy.
  - apply StronglySorted_inv in Hl as [Hr Hx]. destruct (le (fst e) (fst x)) eqn:E.
    + split; [|by intros y [Hy|Hy]%elem_of_cons; [left|right]]. cbn. constructor; [by constructor|]. constructor; [done|].
      eapply Forall_impl; [exact Hx|]. eauto.
    + destruct (IH Hr) as [H1 H2]. split.
      2:{ intros y [->|[->|Hy]%H2]%elem_of_cons; [right; by apply elem_of_cons; left|by left|right; by apply elem_of_cons; right]. }
      cbn. constructor; [done|].
      apply Forall_forall. intros y [->|Hy]%H2; [by destruct (le_total (fst e) (fst x)); [congruence|]|].
      rewrite Forall_forall in Hx. by apply Hx.
Qed.

(** The keys of the result are sorted, each once. *)
Lemma add_entries_sorted l acc : StronglySorted below l.*1 → StronglySorted below acc.*1 → NoDup acc.*1 →
  (∀ x y, x ∈ acc.*1 → y ∈ l.*1 → le x y = true) →
  let r := fold_left add_entry l acc in StronglySorted below r.*1 ∧ NoDup r.*1.
Proof using All.
  cbv zeta. revert acc. induction l as [|e l IH]; intros acc Hl Ha Hn Hle; [done|]. cbn [fold_left].
  cbn in Hl. apply StronglySorted_inv in Hl as [Hl He]. rewrite Forall_forall in He. apply IH; [done|..].
  - rewrite add_entry_keys. case_decide as Hin; [done|]. clear Hn.
    assert (∀ x, x ∈ acc.*1 → le x (fst e) = true) as Hx by (intros x Hx; apply Hle; [done|cbn; set_solver]).
    clear Hle Hin. induction Ha as [|a acc' Ha IHa Hall]; cbn; [by repeat constructor|]. constructor; [apply IHa; set_solver|].
    apply Forall_app. split; [done|]. repeat constructor. apply Hx. set_solver.
  - rewrite add_entry_keys. case_decide as Hin; [done|]. apply NoDup_app. split_and!; [done|set_solver|apply NoDup_singleton].
  - intros x y Hx Hy. rewrite add_entry_keys in Hx. case_decide; [apply Hle; [done|cbn; set_solver]|].
    apply elem_of_app in Hx as [Hx|Hx]; [apply Hle; [done|cbn; set_solver]|]. apply list_elem_of_singleton in Hx as ->. by apply He.
Qed.

Lemma same_result r1 r2 : r1.*1 = r2.*1 → NoDup r1.*1 → (∀ k, value_of k r1 = value_of k r2) → r1 = r2.
Proof using All.
  revert r2. induction r1 as [|[k x] r1 IH]; intros [|[k' y] r2] Hk Hn Hv; [done..|]. cbn in Hk. injection Hk as <- Hk.
  cbn in Hn. apply NoDup_cons in Hn as [Hk1 Hn]. specialize (Hv k) as Hx. cbn in Hx. rewrite String.eqb_refl in Hx. injection Hx as <-.
  f_equal. apply IH; [done..|]. intros j. specialize (Hv j). cbn in Hv. destruct (String.eqb_spec k j) as [E0|]; [|done]. rewrite <- E0.
  assert (∀ r, r.*1 = r1.*1 → value_of k r = None) as Hno.
  { intros r Hr. destruct (value_of k r) eqn:E; [|done]. exfalso. apply Hk1. rewrite <- Hr, <- value_of_keys. by rewrite E. }
  by rewrite !Hno.
Qed.

Lemma serializeSearchParams_values k l : value_of k (serializeSearchParams le l) = collected k (values k l).
Proof using All. unfold serializeSearchParams. rewrite (add_entries_values k _ [] []); [|done]. cbn [app]. by rewrite values_sort. Qed.

Lemma serializeSearchParams_keys l : StronglySorted below (serializeSearchParams le l).*1 ∧ NoDup (serializeSearchParams le l).*1.
Proof using All.
  apply add_entries_sorted; [apply sort_sorted|constructor|constructor|set_solver].
Qed.

Lemma serializeSearchParams_canonical l1 l2 : (∀ k, values k l1 = values k l2) → serializeSearchParams le l1 = serializeSearchParams le l2.
Proof using All.
  intros Hv. destruct (serializeSearchParams_keys l1) as [Hs1 Hn1], (serializeSearchParams_keys l2) as [Hs2 Hn2].
  assert (∀ k, value_of k (serializeSearchParams le l1) = value_of k (serializeSearchParams le l2)) as H.
  { intros k. by rewrite !serializeSearchParams_values, Hv. }
  apply same_result; [|done..]. eapply StronglySorted_unique_strong; [|exact Hs1|exact Hs2|].
  - intros ? ? _ _. apply le_antisym.
  - apply NoDup_Permutation; [done..|]. intros k. by rewrite <- !value_of_keys, H.
Qed.
End canonical.

(** The key of a query does not depend on how its search parameters are ordered: two lists that give
    every parameter the same values in the same order have the same serialization, with its names sorted, each
    once, and under each the text of its value, or the array of its values in their order; except that the array
    of a parameter with the name of a member that every object inherits begins with that member. The comparison
    of the platform is a total order. *)
Theorem search_params_canonical (le : string → string → bool) l1 l2 :
  (∀ a b, le a b = true ∨ le b a = true) → (∀ a b c, le a b = true → le b c = true → le a c = true) →
  (∀ a b, le a b = true → le b a = true → a = b) →
  (∀ k, values k l1 = values k l2) →
  let r := serializeSearchParams le l1 in
  r = serializeSearchParams le l2 ∧ StronglySorted (λ a b, le a b = true) r.*1 ∧ NoDup r.*1 ∧
  ∀ k, value_of k r = collected k (values k l1).
Proof.
  intros Ht Htr Ha Hv. cbv zeta. split; [by apply serializeSearchParams_canonical|].
  destruct (serializeSearchParams_keys le Ht Htr Ha l1). split_and!; [done..|]. intros k. by apply serializeSearchParams_values.
Qed.

Lemma search_params_canonical_witness :
  serializeSearchParams String.leb [("b", "1"); ("a", "x"); ("b", "2"); ("toString", "y")] =
  serializeSearchParams String.leb [("toString", "y"); ("b", "1"); ("b", "2"); ("a", "x")] ∧
  value_of "b" (serializeSearchParams String.leb [("b", "1"); ("a", "x"); ("b", "2"); ("toString", "y")]) = Some (Many [Text "1"; Text "2"]) ∧
  value_of "toString" (serializeSearchParams String.leb [("b", "1"); ("a", "x"); ("b", "2"); ("toString", "y")]) = Some (Many [Builtin "toString"; Text "y"]).
Proof.
  destruct leb_total_order as (Ht & Htr & Ha).
  destruct (search_params_canonical String.leb [("b", "1"); ("a", "x"); ("b", "2"); ("toString", "y")]
    [("toString", "y"); ("b", "1"); ("b", "2"); ("a", "x")] Ht Htr Ha) as (H1 & _ & _ & H2).
  - intros k. unfold values. rewrite !filter_cons. cbn [fst]. by repeat case_decide; subst.
  - split; [exact H1|]. rewrite !H2. split; vm_compute; reflexivity.
Defined.

(** A value made of JSON is its own key: a text, a number, a truth value or [null], and any array or
    object of them, comes out of the serializer, through its text and the parser, as it went in. *)
Theorem query_key_roundtrip le j : serializeQueryKeyValue le (of_json j) = inl (Some (KJson j)).
Proof.
  destruct j as [|b|n|s|l|fs]; [done..| |].
  - change (serializeQueryKeyValue le (of_json (JArr l))) with (@inl (option key_value) string (KJson <$> stringifyToJsonValue (of_json (JArr l)))).
    by rewrite stringifyToJsonValue_spec, json_of_json.
  - change (serializeQueryKeyValue le (of_json (JObj fs))) with (@inl (option key_value) string (KJson <$> stringifyToJsonValue (of_json (JObj fs)))).
    by rewrite stringifyToJsonValue_spec, json_of_json.
Qed.

(** The same value has two keys, or an error for one, by where it stands: a number that is not finite is
    kept at the top and [null] inside an array; an invalid date throws at the top and is [null] inside. *)
Lemma query_key_positions le :
  serializeQueryKeyValue le VNotFinite = inl (Some KNotFinite) ∧
  serializeQueryKeyValue le (VArray [VNotFinite]) = inl (Some (KJson (JArr [JNull]))) ∧
  serializeQueryKeyValue le (VDate None) = inr "RangeError" ∧
  serializeQueryKeyValue le (VArray [VDate None]) = inl (Some (KJson (JArr [JNull]))).
Proof. by split_and!. Qed.
