(* ===== verification/Endpoints.v ===== *)
(** * Types of the operations

    The type declarations of [src/web/src/api/generated/types.gen.ts] as data: the named types, and for
    every operation the types of what it is given and of what it answers, by status. [conforms] tells whether a
    JSON value has a type. *)

From S2P Require Import Prelude JsString Json PathSerializer Client Url Sdk Routes Types Api ApiCorrect.
Local Open Scope string_scope.

(** ** Types *)

Inductive ty :=
  | TString | TNumber | TBool | TUnknown | TVoid
  (** [Blob | File] *)
  | TFile
  (** a union of texts *)
  | TLiteral (l : list string)
  | TRef (name : string)
  | TArray (t : ty)
  (** members with whether they are required *)
  | TObject (fields : list (string * bool * ty))
  (** [{ [key: string]: unknown }] *)
  | TDict
  | TUnion (a b : ty).

Definition req (name : string) (t : ty) : string * bool * ty := (name, true, t).
Definition opt (name : string) (t : ty) : string * bool * ty := (name, false, t).

(** What an operation is given; [None] is [never]. *)
Record data_type := mkData {
  d_body : option ty; d_path : option (list (string * bool * ty)); d_query : option (list (string * bool * ty)); d_url : string
}.

Definition errors (codes : list Z) : list (Z * ty) := (λ c, (c, TRef "ApiErrorResponse")) <$> codes.

(** ** The named types *)

Definition ApiChangePasswordRequest : ty := TObject [req "current_password" TString; req "new_password" TString].
Definition ApiCreateApiKeyRequest : ty := TObject [req "name" TString].
Definition ApiCreateApiKeyResponse : ty := TObject [req "api_key" (TRef "TypesApiKey"); req "token" TString].
Definition ApiCreateMediaRequest : ty := TObject [req "name" TString; req "size_gib" TNumber].
Definition ApiCurrentUser : ty := TObject [req "role" TString; req "username" TString].
Definition ApiErrorResponse : ty := TObject [req "error" TString].
Definition ApiLoginRequest : ty := TObject [req "password" TString; req "username" TString].
Definition ApiLoginResponse : ty := TObject [req "token" TString].
Definition ApiPageEngineDiskView : ty := TObject [req "items" (TArray (TRef "EngineDiskView")); req "page" TNumber;
    req "page_size" TNumber; req "total" TNumber; req "total_pages" TNumber].
Definition ApiStatusResponse : ty := TObject [req "status" TString].
Definition ApiGuestAgentResponse : ty := TObject [req "available" TBool;
    opt "filesystems" (TArray (TRef "VmGuestFilesystem")); opt "hostname" TString;
    opt "interfaces" (TArray (TRef "VmGuestInterface")); opt "os" (TRef "VmGuestOsInfo"); opt "version" TString].
Definition ApiRestoreRequest : ty := TObject [opt "as_new" TBool].
Definition EngineBackupInfo : ty := TObject [req "consistent" TBool; req "created_at" TString;
    req "disks" (TArray TString); req "live" TBool; req "size_bytes" TNumber; req "timestamp" TString;
    req "vm_name" TString].
Definition EngineCatalogImage : ty := TObject [req "arch" TString; req "description" TString;
    req "display_name" TString; req "distro" TString; req "downloaded" TBool; req "id" TString;
    req "size_bytes" TNumber; req "version" TString].
Definition EngineCreateNetworkParams : ty := TObject [opt "address" TString; opt "device" TString;
    opt "members" (TArray TString); opt "mode" TString; opt "name" TString; opt "parent" TString; opt "tag" TNumber;
    opt "uplink" TString; opt "vlans" (TArray (TRef "TypesVlan"))].
Definition EngineCreateVmParams : ty := TObject [opt "addresses" (TArray TString); opt "autostart" TBool;
    opt "boot_order" (TArray TString); opt "cpus" TNumber; opt "disk_size_gib" TNumber; opt "image" TString;
    opt "isos" (TArray TString); opt "memory_mib" TNumber; opt "name" TString; opt "network" TString;
    opt "password" TString; opt "ssh_key" TString; opt "username" TString].
Definition EngineDiskParams : ty := TObject [opt "id" TString; opt "image_id" TString; opt "name" TString;
    opt "size_gib" TNumber].
Definition EngineDiskView : ty := TObject [req "boot_first" TBool; req "capacity_gib" TNumber; req "disk_id" TString;
    req "kind" TString; req "name" TString; req "orphaned" TBool; req "path" TString; req "size_bytes" TNumber;
    req "vm_id" TString; req "vm_name" TString].
Definition EngineHostInfo : ty := TObject [req "cpus" TNumber; req "memory_bytes" TNumber].
Definition EngineInterfaceParams : ty := TObject [opt "id" TString; opt "mac" TString; opt "network" TString].
Definition EngineMedia : ty := TObject [req "id" TString; req "in_use" TBool; req "kind" TString; req "name" TString;
    req "size_gib" TNumber].
Definition EngineMediaSettings : ty := TObject [opt "boot_order" (TArray TString); opt "isos" (TArray TString)].
Definition EngineScheduleParams : ty := TObject [opt "enabled" TBool; opt "interval_hours" TNumber;
    opt "keep_last" TNumber; opt "max_age_days" TNumber].
Definition EngineSnapshotParams : ty := TObject [opt "include_ram" TBool; opt "tag" TString].
Definition EngineStorageStats : ty := TObject [req "disk_count" TNumber; req "disks_bytes" TNumber;
    req "free_bytes" TNumber; req "path" TString; req "total_bytes" TNumber; req "used_bytes" TNumber].
Definition EngineUsbAttachment : ty := TObject [opt "assignment_key" TString; req "device" (TRef "UsbDevice");
    req "id" TString; opt "reason" TString; req "state" TString; req "vm_id" TString; req "vm_name" TString].
Definition EngineUsbInventory : ty := TObject [req "devices" (TArray (TRef "UsbDevice")); opt "reason" TString;
    req "supported" TBool].
Definition EngineUsbParams : ty := TObject [opt "assignment_key" TString; opt "attachment_id" TString;
    req "device_id" TString; req "fingerprint" TString].
Definition EngineUpdateHardwareParams : ty := TObject [opt "autostart" TBool; opt "cpus" TNumber;
    opt "disk_size_gib" TNumber; opt "memory_mib" TNumber].
Definition EngineVmView : ty := TObject [req "boot_time" TNumber; req "manifest" (TRef "TypesVmManifest");
    req "phase" TString; req "pid" TNumber].
Definition HostnetPort : ty := TObject [req "addresses" (TArray TString); req "device" TString;
    req "hardware_port" TString; req "up" TBool].
Definition JobsJob : ty := TObject [req "action" TString; req "created_at" TString; opt "error" TString;
    opt "finished_at" TString; req "id" TString; req "label" TString; req "logs" (TArray TString);
    opt "result" TString; opt "started_at" TString; req "state" (TRef "JobsState"); req "target" TString].
Definition JobsPage : ty := TObject [req "items" (TArray (TRef "JobsJob")); req "page" TNumber;
    req "page_size" TNumber; req "total" TNumber; req "total_pages" TNumber].
Definition JobsState : ty := TLiteral ["pending"; "running"; "succeeded"; "failed"].
Definition TypesApiKey : ty := TObject [req "created_at" TNumber; req "id" TString; req "last_used_at" TNumber;
    req "name" TString; req "prefix" TString; req "revoked_at" TNumber; req "user_id" TString].
Definition TypesBackupSchedule : ty := TObject [req "enabled" TBool; req "interval_hours" TNumber;
    req "keep_last" TNumber; req "last_run_at" TNumber; req "max_age_days" TNumber; req "vm_id" TString].
Definition TypesNetworkManifest : ty := TObject [opt "address" TString; opt "applied_address" TString;
    opt "applied_members" (TArray TString); opt "applied_vlans" (TArray (TRef "TypesVlan")); opt "device" TString;
    opt "group" TString; req "id" TString; opt "members" (TArray TString); req "mode" (TRef "TypesNetworkMode");
    req "name" TString; opt "owned" TBool; opt "parent" TString; opt "tag" TNumber; opt "uplink" TString;
    opt "vlans" (TArray (TRef "TypesVlan"))].
Definition TypesNetworkMode : ty := TLiteral ["user"; "vmnet-bridged"; "bridge"; "switch"; "bridged"; "vlan";
    "bridge"; "switch"; "bridged"; "vmnet-bridged"; "user"; "vlan"].
Definition TypesVlan : ty := TObject [opt "borrowed" TBool; opt "device" TString; req "parent" TString;
    req "tag" TNumber].
Definition TypesVmDisk : ty := TObject [req "id" TString; req "name" TString; req "size_gib" TNumber].
Definition TypesVmInterface : ty := TObject [opt "addresses" (TArray TString); req "id" TString; opt "mac" TString;
    req "network" TString].
Definition TypesVmManifest : ty := TObject [opt "addresses" (TArray TString); opt "autostart" TBool;
    opt "boot_order" (TArray TString); req "cpus" TNumber; req "disk_size_gib" TNumber;
    opt "disks" (TArray (TRef "TypesVmDisk")); req "id" TString; req "image" TString;
    opt "interfaces" (TArray (TRef "TypesVmInterface")); opt "isos" (TArray TString); req "memory_mib" TNumber;
    req "name" TString; opt "network" TString; opt "ssh_key" TString;
    opt "usb" (TArray (TRef "TypesVmusbAssignment")); req "username" TString].
Definition TypesVmusbAssignment : ty := TObject [opt "product" TString; req "product_id" TNumber;
    opt "serial" TString; req "vendor_id" TNumber].
Definition UsbDevice : ty := TObject [req "address" TNumber; req "bus" TNumber; req "classes" (TArray TString);
    req "fingerprint" TString; req "id" TString; req "manufacturer" TString; req "port" TString;
    req "product" TString; req "product_id" TNumber; opt "reason" TString; req "serial" TString;
    req "session" TString; req "state" TString; req "vendor_id" TNumber; opt "vm_id" TString; opt "vm_name" TString].
Definition VmGuestFilesystem : ty := TObject [req "mountpoint" TString; req "name" TString; req "total_bytes" TNumber;
    req "type" TString; req "used_bytes" TNumber].
Definition VmGuestIpAddress : ty := TObject [req "address" TString; req "prefix" TNumber; req "type" TString].
Definition VmGuestInterface : ty := TObject [opt "hardware_address" TString;
    opt "ip_addresses" (TArray (TRef "VmGuestIpAddress")); req "name" TString].
Definition VmGuestOsInfo : ty := TObject [opt "id" TString; opt "kernel_release" TString;
    opt "kernel_version" TString; opt "machine" TString; opt "name" TString; opt "pretty_name" TString;
    opt "version" TString; opt "version_id" TString].
Definition VmSnapshot : ty := TObject [req "created_at" TString; req "has_ram" TBool; req "size_bytes" TNumber;
    req "tag" TString].

Definition schemas : list (string * ty) :=
  [("ApiChangePasswordRequest", ApiChangePasswordRequest); ("ApiCreateApiKeyRequest", ApiCreateApiKeyRequest);
    ("ApiCreateApiKeyResponse", ApiCreateApiKeyResponse);
   ("ApiCreateMediaRequest", ApiCreateMediaRequest); ("ApiCurrentUser", ApiCurrentUser);
    ("ApiErrorResponse", ApiErrorResponse);
   ("ApiLoginRequest", ApiLoginRequest); ("ApiLoginResponse", ApiLoginResponse);
    ("ApiPageEngineDiskView", ApiPageEngineDiskView);
   ("ApiStatusResponse", ApiStatusResponse); ("ApiGuestAgentResponse", ApiGuestAgentResponse);
    ("ApiRestoreRequest", ApiRestoreRequest);
   ("EngineBackupInfo", EngineBackupInfo); ("EngineCatalogImage", EngineCatalogImage);
    ("EngineCreateNetworkParams", EngineCreateNetworkParams);
   ("EngineCreateVmParams", EngineCreateVmParams); ("EngineDiskParams", EngineDiskParams);
    ("EngineDiskView", EngineDiskView);
   ("EngineHostInfo", EngineHostInfo); ("EngineInterfaceParams", EngineInterfaceParams); ("EngineMedia", EngineMedia);
   ("EngineMediaSettings", EngineMediaSettings); ("EngineScheduleParams", EngineScheduleParams);
    ("EngineSnapshotParams", EngineSnapshotParams);
   ("EngineStorageStats", EngineStorageStats); ("EngineUsbAttachment", EngineUsbAttachment);
    ("EngineUsbInventory", EngineUsbInventory);
   ("EngineUsbParams", EngineUsbParams); ("EngineUpdateHardwareParams", EngineUpdateHardwareParams);
    ("EngineVmView", EngineVmView);
   ("HostnetPort", HostnetPort); ("JobsJob", JobsJob); ("JobsPage", JobsPage);
   ("JobsState", JobsState); ("TypesApiKey", TypesApiKey); ("TypesBackupSchedule", TypesBackupSchedule);
   ("TypesNetworkManifest", TypesNetworkManifest); ("TypesNetworkMode", TypesNetworkMode); ("TypesVlan", TypesVlan);
   ("TypesVmDisk", TypesVmDisk); ("TypesVmInterface", TypesVmInterface); ("TypesVmManifest", TypesVmManifest);
   ("TypesVmusbAssignment", TypesVmusbAssignment); ("UsbDevice", UsbDevice); ("VmGuestFilesystem", VmGuestFilesystem);
   ("VmGuestIpAddress", VmGuestIpAddress); ("VmGuestInterface", VmGuestInterface); ("VmGuestOsInfo", VmGuestOsInfo);
   ("VmSnapshot", VmSnapshot)].

(** ** The operations *)

Definition ListCatalogData : data_type := mkData None None None "/api/catalog".
Definition ListCatalogErrors : list (Z * ty) := errors [401]%Z.
Definition ListCatalogResponses : list (Z * ty) := [(200%Z, (TArray (TRef "EngineCatalogImage")))].
Definition DeleteCatalogImageData : data_type := mkData None (Some [req "id" TString]) None "/api/catalog/{id}".
Definition DeleteCatalogImageErrors : list (Z * ty) := errors [400; 401]%Z.
Definition DeleteCatalogImageResponses : list (Z * ty) := [(204%Z, TVoid)].
Definition DownloadCatalogImageData : data_type :=
    mkData None (Some [req "id" TString]) None "/api/catalog/{id}/download".
Definition DownloadCatalogImageErrors : list (Z * ty) := errors [401; 503]%Z.
Definition DownloadCatalogImageResponses : list (Z * ty) := [(202%Z, (TRef "JobsJob"))].
Definition ListDisksData : data_type := mkData None None (Some [opt "page" TNumber;
    opt "page_size" TNumber]) "/api/disks".
Definition ListDisksErrors : list (Z * ty) := errors [400; 401; 500]%Z.
Definition ListDisksResponses : list (Z * ty) := [(200%Z, (TRef "ApiPageEngineDiskView"))].
Definition DiskStorageData : data_type := mkData None None None "/api/disks/stats".
Definition DiskStorageErrors : list (Z * ty) := errors [401; 500]%Z.
Definition DiskStorageResponses : list (Z * ty) := [(200%Z, (TRef "EngineStorageStats"))].
Definition StreamEventsData : data_type := mkData None None None "/api/events".
Definition HostInfoData : data_type := mkData None None None "/api/host".
Definition HostInfoErrors : list (Z * ty) := errors [401]%Z.
Definition HostInfoResponses : list (Z * ty) := [(200%Z, (TRef "EngineHostInfo"))].
Definition HostConsoleData : data_type := mkData None None None "/api/host/console".
Definition ListImagesData : data_type := mkData None None None "/api/images".
Definition ListImagesErrors : list (Z * ty) := errors [401; 500]%Z.
Definition ListImagesResponses : list (Z * ty) := [(200%Z, (TArray TString))].
Definition ListInterfacesData : data_type := mkData None None None "/api/interfaces".
Definition ListInterfacesErrors : list (Z * ty) := errors [401; 500]%Z.
Definition ListInterfacesResponses : list (Z * ty) := [(200%Z, (TArray (TRef "HostnetPort")))].
Definition ListJobsData : data_type := mkData None None (Some [opt "page" TNumber; opt "page_size" TNumber;
    opt "state" TString; opt "search" TString; opt "focus" TString]) "/api/jobs".
Definition ListJobsErrors : list (Z * ty) := errors [400; 401; 503]%Z.
Definition ListJobsResponses : list (Z * ty) := [(200%Z, (TRef "JobsPage"))].
Definition StreamJobsData : data_type := mkData None None None "/api/jobs/stream".
Definition GetJobData : data_type := mkData None (Some [req "id" TString]) None "/api/jobs/{id}".
Definition GetJobErrors : list (Z * ty) := errors [401; 404]%Z.
Definition GetJobResponses : list (Z * ty) := [(200%Z, (TRef "JobsJob"))].
Definition HandleLoginData : data_type :=
    mkData (Some (TUnion TDict (TRef "ApiLoginRequest"))) None None "/api/login".
Definition HandleLoginErrors : list (Z * ty) := errors [400; 401; 500]%Z.
Definition HandleLoginResponses : list (Z * ty) := [(200%Z, (TRef "ApiLoginResponse"))].
Definition CurrentUserData : data_type := mkData None None None "/api/me".
Definition CurrentUserErrors : list (Z * ty) := errors [401]%Z.
Definition CurrentUserResponses : list (Z * ty) := [(200%Z, (TRef "ApiCurrentUser"))].
Definition ListApiKeysData : data_type := mkData None None None "/api/me/api-keys".
Definition ListApiKeysErrors : list (Z * ty) := errors [401; 500]%Z.
Definition ListApiKeysResponses : list (Z * ty) := [(200%Z, (TArray (TRef "TypesApiKey")))].
Definition CreateApiKeyData : data_type :=
    mkData (Some (TUnion TDict (TRef "ApiCreateApiKeyRequest"))) None None "/api/me/api-keys".
Definition CreateApiKeyErrors : list (Z * ty) := errors [400; 401; 500]%Z.
Definition CreateApiKeyResponses : list (Z * ty) := [(201%Z, (TRef "ApiCreateApiKeyResponse"))].
Definition RevokeApiKeyData : data_type := mkData None (Some [req "id" TString]) None "/api/me/api-keys/{id}".
Definition RevokeApiKeyErrors : list (Z * ty) := errors [401; 404; 500]%Z.
Definition RevokeApiKeyResponses : list (Z * ty) := [(200%Z, (TRef "ApiStatusResponse"))].
Definition ChangePasswordData : data_type :=
    mkData (Some (TUnion TDict (TRef "ApiChangePasswordRequest"))) None None "/api/me/password".
Definition ChangePasswordErrors : list (Z * ty) := errors [400; 401; 500]%Z.
Definition ChangePasswordResponses : list (Z * ty) := [(200%Z, (TRef "ApiLoginResponse"))].
Definition ListMediaData : data_type := mkData None None None "/api/media".
Definition ListMediaErrors : list (Z * ty) := errors [401; 500]%Z.
Definition ListMediaResponses : list (Z * ty) := [(200%Z, (TArray (TRef "EngineMedia")))].
Definition CreateMediaData : data_type :=
    mkData (Some (TUnion TDict (TRef "ApiCreateMediaRequest"))) None None "/api/media".
Definition CreateMediaErrors : list (Z * ty) := errors [400; 401]%Z.
Definition CreateMediaResponses : list (Z * ty) := [(201%Z, (TRef "EngineMedia"))].
Definition UploadImageData : data_type := mkData (Some (TObject [req "file" TFile])) None None "/api/media/image".
Definition UploadImageErrors : list (Z * ty) := errors [400; 401; 413; 500; 507]%Z.
Definition UploadImageResponses : list (Z * ty) := [(201%Z, (TRef "EngineMedia"))].
Definition UploadIsoData : data_type := mkData (Some (TObject [req "file" TFile])) None None "/api/media/iso".
Definition UploadIsoErrors : list (Z * ty) := errors [400; 401; 413; 500; 507]%Z.
Definition UploadIsoResponses : list (Z * ty) := [(201%Z, (TRef "EngineMedia"))].
Definition DeleteMediaData : data_type := mkData None (Some [req "id" TString]) None "/api/media/{id}".
Definition DeleteMediaErrors : list (Z * ty) := errors [400; 401]%Z.
Definition DeleteMediaResponses : list (Z * ty) := [(204%Z, TVoid)].
Definition ListNetworksData : data_type := mkData None None None "/api/networks".
Definition ListNetworksErrors : list (Z * ty) := errors [401; 500]%Z.
Definition ListNetworksResponses : list (Z * ty) := [(200%Z, (TArray (TRef "TypesNetworkManifest")))].
Definition CreateNetworkData : data_type :=
    mkData (Some (TUnion TDict (TRef "EngineCreateNetworkParams"))) None None "/api/networks".
Definition CreateNetworkErrors : list (Z * ty) := errors [400; 401; 503]%Z.
Definition CreateNetworkResponses : list (Z * ty) := [(202%Z, (TRef "JobsJob"))].
Definition DestroyNetworkData : data_type := mkData None (Some [req "id" TString]) None "/api/networks/{id}".
Definition DestroyNetworkErrors : list (Z * ty) := errors [401; 503]%Z.
Definition DestroyNetworkResponses : list (Z * ty) := [(202%Z, (TRef "JobsJob"))].
Definition UpdateNetworkData : data_type :=
    mkData (Some (TUnion TDict (TRef "EngineCreateNetworkParams"))) (Some [req "id" TString]) None "/api/networks/{id}".
Definition UpdateNetworkErrors : list (Z * ty) := errors [400; 401; 503]%Z.
Definition UpdateNetworkResponses : list (Z * ty) := [(202%Z, (TRef "JobsJob"))].
Definition ApplyNetworkData : data_type := mkData None (Some [req "id" TString]) None "/api/networks/{id}/apply".
Definition ApplyNetworkErrors : list (Z * ty) := errors [401; 503]%Z.
Definition ApplyNetworkResponses : list (Z * ty) := [(202%Z, (TRef "JobsJob"))].
Definition ListUsbDevicesData : data_type := mkData None None None "/api/usb/devices".
Definition ListUsbDevicesErrors : list (Z * ty) := errors [401; 503]%Z.
Definition ListUsbDevicesResponses : list (Z * ty) := [(200%Z, (TRef "EngineUsbInventory"))].
Definition ListVmsData : data_type := mkData None None None "/api/vms".
Definition ListVmsErrors : list (Z * ty) := errors [401; 500]%Z.
Definition ListVmsResponses : list (Z * ty) := [(200%Z, (TArray (TRef "EngineVmView")))].
Definition CreateVmData : data_type :=
    mkData (Some (TUnion TDict (TRef "EngineCreateVmParams"))) None None "/api/vms".
Definition CreateVmErrors : list (Z * ty) := errors [400; 401; 503]%Z.
Definition CreateVmResponses : list (Z * ty) := [(202%Z, (TRef "JobsJob"))].
Definition DeleteVmData : data_type := mkData None (Some [req "id" TString]) None "/api/vms/{id}".
Definition DeleteVmErrors : list (Z * ty) := errors [401; 503]%Z.
Definition DeleteVmResponses : list (Z * ty) := [(202%Z, (TRef "JobsJob"))].
Definition GetVmData : data_type := mkData None (Some [req "id" TString]) None "/api/vms/{id}".
Definition GetVmErrors : list (Z * ty) := errors [401; 404; 500]%Z.
Definition GetVmResponses : list (Z * ty) := [(200%Z, (TRef "EngineVmView"))].
Definition ListBackupsData : data_type := mkData None (Some [req "id" TString]) None "/api/vms/{id}/backups".
Definition ListBackupsErrors : list (Z * ty) := errors [401; 404]%Z.
Definition ListBackupsResponses : list (Z * ty) := [(200%Z, (TArray (TRef "EngineBackupInfo")))].
Definition CreateBackupData : data_type := mkData None (Some [req "id" TString]) None "/api/vms/{id}/backups".
Definition CreateBackupErrors : list (Z * ty) := errors [401; 503]%Z.
Definition CreateBackupResponses : list (Z * ty) := [(202%Z, (TRef "JobsJob"))].
Definition GetBackupScheduleData : data_type :=
    mkData None (Some [req "id" TString]) None "/api/vms/{id}/backups/schedule".
Definition GetBackupScheduleErrors : list (Z * ty) := errors [401; 404]%Z.
Definition GetBackupScheduleResponses : list (Z * ty) := [(200%Z, (TRef "TypesBackupSchedule"))].
Definition SetBackupScheduleData : data_type :=
    mkData (Some (TUnion TDict (TRef "EngineScheduleParams"))) (Some [req "id" TString]) None "/api/vms/{id}/backups/schedule".
Definition SetBackupScheduleErrors : list (Z * ty) := errors [400; 401; 404]%Z.
Definition SetBackupScheduleResponses : list (Z * ty) := [(200%Z, (TRef "TypesBackupSchedule"))].
Definition DeleteBackupData : data_type := mkData None (Some [req "id" TString;
    req "timestamp" TString]) None "/api/vms/{id}/backups/{timestamp}".
Definition DeleteBackupErrors : list (Z * ty) := errors [401; 503]%Z.
Definition DeleteBackupResponses : list (Z * ty) := [(202%Z, (TRef "JobsJob"))].
Definition RestoreBackupData : data_type :=
    mkData (Some (TUnion TDict (TRef "ApiRestoreRequest"))) (Some [req "id" TString;
    req "timestamp" TString]) None "/api/vms/{id}/backups/{timestamp}/restore".
Definition RestoreBackupErrors : list (Z * ty) := errors [400; 401; 503]%Z.
Definition RestoreBackupResponses : list (Z * ty) := [(202%Z, (TRef "JobsJob"))].
Definition ConsoleVmData : data_type := mkData None (Some [req "id" TString]) None "/api/vms/{id}/console".
Definition AddDiskData : data_type :=
    mkData (Some (TUnion TDict (TRef "EngineDiskParams"))) (Some [req "id" TString]) None "/api/vms/{id}/disks".
Definition AddDiskErrors : list (Z * ty) := errors [400; 401; 503]%Z.
Definition AddDiskResponses : list (Z * ty) := [(202%Z, (TRef "JobsJob"))].
Definition RemoveDiskData : data_type := mkData None (Some [req "id" TString;
    req "disk" TString]) None "/api/vms/{id}/disks/{disk}".
Definition RemoveDiskErrors : list (Z * ty) := errors [401; 503]%Z.
Definition RemoveDiskResponses : list (Z * ty) := [(202%Z, (TRef "JobsJob"))].
Definition GrowDiskData : data_type := mkData (Some (TUnion TDict (TRef "EngineDiskParams"))) (Some [req "id" TString;
    req "disk" TString]) None "/api/vms/{id}/disks/{disk}".
Definition GrowDiskErrors : list (Z * ty) := errors [400; 401; 503]%Z.
Definition GrowDiskResponses : list (Z * ty) := [(202%Z, (TRef "JobsJob"))].
Definition DisplayVmData : data_type := mkData None (Some [req "id" TString]) None "/api/vms/{id}/display".
Definition VmGuestAgentData : data_type := mkData None (Some [req "id" TString]) None "/api/vms/{id}/guest-agent".
Definition VmGuestAgentErrors : list (Z * ty) := errors [401; 404; 500]%Z.
Definition VmGuestAgentResponses : list (Z * ty) := [(200%Z, (TRef "ApiGuestAgentResponse"))].
Definition UpdateHardwareData : data_type :=
    mkData (Some (TUnion TDict (TRef "EngineUpdateHardwareParams"))) (Some [req "id" TString]) None "/api/vms/{id}/hardware".
Definition UpdateHardwareErrors : list (Z * ty) := errors [400; 401; 503]%Z.
Definition UpdateHardwareResponses : list (Z * ty) := [(202%Z, (TRef "JobsJob"))].
Definition AddVmInterfaceData : data_type :=
    mkData (Some (TUnion TDict (TRef "EngineInterfaceParams"))) (Some [req "id" TString]) None "/api/vms/{id}/interfaces".
Definition AddVmInterfaceErrors : list (Z * ty) := errors [400; 401; 503]%Z.
Definition AddVmInterfaceResponses : list (Z * ty) := [(202%Z, (TRef "JobsJob"))].
Definition RemoveVmInterfaceData : data_type := mkData None (Some [req "id" TString;
    req "interface" TString]) None "/api/vms/{id}/interfaces/{interface}".
Definition RemoveVmInterfaceErrors : list (Z * ty) := errors [401; 503]%Z.
Definition RemoveVmInterfaceResponses : list (Z * ty) := [(202%Z, (TRef "JobsJob"))].
Definition UpdateVmInterfaceData : data_type :=
    mkData (Some (TUnion TDict (TRef "EngineInterfaceParams"))) (Some [req "id" TString;
    req "interface" TString]) None "/api/vms/{id}/interfaces/{interface}".
Definition UpdateVmInterfaceErrors : list (Z * ty) := errors [400; 401; 503]%Z.
Definition UpdateVmInterfaceResponses : list (Z * ty) := [(202%Z, (TRef "JobsJob"))].
Definition UpdateMediaData : data_type :=
    mkData (Some (TUnion TDict (TRef "EngineMediaSettings"))) (Some [req "id" TString]) None "/api/vms/{id}/media".
Definition UpdateMediaErrors : list (Z * ty) := errors [400; 401]%Z.
Definition UpdateMediaResponses : list (Z * ty) := [(200%Z, (TRef "EngineMediaSettings"))].
Definition PreviewVmData : data_type := mkData None (Some [req "id" TString]) None "/api/vms/{id}/preview".
Definition PreviewVmErrors : list (Z * ty) := errors [401; 404; 500]%Z.
Definition PreviewVmResponses : list (Z * ty) := [(200%Z, TUnknown)].
Definition ShutdownVmData : data_type := mkData None (Some [req "id" TString]) None "/api/vms/{id}/shutdown".
Definition ShutdownVmErrors : list (Z * ty) := errors [401; 503]%Z.
Definition ShutdownVmResponses : list (Z * ty) := [(202%Z, (TRef "JobsJob"))].
Definition ListSnapshotsData : data_type := mkData None (Some [req "id" TString]) None "/api/vms/{id}/snapshots".
Definition ListSnapshotsErrors : list (Z * ty) := errors [401; 404]%Z.
Definition ListSnapshotsResponses : list (Z * ty) := [(200%Z, (TArray (TRef "VmSnapshot")))].
Definition CreateSnapshotData : data_type :=
    mkData (Some (TUnion TDict (TRef "EngineSnapshotParams"))) (Some [req "id" TString]) None "/api/vms/{id}/snapshots".
Definition CreateSnapshotErrors : list (Z * ty) := errors [400; 401; 503]%Z.
Definition CreateSnapshotResponses : list (Z * ty) := [(202%Z, (TRef "JobsJob"))].
Definition DeleteSnapshotData : data_type := mkData None (Some [req "id" TString;
    req "tag" TString]) None "/api/vms/{id}/snapshots/{tag}".
Definition DeleteSnapshotErrors : list (Z * ty) := errors [401; 503]%Z.
Definition DeleteSnapshotResponses : list (Z * ty) := [(202%Z, (TRef "JobsJob"))].
Definition RestoreSnapshotData : data_type := mkData None (Some [req "id" TString;
    req "tag" TString]) None "/api/vms/{id}/snapshots/{tag}/restore".
Definition RestoreSnapshotErrors : list (Z * ty) := errors [401; 503]%Z.
Definition RestoreSnapshotResponses : list (Z * ty) := [(202%Z, (TRef "JobsJob"))].
Definition StartVmData : data_type := mkData None (Some [req "id" TString]) None "/api/vms/{id}/start".
Definition StartVmErrors : list (Z * ty) := errors [401; 503]%Z.
Definition StartVmResponses : list (Z * ty) := [(202%Z, (TRef "JobsJob"))].
Definition StopVmData : data_type := mkData None (Some [req "id" TString]) None "/api/vms/{id}/stop".
Definition StopVmErrors : list (Z * ty) := errors [401; 503]%Z.
Definition StopVmResponses : list (Z * ty) := [(202%Z, (TRef "JobsJob"))].
Definition ListVmusbData : data_type := mkData None (Some [req "id" TString]) None "/api/vms/{id}/usb".
Definition ListVmusbErrors : list (Z * ty) := errors [400; 401]%Z.
Definition ListVmusbResponses : list (Z * ty) := [(200%Z, (TArray (TRef "EngineUsbAttachment")))].
Definition AttachUsbData : data_type :=
    mkData (Some (TUnion TDict (TRef "EngineUsbParams"))) (Some [req "id" TString]) None "/api/vms/{id}/usb".
Definition AttachUsbErrors : list (Z * ty) := errors [400; 401; 404; 409; 503]%Z.
Definition AttachUsbResponses : list (Z * ty) := [(202%Z, (TRef "JobsJob"))].
Definition AssignUsbData : data_type :=
    mkData (Some (TUnion TDict (TRef "EngineUsbParams"))) (Some [req "id" TString]) None "/api/vms/{id}/usb/assignments".
Definition AssignUsbErrors : list (Z * ty) := errors [400; 401; 404; 503]%Z.
Definition AssignUsbResponses : list (Z * ty) := [(202%Z, (TRef "JobsJob"))].
Definition UnassignUsbData : data_type := mkData None (Some [req "id" TString;
    req "key" TString]) None "/api/vms/{id}/usb/assignments/{key}".
Definition UnassignUsbErrors : list (Z * ty) := errors [400; 401; 404; 503]%Z.
Definition UnassignUsbResponses : list (Z * ty) := [(202%Z, (TRef "JobsJob"))].
Definition DetachUsbData : data_type := mkData None (Some [req "id" TString;
    req "attachment" TString]) None "/api/vms/{id}/usb/{attachment}".
Definition DetachUsbErrors : list (Z * ty) := errors [400; 401; 404; 503]%Z.
Definition DetachUsbResponses : list (Z * ty) := [(202%Z, (TRef "JobsJob"))].

Record endpoint := mkEndpoint { e_op : operation; e_data : data_type; e_errors : list (Z * ty);
    e_responses : list (Z * ty) }.

Definition endpoints : list endpoint :=
  [mkEndpoint Sdk.listCatalog ListCatalogData ListCatalogErrors ListCatalogResponses;
   mkEndpoint Sdk.deleteCatalogImage DeleteCatalogImageData DeleteCatalogImageErrors DeleteCatalogImageResponses;
   mkEndpoint Sdk.downloadCatalogImage DownloadCatalogImageData DownloadCatalogImageErrors DownloadCatalogImageResponses;
   mkEndpoint Sdk.listDisks ListDisksData ListDisksErrors ListDisksResponses;
   mkEndpoint Sdk.diskStorage DiskStorageData DiskStorageErrors DiskStorageResponses;
   mkEndpoint Sdk.streamEvents StreamEventsData [] [];
   mkEndpoint Sdk.hostInfo HostInfoData HostInfoErrors HostInfoResponses;
   mkEndpoint Sdk.hostConsole HostConsoleData [] [];
   mkEndpoint Sdk.listImages ListImagesData ListImagesErrors ListImagesResponses;
   mkEndpoint Sdk.listInterfaces ListInterfacesData ListInterfacesErrors ListInterfacesResponses;
   mkEndpoint Sdk.listJobs ListJobsData ListJobsErrors ListJobsResponses;
   mkEndpoint Sdk.streamJobs StreamJobsData [] [];
   mkEndpoint Sdk.getJob GetJobData GetJobErrors GetJobResponses;
   mkEndpoint Sdk.handleLogin HandleLoginData HandleLoginErrors HandleLoginResponses;
   mkEndpoint Sdk.currentUser CurrentUserData CurrentUserErrors CurrentUserResponses;
   mkEndpoint Sdk.listApiKeys ListApiKeysData ListApiKeysErrors ListApiKeysResponses;
   mkEndpoint Sdk.createApiKey CreateApiKeyData CreateApiKeyErrors CreateApiKeyResponses;
   mkEndpoint Sdk.revokeApiKey RevokeApiKeyData RevokeApiKeyErrors RevokeApiKeyResponses;
   mkEndpoint Sdk.changePassword ChangePasswordData ChangePasswordErrors ChangePasswordResponses;
   mkEndpoint Sdk.listMedia ListMediaData ListMediaErrors ListMediaResponses;
   mkEndpoint Sdk.createMedia CreateMediaData CreateMediaErrors CreateMediaResponses;
   mkEndpoint Sdk.uploadImage UploadImageData UploadImageErrors UploadImageResponses;
   mkEndpoint Sdk.uploadIso UploadIsoData UploadIsoErrors UploadIsoResponses;
   mkEndpoint Sdk.deleteMedia DeleteMediaData DeleteMediaErrors DeleteMediaResponses;
   mkEndpoint Sdk.listNetworks ListNetworksData ListNetworksErrors ListNetworksResponses;
   mkEndpoint Sdk.createNetwork CreateNetworkData CreateNetworkErrors CreateNetworkResponses;
   mkEndpoint Sdk.destroyNetwork DestroyNetworkData DestroyNetworkErrors DestroyNetworkResponses;
   mkEndpoint Sdk.updateNetwork UpdateNetworkData UpdateNetworkErrors UpdateNetworkResponses;
   mkEndpoint Sdk.applyNetwork ApplyNetworkData ApplyNetworkErrors ApplyNetworkResponses;
   mkEndpoint Sdk.listUsbDevices ListUsbDevicesData ListUsbDevicesErrors ListUsbDevicesResponses;
   mkEndpoint Sdk.listVms ListVmsData ListVmsErrors ListVmsResponses;
   mkEndpoint Sdk.createVm CreateVmData CreateVmErrors CreateVmResponses;
   mkEndpoint Sdk.deleteVm DeleteVmData DeleteVmErrors DeleteVmResponses;
   mkEndpoint Sdk.getVm GetVmData GetVmErrors GetVmResponses;
   mkEndpoint Sdk.listBackups ListBackupsData ListBackupsErrors ListBackupsResponses;
   mkEndpoint Sdk.createBackup CreateBackupData CreateBackupErrors CreateBackupResponses;
   mkEndpoint Sdk.getBackupSchedule GetBackupScheduleData GetBackupScheduleErrors GetBackupScheduleResponses;
   mkEndpoint Sdk.setBackupSchedule SetBackupScheduleData SetBackupScheduleErrors SetBackupScheduleResponses;
   mkEndpoint Sdk.deleteBackup DeleteBackupData DeleteBackupErrors DeleteBackupResponses;
   mkEndpoint Sdk.restoreBackup RestoreBackupData RestoreBackupErrors RestoreBackupResponses;
   mkEndpoint Sdk.consoleVm ConsoleVmData [] [];
   mkEndpoint Sdk.addDisk AddDiskData AddDiskErrors AddDiskResponses;
   mkEndpoint Sdk.removeDisk RemoveDiskData RemoveDiskErrors RemoveDiskResponses;
   mkEndpoint Sdk.growDisk GrowDiskData GrowDiskErrors GrowDiskResponses;
   mkEndpoint Sdk.displayVm DisplayVmData [] [];
   mkEndpoint Sdk.vmGuestAgent VmGuestAgentData VmGuestAgentErrors VmGuestAgentResponses;
   mkEndpoint Sdk.updateHardware UpdateHardwareData UpdateHardwareErrors UpdateHardwareResponses;
   mkEndpoint Sdk.addVmInterface AddVmInterfaceData AddVmInterfaceErrors AddVmInterfaceResponses;
   mkEndpoint Sdk.removeVmInterface RemoveVmInterfaceData RemoveVmInterfaceErrors RemoveVmInterfaceResponses;
   mkEndpoint Sdk.updateVmInterface UpdateVmInterfaceData UpdateVmInterfaceErrors UpdateVmInterfaceResponses;
   mkEndpoint Sdk.updateMedia UpdateMediaData UpdateMediaErrors UpdateMediaResponses;
   mkEndpoint Sdk.previewVm PreviewVmData PreviewVmErrors PreviewVmResponses;
   mkEndpoint Sdk.shutdownVm ShutdownVmData ShutdownVmErrors ShutdownVmResponses;
   mkEndpoint Sdk.listSnapshots ListSnapshotsData ListSnapshotsErrors ListSnapshotsResponses;
   mkEndpoint Sdk.createSnapshot CreateSnapshotData CreateSnapshotErrors CreateSnapshotResponses;
   mkEndpoint Sdk.deleteSnapshot DeleteSnapshotData DeleteSnapshotErrors DeleteSnapshotResponses;
   mkEndpoint Sdk.restoreSnapshot RestoreSnapshotData RestoreSnapshotErrors RestoreSnapshotResponses;
   mkEndpoint Sdk.startVm StartVmData StartVmErrors StartVmResponses;
   mkEndpoint Sdk.stopVm StopVmData StopVmErrors StopVmResponses;
   mkEndpoint Sdk.listVmusb ListVmusbData ListVmusbErrors ListVmusbResponses;
   mkEndpoint Sdk.attachUsb AttachUsbData AttachUsbErrors AttachUsbResponses;
   mkEndpoint Sdk.assignUsb AssignUsbData AssignUsbErrors AssignUsbResponses;
   mkEndpoint Sdk.unassignUsb UnassignUsbData UnassignUsbErrors UnassignUsbResponses;
   mkEndpoint Sdk.detachUsb DetachUsbData DetachUsbErrors DetachUsbResponses].

(** ** Values of a type *)

Fixpoint find_field (name : string) (fs : list (string * bool * ty)) : option (bool * ty) :=
  match fs with
  | [] => None
  | (n, r, t) :: fs => if String.eqb n name then Some (r, t) else find_field name fs
  end.

Definition lookup_schema (name : string) : option ty := snd <$> List.find (λ p, String.eqb (fst p) name) schemas.

(** [fuel] bounds the nesting of the type. Objects have no members but those declared, and all those
    required. *)
Fixpoint conforms (fuel : nat) (t : ty) (j : json) : bool :=
  match fuel with
  | O => false
  | S fuel =>
      match t, j with
      | TString, JStr _ | TNumber, JNum _ | TBool, JBool _ | TUnknown, _ | TDict, JObj _ => true
      | TLiteral l, JStr s => includes_str l s
      | TRef n, _ => match lookup_schema n with Some t => conforms fuel t j | None => false end
      | TArray t, JArr l => forallb (conforms fuel t) l
      | TObject fs, JObj ms =>
          forallb (λ m, match find_field (fst m) fs with Some (_, t) => conforms fuel t (snd m) | None => false end) ms
          && forallb (λ f, negb (snd (fst f)) || existsb (λ m, String.eqb (fst m) (fst (fst f))) ms) fs
      | TUnion a b, _ => conforms fuel a j || conforms fuel b j
      | _, _ => false
      end
  end.

(** Twelve levels are enough for every declared type. *)
Definition levels : nat := 12.
Fixpoint nested (fuel : nat) (t : ty) : bool :=
  match fuel with
  | O => false
  | S fuel =>
      match t with
      | TRef n => match lookup_schema n with Some t => nested fuel t | None => false end
      | TArray t => nested fuel t
      | TObject fs => forallb (λ f, nested fuel (snd f)) fs
      | TUnion a b => nested fuel a && nested fuel b
      | _ => true
      end
  end.

Lemma find_field_in name fs r t : find_field name fs = Some (r, t) → (name, r, t) ∈ fs.
Proof.
  induction fs as [|[[n r'] t'] fs IH]; cbn; [done|]. destruct (String.eqb_spec n name) as [->|]; [intros [= -> ->]; by left|].
  intros H. right. by apply IH.
Qed.

Lemma forallb_ext_in {A} (f g : A → bool) l : (∀ x, x ∈ l → f x = g x) → forallb f l = forallb g l.
Proof.
  induction l as [|x l IH]; intros H; [done|]. cbn. rewrite H by (by left). f_equal. apply IH. intros y Hy. apply H. by right.
Qed.

(** More levels than a type has tell nothing more. *)
Lemma conforms_enough n m t j : nested n t = true → (n ≤ m)%nat → conforms m t j = conforms n t j.
Proof.
  revert m t j. induction n as [|n IH]; intros [|m] t j Hn Hm; [done|done|lia|]. cbn [nested conforms] in *.
  destruct t as [| | | | | |l|r|t|fs| |a b], j; try done; try (destruct (lookup_schema r); [|done]; apply IH; [done|lia]);
    try (apply andb_true_iff in Hn as [Ha Hb]; rewrite !(IH m) by (done || lia); done).
  - apply forallb_ext_in. intros x _. apply IH; [done|lia].
  - f_equal. apply forallb_ext_in. intros [k x] _. cbn [fst snd]. destruct (find_field k fs) as [[r t]|] eqn:E; [|done].
    apply find_field_in in E. apply IH; [|lia]. rewrite forallb_forall in Hn. apply (Hn (k, r, t)). by apply list_elem_of_In.
Qed.

(** The named alternative of a body, when it has one: the other allows any object. *)
Definition named (t : ty) : ty := match t with TUnion TDict t => t | _ => t end.

(** ** The table and the calls *)

Definition endpoint_of (op : operation) : option endpoint := List.find (λ e, bool_decide (e_op e = op)) endpoints.

Definition types_of (e : endpoint) : list ty :=
  (match d_body (e_data e) with Some t => [t] | None => [] end ++ map snd (default [] (d_path (e_data e)))
   ++ map snd (default [] (d_query (e_data e))) ++ map snd (e_errors e) ++ map snd (e_responses e))%list.

Definition path_names (d : data_type) : list string := map (λ f, fst (fst f)) (default [] (d_path d)).

(** What the generator of the declarations and of the calls agree on. *)
Definition endpoint_ok (e : endpoint) : bool :=
  let d := e_data e in
  String.eqb (d_url d) (op_url (e_op e))
  && bool_decide (path_names d = op_names (e_op e))
  && forallb (λ f, snd (fst f) && match snd f with TString => true | _ => false end) (default [] (d_path d))
  && forallb (λ f, negb (snd (fst f))) (default [] (d_query d))
  && bool_decide (op_content (e_op e) = match d_body d with
       | None => NoContent
       | Some (TObject [("file", true, TFile)]) => NullContent
       | Some _ => JsonContent
       end)
  && match d_body d with Some _ => negb (includes_str ["GET"; "HEAD"] (op_method (e_op e))) | None => true end
  && forallb (λ r, (200 <=? fst r)%Z && (fst r <=? 299)%Z) (e_responses e)
  && forallb (λ r, (400 <=? fst r)%Z && (fst r <=? 599)%Z) (e_errors e)
  && (negb (op_secure (e_op e)) || existsb (λ r, (fst r =? 401)%Z) (e_errors e))
  && forallb (nested levels) (types_of e).

(** The type declarations and the calls of the client agree, operation by operation: each operation is
    declared once; its declared address is the template it calls; the members of its path are the names in that
    template, in order, all required texts, and those of its query are all optional; it declares a body exactly
    when it gives a content type, a file exactly when that type is left to the platform, and none with GET or HEAD; its
    answers are successes and its errors are not; an operation that names a security scheme declares the 401
    that ends a session; and every type named is declared. *)
Theorem endpoints_agree :
  map e_op endpoints = operations ∧ NoDup (map fst schemas) ∧ Forall (λ e, endpoint_ok e = true) endpoints.
Proof.
  split_and!; [vm_compute; reflexivity|apply (bool_decide_unpack _); vm_compute; reflexivity|].
  apply Forall_forall. intros e He. assert (forallb endpoint_ok endpoints = true) as H by (vm_compute; reflexivity).
  rewrite forallb_forall in H. by apply H, list_elem_of_In.
Qed.
