(* ===== verification/TypedCalls.v ===== *)
(** * Typed calls

    Every request of [src/web/src/api.ts] against the type its operation declares, and the gate of the
    server ([requireAuth] and [readJSON] of [src/pkg/api/server.go]) that the request meets. *)

From S2P Require Import Prelude JsString JsNumber Json PathSerializer Client Url Sdk Routes Types Api ApiCorrect Endpoints.
Local Open Scope string_scope.

(** ** Requests of a type *)

(** Exactly the declared members, each a text. *)
Definition path_typed (d : data_type) (path : option (list (string * param))) : bool :=
  let given := default [] path in
  bool_decide (map fst given = path_names d) && forallb (λ e, match snd e with Scalar _ => true | _ => false end) given.

(** Declared members only; a number is given by its text. *)
Definition query_typed (d : data_type) (query : option (list (string * param))) : bool :=
  forallb (λ e, match find_field (fst e) (default [] (d_query d)), snd e with
                | Some (_, TString), Scalar _ => true
                | Some (_, TNumber), Scalar t => match parse t with Some (JNum _) => true | _ => false end
                | Some _, Absent => true
                | _, _ => false
                end) (default [] query).

Definition body_typed {File} (d : data_type) (b : option (@body File)) : bool :=
  match d_body d, b with
  | None, None => true
  | Some t, Some (JsonBody j) => conforms levels (named t) j
  | Some (TObject fs), Some (FileBody entries) =>
      bool_decide (map fst entries = map (λ f, fst (fst f)) fs) && forallb (λ f, match snd f with TFile => true | _ => false end) fs
  | _, _ => false
  end.

Definition typed {File} (op : operation) (o : @Options page File) : bool :=
  match endpoint_of op with
  | Some e => path_typed (e_data e) (opt_path o) && query_typed (e_data e) (opt_query o) && body_typed (e_data e) (opt_body o)
  | None => false
  end.

(** ** Bodies of the parameters *)

(** [JSON.stringify] drops the members that are [undefined]. *)
Definition member_of {A} (k : string) (f : A → json) (v : option A) : list (string * json) :=
  match v with Some x => [(k, f x)] | None => [] end.
Definition strings (l : list string) : json := JArr (JStr <$> l).

Definition vlan_json (v : VLAN) : json :=
  JObj (member_of "borrowed" JBool (vlan_borrowed v) ++ member_of "device" JStr (vlan_device v) ++
        [("parent", JStr (vlan_parent v)); ("tag", JNum (vlan_tag v))])%list.
Definition network_json (p : CreateNetworkParams) : json :=
  JObj (member_of "address" JStr (cn_address p) ++ member_of "device" JStr (cn_device p) ++ member_of "members" strings (cn_members p) ++
        member_of "mode" JStr (cn_mode p) ++ member_of "name" JStr (cn_name p) ++ member_of "parent" JStr (cn_parent p) ++
        member_of "tag" JNum (cn_tag p) ++ member_of "uplink" JStr (cn_uplink p) ++
        member_of "vlans" (λ l, JArr (vlan_json <$> l)) (cn_vlans p))%list.
Definition vm_json (p : CreateVMParams) : json :=
  JObj (member_of "addresses" strings (cv_addresses p) ++ member_of "autostart" JBool (cv_autostart p) ++
        member_of "boot_order" strings (cv_boot_order p) ++ member_of "cpus" JNum (cv_cpus p) ++
        member_of "disk_size_gib" JNum (cv_disk_size_gib p) ++ member_of "image" JStr (cv_image p) ++
        member_of "isos" strings (cv_isos p) ++ member_of "memory_mib" JNum (cv_memory_mib p) ++ member_of "name" JStr (cv_name p) ++
        member_of "network" JStr (cv_network p) ++ member_of "password" JStr (cv_password p) ++
        member_of "ssh_key" JStr (cv_ssh_key p) ++ member_of "username" JStr (cv_username p))%list.
Definition interface_json (p : InterfaceParams) : json :=
  JObj (member_of "id" JStr (ip_id p) ++ member_of "mac" JStr (ip_mac p) ++ member_of "network" JStr (ip_network p))%list.
Definition schedule_json (p : ScheduleParams) : json :=
  JObj (member_of "enabled" JBool (sched_enabled p) ++ member_of "interval_hours" JNum (sched_interval_hours p) ++
        member_of "keep_last" JNum (sched_keep_last p) ++ member_of "max_age_days" JNum (sched_max_age_days p))%list.
Definition hardware_json (p : UpdateHardwareParams) : json :=
  JObj (member_of "autostart" JBool (uh_autostart p) ++ member_of "cpus" JNum (uh_cpus p) ++
        member_of "disk_size_gib" JNum (uh_disk_size_gib p) ++ member_of "memory_mib" JNum (uh_memory_mib p))%list.

(** The members of an object conform one by one. *)
Lemma conforms_member {A} n k (f : A → json) v fs r t :
  find_field k fs = Some (r, t) → (∀ x, conforms n t (f x) = true) →
  forallb (λ m, match find_field (fst m) fs with Some (_, t) => conforms n t (snd m) | None => false end) (member_of k f v) = true.
Proof. intros Hk Hf. destruct v as [x|]; [|done]. cbn. by rewrite Hk, Hf. Qed.

Lemma conforms_strings n l : conforms (S (S n)) (TArray TString) (strings l) = true.
Proof. unfold strings. cbn [conforms]. induction l as [|x l IH]; [done|]. cbn [fmap list_fmap forallb]. by rewrite IH. Qed.

Lemma conforms_object n fs ms :
  forallb (λ m, match find_field (fst m) fs with Some (_, t) => conforms n t (snd m) | None => false end) ms = true →
  forallb (λ f, negb (snd (fst f)) || existsb (λ m, String.eqb (fst m) (fst (fst f))) ms) fs = true →
  conforms (S n) (TObject fs) (JObj ms) = true.
Proof. intros H1 H2. cbn [conforms]. by rewrite H1, H2. Qed.

Lemma forallb_app_true {A} (f : A → bool) l k : forallb f l = true → forallb f k = true → forallb f (l ++ k)%list = true.
Proof. intros H1 H2. by rewrite forallb_app, H1, H2. Qed.

Ltac conform_object :=
  apply conforms_object; [|reflexivity];
  repeat apply forallb_app_true; (eapply conforms_member; [reflexivity|]); intros; try reflexivity; try apply conforms_strings.

Lemma vm_json_typed n p : conforms (S (S (S n))) EngineCreateVmParams (vm_json p) = true.
Proof. unfold vm_json. conform_object. Qed.
Lemma interface_json_typed n p : conforms (S (S (S n))) EngineInterfaceParams (interface_json p) = true.
Proof. unfold interface_json. conform_object. Qed.
Lemma schedule_json_typed n p : conforms (S (S (S n))) EngineScheduleParams (schedule_json p) = true.
Proof. unfold schedule_json. conform_object. Qed.
Lemma hardware_json_typed n p : conforms (S (S (S n))) EngineUpdateHardwareParams (hardware_json p) = true.
Proof. unfold hardware_json. conform_object. Qed.

Lemma vlan_json_typed n v : conforms (S (S (S n))) TypesVlan (vlan_json v) = true.
Proof.
  unfold vlan_json. apply conforms_object; [|by destruct (vlan_borrowed v), (vlan_device v)].
  by destruct (vlan_borrowed v), (vlan_device v).
Qed.

Lemma network_json_typed n p : conforms (S (S (S (S (S (S n)))))) EngineCreateNetworkParams (network_json p) = true.
Proof.
  unfold network_json. conform_object. cbn [conforms]. rewrite forallb_forall. intros y Hy.
  apply list_elem_of_In, list_elem_of_fmap in Hy as (v & -> & _). apply (vlan_json_typed n).
Qed.

(** ** The calls of the module *)

Section calls.
Context {File : Type} (boundary origin : string) (Horigin : is_origin origin).
Local Abbreviation Options := (@Options page File).

(** A request of an operation given what its type declares: its method, its address, and its body as JSON
    text, as a form, or none. *)
Definition request_typed (r : @Request File) : Prop :=
  ∃ op (o : Options), op ∈ operations ∧ typed op o = true ∧ rq_method r = op_method op ∧
    rq_url r = getUrl (Some origin) (opt_path o) (opt_query o) defaultQuerySerializer (op_url op) ∧
    match opt_body o with
    | None => rq_body r = None
    | Some (JsonBody j) => rq_body r = Some (PText (stringify j))
    | Some (FileBody _) => False
    end.

(** An upload of an operation: its method and address, the file that its type declares as the form, and no content type,
    which the platform sets. *)
Definition upload_typed (method url : string) (headers : list (string * string)) (form : list (string * @form_value File)) : Prop :=
  ∃ op files (c : @Config page File), op ∈ operations ∧ typed op (mkOptions None None (Some (FileBody files)) c) = true ∧ method = op_method op ∧
    url = getUrl (Some origin) None None defaultQuerySerializer (op_url op) ∧ form = (λ '(k, f), (k, FormFile f)) <$> files ∧
    ∀ k v, (k, v) ∈ headers → lower k ≠ "content-type".

Lemma typed_endpoint op (o : Options) : typed op o = true →
  ∃ e, e ∈ endpoints ∧ e_op e = op ∧ endpoint_ok e = true ∧
    path_typed (e_data e) (opt_path o) = true ∧ query_typed (e_data e) (opt_query o) = true ∧ body_typed (e_data e) (opt_body o) = true.
Proof using Type.
  unfold typed, endpoint_of. destruct (List.find _ endpoints) as [e|] eqn:E; [|done].
  apply find_some in E as [Hin Hop%bool_decide_eq_true]. rewrite !andb_true_iff. intros [[??]?].
  exists e. split_and!; try done; [by apply list_elem_of_In|].
  assert (forallb endpoint_ok endpoints = true) as Hall by (vm_compute; reflexivity). rewrite forallb_forall in Hall. by apply Hall.
Qed.

Lemma typed_operation op (o : Options) : typed op o = true → op ∈ operations.
Proof using Type.
  intros (e & He & <- & _)%typed_endpoint. assert (map e_op endpoints = operations) as <- by (vm_compute; reflexivity).
  apply list_elem_of_In, in_map. by apply list_elem_of_In.
Qed.

Lemma file_not_json n j : conforms n (TObject [req "file" TFile]) j = false.
Proof using Type.
  destruct n as [|n]; [done|]. destruct j as [| | | | |[|[k x] ms]]; try done.
  cbn [conforms forallb find_field req fst snd]. destruct (String.eqb "file" k); [|done]. destruct n; [done|]. by destruct x.
Qed.

(** A body comes with a method that takes it, and JSON with its content type. *)
Lemma typed_body op (o : Options) : typed op o = true →
  body_allowed op o ∧ match opt_body o with Some (JsonBody _) => op_content op = JsonContent | _ => True end.
Proof using Type.
  intros (e & _ & <- & Hok & _ & _ & Hb)%typed_endpoint. unfold endpoint_ok in Hok. rewrite !andb_true_iff in Hok.
  destruct Hok as [[[[[[[[[_ _] _] _] Hc%bool_decide_eq_true] Hm] _] _] _] _]. unfold body_typed, body_allowed in *.
  destruct (d_body (e_data e)) as [t|], (opt_body o) as [b|]; try done; [|by destruct t|by split; [left|]].
  apply negb_true_iff, includes_str_false in Hm. rewrite !not_elem_of_cons in Hm. destruct Hm as (Hg & Hh & _).
  split; [by right|]. clear Hg Hh. destruct b as [j|f]; [|done].
  rewrite Hc. clear Hc. assert (∀ fs, t = TObject fs → fs ≠ [req "file" TFile]) as Hn.
  { intros fs -> ->. cbn [named] in Hb. by rewrite file_not_json in Hb. }
  destruct t as [| | | | | | | | |fs| |a b]; try done. specialize (Hn fs eq_refl). clear -Hn. unfold req in Hn.
  by repeat (case_match; try done).
Qed.

Lemma built_body op (o : Options) r : typed op o = true → bodySerializer (opt_config o) = None → built boundary origin op o = inl r →
  match opt_body o with
  | None => rq_body r = None
  | Some (JsonBody j) => rq_body r = Some (PText (stringify j))
  | Some (FileBody _) => True
  end.
Proof using Type.
  intros Ht Hs Hr. destruct (typed_body op o Ht) as [Ha Hc]. destruct (built_request boundary origin op o Ha) as (r' & Hr' & _ & _ & Hb & _).
  assert (r' = r) as -> by congruence. rewrite Hb. unfold getValidRequestBody, resolved. cbn [o_body].
  destruct (opt_body o) as [[j|f]|] eqn:Eo; [|done|done].
  cbn [o_config o_serializedBody]. unfold serialized. rewrite Eo, api_config. cbn [spread bodySerializer over ro_config op_options]. rewrite Hs, Hc.
  cbn. destruct (stringify_head j) as (c & s & -> & _). done.
Qed.

(** Two platforms that answer every typed request alike make no difference to a typed call. *)
Lemma send_cong f1 f2 op (o : Options) w : (∀ r w, request_typed r → f1 r w = f2 r w) →
  plain o → typed op o = true → bodySerializer (opt_config o) = None → (∀ files, opt_body o ≠ Some (FileBody files)) →
  send boundary f1 origin op o w = send boundary f2 origin op o w.
Proof using Horigin.
  intros Hf Hp Ht Hs Hb. rewrite !send_eq by done. destruct (built boundary origin op o) as [r|e] eqn:Er; [|done]. cbv zeta.
  assert (fetch_of f1 op o (with_token w r) w = fetch_of f2 op o (with_token w r) w) as ->; [|done].
  unfold fetch_of. destruct (fetch (opt_config o)) as [g|]; [done|]. apply Hf. exists op, o.
  destruct (with_token_same w r) as (-> & -> & ->). destruct (built_request boundary origin op o (proj1 (typed_body op o Ht))) as (r' & Hr' & Hm & Hu & _).
  assert (r' = r) as -> by congruence. split_and!; [by eapply typed_operation|done|done| |].
  - by rewrite Hu, build_url.
  - pose proof (built_body op o r Ht Hs Er) as H. destruct (opt_body o) as [[j|files]|]; [done| |done]. by destruct (Hb files).
Qed.

Lemma call_cong (m1 m2 : M page (@reply File)) w : m1 w = m2 w → call m1 w = call m2 w.
Proof using Type. intros H. unfold call, try_catch, mbind, M_bind. by rewrite H. Qed.

(** The uploads make their requests through a request object of their own. *)
Lemma upload_cong f1 f2 x1 x2 kind (file : File) w :
  (∀ method url headers form, upload_typed method url headers form → x1 method url headers form = x2 method url headers form) →
  uploadMedia boundary f1 origin x1 kind file w = uploadMedia boundary f2 origin x2 kind file w.
Proof using Horigin.
  intros Hx. set (form := [("file", FormFile file)]). set (op := match kind with ImageUpload => Sdk.uploadImage | IsoUpload => uploadIso end).
  set (o x := mkOptions None None (Some (FileBody [("file", file)]))
    (mkConfig None None None None None None None (Some (Some (λ _, PForm form))) (Some (uploadFetch x form)) None None None) : Options).
  assert (∀ f x, uploadMedia boundary f origin x kind file = call (send boundary f origin op (o x))) as E by (intros; by destruct kind).
  rewrite !E. apply call_cong.
  assert (∀ x, plain (o x)) as Hp by (intros; by split_and!).
  set (url := getUrl (Some origin) None None defaultQuerySerializer (op_url op)).
  set (r := mkRequest "POST" url (headers_set "Content-Type" ("multipart/form-data; boundary=" ++ boundary) ∅) (Some (PForm form))).
  assert (∀ x, built boundary origin op (o x) = inl r) as Hbuilt.
  { intros x. assert (built boundary origin op (o x) = inl (mkRequest "POST" (buildUrl (resolved origin op (o x)))
      (headers_set "Content-Type" ("multipart/form-data; boundary=" ++ boundary) ∅) (Some (PForm form)))) as -> by (destruct kind; reflexivity).
    by rewrite build_url. }
  rewrite !send_eq, !Hbuilt by done. cbv zeta. set (req := with_token w r).
  assert (uploadFetch x1 form req w = uploadFetch x2 form req w) as Hfetch.
  { unfold uploadFetch. rewrite Hx; [done|]. subst req. destruct (with_token_same w r) as (-> & -> & _). exists op, [("file", file)], (opt_config (o x1)).
    split_and!; try done; [apply elem_of_operations; by destruct kind|by destruct kind; vm_compute|by destruct kind|].
    intros k v Hk. apply list_elem_of_In, filter_In in Hk as [_ Hk%negb_true_iff%String.eqb_neq]. done. }
  change (fetch_of f1 op (o x1)) with (uploadFetch x1 form). change (fetch_of f2 op (o x2)) with (uploadFetch x2 form). rewrite Hfetch.
  destruct (uploadFetch x2 form req w) as [[res|e] w']; reflexivity.
Qed.
End calls.

(** ** Every call *)

(** The exported functions of the module that make a request, with their arguments. *)
Inductive api_call {File : Type} :=
  | UploadISO (file : File)
  | UploadImage (file : File)
  | GetMe
  | Login (username password : string)
  | ChangePassword (current_password new_password : string)
  | ListAPIKeys
  | CreateAPIKey (name : string)
  | RevokeAPIKey (id : string)
  | ListVMs
  | GetVM (id : string)
  | CreateVM (body : CreateVMParams)
  | GetGuestAgent (id : string)
  | StartVM (id : string)
  | StopVM (id : string)
  | ShutdownVM (id : string)
  | DeleteVM (id : string)
  | ListBackups (id : string)
  | CreateBackup (id : string)
  | RestoreBackup (id timestamp : string) (asNew : bool)
  | DeleteBackup (id timestamp : string)
  | ListSnapshots (id : string)
  | CreateSnapshot (id tag : string) (includeRAM : bool)
  | RestoreSnapshot (id tag : string)
  | DeleteSnapshot (id tag : string)
  | GetBackupSchedule (id : string)
  | SetBackupSchedule (id : string) (params : ScheduleParams)
  | ListNetworks
  | CreateNetwork (body : CreateNetworkParams)
  | UpdateNetwork (id : string) (body : CreateNetworkParams)
  | ApplyNetwork (id : string)
  | DestroyNetwork (id : string)
  | ListImages
  | ListCatalog
  | DownloadCatalogImage (id : string)
  | DeleteCatalogImage (id : string)
  | ListJobs (page_number : Z) (state search focus : string)
  | GetJob (id : string)
  | UpdateHardware (id : string) (params : UpdateHardwareParams)
  | AddDisk (id name : string) (size : Z)
  | GrowDisk (id disk : string) (size : Z)
  | RemoveDisk (id disk : string)
  | AttachImage (id media_id media_name : string) (media_size_gib : Z)
  | ListDisks (page_number : Z)
  | GetDiskStorage
  | GetHost
  | ListInterfaces
  | ListUSBDevices
  | ListVMUSB (id : string)
  | AttachUSB (id device_id fingerprint : string)
  | DetachUSB (id attachment : string)
  | AssignUSB (id device_id fingerprint : string)
  | UnassignUSB (id key : string)
  | AddVMInterface (id : string) (params : InterfaceParams)
  | UpdateVMInterface (id nic : string) (params : InterfaceParams)
  | RemoveVMInterface (id nic : string)
  | ListMedia
  | CreateMedia (name : string) (size_gib : Z)
  | DeleteMedia (id : string)
  | UpdateMedia (id : string) (isos boot_order : list string)
  | GetVMPreview (id : string).

Section run.
Context {File : Type} (boundary origin : string).

(** The call, with its result dropped, on a platform with the given [fetch]. *)
Definition run_call (f : @Request File → M page Response) (xhr : string → string → list (string * string) → list (string * @form_value File) →
    list (bool * Z * Z) * option (Z * string)) (c : @api_call File) : M page unit :=
  let run {A} (m : M page A) : M page unit := _ ← m; mret tt in
  match c with
  | UploadISO file => run (Api.uploadISO boundary f origin xhr file)
  | UploadImage file => run (Api.uploadImage boundary f origin xhr file)
  | GetMe => run (Api.getMe boundary f origin)
  | Login username password => run (Api.login boundary f origin username password)
  | ChangePassword current_password new_password => run (Api.changePassword boundary f origin current_password new_password)
  | ListAPIKeys => run (Api.listAPIKeys boundary f origin)
  | CreateAPIKey name => run (Api.createAPIKey boundary f origin name)
  | RevokeAPIKey id => run (Api.revokeAPIKey boundary f origin id)
  | ListVMs => run (Api.listVMs boundary f origin)
  | GetVM id => run (Api.getVM boundary f origin id)
  | CreateVM body => run (Api.createVM boundary f origin (vm_json body))
  | GetGuestAgent id => run (Api.getGuestAgent boundary f origin id)
  | StartVM id => run (Api.startVM boundary f origin id)
  | StopVM id => run (Api.stopVM boundary f origin id)
  | ShutdownVM id => run (Api.shutdownVM boundary f origin id)
  | DeleteVM id => run (Api.deleteVM boundary f origin id)
  | ListBackups id => run (Api.listBackups boundary f origin id)
  | CreateBackup id => run (Api.createBackup boundary f origin id)
  | RestoreBackup id timestamp asNew => run (Api.restoreBackup boundary f origin id timestamp asNew)
  | DeleteBackup id timestamp => run (Api.deleteBackup boundary f origin id timestamp)
  | ListSnapshots id => run (Api.listSnapshots boundary f origin id)
  | CreateSnapshot id tag includeRAM => run (Api.createSnapshot boundary f origin id tag includeRAM)
  | RestoreSnapshot id tag => run (Api.restoreSnapshot boundary f origin id tag)
  | DeleteSnapshot id tag => run (Api.deleteSnapshot boundary f origin id tag)
  | GetBackupSchedule id => run (Api.getBackupSchedule boundary f origin id)
  | SetBackupSchedule id params => run (Api.setBackupSchedule boundary f origin id (schedule_json params))
  | ListNetworks => run (Api.listNetworks boundary f origin)
  | CreateNetwork body => run (Api.createNetwork boundary f origin (network_json body))
  | UpdateNetwork id body => run (Api.updateNetwork boundary f origin id (network_json body))
  | ApplyNetwork id => run (Api.applyNetwork boundary f origin id)
  | DestroyNetwork id => run (Api.destroyNetwork boundary f origin id)
  | ListImages => run (Api.listImages boundary f origin)
  | ListCatalog => run (Api.listCatalog boundary f origin)
  | DownloadCatalogImage id => run (Api.downloadCatalogImage boundary f origin id)
  | DeleteCatalogImage id => run (Api.deleteCatalogImage boundary f origin id)
  | ListJobs page_number state search focus => run (Api.listJobs boundary f origin page_number state search focus)
  | GetJob id => run (Api.getJob boundary f origin id)
  | UpdateHardware id params => run (Api.updateHardware boundary f origin id (hardware_json params))
  | AddDisk id name size => run (Api.addDisk boundary f origin id name size)
  | GrowDisk id disk size => run (Api.growDisk boundary f origin id disk size)
  | RemoveDisk id disk => run (Api.removeDisk boundary f origin id disk)
  | AttachImage id media_id media_name media_size_gib => run (Api.attachImage boundary f origin id media_id media_name media_size_gib)
  | ListDisks page_number => run (Api.listDisks boundary f origin page_number)
  | GetDiskStorage => run (Api.getDiskStorage boundary f origin)
  | GetHost => run (Api.getHost boundary f origin)
  | ListInterfaces => run (Api.listInterfaces boundary f origin)
  | ListUSBDevices => run (Api.listUSBDevices boundary f origin)
  | ListVMUSB id => run (Api.listVMUSB boundary f origin id)
  | AttachUSB id device_id fingerprint => run (Api.attachUSB boundary f origin id device_id fingerprint)
  | DetachUSB id attachment => run (Api.detachUSB boundary f origin id attachment)
  | AssignUSB id device_id fingerprint => run (Api.assignUSB boundary f origin id device_id fingerprint)
  | UnassignUSB id key => run (Api.unassignUSB boundary f origin id key)
  | AddVMInterface id params => run (Api.addVMInterface boundary f origin id (interface_json params))
  | UpdateVMInterface id nic params => run (Api.updateVMInterface boundary f origin id nic (interface_json params))
  | RemoveVMInterface id nic => run (Api.removeVMInterface boundary f origin id nic)
  | ListMedia => run (Api.listMedia boundary f origin)
  | CreateMedia name size_gib => run (Api.createMedia boundary f origin name size_gib)
  | DeleteMedia id => run (Api.deleteMedia boundary f origin id)
  | UpdateMedia id isos boot_order => run (Api.updateMedia boundary f origin id isos boot_order)
  | GetVMPreview id => run (Api.getVMPreview boundary f origin id)
  end.
End run.

Lemma bind_cong {W A B} (m1 m2 : M W A) (k1 k2 : A → M W B) w :
  m1 w = m2 w → (∀ x w, k1 x w = k2 x w) → (m1 ≫= k1) w = (m2 ≫= k2) w.
Proof. intros Hm Hk. unfold mbind, M_bind. rewrite Hm. by destruct (m2 w) as [[x|e] w']. Qed.

Lemma conforms_ref n r j : conforms (S n) (TRef r) j = match lookup_schema r with Some t => conforms n t j | None => false end.
Proof. done. Qed.

(** A body written by one of the encoders. *)
Lemma typed_encoded {File} op d er rs name t path j : endpoint_of op = Some (mkEndpoint op d er rs) →
  path_typed d path = true → d_body d = Some (TUnion TDict (TRef name)) → lookup_schema name = Some t →
  conforms 11 t j = true → @typed File op (opts path None (Some j)) = true.
Proof.
  intros He Hp Hb Hs Hc. unfold typed. rewrite He. cbn [e_data opts opt_path opt_query opt_body fmap option_fmap option_map].
  rewrite Hp. unfold body_typed, query_typed. rewrite Hb. cbn [default forallb named andb].
  unfold levels. by rewrite conforms_ref, Hs.
Qed.

Lemma query_number_typed (n : Z) : match parse (pretty n) with Some (JNum _) => true | _ => false end = true.
Proof. change (pretty n) with (stringify (JNum n)). by rewrite parse_stringify. Qed.

Lemma typed_plain {File} op d er rs path : endpoint_of op = Some (mkEndpoint op d er rs) →
  path_typed d path = true → d_body d = None → @typed File op (opts path None None) = true.
Proof.
  intros He Hp Hb. unfold typed. rewrite He. cbn [e_data opts opt_path opt_query opt_body fmap option_fmap option_map].
  rewrite Hp. unfold body_typed, query_typed. by rewrite Hb.
Qed.

Lemma typed_query {File} op d er rs query : endpoint_of op = Some (mkEndpoint op d er rs) →
  d_path d = None → d_body d = None → query_typed d (Some query) = true → @typed File op (opts None (Some query) None) = true.
Proof.
  intros He Hp Hb Hq. unfold typed. rewrite He. cbn [e_data opts opt_path opt_query opt_body fmap option_fmap option_map].
  rewrite Hq. unfold body_typed, path_typed, path_names. by rewrite Hb, Hp.
Qed.

Ltac conforming :=
  match goal with
  | |- conforms _ _ (vm_json _) = true => apply (vm_json_typed 8)
  | |- conforms _ _ (schedule_json _) = true => apply (schedule_json_typed 8)
  | |- conforms _ _ (hardware_json _) = true => apply (hardware_json_typed 8)
  | |- conforms _ _ (interface_json _) = true => apply (interface_json_typed 8)
  | |- conforms _ _ (network_json _) = true => apply (network_json_typed 5)
  | |- conforms _ _ (JObj [(_, JArr (JStr <$> ?l)); (_, JArr (JStr <$> ?k))]) = true =>
      apply conforms_object; [|reflexivity]; apply (forallb_app_true _ [(_, strings l)] [(_, strings k)]);
      (apply (conforms_member _ _ strings (Some _)) with (r := false) (t := TArray TString); [reflexivity|apply conforms_strings])
  | |- _ => vm_compute; reflexivity
  end.

(** The options of a call, checked against its declaration. *)
Ltac well_typed :=
  match goal with
  | |- typed _ (opts _ None None) = true => eapply typed_plain; [vm_compute; reflexivity..|vm_compute; reflexivity|reflexivity]
  | |- typed _ (opts _ (Some _) None) = true =>
      eapply typed_query; [vm_compute; reflexivity|reflexivity..|];
      unfold query_typed; cbn -[parse pretty]; by rewrite ?query_number_typed
  | |- typed _ (opts _ None (Some _)) = true =>
      eapply typed_encoded; [vm_compute; reflexivity|vm_compute; reflexivity|reflexivity|vm_compute; reflexivity|conforming]
  end.

(** C14. The module only ever asks the server for what the operations declare. Every request of every function
    of [api.ts], whatever its arguments, has the method and the address of a declared operation, filled with
    exactly the members its path declares and members its query declares; and carries no body, or the JSON text
    of a value of the type the operation declares for it, without members the server does not know, which it
    would refuse; or, for an upload, the form with the file that is declared, and no content type of its own. So two
    servers that answer such requests and uploads alike cannot be told apart by any call. *)
Theorem calls_typed {File} boundary origin (f1 f2 : @Request File → M page Response) x1 x2 (c : @api_call File) w :
  is_origin origin → (∀ r w, request_typed origin r → f1 r w = f2 r w) →
  (∀ method url headers form, upload_typed origin method url headers form → x1 method url headers form = x2 method url headers form) →
  run_call boundary origin f1 x1 c w = run_call boundary origin f2 x2 c w.
Proof.
  intros Ho Hf Hx.
  assert (∀ op (path query : option (list (string * param))) b w, @typed File op (opts path query b) = true →
    call (send boundary f1 origin op (opts path query b)) w = call (send boundary f2 origin op (opts path query b)) w) as Hcall.
  { intros op path query b w' Ht. apply call_cong, send_cong; [done|done|by repeat split|done|done|by destruct b]. }
  assert (∀ op (path query : option (list (string * param))) b p w, @typed File op (opts path query b) = true →
    send boundary f1 origin op (quiet (opts path query b) p) w = send boundary f2 origin op (quiet (opts path query b) p) w) as Hquiet.
  { intros op path query b p w' Ht. apply send_cong; [done|done|by repeat split|done|done|by destruct b]. }
  assert (∀ w, Api.listVMs boundary f1 origin w = Api.listVMs boundary f2 origin w) as Hlist.
  { intros w'. apply Hcall. well_typed. }
  destruct c; cbn [run_call]; (apply bind_cong; [|done]);
    lazymatch goal with
    | |- uploadISO _ _ _ _ _ _ = _ => by apply (upload_cong boundary origin Ho f1 f2 x1 x2 IsoUpload)
    | |- uploadImage _ _ _ _ _ _ = _ => by apply (upload_cong boundary origin Ho f1 f2 x1 x2 ImageUpload)
    | |- _ => try (apply Hcall; well_typed)
    end.
  - apply bind_cong; [|done]. apply Hcall. well_typed.
  - apply bind_cong; [|done]. apply Hcall. well_typed.
  - unfold getVM. apply bind_cong; [apply Hquiet; well_typed|]. intros [d|d e q r] w'; [done|].
    destruct (match r with Some res => _ | None => _ end); [done|]. destruct (negb _); [done|].
    destruct d as [[vm| | | | | |]|]; [|reflexivity..]. apply bind_cong; [done|]. intros ph w1. destruct (settled vm); [done|].
    by apply bind_cong; [apply Hlist|].
  - unfold getVMPreview. apply bind_cong; [apply Hquiet; well_typed|done].
Qed.

Lemma not_trace op : op ∈ operations → String.eqb (op_method op) "TRACE" = false.
Proof.
  assert (forallb (λ op, negb (String.eqb (op_method op) "TRACE")) operations = true) as H by (vm_compute; reflexivity).
  rewrite forallb_forall in H. intros Hop. specialize (H op (proj1 (list_elem_of_In _ _) Hop)). by apply negb_true_iff in H.
Qed.

Lemma calls_typed_witness :
  let f1 : @Request unit → M page Response := λ r w, (inr (JsError "offline"), w) in
  let f2 : @Request unit → M page Response := λ r w, if String.eqb (rq_method r) "TRACE" then (inl (mkResponse 200 ∅ "{}"), w) else (inr (JsError "offline"), w) in
  let w := mkPage ∅ "/" [] [] in
  let x (text : string) := λ (m url : string) (hs : list (string * string)) (form : list (string * @form_value unit)),
    (@nil (bool * Z * Z), if String.eqb m "TRACE" then Some (200%Z, text) else None) in
  run_call "b" "http://maco" f1 (x "a") (UploadISO tt) w = run_call "b" "http://maco" f2 (x "b") (UploadISO tt) w.
Proof.
  apply calls_typed.
  - exists "http", "maco". by split_and!.
  - intros r w (op & o & Hop & _ & -> & _). by rewrite not_trace.
  - intros m url hs form (op & files & c & Hop & _ & -> & _). cbv beta. by rewrite not_trace.
Defined.

(** ** The gate of the server *)

Definition readOnlyMethod (method : string) : bool := includes_str ["GET"; "HEAD"; "OPTIONS"] method.
Definition CanMutate (role : string) : bool := String.eqb role "admin".

Inductive passage := Passes (role : string) | Refused (status : Z).

(** [requireAuth]; [authenticate] is the role of a token, [None] an error. *)
Definition requireAuth (authenticate : string → option string) (method path : string) (authorization : option string) : passage :=
  let header := default "" authorization in
  let token := default header (strip_prefix "Bearer " header) in
  if String.eqb token header || String.eqb token "" then Refused 401
  else match authenticate token with
       | None => Refused 401
       | Some role =>
           if negb (readOnlyMethod method) && negb (CanMutate role) && negb (starts_with "/api/me/" path) then Refused 403
           else Passes role
       end.

(** The group of routes that stands behind the gate, and the admission of a request by its route: at once, where the
    handler looks at the credentials itself, or as the gate says. *)
Definition protected_routes : list route := (λ r, mkRoute (r_method r) ("/api" ++ r_pattern r) (r_handler r)) <$> mountProtected.
Inductive admission := AtOnce | ByGate (p : passage).
Definition admits (authenticate : string → option string) (r : route) (u : URL) (method : string) (authorization : option string) : admission :=
  if bool_decide (r ∈ protected_routes) then ByGate (requireAuth authenticate method (url_Path u) authorization) else AtOnce.

(** The operations whose handlers look at the credentials themselves: the sign-in, the consoles and the streams. *)
Definition self_checked : list operation := [handleLogin; consoleVm; displayVm; hostConsole; streamJobs; streamEvents].

Lemma protected_operation op r : op ∈ operations → r ∈ server_routes → r_method r = op_method op → r_pattern r = op_url op →
  bool_decide (r ∈ protected_routes) = negb (bool_decide (op ∈ self_checked)).
Proof.
  assert (forallb (λ op, forallb (λ r, negb (op_route op r) || eqb (bool_decide (r ∈ protected_routes)) (negb (bool_decide (op ∈ self_checked)))) server_routes)
    operations = true) as H by (vm_compute; reflexivity).
  intros Hop Hr Hm Hp. rewrite forallb_forall in H. specialize (H op (proj1 (list_elem_of_In _ _) Hop)).
  rewrite forallb_forall in H. specialize (H r (proj1 (list_elem_of_In _ _) Hr)). unfold op_route in H.
  rewrite Hm, Hp, !String.eqb_refl in H. by apply eqb_prop in H.
Qed.

(** The operations on the own account. *)
Definition own_account (op : operation) : bool := starts_with "/api/me/" (op_url op).

(** The first two pieces of an address are the template's. *)
Lemma own_account_path f path op : op ∈ operations → starts_with "/api/me/" (join "/" (piece_with f path <$> elements (op_url op))) = own_account op.
Proof.
  intros Hop. unfold operations in Hop.
  repeat (apply elem_of_cons in Hop as [->|Hop]; [reflexivity|]). by apply elem_of_nil in Hop.
Qed.

(** What the gate makes of a session. *)
Definition gate_answer (authenticate : string → option string) (op : operation) (token : option string) : passage :=
  match token ≫= λ t, if truthy t then authenticate t else None with
  | None => Refused 401
  | Some role => if readOnlyMethod (op_method op) || isAdmin (Some role) || own_account op then Passes role else Refused 403
  end.

Lemma strip_self_neq p s : p ≠ "" → String.eqb s (p ++ s) = false.
Proof.
  intros Hp. apply String.eqb_neq. intros E. apply (f_equal String.length) in E. rewrite str_length_app in E. destruct p; [done|]. simpl in E. lia.
Qed.



(** *** The sign-in *)

(** [handleLogin]: [allowed] is the answer of the guard against too many attempts, [decoded] the request its
    body holds, [issue] makes a token for a user or fails. *)
Inductive login_answer := Token (t : string) | Failure (status : Z) (message : string).
Definition handleLogin_server (allowed : bool) (decoded : option (string * string)) (authenticate : string → string → option string)
    (issue : string → string + string) : login_answer :=
  if negb allowed then Failure 429 "too many login attempts"
  else match decoded with
       | None => Failure 400 "invalid request"
       | Some (username, password) =>
           match authenticate username password with
           | None => Failure 401 "invalid credentials"
           | Some user => match issue user with inl t => Token t | inr e => Failure 500 e end
           end
       end.

(** Of the statuses of the sign-in, the one of too many attempts is not declared. *)
Lemma login_undeclared allowed decoded authenticate issue s m : handleLogin_server allowed decoded authenticate issue = Failure s m →
  (s ∈ map fst HandleLoginErrors ↔ allowed = true).
Proof.
  unfold handleLogin_server. destruct allowed; cbn [negb]; [|intros [= <- <-]; by split; [vm_compute; set_solver|]].
  intros H. split; [done|]. intros _. destruct decoded as [[u p]|]; [|injection H as <- _; vm_compute; set_solver].
  destruct (authenticate u p); [|injection H as <- _; vm_compute; set_solver].
  destruct (issue _); [done|]. injection H as <- _. vm_compute; set_solver.
Qed.
