(* ===== verification/JobQueue.v ===== *)
(** * The queue of operations ([src/pkg/jobs/jobs.go], [lock.go], [public.go])

    Every change of the server is a job: a handler submits it, a worker executes it, and the console follows
    its record. Redis keeps the records, their index by age, their logs, a lock and a channel of events; the
    queue (asynq) delivers the tasks. Both are services: a function of the source is a program of commands
    to them, each atomic, and any number of programs run interleaved. Records are kept as values; the source
    stores their JSON. *)

From S2P Require Import Prelude JsString Json Types Activity.
From S2P Require Export Programs.
Local Open Scope string_scope.

(** ** Commands

    The answers of the services that can fail are values or errors. [Begin] and [Finish] are the two ends of
    an action of the engine: the messages it logs while it runs, then its new identifier and its error. *)

Record Payload := mkPayload { p_id : string; p_action : string; p_target : string; p_params : json }.

Inductive task_info := TaskFound (archived : bool) (lastErr : string) | TaskNotFound | InfoFailed (e : string).

Inductive cmd : Type → Type :=
  | NewID : cmd string
  | Now : cmd Z
  | SaveJob (j : Job) : cmd (option string)
  | GetRecord (id : string) : cmd (Job + string)
  | MGetRecords (ids : list string) : cmd (list (option Job) + string)
  | ZAdd (score : Z) (id : string) : cmd (option string)
  | ZRange (start stop : Z) : cmd (list string + string)
  | ZRevRange (start stop : Z) : cmd (list string + string)
  | DelJobs (ids : list string) : cmd (option string)
  | RPush (id message : string) : cmd (option string)
  | LRange (id : string) : cmd (list string + string)
  | SetNX (token : string) : cmd (bool + string)
  | DelIfEq (token : string) : cmd (option string)
  | PExpireIfEq (token : string) (ms : Z) : cmd (option string)
  | Enqueue (p : Payload) : cmd (option string)
  | GetTaskInfo (id : string) : cmd task_info
  | ListTasks (active : bool) (page : nat) : cmd (option (list string) + string)
  | Begin (p : Payload) : cmd (list string)
  | Finish (p : Payload) : cmd (string * option string).

(** ** Programs *)

Notation prog := (Programs.prog cmd).

(** ** The source *)

Definition historyLimit : Z := 2000.

(** Milliseconds. *)
Definition lockTTL : Z := 30000.

(** A text that is left out of the JSON when it is empty. *)
Definition omitempty (s : string) : option string := if String.eqb s "" then None else Some s.

Section jobs.
(** Instants are milliseconds; the text of one in JSON and in the log, and back; [%q]. *)
Context (time_text log_time : Z → string) (time_of : string → Z) (quoted : string → string).

Definition set_failed (e : string) (j : Job) : Job :=
  mkJob (job_action j) (job_created_at j) (omitempty e) (job_finished_at j) (job_id j) (job_label j) (job_logs j)
    (job_result j) (job_started_at j) Failed (job_target j).
Definition set_finished (t : Z) (j : Job) : Job :=
  mkJob (job_action j) (job_created_at j) (job_error j) (Some (time_text t)) (job_id j) (job_label j) (job_logs j)
    (job_result j) (job_started_at j) (job_state j) (job_target j).
Definition set_started (t : Z) (j : Job) : Job :=
  mkJob (job_action j) (job_created_at j) (job_error j) (job_finished_at j) (job_id j) (job_label j) (job_logs j)
    (job_result j) (Some (time_text t)) Running (job_target j).
Definition set_outcome (t : Z) (result : string) (e : option string) (j : Job) : Job :=
  mkJob (job_action j) (job_created_at j) (match e with Some e => omitempty e | None => job_error j end) (Some (time_text t))
    (job_id j) (job_label j) (job_logs j) (omitempty result) (job_started_at j) (if e then Failed else Succeeded) (job_target j).
Definition with_label (j : Job) : Job :=
  mkJob (job_action j) (job_created_at j) (job_error j) (job_finished_at j) (job_id j) (Label (job_action j)) (job_logs j)
    (job_result j) (job_started_at j) (job_state j) (job_target j).
Definition with_logs (logs : list string) (j : Job) : Job :=
  mkJob (job_action j) (job_created_at j) (job_error j) (job_finished_at j) (job_id j) (job_label j) logs
    (job_result j) (job_started_at j) (job_state j) (job_target j).

Definition appendLog (id message : string) : prog (option string) :=
  t ← ask Now; ask (RPush id (log_time t ++ " " ++ message)).

(** Which of the oldest jobs go: all but those in progress. *)
Definition trimmed (stale : list string) (values : list (option Job)) : list string :=
  omap (λ '(id, v), match v with Some j => if terminal (job_state j) then Some id else None | None => Some id end)
    (zip stale values).

Definition trimHistory : prog unit :=
  r ← ask (ZRange 0 (-(historyLimit + 1)));
  match r with
  | inr _ | inl [] => Ret tt
  | inl stale =>
      values ← ask (MGetRecords stale);
      match values with
      | inr _ => Ret tt
      | inl values =>
          match trimmed stale values with
          | [] => Ret tt
          | ids => _ ← ask (DelJobs ids); Ret tt
          end
      end
  end.

Definition new_job (id : string) (t : Z) (p : Payload) : Job :=
  mkJob (p_action p) (time_text t) None None id (Label (p_action p)) [] None None Pending (p_target p).

Definition Submit (p : Payload) : prog (Job + string) :=
  id ← ask NewID; t ← ask Now;
  let p := mkPayload id (p_action p) (p_target p) (p_params p) in
  let j := new_job id t p in
  try ask (SaveJob j);
  try (if Private j then Ret None
       else err ← ask (ZAdd t id); match err with Some e => Ret (Some e) | None => _ ← trimHistory; Ret None end);
  err ← ask (Enqueue p);
  match err with
  | Some e =>
      now ← ask Now;
      _ ← ask (SaveJob (set_finished now (set_failed "could not enqueue job" j)));
      Ret (inr e)
  | None => Ret (inl j)
  end.

Definition Get (id : string) : prog (Job + string) :=
  j ⇐ ask (GetRecord id);
  let j := with_label j in
  j ⇐ (if terminal (job_state j) then Ret (inl j) else
       info ← ask (GetTaskInfo id);
       match info with
       | TaskFound true lastErr =>
           let j := set_failed lastErr j in
           try appendLog (job_id j) ("Failed: " ++ lastErr);
           now ← ask Now;
           let j := set_finished now j in
           try ask (SaveJob j);
           Ret (inl j)
       | _ => Ret (inl j)
       end);
  logs ⇐ ask (LRange id);
  Ret (inl (with_logs logs j)).

(** ** Execution *)

Definition actions : list string :=
  ["vm.usb.assign"; "vm.usb.unassign"; "vm.usb.attach"; "vm.usb.detach"; "vm.create"; "vm.start"; "vm.stop"; "vm.shutdown";
   "vm.disk.add"; "vm.disk.remove"; "vm.disk.grow"; "vm.interface.add"; "vm.interface.update"; "vm.interface.remove";
   "vm.hardware"; "vm.screenshot"; "vm.delete"; "vm.backup"; "vm.backup.restore"; "vm.backup.delete"; "vm.backup.prune";
   "vm.snapshot.create"; "vm.snapshot.restore"; "vm.snapshot.delete"; "network.create"; "network.update"; "network.apply";
   "network.destroy"; "catalog.download"].

(** What [execute] gives for the engine's answer: the identifier of what was made, or the target, which some
    actions keep when they fail. *)
Definition result_of (p : Payload) (id : string) (e : option string) : string :=
  if includes_str ["vm.create"; "vm.backup"; "vm.backup.restore"; "network.create"] (p_action p) then (if e then "" else id)
  else if includes_str ["vm.backup.prune"; "vm.snapshot.create"] (p_action p) then (if e then "" else p_target p)
  else p_target p.

Definition execute (p : Payload) : prog (string * option string) :=
  if includes_str actions (p_action p) then
    messages ← ask (Begin p);
    _ ← for_all (appendLog (p_id p)) messages;
    r ← ask (Finish p);
    Ret (result_of p (fst r) (snd r), snd r)
  else Ret ("", Some ("unknown action " ++ quoted (p_action p))).

(** [acquireLock]: it polls until the key is its own or the context of the task ends, after [polls] of them. *)
Fixpoint poll_lock (polls : nat) (token : string) : prog (string + string) :=
  match polls with
  | O => Ret (inr "context deadline exceeded")
  | S polls =>
      ok ⇐ ask (SetNX token);
      if (ok : bool) then Ret (inl token) else poll_lock polls token
  end.
Definition acquireLock (polls : nat) : prog (string + string) :=
  token ← ask NewID; poll_lock polls token.

(** One renewal of [keepAlive], the goroutine that runs beside the holder of a lock until it is released or its process
    ends; its error is ignored. *)
Definition keepAlive (token : string) : prog unit := _ ← ask (PExpireIfEq token lockTTL); Ret tt.

(** The body of [ProcessTask], under the lock. *)
Definition process (p : Payload) : prog (option string) :=
  r ← Get (p_id p);
  match r with
  | inr e => Ret (Some e)
  | inl j =>
      if terminal (job_state j) then Ret None else
      if job_started_at j then Ret (Some "job interrupted; inspect resources before submitting again") else
      now ← ask Now;
      let j := set_started now j in
      do ask (SaveJob j);
      do appendLog (job_id j) ("Starting " ++ job_action j ++ " " ++ job_target j);
      out ← execute p;
      now ← ask Now;
      let '(result, actionErr) := out in
      let j := set_outcome now result actionErr j in
      let message := match actionErr with Some e => "Failed: " ++ e | None => "Completed successfully" end in
      do appendLog (job_id j) message;
      do ask (SaveJob j);
      Ret actionErr
  end.

Definition ProcessTask (polls : nat) (p : Payload) : prog (option string) :=
  lock ← acquireLock polls;
  match lock with
  | inr e => Ret (Some e)
  | inl token => r ← process p; _ ← ask (DelIfEq token); Ret r
  end.

(** ** Lists *)

Definition append_new (ids more : list string) : list string :=
  fold_left (λ ids id, if includes_str ids id then ids else (ids ++ [id])%list) more ids.

(** The pages of one list of tasks, until one is short; [pages] bounds them. *)
Fixpoint task_pages (pages : nat) (active : bool) (page : nat) (ids : list string) : prog (list string + string) :=
  match pages with
  | O => Ret (inr "out of fuel")
  | S pages =>
      tasks ⇐ ask (ListTasks active page);
      match tasks with
      | None => Ret (inl ids)
      | Some tasks =>
          let ids := append_new ids tasks in
          if (length tasks <? 100)%nat then Ret (inl ids) else task_pages pages active (S page) ids
      end
  end.

Definition includeActive (pages : nat) (ids : list string) : prog (list string + string) :=
  ids ⇐ task_pages pages true 1 ids; task_pages pages false 1 ids.

Definition List (pages : nat) : prog (list Job + string) :=
  ids ⇐ ask (ZRevRange 0 199);
  ids ⇐ includeActive pages ids;
  for_each (λ id, j ⇐ Get id; Ret (inl (with_logs [] j))) ids.

(** The batch of one iteration of [PublicList]: the public jobs, until there are two hundred. *)
Fixpoint public_batch (batch : list string) (fetched : list (string * Job)) : prog (list (string * Job) + string) :=
  match batch with
  | [] => Ret (inl fetched)
  | id :: batch =>
      j ⇐ Get id;
      if Private j then public_batch batch fetched
      else let fetched := (fetched ++ [(id, j)])%list in
           if (length fetched =? 200)%nat then Ret (inl fetched) else public_batch batch fetched
  end.

Fixpoint public_ids (pages : nat) (offset : Z) (fetched : list (string * Job)) : prog (list (string * Job) + string) :=
  match pages with
  | O => Ret (inr "out of fuel")
  | S pages =>
      if (200 <=? length fetched)%nat then Ret (inl fetched) else
      batch ⇐ ask (ZRevRange offset (offset + 199));
      fetched ⇐ public_batch batch fetched;
      if (length batch <? 200)%nat then Ret (inl fetched) else public_ids pages (offset + 200) fetched
  end.

(** The last one fetched for an id, as in a map. *)
Definition fetched_job (fetched : list (string * Job)) (id : string) : option Job :=
  snd <$> last (filter (λ e, fst e = id) fetched).

Definition PublicList (pages : nat) : prog (list Job + string) :=
  fetched ⇐ public_ids pages 0 [];
  ids ⇐ includeActive pages fetched.*1;
  jobs ⇐ for_each (λ id,
      match fetched_job fetched id with
      | Some j => Ret (inl (Some (with_logs [] j)))
      | None => j ⇐ Get id; Ret (inl (if Private j then None else Some (with_logs [] j)))
      end) ids;
  Ret (inl (omap (λ j, j) jobs)).

(** The jobs [PublicPage] filters and orders: the records of the index, in slices of two hundred, those in
    progress read again. *)
Definition page_job (v : option Job) : prog (option Job + string) :=
  match v with
  | None => Ret (inl None)
  | Some j =>
      if terminal (job_state j) then Ret (inl (Some j))
      else r ← Get (job_id j); Ret (inl (Some (match r with inl refreshed => refreshed | inr _ => j end)))
  end.
Fixpoint slices_of (n : nat) (l : list string) : list (list string) :=
  match n with O => [] | S n => match l with [] => [] | _ => take 200 l :: slices_of n (drop 200 l) end end.
Definition page_jobs : prog (list Job + string) :=
  ids ⇐ ask (ZRevRange 0 (-1));
  parts ⇐ for_each (λ part, values ⇐ ask (MGetRecords part); for_each page_job values) (slices_of (length ids) ids);
  Ret (inl (omap (λ j, j) (concat parts))).

(** ** Orphans *)

(** One record of a slice: it fails if its task is gone or was given up. *)
Definition reconcile_job (v : option Job) : prog unit :=
  match v with
  | None => Ret tt
  | Some j =>
      if terminal (job_state j) then Ret tt else
      now ← ask Now;
      if (now - time_of (job_created_at j) <? 60000)%Z then Ret tt else
      info ← ask (GetTaskInfo (job_id j));
      match info with
      | TaskFound false _ | InfoFailed _ => Ret tt
      | TaskFound true _ | TaskNotFound =>
          let e := match info with TaskFound _ lastErr => lastErr | _ => job_error j |?| "" end in
          let e := if String.eqb e "" then "job was interrupted before it started" else e in
          now ← ask Now;
          let j := set_finished now (set_failed e j) in
          _ ← appendLog (job_id j) ("Failed: " ++ e);
          _ ← ask (SaveJob j);
          Ret tt
      end
  end.

Fixpoint reconcile_slices (parts : list (list string)) : prog unit :=
  match parts with
  | [] => Ret tt
  | part :: parts =>
      values ← ask (MGetRecords part);
      match values with
      | inr _ => Ret tt
      | inl values => _ ← for_all reconcile_job values; reconcile_slices parts
      end
  end.

Definition reconcileOrphans : prog unit :=
  r ← ask (ZRange 0 (-1));
  match r with inr _ => Ret tt | inl ids => reconcile_slices (slices_of (length ids) ids) end.
End jobs.
