(* ===== verification/JobService.v ===== *)
(** * The services of the queue, and what runs on them

    What Redis and the queue document of the commands of [JobQueue], as a relation between the answer and the
    state before and after; any service that keeps to it is an instance of the class [Service], which the
    theorems on the queue are proved against. On a service run any number of functions of
    [src/pkg/jobs/jobs.go] at once: a step is one command of one of them. *)

From stdpp Require Import sorting.
From S2P Require Import Prelude JsString Json Types Activity JobQueue.
Local Open Scope string_scope.

(** ** The state of the services

    The channel keeps all that was ever published, the queue all that was ever enqueued; [begun] and [ended]
    are the two ends of the actions of the engine. *)

Record store := mkStore {
  records : gmap string Job;
  logs : gmap string (list string);
  index : gmap string Z;
  published : list Job;
  enqueued : list Payload;
  lock : option string;
  issued : gset string;
  begun : list Payload;
  ended : list Payload;
  ttl : Z  (* the milliseconds the lock has left *)
}.

Definition empty_store : store := mkStore ∅ ∅ ∅ [] [] None ∅ [] [] 0.

(** The members of a sorted set, by score and then by name. *)
Definition older (a b : string * Z) : Prop := (snd a < snd b)%Z ∨ (snd a = snd b ∧ String.leb (fst a) (fst b) = true).
#[export] Instance older_dec a b : Decision (older a b).
Proof. unfold older. apply _. Defined.
Definition by_age (m : gmap string Z) : list string := (merge_sort older (map_to_list m)).*1.

(** A range of a list; an index below 0 counts from its end. *)
Definition zrange {A} (l : list A) (start stop : Z) : list A :=
  let n := Z.of_nat (length l) in
  let start := if (start <? 0)%Z then Z.max 0 (n + start) else start in
  let stop := if (stop <? 0)%Z then (n + stop)%Z else Z.min stop (n - 1) in
  if (stop <? start)%Z then [] else take (Z.to_nat (stop - start + 1)) (drop (Z.to_nat start) l).

(** ** Lemmas on sorted sets *)

Lemma by_age_elem m id : id ∈ by_age m ↔ is_Some (m !! id).
Proof.
  unfold by_age. rewrite (merge_sort_Permutation older (map_to_list m)). split.
  - intros ([i z] & -> & H%elem_of_map_to_list)%list_elem_of_fmap. by exists z.
  - intros [z Hz]. apply list_elem_of_fmap. exists (id, z). split; [done|]. by apply elem_of_map_to_list.
Qed.
Lemma by_age_NoDup m : NoDup (by_age m).
Proof. unfold by_age. rewrite (merge_sort_Permutation older (map_to_list m)). apply NoDup_fst_map_to_list. Qed.

Lemma zrange_take {A} (l : list A) (n : Z) : (0 ≤ n)%Z → zrange l 0 n = take (Z.to_nat (n + 1)) l.
Proof.
  intros Hn. unfold zrange. cbn [Z.ltb Z.compare]. rewrite (proj2 (Z.ltb_ge n 0)) by done.
  destruct (Z.ltb_spec (Z.min n (Z.of_nat (length l) - 1)) 0) as [H|H].
  - assert (length l = 0%nat) as ->%nil_length_inv by lia. by rewrite take_nil.
  - rewrite drop_0. destruct (Z.leb_spec n (Z.of_nat (length l) - 1)).
    + f_equal. lia.
    + rewrite !take_ge by lia. done.
Qed.

Definition put (j : Job) (s : store) : store :=
  mkStore (<[job_id j := j]> (records s)) (logs s) (index s) (published s ++ [j]) (enqueued s) (lock s) (issued s) (begun s) (ended s) (ttl s).
Definition set_index (m : gmap string Z) (s : store) : store :=
  mkStore (records s) (logs s) m (published s) (enqueued s) (lock s) (issued s) (begun s) (ended s) (ttl s).
Definition set_lock (l : option string) (ms : Z) (s : store) : store :=
  mkStore (records s) (logs s) (index s) (published s) (enqueued s) l (issued s) (begun s) (ended s) ms.
Definition delete_jobs (ids : list string) (s : store) : store :=
  mkStore (foldr delete (records s) ids) (foldr delete (logs s) ids) (foldr delete (index s) ids)
    (published s) (enqueued s) (lock s) (issued s) (begun s) (ended s) (ttl s).
Definition push_log (id m : string) (s : store) : store :=
  mkStore (records s) (<[id := (default [] (logs s !! id) ++ [m])%list]> (logs s)) (index s) (published s) (enqueued s) (lock s) (issued s) (begun s) (ended s) (ttl s).
Definition issue (id : string) (s : store) : store :=
  mkStore (records s) (logs s) (index s) (published s) (enqueued s) (lock s) ({[id]} ∪ issued s) (begun s) (ended s) (ttl s).
Definition add_task (p : Payload) (s : store) : store :=
  mkStore (records s) (logs s) (index s) (published s) (enqueued s ++ [p]) (lock s) (issued s) (begun s) (ended s) (ttl s).
Definition add_begun (p : Payload) (s : store) : store :=
  mkStore (records s) (logs s) (index s) (published s) (enqueued s) (lock s) (issued s) (begun s ++ [p]) (ended s) (ttl s).
Definition add_ended (p : Payload) (s : store) : store :=
  mkStore (records s) (logs s) (index s) (published s) (enqueued s) (lock s) (issued s) (begun s) (ended s ++ [p]) (ttl s).
Definition drop_record (id : string) (s : store) : store :=
  mkStore (delete id (records s)) (delete id (logs s)) (index s) (published s) (enqueued s) (lock s) (issued s) (begun s) (ended s) (ttl s).

(** ** What the services document

    An error does not say whether the command was carried out. Nothing is said of what the queue tells of its
    tasks, nor of the engine. *)

Definition effect (r : option string) (s after s' : store) : Prop :=
  match r with None => s' = after | Some _ => s' = s ∨ s' = after end.
Definition reading {A} (r : A + string) (value : A) : Prop := match r with inl a => a = value | inr _ => True end.

Definition release (token : string) (s : store) : store := if decide (lock s = Some token) then set_lock None 0 s else s.
Definition renew (token : string) (ms : Z) (s : store) : store := if decide (lock s = Some token) then set_lock (lock s) ms s else s.

(** Time passes: a key that has no milliseconds left is gone. *)
Definition elapse (ms : N) (s : store) : store :=
  match lock s with
  | Some token => if (Z.of_N ms <? ttl s)%Z then set_lock (Some token) (ttl s - Z.of_N ms) s else set_lock None 0 s
  | None => s
  end.

Definition documented {B} (c : cmd B) : B → store → store → Prop :=
  match c in cmd B return B → store → store → Prop with
  | NewID => λ id s s', id ∉ issued s ∧ s' = issue id s
  | Now => λ _ s s', s' = s
  | SaveJob j => λ r s s', effect r s (put j s) s'
  | GetRecord id => λ r s s', s' = s ∧ match r with inl j => records s !! id = Some j | inr _ => True end
  | MGetRecords ids => λ r s s', s' = s ∧ reading r (map (λ id, records s !! id) ids)
  | ZAdd score id => λ r s s', effect r s (set_index (<[id := score]> (index s)) s) s'
  | ZRange start stop => λ r s s', s' = s ∧ reading r (zrange (by_age (index s)) start stop)
  | ZRevRange start stop => λ r s s', s' = s ∧ reading r (zrange (rev (by_age (index s))) start stop)
  | DelJobs ids => λ r s s', effect r s (delete_jobs ids s) s'
  | RPush id m => λ r s s', effect r s (push_log id m s) s'
  | LRange id => λ r s s', s' = s ∧ reading r (default [] (logs s !! id))
  | SetNX token => λ r s s',
      match r with
      | inl true => lock s = None ∧ s' = set_lock (Some token) lockTTL s
      | inl false => is_Some (lock s) ∧ s' = s
      | inr _ => s' = s ∨ (lock s = None ∧ s' = set_lock (Some token) lockTTL s)
      end
  | DelIfEq token => λ r s s', effect r s (release token s) s'
  | PExpireIfEq token ms => λ r s s', effect r s (renew token ms s) s'
  | Enqueue p => λ r s s', effect r s (add_task p s) s'
  | GetTaskInfo _ => λ _ s s', s' = s
  | ListTasks _ _ => λ _ s s', s' = s
  | Begin p => λ _ s s', s' = add_begun p s
  | Finish p => λ _ s s', s' = add_ended p s
  end.

(** A service: what performing a command gives and leaves, and what the passing of time and expiries leave. *)
Class Service (S : Type) := {
  perform : ∀ B, cmd B → S → B * S;
  view : S → store;
  pass : N → S → S;
  expire_record : string → S → S;
  perform_documented : ∀ B (c : cmd B) s, documented c (fst (perform B c s)) (view s) (view (snd (perform B c s)));
  pass_view : ∀ ms s, view (pass ms s) = elapse ms (view s);
  expire_record_view : ∀ id s, view (expire_record id s) = drop_record id (view s)
}.
Arguments perform {S _ B}.

(** ** The server

    A thread is a function that runs: what is left of it, the lock it has, and the action it is about. Its
    result stays where it ran. *)

Inductive outcome :=
  | OJob (r : Job + string) | OJobs (r : list Job + string) | ODone | OTask (r : option string).

Record thread := mkThread { code : prog outcome; holds : option string; works_on : option Payload }.

Inductive call :=
  | CSubmit (p : Payload)
  | CGet (id : string)
  | CList (pages : nat)
  | CPublicList (pages : nat)
  | CPage
  | CReconcile
  | CTask (polls n : nat).  (* the queue delivers the task enqueued as the [n]th *)

(** The lock and the action a thread has after a command. *)
Definition held {B} (c : cmd B) : B → option string → option string :=
  match c in cmd B return B → option string → option string with
  | SetNX token => λ r h, match r with inl true => Some token | _ => h end
  | DelIfEq _ => λ _ _, None
  | _ => λ _ h, h
  end.
Definition working {B} (c : cmd B) (w : option Payload) : option Payload :=
  match c with Begin p => Some p | Finish _ => None | _ => w end.

Section server.
Context (time_text log_time : Z → string) (time_of : string → Z) (quoted : string → string).
Context {S : Type} `{!Service S}.

Record server := mkServer { service : S; threads : list (option thread) }.

Definition call_code (c : call) (s : S) : option (prog outcome) :=
  match c with
  | CSubmit p => Some (r ← Submit time_text p; Ret (OJob r))
  | CGet id => Some (r ← Get time_text log_time id; Ret (OJob r))
  | CList pages => Some (r ← List time_text log_time pages; Ret (OJobs r))
  | CPublicList pages => Some (r ← PublicList time_text log_time pages; Ret (OJobs r))
  | CPage => Some (r ← page_jobs time_text log_time; Ret (OJobs r))
  | CReconcile => Some (_ ← reconcileOrphans time_text log_time time_of; Ret ODone)
  | CTask polls n => (λ p, r ← ProcessTask time_text log_time quoted polls p; Ret (OTask r)) <$> enqueued (view s) !! n
  end.

Inductive event :=
  | Spawn (c : call)
  | Advance (i : nat)
  | Kill (i : nat)  (* its process ends, or its request is given up *)
  | Renew (i : nat)  (* the ticker of [keepAlive] *)
  | Pass (ms : N)
  | RecordExpires (id : string).

Definition held_by_live (ts : list (option thread)) (token : string) : bool :=
  existsb (λ t, match t with Some t => bool_decide (holds t = Some token) | None => false end) ts.

(** One command of a thread. *)
Definition advance (t : thread) (s : S) : thread * S :=
  match code t with
  | Ret _ => (t, s)
  | Do c k => let '(r, s') := perform c s in (mkThread (k r) (held c r (holds t)) (working c (works_on t)), s')
  end.

(** All the commands of a program at once. *)
Fixpoint carry_out {A} (p : prog A) (s : S) : S :=
  match p with Ret _ => s | Do c k => let '(r, s') := perform c s in carry_out (k r) s' end.

(** The lock of a thread is renewed now and then while the thread lives; it lapses when its time is over, whether its
    thread lives or not. Of the records only private ones expire. *)
Definition step (w : server) (e : event) : server * list unit :=
  (match e with
   | Spawn c =>
       match call_code c (service w) with
       | Some p => mkServer (service w) (threads w ++ [Some (mkThread p None None)])
       | None => w
       end
   | Advance i =>
       match threads w !! i with
       | Some (Some t) => let '(t', s') := advance t (service w) in mkServer s' (<[i := Some t']> (threads w))
       | _ => w
       end
   | Kill i => mkServer (service w) (<[i := None]> (threads w))
   | Renew i =>
       match threads w !! i with
       | Some (Some t) =>
           match holds t with
           | Some token => mkServer (carry_out (keepAlive token) (service w)) (threads w)
           | None => w
           end
       | _ => w
       end
   | Pass ms => mkServer (pass ms (service w)) (threads w)
   | RecordExpires id =>
       match records (view (service w)) !! id with
       | Some j => if Private j then mkServer (expire_record id (service w)) (threads w) else w
       | None => w
       end
   end, []).

(** No time passes over the end of the lock of a thread that lives: since it was taken, or renewed with success, less
    than [lockTTL] has passed. *)
Fixpoint renewed_in_time (w : server) (es : list event) : bool :=
  match es with
  | [] => true
  | e :: es =>
      match e with
      | Pass ms =>
          match lock (view (service w)) with
          | Some token => negb (held_by_live (threads w) token) || (Z.of_N ms <? ttl (view (service w)))%Z
          | None => true
          end
      | _ => true
      end && renewed_in_time (step w e).1 es
  end.

(** What the engine is doing. *)
Definition in_progress (w : server) : list Payload :=
  omap (λ t, t ≫= works_on) (threads w).
End server.
Arguments server : clear implicits.

(** ** A service in memory

    It answers every command, makes identifiers longer than all before, counts instants, and does what an
    engine does that is given as two functions; a third says what the queue knows of a task. *)

Section memory.
Context (engine_log : Payload → list string) (engine : Payload → string * option string) (tasks : string → task_info).

Record memory := mkMemory { content : store; ticks : Z }.

Definition on_content (f : store → store) (m : memory) : memory := mkMemory (f (content m)) (ticks m).

Definition mem_perform B (c : cmd B) (m : memory) : B * memory :=
  let s := content m in
  match c in cmd B return B * memory with
  | NewID => (fresh_id (issued s), on_content (issue (fresh_id (issued s))) m)
  | Now => (ticks m, mkMemory s (ticks m + 1))
  | SaveJob j => (None, on_content (put j) m)
  | GetRecord id => (match records s !! id with Some j => inl j | None => inr "redis: nil" end, m)
  | MGetRecords ids => (inl (map (λ id, records s !! id) ids), m)
  | ZAdd score id => (None, on_content (λ s, set_index (<[id := score]> (index s)) s) m)
  | ZRange start stop => (inl (zrange (by_age (index s)) start stop), m)
  | ZRevRange start stop => (inl (zrange (rev (by_age (index s))) start stop), m)
  | DelJobs ids => (None, on_content (delete_jobs ids) m)
  | RPush id msg => (None, on_content (push_log id msg) m)
  | LRange id => (inl (default [] (logs s !! id)), m)
  | SetNX token =>
      match lock s with
      | None => (inl true, on_content (set_lock (Some token) lockTTL) m)
      | Some _ => (inl false, m)
      end
  | DelIfEq token => (None, on_content (release token) m)
  | PExpireIfEq token ms => (None, on_content (renew token ms) m)
  | Enqueue p => (None, on_content (add_task p) m)
  | GetTaskInfo id => (tasks id, m)
  | ListTasks _ _ => (inl None, m)
  | Begin p => (engine_log p, on_content (add_begun p) m)
  | Finish p => (engine p, on_content (add_ended p) m)
  end.

#[export, program] Instance memory_service : Service memory := {
  perform := mem_perform;
  view := content;
  pass ms := on_content (elapse ms);
  expire_record id := on_content (drop_record id)
}.
Next Obligation.
  intros B c s. destruct c; cbn; try done.
  - split; [apply fresh_id_fresh|done].
  - by destruct (records _ !! id) eqn:E.
  - by destruct (lock _) eqn:E.
Qed.
Next Obligation. done. Qed.
Next Obligation. done. Qed.
End memory.
