(* ===== verification/JobSafety.v ===== *)
(** * The safety of the queue

    A small program logic for the functions of [JobQueue]: what a function knows of the services from the
    answers it had, which commands it may issue knowing that, and weakest preconditions over the two. Every
    function of the source keeps to it, so whatever runs at once, an action is executed once. *)

From S2P Require Import Prelude JsString Json Types Activity JobQueue JobService.
Local Open Scope string_scope.

(** ** Knowledge *)

(** [own]: an identifier no job has yet; [seen]: the actions of jobs that were published; [locked]: the token
    of its lock; [fresh]: a job that was never begun; [marked]: one whose record says so; [running]: the
    action begun; [task]: what it was delivered. *)
Record knows := mkKnows {
  own : option string; seen : gset (string * string); locked : option string; fresh : option string;
  marked : option string; running : option Payload; task : option Payload
}.

Definition with_own o (K : knows) : knows := mkKnows o (seen K) (locked K) (fresh K) (marked K) (running K) (task K).
Definition see id a (K : knows) : knows := mkKnows (own K) ({[(id, a)]} ∪ seen K) (locked K) (fresh K) (marked K) (running K) (task K).
Definition with_lock l (K : knows) : knows := mkKnows (own K) (seen K) l None None (running K) (task K).
Definition with_fresh f (K : knows) : knows := mkKnows (own K) (seen K) (locked K) f None (running K) (task K).
Definition with_marked m (K : knows) : knows := mkKnows (own K) (seen K) (locked K) None m (running K) (task K).
Definition with_running r (K : knows) : knows := mkKnows (own K) (seen K) (locked K) None None r (task K).

(** A record no worker takes up: it is settled, or it has been started. *)
Definition untakeable (j : Job) : bool := terminal (job_state j) || bool_decide (is_Some (job_started_at j)).

Definition see_all (l : list (option Job)) (K : knows) : knows :=
  foldr (λ v K, match v with Some j => see (job_id j) (job_action j) K | None => K end) K l.

Definition learn {B} (K : knows) (c : cmd B) : B → knows :=
  match c in cmd B return B → knows with
  | NewID => λ id, with_own (Some id) K
  | SaveJob j => λ r,
      let K' := with_own None K in
      match r with
      | Some _ => with_fresh None K'
      | None => see (job_id j) (job_action j) (if state_eqb (job_state j) Running then with_marked (Some (job_id j)) K' else with_fresh None K')
      end
  | GetRecord id => λ r,
      match r with
      | inl j => see id (job_action j) (if untakeable j then with_fresh None K else if locked K then with_fresh (Some id) K else K)
      | inr _ => K
      end
  | MGetRecords ids => λ r, match r with inl l => see_all l K | inr _ => K end
  | SetNX token => λ r, match r with inl true => with_lock (Some token) K | _ => K end
  | DelIfEq _ => λ _, with_lock None K
  | Begin p => λ _, with_running (Some p) K
  | Finish _ => λ _, with_running None K
  | _ => λ _, K
  end.

Definition allowed {B} (K : knows) (c : cmd B) : Prop :=
  match c with
  | SaveJob j =>
      (terminal (job_state j) = true ∧ (job_id j, job_action j) ∈ seen K) ∨
      (job_state j = Pending ∧ own K = Some (job_id j)) ∨
      (job_state j = Running ∧ is_Some (job_started_at j) ∧ is_Some (locked K) ∧ fresh K = Some (job_id j) ∧
       (job_id j, job_action j) ∈ seen K)
  | ZAdd _ id => ∃ a, (id, a) ∈ seen K ∧ a ≠ "vm.screenshot"
  | SetNX _ => locked K = None
  | DelIfEq token => locked K = Some token ∧ running K = None
  | Begin p => is_Some (locked K) ∧ marked K = Some (p_id p) ∧ task K = Some p ∧ running K = None
  | Finish p => running K = Some p
  | _ => True
  end.

(** A record is kept under the id it has. *)
Definition plausible {B} (c : cmd B) : B → Prop :=
  match c in cmd B return B → Prop with
  | GetRecord id => λ r, match r with inl j => job_id j = id | inr _ => True end
  | _ => λ _, True
  end.

Fixpoint wp {A} (p : prog A) (K : knows) (Q : A → knows → Prop) : Prop :=
  match p with
  | Ret a => Q a K
  | Do c k => allowed K c ∧ ∀ r, plausible c r → wp (k r) (learn K c r) Q
  end.

Lemma wp_mono {A} (p : prog A) K (Q Q' : A → knows → Prop) : (∀ a K, Q a K → Q' a K) → wp p K Q → wp p K Q'.
Proof.
  intros H. revert K. induction p as [a|B c k IH]; intros K; cbn; [apply H|]. intros [Ha Hk]. split; [done|].
  intros r Hr. by apply IH, Hk.
Qed.

Lemma wp_bind {A B} (f : A → prog B) (p : prog A) K Q : wp p K (λ a K, wp (f a) K Q) → wp (prog_bind f p) K Q.
Proof.
  revert K. induction p as [a|C c k IH]; intros K; cbn; [done|]. intros [Ha Hk]. split; [done|].
  intros r Hr. by apply IH, Hk.
Qed.

(** ** What knowledge means *)

Notation pub_ids s := (job_id <$> published s).
Notation begun_ids s := (p_id <$> begun s).

(** Whether no lock lapses under a thread that lives; without that, what rests on the lock is not claimed. *)
Section meaning.
Context (intact : Prop).

Record facts (K : knows) (s : store) : Prop := {
  f_own id : own K = Some id → id ∈ issued s ∧ id ∉ pub_ids s;
  f_seen id a : (id, a) ∈ seen K → ∃ j, j ∈ published s ∧ job_id j = id ∧ job_action j = a;
  f_locked t : intact → locked K = Some t → lock s = Some t;
  f_fresh id : fresh K = Some id → is_Some (locked K) ∧ (intact → id ∉ begun_ids s);
  f_marked id : marked K = Some id →
    is_Some (locked K) ∧ id ∈ pub_ids s ∧ (intact → id ∉ begun_ids s ∧ ∀ j, records s !! id = Some j → untakeable j = true);
  f_running : is_Some (running K) → is_Some (locked K);
  f_task p : task K = Some p → p ∈ enqueued s
}.

Record store_ok (s : store) : Prop := {
  so_record id j : records s !! id = Some j → job_id j = id ∧ j ∈ published s;
  so_action j j' : j ∈ published s → j' ∈ published s → job_id j = job_id j' → job_action j = job_action j';
  so_issued j : j ∈ published s → job_id j ∈ issued s;
  so_index id : is_Some (index s !! id) → ∃ j, j ∈ published s ∧ job_id j = id ∧ Private j = false;
  so_once : intact → NoDup (begun_ids s);
  so_begun p : p ∈ begun s → p ∈ enqueued s ∧ p_id p ∈ pub_ids s ∧ (intact → ∀ j, records s !! p_id p = Some j → untakeable j = true)
}.

(** Two functions have neither an identifier nor the lock in common. *)
Definition compat (K K' : knows) : Prop :=
  (∀ id, own K = Some id → own K' ≠ Some id) ∧ (intact → is_Some (locked K) → locked K' = None).

Lemma compat_sym K K' : compat K K' → compat K' K.
Proof.
  intros [H1 H2]. split; [intros id H H'; by apply (H1 id)|]. intros Hi [t Ht].
  destruct (locked K); [|done]. by rewrite H2 in Ht.
Qed.

(** *** Small steps of knowledge *)

Lemma facts_own K s o : facts K s → (∀ id, o = Some id → id ∈ issued s ∧ id ∉ pub_ids s) → facts (with_own o K) s.
Proof. intros [] ?. by split. Qed.
Lemma facts_see K s id a : facts K s → (∃ j, j ∈ published s ∧ job_id j = id ∧ job_action j = a) → facts (see id a K) s.
Proof.
  intros [] Hj. split; try done. cbn [seen see]. intros id' a' [[= -> ->]%elem_of_singleton|?]%elem_of_union; auto.
Qed.
Lemma facts_fresh K s f : facts K s → (∀ id, f = Some id → is_Some (locked K) ∧ (intact → id ∉ begun_ids s)) → facts (with_fresh f K) s.
Proof. intros [] ?. by split. Qed.
Lemma facts_marked K s m : facts K s →
  (∀ id, m = Some id →
    is_Some (locked K) ∧ id ∈ pub_ids s ∧ (intact → id ∉ begun_ids s ∧ ∀ j, records s !! id = Some j → untakeable j = true)) →
  facts (with_marked m K) s.
Proof. intros [] ?. by split. Qed.

Lemma facts_see_all K s ids : facts K s → store_ok s → facts (see_all (map (λ id, records s !! id) ids) K) s.
Proof.
  intros HK Hs. induction ids as [|id ids IH]; [done|]. cbn [map see_all foldr].
  destruct (records s !! id) as [j|] eqn:E; [|exact IH]. apply facts_see; [exact IH|].
  destruct (so_record _ Hs _ _ E). by exists j.
Qed.

(** What nobody published or began stays as it was. *)
Record grows (s s' : store) : Prop := {
  g_published : published s `prefix_of` published s';
  g_enqueued p : p ∈ enqueued s → p ∈ enqueued s';
  g_issued : issued s ⊆ issued s'
}.

Lemma grows_pub s s' j : grows s s' → j ∈ published s → j ∈ published s'.
Proof. intros [[k ->]] ?. apply elem_of_app. by left. Qed.
Lemma grows_pub_ids s s' id : grows s s' → id ∈ pub_ids s → id ∈ pub_ids s'.
Proof. intros Hg (j & -> & Hj)%list_elem_of_fmap. apply list_elem_of_fmap. exists j. eauto using grows_pub. Qed.

(** How knowledge survives a step: the identifier is not published, the lock not taken away, nothing it is
    about begun, and its record not made one to take up. *)
Lemma facts_survive K s s' : facts K s → grows s s' →
  (∀ id, own K = Some id → id ∈ pub_ids s' → id ∈ pub_ids s) →
  (intact → ∀ t, locked K = Some t → lock s' = lock s) →
  (intact → ∀ id, id ∈ begun_ids s' → id ∈ begun_ids s ∨ (fresh K ≠ Some id ∧ marked K ≠ Some id)) →
  (∀ id j, marked K = Some id → records s' !! id = Some j → records s !! id = Some j ∨ untakeable j = true) →
  facts K s'.
Proof.
  intros [] Hg Hown Hlock Hbegun Hrec. split.
  - intros id Hid. destruct (f_own0 id Hid). split; [by apply (g_issued _ _ Hg)|eauto].
  - intros id a Ha. destruct (f_seen0 id a Ha) as (j & ? & ? & ?). exists j. eauto using grows_pub.
  - intros t Hi Ht. rewrite (Hlock Hi t Ht). auto.
  - intros id Hid. destruct (f_fresh0 id Hid) as [? Hn]. split; [done|]. intros Hi [?|[? ?]]%(Hbegun Hi); [by apply Hn|done].
  - intros id Hid. destruct (f_marked0 id Hid) as (Hl & Hp & Hr). split_and!; [done|eauto using grows_pub_ids|]. intros Hi.
    destruct (Hr Hi) as [Hn Hu]. split; [by intros [?|[? ?]]%(Hbegun Hi)|]. intros j Hj. destruct (Hrec id j Hid Hj); eauto.
  - done.
  - intros p Hp. apply (g_enqueued _ _ Hg). auto.
Qed.

(** ** Keeping the store well formed *)

Lemma elem_of_snoc {A} (x y : A) l : x ∈ (l ++ [y])%list ↔ x ∈ l ∨ x = y.
Proof. by rewrite elem_of_app, list_elem_of_singleton. Qed.

Lemma store_ok_frame s s' : store_ok s → records s' ⊆ records s → published s' = published s →
  (∀ id, is_Some (index s' !! id) → is_Some (index s !! id)) →
  begun s' = begun s → issued s ⊆ issued s' → (∀ p, p ∈ enqueued s → p ∈ enqueued s') → store_ok s'.
Proof.
  intros [] Hr Hp Hi Hb Hu He. split; rewrite ?Hp, ?Hb; try done.
  - intros id j Hj. by apply so_record0, (lookup_weaken _ _ _ _ Hj).
  - intros j Hj. auto.
  - auto.
  - intros p Hpb. destruct (so_begun0 p Hpb) as (? & ? & Hrec). split_and!; [auto|done|].
    intros Hin j Hj. by apply (Hrec Hin), (lookup_weaken _ _ _ _ Hj).
Qed.

Lemma store_ok_put j s : store_ok s → job_id j ∈ issued s →
  (∀ j', j' ∈ published s → job_id j' = job_id j → job_action j' = job_action j) →
  (intact → job_id j ∈ begun_ids s → untakeable j = true) → store_ok (put j s).
Proof.
  intros [] Hi Ha Hu. split; cbn [put records published issued index begun enqueued].
  - intros id j' [[<- <-]|[_ Hj']]%lookup_insert_Some; rewrite elem_of_app, list_elem_of_singleton; [auto|].
    destruct (so_record0 _ _ Hj'). auto.
  - intros j1 j2 [H1| ->]%elem_of_snoc [H2| ->]%elem_of_snoc E; eauto using eq_sym.
  - intros j' [| ->]%elem_of_snoc; auto.
  - intros id Hid. destruct (so_index0 id Hid) as (j' & ? & ? & ?). exists j'. rewrite elem_of_app. auto.
  - done.
  - intros p Hp. destruct (so_begun0 p Hp) as (? & ? & Hr). split_and!; [done| |].
    + rewrite fmap_app, elem_of_app. auto.
    + intros Hin j' [[E <-]|[_ ?]]%lookup_insert_Some; [|auto]. apply (Hu Hin). rewrite E. by apply list_elem_of_fmap_2.
Qed.

Lemma store_ok_begun p s : store_ok s → p ∈ enqueued s → p_id p ∈ pub_ids s →
  (intact → p_id p ∉ begun_ids s ∧ ∀ j, records s !! p_id p = Some j → untakeable j = true) → store_ok (add_begun p s).
Proof.
  intros [] He Hp Hr. split; cbn [add_begun records published issued index begun enqueued]; try done.
  - intros Hi. destruct (Hr Hi) as [Hn _]. rewrite fmap_app. apply NoDup_app. split_and!; [by apply so_once0| |apply NoDup_singleton].
    cbn. intros x Hx ->%list_elem_of_singleton. done.
  - intros q [| ->]%elem_of_snoc; [auto|]. split_and!; [done|done|apply Hr].
Qed.

Lemma store_ok_index id z s j : store_ok s → j ∈ published s → job_id j = id → Private j = false →
  store_ok (set_index (<[id := z]> (index s)) s).
Proof.
  intros [] Hj Hid Hp. split; try done. cbn [set_index index published]. intros id' [z' Hz].
  apply lookup_insert_Some in Hz as [[<- _]|[_ Hz]]; eauto.
Qed.

Lemma foldr_delete_subseteq {A} (m : gmap string A) ids : foldr delete m ids ⊆ m.
Proof. induction ids as [|id ids IH]; [done|]. cbn. etrans; [apply delete_subseteq|done]. Qed.

Lemma store_ok_delete ids s : store_ok s → store_ok (delete_jobs ids s).
Proof.
  intros Hs. apply (store_ok_frame s); try done; cbn [delete_jobs records index].
  - apply foldr_delete_subseteq.
  - intros id [z Hz]. exists z. by apply (lookup_weaken _ _ _ _ Hz), foldr_delete_subseteq.
Qed.

(** ** Soundness *)

Lemma grows_refl s : grows s s.
Proof. by split. Qed.
Lemma grows_put j s : grows s (put j s).
Proof. split; [by apply prefix_app_r|done|done]. Qed.
Lemma grows_same s s' : published s' = published s → (∀ p, p ∈ enqueued s → p ∈ enqueued s') → issued s ⊆ issued s' → grows s s'.
Proof. intros E ? ?. split; [by rewrite E|done|done]. Qed.

(** The part of a command that changes the store. *)
Lemma documented_grows {B} (c : cmd B) r s s' : documented c r s s' → grows s s'.
Proof.
  destruct c; cbn [documented]; try (intros (_ & ->) || intros (-> & _) || intros ->); try (by apply grows_refl); try (by apply grows_same);
    try (destruct r; cbn [effect]; intros; destruct_or?; subst; by first [apply grows_refl|apply grows_put|apply grows_same]).
  - apply grows_same; [done|done|]. cbn. set_solver.
  - destruct r as [[]|]; [intros [_ ->]|intros [_ ->]|intros [->|[_ ->]]]; by apply grows_same.
  - destruct r; cbn [effect]; intros; destruct_or?; subst; unfold release; try case_decide; by apply grows_same.
  - destruct r; cbn [effect]; intros; destruct_or?; subst; unfold renew; try case_decide; by apply grows_same.
  - destruct r; cbn [effect]; intros; destruct_or?; subst; apply grows_same; try done; cbn; intros; apply elem_of_app; by left.
Qed.

Lemma pub_ids_elem s j : j ∈ published s → job_id j ∈ pub_ids s.
Proof. apply list_elem_of_fmap_2. Qed.

Lemma seen_pub K s id a : facts K s → (id, a) ∈ seen K → id ∈ pub_ids s.
Proof. intros HK H. destruct (f_seen _ _ HK _ _ H) as (j & ? & <- & _). by apply pub_ids_elem. Qed.

Lemma begun_takeable s id j : intact → store_ok s → records s !! id = Some j → untakeable j = false → id ∉ begun_ids s.
Proof.
  intros Hi Hs Hj Hu (p & -> & Hp)%list_elem_of_fmap. destruct (so_begun _ Hs p Hp) as (_ & _ & Hr).
  rewrite (Hr Hi j Hj) in Hu. done.
Qed.

(** A save that is allowed leaves the store well formed. *)
Lemma save_ok K s j : store_ok s → facts K s → allowed K (SaveJob j) → store_ok (put j s).
Proof.
  intros Hs HK [[Ht Ha]|[[Hp Ho]|(Hr & Hst & _ & Hf & Ha)]].
  - destruct (f_seen _ _ HK _ _ Ha) as (j0 & Hj0 & E & Ea). apply store_ok_put; [done| | |].
    + rewrite <- E. by apply (so_issued _ Hs).
    + intros j' Hj' E'. rewrite <- Ea. apply (so_action _ Hs); [done|done|congruence].
    + intros _ _. unfold untakeable. by rewrite Ht.
  - destruct (f_own _ _ HK _ Ho) as [Hi Hn]. apply store_ok_put; [done|done| |].
    + intros j' Hj' E. destruct Hn. rewrite <- E. by apply pub_ids_elem.
    + intros _ (p & Ep & Hpb)%list_elem_of_fmap. destruct Hn. rewrite Ep. by apply (so_begun _ Hs).
  - destruct (f_seen _ _ HK _ _ Ha) as (j0 & Hj0 & E & Ea). apply store_ok_put; [done| | |].
    + rewrite <- E. by apply (so_issued _ Hs).
    + intros j' Hj' E'. rewrite <- Ea. apply (so_action _ Hs); [done|done|congruence].
    + intros _ _. unfold untakeable. rewrite (bool_decide_eq_true_2 _ Hst). by apply orb_true_r.
Qed.

Lemma store_ok_step {B} K (c : cmd B) r s s' : store_ok s → facts K s → allowed K c → documented c r s s' → store_ok s'.
Proof.
  intros Hs HK Ha. destruct c; cbn [documented]; try (intros (_ & ->) || intros (-> & _) || intros ->); try done;
    try (match goal with |- effect ?r _ _ _ → _ => destruct r end; cbn [effect]; intros; destruct_or?; subst; try done).
  - apply (store_ok_frame s); try done. cbn. set_solver.
  - by apply (save_ok K).
  - by apply (save_ok K).
  - destruct Ha as (a & Hse & Hpriv). destruct (f_seen _ _ HK _ _ Hse) as (j & ? & ? & ?). apply (store_ok_index _ _ _ j); try done.
    unfold Private. by apply String.eqb_neq; subst a.
  - destruct Ha as (a & Hse & Hpriv). destruct (f_seen _ _ HK _ _ Hse) as (j & ? & ? & ?). apply (store_ok_index _ _ _ j); try done.
    unfold Private. by apply String.eqb_neq; subst a.
  - by apply store_ok_delete.
  - by apply store_ok_delete.
  - by apply (store_ok_frame s).
  - by apply (store_ok_frame s).
  - destruct r as [[]|]; [intros [_ ->]|intros [_ ->]|intros [->|[_ ->]]]; try done; by apply (store_ok_frame s).
  - unfold release. case_decide; [by apply (store_ok_frame s)|done].
  - unfold release. case_decide; [by apply (store_ok_frame s)|done].
  - unfold renew. case_decide; [by apply (store_ok_frame s)|done].
  - unfold renew. case_decide; [by apply (store_ok_frame s)|done].
  - apply (store_ok_frame s); try done. cbn. intros. apply elem_of_app. by left.
  - apply (store_ok_frame s); try done. cbn. intros. apply elem_of_app. by left.
  - destruct Ha as (Hl & Hm & Ht & Hrun). destruct (f_marked _ _ HK _ Hm) as (? & ? & ?).
    apply store_ok_begun; try done. by apply (f_task _ _ HK).
  - by apply (store_ok_frame s).
Qed.

Lemma plausible_step {B} (c : cmd B) r s s' : store_ok s → documented c r s s' → plausible c r.
Proof.
  intros Hs. destruct c; cbn; try done. intros [-> Hr]. destruct r as [j|]; [|done]. by apply (so_record _ Hs) in Hr as [? _].
Qed.

Lemma facts_frame K s s' : facts K s → records s' ⊆ records s → published s' = published s →
  (∀ p, p ∈ enqueued s → p ∈ enqueued s') → issued s ⊆ issued s' → begun s' = begun s →
  (intact → ∀ t, locked K = Some t → lock s' = lock s) → facts K s'.
Proof.
  intros HK Hr Hp He Hi Hb Hl. apply (facts_survive K s); rewrite ?Hp, ?Hb; try done; [by apply grows_same|auto|].
  intros id j _ Hj. left. by apply (lookup_weaken _ _ _ _ Hj).
Qed.

Lemma facts_renew K s token ms : facts K s → facts K (renew token ms s).
Proof. intros HK. unfold renew. case_decide; [by apply (facts_frame _ s)|done]. Qed.

(** Knowledge that forgets its marks, or its identifier. *)
Lemma facts_forget K s : facts K s → facts (with_fresh None K) s.
Proof. intros HK. by apply facts_fresh. Qed.
Lemma facts_disown K s : facts K s → facts (with_own None K) s.
Proof. intros HK. by apply facts_own. Qed.

Lemma facts_put K s j : facts K s → facts (with_fresh None (with_own None K)) (put j s).
Proof.
  intros HK. apply (facts_survive _ s); try done; [by apply facts_forget, facts_disown|apply grows_put|auto].
Qed.

Lemma pub_ids_put j s : job_id j ∈ pub_ids (put j s).
Proof. cbn [published put]. rewrite fmap_app, elem_of_app. right. by apply list_elem_of_singleton. Qed.

Lemma facts_saved K s j : facts K s → allowed K (SaveJob j) → facts (learn K (SaveJob j) None) (put j s).
Proof.
  intros HK Ha. cbn [learn]. apply facts_see; [|exists j; split_and!; [cbn; rewrite elem_of_snoc; by right|done|done]].
  destruct (state_eqb (job_state j) Running) eqn:E; [|by apply facts_put].
  apply bool_decide_eq_true in E. destruct Ha as [[Ht _]|[[Hp _]|(_ & Hst & Hl & Hf & _)]]; [by rewrite E in Ht|congruence|].
  change (with_marked (Some (job_id j)) (with_own None K)) with (with_marked (Some (job_id j)) (with_fresh None (with_own None K))).
  apply facts_marked; [by apply facts_put|]. intros id [= <-]. destruct (f_fresh _ _ HK _ Hf) as [_ Hn]. split_and!; [done|apply pub_ids_put|].
  intros Hi. split; [by apply Hn|]. intros j'. cbn [put records]. rewrite lookup_insert_eq. intros [= <-]. unfold untakeable. rewrite (bool_decide_eq_true_2 _ Hst). apply orb_true_r.
Qed.

Lemma facts_see_record K s id j : store_ok s → facts K s → records s !! id = Some j → facts (learn K (GetRecord id) (inl j)) s.
Proof.
  intros Hs HK Hj. destruct (so_record _ Hs _ _ Hj) as [E Hp]. cbn [learn]. apply facts_see; [|by exists j].
  destruct (untakeable j) eqn:Hu; [by apply facts_forget|]. destruct (locked K) as [t|] eqn:Hl; [|done].
  apply facts_fresh; [done|]. intros id' [= <-]. rewrite Hl. split; [done|]. intros Hi. by apply (begun_takeable _ _ j).
Qed.

Lemma facts_begin K s p : facts K s → is_Some (locked K) → facts (with_running (Some p) K) (add_begun p s).
Proof.
  intros [] Hl. split; try done.
Qed.

(** The thread that issues a command knows what it learns. *)
Lemma facts_step {B} K (c : cmd B) r s s' : store_ok s → facts K s → allowed K c → documented c r s s' → facts (learn K c r) s'.
Proof.
  intros Hs HK Ha. destruct c; cbn [documented]; try (intros -> ; exact HK); try (intros [-> _]; exact HK).
  - intros [Hid ->]. apply facts_own; [apply (facts_frame _ s); try done; cbn; set_solver|]. intros id [= <-].
    split; [cbn; set_solver|]. intros (j & -> & Hj)%list_elem_of_fmap. apply Hid. by apply (so_issued _ Hs).
  - destruct r as [e|]; cbn [effect].
    + intros [->| ->]; [by apply facts_forget, facts_disown|by apply facts_put].
    + intros ->. by apply facts_saved.
  - intros [-> Hr]. destruct r as [j|]; [|done]. by apply facts_see_record.
  - intros [-> Hr]. destruct r as [l|]; [|done]. cbn [reading] in Hr. subst l. by apply facts_see_all.
  - destruct r; cbn [effect]; intros; destruct_or?; subst; try done; by apply (facts_frame _ s).
  - destruct r; cbn [effect]; intros; destruct_or?; subst; try done; apply (facts_frame _ s); try done; apply foldr_delete_subseteq.
  - destruct r; cbn [effect]; intros; destruct_or?; subst; try done; by apply (facts_frame _ s).
  - cbn [allowed] in Ha. destruct r as [[]|]; cbn [learn].
    + intros [_ ->]. destruct HK. by split; try (intros t [= <-]).
    + by intros [_ ->].
    + intros [->|[_ ->]]; [done|]. apply (facts_frame _ s); try done. by rewrite Ha.
  - destruct Ha as [Hl Hr]. cbn [learn]. assert (facts (with_lock None K) s) as HK'.
    { destruct HK. split; try done. cbn. rewrite Hr. by intros []. }
    destruct r; cbn [effect]; intros; destruct_or?; subst; try done; unfold release; case_decide; try done; by apply (facts_frame _ s).
  - destruct r; cbn [effect]; intros; destruct_or?; subst; try done; by apply facts_renew.
  - destruct r; cbn [effect]; intros; destruct_or?; subst; try done; apply (facts_frame _ s); try done; cbn; intros; apply elem_of_app; by left.
  - intros ->. destruct Ha as (Hl & _). by apply facts_begin.
  - intros ->. assert (facts (with_running None K) s) as HK' by (destruct HK; split; try done; by intros []). by apply (facts_frame _ s).
Qed.

(** Another thread's knowledge survives. *)
Lemma facts_other {B} K K' (c : cmd B) r s s' : store_ok s → facts K s → facts K' s → compat K K' → allowed K c →
  documented c r s s' → facts K' s'.
Proof.
  intros Hs HK HK' [Hown Hlock] Ha Hd. pose proof (documented_grows c r s s' Hd) as Hg. revert Ha Hd.
  destruct c; cbn [documented]; intros Ha; try (intros -> ; exact HK'); try (intros [-> _]; exact HK').
  - intros [_ ->]. by apply (facts_survive _ s); try done; auto.
  - assert (s' = s ∨ s' = put j s → facts K' s'); [|destruct r; cbn [effect]; intros; auto]. intros [->| ->]; [done|].
    apply (facts_survive _ s); try done; [|auto|].
    + intros id Hid. cbn [put published]. rewrite fmap_app, elem_of_app. intros [|E%list_elem_of_singleton]; [done|]. subst id.
      destruct Ha as [[_ Hse]|[[_ Ho]|(_ & _ & _ & _ & Hse)]]; [by apply (seen_pub K _ _ (job_action j))| |by apply (seen_pub K _ _ (job_action j))].
      by destruct (Hown _ Ho).
    + intros id j' Hm. cbn [put records]. intros [[E <-]|[_ ?]]%lookup_insert_Some; [|by left]. right.
      destruct Ha as [[Ht _]|[[_ Ho]|(_ & Hst & _)]]; unfold untakeable; [by rewrite Ht| |by rewrite (bool_decide_eq_true_2 _ Hst), orb_true_r].
      destruct (f_marked _ _ HK' _ Hm) as (_ & Hp & _). destruct (f_own _ _ HK _ Ho) as [_ []]. by rewrite E.
  - destruct r; cbn [effect]; intros; destruct_or?; subst; try done; by apply (facts_frame _ s).
  - destruct r; cbn [effect]; intros; destruct_or?; subst; try done; apply (facts_frame _ s); try done; apply foldr_delete_subseteq.
  - destruct r; cbn [effect]; intros; destruct_or?; subst; try done; by apply (facts_frame _ s).
  - assert (lock s = None → facts K' (set_lock (Some token) lockTTL s)) as H.
    { intros Hn. apply (facts_frame _ s); try done. intros Hi t Ht. pose proof (f_locked _ _ HK' _ Hi Ht). congruence. }
    destruct r as [[]|]; [intros [? ->]|intros [_ ->]|intros [->|[? ->]]]; auto.
  - assert (facts K' (release token s)) as H.
    { unfold release. case_decide; [|done]. apply (facts_frame _ s); try done. intros Hi t Ht. destruct Ha as [Hl _].
      rewrite (Hlock Hi) in Ht by (by rewrite Hl). done. }
    destruct r; cbn [effect]; intros; destruct_or?; by subst.
  - destruct r; cbn [effect]; intros; destruct_or?; subst; try done; by apply facts_renew.
  - destruct r; cbn [effect]; intros; destruct_or?; subst; try done; apply (facts_frame _ s); try done; cbn; intros; apply elem_of_app; by left.
  - intros ->. destruct Ha as (Hl & Hm & _). apply (facts_survive _ s); try done; [|by left].
    intros Hi id. cbn [begun add_begun]. rewrite fmap_app, elem_of_app. intros [?|_]; [by left|]. right.
    specialize (Hlock Hi Hl). split; intros E.
    + destruct (f_fresh _ _ HK' _ E) as [[? ?] _]. congruence.
    + destruct (f_marked _ _ HK' _ E) as [[? ?] _]. congruence.
  - intros ->. by apply (facts_frame _ s).
Qed.

Lemma compat_less K K1 K' : compat K K' → (own K1 = own K ∨ own K1 = None) → (locked K1 = locked K ∨ locked K1 = None) → compat K1 K'.
Proof.
  intros [H1 H2] Ho Hl. split.
  - intros id E. apply H1. destruct Ho; congruence.
  - intros Hi [t E]. apply (H2 Hi). destruct Hl; [exists t|]; congruence.
Qed.

Lemma see_all_frame l K : own (see_all l K) = own K ∧ locked (see_all l K) = locked K ∧ running (see_all l K) = running K ∧ task (see_all l K) = task K.
Proof. induction l as [|[j|] l IH]; [done|exact IH|exact IH]. Qed.

Lemma compat_step {B} K K' (c : cmd B) r s s' : facts K' s → compat K K' → documented c r s s' → compat (learn K c r) K'.
Proof.
  intros HK' Hc Hd. destruct c; try exact Hc.
  - destruct Hd as [Hn _], Hc as [_ Hl]. split; [|exact Hl]. intros id [= <-] E. by destruct (f_own _ _ HK' _ E).
  - apply (compat_less K); [done| |]; cbn [learn]; destruct r; try case_match; cbn; auto.
  - apply (compat_less K); [done| |]; cbn [learn]; destruct r; repeat case_match; cbn; auto.
  - apply (compat_less K); [done| |]; cbn [learn]; destruct r; try (by left); left; apply see_all_frame.
  - destruct r as [[]|]; try exact Hc. destruct Hd as [Hn _], Hc as [Ho _]. split; [exact Ho|]. intros Hi _.
    destruct (locked K') as [t|] eqn:E; [|done]. pose proof (f_locked _ _ HK' _ Hi E). congruence.
  - apply (compat_less K); [done| |]; cbn; auto.
Qed.

(** The lock and the action in the knowledge are the thread's. *)
Lemma learn_locked {B} K (c : cmd B) r : locked (learn K c r) = held c r (locked K).
Proof. destruct c; cbn [learn held]; try done; try (destruct r; repeat case_match; try done; apply see_all_frame). Qed.
Lemma learn_running {B} K (c : cmd B) r : running (learn K c r) = working c (running K).
Proof. destruct c; cbn [learn working]; try done; try (destruct r; repeat case_match; try done; apply see_all_frame). Qed.

(** ** The invariant of the server *)

Section invariant.
Context {S : Type} `{!Service S}.

Definition live (w : server S) (i : nat) (t : thread) : Prop := threads w !! i = Some (Some t).

Record thread_ok (s : store) (t : thread) (K : knows) : Prop := {
  to_facts : facts K s;
  to_locked : locked K = holds t;
  to_running : running K = works_on t;
  to_code : wp (code t) K (λ _ _, True)
}.

Definition server_ok (w : server S) : Prop :=
  store_ok (view (service w)) ∧
  ∃ Ks : nat → knows,
    (∀ i t, live w i t → thread_ok (view (service w)) t (Ks i)) ∧
    (∀ i i' t t', live w i t → live w i' t' → i ≠ i' → compat (Ks i) (Ks i')).

(** A new thread knows nothing but its task. *)
Definition newcomer (p : option Payload) : knows := mkKnows None ∅ None None None None p.

Lemma facts_start s p : (∀ q, p = Some q → q ∈ enqueued s) → facts (newcomer p) s.
Proof. intros H. split; try done. by intros [].
Qed.

Lemma compat_start p K : compat (newcomer p) K.
Proof. split; [done|]. by intros _ []. Qed.

Lemma server_ok_spawn w p code : server_ok w → (∀ q, p = Some q → q ∈ enqueued (view (service w))) →
  wp code (newcomer p) (λ _ _, True) → server_ok (mkServer (service w) (threads w ++ [Some (mkThread code None None)])).
Proof.
  intros (Hs & Ks & Hok & Hc) Hp Hwp. split; [done|]. set (n := length (threads w)).
  exists (λ i, if decide (i = n) then newcomer p else Ks i).
  assert (∀ i t, live (mkServer (service w) (threads w ++ [Some (mkThread code None None)])) i t →
    (i ≠ n ∧ live w i t) ∨ (i = n ∧ t = mkThread code None None)) as Hlive.
  { intros i t. unfold live. cbn [threads]. intros [H|(Hi & H)]%lookup_app_Some.
    - left. split; [|done]. apply lookup_lt_Some in H. lia.
    - apply list_lookup_singleton_Some in H as [Hn [= <-]]. right. split; [lia|done]. }
  split.
  - intros i t [[Hi Hl]|[-> ->]]%Hlive; [rewrite decide_False by done; by apply Hok|].
    rewrite decide_True by done. split; [by apply facts_start|done|done|done].
  - intros i i' t t' [[Hi Hl]|[-> ->]]%Hlive [[Hi' Hl']|[-> ->]]%Hlive Hne; try done.
    + rewrite !decide_False by done. eauto.
    + rewrite decide_False, decide_True by done. apply compat_sym, compat_start.
    + rewrite decide_True, decide_False by done. apply compat_start.
Qed.

Lemma live_insert w s i t0 t' j t : live w i t0 → live (mkServer s (<[i := Some t']> (threads w))) j t → (j = i ∧ t = t') ∨ (j ≠ i ∧ live w j t).
Proof.
  unfold live. cbn [threads]. intros Hi. destruct (decide (j = i)) as [->|Hj].
  - rewrite list_lookup_insert_eq by (by apply lookup_lt_Some in Hi). intros [= <-]. by left.
  - rewrite list_lookup_insert_ne by done. auto.
Qed.

Lemma server_ok_advance w i t : server_ok w → live w i t →
  let '(t', s') := advance t (service w) in server_ok (mkServer s' (<[i := Some t']> (threads w))).
Proof.
  intros (Hs & Ks & Hok & Hc) Hi. unfold advance. destruct (Hok i t Hi) as [Hf Hl Hr Hwp].
  destruct (code t) as [a|B c k] eqn:Ecode.
  - split; [done|]. exists Ks. cbn [service threads]. rewrite <- Ecode in Hwp.
    assert (∀ j u, live (mkServer (service w) (<[i := Some t]> (threads w))) j u → live w j u) as H.
    { intros j u [[-> ->]|[_ ?]]%(live_insert _ _ _ t); done. }
    split; eauto.
  - pose proof (perform_documented B c (service w)) as Hd. destruct (perform c (service w)) as [r s'] eqn:Ep. cbn [fst snd] in Hd.
    destruct Hwp as [Ha Hk]. specialize (Hk r (plausible_step c r _ _ Hs Hd)).
    split; [by apply (store_ok_step (Ks i) c r _ _ Hs Hf Ha)|].
    exists (λ j, if decide (j = i) then learn (Ks i) c r else Ks j). cbn [service]. split.
    + intros j u [[-> ->]|[Hj Hu]]%(live_insert _ _ _ t); [| |done].
      * rewrite decide_True by done. split; cbn; [by apply (facts_step (Ks i) c r _ _ Hs)| | |done].
        -- by rewrite learn_locked, Hl.
        -- by rewrite learn_running, Hr.
      * rewrite decide_False by done. destruct (Hok j u Hu) as [? ? ? ?]. split; try done.
        apply (facts_other (Ks i) _ c r (view (service w))); eauto.
    + intros j j' u u' [[-> ->]|[Hj Hu]]%(live_insert _ _ _ t) [[-> ->]|[Hj' Hu']]%(live_insert _ _ _ t) Hne; try done.
      * rewrite decide_True, decide_False by done. apply (compat_step _ _ c r (view (service w)) (view s')); eauto. by apply (Hok _ _ Hu').
      * rewrite decide_False, decide_True by done. apply compat_sym. apply (compat_step _ _ c r (view (service w)) (view s')); eauto. by apply (Hok _ _ Hu).
      * rewrite !decide_False by done. eauto.
Qed.

Lemma server_ok_kill w i : server_ok w → server_ok (mkServer (service w) (<[i := None]> (threads w))).
Proof.
  intros (Hs & Ks & Hok & Hc). split; [done|]. exists Ks.
  assert (∀ j t, live (mkServer (service w) (<[i := None]> (threads w))) j t → live w j t) as H.
  { intros j t. unfold live. cbn [threads]. intros [(-> & [=] & _)|[_ ?]]%list_lookup_insert_Some; done. }
  split; eauto.
Qed.

(** The services lose something no thread relies on. *)
Lemma server_ok_loss w s : server_ok w → store_ok (view s) →
  (∀ i t K, live w i t → facts K (view (service w)) → locked K = holds t → facts K (view s)) →
  server_ok (mkServer s (threads w)).
Proof.
  intros (Hs & Ks & Hok & Hc) Hs' H. split; [done|]. exists Ks. split; [|eauto].
  intros i t Hi. destruct (Hok i t Hi) as [? ? ? ?]. split; eauto.
Qed.

(** What a renewal, and time, may change. *)
Lemma renewal_view token s : ∃ l ms, view (carry_out (keepAlive token) s) = set_lock l ms (view s) ∧ l = lock (view s) ∨ view (carry_out (keepAlive token) s) = view s.
Proof.
  cbn [keepAlive mbind prog_mbind prog_bind ask carry_out].
  pose proof (perform_documented _ (PExpireIfEq token lockTTL) s) as Hd.
  destruct (perform (PExpireIfEq token lockTTL) s) as [r s']. cbn [fst snd documented carry_out] in *.
  exists (lock (view s)), lockTTL.
  assert (view s' = view s ∨ view s' = renew token lockTTL (view s)) as [->| ->] by (destruct r; cbn [effect] in Hd; auto); [by right|].
  unfold renew. case_decide; auto.
Qed.
Lemma elapse_view ms s : ∃ l z, view (pass ms s) = set_lock l z (view s) ∨ view (pass ms s) = view s.
Proof. rewrite pass_view. unfold elapse. destruct (lock _); [case_match; eauto|exists None, 0%Z; auto]. Qed.

Lemma server_ok_renew w token : server_ok w → server_ok (mkServer (carry_out (keepAlive token) (service w)) (threads w)).
Proof.
  intros Hw. destruct (renewal_view token (service w)) as (l & ms & Hs). apply server_ok_loss; [done| |].
  - destruct Hs as [[-> ->]| ->]; [|apply Hw]. by apply (store_ok_frame (view (service w))); [apply Hw|..].
  - intros i t K _ HK _. destruct Hs as [[-> ->]| ->]; [by apply (facts_frame _ (view (service w)))|done].
Qed.

(** When time passes, only what lapses under a living thread matters. *)
Lemma server_ok_pass w ms : server_ok w →
  (intact → ∀ token, lock (view (service w)) = Some token → held_by_live (threads w) token = true → (Z.of_N ms < ttl (view (service w)))%Z) →
  server_ok (mkServer (pass ms (service w)) (threads w)).
Proof.
  intros Hw Hlapse. apply server_ok_loss; [done| |]; intros; rewrite pass_view; unfold elapse.
  - destruct (lock _); [|apply Hw]. case_match; by apply (store_ok_frame (view (service w))); [apply Hw|..].
  - destruct (lock (view (service w))) as [token|] eqn:El; [|done]. pose proof (λ Hi, Hlapse Hi token eq_refl) as Hlapse'.
    destruct (Z.ltb_spec (Z.of_N ms) (ttl (view (service w)))) as [Hlt|Hge]; apply (facts_frame _ (view (service w))); try done.
    intros Hi t' Ht. exfalso. pose proof (f_locked _ _ ltac:(eassumption) _ Hi Ht) as Hl. assert (t' = token) as -> by congruence.
    enough (held_by_live (threads w) token = true) as Hh by (specialize (Hlapse' Hi Hh); lia).
    apply existsb_exists. exists (Some t). split; [by apply list_elem_of_In, (list_elem_of_lookup_2 _ i)|]. apply bool_decide_eq_true. congruence.
Qed.

Lemma server_ok_record w id : server_ok w → server_ok (mkServer (expire_record id (service w)) (threads w)).
Proof.
  intros Hw. apply server_ok_loss; [done| |]; intros; rewrite expire_record_view.
  - apply (store_ok_frame (view (service w))); try done; [apply Hw|apply delete_subseteq].
  - apply (facts_frame _ (view (service w))); try done. apply delete_subseteq.
Qed.
End invariant.

End meaning.

(** ** Every function keeps to the logic *)

(** What a function that has no lock of its own leaves alone. *)
Record keeps (K K' : knows) : Prop := {
  k_locked : locked K' = locked K;
  k_running : running K' = running K;
  k_task : task K' = task K;
  k_seen : seen K ⊆ seen K'
}.

#[export] Instance keeps_preorder : PreOrder keeps.
Proof.
  split; [by split|]. intros K1 K2 K3 [] []. split; try congruence. set_solver.
Qed.

Lemma wp_ask {B} (c : cmd B) K Q : allowed K c → (∀ r, plausible c r → Q r (learn K c r)) → wp (ask c) K Q.
Proof. intros Ha HQ. split; [done|]. intros r Hr. by apply HQ. Qed.

(** A command the logic learns nothing from. *)
Lemma wp_idle {B} (c : cmd B) K (Q : B → knows → Prop) : allowed K c → (∀ r, learn K c r = K) → (∀ r, Q r K) → wp (ask c) K Q.
Proof. intros Ha Hl HQ. apply wp_ask; [done|]. intros r _. by rewrite Hl. Qed.

Lemma wp_for_all {A B} (f : A → prog B) l K (I : knows → Prop) :
  I K → (∀ a K, a ∈ l → I K → wp (f a) K (λ _ K', I K')) → wp (for_all f l) K (λ _ K', I K').
Proof.
  revert K. induction l as [|a l IH]; intros K HI Hf; [done|]. apply wp_bind. eapply wp_mono; [|apply Hf; [by left|done]].
  intros ? K' HI'. apply IH; [done|]. intros b K0 Hb. apply Hf. by right.
Qed.

Lemma wp_checked {A B} (k : A → prog (B + string)) (p : prog (A + string)) K Q :
  wp p K (λ r K', match r with inl a => wp (k a) K' Q | inr e => Q (inr e) K' end) → wp (prog_bind (checked k) p) K Q.
Proof. intros H. apply wp_bind. eapply wp_mono; [|exact H]. by intros [a|e] K'. Qed.

Lemma wp_for_each {A B} (f : A → prog (B + string)) l K (I : knows → Prop) :
  I K → (∀ a K, a ∈ l → I K → wp (f a) K (λ _ K', I K')) → wp (for_each f l) K (λ _ K', I K').
Proof.
  revert K. induction l as [|a l IH]; intros K HI Hf; [done|]. apply wp_checked. eapply wp_mono; [|apply Hf; [by left|done]].
  intros [b|e] K' HI'; [|done]. apply wp_checked. eapply wp_mono; [|apply IH; [done|]].
  - by intros [bs|e] K2.
  - intros b' K0 Hb. apply Hf. by right.
Qed.

Lemma see_seen id a K : (id, a) ∈ seen (see id a K).
Proof. cbn. set_solver. Qed.
Lemma see_mono id a K : seen K ⊆ seen (see id a K).
Proof. cbn. set_solver. Qed.
Lemma keeps_see_all K K' l : keeps K K' → keeps K (see_all l K').
Proof. intros HK. induction l as [|[j|] l IH]; [done| |done]. destruct IH. split; try done. cbn. set_solver. Qed.
Lemma keeps_see K K' id a : keeps K K' → keeps K (see id a K').
Proof. intros []. split; try done. cbn. set_solver. Qed.
Lemma keeps_fresh K K' f : keeps K K' → keeps K (with_fresh f K').
Proof. by intros []. Qed.
Lemma keeps_own K K' o : keeps K K' → keeps K (with_own o K').
Proof. by intros []. Qed.

Section functions.
Context (time_text log_time : Z → string) (time_of : string → Z) (quoted : string → string).
Notation Get := (Get time_text log_time).

Lemma wp_appendLog K id m (Q : option string → knows → Prop) : (∀ r, Q r K) → wp (appendLog log_time id m) K Q.
Proof. intros HQ. split; [done|]. intros t _. split; [done|]. intros r _. apply HQ. Qed.

(** What a caller of [Get] with the lock knows of a job it may take up. *)
Definition got (id : string) (K : knows) (r : Job + string) (K' : knows) : Prop :=
  keeps K K' ∧
  match r with
  | inl j => job_id j = id ∧ (untakeable j = false → is_Some (locked K) → fresh K' = Some (job_id j) ∧ (job_id j, job_action j) ∈ seen K')
  | inr _ => True
  end.

(** A save of a settled state. *)
Lemma wp_save_settled K K0 j (Q : option string → knows → Prop) : terminal (job_state j) = true → (job_id j, job_action j) ∈ seen K → keeps K0 K →
  (∀ r K', keeps K0 K' → seen K ⊆ seen K' → Q r K') → wp (ask (SaveJob j)) K Q.
Proof.
  intros Ht Hs HK HQ. apply wp_ask; [by left|]. intros r _. cbn [learn]. destruct r as [e|].
  - apply HQ; [by apply keeps_fresh, keeps_own|done].
  - assert (state_eqb (job_state j) Running = false) as -> by (by destruct (job_state j)).
    apply HQ; [by apply keeps_see, keeps_fresh, keeps_own|]. exact (see_mono _ _ (with_fresh None (with_own None K))).
Qed.

Lemma wp_Get K id : wp (Get id) K (got id K).
Proof.
  apply wp_checked, wp_ask; [done|]. intros [j|e] Hid; [|by split]. cbn [plausible] in Hid. subst id.
  set (K1 := learn K _ _).
  assert (keeps K K1 ∧ (job_id j, job_action j) ∈ seen K1) as [HK Hse].
  { subst K1. cbn [learn]. split; [|apply see_seen]. apply keeps_see. repeat case_match; try apply keeps_fresh; done. }
  assert (untakeable j = false → is_Some (locked K) → fresh K1 = Some (job_id j)) as Hf.
  { intros Hu [t Hl]. subst K1. cbn [learn]. by rewrite Hu, Hl. }
  clearbody K1. apply wp_checked.
  apply (wp_mono _ _ (λ r K', match r with inl j' => job_id j' = job_id j ∧ job_action j' = job_action j ∧ keeps K K' ∧
      (untakeable j' = false → is_Some (locked K) → fresh K' = Some (job_id j) ∧ (job_id j, job_action j) ∈ seen K') | inr _ => keeps K K' end)).
  - intros [j'|e] K' H; [|by split]. destruct H as (E & Ea & HK' & Hj'). apply wp_checked, wp_idle; [done|done|]. intros [l|e]; [|by split].
    split; [done|]. cbn [job_id job_action with_logs]. by rewrite E, Ea.
  - cbn [with_label job_state]. destruct (terminal (job_state j)) eqn:Ht.
    + cbn. split_and!; try done. intros Hu. unfold untakeable in Hu. cbn [with_label job_state] in Hu. by rewrite Ht in Hu.
    + apply wp_bind, wp_idle; [done|done|]. intros info.
      assert (∀ j', job_id j' = job_id j → job_action j' = job_action j → untakeable j' = untakeable j →
        wp (Ret (inl j')) K1 (λ (r : Job + string) K', match r with inl j' => job_id j' = job_id j ∧ job_action j' = job_action j ∧ keeps K K' ∧
          (untakeable j' = false → is_Some (locked K) → fresh K' = Some (job_id j) ∧ (job_id j, job_action j) ∈ seen K') | inr _ => keeps K K' end)) as Hret.
      { intros j' E Ea Eu. cbn. rewrite Eu. split_and!; try done. intros Hu Hl. split; [by apply Hf|done]. }
      destruct info as [[] lastErr| |e]; try (by apply Hret).
      apply wp_bind, wp_appendLog. intros [e|]; [done|]. apply wp_bind, wp_idle; [done|done|]. intros t.
      apply wp_bind, (wp_save_settled _ K); [done|done|done|]. intros [e|] K' HK' Hs'; [done|]. cbn. by split_and!.
Qed.

Lemma wp_trimHistory K : wp trimHistory K (λ _ K', keeps K K').
Proof.
  apply wp_bind, wp_idle; [done|done|]. intros [[|id ids]|e]; [done| |done].
  apply wp_bind, wp_ask; [done|]. intros [values|e] _; cbn [learn]; [|done].
  destruct (trimmed _ _); cbn; [by apply keeps_see_all|]. split; [done|]. intros r _. by apply keeps_see_all.
Qed.

Lemma wp_Submit K p : wp (Submit time_text p) K (λ _ _, True).
Proof.
  apply wp_bind, wp_ask; [done|]. intros id _. cbn [learn].
  apply wp_bind, wp_idle; [done|done|]. intros t. set (p' := mkPayload _ _ _ _). set (j := new_job time_text id t p').
  apply wp_bind, wp_ask; [right; left; done|]. intros [e|] _; cbn [learn]; [done|]. set (K1 := see _ _ _).
  assert ((job_id j, job_action j) ∈ seen K1) as Hse by apply see_seen. clearbody K1.
  apply wp_bind. apply (wp_mono _ _ (λ _ K', (job_id j, job_action j) ∈ seen K')).
  - intros [e|] K2 Hse2; [done|]. apply wp_bind, wp_idle; [done|done|]. intros [e|]; [|done].
    apply wp_bind, wp_idle; [done|done|]. intros now. apply wp_bind, (wp_save_settled _ K2); try done.
  - destruct (Private j) eqn:Hp; [done|]. apply wp_bind, wp_idle; [|done|].
    + exists (job_action j). split; [done|]. by apply String.eqb_neq.
    + intros [e|]; [done|]. apply wp_bind. eapply wp_mono; [|apply wp_trimHistory]. intros _ K2 [_ _ _ Hs]. by apply Hs.
Qed.

(** *** Execution *)

Lemma wp_execute K p : is_Some (locked K) → marked K = Some (p_id p) → task K = Some p → running K = None →
  wp (execute log_time quoted p) K (λ _ K', running K' = None ∧ locked K' = locked K ∧ seen K' = seen K).
Proof.
  intros Hl Hm Ht Hr. unfold execute. destruct (includes_str _ _); [|done].
  apply wp_bind, wp_ask; [done|]. intros messages _. cbn [learn].
  apply wp_bind. apply (wp_mono _ _ (λ _ K', K' = with_running (Some p) K)).
  - intros _ K' ->. apply wp_bind, wp_ask; [done|]. intros r _. done.
  - apply (wp_for_all _ _ _ (λ K', K' = with_running (Some p) K)); [done|]. intros m K' _ ->. by apply wp_appendLog.
Qed.

Lemma wp_process K p : is_Some (locked K) → task K = Some p → running K = None →
  wp (process time_text log_time quoted p) K (λ _ K', locked K' = locked K ∧ running K' = None).
Proof.
  intros Hl Ht Hr. apply wp_bind. eapply wp_mono; [|apply wp_Get]. intros [j|e] K1 [[Hl1 Hr1 Ht1 _] Hj]; [|cbn; split; congruence]. destruct Hj as [Hid Hj].
  unfold untakeable in Hj. destruct (terminal (job_state j)) eqn:Hterm; [cbn; split; congruence|].
  destruct (job_started_at j) as [started|] eqn:Hs; [cbn; split; congruence|].
  destruct Hj as [Hf Hse]; [done|done|].
  apply wp_bind, wp_idle; [done|done|]. intros now. set (j1 := set_started time_text now j).
  apply wp_bind, wp_ask; [right; right; rewrite Hl1; done|]. intros [e|] _; cbn [learn]; [cbn; split; congruence|].
  change (state_eqb (job_state j1) Running) with true. set (K2 := see _ _ _).
  assert (locked K2 = locked K ∧ running K2 = None ∧ task K2 = Some p ∧ marked K2 = Some (job_id j) ∧ (job_id j, job_action j) ∈ seen K2)
    as (Hl2 & Hr2 & Ht2 & Hm2 & Hse2) by (subst K2; split_and!; [exact Hl1|exact (eq_trans Hr1 Hr)|exact (eq_trans Ht1 Ht)|done|apply see_seen]).
  clearbody K2. apply wp_bind, wp_appendLog. intros [e|]; [done|].
  apply wp_bind. eapply wp_mono; [|apply (wp_execute K2 p); congruence]. intros [result actionErr] K3 (Hr3 & Hl3 & Hs3).
  apply wp_bind, wp_idle; [done|done|]. intros t. set (j2 := set_outcome _ _ _ _ _).
  apply wp_bind, wp_appendLog. intros [e|]; [cbn; split; congruence|].
  apply wp_bind, (wp_save_settled _ K3); [by destruct actionErr|by rewrite Hs3|done|].
  intros [e|] K4 [Hl4 Hr4 _ _] _; cbn; split; congruence.
Qed.

Lemma wp_acquireLock K polls : locked K = None →
  wp (acquireLock polls) K (λ r K', task K' = task K ∧ running K' = running K ∧ match r with inl token => locked K' = Some token | inr _ => True end).
Proof.
  intros Hl. apply wp_bind, wp_ask; [done|]. intros token _. cbn [learn].
  assert (∀ K1, locked K1 = None → task K1 = task K → running K1 = running K → wp (poll_lock polls token) K1
    (λ r K', task K' = task K ∧ running K' = running K ∧ match r with inl token => locked K' = Some token | inr _ => True end)) as H; [|by apply H].
  induction polls as [|polls IH]; intros K1 H1 H2 H3; [done|]. apply wp_checked, wp_ask; [done|]. intros [[]|e] _; cbn [learn]; [done| |done].
  by apply IH.
Qed.

Lemma wp_ProcessTask K polls p : locked K = None → running K = None → task K = Some p →
  wp (ProcessTask time_text log_time quoted polls p) K (λ _ _, True).
Proof.
  intros Hl Hr Ht. apply wp_bind. eapply wp_mono; [|by apply wp_acquireLock]. intros [token|e] K1 (Ht1 & Hr1 & Hl1); [|done].
  apply wp_bind. eapply wp_mono; [|apply (wp_process K1 p); [by rewrite Hl1|congruence..]]. intros r K2 [Hl2 Hr2].
  apply wp_bind, wp_ask; [split; congruence|]. done.
Qed.

(** *** Lists and maintenance *)

(** A function that only reads and [Get]s can be run with any knowledge. *)
Definition harmless {A} (p : prog A) : Prop := ∀ K, wp p K (λ _ _, True).

Lemma harmless_bind {A B} (f : A → prog B) p : harmless p → (∀ a, harmless (f a)) → harmless (prog_bind f p).
Proof. intros Hp Hf K. apply wp_bind. eapply wp_mono; [|apply Hp]. intros a K' _. apply Hf. Qed.
Lemma harmless_checked {A B} (k : A → prog (B + string)) p : harmless p → (∀ a, harmless (k a)) → harmless (prog_bind (checked k) p).
Proof. intros Hp Hk. apply harmless_bind; [done|]. intros [a|e]; [apply Hk|done]. Qed.
Lemma harmless_for_each {A B} (f : A → prog (B + string)) l : (∀ a, harmless (f a)) → harmless (for_each f l).
Proof. intros Hf K. apply (wp_for_each f l K (λ _, True)); [done|]. intros a K' _ _. apply Hf. Qed.
Lemma harmless_Get id : harmless (Get id).
Proof. intros K. eapply wp_mono; [|apply wp_Get]. done. Qed.
Lemma harmless_ask {B} (c : cmd B) : (∀ K, allowed K c) → harmless (ask c).
Proof. intros Hc K. by apply wp_ask. Qed.

Lemma harmless_task_pages pages active page ids : harmless (task_pages pages active page ids).
Proof.
  revert page ids. induction pages as [|pages IH]; intros page ids; [done|]. apply harmless_checked; [by apply harmless_ask|].
  intros [tasks|]; [|done]. destruct (_ <? _)%nat; [done|apply IH].
Qed.
Lemma harmless_includeActive pages ids : harmless (includeActive pages ids).
Proof. apply harmless_checked; intros; apply harmless_task_pages. Qed.

Lemma harmless_List pages : harmless (List time_text log_time pages).
Proof.
  apply harmless_checked; [by apply harmless_ask|]. intros ids. apply harmless_checked; [apply harmless_includeActive|]. intros ids'.
  apply harmless_for_each. intros id. by apply harmless_checked; [apply harmless_Get|].
Qed.

Lemma harmless_public_batch batch fetched : harmless (public_batch time_text log_time batch fetched).
Proof.
  revert fetched. induction batch as [|id batch IH]; intros fetched; [done|]. apply harmless_checked; [apply harmless_Get|].
  intros j. destruct (Private j); [apply IH|]. cbv zeta. destruct (_ =? _)%nat; [done|apply IH].
Qed.
Lemma harmless_public_ids pages offset fetched : harmless (public_ids time_text log_time pages offset fetched).
Proof.
  revert offset fetched. induction pages as [|pages IH]; intros offset fetched; [done|]. cbn [public_ids]. destruct (_ <=? _)%nat; [done|].
  apply harmless_checked; [by apply harmless_ask|]. intros batch. apply harmless_checked; [apply harmless_public_batch|]. intros fetched'.
  destruct (_ <? _)%nat; [done|apply IH].
Qed.
Lemma harmless_PublicList pages : harmless (PublicList time_text log_time pages).
Proof.
  apply harmless_checked; [apply harmless_public_ids|]. intros fetched. apply harmless_checked; [apply harmless_includeActive|]. intros ids.
  apply harmless_checked; [|done]. apply harmless_for_each. intros id. destruct (fetched_job _ _); [done|].
  by apply harmless_checked; [apply harmless_Get|].
Qed.

Lemma harmless_page_jobs : harmless (page_jobs time_text log_time).
Proof.
  apply harmless_checked; [by apply harmless_ask|]. intros ids. apply harmless_checked; [|done]. apply harmless_for_each. intros part.
  apply harmless_checked; [by apply harmless_ask|]. intros values. apply harmless_for_each. intros [j|]; [|done]. cbn [page_job].
  destruct (terminal _); [done|]. apply harmless_bind; [apply harmless_Get|]. by intros [].
Qed.

Lemma seen_see_all l K j : Some j ∈ l → (job_id j, job_action j) ∈ seen (see_all l K).
Proof.
  induction l as [|v l IH]; [by intros ?%elem_of_nil|]. intros [<-|H]%elem_of_cons; [apply see_seen|].
  destruct v as [j'|]; [by apply see_mono, IH|by apply IH].
Qed.

Lemma wp_reconcile_job K v : (∀ j, v = Some j → (job_id j, job_action j) ∈ seen K) →
  wp (reconcile_job time_text log_time time_of v) K (λ _ K', seen K ⊆ seen K').
Proof.
  intros Hv. destruct v as [j|]; [|cbn; reflexivity]. specialize (Hv j eq_refl). cbn [reconcile_job]. destruct (terminal (job_state j)); [cbn; reflexivity|].
  apply wp_bind, wp_idle; [done|done|]. intros now. destruct (_ <? _)%Z; [cbn; reflexivity|]. apply wp_bind, wp_idle; [done|done|].
  assert (∀ e, wp (now ← ask Now; _ ← appendLog log_time (job_id (set_finished time_text now (set_failed e j))) ("Failed: " ++ e);
      _ ← ask (SaveJob (set_finished time_text now (set_failed e j))); Ret tt) K (λ _ K', seen K ⊆ seen K')) as H.
  { intros e. apply wp_bind, wp_idle; [done|done|]. intros t. apply wp_bind, wp_appendLog. intros _.
    apply wp_bind, (wp_save_settled _ K); [done|done|done|]. by intros r K' _ Hs'. }
  intros [[] lastErr| |e]; first [apply H|cbn; reflexivity].
Qed.

Lemma harmless_reconcileOrphans : harmless (reconcileOrphans time_text log_time time_of).
Proof.
  apply harmless_bind; [by apply harmless_ask|]. intros [ids|e]; [|done]. generalize (slices_of (length ids) ids). intros parts.
  induction parts as [|part parts IH]; [done|]. intros K. apply wp_bind, wp_ask; [done|]. intros [values|e] _; [|done]. cbn [learn].
  apply wp_bind. apply (wp_mono _ _ (λ _ K', seen (see_all values K) ⊆ seen K')); [intros; apply IH|].
  apply (wp_for_all _ _ _ (λ K', seen (see_all values K) ⊆ seen K')); [done|]. intros v K' Hv HK'.
  eapply wp_mono; [|apply wp_reconcile_job].
  - intros ? K2 H2. by etrans.
  - intros j ->. by apply HK', seen_see_all.
Qed.
End functions.

(** ** Every run *)

Lemma run_cons {St E O} (step : St → E → St * list O) s e es : (run step s (e :: es)).1 = (run step (step s e).1 es).1.
Proof. cbn [run]. destruct (step s e) as [s' o]. cbn. by destruct (run step s' es). Qed.

Section runs.
Context (time_text log_time : Z → string) (time_of : string → Z) (quoted : string → string).
Context {S : Type} `{!Service S}.
Notation step := (step time_text log_time time_of quoted).
Notation renewed_in_time := (renewed_in_time time_text log_time time_of quoted).

(** What the code of a call keeps to. *)
Lemma wp_call c s code : call_code time_text log_time time_of quoted c s = Some code →
  ∃ p, (∀ q, p = Some q → q ∈ enqueued (view s)) ∧ wp code (newcomer p) (λ _ _, True).
Proof.
  assert (∀ A (p : prog A) (f : A → outcome), harmless p → wp (r ← p; Ret (f r)) (newcomer None) (λ _ _, True)) as H.
  { intros A p f Hp. apply wp_bind. eapply wp_mono; [|apply Hp]. done. }
  destruct c as [p|id|pages|pages| | |polls n]; cbn [call_code]; try (intros E; apply (inj Some) in E; subst code; exists None; split; [done|]).
  - apply H. intros K. apply wp_Submit.
  - apply H, harmless_Get.
  - apply H, harmless_List.
  - apply H, harmless_PublicList.
  - apply H, harmless_page_jobs.
  - apply (H _ _ (λ _, ODone)), harmless_reconcileOrphans.
  - destruct (enqueued (view s) !! n) as [p|] eqn:E; [|done]. intros E'. apply (inj Some) in E'. subst code. exists (Some p). split.
    + intros q [= <-]. by apply (list_elem_of_lookup_2 _ n).
    + apply wp_bind. by apply wp_ProcessTask.
Qed.

Lemma server_ok_step intact w e : server_ok intact w → (intact → renewed_in_time w [e] = true) → server_ok intact (step w e).1.
Proof.
  intros Hw Ht. destruct e as [c|i|i|i|ms|id]; cbn [JobService.step fst].
  - destruct (call_code _ _ _ _ c (service w)) as [code|] eqn:E; [|done]. destruct (wp_call c (service w) code E) as (p & Hp & Hwp).
    by apply (server_ok_spawn _ w p).
  - destruct (threads w !! i) as [[t|]|] eqn:E; [|done|done]. pose proof (server_ok_advance _ w i t Hw E) as H.
    by destruct (advance t (service w)).
  - by apply server_ok_kill.
  - destruct (threads w !! i) as [[t|]|]; [|done|done]. destruct (holds t); [by apply server_ok_renew|done].
  - apply server_ok_pass; [done|]. intros Hi token El Hh. specialize (Ht Hi). cbn [JobService.renewed_in_time] in Ht.
    rewrite El, Hh in Ht. apply andb_true_iff in Ht as [Ht _]. by apply Z.ltb_lt.
  - destruct (records _ !! id) as [j|]; [|done]. destruct (Private j); [by apply server_ok_record|done].
Qed.

Lemma store_ok_empty intact : store_ok intact empty_store.
Proof.
  split; cbn; try done; try (intros ? H; by apply elem_of_nil in H); [by intros ? ? ?%elem_of_nil|by intros ? [? ?]|intros _; apply NoDup_nil_2].
Qed.

Lemma server_ok_start intact s : view s = empty_store → server_ok intact (mkServer s []).
Proof.
  intros Hs. split; [cbn; rewrite Hs; apply store_ok_empty|]. by exists (λ _, newcomer None).
Qed.

Lemma server_ok_from intact w es : server_ok intact w → (intact → renewed_in_time w es = true) → server_ok intact (run step w es).1.
Proof.
  revert w. induction es as [|e es IH]; intros w Hw Ht; [done|]. rewrite run_cons. apply IH.
  - apply server_ok_step; [done|]. intros Hi. specialize (Ht Hi). cbn [JobService.renewed_in_time] in *. apply andb_true_iff in Ht as [-> _]. done.
  - intros Hi. specialize (Ht Hi). cbn [JobService.renewed_in_time] in Ht. by apply andb_true_iff in Ht as [_ ?].
Qed.

Lemma server_ok_run intact s es : view s = empty_store → (intact → renewed_in_time (mkServer s []) es = true) →
  server_ok intact (run step (mkServer s []) es).1.
Proof. intros Hs. by apply server_ok_from, server_ok_start. Qed.

(** The lock is one thread's. *)
Lemma one_in_progress (intact : Prop) w : intact → server_ok intact w → (length (in_progress w) ≤ 1)%nat.
Proof.
  intros Hi' (_ & Ks & Hok & Hc). unfold in_progress, live in *. revert Ks Hok Hc. generalize (threads w) as ts. intros ts Ks.
  revert Ks. induction ts as [|t ts IH]; intros Ks Hok Hc; [cbn; lia|].
  specialize (IH (λ i, Ks (Datatypes.S i)) (λ i, Hok (Datatypes.S i)) (λ i i' t t' H H' Hne, Hc (Datatypes.S i) (Datatypes.S i') t t' H H' ltac:(congruence))).
  destruct t as [t|]; [|exact IH]. destruct (works_on t) as [p|] eqn:Ew; [|by cbn; rewrite Ew].
  cbn. rewrite Ew. cbn. enough (omap (λ t : option thread, t ≫= works_on) ts = []) as -> by (cbn; lia).
  apply elem_of_nil_inv. intros q ([t'|] & Hin & Hq)%list_elem_of_omap; [|done]. cbn in Hq.
  apply list_elem_of_lookup in Hin as [i Hi].
  destruct (Hc 0 (Datatypes.S i) t t' eq_refl Hi ltac:(done)) as [_ Hl].
  destruct (Hok 0 t eq_refl) as [Hf _ Hr _]. destruct (Hok (Datatypes.S i) t' Hi) as [Hf' _ Hr' _].
  destruct (f_running _ _ _ Hf') as [token Ht]; [by rewrite Hr', Hq|]. rewrite (Hl Hi') in Ht; [done|]. apply (f_running _ _ _ Hf). by rewrite Hr, Ew.
Qed.
End runs.

(** The actions a server has begun, in their order; and the tasks it was ever given. *)
Definition actions_begun {S} `{!Service S} (w : server S) : list Payload := begun (view (service w)).
Definition tasks_given {S} `{!Service S} (w : server S) : list Payload := enqueued (view (service w)).

(** C2. An operation is executed as it was submitted, and, unless a lock lapses under a living worker, at most once and no
    two at a time. Whatever the services answer, however often and at whatever moments the queue delivers a task, in
    whatever order the commands of submissions, reads, lists, workers, renewals and the maintenance interleave, however
    much time passes, whichever of them are killed half way, and whatever expires: the actions begun are tasks of the
    queue, with the very parameters they were submitted with. The lock lasts thirty seconds and is renewed beside its
    holder, which may fail unnoticed; when each time less than thirty seconds pass until the next renewal that succeeds,
    the actions begun are different tasks, and the engine works on one at most. *)
Theorem executed_once {S} `{!Service S} time_text log_time time_of quoted es (s : S) : view s = empty_store →
  let w := (run (step time_text log_time time_of quoted) (mkServer s []) es).1 in
  (∀ p, p ∈ actions_begun w → p ∈ tasks_given w) ∧
  (renewed_in_time time_text log_time time_of quoted (mkServer s []) es = true →
     NoDup (p_id <$> actions_begun w) ∧ (length (in_progress w) ≤ 1)%nat).
Proof.
  intros Hs w. set (intact := renewed_in_time time_text log_time time_of quoted (mkServer s []) es = true).
  pose proof (server_ok_run time_text log_time time_of quoted intact s es Hs ltac:(done)) as Hw. fold w in Hw. split.
  - intros p Hp. by apply (so_begun _ _ (proj1 Hw)).
  - intros Hi. split; [by apply (so_once _ _ (proj1 Hw))|by apply (one_in_progress intact)].
Qed.

#[local] Instance sample_service : Service memory := memory_service (λ _, ["working"]) (λ p, ("", None)) (λ _, TaskNotFound).
Definition clock_text (t : Z) : string := strokes (Z.to_nat t).

(** A submission, its task delivered to two workers at once, while the first renews its lock; and again after the
    first has been killed and its lock has lapsed. *)
Definition sample_payload : Payload := mkPayload "" "vm.start" "web" JNull.
Definition two_workers : list event :=
  Spawn (CSubmit sample_payload) :: repeat (Advance 0) 20 ++ [Spawn (CTask 50 0); Spawn (CTask 50 0)] ++ concat (repeat [Advance 1; Advance 2] 8).
Definition sample_run : list event :=
  two_workers ++ [Pass 20000; Renew 1; Pass 20000] ++ concat (repeat [Advance 1; Advance 2] 8) ++ [Kill 1; Pass 31000; Spawn (CTask 50 0)] ++ repeat (Advance 3) 20.

Lemma executed_once_witness :
  let w := (run (step clock_text clock_text (λ _, 0%Z) id) (mkServer (S := memory) (mkMemory empty_store 0) []) sample_run).1 in
  (p_target <$> actions_begun w) = ["web"] ∧ NoDup (p_id <$> actions_begun w).
Proof.
  split; [vm_compute; reflexivity|].
  apply (executed_once (S := memory) clock_text clock_text (λ _, 0%Z) id sample_run (mkMemory empty_store 0)); [reflexivity|vm_compute; reflexivity].
Defined.

(** The lock does not fence: when it lapses under a worker whose renewals do not arrive, a second worker acts too. *)
Lemma lapsed_lock_two_at_once :
  let submit := Spawn (CSubmit sample_payload) in
  let w := (run (step clock_text clock_text (λ _, 0%Z) id) (mkServer (S := memory) (mkMemory empty_store 0) [])
    (submit :: submit :: repeat (Advance 0) 20 ++ repeat (Advance 1) 20 ++ Spawn (CTask 50 0) :: Spawn (CTask 50 1) ::
     repeat (Advance 2) 10 ++ Pass 30000 :: repeat (Advance 3) 10)).1 in
  length (in_progress w) = 2%nat.
Proof. vm_compute. reflexivity. Qed.
