(* ===== verification/JobStream.v ===== *)
(** * The stream of operations, from the server to the page

    What [src/pkg/api/job_stream.go] sends to a page: a snapshot of the public jobs, read after it subscribed
    to the channel, and an event for every job saved since; and that the page's list ([NotificationStream])
    is the server's records for it, whatever else runs. *)

From stdpp Require Import sorting.
From S2P Require Import Prelude JsString Json Types Activity NotificationStream JobQueue JobService JobSafety.
Local Open Scope string_scope.

(** ** The messages *)

Definition sendJobsSnapshot (list : list Job) : NotificationEvent :=
  mkEvent Snapshot None (match list with [] => None | _ => Some list end) None.

(** [sendStreamUpdate] for the payload of an event. *)
Definition sendStreamUpdate (generalized : bool) (payload : Job) : list NotificationEvent :=
  let j := with_label payload in
  if Private j then
    if generalized && state_eqb (job_state j) Succeeded then [mkEvent Invalidate (Some ["preview:" ++ job_target j]) None None] else []
  else
    mkEvent Update None None (Some j) ::
    (if generalized && terminal (job_state j)
     then [mkEvent Invalidate (Some (if starts_with "network." (job_action j) || starts_with "vm.interface." (job_action j)
                                     then ["networks"; "interfaces"; "vms"] else ["vms"; "disks"; "storage"; "usb"])) None None]
     else []).

(** What the loop of [stream] selects: a change of resources, or the payload of an event. *)
Inductive stream_input := Changed (resources : list string) | Event (payload : Job).

Definition stream_update (generalized : bool) (i : stream_input) : list NotificationEvent :=
  match i with
  | Changed resources => [mkEvent Invalidate (Some resources) None None]
  | Event payload => sendStreamUpdate generalized payload
  end.

Definition stream (generalized : bool) (snapshot : list Job) (inputs : list stream_input) : list NotificationEvent :=
  sendJobsSnapshot snapshot :: flat_map (stream_update generalized) inputs.

Definition payloads (inputs : list stream_input) : list Job :=
  omap (λ i, match i with Event payload => Some payload | Changed _ => None end) inputs.

(** ** Records and the channel *)

(** The last state published of each job. *)
Definition last_states (l : list Job) : gmap string Job := latest (rev l).

Lemma last_states_snoc l j : last_states (l ++ [j]) = <[job_id j := j]> (last_states l).
Proof. unfold last_states. by rewrite rev_app_distr. Qed.

Lemma last_states_app l k id : last_states (l ++ k) !! id = match last_states k !! id with Some j => Some j | None => last_states l !! id end.
Proof.
  induction k as [|j k IH] using rev_ind; [by rewrite app_nil_r|].
  rewrite app_assoc, !last_states_snoc. destruct (decide (job_id j = id)) as [<-|]; [by rewrite !lookup_insert_eq|].
  by rewrite !lookup_insert_ne.
Qed.

Lemma last_states_none l id : last_states l !! id = None ↔ id ∉ ids l.
Proof.
  induction l as [|j l IH] using rev_ind; [split; [intros _; apply not_elem_of_nil|done]|]. unfold ids in *. rewrite last_states_snoc, fmap_app, elem_of_app.
  destruct (decide (job_id j = id)) as [<-|Hn].
  - rewrite lookup_insert_eq. split; [done|]. intros []. right. by apply list_elem_of_singleton.
  - rewrite lookup_insert_ne by done. rewrite IH. cbn. rewrite list_elem_of_singleton. naive_solver.
Qed.

Lemma last_states_some l id j : last_states l !! id = Some j → j ∈ l ∧ job_id j = id.
Proof.
  induction l as [|j0 l IH] using rev_ind; [done|]. rewrite last_states_snoc.
  intros [[<- <-]|[_ H]]%lookup_insert_Some; [split; [apply elem_of_app; right; by left|done]|]. destruct (IH H). split; [|done]. apply elem_of_app. by left.
Qed.

(** A record is what was last published of its job. *)
Definition in_step (s : store) : Prop := ∀ id j, records s !! id = Some j → last_states (published s) !! id = Some j.

Lemma in_step_step {B} (c : cmd B) r s s' : in_step s → documented c r s s' → in_step s'.
Proof.
  intros Hs. assert (∀ s', records s' ⊆ records s → published s' = published s → in_step s') as Hless.
  { intros t Hr Hp id j Hj. rewrite Hp. by apply Hs, (lookup_weaken _ _ _ _ Hj). }
  assert (∀ j, in_step (put j s)) as Hput.
  { intros j id j'. cbn [put records published]. rewrite last_states_snoc. intros [[<- <-]|[Hn H]]%lookup_insert_Some; [by rewrite lookup_insert_eq|].
    rewrite lookup_insert_ne by done. by apply Hs. }
  destruct c; cbn [documented]; try (intros (_ & ->) || intros (-> & _) || intros ->); try (by apply Hless);
    try (match goal with |- effect ?r _ _ _ → _ => destruct r end; cbn [effect]; intros; destruct_or?; subst; try done; by apply Hless).
  - destruct r; cbn [effect]; intros; destruct_or?; subst; try done; apply Hless; try done; apply foldr_delete_subseteq.
  - destruct r as [[]|]; [intros [_ ->]|intros [_ ->]|intros [->|[_ ->]]]; by apply Hless.
  - unfold release. destruct r; cbn [effect]; intros; destruct_or?; subst; try case_decide; by apply Hless.
  - unfold renew. destruct r; cbn [effect]; intros; destruct_or?; subst; try case_decide; by apply Hless.
Qed.

(** ** A function among others

    What a function sees of the rest: a well-formed store whose channel grows. [interleaved p s a s'] says that
    [p], run from [s] with anything between its commands, can give [a] in [s']. *)

Record evolves (s s' : store) : Prop := {
  ev_ok : store_ok False s;
  ev_step : in_step s;
  ev_ok' : store_ok False s';
  ev_step' : in_step s';
  ev_published : published s `prefix_of` published s'
}.

Lemma evolves_refl s : store_ok False s → in_step s → evolves s s.
Proof. by split. Qed.
Lemma evolves_trans s1 s2 s3 : evolves s1 s2 → evolves s2 s3 → evolves s1 s3.
Proof. intros [] []. split; try done. by etrans. Qed.

Fixpoint interleaved {A} (p : prog A) (s : store) (a : A) (s' : store) : Prop :=
  match p with
  | Ret b => a = b ∧ evolves s s'
  | Do c k => ∃ s1 r s2, evolves s s1 ∧ documented c r s1 s2 ∧ evolves s1 s2 ∧ interleaved (k r) s2 a s'
  end.

Lemma interleaved_evolves {A} (p : prog A) s a s' : interleaved p s a s' → evolves s s'.
Proof.
  revert s. induction p as [b|B c k IH]; intros s; cbn; [by intros [_ ?]|]. intros (s1 & r & s2 & H1 & _ & H2 & H%IH).
  eapply evolves_trans; [exact H1|]. by eapply evolves_trans.
Qed.

Lemma interleaved_before {A} (p : prog A) s0 s a s' : evolves s0 s → interleaved p s a s' → interleaved p s0 a s'.
Proof.
  intros H0. destruct p as [b|B c k]; cbn; [intros [? ?]; split; [done|by eapply evolves_trans]|].
  intros (s1 & r & s2 & H1 & ?). exists s1, r, s2. split; [by eapply evolves_trans|done].
Qed.

Lemma interleaved_bind {A B} (f : A → prog B) p s b s' : interleaved (prog_bind f p) s b s' →
  ∃ a m, interleaved p s a m ∧ interleaved (f a) m b s'.
Proof.
  revert s. induction p as [a|C c k IH]; intros s; cbn.
  - intros H. exists a, s. split; [|done]. split; [done|]. pose proof (interleaved_evolves _ _ _ _ H) as []. by apply evolves_refl.
  - intros (s1 & r & s2 & H1 & Hd & H2 & (a & m & Hp & Hf)%IH). exists a, m. split; [|done]. by exists s1, r, s2.
Qed.

Lemma interleaved_checked {A B} (k : A → prog (B + string)) p s b s' : interleaved (prog_bind (checked k) p) s (inl b) s' →
  ∃ a m, interleaved p s (inl a) m ∧ interleaved (k a) m (inl b) s'.
Proof.
  intros ([a|e] & m & Hp & Hk)%interleaved_bind; [by exists a, m|]. destruct Hk as [[=] _].
Qed.

Lemma interleaved_ask {B} (c : cmd B) s r s' : interleaved (ask c) s r s' →
  ∃ s1 s2, evolves s s1 ∧ documented c r s1 s2 ∧ evolves s1 s2 ∧ evolves s2 s'.
Proof. intros (s1 & r' & s2 & ? & ? & ? & -> & ?). by exists s1, s2. Qed.

Lemma interleaved_for_each {A B} (f : A → prog (B + string)) l s bs s' : interleaved (for_each f l) s (inl bs) s' →
  Forall2 (λ a b, ∃ m m', evolves s m ∧ interleaved (f a) m (inl b) m' ∧ evolves m' s') l bs.
Proof.
  revert s bs s'. induction l as [|a l IH]; intros s bs s'; [intros [[= ->] _]; constructor|].
  intros (b & m & Hf & (bs' & m' & Hl & Hr)%interleaved_checked)%interleaved_checked. destruct Hr as [[= ->] Hr].
  pose proof (interleaved_evolves _ _ _ _ Hf) as H1. pose proof (interleaved_evolves _ _ _ _ Hl) as H2. constructor.
  - exists s, m. split_and!; [|done|by eapply evolves_trans]. destruct H1. by apply evolves_refl.
  - eapply Forall2_impl; [exact (IH _ _ _ Hl)|]. intros a' b' (n & n' & ? & ? & ?). exists n, n'. split_and!; [by eapply evolves_trans|done|by eapply evolves_trans].
Qed.

(** *** A thread of a server is such a function *)

Section threads.
Context (time_text log_time : Z → string) (time_of : string → Z) (quoted : string → string).
Context {S : Type} `{!Service S}.
Notation step := (step time_text log_time time_of quoted).
Notation run := (run step).

Definition good (w : server S) : Prop := server_ok False w ∧ in_step (view (service w)).

Lemma in_step_loss s s' : in_step s → records s' ⊆ records s → published s' = published s → in_step s'.
Proof. intros H Hr Hp id j Hj. rewrite Hp. by apply H, (lookup_weaken _ _ _ _ Hj). Qed.

Lemma advance_view (t : thread) (s : S) :
  match code t with
  | Ret _ => advance t s = (t, s)
  | Do c k => ∃ r s', documented c r (view s) (view s') ∧ advance t s = (mkThread (k r) (held c r (holds t)) (working c (works_on t)), s')
  end.
Proof.
  unfold advance. destruct (code t) as [a|B c k]; [done|]. pose proof (perform_documented B c s) as Hd.
  destruct (perform c s) as [r s']. by exists r, s'.
Qed.

Lemma good_step w e : good w → good (step w e).1 ∧ published (view (service w)) `prefix_of` published (view (service (step w e).1)).
Proof.
  intros [Hw Hs]. enough (in_step (view (service (step w e).1)) ∧ published (view (service w)) `prefix_of` published (view (service (step w e).1))) as [? ?].
  { split; [|done]. split; [by apply server_ok_step; [done|intros []]|done]. }
  destruct e as [c|i|i|i|ms|id]; cbn [JobService.step fst].
  - by destruct (call_code _ _ _ _ c (service w)).
  - destruct (threads w !! i) as [[t|]|]; [|done|done]. pose proof (advance_view t (service w)) as H.
    destruct (code t) as [a|B c k]; [by rewrite H|]. destruct H as (r & s' & Hd & ->). cbn [service].
    split; [by eapply in_step_step|]. apply (documented_grows c r). done.
  - done.
  - destruct (threads w !! i) as [[t|]|]; [|done|done]. destruct (holds t) as [token|]; [|done]. cbn [service].
    by destruct (renewal_view token (service w)) as (l & ms & [[-> _]| ->]).
  - cbn [service]. by destruct (elapse_view ms (service w)) as (l & z & [->| ->]).
  - destruct (records _ !! id) as [j|]; [|done]. destruct (Private j); [|done]. cbn [service]. rewrite expire_record_view.
    split; [|done]. apply (in_step_loss (view (service w))); try done. apply delete_subseteq.
Qed.

Lemma good_run w es : good w → good (run w es).1 ∧ evolves (view (service w)) (view (service (run w es).1)).
Proof.
  revert w. induction es as [|e es IH]; intros w Hw; cbn [Prelude.run].
  - split; [done|]. by apply evolves_refl; apply Hw.
  - destruct (good_step w e Hw) as [Hw' Hp]. destruct (step w e) as [w' o]. cbn [fst] in *. destruct (IH w' Hw') as [Hr He].
    destruct (run w' es) as [w'' o']. cbn [fst] in *. split; [done|]. eapply evolves_trans; [|exact He]. destruct Hw as [[? _] ?], Hw' as [[? _] ?]. by split.
Qed.

Lemma good_start s : view s = empty_store → good (mkServer s []).
Proof. intros Hs. split; [by apply server_ok_start|]. cbn. rewrite Hs. intros id j. cbn. by rewrite lookup_empty. Qed.

(** What is left of a thread; [None] when it is gone. *)
Definition code_of (w : server S) (i : nat) : option (prog outcome) :=
  match threads w !! i with Some (Some t) => Some (code t) | _ => None end.

Lemma code_of_step w e i p : code_of w i = Some p →
  code_of (step w e).1 i = None ∨ code_of (step w e).1 i = Some p ∨
  (∃ B (c : cmd B) k r, p = Do c k ∧ documented c r (view (service w)) (view (service (step w e).1)) ∧ code_of (step w e).1 i = Some (k r)).
Proof.
  intros Hp. assert (threads w !! i ≠ None) as Hi by (unfold code_of in Hp; by destruct (threads w !! i)).
  destruct e as [c|j|j|j|ms|id]; cbn [JobService.step fst].
  - right; left. destruct (call_code _ _ _ _ c (service w)); [|done]. unfold code_of in *. cbn [threads].
    rewrite lookup_app_l; [done|]. by apply lookup_lt_is_Some, not_eq_None_Some.
  - destruct (decide (j = i)) as [->|Hj].
    + unfold code_of in Hp |- *. destruct (threads w !! i) as [[t|]|] eqn:E; [|done|done]. injection Hp as <-. pose proof (advance_view t (service w)) as H.
      assert (i < length (threads w))%nat as Hl by (by apply lookup_lt_Some in E).
      destruct (code t) as [a|B c k] eqn:Ec.
      * right; left. rewrite H. cbn [threads]. rewrite list_lookup_insert_eq by done. by rewrite Ec.
      * right; right. destruct H as (r & s' & Hd & ->). exists B, c, k, r. cbn [threads service]. by rewrite list_lookup_insert_eq by done.
    + right; left. destruct (threads w !! j) as [[t|]|]; [|done|done]. destruct (advance t (service w)) as [t' s'].
      unfold code_of in *. cbn [threads]. by rewrite list_lookup_insert_ne.
  - unfold code_of in *. cbn [threads]. destruct (decide (j = i)) as [->|Hj].
    + left. rewrite list_lookup_insert_eq; [done|]. by apply lookup_lt_is_Some, not_eq_None_Some.
    + right; left. by rewrite list_lookup_insert_ne.
  - right; left. destruct (threads w !! j) as [[t|]|]; [|done|done]. by destruct (holds t).
  - by right; left.
  - right; left. destruct (records _ !! id) as [j|]; [|done]. by destruct (Private j).
Qed.

(** A thread that is gone stays gone. *)
Lemma gone_step w e i : threads w !! i = Some None → threads (step w e).1 !! i = Some None.
Proof.
  intros Hi. pose proof (lookup_lt_Some _ _ _ Hi). destruct e as [c|j|j|j|ms|id]; cbn [JobService.step fst].
  - destruct (call_code _ _ _ _ c (service w)); [|done]. cbn [threads]. by rewrite lookup_app_l.
  - destruct (threads w !! j) as [[t|]|] eqn:E; [|done|done]. destruct (advance t (service w)) as [t' s']. cbn [threads].
    rewrite list_lookup_insert_ne; [done|]. intros ->. congruence.
  - cbn [threads]. destruct (decide (j = i)) as [->|]; [by rewrite list_lookup_insert_eq|by rewrite list_lookup_insert_ne].
  - destruct (threads w !! j) as [[t|]|]; [|done|done]. by destruct (holds t).
  - done.
  - destruct (records _ !! id) as [j|]; [|done]. by destruct (Private j).
Qed.

Lemma gone_run w es i : threads w !! i = Some None → threads (run w es).1 !! i = Some None.
Proof. apply (run_invariant step (λ w, threads w !! i = Some None)). intros; by apply gone_step. Qed.

Lemma threads_kept w e i : is_Some (threads w !! i) → is_Some (threads (step w e).1 !! i).
Proof.
  intros Hi%lookup_lt_is_Some. apply lookup_lt_is_Some. destruct e as [c|j|j|j|ms|id]; cbn [JobService.step fst].
  - destruct (call_code _ _ _ _ c (service w)); [|done]. cbn [threads]. rewrite length_app. lia.
  - destruct (threads w !! j) as [[t|]|]; [|done|done]. destruct (advance t (service w)). cbn [threads]. by rewrite length_insert.
  - cbn [threads]. by rewrite length_insert.
  - destruct (threads w !! j) as [[t|]|]; [|done|done]. by destruct (holds t).
  - done.
  - destruct (records _ !! id) as [j|]; [|done]. by destruct (Private j).
Qed.

Lemma thread_interleaved w i es p a : good w → code_of w i = Some p → code_of (run w es).1 i = Some (Ret a) →
  interleaved p (view (service w)) a (view (service (run w es).1)).
Proof.
  revert w p. induction es as [|e es IH]; intros w p Hw Hp Hr; cbn [Prelude.run] in *.
  - cbn in Hr. rewrite Hp in Hr. injection Hr as ->. split; [done|]. apply evolves_refl; apply Hw.
  - destruct (good_step w e Hw) as [Hw' Hpre]. pose proof (code_of_step w e i p Hp) as Hc.
    assert (is_Some (threads w !! i)) as Hi by (unfold code_of in Hp; by destruct (threads w !! i)).
    apply (threads_kept w e) in Hi. pose proof (gone_run (step w e).1 es i) as Hg.
    assert (evolves (view (service w)) (view (service (step w e).1))) as Hev by (destruct Hw as [[? _] ?], Hw' as [[? _] ?]; by split).
    destruct (step w e) as [w' o]. cbn [fst] in *. specialize (IH w'). destruct (run w' es) as [w'' o']. cbn [fst] in *.
    destruct Hc as [Hc|[Hc|(B & c & k & r & -> & Hd & Hc)]].
    + exfalso. destruct Hi as [[t|] Hi]; unfold code_of in Hc; rewrite Hi in Hc; [done|]. unfold code_of in Hr. by rewrite (Hg Hi) in Hr.
    + eapply interleaved_before; [exact Hev|]. by apply IH.
    + exists (view (service w)), r, (view (service w')). split_and!; [|done|done|by apply IH]. by destruct Hev; apply evolves_refl.
Qed.
End threads.

(** ** The snapshot *)

Section snapshot.
Context (time_text log_time : Z → string).
Notation Get := (Get time_text log_time).

(** A job as it was published last at some moment in between. *)
Definition caught (s s' : store) (id : string) (j : Job) : Prop :=
  job_id j = id ∧ ∃ m j0, evolves s m ∧ evolves m s' ∧ last_states (published m) !! id = Some j0 ∧ listed j = listed j0.

Lemma caught_widen s0 s s' s1 id j : evolves s0 s → evolves s' s1 → caught s s' id j → caught s0 s1 id j.
Proof.
  intros H0 H1 [E (m & j0 & Hm & Hm' & Hl)]. split; [done|]. exists m, j0. split_and!; [by eapply evolves_trans..|apply Hl|apply Hl].
Qed.

Lemma interleaved_Get id s j s' : interleaved (Get id) s (inl j) s' → caught s s' id j.
Proof.
  intros (j1 & m1 & (s1 & s2 & H1 & [-> Hr] & _ & H2)%interleaved_ask & Hg)%interleaved_checked.
  apply interleaved_checked in Hg as (j2 & m2 & H3 & (logs & m3 & H4 & Hl)%interleaved_checked).
  destruct Hl as [[= ->] H5]. pose proof (interleaved_evolves _ _ _ _ H4) as H4'. pose proof (interleaved_evolves _ _ _ _ H3) as H3'.
  assert (evolves m2 s') as Hend by (by eapply evolves_trans).
  destruct (so_record _ _ (ev_ok' _ _ H1) _ _ Hr) as [Hid _].
  enough (caught s m2 id j2) as Hc.
  { destruct Hc as [E (m & j0 & ? & ? & ? & El)]. split; [done|]. exists m, j0. split_and!; [done|by eapply evolves_trans|done|exact El]. }
  assert (∀ j2, j2 = with_label j1 → evolves m1 m2 → caught s m2 id j2) as Hread.
  { intros ? -> ?. split; [done|]. exists s1, j1. split_and!; [done|by eapply evolves_trans|by apply (ev_step' _ _ H1)|done]. }
  destruct (terminal (job_state (with_label j1))); [destruct H3 as [[= ->] ?]; by apply Hread|].
  apply interleaved_bind in H3 as (info & m4 & Hi%interleaved_evolves & H3).
  assert (evolves m1 m2 → interleaved (Ret (inl (with_label j1)) : prog (Job + string)) m4 (inl j2) m2 → caught s m2 id j2) as Hret.
  { intros ? [[= ->] ?]. by apply Hread. }
  destruct info as [[] lastErr| |e]; try (by apply Hret).
  apply interleaved_bind in H3 as ([e|] & m5 & Ha%interleaved_evolves & H3); [by destruct H3 as [[=] _]|].
  apply interleaved_bind in H3 as (t & m6 & Hn%interleaved_evolves & H3).
  apply interleaved_bind in H3 as ([e|] & m7 & Hs & H3); [by destruct H3 as [[=] _]|]. destruct H3 as [[= ->] H3].
  apply interleaved_ask in Hs as (s3 & s4 & Hs1 & Hd & Hs2 & Hs3). cbn [documented effect] in Hd. subst s4.
  split; [done|]. exists (put (set_finished time_text t (set_failed lastErr (with_label j1))) s3). eexists. split_and!.
  - exact (evolves_trans _ _ _ H1 (evolves_trans _ _ _ H2 (evolves_trans _ _ _ Hi (evolves_trans _ _ _ Ha (evolves_trans _ _ _ Hn (evolves_trans _ _ _ Hs1 Hs2)))))).
  - exact (evolves_trans _ _ _ Hs3 H3).
  - cbn [put published]. rewrite last_states_snoc. cbn [job_id set_finished set_failed with_label]. rewrite Hid. apply lookup_insert_eq.
  - done.
Qed.

(** *** Public jobs *)

Lemma caught_public s s' id j : caught s s' id j → (∃ j', j' ∈ published s ∧ job_id j' = id ∧ Private j' = false) → Private j = false.
Proof.
  intros [E (m & j0 & H1 & H2 & Hl & El)] (j' & Hj' & E' & Hp). apply last_states_some in Hl as [Hin Hid].
  assert (job_action j = job_action j0) as Ea by (by injection El). unfold Private in *. rewrite Ea.
  rewrite (so_action _ _ (ev_ok _ _ H2) j0 j' Hin); [done| |congruence]. destruct (ev_published _ _ H1) as [k ->]. apply elem_of_app. by left.
Qed.

Definition newest (s : store) : list string := take 200 (rev (by_age (index s))).

Lemma newest_public s id : store_ok False s → id ∈ newest s → ∃ j, j ∈ published s ∧ job_id j = id ∧ Private j = false.
Proof.
  intros Hs H. apply (so_index _ _ Hs), by_age_elem. unfold newest in H. apply elem_of_take in H as (i & H & _).
  apply list_elem_of_lookup_2, list_elem_of_In, in_rev, list_elem_of_In in H. done.
Qed.
Lemma newest_NoDup s : NoDup (newest s).
Proof. unfold newest. apply (sublist_NoDup _ (rev (by_age (index s)))); [|apply sublist_take]. rewrite NoDup_ListNoDup. apply List.NoDup_rev. rewrite <- NoDup_ListNoDup. apply by_age_NoDup. Qed.

(** The first batch holds public jobs only, so there is one. *)
Lemma interleaved_batch batch fetched s fetched' s' : interleaved (public_batch time_text log_time batch fetched) s (inl fetched') s' →
  (∀ id, id ∈ batch → ∃ j, j ∈ published s ∧ job_id j = id ∧ Private j = false) → (length fetched + length batch ≤ 200)%nat →
  ∃ more, fetched' = (fetched ++ more)%list ∧ more.*1 = batch ∧ Forall (λ e, caught s s' e.1 e.2 ∧ Private e.2 = false) more.
Proof.
  revert s fetched. induction batch as [|id batch IH]; intros s fetched.
  - intros [[= ->] _] _ _. exists []. by rewrite app_nil_r.
  - intros (j & m & Hg & H)%interleaved_checked Hpub Hlen. pose proof (interleaved_evolves _ _ _ _ Hg) as H1.
    pose proof (interleaved_evolves _ _ _ _ H) as H2. apply interleaved_Get in Hg.
    assert (Private j = false) as Hp by (apply (caught_public s m id j Hg), Hpub; by left).
    assert (caught s s' id j) as Hc by (eapply caught_widen; [|exact H2|exact Hg]; destruct H1; by apply evolves_refl).
    rewrite Hp in H. cbn [length] in Hlen. assert (length (fetched ++ [(id, j)])%list = Datatypes.S (length fetched)) as Hl by (rewrite length_app; cbn; lia).
    cbv zeta in H. destruct (Nat.eqb_spec (length (fetched ++ [(id, j)])%list) 200) as [E|E].
    + destruct H as [[= ->] _]. assert (batch = []) as -> by (apply nil_length_inv; lia). exists [(id, j)]. split_and!; [done|done|by apply Forall_singleton].
    + apply IH in H as (more & -> & <- & Hf).
      * exists ((id, j) :: more). split_and!; [by rewrite <- app_assoc|done|]. constructor; [done|]. eapply Forall_impl; [exact Hf|].
        intros e [He ?]. split; [|done]. eapply caught_widen; [exact H1| |exact He]. destruct H2; by apply evolves_refl.
      * intros id' Hid. destruct (Hpub id') as (j' & ? & ? & ?); [by right|]. exists j'. split_and!; [|done|done].
        destruct (ev_published _ _ H1) as [k ->]. apply elem_of_app. by left.
      * lia.
Qed.

Lemma interleaved_public_ids pages s fetched s' : interleaved (public_ids time_text log_time pages 0 []) s (inl fetched) s' →
  ∃ m, evolves s m ∧ evolves m s' ∧ fetched.*1 = newest m ∧ Forall (λ e, caught s s' e.1 e.2 ∧ Private e.2 = false) fetched.
Proof.
  destruct pages as [|pages]; cbn [public_ids]; [by intros [[=] _]|].
  intros (batch & m1 & (s1 & s2 & H1 & [-> Hr] & _ & H2)%interleaved_ask & H)%interleaved_checked.
  change (0 + 199)%Z with 199%Z in Hr. cbn [reading] in Hr. rewrite zrange_take in Hr by lia. change (Z.to_nat (199 + 1)) with 200%nat in Hr.
  fold (newest s1) in Hr. apply interleaved_checked in H as (fetched1 & m2 & Hb & H). pose proof (interleaved_evolves _ _ _ _ Hb) as H3.
  pose proof (interleaved_evolves _ _ _ _ H) as H4. assert (length batch ≤ 200)%nat as Hlen by (subst batch; unfold newest; rewrite length_take; lia).
  apply interleaved_batch in Hb as (more & E & Em & Hf); [|subst batch|done].
  2: { intros id Hid. destruct (newest_public s1 id (ev_ok' _ _ H1) Hid) as (j & ? & ? & ?). exists j. split_and!; [|done|done].
       destruct (ev_published _ _ H2) as [k ->]. apply elem_of_app. by left. }
  cbn [app] in E. subst fetched1. assert (length more = length batch) as El by (by rewrite <- Em, length_fmap).
  assert (fetched = more) as ->.
  { destruct (Nat.ltb_spec (length batch) 200) as [|Hge]; [by destruct H as [[= ->] _]|]. destruct pages as [|pages]; cbn [public_ids] in H; [by destruct H as [[=] _]|].
    destruct (Nat.leb_spec 200 (length more)); [by destruct H as [[= ->] _]|lia]. }
  exists s1. split_and!; [done|exact (evolves_trans _ _ _ H2 (evolves_trans _ _ _ H3 H4))|by rewrite Em|]. eapply Forall_impl; [exact Hf|].
  intros e [He ?]. split; [|done]. exact (caught_widen _ _ _ _ _ _ (evolves_trans _ _ _ H1 H2) H4 He).
Qed.

(** Adding the tasks keeps what was there, and repeats nothing. *)
Lemma append_new_spec l more : NoDup l → NoDup (append_new l more) ∧ l `prefix_of` append_new l more.
Proof.
  unfold append_new. revert l. induction more as [|id more IH]; intros l Hl; [done|]. cbn [fold_left].
  destruct (includes_str l id) eqn:E; [by apply IH|]. apply includes_str_false in E.
  destruct (IH (l ++ [id])%list) as [H1 H2].
  - apply NoDup_app. split_and!; [done| |apply NoDup_singleton]. intros x Hx ->%list_elem_of_singleton. done.
  - split; [done|]. etrans; [|exact H2]. by apply prefix_app_r.
Qed.

Lemma interleaved_task_pages pages active page l s l' s' : interleaved (task_pages pages active page l) s (inl l') s' →
  NoDup l → NoDup l' ∧ l `prefix_of` l'.
Proof.
  revert page l s. induction pages as [|pages IH]; intros page l s; cbn [task_pages]; [by intros [[=] _]|].
  intros ([tasks|] & m & _ & H)%interleaved_checked Hl; [|by destruct H as [[= ->] _]].
  destruct (append_new_spec l tasks Hl) as [H1 H2]. destruct (length tasks <? 100)%nat; [by destruct H as [[= ->] _]|].
  apply IH in H as [H3 H4]; [|done]. split; [done|]. by etrans.
Qed.

Lemma fetched_job_some fetched id j : fetched_job fetched id = Some j → (id, j) ∈ fetched.
Proof.
  unfold fetched_job. destruct (last _) as [[id' j']|] eqn:E; [|done]. intros [= ->]. apply last_Some_elem_of, list_elem_of_filter in E.
  destruct E as [E ?]. cbn in E. by subst.
Qed.
Lemma fetched_job_in fetched id : id ∈ fetched.*1 → is_Some (fetched_job fetched id).
Proof.
  intros ([id' j] & -> & H)%list_elem_of_fmap. unfold fetched_job. destruct (last _) as [e|] eqn:E; [by eexists|].
  apply last_None in E. exfalso. apply (not_elem_of_nil (id', j)). rewrite <- E. by apply list_elem_of_filter.
Qed.

(** The jobs found for a list of identifiers. *)
Lemma found_jobs (P : Job → Prop) (known : string → Prop) l found :
  Forall2 (λ id v, (∀ j, v = Some j → job_id j = id ∧ P j) ∧ (known id → is_Some v)) l found →
  let jobs := omap (λ j, j) found in
  ids jobs `sublist_of` l ∧ Forall P jobs ∧ (∀ id, id ∈ l → known id → id ∈ ids jobs).
Proof.
  unfold ids. induction 1 as [|id v l found [Hv Hk] _ (IH1 & IH2 & IH3)]; [split_and!; [done|constructor|by intros ? ?%not_elem_of_nil]|].
  cbn [omap list_omap]. destruct v as [j|].
  - destruct (Hv j eq_refl) as [E Hj]. cbn [fmap list_fmap]. rewrite E. split_and!; [by apply sublist_skip|by constructor|].
    intros id' [->|H]%elem_of_cons Hid; [by left|right; by apply IH3].
  - split_and!; [by apply sublist_cons|done|]. intros id' [->|H]%elem_of_cons Hid; [by destruct (Hk Hid)|by apply IH3].
Qed.

Lemma interleaved_PublicList pages s list s' : interleaved (PublicList time_text log_time pages) s (inl list) s' →
  NoDup (ids list) ∧ Forall (λ j, caught s s' (job_id j) j ∧ Private j = false) list ∧
  ∃ m, evolves s m ∧ evolves m s' ∧ ∀ id, id ∈ newest m → id ∈ ids list.
Proof.
  intros (fetched & m1 & (m & Hm & Hm' & Ei & Hf)%interleaved_public_ids & H)%interleaved_checked.
  apply interleaved_checked in H as (l & m2 & (l1 & m3 & Ha & Hb)%interleaved_checked & H).
  pose proof (interleaved_evolves _ _ _ _ Ha) as He1. pose proof (interleaved_evolves _ _ _ _ Hb) as He2. pose proof (interleaved_evolves _ _ _ _ H) as He3.
  apply interleaved_task_pages in Ha as [Hn1 Hp1]; [|rewrite Ei; apply newest_NoDup]. apply interleaved_task_pages in Hb as [Hn2 Hp2]; [|done].
  apply interleaved_checked in H as (found & m4 & Hj & [[= ->] He4]). pose proof (interleaved_evolves _ _ _ _ Hj) as He5.
  assert (evolves m1 s') as He6 by exact (evolves_trans _ _ _ He1 (evolves_trans _ _ _ He2 He3)).
  apply interleaved_for_each in Hj.
  destruct (found_jobs (λ j, caught s s' (job_id j) j ∧ Private j = false) (.∈ fetched.*1) l found) as (H1 & H2 & H3).
  - eapply Forall2_impl; [exact Hj|]. intros id v (n & n' & Hn & Hi & Hn'). split.
    + destruct (fetched_job fetched id) as [j|] eqn:E.
      * destruct Hi as [[= ->] _]. intros ? [= <-]. apply fetched_job_some in E. rewrite Forall_forall in Hf. destruct (Hf _ E) as [Hc Hp]. cbn [fst snd] in *.
        pose proof (proj1 Hc) as Eid. split; [exact Eid|]. split; [|done]. cbn [job_id with_logs]. rewrite Eid.
        exact (caught_widen _ _ _ _ _ _ (evolves_refl _ (ev_ok _ _ Hm) (ev_step _ _ Hm)) He6 Hc).
      * apply interleaved_checked in Hi as (j & k & Hg & [[= ->] Hk]). apply interleaved_Get in Hg.
        intros j' Hj'. destruct (Private j) eqn:Hp; [done|]. injection Hj' as <-. pose proof (proj1 Hg) as Eid. split; [exact Eid|]. split; [|done].
        cbn [job_id with_logs]. rewrite Eid.
        exact (caught_widen _ _ _ _ _ _ (evolves_trans _ _ _ Hm (evolves_trans _ _ _ Hm' (evolves_trans _ _ _ He1 (evolves_trans _ _ _ He2 Hn))))
                 (evolves_trans _ _ _ Hk (evolves_trans _ _ _ Hn' He4)) Hg).
    + intros Hk%fetched_job_in. destruct (fetched_job fetched id) as [j|]; [|by destruct Hk]. by destruct Hi as [[= ->] _].
  - split_and!; [by apply (sublist_NoDup _ l)|done|]. exists m. split_and!; [done|exact (evolves_trans _ _ _ Hm' He6)|].
    intros id Hid. rewrite <- Ei in Hid. apply H3; [|done]. destruct Hp1 as [k1 ->], Hp2 as [k2 ->]. rewrite !elem_of_app. auto.
Qed.
End snapshot.

(** ** The page *)

(** The messages that carry jobs. *)
Definition shown (ev : NotificationEvent) : bool := bool_decide (type ev = Snapshot ∨ type ev = Update).
Definition update (j : Job) : NotificationEvent := mkEvent Update None None (Some (with_label j)).
Definition public (j : Job) : bool := negb (Private j).

Lemma shown_stream generalized L inputs : List.filter shown (stream generalized L inputs) =
  sendJobsSnapshot L :: map update (List.filter public (payloads inputs)).
Proof.
  unfold stream. cbn [List.filter]. change (shown (sendJobsSnapshot L)) with true. f_equal.
  induction inputs as [|[r|j] inputs IH]; [done|exact IH|]. cbn [flat_map stream_update payloads omap list_omap List.filter].
  rewrite List.filter_app. fold (payloads inputs). rewrite IH. unfold sendStreamUpdate. change (Private (with_label j)) with (Private j). unfold public.
  destruct (Private j); cbn [negb]; [by destruct (_ && _)|]. cbn [List.filter]. by destruct (_ && _).
Qed.

Lemma apply_updates us m id : foldl apply_spec m (map update us) !! id =
  match last_states (with_label <$> us) !! id with Some j => Some j | None => m !! id end.
Proof.
  induction us as [|j us IH] using rev_ind; [done|]. rewrite map_app, foldl_app, fmap_app. cbn [map fmap list_fmap foldl].
  rewrite last_states_snoc. change (apply_spec ?m (update j)) with (<[job_id j := with_label j]> m). cbn [job_id with_label].
  destruct (decide (job_id j = id)) as [<-|]; [by rewrite !lookup_insert_eq|]. by rewrite !lookup_insert_ne.
Qed.

Lemma last_states_public E id : (∀ j, j ∈ E → job_id j = id → Private j = false) →
  last_states (with_label <$> List.filter public E) !! id = with_label <$> last_states E !! id.
Proof.
  induction E as [|j E IH] using rev_ind; [done|]. intros H. rewrite List.filter_app. cbn [List.filter]. rewrite last_states_snoc.
  assert (∀ j', j' ∈ E → job_id j' = id → Private j' = false) as H' by (intros j' ? ?; apply H; [apply elem_of_app; by left|done]).
  unfold public at 2. destruct (decide (job_id j = id)) as [<-|Hn].
  - rewrite (H j) by (done || (apply elem_of_app; right; by left)). cbn [negb]. rewrite fmap_app. cbn [fmap list_fmap]. rewrite last_states_snoc.
    cbn [job_id with_label]. by rewrite !lookup_insert_eq.
  - destruct (Private j); cbn [negb].
    + rewrite app_nil_r, lookup_insert_ne by done. by apply IH.
    + rewrite fmap_app. cbn [fmap list_fmap]. rewrite last_states_snoc. cbn [job_id with_label]. rewrite !lookup_insert_ne by done. by apply IH.
Qed.

Lemma latest_elem l j : NoDup (ids l) → j ∈ l → latest l !! job_id j = Some j.
Proof.
  induction l as [|j0 l IH]; [by intros _ ?%not_elem_of_nil|]. cbn. intros [Hn Hnd]%NoDup_cons [->|H]%elem_of_cons; [by rewrite lookup_insert_eq|].
  rewrite lookup_insert_ne; [by apply IH|]. intros E. apply Hn. rewrite E. by apply list_elem_of_fmap_2.
Qed.

Lemma latest_some l id j : latest l !! id = Some j → j ∈ l ∧ job_id j = id.
Proof.
  induction l as [|j0 l IH]; [done|]. cbn [latest foldr]. intros [[<- <-]|[_ H]]%lookup_insert_Some; [split; [by left|done]|].
  destruct (IH H). split; [by right|done].
Qed.

Lemma latest_in l id : id ∈ ids l → is_Some (latest l !! id).
Proof.
  induction l as [|j0 l IH]; [by intros ?%not_elem_of_nil|]. cbn [latest foldr ids fmap list_fmap].
  destruct (decide (job_id j0 = id)) as [<-|Hn]; [by rewrite lookup_insert_eq|]. rewrite lookup_insert_ne by done.
  intros [?|H]%elem_of_cons; [done|by apply IH].
Qed.

(** What the page shows for the snapshot [L] and the events [E]. *)
Definition page_states (L E : list Job) : gmap string Job := foldl apply_spec (latest L) (map update (List.filter public E)).

(** The states the page shows are the last ones the server published. *)
Lemma page_states_last s1 s2 s3 L E id j :
  Forall (λ j, caught s1 s2 (job_id j) j ∧ Private j = false) L → evolves s2 s3 → published s3 = (published s1 ++ E)%list →
  records s3 !! id = Some j → Private j = false → id ∈ ids L ∨ id ∈ ids E →
  ∃ j', page_states L E !! id = Some j' ∧ listed j' = listed j.
Proof.
  intros HL H23 HE Hj Hp Hin. unfold page_states. rewrite apply_updates.
  pose proof (ev_step' _ _ H23 _ _ Hj) as Hlast. rewrite HE, last_states_app in Hlast.
  assert (∀ j', j' ∈ E → job_id j' = id → Private j' = false) as Hpub.
  { intros j' Hj' Eid. unfold Private in *. destruct (so_record _ _ (ev_ok' _ _ H23) _ _ Hj) as [Eid' Hjp].
    rewrite (so_action _ _ (ev_ok' _ _ H23) j' j); [done| |done|congruence]. rewrite HE. apply elem_of_app. by right. }
  rewrite (last_states_public E id Hpub). destruct (last_states E !! id) as [je|] eqn:Ee; cbn.
  - injection Hlast as ->. by exists (with_label j).
  - pose proof (proj1 (last_states_none E id) Ee) as Hn. destruct Hin as [Hin|]; [|done].
    destruct (latest_in L id Hin) as [jl Hl]. exists jl. split; [done|]. destruct (latest_some L id jl Hl) as [HjL Eid].
    rewrite Forall_forall in HL. destruct (HL jl HjL) as [[_ (m & j0 & H1 & H2 & Hm & El)] _]. rewrite El. f_equal.
    destruct (ev_published _ _ H1) as [k1 E1], (ev_published _ _ H2) as [k2 E2], (ev_published _ _ H23) as [k3 E3].
    assert (E = k1 ++ k2 ++ k3)%list as EE.
    { apply (app_inv_head (published s1)). rewrite <- HE, E3, E2, E1. by rewrite <- !app_assoc. }
    rewrite E1, last_states_app, Eid in Hm. assert (last_states k1 !! id = None) as Hk.
    { apply last_states_none. intros Hk. apply Hn. rewrite EE. unfold ids in *. rewrite fmap_app, elem_of_app. by left. }
    rewrite Hk in Hm. congruence.
Qed.

Lemma page_states_public L E id j : Forall (λ j, Private j = false) L → page_states L E !! id = Some j → Private j = false.
Proof.
  intros HL. unfold page_states. rewrite apply_updates. destruct (last_states _ !! id) as [j'|] eqn:Ej.
  - intros [= <-]. apply last_states_some in Ej as [(j0 & -> & H0)%list_elem_of_fmap _]. apply list_elem_of_In, filter_In in H0 as [_ Hp].
    unfold public in Hp. by apply negb_true_iff in Hp.
  - intros [Hj _]%latest_some. rewrite Forall_forall in HL. by apply HL.
Qed.

Lemma page_states_listed L E id : id ∈ ids L → is_Some (page_states L E !! id).
Proof. intros H%latest_in. unfold page_states. rewrite apply_updates. by destruct (last_states _ !! id). Qed.

Lemma latest_snapshot m L : apply_spec m (sendJobsSnapshot L) = latest L.
Proof. unfold apply_spec. cbn. by destruct L. Qed.

(** A page that heard a stream shows [page_states]. *)
Lemma page_heard generalized L inputs c ces : NoDup (ids L) → heard c ces = List.filter shown (stream generalized L inputs) →
  NoDup (ids (data (resource c))) →
  latest (data (resource (run NotificationStream.step c ces).1)) = page_states L (payloads inputs) ∧
  NoDup (ids (data (resource (run NotificationStream.step c ces).1))).
Proof.
  intros HL Hh Hn. destruct (run_data c ces) as [H1 H2]. rewrite Hh, shown_stream in H1, H2. split.
  - rewrite H1. cbn [foldl]. by rewrite latest_snapshot.
  - apply H2; [|done]. constructor; [unfold well_formed; by destruct L|]. apply Forall_forall. intros ev (j & -> & _)%list_elem_of_fmap. constructor.
Qed.

Lemma interleaved_after {A} (p : prog A) s a m s' : interleaved p s a m → evolves m s' → interleaved p s a s'.
Proof.
  intros Hp Hm. revert s Hp. induction p as [b|B k c IH]; intros s; cbn; [intros [? ?]; split; [done|by eapply evolves_trans]|].
  intros (s1 & r & s2 & ? & ? & ? & ?). exists s1, r, s2. auto.
Qed.


(** The snapshot of a stream that a server runs. *)
Lemma snapshot_interleaved {S} `{!Service S} time_text log_time time_of quoted (w : server S) pages es L :
  good w → let w' := (run (JobService.step time_text log_time time_of quoted) w (Spawn (CPublicList pages) :: es)).1 in
  code_of w' (length (threads w)) = Some (Ret (OJobs (inl L))) →
  interleaved (PublicList time_text log_time pages) (view (service w)) (inl L) (view (service w')) ∧ good w'.
Proof.
  intros Hw w' Hc. destruct (good_step time_text log_time time_of quoted w (Spawn (CPublicList pages)) Hw) as [Hg _].
  subst w'. rewrite run_cons in *. change (view (service w)) with (view (service (JobService.step time_text log_time time_of quoted w (Spawn (CPublicList pages))).1)).
  assert (code_of (JobService.step time_text log_time time_of quoted w (Spawn (CPublicList pages))).1 (length (threads w)) =
    Some (r ← PublicList time_text log_time pages; Ret (OJobs r))) as Hc1.
  { unfold code_of. cbn [JobService.step fst call_code threads]. by rewrite lookup_app_r, Nat.sub_diag by done. }
  split; [|by apply good_run].
  destruct (interleaved_bind _ _ _ _ _ (thread_interleaved _ _ _ _ _ _ es _ _ Hg Hc1 Hc)) as (r & m & Hi & [[= <-] Hm]).
  by eapply interleaved_after.
Qed.

(** C11. What a page shows is what the server has. A stream subscribes, reads its snapshot while everything else
    goes on, and forwards the events; a page whose connection hears its messages shows each job once and public
    jobs only; every public record of a job that was in the snapshot or was saved since is shown in its current
    state, whatever submissions, workers and maintenance did in between and however their saves fell between the
    subscription and the snapshot; and the two hundred newest jobs of the index, at some moment of the snapshot,
    are among those shown. *)
Theorem page_follows_server {S} `{!Service S} time_text log_time time_of quoted generalized (s : S) es1 pages es2 es3 L inputs c ces :
  view s = empty_store →
  let step := JobService.step time_text log_time time_of quoted in
  let w1 := (run step (mkServer s []) es1).1 in
  let w2 := (run step w1 (Spawn (CPublicList pages) :: es2)).1 in
  let w3 := (run step w2 es3).1 in
  let since := drop (length (published (view (service w1)))) (published (view (service w3))) in
  code_of w2 (length (threads w1)) = Some (Ret (OJobs (inl L))) → payloads inputs = since →
  heard c ces = List.filter shown (stream generalized L inputs) → NoDup (ids (data (resource c))) →
  let d := data (resource (run NotificationStream.step c ces).1) in
  NoDup (ids d) ∧ Forall (λ j, Private j = false) d ∧
  (∀ id j, records (view (service w3)) !! id = Some j → Private j = false → id ∈ ids L ∨ id ∈ ids since →
     ∃ j', latest d !! id = Some j' ∧ listed j' = listed j) ∧
  (∃ n, evolves (view (service w1)) n ∧ evolves n (view (service w2)) ∧ ∀ id, id ∈ newest n → id ∈ ids d).
Proof.
  intros Hs step w1 w2 w3 since HL Hin Hheard Hnd d.
  destruct (good_run time_text log_time time_of quoted (mkServer s []) es1 (good_start s Hs)) as [Hg1 _]. fold step w1 in Hg1.
  destruct (snapshot_interleaved time_text log_time time_of quoted w1 pages es2 L Hg1 HL) as [Hi Hg2]. fold step w2 in Hi, Hg2.
  destruct (good_run time_text log_time time_of quoted w2 es3 Hg2) as [_ H23]. fold step w3 in H23.
  pose proof (interleaved_evolves _ _ _ _ Hi) as H12.
  destruct (interleaved_PublicList _ _ _ _ _ _ Hi) as (HnL & HpL & n & Hn1 & Hn2 & Hnew).
  destruct (page_heard generalized L inputs c ces HnL Hheard Hnd) as [Hd Hnd']. fold d in Hd, Hnd'.
  assert (published (view (service w3)) = published (view (service w1)) ++ since)%list as Hsince.
  { destruct (ev_published _ _ (evolves_trans _ _ _ H12 H23)) as [k E]. unfold since. by rewrite E, drop_app_length. }
  rewrite Hin in Hd. split_and!; [done| | |].
  - apply Forall_forall. intros j Hj. apply (page_states_public L since (job_id j)).
    + eapply Forall_impl; [exact HpL|]. by intros ? [_ ?].
    + rewrite <- Hd. by apply latest_elem.
  - intros id j Hj Hp Hid. rewrite Hd. by apply (page_states_last (view (service w1)) (view (service w2)) (view (service w3))).
  - exists n. split_and!; [done|done|]. intros id Hid. destruct (page_states_listed L since id (Hnew id Hid)) as [j Hj]. rewrite <- Hd in Hj.
    destruct (latest_some _ _ _ Hj) as [Hin' <-]. by apply list_elem_of_fmap_2.
Qed.

(** A machine is started while a page connects: the snapshot is read between the commands of the worker. *)
#[local] Instance sample_services : Service memory := memory_service (λ _, ["working"]) (λ p, ("", None)) (λ _, TaskNotFound).
Notation sample_server_run := (run (JobService.step clock_text clock_text (λ _, 0%Z) (λ s, s))).

Definition before_stream : list JobService.event :=
  (Spawn (CSubmit sample_payload) :: repeat (Advance 0) 20 ++ Spawn (CTask 50 0) :: repeat (Advance 1) 6)%list.
Definition during_snapshot : list JobService.event := concat (repeat [Advance 1; Advance 2] 10).
Definition after_snapshot : list JobService.event := repeat (Advance 1) 10.

Definition server_before : server memory := (sample_server_run (mkServer (mkMemory empty_store 0) []) before_stream).1.
Definition server_then : server memory := (sample_server_run server_before (Spawn (CPublicList 3) :: during_snapshot)).1.
Definition server_after : server memory := (sample_server_run server_then after_snapshot).1.
Definition sample_snapshot : list Job :=
  match code_of server_then 2 with Some (Ret (OJobs (inl L))) => L | _ => [] end.
Definition sample_inputs : list stream_input :=
  Changed ["vms"] :: map Event (drop (length (published (view (service server_before)))) (published (view (service server_after)))).
Definition sample_page : connection := (run NotificationStream.step (created [] (Some "token")) [SocketOpen]).1.
Definition sample_messages : list NotificationStream.event := map (λ ev, SocketMessage (Some ev)) (stream true sample_snapshot sample_inputs).

Lemma page_follows_server_witness :
  (job_state <$> sample_snapshot, length sample_inputs) = ([Running], 3%nat) ∧
  ∃ j, latest (data (resource (run NotificationStream.step sample_page sample_messages).1)) !! "i" = Some j ∧ job_state j = Succeeded.
Proof.
  split; [vm_compute; reflexivity|].
  destruct (page_follows_server (S := memory) clock_text clock_text (λ _, 0%Z) (λ s, s) true (mkMemory empty_store 0)
    before_stream 3 during_snapshot after_snapshot sample_snapshot sample_inputs sample_page sample_messages) as (_ & _ & H & _);
    [reflexivity|vm_compute; reflexivity|vm_compute; reflexivity|vm_compute; reflexivity|constructor|].
  edestruct (H "i") as (j & Hj & E); [vm_compute; reflexivity|reflexivity|left; vm_compute; left|]. clear H.
  exists j. split; [exact Hj|]. injection E. congruence.
Defined.
