(* ===== verification/JobRuns.v ===== *)
(** * What the functions of the queue do

    The functions of [JobQueue] run alone, on the service in memory: what a worker leaves of a job, what the
    history keeps, and what becomes of jobs whose task is gone; and what can happen to one when the
    reconciliation is not alone. *)

From stdpp Require Import sorting.
From S2P Require Import Prelude JsString Json Types Activity JobQueue JobService JobSafety.
Local Open Scope string_scope.

Lemma store_eq s s' : records s = records s' → logs s = logs s' → index s = index s' → published s = published s' → enqueued s = enqueued s' →
  lock s = lock s' → issued s = issued s' → begun s = begun s' → ended s = ended s' → ttl s = ttl s' → s = s'.
Proof. destruct s, s'. cbn. congruence. Qed.

(** ** Lists and ranges *)

Lemma concat_slices n (l : list string) : (length l ≤ n)%nat → concat (slices_of n l) = l.
Proof.
  revert l. induction n as [|n IH]; intros l Hl; [by destruct l; [|cbn in Hl; lia]|]. destruct l as [|x l]; [done|].
  cbn [slices_of concat]. rewrite IH; [by rewrite take_drop|]. rewrite length_drop. cbn in *. lia.
Qed.

Lemma zrange_all {A} (l : list A) : zrange l 0 (-1) = l.
Proof.
  unfold zrange. cbn [Z.ltb Z.compare]. destruct (Z.ltb_spec (Z.of_nat (length l) + -1) 0) as [H|H].
  - by destruct l; [|cbn in H; lia].
  - rewrite drop_0. apply take_ge. lia.
Qed.

(** All but the last [n]. *)
Lemma zrange_oldest {A} (l : list A) (n : nat) : (0 < n)%nat → zrange l 0 (- (Z.of_nat n + 1)) = take (length l - n) l.
Proof.
  intros Hn. unfold zrange. change (0 <? 0)%Z with false. cbv zeta iota. assert ((- (Z.of_nat n + 1) <? 0)%Z = true) as -> by (apply Z.ltb_lt; lia).
  destruct (Z.ltb_spec (Z.of_nat (length l) + - (Z.of_nat n + 1)) 0) as [H|H].
  - replace (length l - n)%nat with 0%nat by lia. done.
  - rewrite drop_0. f_equal. lia.
Qed.

Lemma trimmed_elem (r : gmap string Job) l id : id ∈ trimmed l (map (λ id, r !! id) l) ↔
  id ∈ l ∧ ∀ j, r !! id = Some j → terminal (job_state j) = true.
Proof.
  unfold trimmed. induction l as [|x l IH].
  - split; [by intros ?%not_elem_of_nil|by intros [?%not_elem_of_nil _]].
  - cbn [map zip zip_with omap list_omap]. assert (∀ j, r !! x = Some j → terminal (job_state j) = false → id = x → ¬ (∀ j, r !! id = Some j → terminal (job_state j) = true)) as Hno.
    { intros j Hj Ht -> H. rewrite (H j Hj) in Ht. done. }
    destruct (r !! x) as [j|] eqn:E; [destruct (terminal (job_state j)) eqn:Ht|]; rewrite ?elem_of_cons, IH.
    + split; [|by intros [[->|?] ?]; [left|right]]. intros [->|[? ?]]; [|by split; [right|]]. split; [by left|]. intros j' Hj'. congruence.
    + split; [by intros [? ?]; split; [right|]|]. intros [[Ex|Hin] Hall]; [by destruct (Hno j eq_refl Ht Ex)|done].
    + split; [|by intros [[->|?] ?]; [left|right]]. intros [->|[? ?]]; [|by split; [right|]]. split; [by left|]. intros j' Hj'. congruence.
Qed.

Lemma foldr_delete_lookup {A} (m : gmap string A) l id : foldr delete m l !! id = if decide (id ∈ l) then None else m !! id.
Proof.
  induction l as [|x l IH]; [by rewrite decide_False by apply not_elem_of_nil|]. cbn [foldr]. destruct (decide (x = id)) as [->|Hn].
  - rewrite lookup_delete_eq, decide_True; [done|by left].
  - rewrite lookup_delete_ne, IH by done. destruct (decide (id ∈ l)), (decide (id ∈ x :: l)); try done; exfalso; set_solver.
Qed.

(** ** The operations there are *)

(** The operations, by the result their jobs show: the identifier of what they made; the target, when they are done; the
    target, however they end. *)
Definition making : list string := ["vm.create"; "network.create"; "vm.backup"; "vm.backup.restore"].
Definition targeting_when_done : list string := ["vm.backup.prune"; "vm.snapshot.create"].
Definition targeting : list string :=
  ["vm.start"; "vm.stop"; "vm.shutdown"; "vm.delete"; "vm.hardware"; "vm.screenshot"; "vm.disk.add"; "vm.disk.remove"; "vm.disk.grow";
   "vm.interface.add"; "vm.interface.update"; "vm.interface.remove"; "vm.usb.assign"; "vm.usb.unassign"; "vm.usb.attach"; "vm.usb.detach";
   "vm.backup.delete"; "vm.snapshot.restore"; "vm.snapshot.delete"; "network.update"; "network.apply"; "network.destroy"; "catalog.download"].
Definition offered (p : Payload) : bool := bool_decide (p_action p ∈ (making ++ targeting_when_done ++ targeting)%list).

Lemma offered_actions a : a ∈ (making ++ targeting_when_done ++ targeting)%list ↔ a ∈ actions.
Proof. split; revert a; apply Forall_forall; by apply (bool_decide_unpack _); vm_compute. Qed.
Lemma offered_spec p : offered p = includes_str actions (p_action p).
Proof. unfold offered. apply eq_true_iff_eq. by rewrite bool_decide_eq_true, includes_str_spec, offered_actions. Qed.

(** ** Functions alone *)

Section alone.
Context (time_text log_time : Z → string) (time_of : string → Z) (quoted : string → string).
Context (engine_log : Payload → list string) (engine : Payload → string * option string) (tasks : string → task_info).

(** A function run to its end. *)
Fixpoint alone {A} (p : prog A) (m : memory) : A * memory :=
  match p with
  | Ret a => (a, m)
  | Do c k => let '(r, m') := mem_perform engine_log engine tasks _ c m in alone (k r) m'
  end.

Lemma alone_bind {A B} (f : A → prog B) p m : alone (prog_bind f p) m = let '(a, m') := alone p m in alone (f a) m'.
Proof. revert m. induction p as [a|C c k IH]; intros m; [done|]. cbn. destruct (mem_perform _ _ _ C c m) as [r m']. apply IH. Qed.

(** The log of a job after messages at successive instants. *)
Fixpoint stamped (t : Z) (messages : list string) : list string :=
  match messages with [] => [] | m :: messages => (log_time t ++ " " ++ m) :: stamped (t + 1) messages end.

Lemma alone_now {A} (k : Z → prog A) s t : alone (prog_bind k (ask Now)) (mkMemory s t) = alone (k t) (mkMemory s (t + 1)).
Proof. done. Qed.
Lemma alone_save {A} (k : option string → prog A) j s t : alone (prog_bind k (ask (SaveJob j))) (mkMemory s t) = alone (k None) (mkMemory (put j s) t).
Proof. done. Qed.
Lemma alone_append {A} (k : option string → prog A) id msg s t :
  alone (prog_bind k (appendLog log_time id msg)) (mkMemory s t) = alone (k None) (mkMemory (push_log id (log_time t ++ " " ++ msg) s) (t + 1)).
Proof. done. Qed.
Lemma alone_begin {A} (k : list string → prog A) p s t : alone (prog_bind k (ask (Begin p))) (mkMemory s t) = alone (k (engine_log p)) (mkMemory (add_begun p s) t).
Proof. done. Qed.
Lemma alone_finish {A} (k : string * option string → prog A) p s t : alone (prog_bind k (ask (Finish p))) (mkMemory s t) = alone (k (engine p)) (mkMemory (add_ended p s) t).
Proof. done. Qed.

Definition with_log (id : string) (l : list string) (s : store) : store :=
  mkStore (records s) (<[id := l]> (logs s)) (index s) (published s) (enqueued s) (lock s) (issued s) (begun s) (ended s) (ttl s).

Lemma alone_logs id messages s t l : logs s !! id = Some l →
  alone (for_all (appendLog log_time id) messages) (mkMemory s t) =
  (tt, mkMemory (with_log id (l ++ stamped t messages) s) (t + Z.of_nat (length messages))).
Proof.
  revert s t l. induction messages as [|msg messages IH]; intros s t l Hl.
  - cbn. unfold with_log. rewrite app_nil_r, insert_id, Z.add_0_r by done. by destruct s.
  - cbn [for_all]. unfold mbind, prog_mbind. rewrite alone_bind.
    change (alone (appendLog log_time id msg) (mkMemory s t)) with (@None string, mkMemory (push_log id (log_time t ++ " " ++ msg) s) (t + 1)).
    cbv iota beta. rewrite (IH _ _ (l ++ [(log_time t ++ " " ++ msg)%string])%list) by (cbn; rewrite Hl; apply lookup_insert_eq).
    f_equal. f_equal; [|cbn [length]; lia]. unfold with_log, push_log. cbn. by rewrite Hl, insert_insert_eq, <- app_assoc.
Qed.

(** What [Get] gives of a record whose task is not given up. *)
Definition refreshed (id : string) (j : Job) (s : store) : Job := with_logs (default [] (logs s !! id)) (with_label j).

Lemma alone_Get id j s t : records s !! id = Some j → job_id j = id → (∀ e, tasks id ≠ TaskFound true e) →
  alone (Get time_text log_time id) (mkMemory s t) = (inl (refreshed id j s), mkMemory s t).
Proof.
  intros Hj <- Ht. cbn. rewrite Hj. cbn. destruct (terminal (job_state j)); [done|]. cbn.
  destruct (tasks (job_id j)) as [[] e| |e] eqn:E; try done. by destruct (Ht e).
Qed.

(** *** A worker *)

(** What an execution logs, gives, and asks of the engine. *)
Definition known (p : Payload) : bool := includes_str actions (p_action p).
Definition logged (p : Payload) : list string := if known p then engine_log p else [].
Definition outcome_of (p : Payload) : string * option string :=
  if known p then (result_of p (fst (engine p)) (snd (engine p)), snd (engine p)) else ("", Some ("unknown action " ++ quoted (p_action p))).

Definition worked (p : Payload) (s : store) : store := if known p then add_ended p (add_begun p s) else s.

Lemma alone_execute p s t l : logs s !! p_id p = Some l →
  alone (execute log_time quoted p) (mkMemory s t) =
  (outcome_of p, mkMemory (with_log (p_id p) (l ++ stamped t (logged p)) (worked p s)) (t + Z.of_nat (length (logged p)))).
Proof.
  intros Hl. unfold execute, outcome_of, logged, worked. fold (known p). destruct (known p).
  - unfold mbind, prog_mbind. rewrite alone_begin, alone_bind, (alone_logs _ _ _ _ l) by done. by rewrite alone_finish.
  - cbn. unfold with_log. rewrite app_nil_r, insert_id, Z.add_0_r by done. by destruct s.
Qed.

(** The states of a job that is processed, and its log. *)
Definition started_job (p : Payload) (j : Job) (s : store) (t : Z) : Job := set_started time_text t (refreshed (p_id p) j s).
Definition finish_time (p : Payload) (t : Z) : Z := t + 2 + Z.of_nat (length (logged p)).
Definition finished_job (p : Payload) (j : Job) (s : store) (t : Z) : Job :=
  set_outcome time_text (finish_time p t) (fst (outcome_of p)) (snd (outcome_of p)) (started_job p j s t).
Definition final_message (p : Payload) : string := match snd (outcome_of p) with Some e => "Failed: " ++ e | None => "Completed successfully" end.
Definition final_log (p : Payload) (j : Job) (s : store) (t : Z) : list string :=
  (default [] (logs s !! p_id p) ++ [log_time (t + 1) ++ " " ++ "Starting " ++ job_action j ++ " " ++ job_target j]%string ++
   stamped (t + 2) (logged p) ++ [log_time (finish_time p t + 1) ++ " " ++ final_message p]%string)%list.

Definition after_process (p : Payload) (j : Job) (s : store) (t : Z) : store :=
  let w := worked p s in
  mkStore (<[p_id p := finished_job p j s t]> (records s)) (<[p_id p := final_log p j s t]> (logs s)) (index s)
    (published s ++ [started_job p j s t; finished_job p j s t]) (enqueued s) (lock s) (issued s) (begun w) (ended w) (ttl s).

(** What processing a task alone comes to. *)
Definition process_spec (p : Payload) (s : store) (t : Z) : option string * store :=
  match records s !! p_id p with
  | None => (Some "redis: nil", s)
  | Some j =>
      if terminal (job_state j) then (None, s)
      else if job_started_at j then (Some "job interrupted; inspect resources before submitting again", s)
      else (snd (outcome_of p), after_process p j s t)
  end.

Lemma alone_process p s t : (∀ id j, records s !! id = Some j → job_id j = id) → (∀ e, tasks (p_id p) ≠ TaskFound true e) →
  ∃ t', alone (process time_text log_time quoted p) (mkMemory s t) = (fst (process_spec p s t), mkMemory (snd (process_spec p s t)) t').
Proof.
  intros Hids Htask. unfold process, process_spec, mbind, prog_mbind. rewrite alone_bind. destruct (records s !! p_id p) as [j|] eqn:Hj.
  2: { exists t. unfold Get. rewrite alone_bind. cbn [ask alone mem_perform content]. by rewrite Hj. }
  pose proof (Hids _ _ Hj) as Hid. rewrite (alone_Get _ j) by done. cbv iota beta.
  change (job_state (refreshed (p_id p) j s)) with (job_state j). change (job_started_at (refreshed (p_id p) j s)) with (job_started_at j).
  destruct (terminal (job_state j)); [by exists t|]. destruct (job_started_at j) as [started|] eqn:Hs; [by exists t|].
  unfold mbind, prog_mbind. rewrite alone_now. fold (started_job p j s t). rewrite alone_save, alone_append.
  change (job_id (started_job p j s t)) with (job_id j). change (job_action (started_job p j s t)) with (job_action j).
  change (job_target (started_job p j s t)) with (job_target j). rewrite Hid, alone_bind.
  set (l := (default [] (logs s !! p_id p) ++ [log_time (t + 1) ++ " " ++ ("Starting " ++ job_action j ++ " " ++ job_target j)]%string)%list).
  rewrite (alone_execute _ _ _ l) by (cbn [logs push_log put]; apply lookup_insert_eq).
  rewrite alone_now. replace (t + 1 + 1)%Z with (t + 2)%Z by lia. fold (finish_time p t).
  destruct (outcome_of p) as [result e] eqn:Eo. assert (set_outcome time_text (finish_time p t) result e (started_job p j s t) = finished_job p j s t) as ->
    by (unfold finished_job; by rewrite Eo).
  assert (match e with Some e => "Failed: " ++ e | None => "Completed successfully" end = final_message p) as -> by (unfold final_message; by rewrite Eo).
  rewrite alone_append, alone_save. cbn [alone]. eexists. f_equal. f_equal. cbn [fst snd].
  change (job_id (finished_job p j s t)) with (job_id j). rewrite Hid.
  apply store_eq; unfold worked; destruct (known p) eqn:Ek; try reflexivity; cbn [records logs published put push_log with_log add_ended add_begun after_process].
  all: change (job_id (finished_job p j s t)) with (job_id j); change (job_id (started_job p j s t)) with (job_id j).
  all: try (by rewrite Hid, insert_insert_eq); try (by rewrite <- app_assoc).
  all: try (cbn [begun ended after_process]; unfold worked; by rewrite Ek).
  all: rewrite lookup_insert_eq, !insert_insert_eq; change (default [] (Some ?x)) with x; unfold l, final_log; by rewrite <- !app_assoc.
Qed.

(** The lock and the identifiers are no part of what processing a task is. *)
Lemma process_spec_lock p s t l ms id :
  process_spec p (set_lock l ms (issue id s)) t = (fst (process_spec p s t), set_lock l ms (issue id (snd (process_spec p s t)))).
Proof.
  unfold process_spec. cbn [records set_lock issue]. destruct (records s !! p_id p) as [j|]; [|done].
  destruct (terminal (job_state j)); [done|]. destruct (job_started_at j); [done|]. cbn [fst snd]. f_equal. unfold after_process, worked.
  by destruct (known p).
Qed.

(** **** What a worker promises *)

(** The error of a task, and the text its job shows as result. *)
Definition task_error (p : Payload) : option string :=
  if offered p then snd (engine p) else Some ("unknown action " ++ quoted (p_action p)).
Definition task_result (p : Payload) : string :=
  if bool_decide (p_action p ∈ targeting) then p_target p
  else match task_error p with
       | Some _ => ""
       | None => if bool_decide (p_action p ∈ making) then fst (engine p) else p_target p
       end.

(** What is shown of the job of a task that starts at [t0], and ends at [t1] with an error or without. *)
Definition shown_running (p : Payload) (j : Job) (log : list string) (t0 : Z) : Job :=
  mkJob (job_action j) (job_created_at j) (job_error j) (job_finished_at j) (p_id p) (Label (job_action j)) log (job_result j)
    (Some (time_text t0)) Running (job_target j).
Definition shown_ended (p : Payload) (j : Job) (log : list string) (t0 t1 : Z) : Job :=
  mkJob (job_action j) (job_created_at j)
    (match task_error p with Some e => if decide (e = "") then None else Some e | None => job_error j end)
    (Some (time_text t1)) (p_id p) (Label (job_action j)) log
    (if decide (task_result p = "") then None else Some (task_result p))
    (Some (time_text t0)) (match task_error p with Some _ => Failed | None => Succeeded end) (job_target j).
Definition ending (p : Payload) : string := match task_error p with Some e => "Failed: " ++ e | None => "Completed successfully" end.

(** What there is of jobs, tasks and actions. *)
Definition work (s : store) :=
  (records s, logs s, index s, published s, enqueued s, begun s, ended s).

(** What the task [p], delivered at [t], answers and leaves. *)
Definition promised (p : Payload) (s : store) (t : Z) (answer : option string) (s' : store) : Prop :=
  lock s' = None ∧
  match records s !! p_id p with
  | None => answer = Some "redis: nil" ∧ work s' = work s
  | Some j =>
      match job_state j, job_started_at j with
      | Succeeded, _ | Failed, _ => answer = None ∧ work s' = work s
      | _, Some _ => answer = Some "job interrupted; inspect resources before submitting again" ∧ work s' = work s
      | _, None =>
          let said := if offered p then engine_log p else [] in
          let acted := if offered p then [p] else [] in
          let t1 := (t + 2 + Z.of_nat (length said))%Z in
          let before := default [] (logs s !! p_id p) in
          let running := shown_running p j before t in
          let ended_job := shown_ended p j before t t1 in
          let beginning := log_time (t + 1) ++ " Starting " ++ job_action j ++ " " ++ job_target j in
          let log := (before ++ [beginning] ++ stamped (t + 2) said ++ [(log_time (t1 + 1) ++ " " ++ ending p)%string])%list in
          answer = task_error p ∧
          work s' = (<[p_id p := ended_job]> (records s), <[p_id p := log]> (logs s), index s, published s ++ [running; ended_job], enqueued s,
                     begun s ++ acted, ended s ++ acted)%list
      end
  end.

Lemma offered_known p : offered p = known p.
Proof. apply offered_spec. Qed.

Lemma promised_outcome p : outcome_of p = (task_result p, task_error p).
Proof.
  unfold outcome_of, task_result, task_error. rewrite offered_known. destruct (known p) eqn:Hk.
  - rewrite <- offered_known in Hk. apply bool_decide_eq_true in Hk. destruct p as [i a target ps]. cbn [p_action] in Hk.
    destruct (engine (mkPayload i a target ps)) as [id e]. cbn [p_action p_target fst snd]. f_equal.
    unfold making, targeting_when_done, targeting in Hk. cbn [app] in Hk. rewrite !elem_of_cons in Hk.
    destruct_or? Hk; [subst a; by destruct e..|by apply not_elem_of_nil in Hk].
  - rewrite bool_decide_eq_false_2; [done|]. intros Ht. rewrite <- offered_known in Hk. apply bool_decide_eq_false in Hk. apply Hk.
    rewrite !elem_of_app. auto.
Qed.

Lemma omitempty_shown s : omitempty s = if decide (s = "") then None else Some s.
Proof. unfold omitempty. destruct (String.eqb_spec s ""); by case_decide. Qed.

Lemma finished_job_shown p j s t : job_id j = p_id p →
  finished_job p j s t = shown_ended p j (default [] (logs s !! p_id p)) t (t + 2 + Z.of_nat (length (if offered p then engine_log p else []))).
Proof.
  intros Hid. unfold finished_job, finish_time, logged, shown_ended, set_outcome. rewrite promised_outcome, offered_known. cbn. rewrite Hid, <- omitempty_shown.
  f_equal. destruct (task_error p); [by rewrite omitempty_shown|done].
Qed.

Lemma process_spec_promised p s t : (∀ id j, records s !! id = Some j → job_id j = id) → lock s = None →
  promised p s t (fst (process_spec p s t)) (snd (process_spec p s t)).
Proof.
  intros Hids Hl. unfold promised, process_spec. destruct (records s !! p_id p) as [j|] eqn:Ej; [|done]. specialize (Hids _ _ Ej).
  assert (started_job p j s t = shown_running p j (default [] (logs s !! p_id p)) t) as Er.
  { unfold started_job, shown_running. rewrite <- Hids. reflexivity. }
  destruct (job_state j), (job_started_at j); cbn [terminal]; try done; cbn [fst snd]; (split; [done|]); cbv zeta.
  all: rewrite <- Er, <- (finished_job_shown p j s t Hids), promised_outcome; (split; [done|]).
  all: unfold work, after_process, worked, final_log, final_message, finish_time, logged; rewrite promised_outcome, offered_known.
  all: by destruct (known p); cbn; rewrite ?app_nil_r.
Qed.

(** *** The reconciliation *)

(** A job in progress, a minute old, whose task is gone or was given up. *)
Definition orphan (t : Z) (j : Job) : Prop :=
  terminal (job_state j) = false ∧ (60000 ≤ t - time_of (job_created_at j))%Z ∧
  (tasks (job_id j) = TaskNotFound ∨ ∃ e, tasks (job_id j) = TaskFound true e).
(** A job that is none of its business at [t]: settled, or not a minute old, or one whose task waits or runs, or of whose
    task the queue cannot tell. *)
Definition left_alone (t : Z) (j : Job) : Prop :=
  terminal (job_state j) = true ∨ (t - time_of (job_created_at j) < 60000)%Z ∨
  (∃ e, tasks (job_id j) = TaskFound false e) ∨ ∃ e, tasks (job_id j) = InfoFailed e.

(** Why an orphan has failed: the error the queue tells of, or else that of its record, or else that it never started. *)
Definition reason (j : Job) : string :=
  let said := match tasks (job_id j) with TaskFound _ e => e | _ => match job_error j with Some e => e | None => "" end end in
  if decide (said = "") then "job was interrupted before it started" else said.

(** The record of an orphan after it: failed at some instant, for the reason, and otherwise as it was. *)
Definition abandoned (j j' : Job) : Prop := ∃ now,
  j' = mkJob (job_action j) (job_created_at j) (Some (reason j)) (Some (time_text now)) (job_id j) (job_label j) (job_logs j) (job_result j)
    (job_started_at j) Failed (job_target j).

Lemma orphan_later t t' j : orphan t j → (t ≤ t')%Z → orphan t' j.
Proof. intros (? & ? & ?) ?. split_and!; [done|lia|done]. Qed.
Lemma left_alone_before t t' j : left_alone t' j → (t ≤ t')%Z → left_alone t j.
Proof. intros [?|[?|?]] ?; [by left|right; left; lia|by right; right]. Qed.

(** What a pass over some records does to those of a list of jobs, and to the rest. *)
Record pass (jobs : list Job) (s : store) (t : Z) (s' : store) (t' : Z) : Prop := {
  pa_time : (t ≤ t')%Z;
  pa_index : index s' = index s;
  pa_ids : (∀ id j, records s !! id = Some j → job_id j = id) → ∀ id j, records s' !! id = Some j → job_id j = id;
  pa_rest id : (∀ j, j ∈ jobs → job_id j ≠ id) → records s' !! id = records s !! id;
  pa_left j : j ∈ jobs → left_alone t' j → records s' !! job_id j = records s !! job_id j;
  pa_orphan j : j ∈ jobs → orphan t j → ∃ j', records s' !! job_id j = Some j' ∧ abandoned j j'
}.

Lemma pass_refl s t : pass [] s t s t.
Proof. split; try done; try lia; by intros j ?%not_elem_of_nil. Qed.

Lemma pass_app l1 l2 s1 t1 s2 t2 s3 t3 : NoDup (job_id <$> (l1 ++ l2)%list) → pass l1 s1 t1 s2 t2 → pass l2 s2 t2 s3 t3 → pass (l1 ++ l2) s1 t1 s3 t3.
Proof.
  rewrite fmap_app. intros (_ & Hd & _)%NoDup_app [] [].
  assert (∀ j1 j2, j1 ∈ l1 → j2 ∈ l2 → job_id j1 ≠ job_id j2) as Hdisj.
  { intros j1 j2 H1 H2 E. apply (Hd (job_id j1)); [by apply list_elem_of_fmap_2|]. rewrite E. by apply list_elem_of_fmap_2. }
  split; [lia|congruence|auto| | |].
  - intros id Hid. rewrite pa_rest1, pa_rest0; [done| |]; intros j Hj; apply Hid, elem_of_app; auto.
  - intros j [Hj|Hj]%elem_of_app Hl.
    + rewrite pa_rest1; [apply pa_left0; [done|by apply (left_alone_before _ t3)]|]. intros j' Hj'. intros E. by apply (Hdisj j j').
    + rewrite pa_left1 by done. apply pa_rest0. intros j' Hj'. by apply Hdisj.
  - intros j [Hj|Hj]%elem_of_app Ho.
    + rewrite pa_rest1; [by apply pa_orphan0|]. intros j' Hj' E. by apply (Hdisj j j').
    + apply pa_orphan1; [done|]. by apply (orphan_later t1).
Qed.

Definition the_job (v : option Job) : list Job := match v with Some j => [j] | None => [] end.

Lemma alone_reconcile_job v s t : ∃ s' t', alone (reconcile_job time_text log_time time_of v) (mkMemory s t) = (tt, mkMemory s' t') ∧ pass (the_job v) s t s' t'.
Proof.
  destruct v as [j|]; [|exists s, t; split; [done|apply pass_refl]]. cbn [reconcile_job the_job].
  assert (∀ t', (t ≤ t')%Z → (∀ t0, t0 = t → ¬ orphan t0 j) → pass [j] s t s t') as Hsame.
  { intros t' Ht Ho. split; try done. intros j' ->%list_elem_of_singleton Hj'. by destruct (Ho t eq_refl). }
  destruct (terminal (job_state j)) eqn:Hterm; [exists s, t; split; [done|]; apply Hsame; [lia|]; intros t0 _ (? & _); congruence|].
  unfold mbind, prog_mbind. rewrite alone_now. destruct (Z.ltb_spec (t - time_of (job_created_at j)) 60000).
  { exists s, (t + 1)%Z. split; [done|]. apply Hsame; [lia|]. intros t0 -> (_ & ? & _). lia. }
  change (alone (prog_bind ?k (ask (GetTaskInfo (job_id j)))) (mkMemory s (t + 1))) with (alone (k (tasks (job_id j))) (mkMemory s (t + 1))).
  assert (∀ e, e = reason j → terminal (job_state j) = false → (∀ e', tasks (job_id j) ≠ TaskFound false e' ∧ tasks (job_id j) ≠ InfoFailed e') →
    pass [j] s t (put (set_finished time_text (t + 1) (set_failed e j)) (push_log (job_id j) (log_time (t + 1 + 1) ++ " " ++ ("Failed: " ++ e)) s)) (t + 1 + 1 + 1)) as Hput.
  { intros e He _ Hq. split; [lia|done| | | |]; cbn [records put push_log].
    - intros Hr id j'. cbn [job_id set_finished set_failed]. intros [[<- <-]|[_ ?]]%lookup_insert_Some; [done|by apply Hr].
    - intros id Hid. apply lookup_insert_ne. cbn. apply Hid. by apply list_elem_of_singleton.
    - intros j' ->%list_elem_of_singleton [Hl|[Hl|[[e' Hl]|[e' Hl]]]]; [congruence|lia|by destruct (Hq e')..].
    - intros j' ->%list_elem_of_singleton _. eexists. split; [apply lookup_insert_eq|]. exists (t + 1)%Z. unfold set_finished, set_failed. cbn. f_equal. unfold omitempty.
      rewrite He, (proj2 (String.eqb_neq _ _)); [done|]. unfold reason. by case_decide. }
  assert (∀ e, (if String.eqb e "" then "job was interrupted before it started" else e) =
               (if decide (e = "") then "job was interrupted before it started" else e)) as Hmsg.
  { intros e. destruct (String.eqb_spec e ""); by case_decide. }
  unfold reason in Hput. destruct (tasks (job_id j)) as [[] le| |le] eqn:E.
  - eexists _, _. split; [reflexivity|]. by apply Hput.
  - exists s, (t + 1)%Z. split; [done|]. apply Hsame; [lia|]. intros t0 _ (_ & _ & [|[e ?]]); congruence.
  - eexists _, _. split; [reflexivity|]. by apply Hput.
  - exists s, (t + 1)%Z. split; [done|]. apply Hsame; [lia|]. intros t0 _ (_ & _ & [|[e ?]]); congruence.
Qed.

Lemma alone_reconcile_jobs values s t : NoDup (job_id <$> (values ≫= the_job)) →
  ∃ s' t', alone (for_all (reconcile_job time_text log_time time_of) values) (mkMemory s t) = (tt, mkMemory s' t') ∧ pass (values ≫= the_job) s t s' t'.
Proof.
  revert s t. induction values as [|v values IH]; intros s t Hn; [exists s, t; split; [done|apply pass_refl]|]. cbn [for_all].
  destruct (alone_reconcile_job v s t) as (s1 & t1 & E1 & H1). destruct (IH s1 t1) as (s2 & t2 & E2 & H2).
  { change ((v :: values) ≫= the_job) with (the_job v ++ (values ≫= the_job))%list in Hn. rewrite fmap_app in Hn. by apply NoDup_app in Hn as (_ & _ & ?). }
  exists s2, t2. unfold mbind, prog_mbind. rewrite alone_bind, E1. split; [done|]. by apply (pass_app _ _ _ _ s1 t1).
Qed.

Lemma records_jobs (r : gmap string Job) l : (∀ id j, r !! id = Some j → job_id j = id) →
  job_id <$> (map (λ id, r !! id) l ≫= the_job) = filter (λ id, is_Some (r !! id)) l.
Proof.
  intros Hr. induction l as [|id l IH]; [done|]. cbn [map mbind list_bind]. rewrite fmap_app, filter_cons. rewrite IH.
  destruct (r !! id) as [j|] eqn:E; cbn [the_job fmap list_fmap app].
  - rewrite decide_True by (by eexists). f_equal. by apply Hr.
  - rewrite decide_False by (by intros []). done.
Qed.

(** The records that a slice reads are those at the start: earlier slices are about other jobs. *)
Lemma alone_reconcile_slices parts s t : NoDup (concat parts) → (∀ id j, records s !! id = Some j → job_id j = id) →
  ∃ s' t', alone (reconcile_slices time_text log_time time_of parts) (mkMemory s t) = (tt, mkMemory s' t') ∧
    pass (map (λ id, records s !! id) (concat parts) ≫= the_job) s t s' t'.
Proof.
  revert s t. induction parts as [|part parts IH]; intros s t Hn Hr; [exists s, t; split; [done|apply pass_refl]|].
  cbn [concat] in *. apply NoDup_app in Hn as (Hn1 & Hd & Hn2). cbn [reconcile_slices]. unfold mbind, prog_mbind.
  set (values := map (λ id, records s !! id) part).
  change (alone (prog_bind ?k (ask (MGetRecords part))) (mkMemory s t)) with (alone (k (inl values)) (mkMemory s t)). cbv beta iota.
  assert (NoDup (job_id <$> (values ≫= the_job))) as Hnv by (subst values; rewrite records_jobs by done; by apply NoDup_filter).
  destruct (alone_reconcile_jobs values s t Hnv) as (s1 & t1 & E1 & H1). rewrite alone_bind, E1.
  destruct (IH s1 t1 Hn2 (pa_ids _ _ _ _ _ H1 Hr)) as (s2 & t2 & E2 & H2). exists s2, t2. split; [done|].
  rewrite map_app, bind_app.
  assert (map (λ id, records s1 !! id) (concat parts) = map (λ id, records s !! id) (concat parts)) as Esame.
  { apply map_ext_in. intros id Hid%list_elem_of_In. apply (pa_rest _ _ _ _ _ H1). intros j Hj E.
    assert (job_id j ∈ job_id <$> (values ≫= the_job)) as Hin by (by apply list_elem_of_fmap_2). subst values. rewrite records_jobs in Hin by done.
    apply list_elem_of_filter in Hin as [_ Hin]. rewrite E in Hin. by apply (Hd id). }
  rewrite Esame in H2. apply (pass_app _ _ _ _ s1 t1); [|exact H1|exact H2].
  change (NoDup (job_id <$> ((map (λ id, records s !! id) part ≫= the_job) ++ (map (λ id, records s !! id) (concat parts) ≫= the_job))%list)).
  rewrite fmap_app, !records_jobs by done. apply NoDup_app. split_and!; [by apply NoDup_filter| |by apply NoDup_filter].
  intros id [_ H]%list_elem_of_filter [_ H']%list_elem_of_filter. by apply (Hd id).
Qed.

(** *** The history *)

Lemma alone_trim s t : alone trimHistory (mkMemory s t) =
  (tt, mkMemory (let l := take (length (by_age (index s)) - 2000) (by_age (index s)) in
                 match trimmed l (map (λ id, records s !! id) l) with [] => s | ids => delete_jobs ids s end) t).
Proof.
  unfold trimHistory, mbind, prog_mbind.
  change (alone (prog_bind ?k (ask (ZRange 0 (- (historyLimit + 1))))) (mkMemory s t)) with (alone (k (inl (zrange (by_age (index s)) 0 (- (historyLimit + 1))))) (mkMemory s t)).
  change (- (historyLimit + 1))%Z with (- (Z.of_nat 2000 + 1))%Z. rewrite zrange_oldest by lia. cbv beta zeta.
  destruct (take _ _) as [|x l]; [done|]. cbn [alone prog_bind ask mem_perform content]. by destruct (trimmed _ _).
Qed.
End alone.

Lemma alone_ProcessTask time_text log_time quoted engine_log engine tasks polls p s t :
  (∀ id j, records s !! id = Some j → job_id j = id) → (∀ e, tasks (p_id p) ≠ TaskFound true e) → lock s = None →
  let spec := process_spec time_text log_time quoted engine_log engine p s t in
  ∃ t', alone engine_log engine tasks (ProcessTask time_text log_time quoted (S polls) p) (mkMemory s t) =
    (fst spec, mkMemory (set_lock None 0 (issue (fresh_id (issued s)) (snd spec))) t').
Proof.
  intros Hids Htask Hl spec. set (token := fresh_id (issued s)).
  destruct (alone_process time_text log_time quoted engine_log engine tasks p (set_lock (Some token) lockTTL (issue token s)) t Hids Htask) as [t' E].
  rewrite process_spec_lock in E. fold spec in E. cbn [fst snd] in E. exists t'. unfold ProcessTask, acquireLock, mbind, prog_mbind.
  rewrite alone_bind, alone_bind. cbn [alone ask mem_perform on_content content ticks poll_lock]. fold token.
  cbn [prog_bind checked ask alone mem_perform on_content content ticks lock issue]. rewrite Hl. cbn [alone checked].
  rewrite alone_bind. unfold on_content. cbn [content ticks]. rewrite E. cbn [alone prog_bind ask mem_perform on_content content ticks].
  unfold on_content, release. cbn [content ticks]. f_equal. f_equal. cbn [lock set_lock]. by rewrite decide_True by done.
Qed.

(** C36. A worker does what a task asks, once, and says so. Run alone on any records, [ProcessTask] takes the lock
    and gives it back, and in between does what [promised] says: nothing for a job that is gone, settled or
    was started before, the second without and the others with an error; and for a new job it publishes that it
    runs, does the engine's work, or refuses an action that is none of the operations, logs its start, what the engine
    said and its end, and publishes that it succeeded or failed, with the engine's error and the result that belongs to
    the operation. *)
Theorem task_processed time_text log_time quoted engine_log engine tasks polls p s t :
  (∀ id j, records s !! id = Some j → job_id j = id) → (∀ e, tasks (p_id p) ≠ TaskFound true e) → lock s = None →
  let run := alone engine_log engine tasks (ProcessTask time_text log_time quoted (S polls) p) (mkMemory s t) in
  promised time_text log_time quoted engine_log engine p s t run.1 (content run.2).
Proof.
  intros Hids Htask Hl run. destruct (alone_ProcessTask time_text log_time quoted engine_log engine tasks polls p s t Hids Htask Hl) as [t' E].
  unfold run. rewrite E. split; [done|]. exact (proj2 (process_spec_promised time_text log_time quoted engine_log engine p s t Hids Hl)).
Qed.

(** C37. No operation stays in progress for ever. Run alone, the reconciliation settles every orphan of the index: a
    job in progress for a minute whose task is gone, or was given up by the queue, has failed after it, for a reason
    that is told, and is otherwise as it was. All others keep their records: those outside the index, those settled, those
    not yet a minute old when it ends, and those whose task waits or runs, or of whose task the queue cannot tell. *)
Theorem orphans_settled time_text log_time time_of engine_log engine tasks s t : (∀ id j, records s !! id = Some j → job_id j = id) →
  let after := snd (alone engine_log engine tasks (reconcileOrphans time_text log_time time_of) (mkMemory s t)) in
  let s' := content after in
  (∀ id j, is_Some (index s !! id) → records s !! id = Some j → orphan time_of tasks t j →
     ∃ j', records s' !! id = Some j' ∧ abandoned time_text tasks j j') ∧
  (∀ id j, records s !! id = Some j → index s !! id = None ∨ left_alone time_of tasks (ticks after) j → records s' !! id = Some j) ∧
  (∀ id, records s !! id = None → records s' !! id = None) ∧
  index s' = index s.
Proof.
  intros Hr. unfold reconcileOrphans, mbind, prog_mbind.
  change (alone engine_log engine tasks (prog_bind ?k (ask (ZRange 0 (-1)))) (mkMemory s t)) with
    (alone engine_log engine tasks (k (inl (zrange (by_age (index s)) 0 (-1)))) (mkMemory s t)). rewrite zrange_all. cbv beta iota.
  destruct (alone_reconcile_slices time_text log_time time_of engine_log engine tasks (slices_of (length (by_age (index s))) (by_age (index s))) s t)
    as (s' & t' & E & H); [rewrite concat_slices by done; apply by_age_NoDup|done|].
  rewrite concat_slices in H by done. rewrite E. cbn [snd content].
  assert (∀ id j, is_Some (index s !! id) → records s !! id = Some j → j ∈ map (λ id, records s !! id) (by_age (index s)) ≫= the_job) as Hin.
  { intros id j Hi Hj. apply list_elem_of_bind. exists (Some j). split; [by left|]. apply list_elem_of_In, in_map_iff. exists id.
    split; [done|]. by apply list_elem_of_In, by_age_elem. }
  assert (∀ id, index s !! id = None ∨ records s !! id = None → records s' !! id = records s !! id) as Hout.
  { intros id Hid. apply (pa_rest _ _ _ _ _ _ _ _ H). intros j' (v & Hv & Hj')%list_elem_of_bind E'.
    apply list_elem_of_In, in_map_iff in Hj' as (id' & <- & Hid'%list_elem_of_In). destruct (records s !! id') as [j0|] eqn:Er; [|by apply not_elem_of_nil in Hv].
    apply list_elem_of_singleton in Hv as ->. rewrite (Hr id' j0 Er) in E'. subst id'. apply by_age_elem in Hid'.
    destruct Hid as [Hid|Hid]; [by rewrite Hid in Hid'; destruct Hid'|congruence]. }
  split_and!.
  - intros id j Hi Hj Ho. rewrite <- (Hr id j Hj). apply (pa_orphan _ _ _ _ _ _ _ _ H); [by eapply Hin|done].
  - intros id j Hj Hl. destruct (index s !! id) as [z|] eqn:Ez; [|rewrite Hout by auto; done]. destruct Hl as [|Hl]; [done|].
    rewrite <- (Hr id j Hj) at 1. rewrite (pa_left _ _ _ _ _ _ _ _ H), (Hr id j Hj); [done| |done]. by apply (Hin id); [exists z|].
  - intros id Hn. by rewrite Hout by auto.
  - apply (pa_index _ _ _ _ _ _ _ _ H).
Qed.

(** No job in progress has this identifier. *)
Definition settled (s : store) (id : string) : bool := match records s !! id with Some j => terminal (job_state j) | None => true end.

(** The history is bounded, and no operation is lost from it while it matters. Run alone, the trimming keeps of
    the index the two thousand newest jobs and those in progress, however old, takes away the rest with their
    records and logs, and touches nothing else; so no more than two thousand settled jobs are left. *)
Theorem history_trimmed engine_log engine tasks s t :
  let oldest := take (length (by_age (index s)) - 2000) (by_age (index s)) in
  let newest := drop (length (by_age (index s)) - 2000) (by_age (index s)) in
  let kept id := id ∈ newest ∨ ∃ j, records s !! id = Some j ∧ terminal (job_state j) = false in
  let s' := content (snd (alone engine_log engine tasks trimHistory (mkMemory s t))) in
  (∀ id, is_Some (index s !! id) → kept id → index s' !! id = index s !! id ∧ records s' !! id = records s !! id ∧ logs s' !! id = logs s !! id) ∧
  (∀ id, is_Some (index s !! id) → ¬ kept id → index s' !! id = None ∧ records s' !! id = None ∧ logs s' !! id = None) ∧
  (∀ id, index s !! id = None → records s' !! id = records s !! id ∧ logs s' !! id = logs s !! id) ∧
  (length (List.filter (settled s) (by_age (index s'))) ≤ 2000)%nat.
Proof.
  intros oldest newest kept s'. set (ids := trimmed oldest (map (λ id, records s !! id) oldest)).
  assert (by_age (index s) = oldest ++ newest)%list as Eall by (symmetry; apply take_drop).
  assert (∀ id, id ∈ ids ↔ is_Some (index s !! id) ∧ ¬ kept id) as Hids.
  { intros id. subst ids. rewrite trimmed_elem, <- by_age_elem, Eall, elem_of_app. pose proof (by_age_NoDup (index s)) as Hn.
    rewrite Eall in Hn. apply NoDup_app in Hn as (_ & Hd & _). split.
    - intros [Ho Hj]. split; [by left|]. intros [Hnew|(j & E & Ht)]; [by apply (Hd id)|]. by rewrite (Hj j E) in Ht.
    - intros [Hin Hk]. split; [destruct Hin; [done|by destruct Hk; left]|]. intros j E. apply not_false_iff_true. intros Ht. apply Hk. right. by exists j. }
  assert (∀ id, index s' !! id = (if decide (id ∈ ids) then None else index s !! id) ∧
    records s' !! id = (if decide (id ∈ ids) then None else records s !! id) ∧ logs s' !! id = (if decide (id ∈ ids) then None else logs s !! id)) as Hs'.
  { intros id. subst s'. rewrite alone_trim. cbn [snd content]. fold oldest ids. destruct ids as [|x l] eqn:E.
    - by rewrite !decide_False by apply not_elem_of_nil.
    - cbn [index records logs delete_jobs]. by rewrite !foldr_delete_lookup. }
  assert (∀ id, is_Some (index s' !! id) → id ∈ newest ∨ ∃ j, records s !! id = Some j ∧ terminal (job_state j) = false) as Hkept.
  { intros id Hid. rewrite (proj1 (Hs' id)) in Hid. destruct (decide (id ∈ ids)) as [|Hn]; [by destruct Hid|].
    destruct (decide (id ∈ newest)) as [|Hnew]; [by left|]. right. apply by_age_elem in Hid. rewrite Eall, elem_of_app in Hid. destruct Hid as [Ho|]; [|done].
    destruct (records s !! id) as [j|] eqn:E; [destruct (terminal (job_state j)) eqn:Ht|]; [|by exists j|]; exfalso; apply Hn; subst ids; apply trimmed_elem;
      (split; [done|]); intros j' Hj'; congruence. }
  split_and!.
  - intros id Hid Hk. destruct (Hs' id) as (-> & -> & ->). by rewrite !decide_False by (rewrite Hids; by intros [_ ?]).
  - intros id Hid Hk. destruct (Hs' id) as (-> & -> & ->). by rewrite !decide_True by (by rewrite Hids).
  - intros id Hid. destruct (Hs' id) as (_ & -> & ->). by rewrite !decide_False by (rewrite Hids, Hid; by intros [[? ?] _]).
  - etrans; [|apply (Nat.le_trans _ (length newest)); [reflexivity|subst newest; rewrite length_drop; lia]].
    apply submseteq_length, NoDup_submseteq.
    + rewrite NoDup_ListNoDup. apply List.NoDup_filter. rewrite <- NoDup_ListNoDup. apply by_age_NoDup.
    + intros id Hf. apply list_elem_of_In, filter_In in Hf as [Hid Hterm]. apply list_elem_of_In, by_age_elem in Hid. destruct (Hkept id Hid) as [|(j & E & Ht)]; [done|].
      unfold settled in Hterm. by rewrite E, Ht in Hterm.
Qed.

(** ** Samples *)

Definition sample_new : Job := new_job clock_text "i" 0 sample_payload.
Definition sample_task : Payload := mkPayload "i" "vm.start" "web" JNull.
Definition sample_store : store := set_index {["i" := 0%Z]} (put sample_new empty_store).

Lemma sample_ids id j : records sample_store !! id = Some j → job_id j = id.
Proof. cbn. rewrite insert_empty. by intros [<- <-]%lookup_singleton_Some. Qed.

Lemma task_processed_witness : 
  let run := alone (λ _, ["booting"]) (λ _, ("", Some "no memory")) (λ _, TaskNotFound)
    (ProcessTask clock_text clock_text (λ s, s) 3 sample_task) (mkMemory sample_store 5) in
  promised clock_text clock_text (λ s, s) (λ _, ["booting"]) (λ _, ("", Some "no memory")) sample_task sample_store 5 run.1 (content run.2) ∧
  run.1 = Some "no memory" ∧ (job_state <$> records (content run.2) !! "i") = Some Failed ∧ (length <$> logs (content run.2) !! "i") = Some 3%nat.
Proof.
  split; [|vm_compute; done].
  apply (task_processed clock_text clock_text (λ s, s) (λ _, ["booting"]) (λ _, ("", Some "no memory")) (λ _, TaskNotFound) 2 sample_task sample_store 5);
    [exact sample_ids|discriminate|reflexivity].
Defined.

Lemma orphans_settled_witness : ∃ j,
  records (content (snd (alone (λ _, []) (λ _, ("", None)) (λ _, TaskNotFound) (reconcileOrphans clock_text clock_text (λ _, 0%Z)) (mkMemory sample_store 70000))))
    !! "i" = Some j ∧ job_state j = Failed.
Proof.
  destruct (orphans_settled clock_text clock_text (λ _, 0%Z) (λ _, []) (λ _, ("", None)) (λ _, TaskNotFound) sample_store 70000 sample_ids) as (H & _ & _).
  destruct (H "i" sample_new) as (j & Hj & now & E).
  - exists 0%Z. reflexivity.
  - reflexivity.
  - split; [reflexivity|]. split; [cbn; lia|]. left. reflexivity.
  - exists j. split; [exact Hj|by rewrite E].
Defined.

(** The reconciliation reads the records first and asks for their tasks later: an operation that ends in between,
    whose task the queue has deleted by then, has succeeded and is then said to have failed. *)
#[local] Instance race_service : Service memory := memory_service (λ _, []) (λ _, ("", None)) (λ _, TaskNotFound).

Definition race : list event :=
  (Spawn (CSubmit sample_payload) :: repeat (Advance 0) 20 ++ Spawn (CTask 50 0) :: repeat (Advance 1) 7 ++
   Spawn CReconcile :: repeat (Advance 2) 2 ++ repeat (Advance 1) 10 ++ repeat (Advance 2) 10)%list.

Lemma orphan_race :
  let w := (run (step clock_text clock_text (λ _, (-100000)%Z) (λ s, s)) (mkServer (S := memory) (mkMemory empty_store 0) []) race).1 in
  (job_state <$> published (view (service w))) = [Pending; Running; Succeeded; Failed] ∧
  (job_error <$> records (view (service w)) !! "i") = Some (Some "job was interrupted before it started").
Proof. split; vm_compute; reflexivity. Qed.
