(* ===== verification/Storage.v ===== *)
(** * The files of the server

    [WriteFile] of [src/pkg/storage/files.go], through which every manifest and every record of a process is
    saved, over what a file system documents: data and names reach the disk only when they are synchronised,
    an error does not say how much of an operation was done, and a power failure leaves of a name any value
    it had since its directory was last synchronised, and anything of data that was not. *)

From S2P Require Import Prelude Programs JsString.
Local Open Scope string_scope.

(** ** The file system

    [content] is what a reader sees of a file, [durable] what is on the disk; [names] are the names of the
    directory, [earlier] the values they had since it was last synchronised. *)

Record fs := mkFs {
  content : gmap nat string;
  durable : gmap nat string;
  names : gmap string nat;
  earlier : list (gmap string nat)
}.

Definition read (v : fs) (path : string) : option string := names v !! path ≫= λ i, content v !! i.

Definition set_content (i : nat) (data : string) (v : fs) : fs := mkFs (<[i := data]> (content v)) (durable v) (names v) (earlier v).
Definition set_durable (i : nat) (data : option string) (v : fs) : fs :=
  mkFs (content v) (partial_alter (λ _, data) i (durable v)) (names v) (earlier v).
Definition set_names (m : gmap string nat) (v : fs) : fs := mkFs (content v) (durable v) m (names v :: earlier v).
Definition renamed (from to : string) (i : nat) (v : fs) : fs := set_names (<[to := i]> (delete from (names v))) v.
Definition forget_earlier (v : fs) : fs := mkFs (content v) (durable v) (names v) [].

Inductive cmd : Type → Type :=
  | EnsurePrivateDir (dir : string) : cmd (option string)
  | CreateTemp (dir : string) : cmd (string * nat + string)
  | Chmod (i : nat) : cmd (option string)
  | Write (i : nat) (data : string) : cmd (option string)
  | Sync (i : nat) : cmd (option string)
  | Close (i : nat) : cmd (option string)
  | Rename (from to : string) : cmd (option string)
  | OpenDir (dir : string) : cmd (option string)
  | SyncDir (dir : string) : cmd (option string)
  | Remove (path : string) : cmd (option string).

(** The names [os.CreateTemp] makes for the pattern [.write-*]. *)
Definition temporary (dir path : string) : Prop := ∃ digits, path = dir ++ "/.write-" ++ digits.

(** A file that no name refers to, now or before. *)
Definition unnamed (i : nat) (v : fs) : Prop := content v !! i = None ∧ durable v !! i = None ∧ ∀ m p, m ∈ names v :: earlier v → m !! p ≠ Some i.

Definition documented B (c : cmd B) : B → fs → fs → Prop :=
  match c in cmd B return B → fs → fs → Prop with
  | EnsurePrivateDir _ | OpenDir _ => λ _ v v', v' = v
  | Chmod _ | Close _ => λ _ v v', v' = v
  | CreateTemp dir => λ r v v',
      match r with
      | inl (name, i) => temporary dir name ∧ names v !! name = None ∧ unnamed i v ∧
          v' = set_content i "" (set_names (<[name := i]> (names v)) v)
      | inr _ => v' = v
      end
  | Write i data => λ r v v',
      match r with
      | None => v' = set_content i (default "" (content v !! i) ++ data) v
      | Some _ => ∃ written rest, data = written ++ rest ∧ v' = set_content i (default "" (content v !! i) ++ written) v
      end
  | Sync i => λ r v v',
      match r with None => v' = set_durable i (content v !! i) v | Some _ => ∃ data, v' = set_durable i data v end
  | Rename from to => λ r v v',
      match r with None => ∃ i, names v !! from = Some i ∧ v' = renamed from to i v | Some _ => v' = v end
  | SyncDir _ => λ r v v', match r with None => v' = forget_earlier v | Some _ => v' = v end
  | Remove path => λ r v v', match r with None => v' = set_names (delete path (names v)) v | Some _ => v' = v end
  end.

(** What a power failure may leave. *)
Definition crashed (v v' : fs) : Prop :=
  (∀ p, ∃ m, m ∈ names v :: earlier v ∧ names v' !! p = m !! p) ∧
  (∀ i data, content v !! i = Some data → durable v !! i = Some data → content v' !! i = Some data).

(** ** The source *)

Notation prog := (Programs.prog cmd).

(** [filepath.Dir], of a path with a directory. *)
Definition Dir (path : string) : string := join "/" (removelast (split_on "/" path)).

Definition WriteFile (path data : string) : prog (option string) :=
  do ask (EnsurePrivateDir (Dir path));
  r ← ask (CreateTemp (Dir path));
  match r with
  | inr e => Ret (Some e)
  | inl (temp, file) =>
      r ← (do ask (Chmod file);
           do ask (Write file data);
           do ask (Sync file);
           do ask (Close file);
           do ask (Rename temp path);
           do ask (OpenDir (Dir path));
           ask (SyncDir (Dir path)));
      _ ← ask (Close file);
      _ ← ask (Remove temp);
      Ret r
  end.

(** ** What it guarantees *)

(** Whatever a path may turn out to name after a power failure is on the disk. *)
Definition clean (path : string) (v : fs) : Prop :=
  ∀ m i, m ∈ names v :: earlier v → m !! path = Some i → ∃ data, content v !! i = Some data ∧ durable v !! i = Some data.

(** What a path may read as after a power failure. *)
Definition possible (path : string) (v : fs) : list (option string) :=
  (λ m : gmap string nat, m !! path ≫= λ i, content v !! i) <$> names v :: earlier v.

Lemma crashed_read path v v' : clean path v → crashed v v' → read v' path ∈ possible path v.
Proof.
  intros Hc [Hn Hd]. destruct (Hn path) as (m & Hm & E). apply list_elem_of_fmap. exists m. split; [|done].
  unfold read. rewrite E. destruct (m !! path) as [i|] eqn:Ei; [|done]. cbn.
  destruct (Hc m i Hm Ei) as (data & H1 & H2). rewrite H1. by apply Hd.
Qed.

(** A change of the data of one file. *)
Definition on_file (i : nat) (v v' : fs) : Prop :=
  names v' = names v ∧ earlier v' = earlier v ∧ ∀ j, j ≠ i → content v' !! j = content v !! j ∧ durable v' !! j = durable v !! j.

Definition elsewhere (path : string) (i : nat) (v : fs) : Prop := ∀ m, m ∈ names v :: earlier v → m !! path ≠ Some i.

Lemma on_file_set_content i data v : on_file i v (set_content i data v).
Proof. split_and!; [done..|]. intros j Hj. cbn. by rewrite lookup_insert_ne. Qed.
Lemma on_file_set_durable i data v : on_file i v (set_durable i data v).
Proof. split_and!; [done..|]. intros j Hj. cbn. by rewrite lookup_partial_alter_ne. Qed.

Lemma on_file_keeps path i v v' : on_file i v v' → elsewhere path i v → clean path v →
  clean path v' ∧ possible path v' = possible path v ∧ read v' path = read v path ∧ elsewhere path i v'.
Proof.
  intros (En & Ee & Ho) He Hc.
  assert (∀ m j, m ∈ names v :: earlier v → m !! path = Some j → j ≠ i) as Hne by (intros m j Hm Hj ->; by apply (He m Hm)).
  split_and!.
  - intros m j. rewrite En, Ee. intros Hm Hj. destruct (Ho j (Hne _ _ Hm Hj)) as [-> ->]. by apply (Hc m).
  - unfold possible. rewrite En, Ee. apply list_fmap_ext. intros k m Hm%list_elem_of_lookup_2.
    destruct (m !! path) as [j|] eqn:E; [|done]. apply Ho. by apply (Hne m).
  - unfold read. rewrite En. destruct (names v !! path) as [j|] eqn:E; [|done]. apply Ho. apply (Hne (names v)); [by left|done].
  - intros m. rewrite En, Ee. apply He.
Qed.

(** A change of the names that leaves the path. *)
Lemma set_names_keeps path m v : m !! path = names v !! path → clean path v →
  clean path (set_names m v) ∧ (∀ x, x ∈ possible path (set_names m v) ↔ x ∈ possible path v) ∧ read (set_names m v) path = read v path.
Proof.
  intros E Hc. split_and!.
  - intros m' j [->|Hm]%elem_of_cons Hj; [|by apply (Hc m')]. apply (Hc (names v)); [by left|]. by rewrite <- E.
  - intros x. unfold possible. cbn. rewrite E, !elem_of_cons. naive_solver.
  - unfold read. cbn. by rewrite E.
Qed.

Section writing.
Context (path data : string) (v0 : fs).

(** What holds all along. *)
Definition intact (v : fs) : Prop := clean path v ∧ possible path v ⊆ Some data :: possible path v0.

(** Before the rename: the path is as it was, and the temporary file holds [text] for sure, on the disk if [synced]. *)
Record writing (temp : string) (file : nat) (text : option string) (synced : bool) (v : fs) : Prop := {
  w_temp : temp ≠ path;
  w_named : names v !! temp = Some file;
  w_elsewhere : elsewhere path file v;
  w_content : ∀ t, text = Some t → content v !! file = Some t;
  w_durable : synced = true → durable v !! file = content v !! file;
  w_clean : clean path v;
  w_read : read v path = read v0 path;
  w_possible : possible path v ⊆ possible path v0
}.

(** At the end. *)
Record finished (temp : string) (r : option string) (v : fs) : Prop := {
  f_temp : temp ≠ path;
  f_clean : clean path v;
  f_possible : possible path v ⊆ Some data :: possible path v0;
  f_done : r = None → ∀ x, x ∈ possible path v → x = Some data;
  f_read : read v path = read v0 path ∨ read v path = Some data
}.

Lemma writing_intact temp file text synced v : writing temp file text synced v → intact v.
Proof. intros []. split; [done|]. set_solver. Qed.
Lemma writing_finished temp file text synced v e : writing temp file text synced v → finished temp (Some e) v.
Proof. intros []. split; [done..|set_solver|done|by left]. Qed.
Lemma finished_intact temp r v : finished temp r v → intact v.
Proof. by intros []. Qed.

Lemma writing_on_file temp file text synced text' synced' v v' : writing temp file text synced v → on_file file v v' →
  (∀ t, text' = Some t → content v' !! file = Some t) → (synced' = true → durable v' !! file = content v' !! file) →
  writing temp file text' synced' v'.
Proof.
  intros [] Ho Ht Hs. destruct (on_file_keeps path file v v' Ho) as (? & Ep & Er & ?); [done..|].
  split; try done; [by rewrite (proj1 Ho)|by rewrite Er|by rewrite Ep].
Qed.

Lemma writing_started temp file v : clean path v0 → temp ≠ path → unnamed file v0 →
  v = set_content file "" (set_names (<[temp := file]> (names v0)) v0) → writing temp file (Some "") false v.
Proof.
  intros Hc Hne (Hcf & Hdf & Hnf) ->. set (v1 := set_names _ _).
  destruct (set_names_keeps path (<[temp := file]> (names v0)) v0) as (Hc1 & Hp1 & Hr1); [by rewrite lookup_insert_ne|done|].
  assert (elsewhere path file v1) as He.
  { intros m [->|Hm]%elem_of_cons; [|by apply (Hnf m)]. cbn. rewrite lookup_insert_ne by done. apply (Hnf (names v0)). by left. }
  destruct (on_file_keeps path file v1 _ (on_file_set_content file "" v1) He Hc1) as (Hc2 & Hp2 & Hr2 & He2).
  split; try done.
  - cbn. apply lookup_insert_eq.
  - intros t [= <-]. cbn. apply lookup_insert_eq.
  - by rewrite Hr2.
  - rewrite Hp2. intros x Hx. by apply Hp1.
Qed.

Lemma writing_renamed temp file v : writing temp file (Some data) true v → finished temp (Some "") (renamed temp path file v).
Proof.
  intros []. specialize (w_durable0 eq_refl). pose proof (w_content0 _ eq_refl) as Hd. rewrite Hd in w_durable0.
  split; [done| | |done|].
  - intros m i [->|Hm]%elem_of_cons Hi; [|by apply (w_clean0 m)]. cbn in Hi. rewrite lookup_insert_eq in Hi. injection Hi as <-. eauto.
  - unfold possible. cbn. rewrite lookup_insert_eq. cbn. rewrite Hd. fold (possible path v). set_solver.
  - right. unfold read. cbn. rewrite lookup_insert_eq. cbn. done.
Qed.

Lemma finished_synced temp e v : finished temp e v → read v path = Some data → finished temp None (forget_earlier v).
Proof.
  intros [] Hr. split; [done| | | |by right].
  - intros m i ->%list_elem_of_singleton Hi. apply (f_clean0 (names v)); [by left|done].
  - intros x ->%list_elem_of_singleton. apply elem_of_cons. left. exact Hr.
  - intros _ x ->%list_elem_of_singleton. exact Hr.
Qed.

Lemma finished_removed temp r v : finished temp r v → finished temp r (set_names (delete temp (names v)) v).
Proof.
  intros []. destruct (set_names_keeps path (delete temp (names v)) v) as (? & Hp & Hr); [by rewrite lookup_delete_ne|done|].
  split; try done.
  - intros x Hx%Hp. by apply f_possible0.
  - intros E x Hx%Hp. by apply f_done0.
  - by rewrite Hr.
Qed.

Notation safe := (safe documented).

(** From the file that was made to the synchronised directory. *)
Lemma safe_fill temp file v : writing temp file (Some "") false v →
  safe (do ask (Chmod file); do ask (Write file data); do ask (Sync file); do ask (Close file);
        do ask (Rename temp path); do ask (OpenDir (Dir path)); ask (SyncDir (Dir path))) v intact (finished temp).
Proof.
  intros H.
  apply safe_do. command as r v' Hd; [by eapply writing_intact|]. subst v'. split; [by eapply writing_intact|]. destruct r; [by eapply writing_finished|].
  apply safe_do. command as r v' Hd; [by eapply writing_intact|]. destruct r as [e|].
  { destruct Hd as (a & b & _ & ->). assert (writing temp file None false (set_content file (default "" (content v !! file) ++ a) v)).
    { eapply writing_on_file; [exact H|apply on_file_set_content|done..]. }
    split; [by eapply writing_intact|]. by eapply writing_finished. }
  assert (writing temp file (Some data) false v') as H1.
  { subst v'. eapply writing_on_file; [exact H|apply on_file_set_content| |done]. intros t [= <-]. cbn. rewrite lookup_insert_eq.
    by rewrite (w_content _ _ _ _ _ H "" eq_refl). }
  split; [by eapply writing_intact|]. clear Hd H v. rename v' into v.
  apply safe_do. command as r v' Hd; [by eapply writing_intact|]. destruct r as [e|].
  { destruct Hd as (d & ->). assert (writing temp file None false (set_durable file d v)).
    { eapply writing_on_file; [exact H1|apply on_file_set_durable|done..]. }
    split; [by eapply writing_intact|]. by eapply writing_finished. }
  assert (writing temp file (Some data) true v') as H2.
  { subst v'. eapply writing_on_file; [exact H1|apply on_file_set_durable| |].
    - intros t [= <-]. cbn. by apply (w_content _ _ _ _ _ H1).
    - intros _. cbn. by rewrite lookup_partial_alter_eq. }
  split; [by eapply writing_intact|]. clear Hd H1 v. rename v' into v.
  apply safe_do. command as r v' Hd; [by eapply writing_intact|]. subst v'. split; [by eapply writing_intact|]. destruct r; [by eapply writing_finished|].
  apply safe_do. command as r v' Hd; [by eapply writing_intact|]. destruct r as [e|].
  { subst v'. split; [by eapply writing_intact|]. by eapply writing_finished. }
  destruct Hd as (i & Hi & ->). rewrite (w_named _ _ _ _ _ H2) in Hi. injection Hi as <-. apply writing_renamed in H2 as H3.
  assert (read (renamed temp path file v) path = Some data) as Hr.
  { unfold read. cbn. rewrite lookup_insert_eq. cbn. by apply (w_content _ _ _ _ _ H2). }
  revert H3 Hr. generalize (renamed temp path file v) as v3. intros v3 H3 Hr. split; [by eapply finished_intact|].
  assert (∀ e, finished temp (Some e) v3) as He by (intros e; by destruct H3).
  apply safe_do. command as r v' Hd; [by eapply finished_intact|]. subst v'. split; [by eapply finished_intact|]. destruct r; [apply He|].
  command as r v' Hd; [by eapply finished_intact|]. destruct r as [e|]; subst v'.
  - split; [by eapply finished_intact|done].
  - apply finished_synced in H3; [|done]. split; [by eapply finished_intact|done].
Qed.

Lemma safe_WriteFile : (∀ dir, ¬ temporary dir path) → clean path v0 →
  safe (WriteFile path data) v0 intact (λ r v,
    (r = None → ∀ x, x ∈ possible path v → x = Some data) ∧ (read v path = read v0 path ∨ read v path = Some data)).
Proof.
  intros Hp Hc. assert (intact v0) as Hi by (split; [done|set_solver]).
  assert (∀ e : string, (Some e = None → ∀ x, x ∈ possible path v0 → x = Some data) ∧ (read v0 path = read v0 path ∨ read v0 path = Some data)) as He by (split; [done|by left]).
  unfold WriteFile, mbind, prog_mbind. apply safe_do. command as r v' Hd; [done|]. subst v'. split; [done|]. destruct r as [e|]; [apply He|].
  apply safe_bind. command as r v' Hd; [done|]. destruct r as [[temp file]|e]; [|subst v'; split; [done|]; apply safe_ret; [done|apply He]].
  destruct Hd as (Ht & _ & Hu & Hv). assert (temp ≠ path) as Hne by (intros ->; by apply (Hp (Dir path))).
  apply (writing_started temp) in Hv; [|done..]. split; [by eapply writing_intact|]. clear Hu.
  apply safe_bind. eapply safe_mono; [by apply safe_fill|done|]. intros r v _ Hf. clear v' Hv.
  apply safe_bind. command as r1 v' Hd; [by eapply finished_intact|]. subst v'. split; [by eapply finished_intact|].
  apply safe_bind. command as r2 v' Hd; [by eapply finished_intact|]. destruct r2; subst v'.
  - split; [by eapply finished_intact|]. apply safe_ret; [by eapply finished_intact|by destruct Hf].
  - apply finished_removed in Hf. split; [by eapply finished_intact|]. apply safe_ret; [by eapply finished_intact|by destruct Hf].
Qed.
End writing.

(** C10. A file is written whole or not at all. Whatever the operations answer, wherever the process is killed and
    the power fails, the path reads as one of the values it could have read as before, or as the new data, never
    as a part of it; once the function has reported success it reads as the new data for good; and when it
    reports an error, the path reads as before, or as the new data. *)
Theorem file_written {M} `{!Machine cmd fs documented M} path data (m : M) : (∀ dir, ¬ temporary dir path) → clean path (view m) →
  (∀ n v', crashed (view (killed n (WriteFile path data) m)) v' → read v' path = Some data ∨ read v' path ∈ possible path (view m)) ∧
  let r := (exec (WriteFile path data) m).1 in let v := view (exec (WriteFile path data) m).2 in
  clean path v ∧ (r = None → ∀ v', crashed v v' → read v' path = Some data) ∧
  (read v path = read (view m) path ∨ read v path = Some data).
Proof.
  intros Hp Hc. pose proof (safe_WriteFile path data (view m) Hp Hc) as Hs. split.
  - intros n v' Hv. destruct (safe_killed n _ _ _ _ Hs) as [Hc' Hp']. apply (crashed_read path) in Hv; [|done].
    apply Hp', elem_of_cons in Hv. tauto.
  - pose proof (safe_exec _ _ _ _ Hs) as [[Hc' _] [H1 H2]]. split_and!; [done| |done].
    intros Hr v' Hv. apply (H1 Hr). by apply crashed_read.
Qed.

(** ** A disk in memory

    It carries every operation out, but for the last synchronisation of a directory, which fails if [broken]. *)

Definition fresh_file (v : fs) : nat := fresh (dom (content v) ∪ dom (durable v) ∪ list_to_set (m ← names v :: earlier v; (map_to_list m).*2)).
Definition fresh_name (dir : string) (v : fs) : string := dir ++ "/.write-" ++ fresh_id (dom (names v)).

Lemma fresh_file_unnamed v : unnamed (fresh_file v) v.
Proof.
  unfold fresh_file. set (X := _ ∪ _ ∪ _). pose proof (is_fresh X) as H. split_and!.
  - apply not_elem_of_dom. set_solver.
  - apply not_elem_of_dom. set_solver.
  - intros m p Hm E. apply H. unfold X. apply elem_of_union_r, elem_of_list_to_set, list_elem_of_bind. exists m.
    split; [|done]. apply list_elem_of_fmap. exists (p, fresh X). split; [done|]. by apply elem_of_map_to_list.
Qed.

Section disk.
Context (broken : bool).

Definition disk_perform B (c : cmd B) (v : fs) : B * fs :=
  match c in cmd B return B * fs with
  | EnsurePrivateDir _ | OpenDir _ | Chmod _ | Close _ => (None, v)
  | CreateTemp dir =>
      let i := fresh_file v in
      (inl (fresh_name dir v, i), set_content i "" (set_names (<[fresh_name dir v := i]> (names v)) v))
  | Write i data => (None, set_content i (default "" (content v !! i) ++ data) v)
  | Sync i => (None, set_durable i (content v !! i) v)
  | Rename from to => match names v !! from with Some i => (None, renamed from to i v) | None => (Some "no such file or directory", v) end
  | SyncDir _ => if broken then (Some "input/output error", v) else (None, forget_earlier v)
  | Remove path => (None, set_names (delete path (names v)) v)
  end.

#[export, program] Instance disk : Machine cmd fs documented fs := { perform := disk_perform; view := id }.
Next Obligation.
  intros B c v. destruct c; cbn; try done.
  - split_and!; [by eexists| |apply fresh_file_unnamed|done]. apply not_elem_of_dom. unfold fresh_name.
    rewrite <- str_app_assoc. apply fresh_id_longer.
  - destruct (names v !! from) eqn:E; cbn; eauto.
  - by destruct broken.
Qed.
End disk.

Definition sample_disk : fs := mkFs {[1 := "cpus: 1"]} {[1 := "cpus: 1"]} {["vms/web.yml" := 1]} [].

Lemma sample_clean : clean "vms/web.yml" sample_disk.
Proof. intros m i ->%list_elem_of_singleton [= <-]. exists "cpus: 1". by split. Qed.
Lemma sample_name dir : ¬ temporary dir "vms/web.yml".
Proof.
  intros [d E]. assert (includes "/.write-" "vms/web.yml" = true) as H; [|by vm_compute in H]. rewrite E. apply includes_spec. by exists dir, d.
Qed.

Lemma file_written_witness :
  let out := exec (Machine0 := disk false) (WriteFile "vms/web.yml" "cpus: 2") sample_disk in
  out.1 = None ∧ ∀ v', crashed out.2 v' → read v' "vms/web.yml" = Some "cpus: 2".
Proof.
  assert ((exec (Machine0 := disk false) (WriteFile "vms/web.yml" "cpus: 2") sample_disk).1 = None) as E by (vm_compute; reflexivity).
  split; [exact E|]. apply (file_written (Machine0 := disk false) "vms/web.yml" "cpus: 2" sample_disk sample_name sample_clean). exact E.
Defined.

(** An error does not mean that the file is as it was: the directory is synchronised after the rename, and when
    that fails the new data is there. *)
Lemma replaced_though_failed :
  let out := exec (Machine0 := disk true) (WriteFile "vms/web.yml" "cpus: 2") sample_disk in
  out.1 = Some "input/output error" ∧ read out.2 "vms/web.yml" = Some "cpus: 2".
Proof. split; vm_compute; reflexivity. Qed.

(** ** Names of files

    [ValidateID]: an identifier names a file of its directory, and no other. *)

Definition ValidateID (id : string) : option string :=
  if String.eqb id "" || String.eqb id "." || String.eqb id ".." ||
     negb (all_chars (λ c, negb (includes_str ["/"; "\"; String (Ascii.ascii_of_nat 0) ""] (String c ""))) id)
  then Some "invalid resource ID" else None.
