(* ===== verification/Hotplug.v ===== *)
(** * Changing an adapter of a running machine

    [ChangeInterface] of [src/pkg/vm/network_hotplug.go]: it takes an adapter out of a running QEMU and puts
    another in, saves the manifest, and undoes what it did when something fails; a journal says that a change is
    under way. What QEMU, the helper of an adapter and the files document is a relation on what the machine has:
    a command that is refused does nothing, of one whose answer is lost nothing is known, and an adapter is gone
    only when the guest has let go of it, which QEMU announces by an event. *)

From S2P Require Import Prelude Programs JsString Json Types ServerNetworks.
Local Open Scope string_scope.

(** ** Adapters *)

Inductive network_mode :=
  | NetworkUser | NetworkBridge | NetworkSwitch | NetworkVmnetBridged | NetworkVmnetHost | NetworkVmnetShared
  | NetworkOther (mode : string).
#[export] Instance network_mode_eq_dec : EqDecision network_mode.
Proof. solve_decision. Defined.

Record InterfaceSpec := mkInterfaceSpec {
  Reference : string; ID : string; spec_mac : string; Network : network_mode;
  Uplink : string; Bridge : string; Socket : string; Group : string
}.

Definition is_bridge (nic : InterfaceSpec) : bool := bool_decide (Network nic = NetworkBridge).

(** [%q], of a text of plain characters. *)
Definition quoted (s : string) : string := String (Ascii.ascii_of_nat 34) (s ++ String (Ascii.ascii_of_nat 34) "").

Definition networkBackend (nic : InterfaceSpec) : json + string :=
  if negb (interfaceID (ID nic)) then inr "invalid network interface ID" else
  let backend fields := inl (JObj (("id", JStr (ID nic)) :: fields)) in
  match Network nic with
  | NetworkUser => backend [("type", JStr "user")]
  | NetworkSwitch =>
      if String.eqb (Group nic) "" then inr "switch requires a multicast group"
      else backend [("type", JStr "socket"); ("mcast", JStr (Group nic))]
  | NetworkBridge =>
      if String.eqb (Bridge nic) "" || String.eqb (Socket nic) "" then inr "bridge requires a bridge and helper socket"
      else backend [("type", JStr "stream"); ("server", JBool false); ("addr", JObj [("type", JStr "unix"); ("path", JStr (Socket nic))])]
  | NetworkVmnetHost => backend [("type", JStr "vmnet-host")]
  | NetworkVmnetShared => backend [("type", JStr "vmnet-shared")]
  | NetworkVmnetBridged =>
      if String.eqb (Uplink nic) "" then inr "vmnet-bridged requires an uplink"
      else backend [("type", JStr "vmnet-bridged"); ("ifname", JStr (Uplink nic))]
  | NetworkOther mode => inr ("unknown network mode " ++ quoted mode)
  end.

Definition networkBus (id : string) : string := "maco-" ++ id.

Definition networkDevice (nic : InterfaceSpec) : json :=
  JObj ([("driver", JStr "virtio-net-pci"); ("id", JStr (ID nic)); ("netdev", JStr (ID nic)); ("mac", JStr (spec_mac nic));
         ("bus", JStr (networkBus (ID nic))); ("addr", JStr "0"); ("disable-legacy", JStr "on")] ++
        (if is_bridge nic
         then map (λ p, (p, JBool false)) ["csum"; "guest_csum"; "gso"; "guest_tso4"; "guest_tso6"; "guest_ecn"] else []))%list.

(** ** What a running machine has

    Its backends and adapters, the adapters QEMU has been told to remove and waits for the guest to release, the
    helpers that run, the journal, and whether the new manifest has been saved. [replaced] says that saving it
    reported an error and yet replaced the file, as [Storage.replaced_though_failed] shows it may. *)

Record vm := mkVm {
  netdevs : gmap string json;
  nics : gmap string json;
  unplugging : gset string;
  helpers : gset string;
  journal : option (option InterfaceSpec * option InterfaceSpec);
  saved : bool;
  replaced : bool
}.

Definition with_netdevs (f : gmap string json → gmap string json) (v : vm) : vm :=
  mkVm (f (netdevs v)) (nics v) (unplugging v) (helpers v) (journal v) (saved v) (replaced v).
Definition with_nics (f : gmap string json → gmap string json) (v : vm) : vm :=
  mkVm (netdevs v) (f (nics v)) (unplugging v) (helpers v) (journal v) (saved v) (replaced v).
Definition with_unplugging (f : gset string → gset string) (v : vm) : vm :=
  mkVm (netdevs v) (nics v) (f (unplugging v)) (helpers v) (journal v) (saved v) (replaced v).
Definition with_helpers (f : gset string → gset string) (v : vm) : vm :=
  mkVm (netdevs v) (nics v) (unplugging v) (f (helpers v)) (journal v) (saved v) (replaced v).
Definition with_journal j (v : vm) : vm := mkVm (netdevs v) (nics v) (unplugging v) (helpers v) j (saved v) (replaced v).
Definition with_saved (r : bool) (v : vm) : vm := mkVm (netdevs v) (nics v) (unplugging v) (helpers v) (journal v) true r.

(** ** Commands *)

Inductive qmp := NetdevAdd (id : string) (backend : json) | NetdevDel (id : string) | DeviceAdd (id : string) (device : json) | DeviceDel (id : string).
Inductive reply := Done | Rejected (class desc : string) | Lost (e : string).

(** [qmpError.Error]. *)
Definition qmp_error (class desc : string) : string := "qmp " ++ class ++ ": " ++ desc.

Record event := mkEvent { ev_name : string; ev_device : option string }.

Inductive cmd : Type → Type :=
  | StatJournal : cmd (bool + string)
  | Dial : cmd (option string)
  | WriteJournal (before after : option InterfaceSpec) : cmd (option string)
  | RemoveJournal : cmd (option string)
  | Mkdir (id : string) : cmd (option string)
  | StartHelper (id bridge : string) : cmd (option string)
  | StopHelper (id : string) : cmd (option string)
  | Exec (q : qmp) : cmd (reply * list event)  (* with the events that came before the answer *)
  | NextEvent : cmd (event + string)
  | Commit : cmd (option string).

(** What the guest may do on its own, and what an event says. *)
Definition released (v v' : vm) : Prop :=
  ∃ gone : gset string, gone ⊆ unplugging v ∧ v' = with_nics (filter (λ p, p.1 ∉ gone)) v.

Definition event_ok (e : event) (v : vm) : Prop :=
  match ev_device e with
  | Some d =>
      (ev_name e = "DEVICE_DELETED" → d ∈ unplugging v) ∧
      (ev_name e = "DEVICE_UNPLUG_GUEST_ERROR" → d ∈ unplugging v ∧ is_Some (nics v !! d))
  | None => True
  end.
Definition after_event (e : event) (v : vm) : vm :=
  match ev_device e with
  | Some d =>
      if String.eqb (ev_name e) "DEVICE_DELETED" then with_unplugging (λ X, X ∖ {[d]}) (with_nics (delete d) v)
      else if String.eqb (ev_name e) "DEVICE_UNPLUG_GUEST_ERROR" then with_unplugging (λ X, X ∖ {[d]}) v
      else v
  | None => v
  end.
Fixpoint announced (evs : list event) (v v' : vm) : Prop :=
  match evs with
  | [] => released v v'
  | e :: evs => ∃ v1, released v v1 ∧ event_ok e v1 ∧ announced evs (after_event e v1) v'
  end.

(** What a command of the monitor needs, and does. *)
Definition accepted (q : qmp) (v : vm) : Prop :=
  match q with
  | NetdevAdd id _ => netdevs v !! id = None
  | NetdevDel id => is_Some (netdevs v !! id)
  | DeviceAdd id _ => nics v !! id = None
  | DeviceDel id => is_Some (nics v !! id)
  end.
Definition effect (q : qmp) (v : vm) : vm :=
  match q with
  | NetdevAdd id b => with_netdevs (<[id := b]>) v
  | NetdevDel id => with_netdevs (delete id) v
  | DeviceAdd id d => with_nics (<[id := d]>) v
  | DeviceDel id => with_unplugging (λ X, {[id]} ∪ X) v
  end.
Definition carried_out (q : qmp) (evs : list event) (v v' : vm) : Prop :=
  ∃ evs1 evs2 v1, evs = (evs1 ++ evs2)%list ∧ announced evs1 v v1 ∧ accepted q v1 ∧ announced evs2 (effect q v1) v'.

Definition documented B (c : cmd B) : B → vm → vm → Prop :=
  match c in cmd B return B → vm → vm → Prop with
  | StatJournal => λ r v v', v' = v ∧ match r with inl b => b = bool_decide (is_Some (journal v)) | inr _ => True end
  | Dial | Mkdir _ => λ _ v v', v' = v
  | WriteJournal b a => λ r v v', match r with None => v' = with_journal (Some (b, a)) v | Some _ => v' = v end
  | RemoveJournal => λ r v v', match r with None => v' = with_journal None v | Some _ => v' = v end
  | StartHelper id _ => λ r v v',
      match r with
      | None => v' = with_helpers (λ X, {[id]} ∪ X) v
      | Some _ => v' = v ∨ v' = with_helpers (λ X, {[id]} ∪ X) v
      end
  | StopHelper id => λ r v v',
      match r with
      | None => v' = with_helpers (λ X, X ∖ {[id]}) v
      | Some _ => v' = v ∨ v' = with_helpers (λ X, X ∖ {[id]}) v
      end
  | Exec q => λ r v v',
      match r with
      | (Done, evs) => carried_out q evs v v'
      | (Rejected _ _, evs) => announced evs v v'
      | (Lost _, _) => ∃ evs, announced evs v v' ∨ carried_out q evs v v'
      end
  | NextEvent => λ r v v', match r with inl e => announced [e] v v' | inr _ => ∃ evs, announced evs v v' end
  | Commit => λ r v v', match r with None => v' = with_saved (replaced v) v | Some _ => v' = v ∨ v' = with_saved true v end
  end.

(** ** The source *)

Notation prog := (Programs.prog cmd).

(** An error, or [ErrNetworkStateUncertain] with its cause. *)
Inductive err := Failed (e : string) | Uncertain (e : string).
Definition text (e : err) : string :=
  match e with
  | Failed e => e
  | Uncertain e => "network change needs recovery; stop/start the VM to reconcile" ++ (if String.eqb e "" then "" else ": " ++ e)
  end.

(** [if _, err := c.executeArguments(q); err != nil { f(err) }], its events aside. *)
Definition execute (q : qmp) (rejected : string → prog (option err)) (k : prog (option err)) : prog (option err) :=
  prog_bind (λ r : reply * list event,
    match fst r with Done => k | Rejected class desc => rejected (qmp_error class desc) | Lost e => Ret (Some (Uncertain e)) end) (ask (Exec q)).

Definition stop (nic : InterfaceSpec) : prog (option string) := if is_bridge nic then ask (StopHelper (ID nic)) else Ret None.

Definition attachInterface (nic : InterfaceSpec) : prog (option err) :=
  match networkBackend nic with
  | inr e => Ret (Some (Failed e))
  | inl backend =>
      let stop_then (e : err) (what : string → string) : prog (option err) :=
        prog_bind (λ c, match c with Some c => Ret (Some (Uncertain (what c))) | None => Ret (Some e) end) (stop nic) in
      do (if is_bridge nic then
            prog_bind (λ e, match e with
                            | Some e => Ret (Some (Failed e))
                            | None => prog_bind (λ e, match e with
                                | Some e => stop_then (Failed e) (λ c, "helper start: " ++ e ++ "; cleanup: " ++ c)
                                | None => Ret None
                                end) (ask (StartHelper (ID nic) (Bridge nic)))
                            end) (ask (Mkdir (ID nic)))
          else Ret None);
      execute (NetdevAdd (ID nic) backend)
        (λ desc, stop_then (Failed ("create network backend: " ++ desc)) (λ c, c))
        (execute (DeviceAdd (ID nic) (networkDevice nic))
          (λ desc, prog_bind (λ r : reply * list event,
             match fst r with
             | Done => stop_then (Failed ("attach NIC (older VMs need a stop/start to reserve PCIe slots): " ++ desc)) (λ c, c)
             | Rejected class c => Ret (Some (Uncertain ("attach NIC: " ++ desc ++ "; delete backend: " ++ qmp_error class c)))
             | Lost c => Ret (Some (Uncertain ("attach NIC: " ++ desc ++ "; delete backend: " ++ c)))
             end) (ask (Exec (NetdevDel (ID nic)))))
          (Ret None))
  end.

(** [client.events], which keeps 256 of them. *)
Definition keep (events more : list event) : list event := take 256 (events ++ more).

(** [device_del], again while the guest is busy, [tries] times at most in the five seconds it has. *)
Fixpoint unplug (tries : nat) (id : string) (events : list event) : prog (list event + err) :=
  prog_bind (λ r : reply * list event,
    let events := keep events (snd r) in
    match fst r with
    | Done => Ret (inl events)
    | Lost e => Ret (inr (Uncertain e))
    | Rejected class desc =>
        let failed := Ret (inr (Failed ("remove NIC (older VMs need a stop/start to reserve PCIe slots): " ++ qmp_error class desc))) in
        if negb (includes "guest is busy (power indicator blinking)" desc) then failed
        else match tries with O => failed | S tries => unplug tries id events end
    end) (ask (Exec (DeviceDel id))).

(** What an event says of the adapter: that it is gone, or that it stays. *)
Definition verdict (id : string) (e : event) : option bool :=
  match ev_device e with
  | Some d =>
      if negb (String.eqb d id) then None
      else if String.eqb (ev_name e) "DEVICE_UNPLUG_GUEST_ERROR" then Some false
      else if String.eqb (ev_name e) "DEVICE_DELETED" then Some true else None
  | None => None
  end.

(** The events that have come, then those to come, [patience] of them before the deadline. *)
Fixpoint await_event (patience : nat) (id : string) : prog (option err) :=
  match patience with
  | O => Ret (Some (Uncertain "NIC removal not confirmed: i/o timeout"))
  | S patience =>
      prog_bind (λ r, match r with
        | inr e => Ret (Some (Uncertain ("NIC removal not confirmed: " ++ e)))
        | inl e =>
            match verdict id e with
            | Some true => Ret None
            | Some false => Ret (Some (Failed "guest rejected NIC removal"))
            | None => await_event patience id
            end
        end) (ask NextEvent)
  end.
Fixpoint await_removal (patience : nat) (id : string) (events : list event) : prog (option err) :=
  match events with
  | [] => await_event patience id
  | e :: events =>
      match verdict id e with
      | Some true => Ret None
      | Some false => Ret (Some (Failed "guest rejected NIC removal"))
      | None => await_removal patience id events
      end
  end.

Definition detachInterface (tries patience : nat) (nic : InterfaceSpec) : prog (option err) :=
  prog_bind (λ r, match r with
    | inr e => Ret (Some e)
    | inl events =>
        do await_removal patience (ID nic) events;
        execute (NetdevDel (ID nic)) (λ desc, Ret (Some (Uncertain desc)))
          (prog_bind (λ e, Ret (Uncertain <$> e)) (stop nic))
    end) (unplug tries (ID nic) []).

Section change.
Context (MAC : string → string) (runDir vmID : string) (tries patience : nat).

Definition prepare (nic : InterfaceSpec) : InterfaceSpec :=
  mkInterfaceSpec (Reference nic) (ID nic) (spec_mac nic ||s InterfaceMAC MAC vmID (ID nic)) (Network nic) (Uplink nic) (Bridge nic)
    (if is_bridge nic then runDir ++ "/" ++ vmID ++ "/interfaces/" ++ ID nic ++ "/network.sock" else Socket nic) (Group nic).

Definition clear (e : option err) : prog (option err) :=
  match e with
  | Some (Uncertain _) => Ret e
  | _ => prog_bind (λ c, match c with
           | Some c => Ret (Some (Uncertain (match e with Some e => text e | None => "<nil>" end ++ "; clear journal: " ++ c)))
           | None => Ret e
           end) (ask RemoveJournal)
  end.

Definition attach_opt (nic : option InterfaceSpec) : prog (option err) := match nic with Some nic => attachInterface nic | None => Ret None end.
Definition detach_opt (nic : option InterfaceSpec) : prog (option err) := match nic with Some nic => detachInterface tries patience nic | None => Ret None end.

Definition rollback (before : option InterfaceSpec) (cause : err) : prog (option err) :=
  prog_bind (λ e, match e with
    | Some e => Ret (Some (Uncertain (text cause ++ "; restore original interface: " ++ text e)))
    | None => clear (Some cause)
    end) (attach_opt before).

(** The change itself, once the journal is written. *)
Definition apply_change (before after : option InterfaceSpec) : prog (option err) :=
  prog_bind (λ e, match e with Some e => clear (Some e) | None =>
  prog_bind (λ e, match e with Some (Uncertain e) => Ret (Some (Uncertain e)) | Some e => rollback before e | None =>
  prog_bind (λ e, match e with
    | Some e => prog_bind (λ c, match c with
                  | Some c => Ret (Some (Uncertain ("save manifest: " ++ e ++ "; undo attachment: " ++ text c)))
                  | None => rollback before (Failed e)
                  end) (detach_opt after)
    | None => clear None
    end) (ask Commit)
  end) (attach_opt after)
  end) (detach_opt before).

Definition ChangeInterface (before after : option InterfaceSpec) : prog (option err) :=
  prog_bind (λ r, match r with
    | inl true => Ret (Some (Uncertain ""))
    | inr e => Ret (Some (Failed e))
    | inl false =>
        if negb (forallb (λ nic : InterfaceSpec, interfaceID (ID nic)) (option_list before ++ option_list after))
        then Ret (Some (Failed "invalid interface ID")) else
        prog_bind (λ e, match e with Some e => Ret (Some (Failed e)) | None =>
        let before := prepare <$> before in let after := prepare <$> after in
        match networkBackend <$> after with
        | Some (inr e) => Ret (Some (Failed e))
        | _ => prog_bind (λ e, match e with Some e => Ret (Some (Failed e)) | None => apply_change before after end)
                 (ask (WriteJournal before after))
        end end) (ask Dial)
    end) (ask StatJournal).
End change.

(** ** The place of one adapter

    All that a change does is at one identifier: its backend, its device, whether it waits for the guest, and
    whether its helper runs. *)

Record slot := mkSlot { nd : option json; nc : option json; un : bool; hp : bool }.

Section slots.
Context (id : string) (base : vm) (j : option (option InterfaceSpec * option InterfaceSpec)) (s r : bool).

Definition place (σ : slot) : vm :=
  mkVm (partial_alter (λ _, nd σ) id (netdevs base)) (partial_alter (λ _, nc σ) id (nics base)) (if un σ then {[id]} else ∅)
    (if hp σ then {[id]} ∪ helpers base else helpers base ∖ {[id]}) j s r.

Lemma place_netdev f (o : option json) σ : (∀ m : gmap string json, f m = partial_alter (λ _, o) id m) →
  with_netdevs f (place σ) = place (mkSlot o (nc σ) (un σ) (hp σ)).
Proof. intros Hf. unfold with_netdevs, place. cbn. by rewrite Hf, partial_alter_partial_alter_eq. Qed.
Lemma place_nic f (o : option json) σ : (∀ m : gmap string json, f m = partial_alter (λ _, o) id m) →
  with_nics f (place σ) = place (mkSlot (nd σ) o (un σ) (hp σ)).
Proof. intros Hf. unfold with_nics, place. cbn. by rewrite Hf, partial_alter_partial_alter_eq. Qed.
Lemma place_helper_on σ : with_helpers (λ X, {[id]} ∪ X) (place σ) = place (mkSlot (nd σ) (nc σ) (un σ) true).
Proof. unfold with_helpers, place. cbn. f_equal. destruct (hp σ); [set_solver|]. apply set_eq. intros x. destruct (decide (x = id)); set_solver. Qed.
Lemma place_helper_off σ : with_helpers (λ X, X ∖ {[id]}) (place σ) = place (mkSlot (nd σ) (nc σ) (un σ) false).
Proof. unfold with_helpers, place. cbn. f_equal. destruct (hp σ); set_solver. Qed.
Lemma place_pending σ : with_unplugging (λ X, {[id]} ∪ X) (place σ) = place (mkSlot (nd σ) (nc σ) true (hp σ)).
Proof. unfold with_unplugging, place. cbn. f_equal. destruct (un σ); set_solver. Qed.
Lemma place_not_pending σ : with_unplugging (λ X, X ∖ {[id]}) (place σ) = place (mkSlot (nd σ) (nc σ) false (hp σ)).
Proof. unfold with_unplugging, place. cbn. f_equal. destruct (un σ); set_solver. Qed.

(** *** Events *)

Definition first_verdict (evs : list event) : option bool := head (omap (verdict id) evs).

Lemma first_verdict_cons e evs : first_verdict (e :: evs) = match verdict id e with Some b => Some b | None => first_verdict evs end.
Proof. unfold first_verdict. cbn. by destruct (verdict id e). Qed.
Lemma first_verdict_app l1 l2 : first_verdict l1 = None → first_verdict (l1 ++ l2) = first_verdict l2.
Proof.
  induction l1 as [|e l1 IH]; [done|]. rewrite <- app_comm_cons, !first_verdict_cons. by destruct (verdict id e).
Qed.
Lemma first_verdict_take n l : first_verdict (take n l) = first_verdict l ∨ first_verdict (take n l) = None.
Proof.
  revert n. induction l as [|e l IH]; intros [|n]; [by left..|by right|]. cbn [take]. rewrite !first_verdict_cons. destruct (verdict id e); [by left|apply IH].
Qed.

Lemma released_place σ v : released (place σ) v → v = place σ ∨ (un σ = true ∧ v = place (mkSlot (nd σ) None (un σ) (hp σ))).
Proof.
  intros (gone & Hg & ->). cbn in Hg. destruct (decide (id ∈ gone)) as [Hid|Hid].
  - right. assert (un σ = true) as Hu by (destruct (un σ); [done|exfalso; set_solver]). rewrite Hu in Hg. split; [done|].
    rewrite (place_nic _ None); [done|]. intros m. apply map_eq. intros i. rewrite map_lookup_filter.
    destruct (decide (i = id)) as [->|Hi].
    + rewrite lookup_partial_alter_eq. destruct (m !! id); [|done]. cbn. rewrite option_guard_False; [done|]. by intros H.
    + rewrite lookup_partial_alter_ne by done. destruct (m !! i); [|done]. cbn. rewrite option_guard_True; [done|]. set_solver.
  - left. unfold with_nics, place. cbn. f_equal. apply map_filter_id. intros i x _. cbn. destruct (un σ); set_solver.
Qed.

(** Nothing is announced while nothing waits for the guest. *)
Lemma quiet evs σ v : un σ = false → announced evs (place σ) v → v = place σ ∧ first_verdict evs = None.
Proof.
  intros Hu. revert v. induction evs as [|e evs IH]; intros v.
  - intros [->|[Hu' _]]%released_place; [done|congruence].
  - intros (v1 & [->|[Hu' _]]%released_place & Hok & Ha); [|congruence]. rewrite first_verdict_cons.
    assert (after_event e (place σ) = place σ ∧ verdict id e = None) as [E1 E2].
    { unfold event_ok, after_event, verdict in *. destruct (ev_device e) as [d|]; [|done]. destruct Hok as [H1 H2]. cbn in H1, H2. rewrite Hu in H1, H2.
      destruct (String.eqb_spec (ev_name e) "DEVICE_DELETED") as [E|_]; [by apply H1 in E; set_solver|].
      destruct (String.eqb_spec (ev_name e) "DEVICE_UNPLUG_GUEST_ERROR") as [E|_]; [by apply H2 in E as [? _]; set_solver|].
      split; [done|]. by destruct (negb _). }
    rewrite E1 in Ha. rewrite E2. by apply IH.
Qed.

(** An adapter that waits for the guest: it is there, or gone though not yet announced. *)
Definition waiting (σ : slot) (v : vm) : Prop := v = place (mkSlot (nd σ) (nc σ) true (hp σ)) ∨ v = place (mkSlot (nd σ) None true (hp σ)).
Definition told (σ : slot) (b : option bool) (v : vm) : Prop :=
  match b with
  | Some true => v = place (mkSlot (nd σ) None false (hp σ))
  | Some false => v = place (mkSlot (nd σ) (nc σ) false (hp σ))
  | None => waiting σ v
  end.

Lemma released_waiting σ v v' : waiting σ v → released v v' → waiting σ v'.
Proof. intros [->| ->] [->|[_ ->]]%released_place; cbn; try (by left); by right. Qed.

Lemma announced_waiting evs σ v v' : waiting σ v → announced evs v v' → told σ (first_verdict evs) v'.
Proof.
  revert v. induction evs as [|e evs IH]; intros v Hw; [by apply released_waiting|].
  intros (v1 & Hr & Hok & Ha). apply (released_waiting _ _ _ Hw) in Hr. clear Hw v. rewrite first_verdict_cons.
  unfold event_ok, after_event, verdict in *. destruct (ev_device e) as [d|]; [|by apply (IH v1)]. destruct Hok as [H1 H2].
  assert (∀ x, x ∈ unplugging v1 → x = id) as Hun by (intros x; destruct Hr as [->| ->]; cbn; set_solver).
  destruct (String.eqb_spec (ev_name e) "DEVICE_DELETED") as [E|_].
  - rewrite E. apply H1, Hun in E as ->. clear H1 H2. rewrite String.eqb_refl. cbn [negb String.eqb Ascii.eqb Bool.eqb told].
    assert (with_unplugging (λ X, X ∖ {[id]}) (with_nics (delete id) v1) = place (mkSlot (nd σ) None false (hp σ))) as E1.
    { destruct Hr as [->| ->]; by rewrite (place_nic _ None) by done; rewrite place_not_pending. }
    rewrite E1 in Ha. by apply quiet in Ha as [-> _].
  - destruct (String.eqb_spec (ev_name e) "DEVICE_UNPLUG_GUEST_ERROR") as [E|_].
    + apply H2 in E as [->%Hun [x Hx]]. rewrite String.eqb_refl. cbn [negb told].
      assert (with_unplugging (λ X, X ∖ {[id]}) v1 = place (mkSlot (nd σ) (nc σ) false (hp σ))) as E1.
      { destruct Hr as [->| ->]; [by rewrite place_not_pending|]. cbn in Hx. by rewrite lookup_partial_alter_eq in Hx. }
      rewrite E1 in Ha. by apply quiet in Ha as [-> _].
    + assert ((if negb (d =? id)%string then None else None) = @None bool) as -> by by destruct (negb _). by apply (IH v1).
Qed.
End slots.

(** ** Taking an adapter out and putting one in *)

Section steps.
Context (id : string) (base : vm) (j : option (option InterfaceSpec * option InterfaceSpec)) (s r : bool).
Notation place := (place id base j s r).
Notation safe := (safe documented).

Definition placed (v : vm) : Prop := ∃ σ, v = place σ.

Lemma placed_place σ : placed (place σ).
Proof. by exists σ. Qed.
Hint Resolve placed_place : core.

Ltac finish := apply safe_ret; cbn; by auto.

Lemma told_placed σ b v : told id base j s r σ b v → placed v.
Proof. destruct b as [[]|]; cbn; [intros ->..|intros [->| ->]]; done. Qed.

(** A command while nothing waits for the guest. *)
Lemma exec_quiet q rep evs σ σ' v : un σ = false → un σ' = false → effect q (place σ) = place σ' →
  documented _ (Exec q) (rep, evs) (place σ) v →
  first_verdict id evs = first_verdict id evs ∧
  match rep with Done => v = place σ' | Rejected _ _ => v = place σ | Lost _ => v = place σ ∨ v = place σ' end.
Proof.
  intros Hu Hu' He Hd. split; [done|].
  assert (∀ evs v, carried_out q evs (place σ) v → v = place σ') as Hc.
  { intros evs' v1 (evs1 & evs2 & v2 & _ & [-> _]%quiet & _ & Ha); [|done]. rewrite He in Ha. by apply quiet in Ha as [-> _]. }
  destruct rep; cbn in Hd.
  - by eapply Hc.
  - by apply quiet in Hd as [-> _].
  - destruct Hd as (evs' & [Ha|Hcarried]); [left; by apply quiet in Ha as [-> _]|right; by eapply Hc].
Qed.

Lemma safe_execute q rejected k σ σ' (Q : option err → vm → Prop) : un σ = false → un σ' = false → effect q (place σ) = place σ' →
  (∀ desc, safe (rejected desc) (place σ) placed Q) → safe k (place σ') placed Q →
  (∀ e v, placed v → Q (Some (Uncertain e)) v) → safe (execute q rejected k) (place σ) placed Q.
Proof.
  intros Hu Hu' He Hr Hk Hq. apply safe_bind. command as x v' Hd; [done|]. destruct x as [rep evs].
  apply (exec_quiet q rep evs σ σ') in Hd as [_ Hd]; [|done..]. cbn [fst]. destruct rep; subst; [done..|].
  destruct Hd as [->| ->]; (split; [done|]); apply safe_ret; auto.
Qed.

Lemma safe_stop nic σ (Q : option string → vm → Prop) : ID nic = id →
  Q None (place (if is_bridge nic then mkSlot (nd σ) (nc σ) (un σ) false else σ)) →
  (∀ e v, placed v → Q (Some e) v) → safe (stop nic) (place σ) placed Q.
Proof.
  intros Hid H1 H2. unfold stop. destruct (is_bridge nic); [|by apply safe_ret].
  command as x v' Hd; [done|]. rewrite Hid in Hd. destruct x as [e|].
  - split; [destruct Hd as [->| ->]; [done|rewrite place_helper_off; done]|].
    apply H2. destruct Hd as [->| ->]; [done|rewrite place_helper_off; done].
  - rewrite Hd, place_helper_off. split; [done|exact H1].
Qed.

(** The place of an adapter that is plugged in, and the empty one. *)
Definition full (b : json) (nic : InterfaceSpec) : slot := mkSlot (Some b) (Some (networkDevice nic)) false (is_bridge nic).
Definition empty : slot := mkSlot None None false false.

(** What an operation that fails leaves, whatever it would leave when it succeeds. *)
Definition failing (σ : slot) (e : option err) (v : vm) : Prop :=
  match e with None => False | Some (Failed _) => v = place σ | Some (Uncertain _) => placed v end.
Definition ending (σ σ' : slot) (e : option err) (v : vm) : Prop :=
  match e with None => v = place σ' | Some (Failed _) => v = place σ | Some (Uncertain _) => placed v end.

Lemma failing_ending σ σ' e v : failing σ e v → ending σ σ' e v.
Proof. by destruct e as [[]|]. Qed.

(** Stopping the helper, if the adapter has one, gives the empty place back. *)
Lemma safe_stop_then nic h e what : ID nic = id → (is_bridge nic = false → h = false) →
  safe (prog_bind (λ c, match c with Some c => Ret (Some (Uncertain (what c))) | None => Ret (Some (Failed e)) end) (stop nic))
    (place (mkSlot None None false h)) placed (failing empty).
Proof.
  intros Hid Hh. apply safe_bind, safe_stop; [done| |].
  - apply safe_ret; [done|]. cbn. destruct (is_bridge nic); [done|]. by rewrite Hh.
  - intros c v Hv. finish.
Qed.

Lemma safe_add b nic : ID nic = id → networkBackend nic = inl b →
  safe (execute (NetdevAdd (ID nic) b)
       (λ desc, prog_bind (λ c, match c with Some c => Ret (Some (Uncertain c)) | None => Ret (Some (Failed ("create network backend: " ++ desc))) end) (stop nic))
       (execute (DeviceAdd (ID nic) (networkDevice nic)) (λ desc, prog_bind (λ r : reply * list event,
             match fst r with
             | Done => prog_bind (λ c, match c with Some c => Ret (Some (Uncertain c)) | None => Ret (Some (Failed ("attach NIC (older VMs need a stop/start to reserve PCIe slots): " ++ desc))) end) (stop nic)
             | Rejected class c => Ret (Some (Uncertain ("attach NIC: " ++ desc ++ "; delete backend: " ++ qmp_error class c)))
             | Lost c => Ret (Some (Uncertain ("attach NIC: " ++ desc ++ "; delete backend: " ++ c)))
             end) (ask (Exec (NetdevDel (ID nic))))) (Ret None)))
    (place (mkSlot None None false (is_bridge nic))) placed (ending empty (full b nic)).
Proof.
  intros Hid Hb. assert (is_bridge nic = false → is_bridge nic = false) as Hbr by done.
  apply (safe_execute _ _ _ _ (mkSlot (Some b) None false (is_bridge nic))); [done|done| | | |by intros ? ? ?].
  - cbn [effect]. rewrite Hid. by rewrite (place_netdev _ _ _ _ _ _ (Some b)).
  - intros desc. eapply safe_mono; [by apply (safe_stop_then nic _ _ (λ c, c))|done|]. intros e v _. apply failing_ending.
  - apply (safe_execute _ _ _ _ (full b nic)); [done|done| | | |by intros ? ? ?].
    + cbn [effect]. rewrite Hid. by rewrite (place_nic _ _ _ _ _ _ (Some (networkDevice nic))).
    + intros desc. apply safe_bind. command as x v' Hd; [done|]. destruct x as [rep evs].
      apply (exec_quiet (NetdevDel (ID nic)) rep evs (mkSlot (Some b) None false (is_bridge nic)) (mkSlot None None false (is_bridge nic))) in Hd as [_ Hd]; [|done|done|].
      * cbn [fst]. destruct rep.
        -- rewrite Hd. split; [done|]. eapply safe_mono; [by apply (safe_stop_then nic _ _ (λ c, c))|done|]. intros e v _. apply failing_ending.
        -- rewrite Hd. split; [done|]. finish.
        -- destruct Hd as [->| ->]; (split; [done|]); finish.
      * cbn [effect]. rewrite Hid. by rewrite (place_netdev _ _ _ _ _ _ None).
    + finish.
Qed.

Lemma safe_attach b nic : ID nic = id → networkBackend nic = inl b →
  safe (attachInterface nic) (place empty) placed (ending empty (full b nic)).
Proof.
  intros Hid Hb. unfold attachInterface. rewrite Hb. apply safe_do. pose proof (safe_add b nic Hid Hb) as Hadd.
  destruct (is_bridge nic) eqn:Ebr; [|finish].
  apply safe_bind. command as x v' Hd; [done|]. rewrite Hd. split; [done|]. destruct x as [e|]; [finish|].
  apply safe_bind. command as x v2 Hd2; [done|]. rewrite Hid, place_helper_on in Hd2. destruct x as [e|].
  - destruct Hd2 as [->| ->]; (split; [done|]); (eapply safe_mono; [apply (safe_stop_then nic _ _ (λ c, "helper start: " ++ e ++ "; cleanup: " ++ c)); [done|by rewrite Ebr]|done|]);
      by intros [[]|] v _ Hv.
  - rewrite Hd2. split; [done|]. finish.
Qed.

(** The answer to a request that QEMU took up, with the events that came. *)
Definition pending (σ : slot) (buf : list event) (v : vm) : Prop :=
  match first_verdict id buf with
  | Some b => told id base j s r σ (Some b) v
  | None => ∃ b, told id base j s r σ b v
  end.

Lemma keep_pending σ evs more b v : first_verdict id evs = None → b = first_verdict id more → told id base j s r σ b v → pending σ (keep evs more) v.
Proof.
  intros He -> Ht. unfold pending, keep. destruct (first_verdict_take id 256 (evs ++ more)) as [E|E]; rewrite E; [|eauto].
  rewrite first_verdict_app by done. destruct (first_verdict id more) eqn:Em; [done|eauto].
Qed.

Lemma safe_unplug tries σ buf : un σ = false → first_verdict id buf = None →
  safe (unplug tries id buf) (place σ) placed (λ x v,
    match x with inl buf => pending σ buf v | inr (Failed _) => v = place σ | inr (Uncertain _) => placed v end).
Proof.
  intros Hu. revert buf. induction tries as [|tries IH]; intros buf Hb; cbn [unplug]; apply safe_bind; command as x v' Hd; try done;
    destruct x as [rep evs]; cbn [fst snd].
  all: assert (∀ evs v, carried_out (DeviceDel id) evs (place σ) v → told id base j s r σ (first_verdict id evs) v) as Hc by
    (intros evs' v (evs1 & evs2 & v1 & -> & [-> E1]%quiet & _ & Ha); [|done]; cbn [effect] in Ha; rewrite place_pending in Ha;
     rewrite first_verdict_app by done; eapply announced_waiting; [|exact Ha]; by left).
  all: destruct rep; cbn in Hd.
  1, 4: apply Hc in Hd; split; [by eapply told_placed|]; apply safe_ret; [by eapply told_placed|]; by eapply keep_pending.
  1, 3: apply quiet in Hd as [-> E]; [|done]; split; [done|]; destruct (negb _); [finish|].
  1: finish.
  1: apply IH; unfold keep; destruct (first_verdict_take id 256 (buf ++ evs)) as [-> | ->]; [|done]; by rewrite first_verdict_app.
  all: assert (placed v') as Hp by (destruct Hd as (evs' & [[-> _]%quiet|H%Hc]); [done|done|by eapply told_placed]); split; [done|]; finish.
Qed.

(** The adapter is gone, or stays, as the events tell. *)
Definition gone (σ : slot) : slot := mkSlot (nd σ) None false (hp σ).

Lemma told_next σ b v e v' : un σ = false → told id base j s r σ b v → announced [e] v v' →
  (verdict id e = None ∧ ∃ b, told id base j s r σ b v') ∨ (∃ c, verdict id e = Some c ∧ told id base j s r σ (Some c) v').
Proof.
  intros Hu Ht Ha. destruct b as [[]|]; cbn [told] in Ht.
  - subst v. pose proof Ha as [-> E]%quiet; [|done]. rewrite first_verdict_cons in E. left. destruct (verdict id e); [done|].
    split; [done|]. by exists (Some true).
  - subst v. pose proof Ha as [-> E]%quiet; [|done]. rewrite first_verdict_cons in E. left. destruct (verdict id e); [done|].
    split; [done|]. by exists (Some false).
  - eapply announced_waiting in Ha; [|done]. rewrite first_verdict_cons in Ha. destruct (verdict id e) as [c|]; [right; by exists c|left].
    split; [done|]. eexists. exact Ha.
Qed.

Lemma told_verdict σ c v : un σ = false → told id base j s r σ (Some c) v →
  ending σ (gone σ) (if c then None else Some (Failed "guest rejected NIC removal")) v.
Proof. intros Hu Ht. destruct c; cbn in *; [done|]. rewrite Ht. by destruct σ; cbn in *; subst. Qed.

Lemma safe_await_event patience σ b v : un σ = false → told id base j s r σ b v →
  safe (await_event patience id) v placed (ending σ (gone σ)).
Proof.
  intros Hu. revert b v. induction patience as [|patience IH]; intros b v Ht; cbn [await_event].
  { apply safe_ret; by eapply told_placed. }
  apply safe_bind. command as x v' Hd; [by eapply told_placed|]. destruct x as [e|e].
  - change (announced [e] v v') in Hd. destruct (told_next _ _ _ _ _ Hu Ht Hd) as [(-> & b' & Ht')|(c & -> & Ht')]; (split; [by eapply told_placed|]).
    + by eapply IH.
    + apply told_verdict in Ht' as He; [|done]. destruct c; (apply safe_ret; [by eapply told_placed|done]).
  - assert (placed v') as Hp.
    { destruct Hd as (evs & Ha). destruct b as [[]|]; cbn [told] in Ht; [subst v; by apply quiet in Ha as [-> _]..|].
      eapply announced_waiting in Ha; [|done]. by eapply told_placed. }
    split; [done|]. finish.
Qed.

Lemma safe_await patience σ buf v : un σ = false → pending σ buf v → safe (await_removal patience id buf) v placed (ending σ (gone σ)).
Proof.
  intros Hu. induction buf as [|e buf IH]; intros Hp; cbn [await_removal].
  - destruct Hp as [b Hb]. by eapply safe_await_event.
  - unfold pending in Hp. rewrite first_verdict_cons in Hp. destruct (verdict id e) as [c|]; [|by apply IH].
    apply told_verdict in Hp as He; [|done]. destruct c; (apply safe_ret; [by eapply told_placed|done]).
Qed.

Lemma safe_detach tries patience b nic : ID nic = id →
  safe (detachInterface tries patience nic) (place (full b nic)) placed (ending (full b nic) empty).
Proof.
  intros Hid. unfold detachInterface. rewrite Hid. apply safe_bind. eapply safe_mono; [by apply safe_unplug|done|].
  intros [buf|[e|e]] v Hpl Hv; [|finish..].
  apply safe_do. eapply safe_mono; [by apply (safe_await _ (full b nic))|done|]. clear v Hpl Hv. intros [[e|e]|] v _ Hv; [done..|].
  cbn [ending] in Hv. subst v.
  apply (safe_execute _ _ _ _ (mkSlot None None false (is_bridge nic))); [done|done| | | |by intros ? ? ?].
  - cbn [effect]. by rewrite (place_netdev _ _ _ _ _ _ None).
  - intros desc. finish.
  - apply safe_bind, safe_stop; [done| |].
    + apply safe_ret; [done|]. cbn. by destruct (is_bridge nic).
    + intros e v Hv. finish.
Qed.
End steps.

(** ** The change as a transaction *)

(** What the place of an adapter holds; nothing waits for the guest. *)
Definition has (id : string) (o : option InterfaceSpec) (v : vm) : Prop :=
  unplugging v = ∅ ∧
  match o with
  | Some nic => ∃ b, networkBackend nic = inl b ∧ netdevs v !! id = Some b ∧ nics v !! id = Some (networkDevice nic) ∧ (id ∈ helpers v ↔ is_bridge nic = true)
  | None => netdevs v !! id = None ∧ nics v !! id = None ∧ id ∉ helpers v
  end.

(** All the rest of a machine. *)
Definition rest (id : string) (v : vm) := (delete id (netdevs v), delete id (nics v), helpers v ∖ {[id]}).

Definition slot_of (o : option InterfaceSpec) : slot :=
  match o with Some nic => match networkBackend nic with inl b => full b nic | inr _ => empty end | None => empty end.

Section change_proofs.
Context (id : string) (base : vm).

Lemma place_of o v : has id o v → rest id v = rest id base → v = place id base (journal v) (saved v) (replaced v) (slot_of o).
Proof.
  intros [Hu Ho] [= Hn Hi Hh]. destruct v as [n i u h jo s r]. cbn in *. subst u. unfold place.
  assert (∀ (m m' : gmap string json) x, delete id m = delete id m' → m !! id = x → m = partial_alter (λ _, x) id m') as Hm.
  { intros m m' x Hd Hx. apply map_eq. intros k. destruct (decide (k = id)) as [->|Hk]; [by rewrite lookup_partial_alter_eq|].
    rewrite lookup_partial_alter_ne by done. apply (f_equal (.!! k)) in Hd. by rewrite !lookup_delete_ne in Hd by done. }
  unfold slot_of. destruct o as [nic|].
  - destruct Ho as (b & -> & Hnd & Hnc & Hhp). cbn. f_equal; [by apply Hm..|]. destruct (is_bridge nic).
    + destruct Hhp as [_ Hhp]. specialize (Hhp eq_refl). apply set_eq. intros x. destruct (decide (x = id)) as [->|]; [set_solver|]. assert (x ∈ h ∖ {[id]} ↔ x ∈ helpers base ∖ {[id]}) by by rewrite Hh. set_solver.
    + rewrite <- Hh. assert (id ∉ h) by (intros H%Hhp; done). set_solver.
  - destruct Ho as (Hnd & Hnc & Hhp). cbn. f_equal; [by apply Hm..|]. rewrite <- Hh. set_solver.
Qed.

Lemma place_has o j s r : (∀ nic, o = Some nic → ∃ b, networkBackend nic = inl b) → has id o (place id base j s r (slot_of o)).
Proof.
  intros Ho. unfold has, slot_of. destruct o as [nic|].
  - destruct (Ho nic eq_refl) as [b Hb]. rewrite Hb. cbn. split; [done|]. exists b. rewrite !lookup_partial_alter_eq. split_and!; try done.
    destruct (is_bridge nic); [set_solver|]. split; [set_solver|done].
  - cbn. rewrite !lookup_partial_alter_eq. split_and!; try done. set_solver.
Qed.

Lemma place_rest j s r σ : rest id (place id base j s r σ) = rest id base.
Proof.
  unfold rest, place. cbn. rewrite !delete_partial_alter_eq. f_equal. destruct (hp σ); set_solver.
Qed.
Context (tries patience : nat) (before after : option InterfaceSpec).
Context (Hb : ∀ nic, before = Some nic → ID nic = id ∧ ∃ b, networkBackend nic = inl b).
Context (Ha : ∀ nic, after = Some nic → ID nic = id ∧ ∃ b, networkBackend nic = inl b).
Notation place := (place id base).
Notation change := (Some (before, after)).

(** What holds all along: the journal is there, or the change has been made or not been made. *)
Inductive orderly (v : vm) : Prop :=
  | Journaled s r σ : v = place change s r σ → orderly v
  | Undone s : v = place None s s (slot_of before) → orderly v
  | Made : v = place None true false (slot_of after) → orderly v.

Definition concluded (e : option err) (v : vm) : Prop :=
  match e with
  | None => v = place None true false (slot_of after)
  | Some (Failed _) => ∃ s, v = place None s s (slot_of before)
  | Some (Uncertain _) => ∃ s r σ, v = place change s r σ
  end.

Lemma placed_orderly s r v : placed id base change s r v → orderly v.
Proof. intros [σ ->]. by eapply Journaled. Qed.

Lemma safe_attach_opt o s r : (∀ nic, o = Some nic → ID nic = id ∧ ∃ b, networkBackend nic = inl b) →
  safe documented (attach_opt o) (place change s r empty) (placed id base change s r) (ending id base change s r empty (slot_of o)).
Proof.
  intros Ho. destruct o as [nic|]; cbn [attach_opt slot_of].
  - destruct (Ho nic eq_refl) as (Hid & b & E). rewrite E. by apply safe_attach.
  - apply safe_ret; [by eexists|done].
Qed.

Lemma safe_detach_opt o s r : (∀ nic, o = Some nic → ID nic = id ∧ ∃ b, networkBackend nic = inl b) →
  safe documented (detach_opt tries patience o) (place change s r (slot_of o)) (placed id base change s r) (ending id base change s r (slot_of o) empty).
Proof.
  intros Ho. destruct o as [nic|]; cbn [detach_opt slot_of].
  - destruct (Ho nic eq_refl) as (Hid & b & E). rewrite E. by apply safe_detach.
  - apply safe_ret; [by eexists|done].
Qed.

Lemma safe_clear e s r σ : concluded e (place None s r σ) → (∀ e', e ≠ Some (Uncertain e')) →
  safe documented (clear e) (place change s r σ) orderly concluded.
Proof.
  intros Hc He. assert (orderly (place change s r σ)) as Ho by by eapply Journaled.
  assert (orderly (place None s r σ)) as Ho'.
  { destruct e as [[e|e]|]; [destruct Hc as [s' ->]; by eapply Undone|by destruct (He e)|by apply Made]. }
  assert (safe documented (prog_bind (λ c, match c with
           | Some c => Ret (Some (Uncertain (match e with Some e => text e | None => "<nil>" end ++ "; clear journal: " ++ c)))
           | None => Ret e end) (ask RemoveJournal)) (place change s r σ) orderly concluded) as H.
  { apply safe_bind. command as x v' Hd; [done|]. destruct x as [c|]; rewrite Hd.
    - split; [done|]. apply safe_ret; [done|]. by eexists _, _, _.
    - change (with_journal None (place change s r σ)) with (place None s r σ). split; [done|]. by apply safe_ret. }
  destruct e as [[e|e]|]; [exact H|by destruct (He e)|exact H].
Qed.

Lemma safe_rollback cause s : (∀ e, cause ≠ Uncertain e) →
  safe documented (rollback before cause) (place change s s empty) orderly concluded.
Proof using Hb.
  intros Hc. unfold rollback. apply safe_bind. eapply safe_mono; [by apply safe_attach_opt|apply placed_orderly|].
  intros e v Hp He. destruct e as [e|].
  - apply safe_ret; [by eapply placed_orderly|]. destruct Hp as [σ ->]. by eexists _, _, _.
  - cbn [ending] in He. subst v. apply safe_clear.
    + destruct cause as [e|e]; [by eexists|by destruct (Hc e)].
    + intros e' [= ->]. by destruct (Hc e').
Qed.

Lemma safe_apply_change : safe documented (apply_change tries patience before after) (place change false false (slot_of before)) orderly concluded.
Proof using Ha Hb.
  unfold apply_change. apply safe_bind. eapply safe_mono; [by apply safe_detach_opt|apply placed_orderly|].
  intros [[e|e]|] v Hp He; cbn [ending] in He.
  { subst v. apply safe_clear; [by eexists|done]. }
  { apply safe_ret; [by eapply placed_orderly|]. destruct Hp as [σ ->]. by eexists _, _, _. }
  subst v. clear Hp. apply safe_bind. eapply safe_mono; [by apply safe_attach_opt|apply placed_orderly|].
  intros [[e|e]|] v Hp He; cbn [ending] in He.
  { subst v. by apply safe_rollback. }
  { apply safe_ret; [by eapply placed_orderly|]. destruct Hp as [σ ->]. by eexists _, _, _. }
  subst v. apply safe_bind. command as x v' Hd; [by eapply placed_orderly|]. destruct x as [e|].
  - assert (∃ s, v' = place change s s (slot_of after)) as [s ->] by (destruct Hd as [->| ->]; by eexists).
    split; [by eapply Journaled|]. apply safe_bind. eapply safe_mono; [by apply safe_detach_opt|apply placed_orderly|].
    intros [c|] v Hp' He.
    + apply safe_ret; [by eapply placed_orderly|]. destruct Hp' as [σ ->]. by eexists _, _, _.
    + cbn [ending] in He. subst v. by apply safe_rollback.
  - cbn in Hd. change (with_saved false (place change false false (slot_of after))) with (place change true false (slot_of after)) in Hd.
    rewrite Hd. split; [by eapply Journaled|]. by apply safe_clear.
Qed.
End change_proofs.

Section transaction.
Context (MAC : string → string) (runDir vmID : string) (tries patience : nat).
Notation prepare := (prepare MAC runDir vmID).
Notation ChangeInterface := (ChangeInterface MAC runDir vmID tries patience).

(** A machine without a change under way, with that adapter. *)
Definition settled (id : string) (o : option InterfaceSpec) (v : vm) : Prop := journal v = None ∧ has id o v.

(** The change has been made, or it has not: but for a save that failed though it replaced the manifest. *)
Definition made (id : string) (after : option InterfaceSpec) (v : vm) : Prop := settled id after v ∧ saved v = true ∧ replaced v = false.
Definition undone (id : string) (before : option InterfaceSpec) (v : vm) : Prop := settled id before v ∧ saved v = replaced v.

Lemma prepare_id o nic : prepare <$> o = Some nic → ∃ n, o = Some n ∧ ID nic = ID n.
Proof. destruct o as [n|]; [|done]. intros [= <-]. by exists n. Qed.

Lemma safe_ChangeInterface id before after v0 :
  (∀ nic, before = Some nic ∨ after = Some nic → ID nic = id) → settled id (prepare <$> before) v0 → saved v0 = false → replaced v0 = false →
  safe documented (ChangeInterface before after) v0
    (λ v, rest id v = rest id v0 ∧ (is_Some (journal v) ∨ made id (prepare <$> after) v ∨ undone id (prepare <$> before) v))
    (λ e v, match e with
            | None => made id (prepare <$> after) v
            | Some (Failed _) => undone id (prepare <$> before) v
            | Some (Uncertain _) => is_Some (journal v)
            end).
Proof.
  intros Hid [Hj Hhas] Hs Hr. set (b := prepare <$> before) in *. set (a := prepare <$> after) in *.
  set (I := λ v : vm, rest id v = _ ∧ _). assert (undone id b v0) as Hu by (split; [done|congruence]).
  assert (I v0) as H0 by (split; [done|]; by right; right).
  assert (∀ nic, b = Some nic → ID nic = id ∧ ∃ j, networkBackend nic = inl j) as Hb.
  { intros nic E. split; [|rewrite E in Hhas; destruct Hhas as (_ & j & H & _); eauto].
    destruct (prepare_id _ _ E) as (n & En & ->). apply Hid. by left. }
  assert ((∀ nic, a = Some nic → ∃ j, networkBackend nic = inl j) →
    safe documented (prog_bind (λ e, match e with Some e => Ret (Some (Failed e)) | None => apply_change tries patience b a end) (ask (WriteJournal b a)))
      v0 I (λ e v, match e with None => made id a v | Some (Failed _) => undone id b v | Some (Uncertain _) => is_Some (journal v) end)) as Hmain.
  { intros Ha'. assert (∀ nic, a = Some nic → ID nic = id ∧ ∃ j, networkBackend nic = inl j) as Ha.
    { intros nic E. split; [|by apply Ha']. destruct (prepare_id _ _ E) as (n & En & ->). apply Hid. by right. }
    apply safe_bind. command as x v' Hd; [done|]. destruct x as [e|]; [by subst v'|].
    pose proof (place_of id v0 b v0 Hhas eq_refl) as E0. rewrite Hj, Hs, Hr in E0.
    assert (v' = place id v0 (Some (b, a)) false false (slot_of b)) as -> by (rewrite Hd; rewrite E0 at 1; done).
    split; [split; [apply place_rest|left; by eexists]|].
    assert (∀ s, undone id b (place id v0 None s s (slot_of b))) as Hun.
    { intros s. split; [|done]. split; [done|]. apply place_has. intros nic E. by apply Hb. }
    assert (made id a (place id v0 None true false (slot_of a))) as Hma.
    { split; [|done]. split; [done|]. apply place_has. intros nic E. by apply Ha. }
    eapply safe_mono; [by apply safe_apply_change| |].
    - intros v [s r σ ->|s ->| ->]; (split; [apply place_rest|]); [left; by eexists|by right; right|by right; left].
    - intros [[e|e]|] v _ Hc; cbn in Hc; [destruct Hc as [s ->]; apply Hun|destruct Hc as (s & r & σ & ->); by eexists|by subst]. }
  unfold ChangeInterface. apply safe_bind. command as x v' Hd; [done|]. destruct Hd as [-> Hx]. split; [done|].
  destruct x as [[]|e]; [|clear Hx|by apply safe_ret].
  { rewrite Hj in Hx. by rewrite bool_decide_false in Hx by (by intros []). }
  destruct (negb _); [by apply safe_ret|]. apply safe_bind. command as x v' Hd; [done|]. subst v'. split; [done|].
  destruct x as [e|]; [by apply safe_ret|]. cbv zeta. fold b a. destruct a as [nic|] eqn:Ea; cbn [fmap option_fmap option_map].
  - destruct (networkBackend nic) as [j|e] eqn:E; [|by apply safe_ret]. apply Hmain. intros n [= <-]. eauto.
  - by apply Hmain.
Qed.
End transaction.

(** While a change is under way nothing else is changed. *)
Lemma pending_refused {M} `{!Machine cmd vm documented M} MAC runDir vmID tries patience before after (m : M) : is_Some (journal (view m)) →
  let e := (exec (ChangeInterface MAC runDir vmID tries patience before after) m).1 in
  is_Some e ∧ view (exec (ChangeInterface MAC runDir vmID tries patience before after) m).2 = view m.
Proof.
  intros Hj. eapply (safe_exec _ m (λ _, True) (λ e v, is_Some e ∧ v = view m)).
  unfold ChangeInterface. apply safe_bind. command as x v' Hd; [done|]. destruct Hd as [-> Hx]. split; [done|].
  destruct x as [[]|e]; [by apply safe_ret| |by apply safe_ret]. symmetry in Hx. by apply bool_decide_eq_false in Hx.
Qed.

(** C9. A change of an adapter is a transaction. Whatever QEMU, the guest, the helpers and the files answer: when the
    change is reported made, the adapter is in QEMU and the manifest saved; when it fails with an ordinary error, the
    adapter that was there is there again and the manifest is the old one, unless the save itself replaced it and
    failed; and when its outcome is unknown, the journal remains, which stops any further change. So it is after
    every command, wherever the process is killed; and no other adapter is touched. *)
Theorem change_atomic {M} `{!Machine cmd vm documented M} MAC runDir vmID tries patience before after id (m : M) :
  let a := prepare MAC runDir vmID <$> after in let b := prepare MAC runDir vmID <$> before in
  (∀ nic, before = Some nic ∨ after = Some nic → ID nic = id) → settled id b (view m) → saved (view m) = false → replaced (view m) = false →
  let change := ChangeInterface MAC runDir vmID tries patience before after in
  (∀ n, let v := view (killed n change m) in rest id v = rest id (view m) ∧ (is_Some (journal v) ∨ made id a v ∨ undone id b v)) ∧
  let v := view (exec change m).2 in rest id v = rest id (view m) ∧
    match (exec change m).1 with
    | None => made id a v
    | Some (Failed _) => undone id b v
    | Some (Uncertain _) => is_Some (journal v)
    end.
Proof.
  intros a b Hid Hset Hs Hr change. pose proof (safe_ChangeInterface MAC runDir vmID tries patience id before after (view m) Hid Hset Hs Hr) as H.
  fold change in H. split.
  - intros n. exact (safe_killed n _ _ _ _ H).
  - destruct (safe_exec _ _ _ _ H) as [[H1 _] H2]. by split.
Qed.

(** ** A machine whose guest lets go at once *)

Lemma released_refl v : released v v.
Proof.
  exists ∅. split; [set_solver|]. unfold with_nics. destruct v. cbn. f_equal. symmetry. apply map_filter_id. intros i x _. cbn. set_solver.
Qed.

Definition accepts (q : qmp) (v : vm) : bool :=
  match q with
  | NetdevAdd id _ => bool_decide (netdevs v !! id = None)
  | NetdevDel id => bool_decide (is_Some (netdevs v !! id))
  | DeviceAdd id _ => bool_decide (nics v !! id = None)
  | DeviceDel id => bool_decide (is_Some (nics v !! id))
  end.
Lemma accepts_accepted q v : accepts q v = true → accepted q v.
Proof. destruct q; cbn; apply bool_decide_eq_true. Qed.

Section guest.
Context (rejects : qmp → bool).

Definition guest_perform B (c : cmd B) (v : vm) : B * vm :=
  match c in cmd B return B * vm with
  | StatJournal => (inl (bool_decide (is_Some (journal v))), v)
  | Dial | Mkdir _ => (None, v)
  | WriteJournal b a => (None, with_journal (Some (b, a)) v)
  | RemoveJournal => (None, with_journal None v)
  | StartHelper id _ => (None, with_helpers (λ X, {[id]} ∪ X) v)
  | StopHelper id => (None, with_helpers (λ X, X ∖ {[id]}) v)
  | Exec q =>
      if rejects q || negb (accepts q v) then ((Rejected "GenericError" "slot unavailable", []), v) else
      match q with
      | DeviceDel id => let e := mkEvent "DEVICE_DELETED" (Some id) in ((Done, [e]), after_event e (effect q v))
      | _ => ((Done, []), effect q v)
      end
  | NextEvent => (inr "i/o timeout", v)
  | Commit => (None, with_saved (replaced v) v)
  end.

#[export, program] Instance guest : Machine cmd vm documented vm := { perform := guest_perform; view := id }.
Next Obligation.
  intros B c v. destruct c; cbn; try done.
  - destruct (rejects q || negb (accepts q v)) eqn:E; cbn; [apply released_refl|].
    apply orb_false_iff in E as [_ E%negb_false_iff%accepts_accepted].
    assert (∀ e, ev_name e = "DEVICE_DELETED" → (∃ d, ev_device e = Some d ∧ q = DeviceDel d) → carried_out q [e] v (after_event e (effect q v))) as Hdel.
    { intros e En (d & Ed & ->). exists [], [e], v. split_and!; [done|apply released_refl|done|]. exists (effect (DeviceDel d) v).
      split_and!; [apply released_refl| |apply released_refl]. unfold event_ok. rewrite Ed. split; intros E'; [cbn; set_solver|congruence]. }
    assert ((∀ d, q ≠ DeviceDel d) → carried_out q [] v (effect q v)) as Hother.
    { intros _. exists [], [], v. split_and!; [done|apply released_refl|done|apply released_refl]. }
    destruct q; cbn [fst snd]; [by apply Hother..|]. apply Hdel; [done|by eexists].
  - exists []. apply released_refl.
Qed.
End guest.

Definition user_nic : InterfaceSpec := mkInterfaceSpec "user" "net1" "02:00:00:00:00:07" NetworkUser "" "" "" "".
Definition bridge_nic : InterfaceSpec := mkInterfaceSpec "lab" "net1" "02:00:00:00:00:07" NetworkBridge "" "bridge100" "" "".
Definition user_backend : json := JObj [("id", JStr "net1"); ("type", JStr "user")].
Definition sample_vm : vm := mkVm {["net1" := user_backend]} {["net1" := networkDevice user_nic]} ∅ ∅ None false false.

(** QEMU refuses the new adapter: the old one comes back. *)
Definition no_bridge (q : qmp) : bool :=
  match q with DeviceAdd _ (JObj fields) => bool_decide (length fields = 13) | _ => false end.

Lemma change_atomic_witness :
  let change := ChangeInterface (λ _, "") "/tmp/maco" "web" 50 100 (Some user_nic) (Some bridge_nic) in
  let out := exec (Machine0 := guest no_bridge) change sample_vm in
  text <$> out.1 = Some "attach NIC (older VMs need a stop/start to reserve PCIe slots): qmp GenericError: slot unavailable" ∧
  undone "net1" (Some user_nic) out.2.
Proof.
  intros change out.
  assert (out.1 = Some (Failed "attach NIC (older VMs need a stop/start to reserve PCIe slots): qmp GenericError: slot unavailable")) as E by (vm_compute; reflexivity).
  split; [by rewrite E|].
  assert (settled "net1" (prepare (λ _, "") "/tmp/maco" "web" <$> Some user_nic) (view (Machine := guest no_bridge) sample_vm)) as Hset.
  { split; [done|]. split; [done|]. exists user_backend. split_and!; try (vm_compute; reflexivity). split; [set_solver|done]. }
  pose proof (change_atomic (Machine0 := guest no_bridge) (λ _, "") "/tmp/maco" "web" 50 100 (Some user_nic) (Some bridge_nic) "net1" sample_vm
    ltac:(by intros nic [[= <-]|[= <-]]) Hset eq_refl eq_refl) as [_ [_ H]].
  fold change in H. change (exec change sample_vm) with out in H. rewrite E in H. exact H.
Defined.
