(* ===== verification/HostNetwork.v ===== *)
(** * The networks of the host

    [src/pkg/network/reconcile.go], [vlan.go], the saving of [store.go] and what they use of
    [src/pkg/hostnet/hostnet.go]: how the bridges and VLANs that manifests describe are made on the host. The
    interfaces of the host are known by what [ifconfig] documents: a command that reports success did what it
    says, one that fails did nothing or, if it was cut short, all of it. *)

From stdpp Require Import sorting.
From S2P Require Import Prelude Programs JsString Regex Types ServerNetworks CreateNetwork Storage.
Local Open Scope string_scope.

(** ** Manifests ([src/pkg/types/network.go]) *)

Record vlan := mkVlan { v_borrowed : bool; v_parent : string; v_tag : Z; v_device : string }.
#[export] Instance vlan_eq_dec : EqDecision vlan.
Proof. solve_decision. Defined.

Record NetworkManifest := mkManifest {
  ID : string; Name : string; Mode : NetworkMode; Uplink : string; Parent : string; Tag : Z; Group : string; Address : string;
  Device : string; Members : list string; VLANs : list vlan; Owned : bool;
  AppliedVLANs : list vlan; AppliedAddress : string; AppliedMembers : list string
}.

Definition with_device (d : string) (o : bool) (n : NetworkManifest) : NetworkManifest :=
  mkManifest (ID n) (Name n) (Mode n) (Uplink n) (Parent n) (Tag n) (Group n) (Address n) d (Members n) (VLANs n) o
    (AppliedVLANs n) (AppliedAddress n) (AppliedMembers n).
Definition with_vlans (l : list vlan) (n : NetworkManifest) : NetworkManifest :=
  mkManifest (ID n) (Name n) (Mode n) (Uplink n) (Parent n) (Tag n) (Group n) (Address n) (Device n) (Members n) l (Owned n)
    (AppliedVLANs n) (AppliedAddress n) (AppliedMembers n).
Definition with_applied_vlans (l : list vlan) (n : NetworkManifest) : NetworkManifest :=
  mkManifest (ID n) (Name n) (Mode n) (Uplink n) (Parent n) (Tag n) (Group n) (Address n) (Device n) (Members n) (VLANs n) (Owned n)
    l (AppliedAddress n) (AppliedMembers n).
Definition with_applied_address (a : string) (n : NetworkManifest) : NetworkManifest :=
  mkManifest (ID n) (Name n) (Mode n) (Uplink n) (Parent n) (Tag n) (Group n) (Address n) (Device n) (Members n) (VLANs n) (Owned n)
    (AppliedVLANs n) a (AppliedMembers n).
Definition with_applied_members (l : list string) (n : NetworkManifest) : NetworkManifest :=
  mkManifest (ID n) (Name n) (Mode n) (Uplink n) (Parent n) (Tag n) (Group n) (Address n) (Device n) (Members n) (VLANs n) (Owned n)
    (AppliedVLANs n) (AppliedAddress n) l.

(** The form that [Store.check] and the API see, with the empty fields left out. *)
Definition omitempty (s : string) : option string := if truthy s then Some s else None.
Definition omit_list {A} (l : list A) : option (list A) := match l with [] => None | _ => Some l end.
Definition api_vlan (v : vlan) : VLAN :=
  mkVLAN (if v_borrowed v then Some true else None) (omitempty (v_device v)) (v_parent v) (v_tag v).
Definition api (n : NetworkManifest) : Network :=
  mkNetwork (omitempty (Address n)) (omitempty (AppliedAddress n)) (omit_list (AppliedMembers n)) (omit_list (api_vlan <$> AppliedVLANs n))
    (omitempty (Device n)) (omitempty (Group n)) (ID n) (omit_list (Members n)) (Mode n) (Name n) (if Owned n then Some true else None)
    (omitempty (Parent n)) (if (Tag n =? 0)%Z then None else Some (Tag n)) (omitempty (Uplink n)) (omit_list (api_vlan <$> VLANs n)).

(** ** The host *)

Inductive kind := Bridge (ports : list string) | Vlan (conf : option (string * Z)) | Port.
#[export] Instance kind_eq_dec : EqDecision kind.
Proof. solve_decision. Defined.

(** An interface, with its addresses as [ip] and netmask. *)
Record iface := mkIface { ikind : kind; up : bool; addrs : list (string * string) }.
#[export] Instance iface_eq_dec : EqDecision iface.
Proof. solve_decision. Defined.

(** [refusing] are the interfaces whose destruction was reported to have failed. *)
Record host := mkHost { ifaces : gmap string iface; manifests : gmap string NetworkManifest; refusing : gset string }.

Definition with_ifaces (f : gmap string iface → gmap string iface) (v : host) : host := mkHost (f (ifaces v)) (manifests v) (refusing v).
Definition with_manifest (n : NetworkManifest) (v : host) : host := mkHost (ifaces v) (<[ID n := n]> (manifests v)) (refusing v).
Definition without_manifest (id : string) (v : host) : host := mkHost (ifaces v) (delete id (manifests v)) (refusing v).

(** What [ifconfig] prints of an interface, as the patterns of the source find it. *)
Record shown := mkShown { configuration : bool; members : list string; tagged : option (string * Z) }.
Definition show (f : iface) : shown :=
  match ikind f with
  | Bridge ports => mkShown true ports None
  | Vlan conf => mkShown false [] conf
  | Port => mkShown false [] None
  end.

(** The kinds of interfaces that [ifconfig] makes. *)
Definition new_iface (kind : string) : iface :=
  mkIface (if String.eqb kind "bridge" then Bridge [] else if String.eqb kind "vlan" then Vlan None else Port) false [].

Definition without_port (m : string) (f : iface) : iface :=
  match ikind f with Bridge ports => mkIface (Bridge (filter (.≠ m) ports)) (up f) (addrs f) | _ => f end.
Definition with_port (m : string) (f : iface) : iface :=
  match ikind f with Bridge ports => mkIface (Bridge (ports ++ [m])) (up f) (addrs f) | _ => f end.
Definition with_conf (c : string * Z) (f : iface) : iface :=
  match ikind f with Vlan _ => mkIface (Vlan (Some c)) (up f) (addrs f) | _ => f end.
Definition with_addr (a : string * string) (f : iface) : iface := mkIface (ikind f) (up f) (filter (λ b, b.1 ≠ a.1) (addrs f) ++ [a]).
Definition without_addr (ip : string) (f : iface) : iface := mkIface (ikind f) (up f) (filter (λ b, b.1 ≠ ip) (addrs f)).
Definition brought_up (f : iface) : iface := mkIface (ikind f) true (addrs f).

Definition is_port_of (m : string) (f : iface) : Prop := match ikind f with Bridge ports => m ∈ ports | _ => False end.
Definition in_bridge (v : host) (m : string) : Prop := ∃ b f, ifaces v !! b = Some f ∧ is_port_of m f.

(** ** Commands *)

(** The changes [ifconfig] makes; each is accepted in some states only. *)
Inductive change :=
  | Destroyed (device : string)
  | Alias (device ip netmask : string)
  | Unalias (device ip : string)
  | UpFlag (device : string)
  | Addm (bridge member : string)
  | Deletem (bridge member : string)
  | Tagging (device : string) (tag : Z) (parent : string).
#[export] Instance change_eq_dec : EqDecision change.
Proof. solve_decision. Defined.

Definition effect (c : change) (v : host) : host :=
  match c with
  | Destroyed d => with_ifaces (λ m, without_port d <$> delete d m) v
  | Alias d ip mask => with_ifaces (alter (with_addr (ip, mask)) d) v
  | Unalias d ip => with_ifaces (alter (without_addr ip) d) v
  | UpFlag d => with_ifaces (alter brought_up d) v
  | Addm b m => with_ifaces (alter (with_port m) b) v
  | Deletem b m => with_ifaces (alter (without_port m) b) v
  | Tagging d tag parent => with_ifaces (alter (with_conf (parent, tag)) d) v
  end.

Definition failed (c : change) (v : host) : host :=
  match c with Destroyed d => mkHost (ifaces v) (manifests v) ({[d]} ∪ refusing v) | _ => v end.

(** What holds of the host when such a command has succeeded. *)
Definition accepted (c : change) (v : host) : Prop :=
  match c with
  | Destroyed d | Alias d _ _ | Unalias d _ | UpFlag d => is_Some (ifaces v !! d)
  | Addm b m => is_Some (ifaces v !! b) ∧ is_Some (ifaces v !! m) ∧ ¬ in_bridge v m
  | Deletem b m => ∃ f, ifaces v !! b = Some f ∧ is_port_of m f
  | Tagging d tag parent => (∃ f, ifaces v !! d = Some f ∧ ikind f = Vlan None) ∧
      ∀ e f, ifaces v !! e = Some f → ikind f ≠ Vlan (Some (parent, tag))
  end.

Inductive cmd : Type → Type :=
  | InterfaceByName (name : string) : cmd bool
  | Addrs (name : string) : cmd (option (list (string * string)))
  | Interfaces : cmd (list string + string)
  | Inspect (device : string) : cmd (shown + string)
  | Create (kind : string) : cmd (string + string)
  | Ifconfig (c : change) : cmd (option string)
  | LockStore : cmd (option string)
  | CloseLock : cmd (option string)
  | ReadManifest (id : string) : cmd (NetworkManifest + string)
  | WriteManifest (n : NetworkManifest) : cmd (option string)
  | ListManifests : cmd (list string + string)
  | RemoveManifest (id : string) : cmd (option string).

(** The names the host gives to what it makes. *)
Definition named (kind name : string) : Prop := numbered kind name = true ∧ test interface_re name = true.

Definition documented B (c : cmd B) : B → host → host → Prop :=
  match c in cmd B return B → host → host → Prop with
  | InterfaceByName name => λ r v v', v' = v ∧ (r = true → is_Some (ifaces v !! name))
  | Addrs name => λ r v v', v' = v ∧ ∀ l, r = Some l → ∃ f, ifaces v !! name = Some f ∧ addrs f = l
  | Interfaces => λ r v v', v' = v ∧ ∀ l, r = inl l → l ≡ₚ (map_to_list (ifaces v)).*1
  | Inspect d => λ r v v', v' = v ∧ ∀ s, r = inl s → ∃ f, ifaces v !! d = Some f ∧ s = show f
  | Create kind => λ r v v',
      let created name := named kind name ∧ ifaces v !! name = None ∧ v' = with_ifaces (<[name := new_iface kind]>) v in
      match r with inl name => created name | inr _ => v' = v ∨ ∃ name, created name end
  | Ifconfig c => λ r v v',
      match r with None => accepted c v ∧ v' = effect c v | Some _ => v' = failed c v ∨ (accepted c v ∧ v' = effect c (failed c v)) end
  | LockStore | CloseLock => λ _ v v', v' = v
  | ReadManifest id => λ r v v', v' = v ∧ ∀ n, r = inl n → manifests v !! id = Some n
  | WriteManifest n => λ r v v', match r with None => v' = with_manifest n v | Some _ => v' = v ∨ v' = with_manifest n v end
  | ListManifests => λ r v v', v' = v ∧ ∀ l, r = inl l → l ≡ₚ (map_to_list (manifests v)).*1
  | RemoveManifest id => λ r v v',
      let removed := without_manifest id v in
      match r with None => v' = removed | Some _ => v' = v ∨ v' = removed end
  end.

(** ** hostnet.go *)

Notation prog := (Programs.prog cmd).

Section source.
(** [net.ParseCIDR]: the address, and the netmask when it has four bytes; and how [net.Addr] shows an address. *)
Context (ParseCIDR : string → option (string * option string)) (addr_text : string → string → string).
(** The checks of the validation library, and of addresses. *)
Context (uuid hostname_rfc1123 ParseCIDR4 : string → bool).

Definition Exists (name : string) : prog bool := ask (InterfaceByName name).
Definition inspect (device : string) : prog (shown + string) := ask (Inspect device).
Definition Destroy_device (device : string) : prog (option string) := ask (Ifconfig (Destroyed device)).
Definition Up (device : string) : prog (option string) := ask (Ifconfig (UpFlag device)).
Definition AddMember (bridge member : string) : prog (option string) := ask (Ifconfig (Addm bridge member)).
Definition RemoveMember (bridge member : string) : prog (option string) := ask (Ifconfig (Deletem bridge member)).

Definition create (kind : string) : prog (string + string) :=
  name ⇐ ask (Create kind);
  if String.eqb name "" then Ret (inr ("ifconfig " ++ kind ++ " create returned no device")) else Ret (inl name).

Definition SetAddress (device cidr : string) : prog (option string) :=
  match ParseCIDR cidr with
  | None => Ret (Some ("parse address " ++ cidr))
  | Some (_, None) => Ret (Some ("address " ++ cidr ++ ": only IPv4 is supported"))
  | Some (ip, Some mask) =>
      prog_bind (λ e, Ret (match e with
        | Some e => if includes "File exists" e then None else Some e
        | None => None
        end)) (ask (Ifconfig (Alias device ip mask)))
  end.

Definition HasAddress (device address : string) : prog bool :=
  prog_bind (λ l, Ret (match l with
    | Some l => existsb (λ a : string * string, String.eqb (addr_text a.1 a.2) address) l
    | None => false
    end)) (ask (Addrs device)).

Definition RemoveAddress (device address : string) : prog (option string) :=
  has ← HasAddress device address;
  if negb has then Ret None
  else match ParseCIDR address with
       | None => Ret (Some "invalid CIDR address")
       | Some (ip, _) => ask (Ifconfig (Unalias device ip))
       end.

Definition IsBridge (device : string) : prog bool :=
  prog_bind (λ r : shown + string, Ret (match r with inl s => configuration s && starts_with "bridge" device | inr _ => false end)) (inspect device).

Definition Members_of (device : string) : prog (list string + string) :=
  s ⇐ inspect device; Ret (inl (members s)).

Definition matches (s : shown) (parent : string) (tag : Z) : bool := bool_decide (tagged s = Some (parent, tag)).

Definition ConfigureVLAN (device parent : string) (tag : Z) : prog (option string) :=
  prog_bind (λ r : shown + string, match r with
    | inr e => Ret (Some e)
    | inl s =>
        match tagged s with
        | Some _ => if matches s parent tag then Ret None
                    else Ret (Some ("VLAN " ++ device ++ " already has different configuration; recreate it to change its parent or tag"))
        | None => ask (Ifconfig (Tagging device tag parent))
        end
    end) (inspect device).

Fixpoint first_match (names : list string) (parent : string) (tag : Z) : prog (string + string) :=
  match names with
  | [] => Ret (inl "")
  | name :: names => s ⇐ inspect name; if matches s parent tag then Ret (inl name) else first_match names parent tag
  end.
Definition not_after (a b : string) : Prop := String.leb a b = true.
#[export] Instance not_after_dec a b : Decision (not_after a b).
Proof. unfold not_after. apply _. Defined.
Definition sorted_names (names : list string) : list string := merge_sort not_after (List.filter (starts_with "vlan") names).
Definition FindVLAN (parent : string) (tag : Z) : prog (string + string) :=
  names ⇐ ask Interfaces; first_match (sorted_names names) parent tag.

(** ** vlan.go *)

Definition resolveVLAN (device : string) (owned : bool) (parent : string) (tag : Z) : prog (string * bool + string) :=
  here ← (if negb (truthy device) then Ret false else Exists device);
  if here : bool then
    prog_bind (λ e, match e with
      | None => Ret (inl (device, owned))
      | Some err =>
          matching ⇐ FindVLAN parent tag;
          if truthy matching && negb (String.eqb matching device) then Ret (inl (matching, false)) else Ret (inr err)
      end) (ConfigureVLAN device parent tag)
  else
    matching ⇐ FindVLAN parent tag;
    if truthy matching then Ret (inl (matching, false)) else
    device ⇐ create "vlan";
    prog_bind (λ e, match e with
      | None => Ret (inl (device, true))
      | Some err =>
          _ ← Destroy_device device;
          matching ⇐ FindVLAN parent tag;
          if truthy matching then Ret (inl (matching, false)) else Ret (inr err)
      end) (ConfigureVLAN device parent tag).

(** ** store.go *)

Definition valid (n : NetworkManifest) : bool := uuid (ID n) && check ParseCIDR4 hostname_rfc1123 (api n).

Definition Save (n : NetworkManifest) : prog (option string) :=
  match ValidateID (ID n) with
  | Some e => Ret (Some e)
  | None => if valid n then ask (WriteManifest n) else Ret (Some "invalid network")
  end.
Definition Load (id : string) : prog (NetworkManifest + string) :=
  match ValidateID id with
  | Some e => Ret (inr e)
  | None =>
      n ⇐ ask (ReadManifest id);
      if negb (valid n) then Ret (inr "invalid network")
      else if negb (String.eqb (ID n) id) then Ret (inr "network ID does not match filename") else Ret (inl n)
  end.

(** [store.List], over the identifiers in the names of the files. *)
Definition List : prog (list NetworkManifest + string) := ids ⇐ ask ListManifests; for_each Load ids.

(** [lock, err := store.Lock(); ...; defer lock.Close()] *)
Definition locked {A} (p : prog (A + string)) : prog (A + string) :=
  try ask LockStore; r ← p; _ ← ask CloseLock; Ret r.
(** ** reconcile.go *)

(** [if err := store.Save(n); err != nil { undo; return err }] *)
Definition save_or {A} (n : NetworkManifest) (undo : prog A) : prog (NetworkManifest + string) :=
  prog_bind (λ e, match e with None => Ret (inl n) | Some e => _ ← undo; Ret (inr e) end) (Save n).

(** A loop that asks for each interface to exist. *)
Fixpoint all_exist (what : string) (l : list string) : prog (option string) :=
  match l with
  | [] => Ret None
  | x :: l => here ← Exists x; if here : bool then all_exist what l else Ret (Some (what ++ " " ++ x ++ " is missing"))
  end.

Definition exists_device (n : NetworkManifest) : prog bool := if truthy (Device n) then Exists (Device n) else Ret false.

Definition ensure_device (n : NetworkManifest) : prog (NetworkManifest + string) :=
  here ← exists_device n;
  bridge ← (if here : bool then IsBridge (Device n) else Ret true);
  if negb bridge then Ret (inr (Device n ++ " is not a native bridge")) else
  here ← exists_device n;
  if here : bool then Ret (inl n)
  else if truthy (Device n) && negb (Owned n) then Ret (inr ("existing bridge " ++ Device n ++ " is missing"))
  else
    device ⇐ create "bridge";
    save_or (with_applied_members [] (with_device device true n)) (Destroy_device device).

Definition same_vlan (a v : vlan) : bool := String.eqb (v_parent a) (v_parent v) && (v_tag a =? v_tag v)%Z.
Definition recall (applied : list vlan) (v : vlan) : vlan :=
  fold_left (λ v a, if same_vlan a v then mkVlan (v_borrowed a) (v_parent v) (v_tag v) (v_device a) else v) applied v.
Definition record_vlan (v : vlan) (applied : list vlan) : list vlan := (List.filter (λ a, negb (same_vlan a v)) applied ++ [v])%list.

Definition apply_vlan (before after : list vlan) (v : vlan) (n : NetworkManifest) : prog (vlan * NetworkManifest + string) :=
  let v := recall (AppliedVLANs n) v in
  here ← Exists (v_parent v);
  if negb here then Ret (inr ("VLAN parent " ++ v_parent v ++ " is missing")) else
  r ⇐ resolveVLAN (v_device v) (negb (v_borrowed v)) (v_parent v) (v_tag v);
  let v' := mkVlan (negb (snd r)) (v_parent v) (v_tag v) (fst r) in
  n ⇐ save_or (with_applied_vlans (record_vlan v' (AppliedVLANs n)) (with_vlans (before ++ v' :: after) n))
        (if snd r && negb (String.eqb (fst r) (v_device v)) then Destroy_device (fst r) else Ret None);
  try Up (v_parent v');
  Ret (inl (v', n)).

Fixpoint apply_vlans (before after : list vlan) (n : NetworkManifest) (desired : list string) : prog (NetworkManifest * list string + string) :=
  match after with
  | [] => Ret (inl (n, desired))
  | v :: after =>
      r ⇐ apply_vlan before after v n;
      apply_vlans (before ++ [fst r]) after (snd r) (desired ++ [v_device (fst r)])
  end.

Fixpoint drop_members (previous desired members : list string) (n : NetworkManifest) : prog (NetworkManifest + string) :=
  match previous with
  | [] => Ret (inl n)
  | p :: previous =>
      if includes_str desired p then drop_members previous desired members n else
      try (if includes_str members p then RemoveMember (Device n) p else Ret None);
      drop_members previous desired members (with_applied_members (List.filter (λ m, negb (String.eqb m p)) (AppliedMembers n)) n)
  end.

Definition add_member (m : string) (members : list string) (n : NetworkManifest) : prog (NetworkManifest + string) :=
  here ← Exists m;
  if negb here then Ret (inr ("bridge member " ++ m ++ " is missing")) else
  n ⇐ (if includes_str members m then Ret (inl n) else
       try AddMember (Device n) m;
       if includes_str (AppliedMembers n) m then Ret (inl n)
       else save_or (with_applied_members (AppliedMembers n ++ [m]) n) (RemoveMember (Device n) m));
  try Up m;
  Ret (inl n).
Definition add_members (desired members : list string) : NetworkManifest → prog (NetworkManifest + string) :=
  fold_checked (λ m, add_member m members) desired.

Definition drop_vlan (desired : list string) (a : vlan) (n : NetworkManifest) : prog (NetworkManifest + string) :=
  if includes_str desired (v_device a) then Ret (inl n) else
  here ← (if v_borrowed a then Ret false else Exists (v_device a));
  try (if here : bool then Destroy_device (v_device a) else Ret None);
  save_or (with_applied_vlans (List.filter (λ w, negb (String.eqb (v_device w) (v_device a))) (AppliedVLANs n)) n) (Ret tt).
Definition drop_vlans (desired : list string) (applied : list vlan) : NetworkManifest → prog (NetworkManifest + string) :=
  fold_checked (drop_vlan desired) applied.

Definition apply_address (n : NetworkManifest) : prog (NetworkManifest + string) :=
  n ⇐ (if truthy (AppliedAddress n) && negb (String.eqb (AppliedAddress n) (Address n))
       then try RemoveAddress (Device n) (AppliedAddress n); Ret (inl (with_applied_address "" n))
       else Ret (inl n));
  has ← (if truthy (Address n) then HasAddress (Device n) (Address n) else Ret true);
  if has : bool then Ret (inl n)
  else try SetAddress (Device n) (Address n); Ret (inl (with_applied_address (Address n) n)).

(** What [Ensure] does once the manifest of a bridge is read. *)
Definition ensure_bridge (n : NetworkManifest) : prog (NetworkManifest + string) :=
  try all_exist "bridge member" (Members n);
  try all_exist "VLAN parent" (v_parent <$> VLANs n);
  n ⇐ ensure_device n;
  r ⇐ apply_vlans [] (VLANs n) n (Members n);
  let desired := snd r in
  members ⇐ Members_of (Device (fst r));
  n ⇐ drop_members (AppliedMembers (fst r)) desired members (fst r);
  n ⇐ add_members desired members n;
  n ⇐ drop_vlans desired (AppliedVLANs n) n;
  n ⇐ apply_address n;
  try Up (Device n);
  save_or n (Ret tt).

Definition ensureVLAN (n : NetworkManifest) (dryRun : bool) : prog (NetworkManifest + string) :=
  locked (
    n ⇐ Load (ID n);
    if negb (bool_decide (Mode n = ModeVlan)) then Ret (inr "network mode changed during apply; retry")
    else if dryRun then Ret (inl n) else
    here ← Exists (Parent n);
    if negb here then Ret (inr ("VLAN parent " ++ Parent n ++ " is missing")) else
    r ⇐ resolveVLAN (Device n) (Owned n) (Parent n) (Tag n);
    let previousDevice := Device n in
    n ⇐ save_or (with_device (fst r) (snd r) n)
          (if snd r && negb (String.eqb (fst r) previousDevice) then Destroy_device (fst r) else Ret None);
    try Up (Parent n);
    try Up (Device n);
    save_or n (Ret tt)).

Definition Ensure (n : NetworkManifest) (dryRun : bool) : prog (NetworkManifest + string) :=
  match Mode n with
  | ModeVlan => ensureVLAN n dryRun
  | ModeBridged | ModeVmnetBridged =>
      here ← Exists (Uplink n);
      Ret (if here : bool then inl n else inr ("physical uplink " ++ Uplink n ++ " is missing"))
  | ModeBridge =>
      locked (
        n ⇐ Load (ID n);
        if negb (bool_decide (Mode n = ModeBridge)) then Ret (inr "network mode changed during apply; retry")
        else if dryRun then Ret (inl n) else ensure_bridge n)
  | _ => Ret (inl n)
  end.

Definition Reconcile (dryRun : bool) : prog (option string) :=
  prog_bind (λ r : list NetworkManifest + string, match r with
    | inr e => Ret (Some e)
    | inl networks =>
        prog_bind (λ r, Ret (match r with inl _ => None | inr e => Some e end))
          (for_each (λ n, prog_bind (λ r, Ret (match r with inl n => inl n | inr e => inr ("network " ++ Name n ++ ": " ++ e) end))
             (Ensure n dryRun)) networks)
    end) List.

(** [Destroy], of a manifest. *)
Fixpoint foreign_member (n : NetworkManifest) (members : list string) : option string :=
  match members with
  | [] => None
  | m :: members =>
      if negb (includes_str (AppliedMembers n) m) && (Owned n || starts_with "feth" m) then Some m else foreign_member n members
  end.
Fixpoint remove_applied (device : string) (members applied : list string) : prog (option string) :=
  match applied with
  | [] => Ret None
  | m :: applied => do (if includes_str members m then RemoveMember device m else Ret None); remove_applied device members applied
  end.
Fixpoint destroy_vlans (applied : list vlan) : prog (option string) :=
  match applied with
  | [] => Ret None
  | a :: applied =>
      here ← (if v_borrowed a || negb (truthy (v_device a)) then Ret false else Exists (v_device a));
      do (if here : bool then Destroy_device (v_device a) else Ret None);
      destroy_vlans applied
  end.

Definition Destroy (n : NetworkManifest) : prog (option string) :=
  match Mode n with
  | ModeVlan =>
      here ← (if Owned n && truthy (Device n) then Exists (Device n) else Ret false);
      if here : bool then Destroy_device (Device n) else Ret None
  | ModeBridge =>
      here ← Exists (Device n);
      do (if here : bool then
            bridge ← IsBridge (Device n);
            if negb bridge then Ret (Some (Device n ++ " is not a native bridge")) else
            prog_bind (λ r : list string + string, match r with
              | inr e => Ret (Some e)
              | inl members =>
                  match foreign_member n members with
                  | Some m => Ret (Some ("bridge " ++ Device n ++ " still has unmanaged or active VM member " ++ m))
                  | None => remove_applied (Device n) members (AppliedMembers n)
                  end
              end) (Members_of (Device n))
          else Ret None);
      do destroy_vlans (AppliedVLANs n);
      here ← (if negb (Owned n) && truthy (AppliedAddress n) then Exists (Device n) else Ret false);
      do (if here : bool then RemoveAddress (Device n) (AppliedAddress n) else Ret None);
      here ← (if Owned n then Exists (Device n) else Ret false);
      if here : bool then Destroy_device (Device n) else Ret None
  | _ => Ret None
  end.

(** The end of [CreateNetwork] of [src/pkg/engine/network.go], once the manifest is made. *)
Definition create_network (n : NetworkManifest) : prog (NetworkManifest + string) :=
  try Save n;
  prog_bind (λ r, match r with
    | inl n => Ret (inl n)
    | inr err =>
        prog_bind (λ c, match c with
          | inr e => Ret (inr ("apply network: " ++ err ++ " (reload for rollback: " ++ e ++ ")"))
          | inl current =>
              prog_bind (λ e, match e with
                | Some e => Ret (inr ("apply network: " ++ err ++ " (rollback failed; retained manifest " ++ ID n ++ ": " ++ e ++ ")"))
                | None =>
                    prog_bind (λ e, match e with
                      | Some e => Ret (inr ("apply network: " ++ err ++ " (remove failed manifest: " ++ e ++ ")"))
                      | None => Ret (inr ("apply network: " ++ err))
                      end) (ask (RemoveManifest (ID n)))
                end) (Destroy current)
          end) (Load (ID n))
    end) (Ensure n false).
End source.
