(* ===== verification/NetworkSafety.v ===== *)
(** * What applying a network does not harm

    Whatever [ifconfig], the files and the host answer, and wherever the process is killed: the interfaces that are
    not the network's own, the other networks, and what the user asked for. *)

From S2P Require Import Prelude JsString Regex Types CreateNetwork Storage HostNetwork Programs.
Local Open Scope string_scope.

Notation prog := (Programs.prog cmd).

(** ** What is a network's own

    A network may destroy the VLANs that its manifest says it made, tag the VLANs it names, take the members
    and the address it applied from its bridge, and give that bridge the members and the address it asks for. *)

Definition own (n : NetworkManifest) (i : string) : Prop :=
  ∃ a, a ∈ (AppliedVLANs n ++ VLANs n)%list ∧ v_borrowed a = false ∧ v_device a = i.
#[export] Instance own_dec n i : Decision (own n i).
Proof.
  refine (cast_if (decide (List.Exists (λ a, v_borrowed a = false ∧ v_device a = i) (AppliedVLANs n ++ VLANs n)%list))); unfold own; rewrite <- Exists_exists; done.
Defined.
Definition named_vlan (n : NetworkManifest) (i : string) : Prop :=
  (Mode n = ModeVlan ∧ i = Device n) ∨ ∃ a, a ∈ (AppliedVLANs n ++ VLANs n)%list ∧ v_device a = i.
Definition key (w : vlan) : string * Z := (v_parent w, v_tag w).
Definition carries (v : host) (i : string) (k : string * Z) : Prop := ∃ f, ifaces v !! i = Some f ∧ ikind f = Vlan (Some k).
Definition wanted (n : NetworkManifest) (v : host) (m : string) : Prop :=
  m ∈ Members n ∨ ∃ k, k ∈ key <$> VLANs n ∧ carries v m k.

(** Every port of a bridge is an interface of the host. *)
Definition ports_exist (v : host) : Prop :=
  ∀ i f p m, ifaces v !! i = Some f → ikind f = Bridge p → m ∈ p → is_Some (ifaces v !! m).

(** What a change makes of an interface that remains. *)
Definition edit (c : change) (i : string) (f : iface) : iface :=
  match c with
  | Destroyed d => without_port d f
  | Alias d ip mask => if decide (i = d) then with_addr (ip, mask) f else f
  | Unalias d ip => if decide (i = d) then without_addr ip f else f
  | UpFlag d => if decide (i = d) then brought_up f else f
  | Addm b m => if decide (i = b) then with_port m f else f
  | Deletem b m => if decide (i = b) then without_port m f else f
  | Tagging d tag parent => if decide (i = d) then with_conf (parent, tag) f else f
  end.

Lemma effect_lookup c v i : ifaces (effect c v) !! i = if decide (c = Destroyed i) then None else edit c i <$> ifaces v !! i.
Proof.
  destruct c as [d|d ip mask|d ip|d|b m|b m|d tag parent]; cbn.
  { rewrite lookup_fmap. case_decide as E; [injection E as ->; by rewrite lookup_delete_eq|]. rewrite lookup_delete_ne by congruence. done. }
  all: rewrite decide_False by done.
  all: match goal with |- alter _ ?d _ !! _ = _ => destruct (decide (i = d)) as [->|] end;
    [rewrite lookup_alter_eq|rewrite lookup_alter_ne by done];
    destruct (ifaces v !! _); cbn; by rewrite ?decide_True, ?decide_False by done.
Qed.

(** What a VLAN carries stays, unless it is destroyed. *)
Lemma edit_vlan c v i f k : accepted c v → ifaces v !! i = Some f → ikind f = Vlan (Some k) → ikind (edit c i f) = Vlan (Some k).
Proof.
  intros Ha Hf Ek. destruct c as [d|d ip mask|d ip|d|b m|b m|d tag parent]; cbn; try case_decide; try done;
    unfold with_port, without_port, with_conf; rewrite ?Ek; try done.
  subst. destruct Ha as [(f' & Hf' & E') _]. congruence.
Qed.
Lemma carries_effect c v i k : accepted c v → c ≠ Destroyed i → carries v i k → carries (effect c v) i k.
Proof.
  intros Ha Hne (f & Hf & Ek). exists (edit c i f). rewrite effect_lookup, decide_False by done. rewrite Hf. split; [done|].
  by eapply edit_vlan.
Qed.
Lemma wanted_effect n c v m : accepted c v → c ≠ Destroyed m → wanted n v m → wanted n (effect c v) m.
Proof. intros Ha Hne [H|(k & Hk & H)]; [by left|right]. exists k. split; [done|]. by apply carries_effect. Qed.

Lemma edit_addrs c i f a : (a ∈ addrs (edit c i f) ↔ a ∈ addrs f) ∨
  (∃ ip mask, c = Alias i ip mask ∧ (a ∈ addrs (edit c i f) → a = (ip, mask) ∨ a ∈ addrs f) ∧ (a ∈ addrs f → a ∉ addrs (edit c i f) → a.1 = ip)) ∨
  (∃ ip, c = Unalias i ip ∧ (a ∈ addrs (edit c i f) → a ∈ addrs f) ∧ (a ∈ addrs f → a ∉ addrs (edit c i f) → a.1 = ip)).
Proof.
  destruct c as [d|d ip mask|d ip|d|b m|b m|d tag parent]; cbn; try case_decide; try (left; done);
    try (left; unfold without_port, with_port, with_conf; by destruct (ikind f)); subst.
  - right. left. exists ip, mask. split; [done|]. cbn. rewrite elem_of_app, list_elem_of_filter, list_elem_of_singleton. cbn.
    split; [naive_solver|]. intros H1 H2. apply dec_stable. naive_solver.
  - right. right. exists ip. split; [done|]. cbn. rewrite list_elem_of_filter. cbn. split; [naive_solver|]. intros H1 H2. apply dec_stable. naive_solver.
Qed.

Lemma edit_up c i f : up f = true → up (edit c i f) = true.
Proof.
  intros H. destruct c; cbn; try case_decide; try done; unfold without_port, with_port, with_conf; by destruct (ikind f).
Qed.

Section frame.
Context (ParseCIDR : string → option (string * option string)).
Context (n0 : NetworkManifest) (v0 : host).

Definition new (i : string) : Prop := ifaces v0 !! i = None.
Definition mine (i : string) : Prop := i = Device n0 ∨ own n0 i.

(** An interface that is not the network's own keeps its kind, its configuration, its state and its addresses; the
    bridge of the network loses members and an address that the network applied, and gains what it asks for. *)
Inductive kept_kind (v : host) (i : string) : kind → kind → Prop :=
  | kept_port : kept_kind v i Port Port
  | kept_vlan c0 c : c = c0 ∨ (c0 = None ∧ named_vlan n0 i) → kept_kind v i (Vlan c0) (Vlan c)
  | kept_bridge p0 p :
      (∀ m, m ∈ p0 → m ∉ p → own n0 m ∨ (i = Device n0 ∧ m ∈ AppliedMembers n0)) →
      (∀ m, m ∈ p → m ∉ p0 → i = Device n0 ∧ wanted n0 v m) → kept_kind v i (Bridge p0) (Bridge p).

Record kept (v : host) (i : string) (f0 f : iface) : Prop := {
  k_kind : kept_kind v i (ikind f0) (ikind f);
  k_up : up f0 = true → up f = true;
  k_lost : ∀ a, a ∈ addrs f0 → a ∉ addrs f → i = Device n0 ∧
    ∃ mask, ParseCIDR (AppliedAddress n0) = Some (a.1, mask) ∨ ParseCIDR (Address n0) = Some (a.1, mask);
  k_gained : ∀ a, a ∈ addrs f → a ∉ addrs f0 → i = Device n0 ∧ ParseCIDR (Address n0) = Some (a.1, Some a.2)
}.

Definition framed (v : host) : Prop :=
  ∀ i f0, ifaces v0 !! i = Some f0 → own n0 i ∨ ∃ f, ifaces v !! i = Some f ∧ kept v i f0 f.

(** The changes that are allowed. *)
Definition allowed (v : host) (c : change) : Prop :=
  match c with
  | Destroyed d => new d ∨ own n0 d
  | Alias d ip mask => (new d ∨ d = Device n0) ∧ ParseCIDR (Address n0) = Some (ip, Some mask)
  | Unalias d ip => (new d ∨ d = Device n0) ∧ ∃ mask, ParseCIDR (AppliedAddress n0) = Some (ip, mask)
  | UpFlag _ => True
  | Addm b m => (new b ∨ b = Device n0) ∧ wanted n0 v m
  | Deletem b m => new b ∨ (b = Device n0 ∧
      ∀ f0 p0, ifaces v0 !! b = Some f0 → ikind f0 = Bridge p0 → m ∈ p0 → own n0 b ∨ own n0 m ∨ m ∈ AppliedMembers n0)
  | Tagging d tag parent => new d ∨ named_vlan n0 d
  end.

Lemma kept_refl v i f : kept v i f f.
Proof. split; [|done..|by intros]. destruct (ikind f); constructor; try done. by left. Qed.

Lemma framed_refl : framed v0.
Proof. intros i f0 H. right. exists f0. split; [done|apply kept_refl]. Qed.

Lemma kept_kind_effect c v i f0 f : ports_exist v0 → accepted c v → allowed v c → ifaces v0 !! i = Some f0 → ¬ own n0 i →
  ifaces v !! i = Some f → kept_kind v i (ikind f0) (ikind f) → kept_kind (effect c v) i (ikind f0) (ikind (edit c i f)).
Proof.
  intros Hw Ha Hl Hf0 Hown Hf Hk. inversion Hk as [E0 E|c0 c1 Hc E0 E|p0 p Hlost Hgain E0 E].
  - replace (ikind (edit c i f)) with Port; [constructor|].
    destruct c; cbn; try case_decide; try done; unfold without_port, with_port, with_conf; by rewrite <- E.
  - destruct c as [d|d ip mask|d ip|d|b m|b m|d tag parent]; cbn; try case_decide; unfold without_port, with_port, with_conf;
      cbn; rewrite <- ?E; try (constructor; done).
    subst d. destruct Ha as [(f' & Hf' & E') _]. assert (c1 = None) as -> by congruence. cbn. constructor. right.
    split; [by destruct Hc as [->|[]]|]. destruct Hl as [Hl|Hl]; [|done]. unfold new in Hl. congruence.
  - assert (∀ m, m ∈ p → m ∉ p0 → c ≠ Destroyed m → i = Device n0 ∧ wanted n0 (effect c v) m) as Hgain'.
    { intros m H1 H2 H3. destruct (Hgain m H1 H2) as [-> Hm]. split; [done|]. by apply wanted_effect. }
    destruct c as [d|d ip mask|d ip|d|b m|b m|d tag parent]; cbn; try case_decide; unfold without_port, with_port, with_conf;
      cbn; rewrite <- ?E; cbn; try (constructor; [done|]; intros m' H1 H2; by apply Hgain').
    + constructor; intros m; rewrite list_elem_of_filter.
      * intros H1 H2. destruct (decide (m = d)) as [->|Hne]; [|apply Hlost; [done|]; naive_solver].
        left. destruct Hl as [Hl|Hl]; [|done]. destruct (Hw i f0 p0 d Hf0 (eq_sym E0) H1) as [? ?]. unfold new in Hl. congruence.
      * intros [H1 H2] H3. apply Hgain'; [done..|]. congruence.
    + subst b. constructor; intros m'; rewrite elem_of_app, list_elem_of_singleton.
      * intros H1 H2. apply Hlost; [done|]. naive_solver.
      * intros [H1| ->] H2; [by apply Hgain'|]. destruct Hl as [[Hl|Hl] Hm]; [unfold new in Hl; congruence|].
        split; [done|]. by apply (wanted_effect n0 (Addm i m)).
    + subst b. constructor; intros m'; rewrite list_elem_of_filter.
      * intros H1 H2. destruct (decide (m' = m)) as [->|Hne]; [|apply Hlost; [done|]; naive_solver].
        destruct Hl as [Hl|[-> Hl]]; [unfold new in Hl; congruence|]. specialize (Hl f0 p0 Hf0 (eq_sym E0) H1). tauto.
      * intros [H1 H2] H3. by apply Hgain'.
Qed.

Lemma framed_effect c v : ports_exist v0 → accepted c v → allowed v c → framed v → framed (effect c v).
Proof.
  intros Hw Ha Hl Hv i f0 Hf0. destruct (Hv i f0 Hf0) as [Ho|(f & Hf & Hk)]; [by left|].
  destruct (decide (c = Destroyed i)) as [->|Hne].
  { destruct Hl as [Hl|Hl]; [unfold new in Hl; congruence|by left]. }
  destruct (decide (own n0 i)) as [Ho|Ho]; [by left|]. right. exists (edit c i f). rewrite effect_lookup, decide_False by done. rewrite Hf.
  split; [done|]. destruct Hk as [Hkind Hup Hlost Hgain]. split.
  - by apply kept_kind_effect.
  - intros H. by apply edit_up, Hup.
  - intros a H1 H2. destruct (edit_addrs c i f a) as [E|[(ip & mask & -> & E1 & E2)|(ip & -> & E1 & E2)]].
    + rewrite E in H2. by apply Hlost.
    + destruct Hl as [[Hl|Hl] Hp]; [unfold new in Hl; congruence|]. destruct (decide (a ∈ addrs f)) as [H3|H3]; [|by apply Hlost].
      split; [done|]. rewrite (E2 H3 H2). eauto.
    + destruct Hl as [[Hl|Hl] [mask Hp]]; [unfold new in Hl; congruence|]. destruct (decide (a ∈ addrs f)) as [H3|H3]; [|by apply Hlost].
      split; [done|]. rewrite (E2 H3 H2). eauto.
  - intros a H1 H2. destruct (edit_addrs c i f a) as [E|[(ip & mask & -> & E1 & E2)|(ip & -> & E1 & E2)]].
    + rewrite E in H1. by apply Hgain.
    + destruct Hl as [[Hl|Hl] Hp]; [unfold new in Hl; congruence|]. destruct (E1 H1) as [->|H3]; [done|by apply Hgain].
    + apply E1 in H1. by apply Hgain.
Qed.

Lemma framed_create v name kind : new name → ifaces v !! name = None → framed v → framed (with_ifaces (<[name := new_iface kind]>) v).
Proof.
  intros Hn Hv H i f0 Hf0. destruct (H i f0 Hf0) as [Ho|(f & Hf & [Hkind Hup Hlost Hgain])]; [by left|]. right. exists f.
  assert (i ≠ name) as Hne by (intros ->; congruence). cbn. rewrite lookup_insert_ne by done. split; [done|]. split; try done.
  inversion Hkind as [E0 E|c0 c1 Hc E0 E|p0 p H1 H2 E0 E]; constructor; try done. intros m H3 H4. destruct (H2 m H3 H4) as [-> Hm].
  split; [done|]. destruct Hm as [Hm|(k & Hk & g & Hg & Eg)]; [by left|right]. exists k. split; [done|]. exists g. cbn.
  rewrite lookup_insert_ne; [done|]. intros <-. congruence.
Qed.
End frame.

(** ** Safety *)

Section safety.
Context (ParseCIDR : string → option (string * option string)).
Context (n0 : NetworkManifest) (v0 : host).

Notation framed := (framed ParseCIDR n0 v0).
Notation allowed := (allowed ParseCIDR n0 v0).
Notation new := (new v0).
Notation safe := (safe documented).

(** What the user asked for, which applying does not change. *)
Definition settings (n : NetworkManifest) :=
  (ID n, Name n, Mode n, (Uplink n, Parent n, Tag n, Group n), Address n, Members n, key <$> VLANs n).

(** The manifest records an interface: it is known to later runs. *)
Definition recorded (n : NetworkManifest) (i : string) : Prop :=
  i = Device n ∨ ∃ a, a ∈ AppliedVLANs n ∧ v_borrowed a = false ∧ v_device a = i.
(** An interface that was made since the beginning and is not recorded. The function ignores what the host
    answers when it is asked to destroy one again, so that those it refused to destroy may be left behind, one for each
    refusal; of the others there is one at most. *)
Definition unrecorded (s : NetworkManifest) (v : host) (i : string) : Prop := is_Some (ifaces v !! i) ∧ new i ∧ ¬ recorded s i.
Definition one_unrecorded (s : NetworkManifest) (v : host) : Prop :=
  ∀ i j, unrecorded s v i → unrecorded s v j → i = j ∨ i ∈ refusing v ∨ j ∈ refusing v.

(** Those that the host was not asked to destroy, or did destroy. *)
Definition stray (s : NetworkManifest) (v : host) (i : string) : Prop := is_Some (ifaces v !! i) ∧ new i ∧ i ∉ refusing v ∧ ¬ recorded s i.
Lemma one_unrecorded_stray s v : one_unrecorded s v ↔ ∀ i j, stray s v i → stray s v j → i = j.
Proof.
  split.
  - intros H i j (H1 & H2 & H3 & H4) (H5 & H6 & H7 & H8). destruct (H i j) as [?|[?|?]]; [by split_and!..|done|done|done].
  - intros H i j (H1 & H2 & H3) (H4 & H5 & H6). destruct (decide (i ∈ refusing v)); [auto|]. destruct (decide (j ∈ refusing v)); [auto|]. left. by apply H.
Qed.

(** What holds all along: the frame, the manifests of the other networks, the settings of this one, and that at
    most one interface that was made is not recorded by the saved manifest, besides those that the host refused to destroy. *)
Record unharmed (v : host) : Prop := {
  u_framed : framed v;
  u_others : ∀ id, id ≠ ID n0 → manifests v !! id = manifests v0 !! id;
  u_saved : ∃ s, manifests v !! ID n0 = Some s ∧ settings s = settings n0 ∧ one_unrecorded s v
}.

Definition ok {A} (P : A → host → Prop) (r : A + string) (v : host) : Prop := match r with inl a => P a v | inr _ => True end.

(** ** Finding and making a VLAN *)

Section resolve.
(** What holds around it: [J X] of a host with the interface [X], if any, that was made and is not recorded yet. *)
Context (J : option string → host → Prop).
Context (J_unharmed : ∀ X v, J X v → unharmed v).
Context (J_effect : ∀ X c v, J X v → accepted c v → allowed v c → (∀ d, c ≠ Destroyed d) → J X (effect c v)).
Context (J_create : ∀ d v kind, J None v → ifaces v !! d = None → J (Some d) (with_ifaces (<[d := new_iface kind]>) v) ∧ new d).
Context (J_failed : ∀ X c v, J X v → J X (failed c v)).
Context (J_destroyed : ∀ d v, J (Some d) v → new d →
  let c := Destroyed d in J None (failed c v) ∧ (accepted c v → J None (effect c v) ∧ J None (effect c (failed c v)))).

Lemma accepted_failed c v : accepted c v → accepted c (failed c v).
Proof. by destruct c. Qed.
Lemma allowed_failed c v : allowed v c → allowed (failed c v) c.
Proof. by destruct c. Qed.

Lemma safe_change X c v : J X v → allowed v c → (∀ d, c ≠ Destroyed d) →
  safe (ask (Ifconfig c)) v unharmed (λ r v', J X v' ∧ (r = None → accepted c v ∧ v' = effect c v)).
Proof using J_unharmed J_effect J_failed.
  intros H Ha Hd. command as r v' Hr; [by eapply J_unharmed|].
  assert (J X v' ∧ (r = None → accepted c v ∧ v' = effect c v)) as [HJ Hq]; [|by split; [eapply J_unharmed|]].
  destruct r as [e|]; [split; [|done]; destruct Hr as [->|[Hacc ->]]|destruct Hr as [Hacc ->]; split; [|done]].
  - by apply J_failed.
  - apply J_effect; [by apply J_failed|by apply accepted_failed|by apply allowed_failed|done].
  - by apply J_effect.
Qed.
Lemma safe_undo d v : J (Some d) v → new d → safe (Destroy_device d) v unharmed (λ _ v', J None v').
Proof using J_unharmed J_destroyed.
  intros H Hn. command as r v' Hr; [by eapply J_unharmed|]. destruct (J_destroyed d v H Hn) as [H1 H2].
  assert (J None v') as HJ; [|by split; [eapply J_unharmed|]].
  destruct r as [e|]; [destruct Hr as [->|[Hacc ->]]; [done|by apply H2]|destruct Hr as [Hacc ->]; by apply H2].
Qed.

Lemma safe_exists name X v (Q : bool → host → Prop) : J X v → (∀ b, (b = true → is_Some (ifaces v !! name)) → Q b v) →
  safe (Exists name) v unharmed Q.
Proof using J_unharmed. intros H HQ. command as r v' Hd; [by eapply J_unharmed|]. destruct Hd as [-> Hd]. split; [by eapply J_unharmed|]. by apply HQ. Qed.

Lemma safe_inspect d X v (Q : shown + string → host → Prop) : J X v → (∀ e, Q (inr e) v) → (∀ f, ifaces v !! d = Some f → Q (inl (show f)) v) →
  safe (inspect d) v unharmed Q.
Proof using J_unharmed.
  intros H H1 H2. command as r v' Hd; [by eapply J_unharmed|]. destruct Hd as [-> Hd]. split; [by eapply J_unharmed|].
  destruct r as [s|e]; [|done]. destruct (Hd s eq_refl) as (f & Hf & ->). by apply H2.
Qed.

Lemma matches_carries v d f parent tag : ifaces v !! d = Some f → matches (show f) parent tag = true → carries v d (parent, tag).
Proof. intros Hf H%bool_decide_eq_true. exists f. split; [done|]. unfold show in H. destruct (ikind f); cbn in H; congruence. Qed.

Lemma safe_first_match names parent tag X v : J X v →
  safe (first_match names parent tag) v unharmed (ok (λ d v', v' = v ∧ (truthy d = true → carries v d (parent, tag)))).
Proof using J_unharmed.
  intros H. induction names as [|name names IH]; cbn [first_match].
  { apply safe_ret; [by eapply J_unharmed|]. by split. }
  apply safe_checked. eapply safe_inspect; [done|done|]. intros f Hf. destruct (matches (show f) parent tag) eqn:E; [|done].
  apply safe_ret; [by eapply J_unharmed|]. split; [done|]. intros _. by eapply matches_carries.
Qed.
Lemma safe_FindVLAN parent tag X v : J X v →
  safe (FindVLAN parent tag) v unharmed (ok (λ d v', v' = v ∧ (truthy d = true → carries v d (parent, tag)))).
Proof using J_unharmed.
  intros H. unfold FindVLAN. apply safe_checked. command as r v' Hd; [by eapply J_unharmed|]. destruct Hd as [-> _].
  split; [by eapply J_unharmed|]. destruct r; [|done]. by eapply safe_first_match.
Qed.

(** [device] may be tagged. *)
Lemma safe_ConfigureVLAN device parent tag X v : J X v → new device ∨ named_vlan n0 device →
  safe (ConfigureVLAN device parent tag) v unharmed (λ e v', J X v' ∧ (e = None → carries v' device (parent, tag))).
Proof using J_unharmed J_effect J_failed.
  intros H Hn. unfold ConfigureVLAN. apply safe_bind. eapply safe_inspect; [done| |].
  { intros e. apply safe_ret; [by eapply J_unharmed|]. by split. }
  intros f Hf. destruct (tagged (show f)) eqn:Et.
  { destruct (matches (show f) parent tag) eqn:E; (apply safe_ret; [by eapply J_unharmed|]); [|by split].
    split; [done|]. intros _. by eapply matches_carries. }
  eapply safe_mono; [by eapply (safe_change X)|done|]. intros r v' _ [HJ Hr]. split; [done|]. intros E. destruct (Hr E) as [[(g & Hg & Eg) _] ->].
  exists (with_conf (parent, tag) g). split.
  - rewrite effect_lookup, decide_False by done. rewrite Hg. cbn. by rewrite decide_True.
  - unfold with_conf. by rewrite Eg.
Qed.

(** The result: a device with the configuration, which was there or was just made. *)
Definition resolved (device parent : string) (tag : Z) (r : string * bool) (v : host) : Prop :=
  carries v (fst r) (parent, tag) ∧
  ((J None v ∧ (fst r = device ∨ snd r = false)) ∨ (J (Some (fst r)) v ∧ new (fst r) ∧ snd r = true)).

Lemma safe_resolveVLAN device owned parent tag v : J None v → (truthy device = true → new device ∨ named_vlan n0 device) →
  safe (resolveVLAN device owned parent tag) v unharmed (ok (resolved device parent tag)).
Proof using J_unharmed J_effect J_create J_destroyed J_failed.
  intros H Hn. unfold resolveVLAN. apply safe_bind.
  apply (safe_mono _ _ unharmed _ (λ b v', v' = v ∧ (b = true → truthy device = true))); [|done|].
  { destruct (truthy device) eqn:E; cbn [negb]; [by eapply safe_exists|]. apply safe_ret; [by eapply J_unharmed|]. by split. }
  intros [] ? _ [-> Hb].
  - apply safe_bind. eapply safe_mono; [apply safe_ConfigureVLAN; [done|by apply Hn, Hb]|done|].
    intros [err|] v' Hu [HJ Hc].
    + apply safe_checked. eapply safe_mono; [by eapply safe_FindVLAN|done|]. intros [d|e] ? _ Hd; [|done]. destruct Hd as [-> Hd].
      destruct (truthy d && negb _) eqn:E; (apply safe_ret; [done|]); [|done]. apply andb_true_iff in E as [E _]. split; [by apply Hd|]. by left; split; [|right].
    + apply safe_ret; [done|]. split; [by apply Hc|]. by left; split; [|left].
  - apply safe_checked. eapply safe_mono; [by eapply safe_FindVLAN|done|]. intros [d|e] ? Hu Hd; [|done]. destruct Hd as [-> Hd].
    destruct (truthy d) eqn:E. { apply safe_ret; [done|]. split; [by apply Hd|]. by left; split; [|right]. }
    clear d Hd E. apply safe_checked. unfold create. apply safe_checked. command as r v' Hd; [done|].
    destruct r as [d|e].
    2: { destruct Hd as [->|(d & _ & Hd & ->)]; [by split|]. split; [|done]. eapply J_unharmed. by apply (J_create d). }
    destruct Hd as (_ & Hd & ->). destruct (J_create d v "vlan" H Hd) as [HJ Hnew]. set (v1 := with_ifaces _ v) in *. split; [by eapply J_unharmed|].
    destruct (String.eqb d ""); [apply safe_ret; [by eapply J_unharmed|done]|]. apply safe_ret; [by eapply J_unharmed|]. cbn [checked].
    apply safe_bind. eapply safe_mono; [apply safe_ConfigureVLAN; [done|by left]|done|]. intros [err|] v2 Hu2 [HJ2 Hc].
    2: { apply safe_ret; [done|]. split; [by apply Hc|]. right. by split_and!. }
    apply safe_bind. eapply safe_mono; [by apply safe_undo|done|]. intros r3 v3 Hu3 HJ3. cbn in HJ3. apply safe_checked.
    eapply safe_mono; [by eapply safe_FindVLAN|done|]. intros [d2|e] ? _ Hd2; [|done].
    destruct Hd2 as [-> Hd2]. destruct (truthy d2) eqn:E; [|by apply safe_ret].
    apply safe_ret; [done|]. split; [by apply Hd2|]. left. by split; [|right].
Qed.
End resolve.

(** ** A bridge *)

(** What the manifest in memory says of the host, when the VLANs [before] have been made, and with them the interface
    [X], which is not recorded yet. *)
Record making (before : list vlan) (X : option string) (n : NetworkManifest) (v : host) : Prop := {
  m_framed : framed v;
  m_others : ∀ id, id ≠ ID n0 → manifests v !! id = manifests v0 !! id;
  m_settings : settings n = settings n0;
  m_device : Device n = Device n0 ∨ new (Device n);
  m_before : ∀ a, a ∈ before → a ∈ AppliedVLANs n;
  m_applied : ∀ a, a ∈ AppliedVLANs n → a ∈ AppliedVLANs n0 ∨ a ∈ before;
  m_carries : ∀ a, a ∈ before → carries v (v_device a) (key a);
  m_new : ∀ i, is_Some (ifaces v !! i) → new i → i ∉ refusing v → i = Device n ∨ X = Some i ∨ ∃ a, a ∈ before ∧ v_borrowed a = false ∧ v_device a = i;
  m_extra : ∀ i a, X = Some i → a ∈ before → v_device a ≠ i
}.
Definition synced (n : NetworkManifest) (v : host) : Prop :=
  ∃ s, manifests v !! ID n0 = Some s ∧ settings s = settings n0 ∧ Device s = Device n ∧ AppliedVLANs s = AppliedVLANs n.
Definition whole (v : host) : Prop := ∀ i, is_Some (ifaces v0 !! i) → is_Some (ifaces v !! i).

Lemma making_unharmed before X n v : making before X n v → synced n v → unharmed v.
Proof.
  intros [] (s & Hs & Es & Ed & Ea). split; [done..|]. exists s. split_and!; [done..|]. apply one_unrecorded_stray. intros i j (H1 & H2 & H3 & H4) (H5 & H6 & H7 & H8).
  unfold recorded in H4, H8. rewrite Ed, Ea in H4, H8.
  destruct (m_new0 i H1 H2 H3) as [?|[E|(a & Ha & ? & ?)]]; [naive_solver| |]; last (exfalso; apply H4; right; exists a; naive_solver).
  destruct (m_new0 j H5 H6 H7) as [?|[E'|(a & Ha & ? & ?)]]; [naive_solver| |]; last (exfalso; apply H8; right; exists a; naive_solver).
  congruence.
Qed.

Lemma refusing_effect c v : refusing (effect c v) = refusing v.
Proof. by destruct c. Qed.
Lemma manifests_effect c v : manifests (effect c v) = manifests v.
Proof. by destruct c. Qed.
Lemma effect_some c v i : is_Some (ifaces (effect c v) !! i) → is_Some (ifaces v !! i) ∧ c ≠ Destroyed i.
Proof. rewrite effect_lookup. case_decide as E; [by intros []|]. intros H%fmap_is_Some. by split. Qed.

Lemma framed_ext v v' : ifaces v' = ifaces v → framed v → framed v'.
Proof.
  intros E H i f0 Hf0. destruct (H i f0 Hf0) as [?|(f & Hf & [Hkind ? ? ?])]; [by left|right]. exists f. rewrite E.
  split; [done|]. split; try done. inversion Hkind as [E0 E1|c0 c1 ? E0 E1|p0 p H1 H2 E0 E1]; constructor; try done.
  intros m H3 H4. destruct (H2 m H3 H4) as [? Hm]. split; [done|]. destruct Hm as [Hm|(k & ? & g & Hg & ?)]; [by left|right].
  exists k. split; [done|]. exists g. by rewrite E.
Qed.
Lemma framed_failed c v : framed v → framed (failed c v).
Proof. apply framed_ext. by destruct c. Qed.

Lemma making_failed before X Y n c v : making before X n v → (Y = X ∨ (∃ d, c = Destroyed d ∧ X = Some d ∧ Y = None)) → making before Y n (failed c v).
Proof.
  intros [] HY. assert (ifaces (failed c v) = ifaces v) as E by by destruct c.
  assert (∀ k a, carries v a k → carries (failed c v) a k) as Hc by (unfold carries; by rewrite E).
  split; try done.
  - by apply framed_failed.
  - by destruct c.
  - intros a Hin. by apply Hc, m_carries0.
  - intros i. rewrite E. intros H1 H2 H3. assert (i ∉ refusing v) as H4 by (destruct c; cbn in H3; set_solver).
    destruct (m_new0 i H1 H2 H4) as [H|[H|H]]; [tauto| |tauto]. right. left. destruct HY as [->|(d & -> & E' & ->)]; [done|].
    assert (i = d) as -> by congruence. cbn in H3. set_solver.
  - intros i a E'. apply m_extra0. destruct HY as [->|(d & _ & E'' & ->)]; congruence.
Qed.
Lemma unharmed_failed c v : unharmed v → unharmed (failed c v).
Proof.
  intros [? Ho (s & Hs & Es & Hone)]. pose proof (proj1 (one_unrecorded_stray _ _) Hone) as Hst. split; [by apply framed_failed|by destruct c|]. exists s. split_and!; [by destruct c|done|].
  apply one_unrecorded_stray.
  intros i j (H1 & H2 & H3 & H4) (H5 & H6 & H7 & H8). apply Hst; (split_and!; [by destruct c|done| |done]); destruct c; cbn in *; set_solver.
Qed.
Context (Hports : ports_exist v0).

Lemma making_effect before X Y n c v : making before X n v → accepted c v → allowed v c →
  (∀ d a, c = Destroyed d → a ∈ before → v_device a ≠ d) → (Y = X ∨ (∃ d, c = Destroyed d ∧ X = Some d ∧ Y = None)) → making before Y n (effect c v).
Proof using Hports.
  intros [] Ha Hl Hd HY. split; try done.
  - by apply framed_effect.
  - by rewrite manifests_effect.
  - intros a Hin. apply carries_effect; [done| |by apply m_carries0]. intros ->. by eapply Hd.
  - intros i [H1 H2]%effect_some H3. rewrite refusing_effect. intros H4. destruct (m_new0 i H1 H3 H4) as [H|[H|H]]; [tauto| |tauto].
    right. left. destruct HY as [->|(d & -> & E & ->)]; [done|congruence].
  - intros i a E. apply m_extra0. destruct HY as [->|(d & _ & E' & ->)]; congruence.
Qed.


Lemma unharmed_effect c v : unharmed v → accepted c v → allowed v c → unharmed (effect c v).
Proof using Hports.
  intros [? Ho (s & Hs & Es & Hone)] Ha Hl. pose proof (proj1 (one_unrecorded_stray _ _) Hone) as Hst. split; [by apply framed_effect|by rewrite manifests_effect|].
  exists s. rewrite manifests_effect. split_and!; [done..|]. apply one_unrecorded_stray.
  intros i j ([H1 _]%effect_some & H2 & H3 & H4) ([H5 _]%effect_some & H6 & H7 & H8). rewrite refusing_effect in H3, H7. by apply Hst.
Qed.

(** A command that is allowed does no harm, whatever comes of it. *)
Lemma safe_any c v : unharmed v → allowed v c → safe (ask (Ifconfig c)) v unharmed (λ _ _, True).
Proof using Hports.
  intros H Hl. command as r v' Hr; [done|]. split; [|done].
  assert (accepted c v → unharmed (effect c (failed c v))) as Hb.
  { intros Ha. apply unharmed_effect; [by apply unharmed_failed|by destruct c|by destruct c]. }
  destruct r; [destruct Hr as [->|[Ha ->]]; [by apply unharmed_failed|by apply Hb]|]. destruct Hr as [Ha ->]. by apply unharmed_effect.
Qed.

(** Until the first VLAN is destroyed, every interface that was there is there. *)
Definition built (before : list vlan) (n : NetworkManifest) (X : option string) (v : host) : Prop := making before X n v ∧ synced n v ∧ whole v.

Lemma built_unharmed before n X v : built before n X v → unharmed v.
Proof. intros (? & ? & _). by eapply making_unharmed. Qed.
Lemma synced_effect n c v : synced n v → synced n (effect c v).
Proof. unfold synced. by rewrite manifests_effect. Qed.
Lemma synced_failed n c v : synced n v → synced n (failed c v).
Proof. by destruct c. Qed.
Lemma whole_effect c v : whole v → (∀ d, c = Destroyed d → new d) → whole (effect c v).
Proof.
  intros H Hd i Hi. rewrite effect_lookup. case_decide as E; [|by apply fmap_is_Some, H].
  specialize (Hd i E). unfold NetworkSafety.new in Hd. rewrite Hd in Hi. by destruct Hi.
Qed.
Lemma whole_failed c v : whole v → whole (failed c v).
Proof. by destruct c. Qed.

Lemma built_effect before n X c v : built before n X v → accepted c v → allowed v c → (∀ d, c ≠ Destroyed d) → built before n X (effect c v).
Proof using Hports.
  intros (? & ? & ?) ? ? Hd. split_and!; [|by apply synced_effect|by apply whole_effect; [|intros d E; by destruct (Hd d)]].
  apply (making_effect before X X); [done..| |by left]. intros d a E. by destruct (Hd d).
Qed.
Lemma built_failed before n X c v : built before n X v → built before n X (failed c v).
Proof. intros (? & ? & ?). split_and!; [|by apply synced_failed|by apply whole_failed]. apply (making_failed before X X); [done|by left]. Qed.
Lemma built_destroyed before n d v : built before n (Some d) v → new d → let c := Destroyed d in
  built before n None (failed c v) ∧ (accepted c v → built before n None (effect c v) ∧ built before n None (effect c (failed c v))).
Proof using Hports.
  intros (Hm & Hs & Hw) Hn c. pose proof (m_extra _ _ _ _ Hm) as Hx.
  assert (making before None n (failed c v)) as Hf by (apply (making_failed before (Some d) None); [done|right; by exists d]).
  split; [split_and!; [done|by apply synced_failed|by apply whole_failed]|]. intros Ha.
  assert (∀ e a, c = Destroyed e → a ∈ before → v_device a ≠ e) as Hx' by (intros e a [= <-] Hin; by apply Hx).
  split; (split_and!; [|by apply synced_effect|by apply whole_effect; [|intros ? [= <-]]]).
  - apply (making_effect before (Some d) None); [done|done|by left|done|]. right. by exists d.
  - apply (making_effect before None None); [done|done|by left|done|by left].
Qed.

Lemma built_create before n d v kind : built before n None v → ifaces v !! d = None →
  built before n (Some d) (with_ifaces (<[d := new_iface kind]>) v) ∧ new d.
Proof.
  intros ([] & ? & Hw) Hd. assert (new d) as Hn.
  { unfold NetworkSafety.new. destruct (ifaces v0 !! d) eqn:E; [|done]. destruct (Hw d) as [? ?]; [by rewrite E|congruence]. }
  split; [|done]. split_and!; [split; try done|done|].
  - by apply framed_create.
  - intros a Ha. destruct (m_carries0 a Ha) as (f & Hf & Ef). exists f. cbn. rewrite lookup_insert_ne; [done|]. intros E. congruence.
  - intros i Hi. cbn in *. destruct (decide (i = d)) as [->|Hne]; [tauto|]. rewrite lookup_insert_ne in Hi by done.
    intros H1 H2. destruct (m_new0 i Hi H1 H2) as [?|[?|?]]; [tauto|done|tauto].
  - intros i a [= <-] Ha E. destruct (m_carries0 a Ha) as (f & Hf & _). congruence.
  - intros i Hi. cbn. destruct (decide (i = d)) as [->|Hne]; [by rewrite lookup_insert_eq|]. rewrite lookup_insert_ne by done. by apply Hw.
Qed.
(** A VLAN network: its interface, if it was just made, is not recorded yet. *)
Definition tagging (X : option string) (v : host) : Prop :=
  framed v ∧ manifests v = manifests v0 ∧ whole v ∧ ∀ i, is_Some (ifaces v !! i) → new i → i ∉ refusing v → X = Some i.

Lemma tagging_unharmed X v : manifests v0 !! ID n0 = Some n0 → tagging X v → unharmed v.
Proof using Hports.
  intros Hstored (Hf & Em & _ & Hn). split; [done|by rewrite Em|]. exists n0. rewrite Em. split_and!; [done..|].
  apply one_unrecorded_stray. intros i j (H1 & H2 & H3 & _) (H4 & H5 & H6 & _). specialize (Hn i H1 H2 H3) as E. rewrite (Hn j H4 H5 H6) in E. congruence.
Qed.
Lemma tagging_effect X c v : tagging X v → accepted c v → allowed v c → (∀ d, c ≠ Destroyed d) → tagging X (effect c v).
Proof using Hports.
  intros (Hf & Em & Hw & Hn) Ha Hl Hd. split_and!; [by apply framed_effect|by rewrite manifests_effect| |].
  - apply whole_effect; [done|]. intros d E. by destruct (Hd d).
  - intros i [H _]%effect_some. rewrite refusing_effect. by apply Hn.
Qed.
Lemma tagging_failed X c v : tagging X v → tagging X (failed c v).
Proof using Hports.
  intros (Hf & Em & Hw & Hn). split_and!; [by apply framed_failed|by destruct c|by apply whole_failed|].
  intros i H1 H2 H3. apply Hn; [by destruct c|done|]. destruct c; cbn in H3; set_solver.
Qed.
Lemma tagging_create d v kind : tagging None v → ifaces v !! d = None → tagging (Some d) (with_ifaces (<[d := new_iface kind]>) v) ∧ new d.
Proof using Hports.
  intros (Hf & Em & Hw & Hn) Hd. assert (new d) as Hnew.
  { unfold NetworkSafety.new. destruct (ifaces v0 !! d) eqn:E; [|done]. destruct (Hw d) as [? ?]; [by rewrite E|congruence]. }
  split; [|done]. split_and!; [by apply framed_create|done| |].
  - intros i Hi. cbn. destruct (decide (i = d)) as [->|Hne]; [by rewrite lookup_insert_eq|]. rewrite lookup_insert_ne by done. by apply Hw.
  - intros i Hi H1 H2. cbn in *. destruct (decide (i = d)) as [->|Hne]; [done|]. rewrite lookup_insert_ne in Hi by done. by specialize (Hn i Hi H1 H2).
Qed.
Lemma tagging_destroyed d v : tagging (Some d) v → new d → let c := Destroyed d in
  tagging None (failed c v) ∧ (accepted c v → tagging None (effect c v) ∧ tagging None (effect c (failed c v))).
Proof using Hports.
  intros (Hf & Em & Hw & Hn) Hnew c. assert (allowed v c) as Hl by by left. assert (whole (effect c v)) as Hwe by by apply whole_effect; [|intros ? [= <-]].
  assert (framed (failed c v)) as Hff by by apply framed_failed. split; [|intros Ha; split].
  - split_and!; [done..|]. intros i H1 H2 H3. cbn in H3. pose proof (Hn i H1 H2 ltac:(set_solver)) as [= <-]. set_solver.
  - split_and!; [by apply framed_effect|done|done|]. intros i [H1 Hne]%effect_some H2 H3. pose proof (Hn i H1 H2 H3) as [= <-]. done.
  - split_and!; [by apply framed_effect|done|exact Hwe|]. intros i [H1 Hne]%effect_some H2 H3. cbn in H3.
    pose proof (Hn i H1 H2 ltac:(set_solver)) as [= <-]. done.
Qed.

Context (uuid hostname_rfc1123 ParseCIDR4 : string → bool).
Notation Save := (Save uuid hostname_rfc1123 ParseCIDR4).
Notation save_or := (save_or uuid hostname_rfc1123 ParseCIDR4).

Lemma same_id n : settings n = settings n0 → ID n = ID n0.
Proof. by intros [= ?]. Qed.

Lemma making_saved before X n n' v : making before X n v → ID n' = ID n0 → making before X n (with_manifest n' v).
Proof.
  intros [] E. split; try done.
  - by eapply framed_ext, m_framed0.
  - intros id Hid. cbn. rewrite lookup_insert_ne by congruence. by apply m_others0.
Qed.
Lemma synced_saved n v : settings n = settings n0 → synced n (with_manifest n v).
Proof. intros E. exists n. cbn. rewrite (same_id _ E), lookup_insert_eq. done. Qed.

(** Saving; [undo] is what follows when it fails, which may nevertheless have replaced the manifest. *)
Lemma safe_save {A} n' (undo : prog A) v : unharmed v → unharmed (with_manifest n' v) →
  (∀ v', unharmed v' → safe undo v' unharmed (λ _ _, True)) →
  safe (save_or n' undo) v unharmed (ok (λ m v', m = n' ∧ v' = with_manifest n' v)).
Proof.
  intros H1 H2 Hundo.
  assert (∀ (e : string) v', unharmed v' → safe (_ ← undo; Ret (inr e)) v' unharmed (ok (λ (m : NetworkManifest) v', m = n' ∧ v' = with_manifest n' v))) as Hfail.
  { intros e v' ?. apply safe_bind. eapply safe_mono; [by apply Hundo|done|]. intros _ v2 ? _. by apply safe_ret. }
  unfold HostNetwork.save_or, HostNetwork.Save. destruct (ValidateID _); [by apply Hfail|]. destruct (valid _ _ _ _); [|by apply Hfail].
  apply safe_bind. command as r v' Hd; [done|]. destruct r as [e|].
  - destruct Hd as [->| ->]; (split; [done|]); by apply Hfail.
  - subst v'. split; [done|]. by apply safe_ret.
Qed.

Lemma safe_save_or {A} before X n before' n' (undo : prog A) v : making before X n v → synced n v → making before' None n' v →
  (∀ v', unharmed v' → safe undo v' unharmed (λ _ _, True)) →
  safe (save_or n' undo) v unharmed (ok (λ m v', m = n' ∧ making before' None n' v' ∧ synced n' v' ∧ ifaces v' = ifaces v)).
Proof.
  intros H1 H2 H3 Hundo.
  assert (making before' None n' (with_manifest n' v) ∧ synced n' (with_manifest n' v)) as [H4 H5].
  { destruct H3. split; [by apply making_saved; [split|apply same_id]|by apply synced_saved]. }
  pose proof (making_unharmed _ _ _ _ H1 H2). pose proof (making_unharmed _ _ _ _ H4 H5). eapply safe_mono; [by apply safe_save|done|].
  intros [m|e] v' _; [|done]. by intros [-> ->].
Qed.

(** Commands while a bridge is being made. *)
Section commands.
Context (before : list vlan) (n : NetworkManifest).
Notation built := (built before n).

Lemma built_change c v : built None v → allowed v c → (∀ d, c ≠ Destroyed d) →
  safe (ask (Ifconfig c)) v unharmed (λ r v', built None v' ∧ (r = None → accepted c v ∧ v' = effect c v)).
Proof using Hports. apply (safe_change built (built_unharmed before n) (built_effect before n) (built_failed before n)). Qed.

Lemma built_exists name v (Q : bool → host → Prop) : built None v → (∀ b, (b = true → is_Some (ifaces v !! name)) → Q b v) →
  safe (Exists name) v unharmed Q.
Proof. apply (safe_exists built (built_unharmed before n)). Qed.

Lemma built_inspect d v (Q : shown + string → host → Prop) : built None v → (∀ e, Q (inr e) v) →
  (∀ f, ifaces v !! d = Some f → Q (inl (show f)) v) → safe (inspect d) v unharmed Q.
Proof. apply (safe_inspect built (built_unharmed before n)). Qed.

Lemma built_resolve device owned parent tag v : built None v → (truthy device = true → new device ∨ named_vlan n0 device) →
  safe (resolveVLAN device owned parent tag) v unharmed (ok (resolved built device parent tag)).
Proof using Hports.
  apply (safe_resolveVLAN built (built_unharmed before n) (built_effect before n) (built_create before n) (built_failed before n) (built_destroyed before n)).
Qed.
End commands.

Lemma recall_key applied w : key (recall applied w) = key w.
Proof.
  unfold recall. revert w. induction applied as [|a l IH]; intros w; cbn; [done|]. rewrite IH. by destruct (same_vlan a w).
Qed.
Lemma same_vlan_key a w : same_vlan a w = true ↔ key a = key w.
Proof.
  unfold same_vlan, key. rewrite andb_true_iff, String.eqb_eq, Z.eqb_eq. split; [by intros [-> ->]|by intros [= -> ->]].
Qed.
Lemma recall_device applied w : v_device (recall applied w) = v_device w ∨
  ∃ a, a ∈ applied ∧ key a = key w ∧ v_device a = v_device (recall applied w).
Proof.
  unfold recall. revert w. induction applied as [|a l IH]; intros w; cbn; [by left|]. destruct (same_vlan a w) eqn:E.
  - set (w' := mkVlan _ _ _ _). apply same_vlan_key in E. destruct (IH w') as [H|(b & Hb & H1 & H2)].
    + right. exists a. split_and!; [by left|done|]. by rewrite H.
    + right. exists b. split_and!; [by right|by rewrite H1|done].
  - destruct (IH w) as [H|(b & Hb & H1 & H2)]; [by left|right]. exists b. split_and!; [by right|done..].
Qed.

Lemma in_record_vlan a w applied : a ∈ record_vlan w applied ↔ (a ∈ applied ∧ key a ≠ key w) ∨ a = w.
Proof.
  unfold record_vlan. rewrite elem_of_app, list_elem_of_singleton. setoid_rewrite list_elem_of_In. rewrite filter_In, negb_true_iff.
  pose proof (same_vlan_key a w). destruct (same_vlan a w); intuition congruence.
Qed.

Lemma safe_apply_vlan before after w n v : built before n None v → VLANs n = (before ++ w :: after)%list → key w ∉ key <$> before → w ∈ VLANs n0 →
  safe (apply_vlan uuid hostname_rfc1123 ParseCIDR4 before after w n) v unharmed (ok (λ r v', built (before ++ [r.1]) r.2 None v' ∧
    key r.1 = key w ∧ VLANs r.2 = (before ++ r.1 :: after)%list ∧ AppliedAddress r.2 = AppliedAddress n ∧
    AppliedMembers r.2 = AppliedMembers n ∧ Device r.2 = Device n)).
Proof using Hports.
  intros Hb Hvs Hk Hw. unfold apply_vlan. set (u := recall (AppliedVLANs n) w). assert (key u = key w) as Eu by apply recall_key.
  apply safe_bind. eapply built_exists; [done|]. intros [] _; cbn [negb]; [|apply safe_ret; [by eapply built_unharmed|done]].
  apply safe_checked. eapply safe_mono; [eapply built_resolve; [done|]|done|].
  { intros _. right. right. destruct (recall_device (AppliedVLANs n) w) as [E|(a & Ha & Ea & E)].
    - exists w. split; [apply elem_of_app; by right|]. done.
    - exists a. split; [|done]. apply elem_of_app. left. destruct Hb as [Hm _]. destruct (m_applied _ _ _ _ Hm a Ha) as [?|Hin]; [done|].
      destruct Hk. rewrite <- Ea. by apply list_elem_of_fmap_2. }
  intros [[d o]|e] v1 Hu; [|done]. intros [Hc Hr]. cbn [fst snd] in *.
  set (w' := mkVlan (negb o) (v_parent u) (v_tag u) d). assert (key w' = key w) as Ew by exact Eu.
  set (n' := with_applied_vlans _ _).
  assert (∃ X, built before n X v1 ∧ (X = None ∨ X = Some d ∧ o = true) ∧ (o && negb (String.eqb d (v_device u)) = true → new d)) as (X & HJ & HX & Hnew).
  { destruct Hr as [[HJ Ho]|(HJ & Hn & Ho)]; [exists None|exists (Some d)]; (split; [done|]); (split; [by eauto|]); [|done].
    intros [-> E%negb_true_iff%String.eqb_neq]%andb_true_iff. naive_solver. }
  destruct HJ as (Hm & Hs & Hwh).
  assert (making (before ++ [w']) None n' v1) as Hm'.
  { destruct Hm. split; try done.
    - unfold settings in *. cbn. rewrite <- m_settings0. rewrite Hvs, !fmap_app. cbn. by rewrite Ew.
    - intros a [Ha| ->%list_elem_of_singleton]%elem_of_app; apply in_record_vlan; [left|by right]. split; [by apply m_before0|].
      rewrite Ew. intros E. apply Hk. rewrite <- E. by apply list_elem_of_fmap_2.
    - intros a [[Ha _]| ->]%in_record_vlan; rewrite elem_of_app, list_elem_of_singleton; [|tauto]. destruct (m_applied0 a Ha); tauto.
    - intros a [Ha| ->%list_elem_of_singleton]%elem_of_app; [by apply m_carries0|]. rewrite Ew, <- Eu. exact Hc.
    - intros i H1 H2 H3. destruct (m_new0 i H1 H2 H3) as [?|[E|(a & Ha & ?)]]; [by left| |].
      + right. right. exists w'. rewrite elem_of_app, list_elem_of_singleton. destruct HX as [->|[-> ->]]; [done|]. injection E as <-. tauto.
      + right. right. exists a. rewrite elem_of_app. tauto. }
  apply safe_checked. eapply safe_mono; [eapply (safe_save_or before X n (before ++ [w'])); [done..|]|done|].
  { intros v2 Hu2. destruct (o && _) eqn:E; [|by apply safe_ret]. apply safe_any; [done|]. left. by apply Hnew. }
  intros [m|e] v2 Hu2; [|done]. intros (-> & Hm2 & Hs2 & Ei). cbn [checked].
  assert (built (before ++ [w']) n' None v2) as Hb2.
  { split_and!; [done..|]. intros i Hi. rewrite Ei. by apply Hwh. }
  apply safe_try. eapply safe_mono; [by apply (built_change (before ++ [w']) n')|done|]. intros [e|] v3 Hu3 [Hb3 _]; [done|].
  apply safe_ret; [done|]. by split_and!.
Qed.

Lemma safe_apply_vlans ms before after n v : built before n None v → VLANs n = (before ++ after)%list →
  (∀ w, w ∈ after → w ∈ VLANs n0) → NoDup (key <$> VLANs n) →
  safe (apply_vlans uuid hostname_rfc1123 ParseCIDR4 before after n (ms ++ (v_device <$> before))) v unharmed (ok (λ r v',
    built (VLANs r.1) r.1 None v' ∧ r.2 = (ms ++ (v_device <$> VLANs r.1))%list ∧
    AppliedAddress r.1 = AppliedAddress n ∧ AppliedMembers r.1 = AppliedMembers n ∧ Device r.1 = Device n)).
Proof using Hports.
  revert before n v. induction after as [|w after IH]; intros before n v Hb Hv Hin Hnd; cbn [apply_vlans].
  { rewrite app_nil_r in Hv. apply safe_ret; [by eapply built_unharmed|]. cbn. by rewrite Hv. }
  apply safe_checked. eapply safe_mono; [apply safe_apply_vlan; [done|done| |apply Hin; by left]|done|].
  { rewrite Hv, fmap_app in Hnd. apply NoDup_app in Hnd as (_ & Hnd & _). cbn in Hnd. intros H. apply (Hnd _ H). by left. }
  intros [[w' n']|e] v' Hu; [|done]. cbn [fst snd]. intros (Hb' & Ek & Hv' & Ea & Em & Ed). cbn [fst snd] in *.
  replace ((ms ++ (v_device <$> before)) ++ [v_device w'])%list with (ms ++ (v_device <$> (before ++ [w'])))%list by (by rewrite fmap_app, app_assoc).
  eapply safe_mono; [apply IH; [done| |by intros; apply Hin; right|]|done|].
  - by rewrite Hv', <- app_assoc.
  - rewrite Hv', Hv in *. rewrite fmap_app in *. cbn in *. by rewrite Ek.
  - intros [[n2 d2]|e] v2 _; [|done]. intros (? & ? & ? & ? & ?). cbn in *.
    split_and!; congruence || done.
Qed.

(** The members. *)
Lemma built_members before n X v l : built before n X v → built before (with_applied_members l n) X v.
Proof. by intros ([] & ? & ?). Qed.

Definition my_bridge (n : NetworkManifest) : Prop := Device n = Device n0 ∨ new (Device n).
Lemma built_device before n X v : built before n X v → new (Device n) ∨ Device n = Device n0.
Proof. intros ([] & _). tauto. Qed.

Lemma safe_drop_members before previous desired members n v : built before n None v → (∀ m, m ∈ previous → m ∈ AppliedMembers n0) →
  safe (drop_members previous desired members n) v unharmed (ok (λ n' v', built before n' None v' ∧
    AppliedAddress n' = AppliedAddress n ∧ AppliedVLANs n' = AppliedVLANs n ∧ Device n' = Device n ∧ VLANs n' = VLANs n)).
Proof using Hports.
  revert n v. induction previous as [|m previous IH]; intros n v Hb Hin; cbn [drop_members].
  { apply safe_ret; [by eapply built_unharmed|]. done. }
  destruct (includes_str desired m); [apply IH; [done|by intros; apply Hin; right]|].
  apply safe_try. apply (safe_mono _ _ unharmed _ (λ _ v', built before n None v')); [|done|].
  - destruct (includes_str members m); [|by apply safe_ret; [eapply built_unharmed|]].
    eapply safe_mono; [apply built_change; [done| |done]|done|by intros ? ? _ []].
    destruct (built_device _ _ _ _ Hb) as [H|H]; [by left|right]. split; [done|]. intros. right. right. apply Hin. by left.
  - intros [e|] v' _ Hb'; [done|]. eapply safe_mono; [apply IH; [by apply built_members|by intros; apply Hin; right]|done|]. by intros [].
Qed.

Lemma built_wanted before n X v m : built before n X v → VLANs n = before → m ∈ (Members n0 ++ (v_device <$> before))%list → wanted n0 v m.
Proof.
  intros ([] & _) Ev [Hm|(a & -> & Ha)%list_elem_of_fmap]%elem_of_app; [by left|right]. exists (key a). split; [|by apply m_carries0].
  replace (key <$> VLANs n0) with (key <$> VLANs n); [|by injection m_settings0]. rewrite Ev. by apply list_elem_of_fmap_2.
Qed.

Lemma safe_add_member before m members n v : built before n None v → VLANs n = before → m ∈ (Members n0 ++ (v_device <$> before))%list →
  safe (add_member uuid hostname_rfc1123 ParseCIDR4 m members n) v unharmed (ok (λ n' v', built before n' None v' ∧
    AppliedAddress n' = AppliedAddress n ∧ AppliedVLANs n' = AppliedVLANs n ∧ Device n' = Device n ∧ VLANs n' = VLANs n)).
Proof using Hports.
  intros Hb Ev Hm. unfold add_member. apply safe_bind. eapply built_exists; [done|]. intros [] _; cbn [negb]; [|by apply safe_ret; [eapply built_unharmed|]].
  apply safe_checked. apply (safe_mono _ _ unharmed _ (ok (λ n' v', built before n' None v' ∧
    AppliedAddress n' = AppliedAddress n ∧ AppliedVLANs n' = AppliedVLANs n ∧ Device n' = Device n ∧ VLANs n' = VLANs n))); [|done|].
  - destruct (includes_str members m); [apply safe_ret; [by eapply built_unharmed|done]|].
    pose proof (built_device _ _ _ _ Hb) as Hd.
    apply safe_try. eapply safe_mono; [apply (built_change before n); [done| |done]|done|].
    { split; [done|]. by eapply built_wanted. }
    intros [e|] v1 Hu1 [Hb1 Hr]; [done|]. destruct (Hr eq_refl) as [(_ & _ & Hfree) _]. clear Hr.
    destruct (includes_str (AppliedMembers n) m); [apply safe_ret; done|].
    assert (allowed v (Deletem (Device n) m)) as Hundo.
    { destruct Hd as [Hd|Hd]; [by left|right]. split; [done|]. intros f0 p0 Hf0 Ep Hin. rewrite Hd in *.
      destruct Hb as ([Hfr] & _). destruct (Hfr _ _ Hf0) as [Ho|(f & Hf & [Hkind _ _ _])]; [by left|right].
      rewrite Ep in Hkind. inversion Hkind as [E0 E1|c0 c1 ? E0 E1|p0' p H1 H2 E0 E1]. subst p0'.
      destruct (decide (m ∈ p)) as [Hp|Hp]; [|destruct (H1 m Hin Hp); tauto].
      destruct Hfree. exists (Device n0), f. split; [done|]. unfold is_port_of. by rewrite <- E1. }
    destruct Hb1 as (Hm1 & Hs1 & Hw1).
    eapply safe_mono; [eapply (safe_save_or before None n before); [done|done|by destruct Hm1|]|done|].
    { intros v2 Hu2. by apply safe_any. }
    intros [n'|e] v2 Hu2; [|done]. intros (-> & Hm2 & Hs2 & Ei). split; [|done]. split_and!; [done..|]. intros i Hi. rewrite Ei. by apply Hw1.
  - intros [n'|e] v' Hu'; [|done]. intros (Hb' & E1 & E2 & E3 & E4). cbn [checked].
    apply safe_try. eapply safe_mono; [by apply (built_change before n')|done|]. intros [e|] v3 Hu3 [Hb3 _]; [done|]. by apply safe_ret.
Qed.

Lemma safe_add_members before members n v : built before n None v → VLANs n = before →
  safe (add_members uuid hostname_rfc1123 ParseCIDR4 (Members n0 ++ (v_device <$> before)) members n) v unharmed (ok (λ n' v',
    built before n' None v' ∧ AppliedAddress n' = AppliedAddress n ∧ AppliedVLANs n' = AppliedVLANs n ∧ Device n' = Device n ∧ VLANs n' = before)).
Proof using Hports.
  intros Hb Ev. unfold add_members.
  apply (safe_fold_checked _ (λ l n' v', l ⊆ (Members n0 ++ (v_device <$> before))%list ∧ built before n' None v' ∧
    AppliedAddress n' = AppliedAddress n ∧ AppliedVLANs n' = AppliedVLANs n ∧ Device n' = Device n ∧ VLANs n' = before)).
  - by split_and!.
  - intros m l n' v' (Hl & Hb' & E1 & E2 & E3 & E4). eapply safe_mono; [apply (safe_add_member before); [done|done|set_solver]|done|].
    intros [n2|e] v2 _; [|done]. intros (Hb2 & F1 & F2 & F3 & F4). split_and!; [set_solver|done|congruence..].
  - intros n' v' (_ & Hb' & ?). split; [by eapply built_unharmed|]. by split.
Qed.

(** The VLANs that are no longer asked for. *)
Definition remaining (before : list vlan) (n : NetworkManifest) (v : host) : Prop := making before None n v ∧ synced n v.
Lemma remaining_unharmed before n v : remaining before n v → unharmed v.
Proof. intros []. by eapply making_unharmed. Qed.

Lemma remaining_destroy before n a v : remaining before n v → a ∈ AppliedVLANs n0 ∨ a ∈ before → v_borrowed a = false → v_device a ∉ v_device <$> before →
  safe (Destroy_device (v_device a)) v unharmed (λ _, remaining before n).
Proof using Hports.
  intros [Hm Hs] Ha Hbo Hd. command as r v' Hr; [by eapply making_unharmed|].
  assert (∀ w, making before None n w → is_Some (ifaces w !! v_device a) → making before None n (effect (Destroyed (v_device a)) w)) as He.
  { intros w Hw Hi. apply (making_effect before None None); [done|done| |intros e b [= <-] Hb E; apply Hd; rewrite <- E; by apply list_elem_of_fmap_2|by left].
    right. destruct Ha as [Ha|Ha]; [|destruct Hd; by apply list_elem_of_fmap_2]. exists a. split; [|done]. apply elem_of_app. by left. }
  assert (making before None n (failed (Destroyed (v_device a)) v)) as Hf by (apply (making_failed before None None); [done|by left]).
  assert (remaining before n v') as H; [|by split; [eapply remaining_unharmed|]].
  destruct r; [destruct Hr as [->|[Hi ->]]|destruct Hr as [Hi ->]].
  - split; [done|exact Hs].
  - split; [by apply He|exact Hs].
  - split; [by apply He|exact Hs].
Qed.

Lemma safe_drop_vlan before desired a n v : remaining before n v → (∀ b, b ∈ before → v_device b ∈ desired) →
  a ∈ AppliedVLANs n0 ∨ a ∈ before → safe (drop_vlan uuid hostname_rfc1123 ParseCIDR4 desired a n) v unharmed (ok (λ n' v',
    remaining before n' v' ∧ AppliedAddress n' = AppliedAddress n ∧ Device n' = Device n)).
Proof using Hports.
  intros Hb Hdes Ha. unfold drop_vlan. destruct (includes_str desired (v_device a)) eqn:Ed; [by apply safe_ret; [eapply remaining_unharmed|]|].
  apply includes_str_false in Ed. assert (v_device a ∉ v_device <$> before) as Hne.
  { intros (b & E & Hin)%list_elem_of_fmap. apply Ed. rewrite E. by apply Hdes. }
  apply safe_bind. apply (safe_mono _ _ unharmed _ (λ b v', remaining before n v' ∧ (b = true → v_borrowed a = false))); [|done|].
  { destruct (v_borrowed a); [by apply safe_ret; [eapply remaining_unharmed|]|]. command as r v' Hd; [by eapply remaining_unharmed|].
    destruct Hd as [-> _]. split; [by eapply remaining_unharmed|done]. }
  intros here v1 Hu1 [Hb1 Hbo]. apply safe_try. apply (safe_mono _ _ unharmed _ (λ _, remaining before n)); [|done|].
  { destruct here; [|by apply safe_ret]. by apply remaining_destroy; [..|apply Hbo|]. }
  intros [e|] v2 Hu2 [Hm Hs]; [done|]. eapply safe_mono; [eapply (safe_save_or before None n before); [done|done| |by intros; apply safe_ret]|done|].
  - destruct Hm. split; try done.
    + intros b Hin. cbn. apply list_elem_of_In, filter_In. split; [by apply list_elem_of_In, m_before0|]. apply negb_true_iff, String.eqb_neq.
      intros E. apply Hne. rewrite <- E. by apply list_elem_of_fmap_2.
    + intros b [Hin _]%list_elem_of_In%filter_In. by apply m_applied0, list_elem_of_In.
  - intros [n'|e] v3 _; [|done]. intros (-> & H1 & H2 & _). by split_and!.
Qed.

Lemma safe_drop_vlans before desired n v : remaining before n v → (∀ b, b ∈ before → v_device b ∈ desired) →
  safe (drop_vlans uuid hostname_rfc1123 ParseCIDR4 desired (AppliedVLANs n) n) v unharmed (ok (λ n' v',
    remaining before n' v' ∧ AppliedAddress n' = AppliedAddress n ∧ Device n' = Device n)).
Proof using Hports.
  intros Hb Hdes. unfold drop_vlans.
  apply (safe_fold_checked _ (λ l n' v', l ⊆ AppliedVLANs n ∧ remaining before n' v' ∧ AppliedAddress n' = AppliedAddress n ∧ Device n' = Device n)).
  - by split_and!.
  - intros a l n' v' (Hl & Hb' & E1 & E2). eapply safe_mono; [apply (safe_drop_vlan before); [done|done|]|done|].
    { destruct Hb as [Hm _]. apply (m_applied _ _ _ _ Hm). set_solver. }
    intros [n2|e] v2 _; [|done]. intros (Hb2 & F1 & F2). split_and!; [set_solver|done|congruence..].
  - intros n' v' (_ & Hb' & ?). split; [by eapply remaining_unharmed|]. by split.
Qed.

Lemma remaining_change before n c v : remaining before n v → allowed v c → (∀ d, c ≠ Destroyed d) →
  safe (ask (Ifconfig c)) v unharmed (λ _, remaining before n).
Proof using Hports.
  intros H Hl Hd. eapply safe_mono; [apply (safe_change (λ _, remaining before n)) with (X := None); [..|done|done|done]|done|by intros ? ? _ []].
  - intros _. apply remaining_unharmed.
  - intros _ c' v' [Hm Hs] ? ? Hc. split; [|by apply synced_effect]. apply (making_effect before None None); [done..| |by left].
    intros d a E. by destruct (Hc d).
  - intros _ c' v' [Hm Hs]. split; [|by apply synced_failed]. apply (making_failed before None None); [done|by left].
Qed.

(** The manifest that was read, and the bridge itself. *)
Context (Hstored : manifests v0 !! ID n0 = Some n0).

Lemma built_start : built [] n0 None v0.
Proof using Hstored.
  split_and!; [split; try done|by exists n0|by intros i].
  - apply framed_refl.
  - by left.
  - by intros a ?%elem_of_nil.
  - by left.
  - by intros a ?%elem_of_nil.
  - intros i [f Hf] Hn. unfold NetworkSafety.new in Hn. congruence.
Qed.

Lemma safe_exists_device n v (Q : bool → host → Prop) : built [] n None v → (∀ b, Q b v) → safe (exists_device n) v unharmed Q.
Proof. intros Hb HQ. unfold exists_device. destruct (truthy _); [by eapply built_exists|]. apply safe_ret; [by eapply built_unharmed|done]. Qed.

Lemma safe_ensure_device : safe (ensure_device uuid hostname_rfc1123 ParseCIDR4 n0) v0 unharmed (ok (λ n v,
  built [] n None v ∧ AppliedAddress n = AppliedAddress n0 ∧ VLANs n = VLANs n0 ∧ (∀ m, m ∈ AppliedMembers n → m ∈ AppliedMembers n0))).
Proof using Hports Hstored.
  pose proof built_start as Hb. pose proof (built_unharmed _ _ _ _ Hb) as Hu. unfold ensure_device. apply safe_bind, safe_exists_device; [done|]. intros here.
  apply safe_bind. apply (safe_mono _ _ unharmed _ (λ _ v, v = v0)); [|done|].
  { destruct here; [|by apply safe_ret]. unfold IsBridge. apply safe_bind. eapply built_inspect; [done| |]; intros; by apply safe_ret. }
  intros bridge ? _ ->. destruct (negb bridge); [by apply safe_ret|]. apply safe_bind, safe_exists_device; [done|]. clear here. intros [].
  { apply safe_ret; [done|]. by split_and!. }
  destruct (_ && _); [by apply safe_ret|]. apply safe_checked. unfold create. apply safe_checked.
  command as r v Hd; [done|]. destruct r as [d|e].
  2: { destruct Hd as [->|(d & _ & Hd & ->)]; [by split|]. split; [|done]. eapply built_unharmed. by apply (built_create [] n0 d v0). }
  destruct Hd as (_ & Hd & ->). destruct (built_create [] n0 d v0 "bridge" Hb Hd) as [(Hm1 & Hs1 & Hw1) Hnew].
  pose proof (making_unharmed _ _ _ _ Hm1 Hs1) as Hu1. set (v1 := with_ifaces _ v0) in *. split; [done|].
  destruct (String.eqb d ""); [by apply safe_ret|]. apply safe_ret; [done|]. cbn [checked].
  set (n1 := with_applied_members [] _).
  assert (making [] None n1 v1) as Hm2.
  { destruct Hm1. split; try done; [by right|]. intros i H1 H2 H3. left. cbn. apply dec_stable. intros Hne.
    unfold v1 in H1. cbn in H1. rewrite lookup_insert_ne in H1 by done. unfold NetworkSafety.new in H2. rewrite H2 in H1. by destruct H1. }
  eapply safe_mono; [apply (safe_save_or [] (Some d) n0 []); [done|done|done|]|done|].
  { intros v2 Hu2. apply safe_any; [done|]. by left. }
  intros [n|e] v2 Hu2; [|done]. intros (-> & Hm3 & Hs3 & Ei). split_and!; [|done|done|by intros m ?%elem_of_nil].
  split_and!; [done..|]. intros i Hi. rewrite Ei. by apply Hw1.
Qed.

Context (addr_text : string → string → string).

Lemma safe_HasAddress before n d a v : remaining before n v →
  safe (HasAddress addr_text d a) v unharmed (λ _ v', v' = v).
Proof.
  intros H. unfold HasAddress. apply safe_bind. command as r v' Hd; [by eapply remaining_unharmed|]. destruct Hd as [-> _].
  split; [by eapply remaining_unharmed|]. apply safe_ret; [by eapply remaining_unharmed|done].
Qed.

Lemma safe_apply_address before n v : remaining before n v → AppliedAddress n = AppliedAddress n0 →
  safe (apply_address ParseCIDR addr_text n) v unharmed (ok (remaining before)).
Proof using Hports.
  intros Hb Ea. unfold apply_address. assert (new (Device n) ∨ Device n = Device n0) as Hd by (destruct Hb as [[] _]; tauto).
  assert (Address n = Address n0) as Eadr by (destruct Hb as [[] _]; by injection m_settings0).
  apply safe_checked. apply (safe_mono _ _ unharmed _ (ok (λ n' v', remaining before n' v' ∧ Device n' = Device n ∧ Address n' = Address n))); [|done|].
  - destruct (_ && _); [|apply safe_ret; [by eapply remaining_unharmed|done]].
    apply safe_try. apply (safe_mono _ _ unharmed _ (λ _, remaining before n)); [|done|].
    + unfold RemoveAddress. apply safe_bind. eapply safe_mono; [by eapply safe_HasAddress|done|]. intros has ? Hu ->.
      destruct (negb has); [by apply safe_ret|]. destruct (ParseCIDR _) as [[ip mask]|] eqn:Ep; [|by apply safe_ret].
      apply remaining_change; [done| |done]. split; [done|]. rewrite <- Ea. eauto.
    + intros [e|] v' Hu Hb'; [done|]. apply safe_ret; [done|]. split; [|done]. by destruct Hb' as [[] ?].
  - intros [n'|e] v' Hu; [|done]. intros (Hb' & Ed & Ead). cbn [checked]. apply safe_bind.
    apply (safe_mono _ _ unharmed _ (λ _ v2, v2 = v')); [|done|].
    { destruct (truthy _); [by eapply safe_HasAddress|by apply safe_ret]. }
    intros [] ? _ ->; [by apply safe_ret|]. apply safe_try. apply (safe_mono _ _ unharmed _ (λ _, remaining before n')); [|done|].
    + unfold SetAddress. destruct (ParseCIDR _) as [[ip [mask|]]|] eqn:Ep; [|by apply safe_ret..]. apply safe_bind.
      eapply safe_mono; [apply remaining_change; [done| |done]|done|].
      * split; [by rewrite Ed|]. by rewrite <- Eadr, <- Ead.
      * intros r v2 Hu2 Hr. by apply safe_ret.
    + intros [e|] v2 Hu2 Hb2; [done|]. apply safe_ret; [done|]. by destruct Hb2 as [[] ?].
Qed.

(** ** The whole function *)

Definition applied (n : NetworkManifest) (v : host) : Prop := manifests v !! ID n0 = Some n ∧ ∀ i, ¬ stray n v i.

Lemma making_applied before n v : making before None n v → manifests v !! ID n0 = Some n → applied n v.
Proof.
  intros [] H. split; [done|]. intros i (H1 & H2 & H3 & H4). destruct (m_new0 i H1 H2 H3) as [?|[?|(a & ? & ?)]]; [by apply H4; left|done|].
  apply H4. right. exists a. split; [by apply m_before0|done].
Qed.

Lemma safe_all_exist what l v : built [] n0 None v → safe (all_exist what l) v unharmed (λ _ v', v' = v).
Proof.
  intros Hb. induction l as [|x l IH]; cbn [all_exist]; [by apply safe_ret; [eapply built_unharmed|]|].
  apply safe_bind. eapply built_exists; [done|]. intros [] _; [done|]. by apply safe_ret; [eapply built_unharmed|].
Qed.

Lemma safe_ensure_bridge : NoDup (key <$> VLANs n0) →
  safe (ensure_bridge ParseCIDR addr_text uuid hostname_rfc1123 ParseCIDR4 n0) v0 unharmed (ok applied).
Proof using Hports Hstored.
  intros Hnd. pose proof built_start as Hb. unfold ensure_bridge.
  do 2 (apply safe_try; eapply safe_mono; [by apply safe_all_exist|done|]; intros [e|] ? _ ->; [done|]).
  apply safe_checked. eapply safe_mono; [apply safe_ensure_device|done|]. intros [n|e] v _; [|done]. intros (Hb1 & Ea & Ev & Em).
  apply safe_checked. replace (Members n) with (Members n0 ++ (v_device <$> []))%list.
  2: { rewrite app_nil_r. destruct Hb1 as ([] & _). by injection m_settings0. }
  eapply safe_mono; [apply safe_apply_vlans; [done|done|by rewrite Ev|by rewrite Ev]|done|].
  intros [[n2 desired]|e] v2 Hu2; [|done]. cbn [ok fst snd]. intros (Hb2 & -> & Ea2 & Em2 & Ed2). set (before := VLANs n2) in *.
  apply safe_checked. unfold Members_of. apply safe_checked. eapply built_inspect; [done|done|]. intros f Hf. apply safe_ret; [done|]. cbn [checked].
  apply safe_checked. eapply safe_mono; [apply safe_drop_members; [done|]|done|].
  { intros m. rewrite Em2. apply Em. }
  intros [n3|e] v3 _; [|done]. intros (Hb3 & Ea3 & Eap3 & Ed3 & Ev3).
  apply safe_checked. eapply safe_mono; [apply safe_add_members; [done|by rewrite Ev3]|done|].
  intros [n4|e] v4 _; [|done]. intros ((Hm4 & Hs4 & _) & Ea4 & Eap4 & Ed4 & Ev4).
  apply safe_checked. eapply safe_mono; [apply (safe_drop_vlans before); [done|]|done|].
  { intros b Hin. apply elem_of_app. right. by apply list_elem_of_fmap_2. }
  intros [n5|e] v5 _; [|done]. intros (Hb5 & Ea5 & Ed5).
  apply safe_checked. eapply safe_mono; [apply (safe_apply_address before); [done|congruence]|done|].
  intros [n6|e] v6 _; [|done]. intros Hb6. cbn [checked].
  apply safe_try. eapply safe_mono; [by apply (remaining_change before n6)|done|]. intros [e|] v7 Hu7 [Hm7 Hs7]; [done|].
  assert (ID n6 = ID n0) as Eid by (by apply same_id; destruct Hm7).
  assert (making before None n6 (with_manifest n6 v7) ∧ synced n6 (with_manifest n6 v7)) as [Hm8 Hs8].
  { split; [by apply making_saved|]. apply synced_saved. by destruct Hm7. }
  pose proof (making_unharmed _ _ _ _ Hm8 Hs8) as Hu8.
  eapply safe_mono; [apply safe_save; [done|done|]|done|]; [by intros; apply safe_ret|].
  intros [n8|e] v8 _; [|done]. intros [-> ->]. eapply making_applied; [done|]. cbn. rewrite Eid. apply lookup_insert_eq.
Qed.

Lemma safe_unharmed_up d v : unharmed v → safe (Up d) v unharmed (λ r v', manifests v' = manifests v ∧
  ((∀ i, i ∈ dom (ifaces v') → i ∈ dom (ifaces v)) ∧ refusing v' = refusing v)).
Proof using Hports.
  intros H. command as r v' Hr; [done|]. assert (v' = v ∨ (accepted (UpFlag d) v ∧ v' = effect (UpFlag d) v)) as [->|[Ha ->]].
  { destruct r; [done|]. by right. }
  - by split.
  - split; [by apply unharmed_effect|]. split_and!; [done| |done]. intros i. rewrite !elem_of_dom. by intros [? _]%(effect_some (UpFlag d)).
Qed.

(** Every interface that was made is known to the saved manifest, besides those that the host refused to destroy. *)
Definition known (v : host) : Prop := ∃ s, manifests v !! ID n0 = Some s ∧ ∀ i, unrecorded s v i → i ∈ refusing v.
Lemma known_stray s v : manifests v !! ID n0 = Some s → (∀ i, ¬ stray s v i) → known v.
Proof.
  intros Hs H. exists s. split; [done|]. intros i (H1 & H2 & H3). destruct (decide (i ∈ refusing v)); [done|]. by destruct (H i).
Qed.

Lemma known_start : known v0.
Proof using Hstored. apply (known_stray n0); [done|]. intros i ([f Hf] & Hn & _). unfold NetworkSafety.new in Hn. congruence. Qed.

Lemma start_unharmed : unharmed v0.
Proof using Hstored. by eapply built_unharmed, built_start. Qed.

Lemma safe_Load id (Q : NetworkManifest + string → host → Prop) : id = ID n0 → (∀ e, Q (inr e) v0) →
  (valid uuid hostname_rfc1123 ParseCIDR4 n0 = true → Q (inl n0) v0) → safe (Load uuid hostname_rfc1123 ParseCIDR4 id) v0 unharmed Q.
Proof using Hstored.
  intros -> H1 H2. pose proof start_unharmed as Hu. unfold Load. destruct (ValidateID _); [by apply safe_ret|].
  apply safe_checked. command as r v Hd; [done|]. destruct Hd as [-> Hd]. split; [done|]. destruct r as [n|e]; [|done].
  specialize (Hd n eq_refl). rewrite Hstored in Hd. injection Hd as <-.
  destruct (valid _ _ _ _) eqn:E; cbn [negb]; [|by apply safe_ret]. rewrite String.eqb_refl. by apply safe_ret; [|apply H2].
Qed.

Lemma safe_locked {A} (p : prog (A + string)) : safe p v0 unharmed (ok (λ _ : A, known)) → safe (locked p) v0 unharmed (ok (λ _, known)).
Proof using Hstored.
  intros H. pose proof start_unharmed as Hu. unfold locked. apply safe_try. command as r v Hd; [done|]. subst v. split; [done|].
  destruct r; [done|]. apply safe_bind. eapply safe_mono; [exact H|done|]. intros x v Hv Hx. apply safe_bind. command as c v' Hd; [done|].
  subst v'. split; [done|]. by apply safe_ret.
Qed.

Lemma valid_keys : valid uuid hostname_rfc1123 ParseCIDR4 n0 = true → NoDup (key <$> VLANs n0).
Proof.
  unfold valid, check. cbv zeta. rewrite !andb_true_iff. intros [_ [[_ H] _]]. unfold no_dup in H. apply bool_decide_eq_true in H.
  apply (NoDup_fmap_1 (λ k : string * Z, k.1 ++ ":" ++ pretty k.2)). revert H. cbn. rewrite <- list_fmap_compose.
  replace (vlan_key <$> (net_vlans (api n0) |?| [])) with ((λ w, vlan_key (api_vlan w)) <$> VLANs n0); [done|].
  cbn. unfold omit_list. destruct (VLANs n0); [done|]. cbn. by rewrite <- list_fmap_compose.
Qed.

Lemma safe_ensureVLAN n dryRun : ID n = ID n0 → safe (ensureVLAN uuid hostname_rfc1123 ParseCIDR4 n dryRun) v0 unharmed (ok (λ _, known)).
Proof using Hports Hstored addr_text.
  intros Eid. pose proof start_unharmed as Hu. unfold ensureVLAN. apply safe_locked, safe_checked. apply safe_Load; [done|done|]. intros _.
  destruct (decide (Mode n0 = ModeVlan)) as [Em|]; [rewrite bool_decide_eq_true_2 by done|rewrite bool_decide_eq_false_2 by done; by apply safe_ret].
  cbn [negb]. destruct dryRun; [apply safe_ret; [done|apply known_start]|].
  assert (tagging None v0) as Ht.
  { split_and!; [apply framed_refl|done|by intros i|]. intros i [f Hf] Hn. unfold NetworkSafety.new in Hn. congruence. }
  pose proof (λ X v, tagging_unharmed X v Hstored) as Htu.
  apply safe_bind. eapply (safe_exists tagging Htu); [done|]. intros [] _; cbn [negb]; [|by apply safe_ret].
  apply safe_checked. eapply safe_mono; [apply (safe_resolveVLAN tagging Htu tagging_effect tagging_create tagging_failed tagging_destroyed); [done|]|done|].
  { intros _. right. by left. }
  intros [[d o]|e] v1 Hu1; [|done]. intros [_ Hr]. cbn [fst snd] in *. set (n1 := with_device d o n0).
  assert (∃ X, tagging X v1 ∧ (X = None ∨ X = Some d) ∧ (o && negb (String.eqb d (Device n0)) = true → new d)) as (X & (Hf & Ema & Hw & Hn) & HX & Hnew).
  { destruct Hr as [[HJ Ho]|(HJ & Hnd & Ho)]; [exists None|exists (Some d)]; (split; [done|]); (split; [by eauto|]); [|done].
    intros [-> E%negb_true_iff%String.eqb_neq]%andb_true_iff. naive_solver. }
  assert (∀ v, unharmed v → manifests v = manifests (with_manifest n1 v1) → dom (ifaces v) ⊆ dom (ifaces v1) → refusing v = refusing v1 → known v) as Hknown.
  { intros v Hv Em1 Hdom Er. apply (known_stray n1); [rewrite Em1; apply lookup_insert_eq|]. intros i (H1 & H2 & H3 & H4).
    rewrite Er in H3. apply elem_of_dom, Hdom, elem_of_dom in H1. pose proof (Hn i H1 H2 H3) as ->. destruct HX as [?|[= ->]]; [done|]. by apply H4; left. }
  assert (unharmed (with_manifest n1 v1)) as Hu2.
  { split; [by eapply framed_ext, Hf| |].
    - intros id Hid. cbn. rewrite lookup_insert_ne by (unfold n1; cbn; congruence). by rewrite Ema.
    - exists n1. cbn. rewrite lookup_insert_eq. split_and!; [done..|]. apply one_unrecorded_stray. intros i j (H1 & H2 & H3 & _) (H4 & H5 & H6 & _).
      pose proof (Hn i H1 H2 H3) as E. rewrite (Hn j H4 H5 H6) in E. congruence. }
  apply safe_checked. eapply safe_mono; [apply safe_save; [done|done|]|done|].
  { intros v' Hv'. destruct (o && _) eqn:E; [|by apply safe_ret]. apply safe_any; [done|]. left. by apply Hnew. }
  intros [m|e] v2 _; [|done]. intros [-> ->]. cbn [checked].
  apply safe_try. eapply safe_mono; [by apply safe_unharmed_up|done|]. intros [e|] v3 Hu3 (Em3 & Hd3 & Er3); [done|].
  apply safe_try. eapply safe_mono; [by apply safe_unharmed_up|done|]. intros [e|] v4 Hu4 (Em4 & Hd4 & Er4); [done|].
  assert (manifests (with_manifest n1 v4) = manifests (with_manifest n1 v1)) as Em5.
  { cbn. rewrite Em4, Em3. cbn. by rewrite insert_insert_eq. }
  assert (dom (ifaces v4) ⊆ dom (ifaces v1)) as Hd5 by set_solver.
  assert (unharmed (with_manifest n1 v4)) as Hu5.
  { destruct Hu4 as [Hf4 Ho4 _]. split; [by eapply framed_ext, Hf4| |].
    - intros id Hid. cbn. rewrite lookup_insert_ne by (unfold n1; cbn; congruence). by apply Ho4.
    - exists n1. cbn. rewrite lookup_insert_eq. split_and!; [done..|]. apply one_unrecorded_stray. intros i j (H1 & H2 & H3 & H4) _. exfalso.
      cbn in *. rewrite Er4, Er3 in H3. apply elem_of_dom, Hd5, elem_of_dom in H1. pose proof (Hn i H1 H2 H3) as ->.
      destruct HX as [?|[= ->]]; [done|]. by apply H4; left. }
  eapply safe_mono; [apply safe_save; [done|done|]|done|]; [by intros; apply safe_ret|].
  intros [m|e] v5 Hv5; [|done]. intros [-> ->]. apply Hknown; [done|done|done|]. cbn. by rewrite Er4, Er3.
Qed.

Lemma safe_Ensure n dryRun : ID n = ID n0 →
  safe (Ensure ParseCIDR addr_text uuid hostname_rfc1123 ParseCIDR4 n dryRun) v0 unharmed (ok (λ _, known)).
Proof using Hports Hstored.
  intros Eid. pose proof start_unharmed as Hu. pose proof known_start as Hk.
  assert (safe (here ← Exists (Uplink n); Ret (if here : bool then inl n else inr ("physical uplink " ++ Uplink n ++ " is missing"))) v0 unharmed (ok (λ _, known))) as Hup.
  { apply safe_bind. command as r v Hd; [done|]. destruct Hd as [-> _]. split; [done|]. apply safe_ret; [done|]. by destruct r. }
  unfold Ensure. destruct (Mode n); [by apply safe_ret|done| |by apply safe_ret|done|by apply safe_ensureVLAN].
  apply safe_locked, safe_checked. apply safe_Load; [done|done|]. intros Hv. apply valid_keys in Hv.
  destruct (negb _); [by apply safe_ret|]. destruct dryRun; [by apply safe_ret|].
  eapply safe_mono; [by apply safe_ensure_bridge|done|]. intros [n'|e] v _; [|done]. intros [H1 H2]. by apply (known_stray n').
Qed.
End safety.

(** C4. Applying a network does no harm. Whatever [ifconfig], the files and the host answer, and wherever the process is
    killed: every interface that is not a VLAN the network made stays, with its kind, its configuration, its addresses
    and its members, but for the bridge of the network, which loses only members and addresses that the network
    applied and gains only those it asks for; the manifests of the other networks and what the user asked for are as
    before; and at most one interface that was made is not yet known to the saved manifest, none when the function
    has succeeded, besides those that the host was asked to destroy again and refused: the function ignores that
    answer, and such an interface stays without any manifest knowing it. *)
Theorem network_unharmed {M} `{!Machine cmd host documented M} ParseCIDR addr_text uuid hostname_rfc1123 ParseCIDR4 n n0 dryRun (m : M) :
  manifests (view m) !! ID n = Some n0 → ID n = ID n0 → ports_exist (view m) → refusing (view m) = ∅ →
  let run := Ensure ParseCIDR addr_text uuid hostname_rfc1123 ParseCIDR4 n dryRun in
  (∀ k, unharmed ParseCIDR n0 (view m) (view (killed k run m))) ∧
  unharmed ParseCIDR n0 (view m) (view (exec run m).2) ∧
  ∀ n', (exec run m).1 = inl n' → known n0 (view m) (view (exec run m).2).
Proof.
  intros Hs Eid Hp _ run. rewrite Eid in Hs.
  pose proof (safe_Ensure ParseCIDR n0 (view m) Hp uuid hostname_rfc1123 ParseCIDR4 Hs addr_text n dryRun Eid) as H. fold run in H. split.
  - intros k. by eapply safe_killed.
  - destruct (safe_exec _ _ _ _ H) as [H1 H2]. split; [done|]. intros n' E. by rewrite E in H2.
Qed.

(** ** A host in memory

    It names what it makes with the first free number, and refuses the changes [fails] says. *)

#[export] Instance is_port_of_dec m f : Decision (is_port_of m f).
Proof. unfold is_port_of. destruct (ikind f); apply _. Defined.

Definition accepts (c : change) (v : host) : bool :=
  match c with
  | Destroyed d | Alias d _ _ | Unalias d _ | UpFlag d => bool_decide (is_Some (ifaces v !! d))
  | Addm b m => bool_decide (is_Some (ifaces v !! b)) && bool_decide (is_Some (ifaces v !! m)) &&
                bool_decide (map_Forall (λ _ f, ¬ is_port_of m f) (ifaces v))
  | Deletem b m => match ifaces v !! b with Some f => bool_decide (is_port_of m f) | None => false end
  | Tagging d tag parent => bool_decide (ikind <$> ifaces v !! d = Some (Vlan None)) &&
                            bool_decide (map_Forall (λ _ f, ikind f ≠ Vlan (Some (parent, tag))) (ifaces v))
  end.
Lemma change_accepted c v : accepts c v = true → accepted c v.
Proof.
  destruct c as [d|d ip mask|d ip|d|b m|b m|d tag parent]; cbn; rewrite ?andb_true_iff, ?bool_decide_eq_true; try done.
  - intros [[H1 H2] H3]. split_and!; [done..|]. intros (i & f & Hf & Hp). by eapply H3.
  - destruct (ifaces v !! b) as [f|]; [|done]. rewrite bool_decide_eq_true. eauto.
  - intros [(f & Hf & E)%fmap_Some H]. split; [by exists f|]. intros e g Hg. by apply (H e).
Qed.

Section memory.
Context (fails : change → bool).

Definition first_free (kind : string) (v : host) : option string :=
  List.find (λ name, bool_decide (ifaces v !! name = None) && numbered kind name && test interface_re name)
    ((λ i : nat, kind ++ pretty i) <$> seq 0 64).

Definition memory_perform B (c : cmd B) (v : host) : B * host :=
  match c in cmd B return B * host with
  | InterfaceByName name => (bool_decide (is_Some (ifaces v !! name)), v)
  | Addrs name => (addrs <$> ifaces v !! name, v)
  | Interfaces => (inl (map_to_list (ifaces v)).*1, v)
  | Inspect d => (match ifaces v !! d with Some f => inl (show f) | None => inr "interface does not exist" end, v)
  | Create kind =>
      match first_free kind v with
      | Some name => (inl name, with_ifaces (<[name := new_iface kind]>) v)
      | None => (inr "SIOCIFCREATE: Device busy", v)
      end
  | Ifconfig c => if accepts c v && negb (fails c) then (None, effect c v) else (Some "ifconfig: failed", failed c v)
  | LockStore | CloseLock => (None, v)
  | ReadManifest id => (match manifests v !! id with Some n => inl n | None => inr "network not found" end, v)
  | WriteManifest n => (None, with_manifest n v)
  | ListManifests => (inl (map_to_list (manifests v)).*1, v)
  | RemoveManifest id => (None, without_manifest id v)
  end.

#[export, program] Instance memory_host : Machine cmd host documented host := { perform := memory_perform; view := id }.
Next Obligation.
  intros B c v. destruct c as [name|name| |d|kind|c| | |id|n| |id]; cbn -[first_free accepts]; try done.
  - split; [done|]. apply bool_decide_eq_true.
  - split; [done|]. intros l (f & Hf & ->)%fmap_Some. by exists f.
  - split; [done|]. by intros l [= <-].
  - split; [by destruct (ifaces v !! d)|]. intros s E. destruct (ifaces v !! d) as [f|]; [|done]. injection E as <-. by exists f.
  - destruct (first_free kind v) as [name|] eqn:E; cbn -[first_free]; [|by left]. apply List.find_some in E as [_ E]. rewrite !andb_true_iff, bool_decide_eq_true in E.
    destruct E as [[H1 H2] H3]. by split_and!.
  - destruct (accepts c v && _) eqn:E; cbn; [|by left]. apply andb_true_iff in E as [E _]. split; [by apply change_accepted|done].
  - split; [by destruct (manifests v !! id)|]. intros n E. destruct (manifests v !! id); [by injection E as ->|done].
  - split; [done|]. by intros l [= <-].
Qed.
End memory.

Definition sample_cidr (s : string) : option (string * option string) :=
  if String.eqb s "10.0.0.1/24" then Some ("10.0.0.1", Some "0xffffff00") else None.
Definition sample_text (ip mask : string) : string := ip ++ "/24".
Definition sample_network : NetworkManifest :=
  mkManifest "n1" "lab" ModeBridge "" "" 0 "" "10.0.0.1/24" "" ["en1"] [mkVlan false "en0" 10 ""] false [] "" [].
Definition sample_port : iface := mkIface Port true [].
Definition sample_host : host :=
  mkHost {["en0" := sample_port; "en1" := sample_port]} {["n1" := sample_network]} ∅.
Definition sample_run (n : NetworkManifest) := Ensure sample_cidr sample_text (λ _, true) (λ _, true) (λ _, true) n false.

Lemma sample_ports : ports_exist sample_host.
Proof.
  intros i f p m Hf E _. cbn in Hf. apply lookup_insert_Some in Hf as [[_ <-]|[_ Hf]]; [done|]. apply lookup_singleton_Some in Hf as [_ <-]. done.
Qed.

(** The host refuses the address: what was made is known to the manifest, and nothing else has changed. *)
Definition no_alias (c : change) : bool := match c with Alias _ _ _ => true | _ => false end.

Lemma network_unharmed_witness :
  let out := exec (Machine0 := memory_host no_alias) (sample_run sample_network) sample_host in
  out.1 = inr "ifconfig: failed" ∧ ikind <$> ifaces out.2 !! "bridge0" = Some (Bridge ["en1"; "vlan0"]) ∧
  unharmed sample_cidr sample_network sample_host out.2.
Proof.
  intros out. split; [vm_compute; reflexivity|]. split; [vm_compute; reflexivity|].
  exact (proj1 (proj2 (network_unharmed (Machine0 := memory_host no_alias) sample_cidr sample_text (λ _, true) (λ _, true) (λ _, true)
    sample_network sample_network false sample_host eq_refl eq_refl sample_ports eq_refl))).
Defined.

(** ** What is left behind *)

(** The host refuses to configure the VLAN interface it made, and then to destroy it: the error is returned, the interface
    stays, the saved manifest does not know of it, and applying the network again leaves another one. *)
Definition no_tagging (c : change) : bool := match c with Tagging _ _ _ | Destroyed _ => true | _ => false end.
Lemma refused_left_behind :
  let first := exec (Machine0 := memory_host no_tagging) (sample_run sample_network) sample_host in
  let second := exec (Machine0 := memory_host no_tagging) (sample_run sample_network) first.2 in
  first.1 = inr "ifconfig: failed" ∧ second.1 = inr "ifconfig: failed" ∧
  is_Some (ifaces second.2 !! "vlan0") ∧ is_Some (ifaces second.2 !! "vlan1") ∧ AppliedVLANs <$> manifests second.2 !! "n1" = Some [].
Proof. split_and!; try (vm_compute; reflexivity); by eexists; vm_compute. Qed.

(** ** What goes wrong

    The names of the devices are given by the host, lowest number first, and trusted by the manifest. When the VLANs
    of a network were not made in the order the manifest lists them, as after a VLAN was put before the others, they
    come back with each other's names after the host was restarted: the second one then finds its name taken by the
    first, and every further attempt fails. *)

Definition quiet_host : change → bool := λ _, false.
Definition on_quiet {A} (p : prog A) (v : host) : A * host := exec (Machine0 := memory_host quiet_host) p v.

Definition one_vlan : NetworkManifest :=
  mkManifest "n1" "lab" ModeBridge "" "" 0 "" "" "" [] [mkVlan false "en0" 20 ""] false [] "" [].
(** What [UpdateNetwork] saves for the VLANs [l]. *)
Definition updated_vlans (l : list (string * Z)) (n : NetworkManifest) : NetworkManifest :=
  with_vlans ((λ k, mkVlan false k.1 k.2 "") <$> l) n.
(** A restart leaves the ports and the files. *)
Definition restarted (v : host) : host := mkHost (filter (λ p, ikind p.2 = Port) (ifaces v)) (manifests v) ∅.

Lemma restart_breaks_network :
  let v0 := mkHost {["en0" := sample_port]} {["n1" := one_vlan]} ∅ in
  let '(made, v1) := on_quiet (sample_run one_vlan) v0 in
  let n1 := match made with inl n => updated_vlans [("en0", 10%Z); ("en0", 20%Z)] n | inr _ => one_vlan end in
  let '(edited, v2) := on_quiet (sample_run n1) (with_manifest n1 v1) in
  let first := on_quiet (sample_run n1) (restarted v2) in
  let again := on_quiet (sample_run n1) first.2 in
  let error := "VLAN vlan0 already has different configuration; recreate it to change its parent or tag" in
  (∃ n, edited = inl n) ∧ first.1 = inr error ∧ again.1 = inr error.
Proof. vm_compute. split_and!; [by eexists|done|done]. Qed.

(** An address that the manifest does not write the way the host shows it is set, and never taken back. *)
Lemma odd_address_stays ParseCIDR addr_text device address (v : host) f : (∀ a, a ∈ addrs f → addr_text a.1 a.2 ≠ address) →
  ifaces v !! device = Some f → exec (Machine0 := memory_host quiet_host) (RemoveAddress ParseCIDR addr_text device address) v = (None, v).
Proof.
  intros H Hf. unfold RemoveAddress, HasAddress. cbn. rewrite Hf. cbn.
  replace (existsb _ (addrs f)) with false; [done|]. symmetry. apply not_true_iff_false. intros E. apply existsb_exists in E as (a & Hin & Ea).
  apply String.eqb_eq in Ea. by apply (H a); [apply list_elem_of_In|].
Qed.

(** The tag of a VLAN network that the server made may be changed, but its interface is not made again: applying
    fails for good. *)
Definition retagged : NetworkManifest := mkManifest "n1" "lab" ModeVlan "" "en0" 20 "" "" "vlan0" [] [] true [] "" [].
Lemma retagged_network_fails :
  let v := mkHost {["en0" := sample_port; "vlan0" := mkIface (Vlan (Some ("en0", 10%Z))) true []]} {["n1" := retagged]} ∅ in
  (on_quiet (sample_run retagged) v).1 = inr "VLAN vlan0 already has different configuration; recreate it to change its parent or tag" ∧
  ifaces (on_quiet (sample_run retagged) v).2 = ifaces v.
Proof. split; vm_compute; reflexivity. Qed.

(** An address that was set is not recorded when what follows fails, here bringing the bridge up, and deleting the
    network then leaves it on a bridge that was there before. *)
Definition on_existing : NetworkManifest :=
  mkManifest "n1" "lab" ModeBridge "" "" 0 "" "10.0.0.1/24" "bridge9" [] [] false [] "" [].
Definition no_up (c : change) : bool := match c with UpFlag _ => true | _ => false end.
Lemma address_left_behind :
  let v := mkHost {["bridge9" := mkIface (Bridge []) true []]} {["n1" := on_existing]} ∅ in
  let out := exec (Machine0 := memory_host no_up) (create_network sample_cidr sample_text (λ _, true) (λ _, true) (λ _, true) on_existing) v in
  out.1 = inr "apply network: ifconfig: failed" ∧ manifests out.2 !! "n1" = None ∧
  addrs <$> ifaces out.2 !! "bridge9" = Some [("10.0.0.1", "0xffffff00")].
Proof. split_and!; vm_compute; reflexivity. Qed.

(** A VLAN that was there and is also listed as a member is added twice, and the second time fails. *)
Definition listed_twice : NetworkManifest :=
  mkManifest "n1" "lab" ModeBridge "" "" 0 "" "" "" ["vlan3"] [mkVlan false "en0" 10 ""] false [] "" [].
Lemma member_twice_fails :
  let v := mkHost {["en0" := sample_port; "vlan3" := mkIface (Vlan (Some ("en0", 10%Z))) true []]} {["n1" := listed_twice]} ∅ in
  (on_quiet (sample_run listed_twice) v).1 = inr "ifconfig: failed".
Proof. vm_compute. reflexivity. Qed.
