(* ===== verification/NetworkConverges.v ===== *)
(** * What applying a network achieves

    On a host that carries out what it accepts, a network whose manifest is valid is made as the manifest says, and
    applying it again changes nothing. *)

From stdpp Require Import sorting.
From S2P Require Import Prelude JsString Regex Types CreateNetwork Storage HostNetwork NetworkSafety Programs.
From S2P Require Json.
Local Open Scope string_scope.

Notation prog := (Programs.prog cmd).

(** ** Manifests of bridges that are valid *)

Lemma omit_list_get {A} (l : list A) : omit_list l |?| [] = l.
Proof. by destruct l. Qed.
Lemma omitempty_get s : omitempty s |?| "" = s.
Proof. unfold omitempty. destruct s; done. Qed.
Lemma omitempty_absent s : absent (omitempty s) = negb (truthy s).
Proof. unfold absent. by rewrite omitempty_get. Qed.
Lemma api_vlan_inj a b : api_vlan a = api_vlan b → a = b.
Proof.
  destruct a as [ba pa ta da], b as [bb pb tb db]. unfold api_vlan, omitempty. cbn. intros [= E1 E2 E3 E4].
  assert (ba = bb) as -> by (by destruct ba, bb). f_equal; [done..|]. destruct da, db; cbn in E2; congruence.
Qed.

Definition key_text (k : string * Z) : string := k.1 ++ ":" ++ pretty k.2.
Definition key_ok (k : string * Z) : Prop := truthy k.1 = true ∧ (1 <= k.2 <= 4094)%Z.
Definition interface_ok (s : string) : Prop := test interface_re s = true.

Section valid.
Context (uuid hostname_rfc1123 ParseCIDR4 : string → bool).
Notation valid := (valid uuid hostname_rfc1123 ParseCIDR4).
Notation address_ok a := (a = "" ∨ ParseCIDR4 a = true).

(** What depends on the settings alone, and what applying the network changes. *)
Definition settings_ok (n : NetworkManifest) : Prop :=
  uuid (ID n) = true ∧ hostname_rfc1123 (Name n) = true ∧ Uplink n = "" ∧ Parent n = "" ∧ Tag n = 0%Z ∧ address_ok (Address n) ∧
  NoDup (Members n) ∧ NoDup (key_text <$> (key <$> VLANs n)) ∧ Forall key_ok (key <$> VLANs n) ∧
  Forall interface_ok (Members n) ∧ Forall interface_ok ((key <$> VLANs n).*1).
Definition applied_ok (n : NetworkManifest) : Prop :=
  address_ok (AppliedAddress n) ∧
  (Device n = "" ∨ (numbered "bridge" (Device n) = true ∧ interface_ok (Device n) ∧ Device n ∉ Members n)) ∧
  (∀ a, a ∈ AppliedVLANs n → key_ok (key a) ∧ numbered "vlan" (v_device a) = true) ∧
  (∀ w, w ∈ VLANs n → v_device w = "" ∨ (w ∈ AppliedVLANs n ∧ interface_ok (v_device w))) ∧
  Forall interface_ok (AppliedMembers n).


Lemma vlans_ok l : forallb vlan_ok (api_vlan <$> l) = true ↔ Forall key_ok (key <$> l).
Proof.
  rewrite Forall_fmap, Forall_forall, forallb_forall. setoid_rewrite <- list_elem_of_In. setoid_rewrite list_elem_of_fmap.
  assert (∀ w, vlan_ok (api_vlan w) = true ↔ key_ok (key w)) as E.
  { intros w. unfold vlan_ok, key_ok. cbn. rewrite !andb_true_iff, !Z.leb_le. tauto. }
  split; [intros H w Hw; apply E, H; eauto|]. intros H x (w & -> & Hw). by apply E, H.
Qed.
Lemma api_device w : vlan_device (api_vlan w) |?| "" = v_device w.
Proof. apply omitempty_get. Qed.
Lemma devices_ok l : forallb (λ v, numbered "vlan" (vlan_device v |?| "")) (api_vlan <$> l) = true ↔ ∀ a, a ∈ l → numbered "vlan" (v_device a) = true.
Proof.
  rewrite forallb_forall. setoid_rewrite <- list_elem_of_In. setoid_rewrite list_elem_of_fmap. split.
  - intros H a Ha. specialize (H (api_vlan a) ltac:(eauto)). by rewrite api_device in H.
  - intros H x (a & -> & Ha). rewrite api_device. by apply H.
Qed.
Lemma assigned_ok l applied :
  forallb (λ v, absent (vlan_device v) || existsb (λ w, bool_decide (w = v)) (api_vlan <$> applied)) (api_vlan <$> l) = true ↔
  ∀ w, w ∈ l → v_device w = "" ∨ w ∈ applied.
Proof.
  assert (∀ w, absent (vlan_device (api_vlan w)) || existsb (λ a, bool_decide (a = api_vlan w)) (api_vlan <$> applied) = true ↔ v_device w = "" ∨ w ∈ applied) as E.
  { intros w. cbn. rewrite omitempty_absent, orb_true_iff, negb_true_iff, truthy_false, existsb_exists. setoid_rewrite <- list_elem_of_In.
    setoid_rewrite bool_decide_eq_true. split; (intros [H|H]; [by left|right]).
    - destruct H as (x & (a & -> & Ha)%list_elem_of_fmap & ->%api_vlan_inj). done.
    - exists (api_vlan w). split; [by apply list_elem_of_fmap_2|done]. }
  rewrite forallb_forall. setoid_rewrite <- list_elem_of_In. setoid_rewrite list_elem_of_fmap.
  split; [intros H w Hw; apply E, H; eauto|]. intros H x (w & -> & Hw). by apply E, H.
Qed.
Lemma keys_ok l : no_dup (vlan_key <$> (api_vlan <$> l)) = true ↔ NoDup (key_text <$> (key <$> l)).
Proof. unfold no_dup. rewrite bool_decide_eq_true. by rewrite <- !list_fmap_compose. Qed.

Lemma named_vlans_ok l :
  Forall interface_ok (flat_map (λ v, vlan_parent v :: (if absent (vlan_device v) then [] else [vlan_device v |?| ""])) (api_vlan <$> l)) ↔
  Forall interface_ok ((key <$> l).*1) ∧ ∀ w, w ∈ l → v_device w = "" ∨ interface_ok (v_device w).
Proof.
  induction l as [|w l IH]; cbn [flat_map fmap list_fmap]; [split; [by split; [|intros w ?%elem_of_nil]|constructor]|].
  rewrite Forall_app, !Forall_cons, IH, api_device.
  replace (absent (vlan_device (api_vlan w))) with (negb (truthy (v_device w))) by (symmetry; apply omitempty_absent).
  setoid_rewrite elem_of_cons.
  assert (Forall interface_ok (if negb (truthy (v_device w)) then [] else [v_device w]) ↔ v_device w = "" ∨ interface_ok (v_device w)) as ->.
  { destruct (truthy (v_device w)) eqn:E; cbn [negb]; [|apply truthy_false in E; by split; [left|constructor]].
    rewrite Forall_singleton. apply truthy_true in E. tauto. }
  cbn. naive_solver.
Qed.
Lemma named_ok n : Uplink n = "" → Parent n = "" →
  forallb (test interface_re) (named_interfaces (api n)) = true ↔
  Forall interface_ok (Members n) ∧ Forall interface_ok ((key <$> VLANs n).*1) ∧ Forall interface_ok (AppliedMembers n) ∧
  (∀ w, w ∈ VLANs n → v_device w = "" ∨ interface_ok (v_device w)) ∧ (Device n = "" ∨ interface_ok (Device n)).
Proof.
  intros Eu Ep. rewrite forallb_forall. unfold named_interfaces, api. cbn [net_mode net_vlans net_members net_name
    net_applied_vlans net_address net_applied_members net_group net_uplink net_parent net_tag net_device].
  rewrite !omit_list_get, !omitempty_get, !omitempty_absent, Eu, Ep. etransitivity; [symmetry; apply List.Forall_forall|].
  fold interface_ok. rewrite !Forall_app, named_vlans_ok.
  assert (Forall interface_ok (if negb (truthy (Device n)) then [] else [Device n]) ↔ Device n = "" ∨ interface_ok (Device n)) as ->.
  { destruct (truthy (Device n)) eqn:E; cbn [negb]; [|apply truthy_false in E; by split; [left|constructor]].
    rewrite Forall_singleton. apply truthy_true in E. tauto. }
  cbn. rewrite !Forall_nil. tauto.
Qed.

Lemma valid_bridge n : Mode n = ModeBridge → valid n = true ↔ settings_ok n ∧ applied_ok n.
Proof.
  intros Em. unfold HostNetwork.valid, check. cbv zeta.
  assert (net_mode (api n) = ModeBridge) as -> by done.
  repeat match goal with |- context [bool_decide (ModeBridge = ?m)] =>
    (rewrite (bool_decide_eq_true_2 (ModeBridge = m)) by reflexivity) || (rewrite (bool_decide_eq_false_2 (ModeBridge = m)) by discriminate) end.
  cbn [negb orb andb implies Bool.eqb forallb].
  cbn [net_mode net_vlans net_members net_name net_applied_vlans net_address net_applied_address net_applied_members net_group net_uplink net_parent net_tag net_device api].
  rewrite !omit_list_get, !omitempty_get, !omitempty_absent, !andb_true_iff, devices_ok, assigned_ok, keys_ok.
  assert (∀ t, negb (truthy t) = true ↔ t = "") as Et by (intros t; by rewrite negb_true_iff, truthy_false).
  assert ((if negb (negb (truthy (Uplink n))) then false else true) = true ↔ Uplink n = "") as -> by (rewrite negb_involutive; by destruct (Uplink n)).
  assert (((if Tag n =? 0 then None else Some (Tag n)) |?| 0 =? 0)%Z = true ↔ Tag n = 0%Z) as ->.
  { destruct (Z.eqb_spec (Tag n) 0) as [->|Hne]; [done|]. cbn. by rewrite Z.eqb_eq. }
  rewrite <- fmap_app, vlans_ok, fmap_app, Forall_app, !orb_true_iff, !Et, negb_true_iff, includes_str_false.
  unfold settings_ok, applied_ok, no_dup. rewrite bool_decide_eq_true.
  assert (Forall key_ok (key <$> AppliedVLANs n) ↔ ∀ a, a ∈ AppliedVLANs n → key_ok (key a)) as -> by by rewrite Forall_fmap, Forall_forall.
  assert ("" ∈ Members n → ¬ Forall interface_ok (Members n)) as Hempty by (intros H1 H2; rewrite Forall_forall in H2; by apply H2 in H1).
  split.
  - intros (H1 & [[[[[[[[[[[H2 [H3 H4]] [H5 [H6 _]]] _] H7] [H8 H9]] H10] H11] H12] H13] H14] H15] & H16).
    apply named_ok in H16 as (N1 & N2 & N3 & N4 & N5); [|done..]. split; (split_and!; try done).
    + destruct H10 as [?|?]; [by left|]. destruct N5 as [?|?]; [by left|]. by right.
    + intros a Ha. split; [by apply H4|by apply H11].
    + intros w Hw. destruct (H12 w Hw) as [?|?]; [by left|]. destruct (N4 w Hw) as [?|?]; [by left|]. by right.
  - intros ((H1 & H2 & H3 & H4 & H5 & H6 & H7 & H8 & H9 & H10 & H11) & H12 & H13 & H14 & H15 & H16).
    assert (Forall interface_ok (Members n) ∧ Forall interface_ok ((key <$> VLANs n).*1) ∧ Forall interface_ok (AppliedMembers n) ∧
      (∀ w, w ∈ VLANs n → v_device w = "" ∨ interface_ok (v_device w)) ∧ (Device n = "" ∨ interface_ok (Device n))) as Hn.
    { split_and!; try done; [intros w Hw; destruct (H15 w Hw) as [?|[? ?]]; tauto|tauto]. }
    apply named_ok in Hn; [|done..].
    split_and!; try done; [by intros a Ha; apply H14|tauto|by intros a Ha; apply H14|intros w Hw; destruct (H15 w Hw) as [?|[? ?]]; tauto|].
    destruct H13 as [->|(_ & _ & ?)]; [|done]. intros Hin. by apply Hempty.
Qed.
End valid.

(** ** A host that does what it accepts

    It answers what is asked of it, carries out what it accepts, and makes an interface when one of the first
    sixty-four names of its kind is free. *)

Definition answered B (c : cmd B) : B → host → Prop :=
  match c in cmd B return B → host → Prop with
  | InterfaceByName name => λ r v, r = bool_decide (is_Some (ifaces v !! name))
  | Addrs name => λ r v, r = addrs <$> ifaces v !! name
  | Interfaces => λ r v, ∃ l, r = inl l
  | Inspect d => λ r v, is_Some (ifaces v !! d) → ∃ s, r = inl s
  | Create kind => λ r v, first_free kind v ≠ None → ∃ name, r = inl name
  | Ifconfig c => λ r v, accepted c v → r = None
  | ReadManifest id => λ r v, ∀ n, manifests v !! id = Some n → r = inl n
  | LockStore | CloseLock | WriteManifest _ | RemoveManifest _ => λ r _, r = None
  | ListManifests => λ r v, ∃ l, r = inl l
  end.
Definition reliable B (c : cmd B) (r : B) (v v' : host) : Prop := documented B c r v v' ∧ answered B c r v.

Notation wp := (wp reliable).

Section rules.
Implicit Types v : host.

Lemma wp_ifconfig c v (Q : option string → host → Prop) : accepted c v → Q None (effect c v) → wp (ask (Ifconfig c)) v Q.
Proof. intros Ha HQ. command as r v' Hd; [done|]. destruct Hd as [Hd Hr]. rewrite (Hr Ha) in *. destruct Hd as [_ ->]. done. Qed.

Lemma wp_exists name v (Q : bool → host → Prop) : Q (bool_decide (is_Some (ifaces v !! name))) v → wp (Exists name) v Q.
Proof. intros HQ. command as r v' Hd; [done|]. destruct Hd as [[-> _] ->]. done. Qed.
Lemma wp_exists_true name v (Q : bool → host → Prop) : is_Some (ifaces v !! name) → Q true v → wp (Exists name) v Q.
Proof. intros H HQ. apply wp_exists. by rewrite bool_decide_eq_true_2. Qed.

Lemma wp_inspect d f v (Q : shown + string → host → Prop) : ifaces v !! d = Some f → Q (inl (show f)) v → wp (inspect d) v Q.
Proof.
  intros Hf HQ. command as r v' Hd; [done|]. destruct Hd as [[-> Hd] Hr]. destruct (Hr ltac:(by rewrite Hf)) as [s ->].
  destruct (Hd s eq_refl) as (f' & Hf' & ->). split; [done|]. congruence.
Qed.

Lemma wp_HasAddress addr_text d a f v (Q : bool → host → Prop) : ifaces v !! d = Some f →
  Q (existsb (λ b : string * string, String.eqb (addr_text b.1 b.2) a) (addrs f)) v → wp (HasAddress addr_text d a) v Q.
Proof.
  intros Hf HQ. unfold HasAddress. apply safe_bind. command as r v' Hd; [done|]. destruct Hd as [[-> _] Hr]. cbn in Hr. rewrite Hf in Hr. cbn in Hr. subst r.
  split; [done|]. by apply safe_ret.
Qed.
End rules.

(** ** What the manifest and the host have in common while a bridge is being made *)

(** A VLAN has a name of its kind, and no two carry the same traffic. *)
Record sane (v : host) : Prop := {
  sane_ports : ports_exist v;
  sane_keys : ∀ i j k, carries v i k → carries v j k → i = j;
  sane_names : ∀ i k, carries v i k → named "vlan" i;
  sane_blank : ifaces v !! "" = None
}.

Definition desired (n : NetworkManifest) : list string := (Members n ++ (v_device <$> VLANs n))%list.

Definition made_vlan (d : string) (k : string * Z) : host → host := with_ifaces (<[d := mkIface (Vlan (Some k)) false []]>).

Lemma made_carries d k v i k' : ifaces v !! d = None → carries (made_vlan d k v) i k' ↔ carries v i k' ∨ (i = d ∧ k' = k).
Proof.
  intros Hd. unfold carries, made_vlan. cbn. destruct (decide (i = d)) as [->|Hne].
  - rewrite lookup_insert_eq, Hd. naive_solver.
  - rewrite lookup_insert_ne by done. naive_solver.
Qed.

Lemma destroyed_lookup d v i : ifaces (effect (Destroyed d) v) !! i = if decide (i = d) then None else without_port d <$> ifaces v !! i.
Proof. rewrite effect_lookup. repeat case_decide; congruence || done. Qed.
Lemma destroyed_carries d v i k : carries (effect (Destroyed d) v) i k ↔ carries v i k ∧ i ≠ d.
Proof.
  unfold carries. setoid_rewrite destroyed_lookup. case_decide as E; [split; [by intros (f & ? & _)|tauto]|]. split.
  - intros (f & (g & Hg & ->)%fmap_Some & Ek). split; [|done]. exists g. split; [done|]. unfold without_port in Ek.
    destruct (ikind g) eqn:Eg; cbn in Ek; congruence.
  - intros [(f & Hf & Ek) _]. exists (without_port d f). rewrite Hf. split; [done|]. unfold without_port. by rewrite Ek.
Qed.
Lemma destroyed_port d v b f m : ifaces (effect (Destroyed d) v) !! b = Some f → is_port_of m f → ∃ g, ifaces v !! b = Some g ∧ is_port_of m g ∧ m ≠ d.
Proof.
  rewrite destroyed_lookup. case_decide; [done|]. intros (g & Hg & ->)%fmap_Some Hp. exists g. split; [done|].
  unfold is_port_of, without_port in *. destruct (ikind g) eqn:Eg; cbn in Hp; rewrite ?Eg in Hp; try done. by apply list_elem_of_filter in Hp as [? ?].
Qed.

(** The entries of [d] leave the manifest, and [d] the host. *)
Definition forget_vlan (d : string) (n : NetworkManifest) : NetworkManifest :=
  with_applied_vlans (List.filter (λ w, negb (String.eqb (v_device w) d)) (AppliedVLANs n)) n.
Lemma in_forget_vlan a d n : a ∈ AppliedVLANs (forget_vlan d n) ↔ a ∈ AppliedVLANs n ∧ v_device a ≠ d.
Proof. cbn. by rewrite list_elem_of_In, filter_In, <- list_elem_of_In, negb_true_iff, String.eqb_neq. Qed.

Lemma desired_device n w : w ∈ VLANs n → v_device w ∈ desired n.
Proof. intros H. apply elem_of_app. right. by apply list_elem_of_fmap_2. Qed.

Section converge.
Context (uuid hostname_rfc1123 ParseCIDR4 : string → bool).
Notation valid := (valid uuid hostname_rfc1123 ParseCIDR4).

(** The bridge and what is asked for it exist; the VLANs that were applied are there; and nothing that is asked for
    is a member of another bridge, or both a member and a VLAN. *)
Record going (n : NetworkManifest) (v : host) : Prop := {
  g_sane : sane v;
  g_valid : valid n = true;
  g_id : ValidateID (ID n) = None;
  g_mode : Mode n = ModeBridge;
  g_bridge : ∃ f p, ifaces v !! Device n = Some f ∧ ikind f = Bridge p;
  g_members : ∀ m, m ∈ Members n → is_Some (ifaces v !! m);
  g_parents : ∀ k, k ∈ key <$> VLANs n → is_Some (ifaces v !! k.1) ∧ ∀ k', ¬ carries v k.1 k';
  g_applied : ∀ a, a ∈ AppliedVLANs n → carries v (v_device a) (key a);
  g_free : ∀ m b f, wanted n v m → ifaces v !! b = Some f → is_port_of m f → b = Device n;
  g_apart : ∀ m k, carries v m k → k ∈ key <$> VLANs n ∨ k ∈ key <$> AppliedVLANs n → m ∉ Members n
}.

(** The changes that keep all this. *)
Definition benign (n : NetworkManifest) (c : change) : Prop :=
  match c with
  | UpFlag _ | Alias _ _ _ | Unalias _ _ => True
  | Addm b _ | Deletem b _ => b = Device n
  | Destroyed _ | Tagging _ _ _ => False
  end.

Lemma benign_lookup n c v i : benign n c → ifaces (effect c v) !! i = edit c i <$> ifaces v !! i.
Proof. intros H. rewrite effect_lookup, decide_False; [done|]. by intros ->. Qed.
Lemma benign_some n c v i : benign n c → is_Some (ifaces (effect c v) !! i) ↔ is_Some (ifaces v !! i).
Proof. intros H. rewrite (benign_lookup n) by done. apply fmap_is_Some. Qed.
Lemma benign_vlan n c i f k : benign n c → ikind (edit c i f) = Vlan k ↔ ikind f = Vlan k.
Proof.
  intros H. destruct c; cbn in *; try done; case_decide; try done; unfold with_port, without_port; by destruct (ikind f) eqn:E; rewrite ?E.
Qed.
Lemma benign_carries n c v i k : benign n c → carries (effect c v) i k ↔ carries v i k.
Proof.
  intros H. unfold carries. setoid_rewrite (benign_lookup n); [|done]. split.
  - intros (f & (g & Hg & ->)%fmap_Some & E). exists g. split; [done|]. by apply (benign_vlan n c i g).
  - intros (f & Hf & E). exists (edit c i f). rewrite Hf. split; [done|]. by apply (benign_vlan n c i f).
Qed.
Lemma benign_wanted n c v m : benign n c → wanted n (effect c v) m ↔ wanted n v m.
Proof. intros H. unfold wanted. by setoid_rewrite (benign_carries n c v); [|done]. Qed.
Lemma benign_port n c v b f m : benign n c → ifaces (effect c v) !! b = Some f → is_port_of m f →
  b = Device n ∨ ∃ g, ifaces v !! b = Some g ∧ is_port_of m g.
Proof.
  intros H. rewrite (benign_lookup n) by done. intros (g & Hg & ->)%fmap_Some Hp.
  destruct c as [d|d ip mask|d ip|d|b' m'|b' m'|d tag parent]; cbn in *; try done; case_decide; subst; try (by left); right; by exists g.
Qed.
Lemma benign_bridge n c i f p : benign n c → ikind f = Bridge p → ∃ p', ikind (edit c i f) = Bridge p'.
Proof.
  intros H E. destruct c; cbn in *; try done; case_decide; eauto; unfold with_port, without_port; rewrite E; cbn; eauto.
Qed.

(** The ports of the bridge. *)
Definition ports (n : NetworkManifest) (v : host) (m : string) : Prop := ∃ f, ifaces v !! Device n = Some f ∧ is_port_of m f.

Lemma sane_benign n c v : accepted c v → benign n c → sane v → sane (effect c v).
Proof.
  intros Ha Hb []. split.
  - intros i f p m. rewrite (benign_lookup n) by done. intros (g & Hg & ->)%fmap_Some E Hin. rewrite (benign_some n) by done.
    destruct (ikind g) as [q| |] eqn:Eg.
    2-3: destruct c; cbn in *; try done; repeat case_decide; unfold with_port, without_port in *; cbn in E; rewrite ?Eg in E; cbn in E; congruence.
    assert (m ∈ q ∨ c = Addm i m) as [Hq| ->]; [|by eapply sane_ports0|by destruct Ha as (_ & ? & _)].
    destruct c as [d|d ip mask|d ip|d|b' m'|b' m'|d tag parent]; cbn in *; try done; case_decide; subst; unfold with_port, without_port in E; cbn in E; rewrite ?Eg in E; cbn in E;
      injection E as <-; try (by left); [apply elem_of_app in Hin as [?| ->%list_elem_of_singleton]; [by left|by right]|].
    left. by apply list_elem_of_filter in Hin as [_ ?].
  - intros i j k. rewrite !(benign_carries n) by done. apply sane_keys0.
  - intros i k. rewrite (benign_carries n) by done. apply sane_names0.
  - by rewrite (benign_lookup n), sane_blank0 by done.
Qed.

Lemma going_benign n c v : accepted c v → benign n c → going n v → going n (effect c v).
Proof.
  intros Ha Hb []. split; try done.
  - by eapply sane_benign.
  - destruct g_bridge0 as (f & p & Hf & Ep). exists (edit c (Device n) f). destruct (benign_bridge n c (Device n) f p Hb Ep) as [p' E].
    exists p'. by rewrite (benign_lookup n), Hf by done.
  - intros m Hm. rewrite (benign_some n) by done. by apply g_members0.
  - intros k Hk. rewrite (benign_some n) by done. setoid_rewrite (benign_carries n c v); [|done]. by apply g_parents0.
  - intros a Hin. rewrite (benign_carries n) by done. by apply g_applied0.
  - intros m b f. rewrite (benign_wanted n) by done. intros Hw Hf Hp. destruct (benign_port n c v b f m Hb Hf Hp) as [?|(g & Hg & Hpg)]; [done|].
    by eapply g_free0.
  - intros m k. rewrite (benign_carries n) by done. apply g_apart0.
Qed.

Lemma carries_ext v v' i k : ifaces v' = ifaces v → carries v' i k ↔ carries v i k.
Proof. unfold carries. by intros ->. Qed.
Lemma going_ext n v v' : ifaces v' = ifaces v → going n v → going n v'.
Proof.
  intros E [[] ? ? ? ? ? ? ? ? ?]. assert (∀ i k, carries v' i k ↔ carries v i k) as Ec by (intros; by apply carries_ext).
  split; try done; rewrite ?E; try done.
  - split; [unfold ports_exist; by setoid_rewrite E|by setoid_rewrite Ec|by setoid_rewrite Ec|by rewrite E].
  - by setoid_rewrite Ec.
  - by setoid_rewrite Ec.
  - intros m b f Hw. apply g_free0. unfold wanted in *. by setoid_rewrite Ec in Hw.
  - by setoid_rewrite Ec.
Qed.

Lemma wp_save_or {A} n (undo : prog A) v (Q : NetworkManifest + string → host → Prop) : valid n = true → ValidateID (ID n) = None →
  Q (inl n) (with_manifest n v) → wp (save_or uuid hostname_rfc1123 ParseCIDR4 n undo) v Q.
Proof.
  intros Hv Hid HQ. unfold save_or, Save. rewrite Hid, Hv. apply safe_bind. command as r v' Hd; [done|]. destruct Hd as [Hd Hr]. cbn in Hr. subst r.
  cbn in Hd. subst v'. split; [done|]. by apply safe_ret.
Qed.

Definition is_up (v : host) (i : string) : Prop := ∃ f, ifaces v !! i = Some f ∧ up f = true.
Lemma is_up_benign n c v i : benign n c → is_up v i → is_up (effect c v) i.
Proof. intros Hb (f & Hf & E). exists (edit c i f). rewrite (benign_lookup n), Hf by done. split; [done|by apply edit_up]. Qed.
Lemma is_up_done v i : is_Some (ifaces v !! i) → is_up (effect (UpFlag i) v) i.
Proof. intros [f Hf]. exists (brought_up f). rewrite effect_lookup, decide_False, Hf by done. cbn. by rewrite decide_True. Qed.

(** *** VLANs *)

Definition vlan_names : list string := (λ i : nat, "vlan" ++ pretty i) <$> seq 0 64.
Definition room (v : host) (k : nat) : Prop := ∃ X : gset string, (k ≤ size X)%nat ∧ ∀ name, name ∈ X → name ∈ vlan_names ∧ ifaces v !! name = None.

Lemma vlan_names_named name : name ∈ vlan_names → named "vlan" name.
Proof.
  assert (forallb (λ x, numbered "vlan" x && test interface_re x) vlan_names = true) as H by (vm_compute; reflexivity).
  rewrite forallb_forall in H. intros Hin%list_elem_of_In. specialize (H _ Hin). by apply andb_true_iff in H.
Qed.
Lemma room_first_free v k : room v (S k) → first_free "vlan" v ≠ None.
Proof.
  intros (X & Hs & HX) E. destruct (set_choose_or_empty X) as [[x Hx]|He]; [|rewrite He, size_empty in Hs; lia].
  destruct (HX x Hx) as [Hin Hf]. unfold first_free in E. apply (find_none _ _ ) with (x := x) in E; [|by apply list_elem_of_In].
  destruct (vlan_names_named x Hin) as [H1 H2]. rewrite bool_decide_eq_true_2, H1, H2 in E by done. done.
Qed.
Lemma room_create v k d f : room v (S k) → room (with_ifaces (<[d := f]>) v) k.
Proof.
  intros (X & Hs & HX). exists (X ∖ {[d]}). split.
  - pose proof (size_difference_alt X {[d]}). pose proof (subseteq_size (X ∩ {[d]}) {[d]} ltac:(set_solver)). rewrite size_singleton in *. lia.
  - intros name [H1 H2%not_elem_of_singleton]%elem_of_difference. destruct (HX name H1) as [H3 H4]. split; [done|]. cbn. by rewrite lookup_insert_ne.
Qed.

Lemma wp_first_match names parent tag v : (∀ x, x ∈ names → is_Some (ifaces v !! x)) →
  wp (first_match names parent tag) v (λ r v', v' = v ∧ ∃ d, r = inl d ∧
    ((d = "" ∧ ∀ x, x ∈ names → ¬ carries v x (parent, tag)) ∨ (d ∈ names ∧ carries v d (parent, tag)))).
Proof.
  induction names as [|x names IH]; intros Hex; cbn [first_match].
  { apply safe_ret; [done|]. split; [done|]. exists "". split; [done|]. left. split; [done|]. by intros y ?%elem_of_nil. }
  apply safe_checked. destruct (Hex x) as [f Hf]; [by left|]. apply (wp_inspect _ f); [done|]. destruct (matches (show f) parent tag) eqn:E.
  - apply safe_ret; [done|]. split; [done|]. exists x. split; [done|]. right. split; [by left|]. by eapply matches_carries.
  - eapply safe_mono; [apply IH; intros; apply Hex; by right|done|]. intros r v' _ (-> & d & -> & Hd). split; [done|]. exists d. split; [done|].
    destruct Hd as [[-> Hno]|[Hin Hc]]; [left; split; [done|]|right; split; [by right|done]]. intros y [->|Hy]%elem_of_cons; [|by apply Hno].
    intros (g & Hg & Ek). assert (g = f) as -> by congruence. unfold matches, show in E. rewrite Ek in E. cbn in E.
    by rewrite bool_decide_eq_true_2 in E.
Qed.

Lemma numbered_starts prefix s : numbered prefix s = true → starts_with prefix s = true.
Proof. unfold numbered. rewrite starts_with_strip. by destruct (strip_prefix prefix s). Qed.

Lemma wp_FindVLAN parent tag v : sane v → wp (FindVLAN parent tag) v (λ r v', v' = v ∧ ∃ d, r = inl d ∧
  ((d = "" ∧ ∀ i, ¬ carries v i (parent, tag)) ∨ (truthy d = true ∧ carries v d (parent, tag)))).
Proof.
  intros Hs. unfold FindVLAN. apply safe_checked. command as r v' Hd; [done|]. destruct Hd as [[-> Hl] [l ->]]. split; [done|].
  specialize (Hl l eq_refl).
  assert (∀ x, x ∈ sorted_names l ↔ is_Some (ifaces v !! x) ∧ starts_with "vlan" x = true) as Hn.
  { intros x. unfold sorted_names. rewrite merge_sort_Permutation, list_elem_of_In, filter_In, <- list_elem_of_In, Hl, list_elem_of_fmap.
    split; (intros [H1 H2]; split; [|done]).
    - destruct H1 as ([y f] & -> & Hin%elem_of_map_to_list). cbn. by rewrite Hin.
    - destruct H1 as [f Hf]. exists (x, f). split; [done|]. by apply elem_of_map_to_list. }
  eapply safe_mono; [apply wp_first_match; intros x Hx; by apply Hn|done|].
  intros r v' _ (-> & d & -> & [[-> Hno]|[Hin Hc]]); (split; [done|]); eexists; (split; [done|]).
  - left. split; [done|]. intros i Hi. apply (Hno i); [|done]. apply Hn. destruct Hi as (f & Hf & Ef). split; [by rewrite Hf|].
    apply numbered_starts. apply (sane_names v Hs i (parent, tag)). by exists f.
  - right. split; [|done]. apply Hn in Hin as [_ H]. by destruct d.
Qed.

Lemma going_made n v d k : going n v → ifaces v !! d = None → named "vlan" d → (∀ i, ¬ carries v i k) → k ∈ key <$> VLANs n →
  going n (made_vlan d k v).
Proof.
  intros [[] ? ? ? ? ? ? ? ? ?] Hd Hnd Hno Hk.
  assert (∀ i, is_Some (ifaces v !! i) → ifaces (made_vlan d k v) !! i = ifaces v !! i) as Hold.
  { intros i [f Hf]. unfold made_vlan. cbn. rewrite lookup_insert_ne; [done|congruence]. }
  assert (∀ i f, ifaces (made_vlan d k v) !! i = Some f → (i = d ∧ f = mkIface (Vlan (Some k)) false []) ∨ ifaces v !! i = Some f) as Hnew.
  { intros i f. unfold made_vlan. cbn. intros [[-> <-]|[_ ?]]%lookup_insert_Some; [by left|by right]. }
  assert (∀ m b f, ifaces (made_vlan d k v) !! b = Some f → is_port_of m f → ifaces v !! b = Some f ∧ is_Some (ifaces v !! m)) as Hport.
  { intros m b f [[-> ->]|Hf]%Hnew Hp; [done|]. split; [done|]. unfold is_port_of in Hp. destruct (ikind f) as [p| |] eqn:E; [|done..]. by eapply sane_ports0. }
  split; try done.
  - split.
    + intros i f p m Hf E Hin. destruct (Hport m i f Hf) as [_ H]; [unfold is_port_of; by rewrite E|]. by rewrite Hold.
    + intros i j k'. rewrite !made_carries by done. intros [H1|[-> E1]] [H2|[-> E2]]; subst; [by eapply sane_keys0|by destruct (Hno i)|by destruct (Hno j)|done].
    + intros i k'. rewrite made_carries by done. intros [H|[-> ->]]; [by eapply sane_names0|done].
    + unfold made_vlan. cbn. rewrite lookup_insert_ne; [done|]. intros ->. by destruct Hnd.
  - destruct g_bridge0 as (f & p & Hf & E). exists f, p. by rewrite Hold by by rewrite Hf.
  - intros m Hm. rewrite Hold; by apply g_members0.
  - intros k' Hk'. destruct (g_parents0 k' Hk') as [H1 H2]. rewrite Hold by done. split; [done|]. intros k''. rewrite made_carries by done.
    intros [H|[E _]]; [by eapply H2|]. rewrite E in H1. rewrite Hd in H1. by destruct H1.
  - intros a Ha. rewrite made_carries by done. left. by apply g_applied0.
  - intros m b f Hw Hf Hp. destruct (Hport m b f Hf Hp) as [Hb Hm]. apply (g_free0 m b f); [|done..].
    destruct Hw as [Hw|(k' & Hk' & Hc)]; [by left|right]. exists k'. split; [done|]. rewrite made_carries in Hc by done.
    destruct Hc as [?|[-> _]]; [done|]. rewrite Hd in Hm. by destruct Hm.
  - intros m k'. rewrite made_carries by done. intros [H|[-> ->]]; [by apply g_apart0|]. intros _ Hin. destruct (g_members0 d Hin). congruence.
Qed.

(** What a VLAN needs is found or made. *)
Lemma recalled n v w : going n v → w ∈ VLANs n → let u := recall (AppliedVLANs n) w in truthy (v_device u) = true → carries v (v_device u) (key w).
Proof.
  intros [] Hw u Ht. destruct (recall_device (AppliedVLANs n) w) as [E|(a & Ha & Ek & E)]; fold u in E.
  - apply valid_bridge in g_valid0 as [_ (_ & _ & _ & H & _)]; [|done]. destruct (H w Hw) as [H'|[Ha _]]; [rewrite E, H' in Ht; done|].
    rewrite E. by apply g_applied0.
  - rewrite <- E, <- Ek. by apply g_applied0.
Qed.

Lemma wp_resolve n v w k : going n v → w ∈ VLANs n → room v (S k) → let u := recall (AppliedVLANs n) w in
  wp (resolveVLAN (v_device u) (negb (v_borrowed u)) (v_parent u) (v_tag u)) v (λ r v1, ∃ d o, r = inl (d, o) ∧
    going n v1 ∧ carries v1 d (key w) ∧ (∀ i, is_up v i → is_up v1 i) ∧ room v1 k).
Proof.
  intros Hg Hw Hroom u. assert (key u = key w) as Eu by apply recall_key. injection Eu as Ep Et. rewrite Ep, Et.
  assert (room v k) as Hroom'. { destruct Hroom as (X & ? & ?). exists X. split; [lia|done]. }
  unfold resolveVLAN. destruct (truthy (v_device u)) eqn:Ed; cbn [negb].
  - pose proof (recalled n v w Hg Hw Ed) as Hc. fold u in Hc. destruct Hc as (f & Hf & Ef).
    apply safe_bind, wp_exists_true; [by rewrite Hf|]. apply safe_bind. unfold ConfigureVLAN. apply safe_bind, (wp_inspect _ f); [done|].
    unfold show. rewrite Ef. cbn [tagged]. unfold matches. cbn [tagged]. rewrite bool_decide_eq_true_2 by done.
    apply safe_ret; [done|]. apply safe_ret; [done|]. exists (v_device u), (negb (v_borrowed u)). split_and!; try done. by exists f.
  - apply safe_bind, safe_ret; [done|]. apply safe_checked. eapply safe_mono; [apply wp_FindVLAN; apply Hg|done|].
    intros r v' _ (-> & d & -> & [[-> Hno]|[Ht Hc]]).
    2: { rewrite Ht. apply safe_ret; [done|]. exists d, false. by split_and!. }
    cbn [truthy]. apply safe_checked. unfold create. apply safe_checked. command as r v' Hd; [done|].
    destruct Hd as [Hd Hr]. destruct (Hr (room_first_free v k Hroom)) as [d ->]. destruct Hd as (Hnd & Hd & ->). split; [done|].
    assert (String.eqb d "" = false) as -> by (apply String.eqb_neq; intros ->; by destruct Hnd). apply safe_ret; [done|]. cbn [checked].
    set (v1 := with_ifaces _ v).
    assert (going n (made_vlan d (key w) v)) as Hg1 by (apply going_made; [done..|by apply list_elem_of_fmap_2]).
    apply safe_bind. unfold ConfigureVLAN. apply safe_bind, (wp_inspect _ (new_iface "vlan")); [apply lookup_insert_eq|]. cbn [show new_iface ikind tagged String.eqb].
    apply wp_ifconfig.
    { split; [exists (new_iface "vlan"); split; [apply lookup_insert_eq|done]|]. intros e f. unfold v1. cbn. intros [[_ <-]|[_ Hf]]%lookup_insert_Some; [done|].
      intros E. apply (Hno e). by exists f. }
    assert (effect (Tagging d (v_tag w) (v_parent w)) v1 = made_vlan d (key w) v) as ->.
    { unfold effect, v1, made_vlan, with_ifaces. cbn. f_equal. apply map_eq. intros i. destruct (decide (i = d)) as [->|Hne].
      - by rewrite lookup_alter_eq, !lookup_insert_eq.
      - by rewrite lookup_alter_ne, !lookup_insert_ne by done. }
    apply safe_ret; [done|]. exists d, true. split_and!; [done|done| | |by apply room_create].
    + apply made_carries; [done|]. by right.
    + intros i (f & Hf & E). exists f. split; [|done]. unfold made_vlan. cbn. rewrite lookup_insert_ne; [done|congruence].
Qed.

Lemma going_keys n v : going n v → NoDup (key <$> VLANs n).
Proof. intros []. apply valid_bridge in g_valid0 as [(_ & _ & _ & _ & _ & _ & _ & H & _) _]; [|done]. by apply NoDup_fmap_1 in H. Qed.

Definition unchanged (n n' : NetworkManifest) : Prop :=
  settings n' = settings n ∧ Device n' = Device n ∧ AppliedMembers n' = AppliedMembers n ∧ AppliedAddress n' = AppliedAddress n.

Lemma going_recorded n v before after w w' : going n v → VLANs n = (before ++ w :: after)%list → key w' = key w → carries v (v_device w') (key w) →
  going (with_applied_vlans (record_vlan w' (AppliedVLANs n)) (with_vlans (before ++ w' :: after) n)) v.
Proof.
  intros Hg Ev Ek Hc. set (n' := with_applied_vlans _ _). pose proof (going_keys n v Hg) as Hnd.
  assert (key <$> VLANs n' = key <$> VLANs n) as Eks by (rewrite Ev; cbn; rewrite !fmap_app; cbn; by rewrite Ek).
  assert (key w ∈ key <$> VLANs n) as Hw by (rewrite Ev, fmap_app; apply elem_of_app; right; left).
  destruct Hg as [Hs Hv ? Hm ? ? ? Happ Hfree Hap]. split; try done.
  - apply valid_bridge; [done|]. apply valid_bridge in Hv as [Hset (H1 & H2 & H3 & H4 & H5)]; [|done]. split.
    { unfold settings_ok. rewrite Eks. exact Hset. }
    assert (numbered "vlan" (v_device w') = true ∧ interface_ok (v_device w')) as [Hn1 Hn2] by (apply (sane_names v Hs _ _ Hc)).
    assert (key_ok (key w')) as Hok. { rewrite Ek. destruct Hset as (_ & _ & _ & _ & _ & _ & _ & _ & H & _). rewrite Forall_forall in H. by apply H. }
    split_and!; [done|done| | |done].
    + intros a [[Ha _]| ->]%in_record_vlan; [by apply H3|done].
    + intros u Hu. change (u ∈ (before ++ w' :: after)%list) in Hu. change (v_device u = "" ∨ u ∈ record_vlan w' (AppliedVLANs n) ∧ interface_ok (v_device u)).
      rewrite in_record_vlan. rewrite elem_of_app, elem_of_cons in Hu.
      assert (u ∈ before ∨ u ∈ after → v_device u = "" ∨ (u ∈ AppliedVLANs n ∧ key u ≠ key w' ∨ u = w') ∧ interface_ok (v_device u)) as Hold.
      { intros Hba. destruct (H4 u) as [?|[? ?]]; [rewrite Ev; set_solver|by left|right]. split; [|done]. left. split; [done|]. rewrite Ek.
        rewrite Ev, fmap_app in Hnd. apply NoDup_app in Hnd as (_ & Hnd1 & Hnd2). cbn in Hnd2. apply NoDup_cons in Hnd2 as [Hnd2 _].
        destruct Hba as [Hu'|Hu']; intros E; [apply (Hnd1 (key u)); [by apply list_elem_of_fmap_2|rewrite E; by left]|].
        apply Hnd2. rewrite <- E. by apply list_elem_of_fmap_2. }
      destruct Hu as [Hu|[->|Hu]]; [by apply Hold; left| |by apply Hold; right]. right. by split; [right|].
  - intros k Hk. rewrite Eks in Hk. auto.
  - intros a [[Ha _]| ->]%in_record_vlan; [by apply Happ|by rewrite Ek].
  - intros m b f Hwa. apply Hfree. unfold wanted in *. by rewrite Eks in Hwa.
  - intros m k Hmk Hk. apply (Hap m k Hmk). rewrite Eks in Hk. destruct Hk as [?|(a & -> & Ha)%list_elem_of_fmap]; [by left|].
    apply in_record_vlan in Ha as [[Ha _]| ->]; [right; by apply list_elem_of_fmap_2|left; by rewrite Ek].
Qed.

Lemma wp_apply_vlan before after w n v others k : going n v → VLANs n = (before ++ w :: after)%list → AppliedVLANs n = (others ++ before)%list →
  room v (S k) → wp (apply_vlan uuid hostname_rfc1123 ParseCIDR4 before after w n) v (λ r v', ∃ w' n', r = inl (w', n') ∧
    going n' v' ∧ key w' = key w ∧ VLANs n' = (before ++ w' :: after)%list ∧
    (∃ others', AppliedVLANs n' = (others' ++ before ++ [w'])%list ∧ ∀ o, o ∈ others' ↔ o ∈ others ∧ key o ≠ key w) ∧
    unchanged n n' ∧ (∀ i, is_up v i → is_up v' i) ∧ is_up v' (v_parent w) ∧ room v' k).
Proof.
  intros Hg Ev Ea Hroom. unfold apply_vlan. set (u := recall (AppliedVLANs n) w). assert (key u = key w) as Eu by apply recall_key.
  assert (v_parent u = v_parent w ∧ v_tag u = v_tag w) as [Ep Et] by (by injection Eu).
  assert (w ∈ VLANs n) as Hin by (rewrite Ev; set_solver).
  destruct (g_parents n v Hg (key w)) as [Hp _]; [by apply list_elem_of_fmap_2|].
  apply safe_bind, wp_exists_true; [by rewrite Ep|]. cbn [negb].
  apply safe_checked. eapply safe_mono; [by eapply (wp_resolve n v w k)|done|]. intros r v1 _ (d & o & -> & Hg1 & Hc & Hup & Hr1). cbn [fst snd].
  set (w' := mkVlan (negb o) (v_parent u) (v_tag u) d).
  assert (key w' = key w) as Ek by exact Eu. pose proof (going_recorded n v1 before after w w' Hg1 Ev Ek Hc) as Hg2.
  set (n' := with_applied_vlans _ _) in *.
  apply safe_checked, wp_save_or; [apply Hg2|apply Hg2|]. cbn [checked]. set (v2 := with_manifest n' v1).
  assert (going n' v2) as Hg3 by by eapply going_ext, Hg2.
  destruct (g_parents n' v2 Hg3 (key w')) as [Hp' _]; [cbn; rewrite fmap_app; apply elem_of_app; right; left|].
  apply safe_try. apply wp_ifconfig; [exact Hp'|]. apply safe_ret; [done|]. exists w', n'. split_and!; [done| |done|done| | | | |].
  - by apply (going_benign _ (UpFlag (v_parent w'))).
  - cbn. unfold record_vlan. rewrite Ea. pose proof (going_keys n v Hg) as Hnd. rewrite Ev, fmap_app in Hnd.
    apply NoDup_app in Hnd as (_ & Hnd & _). cbn in Hnd. exists (List.filter (λ a, negb (same_vlan a w')) others). split.
    + rewrite List.filter_app, <- app_assoc. f_equal. f_equal. apply forallb_filter_id, forallb_forall. intros a Ha%list_elem_of_In.
      apply negb_true_iff, not_true_iff_false. intros E%same_vlan_key. apply (Hnd (key a)); [by apply list_elem_of_fmap_2|]. rewrite E, Ek. by left.
    + intros a. rewrite list_elem_of_In, filter_In, <- list_elem_of_In, negb_true_iff. pose proof (same_vlan_key a w') as E. rewrite Ek in E.
      destruct (same_vlan a w'); intuition congruence.
  - split_and!; [|done..]. unfold settings. cbn. by rewrite Ev, !fmap_app, !fmap_cons, Ek.
  - intros i Hi. apply (is_up_benign n'); [done|]. by apply Hup.
  - rewrite <- Ep. by apply is_up_done.
  - destruct Hr1 as (X & ? & HX). exists X. split; [done|]. intros name Hname. destruct (HX name Hname) as [? Hnone]. split; [done|].
    rewrite (benign_lookup n') by done. by rewrite (Hnone : ifaces v2 !! name = None).
Qed.

Lemma wp_apply_vlans before after n v others : going n v → VLANs n = (before ++ after)%list → AppliedVLANs n = (others ++ before)%list →
  (∀ o, o ∈ others → key o ∉ key <$> before) → (∀ w, w ∈ before → is_up v (v_parent w)) → room v (length after) →
  wp (apply_vlans uuid hostname_rfc1123 ParseCIDR4 before after n (Members n ++ (v_device <$> before))) v (λ r v', ∃ n', r = inl (n', desired n') ∧
    going n' v' ∧ (∃ others', AppliedVLANs n' = (others' ++ VLANs n')%list ∧ (∀ o, o ∈ others' → key o ∉ key <$> VLANs n') ∧
      ∀ o, o ∈ others → key o ∉ key <$> VLANs n' → o ∈ others') ∧
    unchanged n n' ∧ ∀ w, w ∈ VLANs n' → is_up v' (v_parent w)).
Proof.
  revert before n v others. induction after as [|w after IH]; intros before n v others Hg Ev Ea Ho Hup Hroom; cbn [apply_vlans].
  { rewrite app_nil_r in Ev. apply safe_ret; [done|]. exists n. split_and!; [by rewrite <- Ev|done| |done|by rewrite Ev].
    exists others. rewrite Ev. by split_and!. }
  apply safe_checked. eapply safe_mono; [by apply (wp_apply_vlan before after w n v others (length after))|done|].
  intros r v1 _ (w' & n' & -> & Hg1 & Ek & Ev1 & (others' & Ea1 & Ho1) & (E1 & E2 & E3 & E4) & Hup1 & Hp1 & Hr1). cbn [fst snd].
  assert (Members n = Members n') as Em by by injection E1. rewrite Em.
  replace ((Members n' ++ (v_device <$> before)) ++ [v_device w'])%list with (Members n' ++ (v_device <$> (before ++ [w'])))%list by (by rewrite fmap_app, app_assoc).
  eapply safe_mono; [apply (IH (before ++ [w'])%list n' v1 others'); [done| |done| | |done]|done|].
  - by rewrite Ev1, <- app_assoc.
  - intros o Hin. apply Ho1 in Hin as [H1 H2]. rewrite fmap_app, elem_of_app. cbn. rewrite list_elem_of_singleton, Ek. intros [?|?]; [by eapply Ho|done].
  - intros u [Hu| ->%list_elem_of_singleton]%elem_of_app; [by apply Hup1, Hup|]. by injection Ek as -> _.
  - intros r v' _ (n2 & -> & Hg2 & (os & Hos & Ho2 & Ho3) & (F1 & F2 & F3 & F4) & Hup2). exists n2. split_and!; [done..| | |done].
    + exists os. split_and!; [done..|]. intros o Hin Hk. apply Ho3; [|done]. apply Ho1. split; [done|]. intros E. apply Hk. rewrite E.
      assert (key <$> VLANs n2 = key <$> VLANs n') as -> by by injection F1. rewrite Ev1, fmap_app. apply elem_of_app. right. rewrite fmap_cons, Ek. by left.
    + by split_and!; congruence.
Qed.

(** *** Members *)

(** What the manifest keeps while members and addresses change. *)
Definition alike (n n' : NetworkManifest) : Prop :=
  settings n' = settings n ∧ Device n' = Device n ∧ VLANs n' = VLANs n ∧ AppliedVLANs n' = AppliedVLANs n ∧ AppliedAddress n' = AppliedAddress n.

Lemma going_members n v l : going n v → Forall interface_ok l → going (with_applied_members l n) v.
Proof.
  intros [] Hl. split; try done. apply valid_bridge; [done|]. apply valid_bridge in g_valid0 as [Hs (? & ? & ? & ? & _)]; [|done].
  split; [exact Hs|]. by split_and!.
Qed.
Lemma going_applied_members n v : going n v → Forall interface_ok (AppliedMembers n).
Proof. intros []. by apply valid_bridge in g_valid0 as [_ (_ & _ & _ & _ & ?)]. Qed.

Lemma wanted_some n v m : going n v → wanted n v m → is_Some (ifaces v !! m).
Proof. intros [] [Hm|(k & _ & f & -> & _)]; [by apply g_members0|done]. Qed.
Lemma wanted_ok n v m : going n v → wanted n v m → interface_ok m.
Proof.
  intros [] [Hm|(k & _ & Hc)].
  - apply valid_bridge in g_valid0 as [(_ & _ & _ & _ & _ & _ & _ & _ & _ & H & _) _]; [|done]. rewrite Forall_forall in H. by apply H.
  - by apply (sane_names v g_sane0 m k).
Qed.

Lemma edit_deletem b m f : edit (Deletem b m) b f = without_port m f.
Proof. cbn. by rewrite decide_True. Qed.
Lemma edit_addm b m f : edit (Addm b m) b f = with_port m f.
Proof. cbn. by rewrite decide_True. Qed.

Lemma ports_deletem n v p m : ports n (effect (Deletem (Device n) p) v) m ↔ ports n v m ∧ m ≠ p.
Proof.
  unfold ports. setoid_rewrite (benign_lookup n); [|done]. split.
  - intros (f & (g & Hg & ->)%fmap_Some & Hp). rewrite edit_deletem in Hp. unfold is_port_of, without_port in Hp.
    destruct (ikind g) eqn:E; cbn in Hp; rewrite ?E in Hp; try done.
    apply list_elem_of_filter in Hp as [? ?]. split; [|done]. exists g. split; [done|]. unfold is_port_of. by rewrite E.
  - intros [(g & Hg & Hp) Hne]. exists (without_port p g). rewrite Hg. cbn [fmap option_fmap option_map]. rewrite edit_deletem. split; [done|].
    unfold is_port_of, without_port in *. destruct (ikind g); try done. cbn. apply list_elem_of_filter. by split.
Qed.
Lemma ports_addm n v p m : (∃ f q, ifaces v !! Device n = Some f ∧ ikind f = Bridge q) → ports n (effect (Addm (Device n) p) v) m ↔ ports n v m ∨ m = p.
Proof.
  intros (b & q & Hb & Eb). unfold ports. setoid_rewrite (benign_lookup n); [|done]. rewrite Hb. cbn [fmap option_fmap option_map]. rewrite edit_addm.
  unfold is_port_of, with_port. rewrite Eb. split.
  - intros (f & [= <-] & Hp). cbn in Hp. apply elem_of_app in Hp as [?| ->%list_elem_of_singleton]; [left|by right].
    exists b. split; [done|]. by rewrite Eb.
  - intros H. eexists. split; [done|]. cbn. apply elem_of_app. destruct H as [(f & [= <-] & Hp)| ->]; [left|right; by apply list_elem_of_singleton].
    by rewrite Eb in Hp.
Qed.
Lemma ports_other n c v m : match c with UpFlag _ | Alias _ _ _ | Unalias _ _ => True | _ => False end → ports n (effect c v) m ↔ ports n v m.
Proof.
  intros H. unfold ports. assert (benign n c) as Hb by by destruct c. setoid_rewrite (benign_lookup n); [|done].
  assert (∀ f, is_port_of m (edit c (Device n) f) ↔ is_port_of m f) as E by (intros f; destruct c; cbn; try done; by case_decide).
  split; [intros (f & (g & Hg & ->)%fmap_Some & Hp); exists g; by rewrite E in Hp|]. intros (f & Hf & Hp). exists (edit c (Device n) f). by rewrite Hf, E.
Qed.

Lemma wp_drop_members previous des mem n v : going n v → NoDup previous →
  (∀ m, m ∈ previous → m ∉ des → m ∈ mem → ports n v m) →
  wp (drop_members previous des mem n) v (λ r v', ∃ n', r = inl n' ∧ going n' v' ∧ alike n n' ∧
    (∀ m, m ∈ AppliedMembers n' → m ∈ AppliedMembers n ∧ (m ∈ previous → m ∈ des)) ∧ (∀ i, is_up v i → is_up v' i) ∧
    (∀ m, ports n' v' m → ports n v m) ∧ (∀ m, ports n v m → m ∈ des ∨ m ∉ previous → ports n' v' m) ∧
    (∀ m, m ∈ previous → m ∉ des → m ∈ mem ∨ ¬ ports n v m → ¬ ports n' v' m)).
Proof.
  revert n v. induction previous as [|p previous IH]; intros n v Hg Hnd Hp; cbn [drop_members].
  { apply safe_ret; [done|]. exists n. split_and!; try done; [intros m Hm; by split; [|intros ?%elem_of_nil]|by intros m ?%elem_of_nil]. }
  apply NoDup_cons in Hnd as [Hnin Hnd]. destruct (includes_str des p) eqn:Ed.
  { apply includes_str_spec in Ed. eapply safe_mono; [apply IH; [done|done|by intros; apply Hp; [right|..]]|done|].
    intros r v' _ (n' & -> & Hg' & Ha & Hm & Hu & Hp1 & Hp2 & Hp3). exists n'. split_and!; try done.
    - intros m [H1 H2]%Hm. split; [done|]. intros [->|?]%elem_of_cons; auto.
    - intros m H1 H2. apply Hp2; [done|]. rewrite not_elem_of_cons in H2. destruct H2; tauto.
    - intros m [->|H1]%elem_of_cons; [done|by apply Hp3]. }
  apply includes_str_false in Ed.
  apply safe_try. apply (safe_mono _ _ (λ _, True) _ (λ r v1, r = None ∧ going n v1 ∧ (∀ i, is_up v i → is_up v1 i) ∧
    (∀ m, ports n v1 m → ports n v m) ∧ (∀ m, ports n v m → m ≠ p → ports n v1 m) ∧ (p ∈ mem ∨ ¬ ports n v p → ¬ ports n v1 p))); [|done|].
  { destruct (includes_str mem p) eqn:Em.
    2: { apply includes_str_false in Em. apply safe_ret; [done|]. split_and!; try done. by intros [?|?]. }
    apply includes_str_spec in Em.
    assert (ports n v p) as (f & Hf & Hpf) by (apply Hp; [by left|done|done]). apply wp_ifconfig; [by exists f|]. split_and!; [done| | | | |].
    - apply going_benign; [by exists f|done|done].
    - intros i. by apply (is_up_benign n).
    - intros m. rewrite ports_deletem. by intros [].
    - intros m ? ?. by apply ports_deletem.
    - intros _. rewrite ports_deletem. by intros []. }
  intros [e|] v1 _ (Er & Hg1 & Hu1 & Hp1 & Hp2 & Hp3); [done|]. clear Er. set (n1 := with_applied_members _ n).
  eapply safe_mono; [apply (IH n1 v1); [|done|]|done|].
  - apply going_members; [done|]. apply Forall_forall. intros m [Hm _]%list_elem_of_In%filter_In. apply list_elem_of_In in Hm.
    pose proof (going_applied_members n v Hg) as H. rewrite Forall_forall in H. by apply H.
  - intros m Hm H1 H2. apply Hp2; [apply Hp; [by right|done|done]|]. intros ->. done.
  - intros r v' _ (n' & -> & Hg' & Ha & Hm & Hu & Hq1 & Hq2 & Hq3). exists n'. split_and!; try done.
    + intros m [H1 H2]%Hm. apply list_elem_of_In, filter_In in H1 as [H1 H3]. apply negb_true_iff, String.eqb_neq in H3.
      split; [by apply list_elem_of_In|]. intros [->|?]%elem_of_cons; auto. done.
    + auto.
    + intros m H. by apply Hp1, Hq1.
    + intros m H1 H2. apply Hq2; [apply Hp2; [done|]|].
      * intros ->. rewrite not_elem_of_cons in H2. destruct H2 as [?|[? _]]; done.
      * rewrite not_elem_of_cons in H2. tauto.
    + intros m [->|H1]%elem_of_cons H2 H3; [intros H4; by apply Hp3 in H3; apply H3, Hq1|]. apply Hq3; [done..|].
      destruct H3 as [?|H3]; [by left|right]. intros H4. by apply H3, Hp1.
Qed.

Lemma wp_add_members l mem n v : going n v → NoDup l → (∀ m, m ∈ l → wanted n v m) → (∀ m, m ∈ l → m ∈ mem ↔ ports n v m) →
  wp (add_members uuid hostname_rfc1123 ParseCIDR4 l mem n) v (λ r v', ∃ n', r = inl n' ∧ going n' v' ∧ alike n n' ∧
    (∀ m, m ∈ AppliedMembers n' → m ∈ AppliedMembers n ∨ m ∈ l) ∧ (∀ m, m ∈ l → ports n' v' m ∧ is_up v' m) ∧
    (∀ i, is_up v i → is_up v' i) ∧ (∀ m, ports n v m → ports n' v' m) ∧ (∀ m, ports n' v' m → ports n v m ∨ m ∈ l) ∧
    (∀ i k, carries v' i k ↔ carries v i k)).
Proof.
  unfold add_members. revert n v. induction l as [|x l IH]; intros n v Hg Hnd Hw Hm; cbn [fold_checked].
  { apply safe_ret; [done|]. exists n. split_and!; try done; auto. intros m ?%elem_of_nil. done. }
  apply NoDup_cons in Hnd as [Hnin Hnd]. pose proof (Hw x ltac:(by left)) as Hwx. pose proof (wanted_some n v x Hg Hwx) as Hex.
  pose proof (wanted_ok n v x Hg Hwx) as Hok.
  apply safe_checked. apply (safe_mono _ _ (λ _, True) _ (λ r v1, ∃ n1, r = inl n1 ∧ going n1 v1 ∧ alike n n1 ∧
    (∀ m, m ∈ AppliedMembers n1 → m ∈ AppliedMembers n ∨ m = x) ∧ is_up v1 x ∧ (∀ i, is_up v i → is_up v1 i) ∧
    (∀ m, ports n1 v1 m ↔ ports n v m ∨ m = x) ∧ (∀ i k, carries v1 i k ↔ carries v i k))); [|done|].
  { unfold add_member. apply safe_bind, wp_exists_true; [done|]. cbn [negb]. apply safe_checked.
    apply (safe_mono _ _ (λ _, True) _ (λ r v1, ∃ n1, r = inl n1 ∧ going n1 v1 ∧ alike n n1 ∧
      (∀ m, m ∈ AppliedMembers n1 → m ∈ AppliedMembers n ∨ m = x) ∧ (∀ i, is_up v i → is_up v1 i) ∧
      (∀ m, ports n1 v1 m ↔ ports n v m ∨ m = x) ∧ (∀ i k, carries v1 i k ↔ carries v i k))); [|done|].
    - destruct (includes_str mem x) eqn:Em.
      { apply includes_str_spec, Hm in Em; [|by left]. apply safe_ret; [done|]. exists n. split_and!; try done; auto.
        intros m. split; [by left|by intros [?| ->]]. }
      apply includes_str_false in Em. rewrite Hm in Em by by left. pose proof (g_bridge n v Hg) as Hbr.
      assert (accepted (Addm (Device n) x) v) as Hacc.
      { destruct Hbr as (f & p & Hf & _). split_and!; [by rewrite Hf|done|]. intros (b & g & Hgb & Hp). apply Em.
        pose proof (g_free n v Hg x b g Hwx Hgb Hp) as ->. by exists g. }
      apply safe_try, wp_ifconfig; [done|]. set (v1 := effect _ v). assert (going n v1) as Hg1 by by apply going_benign.
      assert (∀ m, ports n v1 m ↔ ports n v m ∨ m = x) as Hports by (intros m; by apply ports_addm).
      assert (∀ i, is_up v i → is_up v1 i) as Hup by (intros i; by apply (is_up_benign n)).
      assert (∀ i k, carries v1 i k ↔ carries v i k) as Hc by (intros; by apply (benign_carries n)).
      destruct (includes_str (AppliedMembers n) x); [apply safe_ret; [done|]; exists n; split_and!; try done; auto|].
      set (n1 := with_applied_members _ n). assert (going n1 v1) as Hg2.
      { apply going_members; [done|]. apply Forall_app. split; [by eapply going_applied_members|]. by constructor. }
      apply wp_save_or; [apply Hg2|apply Hg2|]. exists n1. split_and!; try done.
      + by eapply going_ext, Hg2.
      + intros m. cbn. rewrite elem_of_app, list_elem_of_singleton. done.
    - intros r v1 _ (n1 & -> & Hg1 & Ha1 & Hm1 & Hu1 & Hp1 & Hc1). cbn [checked].
      assert (is_Some (ifaces v1 !! x)) as Hex1.
      { eapply (wanted_some n1); [done|]. destruct Ha1 as (Es & _ & Evl & _). destruct Hwx as [H|(k & Hk & H)].
        - left. by assert (Members n1 = Members n) as -> by by injection Es.
        - right. exists k. rewrite Evl. by rewrite Hc1. }
      apply safe_try, wp_ifconfig; [done|]. apply safe_ret; [done|]. exists n1. split_and!; try done.
      + by apply (going_benign _ (UpFlag x)).
      + by apply is_up_done.
      + intros i Hi. apply (is_up_benign n1); [done|]. by apply Hu1.
      + intros m. rewrite ports_other by done. apply Hp1.
      + intros i k. rewrite (benign_carries n1) by done. apply Hc1. }
  intros r v1 _ (n1 & -> & Hg1 & Ha1 & Hm1 & Hx1 & Hu1 & Hp1 & Hc1). cbn [checked].
  destruct Ha1 as (Es & Ed & Evl & Eva & Ead). assert (Members n1 = Members n) as Emem by by injection Es.
  eapply safe_mono; [apply (IH n1 v1); [done|done| |]|done|].
  - intros m Hin. destruct (Hw m ltac:(by right)) as [H|(k & Hk & H)]; [left; by rewrite Emem|right]. exists k. rewrite Evl. by rewrite Hc1.
  - intros m Hin. rewrite Hm by by right. rewrite Hp1. split; [by left|]. intros [?| ->]; [done|]. done.
  - intros r v' _ (n' & -> & Hg' & (Fs & Fd & Fvl & Fva & Fad) & Hm' & Hl' & Hu' & Hk' & Hb' & Hc'). exists n'. split_and!; try done; try congruence.
    + split_and!; congruence.
    + intros m [H|H]%Hm'; [|by right; right]. destruct (Hm1 m H) as [?| ->]; [by left|right; by left].
    + intros m [->|H]%elem_of_cons; [|by apply Hl']. split; [apply Hk', Hp1; by right|by apply Hu'].
    + auto.
    + intros m H. apply Hk', Hp1. by left.
    + intros m [[H| ->]%Hp1|H]%Hb'; [by left|right; by left|right; by right].
    + intros i k. by rewrite Hc', Hc1.
Qed.

(** *** VLANs that are no longer asked for *)

Lemma valid_forget n d : Mode n = ModeBridge → valid n = true → d ∉ desired n → valid (forget_vlan d n) = true.
Proof.
  intros Hm Hv Hd. apply valid_bridge; [done|]. apply valid_bridge in Hv as [Hs (H1 & H2 & H3 & H4 & H5)]; [|done]. split; [exact Hs|].
  split_and!; [done|done| | |done].
  - intros a [Ha _]%in_forget_vlan. by apply H3.
  - intros w Hw. destruct (H4 w Hw) as [?|[Ha ?]]; [by left|right]. split; [|done]. apply in_forget_vlan. split; [done|]. intros E. apply Hd. rewrite <- E.
    by apply desired_device.
Qed.

Lemma going_forget n v d : going n v → d ∉ desired n → going (forget_vlan d n) v.
Proof.
  intros [] Hd. split; try done.
  - by apply valid_forget.
  - intros a [Ha _]%in_forget_vlan. by apply g_applied0.
  - intros m k Hc Hk. apply (g_apart0 m k Hc). destruct Hk as [?|(a & -> & [Ha _]%in_forget_vlan)%list_elem_of_fmap]; [by left|right].
    by apply list_elem_of_fmap_2.
Qed.

Lemma going_destroyed n v d k : going n v → d ∉ desired n → carries v d k → going (forget_vlan d n) (effect (Destroyed d) v).
Proof.
  intros Hg Hd Hc. pose proof (going_forget n v d Hg Hd) as [[] ? ? ? Hbr Hmem Hpar Happ Hfree Hap].
  assert (∀ i, i ≠ d → is_Some (ifaces v !! i) → is_Some (ifaces (effect (Destroyed d) v) !! i)) as Hsome.
  { intros i Hne Hi. rewrite destroyed_lookup, decide_False by done. by apply fmap_is_Some. }
  split; try done.
  - split.
    + intros i f p m Hf E Hin. destruct (destroyed_port d v i f m Hf) as (g & Hgi & Hp & Hne); [unfold is_port_of; by rewrite E|].
      apply Hsome; [done|]. unfold is_port_of in Hp. destruct (ikind g) eqn:Eg; try done. by eapply sane_ports0.
    + intros i j k'. rewrite !destroyed_carries. intros [H1 _] [H2 _]. by eapply sane_keys0.
    + intros i k'. rewrite destroyed_carries. intros [H1 _]. by eapply sane_names0.
    + rewrite destroyed_lookup, sane_blank0. by case_decide.
  - destruct Hbr as (f & p & Hf & E). exists (without_port d f), (filter (.≠ d) p). rewrite destroyed_lookup, decide_False.
    + rewrite Hf. split; [done|]. unfold without_port. by rewrite E.
    + intros Ed. destruct Hc as (g & Hg' & E'). rewrite Ed in Hf. congruence.
  - intros m Hm. apply Hsome; [|by apply Hmem]. intros ->. apply Hd, elem_of_app. by left.
  - intros k' Hk'. destruct (Hpar k' Hk') as [H1 H2]. split.
    + apply Hsome; [|done]. intros E. apply (H2 k). by rewrite E.
    + intros k''. rewrite destroyed_carries. intros [H3 _]. by apply (H2 k'').
  - intros a Ha. apply destroyed_carries. split; [by apply Happ|]. by apply in_forget_vlan in Ha as [_ ?].
  - intros m b f Hw Hf Hp. destruct (destroyed_port d v b f m Hf Hp) as (g & Hgb & Hpg & _). apply (Hfree m b g); [|done..].
    destruct Hw as [?|(k' & Hk' & Hc')]; [by left|right]. exists k'. split; [done|]. by apply destroyed_carries in Hc' as [? _].
  - intros m k'. rewrite destroyed_carries. intros [H1 _]. by apply Hap.
Qed.

Lemma wp_drop_vlan n v a : going n v → ifaces v !! v_device a = None ∨ carries v (v_device a) (key a) → v_device a ∉ desired n →
  wp (drop_vlan uuid hostname_rfc1123 ParseCIDR4 (desired n) a n) v (λ r v', let n' := forget_vlan (v_device a) n in r = inl n' ∧ going n' v' ∧
    (∀ i k, carries v' i k → carries v i k) ∧ (∀ i, ifaces v !! i = None → ifaces v' !! i = None) ∧ (v_borrowed a = false → ifaces v' !! v_device a = None) ∧
    (∀ i, i ≠ v_device a → is_up v i → is_up v' i) ∧ (∀ m, m ≠ v_device a → ports n v m → ports n' v' m) ∧ (∀ m, ports n' v' m → ports n v m) ∧
    (∀ i k, carries v i k → carries v' i k ∨ (i = v_device a ∧ ifaces v' !! i = None))).
Proof.
  intros Hg Ha Hd. unfold drop_vlan. apply includes_str_false in Hd as Hd'. rewrite Hd'. apply safe_bind. set (d := v_device a) in *. set (n' := forget_vlan d n).
  assert (∀ v', ifaces v' = ifaces v → v_borrowed a = true ∨ ifaces v !! d = None → inl (A := NetworkManifest) (B := string) n' = inl n' ∧ going n' v' ∧
    (∀ i k, carries v' i k → carries v i k) ∧ (∀ i, ifaces v !! i = None → ifaces v' !! i = None) ∧ (v_borrowed a = false → ifaces v' !! d = None) ∧
    (∀ i, i ≠ d → is_up v i → is_up v' i) ∧ (∀ m, m ≠ d → ports n v m → ports n' v' m) ∧ (∀ m, ports n' v' m → ports n v m) ∧
    (∀ i k, carries v i k → carries v' i k ∨ (i = d ∧ ifaces v' !! i = None))) as Hskip.
  { intros v' E Hb. unfold is_up, ports, carries. setoid_rewrite E. split_and!; try done.
    - by eapply going_ext, going_forget.
    - intros E'. destruct Hb; congruence.
    - intros i k H. by left. }
  assert (valid n' = true ∧ ValidateID (ID n') = None) as [Hv Hid] by (split; [apply (going_forget n v d Hg Hd)|apply Hg]).
  destruct (v_borrowed a) eqn:Eb.
  { apply safe_ret; [done|]. apply safe_try, safe_ret; [done|]. apply wp_save_or; [done|done|]. apply Hskip; [done|by left]. }
  apply wp_exists. destruct (ifaces v !! d) as [f|] eqn:Ef.
  2: { rewrite bool_decide_eq_false_2 by by intros []. apply safe_try, safe_ret; [done|]. apply wp_save_or; [done|done|]. apply Hskip; [done|by right]. }
  rewrite bool_decide_eq_true_2 by done. destruct Ha as [?|Hc]; [congruence|].
  apply safe_try. apply wp_ifconfig; [cbn; by rewrite Ef|]. apply wp_save_or; [done|done|].
  pose proof (going_destroyed n v d (key a) Hg Hd Hc) as Hg'. split_and!; [done| | | | | | | |].
  - by eapply going_ext, Hg'.
  - intros i k H. apply (carries_ext (effect (Destroyed d) v)) in H; [|done]. by apply destroyed_carries in H as [? _].
  - intros i Hi. change (ifaces (effect (Destroyed d) v) !! i = None). rewrite destroyed_lookup. case_decide; [done|]. by rewrite Hi.
  - intros _. change (ifaces (effect (Destroyed d) v) !! d = None). rewrite destroyed_lookup. by rewrite decide_True.
  - intros i Hne (g & Hgi & Hu). exists (without_port d g). change (ifaces (effect (Destroyed d) v) !! i = Some (without_port d g) ∧ up (without_port d g) = true).
    rewrite destroyed_lookup, decide_False, Hgi by done. split; [done|]. unfold without_port. by destruct (ikind g).
  - intros m Hne (g & Hgi & Hp). assert (Device n ≠ d) as Hnd.
    { intros E. destruct (g_bridge n v Hg) as (b & p & Hb & Ebr). destruct Hc as (h & Hh & Eh). rewrite E in Hb. congruence. }
    exists (without_port d g). change (ifaces (effect (Destroyed d) v) !! Device n = Some (without_port d g) ∧ is_port_of m (without_port d g)).
    rewrite destroyed_lookup, decide_False, Hgi by done. split; [done|]. unfold is_port_of, without_port in *. destruct (ikind g); try done.
    apply list_elem_of_filter. by split.
  - intros m (g & Hgi & Hp). destruct (destroyed_port d v (Device n) g m Hgi Hp) as (h & Hh & Hph & _). by exists h.
  - intros i k H. destruct (decide (i = d)) as [->|Hne]; [right; split; [done|]|left].
    + change (ifaces (effect (Destroyed d) v) !! d = None). rewrite destroyed_lookup. by rewrite decide_True.
    + apply (carries_ext (effect (Destroyed d) v)); [done|]. by apply destroyed_carries.
Qed.

Definition alike_vlans (n n' : NetworkManifest) : Prop :=
  settings n' = settings n ∧ Device n' = Device n ∧ VLANs n' = VLANs n ∧ AppliedMembers n' = AppliedMembers n ∧ AppliedAddress n' = AppliedAddress n.

Lemma filter_others d os vs : d ∉ v_device <$> vs →
  List.filter (λ w, negb (String.eqb (v_device w) d)) (os ++ vs)%list = (List.filter (λ w, negb (String.eqb (v_device w) d)) os ++ vs)%list.
Proof.
  intros H. rewrite List.filter_app. f_equal. apply forallb_filter_id, forallb_forall. intros w Hw%list_elem_of_In.
  apply negb_true_iff, String.eqb_neq. intros E. apply H. rewrite <- E. by apply list_elem_of_fmap_2.
Qed.

Lemma wp_drop_vlans l n v os : going n v → AppliedVLANs n = (os ++ VLANs n)%list → (∀ o, o ∈ os → o ∈ l ∧ v_device o ∉ desired n) →
  (∀ a, a ∈ l → ifaces v !! v_device a = None ∨ carries v (v_device a) (key a)) →
  wp (drop_vlans uuid hostname_rfc1123 ParseCIDR4 (desired n) l n) v (λ r v', ∃ n', r = inl n' ∧ going n' v' ∧ alike_vlans n n' ∧
    AppliedVLANs n' = VLANs n' ∧ (∀ i k, carries v' i k → carries v i k) ∧ (∀ i, ifaces v !! i = None → ifaces v' !! i = None) ∧
    (∀ a, a ∈ l → v_device a ∉ desired n → v_borrowed a = false → ifaces v' !! v_device a = None) ∧
    (∀ i, is_up v i → i ∈ desired n ∨ (∀ k, ¬ carries v i k) → is_up v' i) ∧
    (∀ m, m ∈ desired n → ports n v m → ports n' v' m) ∧ (∀ m, ports n' v' m → ports n v m)).
Proof.
  unfold drop_vlans. revert n v os. induction l as [|a l IH]; intros n v os Hg Ea Ho Hl; cbn [fold_checked].
  { apply safe_ret; [done|]. exists n. split_and!; try done.
    - destruct os as [|o os]; [done|]. destruct (Ho o ltac:(by left)) as [?%elem_of_nil _]. done.
    - by intros a ?%elem_of_nil. }
  assert (∀ b, b ∈ l → ifaces v !! v_device b = None ∨ carries v (v_device b) (key b)) as Hl' by (intros b Hb; apply Hl; by right).
  apply safe_checked. destruct (decide (v_device a ∈ desired n)) as [Hd|Hd].
  { unfold drop_vlan at 1. apply includes_str_spec in Hd as Hd'. rewrite Hd'. apply safe_ret; [done|]. cbn [checked].
    eapply safe_mono; [apply (IH n v os); [done|done| |done]|done|].
    - intros o Hin. destruct (Ho o Hin) as [[->|?]%elem_of_cons Hne]; done.
    - intros r v' _ (n' & -> & Hg' & Hal & Hav & H1 & H2 & H3 & H4 & H5 & H6). exists n'. split_and!; try done.
      intros b [->|Hb]%elem_of_cons; [done|by apply H3]. }
  eapply safe_mono; [apply wp_drop_vlan; [done|apply Hl; by left|done]|done|].
  intros r v1 _ (-> & Hg1 & F1 & F2 & F3 & F4 & F5 & F6 & F7). cbn [checked]. set (d := v_device a) in *. set (n1 := forget_vlan d n) in *.
  assert (d ∉ v_device <$> VLANs n) as Hdv by (intros H; apply Hd, elem_of_app; by right).
  eapply safe_mono; [apply (IH n1 v1 (List.filter (λ w, negb (String.eqb (v_device w) d)) os)); [done| | |]|done|].
  - cbn. rewrite Ea. by apply filter_others.
  - intros o [Hin E%negb_true_iff%String.eqb_neq]%list_elem_of_In%filter_In. apply list_elem_of_In in Hin.
    destruct (Ho o Hin) as [[->|?]%elem_of_cons ?]; [done|]. done.
  - intros b Hb. destruct (Hl' b Hb) as [H|H]; [left; by apply F2|]. destruct (F7 _ _ H) as [?|[_ ?]]; [by right|by left].
  - intros r v' _ (n' & -> & Hg' & (E1 & E2 & E3 & E4 & E5) & Hav & H1 & H2 & H3 & H4 & H5 & H6). exists n'. split_and!; try done.
    + auto.
    + intros i Hi. by apply H2, F2.
    + intros b [->|Hb]%elem_of_cons Hnd Hbo; [by apply H2, F3|by apply H3].
    + intros i Hi Hdes. assert (i ≠ d) as Hne.
      { intros ->. destruct Hdes as [?|Hno]; [done|]. destruct Hi as (f & Hf & _).
        destruct (Hl a ltac:(by left)) as [?|Hc]; [unfold d in *; congruence|by eapply Hno]. }
      apply H4; [by apply F4|]. destruct Hdes as [?|Hno]; [by left|right]. intros k Hk. by apply (Hno k), F1.
    + intros m Hm Hp. apply H5; [done|]. apply F5; [|done]. intros ->. done.
    + intros m Hm. by apply F6, H6.
Qed.

(** *** The address *)

Section address.
Context (ParseCIDR : string → option (string * option string)) (addr_text : string → string → string).

(** The text of an address is read as its IP, whatever address the host shows as that text; and as an IPv4 address with its netmask. *)
Definition names_ip (a : string) : Prop := ∀ ip mask, addr_text ip mask = a → ∃ m, ParseCIDR a = Some (ip, m).
Definition ipv4_text (a : string) : Prop := ∃ ip mask, a = addr_text ip mask ∧ ParseCIDR a = Some (ip, Some mask).

Definition shows (v : host) (d a : string) : Prop := ∃ f b, ifaces v !! d = Some f ∧ b ∈ addrs f ∧ addr_text b.1 b.2 = a.

Definition alike_members (n n' : NetworkManifest) : Prop :=
  settings n' = settings n ∧ Device n' = Device n ∧ VLANs n' = VLANs n ∧ AppliedVLANs n' = AppliedVLANs n ∧ AppliedMembers n' = AppliedMembers n.

Lemma going_address n v a : going n v → a = "" ∨ ParseCIDR4 a = true → going (with_applied_address a n) v.
Proof.
  intros [] Ha. split; try done. apply valid_bridge; [done|]. apply valid_bridge in g_valid0 as [Hs (? & ? & ? & ? & ?)]; [|done]. split; [exact Hs|].
  by split_and!.
Qed.

(** What changing addresses keeps. *)
Definition still (n : NetworkManifest) (v v' : host) : Prop :=
  (∀ i k, carries v' i k ↔ carries v i k) ∧ (∀ i, is_Some (ifaces v' !! i) ↔ is_Some (ifaces v !! i)) ∧
  (∀ i, is_up v i → is_up v' i) ∧ (∀ m, ports n v' m ↔ ports n v m).
Lemma still_refl n v : still n v v.
Proof. by split_and!. Qed.
Lemma still_trans n v v' v'' : still n v v' → still n v' v'' → still n v v''.
Proof. intros (A1 & A2 & A3 & A4) (B1 & B2 & B3 & B4). split_and!; [intros; by rewrite B1|intros; by rewrite B2|auto|intros; by rewrite B4]. Qed.
Lemma still_effect n c v : match c with UpFlag _ | Alias _ _ _ | Unalias _ _ => True | _ => False end → still n v (effect c v).
Proof.
  intros H. assert (benign n c) as Hb by by destruct c.
  split_and!; intros; [by apply (benign_carries n)|by apply (benign_some n)|by apply (is_up_benign n)|by apply ports_other].
Qed.

Lemma wp_RemoveAddress n v a f : names_ip a → going n v → ifaces v !! Device n = Some f →
  wp (RemoveAddress ParseCIDR addr_text (Device n) a) v (λ r v', r = None ∧ going n v' ∧ still n v v' ∧ ¬ shows v' (Device n) a).
Proof.
  intros Hcidr Hg Hf. unfold RemoveAddress. apply safe_bind. apply (wp_HasAddress _ _ _ f); [done|].
  destruct (existsb _ _) eqn:E; cbn [negb].
  - apply existsb_exists in E as (b & Hb & Eb%String.eqb_eq). destruct (Hcidr _ _ Eb) as [mask Ep]. rewrite Ep.
    apply wp_ifconfig; [cbn; by rewrite Hf|]. split_and!; [done|by apply going_benign; [cbn; rewrite Hf|..]|by apply still_effect|].
    intros (g & c & Hgv & Hc & Ec). rewrite effect_lookup, decide_False, Hf in Hgv by done. injection Hgv as <-. cbn in Hc. rewrite decide_True in Hc by done.
    apply list_elem_of_filter in Hc as [Hne _]. apply Hne. destruct (Hcidr _ _ Ec) as [? Ep']. congruence.
  - apply safe_ret; [done|]. split_and!; [done..|apply still_refl|]. intros (g & c & Hgv & Hc & Ec). assert (g = f) as -> by congruence.
    apply not_true_iff_false in E. apply E, existsb_exists. exists c. split; [by apply list_elem_of_In|]. by apply String.eqb_eq.
Qed.

Lemma wp_SetAddress n v ip mask f : ParseCIDR (addr_text ip mask) = Some (ip, Some mask) → going n v → ifaces v !! Device n = Some f →
  wp (SetAddress ParseCIDR (Device n) (addr_text ip mask)) v (λ r v', r = None ∧ going n v' ∧ still n v v' ∧ shows v' (Device n) (addr_text ip mask) ∧
    ∀ a, a ≠ addr_text ip mask → ¬ shows v (Device n) a → ¬ shows v' (Device n) a).
Proof.
  intros Hcidr Hg Hf. unfold SetAddress. rewrite Hcidr. apply safe_bind, wp_ifconfig; [cbn; by rewrite Hf|]. apply safe_ret; [done|].
  assert (ifaces (effect (Alias (Device n) ip mask) v) !! Device n = Some (with_addr (ip, mask) f)) as E.
  { rewrite effect_lookup, decide_False, Hf by done. cbn. by rewrite decide_True. }
  split_and!; [done|by apply going_benign; [cbn; rewrite Hf|..]|by apply still_effect| |].
  - exists (with_addr (ip, mask) f), (ip, mask). split_and!; [done| |done]. cbn. apply elem_of_app. right. by apply list_elem_of_singleton.
  - intros a Hne Hno (g & c & Hgv & Hc & Ec). rewrite E in Hgv. injection Hgv as <-. cbn in Hc.
    apply elem_of_app in Hc as [[_ Hc]%list_elem_of_filter| ->%list_elem_of_singleton]; [|by destruct Hne].
    apply Hno. by exists f, c.
Qed.

Lemma going_address_ok n v : going n v → Address n = "" ∨ ParseCIDR4 (Address n) = true.
Proof. intros []. by apply valid_bridge in g_valid0 as [(_ & _ & _ & _ & _ & ? & _) _]. Qed.
Lemma going_device n v : going n v → ∃ f, ifaces v !! Device n = Some f.
Proof. intros []. destruct g_bridge0 as (f & _ & ? & _). by exists f. Qed.

Lemma wp_apply_address n v : going n v → Address n = "" ∨ ipv4_text (Address n) → names_ip (AppliedAddress n) →
  wp (apply_address ParseCIDR addr_text n) v (λ r v', ∃ n', r = inl n' ∧ going n' v' ∧ alike_members n n' ∧ still n v v' ∧
    (AppliedAddress n' = "" ∨ AppliedAddress n' = Address n) ∧ (Address n ≠ "" → shows v' (Device n) (Address n)) ∧
    (AppliedAddress n ≠ "" → AppliedAddress n ≠ Address n → ¬ shows v' (Device n) (AppliedAddress n))).
Proof.
  intros Hg Hcan Hap0. unfold apply_address. apply safe_checked.
  apply (safe_mono _ _ (λ _, True) _ (λ r v1, ∃ n1, r = inl n1 ∧ going n1 v1 ∧ alike_members n n1 ∧ still n v v1 ∧
    (AppliedAddress n1 = "" ∨ AppliedAddress n1 = Address n) ∧
    (AppliedAddress n ≠ "" → AppliedAddress n ≠ Address n → ¬ shows v1 (Device n) (AppliedAddress n)))); [|done|].
  - destruct (truthy (AppliedAddress n) && negb (String.eqb (AppliedAddress n) (Address n))) eqn:E.
    + destruct (going_device n v Hg) as [f Hf]. apply safe_try. eapply safe_mono; [by apply (wp_RemoveAddress n v (AppliedAddress n) f)|done|].
      intros r v1 _ (-> & Hg1 & Hst & Hno). apply safe_ret; [done|]. eexists. split_and!; [done|by apply going_address; [|left]|done|done|by left|done].
    + apply safe_ret; [done|]. exists n. split_and!; try done.
      * apply andb_false_iff in E as [E|E]; [left; by apply truthy_false|right]. apply negb_false_iff in E. by apply String.eqb_eq.
      * intros H1 H2. apply truthy_true in H1. apply String.eqb_neq in H2. by rewrite H1, H2 in E.
  - intros r v1 _ (n1 & -> & Hg1 & (A1 & A2 & A3 & A4 & A5) & Hst & Hap & Hno). cbn [checked].
    assert (Address n1 = Address n) as Eadr by by injection A1. destruct (going_device n1 v1 Hg1) as [f Hf]. rewrite Eadr.
    apply safe_bind. apply (safe_mono _ _ (λ _, True) _ (λ (has : bool) v2, v2 = v1 ∧ (has = true → Address n ≠ "" → shows v1 (Device n) (Address n)) ∧ (has = false → Address n ≠ ""))); [|done|].
    { destruct (truthy (Address n)) eqn:Et; [|apply truthy_false in Et; by apply safe_ret]. apply truthy_true in Et. apply (wp_HasAddress _ _ _ f); [done|].
      split_and!; [done| |done]. intros H _. apply existsb_exists in H as (b & Hb & Eb%String.eqb_eq). rewrite <- A2. exists f, b. split_and!; [done|by apply list_elem_of_In|done]. }
    intros has v2 _ (-> & Hhas & Hnot). destruct has.
    + apply safe_ret; [done|]. exists n1. split_and!; try done. by apply Hhas.
    + specialize (Hnot eq_refl). destruct Hcan as [?|(ip & mask & Ea & Ep)]; [done|]. rewrite Ea in *.
      apply safe_try. eapply safe_mono; [by apply (wp_SetAddress n1 v1 ip mask f)|done|].
      intros r v3 _ (-> & Hg3 & Hst3 & Hsh & Hkeep). apply safe_ret; [done|]. eexists. split_and!; [done| |done| |by right| |].
      * apply going_address; [done|]. rewrite <- Ea. by eapply going_address_ok.
      * eapply still_trans; [exact Hst|]. destruct Hst3 as (B1 & B2 & B3 & B4). split_and!; [done..|]. intros m. specialize (B4 m). unfold ports in *. by rewrite A2 in B4.
      * intros _. by rewrite <- A2.
      * intros H1 H2. rewrite <- A2. apply Hkeep; [done|]. rewrite A2. by apply Hno.
Qed.

(** *** The bridge *)

(** A network that can be made: its manifest is valid, what it asks for exists and is free, the VLANs it applied are
    there, and so is its bridge, unless the server may make one. *)
Record ready (n : NetworkManifest) (v : host) : Prop := {
  r_sane : sane v;
  r_valid : valid n = true;
  r_id : ValidateID (ID n) = None;
  r_mode : Mode n = ModeBridge;
  r_bridge : (∃ f p, ifaces v !! Device n = Some f ∧ ikind f = Bridge p) ∨
    (ifaces v !! Device n = None ∧ (Device n = "" ∨ Owned n = true) ∧ first_free "bridge" v ≠ None);
  r_members : ∀ m, m ∈ Members n → is_Some (ifaces v !! m);
  r_parents : ∀ k, k ∈ key <$> VLANs n → is_Some (ifaces v !! k.1) ∧ ∀ k', ¬ carries v k.1 k';
  r_applied : ∀ a, a ∈ AppliedVLANs n → carries v (v_device a) (key a);
  r_free : ∀ m b f, wanted n v m → ifaces v !! b = Some f → is_port_of m f → b = Device n;
  r_apart : ∀ m k, carries v m k → k ∈ key <$> VLANs n ∨ k ∈ key <$> AppliedVLANs n → m ∉ Members n;
  r_applied_members : NoDup (AppliedMembers n);
  r_room : room v (S (length (VLANs n)));
  r_address : Address n = "" ∨ ipv4_text (Address n);
  r_applied_address : names_ip (AppliedAddress n)
}.

Lemma ready_going n v : ready n v → (∃ f p, ifaces v !! Device n = Some f ∧ ikind f = Bridge p) → going n v.
Proof. by intros []. Qed.

Lemma ready_made n v d : ready n v → ifaces v !! Device n = None → ifaces v !! d = None → named "bridge" d →
  going (with_applied_members [] (with_device d true n)) (with_ifaces (<[d := new_iface "bridge"]>) v).
Proof.
  intros [] Hn Hd [Hd1 Hd2]. set (v1 := with_ifaces _ v). set (n1 := with_applied_members _ _).
  assert (∀ i f, ifaces v1 !! i = Some f → (i = d ∧ f = new_iface "bridge") ∨ ifaces v !! i = Some f) as Hnew.
  { intros i f. unfold v1. cbn. intros [[-> <-]|[_ ?]]%lookup_insert_Some; [by left|by right]. }
  assert (∀ i, is_Some (ifaces v !! i) → ifaces v1 !! i = ifaces v !! i) as Hold.
  { intros i [f Hf]. unfold v1. cbn. rewrite lookup_insert_ne; [done|congruence]. }
  assert (∀ i k, carries v1 i k ↔ carries v i k) as Hc.
  { intros i k. split; intros (f & Hf & E).
    - apply Hnew in Hf as [[_ ->]|Hf]; [done|]. by exists f.
    - exists f. by rewrite Hold by by rewrite Hf. }
  assert (∀ i f m, ifaces v1 !! i = Some f → is_port_of m f → ifaces v !! i = Some f) as Hport.
  { intros i f m [[_ ->]|Hf]%Hnew Hp; [by apply elem_of_nil in Hp|done]. }
  split; try done.
  - split; [|by setoid_rewrite Hc; apply r_sane0|by setoid_rewrite Hc; apply r_sane0|].
    2: { unfold v1. cbn. rewrite lookup_insert_ne; [apply r_sane0|]. by intros ->. }
    intros i f p m Hf E Hin.
    assert (ifaces v !! i = Some f) as Hf' by (apply (Hport i f m Hf); unfold is_port_of; by rewrite E).
    pose proof (sane_ports v r_sane0 i f p m Hf' E Hin) as H. by rewrite Hold.
  - apply valid_bridge; [done|]. apply valid_bridge in r_valid0 as [Hs (? & ? & ? & ? & ?)]; [|done]. split; [exact Hs|]. split_and!; [done| |done|done|constructor].
    right. split_and!; [done|done|]. intros Hin. destruct (r_members0 d Hin). congruence.
  - exists (new_iface "bridge"), []. split; [apply lookup_insert_eq|done].
  - intros m Hm. rewrite Hold; by apply r_members0.
  - intros k Hk. destruct (r_parents0 k Hk) as [H1 H2]. rewrite Hold by done. split; [done|]. by setoid_rewrite Hc.
  - intros a Ha. rewrite Hc. by apply r_applied0.
  - intros m b f Hw Hf Hp. pose proof (Hport b f m Hf Hp) as Hf'. assert (wanted n v m) as Hw' by (unfold wanted in *; by setoid_rewrite Hc in Hw).
    rewrite (r_free0 m b f Hw' Hf' Hp) in Hf'. congruence.
  - intros m k. rewrite Hc. apply r_apart0.
Qed.

Lemma bridge_prefix n v : going n v → truthy (Device n) = true ∧ starts_with "bridge" (Device n) = true.
Proof.
  intros Hg. pose proof (g_valid n v Hg) as Hv. apply valid_bridge in Hv as [_ (_ & H & _)]; [|apply Hg].
  assert (numbered "bridge" (Device n) = true → truthy (Device n) = true ∧ starts_with "bridge" (Device n) = true) as Hn.
  { intros Hd. split; [by destruct (Device n)|by apply numbered_starts]. }
  destruct H as [E|(H & _)]; [|by apply Hn]. destruct (going_device n v Hg) as [f Hf]. rewrite E, (sane_blank v) in Hf; [done|apply Hg].
Qed.

Lemma wp_ensure_device n v : ready n v →
  wp (ensure_device uuid hostname_rfc1123 ParseCIDR4 n) v (λ r v', ∃ n', r = inl n' ∧ going n' v' ∧ settings n' = settings n ∧ VLANs n' = VLANs n ∧
    AppliedVLANs n' = AppliedVLANs n ∧ AppliedAddress n' = AppliedAddress n ∧ NoDup (AppliedMembers n') ∧ room v' (length (VLANs n)) ∧
    (is_Some (ifaces v !! Device n) → n' = n)).
Proof.
  intros Hr. unfold ensure_device, exists_device. destruct (r_bridge n v Hr) as [Hb|(Hnone & Hown & Hfree)].
  - pose proof (ready_going n v Hr Hb) as Hg. destruct (bridge_prefix n v Hg) as [Ht Hpre]. destruct Hb as (f & p & Hf & Ep). rewrite Ht.
    apply safe_bind, wp_exists_true; [by rewrite Hf|]. apply safe_bind. unfold IsBridge. apply safe_bind, (wp_inspect _ f); [done|].
    apply safe_ret; [done|]. unfold show. rewrite Ep. cbn [configuration]. rewrite Hpre. cbn [andb negb].
    apply safe_bind, wp_exists_true; [by rewrite Hf|]. apply safe_ret; [done|]. exists n. split_and!; try done; [apply Hr|].
    destruct (r_room n v Hr) as (X & ? & ?). exists X. split; [lia|done].
  - assert (wp (if truthy (Device n) then Exists (Device n) else Ret false) v (λ b v', b = false ∧ v' = v)) as Hex.
    { destruct (truthy (Device n)); [|by apply safe_ret]. apply wp_exists. split; [|done]. apply bool_decide_eq_false_2. rewrite Hnone. by intros []. }
    apply safe_bind. eapply safe_mono; [exact Hex|done|]. intros b v' _ [-> ->]. apply safe_bind, safe_ret; [done|]. cbn [negb].
    apply safe_bind. eapply safe_mono; [exact Hex|done|]. intros b v' _ [-> ->].
    assert (truthy (Device n) && negb (Owned n) = false) as -> by (destruct Hown as [->| ->]; [done|by rewrite andb_false_r]).
    apply safe_checked. unfold create. apply safe_checked. command as r v' Hd; [done|]. destruct Hd as [Hd Hn]. destruct (Hn Hfree) as [d ->].
    destruct Hd as (Hnd & Hd & ->). split; [done|]. assert (String.eqb d "" = false) as -> by (apply String.eqb_neq; intros ->; by destruct Hnd).
    apply safe_ret; [done|]. cbn [checked]. pose proof (ready_made n v d Hr Hnone Hd Hnd) as Hg. apply wp_save_or; [apply Hg|apply Hg|].
    eexists. split_and!; [done|by eapply going_ext, Hg|done|done|done|done|constructor| |].
    + destruct (room_create v (length (VLANs n)) d (new_iface "bridge") (r_room n v Hr)) as (X & HX1 & HX2). by exists X.
    + intros [f Hf]. congruence.
Qed.

Lemma carries_key v i k k' : carries v i k → carries v i k' → k = k'.
Proof. intros (f & Hf & E) (g & Hg & E'). congruence. Qed.

Lemma devices_distinct v l : NoDup (key <$> l) → (∀ w, w ∈ l → carries v (v_device w) (key w)) → NoDup (v_device <$> l).
Proof.
  induction l as [|w l IH]; intros Hnd Hc; [constructor|]. cbn in Hnd. apply NoDup_cons in Hnd as [Hw Hnd]. cbn. apply NoDup_cons. split.
  - intros (u & E & Hu)%list_elem_of_fmap. apply Hw. replace (key w) with (key u); [by apply list_elem_of_fmap_2|].
    eapply (carries_key v (v_device u)); [apply Hc; by right|rewrite <- E; apply Hc; by left].
  - apply IH; [done|]. intros u Hu. apply Hc. by right.
Qed.

Lemma desired_wanted n v m : going n v → (∀ w, w ∈ VLANs n → w ∈ AppliedVLANs n) → m ∈ desired n → wanted n v m.
Proof.
  intros Hg Hin [Hm|(w & -> & Hw)%list_elem_of_fmap]%elem_of_app; [by left|right]. exists (key w). split; [by apply list_elem_of_fmap_2|].
  by apply (g_applied n v Hg), Hin.
Qed.
Lemma desired_distinct n v : going n v → (∀ w, w ∈ VLANs n → w ∈ AppliedVLANs n) → NoDup (desired n).
Proof.
  intros Hg Hin. apply NoDup_app. split_and!.
  - pose proof (g_valid n v Hg) as Hv. by apply valid_bridge in Hv as [(_ & _ & _ & _ & _ & _ & ? & _) _]; [|apply Hg].
  - intros m Hm (w & -> & Hw)%list_elem_of_fmap. apply (g_apart n v Hg _ (key w)) in Hm; [done| |left; by apply list_elem_of_fmap_2].
    by apply (g_applied n v Hg), Hin.
  - eapply devices_distinct; [by eapply going_keys|]. intros w Hw. by apply (g_applied n v Hg), Hin.
Qed.
Lemma stale_not_desired n v a : going n v → (∀ w, w ∈ VLANs n → w ∈ AppliedVLANs n) → a ∈ AppliedVLANs n → key a ∉ key <$> VLANs n → v_device a ∉ desired n.
Proof.
  intros Hg Hin Ha Hk [Hm|(w & E & Hw)%list_elem_of_fmap]%elem_of_app; pose proof (g_applied n v Hg a Ha) as Hc.
  - apply (g_apart n v Hg _ (key a)) in Hm; [done..|]. right. by apply list_elem_of_fmap_2.
  - apply Hk. replace (key a) with (key w); [by apply list_elem_of_fmap_2|]. eapply (carries_key v (v_device w)); [by apply (g_applied n v Hg), Hin|by rewrite <- E].
Qed.

(** A network that is as its manifest says. *)
Record settled (n : NetworkManifest) (v : host) : Prop := {
  d_going : going n v;
  d_saved : manifests v !! ID n = Some n;
  d_up : is_up v (Device n);
  d_ports : ∀ m, m ∈ desired n → ports n v m ∧ is_up v m;
  d_vlans : AppliedVLANs n = VLANs n;
  d_parents : ∀ k, k ∈ key <$> VLANs n → is_up v k.1;
  d_members : ∀ m, m ∈ AppliedMembers n → m ∈ desired n;
  d_address : AppliedAddress n = "" ∨ AppliedAddress n = Address n;
  d_shows : Address n ≠ "" → shows v (Device n) (Address n)
}.

(** What was applied before and is not asked for any more is gone. *)
Definition cleared (n : NetworkManifest) (v : host) (n' : NetworkManifest) (v' : host) : Prop :=
  (∀ a, a ∈ AppliedVLANs n → key a ∉ key <$> VLANs n → v_borrowed a = false → ifaces v' !! v_device a = None) ∧
  (is_Some (ifaces v !! Device n) → ∀ m, m ∈ AppliedMembers n → m ∉ desired n' → ¬ ports n' v' m) ∧
  (AppliedAddress n ≠ "" → AppliedAddress n ≠ Address n → ¬ shows v' (Device n') (AppliedAddress n)).

Lemma wp_all_exist what l v : (∀ x, x ∈ l → is_Some (ifaces v !! x)) → wp (all_exist what l) v (λ r v', r = None ∧ v' = v).
Proof.
  induction l as [|x l IH]; intros Hl; cbn [all_exist]; [by apply safe_ret|]. apply safe_bind, wp_exists_true; [apply Hl; by left|].
  apply IH. intros y Hy. apply Hl. by right.
Qed.

Lemma shows_up n v i a : shows (effect (UpFlag i) v) (Device n) a ↔ shows v (Device n) a.
Proof.
  unfold shows. setoid_rewrite (benign_lookup n); [|done]. assert (∀ f, addrs (edit (UpFlag i) (Device n) f) = addrs f) as E by (intros f; cbn; by case_decide).
  split; [intros (f & b & (g & Hg & ->)%fmap_Some & Hb & Ea); exists g, b; by rewrite E in Hb|].
  intros (f & b & Hf & Hb & Ea). exists (edit (UpFlag i) (Device n) f), b. by rewrite Hf, E.
Qed.

Lemma wp_ensure_bridge n v : ready n v →
  wp (ensure_bridge ParseCIDR addr_text uuid hostname_rfc1123 ParseCIDR4 n) v (λ r v', ∃ n', r = inl n' ∧ settings n' = settings n ∧ settled n' v' ∧ cleared n v n' v').
Proof.
  intros Hr. unfold ensure_bridge.
  apply safe_try. eapply safe_mono; [apply wp_all_exist, (r_members n v Hr)|done|]. intros e v' _ [-> ->].
  apply safe_try. eapply safe_mono; [apply wp_all_exist|done|].
  { intros x (w & -> & Hw)%list_elem_of_fmap. apply (r_parents n v Hr (key w)). by apply list_elem_of_fmap_2. }
  intros e v' _ [-> ->].
  apply safe_checked. eapply safe_mono; [by apply wp_ensure_device|done|]. intros r v1 _ (n1 & -> & Hg1 & Es1 & Ev1 & Ea1 & Ead1 & Hnd1 & Hroom & Hsame).
  apply safe_checked. assert (Members n = Members n1) as Em by by injection Es1. 
  replace (Members n1) with (Members n1 ++ (v_device <$> []))%list by apply app_nil_r. rewrite <- Ev1 in Hroom.
  eapply safe_mono; [apply (wp_apply_vlans [] (VLANs n1) n1 v1 (AppliedVLANs n1)); [done|done|by rewrite app_nil_r|by intros o _ ?%elem_of_nil|by intros w ?%elem_of_nil|done]|done|].
  intros r v2 _ (n2 & -> & Hg2 & (os & Hos & Ho1 & Ho2) & (Es2 & Ed2 & Eam2 & Eaa2) & Hup2). cbn [checked fst snd].
  assert (∀ w, w ∈ VLANs n2 → w ∈ AppliedVLANs n2) as Hin2 by (intros w Hw; rewrite Hos; apply elem_of_app; by right).
  pose proof (desired_distinct n2 v2 Hg2 Hin2) as Hdd. destruct (going_device n2 v2 Hg2) as [f Hf].
  apply safe_checked. unfold Members_of. apply safe_checked, (wp_inspect _ f); [done|]. apply safe_ret; [done|]. cbn [checked].
  assert (∀ m, m ∈ members (show f) ↔ ports n2 v2 m) as Hmem.
  { intros m. unfold ports, is_port_of, show. rewrite Hf. split.
    - intros H. exists f. split; [done|]. destruct (ikind f); [done|by apply elem_of_nil in H..].
    - intros (g & [= <-] & H). by destruct (ikind f). }
  apply safe_checked. eapply safe_mono; [apply (wp_drop_members (AppliedMembers n2) (desired n2) (members (show f)) n2 v2); [done|by rewrite Eam2|]|done|].
  { intros m _ _ H. by apply Hmem. }
  intros r v3 _ (n3 & -> & Hg3 & (Es3 & Ed3 & Ev3 & Ea3 & Ead3) & Hm3 & Hu3 & Hp3 & Hp3' & Hp3''). cbn [checked].
  assert (desired n3 = desired n2) as Edes3. { unfold desired. rewrite Ev3. f_equal. by injection Es3. }
  assert (∀ w, w ∈ VLANs n3 → w ∈ AppliedVLANs n3) as Hin3 by (rewrite Ev3, Ea3; exact Hin2).
  apply safe_checked. eapply safe_mono; [apply (wp_add_members (desired n2) (members (show f)) n3 v3); [done|done| |]|done|].
  { intros m Hm. apply desired_wanted; [done..|]. by rewrite Edes3. }
  { intros m Hm. rewrite Hmem. split; [intros H; apply Hp3'; [done|by left]|apply Hp3]. }
  intros r v4 _ (n4 & -> & Hg4 & (Es4 & Ed4 & Ev4 & Ea4 & Ead4) & Hm4 & Hl4 & Hu4 & Hp4 & Hp4' & Hc4). cbn [checked].
  assert (desired n4 = desired n2) as Edes4. { rewrite <- Edes3. unfold desired. rewrite Ev4. f_equal. by injection Es4. }
  assert (∀ w, w ∈ VLANs n4 → w ∈ AppliedVLANs n4) as Hin4 by (rewrite Ev4, Ea4; exact Hin3).
  assert (AppliedVLANs n4 = (os ++ VLANs n4)%list) as Eos by congruence.
  apply safe_checked. rewrite <- Edes4. eapply safe_mono; [apply (wp_drop_vlans (AppliedVLANs n4) n4 v4 os); [done|done| |]|done|].
  { intros o Ho. assert (o ∈ AppliedVLANs n4) as Hin by (rewrite Eos; apply elem_of_app; by left). split; [done|].
    eapply stale_not_desired; [done..|]. rewrite Ev4, Ev3. by apply Ho1. }
  { intros a Ha. right. by apply (g_applied n4 v4). }
  intros r v5 _ (n5 & -> & Hg5 & (Es5 & Ed5 & Ev5 & Eam5 & Ead5) & Hav5 & Hc5 & Hn5 & Hgone5 & Hu5 & Hp5 & Hp5'). cbn [checked].
  assert (desired n5 = desired n4) as Edes5. { unfold desired. rewrite Ev5. f_equal. by injection Es5. }
  assert (Address n5 = Address n) as Eadr by (assert (settings n5 = settings n) as E by congruence; by injection E).
  apply safe_checked. eapply safe_mono; [apply (wp_apply_address n5 v5); [done| |]|done|].
  { rewrite Eadr. apply Hr. }
  { replace (AppliedAddress n5) with (AppliedAddress n) by congruence. apply Hr. }
  intros r v6 _ (n6 & -> & Hg6 & (Es6 & Ed6 & Ev6 & Eav6 & Eam6) & (S1 & S2 & S3 & S4) & Hap6 & Hsh6 & Hno6). cbn [checked].
  assert (desired n6 = desired n4) as Edes6. { rewrite <- Edes5. unfold desired. rewrite Ev6. f_equal. by injection Es6. }
  destruct (going_device n6 v6 Hg6) as [f6 Hf6].
  apply safe_try, wp_ifconfig; [cbn; by rewrite Hf6|]. set (v7 := effect _ v6).
  assert (going n6 v7) as Hg7 by (apply going_benign; [cbn; by rewrite Hf6|done|done]).
  apply wp_save_or; [apply Hg7|apply Hg7|]. exists n6. split; [done|].
  assert (settings n6 = settings n) as Es by congruence. split; [done|].
  assert (∀ m, ports n6 v7 m ↔ ports n5 v5 m) as Hports.
  { intros m. unfold v7. rewrite ports_other by done. rewrite <- S4. unfold ports. by rewrite Ed6. }
  assert (∀ i, is_up v5 i → is_up v7 i) as Hups by (intros i Hi; apply (is_up_benign n6); [done|]; by apply S3).
  split; [split|split_and!].
  - by eapply going_ext, Hg7.
  - apply lookup_insert_eq.
  - apply (is_up_done v6). by rewrite Hf6.
  - intros m Hm. rewrite Edes6 in Hm. assert (m ∈ desired n2) as Hm2 by by rewrite <- Edes4. destruct (Hl4 m Hm2) as [H1 H2]. split.
    + apply Hports. by apply Hp5.
    + apply Hups, Hu5; [done|]. by left.
  - congruence.
  - intros k Hk. rewrite Ev6, Ev5, Ev4, Ev3 in Hk. apply list_elem_of_fmap in Hk as (w & -> & Hw). apply Hups, Hu5; [apply Hu4, Hu3; by apply Hup2|].
    right. apply (g_parents n4 v4 Hg4 (key w)). rewrite Ev4, Ev3. by apply list_elem_of_fmap_2.
  - intros m. rewrite Eam6, Eam5, Edes6, Edes4. intros [H|H]%Hm4; [|done]. apply Hm3 in H as [H1 H2]. by apply H2.
  - assert (Address n6 = Address n5) as E by by injection Es6. rewrite E. exact Hap6.
  - intros Hne. assert (Address n6 = Address n5) as E by by injection Es6. rewrite E in *. rewrite Ed6. apply (shows_up n5). by apply Hsh6.
  - intros a Ha Hk Hbo. rewrite <- Ea1 in Ha.
    assert (key <$> VLANs n2 = key <$> VLANs n) as Ek by (assert (settings n2 = settings n) as E by congruence; by injection E).
    assert (a ∈ os) as Hos' by (apply Ho2; [done|by rewrite Ek]). assert (a ∈ AppliedVLANs n4) as Ha4 by (rewrite Eos; apply elem_of_app; by left).
    assert (ifaces v5 !! v_device a = None) as Hnone.
    { apply Hgone5; [done| |done]. eapply stale_not_desired; [done..|]. rewrite Ev4, Ev3. by apply Ho1. }
    assert (ifaces v6 !! v_device a = None) as Hnone6. { apply eq_None_not_Some. rewrite S2, Hnone. by intros []. }
    change (ifaces v7 !! v_device a = None). unfold v7. by rewrite (benign_lookup n6), Hnone6 by done.
  - intros Hsome m Hm Hnd Hp. specialize (Hsame Hsome) as ->. rewrite Edes6, Edes4 in Hnd. apply Hports, Hp5', Hp4' in Hp as [Hp|?]; [|done].
    revert Hp. apply Hp3''; [by rewrite Eam2|done|]. destruct (decide (m ∈ members (show f))) as [?|Hno]; [by left|right]. by rewrite <- Hmem.
  - intros H1 H2 H3. assert (AppliedAddress n5 = AppliedAddress n) as Eaa by congruence. rewrite <- Eaa in *.
    change (shows v7 (Device n6) (AppliedAddress n5)) in H3. unfold v7 in H3. rewrite (shows_up n6) in H3. rewrite Ed6 in H3. revert H3.
    apply Hno6; [done|]. by rewrite Eadr.
Qed.

(** *** Again *)

Definition same_host (id : string) (v v' : host) : Prop :=
  ifaces v' = ifaces v ∧ refusing v' = refusing v ∧ ∀ i, i ≠ id → manifests v' !! i = manifests v !! i.
Lemma same_saved n v v' : same_host (ID n) v v' → same_host (ID n) v (with_manifest n v').
Proof. intros (E1 & E2 & E3). split_and!; [done..|]. intros i Hi. cbn. rewrite lookup_insert_ne by done. by apply E3. Qed.
Lemma same_finished n v v' : manifests v !! ID n = Some n → same_host (ID n) v v' → with_manifest n v' = v.
Proof.
  intros Hs (E1 & E2 & E3). destruct v as [i m r], v' as [i' m' r']. cbn in *. subst. unfold with_manifest. cbn. f_equal.
  apply map_eq. intros id. destruct (decide (id = ID n)) as [->|Hne]; [by rewrite lookup_insert_eq|]. rewrite lookup_insert_ne by done. by apply E3.
Qed.

Lemma up_id i v : is_up v i → effect (UpFlag i) v = v.
Proof.
  intros (f & Hf & E). destruct v as [m ms r]. unfold effect, with_ifaces. cbn in *. f_equal. apply map_eq. intros j.
  destruct (decide (i = j)) as [<-|Hne]; [|by rewrite lookup_alter_ne]. rewrite lookup_alter_eq, Hf. cbn. f_equal. destruct f as [k u a]. cbn in *. by subst.
Qed.
Lemma is_up_ext v v' i : ifaces v' = ifaces v → is_up v i → is_up v' i.
Proof. unfold is_up. by intros ->. Qed.
Lemma wp_up_again i v (Q : option string → host → Prop) : is_up v i → Q None v → wp (Up i) v Q.
Proof. intros Hu HQ. apply wp_ifconfig; [destruct Hu as (f & Hf & _); cbn; by rewrite Hf|]. by rewrite up_id. Qed.

Lemma recall_same applied w : w ∈ applied → NoDup (key <$> applied) → recall applied w = w.
Proof.
  unfold recall. intros Hin Hnd. assert (∀ l, (∀ a, a ∈ l → key a = key w → a = w) → fold_left (λ v a, if same_vlan a v then mkVlan (v_borrowed a) (v_parent v) (v_tag v) (v_device a) else v) l w = w) as Hf.
  { intros l. induction l as [|a l IH]; intros Ha; cbn; [done|]. destruct (same_vlan a w) eqn:E.
    - apply same_vlan_key in E. rewrite (Ha a ltac:(by left) E). destruct w. cbn. apply IH. intros b Hb. apply Ha. by right.
    - apply IH. intros b Hb. apply Ha. by right. }
  apply Hf. intros a Ha E. apply list_elem_of_lookup in Ha as [i Hi], Hin as [j Hj].
  assert (i = j) as <-; [|congruence]. eapply (NoDup_lookup _ _ _ (key w)); [done| |]; rewrite list_lookup_fmap; [rewrite Hi|rewrite Hj]; cbn; congruence.
Qed.

Lemma record_again w l r : key w ∉ key <$> (l ++ r)%list → record_vlan w (w :: l ++ r) = (l ++ r ++ [w])%list.
Proof.
  intros Hk. unfold record_vlan. cbn. assert (same_vlan w w = true) as -> by by apply same_vlan_key. cbn. rewrite app_assoc. f_equal.
  apply forallb_filter_id, forallb_forall. intros a Ha%list_elem_of_In. apply negb_true_iff, not_true_iff_false. intros E%same_vlan_key.
  apply Hk. rewrite <- E. by apply list_elem_of_fmap_2.
Qed.

Lemma manifest_id n : with_vlans (VLANs n) n = n.
Proof. by destruct n. Qed.

Lemma wp_reapply_vlans before after n des v0 v : going n v → VLANs n = (before ++ after)%list → AppliedVLANs n = (after ++ before)%list →
  (∀ k, k ∈ key <$> VLANs n → is_up v k.1) → same_host (ID n) v0 v →
  wp (apply_vlans uuid hostname_rfc1123 ParseCIDR4 before after n des) v (λ r v',
    r = inl (with_applied_vlans (VLANs n) n, (des ++ (v_device <$> after))%list) ∧ same_host (ID n) v0 v').
Proof.
  revert before n des v. induction after as [|w after IH]; intros before n des v Hg Ev Ea Hu Hs; cbn [apply_vlans].
  { apply safe_ret; [done|]. split; [|done]. rewrite app_nil_r in *. cbn in Ea. rewrite Ev, <- Ea. by destruct n. }
  pose proof (going_keys n v Hg) as Hnd. assert (w ∈ VLANs n) as Hw by (rewrite Ev; set_solver).
  assert (NoDup (key <$> AppliedVLANs n)) as Hnd' by (rewrite Ea; rewrite Ev in Hnd; rewrite fmap_app in *; by rewrite Permutation_app_comm).
  assert (recall (AppliedVLANs n) w = w) as Er by (apply recall_same; [rewrite Ea; set_solver|done]).
  assert (carries v (v_device w) (key w)) as Hc by (apply (g_applied n v Hg); rewrite Ea; set_solver).
  pose proof (sane_names v (g_sane n v Hg) _ _ Hc) as [Hnw _]. destruct Hc as (f & Hf & Ef).
  assert (truthy (v_device w) = true) as Ht by by destruct (v_device w).
  assert (is_up v (v_parent w)) as Hup by (apply (Hu (key w)); by apply list_elem_of_fmap_2).
  apply safe_checked. unfold apply_vlan. rewrite Er. apply safe_bind, wp_exists_true; [destruct Hup as (g & -> & _); done|]. cbn [negb].
  apply safe_checked. unfold resolveVLAN. rewrite Ht. cbn [negb]. apply safe_bind, wp_exists_true; [by rewrite Hf|].
  apply safe_bind. unfold ConfigureVLAN. apply safe_bind, (wp_inspect _ f); [done|]. unfold show. rewrite Ef. cbn [tagged]. unfold matches. cbn [tagged].
  rewrite bool_decide_eq_true_2 by done. apply safe_ret; [done|]. apply safe_ret; [done|]. cbn [checked fst snd].
  replace (mkVlan (negb (negb (v_borrowed w))) (v_parent w) (v_tag w) (v_device w)) with w by (rewrite negb_involutive; by destruct w).
  set (n1 := with_applied_vlans _ _). assert (n1 = with_applied_vlans (after ++ before ++ [w]) n) as En1.
  { unfold n1. rewrite <- Ev, manifest_id, Ea. cbn [app]. rewrite record_again; [done|]. rewrite Ea in Hnd'. cbn in Hnd'. by apply NoDup_cons in Hnd' as [? _]. }
  assert (going n1 v) as Hg1. { apply (going_recorded n v before after w w Hg Ev eq_refl). by exists f. }
  apply safe_checked, wp_save_or; [apply Hg1|apply Hg1|]. cbn [checked]. apply safe_try, wp_up_again; [by eapply is_up_ext, Hup|].
  apply safe_ret; [done|]. cbn [checked fst snd]. rewrite En1 in *.
  eapply safe_mono; [apply (IH (before ++ [w])%list); [by eapply going_ext, Hg1|cbn; by rewrite <- app_assoc|done| |]|done|].
  - intros k Hk. cbn in Hk. eapply is_up_ext; [|by apply Hu]. done.
  - by apply (same_saved (with_applied_vlans (after ++ before ++ [w]) n)).
  - intros r v' _ [-> Hs']. split; [|done]. f_equal. f_equal. by rewrite <- app_assoc.
Qed.

Lemma wp_keep_members previous des mem n v : (∀ m, m ∈ previous → m ∈ des) →
  wp (drop_members previous des mem n) v (λ r v', r = inl n ∧ v' = v).
Proof.
  induction previous as [|p previous IH]; intros Hd; cbn [drop_members]; [by apply safe_ret|].
  assert (includes_str des p = true) as -> by (apply includes_str_spec, Hd; by left). apply IH. intros m Hm. apply Hd. by right.
Qed.
Lemma wp_same_members l mem n v : (∀ m, m ∈ l → m ∈ mem ∧ is_up v m) →
  wp (add_members uuid hostname_rfc1123 ParseCIDR4 l mem n) v (λ r v', r = inl n ∧ v' = v).
Proof.
  unfold add_members. induction l as [|x l IH]; intros Hl; cbn [fold_checked]; [by apply safe_ret|]. destruct (Hl x) as [Hx Hu]; [by left|].
  apply safe_checked. unfold add_member. apply safe_bind, wp_exists_true; [destruct Hu as (g & -> & _); done|]. cbn [negb].
  assert (includes_str mem x = true) as -> by by apply includes_str_spec. apply safe_checked, safe_ret; [done|]. cbn [checked].
  apply safe_try, wp_up_again; [done|]. apply safe_ret; [done|]. cbn [checked]. apply IH. intros m Hm. apply Hl. by right.
Qed.
Lemma wp_keep_vlans des l n v : (∀ a, a ∈ l → v_device a ∈ des) →
  wp (drop_vlans uuid hostname_rfc1123 ParseCIDR4 des l n) v (λ r v', r = inl n ∧ v' = v).
Proof.
  unfold drop_vlans. induction l as [|a l IH]; intros Hl; cbn [fold_checked]; [by apply safe_ret|]. apply safe_checked. unfold drop_vlan.
  assert (includes_str des (v_device a) = true) as -> by (apply includes_str_spec, Hl; by left). apply safe_ret; [done|]. cbn [checked].
  apply IH. intros b Hb. apply Hl. by right.
Qed.
Lemma wp_keep_address n v : AppliedAddress n = "" ∨ AppliedAddress n = Address n → (Address n ≠ "" → shows v (Device n) (Address n)) →
  wp (apply_address ParseCIDR addr_text n) v (λ r v', r = inl n ∧ v' = v).
Proof.
  intros Ha Hs. unfold apply_address. apply safe_checked.
  assert (truthy (AppliedAddress n) && negb (String.eqb (AppliedAddress n) (Address n)) = false) as ->.
  { destruct Ha as [->| ->]; [done|]. by rewrite String.eqb_refl, andb_false_r. }
  apply safe_ret; [done|]. cbn [checked]. apply safe_bind. destruct (truthy (Address n)) eqn:E; [|by do 2 (apply safe_ret; [done|])].
  apply truthy_true in E. destruct (Hs E) as (f & b & Hf & Hb & Eb). apply (wp_HasAddress _ _ _ f); [done|].
  assert (existsb (λ b : string * string, String.eqb (addr_text b.1 b.2) (Address n)) (addrs f) = true) as ->.
  { apply existsb_exists. exists b. split; [by apply list_elem_of_In|]. by apply String.eqb_eq. }
  by apply safe_ret.
Qed.

Lemma wp_ensure_again n v : settled n v → wp (ensure_bridge ParseCIDR addr_text uuid hostname_rfc1123 ParseCIDR4 n) v (λ r v', r = inl n ∧ v' = v).
Proof.
  intros Hset. pose proof Hset as [Hg Hsaved Hup Hports Hvs Hpar Hmem _ _]. destruct (bridge_prefix n v Hg) as [Ht Hpre].
  destruct (g_bridge n v Hg) as (f & p & Hf & Ep). unfold ensure_bridge.
  apply safe_try. eapply safe_mono; [apply wp_all_exist, (g_members n v Hg)|done|]. intros e v' _ [-> ->].
  apply safe_try. eapply safe_mono; [apply wp_all_exist|done|].
  { intros x (w & -> & Hw)%list_elem_of_fmap. apply (g_parents n v Hg (key w)). by apply list_elem_of_fmap_2. }
  intros e v' _ [-> ->]. apply safe_checked. unfold ensure_device, exists_device. rewrite Ht.
  apply safe_bind, wp_exists_true; [by rewrite Hf|]. apply safe_bind. unfold IsBridge. apply safe_bind, (wp_inspect _ f); [done|].
  apply safe_ret; [done|]. unfold show at 1. rewrite Ep. cbn [configuration]. rewrite Hpre. cbn [andb negb].
  apply safe_bind, wp_exists_true; [by rewrite Hf|]. apply safe_ret; [done|]. cbn [checked].
  apply safe_checked. eapply safe_mono; [apply (wp_reapply_vlans [] (VLANs n) n (Members n) v v); [done|done|by rewrite app_nil_r|done|by split_and!]|done|].
  intros r v1 _ [-> Hs1]. cbn [checked fst snd]. fold (desired n).
  assert (with_applied_vlans (VLANs n) n = n) as En by (rewrite <- Hvs; by destruct n). rewrite En.
  assert (ifaces v1 = ifaces v) as Ei by apply Hs1.
  apply safe_checked. unfold Members_of. apply safe_checked, (wp_inspect _ f); [by rewrite Ei|]. apply safe_ret; [done|]. cbn [checked].
  apply safe_checked. eapply safe_mono; [by apply wp_keep_members|done|]. intros r v' _ [-> ->]. cbn [checked].
  apply safe_checked. eapply safe_mono; [apply wp_same_members|done|].
  { intros m Hm. destruct (Hports m Hm) as [(g & Hg' & Hp) Hu]. split; [|by eapply is_up_ext]. assert (g = f) as -> by congruence.
    unfold show, is_port_of in *. by rewrite Ep in *. }
  intros r v' _ [-> ->]. cbn [checked].
  apply safe_checked. eapply safe_mono; [apply wp_keep_vlans|done|].
  { intros a Ha. rewrite Hvs in Ha. by apply desired_device. }
  intros r v' _ [-> ->]. cbn [checked]. apply safe_checked. 
  eapply safe_mono; [apply wp_keep_address; [apply Hset|]|done|].
  { intros Hne. unfold shows. rewrite Ei. by apply (d_shows n v Hset). }
  intros r v' _ [-> ->]. cbn [checked]. apply safe_try, wp_up_again; [by eapply is_up_ext|]. apply wp_save_or; [apply Hg|apply Hg|].
  split; [done|]. by apply same_finished.
Qed.

(** ** The whole function *)

Lemma wp_locked {A} (p : prog (A + string)) v (Q : A + string → host → Prop) : wp p v Q → wp (locked p) v Q.
Proof.
  intros H. unfold locked. apply safe_try. command as r v' Hd; [done|]. destruct Hd as [Hd Hr]. cbn in Hd, Hr. subst. split; [done|].
  apply safe_bind. eapply safe_mono; [exact H|done|]. intros x v1 _ Hx. apply safe_bind. command as c v2 Hd; [done|]. destruct Hd as [Hd _]. cbn in Hd. subst.
  split; [done|]. by apply safe_ret.
Qed.
Lemma wp_Load n v (Q : NetworkManifest + string → host → Prop) : manifests v !! ID n = Some n → valid n = true → ValidateID (ID n) = None →
  Q (inl n) v → wp (Load uuid hostname_rfc1123 ParseCIDR4 (ID n)) v Q.
Proof.
  intros Hs Hv Hid HQ. unfold Load. rewrite Hid. apply safe_checked. command as r v' Hd; [done|]. destruct Hd as [[-> _] Hr]. cbn in Hr.
  rewrite (Hr n Hs). split; [done|]. cbn [checked]. rewrite Hv. cbn [negb]. rewrite String.eqb_refl. by apply safe_ret.
Qed.

Lemma wp_Ensure n n0 v (Q : NetworkManifest + string → host → Prop) : Mode n = ModeBridge → ID n = ID n0 → manifests v !! ID n0 = Some n0 →
  valid n0 = true → ValidateID (ID n0) = None → Mode n0 = ModeBridge →
  wp (ensure_bridge ParseCIDR addr_text uuid hostname_rfc1123 ParseCIDR4 n0) v Q →
  wp (Ensure ParseCIDR addr_text uuid hostname_rfc1123 ParseCIDR4 n false) v Q.
Proof.
  intros Hm Hid Hs Hv Hi Hm0 H. unfold Ensure. rewrite Hm, Hid. apply wp_locked, safe_checked, wp_Load; [done..|]. cbn [checked].
  by rewrite bool_decide_eq_true_2.
Qed.
End address.
End converge.

(** C3. Applying a network achieves what its manifest asks for. On a host that carries out what it accepts, for a network
    whose manifest is valid, whose members and parents exist and are free, and whose own devices are there, whose
    address, if it has one, is an IPv4 one written as the host shows it, and the one it applied, if any, is read
    as the IP of the address shown so: the
    function succeeds; the bridge exists, is up and has every member and every VLAN, all up and carrying what they
    should, and the address; the VLANs, members and address applied before and asked for no more are gone; the
    manifest that is saved says so and keeps the user's settings; and applying the network again succeeds and changes
    nothing. *)
Theorem network_converges {M} `{!Machine cmd host reliable M} uuid hostname_rfc1123 ParseCIDR4 ParseCIDR addr_text n n0 (m : M) :
  manifests (view m) !! ID n0 = Some n0 → ID n = ID n0 → Mode n = ModeBridge → ready uuid hostname_rfc1123 ParseCIDR4 ParseCIDR addr_text n0 (view m) →
  let run := Ensure ParseCIDR addr_text uuid hostname_rfc1123 ParseCIDR4 n false in
  let first := exec run m in let again := exec run first.2 in
  ∃ n', first.1 = inl n' ∧ settings n' = settings n0 ∧ settled uuid hostname_rfc1123 ParseCIDR4 addr_text n' (view first.2) ∧
    cleared addr_text n0 (view m) n' (view first.2) ∧ again.1 = inl n' ∧ view again.2 = view first.2.
Proof.
  intros Hs Hid Hm Hr run first again.
  assert (wp run (view m) (λ r v', ∃ n', r = inl n' ∧ settings n' = settings n0 ∧ settled uuid hostname_rfc1123 ParseCIDR4 addr_text n' v' ∧ cleared addr_text n0 (view m) n' v')) as H.
  { apply (wp_Ensure _ _ _ _ _ n n0); [done|done|done|apply Hr|apply Hr|apply Hr|]. by apply wp_ensure_bridge. }
  destruct (safe_exec _ _ _ _ H) as [_ (n' & E & Es & Hset & Hcl)]. fold first in E, Hset, Hcl. exists n'. split; [done|]. split; [done|]. split; [done|]. split; [done|].
  assert (ID n' = ID n0) as Eid by by injection Es.
  assert (wp run (view first.2) (λ r v', r = inl n' ∧ v' = view first.2)) as H2.
  { pose proof Hset as [Hg Hsaved _ _ _ _ _ _ _]. apply (wp_Ensure _ _ _ _ _ n n'); [done|congruence|done|apply Hg|apply Hg|apply Hg|]. by apply wp_ensure_again. }
  destruct (safe_exec _ _ _ _ H2) as [_ H3]. exact H3.
Qed.

(** ** A network on the host in memory *)

Lemma accepted_accepts c v : accepted c v → accepts c v = true.
Proof.
  destruct c as [d|d ip mask|d ip|d|b m|b m|d tag parent]; cbn; rewrite ?andb_true_iff, ?bool_decide_eq_true; try done.
  - intros (H1 & H2 & H3). split_and!; [done..|]. intros i f Hf Hp. apply H3. by exists i, f.
  - intros (f & -> & Hp). by apply bool_decide_eq_true.
  - intros [(f & -> & E) H]. cbn. split; [by rewrite E|]. intros i g Hg. by eapply H.
Qed.

#[export, program] Instance reliable_host : Machine cmd host reliable host := { perform := memory_perform quiet_host; view := id }.
Next Obligation.
  intros B c v. split; [exact (perform_documented (Machine := memory_host quiet_host) B c v)|].
  destruct c as [name|name| |d|kind|c| | |id|n| |id]; cbn -[first_free accepts]; try done; eauto.
  - intros [f ->]. eauto.
  - destruct (first_free kind v); [eauto|done].
  - intros Ha%accepted_accepts. by rewrite Ha.
  - intros n ->. done.
Qed.

(** IPv4 addresses in CIDR notation: [net.ParseCIDR] on them, with the netmask in hexadecimal, and how [net.Addr] shows them. *)
Definition octet (s : string) : bool :=
  truthy s && all_chars is_digit s && (digits_value s <=? 255)%Z && String.eqb (pretty (digits_value s)) s.
Definition netmask4 (ones : nat) : string :=
  let m := (2 ^ 32 - 2 ^ (32 - Z.of_nat ones))%Z in
  "0x" ++ unchars ((λ i : nat, Json.hex_digit (Z.to_N (Z.land (Z.shiftr m (Z.of_nat (4 * i))) 15))) <$> reverse (seq 0 8)).
Definition cidr4 (s : string) : option (string * option string) :=
  match split_on "/" s with
  | [ip; ones] =>
      if (length (split_on "." ip) =? 4)%nat && forallb octet (split_on "." ip) && truthy ones && all_chars is_digit ones && (digits_value ones <=? 32)%Z
      then Some (ip, Some (netmask4 (Z.to_nat (digits_value ones)))) else None
  | _ => None
  end.
Definition text4 (ip mask : string) : string :=
  ip ++ "/" ++ match List.find (λ ones, String.eqb (netmask4 ones) mask) (seq 0 33) with Some ones => pretty ones | None => "" end.
Example cidr4_text : cidr4 "10.0.0.1/24" = Some ("10.0.0.1", Some "0xffffff00") ∧ text4 "10.0.0.1" "0xffffff00" = "10.0.0.1/24".
Proof. split; vm_compute; reflexivity. Qed.
Lemma text4_nonempty ip mask : text4 ip mask ≠ "".
Proof. unfold text4. by destruct ip. Qed.

Definition yes (s : string) : bool := true.
Definition lab : NetworkManifest :=
  mkManifest "n1" "lab" ModeBridge "" "" 0 "" "10.0.0.1/24" "" ["en1"] [mkVlan false "en0" 10 ""] false
    [mkVlan false "en0" 30 "vlan7"] "" [].
Definition lab_host : host :=
  mkHost {["en0" := sample_port; "en1" := sample_port; "vlan7" := mkIface (Vlan (Some ("en0", 30%Z))) true []]} {["n1" := lab]} ∅.

Lemma lab_carries i k : carries lab_host i k → i = "vlan7" ∧ k = ("en0", 30%Z).
Proof.
  intros (f & Hf & E). cbn in Hf. apply lookup_insert_Some in Hf as [[_ <-]|[_ Hf]]; [done|].
  apply lookup_insert_Some in Hf as [[_ <-]|[_ Hf]]; [done|]. apply lookup_singleton_Some in Hf as [<- <-]. cbn in E. split; [done|]. congruence.
Qed.
Lemma lab_ports i f m : ifaces lab_host !! i = Some f → ¬ is_port_of m f.
Proof.
  intros Hf. cbn in Hf. apply lookup_insert_Some in Hf as [[_ <-]|[_ Hf]]; [by intros []|].
  apply lookup_insert_Some in Hf as [[_ <-]|[_ Hf]]; [by intros []|]. apply lookup_singleton_Some in Hf as [_ <-]. by intros [].
Qed.

Lemma lab_ready : ready yes yes yes cidr4 text4 lab lab_host.
Proof.
  assert (carries lab_host "vlan7" ("en0", 30%Z)) as Hc by (eexists; split; reflexivity). split.
  - split; [|by intros i j k [-> _]%lab_carries [-> _]%lab_carries|by intros i k [-> ->]%lab_carries|done].
    intros i f p m Hf E Hin. destruct (lab_ports i f m Hf). unfold is_port_of. by rewrite E.
  - vm_compute. reflexivity.
  - reflexivity.
  - reflexivity.
  - right. split; [reflexivity|]. split; [by left|]. vm_compute. discriminate.
  - intros m ->%list_elem_of_singleton. by eexists.
  - intros k ->%list_elem_of_singleton. split; [by eexists|]. by intros k' [? _]%lab_carries.
  - intros a ->%list_elem_of_singleton. exact Hc.
  - intros m b f _ Hf Hp. by destruct (lab_ports b f m Hf).
  - intros m k [-> _]%lab_carries _. intros H%list_elem_of_singleton. discriminate.
  - constructor.
  - exists {["vlan0"; "vlan1"]}. split; [vm_compute; lia|]. intros name [->%elem_of_singleton| ->%elem_of_singleton]%elem_of_union; split; try reflexivity;
      apply list_elem_of_In; vm_compute; tauto.
  - right. exists "10.0.0.1", "0xffffff00". split; vm_compute; reflexivity.
  - intros ip mask H. by apply text4_nonempty in H.
Qed.

Lemma network_converges_witness :
  let out := exec (Machine0 := reliable_host) (Ensure cidr4 text4 yes yes yes lab false) lab_host in
  ikind <$> ifaces out.2 !! "bridge0" = Some (Bridge ["en1"; "vlan0"]) ∧ ifaces out.2 !! "vlan7" = None ∧
  ∃ n', out.1 = inl n' ∧ settled yes yes yes text4 n' out.2.
Proof.
  intros out. split; [vm_compute; reflexivity|]. split; [vm_compute; reflexivity|].
  destruct (network_converges (Machine0 := reliable_host) yes yes yes cidr4 text4 lab lab lab_host eq_refl eq_refl eq_refl lab_ready)
    as (n' & H1 & _ & H2 & _). exists n'. exact (conj H1 H2).
Defined.
