(* ===== verification/Backups.v ===== *)
(** * Backups of machines

    [src/pkg/engine/backup.go], the deletion of old backups of [schedule.go] and the store of manifests of
    [src/pkg/manifest/manifest.go], as programs of commands to the files and to the machine. The directories of disks,
    of backups and of work in progress are maps from names to files; a file may be written in part when a command
    fails, or when the process is killed, and the images of a running machine change at any time. *)

From stdpp Require Import sorting pretty.
From S2P Require Import Prelude Programs JsString Regex Storage.
Local Open Scope string_scope.

(** ** Manifests ([src/pkg/types/vm.go]) *)

Record VMDisk := mkVMDisk { disk_ID : string; disk_Name : string; SizeGiB : Z }.
Record VMUSBAssignment := mkVMUSBAssignment { VendorID : Z; ProductID : Z; Serial : string; Product : string }.
Record VMInterface := mkVMInterface { nic_ID : string; nic_Network : string; nic_MAC : string; nic_Addresses : list string }.
Record VMManifest := mkVMManifest {
  Interfaces : option (list VMInterface); ISOs : list string; BootOrder : list string; Disks : list VMDisk; USB : list VMUSBAssignment;
  ID : string; Name : string; Image : string; CPUs : Z; MemoryMiB : Z; DiskSizeGiB : Z; Network : string; Addresses : list string;
  Username : string; Password : string; SSHKey : string; Autostart : bool
}.
Definition with_id (id : string) (m : VMManifest) : VMManifest :=
  mkVMManifest (Interfaces m) (ISOs m) (BootOrder m) (Disks m) (USB m) id (Name m) (Image m) (CPUs m) (MemoryMiB m) (DiskSizeGiB m)
    (Network m) (Addresses m) (Username m) (Password m) (SSHKey m) (Autostart m).
Definition with_interfaces (l : option (list VMInterface)) (m : VMManifest) : VMManifest :=
  mkVMManifest l (ISOs m) (BootOrder m) (Disks m) (USB m) (ID m) (Name m) (Image m) (CPUs m) (MemoryMiB m) (DiskSizeGiB m)
    (Network m) (Addresses m) (Username m) (Password m) (SSHKey m) (Autostart m).
Definition renamed_off (name : string) (m : VMManifest) : VMManifest :=
  mkVMManifest (Interfaces m) (ISOs m) (BootOrder m) (Disks m) (USB m) (ID m) name (Image m) (CPUs m) (MemoryMiB m) (DiskSizeGiB m)
    (Network m) (Addresses m) (Username m) (Password m) (SSHKey m) false.

Definition EffectiveInterfaces (m : VMManifest) : list VMInterface :=
  match Interfaces m with Some l => l | None => [mkVMInterface "net0" (Network m) "" (Addresses m)] end.

(** ** Files and machines *)

(** The directories the functions work in: the disks of a machine, what is in progress for it, and its backups. *)
Inductive dir := DiskDir (id : string) | RunDir (id name : string) | BackupDir (id name : string).
#[export] Instance dir_eq_dec : EqDecision dir.
Proof. solve_decision. Defined.
Definition dir_code (d : dir) : string + (string * string + string * string) :=
  match d with DiskDir id => inl id | RunDir id n => inr (inl (id, n)) | BackupDir id n => inr (inr (id, n)) end.
Definition dir_decode (c : string + (string * string + string * string)) : dir :=
  match c with inl id => DiskDir id | inr (inl p) => RunDir p.1 p.2 | inr (inr p) => BackupDir p.1 p.2 end.
#[export, program] Instance dir_countable : Countable dir := inj_countable' dir_code dir_decode _.
Next Obligation. by intros []. Qed.

Notation folder := (gmap string string).
Record tree := mkTree { folders : gmap dir folder; manifests : gmap string string; running : gset string; clock : Z }.

(** What there is, and what there was when the commands so far were carried out. *)
Record host := mkHost { now : tree; past : list tree }.

Definition with_folders (f : gmap dir folder → gmap dir folder) (t : tree) : tree := mkTree (f (folders t)) (manifests t) (running t) (clock t).
Definition with_manifests (f : gmap string string → gmap string string) (t : tree) : tree := mkTree (folders t) (f (manifests t)) (running t) (clock t).
Definition put (d : dir) (name data : string) : tree → tree := with_folders (alter <[name := data]> d).
Definition disk (t : tree) (id name : string) : option string := folders t !! DiskDir id ≫= (.!! name).

(** What happens meanwhile: time passes, and a running machine writes its disks, or stops. *)
Definition guest_writes (t t' : tree) : Prop :=
  manifests t' = manifests t ∧ running t' ⊆ running t ∧ (clock t ≤ clock t')%Z ∧
  ∀ d, folders t' !! d = folders t !! d ∨
       ∃ id f f', d = DiskDir id ∧ id ∈ running t ∧ folders t !! d = Some f ∧ folders t' !! d = Some f' ∧ dom f' = dom f.

Inductive source := FileOf (d : dir) (name : string) | ManifestFile (id : string).
Definition content (s : source) (t : tree) : option string :=
  match s with FileOf d name => folders t !! d ≫= (.!! name) | ManifestFile id => manifests t !! id end.

(** Where [os.MkdirTemp] makes a directory, with the beginning of its name. *)
Inductive parent := RestoreIn | BackupIn (id : string).
Definition temporary (p : parent) (s : string) : dir :=
  match p with RestoreIn => DiskDir (".restore-" ++ s) | BackupIn id => BackupDir id (".backup-" ++ s) end.

Inductive cmd : Type → Type :=
  | LockMachine (id : string) : cmd (option string)
  | CloseLock : cmd (option string)
  | IsRunning (id : string) : cmd bool
  | Clock : cmd Z
  | NewUUID : cmd string
  | LookPath : cmd (option string)
  | ReadManifest (id : string) : cmd (string + string)
  | ListManifests : cmd (list string + string)
  | WriteManifest (id data : string) : cmd (option string)
  | RemoveManifest (id : string) : cmd (option string)
  | ReadDir (d : dir) : cmd (list (string * bool) + option string)
  | ReadRoot (id : string) : cmd (list (string * bool) + option string)
  | IsMissing (d : dir) : cmd bool
  | MakeDir (d : dir) : cmd (option string)
  | MakeRoot (id : string) : cmd (option string)
  | MkdirTemp (p : parent) : cmd (dir + string)
  | Open (s : source) : cmd (option string)
  | CreateFile (d : dir) (name : string) : cmd (option string)
  | Copy (s : source) (d : dir) (name : string) : cmd (option string)
  | CloseFile : cmd (option string)
  | ReadFile (d : dir) (name : string) : cmd (string + string)
  | WriteFile (d : dir) (name data : string) : cmd (option string)
  | Info (d : dir) (name : string) : cmd (option Z + string)
  | Rename (from to : dir) : cmd (option string)
  | RemoveAll (d : dir) : cmd (option string)
  | Convert (id name : string) (d : dir) : cmd (option string)
  | BackupDisks (id : string) (names : list string) (d : dir) : cmd (bool + bool * string)
  | Range (X : gset string) : cmd (list string).

Definition is_uuid_char (c : ascii) : bool := is_hex c || is_char "-" c.
Definition uuid_form (u : string) : Prop := (36 ≤ String.length u)%nat ∧ all_chars is_uuid_char u = true.

(** No name of the files has been made with [u]. *)
Definition unused (u : string) (t : tree) : Prop :=
  manifests t !! u = None ∧ u ∉ running t ∧ folders t !! DiskDir u = None ∧
  ∀ id n, includes u n = true → folders t !! RunDir id n = None ∧ folders t !! BackupDir id n = None.

(** What a directory lists: its files, and directories in it. *)
Definition entries_of (X : gset string) (dirs : bool) (l : list (string * bool)) : Prop :=
  NoDup l.*1 ∧ ∀ n, (n, dirs) ∈ l ↔ n ∈ X.

Section documented.
(** What a machine reads of an image. *)
Context (shows : string → string).

Definition effect B (c : cmd B) : B → tree → tree → Prop :=
  match c in cmd B return B → tree → tree → Prop with
  | LockMachine _ | CloseLock | LookPath | MakeRoot _ | Open _ | CloseFile => λ _ t t', t' = t
  | Clock => λ r t t', t' = t ∧ r = clock t
  | IsRunning id => λ r t t', t' = t ∧ r = bool_decide (id ∈ running t)
  | NewUUID => λ u t t', t' = t ∧ uuid_form u ∧ unused u t
  | ReadManifest id => λ r t t', t' = t ∧ ∀ data, r = inl data → manifests t !! id = Some data
  | ListManifests => λ r t t', t' = t ∧ ∀ l, r = inl l → l ≡ₚ elements (dom (manifests t))
  | WriteManifest id data => λ r t t', let wrote := with_manifests <[id := data]> t in
      match r with None => t' = wrote | Some _ => t' = t ∨ t' = wrote end
  | RemoveManifest id => λ r t t', let removed := with_manifests (delete id) t in
      match r with None => t' = removed | Some _ => t' = t ∨ t' = removed end
  | ReadDir d => λ r t t', t' = t ∧
      match r with
      | inl l => ∃ f, folders t !! d = Some f ∧ entries_of (dom f) false l
      | inr None => folders t !! d = None
      | inr (Some _) => True
      end
  | ReadRoot id => λ r t t', t' = t ∧
      match r with
      | inl l => NoDup l.*1 ∧ ∀ n, (n, true) ∈ l ↔ is_Some (folders t !! BackupDir id n)
      | inr None => ∀ n, folders t !! BackupDir id n = None
      | inr (Some _) => True
      end
  | IsMissing d => λ r t t', t' = t ∧ (r = true → folders t !! d = None)
  | MakeDir d => λ r t t',
      let made := match folders t !! d with Some _ => t | None => with_folders <[d := ∅]> t end in
      match r with None => t' = made | Some _ => t' = t ∨ t' = made end
  | MkdirTemp p => λ r t t',
      match r with
      | inl d => ∃ s, d = temporary p s ∧ folders t !! d = None ∧ t' = with_folders <[d := ∅]> t
      | inr _ => t' = t
      end
  | CreateFile d name => λ r t t', match r with None => t' = put d name "" t | Some _ => t' = t ∨ t' = put d name "" t end
  | Copy s d name => λ r t t',
      match r with
      | None => ∃ data, content s t = Some data ∧ t' = put d name data t
      | Some _ => t' = t ∨ ∃ data, t' = put d name data t
      end
  | ReadFile d name => λ r t t', t' = t ∧ ∀ data, r = inl data → content (FileOf d name) t = Some data
  | WriteFile d name data => λ r t t', match r with None => t' = put d name data t | Some _ => t' = t ∨ ∃ data, t' = put d name data t end
  | Info _ _ => λ _ t t', t' = t
  | Rename from to => λ r t t',
      match r with
      | None => ∃ f, folders t !! from = Some f ∧ (folders t !! to = None ∨ folders t !! to = Some ∅) ∧
                     t' = with_folders (λ m, <[to := f]> (delete from m)) t
      | Some _ => t' = t
      end
  | RemoveAll d => λ r t t',
      match r with
      | None => t' = with_folders (delete d) t
      | Some _ => t' = with_folders (delete d) t ∨ ∃ P : string * string → Prop, ∃ _ : ∀ x, Decision (P x), t' = with_folders (alter (filter P) d) t
      end
  | Convert id name d => λ r t t',
      match r with
      | None => ∃ image data, disk t id name = Some image ∧ shows data = shows image ∧ t' = put d name data t
      | Some _ => t' = t ∨ ∃ data, t' = put d name data t
      end
  | BackupDisks id names d => λ r t t', ∃ new : folder, t' = with_folders (alter (union new) d) t ∧
      match r with
      | inl _ => dom new = list_to_set names ∧ ∀ n, n ∈ names → is_Some (disk t id n) ∧ shows <$> new !! n = shows <$> disk t id n
      | inr _ => dom new ⊆ list_to_set names
      end
  | Range X => λ l t t', t' = t ∧ l ≡ₚ elements X
  end.

(** Machines write before each command, and what there was then is kept in mind. *)
Definition documented B (c : cmd B) (r : B) (v v' : host) : Prop :=
  ∃ t, guest_writes (now v) t ∧ effect B c r t (now v') ∧ past v' = t :: past v.
End documented.

(** ** The source *)

Notation prog := (Programs.prog cmd).

Record BackupInfo := mkBackupInfo {
  Timestamp : string; VMName : string; info_Disks : list string; Live : bool; Consistent : bool; SizeBytes : Z; CreatedAt : string
}.
Record BackupResult := mkBackupResult {
  res_VMID : string; res_VMName : string; res_Timestamp : string; Path : dir; res_Disks : list string; res_Live : bool; res_Consistent : bool;
  res_SizeBytes : Z
}.

Definition stamp_re : re := Seq (Rep 8 0 (Cls is_digit)) (Seq (Chr "-") (Seq (Rep 6 0 (Cls is_digit)) (Seq (Chr ".") (Rep 9 0 (Cls is_digit))))).
Definition backupTimestamp : re := Seq stamp_re (Seq (Chr "-") (Rep 36 0 (Cls is_uuid_char))).

(** [time.Duration] is an integer of 64 bits. *)
Definition int64 (z : Z) : Z := (z + 2 ^ 63) mod 2 ^ 64 - 2 ^ 63.
Definition second : Z := 1000000000.
Definition hour : Z := 3600 * second.

(** [base[:63]]. *)
Definition cut63 (s : string) : string := substring 0 63 s.
Definition candidate (base : string) (i : nat) : string := cut63 (base ++ "-" ++ pretty i).

(** The loop over the candidates, of which [tries] are tried; [None] while it is still looking. *)
Fixpoint first_free (existing : list string) (base : string) (i tries : nat) : option string :=
  match tries with
  | O => None
  | S tries => if includes_str existing (candidate base i) then first_free existing base (S i) tries else Some (candidate base i)
  end.
Definition unique_name (existing : list string) (base : string) (tries : nat) : option string :=
  let base := cut63 base in if includes_str existing base then first_free existing base 2 tries else Some base.

Definition later (a b : BackupInfo) : Prop := String.leb (Timestamp b) (Timestamp a) = true.
#[export] Instance later_dec a b : Decision (later a b).
Proof. unfold later. apply _. Defined.

Section source.
(** YAML and JSON, and the validation of manifests. *)
Context (Unmarshal : string → option VMManifest) (Marshal : VMManifest → string) (valid : VMManifest → bool).
Context (info_json : BackupInfo → string) (read_info : string → BackupInfo → BackupInfo * bool).
(** The formats of times, and their parsing, in nanoseconds. *)
Context (stamp rfc3339 : Z → string) (parse_rfc3339 parse_stamp : string → option Z).
(** The address that [vm.MAC] makes of a text. *)
Context (MAC : string → string).
(** How many names [uniqueVMName] tries. *)
Context (tries : nat).

(** *** manifest.go *)

Definition Parse (data : string) : VMManifest + string :=
  match Unmarshal data with
  | None => inr "yaml"
  | Some m => if valid m then inl m else inr "invalid manifest"
  end.
Definition Save (m : VMManifest) : prog (option string) :=
  match ValidateID (ID m) with
  | Some e => Ret (Some e)
  | None => if valid m then ask (WriteManifest (ID m) (Marshal m)) else Ret (Some "invalid manifest")
  end.
Definition Load (id : string) : prog (VMManifest + string) :=
  match ValidateID id with
  | Some e => Ret (inr e)
  | None =>
      data ⇐ ask (ReadManifest id);
      match Parse data with
      | inr e => Ret (inr ("parse " ++ id ++ ".yml: " ++ e))
      | inl m => if String.eqb (ID m) id then Ret (inl m) else Ret (inr "manifest ID does not match filename")
      end
  end.
Definition List : prog (list VMManifest + string) := ids ⇐ ask ListManifests; for_each Load ids.
Definition Resolve (ref : string) : prog (VMManifest + string) :=
  prog_bind (λ r : VMManifest + string, match r with
    | inl m => Ret (inl m)
    | inr _ =>
        manifests ⇐ List;
        match find (λ m, String.eqb (Name m) ref) manifests with Some m => Ret (inl m) | None => Ret (inr "vm not found") end
    end) (Load ref).

(** *** What the functions share *)

(** [lock, err := e.driver.LockContext(ctx, id); ...; defer lock.Close()] *)
Definition locked {A} (id : string) (p : prog (A + string)) : prog (A + string) :=
  try ask (LockMachine id); r ← p; _ ← ask CloseLock; Ret r.
(** [defer os.RemoveAll(d)] *)
Definition removing {A} (d : dir) (p : prog A) : prog A := r ← p; _ ← ask (RemoveAll d); Ret r.

Definition copyFile (src : source) (d : dir) (name : string) : prog (option string) :=
  do ask (Open src);
  do ask (CreateFile d name);
  prog_bind (λ e, match e with
    | Some e => _ ← ask CloseFile; Ret (Some e)
    | None => ask CloseFile
    end) (ask (Copy src d name)).

(** A loop over the disks. *)
Fixpoint each_disk (f : string → prog (option string)) (disks : list string) : prog (option string) :=
  match disks with [] => Ret None | disk :: disks => do f disk; each_disk f disks end.

Definition copy_disks (src d : dir) : list string → prog (option string) :=
  each_disk (λ disk, prog_bind (λ e, Ret (option_map (append ("copy " ++ disk ++ ": ")) e)) (copyFile (FileOf src disk) d disk)).

Definition is_disk (name : string) : bool := ends_with ".qcow2" name.

Fixpoint sum_sizes (d : dir) (names : list string) (total : Z) : prog (Z + string) :=
  match names with
  | [] => Ret (inl total)
  | name :: names => info ⇐ ask (Info d name); sum_sizes d names (match info with Some size => int64 (total + size) | None => total end)
  end.
Definition read_dir (d : dir) : prog (list (string * bool) + string) :=
  prog_bind (λ r : list (string * bool) + option string, Ret (match r with inl l => inl l | inr e => inr (default "no such directory" e) end)) (ask (ReadDir d)).
Definition dirSize (d : dir) : prog (Z + string) := entries ⇐ read_dir d; sum_sizes d entries.*1 0.

(** *** backup.go *)

(** The images in the staging directory; with an error, whether the directory is kept. *)
Definition snapshot (live : bool) (id : string) (disks : list string) (staging : dir) : prog (bool + bool * string) :=
  if live then
    prog_bind (λ r : bool + bool * string, Ret (match r with
      | inl frozen => inl frozen
      | inr (kept, e) => inr (kept, "snapshot disks: " ++ e)
      end)) (ask (BackupDisks id disks staging))
  else
    prog_bind (λ e, Ret (match e with Some e => inr (false, e) | None => inl false end))
      (each_disk (λ disk, prog_bind (λ e, Ret (option_map (append ("snapshot " ++ disk ++ ": ")) e)) (ask (Convert id disk staging))) disks).

Definition fill (m : VMManifest) (timestamp : string) (disks : list string) (live consistent : bool) (staging publication : dir) : prog (BackupResult + string) :=
  try copy_disks staging publication disks;
  try copyFile (ManifestFile (ID m)) publication "manifest.yml";
  size ⇐ dirSize publication;
  created ← ask Clock;
  let meta := mkBackupInfo timestamp (Name m) disks live consistent size (rfc3339 created) in
  try ask (WriteFile publication "metadata.json" (info_json meta));
  let dest := BackupDir (ID m) timestamp in
  try ask (Rename publication dest);
  Ret (inl (mkBackupResult (ID m) (Name m) timestamp dest disks live consistent size)).

Definition publish (m : VMManifest) (timestamp : string) (disks : list string) (live consistent : bool) (staging : dir) : prog (BackupResult + string) :=
  try ask (MakeRoot (ID m));
  publication ⇐ ask (MkdirTemp (BackupIn (ID m)));
  removing publication (fill m timestamp disks live consistent staging publication).

(** From the making of the staging directory to its removal. *)
Definition stage (m : VMManifest) (live : bool) (disks : list string) (timestamp : string) : prog (BackupResult + string) :=
  let staging := RunDir (ID m) ("backup-" ++ timestamp) in
  try ask (MakeDir staging);
  prog_bind (λ r : bool + bool * string, match r with
    | inr (kept, e) => if kept then Ret (inr e) else removing staging (Ret (inr e))
    | inl consistent => removing staging (publish m timestamp disks live consistent staging)
    end) (snapshot live (ID m) disks staging).

Definition backup (m : VMManifest) (live : bool) (disks : list string) : prog (BackupResult + string) :=
  try (if live then Ret None else ask LookPath);
  t ← ask Clock;
  u ← ask NewUUID;
  stage m live disks (stamp t ++ "-" ++ u).

Definition BackupVM (ref : string) : prog (BackupResult + string) :=
  m ⇐ Resolve ref;
  locked (ID m) (
    m ⇐ Load (ID m);
    live ← ask (IsRunning (ID m));
    prog_bind (λ r : list (string * bool) + option string, match r with
      | inr e => Ret (inr ("read vm disks: " ++ default "no such directory" e))
      | inl entries =>
          let disks := (List.filter (λ e : string * bool, negb (snd e) && is_disk (fst e)) entries).*1 in
          match disks with
          | [] => Ret (inr ("vm " ++ Name m ++ " has no disks to back up"))
          | _ => backup m live disks
          end
      end) (ask (ReadDir (DiskDir (ID m))))).

(** What is known of a backup without metadata. *)
Definition measured (d : dir) (info : BackupInfo) : prog BackupInfo :=
  prog_bind (λ size : Z + string,
    let info := match size with
      | inl size => mkBackupInfo (Timestamp info) (VMName info) (info_Disks info) (Live info) (Consistent info) size (CreatedAt info)
      | inr _ => info
      end in
    prog_bind (λ entries : list (string * bool) + string, Ret (match entries with
      | inl l => mkBackupInfo (Timestamp info) (VMName info) (info_Disks info ++ (List.filter (λ e : string * bool, is_disk (fst e)) l).*1)%list
                   (Live info) (Consistent info) (SizeBytes info) (CreatedAt info)
      | inr _ => info
      end)) (read_dir d)) (dirSize d).

Definition readBackupMetadata (id timestamp : string) : prog BackupInfo :=
  let d := BackupDir id timestamp in
  let info := mkBackupInfo timestamp "" [] false false 0 "" in
  prog_bind (λ r : string + string, match r with
    | inr _ => measured d info
    | inl data =>
        let '(info, parsed) := read_info data info in
        if parsed : bool then Ret (mkBackupInfo timestamp (VMName info) (info_Disks info) (Live info) (Consistent info) (SizeBytes info) (CreatedAt info))
        else measured d info
    end) (ask (ReadFile d "metadata.json")).

Fixpoint read_backups (id : string) (names : list string) : prog (list BackupInfo) :=
  match names with [] => Ret [] | n :: names => info ← readBackupMetadata id n; infos ← read_backups id names; Ret (info :: infos) end.

Definition ListBackups (ref : string) : prog (list BackupInfo + string) :=
  m ⇐ Resolve ref;
  prog_bind (λ r : list (string * bool) + option string, match r with
    | inr None => Ret (inl [])
    | inr (Some e) => Ret (inr e)
    | inl entries =>
        infos ← read_backups (ID m) (List.filter (λ e : string * bool, snd e && negb (starts_with "." (fst e))) entries).*1;
        Ret (inl (merge_sort later infos))
    end) (ask (ReadRoot (ID m))).

Definition DeleteBackup (ref timestamp : string) : prog (option string) :=
  if negb (test backupTimestamp timestamp) then Ret (Some "invalid backup id") else
  prog_bind (λ r : VMManifest + string, match r with
    | inr e => Ret (Some e)
    | inl m =>
        let dest := BackupDir (ID m) timestamp in
        missing ← ask (IsMissing dest);
        if missing : bool then Ret (Some ("backup " ++ timestamp ++ " not found")) else ask (RemoveAll dest)
    end) (Resolve ref).

Definition InterfaceMAC (vmID id : string) : string := if String.eqb id "net0" then MAC vmID else MAC (vmID ++ ":" ++ id).
Definition expose (vmID : string) (nic : VMInterface) : VMInterface :=
  mkVMInterface (nic_ID nic) (if truthy (nic_Network nic) then nic_Network nic else "user")
    (if truthy (nic_MAC nic) then nic_MAC nic else InterfaceMAC vmID (nic_ID nic)) (nic_Addresses nic).
Definition exposeInterfaces (m : VMManifest) : VMManifest := with_interfaces (Some (expose (ID m) <$> EffectiveInterfaces m)) m.

Definition restoreInPlace (id : string) (restored : VMManifest) (backupDir : dir) (disks : list string) : prog (VMManifest + string) :=
  locked id (
    live ← ask (IsRunning id);
    if live : bool then Ret (inr "vm is running; stop it before restoring") else
    staging ⇐ ask (MkdirTemp RestoreIn);
    removing staging (
      try copy_disks backupDir staging disks;
      let restored := with_id id restored in
      try ask (RemoveAll (DiskDir id));
      try ask (Rename staging (DiskDir id));
      try Save restored;
      Ret (inl (exposeInterfaces restored)))).

Definition without_macs (m : VMManifest) : VMManifest :=
  with_interfaces (option_map (map (λ nic, mkVMInterface (nic_ID nic) (nic_Network nic) "" (nic_Addresses nic))) (Interfaces m)) m.

(** What follows the choice of the identifier and the name. *)
Definition restoreNamed (restored : VMManifest) (backupDir : dir) (disks : list string) : prog (VMManifest + string) :=
  staging ⇐ ask (MkdirTemp RestoreIn);
  r ← (try copy_disks backupDir staging disks;
       let restored := exposeInterfaces restored in
       try Save restored;
       prog_bind (λ e, match e with
         | Some e => _ ← ask (RemoveManifest (ID restored)); Ret (inr e)
         | None => Ret (inl restored)
         end) (ask (Rename staging (DiskDir (ID restored)))));
  match r with
  | inl m => Ret (inl m)
  | inr e => _ ← ask (RemoveAll staging); Ret (inr e)
  end.

Definition restoreAsNew (restored : VMManifest) (backupDir : dir) (disks : list string) : prog (option (VMManifest + string)) :=
  u ← ask NewUUID;
  l ← List;
  match unique_name (Name <$> match l with inl l => l | inr _ => [] end) (Name restored ++ "-restored") tries with
  | None => Ret None
  | Some name =>
      prog_bind (λ r, Ret (Some r)) (restoreNamed (without_macs (renamed_off name (with_id u restored))) backupDir disks)
  end.

(** The machine, the manifest and the disks of a backup. *)
Definition read_backup (ref timestamp : string) : prog (VMManifest * VMManifest * list string + string) :=
  m ⇐ Resolve ref;
  let backupDir := BackupDir (ID m) timestamp in
  prog_bind (λ r : list (string * bool) + option string, match r with
    | inr None => Ret (inr ("backup " ++ timestamp ++ " not found"))
    | inr (Some e) => Ret (inr e)
    | inl entries =>
        let disks := (List.filter (λ e : string * bool, is_disk (fst e)) entries).*1 in
        match disks with
        | [] => Ret (inr ("backup " ++ timestamp ++ " has no disks"))
        | _ =>
            data ⇐ ask (ReadFile backupDir "manifest.yml");
            match Parse data with
            | inr e => Ret (inr ("parse backup manifest: " ++ e))
            | inl restored => Ret (inl (m, restored, disks))
            end
        end
    end) (ask (ReadDir backupDir)).

(** A restoration in the place of [ref], or as a new machine; [None] while it is looking for a name. *)
Definition RestoreVM (ref timestamp : string) (asNew : bool) : prog (option (VMManifest + string)) :=
  if negb (test backupTimestamp timestamp) then Ret (Some (inr "invalid backup id")) else
  prog_bind (λ r : VMManifest * VMManifest * list string + string, match r with
    | inr e => Ret (Some (inr e))
    | inl (m, restored, disks) =>
        let backupDir := BackupDir (ID m) timestamp in
        if asNew then restoreAsNew restored backupDir disks
        else prog_bind (λ r, Ret (Some r)) (restoreInPlace (ID m) restored backupDir disks)
    end) (read_backup ref timestamp).

(** *** schedule.go *)

(** The zero time is told from every other. *)
Definition backupCreatedAt (backup : BackupInfo) : option Z :=
  match (if truthy (CreatedAt backup) then parse_rfc3339 (CreatedAt backup) else None) with
  | Some t => Some t
  | None => if (15 <=? String.length (Timestamp backup))%nat then parse_stamp (substring 0 15 (Timestamp backup)) else None
  end.

Definition stale_count (keepLast : Z) (backups : list BackupInfo) : list string :=
  if (0 <? keepLast)%Z && (keepLast <? Z.of_nat (length backups))%Z then Timestamp <$> drop (Z.to_nat keepLast) backups else [].
Definition cutoff (now maxAgeDays : Z) : Z := now + int64 (int64 (- maxAgeDays * 24) * hour).
Definition stale_age (now maxAgeDays : Z) (backups : list BackupInfo) : list string :=
  if (0 <? maxAgeDays)%Z then
    Timestamp <$> List.filter (λ b, match backupCreatedAt b with Some t => (t <? cutoff now maxAgeDays)%Z | None => false end) backups
  else [].

Fixpoint delete_all (ref : string) (l : list string) (deleted : Z) : prog (Z * option string) :=
  match l with
  | [] => Ret (deleted, None)
  | timestamp :: l =>
      e ← DeleteBackup ref timestamp;
      match e with Some e => Ret (deleted, Some e) | None => delete_all ref l (deleted + 1) end
  end.

Definition PruneBackups (ref : string) (keepLast maxAgeDays : Z) : prog (Z * option string) :=
  prog_bind (λ r : VMManifest + string, match r with
    | inr e => Ret (0%Z, Some e)
    | inl m =>
        prog_bind (λ r : list BackupInfo + string, match r with
          | inr e => Ret (0%Z, Some e)
          | inl backups =>
              now ← (if (0 <? maxAgeDays)%Z then ask Clock else Ret 0%Z);
              order ← ask (Range (list_to_set (stale_count keepLast backups ++ stale_age now maxAgeDays backups)));
              delete_all (ID m) order 0
          end) (ListBackups (ID m))
    end) (Resolve ref).
End source.
