(* ===== verification/BackupSafety.v ===== *)
(** * What backups hold, and what restoring them gives

    The invariants of [Backups]: what each command may change, that a backup is whole whenever it can be seen, that
    restoring gives back what was backed up and harms no backup, and which backups are pruned. *)

From stdpp Require Import sorting pretty.
From S2P Require Import Prelude Programs JsString Regex Storage Backups.
Local Open Scope string_scope.

(** ** What changes between two moments *)

(** A directory of [t0] is still there in [t], but for what a running machine writes. *)
Definition same_dir (t0 t : tree) (d : dir) : Prop :=
  folders t !! d = folders t0 !! d ∨
  ∃ id f f', d = DiskDir id ∧ id ∈ running t0 ∧ folders t0 !! d = Some f ∧ folders t !! d = Some f' ∧ dom f' = dom f.

(** Only the directories [X] and the manifests [Y] have changed. *)
Record only (X : dir → Prop) (Y : string → Prop) (t0 t : tree) : Prop := mkOnly {
  o_running : running t ⊆ running t0;
  o_clock : (clock t0 ≤ clock t)%Z;
  o_manifests : ∀ id, ¬ Y id → manifests t !! id = manifests t0 !! id;
  o_dirs : ∀ d, ¬ X d → same_dir t0 t d
}.

(** A directory no running machine writes to. *)
Definition still (d : dir) (t : tree) : Prop := match d with DiskDir id => id ∉ running t | _ => True end.

Lemma same_dir_refl t d : same_dir t t d.
Proof. by left. Qed.

Lemma same_dir_trans t0 t1 t2 d : running t1 ⊆ running t0 → same_dir t0 t1 d → same_dir t1 t2 d → same_dir t0 t2 d.
Proof.
  intros Hr [E1|(id & f & f' & -> & Hi & E & E1 & D1)] [E2|(id' & g & g' & Ed & Hi' & E' & E2 & D2)].
  - left. congruence.
  - right. exists id', g, g'. split_and!; [done|by apply Hr| |done..]. congruence.
  - right. exists id, f, f'. split_and!; try done. congruence.
  - injection Ed as <-. right. exists id, f, g'. split_and!; try done. rewrite D2. congruence.
Qed.

Lemma same_dir_still t0 t d : still d t0 → same_dir t0 t d → folders t !! d = folders t0 !! d.
Proof. intros Hs [E|(id & f & f' & -> & Hi & _)]; [done|]. by destruct Hs. Qed.

Lemma same_dir_dom t0 t d : same_dir t0 t d → dom <$> (folders t !! d) = dom <$> (folders t0 !! d).
Proof. intros [->|(id & f & f' & -> & _ & -> & -> & E)]; [done|]. cbn. by rewrite E. Qed.

Lemma only_refl X Y t : only X Y t t.
Proof. split; [done|done|done|]. intros d _. apply same_dir_refl. Qed.
Lemma only_trans X Y t0 t1 t2 : only X Y t0 t1 → only X Y t1 t2 → only X Y t0 t2.
Proof.
  intros [R1 C1 M1 D1] [R2 C2 M2 D2]. split; [set_solver|lia| |].
  - intros id H. by rewrite M2, M1.
  - intros d H. apply (same_dir_trans t0 t1); auto.
Qed.
Lemma only_mono (X X' : dir → Prop) (Y Y' : string → Prop) t0 t : (∀ d, X d → X' d) → (∀ i, Y i → Y' i) → only X Y t0 t → only X' Y' t0 t.
Proof. intros HX HY [R C M D]. split; [done|done|naive_solver|naive_solver]. Qed.
Lemma guest_writes_only X Y t t' : guest_writes t t' → only X Y t t'.
Proof. intros (Em & Hr & Hc & Hd). split; [done|done|by rewrite Em|]. intros d _. destruct (Hd d) as [E|H]; [by left|by right]. Qed.
Lemma still_later d t t' : running t' ⊆ running t → still d t → still d t'.
Proof. destruct d; cbn; set_solver. Qed.
Lemma only_still X Y t t' d : only X Y t t' → still d t → ¬ X d → folders t' !! d = folders t !! d.
Proof. intros [_ _ _ D] Hs Hx. apply same_dir_still; auto. Qed.
Lemma only_nowhere Y t t' d : only (λ _, False) Y t t' → still d t → folders t' !! d = folders t !! d.
Proof. intros Ho Hs. exact (only_still _ _ _ _ _ Ho Hs (λ H, H)). Qed.
Lemma only_later X Y t t' d : only X Y t t' → still d t → still d t'.
Proof. intros [R _ _ _]. by apply still_later. Qed.

Lemma lookup_put d name data t : folders (put d name data t) !! d = <[name := data]> <$> folders t !! d.
Proof. apply lookup_alter_eq. Qed.

(** ** The footprint of a command *)

Definition dirs_of {B} (c : cmd B) (d : dir) : Prop :=
  match c with
  | MakeDir e | CreateFile e _ | Copy _ e _ | WriteFile e _ _ | RemoveAll e | Convert _ _ e | BackupDisks _ _ e => d = e
  | MkdirTemp p => ∃ s, d = temporary p s
  | Rename from to => d = from ∨ d = to
  | _ => False
  end.
Definition manifests_of {B} (c : cmd B) (id : string) : Prop :=
  match c with WriteManifest i _ | RemoveManifest i => id = i | _ => False end.

Lemma elem_of_List_filter {A} (q : A → bool) (l : list A) x : x ∈ List.filter q l ↔ x ∈ l ∧ q x = true.
Proof. by rewrite list_elem_of_In, filter_In, list_elem_of_In. Qed.

Section safety.
Context (shows : string → string).
Notation documented := (documented shows).
Notation safe := (Programs.safe documented).
Notation wp := (Programs.wp documented).

Lemma folders_only (X : dir → Prop) Y t (f : gmap dir folder → gmap dir folder) :
  (∀ d, ¬ X d → f (folders t) !! d = folders t !! d) → only X Y t (with_folders f t).
Proof. intros H. split; [done..|]. intros d Hd. left. by apply H. Qed.
Lemma put_only (X : dir → Prop) Y t d name data : X d → only X Y t (put d name data t).
Proof. intros H. apply folders_only. intros e He. rewrite lookup_alter_ne; [done|]. by intros <-. Qed.
Lemma manifests_only X (Y : string → Prop) t (f : gmap string string → gmap string string) :
  (∀ i, ¬ Y i → f (manifests t) !! i = manifests t !! i) → only X Y t (with_manifests f t).
Proof. intros H. split; [done|done|done|]. intros d _. by left. Qed.

Lemma effect_only {B} (c : cmd B) r t t' : effect shows B c r t t' → only (dirs_of c) (manifests_of c) t t'.
Proof.
  assert (∀ X Y, only X Y t t) as Hr by (intros; apply only_refl).
  destruct c; cbn; intros H; try (by subst); try (destruct H as [-> _]; apply Hr).
  - assert (only (dirs_of (WriteManifest id data)) (manifests_of (WriteManifest id data)) t (with_manifests <[id := data]> t)) as Hw
      by (apply manifests_only; intros i Hi; by rewrite lookup_insert_ne by congruence).
    destruct r; [destruct H|]; by subst.
  - assert (only (dirs_of (RemoveManifest id)) (manifests_of (RemoveManifest id)) t (with_manifests (delete id) t)) as Hw
      by (apply manifests_only; intros i Hi; by rewrite lookup_delete_ne by congruence).
    destruct r; [destruct H|]; by subst.
  - assert (only (dirs_of (MakeDir d)) (manifests_of (MakeDir d)) t (match folders t !! d with Some _ => t | None => with_folders <[d := ∅]> t end)) as Hw
      by (destruct (folders t !! d); [done|]; apply folders_only; intros e He; by rewrite lookup_insert_ne by congruence).
    destruct r; [destruct H|]; by subst.
  - destruct r; [|by subst]. destruct H as (s & -> & Hn & ->). apply folders_only. intros e He. rewrite lookup_insert_ne; [done|].
    intros <-. apply He. by exists s.
  - destruct r; [destruct H|]; subst; by (done || apply put_only).
  - destruct r; [destruct H as [->|[x ->]]|destruct H as (x & _ & ->)]; by (done || apply put_only).
  - destruct r; [destruct H as [->|[x ->]]|subst]; by (done || apply put_only).
  - destruct r; [by subst|]. destruct H as (f & Hf & _ & ->). apply folders_only. intros e He. rewrite lookup_insert_ne, lookup_delete_ne; [done|..];
      intros <-; apply He; cbn; auto.
  - destruct r; [destruct H as [->|(P & dec & ->)]|subst]; apply folders_only; intros e He; rewrite ?lookup_delete_ne, ?lookup_alter_ne; try done; by intros <-.
  - destruct r; [destruct H as [->|[x ->]]|destruct H as (i & x & _ & _ & ->)]; by (done || apply put_only).
  - destruct H as (new & -> & _). apply folders_only. intros e He. rewrite lookup_alter_ne; [done|]. by intros <-.
Qed.

Lemma documented_only {B} (c : cmd B) r v v' : documented B c r v v' → only (dirs_of c) (manifests_of c) (now v) (now v').
Proof. intros (t & H1 & H2 & _). eapply only_trans; [by apply guest_writes_only|by eapply effect_only]. Qed.

Lemma documented_past {B} (c : cmd B) r v v' : documented B c r v v' → ∃ t, past v' = t :: past v ∧ guest_writes (now v) t ∧ effect shows B c r t (now v').
Proof. intros (t & H1 & H2 & H3). by exists t. Qed.

(** ** Programs that stay within a footprint *)

(** What a program may be told. *)
Definition answer {B} (c : cmd B) : B → Prop :=
  match c in cmd B return B → Prop with MkdirTemp p => λ r, ∀ d, r = inl d → ∃ s, d = temporary p s | _ => λ _, True end.
Lemma documented_answer {B} (c : cmd B) r v v' : documented B c r v v' → answer c r.
Proof. intros (t & _ & H & _). destruct c; try done. cbn in *. intros d ->. destruct H as (s & -> & _). by exists s. Qed.

Fixpoint within {A} (X : dir → Prop) (Y : string → Prop) (p : prog A) : Prop :=
  match p with
  | Ret _ => True
  | Do c k => (∀ d, dirs_of c d → X d) ∧ (∀ i, manifests_of c i → Y i) ∧ ∀ r, answer c r → within X Y (k r)
  end.

Lemma within_bind {A B} X Y (f : A → prog B) (p : prog A) : within X Y p → (∀ a, within X Y (f a)) → within X Y (prog_bind f p).
Proof. induction p as [a|C c k IH]; cbn; [auto|]. intros (H1 & H2 & H3) Hf. split_and!; auto. Qed.
Lemma within_ask {B} X Y (c : cmd B) : (∀ d, dirs_of c d → X d) → (∀ i, manifests_of c i → Y i) → within X Y (ask c).
Proof. done. Qed.
Lemma within_temp {B} X Y p (f : dir → prog (B + string)) : (∀ s, X (temporary p s)) → (∀ s, within X Y (f (temporary p s))) →
  within X Y (prog_bind (checked f) (ask (MkdirTemp p))).
Proof. intros HX Hf. cbn. split_and!; [by intros d [s ->]|done|]. intros [d|e] H; [|done]. destruct (H d eq_refl) as [s ->]. apply Hf. Qed.
Lemma within_checked {A B E} X Y (f : A → prog (B + E)) (p : prog (A + E)) :
  within X Y p → (∀ a, within X Y (f a)) → within X Y (prog_bind (checked f) p).
Proof. intros H Hf. apply within_bind; [done|]. intros [a|e]; cbn; auto. Qed.
Lemma within_mono {A} (X X' : dir → Prop) (Y Y' : string → Prop) (p : prog A) :
  (∀ d, X d → X' d) → (∀ i, Y i → Y' i) → within X Y p → within X' Y' p.
Proof. intros HX HY. induction p as [a|C c k IH]; cbn; [done|]. intros (H1 & H2 & H3). split_and!; auto. Qed.

Lemma within_for_each {A B E} X Y (f : A → prog (B + E)) l : (∀ a, within X Y (f a)) → within X Y (for_each f l).
Proof. intros H. induction l as [|a l IH]; [done|]. cbn. apply within_checked; [done|]. intros b. by apply within_checked. Qed.
Lemma within_each_disk X Y f l : (∀ n, within X Y (f n)) → within X Y (each_disk f l).
Proof. intros H. induction l as [|n l IH]; [done|]. cbn. apply within_bind; [done|]. by intros [e|]. Qed.

(** What such a program leaves, at any time. [t0] is the beginning. *)
Lemma within_safe {A} X Y (p : prog A) v t0 : within X Y p → only X Y t0 (now v) →
  safe p v (λ v', only X Y t0 (now v')) (λ _ _, True).
Proof.
  revert v. induction p as [a|B c k IH]; intros v H Ho; [done|]. destruct H as (H1 & H2 & H3). split; [done|].
  intros r v' Hd. apply IH; [by eapply H3, documented_answer|]. eapply only_trans; [exact Ho|]. eapply only_mono; [exact H1|exact H2|by eapply documented_only].
Qed.
Lemma wp_within {A} X Y (p : prog A) v : within X Y p → wp p v (λ _ v', only X Y (now v) (now v')).
Proof.
  intros H. eapply safe_mono; [apply (safe_last _ _ _ _ (within_safe X Y p v (now v) H (only_refl _ _ _)))|done|]. by intros a v' _ [? _].
Qed.
Lemma wp_and {A} (p : prog A) v (Q Q' : A → host → Prop) : wp p v Q → wp p v Q' → wp p v (λ a v, Q a v ∧ Q' a v).
Proof. intros H H'. eapply safe_mono; [exact (safe_and _ _ _ _ _ _ H H')|done|done]. Qed.

(** The moments of a run. *)
Definition recent (v0 v : host) (t : tree) : Prop := ∃ l, past v = (l ++ past v0)%list ∧ t ∈ l.
Definition longer (v0 v : host) : Prop := ∃ l, past v = (l ++ past v0)%list.
Lemma longer_refl v : longer v v.
Proof. by exists []. Qed.
Lemma longer_trans v0 v1 v2 : longer v0 v1 → longer v1 v2 → longer v0 v2.
Proof. intros [l E] [l' E']. exists (l' ++ l)%list. by rewrite E', E, app_assoc. Qed.
Lemma recent_later v0 v v' t : recent v0 v t → longer v v' → recent v0 v' t.
Proof. intros (l & E & H) [l' E']. exists (l' ++ l)%list. rewrite E', E, app_assoc. split; [done|]. apply elem_of_app. by right. Qed.
Lemma recent_earlier v0 v v' t : longer v0 v → recent v v' t → recent v0 v' t.
Proof. intros [l E] (l' & E' & H). exists (l' ++ l)%list. rewrite E', E, app_assoc. split; [done|]. apply elem_of_app. by left. Qed.
Lemma recent_longer v0 v t : recent v0 v t → longer v0 v.
Proof. intros (l & E & _). by exists l. Qed.
Lemma safe_longer {A} (p : prog A) v v0 : longer v0 v → safe p v (longer v0) (λ _ _, True).
Proof.
  revert v. induction p as [a|B c k IH]; intros v H; [done|]. split; [done|]. intros r v' (t & _ & _ & E). apply IH.
  destruct H as [l El]. exists (t :: l). by rewrite E, El.
Qed.
Lemma wp_longer {A} (p : prog A) v : wp p v (λ _ v', longer v v').
Proof.
  eapply safe_mono; [exact (safe_last _ _ _ _ (safe_longer p v v (longer_refl v)))|done|]. by intros a v' _ [? _].
Qed.

(** ** Copies *)

(** Where a command reads does not change meanwhile. *)
Definition still_source (s : source) (t : tree) : Prop := match s with FileOf d _ => still d t | ManifestFile _ => True end.
Definition source_outside (s : source) (X : dir → Prop) (Y : string → Prop) : Prop :=
  match s with FileOf d _ => ¬ X d | ManifestFile id => ¬ Y id end.

Lemma only_content X Y t t' s : only X Y t t' → still_source s t → source_outside s X Y → content s t' = content s t.
Proof. destruct s; cbn; intros Ho Hs Hx; [by rewrite (only_still X Y t t')|by apply (o_manifests X Y)]. Qed.
Lemma only_still_source X Y t t' s : only X Y t t' → still_source s t → still_source s t'.
Proof. destruct s; [apply only_later|done]. Qed.

(** What is known of a directory before and after a command. *)
Lemma documented_at {B} (c : cmd B) r v v' d : documented B c r v v' → still d (now v) →
  ∃ t, guest_writes (now v) t ∧ effect shows B c r t (now v') ∧ folders t !! d = folders (now v) !! d.
Proof.
  intros (t & H1 & H2 & _) Hs. exists t. split_and!; [done..|].
  exact (only_nowhere _ _ _ d (guest_writes_only _ (λ _, False) _ _ H1) Hs).
Qed.
Lemma documented_elsewhere {B} (c : cmd B) r v v' d : documented B c r v v' → still d (now v) → ¬ dirs_of c d → folders (now v') !! d = folders (now v) !! d.
Proof. intros H Hs Hd. eapply only_still; [by eapply documented_only|done..]. Qed.
Lemma documented_later {B} (c : cmd B) r v v' d : documented B c r v v' → still d (now v) → still d (now v').
Proof. intros H. eapply only_later. by eapply documented_only. Qed.

Lemma wp_copyFile src d name v : still d (now v) → still_source src (now v) → source_outside src (λ e, e = d) (λ _, False) →
  wp (copyFile src d name) v (λ r v', r = None → ∃ data, content src (now v) = Some data ∧ folders (now v') !! d = <[name := data]> <$> folders (now v) !! d).
Proof.
  intros Hd Hs Hx. unfold copyFile.
  apply safe_do. command as r v1 H1; [done|]. split; [done|]. destruct r; [done|].
  pose proof (documented_only _ _ _ _ H1) as O1. pose proof (documented_later _ _ _ _ _ H1 Hd) as D1.
  assert (folders (now v1) !! d = folders (now v) !! d) as E1 by (eapply documented_elsewhere; [done..|]; by intros []).
  apply safe_do. command as r v2 H2; [done|]. split; [done|]. destruct r; [done|].
  pose proof (documented_only _ _ _ _ H2) as O2. pose proof (documented_later _ _ _ _ _ H2 D1) as D2.
  destruct (documented_at _ _ _ _ _ H2 D1) as (t2 & _ & Ef2 & E2). cbn in Ef2.
  apply safe_bind. command as r v3 H3; [done|]. split; [done|].
  destruct r; [apply safe_bind; command as r' v4 H4; [done|]; split; [done|]; by apply safe_ret|].
  destruct (documented_at _ _ _ _ _ H3 D2) as (t3 & G3 & (data & Hc & Ef3) & E3).
  command as r v4 H4; [done|]. split; [done|]. intros ->. exists data. split.
  - rewrite <- Hc. symmetry.
    assert (only (λ e, e = d) (λ _, False) (now v) t3) as O.
    { eapply only_trans; [eapply only_mono; [| |exact O1]; [done|done]|]. eapply only_trans; [eapply only_mono; [| |exact O2]; [done|done]|].
      by apply guest_writes_only. }
    by eapply only_content.
  - rewrite (documented_elsewhere _ _ _ _ _ H4); [|by eapply documented_later|by intros []].
    rewrite Ef3. cbn. rewrite lookup_alter_eq, E3, Ef2. cbn. rewrite lookup_alter_eq, E2, E1.
    destruct (folders (now v) !! d); cbn; [|done]. f_equal. apply insert_insert_eq.
Qed.

Lemma within_copyFile src d name : within (λ e, e = d) (λ _, False) (copyFile src d name).
Proof.
  unfold copyFile. repeat (apply within_bind; [apply within_ask; cbn; naive_solver|intros [e|]; try done]).
Qed.

Lemma wp_each_disk f d (G : string → string → Prop) (J : host → Prop) l v g :
  (∀ n v, J v → wp (f n) v (λ r v', J v' ∧ (r = None → ∃ data, G n data ∧ folders (now v') !! d = <[n := data]> <$> folders (now v) !! d))) →
  J v → folders (now v) !! d = Some g →
  wp (each_disk f l) v (λ r v', J v' ∧ (r = None → ∃ g', folders (now v') !! d = Some g' ∧
    (∀ n, n ∈ l → ∃ data, G n data ∧ g' !! n = Some data) ∧ ∀ n, n ∉ l → g' !! n = g !! n)).
Proof.
  intros Hf. revert v g. induction l as [|n l IH]; intros v g HJ Hg; cbn [each_disk].
  { apply safe_ret; [done|]. split; [done|]. intros _. exists g. split_and!; [done|by intros ? ?%not_elem_of_nil|done]. }
  apply safe_do. eapply safe_mono; [by apply Hf|done|]. intros [e|] v1 _ [J1 H1]; [done|].
  destruct (H1 eq_refl) as (data & HG & E1). rewrite Hg in E1. cbn in E1.
  eapply safe_mono; [by eapply IH|done|]. intros r v2 _ [J2 H2]. split; [done|]. intros Hr.
  destruct (H2 Hr) as (g' & Hg' & Hin & Hout). exists g'. split; [done|]. split.
  - intros k Hk. destruct (decide (k ∈ l)) as [Hkl|Hkl]; [auto|]. apply elem_of_cons in Hk as [->|]; [|done].
    exists data. split; [done|]. rewrite Hout by done. apply lookup_insert_eq.
  - intros k [Hne Hk]%not_elem_of_cons. rewrite Hout by done. by rewrite lookup_insert_ne.
Qed.

Lemma wp_message {B} (h : B → option string) (p : prog B) v Q : wp p v (λ r v', Q (h r) v') → wp (prog_bind (λ r, Ret (h r)) p) v Q.
Proof. intros H. apply safe_bind. eapply safe_mono; [exact H|done|]. intros r v' _ Hq. by apply safe_ret. Qed.

Lemma wp_copy_disks src d l v g : still d (now v) → still src (now v) → src ≠ d → folders (now v) !! d = Some g →
  wp (copy_disks src d l) v (λ r v', only (λ e, e = d) (λ _, False) (now v) (now v') ∧ (r = None → ∃ g', folders (now v') !! d = Some g' ∧
    (∀ n, n ∈ l → ∃ data, content (FileOf src n) (now v) = Some data ∧ g' !! n = Some data) ∧ ∀ n, n ∉ l → g' !! n = g !! n)).
Proof.
  intros Hd Hs Hne Hg. apply wp_each_disk; [|apply only_refl|done]. intros n v1 O1. apply wp_message.
  assert (still d (now v1)) as D1 by by eapply only_later. assert (still src (now v1)) as S1 by by eapply only_later.
  eapply safe_mono; [apply wp_and; [by apply wp_copyFile|apply (wp_within _ _ _ _ (within_copyFile _ _ _))]|done|].
  intros r v2 _ [H2 O2]. split; [by eapply only_trans|]. intros Er. destruct r; [done|]. destruct (H2 eq_refl) as (data & Hc & E).
  exists data. split; [|done]. rewrite <- Hc. symmetry. by eapply only_content.
Qed.

(** The images of a machine that does not run. *)
Lemma within_snapshot live id l d : within (λ e, e = d) (λ _, False) (snapshot live id l d).
Proof.
  unfold snapshot. destruct live; [apply within_bind; [by apply within_ask|done]|]. apply within_bind; [|by intros []].
  apply within_each_disk. intros n. apply within_bind; [by apply within_ask|done].
Qed.

(** [g] has the images of the disks [l] of the machine, as they were in [t]. *)
Definition images (t : tree) (id : string) (l : list string) (g : folder) : Prop :=
  ∀ n, n ∈ l → is_Some (g !! n) ∧ shows <$> g !! n = shows <$> disk t id n.

Lemma wp_convert id l id' n v : id ∉ running (now v) → folders (now v) !! RunDir id' n = Some ∅ →
  wp (snapshot false id l (RunDir id' n)) v (λ r v', ∀ c, r = inl c → c = false ∧ ∃ g, folders (now v') !! RunDir id' n = Some g ∧ images (now v) id l g ∧ dom g ⊆ list_to_set l).
Proof.
  intros Hid Hg. set (d := RunDir id' n). unfold snapshot. apply safe_bind.
  eapply safe_mono; [apply (wp_each_disk _ d (λ n data, ∃ image, disk (now v) id n = Some image ∧ shows data = shows image)
    (λ v', only (λ e, e = d) (λ _, False) (now v) (now v')) l v ∅); [|apply only_refl|done]|done|].
  - intros k v1 O1. apply wp_message. command as r v2 H2; [done|]. split; [done|].
    assert (only (λ e, e = d) (λ _, False) (now v1) (now v2)) as O2 by (eapply only_mono; [| |by eapply documented_only]; done).
    split; [by eapply only_trans|]. intros Er. destruct r; [done|].
    destruct (documented_at _ _ _ _ d H2) as (t & Hgw & (image & data & Hi & Es & Et) & Ed); [done|].
    exists data. split.
    + exists image. split; [|done]. rewrite <- Hi. unfold disk. f_equal. symmetry.
      assert (only (λ e, e = d) (λ _, False) (now v) t) as O by (eapply only_trans; [exact O1|by apply guest_writes_only]).
      by apply (only_still _ _ _ _ _ O).
    + rewrite Et. cbn. rewrite lookup_alter_eq. by rewrite Ed.
  - intros r v1 _ [O1 H1]. apply safe_ret; [done|]. intros c Ec. destruct r; [done|]. injection Ec as <-. split; [done|].
    destruct (H1 eq_refl) as (g & Hg' & Hin & Hout). exists g. split; [done|]. split.
    + intros k Hk. destruct (Hin k Hk) as (data & (image & -> & E) & ->). cbn. split; [by eexists|]. by rewrite E.
    + intros k [x Hx]%elem_of_dom. apply elem_of_list_to_set. destruct (decide (k ∈ l)); [done|]. rewrite Hout in Hx by done. by rewrite lookup_empty in Hx.
Qed.

(** ** Backups that can be seen are whole *)

(** [f] holds the manifest and every disk of the machine as they were in [t]. *)
Definition whole (t : tree) (id : string) (f : folder) : Prop :=
  (∃ data, manifests t !! id = Some data ∧ f !! "manifest.yml" = Some data) ∧ is_Some (f !! "metadata.json") ∧
  ∀ n, is_disk n = true → shows <$> f !! n = shows <$> disk t id n.

(** What is no backup and no machine's: work in progress. *)
Definition hidden (d : dir) : Prop :=
  match d with DiskDir _ => False | RunDir _ _ => True | BackupDir _ n => starts_with "." n = true end.

(** Since [v0], no machine has been touched and no backup changed, and each new backup is whole, as of a moment since. *)
Record unhurt (v0 v : host) : Prop := mkUnhurt {
  u_longer : longer v0 v;
  u_running : running (now v) ⊆ running (now v0);
  u_manifests : manifests (now v) = manifests (now v0);
  u_disks : ∀ id, same_dir (now v0) (now v) (DiskDir id);
  u_backups : ∀ id n, starts_with "." n = false →
    folders (now v) !! BackupDir id n = folders (now v0) !! BackupDir id n ∨
    (folders (now v0) !! BackupDir id n = None ∧ ∃ f t, folders (now v) !! BackupDir id n = Some f ∧ recent v0 v t ∧ whole t id f)
}.

Lemma unhurt_refl v : unhurt v v.
Proof. split; [apply longer_refl|done|done|intros; apply same_dir_refl|by left]. Qed.

Lemma only_nothing X t t' : only X (λ _, False) t t' → manifests t' = manifests t.
Proof. intros [_ _ M _]. apply map_eq. intros i. apply M. by intros []. Qed.

Lemma unhurt_only v0 v v' : longer v v' → only hidden (λ _, False) (now v) (now v') → unhurt v0 v → unhurt v0 v'.
Proof.
  intros Hl Ho [L R M D B]. split.
  - by eapply longer_trans.
  - destruct Ho as [R' _ _ _]. set_solver.
  - rewrite (only_nothing _ _ _ Ho). done.
  - intros id. apply (same_dir_trans _ (now v)); [done|done|]. apply Ho. by intros [].
  - intros id n Hn. assert (folders (now v') !! BackupDir id n = folders (now v) !! BackupDir id n) as ->.
    { apply (only_still _ _ _ _ _ Ho); [done|]. cbn. by rewrite Hn. }
    destruct (B id n Hn) as [E|(E & f & t & Hf & Ht & Hw)]; [by left|right]. split; [done|]. exists f, t. split_and!; [done|by eapply recent_later|done].
Qed.

Lemma documented_longer {B} (c : cmd B) r v v' : documented B c r v v' → longer v v'.
Proof. intros (t & _ & _ & E). by exists [t]. Qed.

Lemma within_unhurt {A} (p : prog A) v0 v : within hidden (λ _, False) p → unhurt v0 v → safe p v (unhurt v0) (λ _ _, True).
Proof.
  revert v. induction p as [a|B c k IH]; intros v H Hu; [done|]. destruct H as (H1 & H2 & H3). split; [done|]. intros r v' Hd. apply IH; [by eapply H3, documented_answer|].
  eapply unhurt_only; [by eapply documented_longer| |done]. eapply only_mono; [exact H1|exact H2|by eapply documented_only].
Qed.

Lemma safe_hidden {A} (X : dir → Prop) (p : prog A) v0 v (Q Q' : A → host → Prop) : (∀ d, X d → hidden d) → within X (λ _, False) p → unhurt v0 v → wp p v Q →
  (∀ a v', unhurt v0 v' → only X (λ _, False) (now v) (now v') → longer v v' → Q a v' → Q' a v') → safe p v (unhurt v0) Q'.
Proof.
  intros HX Hw Hu Hp HQ.
  assert (wp p v (λ a v', Q a v' ∧ only X (λ _, False) (now v) (now v') ∧ longer v v')) as H.
  { apply wp_and; [done|]. apply wp_and; [by apply wp_within|apply wp_longer]. }
  eapply safe_mono; [exact (safe_and _ _ _ _ _ _ (within_unhurt p v0 v (within_mono _ _ _ _ _ HX (λ i H, H) Hw) Hu) H)|by intros v' []|].
  intros a v' [U _] (_ & Hq & Ho & Hl). by apply HQ.
Qed.

(** The same for one command. *)
Lemma hidden_command {B} (c : cmd B) v0 v (Q : B → host → Prop) : (∀ d, dirs_of c d → hidden d) → (∀ i, manifests_of c i → False) → unhurt v0 v →
  (∀ r v', documented B c r v v' → unhurt v0 v' → Q r v') → safe (ask c) v (unhurt v0) Q.
Proof.
  intros H1 H2 Hu HQ. apply safe_ask; [done|]. intros r v' Hd.
  assert (unhurt v0 v') as Hu'; [|by split; [|apply HQ]]. eapply unhurt_only; [by eapply documented_longer| |done].
  eapply only_mono; [exact H1|exact H2|by eapply documented_only].
Qed.
Lemma within_copy_disks src d l : within (λ e, e = d) (λ _, False) (copy_disks src d l).
Proof. apply within_each_disk. intros n. apply within_bind; [apply within_copyFile|done]. Qed.

Lemma hidden_dir d : hidden d → ∀ e, e = d → hidden e.
Proof. by intros H e ->. Qed.

(** The last step: what is complete gets its name. *)
Lemma safe_rename id pub ts v0 v f t {A} (a : A) : let dest := BackupDir id ts in
  unhurt v0 v → hidden pub → folders (now v) !! pub = Some f → whole t id f → recent v0 v t → starts_with "." ts = false → folders (now v0) !! dest = None →
  safe (prog_bind (λ err, match err with Some err => Ret (inr err) | None => Ret (inl a) end) (ask (Rename pub dest))) v (unhurt v0)
    (λ (r : A + string) v', ∀ b, r = inl b → b = a ∧ recent v0 v' t ∧ folders (now v') !! dest = Some f).
Proof.
  intros dest Hu Hp Hf Hw Ht Hts Hdest. apply safe_try. apply safe_ask; [done|]. intros r v1 H1.
  pose proof (documented_longer _ _ _ _ H1) as L1.
  destruct H1 as (t1 & G1 & Ef & Ep). cbn in Ef. destruct r as [e|].
  { subst t1. split; [|done]. eapply unhurt_only; [done|by apply guest_writes_only|done]. }
  destruct Ef as (f' & Hf' & _ & Et). assert (f' = f) as ->.
  { assert (folders t1 !! pub = folders (now v) !! pub) as E; [|congruence]. apply (only_still (λ _, False) (λ _, False) _ _ _ (guest_writes_only _ _ _ _ G1)); [|by intros []].
    by destruct pub. }
  assert (pub ≠ dest) as Hne by (intros ->; cbn in Hp; congruence).
  assert (folders (now v1) !! dest = Some f) as Hd1 by (rewrite Et; apply lookup_insert_eq).
  assert (∀ d, d ≠ pub → d ≠ dest → folders (now v1) !! d = folders t1 !! d) as Ho by (intros d ??; rewrite Et; cbn; by rewrite lookup_insert_ne, lookup_delete_ne).
  pose proof Hu as [L R M D B]. destruct G1 as (Em & Hr & _ & Hd).
  assert (unhurt v0 v1) as U1; [|split; [done|]; apply safe_ret; [done|]; intros b [= <-]; split_and!; [done|by eapply recent_later|done]].
  split; [by eapply longer_trans|rewrite Et; cbn; set_solver|rewrite Et; cbn; by rewrite Em| |].
  - intros i. apply (same_dir_trans _ (now v)); [done|done|]. unfold same_dir. rewrite Ho by (done || by intros <-). apply Hd.
  - intros i n Hn. destruct (decide (BackupDir i n = dest)) as [E|Hnd].
    + right. rewrite E, Hd1. injection E as -> _. split; [done|]. exists f, t. split_and!; [done|by eapply recent_later|done].
    + assert (folders (now v1) !! BackupDir i n = folders (now v) !! BackupDir i n) as ->.
      { rewrite Ho; [|intros <-; cbn in Hp; congruence|done]. destruct (Hd (BackupDir i n)) as [E|(j & ? & ? & E & _)]; [done|discriminate]. }
      destruct (B i n Hn) as [E|(E & f2 & t2 & H2 & Hr2 & Hw2)]; [by left|right]. split; [done|]. exists f2, t2. split_and!; [done|by eapply recent_later|done].
Qed.

(** The images, of a machine that runs or not, are those of one moment. *)
Lemma wp_snapshot live id l k v0 v t : (live = false → id ∉ running (now v)) → folders (now v) !! RunDir id k = Some ∅ →
  recent v0 v t → folders t !! DiskDir id = folders (now v) !! DiskDir id → manifests t = manifests (now v) →
  wp (snapshot live id l (RunDir id k)) v (λ r v', ∀ c, r = inl c → ∃ t' g, recent v0 v' t' ∧ folders (now v') !! RunDir id k = Some g ∧
    images t' id l g ∧ dom <$> folders t' !! DiskDir id = dom <$> folders (now v) !! DiskDir id ∧ manifests t' = manifests (now v)).
Proof.
  intros Hlive Hg Ht Et Em. destruct live.
  - unfold snapshot. apply safe_bind. command as r v1 H1; [done|]. split; [done|]. apply safe_ret; [done|]. intros c Ec.
    destruct r as [froze|[kept e]]; [|done]. pose proof (documented_longer _ _ _ _ H1) as L1.
    destruct (documented_past _ _ _ _ H1) as (t1 & Ep & G1 & (new & E1 & Hdom & Hnew)).
    pose proof (guest_writes_only (λ _, False) (λ _, False) _ _ G1) as O1.
    assert (folders t1 !! RunDir id k = Some ∅) as Hg1 by (by rewrite (only_nowhere _ _ _ (RunDir id k) O1)).
    exists t1, new. split_and!.
    + eapply recent_earlier; [by eapply recent_longer|]. exists [t1]. split; [done|by left].
    + rewrite E1. cbn. rewrite lookup_alter_eq, Hg1. cbn. by rewrite (right_id_L ∅ (∪)).
    + intros n Hn. destruct (Hnew n Hn) as [_ E]. split; [|done]. apply elem_of_dom. rewrite Hdom. by apply elem_of_list_to_set.
    + apply same_dir_dom. apply O1. by intros [].
    + apply G1.
  - eapply safe_mono; [apply wp_and; [by apply wp_convert; [apply Hlive|]|apply wp_longer]|done|].
    intros r v1 _ [H1 L1] c Ec. destruct (H1 c Ec) as (_ & g & Hg1 & Hi & _). exists t, g. split_and!; [by eapply recent_later|done| |by rewrite Et|done].
    intros n Hn. destruct (Hi n Hn) as [Hs E]. split; [done|]. rewrite E. unfold disk. by rewrite Et.
Qed.

(** ** Restoring *)

Lemma wp_step {A} X Y (p : prog A) v (Q Q' : A → host → Prop) : within X Y p → wp p v Q →
  (∀ a v', only X Y (now v) (now v') → Q a v' → Q' a v') → wp p v Q'.
Proof.
  intros Hw Hp HQ. eapply safe_mono; [apply wp_and; [exact Hp|by apply wp_within]|done|]. intros a v' _ [H1 H2]. by apply HQ.
Qed.
Lemma wp_command {B} (c : cmd B) v (Q : B → host → Prop) :
  (∀ r v', documented B c r v v' → only (dirs_of c) (manifests_of c) (now v) (now v') → Q r v') → wp (ask c) v Q.
Proof. intros H. apply safe_ask; [done|]. intros r v' Hd. split; [done|]. apply H; [done|by eapply documented_only]. Qed.

(** The images of [f] are in place. *)
Definition in_place (f : folder) (id : string) (t : tree) : Prop :=
  ∃ g, folders t !! DiskDir id = Some g ∧ ∀ n, g !! n = if is_disk n then f !! n else None.

Lemma in_place_only X Y f id t t' : in_place f id t → only X Y t t' → id ∉ running t → ¬ X (DiskDir id) → in_place f id t'.
Proof. intros (g & Hg & H) Ho Hr Hx. exists g. split; [|done]. by rewrite (only_still _ _ _ _ _ Ho). Qed.

(** The end of both ways of restoring: the copies, which replace the directory of a machine that does not run. *)
Lemma wp_fill_staging src f disks s v : let staging := DiskDir (".restore-" ++ s) in
  still staging (now v) → still src (now v) → src ≠ staging → folders (now v) !! src = Some f → folders (now v) !! staging = Some ∅ →
  (∀ n, is_disk n = true → is_Some (f !! n) → n ∈ disks) → (∀ n, n ∈ disks → is_disk n = true) →
  wp (copy_disks src staging disks) v (λ r v', only (λ e, e = staging) (λ _, False) (now v) (now v') ∧
    (r = None → ∃ g, folders (now v') !! staging = Some g ∧ ∀ n, g !! n = if is_disk n then f !! n else None)).
Proof.
  intros staging Hs Hsrc Hne Hf Hg Hd1 Hd2. eapply safe_mono; [by apply (wp_copy_disks _ _ _ _ ∅)|done|].
  intros r v' _ [Ho H]. split; [done|]. intros Er. destruct (H Er) as (g & Hg' & Hin & Hout). exists g. split; [done|]. intros n.
  destruct (decide (n ∈ disks)) as [Hn|Hn].
  - rewrite (Hd2 n Hn). destruct (Hin n Hn) as (x & Hx & ->). cbn in Hx. rewrite Hf in Hx. done.
  - rewrite (Hout n Hn), lookup_empty. destruct (is_disk n) eqn:E; [|done]. destruct (f !! n) eqn:En; [|done]. destruct Hn. apply Hd1; [done|by rewrite En].
Qed.

Lemma wp_rename_disks s id g v (Q : option string → host → Prop) : let staging := DiskDir (".restore-" ++ s) in
  folders (now v) !! staging = Some g → still staging (now v) → id ∉ running (now v) →
  (∀ r v', only (λ d, d = staging ∨ d = DiskDir id) (λ _, False) (now v) (now v') → (r = None → folders (now v') !! DiskDir id = Some g) → Q r v') →
  wp (ask (Rename staging (DiskDir id))) v Q.
Proof.
  intros staging Hg Hs Hr HQ. apply wp_command. intros r v' Hd Ho. apply HQ; [done|]. intros ->.
  destruct (documented_at _ _ _ _ staging Hd Hs) as (t & _ & (f & Hf & _ & E) & Ef). rewrite E. cbn. rewrite lookup_insert_eq. congruence.
Qed.
End safety.

Section functions.
Context (shows : string → string).
Context (Unmarshal : string → option VMManifest) (Marshal : VMManifest → string) (valid : VMManifest → bool).
Context (info_json : BackupInfo → string) (read_info : string → BackupInfo → BackupInfo * bool).
Context (stamp rfc3339 : Z → string) (parse_rfc3339 parse_stamp : string → option Z) (MAC : string → string) (tries : nat).
Notation documented := (documented shows).
Notation safe := (Programs.safe documented).
Notation wp := (Programs.wp documented).
Notation whole := (whole shows).
Notation unhurt := (unhurt shows).
Notation images := (images shows).
Notation Parse := (Parse Unmarshal valid).
Notation Load := (Load Unmarshal valid).
Notation List := (List Unmarshal valid).
Notation Resolve := (Resolve Unmarshal valid).
Notation fill := (fill info_json rfc3339).
Notation publish := (publish info_json rfc3339).
Notation stage := (stage info_json rfc3339).
Notation backup := (backup info_json stamp rfc3339).
Notation Save := (Save Marshal valid).
Notation restoreInPlace := (restoreInPlace Marshal valid MAC).
Notation restoreNamed := (restoreNamed Marshal valid MAC).
Notation restoreAsNew := (restoreAsNew Unmarshal Marshal valid MAC tries).
Notation read_backup := (read_backup Unmarshal valid).
Notation RestoreVM := (RestoreVM Unmarshal Marshal valid MAC tries).
Notation exposeInterfaces := (exposeInterfaces MAC).
Notation BackupVM := (BackupVM Unmarshal valid info_json stamp rfc3339).

(** ** Reading *)

Lemma within_Load X Y id : within X Y (Load id).
Proof. unfold Backups.Load. destruct (ValidateID id); [done|]. apply within_checked; [by apply within_ask|]. intros data. destruct (Parse data) as [m|e]; [|done]. by destruct (String.eqb _ _). Qed.
Lemma within_List X Y : within X Y List.
Proof. apply within_checked; [by apply within_ask|]. intros l. apply within_for_each. intros id. apply within_Load. Qed.
Lemma within_Resolve X Y ref : within X Y (Resolve ref).
Proof.
  apply within_bind; [apply within_Load|]. intros [m|e]; [done|]. apply within_checked; [apply within_List|]. intros l. by destruct (find _ _).
Qed.
Lemma within_dirSize X Y d : within X Y (dirSize d).
Proof.
  apply within_checked; [by apply within_bind; [apply within_ask|]|]. intros l. generalize 0%Z. induction l.*1 as [|n k IH]; intros z; [done|].
  apply within_checked; [by apply within_ask|]. intros s. apply IH.
Qed.

(** A manifest that was read. *)
Definition manifest_of (t : tree) (id : string) (m : VMManifest) : Prop := ID m = id ∧ ∃ data, manifests t !! id = Some data ∧ Parse data = inl m.

Lemma wp_machine_Load id v : wp (Load id) v (λ r _, ∀ m, r = inl m → manifest_of (now v) id m ∧ ValidateID id = None).
Proof.
  unfold Backups.Load. destruct (ValidateID id) eqn:Ev; [by apply safe_ret|]. apply safe_checked. command as r v1 H1; [done|]. split; [done|].
  destruct r as [data|e]; [|done]. destruct H1 as (t & (Em & _) & [Et Hr] & _).
  destruct (Parse data) as [m|e] eqn:Ep; [|by apply safe_ret]. destruct (String.eqb_spec (ID m) id) as [E|E]; [|by apply safe_ret].
  apply safe_ret; [done|]. intros m' [= <-]. split; [|done]. split; [done|]. exists data. rewrite <- Em. auto.
Qed.

(** ** Making a backup *)

(** What is filled, from a staging directory that has the images as they were in [t], and gets its name. *)
Definition made (id ts : string) (disks : list string) (v0 : host) (t : tree) (r : BackupResult + string) (v : host) : Prop :=
  ∀ b, r = inl b → res_VMID b = id ∧ res_Timestamp b = ts ∧ Path b = BackupDir id ts ∧ res_Disks b = disks ∧
    ∃ f, folders (now v) !! BackupDir id ts = Some f ∧ recent v0 v t ∧ whole t id f.

Record ready_to_fill (id ts k : string) (disks : list string) (v0 v : host) (t : tree) : Prop := mkReady {
  rf_unhurt : unhurt v0 v;
  rf_staged : ∃ g, folders (now v) !! RunDir id k = Some g ∧ images t id disks g;
  rf_recent : recent v0 v t;
  rf_manifest : manifests t !! id = manifests (now v0) !! id;
  rf_disks : ∀ n, is_disk n = true → n ∈ disks ↔ is_Some (disk t id n);
  rf_disk_names : ∀ n, n ∈ disks → is_disk n = true;
  rf_visible : starts_with "." ts = false;
  rf_new : folders (now v0) !! BackupDir id ts = None
}.

Lemma ready_later id ts k disks v0 v v' t : ready_to_fill id ts k disks v0 v t → unhurt v0 v' → longer v v' →
  folders (now v') !! RunDir id k = folders (now v) !! RunDir id k → ready_to_fill id ts k disks v0 v' t.
Proof. intros [U S R M D N V W] U' L E. split; [done|by rewrite E|by eapply recent_later|done..]. Qed.

Lemma safe_filled m ts disks live consistent k s v0 v t : let id := ID m in let pub := temporary (BackupIn id) s in
  ready_to_fill id ts k disks v0 v t → folders (now v) !! pub = Some ∅ →
  safe (fill m ts disks live consistent (RunDir id k) pub) v (unhurt v0) (made id ts disks v0 t).
Proof.
  intros id pub [Hu (g & Hg & Hi) Ht Hm Hd Hdisk Hts Hdest] P0. unfold Backups.fill.
  apply safe_try. eapply (safe_hidden _ (λ e, e = pub)); [by intros d ->|apply within_copy_disks|done|by apply (wp_copy_disks shows _ _ _ _ ∅)|].
  intros r v1 U1 O1 L1 [_ H1]. destruct r; [done|]. destruct (H1 eq_refl) as (g1 & P1 & Hin & Hout). clear H1.
  apply safe_try. eapply (safe_hidden _ (λ e, e = pub)); [by intros d ->|apply within_copyFile|done|apply wp_copyFile; [done|done|by intros []]|].
  intros r v2 U2 O2 L2 H2. destruct r; [done|]. destruct (H2 eq_refl) as (data & Hdata & P2). rewrite P1 in P2. clear H2.
  apply safe_checked. eapply (safe_hidden _ (λ _, False)); [done|apply within_dirSize|done|apply wp_longer|].
  intros r v3 U3 O3 L3 _. destruct r as [size|e]; [|done].
  apply safe_bind. apply hidden_command; [done..|]. intros created v4 H4 U4. cbv zeta.
  apply safe_try. apply hidden_command; [by intros d ->|done|done|]. intros r v5 H5 U5. destruct r; [done|].
  assert (folders (now v4) !! pub = folders (now v2) !! pub) as P4.
  { rewrite (documented_elsewhere _ _ _ _ _ _ H4) by (done || by intros []). by apply (only_nowhere _ _ _ _ O3). }
  destruct (documented_at _ _ _ _ _ pub H5) as (t5 & _ & Et5 & F5); [done|].
  set (f := <["metadata.json" := info_json (mkBackupInfo ts (Name m) disks live consistent size (rfc3339 created))]> (<["manifest.yml" := data]> g1)).
  assert (folders (now v5) !! pub = Some f) as P5 by (by rewrite Et5, lookup_put, F5, P4, P2).
  assert (longer v v5) as L5.
  { apply (longer_trans _ v1); [done|]. apply (longer_trans _ v2); [done|]. apply (longer_trans _ v3); [done|].
    apply (longer_trans _ v4); by eapply documented_longer. }
  assert (whole t id f) as Hw.
  { split_and!.
    - exists data. split; [rewrite Hm, <- (u_manifests _ _ _ U1); exact Hdata|]. unfold f. rewrite lookup_insert_ne by done. apply lookup_insert_eq.
    - unfold f. rewrite lookup_insert_eq. by eexists.
    - intros n Hn. unfold f. rewrite !lookup_insert_ne by (by intros <-). destruct (decide (n ∈ disks)) as [Hin'|Hout'].
      + destruct (Hin n Hin') as (x & Hx & ->). cbn in Hx. rewrite Hg in Hx. cbn in Hx. destruct (Hi n Hin') as [_ E]. by rewrite <- E, Hx.
      + rewrite Hout by done. destruct (disk t id n) eqn:E; [|done]. destruct Hout'. apply Hd; [done|by rewrite E]. }
  eapply safe_mono; [apply (safe_rename _ id pub ts v0 v5 f t); try done; by eapply recent_later|done|].
  intros r v6 U6 H6 b Eb. destruct (H6 b Eb) as (-> & Hr6 & Hf). split_and!; [done..|]. by exists f.
Qed.

Lemma safe_publish m ts disks live consistent k v0 v t : let id := ID m in
  ready_to_fill id ts k disks v0 v t → safe (publish m ts disks live consistent (RunDir id k)) v (unhurt v0) (made id ts disks v0 t).
Proof.
  intros id Hr. unfold Backups.publish. apply safe_try. apply hidden_command; [done..|apply Hr|]. intros r v1 H1 U1. destruct r; [done|].
  assert (ready_to_fill id ts k disks v0 v1 t) as R1.
  { eapply ready_later; [exact Hr|done|by eapply documented_longer|]. eapply documented_elsewhere; [exact H1|done|by intros []]. }
  apply safe_checked. apply hidden_command; [by intros d [s ->]|done|done|].
  intros r v2 H2 U2. destruct r as [pub|e]; [|done].
  destruct (documented_at _ _ _ _ _ (RunDir id k) H2) as (t2 & _ & (s & -> & Hn & E2) & F2); [done|].
  assert (ready_to_fill id ts k disks v0 v2 t) as R2.
  { eapply ready_later; [exact R1|done|by eapply documented_longer|]. rewrite E2. cbn. by rewrite lookup_insert_ne. }
  unfold removing. apply safe_bind. eapply safe_mono; [apply safe_filled; [exact R2|]|done|].
  { rewrite E2. apply lookup_insert_eq. }
  intros r v3 U3 H3. apply safe_bind. apply hidden_command; [by intros d ->|done|done|]. intros e v4 H4 U4. apply safe_ret; [done|].
  intros b Eb. destruct (H3 b Eb) as (H & I & J & K & f & Hf & Ht & Hw). split_and!; [done..|]. exists f. split_and!; [|by eapply recent_later, documented_longer|done].
  rewrite (documented_elsewhere _ _ _ _ _ _ H4); [done|done|]. intros E. pose proof (rf_visible _ _ _ _ _ _ _ Hr) as Hts.
  assert (ts = ".backup-" ++ s) as -> by (by injection E). discriminate.
Qed.

(** Times are written as the pattern of the names of backups has them. *)
Definition stamps : Prop := ∀ z, test stamp_re (stamp z) = true.

Lemma stamp_first z : stamps → starts_with "." (stamp z) = false.
Proof.
  intros H. specialize (H z). apply test_spec in H. unfold stamp_re in H. apply matches_seq_iff in H as (u & w & E & (Hl & Hd)%matches_rep_cls & _).
  destruct u as [|c u]; [cbn in Hl; lia|]. cbn in Hd. apply andb_true_iff in Hd as [Hc _].
  apply not_true_iff_false. intros (r & Er)%starts_with_spec. rewrite Er in E. cbn in E. injection E as <- _. discriminate.
Qed.

Lemma timestamp_accepted z u : stamps → uuid_form u → String.length u = 36 → test backupTimestamp (stamp z ++ "-" ++ u) = true.
Proof.
  intros H [_ Hc] Hl. apply test_spec. unfold backupTimestamp. rewrite chars_app. constructor; [by apply test_spec, H|].
  apply (m_seq _ _ ["-"%char]); [by constructor|]. apply matches_rep_cls. rewrite length_chars. split; [lia|done].
Qed.

Record found (disks : list string) (live : bool) (id : string) (v0 v : host) : Prop := mkFound {
  fd_unhurt : unhurt v0 v;
  fd_stopped : live = false → id ∉ running (now v);
  fd_disks : ∃ X, dom <$> folders (now v) !! DiskDir id = Some X ∧ ∀ n, n ∈ disks ↔ is_disk n = true ∧ n ∈ X
}.
Lemma found_later disks live id v0 v v' : found disks live id v0 v → unhurt v0 v' → only hidden (λ _, False) (now v) (now v') → found disks live id v0 v'.
Proof.
  intros [U S (X & E & H)] U' O. split; [done|intros Hl Hr; by apply (S Hl), (o_running _ _ _ _ O)|].
  exists X. split; [|done]. rewrite <- E. apply same_dir_dom. apply O. by intros [].
Qed.

Lemma disk_dom t id n X : dom <$> folders t !! DiskDir id = Some X → is_Some (disk t id n) ↔ n ∈ X.
Proof.
  unfold disk. destruct (folders t !! DiskDir id) as [f|]; [|done]. intros [= <-]. cbn. by rewrite elem_of_dom.
Qed.

Lemma removed_hidden {A} (d : dir) (p : prog A) v0 v (Q : A → host → Prop) : hidden d → safe p v (unhurt v0) Q →
  (∀ a v v', Q a v → unhurt v0 v' → longer v v' → only (λ e, e = d) (λ _, False) (now v) (now v') → Q a v') → safe (removing d p) v (unhurt v0) Q.
Proof.
  intros Hd Hp HQ. unfold removing. apply safe_bind. eapply safe_mono; [exact Hp|done|]. intros a v1 U1 H1.
  apply safe_bind. apply hidden_command; [by intros e ->|done|done|]. intros e v2 H2 U2. apply safe_ret; [done|].
  eapply HQ; [done|done|by eapply documented_longer|]. eapply only_mono; [| |by eapply documented_only]; done.
Qed.

Lemma made_later d id ts disks v0 t r v v' : made id ts disks v0 t r v → d ≠ BackupDir id ts → longer v v' →
  only (λ e, e = d) (λ _, False) (now v) (now v') → made id ts disks v0 t r v'.
Proof.
  intros H Hne Hl Ho b Eb. destruct (H b Eb) as (H1 & H2 & H3 & H4 & f & Hf & Ht & Hw). split_and!; [done..|]. exists f.
  split_and!; [|by eapply recent_later|done]. rewrite <- Hf. apply (only_still _ _ _ _ _ Ho); [done|]. exact (λ E, Hne (eq_sym E)).
Qed.

Lemma safe_stage m live disks ts v0 v : let id := ID m in found disks live id v0 v → starts_with "." ts = false →
  folders (now v) !! RunDir id ("backup-" ++ ts) = None → folders (now v0) !! BackupDir id ts = None →
  safe (stage m live disks ts) v (unhurt v0) (λ r v', (∃ e, r = inr e) ∨ ∃ t, made id ts disks v0 t r v').
Proof.
  intros id Hf Hts Hk Hdest. unfold Backups.stage. set (k := "backup-" ++ ts) in *. change (String.append "backup-" ts) with k.
  apply safe_try. apply hidden_command; [by intros d ->|done|apply Hf|]. intros e v1 H1 U1. destruct e; [by left; eexists|].
  assert (found disks live id v0 v1) as F1.
  { eapply found_later; [done..|]. eapply only_mono; [| |by eapply documented_only]; [by intros d ->|done]. }
  assert (∃ t, past v1 = t :: past v ∧ folders (now v1) !! RunDir id k = Some ∅ ∧ folders t !! DiskDir id = folders (now v1) !! DiskDir id ∧ manifests t = manifests (now v1))
    as (t & Ep & Hk1 & Et & Em).
  { destruct (documented_past _ _ _ _ _ H1) as (t & Ep & G & E). exists t.
    change (now v1 = match folders t !! RunDir id k with Some _ => t | None => with_folders <[RunDir id k := ∅]> t end) in E.
    assert (folders t !! RunDir id k = None) as E0.
    { rewrite <- Hk. by apply (only_nowhere _ _ _ _ (guest_writes_only (λ _, False) (λ _, False) _ _ G)). }
    rewrite E0 in E. rewrite E. cbn [with_folders folders manifests]. by rewrite lookup_insert_eq, lookup_insert_ne. }
  assert (recent v0 v1 t) as Ht.
  { eapply recent_earlier; [apply (u_longer _ _ _ (fd_unhurt _ _ _ _ _ Hf))|]. exists [t]. split; [done|by left]. }
  apply safe_bind. eapply (safe_hidden _ (λ e, e = RunDir id k)); [by intros d ->|apply within_snapshot|done| |].
  { apply (wp_snapshot _ live id disks k v0 v1 t); [apply F1|done..]. }
  intros r v2 U2 O2 L2 H2. destruct r as [c|[kept e]].
  - destruct (H2 c eq_refl) as (t' & g & Ht' & Hg & Hi & Edom & Em').
    apply removed_hidden; [done| |].
    + eapply safe_mono; [apply (safe_publish m ts disks live c k v0 v2 t')|done|]; [|intros r v3 _ H3; right; by exists t'].
      destruct F1 as [_ _ (X & EX & HX)]. rewrite EX in Edom. split; [done|by exists g|done| | | |done|done].
      * by rewrite Em', (u_manifests _ _ _ U1).
      * intros n Hn. pose proof (disk_dom t' id n X Edom) as Hx. rewrite HX. split; [intros [_ ?]|intros ?; split; [done|]]; by apply Hx.
      * intros n Hn. by apply HX.
    + intros r v3 v4 [[e ->]|[t4 H4]] U4 L4 O4; [left; by eexists|right; exists t4]. by apply (made_later (RunDir id k) _ _ _ _ _ _ v3).
  - destruct kept; [apply safe_ret; [done|by left; eexists]|]. apply removed_hidden; [done|by apply safe_ret; [|left; eexists]|].
    intros r v3 v4 [[e' ->]|[t4 H4]] U4 L4 O4; [left; by eexists|right; exists t4]. by apply (made_later (RunDir id k) _ _ _ _ _ _ v3).
Qed.

(** A backup that was made; its name is one that the other functions accept. *)
Definition backed_up (v0 : host) (r : BackupResult + string) (v : host) : Prop :=
  ∀ b, r = inl b → (∃ z u, res_Timestamp b = stamp z ++ "-" ++ u ∧ (String.length u = 36 → test backupTimestamp (res_Timestamp b) = true)) ∧ Path b = BackupDir (res_VMID b) (res_Timestamp b) ∧
    ∃ f t, folders (now v) !! Path b = Some f ∧ recent v0 v t ∧ whole t (res_VMID b) f.

Lemma safe_backup m live disks v0 v : stamps → found disks live (ID m) v0 v → safe (backup m live disks) v (unhurt v0) (backed_up v0).
Proof.
  intros Hst Hf. unfold Backups.backup. apply safe_try. eapply (safe_hidden _ (λ _, False)); [done| |apply Hf|apply wp_longer|].
  { destruct live; [done|by apply within_ask]. }
  intros e v1 U1 O1 _ _. destruct e; [done|]. assert (found disks live (ID m) v0 v1) as F1.
  { eapply found_later; [done..|]. by eapply only_mono; [| |exact O1]. }
  apply safe_bind. apply hidden_command; [done..|]. intros z v2 H2 U2. assert (found disks live (ID m) v0 v2) as F2.
  { eapply found_later; [done..|]. eapply only_mono; [| |by eapply documented_only]; done. }
  apply safe_bind. apply hidden_command; [done..|]. intros u v3 H3 U3. assert (found disks live (ID m) v0 v3) as F3.
  { eapply found_later; [done..|]. eapply only_mono; [| |by eapply documented_only]; done. }
  set (ts := stamp z ++ "-" ++ u). destruct H3 as (t3 & G3 & (Et & Hu & _ & _ & _ & Hun) & _). rewrite <- Et in Hun.
  assert (∀ a, includes u (a ++ ts) = true) as Hi.
  { intros a. apply includes_spec. exists (a ++ stamp z ++ "-"), "". subst ts. by rewrite !str_app_assoc, str_app_nil_r. }
  assert (starts_with "." ts = false) as Hts.
  { pose proof (stamp_first z Hst) as Hz. apply not_true_iff_false. intros (r & Er)%starts_with_spec. subst ts.
    destruct (stamp z) as [|c w] eqn:E; [specialize (Hst z); rewrite E in Hst; discriminate|]. injection Er as -> _. discriminate. }
  eapply safe_mono; [apply safe_stage; [exact F3|done|apply (Hun _ _ (Hi "backup-"))|]|done|].
  - destruct (u_backups _ _ _ U3 (ID m) ts Hts) as [E|[E _]]; [|done]. rewrite <- E. apply (Hun _ _ (Hi "")).
  - intros r v4 _ [[e ->]|[t H4]]; [done|]. intros b Eb. destruct (H4 b Eb) as (-> & -> & -> & _ & f & Hf4 & Ht & Hw).
    split; [exists z, u; split; [done|by apply timestamp_accepted]|]. split; [done|]. by exists f, t.
Qed.

Lemma safe_machine_locked {A} id (p : prog (A + string)) v0 v (Q : A + string → host → Prop) : unhurt v0 v → (∀ e v, Q (inr e) v) →
  (∀ v, unhurt v0 v → safe p v (unhurt v0) Q) →
  (∀ r v v', Q r v → longer v v' → only (λ _, False) (λ _, False) (now v) (now v') → Q r v') → safe (locked id p) v (unhurt v0) Q.
Proof.
  intros Hu He Hp HQ. unfold locked. apply safe_try. apply hidden_command; [done..|]. intros e v1 H1 U1. destruct e; [done|].
  apply safe_bind. eapply safe_mono; [by apply Hp|done|]. intros r v2 U2 H2. apply safe_bind. apply hidden_command; [done..|].
  intros e v3 H3 U3. apply safe_ret; [done|]. eapply HQ; [done|by eapply documented_longer|]. eapply only_mono; [| |by eapply documented_only]; done.
Qed.

Lemma backed_up_later v0 r v v' : backed_up v0 r v → longer v v' → only (λ _, False) (λ _, False) (now v) (now v') → backed_up v0 r v'.
Proof.
  intros H Hl Ho b Eb. destruct (H b Eb) as (H1 & H2 & f & t & Hf & Ht & Hw). split_and!; [done..|]. exists f, t.
  split_and!; [|by eapply recent_later|done]. rewrite <- Hf. apply (only_nowhere _ _ _ _ Ho). by rewrite H2.
Qed.

Lemma safe_BackupVM ref v0 : stamps → safe (BackupVM ref) v0 (unhurt v0) (backed_up v0).
Proof.
  intros Hst. unfold Backups.BackupVM. apply safe_checked.
  eapply (safe_hidden _ (λ _, False)); [done|apply within_Resolve|apply unhurt_refl|apply wp_longer|].
  intros r v1 U1 _ _ _. destruct r as [m|e]; [|done]. apply safe_machine_locked; [done|done| |by apply backed_up_later]. clear v1 U1. intros v1 U1.
  apply safe_checked. eapply (safe_hidden _ (λ _, False)); [done|apply within_Load|done|apply wp_longer|].
  intros r v2 U2 _ _ _. destruct r as [m'|e]; [|done].
  apply safe_bind. apply hidden_command; [done..|]. intros live v3 H3 U3.
  apply safe_bind. apply hidden_command; [done..|]. intros r v4 H4 U4. destruct r as [l|e]; [|by apply safe_ret].
  set (disks := (List.filter (λ e : string * bool, negb e.2 && is_disk e.1) l).*1).
  assert (found disks live (ID m') v0 v4) as F.
  { split; [done| |].
    - intros -> Hin. destruct H3 as (t3 & _ & (E3 & Er) & _). symmetry in Er. apply bool_decide_eq_false in Er. apply Er. rewrite <- E3.
      by apply (o_running _ _ _ _ (documented_only _ _ _ _ _ H4)).
    - destruct H4 as (t4 & _ & (E4 & f & Hf & _ & Hl) & _). rewrite <- E4 in Hf. exists (dom f). rewrite Hf. split; [done|]. intros n.
      unfold disks. rewrite list_elem_of_fmap. setoid_rewrite <- Hl. split.
      + intros ([n' d] & -> & [Hin [Hd Hn]%andb_true_iff]%elem_of_List_filter). apply negb_true_iff in Hd. cbn in Hd. by subst d.
      + intros [Hn Hin]. exists (n, false). split; [done|]. by apply elem_of_List_filter. }
  destruct disks; [by apply safe_ret|]. by apply safe_backup.
Qed.

(** ** Restoring in place *)

Lemma within_Save X (Y : string → Prop) m : Y (ID m) → within X Y (Save m).
Proof. intros H. unfold Backups.Save. destruct (ValidateID (ID m)); [done|]. destruct (valid m); [|done]. apply within_ask; [done|]. by intros i ->. Qed.

Lemma wp_Save m v : wp (Save m) v (λ r v', only (λ _, False) (λ i, i = ID m) (now v) (now v') ∧ (r = None → manifests (now v') !! ID m = Some (Marshal m))).
Proof.
  eapply (wp_step _ (λ _, False) (λ i, i = ID m) _ _ (λ r v', r = None → manifests (now v') !! ID m = Some (Marshal m))); [by apply within_Save| |done].
  unfold Backups.Save. destruct (ValidateID (ID m)); [by apply safe_ret|]. destruct (valid m); [|by apply safe_ret].
  apply wp_command. intros r v' (t & _ & E & _) _ ->. cbn in E. rewrite E. apply lookup_insert_eq.
Qed.

(** Machines have identifiers that are no hidden names. *)
Definition plain_ids (t : tree) : Prop := ∀ id, is_Some (manifests t !! id) ∨ id ∈ running t → starts_with "." id = false.

(** The machine has the images of [f], the manifest [man], and does not run. *)
Record restored_as (f : folder) (id : string) (man : VMManifest) (t : tree) : Prop := mkRestored {
  ra_images : in_place f id t;
  ra_manifest : manifests t !! id = Some (Marshal man);
  ra_stopped : id ∉ running t
}.
Lemma restored_only X Y f id man t t' : restored_as f id man t → only X Y t t' → ¬ X (DiskDir id) → ¬ Y id → restored_as f id man t'.
Proof.
  intros [I M R] O HX HY. split; [by eapply in_place_only|by rewrite (o_manifests _ _ _ _ O)|]. intros H. by apply R, (o_running _ _ _ _ O).
Qed.

Lemma wp_replace id restored src f disks v s : let staging := DiskDir (".restore-" ++ s) in
  folders (now v) !! staging = Some ∅ → still staging (now v) → starts_with "." id = false → id ∉ running (now v) → (∀ i, src ≠ DiskDir i) → folders (now v) !! src = Some f →
  (∀ n, is_disk n = true → is_Some (f !! n) → n ∈ disks) → (∀ n, n ∈ disks → is_disk n = true) →
  wp (try copy_disks src staging disks;
      let restored := with_id id restored in
      try ask (RemoveAll (DiskDir id));
      try ask (Rename staging (DiskDir id));
      try Save restored;
      Ret (inl (exposeInterfaces restored))) v
    (λ r v', ∀ m, r = inl m → restored_as f id (with_id id restored) (now v') ∧ m = exposeInterfaces (with_id id restored)).
Proof.
  intros staging Hg Hs Hid Hr Hsrc Hf Hd1 Hd2. assert (DiskDir id ≠ staging) as Hne by (intros [= ->]; discriminate).
  apply safe_try. eapply safe_mono; [apply (wp_fill_staging shows src f disks s); try done|done|].
  { destruct src; [by edestruct Hsrc|done..]. }
  intros e v1 _ [O1 H1]. destruct e; [done|]. destruct (H1 eq_refl) as (g & Hg1 & Hgf). cbv zeta.
  apply safe_try. apply wp_command. intros e v2 _ O2. destruct e; [done|].
  assert (still staging (now v2)) as S2 by (eapply only_later; [exact O2|]; by eapply only_later).
  assert (id ∉ running (now v2)) as R2 by (intros H; by apply Hr, (o_running _ _ _ _ O1), (o_running _ _ _ _ O2)).
  apply safe_try. apply (wp_rename_disks shows s id g); [|done|done|].
  { rewrite <- Hg1. apply (only_still _ _ _ _ _ O2); [by eapply only_later|]. exact (λ E, Hne (eq_sym E)). }
  intros e v3 O3 H3. destruct e; [done|]. specialize (H3 eq_refl).
  apply safe_try. eapply safe_mono; [apply wp_Save|done|]. intros e v4 _ [O4 H4]. destruct e; [done|]. apply safe_ret; [done|].
  assert (id ∉ running (now v3)) as R3 by (intros H; by apply R2, (o_running _ _ _ _ O3)).
  intros m [= <-]. split; [|done]. split; [|by apply H4|intros H; by apply R3, (o_running _ _ _ _ O4)].
  exists g. split; [|done]. rewrite <- H3. by apply (only_nowhere _ _ _ _ O4).
Qed.

Lemma wp_machine_locked {A} id (p : prog (A + string)) v (Q : A + string → host → Prop) : (∀ e v', Q (inr e) v') →
  (∀ v', only (λ _, False) (λ _, False) (now v) (now v') → wp p v' Q) →
  (∀ r v1 v2, Q r v1 → only (λ _, False) (λ _, False) (now v1) (now v2) → Q r v2) → wp (locked id p) v Q.
Proof.
  intros He Hp HQ. unfold locked. apply safe_try. apply wp_command. intros e v1 _ O1. destruct e; [done|].
  apply safe_bind. eapply safe_mono; [by apply Hp|done|]. intros r v2 _ H2. apply safe_bind. apply wp_command. intros e v3 _ O3.
  apply safe_ret; [done|]. by eapply HQ.
Qed.

Lemma wp_restoreInPlace id restored src f disks v : starts_with "." id = false → plain_ids (now v) → (∀ i, src ≠ DiskDir i) → folders (now v) !! src = Some f →
  (∀ n, is_disk n = true → is_Some (f !! n) → n ∈ disks) → (∀ n, n ∈ disks → is_disk n = true) →
  wp (restoreInPlace id restored src disks) v (λ r v', ∀ m, r = inl m → restored_as f id (with_id id restored) (now v') ∧ m = exposeInterfaces (with_id id restored)).
Proof.
  intros Hid Hp Hsrc Hf Hd1 Hd2. assert (∀ t, still src t) as Hss by (intros t; destruct src; [by edestruct Hsrc|done..]).
  unfold Backups.restoreInPlace. apply wp_machine_locked; [done| |].
  2:{ intros r v1 v2 H O m Em. destruct (H m Em) as [H1 H2]. split; [|done]. eapply restored_only; [exact H1|exact O|by intros []..]. }
  intros v1 O1. apply safe_bind. apply wp_command. intros live v2 H2 O2. destruct live; [by apply safe_ret|].
  assert (id ∉ running (now v2)) as R2.
  { destruct H2 as (t & _ & (-> & E) & _). symmetry in E. by apply bool_decide_eq_false in E. }
  apply safe_checked. apply wp_command. intros r v3 H3 O3. destruct r as [staging|e]; [|done].
  destruct (documented_past _ _ _ _ _ H3) as (t & _ & _ & (s & -> & _ & E3)).
  assert (starts_with "." (".restore-" ++ s) = true) as Hdot by done.
  unfold removing. apply safe_bind. eapply safe_mono; [apply (wp_replace id restored src f disks v3 s)|done|]; try done.
  - rewrite E3. apply lookup_insert_eq.
  - cbn. intros H. assert (starts_with "." (".restore-" ++ s) = false) as E; [|congruence]. apply Hp. right.
    by apply (o_running _ _ _ _ O1), (o_running _ _ _ _ O2), (o_running _ _ _ _ O3).
  - intros H. by apply R2, (o_running _ _ _ _ O3).
  - rewrite (only_still _ _ _ _ _ O3); [|done|intros [s' E]; by apply (Hsrc (".restore-" ++ s'))].
    rewrite (only_nowhere _ _ _ _ O2) by done. by rewrite (only_nowhere _ _ _ _ O1).
  - intros r v4 _ H4. apply safe_bind. apply wp_command. intros e v5 _ O5. apply safe_ret; [done|]. intros m Em. destruct (H4 m Em) as [H5 H6].
    split; [|done]. eapply restored_only; [exact H5|exact O5| |by intros []]. intros E. injection E as ->. discriminate.
Qed.

Lemma manifest_of_only X t t' id m : only X (λ _, False) t t' → manifest_of t' id m → manifest_of t id m.
Proof. intros O [E (d & Hd & Hp)]. split; [done|]. exists d. split; [|done]. by rewrite <- (only_nothing _ _ _ O). Qed.

Lemma wp_Loads ids v : wp (for_each Load ids) v (λ r _, ∀ l, r = inl l → ∀ m, m ∈ l → manifest_of (now v) (ID m) m).
Proof.
  revert v. induction ids as [|id ids IH]; intros v.
  { apply safe_ret; [done|]. intros l [= <-] m Hm. by apply not_elem_of_nil in Hm. }
  apply safe_checked. eapply (wp_step _ (λ _, False) (λ _, False)); [apply within_Load|apply wp_machine_Load|]. intros r v1 O1 H1. destruct r as [m|e]; [|done].
  destruct (H1 m eq_refl) as [[Em Hm] _]. apply safe_checked. eapply safe_mono; [apply IH|done|]. intros r v2 _ H2. destruct r as [l|e]; [|done].
  apply safe_ret; [done|]. intros l' [= <-] m' [->|Hin]%elem_of_cons; [by subst id|].
  eapply manifest_of_only; [exact O1|]. by apply (H2 l eq_refl).
Qed.

(** The machine that a reference names. *)
Lemma wp_Resolve ref v : wp (Resolve ref) v (λ r _, ∀ m, r = inl m → manifest_of (now v) (ID m) m ∧ (ID m = ref ∨ Name m = ref)).
Proof.
  unfold Backups.Resolve. apply safe_bind. eapply (wp_step _ (λ _, False) (λ _, False)); [apply within_Load|apply wp_machine_Load|]. intros r v1 O1 H1. destruct r as [m|e].
  { apply safe_ret; [done|]. intros m' [= <-]. destruct (H1 m eq_refl) as [[E Hm] _]. split; [by subst ref|by left]. }
  apply safe_checked. apply safe_checked. apply wp_command. intros r v2 _ O2. destruct r as [ids|e']; [|done].
  eapply safe_mono; [apply wp_Loads|done|]. intros r v3 _ H3. destruct r as [l|e']; [|done]. destruct (find _ l) as [m|] eqn:E; [|by apply safe_ret].
  apply safe_ret; [done|]. intros m' [= <-]. apply find_some in E as [Hin En%String.eqb_eq]. split; [|by right].
  eapply manifest_of_only; [exact O1|]. eapply manifest_of_only; [exact O2|]. by apply (H3 l eq_refl), list_elem_of_In.
Qed.

(** What is read of a backup of the machine [m]. *)
Record read_from (ref ts : string) (m restored : VMManifest) (disks : list string) (f : folder) (t : tree) : Prop := mkReadFrom {
  rb_machine : manifest_of t (ID m) m;
  rb_named : ID m = ref ∨ Name m = ref;
  rb_folder : folders t !! BackupDir (ID m) ts = Some f;
  rb_manifest : ∃ data, f !! "manifest.yml" = Some data ∧ Parse data = inl restored;
  rb_all : ∀ n, is_disk n = true → is_Some (f !! n) → n ∈ disks;
  rb_disks : ∀ n, n ∈ disks → is_disk n = true
}.

Lemma within_read_backup X Y ref ts : within X Y (read_backup ref ts).
Proof.
  apply within_checked; [apply within_Resolve|]. intros m. apply within_bind; [by apply within_ask|]. intros [l|[e|]]; [|done..].
  cbv zeta. destruct (List.filter _ _).*1; [done|]. apply within_checked; [by apply within_ask|]. intros data. by destruct (Parse data).
Qed.

Lemma wp_read_backup ref ts v : wp (read_backup ref ts) v (λ r v', only (λ _, False) (λ _, False) (now v) (now v') ∧
  ∀ m restored disks, r = inl (m, restored, disks) → ∃ f, read_from ref ts m restored disks f (now v)).
Proof.
  eapply wp_step; [apply within_read_backup| |intros a v' O H; split; [exact O|exact H]]. unfold Backups.read_backup. apply safe_checked.
  eapply (wp_step _ (λ _, False) (λ _, False)); [apply within_Resolve|apply wp_Resolve|]. intros r v1 O1 H1. destruct r as [m|e]; [|done].
  destruct (H1 m eq_refl) as [Hm Href]. set (d := BackupDir (ID m) ts). cbv zeta.
  apply safe_bind. apply wp_command. intros r v2 H2 O2. destruct r as [l|[e|]]; [|by apply safe_ret..].
  set (disks := (List.filter (λ e : string * bool, is_disk e.1) l).*1).
  destruct H2 as (t2 & G2 & (E2 & f & Hf & _ & Hl) & _). rewrite <- E2 in Hf.
  assert (folders (now v) !! d = Some f) as Hfv by (rewrite <- Hf; rewrite (only_nowhere _ _ _ d O2) by done; by rewrite (only_nowhere _ _ _ d O1)).
  assert (∀ n, is_disk n = true → is_Some (f !! n) → n ∈ disks) as Hd1.
  { intros n Hn Hx%elem_of_dom. apply list_elem_of_fmap. exists (n, false). split; [done|]. apply elem_of_List_filter. split; [by apply Hl|done]. }
  assert (∀ n, n ∈ disks → is_disk n = true) as Hd2 by (by intros n ([n' b] & -> & [_ Hn]%elem_of_List_filter)%list_elem_of_fmap).
  destruct disks as [|n0 rest] eqn:Ed; [by apply safe_ret|]. rewrite <- Ed in *. clear Ed.
  apply safe_checked. apply wp_command. intros r v3 H3 O3. destruct r as [data|e]; [|done].
  destruct (Parse data) as [mb|e] eqn:Eb; [|by apply safe_ret]. apply safe_ret; [done|]. intros m' restored disks' [= <- <- <-].
  destruct H3 as (t3 & G3 & (E3 & Hdata) & _). specialize (Hdata data eq_refl). rewrite <- E3 in Hdata. cbn in Hdata. fold d in Hdata.
  rewrite (only_nowhere _ _ _ d O3) in Hdata by done. rewrite E2, <- E2, Hf in Hdata. exists f. split; [done|done|done|by exists data|done|done].
Qed.

Lemma read_from_only ref ts m restored disks f t t' : read_from ref ts m restored disks f t → only (λ _, False) (λ _, False) t t' →
  folders t' !! BackupDir (ID m) ts = Some f.
Proof. intros H O. rewrite (only_nowhere _ _ _ _ O) by done. apply H. Qed.
Lemma plain_ids_only t t' : plain_ids t → only (λ _, False) (λ _, False) t t' → plain_ids t'.
Proof.
  intros Hp O id Hid. apply Hp. destruct Hid as [Hx|Hx]; [left; by rewrite <- (only_nothing _ _ _ O)|right; by apply (o_running _ _ _ _ O)].
Qed.

Lemma wp_RestoreVM ref ts v : plain_ids (now v) → wp (RestoreVM ref ts false) v (λ r v', ∀ man, r = Some (inl man) →
  ∃ m restored disks f, read_from ref ts m restored disks f (now v) ∧
    restored_as f (ID m) (with_id (ID m) restored) (now v') ∧ man = exposeInterfaces (with_id (ID m) restored)).
Proof.
  intros Hp. unfold Backups.RestoreVM. destruct (negb _); [by apply safe_ret|]. apply safe_bind. eapply safe_mono; [apply wp_read_backup|done|].
  intros r v1 _ [O1 H1]. destruct r as [[[m restored] disks]|e]; [|by apply safe_ret]. destruct (H1 _ _ _ eq_refl) as (f & Hf).
  assert (plain_ids (now v1)) as P1 by by eapply plain_ids_only. cbv zeta. apply safe_bind.
  eapply safe_mono; [apply (wp_restoreInPlace (ID m) restored _ f disks v1)|done|]; [|done|done|by eapply read_from_only|apply Hf..|].
  { apply Hp. left. destruct (rb_machine _ _ _ _ _ _ _ Hf) as (_ & d & Hd & _). by rewrite Hd. }
  intros r v2 _ H2. apply safe_ret; [done|]. intros man [= ->]. destruct (H2 man eq_refl) as [H3 Eman]. by exists m, restored, disks, f.
Qed.

(** ** Restoring as a new machine *)

Lemma wp_restoreNamed man src f disks v : let u := ID man in
  starts_with "." u = false → (∀ i, i ∈ running (now v) → starts_with "." i = false) → u ∉ running (now v) → (∀ i, src ≠ DiskDir i) → folders (now v) !! src = Some f →
  (∀ n, is_disk n = true → is_Some (f !! n) → n ∈ disks) → (∀ n, n ∈ disks → is_disk n = true) →
  wp (restoreNamed man src disks) v (λ r v', ∀ m, r = inl m → restored_as f u (exposeInterfaces man) (now v') ∧ m = exposeInterfaces man).
Proof.
  intros u Hu Hp Hr Hsrc Hf Hd1 Hd2. assert (∀ t, still src t) as Hss by (intros t; destruct src; [by edestruct Hsrc|done..]).
  unfold Backups.restoreNamed. apply safe_checked. apply wp_command. intros r v1 H1 O1. destruct r as [staging|e]; [|done].
  destruct (documented_past _ _ _ _ _ H1) as (t & _ & _ & (s & -> & _ & E1)).
  assert (starts_with "." (".restore-" ++ s) = true) as Hdot by done. set (staging := DiskDir (".restore-" ++ s)) in *.
  assert (still staging (now v1)) as S1.
  { intros H. assert (starts_with "." (".restore-" ++ s) = false) as E; [|congruence]. by apply Hp, (o_running _ _ _ _ O1). }
  apply safe_bind. apply safe_try. eapply safe_mono; [apply (wp_fill_staging shows src f disks s); try done|done|].
  { rewrite (only_still _ _ _ _ _ O1); [done|done|]. intros [s' E]. by apply (Hsrc (".restore-" ++ s')). }
  { rewrite E1. apply lookup_insert_eq. }
  intros e v2 _ [O2 H2]. destruct e as [e|].
  { apply safe_bind. apply wp_command. intros e' v3 _ _. by apply safe_ret. }
  destruct (H2 eq_refl) as (g & Hg & Hgf). apply safe_try. eapply safe_mono; [apply wp_Save|done|]. intros e v3 _ [O3 H3]. destruct e as [e|].
  { apply safe_bind. apply wp_command. intros e' v4 _ _. by apply safe_ret. }
  assert (u ∉ running (now v3)) as R3.
  { intros H. by apply Hr, (o_running _ _ _ _ O1), (o_running _ _ _ _ O2), (o_running _ _ _ _ O3). }
  apply safe_bind. apply (wp_rename_disks shows s u g); [|by eapply only_later, only_later|done|].
  { rewrite <- Hg. apply (only_nowhere _ _ _ _ O3). by eapply only_later. }
  intros e v4 O4 H4. destruct e as [e|].
  { apply safe_bind. apply wp_command. intros e' v5 _ _. apply safe_ret; [done|]. apply safe_bind. apply wp_command. intros e'' v6 _ _. by apply safe_ret. }
  apply safe_ret; [done|]. apply safe_ret; [done|]. intros m [= <-]. split; [|done]. split.
  - exists g. split; [by apply H4|done].
  - rewrite (only_nothing _ _ _ O4). by apply H3.
  - intros H. by apply R3, (o_running _ _ _ _ O4).
Qed.

(** The manifest of the new machine. *)
Definition new_manifest (u name : string) (restored : VMManifest) : VMManifest := without_macs (renamed_off name (with_id u restored)).

Lemma uuid_plain u : uuid_form u → starts_with "." u = false.
Proof.
  intros [Hl Hc]. apply not_true_iff_false. intros (r & ->)%starts_with_spec. unfold all_chars in Hc. cbn in Hc. discriminate.
Qed.

(** No machine. *)
Definition absent (u : string) (t : tree) : Prop := manifests t !! u = None ∧ folders t !! DiskDir u = None.

Lemma absent_earlier u t t' : only (λ _, False) (λ _, False) t t' → absent u t' → absent u t.
Proof.
  intros O [Hm Hd]. split; [by rewrite <- (only_nothing _ _ _ O)|]. pose proof (same_dir_dom _ _ _ (o_dirs _ _ _ _ O (DiskDir u) (λ H, H))) as E.
  rewrite Hd in E. by destruct (folders t !! DiskDir u).
Qed.

(** The names of the machines that can be listed are not taken. *)
Lemma wp_restoreAsNew restored src f disks v : plain_ids (now v) → (∀ i, src ≠ DiskDir i) → folders (now v) !! src = Some f →
  (∀ n, is_disk n = true → is_Some (f !! n) → n ∈ disks) → (∀ n, n ∈ disks → is_disk n = true) →
  wp (restoreAsNew restored src disks) v (λ r v', ∀ man, r = Some (inl man) → ∃ u name,
    absent u (now v) ∧ restored_as f u (exposeInterfaces (new_manifest u name restored)) (now v') ∧ man = exposeInterfaces (new_manifest u name restored)).
Proof.
  intros Hp Hsrc Hf Hd1 Hd2. assert (∀ t, still src t) as Hss by (intros t; destruct src; [by edestruct Hsrc|done..]).
  unfold Backups.restoreAsNew. apply safe_bind. apply wp_command. intros u v1 H1 O1.
  destruct H1 as (t1 & G1 & (E1 & Hu & Hm & Hr & Hd & _) & _). rewrite <- E1 in Hm, Hr, Hd.
  apply safe_bind. eapply (wp_step _ (λ _, False) (λ _, False)); [apply within_List|apply wp_longer|]. intros l v2 O2 _.
  destruct (unique_name _ _ _) as [name|]; [|by apply safe_ret]. apply safe_bind.
  assert (plain_ids (now v2)) as P2 by (eapply plain_ids_only; [by eapply plain_ids_only|exact O2]).
  eapply safe_mono; [apply (wp_restoreNamed (new_manifest u name restored) src f disks v2)|done|].
  - by apply uuid_plain.
  - intros i Hi. apply P2. by right.
  - intros H. by apply Hr, (o_running _ _ _ _ O2).
  - done.
  - rewrite (only_nowhere _ _ _ _ O2) by done. by rewrite (only_nowhere _ _ _ _ O1).
  - done.
  - done.
  - intros r v3 _ H3. apply safe_ret; [done|]. intros man [= ->]. destruct (H3 man eq_refl) as [H4 E]. exists u, name. split_and!; [|done|done].
    eapply absent_earlier; [exact O1|]. by split.
Qed.

Lemma wp_RestoreVM_new ref ts v : plain_ids (now v) → wp (RestoreVM ref ts true) v (λ r v', ∀ man, r = Some (inl man) →
  ∃ m restored disks f u name, read_from ref ts m restored disks f (now v) ∧ absent u (now v) ∧
    restored_as f u man (now v') ∧ man = exposeInterfaces (new_manifest u name restored)).
Proof.
  intros Hp. unfold Backups.RestoreVM. destruct (negb _); [by apply safe_ret|]. apply safe_bind. eapply safe_mono; [apply wp_read_backup|done|].
  intros r v1 _ [O1 H1]. destruct r as [[[m restored] disks]|e]; [|by apply safe_ret]. destruct (H1 _ _ _ eq_refl) as (f & Hf).
  eapply safe_mono; [apply (wp_restoreAsNew restored _ f disks v1)|done|]; [by eapply plain_ids_only|done|by eapply read_from_only|apply Hf..|].
  intros r v2 _ H2 man Er. destruct (H2 man Er) as (u & name & Hu & Hr & E). exists m, restored, disks, f, u, name. split_and!; [done| | |done].
  - by eapply absent_earlier.
  - by rewrite E.
Qed.

(** ** What restoring may change *)

Definition restoring (d : dir) : Prop := ∃ s, d = DiskDir (".restore-" ++ s).

(** The machine that is restored: the one that was named, or one that was not there. *)
Definition chosen (ref : string) (asNew : bool) (t : tree) (id : string) : Prop :=
  if asNew then absent id t else ∃ m, manifest_of t id m ∧ (id = ref ∨ Name m = ref).

(** Nothing has changed, or at most that machine, which does not run, and copies in progress. *)
Definition harmless (ref : string) (asNew : bool) (t0 : tree) (v : host) : Prop :=
  only (λ _, False) (λ _, False) t0 (now v) ∨
  ∃ id, chosen ref asNew t0 id ∧ id ∉ running (now v) ∧ only (λ d, restoring d ∨ d = DiskDir id) (λ i, i = id) t0 (now v).

Lemma harmless_only ref asNew t0 v v' : only (λ _, False) (λ _, False) (now v) (now v') → harmless ref asNew t0 v → harmless ref asNew t0 v'.
Proof.
  intros O [H|(id & Hc & Hr & H)]; [left; by eapply only_trans|right]. exists id. split_and!; [done| |].
  - intros Hi. by apply Hr, (o_running _ _ _ _ O).
  - eapply only_trans; [exact H|]. by eapply only_mono; [| |exact O].
Qed.
Lemma harmless_quiet {A} ref asNew t0 (p : prog A) v (Q : A → host → Prop) : within (λ _, False) (λ _, False) p → harmless ref asNew t0 v → wp p v Q →
  safe p v (harmless ref asNew t0) (λ a v', harmless ref asNew t0 v' ∧ only (λ _, False) (λ _, False) (now v) (now v') ∧ Q a v').
Proof.
  intros Hw Hh Hp. pose proof (within_safe shows _ _ p v (now v) Hw (only_refl _ _ _)) as H.
  eapply safe_mono; [exact (safe_and _ _ _ _ _ _ H Hp)| |].
  - intros v' [O _]. by eapply harmless_only.
  - intros a v' [O _] [_ Hq]. split_and!; [by eapply harmless_only|done|done].
Qed.

(** Once the machine is chosen. *)
Lemma harmless_rest {A} ref asNew t0 id (p : prog A) v : within (λ d, restoring d ∨ d = DiskDir id) (λ i, i = id) p → chosen ref asNew t0 id → id ∉ running (now v) →
  only (λ d, restoring d ∨ d = DiskDir id) (λ i, i = id) t0 (now v) → safe p v (harmless ref asNew t0) (λ _ v', harmless ref asNew t0 v').
Proof.
  intros Hw Hc Hr Ho. pose proof (within_safe shows _ _ p v (now v) Hw (only_refl _ _ _)) as H.
  assert (∀ v', only (λ d, restoring d ∨ d = DiskDir id) (λ i, i = id) (now v) (now v') → harmless ref asNew t0 v') as Hh.
  { intros v' O. right. exists id. split_and!; [done| |by eapply only_trans]. intros Hi. by apply Hr, (o_running _ _ _ _ O). }
  eapply safe_mono; [exact H|exact Hh|]. intros a v' O _. by apply Hh.
Qed.

Lemma within_copies (X : dir → Prop) Y src d l : X d → within X Y (copy_disks src d l).
Proof. intros H. eapply within_mono; [| |apply within_copy_disks]; [by intros e ->|done]. Qed.

(** The part of each way of restoring that changes something. *)
Lemma within_in_place id restored src disks : within (λ d, restoring d ∨ d = DiskDir id) (λ i, i = id)
  (staging ⇐ ask (MkdirTemp RestoreIn);
   removing staging (
     try copy_disks src staging disks;
     let restored := with_id id restored in
     try ask (RemoveAll (DiskDir id));
     try ask (Rename staging (DiskDir id));
     try Save restored;
     Ret (inl (exposeInterfaces restored)))).
Proof.
  assert (∀ s, restoring (temporary RestoreIn s)) as Hs by (intros s; by exists s).
  apply within_temp; [intros s; by left|]. intros s. apply within_bind.
  - apply within_bind; [by apply within_copies; left|]. intros [e|]; [done|]. cbv zeta.
    apply within_bind; [apply within_ask; [intros d ->; by right|done]|]. intros [e|]; [done|].
    apply within_bind; [apply within_ask; [intros d [->| ->]; [by left|by right]|done]|]. intros [e|]; [done|].
    apply within_bind; [by apply within_Save|]. by intros [e|].
  - intros a. apply within_bind; [apply within_ask; [intros d ->; by left|done]|done].
Qed.

Lemma within_restoreNamed man src disks : within (λ d, restoring d ∨ d = DiskDir (ID man)) (λ i, i = ID man) (restoreNamed man src disks).
Proof.
  assert (∀ s, restoring (temporary RestoreIn s)) as Hs by (intros s; by exists s).
  apply within_temp; [intros s; by left|]. intros s. apply within_bind.
  - apply within_bind; [by apply within_copies; left|]. intros [e|]; [done|]. cbv zeta.
    apply within_bind; [by apply within_Save|]. intros [e|]; [done|].
    apply within_bind; [apply within_ask; [intros d [->| ->]; [by left|by right]|done]|]. intros [e|]; [|done].
    apply within_bind; [apply within_ask; [done|by intros i ->]|done].
  - intros [m|e]; [done|]. apply within_bind; [apply within_ask; [intros d ->; by left|done]|done].
Qed.

Lemma only_none_mono (X : dir → Prop) (Y : string → Prop) t t' : only (λ _, False) (λ _, False) t t' → only X Y t t'.
Proof. by apply only_mono. Qed.

Lemma safe_restoreInPlace ref t0 id restored src disks v : chosen ref false t0 id → only (λ _, False) (λ _, False) t0 (now v) →
  safe (restoreInPlace id restored src disks) v (harmless ref false t0) (λ _ _, True).
Proof.
  intros Hc Ho. unfold Backups.restoreInPlace, locked. apply safe_try.
  eapply safe_mono; [eapply harmless_quiet; [by apply within_ask|by left|apply wp_longer]|done|]. intros e v1 _ (Hh1 & O1 & _). destruct e; [done|].
  apply safe_bind. eapply (safe_mono _ _ _ _ (λ _ v', harmless ref false t0 v')); [|done|].
  - apply safe_bind.
    eapply safe_mono; [apply (harmless_quiet ref false t0 _ _ (λ (r : bool) v', r = false → id ∉ running (now v'))); [by apply within_ask|done|]|done|].
    { apply wp_command. intros r v2 (t & _ & (-> & E) & _) _ ->. symmetry in E. by apply bool_decide_eq_false in E. }
    intros live v2 _ (Hh2 & O2 & Hr). destruct live; [by apply safe_ret|]. apply (harmless_rest _ _ _ id); [apply within_in_place|done|by apply Hr|].
    apply only_none_mono. by eapply only_trans, only_trans.
  - intros r v2 Hh2 _. apply safe_bind.
    eapply safe_mono; [eapply harmless_quiet; [by apply within_ask|done|apply wp_longer]|done|]. intros e v3 Hh3 _. by apply safe_ret.
Qed.

Lemma safe_restoreAsNew ref t0 restored src disks v : only (λ _, False) (λ _, False) t0 (now v) →
  safe (restoreAsNew restored src disks) v (harmless ref true t0) (λ _ _, True).
Proof.
  intros Ho. unfold Backups.restoreAsNew. apply safe_bind.
  eapply safe_mono; [apply (harmless_quiet ref true t0 _ _ (λ u v', absent u (now v') ∧ u ∉ running (now v'))); [by apply within_ask|by left|]|done|].
  { apply wp_command. intros u v1 (t & _ & (-> & _ & Hm & Hr & Hd & _) & _) _. done. }
  intros u v1 _ (Hh1 & O1 & Hu & Hr). apply safe_bind.
  eapply safe_mono; [eapply harmless_quiet; [apply within_List|done|apply wp_longer]|done|]. intros l v2 _ (Hh2 & O2 & _).
  destruct (unique_name _ _ _) as [name|]; [|by apply safe_ret]. apply safe_bind.
  eapply safe_mono; [apply (harmless_rest ref true t0 u); [apply (within_restoreNamed (new_manifest u name restored))| | |]|done|].
  - eapply absent_earlier; [|exact Hu]. by eapply only_trans.
  - intros H. by apply Hr, (o_running _ _ _ _ O2).
  - apply only_none_mono. by eapply only_trans, only_trans.
  - intros r v3 Hh3 _. by apply safe_ret.
Qed.

Lemma safe_RestoreVM ref ts asNew v : safe (RestoreVM ref ts asNew) v (harmless ref asNew (now v)) (λ _ _, True).
Proof.
  assert (harmless ref asNew (now v) v) as H0 by (left; apply only_refl).
  unfold Backups.RestoreVM. destruct (negb _); [by apply safe_ret|]. apply safe_bind.
  eapply safe_mono; [eapply harmless_quiet; [apply within_read_backup|done|apply wp_read_backup]|done|]. intros r v1 Hh1 (_ & O1 & _ & H1).
  destruct r as [[[m restored] disks]|e]; [|by apply safe_ret]. destruct (H1 _ _ _ eq_refl) as (f & Hf). cbv zeta.
  destruct asNew; [by apply safe_restoreAsNew|]. apply safe_bind.
  eapply safe_mono; [apply safe_restoreInPlace; [|done]|done|].
  - exists m. split; [apply Hf|apply Hf].
  - intros r v2 Hh2 _. by apply safe_ret.
Qed.
End functions.

(** ** Theorems *)

(** C6. At any moment of a backup, whatever fails and wherever the process is killed, no disk, manifest or backup that was
    there has been touched, and every new backup that can be seen holds the manifest and all the disks of its machine,
    as they were at one moment since the beginning; a backup that was reported is one of these. *)
Theorem backups_whole {M} (shows : string → string) `{!Machine cmd host (documented shows) M} Unmarshal valid info_json stamp rfc3339 ref (m : M) :
  stamps stamp → let run := BackupVM Unmarshal valid info_json stamp rfc3339 ref in
  (∀ k, unhurt shows (view m) (view (killed k run m))) ∧ unhurt shows (view m) (view (exec run m).2) ∧
  backed_up shows stamp (view m) (exec run m).1 (view (exec run m).2).
Proof.
  intros Hs run. pose proof (safe_BackupVM shows Unmarshal valid info_json stamp rfc3339 ref (view m) Hs) as H. fold run in H. split.
  - intros k. by eapply safe_killed.
  - by apply (safe_exec run m _ _ H).
Qed.

(** C7. Restoring harms nothing: at any moment, whatever fails and wherever the process is killed, every backup, and the
    disks and manifest of every machine but the one that is restored, are as before; that one does not run, and is the
    one that was named or, as a new machine, one that was not there. When it succeeds, the machine has the disks of the
    backup and its manifest. *)
Theorem restore_harmless {M} (shows : string → string) `{!Machine cmd host (documented shows) M} Unmarshal Marshal valid MAC tries ref ts asNew (m : M) :
  plain_ids (now (view m)) → let run := RestoreVM Unmarshal Marshal valid MAC tries ref ts asNew in
  (∀ k, harmless Unmarshal valid ref asNew (now (view m)) (view (killed k run m))) ∧
  harmless Unmarshal valid ref asNew (now (view m)) (view (exec run m).2) ∧
  ∀ man, (exec run m).1 = Some (inl man) → ∃ named restored disks f,
    read_from Unmarshal valid ref ts named restored disks f (now (view m)) ∧
    if asNew then ∃ u name, absent u (now (view m)) ∧ man = exposeInterfaces MAC (new_manifest u name restored) ∧
                            restored_as Marshal f u man (now (view (exec run m).2))
    else man = exposeInterfaces MAC (with_id (ID named) restored) ∧
         restored_as Marshal f (ID named) (with_id (ID named) restored) (now (view (exec run m).2)).
Proof.
  intros Hp run. pose proof (safe_RestoreVM shows Unmarshal Marshal valid MAC tries ref ts asNew (view m)) as H. fold run in H.
  split_and!; [intros k; by eapply safe_killed|by apply (safe_exec run m _ _ H)|]. intros man Er. destruct asNew.
  - destruct (safe_exec run m _ _ (wp_RestoreVM_new shows Unmarshal Marshal valid MAC tries ref ts (view m) Hp)) as [_ H2].
    destruct (H2 man Er) as (n & r & d & f & u & name & ? & ? & ? & ?). exists n, r, d, f. split; [done|]. by exists u, name.
  - destruct (safe_exec run m _ _ (wp_RestoreVM shows Unmarshal Marshal valid MAC tries ref ts (view m) Hp)) as [_ H2].
    destruct (H2 man Er) as (n & r & d & f & ? & ? & ?). by exists n, r, d, f.
Qed.

(** C5. What was backed up comes back. When a backup was made, and later, whatever happened to the machine meanwhile, it is
    restored in its place, the machine has the disks and the manifest that it had at one moment of the backup. *)
Theorem backup_roundtrip {M M'} (shows : string → string) `{!Machine cmd host (documented shows) M} `{!Machine cmd host (documented shows) M'}
    Unmarshal Marshal valid info_json stamp rfc3339 MAC tries ref ref' b man (m : M) (m' : M') :
  stamps stamp → plain_ids (now (view m')) →
  let made := exec (BackupVM Unmarshal valid info_json stamp rfc3339 ref) m in
  let back := exec (RestoreVM Unmarshal Marshal valid MAC tries ref' (res_Timestamp b) false) m' in
  made.1 = inl b → folders (now (view m')) !! Path b = folders (now (view made.2)) !! Path b → back.1 = Some (inl man) → ID man = res_VMID b →
  ∃ t data restored, recent (view m) (view made.2) t ∧ manifests t !! ID man = Some data ∧ Parse Unmarshal valid data = inl restored ∧
    man = exposeInterfaces MAC (with_id (ID man) restored) ∧ manifests (now (view back.2)) !! ID man = Some (Marshal (with_id (ID man) restored)) ∧
    ∀ name, is_disk name = true → shows <$> disk (now (view back.2)) (ID man) name = shows <$> disk t (ID man) name.
Proof.
  intros Hs Hp made back Hb Hkept Hman Hid.
  destruct (safe_exec _ m _ _ (safe_BackupVM shows Unmarshal valid info_json stamp rfc3339 ref (view m) Hs)) as [_ H1]. fold made in H1.
  destruct (H1 b Hb) as (_ & Epath & f & t & Hf & Ht & (data & Hd & Hfd) & _ & Himg).
  destruct (safe_exec _ m' _ _ (wp_RestoreVM shows Unmarshal Marshal valid MAC tries ref' (res_Timestamp b) (view m') Hp)) as [_ H2]. fold back in H2.
  destruct (H2 man Hman) as (n & restored & disks & f' & [_ _ Hf' (data' & Hd' & Hparse) _ _] & [(g & Hg & Hgf) Hm _] & Eman).
  assert (ID man = ID n) as En by by rewrite Eman. rewrite <- En in *. assert (f' = f) as -> by (rewrite Hid, <- Epath, Hkept in Hf'; congruence).
  exists t, data, restored. rewrite Hid in *. split_and!; [done|done|congruence|done|done|]. intros name Hn. rewrite <- Himg by done.
  unfold disk. rewrite Hg. cbn. by rewrite Hgf, Hn.
Qed.

(** ** Files in memory *)

Definition dir_name (d : dir) : string := match d with DiskDir n => n | RunDir _ n => n | BackupDir _ n => n end.
Definition names_in (t : tree) : gset string :=
  dom (manifests t) ∪ running t ∪ list_to_set (dir_name <$> (map_to_list (folders t)).*1).

Fixpoint digits (n : nat) : string := match n with O => "" | S n => String "a" (digits n) end.
Definition longest (X : gset string) : nat := max_list (String.length <$> elements X).
Definition fresh_uuid (t : tree) : string := digits (36 `max` S (longest (names_in t))).

Lemma digits_length n : String.length (digits n) = n.
Proof. induction n; cbn; congruence. Qed.
Lemma digits_chars n : all_chars is_uuid_char (digits n) = true.
Proof. induction n as [|n IH]; [done|]. exact IH. Qed.
Lemma longest_le X s : s ∈ X → (String.length s ≤ longest X)%nat.
Proof. intros H. unfold longest. apply max_list_elem_of_le. apply list_elem_of_fmap_2. by apply elem_of_elements. Qed.
Lemma includes_length u n : includes u n = true → (String.length u ≤ String.length n)%nat.
Proof. intros (a & b & ->)%includes_spec. rewrite !str_length_app. lia. Qed.
Lemma named_dir t d : is_Some (folders t !! d) → dir_name d ∈ names_in t.
Proof.
  intros [f Hf]. apply elem_of_union_r, elem_of_list_to_set, list_elem_of_fmap. exists d. split; [done|]. apply list_elem_of_fmap. exists (d, f).
  split; [done|]. by apply elem_of_map_to_list.
Qed.

Lemma fresh_uuid_unused t : uuid_form (fresh_uuid t) ∧ unused (fresh_uuid t) t.
Proof.
  assert (∀ n, (String.length (fresh_uuid t) ≤ String.length n)%nat → n ∉ names_in t) as H.
  { intros n Hl Hn%longest_le. unfold fresh_uuid in Hl. rewrite digits_length in Hl. lia. }
  split; [split; [unfold fresh_uuid; rewrite digits_length; lia|apply digits_chars]|].
  assert (∀ d, (String.length (fresh_uuid t) ≤ String.length (dir_name d))%nat → folders t !! d = None) as Hd.
  { intros d Hl. apply eq_None_not_Some. intros Hs%named_dir. by eapply H. }
  split_and!.
  - apply not_elem_of_dom. intros Hin. apply (H (fresh_uuid t)); [done|]. by apply elem_of_union_l, elem_of_union_l.
  - intros Hin. apply (H (fresh_uuid t)); [done|]. by apply elem_of_union_l, elem_of_union_r.
  - by apply Hd.
  - intros id n Hi%includes_length. split; by apply Hd.
Qed.

Definition all_images (t : tree) (id : string) (names : list string) : option folder :=
  (λ l, list_to_map (zip names l)) <$> mapM (disk t id) names.

Definition backups_in (t : tree) (id : string) : gset string :=
  list_to_set (omap (λ d, match d with BackupDir i n => if String.eqb i id then Some n else None | _ => None end) (map_to_list (folders t)).*1).
Lemma elem_of_backups_in t id n : n ∈ backups_in t id ↔ is_Some (folders t !! BackupDir id n).
Proof.
  unfold backups_in. rewrite elem_of_list_to_set, list_elem_of_omap. split.
  - intros (d & ([d' f] & -> & Hf%elem_of_map_to_list)%list_elem_of_fmap & E). cbn in *. destruct d' as [| |i k]; [done..|].
    destruct (String.eqb_spec i id) as [->|]; [|done]. injection E as ->. by exists f.
  - intros [f Hf]. exists (BackupDir id n). split; [|by rewrite String.eqb_refl]. apply list_elem_of_fmap. exists (BackupDir id n, f).
    split; [done|]. by apply elem_of_map_to_list.
Qed.

Definition memory B (c : cmd B) (t : tree) : B * tree :=
  match c in cmd B return B * tree with
  | LockMachine _ | CloseLock | LookPath | MakeRoot _ | Open _ | CloseFile => (None, t)
  | IsRunning id => (bool_decide (id ∈ running t), t)
  | Clock => (clock t, t)
  | NewUUID => (fresh_uuid t, t)
  | ReadManifest id => (match manifests t !! id with Some data => inl data | None => inr "vm not found" end, t)
  | ListManifests => (inl (elements (dom (manifests t))), t)
  | WriteManifest id data => (None, with_manifests <[id := data]> t)
  | RemoveManifest id => (None, with_manifests (delete id) t)
  | ReadDir d => (match folders t !! d with Some f => inl (map (λ n, (n, false)) (elements (dom f))) | None => inr None end, t)
  | ReadRoot id =>
      (inl (map (λ n, (n, true)) (elements (backups_in t id))), t)
  | IsMissing d => (bool_decide (folders t !! d = None), t)
  | MakeDir d => (None, match folders t !! d with Some _ => t | None => with_folders <[d := ∅]> t end)
  | MkdirTemp p => let d := temporary p (digits (S (longest (names_in t)))) in (inl d, with_folders <[d := ∅]> t)
  | CreateFile d name => (None, put d name "" t)
  | Copy s d name => match content s t with Some data => (None, put d name data t) | None => (Some "no such file", t) end
  | ReadFile d name => (match content (FileOf d name) t with Some data => inl data | None => inr "no such file" end, t)
  | WriteFile d name data => (None, put d name data t)
  | Info d name => (inl ((λ data, Z.of_nat (String.length data)) <$> content (FileOf d name) t), t)
  | Rename from to =>
      match folders t !! from with
      | Some f => if bool_decide (folders t !! to = None ∨ folders t !! to = Some ∅) then (None, with_folders (λ m, <[to := f]> (delete from m)) t)
                  else (Some "directory not empty", t)
      | None => (Some "no such directory", t)
      end
  | RemoveAll d => (None, with_folders (delete d) t)
  | Convert id name d => match disk t id name with Some image => (None, put d name image t) | None => (Some "no such file", t) end
  | BackupDisks id names d =>
      match all_images t id names with
      | Some new => (inl true, with_folders (alter (union new) d) t)
      | None => (inr (false, "no such disk"), t)
      end
  | Range X => (elements X, t)
  end.

Lemma all_images_spec t id names new : all_images t id names = Some new →
  dom new = list_to_set names ∧ ∀ n, n ∈ names → is_Some (disk t id n) ∧ new !! n = disk t id n.
Proof.
  unfold all_images. intros (l & E & ->)%fmap_Some. apply mapM_Some in E. revert l E.
  induction names as [|n names IH]; intros l E; inversion E as [|? x ? l' Hx Hl]; subst; cbn.
  - split; [by rewrite dom_empty_L|]. by intros n ?%not_elem_of_nil.
  - destruct (IH _ Hl) as [IHd IHn]. split; [by rewrite dom_insert_L, IHd|]. intros k Hk. destruct (decide (k = n)) as [->|Hne].
    + rewrite Hx, lookup_insert_eq. by split.
    + rewrite lookup_insert_ne by done. apply IHn. by apply elem_of_cons in Hk as [->|].
Qed.

Lemma elem_of_marked (b : bool) (l : list string) n : (n, b) ∈ map (λ n, (n, b)) l ↔ n ∈ l.
Proof. rewrite list_elem_of_In, in_map_iff, list_elem_of_In. split; [by intros (? & [= ->] & ?)|by exists n]. Qed.
Lemma NoDup_marked (b : bool) (X : gset string) : NoDup (map (λ n, (n, b)) (elements X)).*1.
Proof. rewrite map_map. cbn. rewrite map_id. apply NoDup_elements. Qed.

Lemma memory_effect shows B (c : cmd B) t : effect shows B c (memory B c t).1 t (memory B c t).2.
Proof.
  destruct c as [id| |id| | | |id| |id data|id|d|id|d|d|id|p|s|d name|s d name| |d name|d name data|d name|from to|d|id name d|id names d|X];
    cbn -[fresh_uuid uuid_form unused temporary longest digits bool_decide]; try done.
  - split; [done|]. apply fresh_uuid_unused.
  - split; [done|]. destruct (manifests t !! id); [intros ? [= ->]; done|done].
  - split; [done|]. by intros l [= <-].
  - split; [done|]. destruct (folders t !! d) as [f|] eqn:E; [|done]. exists f. split; [done|]. split.
    + apply NoDup_marked.
    + intros n. by rewrite elem_of_marked, elem_of_elements.
  - split; [done|]. split.
    + apply NoDup_marked.
    + intros n. by rewrite elem_of_marked, elem_of_elements, elem_of_backups_in.
  - split; [done|]. by intros H%bool_decide_eq_true.
  - set (s := digits _). exists s. split; [done|]. split; [|done]. apply eq_None_not_Some. intros Hs%named_dir%longest_le.
    assert (String.length s = S (longest (names_in t))) as E by apply digits_length. clearbody s.
    destruct p; cbn -[longest String.append] in Hs; rewrite str_length_app, E in Hs; lia.
  - destruct (content s t) as [data|]; cbn; [by exists data|by left].
  - split; [done|]. destruct (folders t !! d ≫= _); [intros ? [= ->]; done|done].
  - destruct (folders t !! from) as [f|] eqn:E; [|done]. case_bool_decide as Et; cbn; [by exists f|done].
  - destruct (disk t id name) as [image|]; cbn; [by exists image, image|by left].
  - destruct (all_images t id names) as [new|] eqn:E; cbn.
    + destruct (all_images_spec _ _ _ _ E) as [H1 H2]. exists new. split; [done|]. split; [done|]. intros n Hn. destruct (H2 n Hn) as [H3 ->]. done.
    + exists ∅. split; [|by rewrite dom_empty_L]. destruct t as [fs ms rs ck]. unfold with_folders. cbn. f_equal. symmetry. apply alter_id.
      intros f _. apply (left_id_L ∅ (∪)).
Qed.

Definition memory_step B (c : cmd B) (v : host) : B * host :=
  let '(r, t) := memory B c (now v) in (r, mkHost t (now v :: past v)).
#[export, program] Instance memory_host (shows : string → string) : Machine cmd host (documented shows) host :=
  { perform := memory_step; view := id }.
Next Obligation.
  intros shows B c v. pose proof (memory_effect shows B c (now v)) as H. unfold memory_step. destruct (memory B c (now v)) as [r t]. exists (now v). split; [|by split].
  split_and!; [done|done|done|by left].
Qed.

(** A machine with a disk of data, its backup, and its restoration after the disk was lost. *)
Definition sample_vm : VMManifest :=
  mkVMManifest None ["iso"] [] [] [] "m1" "web" "" 2 2048 20 "" [] "root" "" "" true.
Definition sample_yaml (s : string) : option VMManifest := if String.eqb s "m1.yml" then Some sample_vm else None.
Definition sample_stamp (z : Z) : string := "20250101-120000.000000000".
Definition sample_files : tree :=
  mkTree {[DiskDir "m1" := {["disk.qcow2" := "system"; "data.qcow2" := "data"; "seed.iso" := "seed"]}]} {["m1" := "m1.yml"]} ∅ 7.
Definition sample_backup := BackupVM sample_yaml (λ _, true) (λ _, "json") sample_stamp (λ _, "") "web".
Definition sample_name : string := "20250101-120000.000000000-aaaaaaaaaaaaaaaaaaaaaaaaaaaaaaaaaaaa".
Definition sample_restore := RestoreVM sample_yaml (λ _, "m1.yml") (λ _, true) (λ s, "02:" ++ s) 100 "m1" sample_name.
Definition memory_exec {A} : prog A → host → A * host := exec (Machine0 := memory_host id).
(** The disks are lost. *)
Definition disks_lost (v : host) : host := mkHost (with_folders (delete (DiskDir "m1")) (now v)) (past v).

Lemma sample_stamps : stamps sample_stamp.
Proof. intros z. vm_compute. reflexivity. Qed.

Definition sample_result : BackupResult := mkBackupResult "m1" "web" sample_name (BackupDir "m1" sample_name) ["disk.qcow2"; "data.qcow2"] false false 16.
Definition sample_made : host := (memory_exec sample_backup (mkHost sample_files [])).2.

Lemma plain_one t i data : manifests t = {[i := data]} → running t = ∅ → starts_with "." i = false → plain_ids t.
Proof.
  intros Em Er Hi id [[x Hx]|Hr]; [|rewrite Er in Hr; set_solver]. rewrite Em in Hx. by apply lookup_singleton_Some in Hx as [<- _].
Qed.
Lemma sample_plain : plain_ids (now (disks_lost sample_made)).
Proof. apply (plain_one _ "m1" "m1.yml"); vm_compute; reflexivity. Qed.

Lemma backups_whole_witness :
  (memory_exec sample_backup (mkHost sample_files [])).1 = inl sample_result ∧
  backed_up id sample_stamp (mkHost sample_files []) (inl sample_result) sample_made.
Proof.
  assert ((memory_exec sample_backup (mkHost sample_files [])).1 = inl sample_result) as E by (vm_compute; reflexivity). split; [exact E|].
  destruct (backups_whole (Machine0 := memory_host id) id sample_yaml (λ _, true) (λ _, "json") sample_stamp (λ _, "") "web" (mkHost sample_files [])
    sample_stamps) as (_ & _ & H). unfold memory_exec, sample_backup in E. rewrite E in H. exact H.
Defined.

Definition sample_man : VMManifest := exposeInterfaces (λ s, "02:" ++ s) sample_vm.

Lemma restore_harmless_witness :
  (memory_exec (sample_restore false) (disks_lost sample_made)).1 = Some (inl sample_man) ∧
  in_place {["disk.qcow2" := "system"; "data.qcow2" := "data"; "manifest.yml" := "m1.yml"; "metadata.json" := "json"]} "m1"
    (now (memory_exec (sample_restore false) (disks_lost sample_made)).2) ∧
  harmless sample_yaml (λ _, true) "m1" false (now (disks_lost sample_made)) (memory_exec (sample_restore false) (disks_lost sample_made)).2.
Proof.
  split; [vm_compute; reflexivity|]. split.
  - exists {["disk.qcow2" := "system"; "data.qcow2" := "data"]}. split; [vm_compute; reflexivity|]. intros n.
    destruct (decide (n = "disk.qcow2")) as [->|H1]; [reflexivity|]. destruct (decide (n = "data.qcow2")) as [->|H2]; [reflexivity|].
    rewrite !lookup_insert_ne, lookup_singleton_ne by congruence. destruct (is_disk n) eqn:E; [|done].
    rewrite !lookup_insert_ne, lookup_singleton_ne; [done|..]; try congruence; by intros <-.
  - exact (proj1 (proj2 (restore_harmless (Machine0 := memory_host id) id sample_yaml (λ _, "m1.yml") (λ _, true) (λ s, "02:" ++ s) 100 "m1" sample_name false
      (disks_lost sample_made) sample_plain))).
Defined.

Lemma backup_roundtrip_witness :
  let back := memory_exec (sample_restore false) (disks_lost sample_made) in
  ∃ t, recent (mkHost sample_files []) sample_made t ∧ disk t "m1" "data.qcow2" = Some "data" ∧ disk (now back.2) "m1" "data.qcow2" = Some "data".
Proof.
  intros back. destruct (backup_roundtrip (Machine0 := memory_host id) (Machine1 := memory_host id) id sample_yaml (λ _, "m1.yml") (λ _, true) (λ _, "json")
    sample_stamp (λ _, "") (λ s, "02:" ++ s) 100 "web" "m1" sample_result sample_man (mkHost sample_files []) (disks_lost sample_made) sample_stamps sample_plain)
    as (t & data & restored & H1 & _ & _ & _ & _ & H2); [vm_compute; reflexivity..|].
  exists t. split; [exact H1|]. assert (disk (now back.2) "m1" "data.qcow2" = Some "data") as E by (vm_compute; reflexivity).
  specialize (H2 "data.qcow2" eq_refl). change (ID sample_man) with "m1" in H2. split; [|exact E].
  pose proof (eq_trans (eq_sym (f_equal (fmap (M := option) id) E)) H2) as H. cbn in H. destruct (disk t "m1" "data.qcow2"); [|discriminate]. by injection H as <-.
Defined.
