(* ===== verification/BackupPruning.v ===== *)
(** * Which backups are pruned, and names for what is restored

    The retention of backups ([src/pkg/engine/schedule.go]) removes only backups that are too many or too old; and the
    search for a name of a restored machine ends exactly when names are left that are short enough. *)

From stdpp Require Import sorting pretty.
From S2P Require Import Prelude Programs JsString Regex Storage Backups BackupSafety.
Local Open Scope string_scope.

(** ** Names *)

Lemma substring_whole n s : (String.length s ≤ n)%nat → substring 0 n s = s.
Proof. revert n. induction s as [|c s IH]; intros [|n] H; cbn in *; [done|done|lia|]. by rewrite IH by lia. Qed.
Lemma substring_app n s t : (n ≤ String.length s)%nat → substring 0 n (s ++ t) = substring 0 n s.
Proof. revert n. induction s as [|c s IH]; intros [|n] H; cbn in *; [by destruct t|lia|done|]. by rewrite IH by lia. Qed.
Lemma substring_length n s : (n ≤ String.length s)%nat → String.length (substring 0 n s) = n.
Proof. revert n. induction s as [|c s IH]; intros [|n] H; cbn in *; [done|lia|done|]. by rewrite IH by lia. Qed.

(** A name that is found is free. *)
Lemma first_free_fresh existing base i tries name : first_free existing base i tries = Some name → name ∉ existing.
Proof.
  revert i. induction tries as [|k IH]; intros i; cbn [first_free]; [done|]. destruct (includes_str _ _) eqn:E; [apply IH|].
  intros [= <-] H. apply includes_str_spec in H. congruence.
Qed.

(** The candidates that were tried are taken. *)
Lemma first_free_none existing base i tries : first_free existing base i tries = None → ∀ j, (i ≤ j < i + tries)%nat → candidate base j ∈ existing.
Proof.
  revert i. induction tries as [|k IH]; intros i; cbn [first_free]; [lia|]. destruct (includes_str _ _) eqn:E; [|done].
  intros H j Hj. destruct (decide (j = i)) as [->|Hne]; [by apply includes_str_spec|]. apply (IH (S i) H). lia.
Qed.

Lemma candidate_short base i : (String.length (base ++ "-" ++ pretty i) ≤ 63)%nat → candidate base i = base ++ "-" ++ pretty i.
Proof. apply substring_whole. Qed.

(** The search for a name ends, with a free one, when the candidates up to the number of the names there are fit; and
    it never ends when the beginning already has the whole length and is taken, as when a machine whose name has 63
    characters is restored as a new one. *)
Theorem unique_name_ends existing base tries :
  (∀ name, unique_name existing base tries = Some name → name ∉ existing) ∧
  ((∀ i, (2 ≤ i ≤ length existing + 2)%nat → (String.length (cut63 base ++ "-" ++ pretty i) ≤ 63)%nat) → (length existing < tries)%nat →
    is_Some (unique_name existing base tries)) ∧
  ((63 ≤ String.length base)%nat → cut63 base ∈ existing → unique_name existing base tries = None).
Proof.
  unfold unique_name. split_and!.
  - intros name. destruct (includes_str _ _) eqn:E; [apply first_free_fresh|]. intros [= <-] H. apply includes_str_spec in H. congruence.
  - intros Hshort Htries. destruct (includes_str _ _) eqn:E; [|by eexists]. destruct (first_free _ _ _ _) eqn:En; [by eexists|exfalso].
    pose proof (first_free_none _ _ _ _ En) as Hall. set (l := (λ i, cut63 base ++ "-" ++ pretty i) <$> seq 2 (S (length existing))).
    assert (l ⊆ existing) as Hsub.
    { intros x (i & -> & Hi%elem_of_seq)%list_elem_of_fmap. rewrite <- candidate_short by (apply Hshort; lia). apply Hall. lia. }
    assert (NoDup l) as Hnd.
    { apply NoDup_fmap_2; [|apply NoDup_seq]. intros i j Hij%str_app_inv_head%str_app_inv_head. by apply (inj pretty). }
    pose proof (submseteq_length _ _ (NoDup_submseteq _ _ Hnd Hsub)) as Hl. unfold l in Hl. rewrite length_fmap, length_seq in Hl. lia.
  - intros Hlen Hin. apply includes_str_spec in Hin as Hin'. rewrite Hin'. generalize 2%nat. induction tries as [|k IH]; intros i; [done|]. cbn [first_free].
    assert (candidate (cut63 base) i = cut63 base) as ->.
    { unfold candidate, cut63 at 1. rewrite substring_app; [apply substring_whole|]; unfold cut63; rewrite substring_length; done. }
    rewrite Hin'. apply IH.
Qed.

Definition taken : list string := ["web"; "web-restored"; "web-restored-2"].
Lemma unique_name_ends_witness : unique_name taken "web-restored" 4 = Some "web-restored-3" ∧ is_Some (unique_name taken "web-restored" 4).
Proof.
  split; [vm_compute; reflexivity|]. destruct (unique_name_ends taken "web-restored" 4) as (_ & H & _). apply H; [|cbn; lia].
  intros i Hi. cbn in Hi. assert (i = 2 ∨ i = 3 ∨ i = 4 ∨ i = 5) as [->|[->|[->| ->]]] by lia; vm_compute; lia.
Defined.

(** ** Pruning *)

Section pruning.
Context (shows : string → string).
Context (Unmarshal : string → option VMManifest) (valid : VMManifest → bool) (read_info : string → BackupInfo → BackupInfo * bool).
Context (parse_rfc3339 parse_stamp : string → option Z).
Notation documented := (documented shows).
Notation safe := (Programs.safe documented).
Notation wp := (Programs.wp documented).
Notation manifest_of := (manifest_of Unmarshal valid).
Notation Resolve := (Resolve Unmarshal valid).
Notation readBackupMetadata := (readBackupMetadata read_info).
Notation read_backups := (read_backups read_info).
Notation ListBackups := (ListBackups Unmarshal valid read_info).
Notation DeleteBackup := (DeleteBackup Unmarshal valid).
Notation delete_all := (delete_all Unmarshal valid).
Notation backupCreatedAt := (backupCreatedAt parse_rfc3339 parse_stamp).
Notation stale_age := (stale_age parse_rfc3339 parse_stamp).
Notation PruneBackups := (PruneBackups Unmarshal valid read_info parse_rfc3339 parse_stamp).

(** A backup as the listing sees it. *)
Definition visible (t : tree) (id n : string) : Prop := is_Some (folders t !! BackupDir id n) ∧ starts_with "." n = false.

(** There are [k] backups of the machine that are later, by their names. *)
Definition outnumbered (t : tree) (id n : string) (k : Z) : Prop :=
  ∃ l, NoDup l ∧ Z.of_nat (length l) = k ∧ ∀ m, m ∈ l → visible t id m ∧ String.leb n m = true ∧ m ≠ n.

(** The time a backup may be taken to be from: what its metadata say, or its name. *)
Definition unread (n : string) : BackupInfo := mkBackupInfo n "" [] false false 0 "".
Definition dated (f : folder) (n : string) (c : Z) : Prop :=
  (∃ data, f !! "metadata.json" = Some data ∧ parse_rfc3339 (CreatedAt (read_info data (unread n)).1) = Some c) ∨ parse_stamp (substring 0 15 n) = Some c.

Definition day : Z := 24 * hour.
Definition stale (t : tree) (id : string) (keepLast maxAgeDays now : Z) (n : string) : Prop :=
  visible t id n ∧
  (((0 < keepLast)%Z ∧ outnumbered t id n keepLast) ∨
   ((0 < maxAgeDays)%Z ∧ ∃ f c, folders t !! BackupDir id n = Some f ∧ dated f n c ∧ (c < now - maxAgeDays * day)%Z)).

(** Metadata that cannot be parsed do not name another backup. *)
Definition sound_metadata (t : tree) : Prop := ∀ id n f data, folders t !! BackupDir id n = Some f → f !! "metadata.json" = Some data →
  (read_info data (unread n)).2 = true ∨ Timestamp (read_info data (unread n)).1 = n.

(** No machine has the identifier of another as its name. *)
Definition apart (t : tree) : Prop := ∀ i m j m', manifest_of t i m → manifest_of t j m' → Name m' = i → j = i.

(** Only stale backups of the machine that was named have gone, or are going. *)
Definition pruned (ref : string) (keepLast maxAgeDays : Z) (t0 : tree) (v : host) : Prop :=
  only (λ d, ∃ id m n, manifest_of t0 id m ∧ (id = ref ∨ Name m = ref) ∧ d = BackupDir id n ∧ stale t0 id keepLast maxAgeDays (clock (now v)) n)
    (λ _, False) t0 (now v).

Lemma cutoff_exact now days : (0 ≤ days ≤ 106751)%Z → cutoff now days = (now - days * day)%Z.
Proof.
  intros H. unfold cutoff, day, hour, second, int64. change (2 ^ 63)%Z with 9223372036854775808%Z. change (2 ^ 64)%Z with 18446744073709551616%Z.
  rewrite (Z.mod_small (- days * 24 + _)) by lia. rewrite Z.mod_small by lia. lia.
Qed.
(** Beyond, the product is cut to 64 bits, and the limit may lie in the future: every backup is too old. *)
Lemma cutoff_overflow now : (now < cutoff now 150000)%Z.
Proof. unfold cutoff. assert (int64 (int64 (Z.opp 150000 * 24) * hour) = 5486744073709551616)%Z as -> by (vm_compute; reflexivity). lia. Qed.

(** *** The listing *)

Lemma within_read_dir X Y d : within X Y (read_dir d).
Proof. by apply within_bind; [apply within_ask|]. Qed.
Lemma within_measured X Y d info : within X Y (measured d info).
Proof. apply within_bind; [apply within_dirSize|]. intros z. cbv zeta. apply within_bind; [apply within_read_dir|done]. Qed.
Lemma within_readBackupMetadata X Y id n : within X Y (readBackupMetadata id n).
Proof.
  apply within_bind; [by apply within_ask|]. intros [data|e]; [|apply within_measured]. destruct (read_info data _) as [info []]; [done|apply within_measured].
Qed.
Lemma within_read_backups X Y id l : within X Y (read_backups id l).
Proof.
  induction l as [|n l IH]; [done|]. apply within_bind; [apply within_readBackupMetadata|]. intros info. by apply within_bind.
Qed.

(** Measuring changes neither the name nor the time. *)
Lemma wp_measured d info v : wp (measured d info) v (λ r _, Timestamp r = Timestamp info ∧ CreatedAt r = CreatedAt info).
Proof.
  apply safe_bind. eapply safe_mono; [apply (wp_longer shows)|done|]. intros z v1 _ _. cbv zeta. apply safe_bind.
  eapply safe_mono; [apply (wp_longer shows)|done|]. intros l v2 _ _. apply safe_ret; [done|]. by destruct z, l.
Qed.

Definition listed (t : tree) (id n : string) (info : BackupInfo) : Prop :=
  Timestamp info = n ∧ ∀ f c, folders t !! BackupDir id n = Some f → backupCreatedAt info = Some c → dated f n c.

Lemma listed_dated t id n info : Timestamp info = n →
  (∀ f, folders t !! BackupDir id n = Some f → CreatedAt info = "" ∨ ∃ data, f !! "metadata.json" = Some data ∧ CreatedAt info = CreatedAt (read_info data (unread n)).1) →
  listed t id n info.
Proof.
  intros <- H. split; [done|]. intros f c Hf Hc. unfold Backups.backupCreatedAt in Hc.
  assert (∀ x, (if (15 <=? String.length (Timestamp info))%nat then parse_stamp (substring 0 15 (Timestamp info)) else None) = Some x → dated f (Timestamp info) x) as Hs.
  { intros x Hx. destruct (15 <=? _)%nat; [by right|done]. }
  destruct (H f Hf) as [E|(data & Hd & E)]; rewrite E in Hc; [by apply Hs|]. destruct (truthy _); [|by apply Hs].
  destruct (parse_rfc3339 _) eqn:Ep; [|by apply Hs]. injection Hc as <-. left. by exists data.
Qed.

Lemma wp_readBackupMetadata id n v : sound_metadata (now v) → is_Some (folders (now v) !! BackupDir id n) →
  wp (readBackupMetadata id n) v (λ r _, listed (now v) id n r).
Proof.
  intros Hs [f Hf]. apply safe_bind. apply (wp_command shows). intros r v1 H1 O1. destruct r as [data|e].
  - assert (f !! "metadata.json" = Some data) as Hd.
    { destruct H1 as (t & G & (E & Hd) & _). specialize (Hd data eq_refl). cbn in Hd. rewrite <- E in Hd.
      rewrite (only_nowhere _ _ _ (BackupDir id n) O1) in Hd by done. by rewrite Hf in Hd. }
    pose proof (Hs id n f data Hf Hd) as Hsound. destruct (read_info data (unread n)) as [info parsed] eqn:E. unfold unread in E. rewrite E.
    assert (∀ r : BackupInfo, Timestamp r = n → CreatedAt r = CreatedAt info → listed (now v) id n r) as Hl.
    { intros r Ht Hc. apply listed_dated; [done|]. intros f' Hf'. right. exists data. rewrite Hf in Hf'. injection Hf' as <-. split; [done|].
      rewrite Hc. unfold unread. by rewrite E. }
    destruct parsed; [by apply safe_ret; [|apply Hl]|]. eapply safe_mono; [apply wp_measured|done|]. intros r v2 _ [H2 H3]. apply Hl; [|done].
    rewrite H2. by destruct Hsound.
  - eapply safe_mono; [apply wp_measured|done|]. intros r v2 _ [H2 H3]. apply listed_dated; [done|]. intros f' _. by left.
Qed.

Lemma same_backups t t' id n : only (λ _, False) (λ _, False) t t' → folders t' !! BackupDir id n = folders t !! BackupDir id n.
Proof. intros O. by apply (only_nowhere _ _ _ _ O). Qed.
Lemma sound_metadata_only t t' : only (λ _, False) (λ _, False) t t' → sound_metadata t → sound_metadata t'.
Proof. intros O H id n f data. rewrite (same_backups _ _ _ _ O). apply H. Qed.
Lemma listed_only t t' id n info : only (λ _, False) (λ _, False) t t' → listed t' id n info → listed t id n info.
Proof. intros O [H1 H2]. split; [done|]. intros f c. rewrite <- (same_backups _ _ _ _ O). apply H2. Qed.

Lemma wp_read_backups id l v : sound_metadata (now v) → (∀ n, n ∈ l → is_Some (folders (now v) !! BackupDir id n)) →
  wp (read_backups id l) v (λ r _, Forall2 (listed (now v) id) l r).
Proof.
  revert v. induction l as [|n l IH]; intros v Hs Hl; [apply safe_ret; [done|constructor]|]. apply safe_bind.
  eapply (wp_step shows (λ _, False) (λ _, False)); [apply within_readBackupMetadata|apply wp_readBackupMetadata; [done|apply Hl; left]|].
  intros info v1 O1 H1. apply safe_bind. eapply safe_mono; [apply IH|done|].
  - by eapply sound_metadata_only.
  - intros m Hm. rewrite (same_backups _ _ _ _ O1). apply Hl. by right.
  - intros infos v2 _ H2. apply safe_ret; [done|]. constructor; [done|]. eapply Forall2_impl; [exact H2|]. intros m i. by apply listed_only.
Qed.

Record inventory (t : tree) (id : string) (infos : list BackupInfo) : Prop := mkInventory {
  in_names : NoDup (Timestamp <$> infos);
  in_all : ∀ n, n ∈ Timestamp <$> infos ↔ visible t id n;
  in_listed : ∀ i, i ∈ infos → listed t id (Timestamp i) i;
  in_sorted : StronglySorted later infos
}.

#[local] Instance later_total : Total later.
Proof. intros a b. destruct leb_total_order as (H & _). by apply H. Qed.
#[local] Instance later_trans : Transitive later.
Proof. intros a b c. unfold later. destruct leb_total_order as (_ & H & _). eauto. Qed.

Lemma wp_Resolve_id id m0 v : apart (now v) → manifest_of (now v) id m0 → wp (Resolve id) v (λ r _, ∀ m, r = inl m → ID m = id).
Proof.
  intros Ha Hm. eapply safe_mono; [apply (wp_Resolve shows)|done|]. intros r v' _ H m Er. destruct (H m Er) as [Hm' [E|E]]; [done|].
  by apply (Ha id m0 (ID m) m).
Qed.

Lemma wp_ListBackups id m0 v : apart (now v) → manifest_of (now v) id m0 → sound_metadata (now v) →
  wp (ListBackups id) v (λ r _, ∀ infos, r = inl infos → inventory (now v) id infos).
Proof.
  intros Ha Hm Hs. unfold Backups.ListBackups. apply safe_checked.
  eapply (wp_step shows (λ _, False) (λ _, False)); [apply within_Resolve|by apply (wp_Resolve_id _ m0)|]. intros r v1 O1 H1. destruct r as [m|e]; [|done].
  rewrite (H1 m eq_refl). apply safe_bind. apply (wp_command shows). intros r v2 H2 O2.
  assert (only (λ _, False) (λ _, False) (now v) (now v2)) as O by (eapply only_trans; [exact O1|exact O2]).
  destruct H2 as (t2 & _ & (E2 & Hr) & _). rewrite <- E2 in Hr. clear t2 E2.
  destruct r as [l|[e|]]; [|by apply safe_ret|].
  2:{ apply safe_ret; [done|]. intros infos [= <-]. split; [constructor| |by intros ? ?%not_elem_of_nil|constructor].
      intros n. split; [by intros ?%not_elem_of_nil|]. intros [[f Hf] _]. rewrite <- (same_backups _ _ _ _ O), Hr in Hf. done. }
  destruct Hr as [Hnd Hl]. set (names := (List.filter (λ e : string * bool, e.2 && negb (starts_with "." e.1)) l).*1).
  assert (∀ n, n ∈ names ↔ visible (now v) id n) as Hn.
  { intros n. unfold names, visible. rewrite list_elem_of_fmap, <- (same_backups _ _ _ _ O), <- Hl. split.
    - intros ([n' b] & -> & [Hin [Hb Hd]%andb_true_iff]%elem_of_List_filter). cbn in *. subst b. split; [done|]. by apply negb_true_iff in Hd.
    - intros [Hin Hd]. exists (n, true). split; [done|]. apply elem_of_List_filter. split; [done|]. cbn. by rewrite Hd. }
  apply safe_bind. eapply safe_mono; [apply wp_read_backups|done|].
  - by eapply sound_metadata_only.
  - intros n [Hv _]%Hn. by rewrite (same_backups _ _ _ _ O).
  - intros infos v3 _ H3. apply safe_ret; [done|]. intros infos' [= <-].
    assert (Timestamp <$> infos = names) as En.
    { clear -H3. induction H3 as [|n i ns k [E _] _ IH]; [done|]. cbn. by rewrite E, IH. }
    assert (merge_sort later infos ≡ₚ infos) as Ep by apply merge_sort_Permutation.
    split.
    + rewrite Ep, En. unfold names. clear -Hnd. induction l as [|[n b] l IH]; [constructor|]. cbn in *. apply NoDup_cons in Hnd as [H1 H2].
      destruct (b && _); [|by apply IH]. cbn. apply NoDup_cons. split; [|by apply IH]. intros (x & -> & [Hx _]%elem_of_List_filter)%list_elem_of_fmap.
      apply H1, list_elem_of_fmap. by exists x.
    + intros n. by rewrite Ep, En.
    + intros i Hi. rewrite Ep in Hi. apply list_elem_of_lookup in Hi as [k Hk]. destruct (Forall2_lookup_r _ _ _ _ _ H3 Hk) as (n & _ & Hli).
      eapply listed_only; [exact O|]. destruct Hli as [<- Hd]. by split.
    + apply StronglySorted_merge_sort; apply _.
Qed.

(** *** What is stale *)

Lemma stale_count_stale t id infos k n : inventory t id infos → n ∈ stale_count k infos → visible t id n ∧ (0 < k)%Z ∧ outnumbered t id n k.
Proof.
  intros [Hnd Hall _ Hsort] Hn. unfold stale_count in Hn. destruct (0 <? k)%Z eqn:E1; [|by apply not_elem_of_nil in Hn].
  destruct (k <? _)%Z eqn:E2; [|by apply not_elem_of_nil in Hn]. apply Z.ltb_lt in E1, E2. cbn in Hn. set (j := Z.to_nat k) in *.
  apply list_elem_of_fmap in Hn as (x & -> & Hx). pose proof (take_drop j infos) as Ed. rewrite <- Ed in Hnd, Hsort. rewrite fmap_app in Hnd.
  apply NoDup_app in Hnd as (Ht & Hdis & _).
  assert (Timestamp x ∈ Timestamp <$> drop j infos) as Hxd by by apply list_elem_of_fmap_2.
  split; [|split; [done|]].
  - apply Hall. rewrite <- Ed, fmap_app. apply elem_of_app. by right.
  - exists (Timestamp <$> take j infos). split; [done|]. split; [rewrite length_fmap, length_take; lia|]. intros m Hm. split_and!.
    + apply Hall. rewrite <- Ed, fmap_app. apply elem_of_app. by left.
    + apply list_elem_of_fmap in Hm as (y & -> & Hy). exact (StronglySorted_app_1_elem_of _ _ _ _ _ Hsort Hy Hx).
    + intros ->. by apply (Hdis _ Hm).
Qed.

Lemma stale_age_stale t id infos now days n : inventory t id infos → (0 ≤ days ≤ 106751)%Z → n ∈ stale_age now days infos →
  visible t id n ∧ (0 < days)%Z ∧ ∃ f c, folders t !! BackupDir id n = Some f ∧ dated f n c ∧ (c < now - days * day)%Z.
Proof.
  intros [_ Hall Hl _] Hd Hn. unfold Backups.stale_age in Hn. destruct (0 <? days)%Z eqn:E; [|by apply not_elem_of_nil in Hn]. apply Z.ltb_lt in E.
  apply list_elem_of_fmap in Hn as (x & -> & [Hx Hc]%elem_of_List_filter). destruct (backupCreatedAt x) as [c|] eqn:Ec; [|done].
  apply Z.ltb_lt in Hc. rewrite cutoff_exact in Hc by done.
  assert (visible t id (Timestamp x)) as Hv by by apply Hall, list_elem_of_fmap_2. split; [done|]. split; [done|].
  destruct Hv as [[f Hf] _]. exists f, c. split_and!; [done| |done]. by apply (Hl x Hx).
Qed.

(** Every backup that is outnumbered is found. *)
Lemma outnumbered_stale t id infos k n : inventory t id infos → (0 < k)%Z → visible t id n → outnumbered t id n k → n ∈ stale_count k infos.
Proof.
  intros [Hnd Hall _ Hsort] Hk Hv (l & Hl & El & Hlater). unfold stale_count. set (j := Z.to_nat k).
  apply Hall in Hv as Hin. pose proof (take_drop j infos) as Ed. rewrite <- Ed in Hin, Hsort. rewrite fmap_app in Hin. apply elem_of_app in Hin.
  assert (n ∉ Timestamp <$> take j infos) as Hnot.
  { intros (x & -> & Hx)%list_elem_of_fmap.
    assert (l ⊆ (filter (.≠ Timestamp x) (Timestamp <$> take j infos))) as Hsub.
    { intros m Hm. destruct (Hlater m Hm) as (Hvm & Hle & Hne). apply list_elem_of_filter. split; [done|].
      apply Hall in Hvm. rewrite <- Ed, fmap_app in Hvm. apply elem_of_app in Hvm as [|(y & -> & Hy)%list_elem_of_fmap]; [done|].
      pose proof (StronglySorted_app_1_elem_of _ _ _ _ _ Hsort Hx Hy) as Hle'. destruct Hne. destruct leb_total_order as (_ & _ & Ha). by apply Ha. }
    pose proof (submseteq_length _ _ (NoDup_submseteq _ _ Hl Hsub)) as Hlen.
    assert (length (filter (.≠ Timestamp x) (Timestamp <$> take j infos)) < length (Timestamp <$> take j infos))%nat as Hlt.
    { apply length_filter_lt with (Timestamp x); [by apply list_elem_of_fmap_2|]. intros H. by apply H. }
    rewrite length_fmap, length_take in Hlt. lia. }
  destruct Hin as [|Hin]; [done|]. assert (k < Z.of_nat (length infos))%Z as Hlt.
  { destruct (decide (length infos ≤ j)%nat); [|lia]. rewrite drop_ge in Hin by done. by apply not_elem_of_nil in Hin. }
  apply Z.ltb_lt in Hk, Hlt. rewrite Hk, Hlt. exact Hin.
Qed.

(** *** The deletions *)

Lemma pruned_only ref keepLast days t0 v v' : only (λ _, False) (λ _, False) (now v) (now v') → pruned ref keepLast days t0 v → pruned ref keepLast days t0 v'.
Proof.
  intros O H. eapply only_trans; [|apply only_none_mono; exact O]. eapply only_mono; [| |exact H]; [|done].
  intros d (id & m & n & Hm & Hr & Ed & Hv & Hs). exists id, m, n. split_and!; [done..|]. split; [done|].
  destruct Hs as [Hs|(Hd & f & c & Hf & Hc & Hlt)]; [by left|right]. split; [done|]. exists f, c. pose proof (o_clock _ _ _ _ O). split_and!; [done|done|lia].
Qed.

Lemma pruned_quiet {A} ref keepLast days t0 (p : prog A) v (Q : A → host → Prop) : within (λ _, False) (λ _, False) p → pruned ref keepLast days t0 v → wp p v Q →
  safe p v (pruned ref keepLast days t0) (λ a v', pruned ref keepLast days t0 v' ∧ only (λ _, False) (λ _, False) (now v) (now v') ∧ Q a v').
Proof.
  intros Hw Hh Hp. pose proof (within_safe shows _ _ p v (now v) Hw (only_refl _ _ _)) as H.
  eapply safe_mono; [exact (safe_and _ _ _ _ _ _ H Hp)| |].
  - intros v' [O _]. by eapply pruned_only.
  - intros a v' [O _] [_ Hq]. split_and!; [by eapply pruned_only|done|done].
Qed.

Section machine.
(** The machine that was named, at the beginning. *)
Context (ref : string) (keepLast days : Z) (t0 : tree) (id : string) (m0 : VMManifest).
Hypothesis (Hapart : apart t0) (Hm0 : manifest_of t0 id m0) (Hnamed : id = ref ∨ Name m0 = ref).
Notation pruned := (pruned ref keepLast days t0).

Lemma pruned_apart v : pruned v → apart (now v) ∧ manifest_of (now v) id m0.
Proof using Hapart Hm0.
  intros H. pose proof (only_nothing _ _ _ H) as E. split.
  - intros i m j m' [Ei (d & Hd & Hp)] [Ej (d' & Hd' & Hp')]. rewrite E in Hd, Hd'. apply (Hapart i m j m'); split; eauto.
  - destruct Hm0 as [Ei (d & Hd & Hp)]. split; [done|]. exists d. by rewrite E.
Qed.

Lemma safe_DeleteBackup n v : pruned v → stale t0 id keepLast days (clock (now v)) n →
  safe (DeleteBackup id n) v pruned (λ r v', pruned v' ∧ (clock (now v) ≤ clock (now v'))%Z ∧ (∀ k, folders (now v) !! BackupDir id k = None → folders (now v') !! BackupDir id k = None) ∧
    (r = None → folders (now v') !! BackupDir id n = None)).
Proof using Hapart Hm0 Hnamed.
  intros Hp Hs. unfold Backups.DeleteBackup. destruct (negb _); [by apply safe_ret|]. destruct (pruned_apart v Hp) as [Ha Hm].
  apply safe_bind. eapply safe_mono; [eapply pruned_quiet; [apply within_Resolve|done|by apply (wp_Resolve_id _ m0)]|done|].
  intros r v1 _ (P1 & O1 & H1). assert (∀ k, folders (now v1) !! BackupDir id k = folders (now v) !! BackupDir id k) as E1 by (intros k; by apply same_backups).
  pose proof (o_clock _ _ _ _ O1) as C1. destruct r as [m|e]; [|apply safe_ret; [done|]; split_and!; [done|done|intros k; by rewrite E1|done]].
  rewrite (H1 m eq_refl). cbv zeta. apply safe_bind.
  eapply safe_mono; [eapply (pruned_quiet _ _ _ _ _ _ (λ _ _, True)); [by apply within_ask|done|by apply (wp_command shows)]|done|].
  intros missing v2 _ (P2 & O2 & _). assert (∀ k, folders (now v2) !! BackupDir id k = folders (now v) !! BackupDir id k) as E2.
  { intros k. by rewrite (same_backups _ _ _ _ O2), E1. }
  pose proof (o_clock _ _ _ _ O2) as C2. destruct missing; [apply safe_ret; [done|]; split_and!; [done|lia|intros k; by rewrite E2|done]|].
  apply safe_ask; [done|]. intros r v3 H3. pose proof (documented_only shows _ _ _ _ H3) as O3. pose proof (o_clock _ _ _ _ O3) as C3.
  assert (pruned v3) as P3.
  { eapply only_trans; [eapply only_mono; [| |exact P2]; [|done]|eapply only_mono; [| |exact O3]; [|done]].
    - intros d (i & m' & k & Hm' & Hr & Ed & Hv & Hst). exists i, m', k. split_and!; [done..|]. split; [done|].
      destruct Hst as [Hst|(Hd & f & c & Hf & Hc & Hlt)]; [by left|right]. split; [done|]. exists f, c. split_and!; [done|done|lia].
    - intros d ->. exists id, m0, n. split_and!; [done..|]. destruct Hs as [Hv Hst]. split; [done|].
      destruct Hst as [Hst|(Hd & f & c & Hf & Hc & Hlt)]; [by left|right]. split; [done|]. exists f, c. split_and!; [done|done|lia]. }
  split; [done|]. split; [done|]. split; [lia|].
  destruct (documented_at shows _ _ _ _ (BackupDir id n) H3) as (t & G & Ef & E3); [done|]. cbn in Ef. split.
  - intros k Hk. rewrite <- E2 in Hk. assert (folders t !! BackupDir id k = None) as Ht.
    { rewrite <- Hk. by apply (only_nowhere _ _ _ _ (guest_writes_only (λ _, False) (λ _, False) _ _ G)). }
    destruct (decide (k = n)) as [->|Hne].
    + destruct r as [e|]; [destruct Ef as [->|(P & dec & ->)]|rewrite Ef]; cbn; rewrite ?lookup_delete_eq, ?lookup_alter_eq, ?Ht; done.
    + rewrite <- Ht. destruct r as [e|]; [destruct Ef as [->|(P & dec & ->)]|rewrite Ef]; cbn; by rewrite ?lookup_delete_ne, ?lookup_alter_ne by congruence.
  - intros ->. rewrite Ef. apply lookup_delete_eq.
Qed.
Lemma stale_later c c' n : (c ≤ c')%Z → stale t0 id keepLast days c n → stale t0 id keepLast days c' n.
Proof using.
  intros Hc [Hv Hs]. split; [done|]. destruct Hs as [Hs|(Hd & f & x & Hf & Hx & Hlt)]; [by left|right]. split; [done|]. exists f, x. split_and!; [done|done|lia].
Qed.

Lemma safe_delete_all l z v : pruned v → (∀ n, n ∈ l → stale t0 id keepLast days (clock (now v)) n) →
  safe (delete_all id l z) v pruned (λ r v', ∀ y, r = (y, None) → ∀ n, n ∈ l ∨ folders (now v) !! BackupDir id n = None → folders (now v') !! BackupDir id n = None).
Proof using Hapart Hm0 Hnamed.
  revert z v. induction l as [|n l IH]; intros z v Hp Hs.
  { apply safe_ret; [done|]. intros y _ n [?%not_elem_of_nil|?]; done. }
  apply safe_bind. eapply safe_mono; [apply safe_DeleteBackup; [done|apply Hs; left]|done|]. intros e v1 _ (P1 & C1 & Hkeep & Hgone).
  destruct e as [e|]; [by apply safe_ret|]. eapply safe_mono; [apply (IH (z + 1)%Z v1 P1)|done|].
  - intros k Hk. eapply stale_later; [exact C1|]. apply Hs. by right.
  - intros r v2 _ H2 y Ey k [[->|Hk]%elem_of_cons|Hk]; apply (H2 y Ey); [right|left|right]; auto.
Qed.
End machine.

Lemma pruned_refl ref keepLast days v : pruned ref keepLast days (now v) v.
Proof. apply only_refl. Qed.

Lemma inventory_only t t' id infos : only (λ _, False) (λ _, False) t t' → inventory t' id infos → inventory t id infos.
Proof.
  intros O [H1 H2 H3 H4]. split; [done| | |done].
  - intros n. rewrite H2. unfold visible. by rewrite (same_backups _ _ _ _ O).
  - intros i Hi. eapply listed_only; [exact O|auto].
Qed.

(** What there is at the end, when nothing failed. *)
Definition outnumbered_gone (ref : string) (keepLast : Z) (t0 : tree) (r : Z * option string) (v : host) : Prop :=
  ∀ z, r = (z, None) → ∃ id m, manifest_of t0 id m ∧ (id = ref ∨ Name m = ref) ∧
    ∀ n, visible t0 id n → (0 < keepLast)%Z → outnumbered t0 id n keepLast → folders (now v) !! BackupDir id n = None.

Lemma safe_PruneBackups ref keepLast days v : apart (now v) → sound_metadata (now v) → (0 ≤ days ≤ 106751)%Z →
  safe (PruneBackups ref keepLast days) v (pruned ref keepLast days (now v)) (outnumbered_gone ref keepLast (now v)).
Proof.
  intros Ha Hs Hd. pose proof (pruned_refl ref keepLast days v) as P0. unfold Backups.PruneBackups. apply safe_bind.
  eapply safe_mono; [eapply pruned_quiet; [apply within_Resolve|done|apply (wp_Resolve shows)]|done|].
  intros r v1 _ (P1 & O1 & H1). destruct r as [m|e]; [|by apply safe_ret]. destruct (H1 m eq_refl) as [Hm Href].
  destruct (pruned_apart ref keepLast days (now v) (ID m) m Ha Hm v1 P1) as [Ha1 Hm1]. apply safe_bind.
  eapply safe_mono; [eapply pruned_quiet; [|done|apply (wp_ListBackups _ m); [done|done|by eapply sound_metadata_only]]|done|].
  { apply within_checked; [apply within_Resolve|]. intros m'. apply within_bind; [by apply within_ask|]. intros [l|[e|]]; [|done..].
    apply within_bind; [apply within_read_backups|done]. }
  intros r v2 _ (P2 & O2 & H2). destruct r as [infos|e]; [|by apply safe_ret].
  assert (inventory (now v) (ID m) infos) as Hi by (eapply inventory_only; [exact O1|by apply H2]).
  apply safe_bind.
  eapply safe_mono; [eapply (pruned_quiet _ _ _ _ _ _ (λ now' v', (0 < days → now' ≤ clock (now v'))%Z)); [by destruct (0 <? days)%Z|done|]|done|].
  { destruct (0 <? days)%Z eqn:E; [|apply safe_ret; [done|]; apply Z.ltb_ge in E; lia].
    apply (wp_command shows). intros r v3 (t & _ & (-> & ->) & _) _ _. done. }
  intros time v3 _ (P3 & O3 & H3). apply safe_bind.
  eapply safe_mono; [eapply (pruned_quiet _ _ _ _ _ _ (λ l _, ∀ n, n ∈ l ↔ n ∈ stale_count keepLast infos ∨ n ∈ stale_age time days infos)); [by apply within_ask|done|]|done|].
  { apply (wp_command shows). intros l v4 (t & _ & (_ & El) & _) _ n. by rewrite El, elem_of_elements, elem_of_list_to_set, elem_of_app. }
  intros l v4 _ (P4 & O4 & H4).
  eapply safe_mono; [apply (safe_delete_all ref keepLast days (now v) (ID m) m Ha Hm Href l 0 v4 P4)|done|].
  - intros n [Hn|Hn]%H4.
    + destruct (stale_count_stale _ _ _ _ _ Hi Hn) as (Hv & Hk & Ho). split; [done|by left].
    + destruct (stale_age_stale _ _ _ _ _ _ Hi Hd Hn) as (Hv & Hpos & f & c & Hf & Hc & Hlt). split; [done|right]. split; [done|]. exists f, c.
      specialize (H3 Hpos). pose proof (o_clock _ _ _ _ O4). split_and!; [done|done|lia].
  - intros r v5 _ H5 z Ez. exists (ID m), m. split_and!; [done|done|]. intros n Hv Hk Ho. apply (H5 z Ez). left. apply H4. left.
    by eapply outnumbered_stale.
Qed.
End pruning.

(** C8. Pruning removes only what is stale. At any moment, whatever fails and wherever the process is killed, no machine and
    no manifest has been touched, and every backup that has changed is a backup of the machine that was named which
    either is not among its [keepLast] latest, or is older than [maxAgeDays] days, by its metadata or its name; and
    when nothing failed, every backup that is not among the latest is gone. The number of days is at most 106751, where
    the product of nanoseconds still fits into 64 bits. *)
Theorem prune_keeps {M} (shows : string → string) `{!Machine cmd host (documented shows) M} Unmarshal valid read_info parse_rfc3339 parse_stamp
    ref keepLast maxAgeDays (m : M) :
  apart Unmarshal valid (now (view m)) → sound_metadata read_info (now (view m)) → (0 ≤ maxAgeDays ≤ 106751)%Z →
  let run := PruneBackups Unmarshal valid read_info parse_rfc3339 parse_stamp ref keepLast maxAgeDays in
  let kept := pruned Unmarshal valid read_info parse_rfc3339 parse_stamp ref keepLast maxAgeDays (now (view m)) in
  (∀ k, kept (view (killed k run m))) ∧ kept (view (exec run m).2) ∧
  outnumbered_gone Unmarshal valid ref keepLast (now (view m)) (exec run m).1 (view (exec run m).2).
Proof.
  intros Ha Hs Hd run kept.
  pose proof (safe_PruneBackups shows Unmarshal valid read_info parse_rfc3339 parse_stamp ref keepLast maxAgeDays (view m) Ha Hs Hd) as H. split.
  - intros k. by eapply safe_killed.
  - by apply (safe_exec run m _ _ H).
Qed.

Definition sample_stamp_of (day : string) : string := "202501" ++ day ++ "-120000.000000000-0123456789abcdef0123456789abcdef0123".
Definition three_backups : tree :=
  mkTree {[BackupDir "m1" (sample_stamp_of "01") := {["disk.qcow2" := "a"]}; BackupDir "m1" (sample_stamp_of "02") := {["disk.qcow2" := "b"]};
           BackupDir "m1" (sample_stamp_of "03") := {["disk.qcow2" := "c"]}; DiskDir "m1" := {["disk.qcow2" := "d"]}]} {["m1" := "m1.yml"]} ∅ 0.

Lemma apart_one Unmarshal valid t i data : manifests t = {[i := data]} → apart Unmarshal valid t.
Proof.
  intros E j m k m' [_ (d & Hd & _)] [_ (d' & Hd' & _)] _. rewrite E in Hd, Hd'.
  apply lookup_singleton_Some in Hd as [<- _]. by apply lookup_singleton_Some in Hd' as [<- _].
Qed.

Lemma prune_keeps_witness :
  let out := memory_exec (PruneBackups sample_yaml (λ _, true) (λ _ i, (i, false)) (λ _, None) (λ _, None) "web" 1 30) (mkHost three_backups []) in
  out.1 = (2%Z, None) ∧ folders (now out.2) !! BackupDir "m1" (sample_stamp_of "02") = None ∧
  is_Some (folders (now out.2) !! BackupDir "m1" (sample_stamp_of "03")) ∧
  pruned sample_yaml (λ _, true) (λ _ i, (i, false)) (λ _, None) (λ _, None) "web" 1 30 three_backups out.2.
Proof.
  split; [vm_compute; reflexivity|]. split; [vm_compute; reflexivity|]. split; [eexists; vm_compute; reflexivity|].
  assert (0 ≤ 30 ≤ 106751)%Z as Hd by lia.
  exact (proj1 (proj2 (prune_keeps (Machine0 := memory_host id) id sample_yaml (λ _, true) (λ _ i, (i, false)) (λ _, None) (λ _, None) "web" 1 30
    (mkHost three_backups []) (apart_one _ _ three_backups "m1" "m1.yml" eq_refl) (λ _ _ _ _ _ _, or_intror eq_refl) Hd))).
Defined.

(** With a limit of 150000 days, which the console accepts, a backup made one second ago is older than the limit. *)
Lemma recent_backup_pruned :
  stale_age (λ _, None) (λ _, Some (1735732800 * second)%Z) (1735732801 * second) 150000 [mkBackupInfo (sample_stamp_of "01") "web" [] false false 0 ""] = [sample_stamp_of "01"].
Proof. vm_compute. reflexivity. Qed.

(** Restoring a machine with a name of 63 characters as a new one looks for a name for ever. *)
Definition long_name : string := "aaaaaaaaaaaaaaaaaaaaaaaaaaaaaaaaaaaaaaaaaaaaaaaaaaaaaaaaaaaaaaa".
Lemma long_name_endless tries : unique_name [long_name] (long_name ++ "-restored") tries = None.
Proof. destruct (unique_name_ends [long_name] (long_name ++ "-restored") tries) as (_ & _ & H). apply H; [vm_compute; lia|left]. Qed.

(** Killed between the removal of the disks and the renaming, a restoration leaves the machine without disks. *)
Lemma disks_gone_meanwhile :
  let v := mkHost (with_folders (insert (DiskDir "m1") {["disk.qcow2" := "system"]}) (now sample_made)) [] in
  ∃ k, folders (now (killed (Machine0 := memory_host id) k (sample_restore false) v)) !! DiskDir "m1" = None.
Proof. exists 15%nat. vm_compute. reflexivity. Qed.
